(* ===== verification/_CoqProject ===== *)
-Q . S2P
Prelude.v
Ram.v
Kheap.v
KheapSpec.v
KArray.v
Queue.v
Bitmap.v
Kstate.v
Thread.v
Synch.v
Process.v
ThreadSpec.v
System.v
SystemInv.v
SystemSafe.v
SystemProc.v
Boot.v
SystemTheorems.v
SystemDemo.v
Bytes.v
Mem.v
CString.v
Printf.v
Uio.v
Device.v
Lhd.v
Sfs.v
SfsOps.v
SfsSpec.v
SfsFile.v
SfsWrite.v
SfsDir.v
SfsTrunc.v
SfsVnode.v
SfsReclaim.v
SfsName.v
SfsSystem.v
SfsMount.v
Mksfs.v
SfsTheorems.v
SfsDemo.v
Vm.v
VmSpec.v
VmDemo.v
Malloc.v
MallocSpec.v
MallocDemo.v
Vfs.v
VfsSpec.v
VfsTheorems.v
VfsDev.v
VfsDemo.v
Stoplight.v
Exec.v
ExecSpec.v
ExecTheorems.v
ExecDemo.v
Console.v
ConsoleDemo.v
Kgets.v
Catlock.v
Trap.v
TrapSpec.v
TrapDemo.v
Emu.v
EmuSpec.v
EmuDemo.v
Random.v
Lamebus.v
LamebusDemo.v
Pseudorand.v
