(* ===== verification/Prelude.v ===== *)
(** * A verification of OS/161

    OS/161 is a small operating system for a simulated MIPS machine: a kernel
    with threads, processes, virtual memory, a file system and device
    drivers, a C library and some user programs.  This development models
    the kernel and parts of the library in Gallina, one file or group of
    files per component, and proves what they do.  Names of definitions are
    those of the functions in the sources; paths below are under src/.

    ** How the code is modelled

    C functions are total functions on explicit states.  A routine ends in an
    [outcome]: it returns ([Done]), stops the machine ([Panic]), does
    something undefined ([Fault]) or does not return ([Diverge]).  Error codes
    are ordinary values.  Integers are in Z and the wrap-around of 32-bit
    arithmetic is written out ([u32], [s32]).  Buffers are lists of bytes,
    memory that is shared is a finite map from addresses, structures are
    records, and tables of pointers are maps from addresses to records.
    Allocation can fail everywhere.  The allocator, the page allocator, disks,
    cards, file systems below the VFS layer and the environment of a program
    are classes with laws; each law is proved for the model of the component
    that implements it, or the class is instantiated by a concrete device in
    one of the Demo files.  Code that runs interleaved is a transition system
    whose steps are what the code does atomically (with interrupts off, or in
    one access to shared memory).

    ** Memory

    Ram (kern/arch/mips/mips/ram.c, the page allocator of kern/vm/addrspace.c)
    hands out physical pages; Kheap and KheapSpec (kern/lib/kheap.c) build
    kmalloc on it and prove that it refines the map of the blocks handed out:
    blocks are disjoint, their contents stay, no check of the allocator fails
    and nothing leaks.  Prelude defines what the rest of the kernel uses of it
    ([KHeap], [KHeapLaws], ownership [heap_owns]).  KArray, Queue and Bitmap
    (kern/lib/array.c, queue.c, bitmap.c) are the containers, as lists and
    sets.  Vm, VmSpec, VmDemo (kern/vm/addrspace.c, tlb_mips1.S) are address
    spaces and the TLB: a process reaches its own pages only, and copies are
    exact.

    ** Threads

    Kstate, Thread, Synch, Process (kern/thread, kern/arch/mips/mips/spl.c,
    pcb.c and the process calls of syscall.c) model scheduler, sleep queues,
    semaphores, locks, condition variables, fork, waitpid and exit over one
    record of global variables; a thread that is switched away keeps what it
    has still to do as a list of frames.  System makes this a transition
    system of calls, scheduling decisions and interrupts; ThreadSpec is a
    program logic, SystemInv, SystemSafe and SystemProc prove the invariant,
    Boot that it holds at the start, SystemTheorems what follows: every thread
    is in one place, no wakeup is lost, locks exclude, the scheduler is fair,
    kernel code does nothing undefined.  SystemDemo runs it.  Stoplight and
    Catlock (kern/asst1) are two clients: the cars never collide and all
    leave; the cats and mice share bowls safely but can meet and can sleep for
    ever.

    ** Library code

    Bytes, Mem, CString, Printf (lib/libc) and Uio (kern/lib/copyinout.c,
    kern/userprog/uio.c): copying by words or bytes is copying, strings are
    sequences up to a null, printf writes numerals that atoi reads back,
    copyout never writes outside user memory, uiomove moves what it says.
    Malloc, MallocSpec, MallocDemo (lib/libc/malloc.c): the allocator of user
    programs refines disjoint blocks over sbrk.

    ** Files

    Device and Lhd (kern/include/dev.h, kern/dev/lamebus/lhd.c): over a card in
    good order the driver is a disk.  Sfs, SfsOps (kern/fs/sfs) are the file
    system on disk blocks; SfsSpec, SfsFile, SfsWrite, SfsDir, SfsTrunc,
    SfsVnode, SfsReclaim, SfsName, SfsSystem, SfsMount prove that it refines a
    map from names to files of bytes, that what is synced is found again after
    a mount, and that a volume made by Mksfs (sbin/mksfs) can be mounted.
    SfsTheorems states this and SfsDemo runs it on a simulated disk.  Vfs,
    VfsDev (kern/fs/vfs) are path names, devices and mounting over any file
    system; VfsSpec and VfsTheorems prove that no reference to a vnode is lost
    or given back twice.  Emu, EmuSpec, EmuDemo (kern/dev/lamebus/emu.c) are
    the file system of the host.

    ** Programs and traps

    Exec, ExecSpec, ExecTheorems, ExecDemo (kern/userprog/loadelf.c,
    runprogram.c, sys_execv): a program that is started is in memory as its
    file says, with its arguments on the stack.  Trap, TrapSpec, TrapDemo
    (kern/arch/mips/mips/trap.c, syscall.c): page faults, the convention of
    system calls, read and write.

    ** Console

    Console, ConsoleDemo (kern/dev/generic/console.c, kern/dev/lamebus/lser.c,
    con_lser.c): characters go to the card once and in order.  Kgets
    (kern/lib/kgets.c): the line that is read is the line on the screen.

    ** Other devices and libraries

    Lamebus, LamebusDemo (kern/dev/lamebus/lamebus.c, ltimer.c,
    kern/arch/mips/mips/lamebus_mips.c, kern/dev/generic/rtclock.c): every card
    that interrupts is served once, probing finds the first card that fits,
    the time read is a time of the clock.  Pseudorand (kern/dev/generic:
    random.c, pseudorand.c; kern/dev/lamebus/lrandom.c): the generator behind
    random: has full period.  Random (lib/libc/random.c): the library refines a
    set of independent generators.

    ** Bounds and fuel

    Loops over a structure recurse on it.  Other loops take fuel, and each
    fuel is proved enough: the free list of a page has at most PAGE_SIZE / 16
    blocks, an array doubles at most 32 times, uiomove moves at least a byte a
    turn and so needs at most as many turns as bytes, malloc passes each block
    once, emufs_read ends at the first empty transfer.  Loops that wait for
    hardware or for another thread are steps of a transition system or a card
    in the state it is in when it interrupts.  Arrays are bounded by 2^28
    elements, files by the largest size the block map of SFS can hold.

    ** Not modelled

    Code in assembler (exception.S, start.S, switch.S, the cache and TLB
    instructions): the effect on registers is in Exec.md_usermode, Trap and
    Thread.switch_away.  Text printed for the operator (boot messages, panic,
    kprintf, heap dumps).  dumbvm.c, which the configurations with
    addrspace.c do not compile and whose code is the same.  Code left in
    comments in loadelf.c and addrspace.c.  catsem.c has empty bodies.  The
    autoconf.c files are generated by config, and the attachment routines they
    call only fill in structures.  The menu (kern/main/menu.c) reads commands
    and starts what is modelled elsewhere.  The screen card is not supported by
    the simulated machine; the trace and beep devices write single registers.
    Test code (kern/test, testbin)
    and the host side (lib/hostcompat) are not part of the running system;
    the programs of bin and sbin other than mksfs only call system calls the
    kernel does not implement (open, getdirentry, stat and the like).  The
    preemption of an operation of SFS or emufs by another is left out: SFS has
    no locks and its static buffers admit one operation at a time.
*)

From Stdlib Require Export ZArith Lia.
From stdpp Require Export base functions list gmap strings numbers decidable option tactics.

#[export] Set Default Goal Selector "!".
Open Scope Z_scope.

(** ** Outcomes of C code

    A kernel routine either returns ([Done]), stops the machine through
    [panic] or a failed [assert] ([Panic]), does something C leaves
    undefined, such as dereferencing NULL, touching memory outside a
    block or overflowing a signed integer ([Fault]), or, where a loop is
    modelled with fuel, runs out of it ([Diverge]).  Error codes are
    ordinary return values, as they are in the code. *)
Inductive outcome (A : Type) : Type :=
| Done (a : A)
| Panic
| Fault
| Diverge.
Arguments Done {A} a.
Arguments Panic {A}.
Arguments Fault {A}.
Arguments Diverge {A}.

Global Instance outcome_ret : MRet outcome := fun A a => Done a.
Global Instance outcome_bind : MBind outcome := fun A B f m =>
  match m with
  | Done a => f a
  | Panic => Panic
  | Fault => Fault
  | Diverge => Diverge
  end.

(** C's [assert]. *)
Definition kassert (b : bool) : outcome unit := if b then Done tt else Panic.

Lemma bind_Done {A B} (m : outcome A) (f : A → outcome B) b :
  m ≫= f = Done b ↔ ∃ a, m = Done a ∧ f a = Done b.
Proof. destruct m; cbn; naive_solver. Qed.

Lemma kassert_Done b u : kassert b = Done u ↔ b = true.
Proof. destruct b, u; cbn; naive_solver. Qed.

Lemma kassert_true (b : bool) : b = true → kassert b = Done tt.
Proof. by intros ->. Qed.

(** A run that evaluates to a result accepted by the test [P]. *)
Lemma run_Done {A} (m : outcome A) (P : A → bool) :
  match m with Done a => P a | _ => false end = true → ∃ a, m = Done a ∧ P a = true.
Proof. destruct m; naive_solver. Qed.

(** Take a successful run apart: every bind of a hypothesis becomes the
    intermediate value it produced. *)
Ltac invert_run :=
  repeat match goal with
  | H : mbind _ _ = Done _ |- _ =>
      apply bind_Done in H; destruct H as (? & ? & H)
  | H : kassert _ = Done _ |- _ => apply kassert_Done in H
  | x : (_ * _)%type |- _ => destruct x
  | H : Done _ = Done _ |- _ => injection H as H; try subst
  | H : mret _ = Done _ |- _ => injection H as H; try subst
  | H : Panic = Done _ |- _ => discriminate H
  | H : Fault = Done _ |- _ => discriminate H
  | H : Diverge = Done _ |- _ => discriminate H
  | H : (_, _) = (_, _) |- _ => injection H as; try subst
  end; cbn in *.

(** Discharge the assertions of the goal whose condition is arithmetic. *)
Ltac solve_assert := repeat (rewrite andb_true_iff || rewrite orb_true_iff); lia.
Ltac pass_assert :=
  match goal with
  | |- context [kassert ?b] => rewrite (kassert_true b) by solve_assert
  end;
  cbn [mbind outcome_bind].

(** ** Machine integers *)

Definition u8 (x : Z) : Z := x mod 2 ^ 8.
Definition u16 (x : Z) : Z := x mod 2 ^ 16.
Definition u32 (x : Z) : Z := x mod 2 ^ 32.

(** The value of an [int] after two's-complement wrap-around. *)
Definition s32 (x : Z) : Z := (x + 2 ^ 31) mod 2 ^ 32 - 2 ^ 31.

Lemma u32_id x : 0 ≤ x < 2 ^ 32 → u32 x = x.
Proof. apply Z.mod_small. Qed.

Lemma u32_range x : 0 ≤ u32 x < 2 ^ 32.
Proof. apply Z.mod_pos_bound. lia. Qed.

Lemma s32_id x : - 2 ^ 31 ≤ x < 2 ^ 31 → s32 x = x.
Proof. intros. unfold s32. rewrite Z.mod_small; lia. Qed.

Lemma s32_range x : - 2 ^ 31 ≤ s32 x < 2 ^ 31.
Proof. unfold s32. pose proof (Z.mod_pos_bound (x + 2 ^ 31) (2 ^ 32)). lia. Qed.

(** ** Bits of machine words and tables of bits *)

Lemma testbit_above n x i : 0 ≤ x < 2 ^ n → n ≤ i → Z.testbit x i = false.
Proof.
  intros Hx Hi. destruct (decide (x = 0)) as [->|]; [apply Z.bits_0|].
  apply Z.bits_above_log2; [lia|].
  apply Z.lt_le_trans with n; [|done]. apply Z.log2_lt_pow2; lia.
Qed.

Lemma land_pow2 x j : 0 ≤ j → (Z.land x (2 ^ j) =? 0) = negb (Z.testbit x j).
Proof.
  intros Hj. destruct (Z.testbit x j) eqn:E; cbn.
  - apply Z.eqb_neq. intros H0. apply (f_equal (λ y, Z.testbit y j)) in H0.
    rewrite Z.land_spec, E, Z.pow2_bits_true, Z.bits_0 in H0; done.
  - apply Z.eqb_eq, Z.bits_inj'. intros i Hi.
    rewrite Z.land_spec, Z.bits_0. destruct (decide (i = j)) as [->|].
    + by rewrite E.
    + rewrite Z.pow2_bits_false by lia. apply andb_false_r.
Qed.

(** A number whose bits from the [n]-th on are clear is below [2 ^ n]. *)
Lemma bits_bound n x : 0 ≤ n → (∀ i, n ≤ i → Z.testbit x i = false) → 0 ≤ x < 2 ^ n.
Proof.
  intros Hn Hx. assert (x = Z.land x (Z.ones n)) as ->.
  { apply Z.bits_inj'. intros i Hi. rewrite Z.land_spec. destruct (decide (i < n)).
    - by rewrite Z.ones_spec_low, andb_true_r by lia.
    - by rewrite Hx by lia. }
  rewrite Z.land_ones by lia. apply Z.mod_pos_bound. lia.
Qed.

Lemma lor_bound n x y : 0 ≤ n → 0 ≤ x < 2 ^ n → 0 ≤ y < 2 ^ n → 0 ≤ Z.lor x y < 2 ^ n.
Proof.
  intros. apply bits_bound; [done|]. intros. by rewrite Z.lor_spec, !(testbit_above n).
Qed.

Lemma land_bound n x y : 0 ≤ n → 0 ≤ x < 2 ^ n → 0 ≤ Z.land x y < 2 ^ n.
Proof.
  intros. apply bits_bound; [done|]. intros. by rewrite Z.land_spec, (testbit_above n).
Qed.

(** A word all of whose bits are set. *)
Lemma full_word n x :
  0 ≤ n → 0 ≤ x < 2 ^ n → (∀ i, 0 ≤ i < n → Z.testbit x i = true) → x = Z.ones n.
Proof.
  intros Hn Hx Hb. apply Z.bits_inj'. intros i Hi. destruct (decide (i < n)).
  - by rewrite Hb, Z.ones_spec_low by lia.
  - by rewrite (testbit_above n), Z.ones_spec_high by lia.
Qed.

(** Bit [i] of a table kept in words of [w] bits. *)
Definition table_bit (w : nat) (ws : list Z) (i : nat) : bool :=
  Z.testbit (ws !!! (i / w)%nat) (Z.of_nat (i mod w)).

Lemma table_bit_insert w ws i x j :
  (i < length ws)%nat →
  table_bit w (<[i := x]> ws) j =
    if decide (j / w = i)%nat then Z.testbit x (Z.of_nat (j mod w)) else table_bit w ws j.
Proof.
  intros Hi. unfold table_bit. destruct (decide _) as [<-|].
  - by rewrite list_lookup_total_insert_eq.
  - by rewrite list_lookup_total_insert_ne.
Qed.

Lemma div_mod_inj w i j : (i / w = j / w → i mod w = j mod w → i = j)%nat.
Proof. intros Hd Hm. by rewrite (Nat.div_mod_eq i w), (Nat.div_mod_eq j w), Hd, Hm. Qed.

(** Setting one bit of the table. *)
Lemma table_bit_set w ws x i b :
  (b < w)%nat → ws !! i = Some x →
  ∀ j, table_bit w (<[i := Z.lor x (2 ^ Z.of_nat b)]> ws) j =
       if decide (j = i * w + b)%nat then true else table_bit w ws j.
Proof.
  intros Hb Hx j. pose proof (lookup_lt_Some _ _ _ Hx). rewrite table_bit_insert by done.
  assert (Hd : ((i * w + b) / w = i)%nat) by (symmetry; apply (Nat.div_unique _ w i b); lia).
  assert (Hm : ((i * w + b) mod w = b)%nat) by (symmetry; apply (Nat.mod_unique _ w i b); lia).
  destruct (decide (j / w = i)%nat) as [Hj|Hj].
  - rewrite Z.lor_spec, Z.pow2_bits_eqb by lia. unfold table_bit.
    rewrite Hj, (list_lookup_total_correct _ _ _ Hx).
    destruct (decide (j = i * w + b)%nat) as [->|Hne].
    + rewrite Hm, Z.eqb_refl. apply orb_true_r.
    + destruct (Z.eqb_spec (Z.of_nat b) (Z.of_nat (j mod w))); [|apply orb_false_r].
      destruct Hne. apply (div_mod_inj w); [congruence|]. rewrite Hm. lia.
  - rewrite decide_False; [done|]. intros ->. done.
Qed.

(** Clearing one bit of the table: [m] is the complement of the mask in the
    word's width. *)
Lemma table_bit_clear w ws x j m :
  (0 < w)%nat → ws !! (j / w)%nat = Some x →
  (∀ b, 0 ≤ b → Z.testbit (Z.land x m) b = Z.testbit x b && negb (b =? Z.of_nat (j mod w))) →
  ∀ j', table_bit w (<[(j / w)%nat := Z.land x m]> ws) j' =
        if decide (j' = j) then false else table_bit w ws j'.
Proof.
  intros Hw Hx Hm j'. pose proof (lookup_lt_Some _ _ _ Hx). rewrite table_bit_insert by done.
  destruct (decide (j' / w = j / w)%nat) as [Hj|Hj].
  - rewrite Hm by lia. unfold table_bit. rewrite Hj, (list_lookup_total_correct _ _ _ Hx).
    destruct (decide (j' = j)) as [->|Hne].
    + by rewrite Z.eqb_refl, andb_false_r.
    + destruct (Z.eqb_spec (Z.of_nat (j' mod w)) (Z.of_nat (j mod w))); [|apply andb_true_r].
      destruct Hne. apply (div_mod_inj w); [done|lia].
  - by rewrite decide_False by (intros ->; done).
Qed.

(** Masking with the complement of one bit, computed in words of [n] bits. *)
Lemma land_lnot_bit n x k b :
  0 ≤ n → 0 ≤ x < 2 ^ n → 0 ≤ k → 0 ≤ b →
  Z.testbit (Z.land x (Z.lnot (2 ^ k) mod 2 ^ n)) b = Z.testbit x b && negb (b =? k).
Proof.
  intros Hn Hx Hk Hb. rewrite Z.land_spec, <- Z.land_ones, Z.land_spec, Z.lnot_spec by lia.
  rewrite Z.pow2_bits_eqb, Z.eqb_sym by lia. destruct (decide (b < n)).
  - by rewrite Z.ones_spec_low, andb_true_r by lia.
  - by rewrite (testbit_above n x) by lia.
Qed.

(** ** Error numbers (kern/include/kern/errno.h) *)

Definition EINVAL : Z := 1.
Definition EFAULT : Z := 2.
Definition ENAMETOOLONG : Z := 3.
Definition ENOMEM : Z := 4.
Definition EIO : Z := 5.
Definition ENOENT : Z := 6.
Definition ENOTDIR : Z := 7.
Definition EISDIR : Z := 8.
Definition EEXIST : Z := 9.
Definition EXDEV : Z := 10.
Definition EAGAIN : Z := 11.
Definition ESPIPE : Z := 12.
Definition EUNIMP : Z := 13.
Definition ENXIO : Z := 14.
Definition ENODEV : Z := 15.
Definition EBUSY : Z := 16.
Definition EIOCTL : Z := 17.
Definition ENOSPC : Z := 20.
Definition ENOSYS : Z := 23.
Definition ENOEXEC : Z := 24.
Definition EBADF : Z := 26.

(** What a routine hands back that returns an error code, or 0 and a value
    through a pointer. *)
Inductive res (A : Type) := Err (e : Z) | Ok (a : A).
Arguments Err {A} e.
Arguments Ok {A} a.

(** ** Lists *)

Lemma filter_ext_in {A} (Q R : A → Prop) `{∀ x, Decision (Q x)} `{∀ x, Decision (R x)} (l : list A) :
  (∀ x, x ∈ l → Q x ↔ R x) → filter Q l = filter R l.
Proof.
  induction l as [|x l IH]; intros Hl; [done|].
  rewrite !filter_cons, IH by set_solver.
  destruct (decide (Q x)), (decide (R x)); set_solver.
Qed.

Lemma filter_all {A} (Q : A → Prop) `{∀ x, Decision (Q x)} (l : list A) :
  (∀ x, x ∈ l → Q x) → filter Q l = l.
Proof.
  induction l as [|x l IH]; intros Hl; [done|].
  rewrite filter_cons_True, IH; set_solver.
Qed.

(** A duplicate-free list of numbers below [n] has at most [n] elements. *)
Lemma NoDup_bounded_length (l : list nat) n :
  NoDup l → (∀ i, i ∈ l → i < n)%nat → (length l ≤ n)%nat.
Proof.
  intros Hnd Hl. transitivity (length (seq 0 n)); [|by rewrite length_seq].
  apply submseteq_length, NoDup_submseteq; [done|].
  intros i Hi. apply elem_of_seq. specialize (Hl i Hi). lia.
Qed.

(** ** Blocks of pointer-sized cells

    A block of memory used as an array of pointers is the list of its
    cells; [None] is a cell that holds an indeterminate value, as fresh
    heap memory does. *)
Section Cells.
Context {A : Type}.
Implicit Types v : list (option A).

(** The cells of a fresh block of [bytes] bytes. *)
Definition fresh_cells (bytes : Z) : list (option A) :=
  replicate (Z.to_nat (bytes / 4)) None.

(** Read a cell whatever it holds; outside the block is undefined. *)
Definition peek v (i : Z) : outcome (option A) :=
  if i <? 0 then Fault
  else match v !! Z.to_nat i with Some c => Done c | None => Fault end.

(** Read a cell and use its value: an indeterminate value is undefined. *)
Definition load v (i : Z) : outcome A :=
  c ← peek v i;
  match c with Some x => Done x | None => Fault end.

Definition poke v (i : Z) (c : option A) : outcome (list (option A)) :=
  if (0 <=? i) && (i <? Z.of_nat (length v)) then Done (<[Z.to_nat i := c]> v) else Fault.

Definition store v (i : Z) (x : A) : outcome (list (option A)) := poke v i (Some x).

(** [memmove] of [n] cells from index [src] to index [dst] of one block. *)
Definition move_cells v (dst src n : nat) : list (option A) :=
  take dst v ++ take n (drop src v) ++ drop (dst + n) v.

Lemma length_fresh_cells bytes : length (fresh_cells bytes) = Z.to_nat (bytes / 4).
Proof. apply length_replicate. Qed.

Lemma load_Done v i x :
  0 ≤ i → v !! Z.to_nat i = Some (Some x) → load v i = Done x.
Proof.
  intros Hi Hv. unfold load, peek. replace (i <? 0) with false by lia. by rewrite Hv.
Qed.

Lemma load_inv v i x : load v i = Done x → 0 ≤ i ∧ v !! Z.to_nat i = Some (Some x).
Proof.
  unfold load, peek. destruct (i <? 0) eqn:Hi; [done|].
  destruct (v !! Z.to_nat i) as [[y|]|] eqn:Hv; cbn; [|done..].
  intros [= ->]. split; [lia|done].
Qed.

Lemma poke_Done v i c :
  0 ≤ i < Z.of_nat (length v) → poke v i c = Done (<[Z.to_nat i := c]> v).
Proof.
  intros. unfold poke.
  replace ((0 <=? i) && (i <? Z.of_nat (length v))) with true by lia. done.
Qed.

Lemma poke_inv v i c v' :
  poke v i c = Done v' → 0 ≤ i < Z.of_nat (length v) ∧ v' = <[Z.to_nat i := c]> v.
Proof.
  unfold poke. destruct ((0 <=? i) && (i <? Z.of_nat (length v))) eqn:E; [|done].
  intros [= <-]. split; [lia|done].
Qed.

Lemma length_move_cells v dst src n :
  (dst ≤ src → src + n ≤ length v → length (move_cells v dst src n) = length v)%nat.
Proof.
  intros. unfold move_cells. rewrite !length_app, !length_take, !length_drop. lia.
Qed.

(** Moving the tail of the first [k] cells down by one deletes a cell. *)
Lemma take_move_cells_delete v i k :
  (i < k → k ≤ length v →
   take (k - 1) (move_cells v i (S i) (k - S i)) = delete i (take k v))%nat.
Proof.
  intros Hi Hk. unfold move_cells.
  rewrite delete_take_drop.
  rewrite take_app_ge by (rewrite length_take; lia).
  rewrite length_take, (Nat.min_l i) by lia.
  rewrite take_take, (Nat.min_l i) by lia. f_equal.
  rewrite take_app_le by (rewrite length_take, length_drop; lia).
  rewrite take_take, Nat.min_l by lia.
  rewrite take_drop_commute. do 2 f_equal. lia.
Qed.
End Cells.

(** The interrupt level at which the kernel works undisturbed. *)
Definition SPL_HIGH : Z := 15.

(** ** The page allocator as the kernel heap sees it

    [alloc_kpages n] returns the kernel virtual address of [n] contiguous
    pages, or 0.  [pages_rel p R] says that in state [p] exactly the runs
    of [R], a map from a run's address to its number of pages, have been
    handed out. *)
Definition PAGE_SIZE : Z := 4096.
Definition PAGE_FRAME : Z := 0xfffff000.
Definition MIPS_KSEG0 : Z := 0x80000000.

Lemma land_page_offset a : Z.land a 0xfff = a mod PAGE_SIZE.
Proof. change 0xfff with (Z.ones 12). by rewrite Z.land_ones. Qed.

(** Masking with PAGE_FRAME rounds a 32-bit address down to its page. *)
Lemma land_page_frame a : 0 ≤ a < 2 ^ 32 → Z.land a PAGE_FRAME = a / PAGE_SIZE * PAGE_SIZE.
Proof.
  intros Ha. change PAGE_SIZE with (2 ^ 12). rewrite <- Z.shiftr_div_pow2, <- Z.shiftl_mul_pow2 by lia.
  apply Z.bits_inj'. intros i Hi.
  change PAGE_FRAME with (Z.shiftl (Z.ones 20) 12). rewrite Z.land_spec, !Z.shiftl_spec by lia.
  destruct (decide (i < 12)).
  { rewrite !(Z.testbit_neg_r _ (i - 12)) by lia. apply andb_false_r. }
  rewrite Z.shiftr_spec by lia. replace (i - 12 + 12) with i by lia.
  destruct (decide (i - 12 < 20)).
  - by rewrite Z.ones_spec_low, andb_true_r by lia.
  - rewrite Z.ones_spec_high, andb_false_r by lia. symmetry.
    destruct (decide (a = 0)) as [->|]; [apply Z.bits_0|].
    apply Z.bits_above_log2; [lia|]. apply Z.lt_le_trans with 32; [|lia].
    apply Z.log2_lt_pow2; lia.
Qed.

Class KPages (P : Type) := {
  alloc_kpages : Z → P → Z * P;
  free_kpages : Z → P → P;
  pages_rel : P → gmap Z Z → Prop;
}.

(** Two address ranges, given by base and length, do not meet. *)
Definition disjoint_ranges (a n b m : Z) : Prop := a + n ≤ b ∨ b + m ≤ a.

Class KPagesLaws (P : Type) `{KPages P} := {
  (** Runs are page aligned, lie in the direct-mapped segment and do not
      overlap. *)
  pages_rel_run p R a n : pages_rel p R → R !! a = Some n →
    1 ≤ n ∧ a mod PAGE_SIZE = 0 ∧ MIPS_KSEG0 < a ∧ a + n * PAGE_SIZE ≤ MIPS_KSEG0 + 2 ^ 29;
  pages_rel_disjoint p R a n b m : pages_rel p R → R !! a = Some n → R !! b = Some m → a ≠ b →
    disjoint_ranges a (n * PAGE_SIZE) b (m * PAGE_SIZE);
  (** An allocation of up to 2^19 pages fails with 0 or hands out a new run. *)
  alloc_kpages_law p R n : pages_rel p R → 1 ≤ n ≤ 2 ^ 19 →
    ∃ a p', alloc_kpages n p = (a, p') ∧
      (a = 0 ∧ pages_rel p' R ∨
       a ≠ 0 ∧ R !! a = None ∧ pages_rel p' (<[a := n]> R));
  free_kpages_law p R a n : pages_rel p R → R !! a = Some n →
    pages_rel (free_kpages a p) (delete a R);
}.

(** ** The kernel allocator as its clients see it

    [kmalloc] and [kfree] work on an allocator state [H].  [kmalloc]
    returns NULL ([None]) when memory has run out.  [live h a] says that
    block [a] has been handed out and not yet given back. *)
Class KHeap (H : Type) := {
  kmalloc : Z → H → outcome (option Z * H);
  kfree : Z → H → outcome H;
  heap_ok : H → Prop;
  live : H → Z → Prop;
}.

Class KHeapLaws (H : Type) `{KHeap H} := {
  (** An allocation of up to 2^31 bytes never stops the machine; the block
      it returns is new, and everything handed out before stays so. *)
  kmalloc_total h n : heap_ok h → 0 ≤ n ≤ 2 ^ 31 →
    ∃ r h', kmalloc n h = Done (r, h') ∧ heap_ok h' ∧
      (∀ b, live h b → live h' b) ∧
      (∀ a, r = Some a → a ≠ 0 ∧ ¬ live h a ∧ live h' a);
  (** A block that was handed out can be given back; the others stay. *)
  kfree_total h a : heap_ok h → live h a →
    ∃ h', kfree a h = Done h' ∧ heap_ok h' ∧ (∀ b, b ≠ a → live h b → live h' b);
}.

(** Ownership: the blocks of [L] have been handed out and are all
    different.  A client that owns [L] is insensitive to the order. *)
Definition heap_owns `{KHeap H} (h : H) (L : list Z) : Prop :=
  heap_ok h ∧ NoDup L ∧ ∀ b, b ∈ L → live h b.

#[global] Instance heap_owns_perm `{KHeap H} (h : H) : Proper ((≡ₚ) ==> iff) (heap_owns h).
Proof. intros L L' E. unfold heap_owns. by setoid_rewrite E. Qed.

Section Ownership.
Context `{KHeapLaws H}.
Implicit Types (h : H) (L : list Z).

Lemma owns_alloc h L n :
  heap_owns h L → 0 ≤ n ≤ 2 ^ 31 →
  ∃ r h', kmalloc n h = Done (r, h') ∧
    match r with None => heap_owns h' L | Some a => a ≠ 0 ∧ heap_owns h' (a :: L) end.
Proof.
  intros (Hok & Hnd & Hlive) Hn.
  destruct (kmalloc_total h n Hok Hn) as (r & h' & -> & Hok' & Hkeep & Hnew).
  exists r, h'. split; [done|]. destruct r as [a|].
  - destruct (Hnew a eq_refl) as (Ha0 & Hold & Ha). split; [done|]. split_and!; [done|..].
    + apply list.NoDup_cons. split; [|done]. intros Hin. by apply Hold, Hlive.
    + intros b [->|Hb]%elem_of_cons; auto.
  - split_and!; [done..|]. auto.
Qed.

Lemma owns_free h a L :
  heap_owns h (a :: L) → ∃ h', kfree a h = Done h' ∧ heap_owns h' L.
Proof.
  intros (Hok & [Ha Hnd]%list.NoDup_cons & Hlive).
  destruct (kfree_total h a Hok) as (h' & -> & Hok' & Hkeep); [set_solver|].
  exists h'. split; [done|]. split_and!; [done..|]. intros b Hb. apply Hkeep; [|set_solver].
  intros ->. done.
Qed.

(** Blocks may be forgotten. *)
Lemma owns_sub h L L' : L' ⊆+ L → heap_owns h L → heap_owns h L'.
Proof.
  intros [L2 ->]%submseteq_Permutation (Hok & [Hnd _]%list.NoDup_app & Hlive).
  split_and!; [done..|]. set_solver.
Qed.
End Ownership.
