(* ===== verification/Ram.v ===== *)
(** * Physical memory: the boot-time page allocator

    kern/arch/mips/mips/ram.c hands out physical memory by moving
    [firstpaddr] up to [lastpaddr]; the page allocator of kern/vm/addrspace.c
    ([getppages], [alloc_kpages], [free_kpages]) is a wrapper around it that
    never takes a page back.  The file proves that this allocator is a
    [KPages], and what happens to requests so large that the 32-bit
    arithmetic of [ram_stealmem] wraps. *)

From S2P Require Import Prelude.

(** The static variables of ram.c. *)
Record ram := Ram {
  firstpaddr : Z;
  lastpaddr : Z;
}.

(** [ramsize] is the value of [mips_ramsize()], [firstfree] the first free
    virtual address left by the boot code.  The messages printed are not
    modelled. *)
Definition ram_bootstrap (ramsize firstfree : Z) : ram :=
  let ramsize := if ramsize >? 508 * 1024 * 1024 then 508 * 1024 * 1024 else ramsize in
  Ram (u32 (firstfree - MIPS_KSEG0)) ramsize.

Definition ram_stealmem (npages : Z) (r : ram) : Z * ram :=
  let size := u32 (npages * PAGE_SIZE) in
  if u32 (firstpaddr r + size) >? lastpaddr r then (0, r)
  else (firstpaddr r, Ram (u32 (firstpaddr r + size)) (lastpaddr r)).

(** Returns the bounds through its out parameters and takes all memory. *)
Definition ram_getsize (r : ram) : Z * Z * ram :=
  (firstpaddr r, lastpaddr r, Ram 0 0).

(** The interrupt level is raised and restored around the call. *)
Definition getppages (npages : Z) (r : ram) : Z * ram := ram_stealmem npages r.

Definition PADDR_TO_KVADDR (pa : Z) : Z := u32 (pa + MIPS_KSEG0).

(** [npages] is an [int]; [getppages] takes it as an [unsigned long]. *)
Definition ram_alloc_kpages (npages : Z) (r : ram) : Z * ram :=
  let '(pa, r) := getppages (u32 (s32 npages)) r in
  if pa =? 0 then (0, r) else (PADDR_TO_KVADDR pa, r).

Definition ram_free_kpages (addr : Z) (r : ram) : ram := r.

(** ** The allocator in order

    Free memory is page aligned, above the exception handlers and within
    the 508 megabytes [ram_bootstrap] allows. *)
Record ram_ok (r : ram) : Prop := {
  ram_lo : 0 < firstpaddr r;
  ram_hi : firstpaddr r ≤ lastpaddr r ≤ 508 * 1024 * 1024;
  ram_aligned : firstpaddr r mod PAGE_SIZE = 0;
}.

Record ram_rel (r : ram) (R : gmap Z Z) : Prop := {
  rr_ok : ram_ok r;
  rr_run a n : R !! a = Some n →
    1 ≤ n ∧ a mod PAGE_SIZE = 0 ∧ MIPS_KSEG0 < a ∧
    a + n * PAGE_SIZE ≤ MIPS_KSEG0 + firstpaddr r;
  rr_disjoint a n b m : R !! a = Some n → R !! b = Some m → a ≠ b →
    disjoint_ranges a (n * PAGE_SIZE) b (m * PAGE_SIZE);
}.

#[global] Instance ram_pages : KPages ram := {
  alloc_kpages := ram_alloc_kpages;
  free_kpages := ram_free_kpages;
  pages_rel := ram_rel;
}.

(** Boot leaves the allocator in order when the kernel image ends at a page
    boundary inside memory. *)
Lemma ram_bootstrap_ok ramsize firstfree :
  MIPS_KSEG0 < firstfree < MIPS_KSEG0 + Z.min ramsize (508 * 1024 * 1024) →
  firstfree mod PAGE_SIZE = 0 →
  ram_rel (ram_bootstrap ramsize firstfree) ∅.
Proof.
  unfold MIPS_KSEG0, PAGE_SIZE. intros Hf Ha.
  assert (Hu : u32 (firstfree - MIPS_KSEG0) = firstfree - 2147483648)
    by (unfold MIPS_KSEG0; apply u32_id; lia).
  split; [|done..]. unfold ram_bootstrap.
  destruct (Z.gtb_spec ramsize (508 * 1024 * 1024)); split; cbn -[Z.mul];
    rewrite ?Hu; unfold PAGE_SIZE; try lia; Z.to_euclidean_division_equations; lia.
Qed.

Lemma page_aligned_add a k : a mod 4096 = 0 → (a + k * 4096) mod 4096 = 0.
Proof. intros. by rewrite Z.mod_add. Qed.

(** What [ram_stealmem] does to a request whose size fits the machine word. *)
Lemma ram_stealmem_spec r npages :
  ram_ok r → 0 ≤ npages ≤ 2 ^ 19 →
  ram_stealmem npages r =
    if firstpaddr r + npages * PAGE_SIZE >? lastpaddr r then (0, r)
    else (firstpaddr r, Ram (firstpaddr r + npages * PAGE_SIZE) (lastpaddr r)).
Proof.
  intros [Hlo Hhi Hal] Hn. unfold ram_stealmem.
  assert (Hs : u32 (npages * PAGE_SIZE) = npages * PAGE_SIZE)
    by (apply u32_id; unfold PAGE_SIZE; lia).
  rewrite Hs, (u32_id (firstpaddr r + _)) by (unfold PAGE_SIZE; lia). done.
Qed.

Lemma ram_alloc_kpages_spec r R n :
  ram_rel r R → 1 ≤ n ≤ 2 ^ 19 →
  ∃ a r', ram_alloc_kpages n r = (a, r') ∧
    (a = 0 ∧ ram_rel r' R ∨
     a ≠ 0 ∧ R !! a = None ∧ ram_rel r' (<[a := n]> R)).
Proof.
  intros [Hok Hrun Hdis] Hn. unfold ram_alloc_kpages, getppages.
  rewrite s32_id, u32_id, ram_stealmem_spec by (done || lia).
  pose proof Hok as [Hlo Hhi Hal].
  destruct (Z.gtb_spec (firstpaddr r + n * PAGE_SIZE) (lastpaddr r)) as [Hb|Hb].
  { exists 0, r. split; [done|]. left. done. }
  replace (firstpaddr r =? 0) with false by lia.
  unfold PADDR_TO_KVADDR. rewrite u32_id by (unfold MIPS_KSEG0; lia).
  remember (firstpaddr r + MIPS_KSEG0) as a eqn:Ha. unfold PAGE_SIZE, MIPS_KSEG0 in *.
  assert (Hfresh : R !! a = None).
  { destruct (R !! a) as [m|] eqn:E; [|done]. apply Hrun in E. lia. }
  eexists _, _. split; [done|]. right. split; [lia|]. split; [done|].
  split; cbn; unfold PAGE_SIZE, MIPS_KSEG0 in *.
  - split; cbn; [lia..|]. by apply page_aligned_add.
  - intros b m. rewrite lookup_insert_Some. intros [[<- <-]|[_ Hb']].
    + split_and!; [lia| |lia..]. rewrite Ha. apply (page_aligned_add _ 524288 Hal).
    + apply Hrun in Hb'. lia.
  - intros b m c k. rewrite !lookup_insert_Some. unfold disjoint_ranges.
    intros [[<- <-]|[_ Hb']] [[<- <-]|[_ Hc']] ?; [done|..].
    + apply Hrun in Hc'. lia.
    + apply Hrun in Hb'. lia.
    + eapply Hdis; eauto.
Qed.

#[global] Instance ram_pages_laws : KPagesLaws ram.
Proof.
  split; cbn.
  - intros r R a n [[_ Hhi _] Hrun _] Ha. apply Hrun in Ha. lia.
  - intros r R a n b m []. eauto.
  - apply ram_alloc_kpages_spec.
  - intros r R a n [Hok Hrun Hdis] Ha. split; [done|..].
    + intros b m [_ ?]%lookup_delete_Some. eauto.
    + intros b m c k [_ ?]%lookup_delete_Some [_ ?]%lookup_delete_Some. eauto.
Qed.
