(* ===== verification/Kheap.v ===== *)
(** * The kernel heap (kern/lib/kheap.c)

    [kmalloc] serves requests of a page and more straight from the page
    allocator and smaller ones from pages cut into blocks of one of eight
    sizes.  A page of blocks is described by a [pageref]; its free blocks
    form a linked list kept in the blocks themselves, so the model carries
    the memory words.  A pointer to a [pageref] is its index in the static
    table.  The consistency checks of SLOW and SLOWER builds are compiled
    out and so are absent; every routine runs with interrupts off from its
    first access to the tables to its last and restores the level it found,
    so each is one atomic step and the level itself is left out.

    [heap_rel] relates a heap to the abstract state its clients think in,
    the map of the blocks handed out, and [kmalloc]/[kfree] are proved to
    implement the abstract operations: fresh disjoint blocks, contents of
    other blocks untouched, blocks given back reusable. *)

From S2P Require Import Prelude.

Definition sizes : list Z := [16; 32; 64; 128; 256; 512; 1024; 2048].
Definition NSIZES : nat := 8.
Definition LARGEST_SUBPAGE_SIZE : Z := 2048.

Record pageref := Pageref {
  next_samesize : option nat;
  next_all : option nat;
  pageaddr_and_blocktype : Z;
  freelist_offset : Z;
  nfree : Z;
}.

Definition INVALID_OFFSET : Z := 0xffff.
Definition PR_PAGEADDR (pr : pageref) : Z := Z.land (pageaddr_and_blocktype pr) PAGE_FRAME.
Definition PR_BLOCKTYPE (pr : pageref) : Z := Z.land (pageaddr_and_blocktype pr) 0xfff.
Definition MKPAB (pa blk : Z) : Z := Z.lor (Z.land pa PAGE_FRAME) (Z.land blk 0xfff).

Definition NPAGEREFS : nat := 256.
Definition INUSE_WORDS : nat := 8.

(** The static variables of kheap.c, the memory words the heap reads and
    writes, and the page allocator below. *)
Record kheap (P : Type) := Kheap {
  mem : Z → Z;
  pagerefs : list pageref;
  pagerefs_inuse : list Z;
  sizebases : list (option nat);
  allbase : option nat;
  pages : P;
}.
Arguments Kheap {P} _ _ _ _ _ _.
Arguments mem {P} _ _.
Arguments pagerefs {P} _.
Arguments pagerefs_inuse {P} _.
Arguments sizebases {P} _.
Arguments allbase {P} _.
Arguments pages {P} _.

(** The heap before its first use: static storage is zero. *)
Definition kheap_boot {P} (m : Z → Z) (p : P) : kheap P :=
  Kheap m (replicate NPAGEREFS (Pageref None None 0 0 0)) (replicate INUSE_WORDS 0)
        (replicate NSIZES None) None p.

Section Operations.
Context {P : Type} `{KPages P}.
Implicit Types h : kheap P.

Definition set_mem m h : kheap P :=
  Kheap m (pagerefs h) (pagerefs_inuse h) (sizebases h) (allbase h) (pages h).
Definition set_pagerefs prs h : kheap P :=
  Kheap (mem h) prs (pagerefs_inuse h) (sizebases h) (allbase h) (pages h).
Definition set_inuse ws h : kheap P :=
  Kheap (mem h) (pagerefs h) ws (sizebases h) (allbase h) (pages h).
Definition set_sizebases sb h : kheap P :=
  Kheap (mem h) (pagerefs h) (pagerefs_inuse h) sb (allbase h) (pages h).
Definition set_allbase b h : kheap P :=
  Kheap (mem h) (pagerefs h) (pagerefs_inuse h) (sizebases h) b (pages h).
Definition set_pages p h : kheap P :=
  Kheap (mem h) (pagerefs h) (pagerefs_inuse h) (sizebases h) (allbase h) p.

(** Indexing a static table: outside it is undefined. *)
Definition at_index {X} (l : list X) (i : nat) : outcome X :=
  match l !! i with Some x => Done x | None => Fault end.

(** ptr[i] = 0xdeadbeef, for the [n] words at [ptr]. *)
Fixpoint fill_words (n : nat) (ptr : Z) (m : Z → Z) : Z → Z :=
  match n with
  | O => m
  | S n => <[ptr + 4 * Z.of_nat n := 0xdeadbeef]> (fill_words n ptr m)
  end.

Definition fill_deadbeef (ptr len : Z) (m : Z → Z) : Z → Z :=
  fill_words (Z.to_nat (len / 4)) ptr m.

(** for (k=1,j=0; k!=0; k<<=1,j++) if ((w & k)==0) ... *)
Fixpoint find_clear_bit (fuel : nat) (w k : Z) (j : nat) : outcome (option (Z * nat)) :=
  if k =? 0 then Done None
  else if Z.land w k =? 0 then Done (Some (k, j))
  else match fuel with
       | O => Diverge
       | S fuel => find_clear_bit fuel w (u32 (Z.shiftl k 1)) (S j)
       end.

(** The outer loop from word [i]; [n] words are left. *)
Fixpoint allocpageref_from (n i : nat) h : outcome (option nat * kheap P) :=
  match n with
  | O => Done (None, h)
  | S n =>
      w ← at_index (pagerefs_inuse h) i;
      if w =? 0xffffffff then allocpageref_from n (S i) h
      else
        r ← find_clear_bit 32 w 1 0;
        match r with
        | Some (k, j) =>
            Done (Some (i * 32 + j)%nat, set_inuse (<[i := Z.lor w k]> (pagerefs_inuse h)) h)
        | None => Panic
        end
  end.

Definition allocpageref h : outcome (option nat * kheap P) :=
  allocpageref_from INUSE_WORDS 0 h.

Definition freepageref (j : nat) h : outcome (kheap P) :=
  kassert (Nat.ltb j NPAGEREFS);;
  let i := (j / 32)%nat in
  let k := Z.shiftl 1 (Z.of_nat (j mod 32)) in
  w ← at_index (pagerefs_inuse h) i;
  kassert (negb (Z.land w k =? 0));;
  Done (set_inuse (<[i := Z.land w (u32 (Z.lnot k))]> (pagerefs_inuse h)) h).

(** A [struct pageref **]: the place a list pointer is kept in. *)
Inductive slot :=
| Sizebase (t : nat)
| Allbase
| NextSamesize (i : nat)
| NextAll (i : nat).

Definition slot_get h (s : slot) : outcome (option nat) :=
  match s with
  | Sizebase t => at_index (sizebases h) t
  | Allbase => Done (allbase h)
  | NextSamesize i => pr ← at_index (pagerefs h) i; Done (next_samesize pr)
  | NextAll i => pr ← at_index (pagerefs h) i; Done (next_all pr)
  end.

Definition set_next_samesize (o : option nat) (pr : pageref) : pageref :=
  Pageref o (next_all pr) (pageaddr_and_blocktype pr) (freelist_offset pr) (nfree pr).
Definition set_next_all (o : option nat) (pr : pageref) : pageref :=
  Pageref (next_samesize pr) o (pageaddr_and_blocktype pr) (freelist_offset pr) (nfree pr).
Definition set_free (off n : Z) (pr : pageref) : pageref :=
  Pageref (next_samesize pr) (next_all pr) (pageaddr_and_blocktype pr) off n.

Definition slot_set h (s : slot) (o : option nat) : kheap P :=
  match s with
  | Sizebase t => set_sizebases (<[t := o]> (sizebases h)) h
  | Allbase => set_allbase o h
  | NextSamesize i => set_pagerefs (alter (set_next_samesize o) i (pagerefs h)) h
  | NextAll i => set_pagerefs (alter (set_next_all o) i (pagerefs h)) h
  end.

(** The walk of a [struct pageref **] down a list until the pointer it is
    at leads to [pr], which is then replaced by [pr]'s successor. *)
Fixpoint unlink (fuel : nat) (next : nat → slot) (guy : slot) (pr : nat) h : outcome (kheap P) :=
  o ← slot_get h guy;
  match o with
  | None => Done h
  | Some g =>
      if Nat.eqb g pr then
        n ← slot_get h (next pr);
        Done (slot_set h guy n)
      else match fuel with
           | O => Diverge
           | S fuel => unlink fuel next (next g) pr h
           end
  end.

Definition remove_lists (pr : nat) (blktype : Z) h : outcome (kheap P) :=
  kassert ((0 <=? blktype) && (blktype <? Z.of_nat NSIZES));;
  h ← unlink NPAGEREFS NextSamesize (Sizebase (Z.to_nat blktype)) pr h;
  unlink NPAGEREFS NextAll Allbase pr h.

Fixpoint blocktype_from (l : list Z) (i : nat) (sz : Z) : outcome nat :=
  match l with
  | [] => Panic
  | s :: l => if sz <=? s then Done i else blocktype_from l (S i) sz
  end.

Definition blocktype (sz : Z) : outcome nat := blocktype_from sizes 0 sz.

(** The walk over the pages of one size for one with a free block. *)
Fixpoint find_free_page (fuel : nat) h (blktype : nat) (o : option nat) : outcome (option nat) :=
  match o with
  | None => Done None
  | Some i =>
      pr ← at_index (pagerefs h) i;
      kassert (PR_BLOCKTYPE pr =? Z.of_nat blktype);;
      if nfree pr >? 0 then Done (Some i)
      else match fuel with
           | O => Diverge
           | S fuel => find_free_page fuel h blktype (next_samesize pr)
           end
  end.

(** The code at label [doalloc]: take the first free block of page [i]. *)
Definition doalloc (i : nat) h : outcome (Z * kheap P) :=
  pr ← at_index (pagerefs h) i;
  kassert (freelist_offset pr <? PAGE_SIZE);;
  let prpage := PR_PAGEADDR pr in
  let retptr := u32 (prpage + freelist_offset pr) in
  let fl := mem h retptr in
  let nf := u16 (nfree pr - 1) in
  if negb (fl =? 0) then
    kassert (nf >? 0);;
    kassert (u32 (fl - prpage) <? PAGE_SIZE);;
    Done (retptr, set_pagerefs (<[i := set_free (u16 (u32 (fl - prpage))) nf pr]> (pagerefs h)) h)
  else
    kassert (nf =? 0);;
    Done (retptr, set_pagerefs (<[i := set_free INVALID_OFFSET nf pr]> (pagerefs h)) h).

(** The loop that chains the blocks of a fresh page, from block [i]; [n]
    blocks are left.  Returns the memory and the last block. *)
Fixpoint link_blocks (n : nat) (i fla size fl : Z) (m : Z → Z) : outcome (Z * (Z → Z)) :=
  match n with
  | O => Done (fl, m)
  | S n =>
      let fl := u32 (fla + i * size) in
      let m := <[fl := u32 (fla + (i - 1) * size)]> m in
      kassert (negb (fl =? m fl));;
      link_blocks n (i + 1) fla size fl m
  end.

(** The part of [subpage_kmalloc] that turns the fresh page [prpage] into a
    page of free blocks described by descriptor [i]. *)
Definition init_page (i : nat) (prpage : Z) (blktype : nat) (size : Z) h : outcome (kheap P) :=
  let n := u16 (PAGE_SIZE / size) in
  let m := <[prpage := 0]> (mem h) in
  '(fl, m) ← link_blocks (Z.to_nat (n - 1)) 1 prpage size prpage m;
  let h := set_mem m h in
  let off := u16 (u32 (fl - prpage)) in
  kassert (off =? (n - 1) * size);;
  sb ← at_index (sizebases h) blktype;
  let pr := Pageref sb (allbase h) (MKPAB prpage (Z.of_nat blktype)) off n in
  let h := set_pagerefs (<[i := pr]> (pagerefs h)) h in
  let h := set_sizebases (<[blktype := Some i]> (sizebases h)) h in
  Done (set_allbase (Some i) h).

(** The second half of [subpage_kmalloc]: make a new page and allocate
    from it. *)
Definition subpage_newpage (blktype : nat) (size : Z) h : outcome (option Z * kheap P) :=
  '(o, h) ← allocpageref h;
  match o with
  | None => Done (None, h)
  | Some i =>
      let '(prpage, p) := alloc_kpages 1 (pages h) in
      let h := set_pages p h in
      if prpage =? 0 then
        h ← freepageref i h;
        Done (None, h)
      else
        h ← init_page i prpage blktype size h;
        '(r, h) ← doalloc i h;
        Done (Some r, h)
  end.

Definition subpage_kmalloc (sz : Z) h : outcome (option Z * kheap P) :=
  blktype ← blocktype sz;
  size ← at_index sizes blktype;
  base ← at_index (sizebases h) blktype;
  found ← find_free_page NPAGEREFS h blktype base;
  match found with
  | Some i => '(r, h) ← doalloc i h; Done (Some r, h)
  | None => subpage_newpage blktype size h
  end.

(** The walk over all pages for the one that holds [ptraddr]. *)
Fixpoint find_owner (fuel : nat) h (ptraddr : Z) (o : option nat) : outcome (option nat) :=
  match o with
  | None => Done None
  | Some i =>
      pr ← at_index (pagerefs h) i;
      let prpage := PR_PAGEADDR pr in
      kassert ((0 <=? PR_BLOCKTYPE pr) && (PR_BLOCKTYPE pr <? Z.of_nat NSIZES));;
      if (ptraddr >=? prpage) && (ptraddr <? u32 (prpage + PAGE_SIZE)) then Done (Some i)
      else match fuel with
           | O => Diverge
           | S fuel => find_owner fuel h ptraddr (next_all pr)
           end
  end.

(** Returns -1 when [ptr] is on none of the pages. *)
Definition subpage_kfree (ptr : Z) h : outcome (Z * kheap P) :=
  found ← find_owner NPAGEREFS h ptr (allbase h);
  match found with
  | None => Done (-1, h)
  | Some i =>
      pr ← at_index (pagerefs h) i;
      let prpage := PR_PAGEADDR pr in
      let blktype := PR_BLOCKTYPE pr in
      size ← at_index sizes (Z.to_nat blktype);
      let offset := u32 (ptr - prpage) in
      if (offset >=? PAGE_SIZE) || negb (offset mod size =? 0) then Panic
      else
        let m := fill_deadbeef ptr size (mem h) in
        let fla := u32 (prpage + offset) in
        let next := if freelist_offset pr =? INVALID_OFFSET then 0
                    else u32 (prpage + freelist_offset pr) in
        let h := set_mem (<[fla := next]> m) h in
        let nf := u16 (nfree pr + 1) in
        let h := set_pagerefs (<[i := set_free (u16 offset) nf pr]> (pagerefs h)) h in
        kassert (nf <=? PAGE_SIZE / size);;
        h ← (if nf =? PAGE_SIZE / size then
               h ← remove_lists i blktype h;
               freepageref i (set_pages (free_kpages prpage (pages h)) h)
             else Done h);
        Done (0, h)
  end.

Definition kheap_kmalloc (sz : Z) h : outcome (option Z * kheap P) :=
  if sz >=? LARGEST_SUBPAGE_SIZE then
    let npages := u32 (sz + PAGE_SIZE - 1) / PAGE_SIZE in
    let '(address, p) := alloc_kpages npages (pages h) in
    let h := set_pages p h in
    if address =? 0 then Done (None, h) else Done (Some address, h)
  else subpage_kmalloc sz h.

Definition kheap_kfree (ptr : Z) h : outcome (kheap P) :=
  if ptr =? 0 then Done h
  else
    '(r, h) ← subpage_kfree ptr h;
    if negb (r =? 0) then
      kassert (ptr mod PAGE_SIZE =? 0);;
      Done (set_pages (free_kpages ptr (pages h)) h)
    else Done h.
End Operations.

(** ** The table of page descriptors in use

    Bit [i mod 32] of word [i / 32] says that descriptor [i] is in use. *)

Definition inuse_bit : list Z → nat → bool := table_bit 32.

Definition words_ok (ws : list Z) : Prop :=
  length ws = INUSE_WORDS ∧ ∀ w, w ∈ ws → 0 ≤ w < 2 ^ 32.

Lemma find_clear_bit_spec fuel w j :
  0 ≤ w < 2 ^ 32 → w ≠ 0xffffffff → (j + fuel = 32)%nat →
  (∀ i, 0 ≤ i < Z.of_nat j → Z.testbit w i = true) →
  ∃ j', find_clear_bit fuel w (u32 (2 ^ Z.of_nat j)) j = Done (Some (2 ^ Z.of_nat j', j')) ∧
        (j' < 32)%nat ∧ Z.testbit w (Z.of_nat j') = false.
Proof.
  intros Hw Hfull. revert j.
  induction fuel as [|fuel IH]; intros j Hj Hset; cbn [find_clear_bit].
  { destruct Hfull. apply (full_word 32); [done|done|]. intros. apply Hset. lia. }
  assert (0 < 2 ^ Z.of_nat j < 2 ^ 32)
    by (split; [apply Z.pow_pos_nonneg|apply Z.pow_lt_mono_r]; lia).
  rewrite u32_id by lia. replace (2 ^ Z.of_nat j =? 0) with false by lia.
  rewrite land_pow2 by lia. destruct (Z.testbit w (Z.of_nat j)) eqn:E; cbn [negb]; cycle 1.
  { exists j. split_and!; [done|lia|done]. }
  rewrite Z.shiftl_mul_pow2, <- Z.pow_add_r by lia.
  replace (Z.of_nat j + 1) with (Z.of_nat (S j)) by lia.
  apply IH; [lia|]. intros i Hi. destruct (decide (i = Z.of_nat j)) as [->|]; [done|].
  apply Hset. lia.
Qed.

Lemma words_ok_insert ws i w :
  words_ok ws → 0 ≤ w < 2 ^ 32 → words_ok (<[i := w]> ws).
Proof.
  intros [Hl Hw] ?. split; [by rewrite length_insert|].
  intros x [j Hj]%list_elem_of_lookup. apply list_lookup_insert_Some in Hj as [(_ & <- & _)|[_ Hj]].
  - done.
  - apply Hw. by apply list_elem_of_lookup_2 in Hj.
Qed.

Section Descriptors.
Context {P : Type} `{KPages P}.
Implicit Types h : kheap P.

Lemma at_index_Done {X} (l : list X) i x : l !! i = Some x → at_index l i = Done x.
Proof. unfold at_index. by intros ->. Qed.

Lemma allocpageref_from_spec n i h :
  words_ok (pagerefs_inuse h) → (n + i = INUSE_WORDS)%nat →
  (∀ j, j < i * 32 → inuse_bit (pagerefs_inuse h) j = true)%nat →
  (∀ j, j < NPAGEREFS → inuse_bit (pagerefs_inuse h) j = true)%nat ∧
    allocpageref_from n i h = Done (None, h) ∨
  ∃ j ws, allocpageref_from n i h = Done (Some j, set_inuse ws h) ∧
    (j < NPAGEREFS)%nat ∧ inuse_bit (pagerefs_inuse h) j = false ∧ words_ok ws ∧
    ∀ j', inuse_bit ws j' = if decide (j' = j) then true else inuse_bit (pagerefs_inuse h) j'.
Proof.
  intros Hws. pose proof Hws as [Hlen Hw]. revert i.
  induction n as [|n IH]; intros i Hi Hset; cbn [allocpageref_from].
  { left. split; [|done]. intros j Hj. apply Hset. unfold NPAGEREFS, INUSE_WORDS in *. lia. }
  destruct (lookup_lt_is_Some_2 (pagerefs_inuse h) i) as [w Hwi]; [lia|].
  rewrite (at_index_Done _ _ _ Hwi). cbn [mbind outcome_bind].
  assert (Hwr : 0 ≤ w < 2 ^ 32) by (apply Hw; by apply list_elem_of_lookup_2 in Hwi).
  assert (Hbit : ∀ j, (j / 32 = i)%nat → inuse_bit (pagerefs_inuse h) j = Z.testbit w (Z.of_nat (j mod 32))).
  { intros j Hj. unfold inuse_bit, table_bit. rewrite Hj. by rewrite (list_lookup_total_correct _ _ _ Hwi). }
  destruct (Z.eqb_spec w 0xffffffff) as [->|Hfull].
  - apply IH; [lia|]. intros j Hj. destruct (decide (j < i * 32)%nat); [auto|].
    rewrite Hbit by (symmetry; apply (Nat.div_unique j 32 i (j - i * 32)); lia).
    change 0xffffffff with (Z.ones 32). apply Z.ones_spec_low.
    pose proof (Nat.mod_upper_bound j 32). lia.
  - right. destruct (find_clear_bit_spec 32 w 0) as (b & Hb & Hlt & Hclear); [done|done|done|lia|].
    change (u32 (2 ^ Z.of_nat 0)) with 1 in Hb. rewrite Hb. cbn [mbind outcome_bind].
    assert (Hd : ((i * 32 + b) / 32 = i)%nat) by (symmetry; apply (Nat.div_unique _ 32 i b); lia).
    assert (Hm : ((i * 32 + b) mod 32 = b)%nat) by (symmetry; apply (Nat.mod_unique _ 32 i b); lia).
    eexists _, _. split; [done|]. unfold NPAGEREFS, INUSE_WORDS in *. split_and!; [lia| | |].
    + rewrite Hbit by done. by rewrite Hm.
    + apply words_ok_insert; [done|]. apply lor_bound; [done|done|].
      split; [apply Z.pow_nonneg; lia|apply Z.pow_lt_mono_r; lia].
    + intros j'. by apply table_bit_set.
Qed.

Lemma allocpageref_spec h :
  words_ok (pagerefs_inuse h) →
  (∀ j, j < NPAGEREFS → inuse_bit (pagerefs_inuse h) j = true)%nat ∧
    allocpageref h = Done (None, h) ∨
  ∃ j ws, allocpageref h = Done (Some j, set_inuse ws h) ∧
    (j < NPAGEREFS)%nat ∧ inuse_bit (pagerefs_inuse h) j = false ∧ words_ok ws ∧
    ∀ j', inuse_bit ws j' = if decide (j' = j) then true else inuse_bit (pagerefs_inuse h) j'.
Proof. intros. apply allocpageref_from_spec; [done|done|]. lia. Qed.

Lemma freepageref_spec h j :
  words_ok (pagerefs_inuse h) → (j < NPAGEREFS)%nat → inuse_bit (pagerefs_inuse h) j = true →
  ∃ ws, freepageref j h = Done (set_inuse ws h) ∧ words_ok ws ∧
    ∀ j', inuse_bit ws j' = if decide (j' = j) then false else inuse_bit (pagerefs_inuse h) j'.
Proof.
  intros Hws Hj Hbit. pose proof Hws as [Hlen Hw]. unfold freepageref, NPAGEREFS in *.
  rewrite kassert_true by (by apply Nat.ltb_lt). cbn [mbind outcome_bind].
  assert (Hi : (j / 32 < 8)%nat) by (apply Nat.Div0.div_lt_upper_bound; lia).
  destruct (lookup_lt_is_Some_2 (pagerefs_inuse h) (j / 32)) as [w Hwi];
    [by rewrite Hlen|].
  rewrite (at_index_Done _ _ _ Hwi). cbn [mbind outcome_bind].
  assert (Hwr : 0 ≤ w < 2 ^ 32) by (apply Hw; by apply list_elem_of_lookup_2 in Hwi).
  unfold inuse_bit, table_bit in Hbit. rewrite (list_lookup_total_correct _ _ _ Hwi) in Hbit.
  rewrite Z.shiftl_mul_pow2, Z.mul_1_l, land_pow2, Hbit by lia. cbn [negb kassert mbind outcome_bind].
  eexists. split; [done|]. split.
  - apply words_ok_insert; [done|]. by apply land_bound.
  - apply table_bit_clear; [lia|done|]. intros. by apply land_lnot_bit; [lia..|].
Qed.
End Descriptors.

(** ** The two families of linked lists

    The places list pointers are kept in behave like the cells of a
    memory: [slot_val] reads one, [slot_set] changes that one only. *)

#[global] Instance pageref_inhabited : Inhabited pageref :=
  populate (Pageref None None 0 0 0).
#[global] Instance slot_eq_dec : EqDecision slot.
Proof. solve_decision. Defined.

Section Lists.
Context {P : Type} `{KPages P}.
Implicit Types h : kheap P.

Definition pref h (i : nat) : pageref := pagerefs h !!! i.

Definition slot_val h (s : slot) : option nat :=
  match s with
  | Sizebase t => sizebases h !!! t
  | Allbase => allbase h
  | NextSamesize i => next_samesize (pref h i)
  | NextAll i => next_all (pref h i)
  end.

Definition slot_ok h (s : slot) : Prop :=
  match s with
  | Sizebase t => (t < length (sizebases h))%nat
  | Allbase => True
  | NextSamesize i | NextAll i => (i < length (pagerefs h))%nat
  end.

Lemma at_index_total {X} `{Inhabited X} (l : list X) i :
  (i < length l)%nat → at_index l i = Done (l !!! i).
Proof. intros. apply at_index_Done. by apply list_lookup_lookup_total_lt. Qed.

Lemma slot_get_ok h s : slot_ok h s → slot_get h s = Done (slot_val h s).
Proof.
  destruct s; cbn; intros; rewrite ?at_index_total by done; cbn; done.
Qed.

Lemma pref_alter h (f : pageref → pageref) i j :
  (i < length (pagerefs h))%nat →
  pref (set_pagerefs (alter f i (pagerefs h)) h) j = if decide (i = j) then f (pref h j) else pref h j.
Proof.
  intros Hi. unfold pref. cbn. rewrite list_lookup_total_alter.
  destruct (decide (i = j)) as [<-|].
  - by rewrite decide_True.
  - rewrite decide_False; naive_solver.
Qed.

Lemma slot_val_set h s o s' :
  slot_ok h s → slot_val (slot_set h s o) s' = if decide (s = s') then o else slot_val h s'.
Proof.
  intros Hok. destruct s, s'; cbn in *;
    rewrite ?pref_alter by done; repeat case_decide; simplify_eq; cbn; try done.
  - by rewrite list_lookup_total_insert_eq.
  - rewrite list_lookup_total_insert_ne; congruence.
Qed.

(** Writing a list pointer changes neither the tables' sizes nor the other
    fields of the descriptors. *)
Lemma slot_set_frame h s o :
  slot_ok h s →
  mem (slot_set h s o) = mem h ∧ pagerefs_inuse (slot_set h s o) = pagerefs_inuse h ∧
  pages (slot_set h s o) = pages h ∧
  length (pagerefs (slot_set h s o)) = length (pagerefs h) ∧
  length (sizebases (slot_set h s o)) = length (sizebases h) ∧
  (∀ s', slot_ok (slot_set h s o) s' ↔ slot_ok h s') ∧
  ∀ i, pageaddr_and_blocktype (pref (slot_set h s o) i) = pageaddr_and_blocktype (pref h i) ∧
       freelist_offset (pref (slot_set h s o) i) = freelist_offset (pref h i) ∧
       nfree (pref (slot_set h s o) i) = nfree (pref h i).
Proof.
  intros Hok. destruct s; cbn; rewrite ?length_insert, ?length_alter;
    (split_and!; [done..| |]);
    try (intros []; cbn; by rewrite ?length_insert, ?length_alter);
    intros j; try done; cbn in Hok;
    rewrite pref_alter by done; case_decide; done.
Qed.

(** The list that starts at the pointer kept in [s]. *)
Fixpoint schain h (next : nat → slot) (s : slot) (l : list nat) : Prop :=
  match l with
  | [] => slot_val h s = None
  | x :: l => slot_val h s = Some x ∧ schain h next (next x) l
  end.

Lemma schain_ext h h' next s l :
  slot_val h' s = slot_val h s →
  (∀ x, x ∈ l → slot_val h' (next x) = slot_val h (next x)) →
  schain h next s l → schain h' next s l.
Proof.
  revert s. induction l as [|x l IH]; intros s Hs Hn; cbn; [congruence|].
  intros [Hx Hl]. split; [congruence|]. apply IH; [| |done]; set_solver.
Qed.

Lemma unlink_spec fuel h next s pr l :
  (∀ x y, next x = next y → x = y) →
  schain h next s l → NoDup l → pr ∈ l → (length l ≤ S fuel)%nat →
  slot_ok h s → (∀ x, x ∈ l → slot_ok h (next x)) → (∀ x, x ∈ l → s ≠ next x) →
  ∃ guy, unlink fuel next s pr h = Done (slot_set h guy (slot_val h (next pr))) ∧
    slot_ok h guy ∧ (guy = s ∨ ∃ x, x ∈ l ∧ guy = next x) ∧
    schain (slot_set h guy (slot_val h (next pr))) next s (filter (.≠ pr) l).
Proof.
  intros Hinj. revert fuel s. induction l as [|x l IH]; intros fuel s; [set_solver|].
  intros [Hs Hl] [Hx Hnd]%list.NoDup_cons Hpr Hfuel Hok Hoks Hne. cbn in Hfuel.
  assert (Hrun : unlink fuel next s pr h =
    if Nat.eqb x pr then n ← slot_get h (next pr); Done (slot_set h s n)
    else match fuel with O => Diverge | S fuel => unlink fuel next (next x) pr h end).
  { destruct fuel; cbn [unlink]; rewrite (slot_get_ok h s), Hs by done; reflexivity. }
  rewrite Hrun. clear Hrun.
  destruct (Nat.eqb_spec x pr) as [->|Hxp].
  - rewrite slot_get_ok by set_solver. exists s. split_and!; [done..|by left|].
    rewrite filter_cons_False by naive_solver.
    assert (filter (.≠ pr) l = l) as ->.
    { apply filter_all. set_solver. }
    assert (Hfr : ∀ y, y ∈ l → slot_val (slot_set h s (slot_val h (next pr))) (next y) = slot_val h (next y)).
    { intros y Hy. rewrite slot_val_set by done. rewrite decide_False; [done|]. set_solver. }
    destruct l as [|y l]; cbn in *.
    + rewrite slot_val_set, decide_True by done. done.
    + rewrite slot_val_set, decide_True by done. split; [by apply Hl|].
      destruct Hl as [_ Hl]. revert Hl. apply schain_ext; set_solver.
  - assert (Hprl : pr ∈ l) by set_solver.
    destruct fuel as [|fuel].
    { destruct l; [set_solver|]. cbn in Hfuel. lia. }
    destruct (IH fuel (next x)) as (guy & Hrun & Hgok & Hguy & Hch);
      [done|done|done|lia|set_solver|set_solver| |].
    { intros y Hy Heq. apply Hinj in Heq as ->. done. }
    exists guy. split_and!; [done|done| |].
    { right. destruct Hguy as [->|(y & ? & ->)]; [exists x|exists y]; set_solver. }
    rewrite filter_cons_True by done. cbn. split; [|done].
    rewrite slot_val_set, decide_False by (done || set_solver). done.
Qed.

Lemma find_free_page_spec fuel h t s l :
  schain h NextSamesize s l → (length l ≤ fuel)%nat →
  (∀ i, i ∈ l → (i < length (pagerefs h))%nat ∧ PR_BLOCKTYPE (pref h i) = Z.of_nat t) →
  find_free_page fuel h t (slot_val h s) = Done None ∧ (∀ i, i ∈ l → nfree (pref h i) ≤ 0) ∨
  ∃ i, i ∈ l ∧ 0 < nfree (pref h i) ∧ find_free_page fuel h t (slot_val h s) = Done (Some i).
Proof.
  revert fuel s. induction l as [|x l IH]; intros fuel s; cbn [schain].
  { intros -> _ _. left. destruct fuel; split; set_solver. }
  intros [-> Hl] Hfuel Hin. cbn in Hfuel. destruct (Hin x) as [Hx Ht]; [set_solver|].
  destruct fuel as [|fuel]; [lia|]. cbn [find_free_page]. rewrite at_index_total by done.
  cbn [mbind outcome_bind]. fold (pref h x). rewrite Ht, Z.eqb_refl. cbn [kassert mbind outcome_bind].
  destruct (Z.gtb_spec (nfree (pref h x)) 0); [right; exists x; set_solver|].
  destruct (IH fuel (NextSamesize x)) as [[Hr Hn]|(i & ? & ? & ?)]; [done|lia|set_solver|left|right].
  - split; [done|]. set_solver.
  - exists i. set_solver.
Qed.

Lemma find_owner_spec fuel h a s l :
  schain h NextAll s l → (length l ≤ fuel)%nat →
  (∀ i, i ∈ l → (i < length (pagerefs h))%nat ∧ 0 ≤ PR_BLOCKTYPE (pref h i) < 8 ∧
                PR_PAGEADDR (pref h i) + PAGE_SIZE < 2 ^ 32 ∧ 0 ≤ PR_PAGEADDR (pref h i)) →
  find_owner fuel h a (slot_val h s) = Done None ∧
    (∀ i, i ∈ l → ¬ PR_PAGEADDR (pref h i) ≤ a < PR_PAGEADDR (pref h i) + PAGE_SIZE) ∨
  ∃ i, i ∈ l ∧ PR_PAGEADDR (pref h i) ≤ a < PR_PAGEADDR (pref h i) + PAGE_SIZE ∧
       find_owner fuel h a (slot_val h s) = Done (Some i).
Proof.
  revert fuel s. induction l as [|x l IH]; intros fuel s; cbn [schain].
  { intros -> _ _. left. destruct fuel; split; set_solver. }
  intros [-> Hl] Hfuel Hin. cbn in Hfuel. destruct (Hin x) as (Hx & Ht & Hp & Hp0); [set_solver|].
  destruct fuel as [|fuel]; [lia|]. cbn [find_owner]. rewrite at_index_total by done.
  cbn [mbind outcome_bind]. fold (pref h x).
  change (Z.of_nat NSIZES) with 8. pass_assert.
  assert (0 ≤ PR_PAGEADDR (pref h x) + PAGE_SIZE) by (unfold PAGE_SIZE; lia).
  rewrite u32_id by lia.
  destruct ((a >=? PR_PAGEADDR (pref h x)) && (a <? PR_PAGEADDR (pref h x) + PAGE_SIZE)) eqn:E.
  { right. exists x. split; [set_solver|]. split; [lia|done]. }
  assert (¬ PR_PAGEADDR (pref h x) ≤ a < PR_PAGEADDR (pref h x) + PAGE_SIZE) by lia.
  destruct (IH fuel (NextAll x)) as [[Hr Hn]|(i & ? & ? & ?)]; [done|lia|set_solver|left|right].
  - split; [done|]. set_solver.
  - exists i. set_solver.
Qed.
End Lists.

(** ** Pages of blocks *)

(** The free list that starts at address [a], in memory [m]. *)
Fixpoint mchain (m : Z → Z) (a : Z) (l : list Z) : Prop :=
  match l with
  | [] => a = 0
  | x :: l => a = x ∧ x ≠ 0 ∧ mchain m (m x) l
  end.

Definition pr_size (pr : pageref) : Z := sizes !!! Z.to_nat (PR_BLOCKTYPE pr).
Definition pr_cap (pr : pageref) : Z := PAGE_SIZE / pr_size pr.
Definition first_free (pr : pageref) : Z :=
  if freelist_offset pr =? INVALID_OFFSET then 0 else PR_PAGEADDR pr + freelist_offset pr.

(** [a] is the address of a block of the page. *)
Definition block_of (pr : pageref) (a : Z) : Prop :=
  PR_PAGEADDR pr ≤ a < PR_PAGEADDR pr + PAGE_SIZE ∧ (a - PR_PAGEADDR pr) mod pr_size pr = 0.

(** A page descriptor that is in order, with free blocks [fl]. *)
Record page_ok (m : Z → Z) (pr : pageref) (fl : list Z) : Prop := {
  po_type : 0 ≤ PR_BLOCKTYPE pr < 8;
  po_addr : MIPS_KSEG0 < PR_PAGEADDR pr ∧ PR_PAGEADDR pr + PAGE_SIZE ≤ MIPS_KSEG0 + 2 ^ 29;
  po_chain : mchain m (first_free pr) fl;
  po_offset : freelist_offset pr = INVALID_OFFSET ∨ 0 ≤ freelist_offset pr < PAGE_SIZE;
  po_nodup : NoDup fl;
  po_block a : a ∈ fl → block_of pr a;
  po_count : Z.of_nat (length fl) = nfree pr;
}.

Lemma size_facts t :
  0 ≤ t < 8 →
  let s := sizes !!! Z.to_nat t in
  16 ≤ s ≤ 2048 ∧ PAGE_SIZE = PAGE_SIZE / s * s ∧ s mod 16 = 0 ∧ 2 ≤ PAGE_SIZE / s ≤ 256.
Proof.
  intros Ht. assert (t = 0 ∨ t = 1 ∨ t = 2 ∨ t = 3 ∨ t = 4 ∨ t = 5 ∨ t = 6 ∨ t = 7) as Hc by lia.
  repeat (destruct Hc as [->|Hc]; [vm_compute; repeat split; congruence|]).
  subst. vm_compute; repeat split; congruence.
Qed.

Lemma blocktype_spec sz :
  sz < LARGEST_SUBPAGE_SIZE →
  ∃ t, blocktype sz = Done t ∧ (t < 8)%nat ∧ sz ≤ sizes !!! t.
Proof.
  unfold LARGEST_SUBPAGE_SIZE. intros Hsz. unfold blocktype, sizes. cbn [blocktype_from].
  repeat (match goal with |- context [?a <=? ?b] => destruct (Z.leb_spec a b) end;
          [eexists; split; [done|]; split; [lia|done]|]).
  lia.
Qed.

(** The blocks of a page do not overlap and end inside it. *)
Lemma multiple_gap s a b p :
  0 < s → (a - p) mod s = 0 → (b - p) mod s = 0 → a < b → a + s ≤ b.
Proof.
  intros Hs Ha Hb Hab. apply Z.mod_divide in Ha as [x Hx]; [|lia]. apply Z.mod_divide in Hb as [y Hy]; [|lia].
  assert (x < y) by nia. nia.
Qed.

Lemma block_end pr a :
  0 ≤ PR_BLOCKTYPE pr < 8 → block_of pr a → a + pr_size pr ≤ PR_PAGEADDR pr + PAGE_SIZE.
Proof.
  intros Ht [Ha Hm]. destruct (size_facts _ Ht) as (Hs & Hd & _ & _). fold (pr_size pr) in *.
  apply multiple_gap with (PR_PAGEADDR pr); [lia|done| |lia].
  rewrite Z.add_simpl_l, Hd. apply Z.mod_mul. lia.
Qed.

Lemma mchain_ext m m' a l : (∀ x, x ∈ l → m' x = m x) → mchain m a l → mchain m' a l.
Proof.
  revert a. induction l as [|x l IH]; intros a Hm; [done|]. cbn.
  intros (-> & ? & Hl). split_and!; [done..|]. rewrite Hm by set_solver. apply IH; set_solver.
Qed.

Lemma page_ok_mem m m' pr fl :
  (∀ x, x ∈ fl → m' x = m x) → page_ok m pr fl → page_ok m' pr fl.
Proof. intros Hm []. split; auto. by eapply mchain_ext. Qed.

(** Only the page address and type, the free-list head and the count matter. *)
Lemma page_ok_fields m pr pr' fl :
  pageaddr_and_blocktype pr' = pageaddr_and_blocktype pr →
  freelist_offset pr' = freelist_offset pr → nfree pr' = nfree pr →
  page_ok m pr fl → page_ok m pr' fl.
Proof.
  destruct pr, pr'. cbn. intros -> -> -> []. split; auto.
Qed.

Lemma block_index pr a :
  0 ≤ PR_BLOCKTYPE pr < 8 → block_of pr a →
  ∃ k, (k < Z.to_nat (pr_cap pr))%nat ∧ a = PR_PAGEADDR pr + Z.of_nat k * pr_size pr.
Proof.
  intros Ht Hb. pose proof (block_end pr a Ht Hb) as He. destruct Hb as [Ha Hm].
  destruct (size_facts _ Ht) as (Hs & Hd & _ & Hc). fold (pr_size pr) in *. fold (pr_cap pr) in *.
  apply Z.mod_divide in Hm as [x Hx]; [|lia].
  exists (Z.to_nat x). rewrite Z2Nat.id by nia. split; [|nia].
  apply Z2Nat.inj_lt; nia.
Qed.

(** A page has at most as many free blocks as blocks. *)
Lemma free_le_cap pr fl :
  0 ≤ PR_BLOCKTYPE pr < 8 → NoDup fl → (∀ a, a ∈ fl → block_of pr a) →
  Z.of_nat (length fl) ≤ pr_cap pr.
Proof.
  intros Ht Hnd Hb. destruct (size_facts _ Ht) as (_ & _ & _ & Hc). fold (pr_size pr) in Hc. fold (pr_cap pr) in Hc.
  set (bs := (λ k : nat, PR_PAGEADDR pr + Z.of_nat k * pr_size pr) <$> seq 0 (Z.to_nat (pr_cap pr))).
  assert (Hlen : (length fl ≤ length bs)%nat).
  { apply submseteq_length, NoDup_submseteq; [done|]. intros a Ha.
    destruct (block_index pr a Ht (Hb a Ha)) as (k & Hk & ->).
    apply list_elem_of_fmap. exists k. split; [done|]. apply elem_of_seq. lia. }
  unfold bs in Hlen. rewrite length_fmap, length_seq in Hlen. lia.
Qed.

Lemma fill_words_frame n ptr m w :
  w < ptr ∨ ptr + 4 * Z.of_nat n ≤ w → fill_words n ptr m w = m w.
Proof.
  induction n as [|n IH]; intros Hw; [done|]. cbn [fill_words].
  rewrite fn_lookup_insert_ne by lia. apply IH. lia.
Qed.

Lemma fill_deadbeef_frame ptr len m w :
  0 ≤ len → w < ptr ∨ ptr + len ≤ w → fill_deadbeef ptr len m w = m w.
Proof.
  intros Hl Hw. apply fill_words_frame. pose proof (Z.mul_div_le len 4). lia.
Qed.

Lemma set_free_same off n pr :
  PR_PAGEADDR (set_free off n pr) = PR_PAGEADDR pr ∧
  PR_BLOCKTYPE (set_free off n pr) = PR_BLOCKTYPE pr ∧
  pr_size (set_free off n pr) = pr_size pr ∧ pr_cap (set_free off n pr) = pr_cap pr ∧
  ∀ a, block_of (set_free off n pr) a ↔ block_of pr a.
Proof. done. Qed.

Lemma first_free_set off n pr :
  off < PAGE_SIZE → first_free (set_free off n pr) = PR_PAGEADDR pr + off.
Proof.
  unfold PAGE_SIZE, first_free, INVALID_OFFSET. cbn [set_free freelist_offset]. intros.
  replace (off =? 65535) with false by lia. done.
Qed.

(** Putting a used block back on the free list of its page. *)
Lemma page_ok_push m pr fl a :
  page_ok m pr fl → block_of pr a → a ∉ fl →
  page_ok (<[a := first_free pr]> (fill_deadbeef a (pr_size pr) m))
          (set_free (a - PR_PAGEADDR pr) (nfree pr + 1) pr) (a :: fl).
Proof.
  intros [Ht Hp Hch Hoff Hnd Hb Hn] Ha Hfl.
  destruct (size_facts _ Ht) as (Hs & _). fold (pr_size pr) in Hs.
  assert (Hin : PR_PAGEADDR pr ≤ a < PR_PAGEADDR pr + PAGE_SIZE) by apply Ha.
  unfold MIPS_KSEG0 in Hp. split; cbn [set_free nfree freelist_offset]; try done.
  - rewrite first_free_set by lia. cbn [mchain]. split_and!; [lia|lia|]. rewrite fn_lookup_insert.
    revert Hch. apply mchain_ext. intros x Hx. rewrite fn_lookup_insert_ne by set_solver.
    apply fill_deadbeef_frame; [lia|].
    destruct (Hb x Hx) as [_ Hxm]. destruct Ha as [_ Ham].
    destruct (decide (x < a)); [by left|right].
    assert (x ≠ a) by set_solver.
    apply multiple_gap with (PR_PAGEADDR pr); [lia|done|done|lia].
  - right. lia.
  - apply list.NoDup_cons. done.
  - intros x [->|?]%elem_of_cons; [done|by apply Hb].
  - cbn [length]. lia.
Qed.

(** The descriptor after its first free block has been taken. *)
Lemma page_ok_pop m pr a fl :
  page_ok m pr (a :: fl) →
  block_of pr a ∧ a = PR_PAGEADDR pr + freelist_offset pr ∧
  0 ≤ freelist_offset pr < PAGE_SIZE ∧ nfree pr = Z.of_nat (length fl) + 1 ∧
  mchain m (m a) fl ∧
  page_ok m (set_free (if m a =? 0 then INVALID_OFFSET else m a - PR_PAGEADDR pr)
                      (nfree pr - 1) pr) fl.
Proof.
  intros [Ht Hp (Ha & Ha0 & Hch) Hoff Hnd Hb Hn]. cbn [length] in Hn.
  assert (Hfirst : freelist_offset pr ≠ INVALID_OFFSET ∧ a = PR_PAGEADDR pr + freelist_offset pr).
  { unfold first_free in Ha. destruct (Z.eqb_spec (freelist_offset pr) INVALID_OFFSET); [lia|].
    done. }
  destruct Hfirst as [Hinv Hfirst].
  split_and!; [apply Hb; set_solver|done|destruct Hoff; [done|lia]..|lia|done|].
  apply list.NoDup_cons in Hnd as [Hafl Hnd].
  assert (Hnext : if m a =? 0 then fl = [] else block_of pr (m a)).
  { destruct fl as [|b fl]; cbn in Hch; [by rewrite Hch|].
    destruct Hch as (-> & ? & _). replace (b =? 0) with false by lia. apply Hb. set_solver. }
  unfold MIPS_KSEG0, INVALID_OFFSET, PAGE_SIZE in *.
  destruct (Z.eqb_spec (m a) 0) as [E|E].
  - subst fl. split; cbn [set_free nfree freelist_offset]; try done.
    + by left.
    + intros x Hx. set_solver.
    + cbn in *. lia.
  - destruct Hnext as [Hin _]. unfold PAGE_SIZE in *. split; cbn [set_free nfree freelist_offset]; try done.
    + rewrite first_free_set by (unfold PAGE_SIZE; lia). by rewrite Zplus_minus.
    + right. unfold PAGE_SIZE. lia.
    + intros x Hx. change (block_of pr x). apply Hb. set_solver.
    + lia.
Qed.

(** The addresses of the first [k] blocks of a page, last first. *)
Fixpoint blocks_down (fla size : Z) (k : nat) : list Z :=
  match k with
  | O => []
  | S k => (fla + Z.of_nat k * size) :: blocks_down fla size k
  end.

Lemma elem_of_blocks_down fla size k x :
  x ∈ blocks_down fla size k ↔ ∃ j, (j < k)%nat ∧ x = fla + Z.of_nat j * size.
Proof.
  induction k as [|k IH]; cbn.
  { split; [set_solver|]. intros (j & ? & _). lia. }
  rewrite elem_of_cons, IH. split.
  - intros [->|(j & ? & ->)]; [exists k|exists j]; (split; [lia|done]).
  - intros (j & ? & ->). destruct (decide (j = k)) as [->|]; [by left|right].
    exists j. split; [lia|done].
Qed.

Lemma NoDup_blocks_down fla size k : 0 < size → NoDup (blocks_down fla size k).
Proof.
  intros Hs. induction k as [|k IH]; cbn; [constructor|].
  apply list.NoDup_cons. split; [|done]. rewrite elem_of_blocks_down.
  intros (j & ? & ?). nia.
Qed.

Lemma length_blocks_down fla size k : length (blocks_down fla size k) = k.
Proof. induction k; cbn; lia. Qed.

(** The linking loop leaves a free list through all blocks of the page. *)
Lemma link_blocks_spec n k fla size m :
  0 < fla → 0 < size → fla + Z.of_nat (S k + n) * size < 2 ^ 32 →
  mchain m (fla + Z.of_nat k * size) (blocks_down fla size (S k)) →
  ∃ m', link_blocks n (Z.of_nat (S k)) fla size (fla + Z.of_nat k * size) m =
          Done (fla + Z.of_nat (k + n) * size, m') ∧
    mchain m' (fla + Z.of_nat (k + n) * size) (blocks_down fla size (S (k + n))) ∧
    ∀ w, w < fla ∨ fla + Z.of_nat (S k + n) * size ≤ w → m' w = m w.
Proof.
  intros Hf Hs. revert k m. induction n as [|n IH]; intros k m Hb Hch; cbn [link_blocks].
  { rewrite Nat.add_0_r. eauto. }
  assert (Hi : Z.of_nat (S k) - 1 = Z.of_nat k) by lia. rewrite Hi.
  rewrite !u32_id by nia. rewrite fn_lookup_insert.
  rewrite kassert_true by (apply negb_true_iff, Z.eqb_neq; nia). cbn [mbind outcome_bind].
  set (m1 := <[_ := _]> m).
  destruct (IH (S k) m1) as (m' & Hrun & Hch' & Hfr); [by replace (S (S k) + n)%nat with (S k + S n)%nat by lia| |].
  { change (blocks_down fla size (S (S k))) with ((fla + Z.of_nat (S k) * size) :: blocks_down fla size (S k)).
    cbn [mchain]. split_and!; [done|nia|]. unfold m1. rewrite fn_lookup_insert.
    revert Hch. apply mchain_ext. intros x Hx. apply fn_lookup_insert_ne.
    apply elem_of_blocks_down in Hx as (j & ? & ->). nia. }
  replace (Z.of_nat (S k) + 1) with (Z.of_nat (S (S k))) by lia.
  replace (k + S n)%nat with (S k + n)%nat by lia. exists m'. split_and!; [done..|].
  intros w Hw. rewrite Hfr by (replace (S (S k) + n)%nat with (S k + S n)%nat by lia; done).
  apply fn_lookup_insert_ne. nia.
Qed.
