(* ===== verification/KheapSpec.v ===== *)
(** * The kernel heap implements an allocator of disjoint blocks

    The abstract state of the heap of [Kheap] is the map [B] of the blocks
    handed out, from address to the size asked for.  [heap_rel h B] is the
    representation invariant; the refinement lemmas say that [kheap_kmalloc]
    either fails and changes nothing or adds a fresh block disjoint from all
    others, that [kheap_kfree] removes one, that neither touches a word of
    another block, and that no assertion or panic of the code is reached.
    The last section makes the heap, instrumented with [B], an instance of
    [KHeap] for the rest of the kernel. *)

From S2P Require Import Prelude Ram Kheap.

Section Invariant.
Context {P : Type} `{KPagesLaws P}.
Implicit Types (h : kheap P) (B R : gmap Z Z) (all : list nat) (fls : nat → list Z).

(** The descriptor table and the lists threaded through it: [all] lists the
    descriptors in use, and the list of each size is [all] restricted to
    the pages of that size. *)
Record tables_ok h all : Prop := {
  to_prs : length (pagerefs h) = NPAGEREFS;
  to_bases : length (sizebases h) = NSIZES;
  to_words : words_ok (pagerefs_inuse h);
  to_inuse i : (i < NPAGEREFS)%nat → inuse_bit (pagerefs_inuse h) i = true ↔ i ∈ all;
  to_range i : i ∈ all → (i < NPAGEREFS)%nat;
  to_nodup : NoDup all;
  to_all : schain h NextAll Allbase all;
  to_same t : (t < NSIZES)%nat →
    schain h NextSamesize (Sizebase t) (filter (λ i, PR_BLOCKTYPE (pref h i) = Z.of_nat t) all);
}.

Definition npages_of (n : Z) : Z := (n + PAGE_SIZE - 1) / PAGE_SIZE.

Definition small_block h all fls (a n : Z) : Prop :=
  ∃ i, i ∈ all ∧ block_of (pref h i) a ∧ (a ∉ fls i) ∧ n ≤ pr_size (pref h i).

Definition large_block h all R (a n : Z) : Prop :=
  LARGEST_SUBPAGE_SIZE ≤ n ∧ R !! a = Some (npages_of n) ∧
  ∀ i, i ∈ all → PR_PAGEADDR (pref h i) ≠ a.

(** The pages, their free lists [fls] and the blocks handed out: a block is
    a used block of a page or a run of pages of its own, and nothing else
    is in use. *)
Record blocks_ok h B all R fls : Prop := {
  bo_pages : pages_rel (pages h) R;
  bo_page i : i ∈ all → page_ok (mem h) (pref h i) (fls i);
  bo_run i : i ∈ all → R !! PR_PAGEADDR (pref h i) = Some 1;
  bo_inj i j : i ∈ all → j ∈ all → PR_PAGEADDR (pref h i) = PR_PAGEADDR (pref h j) → i = j;
  bo_block a n : B !! a = Some n → 0 ≤ n ∧ (small_block h all fls a n ∨ large_block h all R a n);
  bo_used i a : i ∈ all → block_of (pref h i) a → a ∉ fls i → is_Some (B !! a);
  bo_owner a k : R !! a = Some k → (∃ i, i ∈ all ∧ PR_PAGEADDR (pref h i) = a) ∨ is_Some (B !! a);
}.

(** Between operations no page is entirely free. *)
Definition pages_used h all : Prop := ∀ i, i ∈ all → nfree (pref h i) < pr_cap (pref h i).

Definition heap_rel h B : Prop :=
  ∃ all R fls, tables_ok h all ∧ blocks_ok h B all R fls ∧ pages_used h all.

(** *** Consequences *)

Lemma npages_of_cover n : 0 ≤ n → n ≤ npages_of n * PAGE_SIZE.
Proof.
  unfold npages_of, PAGE_SIZE. intros.
  pose proof (Z.div_mod (n + 4096 - 1) 4096). pose proof (Z.mod_pos_bound (n + 4096 - 1) 4096). lia.
Qed.

(** Where a block is: inside a run [r] of [k] pages, either as a used block
    of a page of blocks or as the whole run. *)
Lemma block_place h B all R fls a n :
  blocks_ok h B all R fls → B !! a = Some n →
  ∃ r k, R !! r = Some k ∧ 0 ≤ n ∧ r ≤ a ∧ a + n ≤ r + k * PAGE_SIZE ∧ a < r + k * PAGE_SIZE ∧
    ((∃ i, i ∈ all ∧ r = PR_PAGEADDR (pref h i) ∧ block_of (pref h i) a ∧ (a ∉ fls i) ∧
           n ≤ pr_size (pref h i) ∧ 0 < pr_size (pref h i)) ∨
     r = a ∧ ∀ i, i ∈ all → PR_PAGEADDR (pref h i) ≠ r).
Proof.
  intros Hbo Ha. destruct (bo_block _ _ _ _ _ Hbo _ _ Ha) as [Hn [(i & Hi & Hb & Hf & Hs)|(Hl & Hr & Hno)]].
  - pose proof (bo_page _ _ _ _ _ Hbo i Hi) as Hp. pose proof (po_type _ _ _ Hp) as Ht.
    pose proof (block_end _ _ Ht Hb). destruct (size_facts _ Ht) as (Hsz & _).
    fold (pr_size (pref h i)) in Hsz. pose proof Hb as [Hin _].
    exists (PR_PAGEADDR (pref h i)), 1. split; [by eapply bo_run|]. split_and!; [lia..|].
    left. exists i. split_and!; done || lia.
  - exists a, (npages_of n). pose proof (npages_of_cover n Hn). unfold LARGEST_SUBPAGE_SIZE in Hl.
    split; [done|]. split_and!; [lia..|]. by right.
Qed.

(** Different blocks of one page keep their distance. *)
Lemma blocks_apart pr a b n :
  block_of pr a → block_of pr b → n ≤ pr_size pr → 0 < pr_size pr → a < b → a + n ≤ b.
Proof.
  intros [_ Ha] [_ Hb] Hn Hs Hab. pose proof (multiple_gap _ _ _ _ Hs Ha Hb Hab). lia.
Qed.

(** A free block shares no address with a block handed out. *)
Lemma free_not_live h B all R fls a n i x :
  blocks_ok h B all R fls → B !! a = Some n → i ∈ all → x ∈ fls i →
  x ≠ a ∧ (x < a ∨ a + n ≤ x).
Proof.
  intros Hbo Ha Hi Hx. pose proof (bo_page _ _ _ _ _ Hbo i Hi) as Hp.
  pose proof (po_block _ _ _ Hp x Hx) as Hxb. pose proof Hxb as [Hin _].
  pose proof (bo_run _ _ _ _ _ Hbo i Hi) as Hri.
  destruct (block_place _ _ _ _ _ _ _ Hbo Ha) as (r & k & Hr & ? & ? & ? & ? & Hkind).
  destruct (decide (PR_PAGEADDR (pref h i) = r)) as [Heq|Hne]; cycle 1.
  { destruct (pages_rel_disjoint _ _ _ _ _ _ (bo_pages _ _ _ _ _ Hbo) Hri Hr Hne); lia. }
  destruct Hkind as [(j & Hj & Hrj & Hb & Hfree & Hs & Hs0)|[_ Hno]]; [|by destruct (Hno i)].
  assert (i = j) as <- by (eapply bo_inj; eauto; congruence).
  assert (x ≠ a) by set_solver. split; [done|].
  destruct (decide (x < a)); [by left|right]. eapply blocks_apart; eauto. lia.
Qed.

Lemma heap_rel_disjoint h B a n b m :
  heap_rel h B → B !! a = Some n → B !! b = Some m → a ≠ b → disjoint_ranges a n b m.
Proof.
  intros (all & R & fls & _ & Hbo & _) Ha Hb Hab. unfold disjoint_ranges.
  destruct (block_place _ _ _ _ _ _ _ Hbo Ha) as (r & k & Hr & ? & ? & ? & ? & Hka).
  destruct (block_place _ _ _ _ _ _ _ Hbo Hb) as (r' & k' & Hr' & ? & ? & ? & ? & Hkb).
  destruct (decide (r = r')) as [<-|Hne]; cycle 1.
  { destruct (pages_rel_disjoint _ _ _ _ _ _ (bo_pages _ _ _ _ _ Hbo) Hr Hr' Hne); lia. }
  destruct Hka as [(i & Hi & Hri & Hba & _ & Hs & Hs0)|[-> Hno]],
           Hkb as [(j & Hj & Hrj & Hbb & _ & Hs' & _)|[? Hno']].
  - assert (i = j) as <- by (eapply bo_inj; eauto; congruence).
    destruct (decide (a < b)); [left|right]; eapply blocks_apart; eauto; lia.
  - by destruct (Hno' i).
  - by destruct (Hno j).
  - done.
Qed.

(** Every block is aligned to 16 bytes and is not NULL. *)
Lemma heap_rel_aligned h B a n : heap_rel h B → B !! a = Some n → a mod 16 = 0 ∧ 0 < a.
Proof.
  intros (all & R & fls & _ & Hbo & _) Ha.
  destruct (block_place _ _ _ _ _ _ _ Hbo Ha) as (r & k & Hr & ? & ? & ? & ? & Hk).
  destruct (pages_rel_run _ _ _ _ (bo_pages _ _ _ _ _ Hbo) Hr) as (_ & Hal & Hlo & _).
  unfold MIPS_KSEG0, PAGE_SIZE in *.
  assert (Hr16 : r mod 16 = 0) by (Z.to_euclidean_division_equations; lia).
  split; [|lia]. destruct Hk as [(i & Hi & -> & [_ Hm] & _)|[-> _]]; [|done].
  destruct (size_facts _ (po_type _ _ _ (bo_page _ _ _ _ _ Hbo i Hi))) as (Hsz & _ & H16 & _).
  fold (pr_size (pref h i)) in *.
  apply Z.mod_divide in Hm as [x Hx]; [|lia]. apply Z.mod_divide in H16 as [y Hy]; [|lia].
  replace a with (PR_PAGEADDR (pref h i) + (x * y) * 16) by lia. by rewrite Z.mod_add.
Qed.

(** *** How the invariant moves with the state *)

Lemma pref_insert h h1 i pr j :
  pagerefs h1 = <[i := pr]> (pagerefs h) → (i < length (pagerefs h))%nat →
  pref h1 j = if decide (i = j) then pr else pref h j.
Proof.
  intros E Hi. unfold pref. rewrite E. destruct (decide (i = j)) as [<-|].
  - by rewrite list_lookup_total_insert_eq.
  - by rewrite list_lookup_total_insert_ne.
Qed.

(** The tables do not depend on the memory, the page allocator or the free
    lists of the pages. *)
Lemma tables_ok_ext h h' all :
  length (pagerefs h') = length (pagerefs h) → sizebases h' = sizebases h →
  allbase h' = allbase h → pagerefs_inuse h' = pagerefs_inuse h →
  (∀ i, next_samesize (pref h' i) = next_samesize (pref h i) ∧
        next_all (pref h' i) = next_all (pref h i) ∧
        pageaddr_and_blocktype (pref h' i) = pageaddr_and_blocktype (pref h i)) →
  tables_ok h all → tables_ok h' all.
Proof.
  intros Hl Hs Ha Hu Hf [Hp Hb Hw Hi Hr Hn Hall Hsame].
  assert (Hv : ∀ s, slot_val h' s = slot_val h s).
  { intros []; cbn; [by rewrite Hs|done|apply Hf|apply Hf]. }
  split; rewrite ?Hu; auto; [congruence|congruence|..].
  - revert Hall. apply schain_ext; auto.
  - intros t Ht. rewrite (filter_ext_in _ (λ i, PR_BLOCKTYPE (pref h i) = Z.of_nat t)).
    { specialize (Hsame t Ht). revert Hsame. apply schain_ext; auto. }
    intros i _. unfold PR_BLOCKTYPE. destruct (Hf i) as (_ & _ & ->). done.
Qed.

(** A change of free lists and of the blocks handed out on the same pages. *)
Lemma blocks_ok_update h h' B B' all R fls fls' :
  blocks_ok h B all R fls → pages h' = pages h →
  (∀ i, i ∈ all → pageaddr_and_blocktype (pref h' i) = pageaddr_and_blocktype (pref h i)) →
  (∀ i, i ∈ all → page_ok (mem h') (pref h' i) (fls' i)) →
  (∀ a n, B' !! a = Some n → 0 ≤ n ∧ (small_block h all fls' a n ∨ large_block h all R a n)) →
  (∀ i a, i ∈ all → block_of (pref h i) a → a ∉ fls' i → is_Some (B' !! a)) →
  (∀ a k, R !! a = Some k → (∃ i, i ∈ all ∧ PR_PAGEADDR (pref h i) = a) ∨ is_Some (B' !! a)) →
  blocks_ok h' B' all R fls'.
Proof.
  intros [Hpg _ Hrun Hinj _ _ _] Hpages Haddr Hpage Hblk Hused Hown.
  assert (HA : ∀ i, i ∈ all → PR_PAGEADDR (pref h' i) = PR_PAGEADDR (pref h i) ∧
                              pr_size (pref h' i) = pr_size (pref h i)).
  { intros i Hi. unfold pr_size, PR_BLOCKTYPE, PR_PAGEADDR. by rewrite Haddr. }
  assert (HB : ∀ i a, i ∈ all → block_of (pref h' i) a ↔ block_of (pref h i) a).
  { intros i a Hi. unfold block_of. by destruct (HA i Hi) as [-> ->]. }
  split.
  - by rewrite Hpages.
  - done.
  - intros i Hi. destruct (HA i Hi) as [-> _]. auto.
  - intros i j Hi Hj. destruct (HA i Hi) as [-> _], (HA j Hj) as [-> _]. auto.
  - intros a n Ha. destruct (Hblk a n Ha) as [Hn Hk]. split; [done|]. destruct Hk as [(i & Hi & Hb & Hf & Hs)|(Hl & Hr & Hno)].
    + left. exists i. destruct (HA i Hi) as [_ ->]. rewrite HB by done. done.
    + right. split_and!; [done..|]. intros i Hi. destruct (HA i Hi) as [-> _]. auto.
  - intros i a Hi. rewrite HB by done. eauto.
  - intros a k Ha. destruct (Hown a k Ha) as [(i & Hi & Hia)|?]; [left|by right].
    exists i. destruct (HA i Hi) as [-> _]. done.
Qed.

(** Taking the first free block [a] of page [i] for a request of [n] bytes. *)
Lemma doalloc_spec h B all R fls i a fl n :
  tables_ok h all → blocks_ok h B all R fls → i ∈ all → fls i = a :: fl →
  0 ≤ n ≤ pr_size (pref h i) →
  ∃ h', doalloc i h = Done (a, h') ∧ tables_ok h' all ∧
    blocks_ok h' (<[a := n]> B) all R (<[i := fl]> fls) ∧ B !! a = None ∧
    mem h' = mem h ∧
    ∀ j, pr_cap (pref h' j) = pr_cap (pref h j) ∧
         nfree (pref h' j) = if decide (i = j) then nfree (pref h j) - 1 else nfree (pref h j).
Proof.
  intros Hto Hbo Hi Hfl Hn.
  assert (Hpop : page_ok (mem h) (pref h i) (a :: fl)) by (rewrite <- Hfl; by eapply bo_page).
  pose proof (po_addr _ _ _ Hpop) as Haddr. pose proof (po_type _ _ _ Hpop) as Htype.
  pose proof (po_nodup _ _ _ Hpop) as [Hafl _]%list.NoDup_cons.
  pose proof (free_le_cap _ _ Htype (po_nodup _ _ _ Hpop) (po_block _ _ _ Hpop)) as Hcap.
  destruct (size_facts _ Htype) as (_ & _ & _ & Hc). fold (pr_size (pref h i)) in Hc. fold (pr_cap (pref h i)) in Hc.
  destruct (page_ok_pop _ _ _ _ Hpop) as (Hba & Ha & Hoff & Hnf & Hch & Hok').
  assert (Hlen : (i < length (pagerefs h))%nat) by (rewrite (to_prs _ _ Hto); by eapply to_range).
  set (pr' := set_free _ _ _) in Hok'.
  assert (Hrun : doalloc i h = Done (a, set_pagerefs (<[i := pr']> (pagerefs h)) h)).
  { unfold doalloc. rewrite at_index_total by done. fold (pref h i). cbn [mbind outcome_bind].
    unfold MIPS_KSEG0, PAGE_SIZE in *. cbn [length] in Hcap. pass_assert.
    rewrite (u32_id (_ + _)) by lia. rewrite <- Ha.
    unfold u16. rewrite (Z.mod_small (nfree (pref h i) - 1)) by lia. unfold pr'.
    destruct fl as [|b fl]; cbn [mchain length] in Hch, Hnf.
    - rewrite Hch. cbn [negb Z.eqb]. pass_assert. done.
    - destruct Hch as (Hb & Hb0 & _). rewrite Hb. replace (b =? 0) with false by lia. cbn [negb].
      destruct (po_block _ _ _ Hpop b) as [Hbin _]; [set_solver|]. unfold PAGE_SIZE in *.
      rewrite u32_id by lia. pass_assert. pass_assert.
      rewrite Z.mod_small by lia. done. }
  eexists. split; [exact Hrun|].
  assert (Hpref : ∀ j, pref (set_pagerefs (<[i := pr']> (pagerefs h)) h) j = if decide (i = j) then pr' else pref h j)
    by (intros; by apply pref_insert).
  assert (HBa : B !! a = None).
  { destruct (B !! a) as [m|] eqn:E; [|done].
    destruct (free_not_live _ _ _ _ _ _ _ i a Hbo E Hi) as [? _]; [rewrite Hfl; set_solver|done]. }
  split_and!; [..|done|done|].
  - revert Hto. apply tables_ok_ext; [cbn; by rewrite length_insert|done..|].
    intros j. rewrite Hpref. case_decide; subst; done.
  - apply (blocks_ok_update h _ B _ all R fls); [done|done|..].
    + intros j _. rewrite Hpref. case_decide; subst; done.
    + intros j Hj. rewrite Hpref. destruct (decide (i = j)) as [<-|].
      * by rewrite fn_lookup_insert.
      * rewrite fn_lookup_insert_ne by done. exact (bo_page _ _ _ _ _ Hbo j Hj).
    + intros b m. rewrite lookup_insert_Some. intros [[<- <-]|[Hne Hb]].
      { split; [lia|]. left. exists i. rewrite fn_lookup_insert. split_and!; [done..|lia]. }
      destruct (bo_block _ _ _ _ _ Hbo _ _ Hb) as [Hm [(j & Hj & Hjb & Hjf & Hjs)|Hlarge]];
        (split; [done|]); [left|by right].
      exists j. split_and!; [done..| |done].
      destruct (decide (i = j)) as [<-|]; [|by rewrite fn_lookup_insert_ne].
      rewrite fn_lookup_insert. rewrite Hfl in Hjf. set_solver.
    + intros j b Hj Hjb Hjf. destruct (decide (a = b)) as [<-|].
      { by rewrite lookup_insert_eq. }
      rewrite lookup_insert_ne by done. apply (bo_used _ _ _ _ _ Hbo j); [done..|].
      destruct (decide (i = j)) as [<-|]; [|by rewrite fn_lookup_insert_ne in Hjf].
      rewrite fn_lookup_insert in Hjf. rewrite Hfl. set_solver.
    + intros b k Hb. destruct (bo_owner _ _ _ _ _ Hbo b k Hb) as [?|?]; [by left|right].
      by apply lookup_insert_is_Some'; right.
  - intros j. rewrite Hpref. case_decide; subst; done.
Qed.

(** *** Setting up a fresh page *)

Lemma MKPAB_fields pg t :
  0 ≤ pg < 2 ^ 32 → pg mod PAGE_SIZE = 0 → 0 ≤ t < 8 →
  Z.land (MKPAB pg t) PAGE_FRAME = pg ∧ Z.land (MKPAB pg t) 0xfff = t.
Proof.
  intros Hpg Hal Ht. unfold MKPAB. rewrite !Z.land_lor_distr_l, <- !Z.land_assoc.
  change (Z.land 0xfff PAGE_FRAME) with 0. change (Z.land PAGE_FRAME PAGE_FRAME) with PAGE_FRAME.
  change (Z.land PAGE_FRAME 0xfff) with 0. change (Z.land 0xfff 0xfff) with 0xfff.
  rewrite !Z.land_0_r, Z.lor_0_r, Z.lor_0_l, land_page_frame, land_page_offset by done.
  unfold PAGE_SIZE in *. split; [|apply Z.mod_small; lia].
  Z.to_euclidean_division_equations; lia.
Qed.

(** What the code computes: the new descriptor heads both lists, and its
    free list runs through all blocks of the page. *)
Lemma init_page_run h i pg t :
  (t < NSIZES)%nat → length (sizebases h) = NSIZES →
  0 < pg → pg + PAGE_SIZE < 2 ^ 32 →
  let size := sizes !!! t in
  let cap := PAGE_SIZE / size in
  ∃ m, init_page i pg t size h =
         Done (Kheap m (<[i := Pageref (sizebases h !!! t) (allbase h) (MKPAB pg (Z.of_nat t))
                                       ((cap - 1) * size) cap]> (pagerefs h))
                    (pagerefs_inuse h) (<[t := Some i]> (sizebases h)) (Some i) (pages h)) ∧
    mchain m (pg + (cap - 1) * size) (blocks_down pg size (Z.to_nat cap)) ∧
    ∀ w, w < pg ∨ pg + PAGE_SIZE ≤ w → m w = mem h w.
Proof.
  intros Ht Hlen Hpg Hhi size cap. change NSIZES with 8%nat in Ht, Hlen.
  destruct (size_facts (Z.of_nat t) ltac:(lia)) as (Hs & Hd & _ & Hc). rewrite Nat2Z.id in *.
  fold size in Hs, Hd, Hc. fold cap in Hd, Hc.
  unfold init_page. fold cap. unfold u16. rewrite (Z.mod_small cap) by lia.
  destruct (link_blocks_spec (Z.to_nat (cap - 1)) 0 pg size (<[pg := 0]> (mem h))) as (m & Hrun & Hch & Hfr);
    [done|lia|nia| |].
  { cbn [blocks_down mchain]. rewrite Z.mul_0_l, Z.add_0_r, fn_lookup_insert. split_and!; [done|lia|done]. }
  change (Z.of_nat 1) with 1 in Hrun. rewrite Z.mul_0_l, Z.add_0_r, Nat.add_0_l in Hrun.
  rewrite Hrun. cbn [mbind outcome_bind]. rewrite Z2Nat.id by lia.
  replace (pg + (cap - 1) * size - pg) with ((cap - 1) * size) by lia.
  unfold PAGE_SIZE in *. rewrite u32_id by nia. rewrite (Z.mod_small ((cap - 1) * size)) by nia.
  rewrite Z.eqb_refl. cbn [kassert mbind outcome_bind].
  rewrite at_index_total by (cbn; lia). cbn [mbind outcome_bind].
  exists m. split; [done|]. split.
  - rewrite Nat.add_0_l, Z2Nat.id in Hch by lia.
    replace (S (Z.to_nat (cap - 1))) with (Z.to_nat cap) in Hch by lia. done.
  - intros w Hw. rewrite Hfr by nia. apply fn_lookup_insert_ne. lia.
Qed.

Lemma init_page_tables h h1 all i ws t pr :
  tables_ok h all → (i < NPAGEREFS)%nat → (i ∉ all) → (t < NSIZES)%nat → words_ok ws →
  (∀ j, inuse_bit ws j = if decide (j = i) then true else inuse_bit (pagerefs_inuse h) j) →
  PR_BLOCKTYPE pr = Z.of_nat t →
  next_samesize pr = sizebases h !!! t → next_all pr = allbase h →
  pagerefs h1 = <[i := pr]> (pagerefs h) → pagerefs_inuse h1 = ws →
  sizebases h1 = <[t := Some i]> (sizebases h) → allbase h1 = Some i →
  tables_ok h1 (i :: all).
Proof.
  intros [Hp Hb Hw Hu Hr Hn Hall Hsame] Hi Hnew Ht Hws Hbits Hty Hns Hna Epr Ews Esb Eab.
  assert (Hpref : ∀ j, pref h1 j = if decide (i = j) then pr else pref h j).
  { intros j. apply pref_insert; [done|lia]. }
  assert (Hold : ∀ x, x ∈ all → pref h1 x = pref h x).
  { intros x Hx. rewrite Hpref, decide_False; [done|]. intros ->. done. }
  split.
  - rewrite Epr, length_insert. done.
  - rewrite Esb, length_insert. done.
  - by rewrite Ews.
  - intros j Hj. rewrite Ews, Hbits, elem_of_cons. destruct (decide (j = i)); [naive_solver|].
    rewrite Hu by done. naive_solver.
  - intros j [->|?]%elem_of_cons; auto.
  - by apply list.NoDup_cons.
  - cbn. split; [by rewrite Eab|]. revert Hall. destruct all as [|y all]; cbn; rewrite Hpref, decide_True, Hna by done.
    + done.
    + intros [-> Hall]. split; [done|]. revert Hall. apply schain_ext; cbn; [rewrite Hold by set_solver; done|].
      intros x Hx. rewrite Hold by set_solver. done.
  - intros t' Ht'. rewrite filter_cons, Hpref, (decide_True _ _ (eq_refl i)), Hty.
    rewrite (filter_ext_in _ (λ j, PR_BLOCKTYPE (pref h j) = Z.of_nat t'))
      by (intros x Hx; by rewrite Hold).
    specialize (Hsame t' Ht'). set (l := filter _ all) in *.
    assert (Hl : ∀ x, x ∈ l → x ∈ all) by (intros x Hx; by apply list_elem_of_filter in Hx as [_ ?]).
    clearbody l. destruct (decide (Z.of_nat t = Z.of_nat t')) as [E|E].
    + assert (t' = t) as -> by lia. cbn. rewrite Esb, list_lookup_total_insert_eq by lia.
      split; [done|]. revert Hsame. destruct l as [|y l]; cbn; rewrite Hpref, decide_True, Hns by done; [done|].
      intros [-> Hl']. split; [done|]. revert Hl'. apply schain_ext; cbn; [rewrite Hold by set_solver; done|].
      intros x Hx. rewrite Hold by set_solver. done.
    + revert Hsame. apply schain_ext; cbn.
      * rewrite Esb, list_lookup_total_insert_ne; [done|]. intros ->. done.
      * intros x Hx. rewrite Hold by auto. done.
Qed.

(** The descriptor [init_page] writes describes a page with every block free. *)
Lemma fresh_page_ok m pg t sb ab :
  (t < NSIZES)%nat → pg mod PAGE_SIZE = 0 →
  MIPS_KSEG0 < pg → pg + PAGE_SIZE ≤ MIPS_KSEG0 + 2 ^ 29 →
  let size := sizes !!! t in
  let cap := PAGE_SIZE / size in
  let pr := Pageref sb ab (MKPAB pg (Z.of_nat t)) ((cap - 1) * size) cap in
  mchain m (pg + (cap - 1) * size) (blocks_down pg size (Z.to_nat cap)) →
  PR_PAGEADDR pr = pg ∧ PR_BLOCKTYPE pr = Z.of_nat t ∧ pr_size pr = size ∧
  page_ok m pr (blocks_down pg size (Z.to_nat cap)).
Proof.
  intros Ht Hal Hlo Hhi size cap pr Hch. change NSIZES with 8%nat in Ht.
  destruct (size_facts (Z.of_nat t) ltac:(lia)) as (Hs & Hd & _ & Hc). rewrite Nat2Z.id in *.
  fold size in Hs, Hd, Hc. fold cap in Hd, Hc.
  destruct (MKPAB_fields pg (Z.of_nat t)) as [Hpa Hbt]; [unfold MIPS_KSEG0, PAGE_SIZE in *; lia|done|lia|].
  assert (Hsz : pr_size pr = size) by (unfold pr_size, PR_BLOCKTYPE; cbn; rewrite Hbt, Nat2Z.id; done).
  split_and!; [done..|]. split; cbn [freelist_offset nfree pr].
  - unfold PR_BLOCKTYPE. cbn. rewrite Hbt. lia.
  - unfold PR_PAGEADDR. cbn. rewrite Hpa. lia.
  - unfold first_free, PR_PAGEADDR, INVALID_OFFSET, PAGE_SIZE in *. cbn [freelist_offset pr pageaddr_and_blocktype].
    replace ((cap - 1) * size =? 65535) with false by nia. by rewrite Hpa.
  - right. unfold PAGE_SIZE in *. nia.
  - apply NoDup_blocks_down. lia.
  - intros a (j & Hj & ->)%elem_of_blocks_down. unfold block_of. rewrite Hsz.
    change (PR_PAGEADDR pr) with (Z.land (MKPAB pg (Z.of_nat t)) PAGE_FRAME). rewrite Hpa.
    rewrite Z.add_simpl_l, Z.mod_mul by lia. unfold PAGE_SIZE in *. nia.
  - rewrite length_blocks_down. lia.
Qed.

Lemma fresh_page_blocks m pr fl a :
  page_ok m pr fl → Z.of_nat (length fl) = pr_cap pr → block_of pr a → a ∈ fl.
Proof.
  intros [Ht _ _ _ Hnd Hb _] Hlen Ha. destruct (decide (a ∈ fl)) as [|Hn]; [done|].
  assert (Hle : Z.of_nat (length (a :: fl)) ≤ pr_cap pr).
  { apply free_le_cap; [done|by apply list.NoDup_cons|].
    intros x [->|?]%elem_of_cons; auto. }
  cbn in Hle. lia.
Qed.

Lemma init_page_blocks h h1 B all R fls i pg fl :
  blocks_ok h B all R fls → (i ∉ all) → R !! pg = None →
  pages_rel (pages h1) (<[pg := 1]> R) →
  (∀ j, j ∈ all → pref h1 j = pref h j) →
  PR_PAGEADDR (pref h1 i) = pg → page_ok (mem h1) (pref h1 i) fl →
  Z.of_nat (length fl) = pr_cap (pref h1 i) →
  (∀ w, w < pg ∨ pg + PAGE_SIZE ≤ w → mem h1 w = mem h w) →
  blocks_ok h1 B (i :: all) (<[pg := 1]> R) (<[i := fl]> fls).
Proof.
  intros Hbo Hnew Hpg Hrel Hold Hi Hfl Hfull Hmem.
  assert (Hne : ∀ j, j ∈ all → i ≠ j) by (intros j Hj ->; done).
  assert (Hpgne : ∀ j, j ∈ all → PR_PAGEADDR (pref h j) ≠ pg).
  { intros j Hj E. pose proof (bo_run _ _ _ _ _ Hbo j Hj) as Hr. rewrite E, Hpg in Hr. done. }
  split; [done|..].
  - intros j [->|Hj]%elem_of_cons; [by rewrite fn_lookup_insert|].
    rewrite fn_lookup_insert_ne, Hold by auto.
    pose proof (bo_page _ _ _ _ _ Hbo j Hj) as Hp.
    revert Hp. apply page_ok_mem. intros x Hx. apply Hmem.
    pose proof (po_block _ _ _ (bo_page _ _ _ _ _ Hbo j Hj) x Hx) as [Hin _].
    destruct (pages_rel_disjoint _ _ pg 1 (PR_PAGEADDR (pref h j)) 1 Hrel) as [?|?];
      [by rewrite lookup_insert_eq| |by apply not_eq_sym, Hpgne|lia..].
    rewrite lookup_insert_ne by (by apply not_eq_sym, Hpgne). by eapply bo_run.
  - intros j [->|Hj]%elem_of_cons; [by rewrite Hi, lookup_insert_eq|].
    rewrite Hold, lookup_insert_ne by (done || by apply not_eq_sym, Hpgne). by eapply bo_run.
  - intros j k [->|Hj]%elem_of_cons [->|Hk]%elem_of_cons; [done| | |].
    + rewrite Hi, Hold by done. intros E. by destruct (Hpgne k).
    + rewrite Hi, Hold by done. intros E. by destruct (Hpgne j).
    + rewrite !Hold by done. by apply (bo_inj _ _ _ _ _ Hbo).
  - intros a n Ha. destruct (bo_block _ _ _ _ _ Hbo a n Ha) as [Hn [(j & Hj & Hb & Hf & Hs)|(Hl & Hr & Hno)]];
      (split; [done|]); [left|right].
    + exists j. rewrite Hold, fn_lookup_insert_ne by auto. split_and!; [set_solver|done..].
    + assert (a ≠ pg) by (intros ->; congruence).
      split_and!; [done|by rewrite lookup_insert_ne|].
      intros j [->|Hj]%elem_of_cons; [by rewrite Hi|]. rewrite Hold by done. auto.
  - intros j a [->|Hj]%elem_of_cons.
    + rewrite fn_lookup_insert. intros Hb []. by eapply fresh_page_blocks.
    + rewrite Hold, fn_lookup_insert_ne by auto. by apply (bo_used _ _ _ _ _ Hbo).
  - intros a k. rewrite lookup_insert_Some. intros [[<- <-]|[_ Ha]].
    + left. exists i. split; [set_solver|done].
    + destruct (bo_owner _ _ _ _ _ Hbo a k Ha) as [(j & Hj & Hja)|?]; [left|by right].
      exists j. rewrite Hold by done. split; [set_solver|done].
Qed.

(** *** Allocation *)

(** No word of a block handed out in [B] changes from [h] to [h']. *)
Definition blocks_kept h h' B : Prop :=
  ∀ b m w, B !! b = Some m → b ≤ w < b + m → mem h' w = mem h w.

(** What an allocation of [n] bytes that returns [r] does to the blocks. *)
Definition alloc_result h B (n : Z) (r : option Z) h' : Prop :=
  blocks_kept h h' B ∧
  match r with
  | None => heap_rel h' B
  | Some a => B !! a = None ∧ heap_rel h' (<[a := n]> B)
  end.

Lemma tables_ok_words h all ws :
  tables_ok h all → words_ok ws →
  (∀ j, inuse_bit ws j = inuse_bit (pagerefs_inuse h) j) →
  tables_ok (set_inuse ws h) all.
Proof.
  intros [Hp Hb Hw Hu Hr Hn Hall Hsame] Hws Hbits. split; try done.
  - intros i Hi. cbn. rewrite Hbits. auto.
  - revert Hall. by apply schain_ext.
  - intros t Ht. specialize (Hsame t Ht). revert Hsame. by apply schain_ext.
Qed.

Lemma blocks_ok_pages h B all R fls p :
  blocks_ok h B all R fls → pages_rel p R → blocks_ok (set_pages p h) B all R fls.
Proof. intros [] ?. split; auto. Qed.

Lemma all_length h all : tables_ok h all → (length all ≤ NPAGEREFS)%nat.
Proof. intros Hto. apply NoDup_bounded_length; apply Hto. Qed.

(** Allocation from a page that has a free block. *)
Lemma doalloc_result h B all R fls i n :
  tables_ok h all → blocks_ok h B all R fls → i ∈ all → 0 < nfree (pref h i) →
  0 ≤ n ≤ pr_size (pref h i) → (∀ j, j ∈ all → i ≠ j → nfree (pref h j) < pr_cap (pref h j)) →
  ∃ a h', doalloc i h = Done (a, h') ∧ B !! a = None ∧ heap_rel h' (<[a := n]> B) ∧ mem h' = mem h.
Proof.
  intros Hto Hbo Hi Hfree Hn Hused. pose proof (bo_page _ _ _ _ _ Hbo i Hi) as Hp.
  destruct (fls i) as [|a fl] eqn:Hfl.
  { pose proof (po_count _ _ _ Hp) as Hc. cbn in Hc. lia. }
  pose proof (free_le_cap _ _ (po_type _ _ _ Hp) (po_nodup _ _ _ Hp) (po_block _ _ _ Hp)) as Hcap.
  rewrite (po_count _ _ _ Hp) in Hcap.
  destruct (doalloc_spec h B all R fls i a fl n) as (h' & Hrun & Hto' & Hbo' & HBa & Hmem & Hnf); [done..|].
  exists a, h'. split_and!; [done..| |done]. exists all, R, (<[i := fl]> fls). split_and!; [done..|].
  intros j Hj. destruct (Hnf j) as [-> ->]. destruct (decide (i = j)) as [<-|]; [lia|auto].
Qed.

(** The page allocator has nothing: the descriptor is given back. *)
Lemma newpage_fails h B all R fls i ws p :
  tables_ok h all → blocks_ok h B all R fls → pages_used h all →
  (i < NPAGEREFS)%nat → inuse_bit (pagerefs_inuse h) i = false → words_ok ws →
  (∀ j, inuse_bit ws j = if decide (j = i) then true else inuse_bit (pagerefs_inuse h) j) →
  pages_rel p R →
  ∃ h', freepageref i (set_pages p (set_inuse ws h)) = Done h' ∧ mem h' = mem h ∧ heap_rel h' B.
Proof.
  intros Hto Hbo Hused Hi Hib Hws Hbits Hp.
  destruct (freepageref_spec (set_pages p (set_inuse ws h)) i) as (ws' & Hrun & Hws' & Hbits');
    [done|done|cbn; by rewrite Hbits, decide_True|]. cbn in Hbits'.
  eexists. split; [exact Hrun|]. split; [done|]. exists all, R, fls. split_and!; [|split; apply Hbo || done|done].
  apply (tables_ok_ext (set_inuse ws' h)); [done..|].
  apply tables_ok_words; [done..|]. intros j. rewrite Hbits', Hbits.
  destruct (decide (j = i)) as [->|]; done.
Qed.

(** The page allocator has a page [pg]: it becomes a page of blocks. *)
Lemma newpage_works h B all R fls i ws p pg t :
  tables_ok h all → blocks_ok h B all R fls → (i < NPAGEREFS)%nat → (i ∉ all) →
  words_ok ws →
  (∀ j, inuse_bit ws j = if decide (j = i) then true else inuse_bit (pagerefs_inuse h) j) →
  (t < NSIZES)%nat → R !! pg = None → pages_rel p (<[pg := 1]> R) →
  ∃ h1 fl, init_page i pg t (sizes !!! t) (set_pages p (set_inuse ws h)) = Done h1 ∧
    tables_ok h1 (i :: all) ∧ blocks_ok h1 B (i :: all) (<[pg := 1]> R) (<[i := fl]> fls) ∧
    pr_size (pref h1 i) = sizes !!! t ∧ 0 < nfree (pref h1 i) ∧
    (∀ j, j ∈ all → pref h1 j = pref h j) ∧
    (∀ w, w < pg ∨ pg + PAGE_SIZE ≤ w → mem h1 w = mem h w).
Proof.
  intros Hto Hbo Hi Hnew Hws Hbits Ht Hpg Hp.
  destruct (pages_rel_run _ _ pg 1 Hp) as (_ & Hal & Hlo & Hhi); [by rewrite lookup_insert_eq|].
  unfold MIPS_KSEG0 in Hlo, Hhi. rewrite Z.mul_1_l in Hhi.
  destruct (init_page_run (set_pages p (set_inuse ws h)) i pg t) as (m & Hrun & Hch & Hfr);
    [done|apply (to_bases _ _ Hto)|lia|lia|].
  set (h1 := Kheap _ _ _ _ _ _) in Hrun. cbn in Hrun, Hfr.
  destruct (size_facts (Z.of_nat t) ltac:(unfold NSIZES in Ht; lia)) as (_ & _ & _ & Hc). rewrite Nat2Z.id in Hc.
  destruct (fresh_page_ok m pg t (sizebases h !!! t) (allbase h) Ht Hal Hlo Hhi Hch) as (Hpa & Hty & Hps & Hok).
  set (pr := Pageref (sizebases h !!! t) _ _ _ _) in *.
  assert (Hpref : ∀ j, pref h1 j = if decide (i = j) then pr else pref h j).
  { intros j. apply pref_insert; [done|]. rewrite (to_prs _ _ Hto). done. }
  assert (Hold : ∀ j, j ∈ all → pref h1 j = pref h j).
  { intros j Hj. rewrite Hpref, decide_False; [done|]. intros ->. done. }
  assert (Hself : pref h1 i = pr) by (rewrite Hpref, decide_True; done).
  eexists h1, _. split_and!; [exact Hrun|..|done|done].
  - eapply (init_page_tables h h1 all i ws t); done.
  - eapply (init_page_blocks h h1 B all R fls i pg); rewrite ?Hself; try done.
    rewrite length_blocks_down. unfold pr_cap. rewrite Hps. lia.
  - by rewrite Hself.
  - rewrite Hself. cbn. lia.
Qed.

Lemma newpage_spec h B all R fls t n :
  tables_ok h all → blocks_ok h B all R fls → pages_used h all →
  (t < NSIZES)%nat → 0 ≤ n ≤ sizes !!! t →
  ∃ r h', subpage_newpage t (sizes !!! t) h = Done (r, h') ∧ alloc_result h B n r h'.
Proof.
  intros Hto Hbo Hused Ht Hn. unfold subpage_newpage.
  destruct (allocpageref_spec h (to_words _ _ Hto)) as [[_ ->]|(i & ws & -> & Hi & Hib & Hws & Hbits)];
    cbn [mbind outcome_bind].
  { eexists _, _. split; [done|]. split; [done|]. by exists all, R, fls. }
  change (pages (set_inuse ws h)) with (pages h).
  assert (Hnew : i ∉ all) by (intros Hin; apply (to_inuse _ _ Hto) in Hin; [congruence|done]).
  destruct (alloc_kpages_law (pages h) R 1) as (pg & p & -> & [[-> Hp]|(Hpg0 & Hpg & Hp)]);
    [by eapply bo_pages|lia|cbn [Z.eqb]|].
  - destruct (newpage_fails h B all R fls i ws p) as (h' & -> & Hm & Hrel); [done..|].
    eexists _, _. split; [done|]. split; [|done]. intros b m w _ _. by rewrite Hm.
  - replace (pg =? 0) with false by lia.
    destruct (newpage_works h B all R fls i ws p pg t) as (h1 & fl & -> & Hto1 & Hbo1 & Hs1 & Hn1 & Hold & Hfr);
      [done..|]. cbn [mbind outcome_bind].
    destruct (doalloc_result h1 B (i :: all) _ _ i n Hto1 Hbo1) as (a & h' & -> & HBa & Hrel & Hm);
      [set_solver|done|by rewrite Hs1|..].
    { intros j [->|Hj]%elem_of_cons Hij; [done|]. rewrite Hold by done. by apply Hused. }
    eexists _, _. split; [done|]. split; [|done]. intros b m w Hb Hw. rewrite Hm. apply Hfr.
    destruct (block_place _ _ _ _ _ _ _ Hbo Hb) as (r & k & Hr & ? & ? & ? & ? & _).
    assert (pg ≠ r) by (intros ->; congruence).
    destruct (pages_rel_disjoint _ _ pg 1 r k Hp) as [?|?];
      [by rewrite lookup_insert_eq|by rewrite lookup_insert_ne|done|lia..].
Qed.

Lemma subpage_kmalloc_spec h B n :
  heap_rel h B → 0 ≤ n < LARGEST_SUBPAGE_SIZE →
  ∃ r h', subpage_kmalloc n h = Done (r, h') ∧ alloc_result h B n r h'.
Proof.
  intros (all & R & fls & Hto & Hbo & Hused) Hn. unfold subpage_kmalloc.
  destruct (blocktype_spec n) as (t & -> & Ht & Hsz); [lia|]. cbn [mbind outcome_bind].
  rewrite !at_index_total by (rewrite ?(to_bases _ _ Hto); done). cbn [mbind outcome_bind].
  set (l := filter (λ i, PR_BLOCKTYPE (pref h i) = Z.of_nat t) all).
  assert (Hl : ∀ i, i ∈ l → i ∈ all ∧ PR_BLOCKTYPE (pref h i) = Z.of_nat t).
  { intros i [? ?]%list_elem_of_filter. done. }
  change (sizebases h !!! t) with (slot_val h (Sizebase t)).
  destruct (find_free_page_spec NPAGEREFS h t (Sizebase t) l) as [[-> _]|(i & Hi & Hnf & ->)].
  - by apply (to_same _ _ Hto).
  - transitivity (length all); [apply length_filter|by eapply all_length].
  - intros i Hi. rewrite (to_prs _ _ Hto). destruct (Hl i Hi). split; [by eapply to_range|done].
  - cbn [mbind outcome_bind]. eapply newpage_spec; [done..|lia].
  - cbn [mbind outcome_bind]. destruct (Hl i Hi) as [Hia Hit].
    destruct (doalloc_result h B all R fls i n) as (a & h' & -> & ? & ? & Hm); [done..| | |].
    { unfold pr_size. rewrite Hit, Nat2Z.id. lia. }
    { intros j Hj _. by apply Hused. }
    eexists _, _. split; [done|]. split; [|done]. intros b m w _ _. by rewrite Hm.
Qed.

(** *** Unlinking a page *)

Lemma filter_type_commute h all i t :
  filter (λ j, PR_BLOCKTYPE (pref h j) = Z.of_nat t) (filter (.≠ i) all) =
  filter (.≠ i) (filter (λ j, PR_BLOCKTYPE (pref h j) = Z.of_nat t) all).
Proof. rewrite !list_filter_filter. apply list_filter_iff. naive_solver. Qed.

Lemma remove_lists_spec h all i t :
  tables_ok h all → i ∈ all → PR_BLOCKTYPE (pref h i) = Z.of_nat t → (t < NSIZES)%nat →
  ∃ h', remove_lists i (Z.of_nat t) h = Done h' ∧
    mem h' = mem h ∧ pages h' = pages h ∧ pagerefs_inuse h' = pagerefs_inuse h ∧
    length (pagerefs h') = length (pagerefs h) ∧ length (sizebases h') = length (sizebases h) ∧
    (∀ j, pageaddr_and_blocktype (pref h' j) = pageaddr_and_blocktype (pref h j) ∧
          freelist_offset (pref h' j) = freelist_offset (pref h j) ∧
          nfree (pref h' j) = nfree (pref h j)) ∧
    schain h' NextAll Allbase (filter (.≠ i) all) ∧
    ∀ t', (t' < NSIZES)%nat → schain h' NextSamesize (Sizebase t')
      (filter (λ j, PR_BLOCKTYPE (pref h j) = Z.of_nat t') (filter (.≠ i) all)).
Proof.
  intros Hto Hi Hty Ht. pose proof Hto as [Hprs Hbases _ _ Hr Hn Hall Hsame].
  unfold remove_lists. change (Z.of_nat NSIZES) with 8. unfold NSIZES in Ht.
  rewrite kassert_true by solve_assert. cbn [mbind outcome_bind]. rewrite Nat2Z.id.
  set (l := filter (λ j, PR_BLOCKTYPE (pref h j) = Z.of_nat t) all).
  assert (Hl : ∀ j, j ∈ l → j ∈ all ∧ PR_BLOCKTYPE (pref h j) = Z.of_nat t).
  { intros j [? ?]%list_elem_of_filter. done. }
  destruct (unlink_spec NPAGEREFS h NextSamesize (Sizebase t) i l) as (g & -> & Hgok & Hg & Hch).
  { by intros x y [= ->]. }
  { by apply Hsame. }
  { by apply list.NoDup_filter. }
  { by apply list_elem_of_filter. }
  { transitivity (length all); [apply length_filter|]. pose proof (all_length _ _ Hto). lia. }
  { cbn. rewrite Hbases. done. }
  { intros x [Hx _]%Hl. cbn. rewrite Hprs. auto. }
  { done. }
  cbn [mbind outcome_bind]. set (h1 := slot_set h g _) in *.
  destruct (slot_set_frame h g (slot_val h (NextSamesize i)) Hgok) as (Hm1 & Hu1 & Hp1 & Hlp1 & Hlb1 & Hok1 & Hf1).
  fold h1 in Hm1, Hu1, Hp1, Hlp1, Hlb1, Hok1, Hf1.
  assert (Hv1 : ∀ s, s ≠ g → slot_val h1 s = slot_val h s).
  { intros s Hs. unfold h1. by rewrite slot_val_set, decide_False by (done || naive_solver). }
  assert (Hgall : g ≠ Allbase ∧ ∀ x, g ≠ NextAll x) by (destruct Hg as [->|(y & _ & ->)]; done).
  destruct (unlink_spec NPAGEREFS h1 NextAll Allbase i all) as (g2 & -> & Hgok2 & Hg2 & Hch2).
  { by intros x y [= ->]. }
  { revert Hall. apply schain_ext; [|intros x _]; apply Hv1; naive_solver. }
  { done. }
  { done. }
  { pose proof (all_length _ _ Hto). lia. }
  { done. }
  { intros x Hx. apply Hok1. cbn. rewrite Hprs. auto. }
  { done. }
  set (h2 := slot_set h1 g2 _) in *.
  destruct (slot_set_frame h1 g2 (slot_val h1 (NextAll i)) Hgok2) as (Hm2 & Hu2 & Hp2 & Hlp2 & Hlb2 & _ & Hf2).
  fold h2 in Hm2, Hu2, Hp2, Hlp2, Hlb2, Hf2.
  exists h2. split_and!; [done|congruence..| | |].
  - intros j. destruct (Hf1 j) as (? & ? & ?), (Hf2 j) as (? & ? & ?). split_and!; congruence.
  - done.
  - intros t' Ht'. rewrite filter_type_commute.
    assert (Hv2 : ∀ s, s ≠ Allbase → (∀ x, s ≠ NextAll x) → slot_val h2 s = slot_val h1 s).
    { intros s Hs Hsx. unfold h2. rewrite slot_val_set, decide_False; [done| |done].
      destruct Hg2 as [->|(y & _ & ->)]; naive_solver. }
    destruct (decide (t' = t)) as [->|Htt].
    + revert Hch. apply schain_ext; [|intros x _]; by apply Hv2.
    + rewrite filter_all.
      2: { intros x [Hx _]%list_elem_of_filter ->. rewrite Hty in Hx. lia. }
      specialize (Hsame t' Ht'). revert Hsame. apply schain_ext.
      * rewrite Hv2, Hv1; [done| |done..]. destruct Hg as [->|(y & _ & ->)]; [congruence|done].
      * intros x [Hx _]%list_elem_of_filter. rewrite Hv2, Hv1; [done| |done..].
        destruct Hg as [->|(y & [_ Hy]%Hl & ->)]; [done|]. intros [= ->]. rewrite Hy in Hx. lia.
Qed.

(** *** Freeing *)

(** A block may be counted with the full size of its slot. *)
Lemma blocks_ok_resize h B all R fls i a n :
  blocks_ok h B all R fls → i ∈ all → block_of (pref h i) a → (a ∉ fls i) → B !! a = Some n →
  blocks_ok h (<[a := pr_size (pref h i)]> B) all R fls.
Proof.
  intros Hbo Hi Hb Hf Ha. destruct (size_facts _ (po_type _ _ _ (bo_page _ _ _ _ _ Hbo i Hi))) as (Hs & _).
  fold (pr_size (pref h i)) in Hs.
  apply (blocks_ok_update h h B _ all R fls fls Hbo); [done|done|apply Hbo|..].
  - intros b m. rewrite lookup_insert_Some. intros [[<- <-]|[_ Hb']]; [|by apply Hbo].
    split; [lia|]. left. exists i. split_and!; done.
  - intros j b Hj Hjb Hjf. apply lookup_insert_is_Some'. right. by eapply bo_used.
  - intros b k Hk. destruct (bo_owner _ _ _ _ _ Hbo b k Hk) as [?|?]; [by left|right].
    apply lookup_insert_is_Some'. by right.
Qed.

(** The heap after block [a] of page [i] has been put on its free list. *)
Definition pushed h (i : nat) (a : Z) : kheap P :=
  let pr := pref h i in
  set_pagerefs (<[i := set_free (a - PR_PAGEADDR pr) (nfree pr + 1) pr]> (pagerefs h))
    (set_mem (<[a := first_free pr]> (fill_deadbeef a (pr_size pr) (mem h))) h).

Lemma pushed_pref h all i a j :
  tables_ok h all → i ∈ all →
  pref (pushed h i a) j =
    if decide (i = j) then set_free (a - PR_PAGEADDR (pref h i)) (nfree (pref h i) + 1) (pref h i)
    else pref h j.
Proof.
  intros Hto Hi. apply pref_insert; [done|]. rewrite (to_prs _ _ Hto). by eapply to_range.
Qed.

(** Freeing writes to the freed block only. *)
Lemma pushed_mem h all i a w :
  tables_ok h all → i ∈ all → 0 < pr_size (pref h i) →
  w < a ∨ a + pr_size (pref h i) ≤ w → mem (pushed h i a) w = mem h w.
Proof.
  intros Hto Hi Hs Hw. cbn. rewrite fn_lookup_insert_ne by lia. apply fill_deadbeef_frame; lia.
Qed.

Lemma pushed_ok h B all R fls i a n :
  tables_ok h all → blocks_ok h B all R fls → pages_used h all →
  i ∈ all → block_of (pref h i) a → (a ∉ fls i) → B !! a = Some n →
  tables_ok (pushed h i a) all ∧
  blocks_ok (pushed h i a) (delete a B) all R (<[i := a :: fls i]> fls) ∧
  blocks_kept h (pushed h i a) (delete a B).
Proof.
  intros Hto Hbo Hused Hi Hb Hf Ha.
  pose proof (blocks_ok_resize _ _ _ _ _ _ _ _ Hbo Hi Hb Hf Ha) as Hbig.
  pose proof (bo_page _ _ _ _ _ Hbo i Hi) as Hp.
  destruct (size_facts _ (po_type _ _ _ Hp)) as (Hs & _). fold (pr_size (pref h i)) in Hs.
  split_and!.
  - apply (tables_ok_ext h); [cbn; by rewrite length_insert|done..| |done].
    intros j. rewrite (pushed_pref h all) by done. case_decide; subst; done.
  - apply (blocks_ok_update h _ B _ all R fls _ Hbo); [done|..].
    + intros j Hj. rewrite (pushed_pref h all) by done. case_decide; subst; done.
    + intros j Hj. rewrite (pushed_pref h all) by done. destruct (decide (i = j)) as [<-|Hij].
      * rewrite fn_lookup_insert. by apply page_ok_push.
      * rewrite fn_lookup_insert_ne by done. pose proof (bo_page _ _ _ _ _ Hbo j Hj) as Hpj.
        revert Hpj. apply page_ok_mem. intros x Hx. eapply pushed_mem; [done..|lia|].
        eapply (free_not_live _ _ _ _ _ a); [exact Hbig|by rewrite lookup_insert_eq|done|done].
    + intros b m [Hne Hbm]%lookup_delete_Some.
      destruct (bo_block _ _ _ _ _ Hbo b m Hbm) as [Hm [(j & Hj & Hjb & Hjf & Hjs)|Hl]];
        (split; [done|]); [left|by right].
      exists j. split_and!; [done..| |done]. destruct (decide (i = j)) as [<-|].
      * rewrite fn_lookup_insert. set_solver.
      * by rewrite fn_lookup_insert_ne.
    + intros j b Hj Hjb Hjf. assert ((b ∉ fls j) ∧ a ≠ b) as [Hbf Hab].
      { destruct (decide (i = j)) as [<-|Hij].
        - rewrite fn_lookup_insert in Hjf. set_solver.
        - rewrite fn_lookup_insert_ne in Hjf by done. split; [done|]. intros ->.
          destruct (pages_rel_disjoint _ _ _ _ _ _ (bo_pages _ _ _ _ _ Hbo)
            (bo_run _ _ _ _ _ Hbo i Hi) (bo_run _ _ _ _ _ Hbo j Hj)) as [?|?];
            [intros E; by apply Hij, (bo_inj _ _ _ _ _ Hbo)|destruct Hb, Hjb; lia..]. }
      rewrite lookup_delete_ne by done. by eapply bo_used.
    + intros b k Hk. destruct (bo_owner _ _ _ _ _ Hbo b k Hk) as [?|?]; [by left|].
      destruct (decide (a = b)) as [<-|]; [|right; by rewrite lookup_delete_ne].
      left. destruct (decide (PR_PAGEADDR (pref h i) = a)); [eauto|].
      destruct (pages_rel_disjoint _ _ _ _ _ _ (bo_pages _ _ _ _ _ Hbo)
            (bo_run _ _ _ _ _ Hbo i Hi) Hk) as [?|?]; [done|destruct Hb; lia|].
      destruct (pages_rel_run _ _ _ _ (bo_pages _ _ _ _ _ Hbo) Hk). destruct Hb. unfold PAGE_SIZE in *. lia.
  - intros b m w [Hne Hbm]%lookup_delete_Some Hw. eapply pushed_mem; [done..|lia|].
    assert (Hdis : disjoint_ranges a (pr_size (pref h i)) b m).
    { apply (heap_rel_disjoint h (<[a := pr_size (pref h i)]> B)); [by exists all, R, fls| | |done].
      - by rewrite lookup_insert_eq.
      - by rewrite lookup_insert_ne. }
    destruct Hdis; lia.
Qed.

(** A page with every block free goes back to the page allocator. *)
Lemma drop_page_ok h B all R fls i t :
  tables_ok h all → blocks_ok h B all R fls → i ∈ all →
  nfree (pref h i) = pr_cap (pref h i) → PR_BLOCKTYPE (pref h i) = Z.of_nat t → (t < NSIZES)%nat →
  ∃ h1 h2, remove_lists i (Z.of_nat t) h = Done h1 ∧
    freepageref i (set_pages (free_kpages (PR_PAGEADDR (pref h i)) (pages h1)) h1) = Done h2 ∧
    tables_ok h2 (filter (.≠ i) all) ∧
    blocks_ok h2 B (filter (.≠ i) all) (delete (PR_PAGEADDR (pref h i)) R) fls ∧
    mem h2 = mem h ∧
    ∀ j, nfree (pref h2 j) = nfree (pref h j) ∧ pr_cap (pref h2 j) = pr_cap (pref h j).
Proof.
  intros Hto Hbo Hi Hfull Hty Ht.
  destruct (remove_lists_spec h all i t Hto Hi Hty Ht)
    as (h1 & Hrun & Hm & Hp & Hu & Hlp & Hlb & Hf & Hall & Hsame).
  destruct (freepageref_spec (set_pages (free_kpages (PR_PAGEADDR (pref h i)) (pages h1)) h1) i)
    as (ws & Hrun2 & Hws & Hbits); cbn.
  { rewrite Hu. apply Hto. }
  { by eapply to_range. }
  { rewrite Hu. apply (to_inuse _ _ Hto); [by eapply to_range|done]. }
  cbn in Hbits. eexists h1, _. split; [done|]. split; [exact Hrun2|].
  set (h2 := set_inuse ws _). change (pref h2) with (pref h1).
  assert (Hin : ∀ j, j ∈ filter (.≠ i) all ↔ j ≠ i ∧ j ∈ all) by (intros; by rewrite list_elem_of_filter).
  assert (HA : ∀ j, PR_PAGEADDR (pref h1 j) = PR_PAGEADDR (pref h j) ∧
                    PR_BLOCKTYPE (pref h1 j) = PR_BLOCKTYPE (pref h j) ∧
                    pr_size (pref h1 j) = pr_size (pref h j)).
  { intros j. destruct (Hf j) as [E _]. unfold pr_size, PR_PAGEADDR, PR_BLOCKTYPE. by rewrite E. }
  assert (HB : ∀ j a, block_of (pref h1 j) a ↔ block_of (pref h j) a).
  { intros j a. unfold block_of. by destruct (HA j) as (-> & _ & ->). }
  assert (Hpne : ∀ j, j ∈ all → j ≠ i → PR_PAGEADDR (pref h i) ≠ PR_PAGEADDR (pref h j)).
  { intros j Hj Hji E. by apply Hji, eq_sym, (bo_inj _ _ _ _ _ Hbo). }
  split_and!; [split|split|done|]; change (pref h2) with (pref h1).
  - cbn. rewrite Hlp. apply Hto.
  - cbn. rewrite Hlb. apply Hto.
  - done.
  - intros j Hj. cbn. rewrite Hbits, Hu, Hin. pose proof (to_inuse _ _ Hto j Hj).
    destruct (decide (j = i)); naive_solver.
  - intros j [_ ?]%Hin. by eapply to_range.
  - apply list.NoDup_filter. apply Hto.
  - revert Hall. by apply schain_ext.
  - intros t' Ht'. specialize (Hsame t' Ht').
    rewrite (filter_ext_in _ (λ j, PR_BLOCKTYPE (pref h j) = Z.of_nat t'))
      by (intros j _; by destruct (HA j) as (_ & -> & _)).
    revert Hsame. by apply schain_ext.
  - cbn. rewrite Hp. eapply free_kpages_law; [apply Hbo|by eapply bo_run].
  - intros j [Hji Hj]%Hin. change (mem h2) with (mem h1). rewrite Hm.
    destruct (Hf j) as (? & ? & ?). eapply page_ok_fields; [done..|]. by eapply bo_page.
  - intros j [Hji Hj]%Hin. destruct (HA j) as [-> _].
    rewrite lookup_delete_ne by auto. by eapply bo_run.
  - intros j k [_ Hj]%Hin [_ Hk]%Hin. destruct (HA j) as [-> _], (HA k) as [-> _].
    by apply (bo_inj _ _ _ _ _ Hbo).
  - intros a n Ha. destruct (bo_block _ _ _ _ _ Hbo a n Ha) as [Hn [(j & Hj & Hb & Hjf & Hs)|(Hl & Hr & Hno)]];
      (split; [done|]); [left|right].
    + exists j. rewrite Hin. change (pref h2) with (pref h1). rewrite HB. destruct (HA j) as (_ & _ & ->).
      split_and!; try done. intros ->. destruct Hjf. eapply fresh_page_blocks; [by eapply bo_page| |done].
      rewrite (po_count _ _ _ (bo_page _ _ _ _ _ Hbo i Hi)). done.
    + split_and!; [done|by rewrite lookup_delete_ne by auto|]. intros j [_ Hj]%Hin.
      change (pref h2) with (pref h1). destruct (HA j) as [-> _]. auto.
  - intros j a [_ Hj]%Hin. rewrite HB. by apply (bo_used _ _ _ _ _ Hbo).
  - intros a k [Hne Ha]%lookup_delete_Some.
    destruct (bo_owner _ _ _ _ _ Hbo a k Ha) as [(j & Hj & Hja)|?]; [left|by right].
    exists j. destruct (HA j) as [-> _]. rewrite Hin. split_and!; [congruence|done|done].
  - intros j. destruct (Hf j) as (E & _ & ?). split; [done|]. unfold pr_cap. by destruct (HA j) as (_ & _ & ->).
Qed.

Lemma find_owner_result h B all R fls a :
  tables_ok h all → blocks_ok h B all R fls →
  find_owner NPAGEREFS h a (allbase h) = Done None ∧
    (∀ i, i ∈ all → ¬ PR_PAGEADDR (pref h i) ≤ a < PR_PAGEADDR (pref h i) + PAGE_SIZE) ∨
  ∃ i, i ∈ all ∧ PR_PAGEADDR (pref h i) ≤ a < PR_PAGEADDR (pref h i) + PAGE_SIZE ∧
       find_owner NPAGEREFS h a (allbase h) = Done (Some i).
Proof.
  intros Hto Hbo. apply (find_owner_spec _ _ _ Allbase).
  - apply Hto.
  - by eapply all_length.
  - intros i Hi. pose proof (bo_page _ _ _ _ _ Hbo i Hi) as Hp. rewrite (to_prs _ _ Hto).
    pose proof (po_addr _ _ _ Hp). pose proof (po_type _ _ _ Hp).
    unfold MIPS_KSEG0, PAGE_SIZE in *. split_and!; [by eapply to_range|lia..].
Qed.

Lemma subpage_kfree_small h B all R fls i a n :
  tables_ok h all → blocks_ok h B all R fls → pages_used h all →
  i ∈ all → block_of (pref h i) a → (a ∉ fls i) → B !! a = Some n →
  find_owner NPAGEREFS h a (allbase h) = Done (Some i) →
  ∃ h', subpage_kfree a h = Done (0, h') ∧ heap_rel h' (delete a B) ∧ blocks_kept h h' (delete a B).
Proof.
  intros Hto Hbo Hused Hi Hb Hf Ha Hown.
  pose proof (bo_page _ _ _ _ _ Hbo i Hi) as Hp. destruct Hp as [Hty Haddr _ Hoff _ _ _].
  destruct (size_facts _ Hty) as (Hs & _ & _ & Hc). fold (pr_size (pref h i)) in *. fold (pr_cap (pref h i)) in *.
  destruct (pushed_ok h B all R fls i a n) as (Hto1 & Hbo1 & Hkept); [done..|].
  pose proof (pushed_pref h all i a i Hto Hi) as Hself. rewrite decide_True in Hself by done.
  assert (Hnf : nfree (pref h i) < pr_cap (pref h i)) by auto.
  pose proof (po_count _ _ _ (bo_page _ _ _ _ _ Hbo i Hi)) as Hcount.
  unfold subpage_kfree. rewrite Hown. cbn [mbind outcome_bind].
  rewrite at_index_total by (rewrite (to_prs _ _ Hto); by eapply to_range). fold (pref h i).
  cbn [mbind outcome_bind]. rewrite at_index_total by (cbn; lia). fold (pr_size (pref h i)).
  cbn [mbind outcome_bind]. fold (pr_cap (pref h i)).
  unfold MIPS_KSEG0, PAGE_SIZE, INVALID_OFFSET in *. destruct Hb as [Hin Hmod]. unfold PAGE_SIZE in Hin.
  rewrite (u32_id (a - _)) by lia. rewrite Hmod.
  replace (a - PR_PAGEADDR (pref h i) >=? 4096) with false by lia. cbn [negb orb Z.eqb].
  rewrite (u32_id (_ + (a - _))) by lia. rewrite Zplus_minus. unfold u16.
  rewrite (Z.mod_small (a - _)), (Z.mod_small (nfree (pref h i) + 1)) by lia.
  assert (Hnext : (if freelist_offset (pref h i) =? 65535 then 0
                   else u32 (PR_PAGEADDR (pref h i) + freelist_offset (pref h i))) = first_free (pref h i)).
  { unfold first_free, INVALID_OFFSET. destruct (Z.eqb_spec (freelist_offset (pref h i)) 65535); [done|].
    apply u32_id. lia. }
  rewrite Hnext. pass_assert. fold (pushed h i a).
  change (set_pagerefs (<[i := _]> (pagerefs _)) _) with (pushed h i a).
  destruct (Z.eqb_spec (nfree (pref h i) + 1) (pr_cap (pref h i))) as [Hfull|Hnot].
  - destruct (drop_page_ok (pushed h i a) (delete a B) all R _ i (Z.to_nat (PR_BLOCKTYPE (pref h i))) Hto1 Hbo1 Hi)
      as (h1 & h2 & Hr1 & Hr2 & Hto2 & Hbo2 & Hm2 & Hn2).
    { by rewrite Hself. }
    { rewrite Hself, Z2Nat.id by lia. done. }
    { unfold NSIZES. lia. }
    rewrite Z2Nat.id in Hr1 by lia. rewrite Hr1. cbn [mbind outcome_bind].
    rewrite Hself in Hr2. change (PR_PAGEADDR (set_free _ _ _)) with (PR_PAGEADDR (pref h i)) in Hr2.
    rewrite Hr2. cbn [mbind outcome_bind]. exists h2. split; [done|]. split.
    + eexists _, _, _. split_and!; [exact Hto2|exact Hbo2|]. intros j Hj%list_elem_of_filter.
      destruct Hj as [Hji Hj], (Hn2 j) as [-> ->].
      rewrite (pushed_pref h all), decide_False by done. by apply Hused.
    + intros b m w Hb Hw. rewrite Hm2. by eapply Hkept.
  - exists (pushed h i a). split; [done|]. split; [|done]. eexists _, _, _. split_and!; [exact Hto1|exact Hbo1|].
    intros j Hj. rewrite (pushed_pref h all) by done. destruct (decide (i = j)) as [<-|]; [|by apply Hused].
    change (nfree (pref h i) + 1 < pr_cap (pref h i)). lia.
Qed.

(** *** The two entry points *)

Lemma npages_of_range n : LARGEST_SUBPAGE_SIZE ≤ n ≤ 2 ^ 31 → 1 ≤ npages_of n ≤ 2 ^ 19.
Proof.
  unfold npages_of, LARGEST_SUBPAGE_SIZE, PAGE_SIZE. intros.
  Z.to_euclidean_division_equations; lia.
Qed.

Lemma kheap_kmalloc_refines h B n :
  heap_rel h B → 0 ≤ n ≤ 2 ^ 31 →
  ∃ r h', kheap_kmalloc n h = Done (r, h') ∧ alloc_result h B n r h'.
Proof.
  intros Hrel Hn. unfold kheap_kmalloc.
  destruct (Z.geb_spec n LARGEST_SUBPAGE_SIZE) as [Hl|Hl]; [|apply subpage_kmalloc_spec; [done|lia]].
  destruct Hrel as (all & R & fls & Hto & Hbo & Hused).
  rewrite u32_id by (unfold PAGE_SIZE; lia). fold (npages_of n).
  destruct (alloc_kpages_law (pages h) R (npages_of n)) as (a & p & -> & [[-> Hp]|(Ha0 & Ha & Hp)]);
    [apply Hbo|apply npages_of_range; lia|cbn [Z.eqb]|].
  { eexists _, _. split; [done|]. split; [done|]. exists all, R, fls. split_and!; [|by apply blocks_ok_pages|done].
    by apply (tables_ok_ext h). }
  replace (a =? 0) with false by lia. eexists _, _. split; [done|]. split; [done|].
  assert (HBa : B !! a = None).
  { destruct (B !! a) as [m|] eqn:E; [|done].
    destruct (block_place _ _ _ _ _ _ _ Hbo E) as (r & k & Hr & ? & ? & ? & ? & _).
    pose proof (npages_of_range n ltac:(lia)).
    destruct (pages_rel_disjoint _ _ a (npages_of n) r k Hp) as [?|?];
      [by rewrite lookup_insert_eq|rewrite lookup_insert_ne; [done|congruence]|congruence|unfold PAGE_SIZE in *; lia..]. }
  split; [done|]. exists all, (<[a := npages_of n]> R), fls. split_and!; [by apply (tables_ok_ext h)| |done].
  assert (Hne : ∀ i, i ∈ all → PR_PAGEADDR (pref h i) ≠ a).
  { intros i Hi E. pose proof (bo_run _ _ _ _ _ Hbo i Hi). congruence. }
  split.
  - done.
  - apply Hbo.
  - intros i Hi. rewrite lookup_insert_ne by (by apply not_eq_sym, Hne). by eapply (bo_run _ _ _ _ _ Hbo).
  - apply Hbo.
  - intros b m. rewrite lookup_insert_Some. intros [[<- <-]|[Hab Hb]].
    + split; [lia|]. right. split_and!; [lia|by rewrite lookup_insert_eq|done].
    + destruct (bo_block _ _ _ _ _ Hbo b m Hb) as [Hm [Hs|(Hlb & Hr & Hno)]]; (split; [done|]); [by left|right].
      split_and!; [done|by rewrite lookup_insert_ne|done].
  - intros i b Hi Hb Hf. apply lookup_insert_is_Some'. right. by eapply (bo_used _ _ _ _ _ Hbo).
  - intros b k. rewrite lookup_insert_Some. intros [[<- <-]|[Hab Hb]].
    + right. by rewrite lookup_insert_eq.
    + rewrite lookup_insert_ne by done. by eapply (bo_owner _ _ _ _ _ Hbo).
Qed.

Lemma kheap_kfree_large h B all R fls a n :
  tables_ok h all → blocks_ok h B all R fls → pages_used h all →
  B !! a = Some n → large_block h all R a n →
  heap_rel (set_pages (free_kpages a (pages h)) h) (delete a B).
Proof.
  intros Hto Hbo Hused Ha (Hl & Hr & Hno). exists all, (delete a R), fls.
  split_and!; [by apply (tables_ok_ext h)| |done]. split.
  - eapply free_kpages_law; [apply Hbo|done].
  - apply Hbo.
  - intros i Hi. rewrite lookup_delete_ne by (by apply not_eq_sym, Hno). by eapply (bo_run _ _ _ _ _ Hbo).
  - apply Hbo.
  - intros b m [Hab Hb]%lookup_delete_Some.
    destruct (bo_block _ _ _ _ _ Hbo b m Hb) as [Hm [Hs|(Hlb & Hrb & Hnob)]]; (split; [done|]); [by left|right].
    split_and!; [done|by rewrite lookup_delete_ne|done].
  - intros i b Hi Hb Hf. change (block_of (pref h i) b) in Hb. destruct (decide (a = b)) as [<-|].
    + destruct (pages_rel_disjoint _ _ _ _ _ _ (bo_pages _ _ _ _ _ Hbo)
        (bo_run _ _ _ _ _ Hbo i Hi) Hr (Hno i Hi)) as [?|?]; [destruct Hb; lia|].
      unfold LARGEST_SUBPAGE_SIZE in *. pose proof (npages_of_cover n ltac:(lia)). destruct Hb. lia.
    + rewrite lookup_delete_ne by done. by eapply (bo_used _ _ _ _ _ Hbo).
  - intros b k [Hab Hb]%lookup_delete_Some. rewrite lookup_delete_ne by done.
    by eapply (bo_owner _ _ _ _ _ Hbo).
Qed.

Lemma kheap_kfree_refines h B a n :
  heap_rel h B → B !! a = Some n →
  ∃ h', kheap_kfree a h = Done h' ∧ heap_rel h' (delete a B) ∧ blocks_kept h h' (delete a B).
Proof.
  intros Hrel Ha. destruct (heap_rel_aligned _ _ _ _ Hrel Ha) as [_ Ha0].
  destruct Hrel as (all & R & fls & Hto & Hbo & Hused).
  unfold kheap_kfree. replace (a =? 0) with false by lia.
  destruct (bo_block _ _ _ _ _ Hbo a n Ha) as [Hn [(i & Hi & Hb & Hf & Hs)|Hlarge]].
  - destruct (find_owner_result _ _ _ _ _ a Hto Hbo) as [[_ Hno]|(j & Hj & Hin & Hrun)].
    { destruct (Hno i Hi). apply Hb. }
    assert (i = j) as <-.
    { destruct (decide (i = j)) as [|Hij]; [done|].
      destruct (pages_rel_disjoint _ _ _ _ _ _ (bo_pages _ _ _ _ _ Hbo)
        (bo_run _ _ _ _ _ Hbo i Hi) (bo_run _ _ _ _ _ Hbo j Hj)) as [?|?];
        [intros E; by apply Hij, (bo_inj _ _ _ _ _ Hbo)|destruct Hb; lia..]. }
    destruct (subpage_kfree_small h B all R fls i a n) as (h' & -> & ? & ?); [done..|]. cbn. eauto.
  - pose proof Hlarge as (Hl & Hr & Hno).
    destruct (pages_rel_run _ _ _ _ (bo_pages _ _ _ _ _ Hbo) Hr) as (Hk & Hal & _ & _).
    assert (Hnone : find_owner NPAGEREFS h a (allbase h) = Done None).
    { destruct (find_owner_result _ _ _ _ _ a Hto Hbo) as [[-> _]|(j & Hj & Hin & _)]; [done|].
      destruct (pages_rel_disjoint _ _ _ _ _ _ (bo_pages _ _ _ _ _ Hbo)
        (bo_run _ _ _ _ _ Hbo j Hj) Hr (Hno j Hj)) as [?|?]; unfold PAGE_SIZE in *; lia. }
    unfold subpage_kfree. rewrite Hnone. cbn. rewrite Hal. cbn.
    eexists. split; [done|]. split; [by eapply kheap_kfree_large|done].
Qed.

(** A client writing a word of its own block leaves the heap in order. *)
Lemma client_write_ok h B a n w x :
  heap_rel h B → B !! a = Some n → a ≤ w < a + n → heap_rel (set_mem (<[w := x]> (mem h)) h) B.
Proof.
  intros (all & R & fls & Hto & Hbo & Hused) Ha Hw. exists all, R, fls.
  split_and!; [by apply (tables_ok_ext h)| |done].
  apply (blocks_ok_update h _ B B all R fls fls Hbo); [done|done| |apply Hbo..].
  intros i Hi. eapply page_ok_mem; [|by eapply (bo_page _ _ _ _ _ Hbo)].
  intros y Hy. cbn. apply fn_lookup_insert_ne.
  destruct (free_not_live _ _ _ _ _ _ _ _ _ Hbo Ha Hi Hy). lia.
Qed.

(** The heap at boot: nothing is handed out. *)
Lemma heap_rel_boot m p : pages_rel p ∅ → heap_rel (kheap_boot m p) ∅.
Proof.
  intros Hp. exists [], ∅, (λ _, []). split_and!.
  - split; try done; cbn -[replicate].
    + split; [done|]. intros w Hw%elem_of_replicate. destruct Hw as [-> _]. lia.
    + intros i Hi. split; [|set_solver]. unfold inuse_bit, table_bit.
      rewrite lookup_total_replicate_2; [by rewrite Z.bits_0|].
      apply Nat.Div0.div_lt_upper_bound. unfold NPAGEREFS, INUSE_WORDS in *. lia.
    + set_solver.
    + constructor.
    + intros t Ht. by apply lookup_total_replicate_2.
  - split; try done; set_solver.
  - intros i Hi. set_solver.
Qed.

(** When every block has been given back, so has every page. *)
Lemma heap_rel_empty h : heap_rel h ∅ → allbase h = None ∧ pages_rel (pages h) ∅.
Proof.
  intros (all & R & fls & Hto & Hbo & Hused).
  assert (Hnil : all = []).
  { destruct all as [|i all]; [done|]. exfalso. set (l := i :: all) in *.
    assert (Hi : i ∈ l) by set_solver. pose proof (bo_page _ _ _ _ _ Hbo i Hi) as Hp.
    specialize (Hused i Hi). rewrite <- (po_count _ _ _ Hp) in Hused.
    pose proof (po_type _ _ _ Hp) as Hty.
    destruct (size_facts _ Hty) as (Hs & Hd & _ & Hc). fold (pr_size (pref h i)) in *. fold (pr_cap (pref h i)) in *.
    assert (Hall : ∀ a, block_of (pref h i) a → a ∈ fls i).
    { intros a Hb. destruct (decide (a ∈ fls i)) as [|Hf]; [done|].
      destruct (bo_used _ _ _ _ _ Hbo i a Hi Hb Hf) as [? Hx]. by rewrite lookup_empty in Hx. }
    assert (Hle : (length (blocks_down (PR_PAGEADDR (pref h i)) (pr_size (pref h i)) (Z.to_nat (pr_cap (pref h i)))) ≤ length (fls i))%nat).
    { apply submseteq_length, NoDup_submseteq; [apply NoDup_blocks_down; lia|].
      intros a (j & Hj & ->)%elem_of_blocks_down. apply Hall. split; [nia|].
      rewrite Z.add_simpl_l. apply Z.mod_mul. lia. }
    rewrite length_blocks_down in Hle. lia. }
  subst all. split; [apply (to_all _ _ Hto)|].
  assert (R = ∅) as <-; [|apply Hbo]. apply map_eq. intros a. rewrite lookup_empty.
  destruct (R !! a) as [k|] eqn:E; [|done].
  destruct (bo_owner _ _ _ _ _ Hbo a k E) as [(i & Hi & _)|[? Hx]]; [set_solver|by rewrite lookup_empty in Hx].
Qed.
End Invariant.

(** ** The heap as the rest of the kernel uses it

    The heap instrumented with the blocks handed out; the instrumentation
    does not influence the code. *)
Record traced (P : Type) := Traced {
  heap : kheap P;
  blocks : gmap Z Z;
}.
Arguments Traced {P} _ _.
Arguments heap {P} _.
Arguments blocks {P} _.

#[global] Instance traced_heap P `{KPagesLaws P} : KHeap (traced P) := {
  kmalloc n g :=
    '(r, h) ← kheap_kmalloc n (heap g);
    Done (r, Traced h (match r with Some a => <[a := n]> (blocks g) | None => blocks g end));
  kfree a g := h ← kheap_kfree a (heap g); Done (Traced h (delete a (blocks g)));
  heap_ok g := heap_rel (heap g) (blocks g);
  live g a := is_Some (blocks g !! a);
}.

#[global] Instance traced_heap_laws P `{KPagesLaws P} : KHeapLaws (traced P).
Proof.
  split; cbn.
  - intros [h B] n Hrel Hn. cbn in *.
    destruct (kheap_kmalloc_refines h B n Hrel Hn) as (r & h' & -> & _ & Hr). cbn.
    eexists _, _. split; [done|]. cbn. destruct r as [a|].
    + destruct Hr as [HBa Hrel']. split; [done|]. split.
      * intros b Hb. apply lookup_insert_is_Some'. by right.
      * intros ? [= <-]. destruct (heap_rel_aligned _ _ a n Hrel') as [_ ?]; [by rewrite lookup_insert_eq|].
        rewrite HBa, lookup_insert_eq. split_and!; [lia|by intros [? ?]|done].
    + split_and!; [done|done|]. by intros ? [=].
  - intros [h B] a Hrel [n Ha]. cbn in *.
    destruct (kheap_kfree_refines h B a n Hrel Ha) as (h' & -> & Hrel' & _). cbn.
    eexists. split; [done|]. split; [done|]. intros b Hb [m Hm]. cbn. by rewrite lookup_delete_ne.
Qed.

(** ** Properties *)

(** Everything clients may do with the heap: allocate up to 2^31 bytes,
    give back a block they were handed, and write words of their blocks. *)
Inductive heap_reach {P} `{KPages P} : kheap P → gmap Z Z → Prop :=
| reach_boot m p : pages_rel p ∅ → heap_reach (kheap_boot m p) ∅
| reach_malloc h B n r h' :
    heap_reach h B → 0 ≤ n ≤ 2 ^ 31 → kheap_kmalloc n h = Done (r, h') →
    heap_reach h' (match r with Some a => <[a := n]> B | None => B end)
| reach_free h B a n h' :
    heap_reach h B → B !! a = Some n → kheap_kfree a h = Done h' → heap_reach h' (delete a B)
| reach_write h B a n w x :
    heap_reach h B → B !! a = Some n → a ≤ w < a + n →
    heap_reach (set_mem (<[w := x]> (mem h)) h) B.

Lemma heap_reach_rel {P} `{KPagesLaws P} (h : kheap P) B : heap_reach h B → heap_rel h B.
Proof.
  induction 1 as [m p Hp|h B n r h' _ IH Hn Hrun|h B a n h' _ IH Ha Hrun|h B a n w x _ IH Ha Hw].
  - by apply heap_rel_boot.
  - destruct (kheap_kmalloc_refines h B n IH Hn) as (r' & h'' & Hrun' & _ & Hr).
    rewrite Hrun in Hrun'. injection Hrun' as <- <-. destruct r; [apply Hr|done].
  - destruct (kheap_kfree_refines h B a n IH Ha) as (h'' & Hrun' & Hr & _). congruence.
  - by eapply client_write_ok.
Qed.

(** A small machine for the examples: 512k of memory, of which the kernel
    image takes the first 128k, and a heap with one block of 100 bytes. *)
Definition demo_ram : ram := ram_bootstrap 0x80000 0x80020000.
Definition demo_boot : kheap ram := kheap_boot (λ _, 0) demo_ram.
Definition demo_addr : Z := 0x80020f80.
Definition demo_heap : kheap ram :=
  match kheap_kmalloc 100 demo_boot with Done (_, h) => h | _ => demo_boot end.

Lemma demo_ram_ok : pages_rel demo_ram ∅.
Proof. apply ram_bootstrap_ok; done. Qed.

Lemma demo_run : kheap_kmalloc 100 demo_boot = Done (Some demo_addr, demo_heap).
Proof. vm_compute. reflexivity. Qed.

Lemma demo_reach : heap_reach demo_heap {[ demo_addr := 100 ]}.
Proof.
  apply (reach_malloc demo_boot ∅ 100 (Some demo_addr) demo_heap); [|lia|apply demo_run].
  apply reach_boot, demo_ram_ok.
Qed.





(** C16: [kfree] of a block that was handed out implements the abstract
    deallocation: the block is no longer handed out, every other block is
    still there and none of its words has changed. *)
Theorem kfree_refines {P} `{KPagesLaws P} (h : kheap P) B a n :
  heap_rel h B → B !! a = Some n →
  ∃ h', kheap_kfree a h = Done h' ∧ heap_rel h' (delete a B) ∧
    ∀ b m w, delete a B !! b = Some m → b ≤ w < b + m → mem h' w = mem h w.
Proof. intros. by eapply kheap_kfree_refines. Qed.

Lemma kfree_refines_witness :
  ∃ h', kheap_kfree demo_addr demo_heap = Done h' ∧ heap_rel h' (delete demo_addr {[ demo_addr := 100 ]}).
Proof.
  destruct (kfree_refines demo_heap {[ demo_addr := 100 ]} demo_addr 100) as (h' & Hrun & Hrel & _);
    [apply heap_reach_rel, demo_reach|reflexivity|]. exists h'. exact (conj Hrun Hrel).
Defined.

(** the subpage allocator does not leak: once every block has been given
    back, no page is left on its lists and every page run has been returned
    to the page allocator. *)
Theorem kheap_no_leak {P} `{KPagesLaws P} (h : kheap P) :
  heap_reach h ∅ → allbase h = None ∧ pages_rel (pages h) ∅.
Proof. intros Hrel%heap_reach_rel. by apply heap_rel_empty. Qed.

Lemma kheap_no_leak_witness :
  ∃ h', kheap_kfree demo_addr demo_heap = Done h' ∧ allbase demo_heap ≠ None ∧ allbase h' = None.
Proof.
  destruct (kheap_kfree_refines demo_heap {[ demo_addr := 100 ]} demo_addr 100) as (h' & Hrun & _);
    [apply heap_reach_rel, demo_reach|reflexivity|].
  exists h'. split; [exact Hrun|]. split; [by vm_compute|].
  apply (kheap_no_leak h'). rewrite <- (delete_singleton_eq demo_addr 100).
  eapply reach_free; [apply demo_reach|reflexivity|exact Hrun].
Defined.
