(* ===== verification/KArray.v ===== *)
(** * Resizable arrays of pointers (kern/lib/array.c)

    The array keeps [a_num] elements in a heap block of [a_max] cells.  The
    model keeps the block's cells with its address, so that growing,
    shrinking and freeing go through the allocator exactly as in the
    code.  [contents] is the abstract value: the first [a_num] cells. *)

From S2P Require Import Prelude Ram Kheap KheapSpec.

(** struct array.  [a_self] is the address of the structure itself; [a_v] is
    NULL or a block address with the block's cells. *)
Record array (A : Type) := Array {
  a_self : Z;
  a_num : Z;
  a_max : Z;
  a_v : option (Z * list (option A));
}.
Arguments Array {A} a_self a_num a_max a_v.
Arguments a_self {A} a : rename.
Arguments a_num {A} a : rename.
Arguments a_max {A} a : rename.
Arguments a_v {A} a : rename.

Section Operations.
Context {A H : Type} `{KHeap H}.
Implicit Types (a : array A) (h : H).

Definition cells_of a : list (option A) :=
  match a_v a with Some (_, c) => c | None => [] end.

Definition array_create h : outcome (option (array A) * H) :=
  '(p, h) ← kmalloc 12 h;
  match p with
  | None => Done (None, h)
  | Some p => Done (Some (Array p 0 0 None), h)
  end.

Definition array_getnum a : Z := a_num a.

Definition array_getguy a (index : Z) : outcome A :=
  kassert (a_num a <=? a_max a);;
  kassert ((0 <=? index) && (index <? a_num a));;
  load (cells_of a) index.

(** while (nguys > newmax) newmax = (newmax+1)*2; *)
Fixpoint grow_max (fuel : nat) (nguys newmax : Z) : outcome Z :=
  if nguys >? newmax then
    match fuel with
    | O => Diverge
    | S fuel =>
        let newmax' := (newmax + 1) * 2 in
        if newmax' <? 2 ^ 31 then grow_max fuel nguys newmax' else Fault
    end
  else Done newmax.

(** for (i=0; i<n; i++) newv[i] = v[i]; *)
Fixpoint copy_cells (n : nat) (src dst : list (option A)) : outcome (list (option A)) :=
  match n with
  | O => Done dst
  | S n =>
      dst ← copy_cells n src dst;
      c ← peek src (Z.of_nat n);
      poke dst (Z.of_nat n) c
  end.

Definition array_preallocate a (nguys : Z) h : outcome (Z * array A * H) :=
  kassert ((0 <=? a_num a) && (a_num a <=? a_max a));;
  newmax ← grow_max 32 nguys (a_max a);
  let bytes := u32 (newmax * 4) in
  '(p, h) ← kmalloc bytes h;
  match p with
  | None => Done (ENOMEM, a, h)
  | Some p =>
      newv ← copy_cells (Z.to_nat (a_num a)) (cells_of a) (fresh_cells bytes);
      h ← match a_v a with Some (old, _) => kfree old h | None => Done h end;
      Done (0, Array (a_self a) (a_num a) newmax (Some (p, newv)), h)
  end.

Definition array_setsize a (nguys : Z) h : outcome (Z * array A * H) :=
  kassert ((0 <=? a_num a) && (a_num a <=? a_max a));;
  if nguys >? a_max a then
    '(result, a, h) ← array_preallocate a nguys h;
    if negb (result =? 0) then Done (result, a, h)
    else Done (0, Array (a_self a) nguys (a_max a) (a_v a), h)
  else if (nguys =? 0) && (a_max a >? 16) then
    match a_v a with
    | None => Panic
    | Some (p, _) =>
        h ← kfree p h;
        Done (0, Array (a_self a) nguys 0 None, h)
    end
  else Done (0, Array (a_self a) nguys (a_max a) (a_v a), h).

(** Write [ptr] at [index] of the block, without any check of the code. *)
Definition set_cell a (index : Z) (ptr : A) : outcome (array A) :=
  match a_v a with
  | None => Fault
  | Some (p, c) =>
      c ← store c index ptr;
      Done (Array (a_self a) (a_num a) (a_max a) (Some (p, c)))
  end.

Definition array_setguy a (index : Z) (ptr : A) : outcome (array A) :=
  kassert (a_num a <=? a_max a);;
  kassert ((0 <=? index) && (index <? a_num a));;
  set_cell a index ptr.

Definition array_add a (guy : A) h : outcome (Z * array A * H) :=
  let ix := a_num a in
  '(result, a, h) ← array_setsize a (s32 (ix + 1)) h;
  if negb (result =? 0) then Done (result, a, h)
  else a ← set_cell a ix guy; Done (0, a, h).

Definition array_remove a (index : Z) : outcome (array A) :=
  kassert (a_num a <=? a_max a);;
  kassert ((0 <=? index) && (index <? a_num a));;
  let nmove := a_num a - (index + 1) in
  match a_v a with
  | None => Fault
  | Some (p, c) =>
      let i := Z.to_nat index in
      Done (Array (a_self a) (a_num a - 1) (a_max a)
                  (Some (p, move_cells c i (S i) (Z.to_nat nmove))))
  end.

Definition array_destroy a h : outcome H :=
  h ← match a_v a with Some (p, _) => kfree p h | None => Done h end;
  kfree (a_self a) h.
End Operations.

(** ** The array as the list of its elements

    [array_rep a c]: the first [a_num a] cells of the block are [c] ([None]
    for a cell that was never written).  [array_blocks a] are the heap
    blocks the array owns. *)

Section Spec.
Context {A H : Type} `{KHeapLaws H}.
Implicit Types (a : array A) (h : H) (c : list (option A)) (L : list Z).

(** The largest number of cells the arithmetic of [array_preallocate]
    handles: four times it still fits in an [int]. *)
Definition array_limit : Z := 2 ^ 28.

Record array_rep a c : Prop := {
  ar_num : a_num a = Z.of_nat (length c);
  ar_max : Z.of_nat (length c) ≤ a_max a ≤ 2 * array_limit;
  ar_cells : Z.of_nat (length (cells_of a)) = a_max a;
  ar_contents : take (length c) (cells_of a) = c;
}.

Definition array_blocks a : list Z :=
  match a_v a with Some (p, _) => [a_self a; p] | None => [a_self a] end.

(** The growth loop ends, in at most 32 turns, at a capacity that is big
    enough and at most twice what was asked for. *)
Lemma grow_max_fuel fuel nguys m :
  0 ≤ m → nguys ≤ array_limit → nguys + 2 ≤ 2 ^ (Z.of_nat fuel) * (m + 2) →
  ∃ m', grow_max fuel nguys m = Done m' ∧ m ≤ m' ∧ nguys ≤ m' ∧
        (m' = m ∨ m' ≤ 2 * nguys).
Proof.
  unfold array_limit. revert m.
  induction fuel as [|fuel IH]; intros m Hm Hn Hf; cbn [grow_max].
  all: destruct (nguys >? m) eqn:E; [|exists m; split_and!; [done|lia..]].
  { change (2 ^ Z.of_nat 0) with 1 in Hf. lia. }
  replace ((m + 1) * 2 <? 2 ^ 31) with true by lia.
  rewrite Nat2Z.inj_succ, Z.pow_succ_r in Hf by lia.
  destruct (IH ((m + 1) * 2)) as (m' & -> & ? & ? & ?); [lia|lia|lia|].
  exists m'. split_and!; [done|lia..].
Qed.

Lemma grow_max_32 nguys m :
  0 ≤ m → nguys ≤ array_limit →
  ∃ m', grow_max 32 nguys m = Done m' ∧ m ≤ m' ∧ nguys ≤ m' ∧
        (m' = m ∨ m' ≤ 2 * nguys).
Proof.
  intros. apply grow_max_fuel; [done..|].
  change (2 ^ Z.of_nat 32) with 4294967296. unfold array_limit in *. lia.
Qed.

Lemma copy_cells_spec n (src dst : list (option A)) :
  (n ≤ length src → n ≤ length dst →
   copy_cells n src dst = Done (take n src ++ drop n dst))%nat.
Proof.
  induction n as [|n IH]; intros Hs Hd; [done|]. cbn [copy_cells].
  rewrite IH by lia. cbn [mbind outcome_bind].
  destruct (lookup_lt_is_Some_2 src n) as [c Hc]; [lia|].
  unfold peek. replace (Z.of_nat n <? 0) with false by lia.
  rewrite Nat2Z.id, Hc. cbn [mbind outcome_bind].
  rewrite poke_Done by (rewrite length_app, length_take, length_drop; lia).
  f_equal. rewrite Nat2Z.id, insert_app_r_alt by (rewrite length_take; lia).
  rewrite length_take, Nat.min_l, Nat.sub_diag by lia.
  rewrite (take_S_r src n c Hc), <- app_assoc. f_equal.
  destruct (lookup_lt_is_Some_2 dst n) as [d Hd']; [lia|].
  by rewrite (drop_S dst d n Hd').
Qed.

(** The complete behaviour of [array_preallocate]: either the array is
    untouched and the answer is ENOMEM, or it has room for [nguys]
    elements and the same contents. *)
Lemma array_preallocate_spec a c nguys h L :
  array_rep a c → heap_owns h (array_blocks a ++ L) → nguys ≤ array_limit →
  ∃ r a' h', array_preallocate a nguys h = Done (r, a', h') ∧
    heap_owns h' (array_blocks a' ++ L) ∧ array_rep a' c ∧
    (r = ENOMEM ∧ a' = a ∨ r = 0 ∧ nguys ≤ a_max a' ∧ a_max a ≤ a_max a').
Proof.
  intros [Hnum Hmax Hcells Hcont] Hown Hn.
  unfold array_limit in *. unfold array_preallocate. pass_assert.
  destruct (grow_max_32 nguys (a_max a)) as (m & -> & Hm1 & Hm2 & Hm3); [lia|done|].
  cbn [mbind outcome_bind]. unfold u32. rewrite Z.mod_small by lia.
  destruct (owns_alloc _ _ (m * 4) Hown) as (r & h1 & -> & Hr); [lia|]. cbn [mbind outcome_bind].
  destruct r as [p|]; cycle 1.
  { exists ENOMEM, a, h1. split_and!; [done|done|by split|by left]. }
  destruct Hr as [_ Hown1].
  rewrite copy_cells_spec; [|lia|rewrite length_fresh_cells, Z.div_mul; lia].
  cbn [mbind outcome_bind].
  assert (∃ h2, match a_v a with Some (old, _) => kfree old h1 | None => Done h1 end = Done h2
            ∧ heap_owns h2 (a_self a :: p :: L)) as (h2 & -> & Hown2).
  { unfold array_blocks in Hown1. destruct (a_v a) as [[q d]|]; cbn in Hown1.
    - apply owns_free. revert Hown1. apply heap_owns_perm. solve_Permutation.
    - exists h1. split; [done|]. revert Hown1. apply heap_owns_perm. solve_Permutation. }
  cbn [mbind outcome_bind]. eexists 0, _, h2. split; [done|]. split_and!; [done| |right; cbn; lia].
  split; cbn.
  - done.
  - unfold array_limit. lia.
  - rewrite length_app, length_take, length_drop, length_fresh_cells, Z.div_mul; lia.
  - rewrite Hnum, Nat2Z.id, Hcont. by rewrite take_app_length.
Qed.

Lemma set_cell_spec a i x :
  0 ≤ i < a_max a → Z.of_nat (length (cells_of a)) = a_max a →
  ∃ a', set_cell a i x = Done a' ∧ a_num a' = a_num a ∧ a_max a' = a_max a ∧
        array_blocks a' = array_blocks a ∧ cells_of a' = <[Z.to_nat i := Some x]> (cells_of a).
Proof.
  intros Hi Hcells. unfold set_cell, cells_of, array_blocks in *.
  destruct (a_v a) as [[p d]|]; cbn in Hcells; [|lia].
  unfold store. rewrite poke_Done by lia. cbn [mbind outcome_bind]. eexists. by split_and!.
Qed.

(** The tail of [array_add], once there is room for one more element. *)
Lemma array_append_cell a c x :
  array_rep a c → Z.of_nat (length c) < a_max a →
  ∃ a', set_cell (Array (a_self a) (a_num a + 1) (a_max a) (a_v a)) (a_num a) x = Done a' ∧
        array_rep a' (c ++ [Some x]) ∧ array_blocks a' = array_blocks a ∧ a_max a' = a_max a.
Proof.
  intros [Hnum Hmax Hcells Hcont] Hroom.
  destruct (set_cell_spec (Array (a_self a) (a_num a + 1) (a_max a) (a_v a)) (a_num a) x)
    as (a' & -> & Hn & Hm & Hb & Hc); [cbn; lia|done|].
  cbn in Hn, Hm. change (cells_of (Array _ _ _ _)) with (cells_of a) in Hc.
  exists a'. split_and!; [done| |done|done]. split; rewrite ?length_app; cbn [length].
  - lia.
  - rewrite Hm. lia.
  - rewrite Hc, length_insert. lia.
  - rewrite Hc, Hnum, Nat2Z.id. replace (length c + 1)%nat with (S (length c)) by lia.
    rewrite (take_S_r _ _ (Some x)) by (rewrite list_lookup_insert_eq; [done|lia]).
    by rewrite take_insert_ge, Hcont.
Qed.

(** With room to spare, [array_add] appends without using the heap. *)
Lemma array_add_room a c x h :
  array_rep a c → Z.of_nat (length c) < a_max a →
  ∃ a', array_add a x h = Done (0, a', h) ∧ array_rep a' (c ++ [Some x]) ∧
        array_blocks a' = array_blocks a ∧ a_max a' = a_max a.
Proof.
  intros Hrep Hroom. destruct (array_append_cell a c x Hrep Hroom) as (a' & Hset & Ha').
  destruct Hrep as [Hnum Hmax Hcells Hcont]. unfold array_limit in *.
  exists a'. split; [|done]. unfold array_add, array_setsize. rewrite s32_id by lia. pass_assert.
  replace (a_num a + 1 >? a_max a) with false by lia.
  replace (a_num a + 1 =? 0) with false by lia. cbn [andb mbind outcome_bind negb Z.eqb].
  by rewrite Hset.
Qed.

(** In general it appends, or reports ENOMEM and leaves the array as it was. *)
Lemma array_add_spec a c x h L :
  array_rep a c → heap_owns h (array_blocks a ++ L) → Z.of_nat (length c) < array_limit →
  ∃ r a' h', array_add a x h = Done (r, a', h') ∧ heap_owns h' (array_blocks a' ++ L) ∧
    (Z.of_nat (length c) < a_max a → r = 0 ∧ h' = h) ∧
    (r = ENOMEM ∧ a' = a ∨ r = 0 ∧ array_rep a' (c ++ [Some x])) ∧ a_max a ≤ a_max a'.
Proof.
  intros Hrep Hown Hlim. pose proof Hrep as [Hnum Hmax Hcells Hcont].
  destruct (decide (Z.of_nat (length c) < a_max a)) as [Hroom|Hfull].
  { destruct (array_add_room a c x h Hrep Hroom) as (a' & Hrun & Hrep' & Hb & Hm).
    exists 0, a', h. split_and!; [done|by rewrite Hb|done|by right|lia]. }
  unfold array_limit in *. unfold array_add, array_setsize.
  rewrite s32_id by lia. pass_assert.
  replace (a_num a + 1 >? a_max a) with true by lia.
  destruct (array_preallocate_spec a c (a_num a + 1) h L Hrep Hown)
    as (r & a1 & h1 & -> & Hown1 & Hrep1 & Hr); [unfold array_limit; lia|].
  cbn [mbind outcome_bind]. destruct Hr as [[-> ->]|(-> & Hm1 & Hm2)].
  { exists ENOMEM, a, h1. split_and!; [done|done|done|by left|lia]. }
  cbn [negb Z.eqb mbind outcome_bind].
  destruct (array_append_cell a1 c x Hrep1) as (a' & Hset & Hrep' & Hb & Hm'); [lia|].
  rewrite (ar_num _ _ Hrep1), <- Hnum in Hset. rewrite Hset. cbn [mbind outcome_bind].
  exists 0, a', h1. split_and!; [done|by rewrite Hb|done|by right|lia].
Qed.

Lemma array_getguy_spec a c i x :
  array_rep a c → c !! i = Some (Some x) → array_getguy a (Z.of_nat i) = Done x.
Proof.
  intros [Hnum Hmax Hcells Hcont] Hi. pose proof (lookup_lt_Some _ _ _ Hi) as Hlt.
  rewrite <- Hcont in Hi. apply lookup_take_Some in Hi as [Hi _].
  unfold array_getguy. pass_assert. pass_assert.
  apply load_Done; [lia|by rewrite Nat2Z.id].
Qed.

Lemma array_remove_spec a c i :
  array_rep a c → (i < length c)%nat →
  ∃ a', array_remove a (Z.of_nat i) = Done a' ∧ array_rep a' (delete i c) ∧
        array_blocks a' = array_blocks a ∧ a_max a' = a_max a.
Proof.
  intros [Hnum Hmax Hcells Hcont] Hi. unfold array_remove. pass_assert. pass_assert.
  unfold cells_of in *. unfold array_blocks. destruct (a_v a) as [[p d]|]; cbn in Hcells; [|lia].
  rewrite Nat2Z.id. replace (Z.to_nat (a_num a - (Z.of_nat i + 1))) with (length c - S i)%nat by lia.
  assert (Hlen : length (delete i c) = (length c - 1)%nat).
  { rewrite length_delete; [done|]. by apply lookup_lt_is_Some_2. }
  eexists. split; [done|]. split_and!; [|done|done]. split; unfold cells_of; cbn; rewrite ?Hlen.
  - lia.
  - lia.
  - by rewrite length_move_cells by lia.
  - rewrite take_move_cells_delete, Hcont by lia. done.
Qed.

Lemma array_setguy_spec a c i x :
  array_rep a c → (i < length c)%nat →
  ∃ a', array_setguy a (Z.of_nat i) x = Done a' ∧ array_rep a' (<[i := Some x]> c) ∧
        array_blocks a' = array_blocks a.
Proof.
  intros [Hnum Hmax Hcells Hcont] Hi. unfold array_setguy. pass_assert. pass_assert.
  destruct (set_cell_spec a (Z.of_nat i) x) as (a' & -> & Hn & Hm & Hb & Hc); [lia|done|].
  eexists. split; [done|]. split; [|done]. split; rewrite ?length_insert.
  - lia.
  - lia.
  - rewrite Hc, length_insert. lia.
  - rewrite Hc, Nat2Z.id, take_insert_lt, Hcont by lia. done.
Qed.

(** Emptying the array never fails; past 16 cells it gives the block back. *)
Lemma array_setsize_0 a c h L :
  array_rep a c → heap_owns h (array_blocks a ++ L) →
  ∃ h', array_setsize a 0 h = Done (0, Array (a_self a) 0 (if a_max a >? 16 then 0 else a_max a)
                                             (if a_max a >? 16 then None else a_v a), h') ∧
    heap_owns h' (array_blocks (Array (a_self a) 0 0 (if a_max a >? 16 then None else a_v a)) ++ L) ∧
    array_rep (Array (a_self a) 0 (if a_max a >? 16 then 0 else a_max a)
                     (if a_max a >? 16 then None else a_v a)) [].
Proof.
  intros [Hnum Hmax Hcells Hcont] Hown. unfold array_setsize. pass_assert.
  replace (0 >? a_max a) with false by lia. cbn [Z.eqb andb].
  destruct (a_max a >? 16) eqn:E; cycle 1.
  { exists h. split; [done|]. split; [done|]. split; cbn; [done|lia|done|done]. }
  unfold cells_of, array_blocks in *. destruct (a_v a) as [[p d]|]; cbn in Hcells; [|lia].
  destruct (owns_free h p (a_self a :: L)) as (h' & -> & Hown').
  { revert Hown. apply heap_owns_perm. cbn. solve_Permutation. }
  exists h'. split; [done|]. split; [done|]. split; cbn; [done|unfold array_limit; lia|done|done].
Qed.

Lemma array_create_spec h L :
  heap_owns h L →
  ∃ r h', array_create h = Done (r, h') ∧
    match r with
    | None => heap_owns h' L
    | Some a => array_rep a [] ∧ heap_owns h' (array_blocks a ++ L)
    end.
Proof.
  intros Hown. unfold array_create. destruct (owns_alloc h L 12 Hown) as (r & h' & -> & Hr); [lia|].
  cbn [mbind outcome_bind]. destruct r as [p|]; eexists _, h'; (split; [done|]); [|done].
  split; [|apply Hr]. split; cbn; [done|unfold array_limit; lia|done|done].
Qed.

Lemma array_destroy_spec a h L :
  heap_owns h (array_blocks a ++ L) → ∃ h', array_destroy a h = Done h' ∧ heap_owns h' L.
Proof.
  intros Hown. unfold array_destroy, array_blocks in *. destruct (a_v a) as [[p d]|]; cbn in Hown.
  - destruct (owns_free h p (a_self a :: L)) as (h1 & -> & Hown1).
    { revert Hown. apply heap_owns_perm. solve_Permutation. }
    by apply owns_free.
  - by apply owns_free.
Qed.
End Spec.

(** ** Properties *)

Section Properties.
Context {A H : Type} `{KHeapLaws H}.
Implicit Types (a : array A) (h : H) (l : list A) (c : list (option A)) (L : list Z).

(** Add the elements of a list one by one, stopping at the first error. *)
Fixpoint array_add_all a l h : outcome (Z * array A * H) :=
  match l with
  | [] => Done (0, a, h)
  | x :: l =>
      '(r, a, h) ← array_add a x h;
      if negb (r =? 0) then Done (r, a, h) else array_add_all a l h
  end.

Lemma array_add_all_room a c l h :
  array_rep a c → Z.of_nat (length c + length l) ≤ a_max a →
  ∃ a', array_add_all a l h = Done (0, a', h) ∧ array_rep a' (c ++ (Some <$> l)).
Proof.
  revert a c. induction l as [|x l IH]; intros a c Hrep Hroom; cbn in *.
  { exists a. by rewrite app_nil_r. }
  destruct (array_add_room a c x h Hrep) as (a1 & -> & Hrep1 & _ & Hm1); [lia|].
  cbn. destruct (IH a1 (c ++ [Some x])) as (a' & -> & Hrep'); [done|rewrite length_app; cbn; lia|].
  exists a'. split; [done|]. by rewrite <- app_assoc in Hrep'.
Qed.

(** [array_add] on an array in order either appends the element or, only
    when the heap is exhausted, returns ENOMEM with the array unchanged; the
    blocks of others stay theirs.  It touches the heap only when the array
    is full. *)
Theorem array_add_appends a c x h L :
  array_rep a c → heap_owns h (array_blocks a ++ L) → Z.of_nat (length c) < array_limit →
  ∃ r a' h', array_add a x h = Done (r, a', h') ∧ heap_owns h' (array_blocks a' ++ L) ∧
    (Z.of_nat (length c) < a_max a → r = 0 ∧ h' = h) ∧
    (r = ENOMEM ∧ a' = a ∨ r = 0 ∧ array_rep a' (c ++ [Some x])).
Proof.
  intros Hrep Hown Hlim. destruct (array_add_spec a c x h L Hrep Hown Hlim) as (r & a' & h' & ? & ? & ? & ? & _).
  exists r, a', h'. by split_and!.
Qed.

(** [array_remove] deletes the element at the index and moves the later
    ones down, for every index in range. *)
Theorem array_remove_deletes a c i :
  array_rep a c → (i < length c)%nat →
  ∃ a', array_remove a (Z.of_nat i) = Done a' ∧ array_rep a' (delete i c).
Proof.
  intros Hrep Hi. destruct (array_remove_spec a c i Hrep Hi) as (a' & ? & ? & _). eauto.
Qed.

(** a successful [array_preallocate] for [n] elements makes room: adding
    elements up to [n] then succeeds without touching the heap. *)
Theorem array_preallocate_makes_room a c n l h h' a' L :
  array_rep a c → heap_owns h (array_blocks a ++ L) → n ≤ array_limit →
  array_preallocate a n h = Done (0, a', h') →
  Z.of_nat (length c + length l) ≤ n →
  ∃ a'', array_add_all a' l h' = Done (0, a'', h') ∧ array_rep a'' (c ++ (Some <$> l)).
Proof.
  intros Hrep Hown Hn Hrun Hl.
  destruct (array_preallocate_spec a c n h L Hrep Hown Hn) as (r & a1 & h1 & Hrun' & _ & Hrep1 & Hr).
  rewrite Hrun in Hrun'. injection Hrun' as <- <- <-.
  destruct Hr as [[? _]|(_ & Hm & _)]; [done|]. apply array_add_all_room; [done|lia].
Qed.

(** emptying an array with more than 16 cells gives its block back, so
    the room made by an earlier [array_preallocate] is lost: the next
    [array_add] has to allocate again and fails if the heap cannot serve it. *)
Theorem array_setsize_0_drops_room a c x h h1 L :
  array_rep a c → heap_owns h (array_blocks a ++ L) → 16 < a_max a →
  kmalloc 8 h1 = Done (None, h1) →
  ∃ a' h', array_setsize a 0 h = Done (0, a', h') ∧ array_add a' x h1 = Done (ENOMEM, a', h1).
Proof.
  intros Hrep Hown Hmax Hnone. destruct (array_setsize_0 a c h L Hrep Hown) as (h' & Hrun & _).
  replace (a_max a >? 16) with true in Hrun by lia. eexists _, h'. split; [exact Hrun|].
  assert (Hpre : array_preallocate (Array (a_self a) 0 0 (None (A := Z * list (option A)))) 1 h1 =
                 Done (ENOMEM, Array (a_self a) 0 0 None, h1)).
  { unfold array_preallocate. cbn [a_num a_max a_v]. change (grow_max 32 1 0) with (Done 2).
    cbn [kassert andb Z.leb mbind outcome_bind Z.compare]. change (u32 (2 * 4)) with 8. by rewrite Hnone. }
  unfold array_add, array_setsize. cbn [a_num a_max a_v]. change (s32 (0 + 1)) with 1.
  change (1 >? 0) with true. cbn [kassert andb Z.leb mbind outcome_bind Z.compare]. by rewrite Hpre.
Qed.
End Properties.

(** *** Examples: the properties on the heap of [KheapSpec] *)

(** Two blocks handed out: the array structure and its cells. *)
Definition demo_self : Z := 0x80020f00.
Definition demo_heap2 : kheap ram :=
  match kheap_kmalloc 100 demo_heap with Done (_, h) => h | _ => demo_heap end.
Definition demo_traced : traced ram := Traced demo_heap2 (<[demo_self := 100]> {[ demo_addr := 100 ]}).

Lemma demo_run2 : kheap_kmalloc 100 demo_heap = Done (Some demo_self, demo_heap2).
Proof. vm_compute. reflexivity. Qed.

Lemma demo_traced_owns : heap_owns demo_traced [demo_self; demo_addr].
Proof.
  split_and!.
  - apply heap_reach_rel.
    apply (reach_malloc demo_heap {[ demo_addr := 100 ]} 100 (Some demo_self) demo_heap2);
      [apply demo_reach|lia|apply demo_run2].
  - apply list.NoDup_cons. split; [by vm_compute; set_solver|]. apply NoDup_singleton.
  - intros b [->|[->|[]%elem_of_nil]%elem_of_cons]%elem_of_cons; by exists 100.
Qed.

(** A full array of two elements. *)
Definition demo_array : array Z := Array demo_self 2 2 (Some (demo_addr, [Some 10; Some 20])).

Lemma demo_array_rep : array_rep demo_array [Some 10; Some 20].
Proof. split; cbn; [done|unfold array_limit; lia|done|done]. Qed.

Lemma array_add_appends_witness :
  ∃ r a' h', array_add demo_array 30 demo_traced = Done (r, a', h').
Proof.
  destruct (array_add_appends demo_array [Some 10; Some 20] 30 demo_traced []) as (r & a' & h' & Hrun & _);
    [apply demo_array_rep|apply demo_traced_owns|reflexivity|].
  exists r, a', h'. exact Hrun.
Defined.

Lemma array_remove_deletes_witness :
  ∃ a', array_remove demo_array 0 = Done a' ∧ array_rep a' [Some 20].
Proof.
  apply (array_remove_deletes demo_array [Some 10; Some 20] 0); [apply demo_array_rep|cbn; lia].
Defined.

Lemma array_preallocate_makes_room_witness :
  ∃ a' h' a'', array_preallocate demo_array 5 demo_traced = Done (0, a', h') ∧
    array_add_all a' [30; 40; 50] h' = Done (0, a'', h') ∧
    array_rep a'' (Some <$> [10; 20; 30; 40; 50]).
Proof.
  destruct (run_Done (array_preallocate demo_array 5 demo_traced) (λ '(r, _, _), r =? 0))
    as ([[r a'] h'] & E & ->%Z.eqb_eq); [vm_compute; reflexivity|].
  destruct (array_preallocate_makes_room demo_array [Some 10; Some 20] 5 [30; 40; 50] demo_traced h' a' [])
    as (a'' & Hadd & Hc); [apply demo_array_rep|apply demo_traced_owns|unfold array_limit; lia|exact E|cbn; lia|].
  exists a', h', a''. exact (conj E (conj Hadd Hc)).
Defined.

(** A heap whose memory has run out. *)
Definition full_traced : traced ram := Traced (kheap_boot (λ _, 0) (Ram 0x80000 0x80000)) ∅.

Definition big_array : array Z := Array demo_self 0 25 (Some (demo_addr, replicate 25 None)).

Lemma array_setsize_0_drops_room_witness :
  ∃ a' h', array_setsize big_array 0 demo_traced = Done (0, a', h') ∧
           array_add a' 7 full_traced = Done (ENOMEM, a', full_traced).
Proof.
  apply (array_setsize_0_drops_room big_array [] 7 demo_traced full_traced []).
  - split; cbn; [done|unfold array_limit; lia|done|done].
  - apply demo_traced_owns.
  - reflexivity.
  - vm_compute. reflexivity.
Defined.
