(* ===== verification/Queue.v ===== *)
(** * Circular queues of pointers (kern/lib/queue.c)

    A queue is a ring buffer of [q_size] cells that is empty when its read
    and write positions meet, so it holds at most [q_size - 1] elements; a
    full queue grows by doubling.  [q_rep q l] is the refinement relation
    to the list [l] of queued elements, oldest first. *)

From S2P Require Import Prelude Ram Kheap KheapSpec KArray.

(** struct queue; [q_self] is its own address. *)
Record queue (A : Type) := Queue {
  q_self : Z;
  q_size : Z;
  q_nextwrite : Z;
  q_nextread : Z;
  q_data : Z * list (option A);
}.
Arguments Queue {A} _ _ _ _ _.
Arguments q_self {A} _.
Arguments q_size {A} _.
Arguments q_nextwrite {A} _.
Arguments q_nextread {A} _.
Arguments q_data {A} _.

Section Operations.
Context {A H : Type} `{KHeap H}.
Implicit Types (q : queue A) (h : H).

(** while (nsize < targetsize) { nsize *= 2; assert(nsize > 0); } *)
Fixpoint grow_size (fuel : nat) (nsize targetsize : Z) : outcome Z :=
  if nsize <? targetsize then
    match fuel with
    | O => Diverge
    | S fuel =>
        let nsize := s32 (nsize * 2) in
        kassert (nsize >? 0);;
        grow_size fuel nsize targetsize
    end
  else Done nsize.

(** for (i=onr; i!=onw; i = (i+1)%osize) add the element at [i]; [add] is
    [q_addtail]. *)
Fixpoint readd (fuel : nat) (add : queue A → A → H → outcome (Z * queue A * H))
    (olddata : list (option A)) (i onw osize : Z) q h : outcome (queue A * H) :=
  if i =? onw then Done (q, h)
  else match fuel with
       | O => Diverge
       | S fuel =>
           x ← load olddata i;
           '(result, q, h) ← add q x h;
           kassert (result =? 0);;
           readd fuel add olddata ((i + 1) mod osize) onw osize q h
       end.

Definition q_grow (add : queue A → A → H → outcome (Z * queue A * H))
    q (targetsize : Z) h : outcome (Z * queue A * H) :=
  nsize ← grow_size 32 (q_size q) targetsize;
  '(p, h) ← kmalloc (u32 (nsize * 4)) h;
  match p with
  | None => Done (ENOMEM, q, h)
  | Some p =>
      let q' := Queue (q_self q) nsize 0 0 (p, fresh_cells (u32 (nsize * 4))) in
      '(q', h) ← readd (Z.to_nat (q_size q)) add (q_data q).2
                       (q_nextread q) (q_nextwrite q) (q_size q) q' h;
      h ← kfree (q_data q).1 h;
      Done (0, q', h)
  end.

Definition q_create (size : Z) h : outcome (option (queue A) * H) :=
  '(p, h) ← kmalloc 16 h;
  match p with
  | None => Done (None, h)
  | Some p =>
      '(d, h) ← kmalloc (u32 (size * 4)) h;
      match d with
      | None => h ← kfree p h; Done (None, h)
      | Some d => Done (Some (Queue p size 0 0 (d, fresh_cells (u32 (size * 4)))), h)
      end
  end.

Definition q_empty q : bool := q_nextwrite q =? q_nextread q.

Definition put q (x : A) (nextnext : Z) h : outcome (Z * queue A * H) :=
  d ← store (q_data q).2 (q_nextwrite q) x;
  Done (0, Queue (q_self q) (q_size q) nextnext (q_nextread q) ((q_data q).1, d), h).

(** [q_addtail] and [q_grow] call each other; the depth is at most two, as
    [q_addtail_depth] shows. *)
Fixpoint q_addtail_depth (depth : nat) q (x : A) h : outcome (Z * queue A * H) :=
  kassert (q_size q >? 0);;
  let nextnext := (q_nextwrite q + 1) mod q_size q in
  if nextnext =? q_nextread q then
    match depth with
    | O => Diverge
    | S depth =>
        '(result, q, h) ← q_grow (q_addtail_depth depth) q (q_size q + 1) h;
        if negb (result =? 0) then Done (result, q, h)
        else put q x ((q_nextwrite q + 1) mod q_size q) h
    end
  else put q x nextnext h.

Definition q_addtail q (x : A) h : outcome (Z * queue A * H) := q_addtail_depth 2 q x h.

Definition q_preallocate q (size : Z) h : outcome (Z * queue A * H) :=
  kassert (q_size q >? 0);;
  if size >? q_size q then q_grow q_addtail q size h else Done (0, q, h).

Definition q_remhead q : outcome (A * queue A) :=
  kassert (q_size q >? 0);;
  kassert (negb (q_empty q));;
  ret ← load (q_data q).2 (q_nextread q);
  Done (ret, Queue (q_self q) (q_size q) (q_nextwrite q)
                   ((q_nextread q + 1) mod q_size q) (q_data q)).

Definition q_destroy q h : outcome H :=
  kassert (q_empty q);;
  h ← kfree (q_data q).1 h;
  kfree (q_self q) h.

Definition q_getstart q : Z := q_nextread q.
Definition q_getend q : Z := q_nextwrite q.
Definition q_getsize q : Z := q_size q.

Definition q_getguy q (index : Z) : outcome (option A) :=
  kassert ((index >=? 0) && (index <? q_size q));;
  peek (q_data q).2 index.
End Operations.

(** ** The queue as the list of its elements *)

Section Spec.
Context {A H : Type} `{KHeapLaws H}.
Implicit Types (q : queue A) (h : H) (l : list A) (L : list Z).

(** Sizes for which the code's arithmetic is exact. *)
Definition queue_limit : Z := 2 ^ 28.

Record q_rep q l : Prop := {
  qr_size : 0 < q_size q ≤ 2 * queue_limit;
  qr_read : 0 ≤ q_nextread q < q_size q;
  qr_write : q_nextwrite q = (q_nextread q + Z.of_nat (length l)) mod q_size q;
  qr_len : Z.of_nat (length l) < q_size q;
  qr_cells : Z.of_nat (length (q_data q).2) = q_size q;
  qr_elem k x : l !! k = Some x →
    (q_data q).2 !! Z.to_nat ((q_nextread q + Z.of_nat k) mod q_size q) = Some (Some x);
}.

(** The heap blocks the queue owns. *)
Definition queue_blocks q : list Z := [q_self q; (q_data q).1].

(** Positions in a ring of [s] cells. *)
Lemma ring_pos s a : 0 ≤ a < 2 * s → a mod s = if decide (a < s) then a else a - s.
Proof.
  intros Ha. case_decide.
  - apply Z.mod_small. lia.
  - rewrite <- (Z.mod_small (a - s) s) by lia.
    replace a with (a - s + 1 * s) at 1 by lia. apply Z.mod_add. lia.
Qed.

Lemma ring_ne s r i j :
  0 ≤ r < s → 0 ≤ i < j → j < s → (r + i) mod s ≠ (r + j) mod s.
Proof. intros. rewrite !ring_pos by lia. repeat case_decide; lia. Qed.

Lemma ring_next s r i : 0 < s → ((r + i) mod s + 1) mod s = (r + (i + 1)) mod s.
Proof. intros. rewrite Zplus_mod_idemp_l. f_equal. lia. Qed.

(** The queue is full exactly when it has one free cell left. *)
Lemma ring_full s r n :
  0 ≤ r < s → 0 ≤ n < s → ((r + (n + 1)) mod s =? r) = (n =? s - 1).
Proof.
  intros. rewrite ring_pos by lia. case_decide; lia.
Qed.

Lemma q_rep_empty q l : q_rep q l → q_empty q = true ↔ l = [].
Proof.
  intros [Hs Hr Hw Hl _ _]. unfold q_empty. rewrite Hw, ring_pos by lia. rewrite Z.eqb_eq.
  split.
  - intros E. destruct l; [done|]. cbn in *. case_decide; lia.
  - intros ->. cbn. rewrite decide_True by (cbn; lia). cbn. lia.
Qed.

(** Writing an element at the end of a queue that is not full. *)
Lemma put_spec q l h x :
  q_rep q l → Z.of_nat (length l) < q_size q - 1 →
  ∃ q', put q x ((q_nextwrite q + 1) mod q_size q) h = Done (0, q', h) ∧
        q_rep q' (l ++ [x]) ∧ q_size q' = q_size q ∧ queue_blocks q' = queue_blocks q.
Proof.
  intros [Hs Hr Hw Hl Hc He] Hroom. unfold put, store.
  assert (Hpos : 0 ≤ q_nextwrite q < q_size q) by (rewrite Hw; apply Z.mod_pos_bound; lia).
  rewrite poke_Done by lia. cbn [mbind outcome_bind]. eexists. split; [done|].
  split_and!; [|done..]. split; cbn.
  - done.
  - done.
  - rewrite length_app, Hw, ring_next by lia. cbn. f_equal. lia.
  - rewrite length_app. cbn. lia.
  - by rewrite length_insert.
  - intros k y Hk. destruct (decide (k = length l)) as [->|Hne].
    + rewrite list_lookup_middle in Hk by done. injection Hk as <-.
      rewrite <- Hw, list_lookup_insert_eq; [done|]. lia.
    + assert (Hlt : (k < length l)%nat).
      { apply lookup_lt_Some in Hk. rewrite length_app in Hk. cbn in Hk. lia. }
      rewrite lookup_app_l in Hk by done.
      rewrite list_lookup_insert_ne; [by apply He|].
      assert (Hring := ring_ne (q_size q) (q_nextread q) (Z.of_nat k) (Z.of_nat (length l))).
      rewrite Hw. intros E. apply Z2Nat.inj in E; [lia|apply Z.mod_pos_bound; lia..].
Qed.

(** Adding to a queue that is not full never uses the heap. *)
Lemma addtail_room depth q l h x :
  q_rep q l → Z.of_nat (length l) < q_size q - 1 →
  ∃ q', q_addtail_depth depth q x h = Done (0, q', h) ∧
        q_rep q' (l ++ [x]) ∧ q_size q' = q_size q ∧ queue_blocks q' = queue_blocks q.
Proof.
  intros Hrep Hroom. pose proof Hrep as [Hs Hr Hw Hl _ _].
  assert (E : ((q_nextwrite q + 1) mod q_size q =? q_nextread q) = false).
  { rewrite Hw, ring_next, ring_full by lia. lia. }
  destruct (put_spec q l h x Hrep Hroom) as (q' & Hput & Hq').
  exists q'. split; [|done]. destruct depth; cbn [q_addtail_depth]; pass_assert; by rewrite E.
Qed.

Lemma grow_size_fuel fuel n target :
  0 < n → n < 2 ^ 30 → target ≤ queue_limit → target ≤ 2 ^ Z.of_nat fuel * n →
  ∃ m, grow_size fuel n target = Done m ∧ n ≤ m ∧ target ≤ m ∧ (m = n ∨ m < 2 * target).
Proof.
  unfold queue_limit. revert n. induction fuel as [|fuel IH]; intros n Hn Hmax Ht Hf; cbn [grow_size];
    destruct (Z.ltb_spec n target); try (exists n; split_and!; [done|lia..]).
  - change (2 ^ Z.of_nat 0) with 1 in Hf. lia.
  - rewrite s32_id by lia. pass_assert.
    rewrite Nat2Z.inj_succ, Z.pow_succ_r in Hf by lia.
    destruct (IH (n * 2)) as (m & -> & ? & ? & ?); [lia..|].
    exists m. split_and!; [done|lia..].
Qed.

Lemma grow_size_32 n target :
  0 < n → n < 2 ^ 30 → target ≤ queue_limit →
  ∃ m, grow_size 32 n target = Done m ∧ n ≤ m ∧ target ≤ m ∧ (m = n ∨ m < 2 * target).
Proof.
  intros Hn Hmax Ht. apply grow_size_fuel; [done..|]. change (2 ^ Z.of_nat 32) with (2 ^ 32).
  unfold queue_limit in *. lia.
Qed.

(** Copying the elements [l] that are left in the old ring to the new queue. *)
Lemma readd_spec fuel depth old i s l q l0 h :
  0 ≤ i < s → Z.of_nat (length l) < s → (length l ≤ fuel)%nat →
  (∀ k x, l !! k = Some x → old !! Z.to_nat ((i + Z.of_nat k) mod s) = Some (Some x)) →
  q_rep q l0 → Z.of_nat (length l0) + Z.of_nat (length l) < q_size q →
  ∃ q', readd fuel (q_addtail_depth depth) old i ((i + Z.of_nat (length l)) mod s) s q h = Done (q', h) ∧
        q_rep q' (l0 ++ l) ∧ q_size q' = q_size q ∧ queue_blocks q' = queue_blocks q.
Proof.
  revert fuel i q l0. induction l as [|x l IH]; intros fuel i q l0 Hi Hl Hf Hold Hrep Hroom; cbn [length] in *.
  { rewrite Z.add_0_r, Z.mod_small by lia. exists q. rewrite app_nil_r.
    destruct fuel; cbn [readd]; rewrite Z.eqb_refl; done. }
  destruct fuel as [|fuel]; [lia|]. cbn [readd].
  assert (Hne : i ≠ (i + Z.of_nat (S (length l))) mod s).
  { rewrite ring_pos by lia. case_decide; lia. }
  rewrite (proj2 (Z.eqb_neq _ _) Hne).
  assert (Hx := Hold 0%nat x eq_refl). rewrite Z.add_0_r, Z.mod_small in Hx by lia.
  rewrite (load_Done old i x) by (done || lia). cbn [mbind outcome_bind].
  destruct (addtail_room depth q l0 h x Hrep) as (q1 & -> & Hrep1 & Hs1 & Hb1); [lia|].
  cbn [mbind outcome_bind]. cbn [Z.eqb kassert mbind outcome_bind].
  destruct (IH fuel ((i + 1) mod s) q1 (l0 ++ [x])) as (q' & Hrun & Hrep' & Hs' & Hb').
  - apply Z.mod_pos_bound. lia.
  - lia.
  - lia.
  - intros k y Hk. rewrite Zplus_mod_idemp_l. replace (i + 1 + Z.of_nat k) with (i + Z.of_nat (S k)) by lia.
    by apply Hold.
  - done.
  - rewrite length_app. cbn [length]. lia.
  - rewrite Zplus_mod_idemp_l in Hrun. replace (i + 1 + Z.of_nat (length l)) with (i + Z.of_nat (S (length l))) in Hrun by lia.
    exists q'. rewrite Hrun. split_and!; [done| |congruence..].
    by rewrite <- app_assoc in Hrep'.
Qed.

(** Growing keeps the elements; a failed allocation changes nothing. *)
Lemma q_grow_spec depth q l target h L :
  q_rep q l → heap_owns h (queue_blocks q ++ L) → q_size q < target → target ≤ queue_limit →
  ∃ r q' h', q_grow (q_addtail_depth depth) q target h = Done (r, q', h') ∧
    heap_owns h' (queue_blocks q' ++ L) ∧ q_rep q' l ∧
    (r = ENOMEM ∧ q' = q ∨ r = 0 ∧ target ≤ q_size q').
Proof.
  intros Hrep Hown Hlt Hlim. pose proof Hrep as [Hs Hr Hw Hl Hc He]. unfold queue_limit in *.
  unfold q_grow. destruct (grow_size_32 (q_size q) target) as (n & -> & Hn1 & Hn2 & Hn3);
    [lia|lia|unfold queue_limit; lia|]. cbn [mbind outcome_bind].
  rewrite (u32_id (n * 4)) by lia.
  destruct (owns_alloc _ _ (n * 4) Hown) as (p & h1 & -> & Hp); [lia|].
  cbn [mbind outcome_bind]. destruct p as [p|]; cycle 1.
  { exists ENOMEM, q, h1. split_and!; [done..|by left]. }
  destruct Hp as [_ Hown1].
  set (q0 := Queue (q_self q) n 0 0 (p, fresh_cells (n * 4))).
  assert (Hrep0 : q_rep q0 []).
  { split; cbn; unfold queue_limit; try done; try lia.
    rewrite length_fresh_cells, Z.div_mul by lia. lia. }
  destruct (readd_spec (Z.to_nat (q_size q)) depth (q_data q).2 (q_nextread q) (q_size q) l q0 [] h1)
    as (q' & Hrun & Hrep' & Hs' & Hb'); [done|done|lia|done|done|cbn; lia|].
  rewrite <- Hw in Hrun. cbn [app] in Hrep'. rewrite Hrun. cbn [mbind outcome_bind].
  destruct (owns_free h1 (q_data q).1 (q_self q :: p :: L)) as (h2 & -> & Hown2).
  { revert Hown1. apply heap_owns_perm. cbn. solve_Permutation. }
  exists 0, q', h2. cbn [mbind outcome_bind]. split_and!; [done| |done|].
  - by rewrite Hb'.
  - right. rewrite Hs'. cbn. done.
Qed.

Lemma q_addtail_full depth q x h :
  q_size q > 0 → ((q_nextwrite q + 1) mod q_size q =? q_nextread q) = true →
  q_addtail_depth (S depth) q x h =
    '(result, q, h) ← q_grow (q_addtail_depth depth) q (q_size q + 1) h;
    if negb (result =? 0) then Done (result, q, h)
    else put q x ((q_nextwrite q + 1) mod q_size q) h.
Proof.
  intros Hs E.
  change (q_addtail_depth (S depth) q x h) with
    (kassert (q_size q >? 0);;
     if (q_nextwrite q + 1) mod q_size q =? q_nextread q then
       '(result, q, h) ← q_grow (q_addtail_depth depth) q (q_size q + 1) h;
       if negb (result =? 0) then Done (result, q, h)
       else put q x ((q_nextwrite q + 1) mod q_size q) h
     else put q x ((q_nextwrite q + 1) mod q_size q) h).
  pass_assert. by rewrite E.
Qed.

Lemma q_addtail_spec q l x h L :
  q_rep q l → heap_owns h (queue_blocks q ++ L) → Z.of_nat (length l) < queue_limit - 1 →
  ∃ r q' h', q_addtail q x h = Done (r, q', h') ∧ heap_owns h' (queue_blocks q' ++ L) ∧
    (Z.of_nat (length l) < q_size q - 1 → r = 0 ∧ h' = h ∧ q_size q' = q_size q) ∧
    (r = ENOMEM ∧ q' = q ∨ r = 0 ∧ q_rep q' (l ++ [x])).
Proof.
  intros Hrep Hown Hlim. pose proof Hrep as [Hs Hr Hw Hl Hc He]. unfold q_addtail.
  destruct (decide (Z.of_nat (length l) < q_size q - 1)) as [Hroom|Hfull].
  { destruct (addtail_room 2 q l h x Hrep Hroom) as (q' & -> & Hrep' & Hs' & Hb').
    exists 0, q', h. split_and!; [done|by rewrite Hb'|done|by right]. }
  rewrite q_addtail_full by (rewrite ?Hw, ?ring_next, ?ring_full by lia; lia).
  destruct (q_grow_spec 1 q l (q_size q + 1) h L) as (r & q1 & h1 & -> & Hown1 & Hrep1 & Hr1);
    [done|done|lia|lia|]. cbn [mbind outcome_bind].
  destruct Hr1 as [[-> ->]|[-> Hs1]].
  { exists ENOMEM, q, h1. split_and!; [done..|by left]. }
  cbn [Z.eqb negb]. destruct (put_spec q1 l h1 x Hrep1) as (q' & -> & Hrep' & _ & Hb'); [lia|].
  exists 0, q', h1. split_and!; [done|by rewrite Hb'|done|by right].
Qed.

Lemma q_remhead_spec q x l :
  q_rep q (x :: l) →
  ∃ q', q_remhead q = Done (x, q') ∧ q_rep q' l ∧ q_size q' = q_size q ∧
        queue_blocks q' = queue_blocks q.
Proof.
  intros Hrep. pose proof (q_rep_empty _ _ Hrep) as Hne. destruct Hrep as [Hs Hr Hw Hl Hc He].
  cbn [length] in *. unfold q_remhead. pass_assert.
  destruct (q_empty q) eqn:E; [by destruct Hne as [Hne _]; specialize (Hne eq_refl)|].
  cbn [negb kassert mbind outcome_bind].
  assert (Hx := He 0%nat x eq_refl). rewrite Z.add_0_r, Z.mod_small in Hx by lia.
  rewrite (load_Done _ _ x) by (done || lia). cbn [mbind outcome_bind].
  eexists. split; [done|]. split_and!; [|done..]. split; cbn; try done.
  - apply Z.mod_pos_bound. lia.
  - rewrite Zplus_mod_idemp_l, Hw. f_equal. lia.
  - lia.
  - intros k y Hk. rewrite Zplus_mod_idemp_l.
    replace (q_nextread q + 1 + Z.of_nat k) with (q_nextread q + Z.of_nat (S k)) by lia. by apply He.
Qed.

Lemma q_preallocate_spec q l n h L :
  q_rep q l → heap_owns h (queue_blocks q ++ L) → n ≤ queue_limit →
  ∃ r q' h', q_preallocate q n h = Done (r, q', h') ∧
    heap_owns h' (queue_blocks q' ++ L) ∧ q_rep q' l ∧
    (r = ENOMEM ∧ q' = q ∨ r = 0 ∧ n ≤ q_size q').
Proof.
  intros Hrep Hown Hlim. pose proof (qr_size _ _ Hrep). unfold q_preallocate. pass_assert.
  destruct (Z.gtb_spec n (q_size q)).
  - by apply q_grow_spec.
  - exists 0, q, h. split_and!; [done|done|done|by right].
Qed.

Lemma q_create_spec size h L :
  heap_owns h L → 0 < size ≤ queue_limit →
  ∃ r h', q_create (A := A) size h = Done (r, h') ∧
    match r with
    | None => heap_owns h' L
    | Some q => q_rep q [] ∧ q_size q = size ∧ heap_owns h' (queue_blocks q ++ L)
    end.
Proof.
  unfold queue_limit. intros Hown Hsz. unfold q_create.
  destruct (owns_alloc h L 16 Hown) as (p & h1 & -> & Hp); [lia|]. cbn [mbind outcome_bind].
  destruct p as [p|]; [|by eexists _, h1].
  destruct Hp as [_ Hown1]. rewrite u32_id by lia.
  destruct (owns_alloc h1 _ (size * 4) Hown1) as (d & h2 & -> & Hd); [lia|].
  cbn [mbind outcome_bind]. destruct d as [d|].
  - destruct Hd as [_ Hown2]. eexists _, h2. split; [done|]. split_and!; [|done|].
    + split; cbn; unfold queue_limit; try done; try lia.
      rewrite length_fresh_cells, Z.div_mul by lia. lia.
    + revert Hown2. apply heap_owns_perm. cbn. solve_Permutation.
  - destruct (owns_free h2 p L Hd) as (h3 & -> & Hown3). by eexists _, h3.
Qed.

Lemma q_destroy_spec q h L :
  q_rep q [] → heap_owns h (queue_blocks q ++ L) →
  ∃ h', q_destroy q h = Done h' ∧ heap_owns h' L.
Proof.
  intros Hrep Hown. unfold q_destroy.
  rewrite (proj2 (q_rep_empty q [] Hrep) eq_refl). cbn [kassert mbind outcome_bind].
  destruct (owns_free h (q_data q).1 (q_self q :: L)) as (h1 & -> & Hown1).
  { revert Hown. apply heap_owns_perm. cbn. solve_Permutation. }
  by apply owns_free.
Qed.

(** ** Properties *)

(** the queue is a FIFO: [q_addtail] appends at the end or, when memory
    has run out, returns ENOMEM and changes nothing; [q_remhead] takes the
    oldest element, and on an empty queue, which [q_empty] recognises, its
    assertion fails. *)
Theorem queue_fifo q l h L :
  q_rep q l → heap_owns h (queue_blocks q ++ L) → Z.of_nat (length l) < queue_limit - 1 →
  (∀ x, ∃ r q' h', q_addtail q x h = Done (r, q', h') ∧ heap_owns h' (queue_blocks q' ++ L) ∧
     (r = ENOMEM ∧ q' = q ∨ r = 0 ∧ q_rep q' (l ++ [x]))) ∧
  match l with
  | [] => q_empty q = true ∧ q_remhead q = Panic
  | x :: l' => q_empty q = false ∧ ∃ q', q_remhead q = Done (x, q') ∧ q_rep q' l'
  end.
Proof.
  intros Hrep Hown Hlim. split.
  - intros x. destruct (q_addtail_spec q l x h L Hrep Hown Hlim) as (r & q' & h' & ? & ? & _ & ?). eauto 10.
  - pose proof (q_rep_empty _ _ Hrep) as He. pose proof (qr_size _ _ Hrep). destruct l as [|x l].
    + rewrite (proj2 He eq_refl). split; [done|]. unfold q_remhead. pass_assert.
      by rewrite (proj2 He eq_refl).
    + destruct (q_empty q); [by destruct He as [He _]; specialize (He eq_refl)|]. split; [done|].
      destruct (q_remhead_spec q x l Hrep) as (q' & ? & ? & _). eauto.
Qed.

(** a queue preallocated to [n] cells holds [n - 1] elements without the
    heap; the [n]-th needs a bigger block and is refused with ENOMEM when
    there is none. *)
Theorem queue_capacity q l h x :
  q_rep q l → Z.of_nat (length l) < queue_limit - 1 →
  (Z.of_nat (length l) < q_size q - 1 → ∃ q', q_addtail q x h = Done (0, q', h)) ∧
  (Z.of_nat (length l) = q_size q - 1 → kmalloc (8 * q_size q) h = Done (None, h) →
   q_addtail q x h = Done (ENOMEM, q, h)).
Proof.
  intros Hrep Hlim. pose proof Hrep as [Hs Hr Hw Hl _ _]. unfold queue_limit in *. split.
  - intros Hroom. destruct (addtail_room 2 q l h x Hrep Hroom) as (q' & ? & _). by exists q'.
  - intros Hfull Hnone. unfold q_addtail.
    rewrite q_addtail_full by (rewrite ?Hw, ?ring_next, ?ring_full by lia; lia).
    assert (Hgrow : grow_size 32 (q_size q) (q_size q + 1) = Done (q_size q * 2)).
    { cbn [grow_size]. replace (q_size q <? q_size q + 1) with true by lia.
      rewrite s32_id by lia. pass_assert. by replace (q_size q * 2 <? q_size q + 1) with false by lia. }
    unfold q_grow. rewrite Hgrow. cbn [mbind outcome_bind]. rewrite u32_id by lia.
    replace (q_size q * 2 * 4) with (8 * q_size q) by lia. by rewrite Hnone.
Qed.
End Spec.

(** *** Examples *)

(** A queue of three cells with two elements, wrapped around the end. *)
Definition demo_queue : queue Z :=
  Queue demo_self 3 1 2 (demo_addr, [Some 8; None; Some 7]).

Lemma demo_queue_rep : q_rep demo_queue [7; 8].
Proof.
  split; cbn; unfold queue_limit; try done || lia.
  intros [|[|k]] x; cbn; intros [= <-]; done.
Qed.

Lemma queue_fifo_witness :
  ∃ q', q_remhead demo_queue = Done (7, q') ∧ q_rep q' [8].
Proof.
  apply (queue_fifo demo_queue [7; 8] demo_traced []).
  - apply demo_queue_rep.
  - apply demo_traced_owns.
  - reflexivity.
Defined.

Lemma queue_capacity_witness :
  q_addtail demo_queue 9 full_traced = Done (ENOMEM, demo_queue, full_traced).
Proof.
  apply (queue_capacity demo_queue [7; 8]).
  - apply demo_queue_rep.
  - reflexivity.
  - reflexivity.
  - vm_compute. reflexivity.
Defined.
