(* ===== verification/Bitmap.v ===== *)
(** * Bitmaps (kern/lib/bitmap.c)

    An array of [nbits] bits kept in bytes; the bits of the last byte past
    the end are kept set, so that [bitmap_alloc] never returns them.
    [marked b i] is the abstract value of bit [i]. *)

From S2P Require Import Prelude Ram Kheap KheapSpec KArray.

Definition BITS_PER_WORD : Z := 8.
Definition WORD_ALLBITS : Z := 0xff.

(** struct bitmap, at address [b_self], with the block [v] at [b_addr]. *)
Record bitmap := Bitmap {
  b_self : Z;
  b_nbits : Z;
  b_addr : Z;
  b_v : list Z;
}.

Definition DIVROUNDUP (a b : Z) : Z := u32 (a + b - 1) / b.

Section Operations.
Context {H : Type} `{KHeap H}.
Implicit Types (b : bitmap) (h : H).

(** Read and write one byte of the block. *)
Definition get_byte b (ix : Z) : outcome Z :=
  match b_v b !! Z.to_nat ix with Some w => Done w | None => Fault end.

Definition set_byte b (ix : Z) (w : Z) : bitmap :=
  Bitmap (b_self b) (b_nbits b) (b_addr b) (<[Z.to_nat ix := w]> (b_v b)).

(** for (j=overbits; j<BITS_PER_WORD; j++) v[ix] |= 1 << j; [n] turns. *)
Fixpoint mark_leftover (n : nat) (j w : Z) : Z :=
  match n with
  | O => w
  | S n => mark_leftover n (j + 1) (Z.lor w (u8 (Z.shiftl 1 j)))
  end.

(** Mark any leftover bits at the end in use. *)
Definition mark_tail b (words : Z) : outcome bitmap :=
  let nbits := b_nbits b in
  if nbits / BITS_PER_WORD <? words then
    let ix := words - 1 in
    let overbits := u32 (nbits - u32 (ix * BITS_PER_WORD)) in
    kassert (nbits / BITS_PER_WORD =? words - 1);;
    kassert ((overbits >? 0) && (overbits <? BITS_PER_WORD));;
    w ← get_byte b ix;
    Done (set_byte b ix (mark_leftover (Z.to_nat (BITS_PER_WORD - overbits)) overbits w))
  else Done b.

Definition bitmap_create (nbits : Z) h : outcome (option bitmap * H) :=
  let words := DIVROUNDUP nbits BITS_PER_WORD in
  '(p, h) ← kmalloc 8 h;
  match p with
  | None => Done (None, h)
  | Some p =>
      '(d, h) ← kmalloc words h;
      match d with
      | None => h ← kfree p h; Done (None, h)
      | Some d =>
          b ← mark_tail (Bitmap p nbits d (replicate (Z.to_nat words) 0)) words;
          Done (Some b, h)
      end
  end.

Definition bitmap_getdata b : list Z := b_v b.

(** for (offset = 0; offset < BITS_PER_WORD; offset++) find a clear bit;
    [n] offsets are left. *)
Fixpoint clear_offset (n : nat) (offset w : Z) : option Z :=
  match n with
  | O => None
  | S n =>
      let mask := u8 (Z.shiftl 1 offset) in
      if Z.land w mask =? 0 then Some offset else clear_offset n (offset + 1) w
  end.

(** The outer loop from byte [ix]; [n] bytes are left.  The index is the
    value stored through the out parameter. *)
Fixpoint alloc_from (n : nat) (ix : Z) b : outcome (Z * option Z * bitmap) :=
  match n with
  | O => Done (ENOSPC, None, b)
  | S n =>
      w ← get_byte b ix;
      if negb (w =? WORD_ALLBITS) then
        match clear_offset 8 0 w with
        | Some offset =>
            let b := set_byte b ix (Z.lor w (u8 (Z.shiftl 1 offset))) in
            let index := u32 (ix * BITS_PER_WORD + offset) in
            kassert (index <? b_nbits b);;
            Done (0, Some index, b)
        | None => Panic
        end
      else alloc_from n (ix + 1) b
  end.

Definition bitmap_alloc b : outcome (Z * option Z * bitmap) :=
  alloc_from (Z.to_nat (DIVROUNDUP (b_nbits b) BITS_PER_WORD)) 0 b.

Definition bitmap_translate (bitno : Z) : Z * Z :=
  let ix := bitno / BITS_PER_WORD in
  let offset := bitno mod BITS_PER_WORD in
  (ix, u8 (Z.shiftl 1 offset)).

Definition bitmap_mark b (index : Z) : outcome bitmap :=
  kassert (index <? b_nbits b);;
  let '(ix, mask) := bitmap_translate index in
  w ← get_byte b ix;
  kassert (Z.land w mask =? 0);;
  Done (set_byte b ix (Z.lor w mask)).

Definition bitmap_unmark b (index : Z) : outcome bitmap :=
  kassert (index <? b_nbits b);;
  let '(ix, mask) := bitmap_translate index in
  w ← get_byte b ix;
  kassert (negb (Z.land w mask =? 0));;
  Done (set_byte b ix (Z.land w (u8 (Z.lnot mask)))).

Definition bitmap_isset b (index : Z) : outcome Z :=
  let '(ix, mask) := bitmap_translate index in
  w ← get_byte b ix;
  Done (Z.land w mask).

Definition bitmap_destroy b h : outcome H :=
  h ← kfree (b_addr b) h;
  kfree (b_self b) h.
End Operations.

(** ** The bitmap as a set of indices *)

Definition marked (b : bitmap) (i : nat) : bool := table_bit 8 (b_v b) i.

Record bitmap_wf (b : bitmap) : Prop := {
  bw_nbits : 0 ≤ b_nbits b ≤ 2 ^ 31;
  bw_len : Z.of_nat (length (b_v b)) = (b_nbits b + 7) / 8;
  bw_bytes w : w ∈ b_v b → 0 ≤ w < 2 ^ 8;
  bw_tail i : b_nbits b ≤ Z.of_nat i < 8 * Z.of_nat (length (b_v b)) → marked b i = true;
}.

Lemma DIVROUNDUP_8 n : 0 ≤ n ≤ 2 ^ 31 → DIVROUNDUP n BITS_PER_WORD = (n + 7) / 8.
Proof. intros. unfold DIVROUNDUP, BITS_PER_WORD. rewrite u32_id by lia. f_equal. lia. Qed.

Lemma bit_mask i : 0 ≤ i < 8 → u8 (Z.shiftl 1 i) = 2 ^ i.
Proof.
  intros. rewrite Z.shiftl_mul_pow2, Z.mul_1_l by lia. apply Z.mod_small.
  split; [apply Z.pow_nonneg; lia|apply Z.pow_lt_mono_r; lia].
Qed.

Lemma pow2_byte i : 0 ≤ i < 8 → 0 ≤ 2 ^ i < 2 ^ 8.
Proof. intros. split; [apply Z.pow_nonneg; lia|apply Z.pow_lt_mono_r; lia]. Qed.

Lemma bytes_insert (v : list Z) i w :
  (∀ x, x ∈ v → 0 ≤ x < 2 ^ 8) → 0 ≤ w < 2 ^ 8 → ∀ x, x ∈ <[i := w]> v → 0 ≤ x < 2 ^ 8.
Proof.
  intros Hv Hw x [j Hj]%list_elem_of_lookup.
  apply list_lookup_insert_Some in Hj as [(_ & <- & _)|[_ Hj]]; [done|].
  apply Hv. by apply list_elem_of_lookup_2 in Hj.
Qed.

Lemma byte_index i : Z.to_nat (Z.of_nat i / 8) = (i / 8)%nat.
Proof. rewrite <- (Nat2Z.id (i / 8)). by rewrite Nat2Z.inj_div. Qed.

(** The byte and the bit of an index in range. *)
Lemma index_byte b i :
  bitmap_wf b → Z.of_nat i < b_nbits b →
  ∃ w, b_v b !! (i / 8)%nat = Some w ∧ 0 ≤ w < 2 ^ 8 ∧
       marked b i = Z.testbit w (Z.of_nat (i mod 8)) ∧
       get_byte b (Z.of_nat i / 8) = Done w.
Proof.
  intros [Hn Hl Hb _] Hi.
  assert (Hlt : (i / 8 < length (b_v b))%nat).
  { apply Nat2Z.inj_lt. rewrite Nat2Z.inj_div, Hl. Z.to_euclidean_division_equations; lia. }
  destruct (lookup_lt_is_Some_2 _ _ Hlt) as [w Hw].
  assert (Hwb : 0 ≤ w < 2 ^ 8) by (apply Hb; by apply list_elem_of_lookup_2 in Hw).
  exists w. split; [done|]. split; [done|]. split.
  - unfold marked, table_bit. by rewrite (list_lookup_total_correct _ _ _ Hw).
  - unfold get_byte. by rewrite byte_index, Hw.
Qed.

Lemma translate_spec i :
  bitmap_translate (Z.of_nat i) = (Z.of_nat i / 8, 2 ^ Z.of_nat (i mod 8)).
Proof.
  unfold bitmap_translate, BITS_PER_WORD. rewrite bit_mask by (apply Z.mod_pos_bound; lia).
  by rewrite Nat2Z.inj_mod.
Qed.

Lemma mod_8 i : 0 ≤ Z.of_nat (i mod 8) < 8.
Proof. pose proof (Nat.mod_upper_bound i 8). lia. Qed.

(** Changing one bit of a bitmap, as marking and unmarking do. *)
Lemma set_byte_wf b i w :
  bitmap_wf b → Z.of_nat i < b_nbits b → 0 ≤ w < 2 ^ 8 →
  (∀ j, j ≠ i → table_bit 8 (<[(i / 8)%nat := w]> (b_v b)) j = marked b j) →
  bitmap_wf (set_byte b (Z.of_nat i / 8) w).
Proof.
  intros [Hn Hl Hb Ht] Hi Hw Hother. unfold set_byte.
  rewrite byte_index.
  split; cbn -[Nat.div].
  - done.
  - by rewrite length_insert.
  - by apply bytes_insert.
  - intros j. rewrite length_insert. intros Hj. unfold marked. cbn -[Nat.div].
    rewrite Hother by lia. by apply Ht.
Qed.

Lemma bitmap_mark_spec b i :
  bitmap_wf b → Z.of_nat i < b_nbits b → marked b i = false →
  ∃ b', bitmap_mark b (Z.of_nat i) = Done b' ∧ bitmap_wf b' ∧ b_nbits b' = b_nbits b ∧
        ∀ j, marked b' j = if decide (j = i) then true else marked b j.
Proof.
  intros Hwf Hi Hm. destruct (index_byte b i Hwf Hi) as (w & Hw & Hwb & Hbit & Hget).
  unfold bitmap_mark. pass_assert. rewrite translate_spec, Hget. cbn [mbind outcome_bind].
  rewrite land_pow2, <- Hbit, Hm by lia. cbn [negb kassert mbind outcome_bind].
  pose proof (mod_8 i) as H8.
  assert (Hset : ∀ j, table_bit 8 (<[(i / 8)%nat := Z.lor w (2 ^ Z.of_nat (i mod 8))]> (b_v b)) j =
                      if decide (j = i) then true else marked b j).
  { intros j. rewrite table_bit_set by (done || lia).
    rewrite (Nat.mul_comm (i / 8)), <- Nat.div_mod_eq. done. }
  eexists. split; [done|]. split_and!; [|done|].
  - apply set_byte_wf; [done..|apply lor_bound; [lia|done|by apply pow2_byte]|].
    intros j Hj. rewrite Hset. by rewrite decide_False.
  - intros j. unfold marked, set_byte. cbn -[Nat.div].
    rewrite byte_index.
    apply Hset.
Qed.

Lemma bitmap_unmark_spec b i :
  bitmap_wf b → Z.of_nat i < b_nbits b → marked b i = true →
  ∃ b', bitmap_unmark b (Z.of_nat i) = Done b' ∧ bitmap_wf b' ∧ b_nbits b' = b_nbits b ∧
        ∀ j, marked b' j = if decide (j = i) then false else marked b j.
Proof.
  intros Hwf Hi Hm. destruct (index_byte b i Hwf Hi) as (w & Hw & Hwb & Hbit & Hget).
  unfold bitmap_unmark. pass_assert. rewrite translate_spec, Hget. cbn [mbind outcome_bind].
  rewrite land_pow2, <- Hbit, Hm by lia. cbn [negb kassert mbind outcome_bind].
  pose proof (mod_8 i) as H8.
  assert (Hset : ∀ j, table_bit 8 (<[(i / 8)%nat := Z.land w (u8 (Z.lnot (2 ^ Z.of_nat (i mod 8))))]> (b_v b)) j =
                      if decide (j = i) then false else marked b j).
  { apply table_bit_clear; [lia|done|]. intros. by apply land_lnot_bit; [lia..|]. }
  eexists. split; [done|]. split_and!; [|done|].
  - apply set_byte_wf; [done..|by apply land_bound|].
    intros j Hj. rewrite Hset. by rewrite decide_False.
  - intros j. unfold marked, set_byte. cbn -[Nat.div]. rewrite byte_index. apply Hset.
Qed.

Lemma bitmap_isset_spec b i :
  bitmap_wf b → Z.of_nat i < b_nbits b →
  ∃ r, bitmap_isset b (Z.of_nat i) = Done r ∧ (r ≠ 0 ↔ marked b i = true).
Proof.
  intros Hwf Hi. destruct (index_byte b i Hwf Hi) as (w & Hw & Hwb & Hbit & Hget).
  unfold bitmap_isset. rewrite translate_spec, Hget. cbn [mbind outcome_bind].
  eexists. split; [done|]. rewrite Hbit. rewrite <- Z.eqb_neq, land_pow2 by lia.
  destruct (Z.testbit w _); done.
Qed.

(** *** Allocation *)

Lemma clear_offset_spec n o w :
  0 ≤ w < 2 ^ 8 → 0 ≤ o → o + Z.of_nat n = 8 →
  match clear_offset n o w with
  | Some k => o ≤ k < 8 ∧ Z.testbit w k = false ∧ ∀ j, o ≤ j < k → Z.testbit w j = true
  | None => ∀ j, o ≤ j < 8 → Z.testbit w j = true
  end.
Proof.
  intros Hw. revert o. induction n as [|n IH]; intros o Ho Hn; cbn [clear_offset]; [lia|].
  rewrite bit_mask, land_pow2 by lia. destruct (Z.testbit w o) eqn:E; cbn [negb].
  - specialize (IH (o + 1) ltac:(lia) ltac:(lia)). destruct (clear_offset n (o + 1) w) as [k|].
    + destruct IH as (? & ? & Hlow). split_and!; [lia|lia|done|].
      intros j Hj. destruct (decide (j = o)) as [->|]; [done|]. apply Hlow. lia.
    + intros j Hj. destruct (decide (j = o)) as [->|]; [done|]. apply IH. lia.
  - split_and!; [lia|lia|done|]. lia.
Qed.

Lemma nat_div_8 k i : (k * 8 ≤ i → i < S k * 8 → i / 8 = k ∧ i mod 8 = i - k * 8)%nat.
Proof.
  intros. split; symmetry.
  - apply (Nat.div_unique i 8 k (i - k * 8)); lia.
  - apply (Nat.mod_unique i 8 k (i - k * 8)); lia.
Qed.

Lemma alloc_from_S n k b w :
  b_v b !! k = Some w →
  alloc_from (S n) (Z.of_nat k) b =
    if negb (w =? WORD_ALLBITS) then
      match clear_offset 8 0 w with
      | Some offset =>
          kassert (u32 (Z.of_nat k * BITS_PER_WORD + offset) <? b_nbits b);;
          Done (0, Some (u32 (Z.of_nat k * BITS_PER_WORD + offset)),
                set_byte b (Z.of_nat k) (Z.lor w (u8 (Z.shiftl 1 offset))))
      | None => Panic
      end
    else alloc_from n (Z.of_nat (S k)) b.
Proof.
  intros Hw. cbn [alloc_from]. unfold get_byte. rewrite Nat2Z.id, Hw. cbn [mbind outcome_bind].
  by replace (Z.of_nat k + 1) with (Z.of_nat (S k)) by lia.
Qed.

Lemma alloc_from_spec n k b :
  bitmap_wf b → (n + k = length (b_v b))%nat → (∀ i, (i < k * 8)%nat → marked b i = true) →
  (alloc_from n (Z.of_nat k) b = Done (ENOSPC, None, b) ∧
     ∀ i, (i < length (b_v b) * 8)%nat → marked b i = true) ∨
  ∃ i b', alloc_from n (Z.of_nat k) b = Done (0, Some (Z.of_nat i), b') ∧
    Z.of_nat i < b_nbits b ∧ marked b i = false ∧ (∀ j, (j < i)%nat → marked b j = true) ∧
    bitmap_wf b' ∧ b_nbits b' = b_nbits b ∧
    ∀ j, marked b' j = if decide (j = i) then true else marked b j.
Proof.
  intros Hwf. pose proof Hwf as [Hn Hl Hb Ht]. revert k.
  induction n as [|n IH]; intros k Hk Hset.
  { left. split; [done|]. intros i Hi. apply Hset. lia. }
  destruct (lookup_lt_is_Some_2 (b_v b) k) as [w Hw]; [lia|].
  assert (Hwb : 0 ≤ w < 2 ^ 8) by (apply Hb; by apply list_elem_of_lookup_2 in Hw).
  rewrite (alloc_from_S n k b w Hw).
  assert (Hbit : ∀ i, (k * 8 ≤ i < S k * 8)%nat → marked b i = Z.testbit w (Z.of_nat i - Z.of_nat k * 8)).
  { intros i Hi. destruct (nat_div_8 k i) as [Hd Hm]; [lia..|]. unfold marked, table_bit.
    rewrite Hd, Hm, (list_lookup_total_correct _ _ _ Hw). f_equal. lia. }
  unfold WORD_ALLBITS. destruct (Z.eqb_spec w 0xff) as [->|Hfull]; cbn [negb].
  - apply IH; [lia|].
    intros i Hi. destruct (decide (i < k * 8)%nat); [by apply Hset|].
    rewrite Hbit by lia. change 0xff with (Z.ones 8). apply Z.ones_spec_low. lia.
  - right. pose proof (clear_offset_spec 8 0 w Hwb ltac:(lia) ltac:(lia)) as Hoff.
    destruct (clear_offset 8 0 w) as [o|]; cycle 1.
    { destruct Hfull. apply (full_word 8); [lia|done|]. auto. }
    destruct Hoff as (Ho & Hclear & Hlow). set (i := (k * 8 + Z.to_nat o)%nat).
    assert (Hmi : marked b i = false) by (rewrite Hbit by lia; rewrite <- Hclear; f_equal; lia).
    assert (Hin : Z.of_nat i < b_nbits b).
    { destruct (decide (Z.of_nat i < b_nbits b)); [done|]. rewrite Ht in Hmi by lia. done. }
    unfold BITS_PER_WORD. rewrite u32_id by lia.
    replace (Z.of_nat k * 8 + o) with (Z.of_nat i) by lia. pass_assert.
    rewrite bit_mask by lia. replace o with (Z.of_nat (Z.to_nat o)) by lia.
    assert (Hch : ∀ j, table_bit 8 (<[k := Z.lor w (2 ^ Z.of_nat (Z.to_nat o))]> (b_v b)) j =
                       if decide (j = i) then true else marked b j).
    { apply table_bit_set; [lia|done]. }
    assert (Hk8 : k = (i / 8)%nat) by (symmetry; apply nat_div_8; lia).
    eexists i, _. split; [done|]. split_and!; [done|done| | |done|].
    + intros j Hj. destruct (decide (j < k * 8)%nat); [by apply Hset|].
      rewrite Hbit by lia. apply Hlow. lia.
    + replace (Z.of_nat k) with (Z.of_nat i / 8) by (rewrite Hk8, Nat2Z.inj_div; done).
      apply set_byte_wf; [done|done|apply lor_bound; [lia|done|apply pow2_byte; lia]|].
      intros j Hj. rewrite <- Hk8, Hch, decide_False; done.
    + intros j. unfold marked, set_byte. cbn -[Nat.div]. rewrite Nat2Z.id. apply Hch.
Qed.

Lemma mark_leftover_spec n j w :
  0 ≤ j → j + Z.of_nat n = 8 → 0 ≤ w < 2 ^ 8 →
  0 ≤ mark_leftover n j w < 2 ^ 8 ∧
  ∀ i, 0 ≤ i → Z.testbit (mark_leftover n j w) i = Z.testbit w i || (j <=? i) && (i <? 8).
Proof.
  revert j w. induction n as [|n IH]; intros j w Hj Hn Hw; cbn [mark_leftover].
  { split; [done|]. intros i Hi. replace ((j <=? i) && (i <? 8)) with false by lia. by rewrite orb_false_r. }
  rewrite bit_mask by lia. destruct (IH (j + 1) (Z.lor w (2 ^ j))) as [Hr Hb]; [lia|lia| |].
  { apply lor_bound; [lia|done|apply pow2_byte; lia]. }
  split; [done|]. intros i Hi. rewrite Hb, Z.lor_spec, Z.pow2_bits_eqb by lia.
  destruct (Z.testbit w i); [done|]. cbn. lia.
Qed.

Lemma mark_tail_place b words b' : mark_tail b words = Done b' → b_self b' = b_self b ∧ b_addr b' = b_addr b.
Proof.
  unfold mark_tail. destruct (_ <? words); [|by intros [= <-]]. unfold kassert.
  destruct (_ =? words - 1); [|done]. cbn [mbind outcome_bind]. destruct (_ && _); [|done]. cbn [mbind outcome_bind].
  destruct (get_byte _ _); cbn [mbind outcome_bind]; [|done..]. by intros [= <-].
Qed.

Section Create.
Context {H : Type} `{KHeapLaws H}.

Lemma mark_tail_spec nbits p d :
  0 ≤ nbits ≤ 2 ^ 31 →
  let b := Bitmap p nbits d (replicate (Z.to_nat ((nbits + 7) / 8)) 0) in
  ∃ b', mark_tail b ((nbits + 7) / 8) = Done b' ∧
    bitmap_wf b' ∧ b_nbits b' = nbits ∧
    ∀ i, Z.of_nat i < nbits → marked b' i = false.
Proof.
  intros Hn b. unfold mark_tail, BITS_PER_WORD. change (b_nbits b) with nbits. set (words := (nbits + 7) / 8) in *.
  assert (Hzero : ∀ i, (i / 8 < Z.to_nat words)%nat → marked b i = false).
  { intros i Hi. unfold marked, table_bit, b. cbn [b_v].
    rewrite lookup_total_replicate_2 by done. apply Z.bits_0. }
  assert (Hbytes : ∀ w : Z, w ∈ b_v b → 0 ≤ w < 2 ^ 8).
  { intros w Hw%elem_of_replicate. destruct Hw as [-> _]. lia. }
  destruct (Z.ltb_spec (nbits / 8) words) as [Hlt|Hge]; cycle 1.
  { exists b. split; [done|].
    assert (nbits = 8 * words) by (unfold words in *; Z.to_euclidean_division_equations; lia).
    split_and!; [|done..|].
    - split; [done|cbn; rewrite length_replicate; unfold words; lia|done|].
      intros i. cbn. rewrite length_replicate. lia.
    - intros i Hi. apply Hzero. apply Nat.Div0.div_lt_upper_bound. lia. }
  assert (Hw1 : nbits / 8 = words - 1) by (unfold words in *; Z.to_euclidean_division_equations; lia).
  assert (Hover : nbits - (words - 1) * 8 = nbits mod 8) by (rewrite <- Hw1; Z.to_euclidean_division_equations; lia).
  assert (Hm : 0 < nbits mod 8 < 8) by (unfold words in *; Z.to_euclidean_division_equations; lia).
  assert (Hw0 : 0 < words) by lia. cbv zeta.
  rewrite (u32_id ((words - 1) * 8)), Hover, u32_id by lia. pass_assert. pass_assert.
  assert (Hget : get_byte b (words - 1) = Done 0).
  { unfold get_byte, b. cbn [b_v]. rewrite lookup_replicate_2 by lia. done. }
  rewrite Hget. cbn [mbind outcome_bind].
  destruct (mark_leftover_spec (Z.to_nat (8 - nbits mod 8)) (nbits mod 8) 0) as [Hr Hb]; [lia..|].
  set (w := mark_leftover _ _ _) in *. eexists. split; [done|].
  assert (Hmk : ∀ i, marked (set_byte b (words - 1) w) i =
                if decide (i / 8 = Z.to_nat (words - 1))%nat then nbits mod 8 <=? Z.of_nat (i mod 8) else marked b i).
  { intros i. unfold marked, set_byte. cbn [b_v]. rewrite table_bit_insert by (cbn; rewrite length_replicate; lia).
    case_decide; [|done]. rewrite Hb, Z.bits_0, orb_false_l by lia. pose proof (mod_8 i).
    replace (Z.of_nat (i mod 8) <? 8) with true by lia. apply andb_true_r. }
  assert (Hdm : ∀ i, Z.of_nat i = 8 * Z.of_nat (i / 8) + Z.of_nat (i mod 8)).
  { intros i. rewrite <- Nat2Z.inj_mul with (n := 8%nat), <- Nat2Z.inj_add. f_equal. apply Nat.div_mod_eq. }
  split_and!; [split|done..|].
  - done.
  - unfold set_byte. cbn. rewrite length_insert, length_replicate. lia.
  - by apply bytes_insert.
  - unfold set_byte at 2. intros i. cbn. rewrite length_insert, length_replicate. intros Hi. rewrite Hmk.
    pose proof (Hdm i). pose proof (mod_8 i). rewrite decide_True; lia.
  - intros i Hi. rewrite Hmk. pose proof (Hdm i). pose proof (mod_8 i). case_decide; [lia|]. apply Hzero. lia.
Qed.

(** The blocks of the heap a bitmap takes. *)
Lemma bitmap_create_owns nbits (h : H) L :
  heap_owns h L → 0 ≤ nbits ≤ 2 ^ 31 →
  ∃ r h', bitmap_create nbits h = Done (r, h') ∧
    match r with
    | None => heap_owns h' L
    | Some b => heap_owns h' (b_self b :: b_addr b :: L) ∧ bitmap_wf b ∧ b_nbits b = nbits
    end.
Proof.
  intros Hown Hn. unfold bitmap_create. rewrite DIVROUNDUP_8 by done.
  destruct (owns_alloc h L 8 Hown) as (p & h1 & -> & Hp); [lia|]. cbn [mbind outcome_bind].
  destruct p as [p|]; [|by exists None, h1]. destruct Hp as [_ Hp].
  destruct (owns_alloc h1 (p :: L) ((nbits + 7) / 8) Hp) as (d & h2 & -> & Hd);
    [Z.to_euclidean_division_equations; lia|]. cbn [mbind outcome_bind].
  destruct d as [d|].
  - destruct Hd as [_ Hd]. destruct (mark_tail_spec nbits p d Hn) as (b & Hb & Hwf & Hnb & _). rewrite Hb.
    exists (Some b), h2. split; [done|]. split; [|done]. destruct (mark_tail_place _ _ _ Hb) as [-> ->].
    revert Hd. apply heap_owns_perm. cbn. solve_Permutation.
  - destruct (owns_free h2 p L Hd) as (h3 & -> & Hh3). by exists None, h3.
Qed.

(** [bitmap_create] returns NULL when memory runs out, or a bitmap in
    order whose [nbits] bits are all clear and whose leftover bits are set. *)
Theorem bitmap_create_clear nbits (h : H) :
  heap_ok h → 0 ≤ nbits ≤ 2 ^ 31 →
  ∃ r h', bitmap_create nbits h = Done (r, h') ∧ heap_ok h' ∧
    ∀ b, r = Some b → bitmap_wf b ∧ b_nbits b = nbits ∧
                      ∀ i, Z.of_nat i < nbits → marked b i = false.
Proof.
  intros Hok Hn. unfold bitmap_create. rewrite DIVROUNDUP_8 by done.
  destruct (kmalloc_total h 8) as (p & h1 & -> & Hok1 & Hk1 & Hn1); [done|lia|]. cbn [mbind outcome_bind].
  destruct p as [p|]; [|eexists _, h1; split_and!; [done|done|by intros ? [=]]].
  destruct (Hn1 p eq_refl) as (_ & _ & Hpl).
  destruct (kmalloc_total h1 ((nbits + 7) / 8)) as (d & h2 & -> & Hok2 & Hk2 & Hn2);
    [done|Z.to_euclidean_division_equations; lia|]. cbn [mbind outcome_bind].
  destruct d as [d|].
  - destruct (mark_tail_spec nbits p d Hn) as (b & -> & Hwf & Hnb & Hclear).
    eexists _, h2. split_and!; [done|done|]. by intros ? [= <-].
  - destruct (kfree_total h2 p) as (h3 & -> & Hok3 & _); [done|auto|].
    eexists _, h3. split_and!; [done|done|by intros ? [=]].
Qed.
End Create.

(** Allocation keeps the bitmap where it is. *)
Lemma alloc_from_place n k b r i b' :
  alloc_from n k b = Done (r, i, b') → b_self b' = b_self b ∧ b_addr b' = b_addr b.
Proof.
  revert k. induction n as [|n IH]; intros k; cbn [alloc_from]; [by intros [= _ _ <-]|].
  intros (w & _ & Hrun)%bind_Done. destruct (negb _); [|by eapply IH].
  destruct (clear_offset _ _ _); [|done]. apply bind_Done in Hrun as (u & _ & [= _ _ <-]). done.
Qed.

Lemma bitmap_alloc_spec b :
  bitmap_wf b →
  (bitmap_alloc b = Done (ENOSPC, None, b) ∧ ∀ i, Z.of_nat i < b_nbits b → marked b i = true) ∨
  ∃ i b', bitmap_alloc b = Done (0, Some (Z.of_nat i), b') ∧
    Z.of_nat i < b_nbits b ∧ marked b i = false ∧ (∀ j, (j < i)%nat → marked b j = true) ∧
    bitmap_wf b' ∧ (b_nbits b' = b_nbits b ∧ b_self b' = b_self b ∧ b_addr b' = b_addr b) ∧
    ∀ j, marked b' j = if decide (j = i) then true else marked b j.
Proof.
  intros Hwf. pose proof Hwf as [Hn Hl _ _]. unfold bitmap_alloc. rewrite DIVROUNDUP_8 by done.
  destruct (alloc_from_spec (Z.to_nat ((b_nbits b + 7) / 8)) 0 b Hwf) as [[Hrun Hall]|(i & b' & Hrun & ? & ? & ? & ? & ? & ?)];
    [lia|lia|left|right].
  - split; [done|]. intros i Hi. apply Hall. assert (b_nbits b ≤ (b_nbits b + 7) / 8 * 8); [|lia].
    Z.to_euclidean_division_equations; lia.
  - exists i, b'. pose proof (alloc_from_place _ _ _ _ _ _ Hrun) as [??]. split_and!; done.
Qed.

Lemma bitmap_unmark_place b i b' :
  bitmap_unmark b i = Done b' → b_self b' = b_self b ∧ b_addr b' = b_addr b.
Proof. unfold bitmap_unmark, bitmap_translate. intros H. by invert_run. Qed.

(** [bitmap_alloc] takes the lowest clear bit and marks it, leaving every
    other bit alone, or returns ENOSPC when every bit is set; it never
    returns a bit past the end and its assertions never fail. *)
Theorem bitmap_alloc_lowest b :
  bitmap_wf b →
  (bitmap_alloc b = Done (ENOSPC, None, b) ∧ ∀ i, Z.of_nat i < b_nbits b → marked b i = true) ∨
  ∃ i b', bitmap_alloc b = Done (0, Some (Z.of_nat i), b') ∧
    Z.of_nat i < b_nbits b ∧ marked b i = false ∧ (∀ j, (j < i)%nat → marked b j = true) ∧
    bitmap_wf b' ∧ ∀ j, marked b' j = if decide (j = i) then true else marked b j.
Proof.
  intros Hwf. destruct (bitmap_alloc_spec b Hwf) as [?|(i & b' & ? & ? & ? & ? & ? & _ & ?)]; [by left|].
  right. exists i, b'. split_and!; done.
Qed.

(** marking a clear bit and unmarking it again restores the bitmap, and
    [bitmap_isset] sees the bit exactly in between. *)
Theorem bitmap_mark_unmark b i :
  bitmap_wf b → Z.of_nat i < b_nbits b → marked b i = false →
  ∃ b1 r b2, bitmap_mark b (Z.of_nat i) = Done b1 ∧ bitmap_isset b1 (Z.of_nat i) = Done r ∧ r ≠ 0 ∧
    bitmap_unmark b1 (Z.of_nat i) = Done b2 ∧ bitmap_isset b2 (Z.of_nat i) = Done 0 ∧
    ∀ j, marked b2 j = marked b j.
Proof.
  intros Hwf Hi Hm. destruct (bitmap_mark_spec b i Hwf Hi Hm) as (b1 & Hr1 & Hwf1 & Hn1 & Hm1).
  assert (Hi1 : marked b1 i = true) by (by rewrite Hm1, decide_True).
  destruct (bitmap_unmark_spec b1 i Hwf1) as (b2 & Hr2 & Hwf2 & Hn2 & Hm2); [lia|done|].
  destruct (bitmap_isset_spec b1 i Hwf1) as (r & Hr & Hset); [lia|].
  destruct (bitmap_isset_spec b2 i Hwf2) as (r2 & Hrr & Hset2); [lia|].
  exists b1, r, b2. split_and!; [done|done|by apply Hset|done| |].
  - rewrite Hrr. f_equal. destruct (decide (r2 = 0)) as [|Hne]; [done|].
    apply Hset2 in Hne. by rewrite Hm2, decide_True in Hne.
  - intros j. rewrite Hm2, Hm1. destruct (decide (j = i)) as [->|]; done.
Qed.

(** *** Examples *)

(** Ten bits: bits 0 and 1 are marked, and so are the six leftover bits. *)
Definition demo_bitmap : bitmap := Bitmap 0 10 0 [0x03; 0xfc].

Lemma demo_bitmap_wf : bitmap_wf demo_bitmap.
Proof.
  split.
  - cbn. lia.
  - done.
  - intros w Hw. change (w ∈ [3; 252]) in Hw. set_unfold. naive_solver lia.
  - intros i Hi. change (10 ≤ Z.of_nat i < 16) in Hi.
    assert (i = 10 ∨ i = 11 ∨ i = 12 ∨ i = 13 ∨ i = 14 ∨ i = 15)%nat as Hc by lia.
    repeat (destruct Hc as [->|Hc]; [done|]). by subst.
Qed.

Lemma bitmap_create_clear_witness :
  ∃ r h', bitmap_create 10 demo_traced = Done (r, h').
Proof.
  destruct (bitmap_create_clear 10 demo_traced) as (r & h' & Hrun & _); [apply demo_traced_owns|lia|].
  exists r, h'. exact Hrun.
Defined.

Lemma bitmap_alloc_lowest_witness :
  ∃ b', bitmap_alloc demo_bitmap = Done (0, Some 2, b').
Proof.
  destruct (bitmap_alloc_lowest demo_bitmap demo_bitmap_wf) as [[Hrun _]|(i & b' & Hrun & _)].
  - exfalso. revert Hrun. vm_compute. discriminate.
  - exists b'. assert (Hc : bitmap_alloc demo_bitmap = Done (0, Some 2, Bitmap 0 10 0 [7; 252]))
      by (vm_compute; reflexivity).
    rewrite Hrun in Hc |- *. injection Hc as -> _. reflexivity.
Defined.

Lemma bitmap_mark_unmark_witness :
  ∃ b1, bitmap_mark demo_bitmap 5 = Done b1.
Proof.
  destruct (bitmap_mark_unmark demo_bitmap 5 demo_bitmap_wf) as (b1 & r & b2 & Hrun & _); [done|done|].
  exists b1. exact Hrun.
Defined.
