(* ===== verification/Kstate.v ===== *)
(** * The state of the thread system

    The global variables of kern/thread (thread.c, scheduler.c, hardclock.c),
    of kern/arch/mips/mips (spl.c, interrupt.c), the synchronization objects
    and the heap, as one record; and the monad its code is written in.

    What a thread that is not running will do when it runs again is kept on
    its kernel stack by the code.  The model keeps it as a list of [frame]s,
    innermost first: one constructor for every place in the code where a
    thread can be switched away from, with the local variables that are
    still needed there.  [k_curframes] holds the frames of the running
    thread; they are run one at a time, which puts a possible preemption
    between any two of them.

    Address spaces and vnodes belong to other components; the few calls the
    thread system makes into them are the operations of [ThreadEnv]. *)

From S2P Require Import Prelude KArray Queue.

(** States a thread can be in. *)
Inductive threadstate := S_RUN | S_READY | S_SLEEP | S_ZOMB.

(** Sleep addresses: the address of a synchronization object, or of the
    variable [lbolt]. *)
Inductive wchan := WObj (a : Z) | WLbolt.

#[global] Instance threadstate_eq_dec : EqDecision threadstate.
Proof. solve_decision. Defined.
#[global] Instance wchan_eq_dec : EqDecision wchan.
Proof. solve_decision. Defined.

(** The function a new thread starts in: a kernel function, or
    [md_forkentry] with a trap frame and an address space. *)
Inductive startfunc := FuncKernel | FuncForkentry (tf vmspace : Z).

(** Places where a thread can be switched away from. *)
Inductive frame :=
| FYield (spl : Z)                    (* thread_yield, after mi_switch *)
| FP (sem spl : Z)                    (* P, asleep on the semaphore *)
| FAcquire (lock spl : Z)             (* lock_acquire, asleep on the lock *)
| FCvWait (cv lock spl : Z)           (* cv_wait, asleep on the cv *)
| FSplx (spl : Z)                     (* cv_wait, in its lock_acquire *)
| FClocksleep (num_secs spl : Z)      (* clocksleep, asleep on lbolt *)
| FInterrupt (old_in savespl : Z)     (* mips_interrupt and mips_trap *)
| FStart (func : startfunc)           (* mi_threadstart *)
| FExit                               (* thread_exit, before splhigh *)
| FDead                               (* thread_exit, after mi_switch *)
| FWaitLocked (pid : Z)               (* sys_waitpid, after P(lock) *)
| FWaitBlock (thread pid : Z)         (* sys_waitpid, before P(wait) *)
| FWaitChild (pid : Z).               (* sys_waitpid, after P(wait) *)

(** struct thread, with the parts of struct pcb that matter here:
    [t_frames] is what the saved kernel stack holds, [t_ininterrupt] is
    pcb_ininterrupt.  [t_stack] is the stack's block and its four lowest
    bytes.  [t_sysret] is what the last sys_waitpid of the thread left in
    its trap frame and in the caller's status word: the error code, the
    return value and the status, if it was stored. *)
Record thread := Thread {
  t_frames : list frame;
  t_ininterrupt : Z;
  t_name : Z;
  t_sleepaddr : option wchan;
  t_stack : option (Z * list Z);
  t_vmspace : option Z;
  t_cwd : option Z;
  t_pid : Z;
  t_child : list (option Z);
  t_parent : option Z;
  t_wait : option Z;
  t_sysret : option (Z * Z * option Z);
}.

Definition MAX_CHILD : nat := 100.
Definition STACK_SIZE : Z := 4096.
Definition THREAD_SIZE : Z := 492.
Definition HZ : Z := 100.

(** struct pnode.  [pn_parentpid] is not set when the node is made. *)
Record pnode := Pnode {
  pn_addr : Z;
  pn_thread : option Z;
  pn_excode : Z;
  pn_exited : Z;
  pn_pid : Z;
  pn_parentpid : option Z;
  pn_waited : Z;
}.

(** struct semaphore, struct lock and struct cv; [name] is the block of the
    name. *)
Inductive kobj :=
| Sem (name count : Z)
| Lock (name : Z) (holder : option Z)
| Cv (name : Z).

(** [k_plist] is the list after the dummy node [phead]; [k_lock] is the
    global semaphore [lock] of thread.h.  [k_switching] is the thread on
    whose stack [scheduler] is running while there is no current thread. *)
Record kstate (H E : Type) := Kstate {
  k_curthread : option Z;
  k_threads : gmap Z thread;
  k_sleepers : option (array Z);
  k_zombies : option (array Z);
  k_numthreads : Z;
  k_max_pid : Z;
  k_plist : list pnode;
  k_lock : option Z;
  k_runqueue : option (queue Z);
  k_curspl : Z;
  k_in_interrupt : Z;
  k_objs : gmap Z kobj;
  k_lbolt_counter : Z;
  k_curframes : list frame;
  k_switching : option Z;
  k_heap : H;
  k_env : E;
}.
Arguments Kstate {H E} _ _ _ _ _ _ _ _ _ _ _ _ _ _ _ _ _.
Arguments k_curthread {H E} _.
Arguments k_threads {H E} _.
Arguments k_sleepers {H E} _.
Arguments k_zombies {H E} _.
Arguments k_numthreads {H E} _.
Arguments k_max_pid {H E} _.
Arguments k_plist {H E} _.
Arguments k_lock {H E} _.
Arguments k_runqueue {H E} _.
Arguments k_curspl {H E} _.
Arguments k_in_interrupt {H E} _.
Arguments k_objs {H E} _.
Arguments k_lbolt_counter {H E} _.
Arguments k_curframes {H E} _.
Arguments k_switching {H E} _.
Arguments k_heap {H E} _.
Arguments k_env {H E} _.

(** The calls into the address-space code and the vnode layer. *)
Class ThreadEnv (E : Type) := {
  as_activate : Z → E → E;
  as_destroy : Z → E → E;
  as_copy : Z → E → option Z * E;
  vop_incref : Z → E → E;
  vop_decref : Z → E → E;
}.

(** ** The monad of kernel code: state and outcome *)

Definition K (H E A : Type) : Type := kstate H E → outcome (A * kstate H E).

#[global] Instance K_ret H E : MRet (K H E) := λ A a σ, Done (a, σ).
#[global] Instance K_bind H E : MBind (K H E) := λ A B f m σ, '(a, σ) ← m σ; f a σ.

Section Monad.
Context {H E : Type}.

Definition set_curthread (x : option Z) (σ : kstate H E) : kstate H E :=
  Kstate x (k_threads σ) (k_sleepers σ) (k_zombies σ) (k_numthreads σ) (k_max_pid σ) (k_plist
    σ) (k_lock σ) (k_runqueue σ) (k_curspl σ) (k_in_interrupt σ) (k_objs σ) (k_lbolt_counter σ)
    (k_curframes σ) (k_switching σ) (k_heap σ) (k_env σ).
Definition set_threads (x : gmap Z thread) (σ : kstate H E) : kstate H E :=
  Kstate (k_curthread σ) x (k_sleepers σ) (k_zombies σ) (k_numthreads σ) (k_max_pid σ) (k_plist
    σ) (k_lock σ) (k_runqueue σ) (k_curspl σ) (k_in_interrupt σ) (k_objs σ) (k_lbolt_counter σ)
    (k_curframes σ) (k_switching σ) (k_heap σ) (k_env σ).
Definition set_sleepers (x : option (array Z)) (σ : kstate H E) : kstate H E :=
  Kstate (k_curthread σ) (k_threads σ) x (k_zombies σ) (k_numthreads σ) (k_max_pid σ) (k_plist
    σ) (k_lock σ) (k_runqueue σ) (k_curspl σ) (k_in_interrupt σ) (k_objs σ) (k_lbolt_counter σ)
    (k_curframes σ) (k_switching σ) (k_heap σ) (k_env σ).
Definition set_zombies (x : option (array Z)) (σ : kstate H E) : kstate H E :=
  Kstate (k_curthread σ) (k_threads σ) (k_sleepers σ) x (k_numthreads σ) (k_max_pid σ) (k_plist
    σ) (k_lock σ) (k_runqueue σ) (k_curspl σ) (k_in_interrupt σ) (k_objs σ) (k_lbolt_counter σ)
    (k_curframes σ) (k_switching σ) (k_heap σ) (k_env σ).
Definition set_numthreads (x : Z) (σ : kstate H E) : kstate H E :=
  Kstate (k_curthread σ) (k_threads σ) (k_sleepers σ) (k_zombies σ) x (k_max_pid σ) (k_plist σ)
    (k_lock σ) (k_runqueue σ) (k_curspl σ) (k_in_interrupt σ) (k_objs σ) (k_lbolt_counter σ)
    (k_curframes σ) (k_switching σ) (k_heap σ) (k_env σ).
Definition set_max_pid (x : Z) (σ : kstate H E) : kstate H E :=
  Kstate (k_curthread σ) (k_threads σ) (k_sleepers σ) (k_zombies σ) (k_numthreads σ) x (k_plist
    σ) (k_lock σ) (k_runqueue σ) (k_curspl σ) (k_in_interrupt σ) (k_objs σ) (k_lbolt_counter σ)
    (k_curframes σ) (k_switching σ) (k_heap σ) (k_env σ).
Definition set_plist (x : list pnode) (σ : kstate H E) : kstate H E :=
  Kstate (k_curthread σ) (k_threads σ) (k_sleepers σ) (k_zombies σ) (k_numthreads σ) (k_max_pid
    σ) x (k_lock σ) (k_runqueue σ) (k_curspl σ) (k_in_interrupt σ) (k_objs σ) (k_lbolt_counter
    σ) (k_curframes σ) (k_switching σ) (k_heap σ) (k_env σ).
Definition set_lock (x : option Z) (σ : kstate H E) : kstate H E :=
  Kstate (k_curthread σ) (k_threads σ) (k_sleepers σ) (k_zombies σ) (k_numthreads σ) (k_max_pid
    σ) (k_plist σ) x (k_runqueue σ) (k_curspl σ) (k_in_interrupt σ) (k_objs σ) (k_lbolt_counter
    σ) (k_curframes σ) (k_switching σ) (k_heap σ) (k_env σ).
Definition set_runqueue (x : option (queue Z)) (σ : kstate H E) : kstate H E :=
  Kstate (k_curthread σ) (k_threads σ) (k_sleepers σ) (k_zombies σ) (k_numthreads σ) (k_max_pid
    σ) (k_plist σ) (k_lock σ) x (k_curspl σ) (k_in_interrupt σ) (k_objs σ) (k_lbolt_counter σ)
    (k_curframes σ) (k_switching σ) (k_heap σ) (k_env σ).
Definition set_curspl (x : Z) (σ : kstate H E) : kstate H E :=
  Kstate (k_curthread σ) (k_threads σ) (k_sleepers σ) (k_zombies σ) (k_numthreads σ) (k_max_pid
    σ) (k_plist σ) (k_lock σ) (k_runqueue σ) x (k_in_interrupt σ) (k_objs σ) (k_lbolt_counter
    σ) (k_curframes σ) (k_switching σ) (k_heap σ) (k_env σ).
Definition set_in_interrupt (x : Z) (σ : kstate H E) : kstate H E :=
  Kstate (k_curthread σ) (k_threads σ) (k_sleepers σ) (k_zombies σ) (k_numthreads σ) (k_max_pid
    σ) (k_plist σ) (k_lock σ) (k_runqueue σ) (k_curspl σ) x (k_objs σ) (k_lbolt_counter σ)
    (k_curframes σ) (k_switching σ) (k_heap σ) (k_env σ).
Definition set_objs (x : gmap Z kobj) (σ : kstate H E) : kstate H E :=
  Kstate (k_curthread σ) (k_threads σ) (k_sleepers σ) (k_zombies σ) (k_numthreads σ) (k_max_pid
    σ) (k_plist σ) (k_lock σ) (k_runqueue σ) (k_curspl σ) (k_in_interrupt σ) x (k_lbolt_counter
    σ) (k_curframes σ) (k_switching σ) (k_heap σ) (k_env σ).
Definition set_lbolt_counter (x : Z) (σ : kstate H E) : kstate H E :=
  Kstate (k_curthread σ) (k_threads σ) (k_sleepers σ) (k_zombies σ) (k_numthreads σ) (k_max_pid
    σ) (k_plist σ) (k_lock σ) (k_runqueue σ) (k_curspl σ) (k_in_interrupt σ) (k_objs σ) x
    (k_curframes σ) (k_switching σ) (k_heap σ) (k_env σ).
Definition set_curframes (x : list frame) (σ : kstate H E) : kstate H E :=
  Kstate (k_curthread σ) (k_threads σ) (k_sleepers σ) (k_zombies σ) (k_numthreads σ) (k_max_pid
    σ) (k_plist σ) (k_lock σ) (k_runqueue σ) (k_curspl σ) (k_in_interrupt σ) (k_objs σ)
    (k_lbolt_counter σ) x (k_switching σ) (k_heap σ) (k_env σ).
Definition set_switching (x : option Z) (σ : kstate H E) : kstate H E :=
  Kstate (k_curthread σ) (k_threads σ) (k_sleepers σ) (k_zombies σ) (k_numthreads σ) (k_max_pid
    σ) (k_plist σ) (k_lock σ) (k_runqueue σ) (k_curspl σ) (k_in_interrupt σ) (k_objs σ)
    (k_lbolt_counter σ) (k_curframes σ) x (k_heap σ) (k_env σ).
Definition set_heap (x : H) (σ : kstate H E) : kstate H E :=
  Kstate (k_curthread σ) (k_threads σ) (k_sleepers σ) (k_zombies σ) (k_numthreads σ) (k_max_pid
    σ) (k_plist σ) (k_lock σ) (k_runqueue σ) (k_curspl σ) (k_in_interrupt σ) (k_objs σ)
    (k_lbolt_counter σ) (k_curframes σ) (k_switching σ) x (k_env σ).
Definition set_env (x : E) (σ : kstate H E) : kstate H E :=
  Kstate (k_curthread σ) (k_threads σ) (k_sleepers σ) (k_zombies σ) (k_numthreads σ) (k_max_pid
    σ) (k_plist σ) (k_lock σ) (k_runqueue σ) (k_curspl σ) (k_in_interrupt σ) (k_objs σ)
    (k_lbolt_counter σ) (k_curframes σ) (k_switching σ) (k_heap σ) x.

Definition gets {A} (f : kstate H E → A) : K H E A := λ σ, Done (f σ, σ).
Definition modify (f : kstate H E → kstate H E) : K H E unit := λ σ, Done (tt, f σ).
Definition lift {A} (m : outcome A) : K H E A := λ σ, a ← m; Done (a, σ).
Definition assertK (b : bool) : K H E unit := lift (kassert b).
Definition faultK {A} : K H E A := λ _, Fault.

(** Dereference a pointer that must not be NULL. *)
Definition deref {A} (o : option A) : K H E A :=
  match o with Some a => mret a | None => faultK end.

Definition get_thread (t : Z) : K H E thread := ts ← gets k_threads; deref (ts !! t).
Definition put_thread (t : Z) (th : thread) : K H E unit :=
  ts ← gets k_threads; modify (set_threads (<[t := th]> ts)).
Definition get_obj (a : Z) : K H E kobj := os ← gets k_objs; deref (os !! a).
Definition put_obj (a : Z) (o : kobj) : K H E unit :=
  os ← gets k_objs; modify (set_objs (<[a := o]> os)).
Definition modify_env (f : E → E) : K H E unit :=
  e ← gets k_env; modify (set_env (f e)).

(** Allocator calls act on the heap component. *)
Definition kmallocK `{KHeap H} (n : Z) : K H E (option Z) :=
  h ← gets k_heap;
  '(r, h) ← lift (kmalloc n h);
  modify (set_heap h);;
  mret r.
Definition kfreeK `{KHeap H} (a : Z) : K H E unit :=
  h ← gets k_heap;
  h ← lift (kfree a h);
  modify (set_heap h).

(** kstrdup: a copy of a name of [len] characters. *)
Definition kstrdup `{KHeap H} (len : Z) : K H E (option Z) := kmallocK (len + 1).

(** ** Interrupt levels (spl.c) *)

Definition splx (newspl : Z) : K H E Z :=
  oldspl ← gets k_curspl;
  modify (set_curspl newspl);;
  mret oldspl.
Definition splhigh : K H E Z := splx SPL_HIGH.
Definition spl0 : K H E Z := splx 0.
End Monad.

(** ** Running monadic code *)

Lemma bind_run {H E A B} (m : K H E A) (f : A → K H E B) σ a σ' :
  m σ = Done (a, σ') → (m ≫= f) σ = f a σ'.
Proof. unfold mbind at 1, K_bind. by intros ->. Qed.

Lemma bind_run_inv {H E A B} (m : K H E A) (f : A → K H E B) σ r :
  (m ≫= f) σ = Done r → ∃ a σ', m σ = Done (a, σ') ∧ f a σ' = Done r.
Proof.
  unfold mbind at 1, K_bind. intros [[a σ'] [Hm Hf]]%bind_Done. eauto.
Qed.

Section Runs.
Context {H E : Type}.
Implicit Types σ : kstate H E.

Lemma gets_run {A} (f : kstate H E → A) σ : gets f σ = Done (f σ, σ).
Proof. done. Qed.
Lemma modify_run f σ : modify f σ = Done (tt, f σ).
Proof. done. Qed.
Lemma ret_run {A} (a : A) σ : mret (M := K H E) a σ = Done (a, σ).
Proof. done. Qed.
Lemma assertK_run b σ : b = true → assertK b σ = Done (tt, σ).
Proof. by intros ->. Qed.
Lemma lift_run {A} (m : outcome A) a σ : m = Done a → lift m σ = Done (a, σ).
Proof. by intros ->. Qed.
Lemma get_thread_run t th σ : k_threads σ !! t = Some th → get_thread t σ = Done (th, σ).
Proof. intros Hth. unfold get_thread, mbind, K_bind. cbn. by rewrite Hth. Qed.
Lemma get_obj_run a o σ : k_objs σ !! a = Some o → get_obj a σ = Done (o, σ).
Proof. intros Ho. unfold get_obj, mbind, K_bind. cbn. by rewrite Ho. Qed.
Lemma put_thread_run t th σ :
  put_thread t th σ = Done (tt, set_threads (<[t := th]> (k_threads σ)) σ).
Proof. done. Qed.
Lemma put_obj_run a o σ : put_obj a o σ = Done (tt, set_objs (<[a := o]> (k_objs σ)) σ).
Proof. done. Qed.
Lemma splx_run n σ : splx n σ = Done (k_curspl σ, set_curspl n σ).
Proof. done. Qed.
End Runs.


