(* ===== verification/Thread.v ===== *)
(** * Switching, sleeping and waking (kern/thread/thread.c, scheduler.c)

    The run queue, the table of sleepers and the list of zombies, and the
    operations that move threads between them.  An operation that ends in
    [mi_switch] returns [Switch] with the frames left on the stack; the
    switch itself is [switch_away], which leaves the processor in the
    scheduler, and [pick], which takes the next thread from the run queue.
    The kprintf calls of the panic paths are left out. *)

From S2P Require Import Prelude KArray Queue Kstate.

(** How a piece of kernel code ends: it returns to its caller, leaving
    [ks] to be done next, or it calls [mi_switch]. *)
Inductive flow :=
| Finished (ks : list frame)
| Switch (st : threadstate) (ks : list frame).

Section Code.
Context {H E : Type} `{KHeap H} `{ThreadEnv E}.
Abbreviation M := (K H E).

(** ** The scheduler *)

Definition scheduler_bootstrap : M unit :=
  h ← gets k_heap;
  '(q, h) ← lift (q_create 32 h);
  modify (set_heap h);;
  match q with
  | None => lift Panic
  | Some q => modify (set_runqueue (Some q))
  end.

Definition scheduler_preallocate (nthreads : Z) : M Z :=
  s ← gets k_curspl;
  assertK (s >? 0);;
  q ← gets k_runqueue; q ← deref q;
  h ← gets k_heap;
  '(r, q, h) ← lift (q_preallocate q nthreads h);
  modify (set_runqueue (Some q));;
  modify (set_heap h);;
  mret r.

(** while (!q_empty(runqueue)) q_remhead(runqueue); the queue holds fewer
    elements than its size, which bounds the loop. *)
Fixpoint killall_loop (fuel : nat) (q : queue Z) : outcome (queue Z) :=
  if q_empty q then Done q
  else match fuel with
       | O => Diverge
       | S fuel => '(_, q) ← q_remhead q; killall_loop fuel q
       end.

Definition scheduler_killall : M unit :=
  s ← gets k_curspl;
  assertK (s >? 0);;
  q ← gets k_runqueue; q ← deref q;
  q ← lift (killall_loop (Z.to_nat (q_size q)) q);
  modify (set_runqueue (Some q)).

Definition scheduler_shutdown : M unit :=
  scheduler_killall;;
  s ← gets k_curspl;
  assertK (s >? 0);;
  q ← gets k_runqueue; q ← deref q;
  h ← gets k_heap;
  h ← lift (q_destroy q h);
  modify (set_heap h);;
  modify (set_runqueue None).

(** The end of [scheduler], when there is a thread to run; until then it
    idles, and interrupts are taken (the idle case of the interrupt steps). *)
Definition scheduler : M Z :=
  s ← gets k_curspl;
  assertK (s >? 0);;
  q ← gets k_runqueue; q ← deref q;
  '(t, q) ← lift (q_remhead q);
  modify (set_runqueue (Some q));;
  mret t.

Definition make_runnable (t : Z) : M Z :=
  s ← gets k_curspl;
  assertK (s >? 0);;
  q ← gets k_runqueue; q ← deref q;
  h ← gets k_heap;
  '(r, q, h) ← lift (q_addtail q t h);
  modify (set_runqueue (Some q));;
  modify (set_heap h);;
  mret r.

(** ** Stacks *)

(** The magic number at the bottom end of a thread's stack. *)
Definition stack_magic : list Z := [0xae; 0x11; 0xda; 0x33].

Definition check_stack (th : thread) : M unit :=
  match t_stack th with
  | None => mret tt
  | Some (_, bytes) => assertK (bool_decide (bytes = stack_magic))
  end.

(** ** Dead threads *)

Definition thread_destroy (t : Z) : M unit :=
  cur ← gets k_curthread;
  assertK (bool_decide (cur ≠ Some t));;
  th ← get_thread t;
  assertK (bool_decide (t_vmspace th = None));;
  assertK (bool_decide (t_cwd th = None));;
  match t_stack th with Some (p, _) => kfreeK p | None => mret tt end;;
  kfreeK (t_name th);;
  kfreeK t;;
  ts ← gets k_threads;
  modify (set_threads (delete t ts)).

(** for (i=0; i<array_getnum(zombies); i++) from [i]; [n] turns are left. *)
Fixpoint destroy_from (n : nat) (i : Z) : M unit :=
  match n with
  | O => mret tt
  | S n =>
      a ← gets k_zombies; a ← deref a;
      z ← lift (array_getguy a i);
      cur ← gets k_curthread;
      assertK (bool_decide (cur ≠ Some z));;
      thread_destroy z;;
      destroy_from n (i + 1)
  end.

Definition exorcise : M unit :=
  s ← gets k_curspl;
  assertK (s >? 0);;
  a ← gets k_zombies; a ← deref a;
  destroy_from (Z.to_nat (array_getnum a)) 0;;
  a ← gets k_zombies; a ← deref a;
  h ← gets k_heap;
  '(result, a, h) ← lift (array_setsize a 0 h);
  modify (set_zombies (Some a));;
  modify (set_heap h);;
  assertK (result =? 0).

(** Drops all sleepers during panic; the messages are left out. *)
Definition thread_killall : M unit :=
  s ← gets k_curspl;
  assertK (s >? 0);;
  a ← gets k_sleepers; a ← deref a;
  h ← gets k_heap;
  '(result, a, h) ← lift (array_setsize a 0 h);
  modify (set_sleepers (Some a));;
  modify (set_heap h);;
  assertK (result =? 0).

Definition thread_panic : M unit :=
  s ← gets k_curspl;
  assertK (s >? 0);;
  thread_killall;;
  scheduler_killall.

Definition thread_shutdown : M unit :=
  a ← gets k_sleepers; a ← deref a;
  h ← gets k_heap;
  h ← lift (array_destroy a h);
  modify (set_heap h);;
  modify (set_sleepers None);;
  a ← gets k_zombies; a ← deref a;
  h ← gets k_heap;
  h ← lift (array_destroy a h);
  modify (set_heap h);;
  modify (set_zombies None).

(** ** mi_switch

    The first half of [mi_switch], for a thread that is running: check its
    stack and put it where it belongs.  [ks] stays on its stack.  The check
    for a NULL current thread is made by the callers, who go on at once in
    that case. *)

(** result = array_add(arr, cur), for the array of [get]/[set]. *)
Definition stash_array (get : kstate H E → option (array Z))
    (set : option (array Z) → kstate H E → kstate H E) (t : Z) : M Z :=
  a ← gets get; a ← deref a;
  h ← gets k_heap;
  '(r, a, h) ← lift (array_add a t h);
  modify (set (Some a));;
  modify (set_heap h);;
  mret r.

Definition stash (nextstate : threadstate) (cur : Z) : M Z :=
  match nextstate with
  | S_READY => make_runnable cur
  | S_SLEEP => stash_array k_sleepers set_sleepers cur
  | S_ZOMB => stash_array k_zombies set_zombies cur
  | S_RUN => lift Panic
  end.

Definition set_frames (ks : list frame) (th : thread) : thread :=
  Thread ks (t_ininterrupt th) (t_name th) (t_sleepaddr th) (t_stack th) (t_vmspace th)
         (t_cwd th) (t_pid th) (t_child th) (t_parent th) (t_wait th) (t_sysret th).
Definition set_ininterrupt (i : Z) (th : thread) : thread :=
  Thread (t_frames th) i (t_name th) (t_sleepaddr th) (t_stack th) (t_vmspace th)
         (t_cwd th) (t_pid th) (t_child th) (t_parent th) (t_wait th) (t_sysret th).
Definition set_sleepaddr (w : option wchan) (th : thread) : thread :=
  Thread (t_frames th) (t_ininterrupt th) (t_name th) w (t_stack th) (t_vmspace th)
         (t_cwd th) (t_pid th) (t_child th) (t_parent th) (t_wait th) (t_sysret th).

Definition switch_away (nextstate : threadstate) (ks : list frame) : M unit :=
  s ← gets k_curspl;
  assertK (s >? 0);;
  cur ← gets k_curthread; cur ← deref cur;
  th ← get_thread cur;
  check_stack th;;
  modify (set_curthread None);;
  put_thread cur (set_frames ks th);;
  result ← stash nextstate cur;
  assertK (result =? 0);;
  modify (set_curframes []);;
  modify (set_switching (Some cur)).

(** md_switch: the in-interrupt flag is per thread. *)
Definition md_switch (cur next : Z) : M unit :=
  if cur =? next then mret tt
  else
    i ← gets k_in_interrupt;
    th ← get_thread cur;
    put_thread cur (set_ininterrupt i th);;
    nth ← get_thread next;
    modify (set_in_interrupt (t_ininterrupt nth)).

(** The second half of [mi_switch]: the scheduler has found a thread.  Its
    frames become those of the processor.  A new thread goes to
    mi_threadstart, any other returns from [mi_switch] to its own frames. *)
Definition pick : M unit :=
  cur ← gets k_switching; cur ← deref cur;
  next ← scheduler;
  modify (set_curthread (Some next));;
  md_switch cur next;;
  modify (set_switching None);;
  th ← get_thread next;
  put_thread next (set_frames [] th);;
  modify (set_curframes (t_frames th));;
  match t_frames th with
  | FStart _ :: _ => mret tt
  | _ =>
      exorcise;;
      match t_vmspace th with
      | Some v => modify_env (as_activate v)
      | None => mret tt
      end
  end.

(** ** Yielding and sleeping *)

Definition thread_yield : M flow :=
  spl ← splhigh;
  a ← gets k_sleepers;
  assertK (bool_decide (a ≠ None));;
  cur ← gets k_curthread;
  match cur with
  | None => splx spl;; mret (Finished [])
  | Some _ => mret (Switch S_READY [FYield spl])
  end.

(** [k] is the frame of the caller. *)
Definition thread_sleep (w : wchan) (k : frame) : M flow :=
  i ← gets k_in_interrupt;
  assertK (i =? 0);;
  cur ← gets k_curthread; cur ← deref cur;
  th ← get_thread cur;
  put_thread cur (set_sleepaddr (Some w) th);;
  mret (Switch S_SLEEP [k]).

(** The end of [thread_sleep], once the thread runs again. *)
Definition sleep_return : M unit :=
  cur ← gets k_curthread; cur ← deref cur;
  th ← get_thread cur;
  put_thread cur (set_sleepaddr None th).

(** ** Waking *)

(** The loop of [thread_wakeup] from index [i]; a thread that is woken is
    removed, and the same index is looked at again. *)
Fixpoint wakeup_from (fuel : nat) (w : wchan) (i : Z) : M unit :=
  a ← gets k_sleepers; a ← deref a;
  if i <? array_getnum a then
    match fuel with
    | O => lift Diverge
    | S fuel =>
        t ← lift (array_getguy a i);
        th ← get_thread t;
        if bool_decide (t_sleepaddr th = Some w) then
          a ← lift (array_remove a i);
          modify (set_sleepers (Some a));;
          result ← make_runnable t;
          assertK (result =? 0);;
          wakeup_from fuel w i
        else wakeup_from fuel w (i + 1)
    end
  else mret tt.

Definition thread_wakeup (w : wchan) : M unit :=
  s ← gets k_curspl;
  assertK (s >? 0);;
  a ← gets k_sleepers; a ← deref a;
  wakeup_from (Z.to_nat (array_getnum a)) w 0.

(** The loop of [thread_wakeup_one]: it stops at the first thread found. *)
Fixpoint wakeup_one_from (n : nat) (w : wchan) (i : Z) : M unit :=
  match n with
  | O => mret tt
  | S n =>
      a ← gets k_sleepers; a ← deref a;
      t ← lift (array_getguy a i);
      th ← get_thread t;
      if bool_decide (t_sleepaddr th = Some w) then
        a ← lift (array_remove a i);
        modify (set_sleepers (Some a));;
        result ← make_runnable t;
        assertK (result =? 0)
      else wakeup_one_from n w (i + 1)
  end.

Definition thread_wakeup_one (w : wchan) : M unit :=
  s ← gets k_curspl;
  assertK (s >? 0);;
  a ← gets k_sleepers; a ← deref a;
  wakeup_one_from (Z.to_nat (array_getnum a)) w 0.

(** Returns 1 at the first sleeper found, without lowering the interrupt
    level again. *)
Fixpoint hassleepers_from (n : nat) (w : wchan) (i : Z) : M bool :=
  match n with
  | O => mret false
  | S n =>
      a ← gets k_sleepers; a ← deref a;
      t ← lift (array_getguy a i);
      th ← get_thread t;
      if bool_decide (t_sleepaddr th = Some w) then mret true
      else hassleepers_from n w (i + 1)
  end.

Definition thread_hassleepers (w : wchan) : M Z :=
  s ← splhigh;
  s' ← gets k_curspl;
  assertK (s' >? 0);;
  a ← gets k_sleepers; a ← deref a;
  found ← hassleepers_from (Z.to_nat (array_getnum a)) w 0;
  if found : bool then mret 1
  else splx s;; mret 0.
End Code.
