(* ===== verification/Synch.v ===== *)
(** * Semaphores, locks and condition variables (kern/thread/synch.c)

    and the clock of kern/thread/hardclock.c.  Pointers that are asserted
    not to be NULL are passed as [option]s; an object that has been freed
    is absent from [k_objs].  The blocking operations are loops around
    [thread_sleep]: the part from the test of the condition on is a
    definition of its own ([P_loop], [acquire_loop], [clocksleep_loop]),
    run first by the caller and again whenever the thread has slept. *)

From S2P Require Import Prelude KArray Queue Kstate Thread.

Section Code.
Context {H E : Type} `{KHeap H} `{ThreadEnv E}.
Abbreviation M := (K H E).

(** Access to an object of the expected kind. *)
Definition get_sem (a : Z) : M (Z * Z) :=
  o ← get_obj a;
  match o with Sem name count => mret (name, count) | _ => faultK end.
Definition get_lock (a : Z) : M (Z * option Z) :=
  o ← get_obj a;
  match o with Lock name holder => mret (name, holder) | _ => faultK end.
Definition get_cv (a : Z) : M Z :=
  o ← get_obj a;
  match o with Cv name => mret name | _ => faultK end.
Definition del_obj (a : Z) : M unit :=
  os ← gets k_objs; modify (set_objs (delete a os)).

(** assert(p != NULL) *)
Definition nonnull (o : option Z) : M Z :=
  match o with Some a => mret a | None => lift Panic end.

(** The common part of the create functions: the structure of [size] bytes
    and a copy of the name. *)
Definition obj_create (size namelen : Z) (mk : Z → kobj) : M (option Z) :=
  p ← kmallocK size;
  match p with
  | None => mret None
  | Some p =>
      name ← kstrdup namelen;
      match name with
      | None => kfreeK p;; mret None
      | Some name => put_obj p (mk name);; mret (Some p)
      end
  end.

(** The common part of the destroy functions. *)
Definition obj_free (a name : Z) : M unit :=
  kfreeK name;;
  kfreeK a;;
  del_obj a.

(** ** Semaphores *)

Definition sem_create (namelen initial_count : Z) : M (option Z) :=
  assertK (initial_count >=? 0);;
  obj_create 8 namelen (λ name, Sem name initial_count).

Definition sem_destroy (sem : option Z) : M unit :=
  a ← nonnull sem;
  spl ← splhigh;
  n ← thread_hassleepers (WObj a);
  assertK (n =? 0);;
  splx spl;;
  '(name, _) ← get_sem a;
  obj_free a name.

(** while (sem->count==0) thread_sleep(sem); and what follows. *)
Definition P_loop (a spl : Z) : M flow :=
  '(name, count) ← get_sem a;
  if count =? 0 then thread_sleep (WObj a) (FP a spl)
  else
    assertK (count >? 0);;
    put_obj a (Sem name (count - 1));;
    splx spl;;
    mret (Finished []).

Definition P (sem : option Z) : M flow :=
  a ← nonnull sem;
  i ← gets k_in_interrupt;
  assertK (i =? 0);;
  spl ← splhigh;
  P_loop a spl.

Definition V (sem : option Z) : M unit :=
  a ← nonnull sem;
  spl ← splhigh;
  '(name, count) ← get_sem a;
  let count := s32 (count + 1) in
  put_obj a (Sem name count);;
  assertK (count >? 0);;
  thread_wakeup (WObj a);;
  splx spl;;
  mret tt.

(** ** Locks *)

Definition lock_create (namelen : Z) : M (option Z) :=
  obj_create 8 namelen (λ name, Lock name None).

Definition lock_destroy (lock : option Z) : M unit :=
  a ← nonnull lock;
  spl ← splhigh;
  '(name, holder) ← get_lock a;
  assertK (bool_decide (holder = None));;
  splx spl;;
  obj_free a name.

Definition acquire_loop (a spl : Z) : M flow :=
  '(name, holder) ← get_lock a;
  match holder with
  | Some _ => thread_sleep (WObj a) (FAcquire a spl)
  | None =>
      cur ← gets k_curthread;
      put_obj a (Lock name cur);;
      splx spl;;
      mret (Finished [])
  end.

Definition lock_acquire (lock : option Z) : M flow :=
  a ← nonnull lock;
  i ← gets k_in_interrupt;
  assertK (i =? 0);;
  spl ← splhigh;
  acquire_loop a spl.

Definition lock_do_i_hold (lock : option Z) : M bool :=
  a ← nonnull lock;
  spl ← splhigh;
  '(_, holder) ← get_lock a;
  cur ← gets k_curthread;
  splx spl;;
  mret (bool_decide (holder = cur)).

Definition lock_release (lock : option Z) : M unit :=
  a ← nonnull lock;
  spl ← splhigh;
  mine ← lock_do_i_hold (Some a);
  (if mine : bool then
     '(name, _) ← get_lock a;
     put_obj a (Lock name None);;
     thread_wakeup_one (WObj a)
   else mret tt);;
  splx spl;;
  mret tt.

(** ** Condition variables *)

Definition cv_create (namelen : Z) : M (option Z) :=
  obj_create 4 namelen Cv.

Definition cv_destroy (cv : option Z) : M unit :=
  a ← nonnull cv;
  spl ← splhigh;
  n ← thread_hassleepers (WObj a);
  assertK (n =? 0);;
  splx spl;;
  name ← get_cv a;
  obj_free a name.

Definition cv_wait (cv lock : option Z) : M flow :=
  spl ← splhigh;
  c ← nonnull cv;
  l ← nonnull lock;
  lock_release (Some l);;
  thread_sleep (WObj c) (FCvWait c l spl).

(** The rest of [cv_wait], once the thread has been woken: it takes the lock
    again, perhaps sleeping, and then restores the interrupt level. *)
Definition cv_wait_rest (l spl : Z) : M flow :=
  fl ← lock_acquire (Some l);
  match fl with
  | Finished ks => mret (Finished (ks ++ [FSplx spl]))
  | Switch st ks => mret (Switch st (ks ++ [FSplx spl]))
  end.

Definition cv_signal (cv lock : option Z) : M unit :=
  spl ← splhigh;
  c ← nonnull cv;
  l ← nonnull lock;
  thread_wakeup_one (WObj c);;
  lock_release (Some l);;
  splx spl;;
  mret tt.

Definition cv_broadcast (cv lock : option Z) : M unit :=
  spl ← splhigh;
  c ← nonnull cv;
  l ← nonnull lock;
  thread_wakeup (WObj c);;
  lock_release (Some l);;
  splx spl;;
  mret tt.

(** ** The clock *)

Definition hardclock : M flow :=
  n ← gets k_lbolt_counter;
  let n := s32 (n + 1) in
  modify (set_lbolt_counter n);;
  (if n >=? HZ then
     modify (set_lbolt_counter 0);;
     thread_wakeup WLbolt
   else mret tt);;
  thread_yield.

Definition clocksleep_loop (num_secs s : Z) : M flow :=
  if num_secs >? 0 then thread_sleep WLbolt (FClocksleep num_secs s)
  else splx s;; mret (Finished []).

Definition clocksleep (num_secs : Z) : M flow :=
  s ← splhigh;
  clocksleep_loop num_secs s.
End Code.
