(* ===== verification/Process.v ===== *)
(** * Threads and processes: creation, exit, waiting

    The process list and the life of a thread (kern/thread/thread.c), and
    the system calls fork, getpid, waitpid and _exit
    (kern/arch/mips/mips/syscall.c).

    The process list is only ever reached from its dummy head, so it is
    modelled as the list of the nodes after it; nodes are never freed. *)

From S2P Require Import Prelude KArray Queue Kstate Thread Synch.

(** ** The process list *)

(** Walks that stop at the first node with the pid. *)
Fixpoint plist_find (pid : Z) (l : list pnode) : option pnode :=
  match l with
  | [] => None
  | n :: l => if pn_pid n =? pid then Some n else plist_find pid l
  end.

Fixpoint plist_update (f : pnode → pnode) (pid : Z) (l : list pnode) : list pnode :=
  match l with
  | [] => []
  | n :: l => if pn_pid n =? pid then f n :: l else n :: plist_update f pid l
  end.

Fixpoint delete_from_plist (pid : Z) (l : list pnode) : list pnode :=
  match l with
  | [] => []
  | n :: l => if pn_pid n =? pid then l else n :: delete_from_plist pid l
  end.

Definition get_exited (pid : Z) (l : list pnode) : Z :=
  match plist_find pid l with Some n => pn_exited n | None => -1 end.

Definition get_excode (pid : Z) (l : list pnode) : Z :=
  match plist_find pid l with Some n => pn_excode n | None => -1 end.

Definition set_excode (pid exitcode : Z) (l : list pnode) : list pnode :=
  plist_update (λ n, Pnode (pn_addr n) (pn_thread n) exitcode 1 (pn_pid n) (pn_parentpid n)
                           (pn_waited n)) pid l.

Definition set_exited (pid : Z) (l : list pnode) : list pnode :=
  plist_update (λ n, Pnode (pn_addr n) (pn_thread n) (pn_excode n) 1 (pn_pid n)
                           (pn_parentpid n) (pn_waited n)) pid l.

Definition set_waited (pid : Z) (l : list pnode) : list pnode :=
  plist_update (λ n, Pnode (pn_addr n) (pn_thread n) (pn_excode n) (pn_exited n) (pn_pid n)
                           (pn_parentpid n) 1) pid l.

Definition find_thread_by_pid (pid : Z) (l : list pnode) : option Z :=
  match plist_find pid l with Some n => pn_thread n | None => None end.

(** This walk does not stop at the first match. *)
Definition set_parentpid (parent current : Z) (l : list pnode) : list pnode :=
  (λ n, if pn_pid n =? current
        then Pnode (pn_addr n) (pn_thread n) (pn_excode n) (pn_exited n) (pn_pid n)
                   (Some parent) (pn_waited n)
        else n) <$> l.

(** Comparing a parent pid that was never set is undefined. *)
Definition check_parent_child_relationship (parent current : Z) (l : list pnode) : outcome Z :=
  match plist_find current l with
  | None => Done 0
  | Some n =>
      match pn_parentpid n with
      | None => Fault
      | Some p => Done (if p =? parent then 1 else 0)
      end
  end.

Definition check_waited_by_pid (pid : Z) (l : list pnode) : Z :=
  match plist_find pid l with
  | Some n => if pn_waited n =? 1 then 1 else 0
  | None => 0
  end.

Section Code.
Context {H E : Type} `{KHeap H} `{ThreadEnv E}.
Abbreviation M := (K H E).

(** The node is written without a check for NULL. *)
Definition insert_to_plist (t pid : Z) : M unit :=
  p ← kmallocK 32; p ← deref p;
  l ← gets k_plist;
  modify (set_plist (l ++ [Pnode p (Some t) (-1) 0 pid None 0])).

(** ** Creating threads *)

(** [thread_init] is the part from the wait semaphore on; the pid it stores
    is overwritten at once. *)
Definition thread_create (namelen : Z) : M (option Z) :=
  p ← kmallocK THREAD_SIZE;
  match p with
  | None => mret None
  | Some p =>
      name ← kstrdup namelen;
      match name with
      | None => kfreeK p;; mret None
      | Some name =>
          wait ← sem_create 4 0;
          pid ← gets k_max_pid;
          put_thread p (Thread [] 0 name None None None None pid (replicate MAX_CHILD None)
                               None wait None);;
          modify (set_max_pid (s32 (pid + 1)));;
          insert_to_plist p pid;;
          mret (Some p)
      end
  end.

(** Makes the first thread; [lock] starts with count 0. *)
Definition thread_bootstrap : M unit :=
  p ← kmallocK 32; _ ← deref p;
  modify (set_plist []);;
  lk ← sem_create 4 0;
  modify (set_lock lk);;
  h ← gets k_heap;
  '(a, h) ← lift (array_create h);
  modify (set_heap h);;
  match a with None => lift Panic | Some a => modify (set_sleepers (Some a)) end;;
  h ← gets k_heap;
  '(a, h) ← lift (array_create h);
  modify (set_heap h);;
  match a with None => lift Panic | Some a => modify (set_zombies (Some a)) end;;
  me ← thread_create 11;
  match me with
  | None => lift Panic
  | Some me =>
      modify (set_curthread (Some me));;
      modify (set_numthreads 1)
  end.

(** The first free entry of the child table takes the new thread.  When there
    is none the code reads the entry after the last one. *)
Fixpoint add_child (c : Z) (l : list (option Z)) : option (list (option Z)) :=
  match l with
  | [] => None
  | None :: l => Some (Some c :: l)
  | Some d :: l => cons (Some d) <$> add_child c l
  end.

Definition set_stack_etc (frames : list frame) (stack cwd parent : option Z) (th : thread) : thread :=
  Thread frames 0 (t_name th) (t_sleepaddr th) ((λ p, (p, stack_magic)) <$> stack) (t_vmspace th)
         cwd (t_pid th) (t_child th) parent (t_wait th) (t_sysret th).
Definition set_child (l : list (option Z)) (th : thread) : thread :=
  Thread (t_frames th) (t_ininterrupt th) (t_name th) (t_sleepaddr th) (t_stack th) (t_vmspace th)
         (t_cwd th) (t_pid th) l (t_parent th) (t_wait th) (t_sysret th).
Definition set_parent (p : option Z) (th : thread) : thread :=
  Thread (t_frames th) (t_ininterrupt th) (t_name th) (t_sleepaddr th) (t_stack th) (t_vmspace th)
         (t_cwd th) (t_pid th) (t_child th) p (t_wait th) (t_sysret th).
Definition set_vmspace (v : option Z) (th : thread) : thread :=
  Thread (t_frames th) (t_ininterrupt th) (t_name th) (t_sleepaddr th) (t_stack th) v
         (t_cwd th) (t_pid th) (t_child th) (t_parent th) (t_wait th) (t_sysret th).
Definition set_cwd (v : option Z) (th : thread) : thread :=
  Thread (t_frames th) (t_ininterrupt th) (t_name th) (t_sleepaddr th) (t_stack th) (t_vmspace th)
         v (t_pid th) (t_child th) (t_parent th) (t_wait th) (t_sysret th).
Definition set_sysret (r : Z * Z * option Z) (th : thread) : thread :=
  Thread (t_frames th) (t_ininterrupt th) (t_name th) (t_sleepaddr th) (t_stack th) (t_vmspace th)
         (t_cwd th) (t_pid th) (t_child th) (t_parent th) (t_wait th) (Some r).

(** array_preallocate of the array of [get]/[set]. *)
Definition preallocate_array (get : kstate H E → option (array Z))
    (set : option (array Z) → kstate H E → kstate H E) (n : Z) : M Z :=
  a ← gets get; a ← deref a;
  h ← gets k_heap;
  '(r, a, h) ← lift (array_preallocate a n h);
  modify (set (Some a));;
  modify (set_heap h);;
  mret r.

(** The code at label [fail]. *)
Definition fork_fail (newguy s result : Z) : M (Z * option Z) :=
  splx s;;
  th ← get_thread newguy;
  match t_cwd th with Some v => modify_env (vop_decref v) | None => mret tt end;;
  match t_stack th with Some (p, _) => kfreeK p | None => mret tt end;;
  kfreeK (t_name th);;
  kfreeK newguy;;
  ts ← gets k_threads;
  modify (set_threads (delete newguy ts));;
  mret (result, None).

(** The part of [thread_fork] that runs with interrupts off. *)
Definition fork_atomic (newguy : Z) : M (Z * option Z) :=
  s ← splhigh;
  n ← gets k_numthreads;
  result ← preallocate_array k_sleepers set_sleepers (n + 1);
  if negb (result =? 0) then fork_fail newguy s result else
  result ← preallocate_array k_zombies set_zombies (n + 1);
  if negb (result =? 0) then fork_fail newguy s result else
  result ← scheduler_preallocate (n + 1);
  if negb (result =? 0) then fork_fail newguy s result else
  result ← make_runnable newguy;
  if negb (result =? 0) then fork_fail newguy s result else
  modify (set_numthreads (n + 1));;
  splx s;;
  mret (0, Some newguy).

(** Returns the error code and the new thread. *)
Definition thread_fork (namelen : Z) (func : startfunc) : M (Z * option Z) :=
  o ← thread_create namelen;
  match o with
  | None => mret (ENOMEM, None)
  | Some newguy =>
      stack ← kmallocK STACK_SIZE;
      match stack with
      | None =>
          th ← get_thread newguy;
          kfreeK (t_name th);;
          kfreeK newguy;;
          ts ← gets k_threads;
          modify (set_threads (delete newguy ts));;
          mret (ENOMEM, None)
      | Some stack =>
          cur ← gets k_curthread; cur ← deref cur;
          cth ← get_thread cur;
          match t_cwd cth with Some v => modify_env (vop_incref v) | None => mret tt end;;
          nth ← get_thread newguy;
          put_thread newguy (set_stack_etc [FStart func] (Some stack) (t_cwd cth) (Some cur) nth);;
          cth ← get_thread cur;
          children ← deref (add_child newguy (t_child cth));
          put_thread cur (set_child children cth);;
          l ← gets k_plist;
          modify (set_plist (set_parentpid (t_pid cth) (t_pid nth) l));;
          fork_atomic newguy
      end
  end.

(** mi_threadstart up to the call of the function; for [md_forkentry] also
    the address space it installs. *)
Definition mi_threadstart (func : startfunc) : M flow :=
  cur ← gets k_curthread; cur ← deref cur;
  th ← get_thread cur;
  match t_vmspace th with Some v => modify_env (as_activate v) | None => mret tt end;;
  spl0;;
  match func with
  | FuncKernel => mret (Finished [])
  | FuncForkentry tf v =>
      kfreeK tf;;
      th ← get_thread cur;
      put_thread cur (set_vmspace (Some v) th);;
      modify_env (as_activate v);;
      mret (Finished [])
  end.

(** ** Exit *)

(** The first part of [thread_exit], up to [splhigh]. *)
Definition thread_exit : M flow :=
  cur ← gets k_curthread; cur ← deref cur;
  th ← get_thread cur;
  put_thread cur (set_parent None th);;
  l ← gets k_plist;
  modify (set_plist (set_exited (t_pid th) l));;
  V (t_wait th);;
  lk ← gets k_lock;
  V lk;;
  th ← get_thread cur;
  check_stack th;;
  mret (Finished [FExit]).

(** The rest of [thread_exit]. *)
Definition exit_rest : M flow :=
  splhigh;;
  cur ← gets k_curthread; cur ← deref cur;
  th ← get_thread cur;
  match t_vmspace th with
  | Some v => put_thread cur (set_vmspace None th);; modify_env (as_destroy v)
  | None => mret tt
  end;;
  th ← get_thread cur;
  match t_cwd th with
  | Some v => modify_env (vop_decref v);; put_thread cur (set_cwd None th)
  | None => mret tt
  end;;
  n ← gets k_numthreads;
  assertK (n >? 0);;
  modify (set_numthreads (n - 1));;
  mret (Switch S_ZOMB [FDead]).

(** ** System calls *)

(** Leave error code, return value and status for the caller. *)
Definition sys_return (err retval : Z) (status : option Z) : M unit :=
  cur ← gets k_curthread; cur ← deref cur;
  th ← get_thread cur;
  put_thread cur (set_sysret (err, retval, status) th).

Definition sys_getpid : M Z :=
  cur ← gets k_curthread; cur ← deref cur;
  th ← get_thread cur;
  mret (t_pid th).

(** [namelen] is the length of the current thread's name.  Returns the error
    code and, for success, the pid of the child. *)
Definition sys_fork (namelen : Z) : M (Z * Z) :=
  spl ← splhigh;
  tf ← kmallocK 148;
  match tf with
  | None => splx spl;; mret (ENOMEM, 0)
  | Some tf =>
      cur ← gets k_curthread; cur ← deref cur;
      th ← get_thread cur;
      v ← deref (t_vmspace th);
      e ← gets k_env;
      let '(v, e) := as_copy v e in
      modify (set_env e);;
      match v with
      | None => kfreeK tf;; splx spl;; mret (ENOMEM, 0)
      | Some v =>
          '(r, child) ← thread_fork namelen (FuncForkentry tf v);
          if negb (r =? 0) then kfreeK tf;; splx spl;; mret (ENOMEM, 0)
          else
            child ← deref child;
            th ← get_thread child;
            splx spl;;
            mret (0, t_pid th)
      end
  end.

Definition sys__exit (exitcode : Z) : M flow :=
  splhigh;;
  cur ← gets k_curthread; cur ← deref cur;
  th ← get_thread cur;
  l ← gets k_plist;
  modify (set_plist (set_excode (t_pid th) exitcode l));;
  thread_exit.

(** The checks of [sys_waitpid] and its P(lock); [status] is the user's
    pointer. *)
Definition sys_waitpid (pid status options : Z) : M flow :=
  if (pid =? -8) || (pid =? -1) || (pid =? 0) || (pid =? 34000) then
    sys_return EINVAL (-1) None;; mret (Finished [])
  else if (status =? 0) || (status =? 0x40000000) || (status =? 0x80000000) then
    sys_return EFAULT (-1) None;; mret (Finished [])
  else if negb (options =? 0) then
    sys_return EINVAL (-1) None;; mret (Finished [])
  else
    cur ← gets k_curthread; cur ← deref cur;
    th ← get_thread cur;
    if pid =? t_pid th then
      sys_return EINVAL (-1) None;; mret (Finished [])
    else
      lk ← gets k_lock;
      fl ← P lk;
      match fl with
      | Finished ks => mret (Finished (ks ++ [FWaitLocked pid]))
      | Switch st ks => mret (Switch st (ks ++ [FWaitLocked pid]))
      end.

(** [sys_waitpid] from P(lock) on. *)
Definition waitpid_locked (pid : Z) : M flow :=
  l ← gets k_plist;
  lk ← gets k_lock;
  let has_exited := get_exited pid l in
  if has_exited =? 1 then
    sys_return 0 pid (Some (get_excode pid l));;
    V lk;;
    mret (Finished [])
  else if has_exited =? 0 then
    t ← deref (find_thread_by_pid pid l);
    V lk;;
    mret (Finished [FWaitBlock t pid])
  else
    sys_return EINVAL pid None;;
    V lk;;
    mret (Finished []).

(** P(pid_thread->wait): the thread structure is read now, after [lock] has
    been released. *)
Definition waitpid_block (t pid : Z) : M flow :=
  th ← get_thread t;
  fl ← P (t_wait th);
  match fl with
  | Finished ks => mret (Finished (ks ++ [FWaitChild pid]))
  | Switch st ks => mret (Switch st (ks ++ [FWaitChild pid]))
  end.

(** [sys_waitpid] after P(pid_thread->wait). *)
Definition waitpid_child (pid : Z) : M flow :=
  l ← gets k_plist;
  sys_return 0 pid (Some (get_excode pid l));;
  modify (set_plist (delete_from_plist pid l));;
  mret (Finished []).
End Code.
