(* ===== verification/ThreadSpec.v ===== *)
(** * A program logic for kernel code, and the queues of the thread system

    [wp s m Q σ]: run from state [σ], the code [m] does not loop for ever and,
    if [s] is true, does nothing undefined; it stops the machine through a failed assertion
    or panic, or it ends in a state and with a result that satisfy [Q].
    The second half specifies the operations of [Thread] on the sleepers,
    the zombies and the run queue. *)

From S2P Require Import Prelude KArray Queue Kstate Thread Synch.

Section Logic.
Context {H E : Type}.
Implicit Types σ : kstate H E.

(** [strict] tells whether undefined behaviour is excluded as well. *)
Definition wp {A} (strict : bool) (m : K H E A) (Q : A → kstate H E → Prop) σ : Prop :=
  match m σ with
  | Done (a, σ') => Q a σ'
  | Panic => True
  | Fault => strict = false
  | Diverge => False
  end.

Lemma wp_bind {A B} s (m : K H E A) (f : A → K H E B) Q σ :
  wp s m (λ a, wp s (f a) Q) σ → wp s (m ≫= f) Q σ.
Proof. unfold wp, mbind, K_bind. by destruct (m σ) as [[a σ']| | |]. Qed.

Lemma wp_mono {A} s (m : K H E A) (Q Q' : A → kstate H E → Prop) σ :
  wp s m Q σ → (∀ a σ', Q a σ' → Q' a σ') → wp s m Q' σ.
Proof. unfold wp. destruct (m σ) as [[a σ']| | |]; auto. Qed.

Lemma wp_weaken {A} s (m : K H E A) (Q : A → kstate H E → Prop) σ :
  wp true m Q σ → wp s m Q σ.
Proof. unfold wp. destruct (m σ) as [[a σ']| | |]; done. Qed.

Lemma wp_ret {A} s (a : A) Q σ : Q a σ → wp s (mret a) Q σ.
Proof. done. Qed.
Lemma wp_gets {A} s (f : kstate H E → A) Q σ : Q (f σ) σ → wp s (gets f) Q σ.
Proof. done. Qed.
Lemma wp_modify s f Q σ : Q tt (f σ) → wp s (modify f) Q σ.
Proof. done. Qed.
Lemma wp_assert s b Q σ : (b = true → Q tt σ) → wp s (assertK b) Q σ.
Proof. unfold wp, assertK, lift. destruct b; cbn; auto. Qed.
Lemma wp_lift {A} s (m : outcome A) a Q σ : m = Done a → Q a σ → wp s (lift m) Q σ.
Proof. by intros ->. Qed.
Lemma wp_panic {A} s Q σ : wp (A := A) s (lift Panic) Q σ.
Proof. done. Qed.
Lemma wp_deref {A} s (o : option A) a Q σ : o = Some a → Q a σ → wp s (deref o) Q σ.
Proof. by intros ->. Qed.
Lemma wp_get_thread s t th Q σ :
  k_threads σ !! t = Some th → Q th σ → wp s (get_thread t) Q σ.
Proof. intros Hth HQ. unfold wp. by rewrite (get_thread_run _ _ _ Hth). Qed.
Lemma wp_get_obj s a o Q σ : k_objs σ !! a = Some o → Q o σ → wp s (get_obj a) Q σ.
Proof. intros Ho HQ. unfold wp. by rewrite (get_obj_run _ _ _ Ho). Qed.
Lemma wp_get_sem s a n c Q σ :
  k_objs σ !! a = Some (Sem n c) → Q (n, c) σ → wp s (get_sem a) Q σ.
Proof. intros Ho HQ. unfold get_sem. apply wp_bind. by eapply wp_get_obj. Qed.
Lemma wp_get_lock s a n hl Q σ :
  k_objs σ !! a = Some (Lock n hl) → Q (n, hl) σ → wp s (get_lock a) Q σ.
Proof. intros Ho HQ. unfold get_lock. apply wp_bind. by eapply wp_get_obj. Qed.
Lemma wp_get_cv s a n Q σ :
  k_objs σ !! a = Some (Cv n) → Q n σ → wp s (get_cv a) Q σ.
Proof. intros Ho HQ. unfold get_cv. apply wp_bind. by eapply wp_get_obj. Qed.
Lemma wp_splx s n Q σ : Q (k_curspl σ) (set_curspl n σ) → wp s (splx n) Q σ.
Proof. done. Qed.
Lemma wp_done {A} s (m : K H E A) Q σ a σ' : wp s m Q σ → m σ = Done (a, σ') → Q a σ'.
Proof. unfold wp. intros Hwp Hm. by rewrite Hm in Hwp. Qed.
End Logic.

(** Look up a field or a table entry the hypotheses determine. *)
Ltac solve_lookup :=
  solve [ eassumption | reflexivity | apply lookup_insert_eq
        | cbn; eassumption | cbn; apply lookup_insert_eq ].

(** Symbolic execution: run the next instruction of the goal. *)
Ltac wp_step :=
  lazymatch goal with
  | |- wp _ (mbind _ _) _ _ => apply wp_bind; wp_step
  | |- wp _ (mret _) _ _ => apply wp_ret
  | |- wp _ (gets _) _ _ => apply wp_gets
  | |- wp _ (modify _) _ _ => apply wp_modify
  | |- wp _ (assertK _) _ _ =>
      apply wp_assert; let Hb := fresh "Hassert" in intros Hb
  | |- wp _ (splx _) _ _ => apply wp_splx
  | |- wp _ splhigh _ _ => apply wp_splx
  | |- wp _ spl0 _ _ => apply wp_splx
  | |- wp _ (lift Panic) _ _ => apply wp_panic
  | |- wp _ (put_thread _ _) _ _ => unfold put_thread at 1; wp_step
  | |- wp _ (put_obj _ _) _ _ => unfold put_obj at 1; wp_step
  | |- wp _ (modify_env _) _ _ => unfold modify_env at 1; wp_step
  | |- wp _ (deref _) _ _ => eapply wp_deref; [solve_lookup|]
  | |- wp _ (get_thread _) _ _ => eapply wp_get_thread; [solve_lookup|]
  | |- wp _ (get_obj _) _ _ => eapply wp_get_obj; [solve_lookup|]
  | |- wp _ (get_sem _) _ _ => eapply wp_get_sem; [solve_lookup|]
  | |- wp _ (get_lock _) _ _ => eapply wp_get_lock; [solve_lookup|]
  | |- wp _ (get_cv _) _ _ => eapply wp_get_cv; [solve_lookup|]
  | |- wp _ (nonnull (Some _)) _ _ => apply wp_ret
  | |- wp _ (lift _) _ _ => eapply wp_lift; [solve [eassumption]|]
  end.
Ltac wp_steps := repeat (wp_step; cbv beta iota).

(** ** Ownership of the blocks recorded in a table *)

Section TableBlocks.
Context {X : Type} (f : Z → X → list Z).

Definition table_blocks (m : gmap Z X) : list Z := map_to_list m ≫= λ '(k, x), f k x.

Lemma table_blocks_insert m k x :
  m !! k = None → table_blocks (<[k := x]> m) ≡ₚ f k x ++ table_blocks m.
Proof. intros Hk. unfold table_blocks. by rewrite map_to_list_insert by done. Qed.

Lemma table_blocks_empty : table_blocks ∅ = [].
Proof. unfold table_blocks. by rewrite map_to_list_empty. Qed.

Lemma table_blocks_delete m k x :
  m !! k = Some x → table_blocks m ≡ₚ f k x ++ table_blocks (delete k m).
Proof.
  intros Hk. rewrite <- (insert_delete_id m k x Hk) at 1.
  by rewrite table_blocks_insert by apply lookup_delete_eq.
Qed.

Lemma table_blocks_update m k x y :
  m !! k = Some x → f k y = f k x → table_blocks (<[k := y]> m) ≡ₚ table_blocks m.
Proof.
  intros Hk Hf. rewrite (table_blocks_delete m k x Hk), <- insert_delete_eq.
  by rewrite table_blocks_insert, Hf by apply lookup_delete_eq.
Qed.
End TableBlocks.

(** The blocks of a thread, with the trap frame a new user thread still has to
    load, and of a synchronization object. *)
Definition start_blocks (f : frame) : list Z :=
  match f with FStart (FuncForkentry tf _) => [tf] | _ => [] end.
Definition thread_blocks (t : Z) (th : thread) : list Z :=
  t :: t_name th :: match t_stack th with Some (p, _) => [p] | None => [] end
    ++ (t_frames th ≫= start_blocks).
Definition obj_blocks (a : Z) (o : kobj) : list Z :=
  [a; match o with Sem n _ | Lock n _ | Cv n => n end].

(** ** The three places of threads that are not running *)

(** Number of threads the proofs allow for: a stack is a page, and there
    are fewer than 2^17 pages of memory in KSEG0. *)
Definition thread_limit : Z := 2 ^ 20.

Definition sleeps_on (ts : gmap Z thread) (w : wchan) (t : Z) : Prop :=
  (ts !! t ≫= t_sleepaddr) = Some w.
#[global] Instance sleeps_on_dec ts w t : Decision (sleeps_on ts w t).
Proof. unfold sleeps_on. apply _. Defined.

Section Queues.
Context {H E : Type} `{KHeapLaws H} `{ThreadEnv E}.
Implicit Types (σ : kstate H E) (sl rq zb : list Z) (L : list Z).

(** The sleepers are [sl], the run queue holds [rq], the zombies are [zb];
    with the blocks [L] of the rest of the system. *)
Definition queues σ sl rq zb L : Prop :=
  ∃ a z q, k_sleepers σ = Some a ∧ k_zombies σ = Some z ∧ k_runqueue σ = Some q ∧
    array_rep a (Some <$> sl) ∧ array_rep z (Some <$> zb) ∧ q_rep q rq ∧
    heap_owns (k_heap σ) (array_blocks a ++ array_blocks z ++ queue_blocks q ++ L) ∧
    Z.of_nat (length sl + length rq) ≤ thread_limit ∧ Z.of_nat (length zb) ≤ thread_limit.

(** Nothing but these places and the heap changes. *)
Definition requeue a z q h σ : kstate H E :=
  set_sleepers a (set_zombies z (set_runqueue q (set_heap h σ))).
Definition moved σ σ' : Prop := ∃ a z q h, σ' = requeue a z q h σ.

Lemma moved_refl σ : moved σ σ.
Proof. exists (k_sleepers σ), (k_zombies σ), (k_runqueue σ), (k_heap σ). by destruct σ. Qed.
Lemma moved_trans σ1 σ2 σ3 : moved σ1 σ2 → moved σ2 σ3 → moved σ1 σ3.
Proof. intros (?&?&?&?&->) (a&z&q&h&->). by exists a, z, q, h. Qed.

Lemma moved_intro σ σ' :
  requeue (k_sleepers σ') (k_zombies σ') (k_runqueue σ') (k_heap σ') σ = σ' → moved σ σ'.
Proof. intros <-. by eexists _, _, _, _. Qed.

Lemma moved_same σ σ' :
  moved σ σ' → k_curthread σ' = k_curthread σ ∧ k_threads σ' = k_threads σ ∧ k_objs σ' = k_objs σ.
Proof. by intros (a & z & q & h & ->). Qed.

Lemma queues_perm σ sl rq zb L L' :
  L' ≡ₚ L → queues σ sl rq zb L → queues σ sl rq zb L'.
Proof. intros HL Hq. unfold queues in *. by setoid_rewrite HL. Qed.

Lemma make_runnable_spec s t Q σ sl rq zb L :
  queues σ sl rq zb L → Z.of_nat (length sl + length rq) < thread_limit →
  (∀ r σ', moved σ σ' → r = 0 ∧ queues σ' sl (rq ++ [t]) zb L ∨ r = ENOMEM ∧ queues σ' sl rq zb L →
           Q r σ') →
  wp s (make_runnable t) Q σ.
Proof.
  intros (a & z & q & Ha & Hz & Hq & Ra & Rz & Rq & Hown & Hl1 & Hl2) Hlt HQ.
  destruct (q_addtail_spec q rq t (k_heap σ) (array_blocks a ++ array_blocks z ++ L))
    as (r & q' & h' & Hrun & Hown' & _ & Hr).
  { done. } { revert Hown. apply heap_owns_perm. solve_Permutation. }
  { unfold queue_limit, thread_limit in *. lia. }
  unfold make_runnable. wp_steps. apply HQ.
  { apply moved_intro. reflexivity. }
  destruct Hr as [[-> ->]|[-> Rq']]; [right|left]; split; [done| |done|];
    eexists _, _, _; split_and!; try done; cbn; rewrite ?length_app; cbn; try lia.
  all: revert Hown'; apply heap_owns_perm; solve_Permutation.
Qed.
Lemma stash_sleepers_spec s t Q σ sl rq zb L :
  queues σ sl rq zb L → Z.of_nat (length sl + length rq) < thread_limit →
  (∀ r σ', moved σ σ' → r = 0 ∧ queues σ' (sl ++ [t]) rq zb L ∨ r = ENOMEM ∧ queues σ' sl rq zb L →
           Q r σ') →
  wp s (stash_array k_sleepers set_sleepers t) Q σ.
Proof.
  intros (a & z & q & Ha & Hz & Hq & Ra & Rz & Rq & Hown & Hl1 & Hl2) Hlt HQ.
  destruct (array_add_spec a (Some <$> sl) t (k_heap σ) (array_blocks z ++ queue_blocks q ++ L))
    as (r & a' & h' & Hrun & Hown' & _ & Hr & _); [done..| |].
  { rewrite length_fmap. unfold array_limit, thread_limit in *. lia. }
  unfold stash_array. wp_steps. apply HQ. { apply moved_intro. reflexivity. }
  destruct Hr as [[-> ->]|[-> Ra']]; [right|left]; split; [done| |done|];
    eexists _, _, _; split_and!; try done; cbn; rewrite ?length_app, ?fmap_app; cbn; try done; lia.
Qed.

Lemma stash_zombies_spec s t Q σ sl rq zb L :
  queues σ sl rq zb L → Z.of_nat (length zb) < thread_limit →
  (∀ r σ', moved σ σ' → r = 0 ∧ queues σ' sl rq (zb ++ [t]) L ∨ r = ENOMEM ∧ queues σ' sl rq zb L →
           Q r σ') →
  wp s (stash_array k_zombies set_zombies t) Q σ.
Proof.
  intros (a & z & q & Ha & Hz & Hq & Ra & Rz & Rq & Hown & Hl1 & Hl2) Hlt HQ.
  destruct (array_add_spec z (Some <$> zb) t (k_heap σ) (array_blocks a ++ queue_blocks q ++ L))
    as (r & z' & h' & Hrun & Hown' & _ & Hr & _); [done| |..].
  { revert Hown. apply heap_owns_perm. solve_Permutation. }
  { rewrite length_fmap. unfold array_limit, thread_limit in *. lia. }
  unfold stash_array. wp_steps. apply HQ. { apply moved_intro. reflexivity. }
  destruct Hr as [[-> ->]|[-> Ra']]; [right|left]; split; [done| |done|];
    eexists _, _, _; split_and!; try done; cbn; rewrite ?length_app, ?fmap_app; cbn; try done; try lia.
  all: revert Hown'; apply heap_owns_perm; solve_Permutation.
Qed.

(** The place [st] names gains the thread. *)
Definition stashed (st : threadstate) (t : Z) sl rq zb : list Z * list Z * list Z :=
  match st with
  | S_READY => (sl, rq ++ [t], zb)
  | S_SLEEP => (sl ++ [t], rq, zb)
  | S_ZOMB => (sl, rq, zb ++ [t])
  | S_RUN => (sl, rq, zb)
  end.

Lemma stash_spec s st t Q σ sl rq zb L :
  queues σ sl rq zb L → Z.of_nat (length sl + length rq) < thread_limit →
  (st = S_ZOMB → Z.of_nat (length zb) < thread_limit) →
  (∀ r σ', moved σ σ' →
     (r = 0 → let '(sl, rq, zb) := stashed st t sl rq zb in queues σ' sl rq zb L) → Q r σ') →
  wp s (stash st t) Q σ.
Proof.
  intros Hq Hl Hz HQ. destruct st; cbn [stash stashed] in *.
  - apply wp_panic.
  - eapply make_runnable_spec; [done|lia|]. intros r σ' Hm Hr. apply HQ; [done|naive_solver].
  - eapply stash_sleepers_spec; [done|lia|]. intros r σ' Hm Hr. apply HQ; [done|naive_solver].
  - eapply stash_zombies_spec; [done|auto|]. intros r σ' Hm Hr. apply HQ; [done|naive_solver].
Qed.

(** Taking the sleeper at an index out of the table. *)
Lemma sleepers_get σ sl rq zb L i t :
  queues σ sl rq zb L → sl !! i = Some t →
  ∃ a, k_sleepers σ = Some a ∧ array_getguy a (Z.of_nat i) = Done t ∧
    ∃ a', array_remove a (Z.of_nat i) = Done a' ∧
      queues (set_sleepers (Some a') σ) (delete i sl) rq zb L.
Proof.
  intros (a & z & q & Ha & Hz & Hq & Ra & Rz & Rq & Hown & Hl1 & Hl2) Hi.
  pose proof (lookup_lt_Some _ _ _ Hi) as Hlt.
  assert (Hi' : (Some <$> sl) !! i = Some (Some t)) by by rewrite list_lookup_fmap, Hi.
  exists a. split_and!; [done|by eapply array_getguy_spec|].
  destruct (array_remove_spec a (Some <$> sl) i Ra) as (a' & Hrem & Ra' & Hb & _).
  { by rewrite length_fmap. }
  exists a'. split; [done|]. eexists _, _, _. split_and!; try done; cbn.
  - by rewrite list_fmap_delete.
  - by rewrite Hb.
  - rewrite length_delete by done. lia.
Qed.

Lemma queues_num σ sl rq zb L a :
  queues σ sl rq zb L → k_sleepers σ = Some a → array_getnum a = Z.of_nat (length sl).
Proof.
  intros (a' & z & q & Ha & _ & _ & Ra & _) Ha'. simplify_eq. unfold array_getnum.
  by rewrite (ar_num _ _ Ra), length_fmap.
Qed.
(** The loop of [thread_wakeup]: [p] has been passed over, [l] is left. *)
Lemma wakeup_from_spec s w l : ∀ fuel Q σ p rq zb L,
  (length l ≤ fuel)%nat → queues σ (p ++ l) rq zb L →
  (∀ t, t ∈ l → is_Some (k_threads σ !! t)) →
  (∀ σ', moved σ σ' →
     queues σ' (p ++ filter (λ t, ¬ sleeps_on (k_threads σ) w t) l)
               (rq ++ filter (sleeps_on (k_threads σ) w) l) zb L → Q tt σ') →
  wp s (wakeup_from fuel w (Z.of_nat (length p))) Q σ.
Proof.
  induction l as [|t l IH]; intros fuel Q σ p rq zb L Hf Hqs Hts HQ.
  - pose proof Hqs as (a & _ & _ & Ha & _). pose proof (queues_num _ _ _ _ _ _ Hqs Ha) as Hn.
    assert (E0 : (Z.of_nat (length p) <? array_getnum a) = false).
    { rewrite Hn, app_nil_r. lia. }
    destruct fuel; cbn [wakeup_from]; wp_steps; rewrite E0; wp_steps; apply HQ;
      rewrite ?filter_nil, ?app_nil_r in *; auto using moved_refl.
  - destruct fuel as [|fuel]; [cbn in Hf; lia|]. cbn [length] in Hf.
    destruct (Hts t) as [th Hth]; [set_solver|].
    destruct (sleepers_get σ (p ++ t :: l) rq zb L (length p) t Hqs) as
      (a & Ha & Hget & a' & Hrem & Hqs'); [by rewrite list_lookup_middle|].
    rewrite delete_middle in Hqs'.
    assert (E0 : (Z.of_nat (length p) <? array_getnum a) = true).
    { rewrite (queues_num _ _ _ _ _ _ Hqs Ha), length_app. cbn [length]. apply Z.ltb_lt. lia. }
    assert (Hdec : sleeps_on (k_threads σ) w t ↔ t_sleepaddr th = Some w).
    { unfold sleeps_on. by rewrite Hth. }
    rewrite 2!filter_cons in HQ. cbn [wakeup_from]. wp_steps. rewrite E0. wp_steps.
    case_bool_decide as Hw.
    + rewrite decide_False in HQ by tauto. rewrite decide_True in HQ by tauto.
      wp_steps. apply wp_bind. eapply make_runnable_spec; [exact Hqs'| |].
      { destruct Hqs as (? & ? & ? & _ & _ & _ & _ & _ & _ & _ & Hl & _).
        rewrite length_app in *. cbn in *. lia. }
      intros r σ1 Hm Hr. wp_steps. destruct Hr as [[-> Hr]|[-> _]]; [|done].
      pose proof Hm as (?&?&?&?&->). eapply IH; [lia|exact Hr|set_solver|].
      intros σ2 Hm2 Hq2. apply HQ.
      * eapply moved_trans; [|done]. eapply moved_trans; [|done]. by apply moved_intro.
      * cbn in Hq2. by rewrite <- app_assoc in Hq2.
    + rewrite decide_True in HQ by tauto. rewrite decide_False in HQ by tauto.
      replace (Z.of_nat (length p) + 1) with (Z.of_nat (length (p ++ [t])))
        by (rewrite length_app; cbn; lia).
      eapply IH; [lia| |set_solver|]; [by rewrite <- app_assoc|].
      intros σ2 Hm2 Hq2. apply HQ; [done|]. by rewrite <- app_assoc in Hq2.
Qed.

(** [thread_wakeup] moves every thread that sleeps on [w] to the end of the
    run queue, in the order in which they went to sleep. *)
Lemma thread_wakeup_spec s w Q σ sl rq zb L :
  queues σ sl rq zb L → (∀ t, t ∈ sl → is_Some (k_threads σ !! t)) →
  (∀ σ', moved σ σ' →
     queues σ' (filter (λ t, ¬ sleeps_on (k_threads σ) w t) sl)
               (rq ++ filter (sleeps_on (k_threads σ) w) sl) zb L → Q tt σ') →
  wp s (thread_wakeup w) Q σ.
Proof.
  intros Hqs Hts HQ. pose proof Hqs as (a & _ & _ & Ha & _). unfold thread_wakeup. wp_steps.
  rewrite (queues_num _ _ _ _ _ _ Hqs Ha), Nat2Z.id.
  by eapply (wakeup_from_spec s w sl _ _ _ []).
Qed.

Lemma wakeup_one_from_spec s w l : ∀ Q σ p rq zb L,
  queues σ (p ++ l) rq zb L → (∀ t, t ∈ l → is_Some (k_threads σ !! t)) →
  ((∀ t, t ∈ l → ¬ sleeps_on (k_threads σ) w t) → Q tt σ) →
  (∀ l1 t l2 σ', l = l1 ++ t :: l2 → sleeps_on (k_threads σ) w t →
     (∀ u, u ∈ l1 → ¬ sleeps_on (k_threads σ) w u) → moved σ σ' →
     queues σ' (p ++ l1 ++ l2) (rq ++ [t]) zb L → Q tt σ') →
  wp s (wakeup_one_from (length l) w (Z.of_nat (length p))) Q σ.
Proof.
  induction l as [|t l IH]; intros Q σ p rq zb L Hqs Hts HQ1 HQ2; cbn [length wakeup_one_from].
  { wp_steps. apply HQ1. set_solver. }
  destruct (Hts t) as [th Hth]; [set_solver|].
  destruct (sleepers_get σ (p ++ t :: l) rq zb L (length p) t Hqs) as
    (a & Ha & Hget & a' & Hrem & Hqs'); [by rewrite list_lookup_middle|].
  rewrite delete_middle in Hqs'.
  assert (Hdec : sleeps_on (k_threads σ) w t ↔ t_sleepaddr th = Some w).
  { unfold sleeps_on. by rewrite Hth. }
  wp_steps. case_bool_decide as Hw.
  - wp_steps. apply wp_bind. eapply make_runnable_spec; [exact Hqs'| |].
    { destruct Hqs as (? & ? & ? & _ & _ & _ & _ & _ & _ & _ & Hl & _).
      rewrite length_app in *. cbn in *. lia. }
    intros r σ1 Hm Hr. wp_steps. destruct Hr as [[-> Hr]|[-> _]]; [|done].
    eapply (HQ2 [] t l); [done|tauto|set_solver| |done].
    eapply moved_trans; [|done]. by apply moved_intro.
  - replace (Z.of_nat (length p) + 1) with (Z.of_nat (length (p ++ [t])))
      by (rewrite length_app; cbn; lia).
    eapply IH; [by rewrite <- app_assoc|set_solver| |].
    + intros Hl. apply HQ1. intros u [->|Hu]%elem_of_cons; naive_solver.
    + intros l1 u l2 σ' -> Hu Hl1 Hm Hq. eapply (HQ2 (t :: l1) u l2); [done|done| |done|].
      * intros v [->|Hv]%elem_of_cons; naive_solver.
      * by rewrite <- app_assoc in Hq.
Qed.

(** [thread_wakeup_one] moves the thread that has been asleep on [w] for the
    longest time. *)
Lemma thread_wakeup_one_spec s w Q σ sl rq zb L :
  queues σ sl rq zb L → (∀ t, t ∈ sl → is_Some (k_threads σ !! t)) →
  ((∀ t, t ∈ sl → ¬ sleeps_on (k_threads σ) w t) → Q tt σ) →
  (∀ l1 t l2 σ', sl = l1 ++ t :: l2 → sleeps_on (k_threads σ) w t →
     (∀ u, u ∈ l1 → ¬ sleeps_on (k_threads σ) w u) → moved σ σ' →
     queues σ' (l1 ++ l2) (rq ++ [t]) zb L → Q tt σ') →
  wp s (thread_wakeup_one w) Q σ.
Proof.
  intros Hqs Hts HQ1 HQ2. pose proof Hqs as (a & _ & _ & Ha & _).
  unfold thread_wakeup_one. wp_steps. rewrite (queues_num _ _ _ _ _ _ Hqs Ha), Nat2Z.id.
  by eapply (wakeup_one_from_spec s w sl _ _ []).
Qed.
(** ** The heap, dead threads *)

Lemma kfreeK_spec s b Q σ sl rq zb L :
  queues σ sl rq zb (b :: L) →
  (∀ h, queues (set_heap h σ) sl rq zb L → Q tt (set_heap h σ)) →
  wp s (kfreeK b) Q σ.
Proof.
  intros (a & z & q & Ha & Hz & Hq & Ra & Rz & Rq & Hown & Hl1 & Hl2) HQ.
  destruct (owns_free (k_heap σ) b (array_blocks a ++ array_blocks z ++ queue_blocks q ++ L))
    as (h' & Hrun & Hown').
  { revert Hown. apply heap_owns_perm. solve_Permutation. }
  unfold kfreeK. wp_steps. apply HQ. by exists a, z, q.
Qed.

Lemma kmallocK_spec s n Q σ sl rq zb L :
  queues σ sl rq zb L → 0 ≤ n ≤ 2 ^ 31 →
  (∀ r h, queues (set_heap h σ) sl rq zb (option_list r ++ L) → r ≠ Some 0 →
          Q r (set_heap h σ)) →
  wp s (kmallocK n) Q σ.
Proof.
  intros (a & z & q & Ha & Hz & Hq & Ra & Rz & Rq & Hown & Hl1 & Hl2) Hn HQ.
  destruct (owns_alloc (k_heap σ) (array_blocks a ++ array_blocks z ++ queue_blocks q ++ L) n)
    as (r & h' & Hrun & Hr); [done..|].
  unfold kmallocK. wp_steps. apply HQ.
  - exists a, z, q. split_and!; try done. cbn. destruct r as [b|]; [|done].
    destruct Hr as [_ Hr]. revert Hr. apply heap_owns_perm. cbn. solve_Permutation.
  - naive_solver.
Qed.

Lemma queues_forget σ sl rq zb L L' : L' ⊆+ L → queues σ sl rq zb L → queues σ sl rq zb L'.
Proof.
  intros HL (a & z & q & Ha & Hz & Hq & Ra & Rz & Rq & Hown & Hl). exists a, z, q.
  split_and!; try done; [|naive_solver..]. revert Hown. apply owns_sub.
  by do 3 apply submseteq_skips_l.
Qed.

(** [thread_destroy] gives back the thread's blocks. *)
Lemma thread_destroy_spec s t th Q σ sl rq zb L :
  k_threads σ !! t = Some th →
  queues σ sl rq zb (table_blocks thread_blocks (k_threads σ) ++ L) →
  (∀ h, let σ' := set_threads (delete t (k_threads σ)) (set_heap h σ) in
        queues σ' sl rq zb (table_blocks thread_blocks (k_threads σ') ++ L) → Q tt σ') →
  wp s (thread_destroy t) Q σ.
Proof.
  intros Hth Hqs HQ. unfold thread_destroy. wp_steps.
  eapply queues_perm in Hqs; [|by rewrite (table_blocks_delete _ _ _ _ Hth)].
  set (D := table_blocks thread_blocks (delete t (k_threads σ)) ++ L).
  assert (Hfree : ∀ h, queues (set_heap h σ) sl rq zb (t_name th :: t :: D) →
    wp s (kfreeK (t_name th);; kfreeK t;; ts ← gets k_threads; modify (set_threads (delete t ts)))
      Q (set_heap h σ)).
  { intros h Hq1. apply wp_bind. eapply kfreeK_spec; [done|]. intros h2 Hq2.
    apply wp_bind. eapply kfreeK_spec; [done|]. intros h3 Hq3. wp_steps. by apply HQ. }
  apply wp_bind. destruct (t_stack th) as [[p bs]|] eqn:Hst.
  - eapply (kfreeK_spec s p _ _ _ _ _ (t_name th :: t :: D)); [|intros h1 Hq1; exact (Hfree h1 Hq1)].
    revert Hqs. apply queues_forget. unfold thread_blocks, D. rewrite Hst. cbn.
    rewrite <- !app_assoc. solve_submseteq.
  - wp_steps. specialize (Hfree (k_heap σ)).
    replace (set_heap (k_heap σ) σ) with σ in Hfree by by destruct σ. apply Hfree.
    revert Hqs. apply queues_forget. unfold thread_blocks, D. rewrite Hst. cbn.
    rewrite <- !app_assoc. solve_submseteq.
Qed.
(** [ts'] is [ts] without the threads of [l]. *)
Definition without (l : list Z) (ts ts' : gmap Z thread) : Prop :=
  ∀ u, ts' !! u = if decide (u ∈ l) then None else ts !! u.

Lemma destroy_from_spec s l : ∀ Q σ p sl rq L,
  NoDup l → (∀ t, t ∈ l → is_Some (k_threads σ !! t)) →
  queues σ sl rq (p ++ l) (table_blocks thread_blocks (k_threads σ) ++ L) →
  (∀ ts' σ', without l (k_threads σ) ts' → moved (set_threads ts' σ) σ' →
     queues σ' sl rq (p ++ l) (table_blocks thread_blocks (k_threads σ') ++ L) → Q tt σ') →
  wp s (destroy_from (length l) (Z.of_nat (length p))) Q σ.
Proof.
  induction l as [|t l IH]; intros Q σ p sl rq L Hnd Hts Hqs HQ; cbn [length destroy_from].
  { wp_steps. apply (HQ (k_threads σ)); [done| |done]. destruct σ. by apply moved_intro. }
  apply list.NoDup_cons in Hnd as [Ht Hnd]. destruct (Hts t) as [th Hth]; [set_solver|].
  pose proof Hqs as (a & z & q & Ha & Hz & Hq & Ra & Rz & Rq & Hown & Hl1 & Hl2).
  assert (Hget : array_getguy z (Z.of_nat (length p)) = Done t).
  { eapply array_getguy_spec; [done|]. by rewrite list_lookup_fmap, list_lookup_middle. }
  wp_steps. apply wp_bind. eapply thread_destroy_spec; [done..|]. intros h σ1 Hq1.
  replace (Z.of_nat (length p) + 1) with (Z.of_nat (length (p ++ [t])))
    by (rewrite length_app; cbn; lia).
  eapply IH; [done| |by rewrite <- app_assoc|].
  { intros u Hu. cbn. rewrite lookup_delete_ne by (by intros ->). apply Hts. set_solver. }
  intros ts' σ' Hw Hm Hq'. rewrite <- app_assoc in Hq'. apply (HQ ts' σ'); [|destruct Hm as (?&?&?&?&->)|done].
  - intros u. rewrite (Hw u). cbn. destruct (decide (u = t)) as [->|Hne].
    + rewrite decide_False, decide_True by set_solver. apply lookup_delete_eq.
    + rewrite lookup_delete_ne by done. repeat case_decide; set_solver.
  - by apply moved_intro.
Qed.

(** [exorcise] destroys exactly the zombies. *)
Lemma exorcise_spec s Q σ sl rq zb L :
  NoDup zb → (∀ t, t ∈ zb → is_Some (k_threads σ !! t)) →
  queues σ sl rq zb (table_blocks thread_blocks (k_threads σ) ++ L) →
  (∀ ts' σ', without zb (k_threads σ) ts' → moved (set_threads ts' σ) σ' →
     queues σ' sl rq [] (table_blocks thread_blocks (k_threads σ') ++ L) → Q tt σ') →
  wp s exorcise Q σ.
Proof.
  intros Hnd Hts Hqs HQ. pose proof Hqs as (a & z & q & Ha & Hz & Hq & _ & Rz & _).
  unfold exorcise. wp_steps. unfold array_getnum. rewrite (ar_num _ _ Rz), length_fmap, Nat2Z.id.
  apply wp_bind. eapply (destroy_from_spec s zb _ _ []); [done..|]. intros ts' σ1 Hw Hm Hq1.
  destruct Hm as (a1 & z1 & q1 & h1 & ->).
  destruct Hq1 as (a1' & z1' & q1' & Ha1 & Hz1 & Hq1 & Ra1 & Rz1 & Rq1 & Hown & Hl1 & Hl2).
  cbn in Ha1, Hz1, Hq1. simplify_eq.
  destruct (array_setsize_0 z1' (Some <$> zb) h1
    (array_blocks a1' ++ queue_blocks q1' ++ table_blocks thread_blocks ts' ++ L))
    as (h2 & Hrun & Hown2 & Rz2); [done| |].
  { revert Hown. apply heap_owns_perm. cbn. solve_Permutation. }
  wp_steps. eapply (HQ ts'); [done|by apply moved_intro|].
  eexists _, _, _. split_and!; try done. cbn. revert Hown2. apply heap_owns_perm.
  unfold array_blocks at 2. cbn. solve_Permutation.
Qed.

(** [thread_hassleepers] decides whether some thread sleeps on [w]. *)
Lemma hassleepers_from_spec s w l : ∀ Q σ p rq zb L,
  queues σ (p ++ l) rq zb L → (∀ t, t ∈ l → is_Some (k_threads σ !! t)) →
  (∀ b : bool, (b = true ↔ Exists (sleeps_on (k_threads σ) w) l) → Q b σ) →
  wp s (hassleepers_from (length l) w (Z.of_nat (length p))) Q σ.
Proof.
  induction l as [|t l IH]; intros Q σ p rq zb L Hqs Hts HQ; cbn [length hassleepers_from].
  { wp_steps. apply HQ. rewrite Exists_nil. done. }
  destruct (Hts t) as [th Hth]; [set_solver|].
  destruct (sleepers_get σ (p ++ t :: l) rq zb L (length p) t Hqs) as
    (a & Ha & Hget & _); [by rewrite list_lookup_middle|].
  assert (Hdec : sleeps_on (k_threads σ) w t ↔ t_sleepaddr th = Some w).
  { unfold sleeps_on. by rewrite Hth. }
  wp_steps. case_bool_decide as Hw.
  - wp_steps. apply HQ. rewrite Exists_cons. tauto.
  - replace (Z.of_nat (length p) + 1) with (Z.of_nat (length (p ++ [t])))
      by (rewrite length_app; cbn; lia).
    eapply IH; [by rewrite <- app_assoc|set_solver|].
    intros b Hb. apply HQ. rewrite Exists_cons. tauto.
Qed.

Lemma thread_hassleepers_spec s w Q σ sl rq zb L :
  queues σ sl rq zb L → (∀ t, t ∈ sl → is_Some (k_threads σ !! t)) →
  ((∃ t, t ∈ sl ∧ sleeps_on (k_threads σ) w t) → Q 1 (set_curspl SPL_HIGH σ)) →
  ((∀ t, t ∈ sl → ¬ sleeps_on (k_threads σ) w t) → Q 0 σ) →
  wp s (thread_hassleepers w) Q σ.
Proof.
  intros Hqs Hts HQ1 HQ2. pose proof Hqs as (a & _ & _ & Ha & _).
  unfold thread_hassleepers. wp_steps. apply wp_bind.
  rewrite (queues_num _ _ _ _ _ _ Hqs Ha), Nat2Z.id.
  eapply (hassleepers_from_spec s w sl _ _ []); [exact Hqs|done|].
  intros b. rewrite list.Exists_exists. destruct b; intros Hb; wp_steps.
  - apply HQ1. by apply Hb.
  - replace (set_curspl _ _) with σ by by destruct σ. apply HQ2. intros t Ht Hs.
    discriminate (proj2 Hb). eauto.
Qed.
End Queues.
