(* ===== verification/System.v ===== *)
(** * The thread system as a transition system

    What the processor does is cut into [event]s: a call of a kernel
    function by the running thread, the next frame of the running thread,
    the scheduler's choice of the next thread, and the interrupts of the
    timer and of a device, which happen while the interrupt level is 0 or
    while the scheduler idles (kern/arch/mips/mips/trap.c, interrupt.c).

    [enabled] lists what callers have to respect: pointers refer to live
    objects of the right kind, an object is destroyed only when no thread
    is inside one of its operations, and the number of threads stays below
    what memory has room for. *)

From S2P Require Import Prelude KArray Queue Kstate Thread Synch Process ThreadSpec.

(** Kernel functions a thread can call.  The lengths are those of names. *)
Inductive kcall :=
| CYield
| CSplx (newspl : Z)
| CSemCreate (namelen count : Z) | CSemDestroy (sem : Z) | CP (sem : Z) | CV (sem : Z)
| CLockCreate (namelen : Z) | CLockDestroy (lock : Z) | CAcquire (lock : Z) | CRelease (lock : Z)
| CDoIHold (lock : Z)
| CCvCreate (namelen : Z) | CCvDestroy (cv : Z) | CCvWait (cv lock : Z)
| CSignal (cv lock : Z) | CBroadcast (cv lock : Z)
| CClocksleep (num_secs : Z)
| CFork (namelen : Z) | CExit
| CSysFork (namelen : Z) | CSysExit (code : Z) | CWaitpid (pid status options : Z).

(** The device of [EvDevice] does V on its semaphore, as the disk and console
    drivers do. *)
Inductive event :=
| EvCall (c : kcall)
| EvContinue
| EvPick
| EvTimer
| EvDevice (sem : Z).

#[global] Instance kcall_eq_dec : EqDecision kcall.
Proof. solve_decision. Defined.
#[global] Instance event_eq_dec : EqDecision event.
Proof. solve_decision. Defined.

(** The kind of the object at an address. *)
Inductive okind := KSem | KLock | KCv.
Definition kind_of (o : kobj) : okind :=
  match o with Sem _ _ => KSem | Lock _ _ => KLock | Cv _ => KCv end.
Definition kind (objs : gmap Z kobj) (a : Z) : option okind := kind_of <$> objs !! a.

Section System.
Context {H E : Type} `{KHeap H} `{ThreadEnv E}.
Abbreviation M := (K H E).
Implicit Types σ : kstate H E.

(** Code that returns without switching. *)
Definition returning {A} (m : M A) : M flow := m;; mret (Finished []).

Definition do_call (c : kcall) : M flow :=
  match c with
  | CYield => thread_yield
  | CSplx n => returning (splx n)
  | CSemCreate len n => returning (sem_create len n)
  | CSemDestroy a => returning (sem_destroy (Some a))
  | CP a => P (Some a)
  | CV a => returning (V (Some a))
  | CLockCreate len => returning (lock_create len)
  | CLockDestroy a => returning (lock_destroy (Some a))
  | CAcquire a => lock_acquire (Some a)
  | CRelease a => returning (lock_release (Some a))
  | CDoIHold a => returning (lock_do_i_hold (Some a))
  | CCvCreate len => returning (cv_create len)
  | CCvDestroy a => returning (cv_destroy (Some a))
  | CCvWait c l => cv_wait (Some c) (Some l)
  | CSignal c l => returning (cv_signal (Some c) (Some l))
  | CBroadcast c l => returning (cv_broadcast (Some c) (Some l))
  | CClocksleep n => clocksleep n
  | CFork len => returning (thread_fork len FuncKernel)
  | CExit => thread_exit
  | CSysFork len => returning (sys_fork len)
  | CSysExit code => sys__exit code
  | CWaitpid pid status options => sys_waitpid pid status options
  end.

(** mips_interrupt and mips_trap, after the device's handler. *)
Definition interrupt_return (old_in savespl : Z) : M unit :=
  modify (set_in_interrupt old_in);;
  splhigh;;
  modify (set_curspl savespl).

(** What a thread does when it runs again. *)
Definition resume_frame (f : frame) : M flow :=
  match f with
  | FYield spl | FSplx spl => returning (splx spl)
  | FP a spl => sleep_return;; P_loop a spl
  | FAcquire a spl => sleep_return;; acquire_loop a spl
  | FCvWait _ l spl => sleep_return;; cv_wait_rest l spl
  | FClocksleep n spl => sleep_return;; clocksleep_loop (n - 1) spl
  | FInterrupt old_in savespl => returning (interrupt_return old_in savespl)
  | FStart func => mi_threadstart func
  | FExit => exit_rest
  | FDead => lift Panic
  | FWaitLocked pid => waitpid_locked pid
  | FWaitBlock t pid => waitpid_block t pid
  | FWaitChild pid => waitpid_child pid
  end.

(** What is left to do goes on top of the frames that are already there. *)
Definition apply_flow (fl : flow) : M unit :=
  rest ← gets k_curframes;
  match fl with
  | Finished ks => modify (set_curframes (ks ++ rest))
  | Switch st ks => switch_away st (ks ++ rest)
  end.

(** An interrupt: mips_trap saves the level and raises it, mips_interrupt
    runs the handler.  If there is no current thread the interrupt was taken
    in [cpu_idle] and returns there. *)
Definition interrupt (handler : M flow) : M unit :=
  savespl ← gets k_curspl;
  modify (set_curspl SPL_HIGH);;
  old_in ← gets k_in_interrupt;
  modify (set_in_interrupt 1);;
  fl ← handler;
  cur ← gets k_curthread;
  match cur, fl with
  | None, Finished [] => interrupt_return old_in savespl
  | None, _ => faultK
  | Some _, Finished ks => apply_flow (Finished (ks ++ [FInterrupt old_in savespl]))
  | Some _, Switch st ks => apply_flow (Switch st (ks ++ [FInterrupt old_in savespl]))
  end.

Definition run_event (e : event) : M unit :=
  match e with
  | EvCall c => fl ← do_call c; apply_flow fl
  | EvContinue =>
      fs ← gets k_curframes;
      match fs with
      | [] => faultK
      | f :: rest =>
          modify (set_curframes rest);;
          fl ← resume_frame f;
          apply_flow fl
      end
  | EvPick => pick
  | EvTimer => interrupt hardclock
  | EvDevice a => interrupt (returning (V (Some a)))
  end.

(** ** What callers respect *)

Definition is_sem σ (a : Z) : Prop := kind (k_objs σ) a = Some KSem.
Definition is_lock σ (a : Z) : Prop := kind (k_objs σ) a = Some KLock.
Definition is_cv σ (a : Z) : Prop := kind (k_objs σ) a = Some KCv.

Definition frame_refs (f : frame) : list Z :=
  match f with
  | FP a _ | FAcquire a _ => [a]
  | FCvWait c l _ => [c; l]
  | _ => []
  end.

(** No thread is inside an operation on [a], and the kernel itself does not
    use it. *)
Definition unused σ (a : Z) : Prop :=
  (∀ t th, k_threads σ !! t = Some th → t_wait th ≠ Some a ∧ (a ∉ t_frames th ≫= frame_refs)) ∧
  (a ∉ k_curframes σ ≫= frame_refs) ∧ k_lock σ ≠ Some a.

Definition call_ok σ (c : kcall) : Prop :=
  match c with
  | CYield | CExit | CClocksleep _ | CWaitpid _ _ _ | CSysExit _ => True
  | CSplx n => 0 ≤ n ≤ SPL_HIGH
  | CSemCreate len n => 0 ≤ len < 2 ^ 16 ∧ n < 2 ^ 31
  | CLockCreate len | CCvCreate len => 0 ≤ len < 2 ^ 16
  | CP a | CV a => is_sem σ a
  | CAcquire a | CRelease a | CDoIHold a => is_lock σ a
  | CCvWait c l | CSignal c l | CBroadcast c l => is_cv σ c ∧ is_lock σ l
  | CSemDestroy a => is_sem σ a ∧ unused σ a
  | CLockDestroy a => is_lock σ a ∧ unused σ a
  | CCvDestroy a => is_cv σ a ∧ unused σ a
  | CFork len | CSysFork len => 0 ≤ len < 2 ^ 16 ∧ k_numthreads σ < thread_limit
  end.

Definition num_zombies σ : Z :=
  match k_zombies σ with Some z => array_getnum z | None => 0 end.

Definition interruptible σ : Prop :=
  match k_curthread σ with
  | Some _ => k_curspl σ = 0
  | None => ∃ q, k_runqueue σ = Some q ∧ q_empty q = true
  end.

Definition enabled (e : event) σ : Prop :=
  match e with
  | EvCall c => k_curthread σ ≠ None ∧ k_curframes σ = [] ∧ call_ok σ c ∧ num_zombies σ < thread_limit
  | EvContinue => k_curthread σ ≠ None ∧ k_curframes σ ≠ [] ∧ num_zombies σ < thread_limit
  | EvPick => k_curthread σ = None ∧ ∃ q, k_runqueue σ = Some q ∧ q_empty q = false
  | EvTimer => interruptible σ
  | EvDevice a => interruptible σ ∧ is_sem σ a
  end.

Definition step (e : event) σ σ' : Prop := enabled e σ ∧ run_event e σ = Done (tt, σ').

Inductive steps : list event → kstate H E → kstate H E → Prop :=
| steps_nil σ : steps [] σ σ
| steps_cons e es σ σ' σ'' : step e σ σ' → steps es σ' σ'' → steps (e :: es) σ σ''.
End System.
