(* ===== verification/SystemInv.v ===== *)
(** * The invariant of the thread system

    [inv] holds between any two instructions of kernel code.  Its
    parameters say what the code in progress still owes: the object [bad]
    whose waiters have not been dealt with yet, the blocks [X] it has
    allocated, the threads [N] it is creating, and the difference [d]
    between the number of threads and [k_numthreads].  [σ0] is the state in
    which the current event began. *)

From S2P Require Import Prelude KArray Queue Kstate Thread Synch Process ThreadSpec System.

Create HintDb quiet.

(** ** The invariant *)

(** The frame of a thread that sleeps on [w]. *)
Definition waits_on (f : frame) (w : wchan) : Prop :=
  match f with
  | FP a _ | FAcquire a _ | FCvWait a _ _ => w = WObj a
  | FClocksleep _ _ => w = WLbolt
  | _ => False
  end.

Definition frame_ok (objs : gmap Z kobj) (f : frame) : Prop :=
  match f with
  | FP a _ => kind objs a = Some KSem
  | FAcquire a _ => kind objs a = Some KLock
  | FCvWait c l _ => kind objs c = Some KCv ∧ kind objs l = Some KLock
  | _ => True
  end.

Definition not_acquire (f : frame) : Prop := match f with FAcquire _ _ => False | _ => True end.

(** [FAcquire] is always the innermost frame. *)
Definition frames_ok (objs : gmap Z kobj) (fs : list frame) : Prop :=
  Forall (frame_ok objs) fs ∧ Forall not_acquire (tail fs).

Definition frames_in (ts : gmap Z thread) (t : Z) : list frame :=
  from_option t_frames [] (ts !! t).
Definition acquiring (a : Z) (fs : list frame) : Prop := ∃ spl rest, fs = FAcquire a spl :: rest.

(** No wakeup is lost: nobody sleeps on a semaphore that can be taken, and
    while somebody sleeps on a free lock a thread that will try for the lock
    is on the run queue. *)
Definition obj_ok (ts : gmap Z thread) (sl rq : list Z) (a : Z) (o : kobj) : Prop :=
  match o with
  | Sem _ c => 0 < c → ∀ t, t ∈ sl → ¬ sleeps_on ts (WObj a) t
  | Lock _ None => ∀ t, t ∈ sl → sleeps_on ts (WObj a) t →
                   ∃ u, u ∈ rq ∧ acquiring a (frames_in ts u)
  | _ => True
  end.

Record wf (bad : option Z) (N : list Z) (cur : option Z) (ts : gmap Z thread)
    (objs : gmap Z kobj) (lk : option Z) (cfs : list frame) (sl rq zb : list Z) : Prop := {
  wf_nodup : NoDup (option_list cur ++ sl ++ rq ++ zb ++ N);
  wf_dom t : t ∈ option_list cur ++ sl ++ rq ++ zb ++ N ↔ is_Some (ts !! t);
  wf_asleep t : t ∈ sl → ∃ th w f fs, ts !! t = Some th ∧ t_sleepaddr th = Some w ∧
    t_frames th = f :: fs ∧ waits_on f w;
  wf_frames t th : ts !! t = Some th → frames_ok objs (t_frames th);
  wf_cur : Forall (frame_ok objs) cfs ∧ Forall not_acquire cfs;
  wf_idle : cur = None → cfs = [];
  wf_run t th : cur = Some t → ts !! t = Some th → t_frames th = [];
  wf_objs a o : objs !! a = Some o → bad ≠ Some a → obj_ok ts sl rq a o;
  wf_sem a n c : objs !! a = Some (Sem n c) → 0 ≤ c < 2 ^ 31;
  wf_wait t th a : ts !! t = Some th → t_wait th = Some a → kind objs a = Some KSem;
  wf_lock a : lk = Some a → kind objs a = Some KSem;
}.

(** What has happened since the event began in a state with run queue [rq0],
    objects [objs0] and current thread [cur0]: threads were added at the end
    of the run queue; a lock was lost only by its holder running, and
    taken only by the running thread. *)
Record since (rq0 : list Z) (objs0 : gmap Z kobj) (cur0 : option Z)
    (objs : gmap Z kobj) (rq : list Z) : Prop := {
  since_rq : ∃ l, rq = rq0 ++ l;
  since_kept a n t : objs0 !! a = Some (Lock n (Some t)) → cur0 ≠ Some t →
    objs !! a = Some (Lock n (Some t));
  since_taken a n t : objs !! a = Some (Lock n (Some t)) →
    objs0 !! a = Some (Lock n (Some t)) ∨ cur0 = Some t;
}.

Section Inv.
Context {H E : Type} `{KHeapLaws H} `{ThreadEnv E}.
Context (rq0 : list Z) (objs0 : gmap Z kobj) (cur0 : option Z).
Implicit Types (σ : kstate H E) (sl rq zb N X : list Z) (bad : option Z) (d : Z).

Definition own σ : list Z :=
  table_blocks thread_blocks (k_threads σ) ++ table_blocks obj_blocks (k_objs σ) ++
  (k_curframes σ ≫= start_blocks).

Definition counted d σ sl rq : Prop :=
  k_numthreads σ + d = Z.of_nat (length (option_list (k_curthread σ)) + length sl + length rq) ∧
  k_numthreads σ + d ≤ thread_limit.

Definition inv bad X N d σ sl rq zb : Prop :=
  queues σ sl rq zb (own σ ++ X) ∧
  wf bad N (k_curthread σ) (k_threads σ) (k_objs σ) (k_lock σ) (k_curframes σ) sl rq zb ∧
  since rq0 objs0 cur0 (k_objs σ) rq ∧
  counted d σ sl rq ∧
  (k_curthread σ = None → ∃ t, k_switching σ = Some t ∧ is_Some (k_threads σ !! t)).
End Inv.

(** ** Transfer of the parts of the invariant *)

Lemma frame_ok_refs objs objs' f :
  (∀ a, a ∈ frame_refs f → is_Some (kind objs a) → kind objs' a = kind objs a) →
  frame_ok objs f → frame_ok objs' f.
Proof.
  destruct f; cbn; intros Hk Hf; try done; repeat split;
    rewrite Hk by (set_solver || naive_solver); naive_solver.
Qed.

Lemma frames_ok_refs objs objs' fs :
  (∀ a, a ∈ fs ≫= frame_refs → is_Some (kind objs a) → kind objs' a = kind objs a) →
  Forall (frame_ok objs) fs → Forall (frame_ok objs') fs.
Proof.
  intros Hk Hf. rewrite list.Forall_forall in *. intros f Hin.
  eapply frame_ok_refs; [|by apply Hf]. intros a Ha. apply Hk, list_elem_of_bind. by exists f.
Qed.

Lemma obj_ok_mono ts ts' sl sl' rq rq' a o :
  obj_ok ts sl rq a o →
  (∀ t, t ∈ sl' → sleeps_on ts' (WObj a) t → t ∈ sl ∧ sleeps_on ts (WObj a) t) →
  (∀ t, t ∈ rq → acquiring a (frames_in ts t) → t ∈ rq' ∧ acquiring a (frames_in ts' t)) →
  obj_ok ts' sl' rq' a o.
Proof.
  intros Hok Hs Hr. destruct o as [n c|n [h|]|]; cbn in *; [|done| |done].
  - intros Hc t Ht Hsl. destruct (Hs t Ht Hsl) as [Ht' Hsl']. by eapply Hok.
  - intros t Ht Hsl. destruct (Hs t Ht Hsl) as [Ht' Hsl'].
    destruct (Hok t Ht' Hsl') as (u & Hu & Ha). exists u. auto.
Qed.

Lemma obj_ok_no_sleeper ts sl rq a o :
  (∀ t, t ∈ sl → ¬ sleeps_on ts (WObj a) t) → obj_ok ts sl rq a o.
Proof. intros Hs. destruct o as [n c|n [h|]|]; cbn; [auto|done| |done]. naive_solver. Qed.

Lemma kind_insert objs a o o' b :
  objs !! a = Some o' → kind_of o = kind_of o' →
  kind (<[a := o]> objs) b = kind objs b.
Proof.
  unfold kind. intros Ho Hk. destruct (decide (b = a)) as [->|Hne].
  - rewrite lookup_insert_eq, Ho. cbn. by rewrite Hk.
  - by rewrite lookup_insert_ne.
Qed.

Lemma kind_Sem objs a : kind objs a = Some KSem → ∃ n c, objs !! a = Some (Sem n c).
Proof. unfold kind. destruct (objs !! a) as [[]|]; naive_solver. Qed.
Lemma kind_Lock objs a : kind objs a = Some KLock → ∃ n h, objs !! a = Some (Lock n h).
Proof. unfold kind. destruct (objs !! a) as [[]|]; naive_solver. Qed.
Lemma kind_Cv objs a : kind objs a = Some KCv → ∃ n, objs !! a = Some (Cv n).
Proof. unfold kind. destruct (objs !! a) as [[]|]; naive_solver. Qed.

(** Threads [l] move from the sleepers to the end of the run queue. *)
Lemma wf_wake bad N cur ts objs lk cfs sl rq zb l sl' :
  wf bad N cur ts objs lk cfs sl rq zb → sl ≡ₚ l ++ sl' →
  wf bad N cur ts objs lk cfs sl' (rq ++ l) zb.
Proof.
  intros [Hnd Hdom Hasl Hfr Hcur Hidle Hrun Hobj Hsem Hwt Hlk] Hsl.
  assert (Hp : option_list cur ++ sl' ++ (rq ++ l) ++ zb ++ N ≡ₚ option_list cur ++ sl ++ rq ++ zb ++ N).
  { rewrite Hsl. solve_Permutation. }
  split; try done.
  - by rewrite Hp.
  - intros t. rewrite Hp. apply Hdom.
  - intros t Ht. apply Hasl. rewrite Hsl. set_solver.
  - intros a o Ho Hb. eapply obj_ok_mono; [by apply Hobj|..].
    + intros t Ht. rewrite Hsl. set_solver.
    + set_solver.
Qed.

Lemma wf_bad bad bad' N cur ts objs lk cfs sl rq zb :
  wf bad N cur ts objs lk cfs sl rq zb →
  (∀ a o, bad = Some a → bad' ≠ Some a → objs !! a = Some o → obj_ok ts sl rq a o) →
  wf bad' N cur ts objs lk cfs sl rq zb.
Proof.
  intros [Hnd Hdom Hasl Hfr Hcur Hidle Hrun Hobj Hsem Hwt Hlk] Hb. split; try done.
  intros a o Ho Hne. destruct (decide (bad = Some a)) as [->|]; [by eapply Hb|by apply Hobj].
Qed.

Lemma since_app rq0 objs0 cur0 objs rq l :
  since rq0 objs0 cur0 objs rq → since rq0 objs0 cur0 objs (rq ++ l).
Proof. intros [[l0 ->] Hk Ht]. split; try done. exists (l0 ++ l). by rewrite app_assoc. Qed.

(** Threads whose record is irrelevant to the invariant: the same stack and
    the same frames. *)
Definition same_core (th th' : thread) : Prop :=
  t_frames th' = t_frames th ∧ t_name th' = t_name th ∧ t_stack th' = t_stack th ∧
  t_wait th' = t_wait th.

Lemma wf_put_thread bad N cur ts objs lk cfs sl rq zb t th th' :
  wf bad N cur ts objs lk cfs sl rq zb → ts !! t = Some th → same_core th th' →
  (t ∉ sl) ∨ t_sleepaddr th' = t_sleepaddr th →
  wf bad N cur (<[t := th']> ts) objs lk cfs sl rq zb.
Proof.
  intros [Hnd Hdom Hasl Hfr Hcur Hidle Hrun Hobj Hsem Hwt Hlk] Hth (Ef & En & Est & Ew) Hsl.
  assert (Hfin : ∀ u, frames_in (<[t := th']> ts) u = frames_in ts u).
  { intros u. unfold frames_in. destruct (decide (u = t)) as [->|].
    - by rewrite lookup_insert_eq, Hth.
    - by rewrite lookup_insert_ne. }
  assert (Hsa : ∀ u, u ∈ sl → (<[t := th']> ts !! u ≫= t_sleepaddr) = (ts !! u ≫= t_sleepaddr)).
  { intros u Hu. destruct (decide (u = t)) as [->|]; [|by rewrite lookup_insert_ne].
    rewrite lookup_insert_eq, Hth. cbn. by destruct Hsl. }
  split; try done.
  - intros u. rewrite lookup_insert_is_Some', Hdom. split; [by right|]. intros [<-|]; [by eexists|done].
  - intros u Hu. destruct (Hasl u Hu) as (uth & w & f & fs & Hu1 & Hu2 & Hu3 & Hu4).
    destruct (decide (u = t)) as [->|Hne]; [|rewrite lookup_insert_ne by done; eauto 10].
    rewrite lookup_insert_eq. simplify_eq. exists th', w, f, fs. rewrite Ef. split_and!; try done.
    destruct Hsl as [|Heq]; [done|]. by rewrite Heq.
  - intros u uth [[-> <-]|[Hne Hu]]%lookup_insert_Some; [|by eapply Hfr].
    rewrite Ef. by eapply Hfr.
  - intros u uth Hu [[-> <-]|[Hne Hu']]%lookup_insert_Some; [rewrite Ef|]; by eapply Hrun.
  - intros a o Ho Hb. eapply obj_ok_mono; [by apply Hobj|..].
    + intros u Hu. unfold sleeps_on. by rewrite Hsa.
    + intros u Hu. by rewrite Hfin.
  - intros u uth a [[-> <-]|[Hne Hu]]%lookup_insert_Some; [rewrite Ew|]; by eapply Hwt.
Qed.

(** An object changes, but not its kind. *)
Lemma wf_put_obj bad N cur ts objs lk cfs sl rq zb a o o' :
  wf bad N cur ts objs lk cfs sl rq zb → objs !! a = Some o →
  kind_of o' = kind_of o → (∀ n c, o' = Sem n c → 0 ≤ c < 2 ^ 31) →
  bad = None ∨ bad = Some a →
  wf (Some a) N cur ts (<[a := o']> objs) lk cfs sl rq zb.
Proof.
  intros [Hnd Hdom Hasl Hfr Hcur Hidle Hrun Hobj Hsem Hwt Hlk] Ho Hkind Hc Hb.
  assert (Hk : ∀ b, kind (<[a := o']> objs) b = kind objs b) by (intros b; by eapply kind_insert).
  split; try done.
  - intros t th Hth. destruct (Hfr t th Hth) as [Hf1 Hf2]. split; [|done].
    eapply frames_ok_refs; [|done]. auto.
  - destruct Hcur. split; [|done]. eapply frames_ok_refs; [|done]. auto.
  - intros b ob Hob Hne. rewrite lookup_insert_ne in Hob by congruence. apply Hobj; [done|].
    naive_solver.
  - intros b n c [[-> Heq]|[Hne Hob]]%lookup_insert_Some; [by eapply Hc|by eapply Hsem].
  - intros t th b Hth Hw. rewrite Hk. by eapply Hwt.
  - intros b Hb'. rewrite Hk. by apply Hlk.
Qed.

Lemma since_put_obj rq0 objs0 cur0 objs rq a o o' :
  since rq0 objs0 cur0 objs rq → objs !! a = Some o →
  (∀ n t, o = Lock n (Some t) → cur0 = Some t) → (∀ n t, o' = Lock n (Some t) → cur0 = Some t) →
  since rq0 objs0 cur0 (<[a := o']> objs) rq.
Proof.
  intros [Hrq Hk Ht] Ho Ho1 Ho2. split; [done|..].
  - intros b n t Hb Hc. pose proof (Hk b n t Hb Hc) as Hb'.
    destruct (decide (b = a)) as [->|]; [|by rewrite lookup_insert_ne].
    rewrite Ho in Hb'. simplify_eq. destruct Hc. by eapply Ho1.
  - intros b n t [[-> Heq]|[Hne Hb]]%lookup_insert_Some; [right; by eapply Ho2|by apply Ht].
Qed.

Section Steps.
Context {H E : Type} `{KHeapLaws H} `{ThreadEnv E}.
Context (rq0 : list Z) (objs0 : gmap Z kobj) (cur0 : option Z).
Implicit Types (σ : kstate H E) (sl rq zb N X : list Z) (bad : option Z) (d : Z).
Abbreviation I := (inv rq0 objs0 cur0).

Lemma inv_forget bad X N d σ sl rq zb : I bad X N d σ sl rq zb → I bad [] N d σ sl rq zb.
Proof.
  intros (Hq & Hrest). split; [|done]. revert Hq. apply queues_forget.
  apply submseteq_skips_l, submseteq_nil_l.
Qed.

Lemma inv_own bad X X' N d σ sl rq zb :
  X' ≡ₚ X → I bad X N d σ sl rq zb → I bad X' N d σ sl rq zb.
Proof. intros HX (Hq & Hrest). split; [|done]. revert Hq. apply queues_perm. by rewrite HX. Qed.

Lemma inv_bad bad bad' X N d σ sl rq zb :
  I bad X N d σ sl rq zb →
  (∀ a o, bad = Some a → bad' ≠ Some a → k_objs σ !! a = Some o → obj_ok (k_threads σ) sl rq a o) →
  I bad' X N d σ sl rq zb.
Proof. intros (Hq & Hwf & Hrest) Hb. split_and!; try apply Hrest; [done|]. by eapply wf_bad. Qed.

Lemma inv_open a X N d σ sl rq zb : I None X N d σ sl rq zb → I (Some a) X N d σ sl rq zb.
Proof. intros Hi. by eapply inv_bad. Qed.

Lemma inv_threads bad X N d σ sl rq zb t :
  I bad X N d σ sl rq zb → t ∈ sl → is_Some (k_threads σ !! t).
Proof. intros (_ & Hwf & _) Ht. apply (wf_dom _ _ _ _ _ _ _ _ _ _ Hwf). set_solver. Qed.

Lemma inv_cur bad X N d σ sl rq zb t :
  I bad X N d σ sl rq zb → k_curthread σ = Some t →
  (∃ th, k_threads σ !! t = Some th) ∧ (t ∉ sl) ∧ (t ∉ rq) ∧ (t ∉ zb) ∧ (t ∉ N).
Proof.
  intros (_ & Hwf & _) Hc. rewrite Hc in Hwf.
  pose proof (wf_nodup _ _ _ _ _ _ _ _ _ _ Hwf) as [Hn _]%list.NoDup_cons.
  split; [|set_solver]. apply (wf_dom _ _ _ _ _ _ _ _ _ _ Hwf). set_solver.
Qed.

(** The record of the current thread is updated. *)
Lemma inv_put_cur bad X N d σ sl rq zb t th th' :
  I bad X N d σ sl rq zb → k_curthread σ = Some t → k_threads σ !! t = Some th → same_core th th' →
  I bad X N d (set_threads (<[t := th']> (k_threads σ)) σ) sl rq zb.
Proof.
  intros Hi Hc Hth Hcore. destruct (inv_cur _ _ _ _ _ _ _ _ _ Hi Hc) as (_ & Hsl & _).
  destruct Hi as (Hq & Hwf & Hs & Hn & Hsw). split_and!; try done.
  - revert Hq. apply (queues_perm σ). unfold own. cbn. rewrite table_blocks_update; [done|done|].
    destruct Hcore as (Ef & En & Est & _). unfold thread_blocks. by rewrite Ef, En, Est.
  - eapply wf_put_thread; [done..|]. by left.
  - cbn. rewrite Hc. done.
Qed.

(** An object is updated; what its waiters are due is still to be done. *)
Lemma inv_put_obj bad X N d σ sl rq zb a o o' :
  I bad X N d σ sl rq zb → k_objs σ !! a = Some o → bad = None ∨ bad = Some a →
  obj_blocks a o' = obj_blocks a o → kind_of o' = kind_of o →
  (∀ n c, o' = Sem n c → 0 ≤ c < 2 ^ 31) →
  (∀ n t, o = Lock n (Some t) → cur0 = Some t) → (∀ n t, o' = Lock n (Some t) → cur0 = Some t) →
  I (Some a) X N d (set_objs (<[a := o']> (k_objs σ)) σ) sl rq zb.
Proof.
  intros (Hq & Hwf & Hs & Hn & Hsw) Ho Hb Hbl Hk Hc H1' H2'. split_and!; try done.
  - revert Hq. apply (queues_perm σ). unfold own. cbn. by rewrite (table_blocks_update obj_blocks _ a o).
  - by eapply wf_put_obj.
  - by eapply since_put_obj.
Qed.

(** Threads that sleep move to the run queue. *)
Lemma inv_wake bad X N d σ σ' sl rq zb l sl' :
  I bad X N d σ sl rq zb → moved σ σ' → sl ≡ₚ l ++ sl' →
  queues σ' sl' (rq ++ l) zb (own σ ++ X) → I bad X N d σ' sl' (rq ++ l) zb.
Proof.
  intros (Hq & Hwf & Hs & Hn & Hsw) (a & z & q & h & ->) Hsl Hq'. split_and!; try done.
  - by eapply wf_wake.
  - by apply since_app.
  - unfold counted in *. cbn. rewrite Hsl, !length_app in Hn. rewrite length_app. lia.
Qed.

Lemma thread_wakeup_inv s w bad bad' Q X N d σ sl rq zb :
  I bad X N d σ sl rq zb → (∀ a, bad = Some a → bad' ≠ Some a → w = WObj a) →
  (∀ σ' sl' rq', moved σ σ' → I bad' X N d σ' sl' rq' zb → Q tt σ') →
  wp s (thread_wakeup w) Q σ.
Proof.
  intros Hi Hb HQ. eapply thread_wakeup_spec; [by apply Hi|intros t; by eapply inv_threads|].
  intros σ' Hm Hq. eapply HQ; [done|]. eapply inv_bad.
  - eapply inv_wake; [done|done| |exact Hq]. by rewrite filter_app_complement.
  - intros a o -> Hne Ho. rewrite (Hb a) by done. apply obj_ok_no_sleeper.
    destruct Hm as (?&?&?&?&->). intros t [Ht _]%list_elem_of_filter. done.
Qed.
(** Whoever sleeps on a lock is in [lock_acquire]. *)
Lemma sleeper_acquires bad X N d σ sl rq zb t a :
  I bad X N d σ sl rq zb → t ∈ sl → sleeps_on (k_threads σ) (WObj a) t →
  kind (k_objs σ) a = Some KLock → acquiring a (frames_in (k_threads σ) t).
Proof.
  intros (_ & Hwf & _) Ht Hsl Hk.
  destruct (wf_asleep _ _ _ _ _ _ _ _ _ _ Hwf t Ht) as (th & w & f & fs & Hth & Hw & Hf & Hwf').
  unfold sleeps_on in Hsl. rewrite Hth in Hsl. cbn in Hsl. simplify_eq.
  unfold frames_in. rewrite Hth. cbn. rewrite Hf.
  destruct (wf_frames _ _ _ _ _ _ _ _ _ _ Hwf t th Hth) as [Hok _]. rewrite Hf in Hok.
  apply Forall_cons_iff in Hok as [Hok _].
  destruct f; cbn in *; try done; simplify_eq; try congruence; [by eexists _, _|].
  destruct Hok. congruence.
Qed.

Lemma thread_wakeup_one_inv s w bad bad' Q X N d σ sl rq zb :
  I bad X N d σ sl rq zb →
  (∀ a, bad = Some a → bad' ≠ Some a → w = WObj a ∧ kind (k_objs σ) a = Some KLock) →
  (∀ σ' sl' rq', moved σ σ' → I bad' X N d σ' sl' rq' zb → Q tt σ') →
  wp s (thread_wakeup_one w) Q σ.
Proof.
  intros Hi Hb HQ.
  eapply thread_wakeup_one_spec; [by apply Hi|intros t; by eapply inv_threads|..].
  - intros Hno. eapply HQ; [apply moved_refl|]. eapply inv_bad; [done|].
    intros a o -> Hne Ho. destruct (Hb a) as [-> _]; [done..|]. by apply obj_ok_no_sleeper.
  - intros l1 t l2 σ' -> Ht Hl1 Hm Hq. eapply HQ; [done|].
    assert (Hin : t ∈ l1 ++ t :: l2) by set_solver. eapply inv_bad.
    + eapply inv_wake; [done|done| |exact Hq]. solve_Permutation.
    + intros a o -> Hne Ho. destruct (Hb a) as [-> Hk]; [done..|].
      pose proof (sleeper_acquires _ _ _ _ _ _ _ _ _ _ Hi Hin Ht Hk) as Hacq.
      destruct Hm as (?&?&?&?&->). cbn in Ho |- *.
      apply kind_Lock in Hk as (n & hl & Hk). simplify_eq. destruct hl; cbn; [done|].
      intros _ _ _. exists t. split; [set_solver|done].
Qed.

(** Frames that can be left on the stack by code that returns. *)
Definition plain (objs : gmap Z kobj) (ks : list frame) : Prop :=
  Forall (frame_ok objs) ks ∧ Forall not_acquire ks ∧ ks ≫= start_blocks = [].

(** A thread may go to sleep on [w]. *)
Definition may_sleep (objs : gmap Z kobj) (w : wchan) : Prop :=
  match w with
  | WLbolt => True
  | WObj a =>
      match objs !! a with
      | Some (Sem _ c) => c = 0
      | Some (Lock _ hl) => hl ≠ None
      | Some (Cv _) => True
      | None => False
      end
  end.

(** What holds when kernel code returns or calls [mi_switch]. *)
Definition flow_post zb (fl : flow) σ : Prop :=
  k_curthread σ = cur0 ∧
  ∃ sl rq, match fl with
  | Finished ks => I None [] [] 0 σ sl rq zb ∧ plain (k_objs σ) ks ∧ (cur0 = None → ks = [])
  | Switch S_READY ks => I None [] [] 0 σ sl rq zb ∧ plain (k_objs σ) ks ∧ cur0 ≠ None
  | Switch S_SLEEP ks => I None [] [] 0 σ sl rq zb ∧
      ∃ t th w k rest, cur0 = Some t ∧ k_threads σ !! t = Some th ∧
        t_sleepaddr th = Some w ∧ waits_on k w ∧ may_sleep (k_objs σ) w ∧
        ks = k :: rest ∧ frame_ok (k_objs σ) k ∧ plain (k_objs σ) rest
  | Switch S_ZOMB ks => I None [] [] 1 σ sl rq zb ∧ plain (k_objs σ) ks ∧ cur0 ≠ None
  | Switch S_RUN _ => False
  end.

(** Code that returns and leaves nothing to do. *)
Lemma flow_post_return zb σ sl rq :
  I None [] [] 0 σ sl rq zb → k_curthread σ = cur0 → flow_post zb (Finished []) σ.
Proof. intros Hi Hc. split; [done|]. by exists sl, rq. Qed.

(** Frames added by a caller. *)
Lemma flow_post_frames zb fl ks σ :
  flow_post zb fl σ → plain (k_objs σ) ks → cur0 ≠ None →
  flow_post zb (match fl with
                | Finished ks0 => Finished (ks0 ++ ks)
                | Switch st ks0 => Switch st (ks0 ++ ks)
                end) σ.
Proof.
  intros (Hc & sl & rq & Hfl) Hks Hne. split; [done|]. exists sl, rq.
  assert (Happ : ∀ ks0, plain (k_objs σ) ks0 → plain (k_objs σ) (ks0 ++ ks)).
  { intros ks0 (H1' & H2' & H3'). destruct Hks as (H1'' & H2'' & H3'').
    split_and!; [by apply Forall_app..|]. by rewrite bind_app, H3', H3''. }
  destruct fl as [ks0|[] ks0]; [naive_solver|done|naive_solver| |naive_solver].
  destruct Hfl as (Hi & t & th & w & k & rest & Hct & Hth & Hw & Hon & Hmay & -> & Hk & Hr).
  split; [done|]. exists t, th, w, k, (rest ++ ks). split_and!; auto.
Qed.

Lemma plain_nil objs : plain objs [].
Proof. done. Qed.
(** ** Semaphores *)

Lemma thread_sleep_inv s w k X σ sl rq zb t :
  I None X [] 0 σ sl rq zb → k_curthread σ = Some t → cur0 = Some t → waits_on k w → may_sleep (k_objs σ) w →
  frame_ok (k_objs σ) k → wp s (thread_sleep w k) (flow_post zb) σ.
Proof.
  intros Hi Hc Hc0 Hon Hmay Hk. destruct (inv_cur _ _ _ _ _ _ _ _ _ Hi Hc) as ([th Hth] & _).
  unfold thread_sleep. wp_steps. split; [cbn; congruence|]. exists sl, rq. split.
  - eapply inv_forget, inv_put_cur; done.
  - exists t, (set_sleepaddr (Some w) th), w, k, []. cbn. rewrite lookup_insert_eq. by split_and!.
Qed.

Lemma sleep_return_inv s Q bad X N d σ sl rq zb t :
  I bad X N d σ sl rq zb → k_curthread σ = Some t →
  (∀ ts, I bad X N d (set_threads ts σ) sl rq zb → Q tt (set_threads ts σ)) →
  wp s sleep_return Q σ.
Proof.
  intros Hi Hc HQ. destruct (inv_cur _ _ _ _ _ _ _ _ _ Hi Hc) as ([th Hth] & _).
  unfold sleep_return. wp_steps. apply HQ. by eapply inv_put_cur.
Qed.

Lemma P_loop_inv s a spl σ sl rq zb t :
  I None [] [] 0 σ sl rq zb → k_curthread σ = Some t → cur0 = Some t →
  kind (k_objs σ) a = Some KSem →
  wp s (P_loop a spl) (flow_post zb) σ.
Proof.
  intros Hi Hc Hc0 Hk. destruct (kind_Sem _ _ Hk) as (n & c & Ho).
  unfold P_loop. wp_steps.
  destruct (Z.eqb_spec c 0) as [->|Hne].
  - eapply thread_sleep_inv; try done. cbn. by rewrite Ho.
  - pose proof (wf_sem _ _ _ _ _ _ _ _ _ _ (proj1 (proj2 Hi)) a n c Ho).
    wp_steps. apply (flow_post_return _ _ sl rq); [|cbn; congruence].
    assert (Hi' : I None [] [] 0 (set_objs (<[a := Sem n (c - 1)]> (k_objs σ)) σ) sl rq zb); [|done].
    eapply inv_bad.
    + eapply inv_put_obj; [done|done|by left|done|done|..]; try done. intros n' c' [= <- <-]. lia.
    + intros ? o [= <-] _ Ho'. cbn in Ho'. rewrite lookup_insert_eq in Ho'. simplify_eq.
      destruct Hi as (_ & Hwf & _). cbn. intros _.
      pose proof (wf_objs _ _ _ _ _ _ _ _ _ _ Hwf a _ Ho) as Hobj.
      pose proof (wf_sem _ _ _ _ _ _ _ _ _ _ Hwf a n c Ho). cbn in Hobj. apply Hobj; [done|lia].
Qed.
(** Nothing else changes but interrupt level, queues, heap and the values of
    the objects. *)
Definition quiet σ σ' : Prop :=
  ∃ spl objs a z q h, σ' = set_curspl spl (set_objs objs (requeue a z q h σ)) ∧
    ∀ b, kind objs b = kind (k_objs σ) b.

Lemma quiet_refl σ : quiet σ σ.
Proof. by exists (k_curspl σ), (k_objs σ), (k_sleepers σ), (k_zombies σ), (k_runqueue σ), (k_heap σ); destruct σ. Qed.
Lemma quiet_spl n σ σ' : quiet σ σ' → quiet σ (set_curspl n σ').
Proof. intros (spl&objs&a&z&q&h&->&Hk). by exists n, objs, a, z, q, h. Qed.
Lemma quiet_moved σ σ1 σ2 : moved σ1 σ2 → quiet σ σ1 → quiet σ σ2.
Proof. intros (a&z&q&h&->) (spl&objs&?&?&?&?&->&Hk). by exists spl, objs, a, z, q, h. Qed.
Lemma quiet_put_obj a o o' σ σ' :
  k_objs σ' !! a = Some o → kind_of o' = kind_of o → quiet σ σ' →
  quiet σ (set_objs (<[a := o']> (k_objs σ')) σ').
Proof.
  intros Ho Hk (spl&objs&a'&z&q&h&->&Hk'). exists spl, (<[a := o']> objs), a', z, q, h.
  split; [done|]. intros b. rewrite <- Hk'. by eapply kind_insert.
Qed.
Lemma quiet_trans σ1 σ2 σ3 : quiet σ1 σ2 → quiet σ2 σ3 → quiet σ1 σ3.
Proof.
  intros (?&objs&?&?&?&?&->&Hk) (spl&objs'&a&z&q&h&->&Hk'). exists spl, objs', a, z, q, h.
  split; [done|]. intros b. by rewrite Hk', <- Hk.
Qed.
Hint Resolve quiet_refl quiet_spl quiet_moved quiet_put_obj : quiet.

Lemma P_inv s o σ sl rq zb t :
  I None [] [] 0 σ sl rq zb → k_curthread σ = Some t → cur0 = Some t →
  (∀ a, o = Some a → kind (k_objs σ) a = Some KSem) →
  wp s (P o) (flow_post zb) σ.
Proof.
  intros Hi Hc Hc0 Hk. unfold P. destruct o as [a|]; [|apply wp_bind, wp_panic].
  wp_steps. by eapply (P_loop_inv s a _ (set_curspl _ σ)); [apply Hi| | |apply Hk].
Qed.

Lemma V_inv s o Q X N d σ sl rq zb :
  I None X N d σ sl rq zb → (∀ a, o = Some a → kind (k_objs σ) a = Some KSem) →
  (∀ σ' sl' rq', I None X N d σ' sl' rq' zb → quiet σ σ' → Q tt σ') →
  wp s (V o) Q σ.
Proof.
  intros Hi Hk HQ. unfold V. destruct o as [a|]; [|apply wp_bind, wp_panic].
  destruct (kind_Sem _ _ (Hk a eq_refl)) as (n & c & Ho).
  pose proof (wf_sem _ _ _ _ _ _ _ _ _ _ (proj1 (proj2 Hi)) a n c Ho).
  wp_steps. apply wp_bind. eapply thread_wakeup_inv.
  - eapply (inv_put_obj None X N d (set_curspl SPL_HIGH σ) sl rq zb a (Sem n c)); try done; [by left|].
    intros n' c' [= <- <-]. pose proof (s32_range (c + 1)). lia.
  - intros ? [= <-] _. done.
  - intros σ1 sl' rq' Hm Hi'. wp_steps. apply (HQ _ sl' rq'); [done|].
    eapply quiet_spl, quiet_moved, quiet_put_obj; eauto with quiet.
Qed.

(** ** Locks *)

Lemma acquire_loop_inv s a spl σ sl rq zb t :
  I (Some a) [] [] 0 σ sl rq zb → k_curthread σ = Some t → cur0 = Some t →
  kind (k_objs σ) a = Some KLock →
  wp s (acquire_loop a spl) (flow_post zb) σ.
Proof.
  intros Hi Hc Hc0 Hk. destruct (kind_Lock _ _ Hk) as (n & hl & Ho).
  unfold acquire_loop. wp_steps. destruct hl as [hd|].
  - eapply thread_sleep_inv; [|done|done|done| |done].
    + eapply inv_bad; [done|]. intros ? o [= <-] _ Ho'. by simplify_eq.
    + cbn. by rewrite Ho.
  - wp_steps. rewrite Hc. apply (flow_post_return _ _ sl rq); [|cbn; congruence].
    assert (Hi' : I None [] [] 0 (set_objs (<[a := Lock n (Some t)]> (k_objs σ)) σ) sl rq zb); [|done].
    eapply inv_bad.
    + eapply inv_put_obj; [done|done|by right|done|done|done|done|]. congruence.
    + intros ? o [= <-] _ Ho'. cbn in Ho'. rewrite lookup_insert_eq in Ho'. by simplify_eq.
Qed.

Lemma lock_acquire_inv s a σ sl rq zb t :
  I None [] [] 0 σ sl rq zb → k_curthread σ = Some t → cur0 = Some t →
  kind (k_objs σ) a = Some KLock →
  wp s (lock_acquire (Some a)) (flow_post zb) σ.
Proof.
  intros Hi Hc Hc0 Hk. unfold lock_acquire. wp_steps.
  by eapply (acquire_loop_inv s a _ (set_curspl _ σ)); [apply inv_open, Hi|..].
Qed.

Lemma lock_release_inv s a Q X N d σ sl rq zb :
  I None X N d σ sl rq zb → k_curthread σ = cur0 → kind (k_objs σ) a = Some KLock →
  (∀ σ' sl' rq', I None X N d σ' sl' rq' zb → quiet σ σ' → Q tt σ') →
  wp s (lock_release (Some a)) Q σ.
Proof.
  intros Hi Hc Hk HQ. destruct (kind_Lock _ _ Hk) as (n & hl & Ho).
  unfold lock_release, lock_do_i_hold. wp_steps. apply wp_bind.
  case_bool_decide as Hmine; wp_steps; cycle 1.
  { eapply HQ; [exact Hi|]. eauto with quiet. }
  assert (Hi1 : I (Some a) X N d (set_objs (<[a := Lock n None]> (k_objs σ)) σ) sl rq zb).
  { eapply inv_put_obj; try done; [by left|]. intros ? ? [= -> ->]. cbn in Hmine. congruence. }
  eapply thread_wakeup_one_inv; [exact Hi1| |].
  - intros ? [= <-] _. split; [done|]. cbn. by erewrite kind_insert.
  - intros σ1 sl' rq' Hm Hi'. wp_steps. apply (HQ _ sl' rq'); [done|].
    eapply quiet_spl, quiet_moved, quiet_put_obj; eauto with quiet.
Qed.
(** ** Condition variables, the clock *)

Lemma cv_wait_inv s c l σ sl rq zb t :
  I None [] [] 0 σ sl rq zb → k_curthread σ = Some t → cur0 = Some t →
  kind (k_objs σ) c = Some KCv → kind (k_objs σ) l = Some KLock →
  wp s (cv_wait (Some c) (Some l)) (flow_post zb) σ.
Proof.
  intros Hi Hc Hc0 Hkc Hkl. unfold cv_wait. wp_steps. apply wp_bind.
  eapply lock_release_inv; [exact Hi|cbn; congruence|done|].
  intros σ1 sl1 rq1 Hi1 (spl & objs & a & z & q & h & -> & Hk).
  eapply thread_sleep_inv; [exact Hi1|done|done|done| |].
  - cbn. cbn in Hk. rewrite <- Hk in Hkc. by destruct (kind_Cv _ _ Hkc) as (n & ->).
  - cbn. cbn in Hk. by rewrite !Hk.
Qed.

Lemma cv_wait_rest_inv s l spl σ sl rq zb t :
  I None [] [] 0 σ sl rq zb → k_curthread σ = Some t → cur0 = Some t →
  kind (k_objs σ) l = Some KLock →
  wp s (cv_wait_rest l spl) (flow_post zb) σ.
Proof.
  intros Hi Hc Hc0 Hk. unfold cv_wait_rest. apply wp_bind.
  eapply wp_mono; [by eapply lock_acquire_inv|]. intros fl σ' Hfl.
  eapply (flow_post_frames zb fl [FSplx spl]) in Hfl; [|by repeat constructor|congruence].
  by destruct fl as [|st ks]; wp_steps.
Qed.

Lemma cv_wake_inv s (wake : wchan → K H E unit) c l Q σ sl rq zb :
  (∀ Q' σ1, I None [] [] 0 σ1 sl rq zb →
     (∀ σ' sl' rq', moved σ1 σ' → I None [] [] 0 σ' sl' rq' zb → Q' tt σ') →
     wp s (wake (WObj c)) Q' σ1) →
  I None [] [] 0 σ sl rq zb → k_curthread σ = cur0 → kind (k_objs σ) l = Some KLock →
  (∀ σ' sl' rq', I None [] [] 0 σ' sl' rq' zb → quiet σ σ' → Q tt σ') →
  wp s (spl ← splhigh; c ← nonnull (Some c); l ← nonnull (Some l); wake (WObj c);;
        lock_release (Some l);; splx spl;; mret tt) Q σ.
Proof.
  intros Hwake Hi Hc Hk HQ. wp_steps. apply wp_bind. apply Hwake; [exact Hi|].
  intros σ1 sl1 rq1 Hm Hi1. pose proof Hm as (?&?&?&?&Heq). apply wp_bind.
  eapply lock_release_inv; [exact Hi1|by subst|by subst|].
  intros σ2 sl2 rq2 Hi2 Hq. wp_steps. apply (HQ _ sl2 rq2); [done|].
  eapply quiet_spl, quiet_trans; [|done]. eapply quiet_moved; eauto with quiet.
Qed.

Lemma cv_signal_inv s c l Q σ sl rq zb :
  I None [] [] 0 σ sl rq zb → k_curthread σ = cur0 → kind (k_objs σ) l = Some KLock →
  (∀ σ' sl' rq', I None [] [] 0 σ' sl' rq' zb → quiet σ σ' → Q tt σ') →
  wp s (cv_signal (Some c) (Some l)) Q σ.
Proof.
  apply cv_wake_inv. intros Q' σ1 Hi HQ. by eapply thread_wakeup_one_inv.
Qed.

Lemma cv_broadcast_inv s c l Q σ sl rq zb :
  I None [] [] 0 σ sl rq zb → k_curthread σ = cur0 → kind (k_objs σ) l = Some KLock →
  (∀ σ' sl' rq', I None [] [] 0 σ' sl' rq' zb → quiet σ σ' → Q tt σ') →
  wp s (cv_broadcast (Some c) (Some l)) Q σ.
Proof.
  apply cv_wake_inv. intros Q' σ1 Hi HQ. by eapply thread_wakeup_inv.
Qed.

Lemma thread_yield_inv s σ sl rq zb :
  I None [] [] 0 σ sl rq zb → k_curthread σ = cur0 →
  wp s thread_yield (λ fl σ', flow_post zb fl σ' ∧
    k_curframes σ' = k_curframes σ ∧ (cur0 = None → fl = Finished []) ∧
    ∀ ks, fl ≠ Switch S_ZOMB ks) σ.
Proof.
  intros Hi Hc0. unfold thread_yield. wp_steps. destruct (k_curthread _) as [t|] eqn:Hc; wp_steps.
  - cbn in Hc. split_and!; [|done|congruence|done]. split; [cbn; congruence|]. exists sl, rq.
    split_and!; [exact Hi|by repeat constructor|congruence].
  - split_and!; try done. apply (flow_post_return _ _ sl rq); [exact Hi|]. cbn in *. congruence.
Qed.

Lemma clocksleep_loop_inv s n spl σ sl rq zb t :
  I None [] [] 0 σ sl rq zb → k_curthread σ = Some t → cur0 = Some t →
  wp s (clocksleep_loop n spl) (flow_post zb) σ.
Proof.
  intros Hi Hc Hc0. unfold clocksleep_loop. destruct (n >? 0).
  - by eapply thread_sleep_inv.
  - wp_steps. apply (flow_post_return _ _ sl rq); [exact Hi|]. cbn. congruence.
Qed.
Lemma hardclock_inv s σ sl rq zb :
  I None [] [] 0 σ sl rq zb → k_curthread σ = cur0 →
  wp s hardclock (λ fl σ', flow_post zb fl σ' ∧
    k_curframes σ' = k_curframes σ ∧ (cur0 = None → fl = Finished []) ∧
    ∀ ks, fl ≠ Switch S_ZOMB ks) σ.
Proof.
  intros Hi Hc0. unfold hardclock. wp_steps. apply wp_bind. destruct (_ >=? HZ).
  - wp_steps. eapply thread_wakeup_inv; [exact Hi|done|]. intros σ1 sl1 rq1 Hm Hi1.
    pose proof Hm as (?&?&?&?&->).
    eapply wp_mono; [by eapply thread_yield_inv|]. by intros fl σ2 ?.
  - wp_steps. eapply wp_mono; [by eapply (thread_yield_inv s (set_lbolt_counter _ σ))|].
    by intros fl σ2 ?.
Qed.

(** ** Creating and destroying objects *)

Lemma table_blocks_elem {Y} (f : Z → Y → list Z) m k y b :
  m !! k = Some y → b ∈ f k y → b ∈ table_blocks f m.
Proof.
  intros Hk Hb. apply list_elem_of_bind. exists (k, y). split; [done|]. by apply elem_of_map_to_list.
Qed.

(** A block that has just been allocated is not the address of anything. *)
Lemma inv_fresh bad X N d σ sl rq zb p :
  I bad X N d σ sl rq zb → p ∈ X → k_objs σ !! p = None ∧ k_threads σ !! p = None.
Proof.
  intros ((a & z & q & _ & _ & _ & _ & _ & _ & (_ & Hnd & _) & _) & _) Hp.
  rewrite !app_assoc in Hnd. apply list.NoDup_app in Hnd as (_ & Hdis & _).
  assert (Hno : p ∉ own σ) by (intros Hin; apply (Hdis p); set_solver).
  unfold own in Hno. split; apply eq_None_not_Some; intros [x Hx]; apply Hno.
  - apply elem_of_app. right. apply elem_of_app. left. eapply table_blocks_elem; [done|].
    unfold obj_blocks. set_solver.
  - apply elem_of_app. left. eapply table_blocks_elem; [done|]. unfold thread_blocks. set_solver.
Qed.

Lemma kind_fresh objs p o b :
  objs !! p = None → is_Some (kind objs b) → kind (<[p := o]> objs) b = kind objs b.
Proof.
  unfold kind. intros Hp [k Hb]. rewrite lookup_insert_ne; [done|]. intros ->. by rewrite Hp in Hb.
Qed.

(** A sleeper's object exists. *)
Lemma wf_sleep_kind bad N cur ts objs lk cfs sl rq zb t a :
  wf bad N cur ts objs lk cfs sl rq zb → t ∈ sl → sleeps_on ts (WObj a) t → is_Some (kind objs a).
Proof.
  intros Hwf Ht Hsl.
  destruct (wf_asleep _ _ _ _ _ _ _ _ _ _ Hwf t Ht) as (th & w & f & fs & Hth & Hw & Hf & Hon).
  unfold sleeps_on in Hsl. rewrite Hth in Hsl. cbn in Hsl. simplify_eq.
  destruct (wf_frames _ _ _ _ _ _ _ _ _ _ Hwf t th Hth) as [Hok _]. rewrite Hf in Hok.
  apply Forall_cons_iff in Hok as [Hok _]. destruct f; cbn in *; naive_solver.
Qed.

Lemma wf_new_obj bad N cur ts objs lk cfs sl rq zb p o :
  wf bad N cur ts objs lk cfs sl rq zb → objs !! p = None → (∀ n c, o = Sem n c → 0 ≤ c < 2 ^ 31) →
  wf bad N cur ts (<[p := o]> objs) lk cfs sl rq zb.
Proof.
  intros Hwf Hp Hc. pose proof Hwf as [Hnd Hdom Hasl Hfr Hcur Hidle Hrun Hobj Hsem Hwt Hlk].
  pose proof (kind_fresh objs p o) as Hk. split; try done.
  - intros t th Hth. destruct (Hfr t th Hth) as [Hf1 Hf2]. split; [|done].
    eapply frames_ok_refs; [|done]. auto.
  - destruct Hcur. split; [|done]. eapply frames_ok_refs; [|done]. auto.
  - intros b ob [[-> <-]|[Hne Hob]]%lookup_insert_Some Hb; [|by apply Hobj].
    apply obj_ok_no_sleeper. intros t Ht Hsl.
    destruct (wf_sleep_kind _ _ _ _ _ _ _ _ _ _ _ _ Hwf Ht Hsl) as [k Hk'].
    unfold kind in Hk'. by rewrite Hp in Hk'.
  - intros b n c [[-> Heq]|[Hne Hob]]%lookup_insert_Some; [by eapply Hc|by eapply Hsem].
  - intros t th b Hth Hw. rewrite Hk; eauto.
  - intros b Hb. rewrite Hk; eauto.
Qed.

Lemma inv_new_obj bad X N d σ sl rq zb p n o :
  I bad (p :: n :: X) N d σ sl rq zb → obj_blocks p o = [p; n] → (∀ m c, o = Sem m c → 0 ≤ c < 2 ^ 31) →
  (∀ m t, o ≠ Lock m (Some t)) →
  I bad X N d (set_objs (<[p := o]> (k_objs σ)) σ) sl rq zb.
Proof.
  intros Hi Hb Hc Hl. destruct (inv_fresh _ _ _ _ _ _ _ _ p Hi) as [Hp _]; [set_solver|].
  destruct Hi as (Hq & Hwf & [Hrq Hkept Htaken] & Hn & Hsw). split_and!; try done.
  - revert Hq. apply (queues_perm σ). unfold own. cbn.
    rewrite table_blocks_insert, Hb by done. cbn. solve_Permutation.
  - by eapply wf_new_obj.
  - split; [done|cbn..].
    + intros a m t Ha Hne. rewrite lookup_insert_ne; [by apply Hkept|]. intros ->.
      specialize (Hkept a m t Ha Hne). congruence.
    + intros a m t [[-> Heq]|[Hne Ha]]%lookup_insert_Some; [by destruct (Hl m t)|by apply Htaken].
Qed.
Lemma inv_heap bad X X' N d σ sl rq zb h :
  I bad X N d σ sl rq zb → queues (set_heap h σ) sl rq zb (own σ ++ X') →
  I bad X' N d (set_heap h σ) sl rq zb.
Proof. intros (_ & Hrest) Hq. by split. Qed.

Lemma kmallocK_inv s n Q bad X N d σ sl rq zb :
  I bad X N d σ sl rq zb → 0 ≤ n ≤ 2 ^ 31 →
  (∀ r h, I bad (option_list r ++ X) N d (set_heap h σ) sl rq zb → Q r (set_heap h σ)) →
  wp s (kmallocK n) Q σ.
Proof.
  intros Hi Hn HQ. eapply kmallocK_spec; [apply Hi|done|]. intros r h Hq _. apply HQ.
  eapply inv_heap; [done|]. revert Hq. apply queues_perm. solve_Permutation.
Qed.

Lemma kfreeK_inv s b Q bad X N d σ sl rq zb :
  I bad (b :: X) N d σ sl rq zb →
  (∀ h, I bad X N d (set_heap h σ) sl rq zb → Q tt (set_heap h σ)) →
  wp s (kfreeK b) Q σ.
Proof.
  intros Hi HQ. eapply (kfreeK_spec s b _ _ _ _ _ (own σ ++ X)).
  - eapply queues_perm; [|apply Hi]. solve_Permutation.
  - intros h Hq. apply HQ. by eapply inv_heap.
Qed.

(** Objects are added, the heap changes. *)
Definition grown σ σ' : Prop :=
  ∃ objs h, σ' = set_objs objs (set_heap h σ) ∧
    ∀ b, is_Some (kind (k_objs σ) b) → kind objs b = kind (k_objs σ) b.

Lemma obj_create_inv s size len mk Q bad X N d σ sl rq zb :
  I bad X N d σ sl rq zb → 0 ≤ size ≤ 2 ^ 31 → 0 ≤ len < 2 ^ 16 →
  (∀ p n, obj_blocks p (mk n) = [p; n]) → (∀ n m c, mk n = Sem m c → 0 ≤ c < 2 ^ 31) →
  (∀ n m t, mk n ≠ Lock m (Some t)) →
  (∀ r σ', I bad X N d σ' sl rq zb → grown σ σ' →
     (∀ p, r = Some p → ∃ n, kind (k_objs σ') p = Some (kind_of (mk n))) → Q r σ') →
  wp s (obj_create size len mk) Q σ.
Proof.
  intros Hi Hsz Hlen Hbl Hc Hl HQ.
  assert (Hg : ∀ h, grown σ (set_heap h σ)).
  { intros h. exists (k_objs σ), h. by destruct σ. }
  unfold obj_create, kstrdup. apply wp_bind. eapply kmallocK_inv; [done|done|].
  intros [p|] h1 Hi1; cbn in Hi1; [|wp_steps; apply HQ; [done|apply Hg|done]].
  apply wp_bind.
  eapply kmallocK_inv; [done|lia|]. intros [n|] h2 Hi2; cbn in Hi2; apply wp_bind.
  - destruct (inv_fresh _ _ _ _ _ _ _ _ p Hi2) as [Hp _]; [set_solver|]. wp_steps. apply HQ.
    + eapply inv_new_obj; [eapply inv_own, Hi2|..]; eauto. solve_Permutation.
    + eexists _, h2. split; [reflexivity|]. intros b. by apply kind_fresh.
    + intros ? [= <-]. exists n. unfold kind. cbn. by rewrite lookup_insert_eq.
  - eapply kfreeK_inv; [done|]. intros h3 Hi3. wp_steps.
    apply HQ; [done|exact (Hg h3)|done].
Qed.

Lemma sem_create_inv s len c Q bad X N d σ sl rq zb :
  I bad X N d σ sl rq zb → 0 ≤ len < 2 ^ 16 → c < 2 ^ 31 →
  (∀ r σ', I bad X N d σ' sl rq zb → grown σ σ' →
     (∀ p, r = Some p → kind (k_objs σ') p = Some KSem) → Q r σ') →
  wp s (sem_create len c) Q σ.
Proof.
  intros Hi Hlen Hc HQ. unfold sem_create. wp_steps.
  eapply obj_create_inv; [done|lia|done|done| |done|].
  - intros n m c' [= <- <-]. lia.
  - intros r σ' Hi' Hg Hr. apply HQ; [done..|]. intros p Hp. by destruct (Hr p Hp) as (n & Hk).
Qed.

Lemma wf_del_obj bad N cur ts objs lk cfs sl rq zb a :
  wf bad N cur ts objs lk cfs sl rq zb →
  (∀ t th, ts !! t = Some th → t_wait th ≠ Some a ∧ (a ∉ t_frames th ≫= frame_refs)) →
  a ∉ cfs ≫= frame_refs → lk ≠ Some a →
  wf bad N cur ts (delete a objs) lk cfs sl rq zb.
Proof.
  intros [Hnd Hdom Hasl Hfr Hcur Hidle Hrun Hobj Hsem Hwt Hlk] Hts Hcf Hl.
  assert (Hk : ∀ b, b ≠ a → kind (delete a objs) b = kind objs b).
  { intros b Hne. unfold kind. by rewrite lookup_delete_ne. }
  split; try done.
  - intros t th Hth. destruct (Hfr t th Hth) as [Hf1 Hf2]. split; [|done].
    eapply frames_ok_refs; [|done]. intros b Hb _. apply Hk. intros ->.
    by destruct (Hts t th Hth) as [_ ?].
  - destruct Hcur. split; [|done]. eapply frames_ok_refs; [|done].
    intros b Hb _. apply Hk. by intros ->.
  - intros b ob [Hne Hob]%lookup_delete_Some Hb. by apply Hobj.
  - intros b n c [Hne Hob]%lookup_delete_Some. by eapply Hsem.
  - intros t th b Hth Hw. rewrite Hk; [by eapply Hwt|]. intros ->.
    by destruct (Hts t th Hth) as [? _].
  - intros b Hb. rewrite Hk; [by apply Hlk|]. naive_solver.
Qed.

Lemma obj_free_inv s a n o Q X N d σ sl rq zb :
  I None X N d σ sl rq zb → k_objs σ !! a = Some o → obj_blocks a o = [a; n] → unused σ a →
  (∀ m t, o ≠ Lock m (Some t)) →
  (∀ h, let σ' := set_objs (delete a (k_objs σ)) (set_heap h σ) in
        I None X N d σ' sl rq zb → Q tt σ') →
  wp s (obj_free a n) Q σ.
Proof.
  intros Hi Ho Hbl (Hts & Hcf & Hlk) Hnl HQ. pose proof Hi as (Hq & Hwf & [Hrq Hkept Htaken] & Hn & Hsw).
  set (D := own (set_objs (delete a (k_objs σ)) σ) ++ X).
  assert (Hq1 : queues σ sl rq zb (n :: a :: D)).
  { revert Hq. apply queues_perm. unfold D, own. cbn.
    rewrite (table_blocks_delete obj_blocks (k_objs σ) a o Ho), Hbl. cbn. solve_Permutation. }
  unfold obj_free, del_obj. apply wp_bind. eapply kfreeK_spec; [exact Hq1|]. intros h1 Hq2.
  apply wp_bind. eapply kfreeK_spec; [exact Hq2|]. intros h2 Hq3. wp_steps. apply HQ.
  split_and!; try done; [by apply wf_del_obj|]. split; [done|cbn..].
  - intros b m t Hb Hne. rewrite lookup_delete_ne; [by apply Hkept|]. intros ->.
    specialize (Hkept b m t Hb Hne). rewrite Ho in Hkept. simplify_eq. by destruct (Hnl m t).
  - intros b m t [Hne Hb]%lookup_delete_Some. by apply Htaken.
Qed.
End Steps.
