(* ===== verification/SystemSafe.v ===== *)
(** * Every event preserves the invariant

    The calls that create and destroy threads and objects, the switch from
    one thread to the next, the interrupts, and with them every event of
    [System]. *)

From S2P Require Import Prelude KArray Queue Kstate Thread Synch Process ThreadSpec System SystemInv.

(** ** Changes of the thread table *)

(** A thread that neither sleeps nor waits for the processor changes. *)
Lemma wf_put_any bad N cur ts objs lk cfs sl rq zb t th' :
  wf bad N cur ts objs lk cfs sl rq zb → is_Some (ts !! t) → t ∉ sl → t ∉ rq →
  frames_ok objs (t_frames th') → (∀ a, t_wait th' = Some a → kind objs a = Some KSem) →
  (cur = Some t → t_frames th' = []) →
  wf bad N cur (<[t := th']> ts) objs lk cfs sl rq zb.
Proof.
  intros [Hnd Hdom Hasl Hfr Hcur Hidle Hrun Hobj Hsem Hwt Hlk] Hth Hsl Hrq Hf Hw Hc.
  split; try done.
  - intros u. rewrite lookup_insert_is_Some', Hdom. split; [by right|]. by intros [<-|].
  - intros u Hu. rewrite lookup_insert_ne by (by intros ->). by apply Hasl.
  - intros u uth [[-> <-]|[Hne Hu]]%lookup_insert_Some; [done|by eapply Hfr].
  - intros u uth Hu [[-> <-]|[Hne Hu']]%lookup_insert_Some; [auto|by eapply Hrun].
  - intros a o Ho Hb. eapply obj_ok_mono; [by apply Hobj|..].
    + intros u Hu. unfold sleeps_on. by rewrite lookup_insert_ne by (by intros ->).
    + intros u Hu. unfold frames_in. by rewrite lookup_insert_ne by (by intros ->).
  - intros u uth a [[-> <-]|[Hne Hu]]%lookup_insert_Some; [auto|by eapply Hwt].
Qed.

Lemma wf_new_thread bad N cur ts objs lk cfs sl rq zb t th :
  wf bad N cur ts objs lk cfs sl rq zb → ts !! t = None → frames_ok objs (t_frames th) →
  (∀ a, t_wait th = Some a → kind objs a = Some KSem) →
  wf bad (t :: N) cur (<[t := th]> ts) objs lk cfs sl rq zb.
Proof.
  intros [Hnd Hdom Hasl Hfr Hcur Hidle Hrun Hobj Hsem Hwt Hlk] Hnone Hf Hw.
  assert (Hnot : t ∉ option_list cur ++ sl ++ rq ++ zb ++ N).
  { rewrite Hdom, Hnone. by intros [? ?]. }
  assert (Hp : option_list cur ++ sl ++ rq ++ zb ++ t :: N ≡ₚ
               t :: option_list cur ++ sl ++ rq ++ zb ++ N) by solve_Permutation.
  assert (Hsl : ∀ u, u ∈ sl → u ≠ t) by (intros u Hu ->; set_solver).
  assert (Hrq : ∀ u, u ∈ rq → u ≠ t) by (intros u Hu ->; set_solver).
  split; try done.
  - rewrite Hp. by apply list.NoDup_cons.
  - intros u. rewrite Hp, elem_of_cons, Hdom, lookup_insert_is_Some'. naive_solver.
  - intros u Hu. rewrite lookup_insert_ne by (by apply not_eq_sym, Hsl). by apply Hasl.
  - intros u uth [[-> <-]|[Hne Hu]]%lookup_insert_Some; [done|by eapply Hfr].
  - intros u uth -> [[-> <-]|[Hne Hu']]%lookup_insert_Some; [|by eapply Hrun].
    destruct Hnot. set_solver.
  - intros a o Ho Hb. eapply obj_ok_mono; [by apply Hobj|..].
    + intros u Hu. unfold sleeps_on. by rewrite lookup_insert_ne by (by apply not_eq_sym, Hsl).
    + intros u Hu. unfold frames_in. by rewrite lookup_insert_ne by (by apply not_eq_sym, Hrq).
  - intros u uth a [[-> <-]|[Hne Hu]]%lookup_insert_Some; [auto|by eapply Hwt].
Qed.

(** Threads that are in no other place disappear. *)
Lemma wf_without bad N N' cur ts ts' objs lk cfs sl rq zb zb' l :
  wf bad N cur ts objs lk cfs sl rq zb → zb ++ N ≡ₚ l ++ zb' ++ N' → without l ts ts' →
  wf bad N' cur ts' objs lk cfs sl rq zb'.
Proof.
  intros [Hnd Hdom Hasl Hfr Hcur Hidle Hrun Hobj Hsem Hwt Hlk] Hl Hw.
  assert (Hp : option_list cur ++ sl ++ rq ++ zb ++ N ≡ₚ
               l ++ option_list cur ++ sl ++ rq ++ zb' ++ N') by (rewrite Hl; solve_Permutation).
  rewrite Hp in Hnd. apply list.NoDup_app in Hnd as (_ & Hdis & Hnd).
  assert (Hsub : ∀ u uth, ts' !! u = Some uth → ts !! u = Some uth).
  { intros u uth. rewrite (Hw u). by case_decide. }
  assert (Hkeep : ∀ u, u ∉ l → ts' !! u = ts !! u).
  { intros u Hu. rewrite (Hw u). by rewrite decide_False. }
  assert (Hsl : ∀ u, u ∈ sl → u ∉ l) by (intros u Hu Hin; apply (Hdis u); set_solver).
  assert (Hrq : ∀ u, u ∈ rq → u ∉ l) by (intros u Hu Hin; apply (Hdis u); set_solver).
  split; try done.
  - intros u. rewrite (Hw u). specialize (Hdom u). rewrite Hp, elem_of_app in Hdom.
    case_decide as Hin.
    + split; [|by intros [? ?]]. intros Hu. by destruct (Hdis u Hin).
    + naive_solver.
  - intros u Hu. rewrite Hkeep by auto. by apply Hasl.
  - intros u uth Hu. eauto.
  - intros u uth Hc Hu. eauto.
  - intros a o Ho Hb. eapply obj_ok_mono; [by apply Hobj|..].
    + intros u Hu. unfold sleeps_on. by rewrite Hkeep by auto.
    + intros u Hu. unfold frames_in. by rewrite Hkeep by auto.
  - intros u uth a Hu. eauto.
Qed.

(** A thread being created is put on the run queue. *)
Lemma wf_enqueue bad N cur ts objs lk cfs sl rq zb t :
  wf bad (t :: N) cur ts objs lk cfs sl rq zb → wf bad N cur ts objs lk cfs sl (rq ++ [t]) zb.
Proof.
  intros [Hnd Hdom Hasl Hfr Hcur Hidle Hrun Hobj Hsem Hwt Hlk].
  assert (Hp : option_list cur ++ sl ++ (rq ++ [t]) ++ zb ++ N ≡ₚ
               option_list cur ++ sl ++ rq ++ zb ++ t :: N) by solve_Permutation.
  split; try done.
  - by rewrite Hp.
  - intros u. rewrite Hp. apply Hdom.
  - intros a o Ho Hb. eapply obj_ok_mono; [by apply Hobj|set_solver..].
Qed.

(** The current thread gives up the processor. *)
Lemma wf_switch ts objs lk cfs sl rq zb t th st fs :
  wf None [] (Some t) ts objs lk cfs sl rq zb → ts !! t = Some th → frames_ok objs fs →
  st ≠ S_RUN →
  (st = S_SLEEP → ∃ w f fs', t_sleepaddr th = Some w ∧ waits_on f w ∧ may_sleep objs w ∧ fs = f :: fs') →
  let '(sl', rq', zb') := stashed st t sl rq zb in
  wf None [] None (<[t := set_frames fs th]> ts) objs lk [] sl' rq' zb'.
Proof.
  intros Hwf Hth Hfs Hst Hsleep. pose proof Hwf as [Hnd Hdom Hasl Hfr Hcur Hidle Hrun Hobj Hsem Hwt Hlk].
  pose proof Hnd as [Hnot _]%list.NoDup_cons. fold (@app Z) in *.
  assert (Hsl : ∀ u, u ∈ sl → t ≠ u) by (intros u Hu ->; set_solver).
  assert (Hrq : ∀ u, u ∈ rq → t ≠ u) by (intros u Hu ->; set_solver).
  destruct (stashed st t sl rq zb) as [[sl' rq'] zb'] eqn:Est.
  assert (Hp : sl' ++ rq' ++ zb' ++ [] ≡ₚ option_list (Some t) ++ sl ++ rq ++ zb ++ []).
  { destruct st; simplify_eq/=; solve_Permutation. }
  assert (Hrq' : ∀ u, u ∈ rq → u ∈ rq') by (destruct st; simplify_eq/=; set_solver).
  assert (Hsl' : ∀ u, u ∈ sl' → u ∈ sl ∨ u = t ∧ st = S_SLEEP).
  { destruct st; simplify_eq/=; set_solver. }
  split; try done.
  - cbn [option_list app]. by rewrite Hp.
  - intros u. cbn [option_list app]. rewrite Hp, Hdom, lookup_insert_is_Some'.
    split; [by right|]. intros [<-|]; [by eexists|done].
  - intros u [Hu|[-> ->]]%Hsl'.
    + rewrite lookup_insert_ne by auto. by apply Hasl.
    + destruct Hsleep as (w & f & fs' & Hw & Hon & _ & ->); [done|].
      exists (set_frames (f :: fs') th), w, f, fs'. by rewrite lookup_insert_eq.
  - intros u uth [[-> <-]|[Hne Hu]]%lookup_insert_Some; [done|by eapply Hfr].
  - intros a o Ho _. pose proof (Hobj a o Ho ltac:(done)) as Hok.
    destruct (decide (st = S_SLEEP ∧ t_sleepaddr th = Some (WObj a))) as [[Hs Hta]|Hother].
    { destruct Hsleep as (w & f & fs' & Hw & _ & Hmay & _); [done|]. simplify_eq. cbn in Hmay.
      rewrite Ho in Hmay. destruct o as [n c|n [hl|]|n]; cbn; try done. lia. }
    eapply obj_ok_mono; [done|..].
    + intros u [Hu|[-> ->]]%Hsl' Hs; unfold sleeps_on in Hs.
      * rewrite lookup_insert_ne in Hs by auto. done.
      * rewrite lookup_insert_eq in Hs. cbn in Hs. tauto.
    + intros u Hu Ha. split; [auto|]. unfold frames_in. by rewrite lookup_insert_ne by auto.
  - intros u uth a [[-> <-]|[Hne Hu]]%lookup_insert_Some; [exact (Hwt _ _ a Hth)|by eapply Hwt].
Qed.

(** The head of the run queue becomes the current thread; its frames are
    those of the processor, without the innermost if it is [FAcquire]. *)
Definition top_acquire (fs : list frame) : option Z :=
  match fs with FAcquire a _ :: _ => Some a | _ => None end.
Definition below_acquire (fs : list frame) : list frame :=
  match fs with FAcquire _ _ :: rest => rest | _ => fs end.

Lemma wf_pick ts objs lk sl rq zb t th :
  wf None [] None ts objs lk [] sl (t :: rq) zb → ts !! t = Some th →
  wf (top_acquire (t_frames th)) [] (Some t) (<[t := set_frames [] th]> ts) objs lk
     (below_acquire (t_frames th)) sl rq zb.
Proof.
  intros [Hnd Hdom Hasl Hfr Hcur Hidle Hrun Hobj Hsem Hwt Hlk] Hth.
  assert (Hp : option_list (Some t) ++ sl ++ rq ++ zb ++ [] ≡ₚ
               option_list None ++ sl ++ (t :: rq) ++ zb ++ []) by (cbn; solve_Permutation).
  rewrite <- Hp in Hnd. pose proof Hnd as [Hnot _]%list.NoDup_cons.
  assert (Hsl : ∀ u, u ∈ sl → t ≠ u) by (intros u Hu ->; set_solver).
  assert (Hrq : ∀ u, u ∈ rq → t ≠ u) by (intros u Hu ->; set_solver).
  destruct (Hfr t th Hth) as [Hf1 Hf2]. split; try done.
  - intros u. rewrite Hp, Hdom, lookup_insert_is_Some'. split; [by right|].
    intros [<-|]; [by eexists|done].
  - intros u Hu. rewrite lookup_insert_ne by auto. by apply Hasl.
  - intros u uth [[-> <-]|[Hne Hu]]%lookup_insert_Some; [by repeat constructor|by eapply Hfr].
  - unfold below_acquire. destruct (t_frames th) as [|f fs]; [done|].
    destruct f; cbn in *; split; try done; try (by inversion_clear Hf1); by constructor.
  - intros u uth [= <-]. rewrite lookup_insert_eq. by intros [= <-].
  - intros a o Ho Ha. eapply obj_ok_mono; [by apply Hobj|..].
    + intros u Hu. unfold sleeps_on. by rewrite lookup_insert_ne by auto.
    + intros u [->|Hu]%elem_of_cons; unfold frames_in.
      * rewrite Hth. intros (spl & rest & Heq). cbn in Heq. rewrite Heq in Ha. by destruct Ha.
      * by rewrite lookup_insert_ne by auto.
  - intros u uth a [[-> <-]|[Hne Hu]]%lookup_insert_Some; [exact (Hwt _ _ a Hth)|by eapply Hwt].
Qed.

Lemma not_acquire_top fs :
  Forall not_acquire fs → top_acquire fs = None ∧ below_acquire fs = fs.
Proof. destruct fs as [|f fs]; [done|]. intros [Hf _]%Forall_cons_iff. by destruct f. Qed.

Lemma table_blocks_grow {Y} (f : Z → Y → list Z) m k x y D :
  m !! k = Some x → f k y ≡ₚ f k x ++ D → table_blocks f (<[k := y]> m) ≡ₚ table_blocks f m ++ D.
Proof.
  intros Hk Hf. rewrite (table_blocks_delete f m k x Hk), <- insert_delete_eq.
  rewrite table_blocks_insert, Hf by apply lookup_delete_eq. solve_Permutation.
Qed.

Section Safe.
Context {H E : Type} `{KHeapLaws H} `{ThreadEnv E}.
Context (rq0 : list Z) (objs0 : gmap Z kobj) (cur0 : option Z).
Implicit Types (σ : kstate H E) (sl rq zb N X : list Z) (bad : option Z) (d : Z).
Abbreviation I := (inv rq0 objs0 cur0).
Abbreviation post := (flow_post rq0 objs0 cur0).

(** The invariant between events.  A thread that has just been picked in
    [lock_acquire] still has to look at its lock. *)
Definition settled σ sl rq zb : Prop :=
  I (top_acquire (k_curframes σ)) [] [] 0 (set_curframes (below_acquire (k_curframes σ)) σ) sl rq zb ∧
  (∀ a, top_acquire (k_curframes σ) = Some a →
     kind (k_objs σ) a = Some KLock ∧ 0 < k_curspl σ ∧ k_curthread σ ≠ None).

Lemma check_stack_wp s th Q σ : Q tt σ → wp s (check_stack th) Q σ.
Proof. intros HQ. unfold check_stack. destruct (t_stack th) as [[p bs]|]; by wp_steps. Qed.

Lemma switch_away_inv s st fs d σ sl rq zb t th :
  I None [] [] d σ sl rq zb → k_curthread σ = Some t → k_threads σ !! t = Some th →
  frames_ok (k_objs σ) fs → fs ≫= start_blocks = k_curframes σ ≫= start_blocks →
  st ≠ S_RUN →
  (st = S_SLEEP → ∃ w f fs', t_sleepaddr th = Some w ∧ waits_on f w ∧ may_sleep (k_objs σ) w ∧
                             fs = f :: fs') →
  d = (if decide (st = S_ZOMB) then 1 else 0) →
  (st = S_ZOMB → Z.of_nat (length zb) < thread_limit) →
  wp s (switch_away st fs) (λ _ σ', ∃ sl' rq' zb', settled σ' sl' rq' zb') σ.
Proof.
  intros (Hq & Hwf & Hs & Hn & _) Hc Hth Hfs Hsb Hst Hsl Hd Hz. rewrite Hc in Hwf.
  pose proof (wf_run _ _ _ _ _ _ _ _ _ _ Hwf t th eq_refl Hth) as Hempty.
  pose proof (wf_switch _ _ _ _ _ _ _ _ _ st fs Hwf Hth Hfs Hst Hsl) as Hwf'.
  unfold switch_away. wp_steps. apply wp_bind, check_stack_wp. wp_steps. apply wp_bind.
  eapply (stash_spec s st t _ _ sl rq zb
    (own (set_curframes [] (set_threads (<[t := set_frames fs th]> (k_threads σ)) σ)) ++ [])).
  - revert Hq. apply (queues_perm σ). unfold own. cbn.
    rewrite (table_blocks_grow _ _ t th _ (fs ≫= start_blocks) Hth), Hsb; [solve_Permutation|].
    unfold thread_blocks. cbn. rewrite Hempty. cbn. solve_Permutation.
  - unfold counted in Hn. rewrite Hc in Hn. cbn in Hn. lia.
  - done.
  - intros r σ1 (a & z & q & h & ->) Hq'. wp_steps. specialize (Hq' ltac:(lia)).
    destruct (stashed st t sl rq zb) as [[sl' rq'] zb'] eqn:Est.
    exists sl', rq', zb'. split; [|done]. split_and!; [exact Hq'|exact Hwf'|..].
    + cbn. destruct st; simplify_eq/=; try done. by apply since_app.
    + unfold counted in *. cbn. rewrite Hc in Hn. cbn in Hn.
      destruct st; simplify_eq/=; rewrite ?length_app; cbn; lia.
    + intros _. cbn. exists t. rewrite lookup_insert_eq. by eauto.
Qed.

(** The frames of the code that switches go on top of those below it. *)
Lemma plain_app bad d ks σ sl rq zb :
  I bad [] [] d σ sl rq zb → plain (k_objs σ) ks →
  Forall (frame_ok (k_objs σ)) (ks ++ k_curframes σ) ∧
  Forall not_acquire (ks ++ k_curframes σ) ∧
  (ks ++ k_curframes σ) ≫= start_blocks = k_curframes σ ≫= start_blocks.
Proof.
  intros (_ & Hwf & _) (Hk1 & Hk2 & Hk3). destruct (wf_cur _ _ _ _ _ _ _ _ _ _ Hwf) as [Hc1 Hc2].
  split_and!; [by apply Forall_app..|]. by rewrite bind_app, Hk3.
Qed.

Lemma not_acquire_frames objs fs :
  Forall (frame_ok objs) fs → Forall not_acquire fs → frames_ok objs fs.
Proof. intros H1' H2'. split; [done|]. destruct fs; [done|]. by inversion_clear H2'. Qed.

Lemma apply_flow_inv s fl σ zb :
  post zb fl σ → (∀ ks, fl = Switch S_ZOMB ks → Z.of_nat (length zb) < thread_limit) →
  wp s (apply_flow fl) (λ _ σ', ∃ sl rq zb', settled σ' sl rq zb') σ.
Proof.
  intros (Hc & sl & rq & Hfl) Hz. unfold apply_flow. wp_steps.
  destruct fl as [ks|st ks].
  - destruct Hfl as (Hi & Hks & Hidle). destruct (plain_app _ _ _ _ _ _ _ Hi Hks) as (H1' & H2' & H3').
    wp_steps. exists sl, rq, zb. unfold settled. cbn. destruct (not_acquire_top _ H2') as [-> ->].
    split; [|done]. destruct Hi as (Hq & Hwf & Hrem). split_and!; try apply Hrem.
    + revert Hq. apply (queues_perm σ). unfold own. cbn. by rewrite H3'.
    + cbn. destruct Hwf; split; try done. intros Hnone. rewrite Hidle by congruence. auto.
  - destruct st; [done|..].
    + destruct Hfl as (Hi & Hks & Hne). destruct (plain_app _ _ _ _ _ _ _ Hi Hks) as (H1' & H2' & H3').
      destruct cur0 as [t|] eqn:Hc0; [|done]. rewrite <- Hc0 in Hi.
      destruct (inv_cur _ _ _ _ _ _ _ _ _ _ _ _ Hi Hc) as ([th Hth] & _).
      eapply switch_away_inv; try done. by apply not_acquire_frames.
    + destruct Hfl as (Hi & t & th & w & k & rest & Hct & Hth & Hw & Hon & Hmay & -> & Hk & Hr).
      destruct (plain_app _ _ _ _ _ _ _ Hi Hr) as (H1' & H2' & H3').
      eapply (switch_away_inv s S_SLEEP ((k :: rest) ++ k_curframes σ)); try done.
      * congruence.
      * split; [by constructor|done].
      * cbn. rewrite H3'. by destruct k.
      * intros _. by exists w, k, (rest ++ k_curframes σ).
    + destruct Hfl as (Hi & Hks & Hne). destruct (plain_app _ _ _ _ _ _ _ Hi Hks) as (H1' & H2' & H3').
      destruct cur0 as [t|] eqn:Hc0; [|done]. rewrite <- Hc0 in Hi.
      destruct (inv_cur _ _ _ _ _ _ _ _ _ _ _ _ Hi Hc) as ([th Hth] & _).
      eapply switch_away_inv; try done; [by apply not_acquire_frames|]. intros _. by eapply Hz.
Qed.
Lemma scheduler_spec s Q σ sl t rq zb L :
  queues σ sl (t :: rq) zb L →
  (∀ q, 0 < k_curspl σ → queues (set_runqueue (Some q) σ) sl rq zb L →
        Q t (set_runqueue (Some q) σ)) →
  wp s scheduler Q σ.
Proof.
  intros (a & z & q & Ha & Hz & Hq & Ra & Rz & Rq & Hown & Hl1 & Hl2) HQ.
  destruct (q_remhead_spec q t rq Rq) as (q' & Hrun & Rq' & _ & Hb).
  unfold scheduler. wp_steps. apply HQ; [lia|]. exists a, z, q'. rewrite Hb.
  split_and!; try done. cbn in *. lia.
Qed.

Lemma md_switch_spec s sw t Q σ bad N cur objs lk cfs sl rq zb :
  is_Some (k_threads σ !! sw) → is_Some (k_threads σ !! t) →
  wf bad N cur (k_threads σ) objs lk cfs sl rq zb →
  (∀ ts i, wf bad N cur ts objs lk cfs sl rq zb →
     table_blocks thread_blocks ts ≡ₚ table_blocks thread_blocks (k_threads σ) →
     Q tt (set_in_interrupt i (set_threads ts σ))) →
  wp s (md_switch sw t) Q σ.
Proof.
  intros [swth Hsw] [th Hth] Hwf HQ. unfold md_switch. destruct (Z.eqb_spec sw t).
  - wp_steps. specialize (HQ (k_threads σ) (k_in_interrupt σ) Hwf ltac:(done)). by destruct σ.
  - wp_steps. apply wp_bind. eapply wp_get_thread.
    { cbn. by rewrite lookup_insert_ne. }
    wp_steps. apply HQ.
    + eapply wf_put_thread; [done|exact Hsw|done|by right].
    + by eapply table_blocks_update.
Qed.

(** Zombies are destroyed once another thread runs. *)
Lemma exorcise_inv s Q σ sl rq zb :
  settled σ sl rq zb → k_curthread σ ≠ None →
  (∀ ts σ', settled σ' sl rq [] → moved (set_threads ts σ) σ' → Q tt σ') →
  wp s exorcise Q σ.
Proof.
  intros [(Hq & Hwf & Hs & Hn & _) Htop] Hc HQ.
  pose proof (wf_nodup _ _ _ _ _ _ _ _ _ _ Hwf) as Hnd.
  set (cfb := below_acquire (k_curframes σ) ≫= start_blocks).
  eapply (exorcise_spec s _ _ sl rq zb (table_blocks obj_blocks (k_objs σ) ++ cfb)).
  - do 3 apply list.NoDup_app in Hnd as (_ & _ & Hnd). by rewrite app_nil_r in Hnd.
  - intros t Ht. apply (wf_dom _ _ _ _ _ _ _ _ _ _ Hwf). set_solver.
  - eapply queues_perm, Hq. by rewrite app_nil_r.
  - intros ts σ' Hw Hm Hq'. apply (HQ ts); [|done]. destruct Hm as (a & z & q & h & ->).
    split; [|done]. split_and!; [..|done|done|done].
    + eapply queues_perm, Hq'. unfold own, cfb. cbn. by rewrite app_nil_r.
    + eapply wf_without; [exact Hwf|done|exact Hw].
Qed.

Lemma pick_inv s σ sl t rq zb :
  queues σ sl (t :: rq) zb (own σ) →
  wf None [] None (k_threads σ) (k_objs σ) (k_lock σ) [] sl (t :: rq) zb →
  since rq0 objs0 cur0 (k_objs σ) rq → counted 0 σ sl (t :: rq) →
  k_curthread σ = None → k_curframes σ = [] →
  (∃ sw, k_switching σ = Some sw ∧ is_Some (k_threads σ !! sw)) →
  wp s pick (λ _ σ', (∃ zb', settled σ' sl rq zb') ∧ k_curthread σ' = Some t) σ.
Proof.
  intros Hq Hwf Hs Hn Hc Hcf (sw & Hsw & Hswth).
  assert (Hdom : ∀ ts, wf None [] None ts (k_objs σ) (k_lock σ) [] sl (t :: rq) zb → is_Some (ts !! t)).
  { intros ts Hw. apply (wf_dom _ _ _ _ _ _ _ _ _ _ Hw). set_solver. }
  unfold pick. wp_steps. apply wp_bind. eapply scheduler_spec; [done|]. intros q Hspl Hq1. wp_steps.
  apply wp_bind. eapply (md_switch_spec s sw t); [done|by apply Hdom|exact Hwf|]. intros ts i Hwf1 Hbl.
  destruct (Hdom ts Hwf1) as [th Hth]. wp_steps.
  pose proof (wf_pick _ _ _ _ _ _ _ _ Hwf1 Hth) as Hwf2.
  destruct (wf_frames _ _ _ _ _ _ _ _ _ _ Hwf1 t th Hth) as [Hf1 _].
  match goal with |- wp _ _ _ ?x => set (σ2 := x) end.
  assert (Hown : own (set_curframes (below_acquire (t_frames th)) σ2) ≡ₚ own σ).
  { unfold own. cbn. rewrite Hcf, <- Hbl. rewrite (table_blocks_delete _ ts t th Hth), <- insert_delete_eq.
    rewrite table_blocks_insert by apply lookup_delete_eq. unfold thread_blocks. cbn.
    assert (below_acquire (t_frames th) ≫= start_blocks = t_frames th ≫= start_blocks) as ->.
    { by destruct (t_frames th) as [|[] ?]. }
    solve_Permutation. }
  assert (Hset : settled σ2 sl rq zb).
  { split; [split_and!|].
    - eapply queues_perm; [rewrite app_nil_r; exact Hown|]. exact Hq1.
    - exact Hwf2.
    - done.
    - unfold counted in *. rewrite Hc in Hn. cbn in *. lia.
    - done.
    - cbn. intros a Ha. split; [|done]. destruct (t_frames th) as [|[] ?]; try done.
      simplify_eq/=. by inversion_clear Hf1. }
  assert (Hdone : ∀ zb' σ3, settled σ3 sl rq zb' → k_curthread σ3 = Some t →
    wp s (match t_vmspace th with Some v => modify_env (as_activate v) | None => mret tt end)
      (λ _ σ', (∃ zb', settled σ' sl rq zb') ∧ k_curthread σ' = Some t) σ3).
  { intros zb' σ3 Hs3 Hc3. destruct (t_vmspace th); wp_steps; (split; [by exists zb'|done]). }
  destruct (t_frames th) as [|[] ?] eqn:Hfr; try (by wp_steps; split; [exists zb|]).
  all: apply wp_bind; eapply exorcise_inv; [exact Hset|done|].
  all: intros ts' σ3 Hs3 (?&?&?&?&->); by eapply Hdone.
Qed.
(** ** Calls that return *)

Definition ok_after zb {A} (_ : A) σ : Prop :=
  k_curthread σ = cur0 ∧ ∃ sl rq, I None [] [] 0 σ sl rq zb.

Lemma returning_inv {A} s (m : K H E A) zb σ :
  wp s m (ok_after zb) σ → wp s (returning m) (post zb) σ.
Proof.
  intros Hm. unfold returning. apply wp_bind. eapply wp_mono; [done|].
  intros _ σ' (Hc & sl & rq & Hi). wp_steps. by apply (flow_post_return _ _ _ _ _ sl rq).
Qed.

Lemma quiet_ok σ σ' sl' rq' zb :
  k_curthread σ = cur0 → I None [] [] 0 σ' sl' rq' zb → quiet σ σ' → ok_after zb tt σ'.
Proof. intros Hc Hi (?&?&?&?&?&?&->&_). split; [done|]. by exists sl', rq'. Qed.

Lemma grown_ok σ σ' sl rq zb (r : option Z) :
  k_curthread σ = cur0 → I None [] [] 0 σ' sl rq zb → grown σ σ' → ok_after zb r σ'.
Proof. intros Hc Hi (?&?&->&_). split; [done|]. by exists sl, rq. Qed.

Lemma kind_lookup objs a o : objs !! a = Some o → kind objs a = Some (kind_of o).
Proof. unfold kind. by intros ->. Qed.

Lemma sem_destroy_inv s a σ sl rq zb :
  I None [] [] 0 σ sl rq zb → k_curthread σ = cur0 → kind (k_objs σ) a = Some KSem → unused σ a →
  wp s (sem_destroy (Some a)) (ok_after zb) σ.
Proof.
  intros Hi Hc Hk Hu. destruct (kind_Sem _ _ Hk) as (n & c & Ho).
  unfold sem_destroy. wp_steps. apply wp_bind.
  eapply (thread_hassleepers_spec s (WObj a) _ (set_curspl SPL_HIGH σ)); [apply Hi|..].
  { intros t Ht. by eapply (inv_threads _ _ _ _ _ _ _ σ). }
  { intros _. by apply wp_bind, wp_assert. }
  intros _. wp_steps. eapply obj_free_inv; [exact Hi|exact Ho|done|exact Hu|done|].
  intros h σ' Hi'. split; [done|]. by exists sl, rq.
Qed.

Lemma cv_destroy_inv s a σ sl rq zb :
  I None [] [] 0 σ sl rq zb → k_curthread σ = cur0 → kind (k_objs σ) a = Some KCv → unused σ a →
  wp s (cv_destroy (Some a)) (ok_after zb) σ.
Proof.
  intros Hi Hc Hk Hu. destruct (kind_Cv _ _ Hk) as (n & Ho).
  unfold cv_destroy. wp_steps. apply wp_bind.
  eapply (thread_hassleepers_spec s (WObj a) _ (set_curspl SPL_HIGH σ)); [apply Hi|..].
  { intros t Ht. by eapply (inv_threads _ _ _ _ _ _ _ σ). }
  { intros _. by apply wp_bind, wp_assert. }
  intros _. wp_steps. eapply obj_free_inv; [exact Hi|exact Ho|done|exact Hu|done|].
  intros h σ' Hi'. split; [done|]. by exists sl, rq.
Qed.

Lemma lock_destroy_inv s a σ sl rq zb :
  I None [] [] 0 σ sl rq zb → k_curthread σ = cur0 → kind (k_objs σ) a = Some KLock → unused σ a →
  wp s (lock_destroy (Some a)) (ok_after zb) σ.
Proof.
  intros Hi Hc Hk Hu. destruct (kind_Lock _ _ Hk) as (n & hl & Ho).
  unfold lock_destroy. wp_steps. apply bool_decide_eq_true in Hassert as ->.
  eapply obj_free_inv; [exact Hi|exact Ho|done|exact Hu|done|].
  intros h σ' Hi'. split; [done|]. by exists sl, rq.
Qed.

(** ** New threads *)

Lemma inv_new_thread X N d σ sl rq zb t n wait pid :
  I None (t :: n :: X) N d σ sl rq zb → (∀ a, wait = Some a → kind (k_objs σ) a = Some KSem) →
  let th := Thread [] 0 n None None None None pid (replicate MAX_CHILD None) None wait None in
  I None X (t :: N) d (set_threads (<[t := th]> (k_threads σ)) σ) sl rq zb.
Proof.
  intros Hi Hw th. destruct (inv_fresh _ _ _ _ _ _ _ _ _ _ _ t Hi) as [_ Ht]; [set_solver|].
  destruct Hi as (Hq & Hwf & Hs & Hn & Hsw). split_and!; try done.
  - revert Hq. apply (queues_perm σ). unfold own. cbn. rewrite table_blocks_insert by done.
    unfold thread_blocks. cbn. solve_Permutation.
  - apply wf_new_thread; try done.
  - cbn. intros Hnone. destruct (Hsw Hnone) as (sw & Hsw1 & Hsw2). exists sw. split; [done|].
    apply lookup_insert_is_Some'. by right.
Qed.

(** [thread_create] may write through NULL, in [insert_to_plist]. *)
Lemma wp_deref_maybe {A} (o : option A) Q σ : (∀ a, o = Some a → Q a σ) → wp false (deref o) Q σ.
Proof. destruct o as [a|]; [|done]. intros HQ. by apply HQ. Qed.

Lemma thread_create_inv len X Q σ sl rq zb :
  I None X [] 0 σ sl rq zb → 0 ≤ len < 2 ^ 16 →
  (∀ σ', k_curthread σ' = k_curthread σ → I None X [] 0 σ' sl rq zb → Q None σ') →
  (∀ t th σ', k_curthread σ' = k_curthread σ → k_numthreads σ' = k_numthreads σ →
     k_threads σ' !! t = Some th → t_frames th = [] → t_stack th = None →
     I None X [t] 0 σ' sl rq zb → Q (Some t) σ') →
  wp false (thread_create len) Q σ.
Proof.
  intros Hi Hlen HQ0 HQ1. unfold thread_create, kstrdup. apply wp_bind.
  eapply kmallocK_inv; [done|done|]. intros [t|] h1 Hi1; cbn in Hi1; [|by wp_steps; apply HQ0].
  apply wp_bind. eapply kmallocK_inv; [done|lia|]. intros [n|] h2 Hi2; cbn in Hi2; apply wp_bind; cycle 1.
  { eapply kfreeK_inv; [done|]. intros h3 Hi3. wp_steps. by apply HQ0. }
  eapply sem_create_inv; [done|lia|done|]. intros wait σ1 Hi3 (objs & h & -> & _) Hwait. wp_steps.
  unfold insert_to_plist. apply wp_bind, wp_bind.
  eapply kmallocK_inv.
  { apply (inv_new_thread X [] 0 _ _ _ _ t n wait (k_max_pid σ)); [|exact Hwait].
    eapply inv_own, Hi3. solve_Permutation. }
  { done. }
  intros r h3 Hi4. apply wp_bind, wp_deref_maybe. intros p ->. wp_steps.
  eapply (HQ1 t); cycle 5.
  - split; [|by apply Hi4]. eapply queues_forget; [|apply Hi4].
    apply submseteq_skips_l. by apply submseteq_inserts_l.
  - done.
  - done.
  - cbn. apply lookup_insert_eq.
  - done.
  - done.
Qed.
End Safe.
