(* ===== verification/SystemProc.v ===== *)
(** * Threads and processes preserve the invariant

    [thread_fork], [thread_exit] and the system calls of [Process], the
    interrupts, and the main lemma: every event that is enabled in a state
    satisfying the invariant leads to such a state. *)

From S2P Require Import Prelude KArray Queue Kstate Thread Synch Process ThreadSpec System SystemInv SystemSafe.

Section Proc.
Context {H E : Type} `{KHeapLaws H} `{ThreadEnv E}.
Context (rq0 : list Z) (objs0 : gmap Z kobj) (cur0 : option Z).
Implicit Types (σ : kstate H E) (sl rq zb N X : list Z) (bad : option Z) (d : Z).
Abbreviation I := (inv rq0 objs0 cur0).
Abbreviation post := (flow_post rq0 objs0 cur0).

Lemma inv_moved bad X N d σ σ' sl rq zb :
  I bad X N d σ sl rq zb → moved σ σ' → queues σ' sl rq zb (own σ ++ X) → I bad X N d σ' sl rq zb.
Proof. intros (_ & Hrest) (a & z & q & h & ->) Hq. by split. Qed.

Lemma set_heap_id h σ : k_heap σ = h → set_heap h σ = σ.
Proof. intros <-. by destruct σ. Qed.
Lemma set_env_id e σ : k_env σ = e → set_env e σ = σ.
Proof. intros <-. by destruct σ. Qed.

(** ** Making room *)

Lemma preallocate_sleepers_inv s n Q bad X N d σ sl rq zb :
  I bad X N d σ sl rq zb → n ≤ array_limit →
  (∀ r σ', I bad X N d σ' sl rq zb → moved σ σ' → Q r σ') →
  wp s (preallocate_array k_sleepers set_sleepers n) Q σ.
Proof.
  intros Hi Hlim HQ. pose proof Hi as ((a & z & q & Ha & Hz & Hq & Ra & Rz & Rq & Hown & Hl) & _).
  destruct (array_preallocate_spec a (Some <$> sl) n (k_heap σ)
    (array_blocks z ++ queue_blocks q ++ own σ ++ X)) as (r & a' & h' & Hrun & Hown' & Ra' & _); [done..|].
  unfold preallocate_array. wp_steps. assert (Hm : moved σ (set_heap h' (set_sleepers (Some a') σ))).
  { apply moved_intro. reflexivity. }
  apply HQ; [|done]. eapply inv_moved; [done..|]. by exists a', z, q.
Qed.

Lemma preallocate_zombies_inv s n Q bad X N d σ sl rq zb :
  I bad X N d σ sl rq zb → n ≤ array_limit →
  (∀ r σ', I bad X N d σ' sl rq zb → moved σ σ' → Q r σ') →
  wp s (preallocate_array k_zombies set_zombies n) Q σ.
Proof.
  intros Hi Hlim HQ. pose proof Hi as ((a & z & q & Ha & Hz & Hq & Ra & Rz & Rq & Hown & Hl) & _).
  destruct (array_preallocate_spec z (Some <$> zb) n (k_heap σ)
    (array_blocks a ++ queue_blocks q ++ own σ ++ X)) as (r & z' & h' & Hrun & Hown' & Rz' & _);
    [done| |done|].
  { revert Hown. apply heap_owns_perm. solve_Permutation. }
  unfold preallocate_array. wp_steps. assert (Hm : moved σ (set_heap h' (set_zombies (Some z') σ))).
  { apply moved_intro. reflexivity. }
  apply HQ; [|done]. eapply inv_moved; [done..|]. exists a, z', q. split_and!; try done; [|apply Hl..].
  revert Hown'. apply heap_owns_perm. solve_Permutation.
Qed.

Lemma scheduler_preallocate_inv s n Q bad X N d σ sl rq zb :
  I bad X N d σ sl rq zb → n ≤ queue_limit →
  (∀ r σ', I bad X N d σ' sl rq zb → moved σ σ' → Q r σ') →
  wp s (scheduler_preallocate n) Q σ.
Proof.
  intros Hi Hlim HQ. pose proof Hi as ((a & z & q & Ha & Hz & Hq & Ra & Rz & Rq & Hown & Hl) & _).
  destruct (q_preallocate_spec q rq n (k_heap σ)
    (array_blocks a ++ array_blocks z ++ own σ ++ X)) as (r & q' & h' & Hrun & Hown' & Rq' & _);
    [done| |done|].
  { revert Hown. apply heap_owns_perm. solve_Permutation. }
  unfold scheduler_preallocate. wp_steps.
  assert (Hm : moved σ (set_heap h' (set_runqueue (Some q') σ))).
  { apply moved_intro. reflexivity. }
  apply HQ; [|done]. eapply inv_moved; [done..|]. exists a, z, q'. split_and!; try done; [|apply Hl..].
  revert Hown'. apply heap_owns_perm. solve_Permutation.
Qed.

(** ** A thread that could not be created completely *)

Section Drop.
Context (X : list Z) (σ : kstate H E) (sl rq zb : list Z) (t : Z) (th : thread).
Context (Hi : I None X [t] 0 σ sl rq zb) (Hth : k_threads σ !! t = Some th).

Definition rest_blocks : list Z :=
  own (set_threads (delete t (k_threads σ)) σ) ++ (t_frames th ≫= start_blocks) ++ X.

Lemma drop_blocks :
  queues σ sl rq zb (match t_stack th with Some (p, _) => [p] | None => [] end ++
                     t_name th :: t :: rest_blocks).
Proof.
  eapply queues_perm, Hi. unfold rest_blocks, own. cbn.
  rewrite (table_blocks_delete _ (k_threads σ) t th Hth). unfold thread_blocks at 2.
  destruct (t_stack th) as [[p bs]|]; cbn; solve_Permutation.
Qed.

Lemma drop_inv h e :
  k_curthread σ ≠ None → queues (set_heap h σ) sl rq zb rest_blocks →
  I None ((t_frames th ≫= start_blocks) ++ X) [] 0
    (set_threads (delete t (k_threads σ)) (set_heap h (set_env e σ))) sl rq zb.
Proof.
  intros Hc Hq. destruct Hi as (_ & Hwf & Hs & Hn & _). split_and!; try done.
  cbn. eapply (wf_without _ _ _ _ _ _ _ _ _ _ _ _ _ [t]); [exact Hwf|solve_Permutation|].
  intros u. destruct (decide (u = t)) as [->|Hne].
  - rewrite decide_True by set_solver. apply lookup_delete_eq.
  - rewrite lookup_delete_ne, decide_False by set_solver. done.
Qed.
End Drop.
(** ** thread_fork *)

(** The result of a fork: an error leaves the caller what it gave for the new
    thread, success makes the thread. *)
Definition fork_post X func zb (r : Z * option Z) σ : Prop :=
  k_curthread σ = cur0 ∧
  ∃ sl rq, match r with
  | (0, Some t) => I None X [] 0 σ sl rq zb ∧ is_Some (k_threads σ !! t)
  | (0, None) => False
  | _ => I None (start_blocks (FStart func) ++ X) [] 0 σ sl rq zb
  end.

Lemma fork_fail_inv s t th func spl r X σ sl rq zb :
  I None X [t] 0 σ sl rq zb → k_threads σ !! t = Some th → t_frames th = [FStart func] →
  k_curthread σ = cur0 → cur0 ≠ None → r ≠ 0 →
  wp s (fork_fail t spl r) (fork_post X func zb) σ.
Proof.
  intros Hi Hth Hf Hc Hc0 Hr. pose proof (drop_blocks _ _ _ _ _ _ _ Hi Hth) as Hq.
  unfold fork_fail. wp_steps. apply wp_bind.
  assert (Hfree : ∀ h e, queues (set_heap h σ) sl rq zb (t_name th :: t :: rest_blocks X σ t th) →
    wp s (kfreeK (t_name th);; kfreeK t;; ts ← gets k_threads; modify (set_threads (delete t ts));;
          mret (r, None)) (fork_post X func zb) (set_heap h (set_env e (set_curspl spl σ)))).
  { intros h e Hq1. apply wp_bind. eapply kfreeK_spec; [exact Hq1|]. intros h2 Hq2.
    apply wp_bind. eapply kfreeK_spec; [exact Hq2|]. intros h3 Hq3. wp_steps.
    split; [done|]. exists sl, rq. destruct r; [done|..].
    all: pose proof (drop_inv _ _ _ _ _ _ _ Hi Hth h3 e ltac:(congruence) Hq3) as Hi3.
    all: rewrite Hf in Hi3; cbn [mbind list_bind] in Hi3; rewrite app_nil_r in Hi3; exact Hi3. }
  assert (Henv : ∀ e, wp s (match t_stack th with Some (p, _) => kfreeK p | None => mret tt end;;
    kfreeK (t_name th);; kfreeK t;; ts ← gets k_threads; modify (set_threads (delete t ts));;
          mret (r, None)) (fork_post X func zb) (set_env e (set_curspl spl σ))).
  { intros e. apply wp_bind. destruct (t_stack th) as [[p bs]|].
    - eapply (kfreeK_spec s p _ (set_env e (set_curspl spl σ))); [exact Hq|].
      intros h Hq'. by apply Hfree.
    - wp_steps. rewrite <- (set_heap_id (k_heap σ) (set_env e (set_curspl spl σ)) eq_refl). apply Hfree.
      rewrite set_heap_id; [exact Hq|reflexivity]. }
  destruct (t_cwd th); wp_steps; [apply Henv|].
  rewrite <- (set_env_id (k_env σ) (set_curspl spl σ) eq_refl). apply Henv.
Qed.

Lemma fork_atomic_inv s t th func X σ sl rq zb :
  I None X [t] 0 σ sl rq zb → k_threads σ !! t = Some th → t_frames th = [FStart func] →
  k_curthread σ = cur0 → cur0 ≠ None → k_numthreads σ < thread_limit →
  wp s (fork_atomic t) (fork_post X func zb) σ.
Proof.
  intros Hi Hth Hf Hc Hc0 Hlim. unfold fork_atomic. wp_steps.
  assert (Hl : k_numthreads σ + 1 ≤ array_limit ∧ k_numthreads σ + 1 ≤ queue_limit).
  { unfold array_limit, queue_limit, thread_limit in *. lia. }
  set (σh := set_curspl SPL_HIGH σ).
  assert (Hfail : ∀ r σ', moved σh σ' → I None X [t] 0 σ' sl rq zb → r ≠ 0 →
    wp s (fork_fail t (k_curspl σ) r) (fork_post X func zb) σ').
  { intros r σ' (?&?&?&?&->) Hi' Hr. by eapply fork_fail_inv. }
  apply wp_bind. eapply preallocate_sleepers_inv; [exact Hi|apply Hl|].
  intros r1 σ1 Hi1 Hm1. destruct (Z.eqb_spec r1 0); cbn [negb]; [|by apply Hfail].
  apply wp_bind. eapply preallocate_zombies_inv; [exact Hi1|apply Hl|].
  intros r2 σ2 Hi2 Hm2. pose proof (moved_trans _ _ _ Hm1 Hm2) as Hm02.
  destruct (Z.eqb_spec r2 0); cbn [negb]; [|by apply Hfail].
  apply wp_bind. eapply scheduler_preallocate_inv; [exact Hi2|apply Hl|].
  intros r3 σ3 Hi3 Hm3. pose proof (moved_trans _ _ _ Hm02 Hm3) as Hm03.
  destruct (Z.eqb_spec r3 0); cbn [negb]; [|by apply Hfail].
  apply wp_bind. eapply make_runnable_spec; [apply Hi3| |].
  { destruct Hi as (_ & _ & _ & Hn & _). unfold counted in Hn. lia. }
  intros r4 σ4 Hm4 Hr4. pose proof (moved_trans _ _ _ Hm03 Hm4) as Hm04.
  destruct Hr4 as [[-> Hq4]|[-> Hq4]]; cbn [negb Z.eqb]; cycle 1.
  { apply Hfail; [done| |done]. by eapply inv_moved. }
  destruct Hm03 as (?&?&?&?&->), Hm04 as (?&?&?&?&->).
  wp_steps. split; [done|]. exists sl, (rq ++ [t]).
  destruct Hi3 as (_ & Hwf & Hs & Hn & _). split; [|by exists th]. split_and!.
  - exact Hq4.
  - by apply wf_enqueue.
  - by apply since_app.
  - unfold counted in *. cbn in *. rewrite length_app. cbn. lia.
  - cbn. congruence.
Qed.
(** A new thread gets its stack and its first frame. *)
Lemma inv_start_thread X σ sl rq zb t th func stack cwd parent :
  I None (stack :: start_blocks (FStart func) ++ X) [t] 0 σ sl rq zb →
  k_threads σ !! t = Some th → t_frames th = [] → t_stack th = None → k_curthread σ ≠ None →
  I None X [t] 0
    (set_threads (<[t := set_stack_etc [FStart func] (Some stack) cwd parent th]> (k_threads σ)) σ) sl rq zb.
Proof.
  intros (Hq & Hwf & Hs & Hn & Hsw) Hth Hf Hst Hc.
  pose proof (wf_nodup _ _ _ _ _ _ _ _ _ _ Hwf) as Hnd.
  assert (Hin : (t ∉ option_list (k_curthread σ)) ∧ (t ∉ sl) ∧ t ∉ rq).
  { rewrite !app_assoc in Hnd. apply list.NoDup_app in Hnd as (_ & Hdis & _).
    split_and!; intros Ht; apply (Hdis t); set_solver. }
  destruct Hin as (Hin0 & Hin1 & Hin2). split_and!; try done.
  - revert Hq. apply (queues_perm σ). unfold own. cbn.
    rewrite (table_blocks_grow _ _ t th _ (stack :: start_blocks (FStart func)) Hth).
    + cbn. solve_Permutation.
    + unfold thread_blocks. rewrite Hst, Hf. cbn. rewrite app_nil_r. solve_Permutation.
  - cbn. apply wf_put_any; [done|by exists th|done|done|by repeat constructor|..].
    + intros a. exact (wf_wait _ _ _ _ _ _ _ _ _ _ Hwf t th a Hth).
    + intros Hct. rewrite Hct in Hin0. set_solver.
Qed.

Lemma inv_put_cur_new X N d σ sl rq zb t th f :
  I None X N d σ sl rq zb → k_curthread σ = Some t → k_threads σ !! t = Some th →
  same_core th (f th) → I None X N d (set_threads (<[t := f th]> (k_threads σ)) σ) sl rq zb.
Proof. intros Hi Hc Hth Hcore. by eapply inv_put_cur. Qed.

Lemma thread_fork_inv len func X σ sl rq zb t0 :
  I None (start_blocks (FStart func) ++ X) [] 0 σ sl rq zb → 0 ≤ len < 2 ^ 16 →
  k_curthread σ = Some t0 → cur0 = Some t0 → k_numthreads σ < thread_limit →
  wp false (thread_fork len func) (fork_post X func zb) σ.
Proof.
  intros Hi Hlen Hc Hc0 Hlim. unfold thread_fork. apply wp_bind.
  eapply thread_create_inv; [exact Hi|done|..].
  { intros σ1 Hc1 Hi1. wp_steps. split; [congruence|]. by exists sl, rq. }
  intros t th σ1 Hc1 Hn1 Hth1 Hf1 Hst1 Hi1. rewrite Hc in Hc1. apply wp_bind.
  eapply kmallocK_inv; [exact Hi1|done|]. intros [stack|] h2 Hi2; cycle 1.
  { cbn in Hi2. pose proof (drop_blocks _ _ _ _ _ _ _ Hi2 Hth1) as Hq2. rewrite Hst1 in Hq2.
    wp_steps. apply wp_bind. eapply kfreeK_spec; [exact Hq2|]. intros h3 Hq3.
    apply wp_bind. eapply kfreeK_spec; [exact Hq3|]. intros h4 Hq4. wp_steps.
    split; [cbn; congruence|]. exists sl, rq.
    pose proof (drop_inv _ _ _ _ _ _ _ Hi2 Hth1 h4 (k_env σ1) ltac:(cbn; congruence) Hq4) as Hi4.
    rewrite Hf1 in Hi4. exact Hi4. }
  destruct (inv_cur _ _ _ _ _ _ _ _ _ _ _ _ Hi2 Hc1) as ([cth Hcth] & _ & _ & _ & Hne).
  assert (Htt : t ≠ t0) by (intros ->; set_solver).
  wp_steps. apply wp_bind.
  assert (Hgo : ∀ e, wp false (nth ← get_thread t;
          put_thread t (set_stack_etc [FStart func] (Some stack) (t_cwd cth) (Some t0) nth);;
          cth ← get_thread t0;
          children ← deref (add_child t (t_child cth));
          put_thread t0 (set_child children cth);;
          l ← gets k_plist;
          modify (set_plist (set_parentpid (t_pid cth) (t_pid nth) l));;
          fork_atomic t) (fork_post X func zb) (set_env e (set_heap h2 σ1))).
  { intros e. wp_steps. apply wp_bind. eapply wp_get_thread.
    { cbn. by rewrite lookup_insert_ne. }
    apply wp_bind, wp_deref_maybe. intros children _.
    wp_steps. pose proof (inv_start_thread X _ _ _ _ t th func stack (t_cwd cth) (Some t0) Hi2 Hth1
      Hf1 Hst1 ltac:(cbn; congruence)) as Hi3.
    eapply (inv_put_cur_new _ _ _ _ _ _ _ t0 cth (set_child children)) in Hi3;
      [|done|cbn; by rewrite lookup_insert_ne|done].
    eapply (fork_atomic_inv _ t (set_stack_etc [FStart func] (Some stack) (t_cwd cth) (Some t0) th) func);
      [exact Hi3| |done|cbn; congruence|congruence|cbn; congruence].
    cbn. rewrite lookup_insert_ne by done. apply lookup_insert_eq. }
  destruct (t_cwd cth) as [v|]; [wp_step; wp_step; apply Hgo|]. wp_step. cbv beta.
  rewrite <- (set_env_id (k_env σ1) (set_heap h2 σ1) eq_refl). apply Hgo.
Qed.
Lemma fork_ok len σ sl rq zb t0 :
  I None [] [] 0 σ sl rq zb → 0 ≤ len < 2 ^ 16 → k_curthread σ = Some t0 → cur0 = Some t0 →
  k_numthreads σ < thread_limit →
  wp false (thread_fork len FuncKernel) (ok_after rq0 objs0 cur0 zb) σ.
Proof.
  intros Hi Hlen Hc Hc0 Hlim. eapply wp_mono; [by eapply (thread_fork_inv len FuncKernel [])|].
  intros [r o] σ' (Hc' & sl' & rq' & Hr). split; [done|]. exists sl', rq'.
  destruct r; [destruct o|..]; naive_solver.
Qed.

Lemma sys_fork_inv len σ sl rq zb t0 :
  I None [] [] 0 σ sl rq zb → 0 ≤ len < 2 ^ 16 → k_curthread σ = Some t0 → cur0 = Some t0 →
  k_numthreads σ < thread_limit →
  wp false (sys_fork len) (ok_after rq0 objs0 cur0 zb) σ.
Proof.
  intros Hi Hlen Hc Hc0 Hlim. unfold sys_fork. wp_steps. apply wp_bind.
  eapply kmallocK_inv; [exact Hi|done|]. intros [tf|] h1 Hi1; cbn in Hi1; cycle 1.
  { wp_steps. split; [cbn; congruence|]. by exists sl, rq. }
  destruct (inv_cur _ _ _ _ _ _ _ _ _ _ _ _ Hi1 Hc) as ([th Hth] & _). wp_steps.
  apply wp_bind, wp_deref_maybe. intros v Hv. wp_steps. destruct (as_copy v _) as [[v'|] e]; cycle 1.
  { wp_steps. apply wp_bind. eapply kfreeK_inv; [exact Hi1|]. intros h2 Hi2. wp_steps.
    split; [cbn; congruence|]. by exists sl, rq. }
  wp_steps. apply wp_bind. eapply wp_mono.
  { eapply (thread_fork_inv len (FuncForkentry tf v') []); [exact Hi1|done|exact Hc|done|exact Hlim]. }
  intros [r o] σ' (Hc' & sl' & rq' & Hr). destruct (Z.eqb_spec r 0) as [->|Hne]; cbn [negb].
  - destruct o as [t|]; [|done]. destruct Hr as (Hi2 & [tth Htth]). wp_steps.
    split; [done|]. by exists sl', rq'.
  - apply wp_bind. eapply (kfreeK_inv _ _ _ _ tf _ _ []).
    { destruct r; [done|..]; exact Hr. }
    intros h2 Hi2. wp_steps. split; [done|]. by exists sl', rq'.
Qed.

Lemma mi_threadstart_inv s func σ sl rq zb t :
  I None (start_blocks (FStart func)) [] 0 σ sl rq zb → k_curthread σ = Some t → cur0 = Some t →
  wp s (mi_threadstart func) (post zb) σ.
Proof.
  intros Hi Hc Hc0. destruct (inv_cur _ _ _ _ _ _ _ _ _ _ _ _ Hi Hc) as ([th Hth] & _).
  unfold mi_threadstart. wp_steps. apply wp_bind.
  assert (Hgo : ∀ e, wp s (spl0;;
    match func with
    | FuncKernel => mret (Finished [])
    | FuncForkentry tf v =>
        kfreeK tf;; th ← get_thread t; put_thread t (set_vmspace (Some v) th);;
        modify_env (as_activate v);; mret (Finished [])
    end) (post zb) (set_env e σ)).
  { intros e. wp_steps. destruct func as [|tf v].
    - wp_steps. apply (flow_post_return _ _ _ _ _ sl rq); [exact Hi|cbn; congruence].
    - apply wp_bind. eapply kfreeK_inv; [exact Hi|]. intros h2 Hi2. wp_steps.
      apply (flow_post_return _ _ _ _ _ sl rq); [|cbn; congruence].
      eapply (inv_put_cur_new _ _ _ _ _ _ _ t th (set_vmspace (Some v))) in Hi2; [exact Hi2|done..]. }
  destruct (t_vmspace th) as [v|]; [wp_step; wp_step; apply Hgo|]. wp_step. cbv beta.
  rewrite <- (set_env_id (k_env σ) σ eq_refl). apply Hgo.
Qed.

Lemma thread_exit_inv s σ sl rq zb t :
  I None [] [] 0 σ sl rq zb → k_curthread σ = Some t → cur0 = Some t →
  wp s thread_exit (post zb) σ.
Proof.
  intros Hi Hc Hc0. destruct (inv_cur _ _ _ _ _ _ _ _ _ _ _ _ Hi Hc) as ([th Hth] & _).
  pose proof (proj1 (proj2 Hi)) as Hwf.
  eapply (inv_put_cur_new _ _ _ _ _ _ _ t th (set_parent None)) in Hi; [|done..].
  unfold thread_exit. wp_steps. apply wp_bind.
  eapply V_inv; [exact Hi|exact (λ a, wf_wait _ _ _ _ _ _ _ _ _ _ Hwf t th a Hth)|].
  intros σ1 sl1 rq1 Hi1 Hq1. wp_steps. apply wp_bind. eapply V_inv; [exact Hi1| |].
  { destruct Hq1 as (?&?&?&?&?&?&->&Hk). intros a Ha. cbn in *. rewrite Hk.
    by apply (wf_lock _ _ _ _ _ _ _ _ _ _ Hwf). }
  intros σ2 sl2 rq2 Hi2 Hq2. pose proof (quiet_trans _ _ _ Hq1 Hq2) as (?&?&?&?&?&?&->&_).
  apply wp_bind. eapply wp_get_thread; [cbn; apply lookup_insert_eq|].
  apply wp_bind, check_stack_wp. wp_steps. split; [cbn; congruence|]. exists sl2, rq2.
  split_and!; [exact Hi2|by repeat constructor|congruence].
Qed.

Lemma exit_rest_inv s σ sl rq zb t :
  I None [] [] 0 σ sl rq zb → k_curthread σ = Some t → cur0 = Some t →
  wp s exit_rest (post zb) σ.
Proof.
  intros Hi Hc Hc0. destruct (inv_cur _ _ _ _ _ _ _ _ _ _ _ _ Hi Hc) as ([th Hth] & _).
  unfold exit_rest. wp_steps.
  assert (Hend : ∀ th' e σ1, I None [] [] 0 σ1 sl rq zb → k_curthread σ1 = Some t →
    k_threads σ1 !! t = Some th' →
    wp s (n ← gets k_numthreads; assertK (n >? 0);; modify (set_numthreads (n - 1));;
          mret (Switch S_ZOMB [FDead])) (post zb) (set_env e σ1)).
  { intros th' e σ1 (Hq & Hwf & Hs & Hn & Hsw) Hc1 Hth1. wp_steps. split; [cbn; congruence|].
    exists sl, rq. split_and!; [|by repeat constructor|congruence].
    split; [exact Hq|]. split_and!; try done. unfold counted in *. cbn. lia. }
  assert (Hcwd : ∀ th' e σ1, I None [] [] 0 σ1 sl rq zb → k_curthread σ1 = Some t →
    k_threads σ1 !! t = Some th' →
    wp s (th ← get_thread t;
      match t_cwd th with
      | Some v => modify_env (vop_decref v);; put_thread t (set_cwd None th)
      | None => mret tt
      end;;
      n ← gets k_numthreads; assertK (n >? 0);; modify (set_numthreads (n - 1));;
      mret (Switch S_ZOMB [FDead])) (post zb) (set_env e σ1)).
  { intros th' e σ1 Hi1 Hc1 Hth1. wp_step. cbv beta. apply wp_bind.
    destruct (t_cwd th') as [v|].
    - do 3 wp_step. cbv beta.
      eapply (inv_put_cur_new _ _ _ _ _ _ _ t th' (set_cwd None)) in Hi1; [|done..].
      eapply (Hend (set_cwd None th') _ _ Hi1); [done|cbn; apply lookup_insert_eq].
    - wp_step. cbv beta. by eapply Hend. }
  apply wp_bind. destruct (t_vmspace th) as [v|].
  - do 3 wp_step. cbv beta.
    eapply (inv_put_cur_new _ _ _ _ _ _ _ t th (set_vmspace None)) in Hi; [|done..].
    eapply (Hcwd (set_vmspace None th)); [exact Hi|done|cbn; apply lookup_insert_eq].
  - wp_step. cbv beta. rewrite <- (set_env_id (k_env σ) (set_curspl SPL_HIGH σ) eq_refl).
    by eapply (Hcwd th).
Qed.
(** ** waitpid *)

Lemma sys_return_inv s e r st Q bad X N d σ sl rq zb t :
  I bad X N d σ sl rq zb → k_curthread σ = Some t →
  (∀ ts, I bad X N d (set_threads ts σ) sl rq zb → Q tt (set_threads ts σ)) →
  wp s (sys_return e r st) Q σ.
Proof.
  intros Hi Hc HQ. destruct (inv_cur _ _ _ _ _ _ _ _ _ _ _ _ Hi Hc) as ([th Hth] & _).
  unfold sys_return. wp_steps. apply HQ. by eapply inv_put_cur.
Qed.

Lemma sys_error_inv s e r st σ sl rq zb t :
  I None [] [] 0 σ sl rq zb → k_curthread σ = Some t → cur0 = Some t →
  wp s (sys_return e r st;; mret (Finished [])) (post zb) σ.
Proof.
  intros Hi Hc Hc0. apply wp_bind. eapply sys_return_inv; [done..|]. intros ts Hi'. wp_steps.
  apply (flow_post_return _ _ _ _ _ sl rq); [done|]. cbn. congruence.
Qed.

(** A caller of P adds its own frame. *)
Lemma P_then_inv s o k σ sl rq zb t :
  I None [] [] 0 σ sl rq zb → k_curthread σ = Some t → cur0 = Some t →
  (∀ a, o = Some a → kind (k_objs σ) a = Some KSem) → plain ∅ [k] →
  wp s (fl ← P o;
        match fl with
        | Finished ks => mret (Finished (ks ++ [k]))
        | Switch st ks => mret (Switch st (ks ++ [k]))
        end) (post zb) σ.
Proof.
  intros Hi Hc Hc0 Hk Hp. apply wp_bind. eapply wp_mono; [by eapply P_inv|]. intros fl σ' Hfl.
  eapply (flow_post_frames _ _ _ zb fl [k]) in Hfl; [|..|congruence].
  - by destruct fl; wp_steps.
  - destruct Hp as (H1' & H2' & H3'). split_and!; [|done..]. eapply frames_ok_refs; [|done].
    intros a Ha [? Hk']. unfold kind in Hk'. by rewrite lookup_empty in Hk'.
Qed.

Lemma sys_waitpid_inv s pid status options σ sl rq zb t :
  I None [] [] 0 σ sl rq zb → k_curthread σ = Some t → cur0 = Some t →
  wp s (sys_waitpid pid status options) (post zb) σ.
Proof.
  intros Hi Hc Hc0. destruct (inv_cur _ _ _ _ _ _ _ _ _ _ _ _ Hi Hc) as ([th Hth] & _).
  unfold sys_waitpid. destruct (_ || _); [by eapply sys_error_inv|].
  destruct (_ || _); [by eapply sys_error_inv|]. destruct (negb _); [by eapply sys_error_inv|].
  wp_steps. destruct (pid =? t_pid th); [by eapply sys_error_inv|]. wp_steps.
  eapply P_then_inv; [done..| |by repeat constructor]. intros a Ha. destruct Hi as (_ & Hwf & _).
  by apply (wf_lock _ _ _ _ _ _ _ _ _ _ Hwf).
Qed.

Lemma waitpid_locked_inv pid σ sl rq zb t :
  I None [] [] 0 σ sl rq zb → k_curthread σ = Some t → cur0 = Some t →
  wp false (waitpid_locked pid) (post zb) σ.
Proof.
  intros Hi Hc Hc0. pose proof (proj1 (proj2 Hi)) as Hwf. unfold waitpid_locked. wp_steps.
  assert (HV : ∀ ts ks, I None [] [] 0 (set_threads ts σ) sl rq zb → plain ∅ ks →
    wp false (V (k_lock σ);; mret (Finished ks)) (post zb) (set_threads ts σ)).
  { intros ts ks Hi1 Hp. apply wp_bind. eapply V_inv; [done|exact (wf_lock _ _ _ _ _ _ _ _ _ _ Hwf)|].
    intros σ' sl' rq' Hi' (?&?&?&?&?&?&->&_). wp_steps. split; [cbn; congruence|].
    exists sl', rq'. split_and!; [exact Hi'| |congruence]. destruct Hp as (H1' & H2' & H3').
    split_and!; [|done..]. eapply frames_ok_refs; [|done].
    intros a Ha [? Hk']. unfold kind in Hk'. by rewrite lookup_empty in Hk'. }
  destruct (_ =? 1); [|destruct (_ =? 0)].
  - apply wp_bind. eapply sys_return_inv; [done..|]. intros ts Hi1. by apply HV.
  - apply wp_bind, wp_deref_maybe. intros u Hu. specialize (HV (k_threads σ) [FWaitBlock u pid]).
    replace (set_threads (k_threads σ) σ) with σ in HV by by destruct σ.
    apply HV; [done|by repeat constructor].
  - apply wp_bind. eapply sys_return_inv; [done..|]. intros ts Hi1. by apply HV.
Qed.

Lemma waitpid_block_inv u pid σ sl rq zb t :
  I None [] [] 0 σ sl rq zb → k_curthread σ = Some t → cur0 = Some t →
  wp false (waitpid_block u pid) (post zb) σ.
Proof.
  intros Hi Hc Hc0. unfold waitpid_block. unfold get_thread. wp_steps.
  apply wp_deref_maybe. intros th Hth.
  eapply P_then_inv; [done..| |by repeat constructor]. destruct Hi as (_ & Hwf & _).
  intros a Ha. by eapply (wf_wait _ _ _ _ _ _ _ _ _ _ Hwf).
Qed.

Lemma waitpid_child_inv s pid σ sl rq zb t :
  I None [] [] 0 σ sl rq zb → k_curthread σ = Some t → cur0 = Some t →
  wp s (waitpid_child pid) (post zb) σ.
Proof.
  intros Hi Hc Hc0. unfold waitpid_child. wp_steps. apply wp_bind.
  eapply sys_return_inv; [done..|]. intros ts Hi1. wp_steps.
  apply (flow_post_return _ _ _ _ _ sl rq); [exact Hi1|]. cbn. congruence.
Qed.
(** ** Calls and frames *)

(** Code that can follow a NULL or dangling pointer or an index out of range:
    a fork that finds no memory for the new process's node or whose caller
    has forked a hundred times before, and a waitpid for a thread that is
    gone. *)
Definition risky_call (c : kcall) : bool :=
  match c with CFork _ | CSysFork _ => true | _ => false end.
Definition risky_frame (f : frame) : bool :=
  match f with FWaitLocked _ | FWaitBlock _ _ => true | _ => false end.

Lemma do_call_inv c σ sl rq zb t :
  I None [] [] 0 σ sl rq zb → k_curthread σ = Some t → cur0 = Some t → call_ok σ c →
  wp (negb (risky_call c)) (do_call c) (post zb) σ.
Proof.
  intros Hi Hc Hc0 Hok. assert (Hcc : k_curthread σ = cur0) by congruence.
  destruct c; cbn [do_call risky_call negb call_ok] in *.
  - eapply wp_mono; [by eapply thread_yield_inv|]. by intros fl σ' [? _].
  - apply returning_inv. wp_steps. split; [done|]. by exists sl, rq.
  - destruct Hok. apply returning_inv. eapply sem_create_inv; [done..|]. intros r σ' Hi' Hg _. by eapply grown_ok.
  - destruct Hok. apply returning_inv. by eapply sem_destroy_inv.
  - eapply P_inv; [done..|]. by intros a [= <-].
  - apply returning_inv. eapply V_inv; [done|by intros a [= <-]|]. intros. by eapply quiet_ok.
  - apply returning_inv. unfold lock_create. eapply obj_create_inv; try done.
    intros r σ' Hi' Hg _. by eapply grown_ok.
  - destruct Hok. apply returning_inv. by eapply lock_destroy_inv.
  - by eapply lock_acquire_inv.
  - apply returning_inv. eapply lock_release_inv; [done..|]. intros. by eapply quiet_ok.
  - apply returning_inv. destruct (kind_Lock _ _ Hok) as (n & hl & Ho). unfold lock_do_i_hold.
    wp_steps. split; [done|]. by exists sl, rq.
  - apply returning_inv. unfold cv_create. eapply obj_create_inv; try done.
    intros r σ' Hi' Hg _. by eapply grown_ok.
  - destruct Hok. apply returning_inv. by eapply cv_destroy_inv.
  - destruct Hok. by eapply cv_wait_inv.
  - destruct Hok. apply returning_inv. eapply cv_signal_inv; [done..|]. intros. by eapply quiet_ok.
  - destruct Hok. apply returning_inv. eapply cv_broadcast_inv; [done..|]. intros. by eapply quiet_ok.
  - unfold clocksleep. wp_steps. by eapply (clocksleep_loop_inv _ _ _ _ _ _ (set_curspl _ σ)).
  - destruct Hok. apply returning_inv. by eapply fork_ok.
  - by eapply thread_exit_inv.
  - destruct Hok. apply returning_inv. by eapply sys_fork_inv.
  - destruct (inv_cur _ _ _ _ _ _ _ _ _ _ _ _ Hi Hc) as ([th Hth] & _).
    unfold sys__exit. wp_steps. by eapply (thread_exit_inv _ (set_plist _ (set_curspl _ σ))).
  - by eapply sys_waitpid_inv.
Qed.

Lemma resume_frame_inv f σ sl rq zb t :
  I (top_acquire [f]) (start_blocks f) [] 0 σ sl rq zb → frame_ok (k_objs σ) f →
  k_curthread σ = Some t → cur0 = Some t →
  wp (negb (risky_frame f)) (resume_frame f) (post zb) σ.
Proof.
  intros Hi Hf Hc Hc0. destruct f; cbn [resume_frame risky_frame negb top_acquire start_blocks] in *.
  - apply returning_inv. wp_steps. split; [cbn; congruence|]. by exists sl, rq.
  - apply wp_bind. eapply sleep_return_inv; [done..|]. intros ts Hi'.
    by eapply (P_loop_inv _ _ _ _ _ _ (set_threads ts σ)).
  - apply wp_bind. eapply sleep_return_inv; [done..|]. intros ts Hi'.
    by eapply (acquire_loop_inv _ _ _ _ _ _ (set_threads ts σ)).
  - destruct Hf. apply wp_bind. eapply sleep_return_inv; [done..|]. intros ts Hi'.
    by eapply (cv_wait_rest_inv _ _ _ _ _ _ (set_threads ts σ)).
  - apply returning_inv. wp_steps. split; [cbn; congruence|]. by exists sl, rq.
  - apply wp_bind. eapply sleep_return_inv; [done..|]. intros ts Hi'.
    by eapply (clocksleep_loop_inv _ _ _ _ _ _ (set_threads ts σ)).
  - apply returning_inv. unfold interrupt_return. wp_steps. split; [cbn; congruence|].
    by exists sl, rq.
  - by eapply mi_threadstart_inv.
  - by eapply exit_rest_inv.
  - apply wp_panic.
  - by eapply waitpid_locked_inv.
  - by eapply waitpid_block_inv.
  - by eapply waitpid_child_inv.
Qed.
End Proc.

(** ** Events *)

Section Events.
Context {H E : Type} `{KHeapLaws H} `{ThreadEnv E}.
Implicit Types (σ : kstate H E) (sl rq zb : list Z).

Definition risky (e : event) σ : bool :=
  match e with
  | EvCall c => risky_call c
  | EvContinue => match k_curframes σ with f :: _ => risky_frame f | [] => false end
  | _ => false
  end.

(** The invariant, as it holds before an event. *)
Definition ready_for σ sl rq zb : Prop := settled rq (k_objs σ) (k_curthread σ) σ sl rq zb.

Lemma settled_restart rq0 objs0 cur0 σ sl rq zb :
  settled rq0 objs0 cur0 σ sl rq zb → ready_for σ sl rq zb.
Proof.
  intros [(Hq & Hwf & _ & Hrest) Htop]. split; [|done]. split_and!; try done; try apply Hrest.
  split; [by exists []; rewrite app_nil_r|done|by left].
Qed.

Lemma settled_none rq0 objs0 cur0 σ sl rq zb :
  settled rq0 objs0 cur0 σ sl rq zb → top_acquire (k_curframes σ) = None →
  inv rq0 objs0 cur0 None [] [] 0 σ sl rq zb.
Proof.
  intros [Hi _] Htop. rewrite Htop in Hi.
  assert (Hb : below_acquire (k_curframes σ) = k_curframes σ).
  { by destruct (k_curframes σ) as [|[] ?]. }
  rewrite Hb in Hi. exact Hi.
Qed.

(** Taking the innermost frame off. *)
Lemma settled_pop rq0 objs0 cur0 σ sl rq zb f rest :
  settled rq0 objs0 cur0 σ sl rq zb → k_curframes σ = f :: rest → k_curthread σ ≠ None →
  inv rq0 objs0 cur0 (top_acquire [f]) (start_blocks f) [] 0 (set_curframes rest σ) sl rq zb ∧
  frame_ok (k_objs σ) f.
Proof.
  intros [Hi Htop] Hcf Hc. rewrite Hcf in Hi, Htop.
  assert (Hf : (∃ a spl, f = FAcquire a spl) ∨ ¬ ∃ a spl, f = FAcquire a spl).
  { destruct f; naive_solver. }
  destruct Hf as [(a & spl & ->)|Hno].
  { split; [exact Hi|]. by apply Htop. }
  assert (Hn : top_acquire [f] = None ∧ top_acquire (f :: rest) = None ∧ below_acquire (f :: rest) = f :: rest).
  { destruct f; naive_solver. }
  destruct Hn as (-> & Ht & Hb). rewrite Ht, Hb in Hi. destruct Hi as (Hq & Hwf & Hrest).
  destruct (wf_cur _ _ _ _ _ _ _ _ _ _ Hwf) as [Hw1 Hw2]. cbn in Hw1, Hw2.
  apply Forall_cons_iff in Hw1 as [Hf Hw1]. apply Forall_cons_iff in Hw2 as [_ Hw2].
  split; [|done]. split_and!; try apply Hrest.
  - revert Hq. apply (queues_perm σ). unfold own. cbn. solve_Permutation.
  - destruct Hwf; split; try done.
Qed.

Lemma queues_zombies σ sl rq zb L : queues σ sl rq zb L → num_zombies σ = Z.of_nat (length zb).
Proof.
  intros (a & z & q & _ & Hz & _ & _ & Rz & _). unfold num_zombies, array_getnum. rewrite Hz.
  by rewrite (ar_num _ _ Rz), length_fmap.
Qed.

Lemma queues_empty σ sl rq zb L q :
  queues σ sl rq zb L → k_runqueue σ = Some q → q_empty q = true ↔ rq = [].
Proof.
  intros (a & z & q' & _ & _ & Hq' & _ & _ & Rq & _) Hq. simplify_eq. by apply q_rep_empty.
Qed.

Abbreviation after rq0 σ := (λ (_ : unit) σ',
  ∃ sl' rq' zb', settled rq0 (k_objs σ) (k_curthread σ) σ' sl' rq' zb').

Lemma interrupt_inv s (handler : K H E flow) σ sl rq zb :
  ready_for σ sl rq zb → interruptible σ →
  (∀ σ1, inv rq (k_objs σ) (k_curthread σ) None [] [] 0 σ1 sl rq zb →
     k_curthread σ1 = k_curthread σ → k_objs σ1 = k_objs σ → k_curframes σ1 = k_curframes σ →
     wp s handler (λ fl σ', flow_post rq (k_objs σ) (k_curthread σ) zb fl σ' ∧
       k_curframes σ' = k_curframes σ ∧ (k_curthread σ = None → fl = Finished []) ∧
       ∀ ks, fl ≠ Switch S_ZOMB ks) σ1) →
  wp s (interrupt handler) (after rq σ) σ.
Proof.
  intros Hset Hint Hh.
  assert (Htop : top_acquire (k_curframes σ) = None).
  { destruct Hset as [(_ & Hwf & _) Ht]. unfold interruptible in Hint.
    destruct (top_acquire _) as [a|]; [|done]. destruct (Ht a eq_refl) as (_ & Hspl & Hc).
    destruct (k_curthread σ); [lia|done]. }
  pose proof (settled_none _ _ _ _ _ _ _ Hset Htop) as Hi.
  unfold interrupt. wp_steps. apply wp_bind. eapply wp_mono; [by apply Hh|].
  intros fl σ' (Hfl & Hcf & Hidle & Hz). wp_steps. pose proof (proj1 Hfl) as Hc. rewrite Hc.
  destruct (k_curthread σ) as [t|] eqn:Hct.
  - apply (flow_post_frames _ _ _ zb fl [FInterrupt (k_in_interrupt σ) (k_curspl σ)]) in Hfl;
      [|by repeat constructor|done].
    destruct fl as [ks|st ks]; (eapply apply_flow_inv; [exact Hfl|]).
    + done.
    + intros ks' [= -> _]. by destruct (Hz ks).
  - rewrite Hidle by done. rewrite Hidle in Hfl by done. destruct Hfl as (_ & sl' & rq' & Hi' & _).
    unfold interrupt_return. wp_steps. exists sl', rq', zb. split; cbn; rewrite Hcf, Htop; [|done].
    assert (Hb : k_curframes σ = []).
    { pose proof (wf_idle _ _ _ _ _ _ _ _ _ _ (proj1 (proj2 Hi)) Hct). done. }
    rewrite Hb in Hcf |- *. assert (Heq : set_curframes [] σ' = σ').
    { destruct σ'; cbn in Hcf. by subst. }
    rewrite <- Heq in Hi'. exact Hi'.
Qed.
(** Each kind of event. *)
Lemma call_inv c σ sl rq zb :
  ready_for σ sl rq zb → enabled (EvCall c) σ →
  wp (negb (risky_call c)) (run_event (EvCall c)) (after rq σ) σ.
Proof.
  intros Hset (Hc & Hcf & Hok & Hz). destruct (k_curthread σ) as [t|] eqn:Hct; [|done].
  assert (Hi : inv rq (k_objs σ) (Some t) None [] [] 0 σ sl rq zb).
  { rewrite <- Hct. eapply settled_none; [exact Hset|]. by rewrite Hcf. }
  rewrite (queues_zombies _ _ _ _ _ (proj1 Hi)) in Hz.
  cbn [run_event]. apply wp_bind. eapply wp_mono; [by eapply do_call_inv|].
  intros fl σ' Hfl. by eapply apply_flow_inv.
Qed.

Lemma continue_inv σ sl rq zb :
  ready_for σ sl rq zb → enabled EvContinue σ →
  wp (negb (risky EvContinue σ)) (run_event EvContinue) (after rq σ) σ.
Proof.
  intros Hset (Hc & Hcf & Hz). destruct (k_curthread σ) as [t|] eqn:Hct; [|done].
  cbn [run_event risky]. destruct (k_curframes σ) as [|f rest] eqn:Hfs; [done|].
  destruct (settled_pop _ _ _ _ _ _ _ f rest Hset Hfs) as [Hi Hok]; [congruence|].
  assert (Hz' : num_zombies σ = Z.of_nat (length zb)) by exact (queues_zombies _ _ _ _ _ (proj1 Hi)).
  wp_steps. rewrite Hfs. wp_steps. apply wp_bind. eapply wp_mono.
  { by eapply (resume_frame_inv _ _ _ f (set_curframes rest σ)). }
  rewrite Hct. intros fl σ' Hfl. eapply apply_flow_inv; [exact Hfl|]. intros _ _. lia.
Qed.

Lemma pick_event_inv σ sl rq zb :
  ready_for σ sl rq zb → enabled EvPick σ →
  ∃ t rq', rq = t :: rq' ∧
  wp true pick (λ _ σ', (∃ zb', settled rq' (k_objs σ) (k_curthread σ) σ' sl rq' zb') ∧
                        k_curthread σ' = Some t) σ.
Proof.
  intros Hset (Hc & q & Hq & Hne). destruct Hset as [Hi Htop].
  assert (Ht : top_acquire (k_curframes σ) = None).
  { destruct (top_acquire _) as [a|]; [|done]. by destruct (Htop a eq_refl) as (_ & _ & ?). }
  pose proof (settled_none _ _ _ _ _ _ _ (conj Hi Htop) Ht) as (Hqs & Hwf & Hs & Hn & Hsw).
  pose proof (queues_empty _ _ _ _ _ q Hqs Hq) as He.
  destruct rq as [|t rq']; [rewrite (proj2 He eq_refl) in Hne; done|].
  pose proof (wf_idle _ _ _ _ _ _ _ _ _ _ Hwf Hc) as Hcf.
  exists t, rq'. split; [done|]. eapply pick_inv; try done.
  - by rewrite app_nil_r in Hqs.
  - by rewrite Hc, Hcf in Hwf.
  - split; [by exists []; rewrite app_nil_r|done|by left].
  - by apply Hsw.
Qed.

Lemma event_inv e σ sl rq zb :
  ready_for σ sl rq zb → enabled e σ →
  wp (negb (risky e σ)) (run_event e) (after (match e with EvPick => tail rq | _ => rq end) σ) σ.
Proof.
  intros Hset Hen. destruct e as [c| | | |a].
  - by eapply call_inv.
  - by eapply continue_inv.
  - destruct (pick_event_inv _ _ _ _ Hset Hen) as (t & rq' & -> & Hwp). eapply wp_mono; [exact Hwp|].
    intros _ σ' [[zb' Hs] _]. by exists sl, rq', zb'.
  - eapply interrupt_inv; [done|done|]. intros σ1 Hi Hc Ho Hf.
    eapply wp_mono; [by eapply hardclock_inv|]. cbn. intros fl σ' (Hfl & Hcf & Hid & Hz).
    split_and!; [done|congruence|done|done].
  - destruct Hen as [Hen Ha]. eapply interrupt_inv; [done|done|]. intros σ1 Hi Hc Ho Hf.
    unfold returning. apply wp_bind. eapply V_inv; [exact Hi|intros ? [= <-]; by rewrite Ho|].
    intros σ' sl' rq' Hi' (?&?&?&?&?&?&->&_). wp_steps.
    split_and!; [|done|done|done]. by apply (flow_post_return _ _ _ _ _ sl' rq').
Qed.
End Events.
