(* ===== verification/Boot.v ===== *)
(** * Booting the thread system

    The kernel calls [scheduler_bootstrap] and [thread_bootstrap]
    (kern/main/main.c) with an empty thread system; the state they leave
    satisfies the invariant, and so does every state reached from it. *)

From S2P Require Import Prelude KArray Queue Kstate Thread Synch Process ThreadSpec System SystemInv SystemSafe SystemProc.

Section Boot.
Context {H E : Type} `{KHeapLaws H} `{ThreadEnv E}.
Implicit Types (σ : kstate H E) (h : H) (e : E) (L : list Z).

(** The variables as the loader leaves them. *)
Definition kernel_init h e : kstate H E :=
  Kstate None ∅ None None 0 1 [] None None SPL_HIGH 0 ∅ 0 [] None h e.

Definition boot : K H E unit := scheduler_bootstrap;; thread_bootstrap.

(** States the kernel can get into. *)
Definition reachable σ : Prop :=
  ∃ h e σ0 es, heap_ok h ∧ boot (kernel_init h e) = Done (tt, σ0) ∧ steps es σ0 σ.

(** ** Allocation before the thread system is set up *)

Lemma kmallocK_raw s n Q σ L :
  heap_owns (k_heap σ) L → 0 ≤ n ≤ 2 ^ 31 →
  (∀ r h, heap_owns h (option_list r ++ L) → Q r (set_heap h σ)) → wp s (kmallocK n) Q σ.
Proof.
  intros Hown Hn HQ. destruct (owns_alloc (k_heap σ) L n) as (r & h' & Hrun & Hr); [done..|].
  unfold kmallocK. wp_steps. apply HQ. destruct r; [by destruct Hr|done].
Qed.

Lemma kfreeK_raw s b Q σ L :
  heap_owns (k_heap σ) (b :: L) → (∀ h, heap_owns h L → Q tt (set_heap h σ)) → wp s (kfreeK b) Q σ.
Proof.
  intros Hown HQ. destruct (owns_free (k_heap σ) b L) as (h' & Hrun & Hr); [done|].
  unfold kfreeK. wp_steps. by apply HQ.
Qed.

(** A semaphore that may be missing. *)
Definition add_sem (o : option (Z * Z)) (objs : gmap Z kobj) : gmap Z kobj :=
  match o with Some (p, n) => <[p := Sem n 0]> objs | None => objs end.
Definition sem_blocks (o : option (Z * Z)) : list Z :=
  match o with Some (p, n) => [p; n] | None => [] end.

Lemma sem_create_raw s len Q σ L :
  heap_owns (k_heap σ) L → 0 ≤ len < 2 ^ 16 →
  (∀ o h, heap_owns h (sem_blocks o ++ L) →
     Q (fst <$> o) (set_objs (add_sem o (k_objs σ)) (set_heap h σ))) →
  wp s (sem_create len 0) Q σ.
Proof.
  intros Hown Hlen HQ. unfold sem_create, obj_create, kstrdup. wp_steps. apply wp_bind.
  assert (Hnone : ∀ h, heap_owns h L → Q None (set_heap h σ)).
  { intros h Hh. specialize (HQ None h Hh). cbn in HQ. by destruct σ. }
  eapply kmallocK_raw; [done|done|]. intros [p|] h1 Hown1; [|wp_steps; by apply Hnone].
  apply wp_bind. eapply kmallocK_raw; [exact Hown1|lia|]. intros [n|] h2 Hown2; cbn in Hown2.
  - wp_steps. apply (HQ (Some (p, n))). revert Hown2. apply heap_owns_perm. cbn. solve_Permutation.
  - apply wp_bind. eapply kfreeK_raw; [exact Hown2|]. intros h3 Hown3. wp_steps. by apply Hnone.
Qed.

(** The objects are those of the two semaphores. *)
Lemma boot_objs o1 o2 a ob :
  add_sem o2 (add_sem o1 ∅) !! a = Some ob → ∃ n, ob = Sem n 0.
Proof.
  destruct o1 as [[p1 n1]|], o2 as [[p2 n2]|]; cbn; rewrite ?lookup_insert_Some, ?lookup_empty; naive_solver.
Qed.

Lemma boot_kind1 o1 o2 a : fst <$> o1 = Some a → kind (add_sem o2 (add_sem o1 ∅)) a = Some KSem.
Proof.
  destruct o1 as [[p1 n1]|]; [|done]. intros [= <-]. unfold kind. destruct o2 as [[p2 n2]|]; cbn.
  - destruct (decide (p2 = p1)) as [->|]; [by rewrite lookup_insert_eq|].
    by rewrite lookup_insert_ne, lookup_insert_eq.
  - by rewrite lookup_insert_eq.
Qed.

Lemma boot_kind2 o1 o2 a : fst <$> o2 = Some a → kind (add_sem o2 (add_sem o1 ∅)) a = Some KSem.
Proof.
  destruct o2 as [[p2 n2]|]; [|done]. intros [= <-]. unfold kind. cbn. by rewrite lookup_insert_eq.
Qed.

Lemma boot_blocks o1 o2 :
  NoDup (sem_blocks o2 ++ sem_blocks o1) →
  table_blocks obj_blocks (add_sem o2 (add_sem o1 ∅)) ≡ₚ sem_blocks o2 ++ sem_blocks o1.
Proof.
  intros Hnd. destruct o1 as [[p1 n1]|], o2 as [[p2 n2]|]; cbn.
  - rewrite 2!table_blocks_insert; [done|done|].
    rewrite lookup_insert_ne; [done|]. intros ->. cbn in Hnd. apply list.NoDup_cons in Hnd. set_solver.
  - by rewrite table_blocks_insert.
  - by rewrite table_blocks_insert.
  - done.
Qed.

(** The state after booting. *)
Lemma boot_ready σ a z q t n o1 o2 pid L :
  k_sleepers σ = Some a → k_zombies σ = Some z → k_runqueue σ = Some q →
  array_rep a [] → array_rep z [] → q_rep q [] →
  heap_owns (k_heap σ) (array_blocks a ++ array_blocks z ++ queue_blocks q ++
                        (t :: n :: sem_blocks o2 ++ sem_blocks o1) ++ L) →
  k_curthread σ = Some t → k_numthreads σ = 1 → k_curframes σ = [] →
  k_threads σ = <[t := Thread [] 0 n None None None None pid (replicate MAX_CHILD None) None (fst <$> o2) None]> ∅ →
  k_objs σ = add_sem o2 (add_sem o1 ∅) → k_lock σ = fst <$> o1 →
  ready_for σ [] [] [].
Proof.
  intros Ha Hz Hq Ra Rz Rq Hown Hc Hn Hcf Hts Hobjs Hlk. unfold ready_for, settled. rewrite Hcf. cbn.
  split; [|done]. split_and!.
  - exists a, z, q. split_and!; try done. cbn. unfold own. cbn.
    rewrite Hts, Hobjs, boot_blocks, table_blocks_insert, table_blocks_empty; [|done|].
    + eapply owns_sub, Hown. do 2 apply submseteq_skips_l. cbn.
      do 4 apply submseteq_skip. rewrite !app_nil_r. by apply submseteq_inserts_r.
    + destruct Hown as (_ & Hnd & _). rewrite !app_assoc in Hnd.
      apply list.NoDup_app in Hnd as (Hnd & _). apply list.NoDup_app in Hnd as (_ & _ & Hnd).
      by do 2 apply list.NoDup_cons in Hnd as [_ Hnd].
  - cbn. rewrite Hc, Hts, Hobjs, Hlk. split; cbn; try done.
    + apply NoDup_singleton.
    + intros u. rewrite lookup_insert_is_Some', lookup_empty. split.
      * intros [->|[]%not_elem_of_nil]%elem_of_cons. by left.
      * intros [->|[? ?]]; [set_solver|done].
    + by intros u Hu%elem_of_nil.
    + intros u uth [[-> <-]|[_ Hu]]%lookup_insert_Some; [by repeat constructor|by rewrite lookup_empty in Hu].
    + intros u uth [= <-]. rewrite lookup_insert_eq. by intros [= <-].
    + intros b ob Hb _. apply obj_ok_no_sleeper. by intros u Hu%elem_of_nil.
    + intros b m c Hb. destruct (boot_objs _ _ _ _ Hb) as (m' & [= _ ->]). done.
    + intros u uth b [[-> <-]|[_ Hu]]%lookup_insert_Some; [apply boot_kind2|by rewrite lookup_empty in Hu].
    + intros b. apply boot_kind1.
  - split; [by exists []|done|by left].
  - unfold counted. cbn. rewrite Hn, Hc. done.
  - cbn. by rewrite Hc.
Qed.

Lemma boot_wp h e :
  heap_ok h → wp false boot (λ _ σ, ready_for σ [] [] []) (kernel_init h e).
Proof.
  intros Hh. assert (Hown : heap_owns h []) by (split_and!; [done|constructor|set_solver]).
  destruct (q_create_spec (A := Z) 32 h [] Hown) as (r & h1 & Hrun & Hr); [done|].
  unfold boot. apply wp_bind. unfold scheduler_bootstrap. wp_steps.
  destruct r as [q|]; [|apply wp_panic]. destruct Hr as (Rq & _ & Hown1). wp_steps.
  unfold thread_bootstrap. apply wp_bind. eapply kmallocK_raw; [exact Hown1|done|]. intros r2 h2 Hown2.
  apply wp_bind, wp_deref_maybe. intros ph ->. wp_steps. apply wp_bind.
  eapply sem_create_raw; [exact Hown2|done|]. intros o1 h3 Hown3. wp_steps.
  destruct (array_create_spec (A := Z) h3 _ Hown3) as (r4 & h4 & Hrun4 & Hr4).
  wp_steps. destruct r4 as [a|]; [|apply wp_bind, wp_panic]. destruct Hr4 as [Ra Hown4]. wp_steps.
  destruct (array_create_spec (A := Z) h4 _ Hown4) as (r5 & h5 & Hrun5 & Hr5).
  wp_steps. destruct r5 as [z|]; [|apply wp_bind, wp_panic]. destruct Hr5 as [Rz Hown5]. wp_steps.
  apply wp_bind. unfold thread_create, kstrdup. apply wp_bind.
  eapply kmallocK_raw; [exact Hown5|done|]. intros [t|] h6 Hown6; [|wp_steps; apply wp_panic].
  apply wp_bind. eapply kmallocK_raw; [exact Hown6|done|]. intros [n|] h7 Hown7; apply wp_bind; cycle 1.
  { eapply kfreeK_raw; [exact Hown7|]. intros. wp_steps. }
  eapply sem_create_raw; [exact Hown7|done|]. intros o2 h8 Hown8. wp_steps.
  unfold insert_to_plist. apply wp_bind, wp_bind.
  eapply kmallocK_raw; [exact Hown8|done|]. intros r9 h9 Hown9.
  apply wp_bind, wp_deref_maybe. intros pn ->. wp_steps.
  eapply (boot_ready _ a z q t n o1 o2 _ [pn; ph]); try done.
  cbn. revert Hown9. apply heap_owns_perm. cbn. solve_Permutation.
Qed.
(** ** Reachable states *)

Lemma step_ready ev σ σ' sl rq zb :
  ready_for σ sl rq zb → step ev σ σ' →
  ∃ sl' rq' zb', settled (match ev with EvPick => tail rq | _ => rq end) (k_objs σ) (k_curthread σ)
                   σ' sl' rq' zb'.
Proof.
  intros Hr [Hen Hrun]. exact (wp_done _ _ _ _ _ _ (event_inv ev σ sl rq zb Hr Hen) Hrun).
Qed.

Lemma steps_ready es σ σ' :
  steps es σ σ' → (∃ sl rq zb, ready_for σ sl rq zb) → ∃ sl rq zb, ready_for σ' sl rq zb.
Proof.
  induction 1 as [|ev es σ σ1 σ' Hstep _ IH]; [done|]. intros (sl & rq & zb & Hr). apply IH.
  destruct (step_ready _ _ _ _ _ _ Hr Hstep) as (sl' & rq' & zb' & Hs). eauto using settled_restart.
Qed.

Lemma reachable_ready σ : reachable σ → ∃ sl rq zb, ready_for σ sl rq zb.
Proof.
  intros (h & e & σ0 & es & Hh & Hrun & Hsteps). eapply steps_ready; [done|].
  exists [], [], []. exact (wp_done _ _ _ _ _ _ (boot_wp h e Hh) Hrun).
Qed.

Lemma steps_snoc es ev σ σ1 σ' : steps es σ σ1 → step ev σ1 σ' → steps (es ++ [ev]) σ σ'.
Proof.
  induction 1 as [|ev0 es σ σ2 σ1 Hstep _ IH]; intros Hlast; cbn.
  - econstructor; [done|constructor].
  - econstructor; [done|by apply IH].
Qed.

Lemma reachable_step ev σ σ' : reachable σ → step ev σ σ' → reachable σ'.
Proof.
  intros (h & e & σ0 & es & Hh & Hrun & Hsteps) Hstep. exists h, e, σ0, (es ++ [ev]).
  split_and!; [done..|]. by eapply steps_snoc.
Qed.
End Boot.
