(* ===== verification/SystemTheorems.v ===== *)
(** * What the thread system guarantees

    Properties of every reachable state and of every step from it: each
    thread is in one place, no wakeup is lost, locks exclude, the
    scheduler is fair, and kernel code does nothing undefined.  The
    witnesses run the system with a simple allocator. *)

From S2P Require Import Prelude KArray Queue Kstate Thread Synch Process ThreadSpec System SystemInv SystemSafe SystemProc Boot.

(** ** Reading off the places of the threads *)

Definition array_list (a : array Z) : list Z := omap id (take (Z.to_nat (a_num a)) (cells_of a)).

Definition queue_list (q : queue Z) : list Z :=
  omap (λ k, mjoin ((q_data q).2 !! Z.to_nat ((q_nextread q + Z.of_nat k) mod q_size q)))
       (seq 0 (Z.to_nat ((q_nextwrite q - q_nextread q) mod q_size q))).

Lemma array_list_rep a l : array_rep a (Some <$> l) → array_list a = l.
Proof.
  intros [Hn _ _ Hc]. unfold array_list. rewrite Hn, Nat2Z.id, Hc. clear.
  induction l as [|x l IH]; [done|]. cbn. by rewrite IH.
Qed.

Lemma omap_seq {A} (f : nat → option A) l m :
  (∀ k x, l !! k = Some x → f (m + k)%nat = Some x) → omap f (seq m (length l)) = l.
Proof.
  revert m. induction l as [|x l IH]; intros m Hf; [done|]. cbn.
  specialize (Hf 0%nat x eq_refl) as Hx. rewrite Nat.add_0_r in Hx. rewrite Hx, IH; [done|].
  intros k y Hk. replace (S m + k)%nat with (m + S k)%nat by lia. by apply Hf.
Qed.

Lemma queue_list_rep q l : q_rep q l → queue_list q = l.
Proof.
  intros [Hs Hr Hw Hl Hc He]. unfold queue_list. rewrite Hw, Zminus_mod_idemp_l.
  replace (q_nextread q + Z.of_nat (length l) - q_nextread q) with (Z.of_nat (length l)) by lia.
  rewrite Z.mod_small, Nat2Z.id by lia. apply omap_seq. intros k x Hk. cbn. by rewrite (He k x Hk).
Qed.

Section Theorems.
Context {H E : Type} `{KHeapLaws H} `{ThreadEnv E}.
Implicit Types (σ : kstate H E).

Definition running σ : list Z := option_list (k_curthread σ).
Definition sleeping σ : list Z := from_option array_list [] (k_sleepers σ).
Definition runnable σ : list Z := from_option queue_list [] (k_runqueue σ).
Definition dead σ : list Z := from_option array_list [] (k_zombies σ).

Lemma queues_lists σ sl rq zb L :
  queues σ sl rq zb L → sleeping σ = sl ∧ runnable σ = rq ∧ dead σ = zb.
Proof.
  intros (a & z & q & Ha & Hz & Hq & Ra & Rz & Rq & _). unfold sleeping, runnable, dead.
  rewrite Ha, Hz, Hq. cbn. by rewrite (array_list_rep _ _ Ra), (array_list_rep _ _ Rz), (queue_list_rep _ _ Rq).
Qed.

Lemma settled_lists rq0 objs0 cur0 σ sl rq zb :
  settled rq0 objs0 cur0 σ sl rq zb → sleeping σ = sl ∧ runnable σ = rq ∧ dead σ = zb.
Proof. intros [[Hq _] _]. exact (queues_lists _ _ _ _ _ Hq). Qed.

(** The invariant, without the lists. *)
Lemma reachable_settled σ :
  reachable σ → ready_for σ (sleeping σ) (runnable σ) (dead σ).
Proof.
  intros (sl & rq & zb & Hr)%reachable_ready.
  by destruct (settled_lists _ _ _ _ _ _ _ Hr) as (-> & -> & ->).
Qed.

Lemma reachable_wf σ :
  reachable σ →
  wf (top_acquire (k_curframes σ)) [] (k_curthread σ) (k_threads σ) (k_objs σ) (k_lock σ)
     (below_acquire (k_curframes σ)) (sleeping σ) (runnable σ) (dead σ).
Proof. intros [(_ & Hwf & _) _]%reachable_settled. exact Hwf. Qed.

Lemma step_settled ev σ σ' :
  reachable σ → step ev σ σ' →
  settled (match ev with EvPick => tail (runnable σ) | _ => runnable σ end) (k_objs σ) (k_curthread σ)
    σ' (sleeping σ') (runnable σ') (dead σ').
Proof.
  intros Hr Hstep. destruct (step_ready _ _ _ _ _ _ (reachable_settled _ Hr) Hstep)
    as (sl' & rq' & zb' & Hs).
  by destruct (settled_lists _ _ _ _ _ _ _ Hs) as (-> & -> & ->).
Qed.

(** ** Waking one thread *)

(** The sleepers that are left, and the thread that is woken: the one that
    has slept on [w] the longest. *)
Definition wake_one (ts : gmap Z thread) (w : wchan) (sl : list Z) : list Z * list Z :=
  match list_find (sleeps_on ts w) sl with
  | Some (i, t) => (delete i sl, [t])
  | None => (sl, [])
  end.

Lemma wake_one_incl ts w sl t : t ∈ (wake_one ts w sl).1 → t ∈ sl.
Proof.
  unfold wake_one. destruct (list_find _ _) as [[i u]|]; [|done]. cbn.
  intros (j & Hj)%list_elem_of_lookup. apply list_elem_of_lookup. rewrite list_lookup_delete in Hj.
  case_decide; eauto.
Qed.

Lemma wake_one_length ts w sl :
  (length (wake_one ts w sl).1 + length (wake_one ts w sl).2 = length sl)%nat.
Proof.
  unfold wake_one. destruct (list_find _ _) as [[i u]|] eqn:Hf; cbn; [|lia].
  apply list_find_Some in Hf as (Hi & _ & _). rewrite length_delete by done.
  apply lookup_lt_Some in Hi. lia.
Qed.

Lemma wakeup_one_first s w Q σ sl rq zb L :
  queues σ sl rq zb L → (∀ t, t ∈ sl → is_Some (k_threads σ !! t)) →
  (∀ σ', moved σ σ' →
     queues σ' (wake_one (k_threads σ) w sl).1 (rq ++ (wake_one (k_threads σ) w sl).2) zb L → Q tt σ') →
  wp s (thread_wakeup_one w) Q σ.
Proof.
  intros Hq Hts HQ. unfold wake_one in HQ. eapply thread_wakeup_one_spec; [done..| |].
  - intros Hno. destruct (list_find _ sl) as [[i t]|] eqn:Hf.
    + apply list_find_Some in Hf as (Hi & Hs & _). destruct (Hno t); [|done].
      by eapply list_elem_of_lookup_2.
    + apply HQ; [apply moved_refl|]. cbn. by rewrite app_nil_r.
  - intros l1 t l2 σ' -> Ht Hl1 Hm Hq'.
    rewrite (proj2 (list_find_Some _ (l1 ++ t :: l2) (length l1) t)) in HQ.
    + apply HQ; [done|]. cbn. by rewrite delete_middle.
    + split_and!; [by apply list_lookup_middle|done|]. intros j y Hj Hlt.
      apply Hl1. rewrite lookup_app_l in Hj by done. by eapply list_elem_of_lookup_2.
Qed.

(** [lock_release] by the holder. *)
Lemma lock_release_held s a n Q σ sl rq zb L :
  queues σ sl rq zb L → (∀ t, t ∈ sl → is_Some (k_threads σ !! t)) →
  k_objs σ !! a = Some (Lock n (k_curthread σ)) →
  (∀ σ', moved (set_objs (<[a := Lock n None]> (k_objs σ)) σ) σ' →
     queues σ' (wake_one (k_threads σ) (WObj a) sl).1
               (rq ++ (wake_one (k_threads σ) (WObj a) sl).2) zb L → Q tt σ') →
  wp s (lock_release (Some a)) Q σ.
Proof.
  intros Hq Hts Ha HQ. unfold lock_release, lock_do_i_hold. wp_steps. apply wp_bind.
  rewrite bool_decide_eq_true_2 by done. wp_steps. eapply wakeup_one_first; [exact Hq|done|].
  intros σ1 (aa & z & q & h & ->) Hq1. wp_steps. apply HQ; [|exact Hq1].
  exists aa, z, q, h. by destruct σ.
Qed.

(** ** Properties *)

(** C6: in every reachable state each thread that exists is in exactly one
    place: running, asleep, on the run queue, or dead and waiting to be
    destroyed; and numthreads counts those that are not dead. *)
Theorem threads_in_one_place σ :
  reachable σ →
  NoDup (running σ ++ sleeping σ ++ runnable σ ++ dead σ) ∧
  (∀ t, t ∈ running σ ++ sleeping σ ++ runnable σ ++ dead σ ↔ is_Some (k_threads σ !! t)) ∧
  k_numthreads σ = Z.of_nat (length (running σ ++ sleeping σ ++ runnable σ)).
Proof.
  intros Hr. pose proof (reachable_wf σ Hr) as Hwf.
  pose proof (wf_nodup _ _ _ _ _ _ _ _ _ _ Hwf) as Hnd.
  pose proof (wf_dom _ _ _ _ _ _ _ _ _ _ Hwf) as Hdom. rewrite !app_nil_r in *.
  destruct (reachable_settled σ Hr) as [(_ & _ & _ & [Hn _] & _) _].
  split_and!; [done..|]. cbn in Hn. rewrite !length_app. unfold running. lia.
Qed.

(** C8: no wakeup of a semaphore is lost: its count is never negative, and
    while it is positive no thread sleeps on it. *)
Theorem semaphore_no_lost_wakeup σ a name count :
  reachable σ → k_objs σ !! a = Some (Sem name count) →
  0 ≤ count ∧ (0 < count → ∀ t, t ∈ sleeping σ → ¬ sleeps_on (k_threads σ) (WObj a) t).
Proof.
  intros Hr Ha. pose proof (reachable_wf σ Hr) as Hwf.
  split; [by eapply (wf_sem _ _ _ _ _ _ _ _ _ _ Hwf)|].
  apply (wf_objs _ _ _ _ _ _ _ _ _ _ Hwf a _ Ha). intros Htop.
  destruct (reachable_settled σ Hr) as [_ Ht]. destruct (Ht a Htop) as [Hk _].
  unfold kind in Hk. by rewrite Ha in Hk.
Qed.

(** C13: no wakeup of a lock is lost: if a thread sleeps on a lock nobody
    holds, some thread is on its way to take it, on the run queue or
    running, with [lock_acquire] as the next thing it does. *)
Theorem lock_no_lost_wakeup σ a name t :
  reachable σ → k_objs σ !! a = Some (Lock name None) →
  t ∈ sleeping σ → sleeps_on (k_threads σ) (WObj a) t →
  (∃ u, u ∈ runnable σ ∧ acquiring a (frames_in (k_threads σ) u)) ∨
  k_curthread σ ≠ None ∧ acquiring a (k_curframes σ).
Proof.
  intros Hr Ha Ht Hs. pose proof (reachable_wf σ Hr) as Hwf.
  destruct (decide (top_acquire (k_curframes σ) = Some a)) as [Htop|Htop].
  - right. destruct (reachable_settled σ Hr) as [_ Hset]. destruct (Hset a Htop) as (_ & _ & Hc).
    split; [done|]. destruct (k_curframes σ) as [|[] fs]; simplify_eq/=. by eexists _, _.
  - left. pose proof (wf_objs _ _ _ _ _ _ _ _ _ _ Hwf a _ Ha Htop) as Hok. by apply (Hok t).
Qed.

(** C7: locks exclude: no step takes a lock away from a thread that is not
    running, and only the running thread can become the holder of a lock. *)
Theorem lock_mutual_exclusion ev σ σ' a name t :
  reachable σ → step ev σ σ' →
  (k_objs σ !! a = Some (Lock name (Some t)) → k_curthread σ ≠ Some t →
   k_objs σ' !! a = Some (Lock name (Some t))) ∧
  (k_objs σ' !! a = Some (Lock name (Some t)) →
   k_objs σ !! a = Some (Lock name (Some t)) ∨ k_curthread σ = Some t).
Proof.
  intros Hr Hstep. destruct (step_settled _ _ _ Hr Hstep) as [(_ & _ & [_ Hk Ht] & _) _].
  split; [apply Hk|apply Ht].
Qed.
Definition picks (es : list event) : nat :=
  length (filter (λ ev, ev = EvPick) es).

Lemma pick_takes_head σ σ' :
  reachable σ → step EvPick σ σ' →
  ∃ t, runnable σ = t :: runnable σ' ∧ k_curthread σ' = Some t.
Proof.
  intros Hr [Hen Hrun].
  destruct (pick_event_inv _ _ _ _ (reachable_settled σ Hr) Hen) as (t & rq' & Hrq & Hwp).
  destruct (wp_done _ _ _ _ _ _ Hwp Hrun) as [[zb' Hs] Hc].
  destruct (settled_lists _ _ _ _ _ _ _ Hs) as (_ & Hrq' & _). exists t. by rewrite Hrq'.
Qed.

Lemma step_extends ev σ σ' :
  reachable σ → step ev σ σ' → ev ≠ EvPick → ∃ l, runnable σ' = runnable σ ++ l.
Proof.
  intros Hr Hstep Hne. destruct (step_settled _ _ _ Hr Hstep) as [(_ & _ & [Hrq _ _] & _) _].
  by destruct ev.
Qed.

(** C11: the scheduler is fair: a thread that has [i] threads before it on the
    run queue runs at the [i+1]st choice of the scheduler, whatever threads
    and devices do meanwhile. *)
Theorem scheduler_fair es σ σ' i t :
  reachable σ → steps es σ σ' → runnable σ !! i = Some t → (i < picks es)%nat →
  ∃ es1 es2 σ1, es = es1 ++ es2 ∧ steps es1 σ σ1 ∧ picks es1 = S i ∧ k_curthread σ1 = Some t.
Proof.
  intros Hr Hsteps. revert i Hr.
  induction Hsteps as [|ev es σ σ1 σ' Hstep _ IH]; intros i Hr Hi Hp; [by inversion Hp|].
  pose proof (reachable_step _ _ _ Hr Hstep) as Hr1.
  assert (Hnext : ∀ j, runnable σ1 !! j = Some t → (j < picks es)%nat →
    ∃ es1 es2 σ2, ev :: es = es1 ++ es2 ∧ steps es1 σ σ2 ∧
      picks es1 = (if decide (ev = EvPick) then S (S j) else S j) ∧ k_curthread σ2 = Some t).
  { intros j Hj Hjp. destruct (IH j Hr1 Hj Hjp) as (es1 & es2 & σ2 & -> & Hs1 & Hp1 & Hc2).
    exists (ev :: es1), es2, σ2. split_and!; [done|by econstructor| |done].
    unfold picks in *. rewrite filter_cons. case_decide; cbn; by rewrite Hp1. }
  unfold picks in Hp. rewrite filter_cons in Hp. destruct (decide (ev = EvPick)) as [->|Hne].
  - destruct (pick_takes_head _ _ Hr Hstep) as (t' & Hrq & Hc). rewrite Hrq in Hi.
    destruct i as [|i]; simplify_eq/=.
    + exists [EvPick], es, σ1. split_and!; [done| |done|done]. econstructor; [done|constructor].
    + apply Hnext; [done|]. unfold picks. lia.
  - destruct (step_extends _ _ _ Hr Hstep Hne) as [l Hl]. apply Hnext; [|done].
    rewrite Hl. by apply lookup_app_l_Some.
Qed.


(** V adds one to the count and makes every thread that sleeps on the
    semaphore runnable, in the order in which they went to sleep; it leaves
    the other sleepers and the interrupt level alone. *)
Theorem V_wakes_all σ σ' a name count :
  reachable σ → k_objs σ !! a = Some (Sem name count) → V (Some a) σ = Done (tt, σ') →
  k_objs σ' = <[a := Sem name (count + 1)]> (k_objs σ) ∧
  runnable σ' = runnable σ ++ filter (sleeps_on (k_threads σ) (WObj a)) (sleeping σ) ∧
  sleeping σ' = filter (λ t, ¬ sleeps_on (k_threads σ) (WObj a) t) (sleeping σ) ∧
  k_threads σ' = k_threads σ ∧ k_curspl σ' = k_curspl σ.
Proof.
  intros Hr Ha Hrun. destruct (reachable_settled σ Hr) as [(Hq & Hwf & _) _].
  pose proof (wf_sem _ _ _ _ _ _ _ _ _ _ Hwf a name count Ha) as Hc.
  refine (wp_done true (V (Some a)) (λ _ σ', _) σ tt σ' _ Hrun). unfold V. wp_steps.
  assert (Hs : s32 (count + 1) = count + 1).
  { unfold s32 in *. Z.to_euclidean_division_equations. lia. }
  rewrite Hs in *. apply wp_bind. eapply thread_wakeup_spec; [exact Hq| |].
  { intros t Ht. apply (wf_dom _ _ _ _ _ _ _ _ _ _ Hwf). cbn. set_solver. }
  intros σ1 (aa & z & q & h & ->) Hq1. wp_steps. destruct (queues_lists _ _ _ _ _ Hq1) as (Hsl & Hrq & _).
  by split_and!.
Qed.
(** cv_wait releases the lock and goes to sleep in one step: when the next
    event happens the lock is free, the first thread waiting for it is
    runnable, and the caller is asleep on the condition variable, behind
    the others. *)
Theorem cv_wait_atomic σ σ' c l name t :
  reachable σ → step (EvCall (CCvWait c l)) σ σ' → k_curthread σ = Some t →
  k_objs σ !! l = Some (Lock name (Some t)) →
  k_curthread σ' = None ∧ k_objs σ' = <[l := Lock name None]> (k_objs σ) ∧
  runnable σ' = runnable σ ++ (wake_one (k_threads σ) (WObj l) (sleeping σ)).2 ∧
  sleeping σ' = (wake_one (k_threads σ) (WObj l) (sleeping σ)).1 ++ [t] ∧
  sleeps_on (k_threads σ') (WObj c) t.
Proof.
  intros Hr [(_ & Hcf & _) Hrun] Hc Hl. pose proof (reachable_wf σ Hr) as Hwf.
  destruct (reachable_settled σ Hr) as [(Hq & _ & _ & [Hn Hlim] & _) _]. cbn in Hn, Hlim.
  rewrite Hc in Hn. cbn in Hn.
  assert (Hts : ∀ u, u ∈ sleeping σ → is_Some (k_threads σ !! u)).
  { intros u Hu. apply (wf_dom _ _ _ _ _ _ _ _ _ _ Hwf). set_solver. }
  destruct (proj1 (wf_dom _ _ _ _ _ _ _ _ _ _ Hwf t)) as [th Hth]; [rewrite Hc; set_solver|].
  refine (wp_done false (run_event (EvCall (CCvWait c l))) (λ _ σ', _) σ tt σ' _ Hrun).
  cbn [run_event do_call]. unfold cv_wait, thread_sleep, apply_flow, switch_away. wp_steps. apply wp_bind.
  eapply lock_release_held; [exact Hq|exact Hts|cbn; rewrite Hc; exact Hl|].
  intros σ1 (aa & z & q & h & ->) Hq1. wp_steps. apply wp_bind, check_stack_wp. wp_steps. apply wp_bind.
  eapply stash_sleepers_spec; [exact Hq1| |].
  { destruct Hq1 as (_ & _ & _ & _ & _ & _ & _ & _ & _ & _ & Hlen & _).
    pose proof (wake_one_length (k_threads σ) (WObj l) (sleeping σ)).
    rewrite length_app. cbn [k_threads set_curspl]. lia. }
  intros r σ2 Hm Hr2. wp_steps. destruct Hr2 as [[-> Hq2]|[-> _]]; [|done].
  destruct Hm as (?&?&?&?&->). destruct (queues_lists _ _ _ _ _ Hq2) as (Hsl & Hrq & _).
  split_and!; [done|done|exact Hrq|exact Hsl|]. unfold sleeps_on. cbn. by rewrite lookup_insert_eq.
Qed.

(** cv_signal makes the thread that has waited longest on the condition
    variable runnable, and no other thread that waits on it; it also
    releases the lock, whose longest waiter becomes runnable too. *)
Theorem cv_signal_wakes_first σ σ' c l name t :
  reachable σ → step (EvCall (CSignal c l)) σ σ' → k_curthread σ = Some t →
  k_objs σ !! l = Some (Lock name (Some t)) →
  let '(sl1, woken) := wake_one (k_threads σ) (WObj c) (sleeping σ) in
  let '(sl2, woken') := wake_one (k_threads σ) (WObj l) sl1 in
  runnable σ' = runnable σ ++ woken ++ woken' ∧ sleeping σ' = sl2 ∧
  k_curthread σ' = Some t ∧ k_objs σ' = <[l := Lock name None]> (k_objs σ).
Proof.
  intros Hr [(_ & Hcf & _) Hrun] Hc Hl. pose proof (reachable_wf σ Hr) as Hwf.
  destruct (reachable_settled σ Hr) as [(Hq & _) _].
  assert (Hts : ∀ u, u ∈ sleeping σ → is_Some (k_threads σ !! u)).
  { intros u Hu. apply (wf_dom _ _ _ _ _ _ _ _ _ _ Hwf). set_solver. }
  refine (wp_done false (run_event (EvCall (CSignal c l))) (λ _ σ', _) σ tt σ' _ Hrun).
  cbn [run_event do_call]. unfold returning, cv_signal, apply_flow. wp_steps. apply wp_bind.
  eapply wakeup_one_first; [exact Hq|exact Hts|]. intros σ1 Hm1 Hq1.
  destruct (moved_same _ _ Hm1) as (E1 & E2 & E3). cbn in E1, E2, E3, Hq1.
  destruct (wake_one (k_threads σ) (WObj c) (sleeping σ)) as [sl1 woken] eqn:Hw1.
  cbn [fst snd] in Hq1. apply wp_bind.
  eapply lock_release_held; [exact Hq1| |rewrite E1, E3, Hc; exact Hl|].
  { intros u Hu. rewrite E2. apply Hts. eapply wake_one_incl. by rewrite Hw1. }
  intros σ2 Hm2 Hq2. destruct (moved_same _ _ Hm2) as (F1 & F2 & F3). cbn in F1, F2, F3. wp_steps.
  rewrite E2 in Hq2. destruct (wake_one (k_threads σ) (WObj l) sl1) as [sl2 woken'].
  destruct (queues_lists _ _ _ _ _ Hq2) as (Hsl & Hrq & _).
  split_and!; [by rewrite app_assoc; exact Hrq|exact Hsl|cbn; congruence|cbn; congruence].
Qed.
End Theorems.
