(* ===== verification/SystemDemo.v ===== *)
(** * Runs of the thread system

    A simple allocator and a scenario with three threads, a semaphore, a
    lock and a condition variable, executed; the reachable states the
    witnesses of the theorems use. *)

From S2P Require Import Prelude KArray Queue Kstate Thread Synch Process ThreadSpec System SystemInv SystemSafe SystemProc Boot SystemTheorems.

(** ** An allocator that never reuses memory *)

Record bump := Bump { b_next : Z; b_live : list Z }.

Definition bump_malloc (n : Z) (h : bump) : outcome (option Z * bump) :=
  if b_next h + n <? 2 ^ 30
  then Done (Some (b_next h), Bump (b_next h + Z.max n 4) (b_next h :: b_live h))
  else Done (None, h).

Definition bump_free (a : Z) (h : bump) : outcome bump :=
  if decide (a ∈ b_live h)
  then Done (Bump (b_next h) (filter (λ b, b ≠ a) (b_live h)))
  else Fault.

#[global] Instance bump_heap : KHeap bump := {
  kmalloc := bump_malloc;
  kfree := bump_free;
  heap_ok h := 0 < b_next h ∧ ∀ a, a ∈ b_live h → a < b_next h;
  live h a := a ∈ b_live h;
}.

#[global] Instance bump_heap_laws : KHeapLaws bump.
Proof.
  split.
  - intros h n [Hp Hl] Hn. cbn. unfold bump_malloc. destruct (_ <? _).
    + eexists _, _. split; [done|]. cbn. split_and!; [lia| |set_solver|].
      * intros a [->|Ha]%elem_of_cons; [lia|]. specialize (Hl a Ha). lia.
      * intros a [= <-]. split_and!; [lia| |set_solver]. intros Ha%Hl. lia.
    + eexists _, _. split; [done|]. cbn. naive_solver.
  - intros h a [Hp Hl] Ha. cbn in *. unfold bump_free. rewrite decide_True by done.
    eexists. split; [done|]. cbn. split_and!; [done| |].
    + intros b Hb. apply Hl. by apply list_elem_of_filter in Hb as [_ ?].
    + intros b Hne Hb. by apply list_elem_of_filter.
Qed.

#[global] Instance unit_env : ThreadEnv unit := {
  as_activate _ e := e; as_destroy _ e := e; as_copy v e := (Some v, e);
  vop_incref _ e := e; vop_decref _ e := e;
}.

(** ** Executing a scenario *)

(** Enough of [enabled] for the scenarios. *)
Definition kindb (objs : gmap Z kobj) (a : Z) (k : okind) : bool :=
  match kind objs a, k with
  | Some KSem, KSem | Some KLock, KLock | Some KCv, KCv => true
  | _, _ => false
  end.

Section Exec.
Context {H E : Type} `{KHeap H} `{ThreadEnv E}.
Implicit Types σ : kstate H E.

Definition call_okb σ (c : kcall) : bool :=
  match c with
  | CYield | CExit | CClocksleep _ | CWaitpid _ _ _ | CSysExit _ => true
  | CSplx n => (0 <=? n) && (n <=? SPL_HIGH)
  | CSemCreate len n => (0 <=? len) && (len <? 2 ^ 16) && (n <? 2 ^ 31)
  | CLockCreate len | CCvCreate len => (0 <=? len) && (len <? 2 ^ 16)
  | CP a | CV a => kindb (k_objs σ) a KSem
  | CAcquire a | CRelease a | CDoIHold a => kindb (k_objs σ) a KLock
  | CCvWait c l | CSignal c l | CBroadcast c l => kindb (k_objs σ) c KCv && kindb (k_objs σ) l KLock
  | CFork len | CSysFork len => (0 <=? len) && (len <? 2 ^ 16) && (k_numthreads σ <? thread_limit)
  | _ => false
  end.

Definition is_some {A} (o : option A) : bool := match o with Some _ => true | None => false end.

Definition enabledb (ev : event) σ : bool :=
  match ev with
  | EvCall c => is_some (k_curthread σ) && bool_decide (length (k_curframes σ) = 0%nat) &&
                call_okb σ c && (num_zombies σ <? thread_limit)
  | EvContinue => is_some (k_curthread σ) && negb (bool_decide (length (k_curframes σ) = 0%nat)) &&
                  (num_zombies σ <? thread_limit)
  | EvPick => negb (is_some (k_curthread σ)) &&
              match k_runqueue σ with Some q => negb (q_empty q) | None => false end
  | EvTimer => is_some (k_curthread σ) && (k_curspl σ =? 0)
  | EvDevice a => is_some (k_curthread σ) && (k_curspl σ =? 0) && kindb (k_objs σ) a KSem
  end.

Lemma kindb_true objs a k : kindb objs a k = true → kind objs a = Some k.
Proof. unfold kindb. by destruct (kind objs a) as [[]|], k. Qed.

Lemma enabledb_true ev σ : enabledb ev σ = true → enabled ev σ.
Proof.
  destruct ev as [c| | | |a]; cbn; unfold interruptible;
    rewrite ?andb_true_iff, ?negb_true_iff, ?Z.ltb_lt, ?bool_decide_eq_true, ?bool_decide_eq_false.
  - intros (((Hc & Hf) & Hok) & Hz). split_and!; [by destruct (k_curthread σ)|by destruct (k_curframes σ)| |done].
    destruct c; cbn in *; rewrite ?andb_true_iff in Hok; try done;
      unfold is_sem, is_lock, is_cv; repeat match goal with
      | H : _ ∧ _ |- _ => destruct H
      | H : kindb _ _ _ = true |- _ => apply kindb_true in H
      end; try done; try lia.
  - intros ((Hc & Hf) & Hz). split_and!; [by destruct (k_curthread σ)|by destruct (k_curframes σ)|done].
  - intros [Hc Hq]. destruct (k_curthread σ); [done|]. split; [done|].
    destruct (k_runqueue σ) as [q|]; [|done]. exists q. by apply negb_true_iff in Hq.
  - intros [Hc Hs]. destruct (k_curthread σ); [lia|done].
  - intros [[Hc Hs] Hk]. destruct (k_curthread σ); [|done]. split; [lia|by apply kindb_true].
Qed.

Fixpoint run_all (es : list event) σ : option (kstate H E) :=
  match es with
  | [] => Some σ
  | ev :: es =>
      if enabledb ev σ
      then match run_event ev σ with Done (_, σ') => run_all es σ' | _ => None end
      else None
  end.

Lemma run_all_steps es σ σ' : run_all es σ = Some σ' → steps es σ σ'.
Proof.
  revert σ. induction es as [|ev es IH]; intros σ; cbn; [intros [= ->]; constructor|].
  destruct (enabledb ev σ) eqn:Hen; [|done]. destruct (run_event ev σ) as [[[] σ1]| | |] eqn:Hrun; try done.
  intros Hes. econstructor; [split; [by apply enabledb_true|done]|by apply IH].
Qed.
End Exec.

(** ** The scenario *)

Definition demo_start : kstate bump unit := kernel_init (Bump 4096 []) tt.
Definition demo_booted : kstate bump unit :=
  match boot demo_start with Done (_, σ) => σ | _ => demo_start end.

Definition demo_sem : Z := 4858.
Definition demo_lock : Z := 4870.
Definition demo_cv : Z := 4883.

Definition demo_run (es : list event) (σ : kstate bump unit) : kstate bump unit :=
  match run_all es σ with Some σ' => σ' | None => σ end.

(** The first thread takes the lock; two more are forked, and sleep on it. *)
Definition demo_script1 : list event :=
  [EvCall (CSemCreate 3 0); EvCall (CLockCreate 4); EvCall (CCvCreate 2);
   EvCall (CAcquire demo_lock); EvCall (CFork 1); EvCall (CFork 1); EvCall CYield;
   EvPick; EvContinue; EvCall (CAcquire demo_lock);
   EvPick; EvContinue; EvCall (CAcquire demo_lock); EvPick; EvContinue].
Definition demo_contended : kstate bump unit := demo_run demo_script1 demo_booted.

(** It releases the lock. *)
Definition demo_script2 : list event := [EvCall (CRelease demo_lock)].
Definition demo_free : kstate bump unit := demo_run demo_script2 demo_contended.

(** It sleeps on the semaphore; the next thread runs and takes the lock. *)
Definition demo_script3 : list event := [EvCall (CP demo_sem); EvPick; EvContinue].
Definition demo_waiting : kstate bump unit := demo_run demo_script3 demo_free.

Lemma demo_run_steps es σ :
  is_some (run_all es σ) = true → steps es σ (demo_run es σ).
Proof.
  intros Hs. apply run_all_steps. unfold demo_run. by destruct (run_all es σ).
Qed.

Lemma reachable_steps (σ σ' : kstate bump unit) es : reachable σ → steps es σ σ' → reachable σ'.
Proof.
  intros Hr Hs. revert Hr. induction Hs as [|ev es σ σ1 σ' Hstep _ IH]; [done|].
  intros Hr. eapply IH, reachable_step, Hstep. done.
Qed.

Lemma demo_booted_reachable : reachable demo_booted.
Proof.
  exists (Bump 4096 []), tt, demo_booted, []. split_and!; [split; [done|set_solver]| |constructor].
  vm_compute. reflexivity.
Qed.

Lemma demo_contended_reachable : reachable demo_contended.
Proof.
  eapply reachable_steps; [exact demo_booted_reachable|]. apply demo_run_steps. vm_compute. reflexivity.
Qed.

Lemma demo_free_reachable : reachable demo_free.
Proof.
  eapply reachable_steps; [exact demo_contended_reachable|]. apply demo_run_steps. vm_compute. reflexivity.
Qed.

Lemma demo_waiting_reachable : reachable demo_waiting.
Proof.
  eapply reachable_steps; [exact demo_free_reachable|]. apply demo_run_steps. vm_compute. reflexivity.
Qed.

Lemma demo_step ev σ :
  is_some (run_all [ev] σ) = true → step ev σ (demo_run [ev] σ).
Proof.
  intros Hs%demo_run_steps. inversion Hs as [|? ? ? σ1 ? Hstep Hnil]; subst.
  inversion Hnil; subst. done.
Qed.

(** ** Witnesses *)

Lemma threads_in_one_place_witness :
  reachable demo_free ∧
  NoDup (running demo_free ++ sleeping demo_free ++ runnable demo_free ++ dead demo_free) ∧
  k_numthreads demo_free = 3.
Proof.
  pose proof (threads_in_one_place demo_free demo_free_reachable) as (Hnd & _ & Hn).
  split_and!; [exact demo_free_reachable|exact Hnd|exact Hn].
Defined.

Lemma semaphore_no_lost_wakeup_witness :
  k_objs demo_waiting !! demo_sem = Some (Sem 4866 0) ∧ 0 ≤ 0.
Proof.
  split; [vm_compute; reflexivity|].
  exact (proj1 (semaphore_no_lost_wakeup demo_waiting demo_sem 4866 0 demo_waiting_reachable
                  ltac:(vm_compute; reflexivity))).
Defined.

Lemma lock_no_lost_wakeup_witness :
  (∃ u, u ∈ runnable demo_free ∧ acquiring demo_lock (frames_in (k_threads demo_free) u)) ∨
  k_curthread demo_free ≠ None ∧ acquiring demo_lock (k_curframes demo_free).
Proof.
  apply (lock_no_lost_wakeup demo_free demo_lock 4878 9544 demo_free_reachable).
  - vm_compute. reflexivity.
  - apply list_elem_of_lookup_2 with (i := 0%nat). vm_compute. reflexivity.
  - vm_compute. reflexivity.
Defined.

Definition demo_yielded : kstate bump unit := demo_run [EvCall CYield] demo_waiting.
Lemma demo_yield : step (EvCall CYield) demo_waiting demo_yielded.
Proof. apply demo_step. vm_compute. reflexivity. Qed.

Lemma demo_yielded_lock : k_objs demo_yielded !! demo_lock = Some (Lock 4878 (Some 4891)).
Proof. vm_compute. reflexivity. Qed.

Lemma lock_mutual_exclusion_witness :
  k_objs demo_waiting !! demo_lock = Some (Lock 4878 (Some 4891)) ∨ k_curthread demo_waiting = Some 4891.
Proof.
  exact (proj2 (lock_mutual_exclusion (EvCall CYield) demo_waiting demo_yielded demo_lock 4878 4891
    demo_waiting_reachable demo_yield) demo_yielded_lock).
Defined.

Lemma scheduler_fair_witness :
  ∃ es1 es2 σ1, [EvCall CYield; EvPick] = es1 ++ es2 ∧ steps es1 demo_free σ1 ∧ picks es1 = 1%nat ∧
    k_curthread σ1 = Some 4891.
Proof.
  apply (scheduler_fair [EvCall CYield; EvPick] demo_free (demo_run [EvCall CYield; EvPick] demo_free)
           0 4891 demo_free_reachable).
  - apply demo_run_steps. vm_compute. reflexivity.
  - vm_compute. reflexivity.
  - vm_compute. constructor.
Defined.


Definition demo_woken : kstate bump unit :=
  match V (Some demo_sem) demo_waiting with Done (_, σ) => σ | _ => demo_waiting end.
Lemma demo_V : V (Some demo_sem) demo_waiting = Done (tt, demo_woken).
Proof. vm_compute. reflexivity. Qed.

Lemma V_wakes_all_witness : runnable demo_woken = [4309].
Proof.
  rewrite (proj1 (proj2 (V_wakes_all demo_waiting demo_woken demo_sem 4866 0
    demo_waiting_reachable ltac:(vm_compute; reflexivity) demo_V))).
  vm_compute. reflexivity.
Defined.

Definition demo_cv_waited : kstate bump unit :=
  demo_run [EvCall (CCvWait demo_cv demo_lock)] demo_contended.
Lemma demo_cv_wait : step (EvCall (CCvWait demo_cv demo_lock)) demo_contended demo_cv_waited.
Proof. apply demo_step. vm_compute. reflexivity. Qed.
Lemma demo_contended_holder :
  k_curthread demo_contended = Some 4309 ∧
  k_objs demo_contended !! demo_lock = Some (Lock 4878 (Some 4309)).
Proof. vm_compute. split; reflexivity. Qed.

Lemma cv_wait_atomic_witness :
  k_curthread demo_cv_waited = None ∧ sleeping demo_cv_waited = [9544; 4309].
Proof.
  destruct (cv_wait_atomic demo_contended demo_cv_waited demo_cv demo_lock 4878 4309
    demo_contended_reachable demo_cv_wait (proj1 demo_contended_holder) (proj2 demo_contended_holder))
    as (Hc & _ & _ & Hs & _).
  split; [exact Hc|]. rewrite Hs. vm_compute. reflexivity.
Defined.

Definition demo_signalled : kstate bump unit :=
  demo_run [EvCall (CSignal demo_cv demo_lock)] demo_contended.
Lemma demo_signal : step (EvCall (CSignal demo_cv demo_lock)) demo_contended demo_signalled.
Proof. apply demo_step. vm_compute. reflexivity. Qed.

Lemma cv_signal_wakes_first_witness :
  let '(sl1, woken) := wake_one (k_threads demo_contended) (WObj demo_cv) (sleeping demo_contended) in
  let '(sl2, woken') := wake_one (k_threads demo_contended) (WObj demo_lock) sl1 in
  runnable demo_signalled = runnable demo_contended ++ woken ++ woken' ∧ sleeping demo_signalled = sl2 ∧
  k_curthread demo_signalled = Some 4309 ∧
  k_objs demo_signalled = <[demo_lock := Lock 4878 None]> (k_objs demo_contended).
Proof.
  exact (cv_signal_wakes_first demo_contended demo_signalled demo_cv demo_lock 4878 4309
    demo_contended_reachable demo_signal (proj1 demo_contended_holder) (proj2 demo_contended_holder)).
Defined.
