(* ===== verification/Bytes.v ===== *)
(** * Buffers of bytes

    The kernel's private buffers (disk blocks, structures being
    transferred) are lists of bytes.  [slice] and [splice] read and
    overwrite a range; multi-byte fields are big endian, as on the MIPS. *)

From S2P Require Import Prelude.

(** [n] bytes of [l] from offset [i]. *)
Definition slice {A} (l : list A) (i n : nat) : list A := take n (drop i l).

(** Overwrite the bytes of [l] from offset [i] with [x]. *)
Definition splice {A} (l : list A) (i : nat) (x : list A) : list A :=
  take i l ++ x ++ drop (i + length x) l.

(** The same through C pointers: out of the buffer's bounds the access is
    undefined. *)
Definition fetch (l : list Z) (i n : Z) : outcome (list Z) :=
  if (0 <=? i) && (i + n <=? Z.of_nat (length l)) then Done (slice l (Z.to_nat i) (Z.to_nat n))
  else Fault.
Definition patch (l : list Z) (i : Z) (x : list Z) : outcome (list Z) :=
  if (0 <=? i) && (i + Z.of_nat (length x) <=? Z.of_nat (length l)) then Done (splice l (Z.to_nat i) x)
  else Fault.

Section Lists.
Context {A : Type}.
Implicit Types (l x : list A).

Lemma slice_length l i n : (i + n ≤ length l)%nat → length (slice l i n) = n.
Proof. intros. unfold slice. rewrite length_take, length_drop. lia. Qed.

Lemma slice_lookup l i n k : (k < n)%nat → slice l i n !! k = l !! (i + k)%nat.
Proof. intros. unfold slice. rewrite lookup_take_lt by done. apply lookup_drop. Qed.

Lemma slice_all l : slice l 0 (length l) = l.
Proof. unfold slice. rewrite drop_0. apply firstn_all. Qed.

Lemma slice_app l i n m : slice l i (n + m) = slice l i n ++ slice l (i + n) m.
Proof.
  unfold slice. rewrite <- drop_drop.
  rewrite <- (take_drop n (take (n + m) (drop i l))). f_equal.
  - rewrite take_take. f_equal. lia.
  - rewrite <- take_drop_commute. done.
Qed.

Lemma splice_length l i x : (i + length x ≤ length l)%nat → length (splice l i x) = length l.
Proof. intros. unfold splice. rewrite !length_app, length_take, length_drop. lia. Qed.

Lemma splice_lookup l i x k :
  (i + length x ≤ length l)%nat →
  splice l i x !! k = if decide (i ≤ k < i + length x)%nat then x !! (k - i)%nat else l !! k.
Proof.
  intros Hl. unfold splice. destruct (decide _) as [Hk|Hk].
  - rewrite lookup_app_r, length_take by (rewrite length_take; lia).
    rewrite lookup_app_l by lia. f_equal. lia.
  - destruct (decide (k < i)%nat).
    + rewrite lookup_app_l by (rewrite length_take; lia). apply lookup_take_lt. lia.
    + rewrite lookup_app_r, length_take by (rewrite length_take; lia).
      rewrite lookup_app_r, lookup_drop by lia. f_equal. lia.
Qed.

Lemma slice_splice l i x : (i + length x ≤ length l)%nat → slice (splice l i x) i (length x) = x.
Proof.
  intros Hl. apply list_eq. intros k. destruct (decide (k < length x)%nat).
  - rewrite slice_lookup, splice_lookup by lia. rewrite decide_True by lia. f_equal. lia.
  - rewrite !lookup_ge_None_2; [done|lia|]. rewrite slice_length; [lia|].
    rewrite splice_length; lia.
Qed.

Lemma slice_splice_other l i x j n :
  (i + length x ≤ length l)%nat → (j + n ≤ i ∨ i + length x ≤ j)%nat →
  slice (splice l i x) j n = slice l j n.
Proof.
  intros Hl Hj. apply list_eq. intros k. destruct (decide (k < n)%nat).
  - rewrite !slice_lookup, splice_lookup by lia. by rewrite decide_False by lia.
  - unfold slice. rewrite !lookup_take_ge by lia. done.
Qed.

Lemma splice_slice l i n : (i + n ≤ length l)%nat → splice l i (slice l i n) = l.
Proof.
  intros Hl. apply list_eq. intros k. rewrite splice_lookup; rewrite slice_length by lia; [|lia].
  case_decide; [|done]. rewrite slice_lookup by lia. f_equal. lia.
Qed.

Lemma splice_nil l i : splice l i [] = l.
Proof. unfold splice. cbn. rewrite Nat.add_0_r. apply take_drop. Qed.

Lemma splice_app l i x y :
  (i + length x + length y ≤ length l)%nat →
  splice (splice l i x) (i + length x) y = splice l i (x ++ y).
Proof.
  intros Hl. apply list_eq. intros k.
  assert (length (splice l i x) = length l) by (apply splice_length; lia).
  rewrite !splice_lookup; rewrite ?length_app; try lia.
  repeat case_decide; try lia; rewrite ?lookup_app_l, ?lookup_app_r by lia; f_equal; lia.
Qed.

Lemma splice_whole l x : length x = length l → splice l 0 x = x.
Proof.
  intros Hx. unfold splice. rewrite take_0, drop_ge by lia. cbn. apply app_nil_r.
Qed.
End Lists.

Lemma fetch_run l i n :
  0 ≤ i → i + n ≤ Z.of_nat (length l) → fetch l i n = Done (slice l (Z.to_nat i) (Z.to_nat n)).
Proof. intros. unfold fetch. rewrite (proj2 (andb_true_iff _ _)); [done|split; lia]. Qed.

Lemma patch_run l i x :
  0 ≤ i → i + Z.of_nat (length x) ≤ Z.of_nat (length l) →
  patch l i x = Done (splice l (Z.to_nat i) x).
Proof. intros. unfold patch. rewrite (proj2 (andb_true_iff _ _)); [done|split; lia]. Qed.

(** ** Big-endian fields *)

Definition be16 (x : Z) : list Z := [x / 2 ^ 8 mod 2 ^ 8; x mod 2 ^ 8].
Definition be32 (x : Z) : list Z := be16 (x / 2 ^ 16) ++ be16 (x mod 2 ^ 16).
Definition be_value (l : list Z) : Z := foldl (λ v b, v * 2 ^ 8 + b) 0 l.

Lemma be16_value x : 0 ≤ x < 2 ^ 16 → be_value (be16 x) = x.
Proof. intros. unfold be_value, be16. cbn [foldl]. Z.to_euclidean_division_equations. lia. Qed.

Lemma be32_value x : 0 ≤ x < 2 ^ 32 → be_value (be32 x) = x.
Proof.
  intros. unfold be_value, be32, be16. cbn [foldl app].
  Z.to_euclidean_division_equations. lia.
Qed.

Lemma be32_length x : length (be32 x) = 4%nat.
Proof. done. Qed.

(** A table of 32-bit words. *)
Fixpoint be32s (ws : list Z) : list Z :=
  match ws with [] => [] | w :: ws => be32 w ++ be32s ws end.
Fixpoint words_of (n : nat) (l : list Z) : list Z :=
  match n with
  | O => []
  | S n => be_value (take 4 l) :: words_of n (drop 4 l)
  end.

Lemma be32s_length ws : length (be32s ws) = (4 * length ws)%nat.
Proof. induction ws as [|w ws IH]; [done|]. cbn [be32s]. rewrite length_app, IH. cbn. lia. Qed.

Lemma words_of_length n l : length (words_of n l) = n.
Proof. revert l. induction n; intros; cbn; auto. Qed.

Lemma words_of_be32s ws l :
  Forall (λ w, 0 ≤ w < 2 ^ 32) ws → words_of (length ws) (be32s ws ++ l) = ws.
Proof.
  intros Hws. induction Hws as [|w ws Hw _ IH]; [done|].
  cbn [length words_of be32s]. rewrite <- app_assoc.
  rewrite take_app_length', drop_app_length' by done. f_equal; [by apply be32_value|apply IH].
Qed.
