(* ===== verification/Mem.v ===== *)
(** * Copying and clearing memory (lib/libc: memcpy.c, memmove.c, bzero.c)

    Memory is a finite map from the addresses that can be touched to bytes.
    The routines work by words where alignment allows and by bytes
    otherwise; the theorems say that both give the plain copy, also when
    the two areas overlap. *)

From S2P Require Import Prelude.

Abbreviation mem := (gmap Z Z).

Definition SIZEOF_LONG : Z := 4.

(** Read, and overwrite, [w] bytes at [a]; [None] if one of them is not
    there. *)
Fixpoint read_bytes (w : nat) (a : Z) (m : mem) : option (list Z) :=
  match w with
  | O => Some []
  | S w => b ← m !! a; l ← read_bytes w (a + 1) m; Some (b :: l)
  end.

Fixpoint write_bytes (a : Z) (l : list Z) (m : mem) : option mem :=
  match l with
  | [] => Some m
  | b :: l => m !! a ≫= λ _, write_bytes (a + 1) l (<[a := b]> m)
  end.

(** d[i] = s[i] for elements of [w] bytes. *)
Definition copy_elem (w : nat) (dst src i : Z) (m : mem) : outcome mem :=
  match read_bytes w (src + i * Z.of_nat w) m with
  | Some l =>
      match write_bytes (dst + i * Z.of_nat w) l m with Some m => Done m | None => Fault end
  | None => Fault
  end.

(** for (i=0; i<n; i++) d[i] = s[i]; the turns from [i] on, [n] of them. *)
Fixpoint copy_up (n : nat) (i : Z) (w : nat) (dst src : Z) (m : mem) : outcome mem :=
  match n with
  | O => Done m
  | S n => m ← copy_elem w dst src i m; copy_up n (i + 1) w dst src m
  end.

(** for (i=n; i>0; i--) d[i-1] = s[i-1]; *)
Fixpoint copy_down (n : nat) (w : nat) (dst src : Z) (m : mem) : outcome mem :=
  match n with
  | O => Done m
  | S n => m ← copy_elem w dst src (Z.of_nat n) m; copy_down n w dst src m
  end.

Definition memcpy (dst src len : Z) (m : mem) : outcome mem :=
  if (dst mod SIZEOF_LONG =? 0) && (src mod SIZEOF_LONG =? 0) && (len mod SIZEOF_LONG =? 0)
  then copy_up (Z.to_nat (len / SIZEOF_LONG)) 0 4 dst src m
  else copy_up (Z.to_nat len) 0 1 dst src m.

Definition memmove (dst src len : Z) (m : mem) : outcome mem :=
  if dst <? src then memcpy dst src len m
  else if (dst mod SIZEOF_LONG =? 0) && (src mod SIZEOF_LONG =? 0) && (len mod SIZEOF_LONG =? 0)
  then copy_down (Z.to_nat (len / SIZEOF_LONG)) 4 dst src m
  else copy_down (Z.to_nat len) 1 dst src m.

(** for (i=0; i<n; i++) block[i] = 0; for elements of [w] bytes. *)
Fixpoint clear_up (n : nat) (i : Z) (w : nat) (block : Z) (m : mem) : outcome mem :=
  match n with
  | O => Done m
  | S n =>
      match write_bytes (block + i * Z.of_nat w) (replicate w 0) m with
      | Some m => clear_up n (i + 1) w block m
      | None => Fault
      end
  end.

Definition bzero (block len : Z) (m : mem) : outcome mem :=
  if (block mod SIZEOF_LONG =? 0) && (len mod SIZEOF_LONG =? 0)
  then clear_up (Z.to_nat (len / SIZEOF_LONG)) 0 4 block m
  else clear_up (Z.to_nat len) 0 1 block m.

(** ** The plain copy *)

(** Every byte of the area can be touched. *)
Definition mapped (m : mem) (a n : Z) : Prop := ∀ b, a ≤ b < a + n → is_Some (m !! b).

(** The area of [n] bytes at [dst] holds what the area at [src] held
    before; nothing else has changed. *)
Definition copied (m m' : mem) (dst src n : Z) : Prop :=
  ∀ a, m' !! a = if decide (dst ≤ a < dst + n) then m !! (a - dst + src) else m !! a.

Definition cleared (m m' : mem) (block n : Z) : Prop :=
  ∀ a, m' !! a = if decide (block ≤ a < block + n) then Some 0 else m !! a.

Lemma read_bytes_mapped w a m :
  mapped m a (Z.of_nat w) →
  ∃ l, read_bytes w a m = Some l ∧ length l = w ∧ ∀ k, (k < w)%nat → l !! k = m !! (a + Z.of_nat k).
Proof.
  revert a. induction w as [|w IH]; intros a Hm.
  - exists []. split_and!; [done..|lia].
  - destruct (Hm a) as [b Hb]; [lia|]. destruct (IH (a + 1)) as (l & Hl & Hlen & Hk).
    { intros c Hc. apply Hm. lia. }
    exists (b :: l). cbn. rewrite Hb. cbn. rewrite Hl. split_and!; [done|cbn; lia|].
    intros [|k] ?; cbn.
    + by rewrite Z.add_0_r.
    + rewrite Hk by lia. f_equal. lia.
Qed.

Lemma write_bytes_mapped a l m :
  mapped m a (Z.of_nat (length l)) →
  ∃ m', write_bytes a l m = Some m' ∧
    ∀ c, m' !! c = if decide (a ≤ c < a + Z.of_nat (length l)) then l !! Z.to_nat (c - a) else m !! c.
Proof.
  revert a m. induction l as [|b l IH]; intros a m Hm.
  - exists m. split; [done|]. intros c. cbn. by rewrite decide_False by lia.
  - destruct (Hm a) as [b' Hb]; [cbn; lia|]. destruct (IH (a + 1) (<[a := b]> m)) as (m' & Hrun & Hm').
    { intros c Hc. apply lookup_insert_is_Some'. right. apply Hm. cbn. lia. }
    exists m'. cbn. rewrite Hb. split; [done|]. intros c. rewrite Hm'.
    destruct (decide (c = a)) as [->|].
    + rewrite lookup_insert_eq, Z.sub_diag. repeat case_decide; cbn in *; by try lia.
    + rewrite lookup_insert_ne by done. repeat case_decide; try lia; [|done].
      replace (Z.to_nat (c - a)) with (S (Z.to_nat (c - (a + 1)))) by lia. done.
Qed.

(** One element copied. *)
Lemma copy_elem_spec w dst src i m :
  mapped m (src + i * Z.of_nat w) (Z.of_nat w) → mapped m (dst + i * Z.of_nat w) (Z.of_nat w) →
  ∃ m', copy_elem w dst src i m = Done m' ∧
    copied m m' (dst + i * Z.of_nat w) (src + i * Z.of_nat w) (Z.of_nat w).
Proof.
  intros Hs Hd. unfold copy_elem.
  destruct (read_bytes_mapped _ _ _ Hs) as (l & -> & Hlen & Hl).
  destruct (write_bytes_mapped (dst + i * Z.of_nat w) l m) as (m' & -> & Hm'); [by rewrite Hlen|].
  exists m'. split; [done|]. intros a. rewrite Hm', Hlen. case_decide; [|done].
  rewrite Hl by lia. f_equal. lia.
Qed.

Lemma mapped_sub m a n b k : mapped m a n → a ≤ b → b + k ≤ a + n → mapped m b k.
Proof. intros Hm ?? c ?. apply Hm. lia. Qed.

Lemma copied_mapped m m' dst src n a k :
  copied m m' dst src n → mapped m src n → mapped m a k → mapped m' a k.
Proof.
  intros Hc Hs Ha b Hb. rewrite Hc. case_decide; [apply Hs|apply Ha]; lia.
Qed.

(** The loops: an element is read before anything overwrites it. *)
Lemma copy_up_spec n i w dst src m :
  dst ≤ src ∨ src + (i + Z.of_nat n) * Z.of_nat w ≤ dst → 0 ≤ i →
  mapped m (src + i * Z.of_nat w) (Z.of_nat n * Z.of_nat w) →
  mapped m (dst + i * Z.of_nat w) (Z.of_nat n * Z.of_nat w) →
  ∃ m', copy_up n i w dst src m = Done m' ∧
    copied m m' (dst + i * Z.of_nat w) (src + i * Z.of_nat w) (Z.of_nat n * Z.of_nat w).
Proof.
  revert i m. induction n as [|n IH]; intros i m Hdir Hi Hs Hd.
  - exists m. split; [done|]. intros a. by rewrite decide_False by lia.
  - destruct (copy_elem_spec w dst src i m) as (m1 & Hrun1 & Hc1).
    { eapply mapped_sub; [apply Hs|nia..]. }
    { eapply mapped_sub; [apply Hd|nia..]. }
    destruct (IH (i + 1) m1) as (m2 & Hrun2 & Hc2).
    { nia. } { lia. }
    { eapply copied_mapped; [apply Hc1|eapply mapped_sub; [apply Hs|nia..]..]. }
    { eapply copied_mapped; [apply Hc1|eapply mapped_sub; [apply Hs|nia..]|eapply mapped_sub; [apply Hd|nia..]]. }
    exists m2. cbn. rewrite Hrun1. cbn. split; [done|]. intros a. rewrite Hc2, !Hc1.
    repeat case_decide; try nia; f_equal; nia.
Qed.

Lemma copy_down_spec n w dst src m :
  src ≤ dst →
  mapped m src (Z.of_nat n * Z.of_nat w) → mapped m dst (Z.of_nat n * Z.of_nat w) →
  ∃ m', copy_down n w dst src m = Done m' ∧ copied m m' dst src (Z.of_nat n * Z.of_nat w).
Proof.
  revert m. induction n as [|n IH]; intros m Hdir Hs Hd.
  - exists m. split; [done|]. intros a. by rewrite decide_False by lia.
  - destruct (copy_elem_spec w dst src (Z.of_nat n) m) as (m1 & Hrun1 & Hc1).
    { eapply mapped_sub; [apply Hs|nia..]. }
    { eapply mapped_sub; [apply Hd|nia..]. }
    destruct (IH m1) as (m2 & Hrun2 & Hc2); [done|..].
    { eapply copied_mapped; [apply Hc1|eapply mapped_sub; [apply Hs|nia..]..]. }
    { eapply copied_mapped; [apply Hc1|eapply mapped_sub; [apply Hs|nia..]|eapply mapped_sub; [apply Hd|nia..]]. }
    exists m2. cbn [copy_down]. rewrite Hrun1. cbn. split; [done|]. intros a. rewrite Hc2, !Hc1.
    repeat case_decide; try nia; f_equal; nia.
Qed.

Lemma clear_up_spec n i w block m :
  mapped m (block + i * Z.of_nat w) (Z.of_nat n * Z.of_nat w) →
  ∃ m', clear_up n i w block m = Done m' ∧
    cleared m m' (block + i * Z.of_nat w) (Z.of_nat n * Z.of_nat w).
Proof.
  revert i m. induction n as [|n IH]; intros i m Hm.
  - exists m. split; [done|]. intros a. by rewrite decide_False by lia.
  - destruct (write_bytes_mapped (block + i * Z.of_nat w) (replicate w 0) m) as (m1 & Hrun1 & Hm1).
    { rewrite length_replicate. eapply mapped_sub; [apply Hm|nia..]. }
    rewrite length_replicate in Hm1. destruct (IH (i + 1) m1) as (m2 & Hrun2 & Hm2).
    { intros a Ha. rewrite Hm1, decide_False by nia. apply Hm. nia. }
    exists m2. cbn [clear_up]. rewrite Hrun1. split; [done|]. intros a. rewrite Hm2, Hm1.
    repeat case_decide; try nia; try done. apply lookup_replicate. split; [done|]. nia.
Qed.

(** The word loop covers a multiple of the word size exactly. *)
Lemma word_count len : 0 ≤ len → len mod SIZEOF_LONG = 0 → Z.of_nat (Z.to_nat (len / SIZEOF_LONG)) * 4 = len.
Proof. unfold SIZEOF_LONG. intros. rewrite Z2Nat.id by (apply Z.div_pos; lia). Z.to_euclidean_division_equations. lia. Qed.

Lemma memcpy_spec dst src len m :
  0 ≤ len → dst ≤ src ∨ src + len ≤ dst → mapped m src len → mapped m dst len →
  ∃ m', memcpy dst src len m = Done m' ∧ copied m m' dst src len.
Proof.
  intros Hlen Hdir Hs Hd. unfold memcpy. destruct (andb _ _) eqn:E.
  - apply andb_true_iff in E as [_ E%Z.eqb_eq]. pose proof (word_count len Hlen E) as Hw.
    destruct (copy_up_spec (Z.to_nat (len / SIZEOF_LONG)) 0 4 dst src m) as (m' & ? & Hc);
      change (Z.of_nat 4) with 4 in *; rewrite ?Z.mul_0_l, ?Z.add_0_r, ?Hw in *; try done; [lia..|].
    by exists m'.
  - destruct (copy_up_spec (Z.to_nat len) 0 1 dst src m) as (m' & ? & Hc);
      change (Z.of_nat 1) with 1 in *; rewrite ?Z.mul_0_l, ?Z.add_0_r, ?Z.mul_1_r, ?Z2Nat.id in * by lia; try done; [lia..|].
    by exists m'.
Qed.

Lemma memmove_spec dst src len m :
  0 ≤ len → mapped m src len → mapped m dst len →
  ∃ m', memmove dst src len m = Done m' ∧ copied m m' dst src len.
Proof.
  intros Hlen Hs Hd. unfold memmove. destruct (Z.ltb_spec dst src).
  { apply memcpy_spec; auto; lia. }
  destruct (andb _ _) eqn:E.
  - apply andb_true_iff in E as [_ E%Z.eqb_eq]. pose proof (word_count len Hlen E) as Hw.
    destruct (copy_down_spec (Z.to_nat (len / SIZEOF_LONG)) 4 dst src m) as (m' & ? & Hc);
      change (Z.of_nat 4) with 4 in *; rewrite ?Hw in *; try done. by exists m'.
  - destruct (copy_down_spec (Z.to_nat len) 1 dst src m) as (m' & ? & Hc);
      change (Z.of_nat 1) with 1 in *; rewrite ?Z.mul_1_r, ?Z2Nat.id in * by lia; try done. by exists m'.
Qed.

(** C32: memmove copies an area of any length to any other place, overlapping
    or not and whatever the alignment: afterwards the destination holds
    exactly what the source held before the call, and no other byte has
    changed.  The word-at-a-time and byte-at-a-time loops, forwards and
    backwards, all refine this copy. *)
Theorem memmove_copies dst src len m :
  0 ≤ len → mapped m src len → mapped m dst len →
  ∃ m', memmove dst src len m = Done m' ∧ copied m m' dst src len.
Proof. apply memmove_spec. Qed.

(** bzero clears exactly the bytes of the area, by words or by bytes. *)
Lemma bzero_clears block len m :
  0 ≤ len → mapped m block len →
  ∃ m', bzero block len m = Done m' ∧ cleared m m' block len.
Proof.
  intros Hlen Hm. unfold bzero. destruct (andb _ _) eqn:E.
  - apply andb_true_iff in E as [_ E%Z.eqb_eq]. pose proof (word_count len Hlen E) as Hw.
    destruct (clear_up_spec (Z.to_nat (len / SIZEOF_LONG)) 0 4 block m) as (m' & ? & Hc);
      change (Z.of_nat 4) with 4 in *; rewrite ?Z.mul_0_l, ?Z.add_0_r, ?Hw in *; try done. by exists m'.
  - destruct (clear_up_spec (Z.to_nat len) 0 1 block m) as (m' & ? & Hc);
      change (Z.of_nat 1) with 1 in *; rewrite ?Z.mul_0_l, ?Z.add_0_r, ?Z.mul_1_r, ?Z2Nat.id in * by lia; try done. by exists m'.
Qed.

(** ** An instance: eight bytes moved up by four, then by one *)

Definition demo_mem : mem :=
  list_to_map (imap (λ k b, (0x1000 + Z.of_nat k, b)) [1; 2; 3; 4; 5; 6; 7; 8; 9; 10; 11; 12]).

Lemma demo_mapped a n : 0x1000 ≤ a → a + n ≤ 0x100c → mapped demo_mem a n.
Proof.
  intros ?? b Hb.
  assert (Hall : Forall (λ c, is_Some (demo_mem !! c)) (seqZ 0x1000 12)).
  { cbn. repeat (constructor; [vm_compute; eauto|]). constructor. }
  rewrite list.Forall_forall in Hall. apply Hall, elem_of_seqZ. lia.
Qed.

Lemma memmove_copies_witness :
  (∃ m', memmove 0x1004 0x1000 8 demo_mem = Done m' ∧ copied demo_mem m' 0x1004 0x1000 8) ∧
  (∃ m', memmove 0x1001 0x1000 8 demo_mem = Done m' ∧ copied demo_mem m' 0x1001 0x1000 8).
Proof. split; apply memmove_copies; try lia; apply demo_mapped; lia. Defined.
