(* ===== verification/CString.v ===== *)
(** * C strings (lib/libc: strlen.c, strcpy.c, strcat.c, strcmp.c, strchr.c,
    strrchr.c, strtok_r.c, atoi.c)

    A pointer into an object is the list of the object's bytes from there to
    its end; reading past the end is undefined.  Pointers that a routine
    returns are offsets from the pointer it was given, NULL is [None].
    [cstr s x] says that a string at [s] has the characters [x]. *)

From S2P Require Import Prelude Bytes.

(** The value of a [char], which is signed on the MIPS. *)
Definition schar (b : Z) : Z := (b + 128) mod 256 - 128.

Fixpoint strlen (s : list Z) : outcome Z :=
  match s with
  | [] => Fault
  | c :: s => if c =? 0 then Done 0 else n ← strlen s; Done (n + 1)
  end.

Fixpoint strcpy (dest src : list Z) : outcome (list Z) :=
  match src, dest with
  | c :: src, _ :: dest =>
      if c =? 0 then Done (0 :: dest) else r ← strcpy dest src; Done (c :: r)
  | _, _ => Fault
  end.

Definition strcat (dest src : list Z) : outcome (list Z) :=
  offset ← strlen dest;
  r ← strcpy (drop (Z.to_nat offset) dest) src;
  Done (take (Z.to_nat offset) dest ++ r).

Fixpoint strcmp (a b : list Z) : outcome Z :=
  match a, b with
  | x :: a, y :: b =>
      if negb (x =? 0) && (x =? y) then strcmp a b
      else if schar x >? schar y then Done 1
      else if x =? y then Done 0
      else Done (-1)
  | _, _ => Fault
  end.

Fixpoint strchr_from (s : list Z) (i ch : Z) : outcome (option Z) :=
  match s with
  | [] => Fault
  | c :: s =>
      if c =? 0 then (if schar c =? ch then Done (Some i) else Done None)
      else if schar c =? ch then Done (Some i)
      else strchr_from s (i + 1) ch
  end.
Definition strchr (s : list Z) (ch : Z) : outcome (option Z) := strchr_from s 0 ch.

(** while (i>0) { i--; if (s[i]==ch) return s+i; } *)
Fixpoint strrchr_from (i : nat) (s : list Z) (ch : Z) : outcome (option Z) :=
  match i with
  | O => Done None
  | S i =>
      match s !! i with
      | Some c => if schar c =? ch then Done (Some (Z.of_nat i)) else strrchr_from i s ch
      | None => Fault
      end
  end.
Definition strrchr (s : list Z) (ch : Z) : outcome (option Z) :=
  n ← strlen s;
  strrchr_from (Z.to_nat (n + 1)) s ch.

(** strtok_r: [buf] is the whole string being cut, [context] the saved
    position in it.  [skip seps want] moves past characters that are
    separators ([want] true) or are not. *)
Fixpoint skip_chars (seps : list Z) (want : bool) (s : list Z) (i : Z) : outcome Z :=
  match s with
  | [] => Fault
  | c :: s =>
      if c =? 0 then Done i
      else
        r ← strchr seps (schar c);
        if Bool.eqb (bool_decide (is_Some r)) want then skip_chars seps want s (i + 1)
        else Done i
  end.

Definition byte_at (s : list Z) (i : Z) : outcome Z :=
  match s !! Z.to_nat i with Some c => Done c | None => Fault end.

(** [start] is true on the first call, when the caller passes the string.
    The result is the token's position, the new context and the string. *)
Definition strtok_r (start : bool) (seps : list Z) (context : option Z) (buf : list Z)
  : outcome (option Z * option Z * list Z) :=
  let context := if start then Some 0 else context in
  match context with
  | None => Done (None, None, buf)
  | Some head =>
      head ← skip_chars seps true (drop (Z.to_nat head) buf) head;
      c ← byte_at buf head;
      if c =? 0 then Done (None, None, buf)
      else
        tail ← skip_chars seps false (drop (Z.to_nat head) buf) head;
        c ← byte_at buf tail;
        if c =? 0 then Done (Some head, None, buf)
        else
          buf ← patch buf tail [0];
          Done (Some head, Some (tail + 1), buf)
  end.

(** atoi *)
Definition digits : list Z := [48; 49; 50; 51; 52; 53; 54; 55; 56; 57; 0].

Fixpoint skip_blanks (s : list Z) : outcome (list Z) :=
  match s with
  | [] => Fault
  | c :: s' => if (c =? 32) || (c =? 9) then skip_blanks s' else Done s
  end.

Fixpoint atoi_digits (s : list Z) (val : Z) : outcome Z :=
  match s with
  | [] => Fault
  | c :: s =>
      if c =? 0 then Done val
      else
        found ← strchr digits (schar c);
        match found with
        | None => Done val
        | Some digit => atoi_digits s (u32 (u32 (val * 10) + digit))
        end
  end.

Definition atoi (s : list Z) : outcome Z :=
  s ← skip_blanks s;
  match s with
  | [] => Fault
  | c :: s' =>
      let neg := c =? 45 in
      val ← atoi_digits (if neg then s' else if c =? 43 then s' else s) 0;
      Done (if neg then s32 (- val) else s32 val)
  end.

(** ** What the routines compute *)

(** The characters of the string at [s]. *)
Definition cstr (s x : list Z) : Prop := ∃ rest, s = x ++ 0 :: rest ∧ 0 ∉ x.

(** Characters as they are stored: bytes. *)
Definition chars (x : list Z) : Prop := Forall (λ c, 0 < c < 256) x.

Lemma chars_nonzero x : chars x → 0 ∉ x.
Proof. intros Hx Hin. unfold chars in Hx. rewrite list.Forall_forall in Hx. specialize (Hx _ Hin). lia. Qed.

Lemma cstr_of x : chars x → cstr (x ++ [0]) x.
Proof. intros. exists []. split; [done|]. by apply chars_nonzero. Qed.

Lemma cstr_cons_inv c x s : cstr s (c :: x) → ∃ s', s = c :: s' ∧ c ≠ 0 ∧ cstr s' x.
Proof. intros (rest & -> & Hx). exists (x ++ 0 :: rest). split_and!; [done|set_solver|]. exists rest. set_solver. Qed.

Lemma cstr_nil_inv s : cstr s [] → ∃ s', s = 0 :: s'.
Proof. intros (rest & -> & _). by exists rest. Qed.

Lemma cstr_fun s x y : cstr s x → cstr s y → x = y.
Proof.
  revert s y. induction x as [|c x IH]; intros s y Hx Hy.
  - apply cstr_nil_inv in Hx as [s' ->]. destruct y as [|d y]; [done|].
    apply cstr_cons_inv in Hy as (? & [= <- <-] & ? & _). done.
  - apply cstr_cons_inv in Hx as (s' & -> & ? & Hx). destruct y as [|d y].
    + apply cstr_nil_inv in Hy as [? [= -> _]]. done.
    + apply cstr_cons_inv in Hy as (? & [= <- <-] & _ & Hy). f_equal. eauto.
Qed.

Lemma schar_inj x y : 0 ≤ x < 256 → 0 ≤ y < 256 → schar x = schar y → x = y.
Proof. unfold schar. intros. Z.to_euclidean_division_equations. lia. Qed.

Lemma schar_small x : 0 ≤ x < 128 → schar x = x.
Proof. unfold schar. intros. Z.to_euclidean_division_equations. lia. Qed.

Lemma strlen_spec s x : cstr s x → strlen s = Done (Z.of_nat (length x)).
Proof.
  revert s. induction x as [|c x IH]; intros s Hx.
  - apply cstr_nil_inv in Hx as [s' ->]. done.
  - apply cstr_cons_inv in Hx as (s' & -> & Hc & Hx). cbn [strlen].
    rewrite (proj2 (Z.eqb_neq _ _)) by done. rewrite (IH _ Hx). cbn. f_equal. lia.
Qed.

Lemma strcpy_spec dest src x :
  cstr src x → (length x < length dest)%nat →
  strcpy dest src = Done (splice dest 0 (x ++ [0])).
Proof.
  revert dest src. induction x as [|c x IH]; intros dest src Hx Hlen.
  - apply cstr_nil_inv in Hx as [s' ->]. destruct dest as [|d dest]; [cbn in *; lia|]. done.
  - apply cstr_cons_inv in Hx as (s' & -> & Hc & Hx). destruct dest as [|d dest]; [cbn in *; lia|].
    cbn [strcpy]. rewrite (proj2 (Z.eqb_neq _ _)) by done.
    rewrite (IH dest s' Hx) by (cbn in *; lia). done.
Qed.

(** Lexicographic comparison of strings by the values of their characters. *)
Fixpoint lex (x y : list Z) : Z :=
  match x, y with
  | [], [] => 0
  | [], c :: _ => if 0 >? schar c then 1 else -1
  | c :: _, [] => if schar c >? 0 then 1 else -1
  | c :: x, d :: y => if c =? d then lex x y else if schar c >? schar d then 1 else -1
  end.

Lemma strcmp_spec a b x y : cstr a x → cstr b y → strcmp a b = Done (lex x y).
Proof.
  revert a b y. induction x as [|c x IH]; intros a b y Ha Hb.
  - apply cstr_nil_inv in Ha as [a' ->]. destruct y as [|d y].
    + apply cstr_nil_inv in Hb as [b' ->]. done.
    + apply cstr_cons_inv in Hb as (b' & -> & Hd & Hb). cbn [strcmp lex].
      change (negb (0 =? 0)) with false. cbn [andb].
      change (schar 0) with 0. destruct (0 >? schar d); [done|]. destruct (Z.eqb_spec 0 d); [lia|done].
  - apply cstr_cons_inv in Ha as (a' & -> & Hc & Ha). destruct y as [|d y].
    + apply cstr_nil_inv in Hb as [b' ->]. cbn [strcmp lex].
      rewrite (proj2 (Z.eqb_neq c 0)) by done. cbn [negb andb].
      change (schar 0) with 0. by destruct (schar c >? 0).
    + apply cstr_cons_inv in Hb as (b' & -> & Hd & Hb). cbn [strcmp lex].
      rewrite (proj2 (Z.eqb_neq c 0)) by done. cbn [negb andb]. destruct (c =? d); [eauto|].
      by destruct (schar c >? schar d).
Qed.

Lemma lex_0 x y : lex x y = 0 ↔ x = y.
Proof.
  revert y. induction x as [|c x IH]; intros [|d y]; cbn.
  - done.
  - destruct (Z.gtb _ _); done.
  - destruct (Z.gtb _ _); done.
  - destruct (Z.eqb_spec c d) as [->|]; [rewrite IH; naive_solver|].
    destruct (Z.gtb _ _); naive_solver.
Qed.

Lemma strchr_from_found s i ch x y :
  cstr s (x ++ ch :: y) → chars (x ++ ch :: y) → 0 < ch < 128 → ch ∉ x →
  strchr_from s i ch = Done (Some (i + Z.of_nat (length x))).
Proof.
  revert s i. induction x as [|c x IH]; intros s i Hs Hc Hch Hx; cbn [app] in *;
    apply cstr_cons_inv in Hs as (s' & -> & Hnz & Hs); apply Forall_cons_1 in Hc as [Hcr Hc]; cbn [strchr_from];
    rewrite (proj2 (Z.eqb_neq _ _)) by done.
  - rewrite schar_small, Z.eqb_refl by lia. by rewrite Z.add_0_r.
  - rewrite (proj2 (Z.eqb_neq _ _)); [rewrite (IH s') by set_solver; do 2 f_equal; cbn [length]; lia|].
    rewrite <- (schar_small ch) by lia. intros E. apply schar_inj in E; [set_solver|lia..].
Qed.

Lemma strchr_found s ch x y :
  cstr s (x ++ ch :: y) → chars (x ++ ch :: y) → 0 < ch < 128 → ch ∉ x →
  strchr s ch = Done (Some (Z.of_nat (length x))).
Proof. intros. unfold strchr. by erewrite strchr_from_found. Qed.

Lemma strchr_from_absent s i ch x :
  cstr s x → chars x → 0 < ch < 128 → ch ∉ x → strchr_from s i ch = Done None.
Proof.
  revert s i. induction x as [|c x IH]; intros s i Hs Hc Hch Hx.
  - apply cstr_nil_inv in Hs as [s' ->]. cbn. change (schar 0) with 0. by rewrite (proj2 (Z.eqb_neq 0 ch)) by lia.
  - apply cstr_cons_inv in Hs as (s' & -> & Hnz & Hs). apply Forall_cons_1 in Hc as [Hcr Hc]. cbn [strchr_from].
    rewrite (proj2 (Z.eqb_neq c 0)) by done. rewrite (proj2 (Z.eqb_neq _ _)); [apply IH; set_solver|].
    rewrite <- (schar_small ch) by lia. intros E. apply schar_inj in E; [set_solver|lia..].
Qed.

Lemma strchr_absent s ch x : cstr s x → chars x → 0 < ch < 128 → ch ∉ x → strchr s ch = Done None.
Proof. apply strchr_from_absent. Qed.
