(* ===== verification/Printf.v ===== *)
(** * Formatted output (lib/libc: __printf.c, snprintf.c)

    The state of a printf session is the record [PF]; the callback that
    takes the text is a function on a client state [C].  Arguments are
    words or string pointers.  [vsnprintf] is the instance whose client is
    a bounded buffer. *)

From S2P Require Import Prelude Bytes CString.

(** An argument of the variable argument list: an integer or pointer word,
    or a pointer to a string (NULL is [None]). *)
Inductive varg := VWord (n : Z) | VStr (s : option (list Z)).

Inductive intsize := INTSZ | LONGSZ.

(** USE_LONGLONG is undefined: the longest integers are 32-bit longs. *)
Definition NUMBER_BUF_SIZE : Z := 4 * 8 / 3 + 2.

Definition ch_hash : Z := 35.
Definition ch_pct : Z := 37.
Definition ch_minus : Z := 45.
Definition ch_0 : Z := 48.
Definition ch_9 : Z := 57.
Definition ch_c : Z := 99.
Definition ch_d : Z := 100.
Definition ch_l : Z := 108.
Definition ch_o : Z := 111.
Definition ch_p : Z := 112.
Definition ch_q : Z := 113.
Definition ch_s : Z := 115.
Definition ch_u : Z := 117.
Definition ch_x : Z := 120.
Definition ch_space : Z := 32.

Record PF (C : Type) := Pf {
  clientdata : C;
  ap : list varg;
  charcount : Z;
  in_pct : bool;
  size : intsize;
  num : Z;
  sign : Z;
  spacing : Z;
  rightspc : bool;
  fillchar : Z;
  base : Z;
  baseprefix : bool;
  altformat : bool;
}.
Arguments Pf {C} _ _ _ _ _ _ _ _ _ _ _ _ _.
Arguments clientdata {C} _.
Arguments ap {C} _.
Arguments charcount {C} _.
Arguments in_pct {C} _.
Arguments size {C} _.
Arguments num {C} _.
Arguments sign {C} _.
Arguments spacing {C} _.
Arguments rightspc {C} _.
Arguments fillchar {C} _.
Arguments base {C} _.
Arguments baseprefix {C} _.
Arguments altformat {C} _.

Section Printf.
Context {C : Type} (sendfunc : C → list Z → outcome C).
Implicit Types pf : PF C.

(** __pf_print *)
Definition pf_print pf (txt : list Z) : outcome (PF C) :=
  c ← sendfunc (clientdata pf) txt;
  Done (Pf c (ap pf) (s32 (charcount pf + Z.of_nat (length txt))) (in_pct pf) (size pf) (num pf)
           (sign pf) (spacing pf) (rightspc pf) (fillchar pf) (base pf) (baseprefix pf)
           (altformat pf)).

(** __pf_endfield *)
Definition pf_endfield pf : PF C :=
  Pf (clientdata pf) (ap pf) (charcount pf) false INTSZ 0 0 0 false ch_space 0 false false.

Definition set_spacing (x : Z) pf : PF C :=
  Pf (clientdata pf) (ap pf) (charcount pf) (in_pct pf) (size pf) (num pf) (sign pf) x
     (rightspc pf) (fillchar pf) (base pf) (baseprefix pf) (altformat pf).

(** __pf_modifier; a field width that does not fit an int overflows. *)
Definition pf_modifier pf (ch : Z) : outcome (PF C) :=
  let widen x := if x <? 2 ^ 31 then Done (set_spacing x pf) else Fault in
  if ch =? ch_hash then
    Done (Pf (clientdata pf) (ap pf) (charcount pf) (in_pct pf) (size pf) (num pf) (sign pf)
             (spacing pf) (rightspc pf) (fillchar pf) (base pf) (baseprefix pf) true)
  else if ch =? ch_minus then
    Done (Pf (clientdata pf) (ap pf) (charcount pf) (in_pct pf) (size pf) (num pf) (sign pf)
             (spacing pf) true (fillchar pf) (base pf) (baseprefix pf) (altformat pf))
  else if (ch =? ch_l) || (ch =? ch_q) then
    Done (Pf (clientdata pf) (ap pf) (charcount pf) (in_pct pf) LONGSZ (num pf) (sign pf)
             (spacing pf) (rightspc pf) (fillchar pf) (base pf) (baseprefix pf) (altformat pf))
  else if ch =? ch_0 then
    if spacing pf >? 0 then widen (spacing pf * 10)
    else
      Done (Pf (clientdata pf) (ap pf) (charcount pf) (in_pct pf) (size pf) (num pf) (sign pf)
               (spacing pf) (rightspc pf) ch_0 (base pf) (baseprefix pf) (altformat pf))
  else
    kassert ((ch >? ch_0) && (ch <=? ch_9));;
    widen (spacing pf * 10 + (ch - ch_0)).

(** va_arg for an integer or a pointer taken as a word, and for a string. *)
Definition va_word pf : outcome (Z * list varg) :=
  match ap pf with VWord n :: l => Done (n, l) | _ => Fault end.
Definition va_str pf : outcome (option (list Z) * list varg) :=
  match ap pf with VStr s :: l => Done (s, l) | _ => Fault end.

Definition set_num (l : list varg) (n s : Z) pf : PF C :=
  Pf (clientdata pf) l (charcount pf) (in_pct pf) (size pf) n s (spacing pf)
     (rightspc pf) (fillchar pf) (base pf) (baseprefix pf) (altformat pf).

(** __pf_getnum: int and long have the same size.  The negation of a
    negative number is taken in the signed type, where it overflows for the
    smallest number. *)
Definition pf_getnum pf (ch : Z) : outcome (PF C) :=
  '(n, l) ← va_word pf;
  if ch =? ch_p then Done (set_num l (u32 n) (sign pf) pf)
  else if ch =? ch_d then
    let signednum := s32 n in
    if signednum <? 0 then
      if signednum =? - 2 ^ 31 then Fault else Done (set_num l (u32 (- signednum)) (-1) pf)
    else Done (set_num l (u32 signednum) (sign pf) pf)
  else Done (set_num l (u32 n) (sign pf) pf).

(** __pf_setbase *)
Definition pf_setbase pf (ch : Z) : PF C :=
  Pf (clientdata pf) (ap pf) (charcount pf) (in_pct pf) (size pf) (num pf) (sign pf)
     (spacing pf) (rightspc pf) (fillchar pf)
     (if (ch =? ch_d) || (ch =? ch_u) then 10
      else if (ch =? ch_x) || (ch =? ch_p) then 16
      else if ch =? ch_o then 8
      else base pf)
     (if altformat pf || (ch =? ch_p) then true else baseprefix pf) (altformat pf).

(** __pf_fill: the turns of the loop that are left. *)
Fixpoint pf_fill_turns (n : nat) pf (f : Z) : outcome (PF C) :=
  match n with
  | O => Done pf
  | S n => pf ← pf_print pf [f]; pf_fill_turns n pf f
  end.
Definition pf_fill pf (spc : Z) : outcome (PF C) :=
  pf_fill_turns (Z.to_nat spc) pf (u8 (fillchar pf)).

(** __pf_print of the string at [s], all of it. *)
Definition pf_puts pf (s : list Z) : outcome (PF C) :=
  n ← strlen s;
  txt ← fetch s 0 n;
  pf_print pf txt.

(** __pf_printstuff *)
Definition pf_printstuff pf (prefix prefix2 stuff : list Z) : outcome (PF C) :=
  l1 ← strlen prefix;
  l2 ← strlen prefix2;
  l3 ← strlen stuff;
  let len := s32 (l1 + l2 + l3) in
  let spc := if spacing pf >? len then spacing pf - len else 0 in
  pf ← (if (spc >? 0) && negb (rightspc pf) && negb (fillchar pf =? ch_0)
        then pf_fill pf spc else Done pf);
  pf ← pf_puts pf prefix;
  pf ← pf_puts pf prefix2;
  pf ← (if (spc >? 0) && negb (rightspc pf) && (fillchar pf =? ch_0)
        then pf_fill pf spc else Done pf);
  pf ← pf_puts pf stuff;
  if (spc >? 0) && rightspc pf then pf_fill pf spc else Done pf.

Definition hexdigits : list Z :=
  [48; 49; 50; 51; 52; 53; 54; 55; 56; 57; 97; 98; 99; 100; 101; 102; 0].

(** do { *x = digits[xnum % base]; x--; xnum /= base; } while (xnum > 0);
    returns the buffer and the final [x]. *)
Fixpoint convert (fuel : nat) (b xnum x : Z) (buf : list Z) : outcome (list Z * Z) :=
  match fuel with
  | O => Diverge
  | S fuel =>
      d ← byte_at hexdigits (xnum mod b);
      buf ← patch buf x [d];
      let xnum := xnum / b in
      if xnum >? 0 then convert fuel b xnum (x - 1) buf else Done (buf, x - 1)
  end.

(** __pf_printnum: [convert] takes one turn for each digit, at most 32. *)
Definition pf_printnum pf : outcome (PF C) :=
  let buf := replicate (Z.to_nat NUMBER_BUF_SIZE) 0 in
  let x := NUMBER_BUF_SIZE - 1 in
  buf ← patch buf x [0];
  '(buf, x) ← convert 33 (base pf) (num pf) (x - 1) buf;
  let x := x + 1 in
  let bprefix :=
    if baseprefix pf && (base pf =? 16) then [ch_0; ch_x; 0]
    else if baseprefix pf && (base pf =? 8) then [ch_0; 0]
    else [0] in
  let sprefix := if sign pf =? 0 then [0] else [ch_minus; 0] in
  pf_printstuff pf sprefix bprefix (drop (Z.to_nat x) buf).

Definition modifier_chars : list Z :=
  [ch_hash; ch_minus; ch_q; ch_l; 48; 49; 50; 51; 52; 53; 54; 55; 56; 57; 0].
Definition integer_chars : list Z := [ch_d; ch_o; ch_u; ch_p; ch_x; 0].
(** The text printed for a NULL string. *)
Definition null_text : list Z := [40; 110; 117; 108; 108; 41; 0].

Definition set_in_pct (x : bool) pf : PF C :=
  Pf (clientdata pf) (ap pf) (charcount pf) x (size pf) (num pf) (sign pf) (spacing pf)
     (rightspc pf) (fillchar pf) (base pf) (baseprefix pf) (altformat pf).

(** __pf_send; [ch] is the value of the format character. *)
Definition pf_send pf (ch : Z) : outcome (PF C) :=
  kassert (negb (ch =? 0));;
  if negb (in_pct pf) && negb (ch =? ch_pct) then pf_print pf [u8 ch]
  else if negb (in_pct pf) then Done (set_in_pct true pf)
  else
    is_mod ← strchr modifier_chars ch;
    is_int ← strchr integer_chars ch;
    match is_mod, is_int with
    | Some _, _ => pf_modifier pf ch
    | None, Some _ =>
        pf ← pf_getnum pf ch;
        pf ← pf_printnum (pf_setbase pf ch);
        Done (pf_endfield pf)
    | None, None =>
        if ch =? ch_s then
          '(str, l) ← va_str pf;
          pf ← pf_printstuff (set_num l (num pf) (sign pf) pf) [0] [0] (default null_text str);
          Done (pf_endfield pf)
        else
          '(x0, l) ← (if ch =? ch_c then va_word pf else Done (ch, ap pf));
          pf ← pf_printstuff (set_num l (num pf) (sign pf) pf) [0] [0] [u8 x0; 0];
          Done (pf_endfield pf)
    end.

(** The loop of __vprintf over the format string. *)
Fixpoint pf_format pf (format : list Z) : outcome (PF C) :=
  match format with
  | [] => Fault
  | c :: format => if c =? 0 then Done pf else pf ← pf_send pf (schar c); pf_format pf format
  end.

(** __vprintf *)
Definition vprintf (c : C) (format : list Z) (args : list varg) : outcome (Z * C) :=
  pf ← pf_format (pf_endfield (Pf c args 0 false INTSZ 0 0 0 false ch_space 0 false false)) format;
  Done (charcount pf, clientdata pf).
End Printf.

(** ** snprintf *)

Record SNP := Snp { snp_buf : list Z; snp_buflen : Z; snp_bufpos : Z }.

(** __snprintf_send *)
Fixpoint snprintf_send (s : SNP) (data : list Z) : outcome SNP :=
  match data with
  | [] => Done s
  | d :: data =>
      if snp_bufpos s <? snp_buflen s then
        buf ← patch (snp_buf s) (snp_bufpos s) [d];
        snprintf_send (Snp buf (snp_buflen s) (snp_bufpos s + 1)) data
      else snprintf_send s data
  end.

Definition vsnprintf (buf : list Z) (len : Z) (fmt : list Z) (args : list varg)
  : outcome (Z * list Z) :=
  let snp := Snp buf (if len =? 0 then 0 else len - 1) 0 in
  '(chars, snp) ← vprintf snprintf_send snp fmt args;
  if len >? 0 then
    buf ← patch (snp_buf snp) (snp_bufpos snp) [0];
    Done (chars, buf)
  else Done (chars, snp_buf snp).

Definition snprintf := vsnprintf.

(** ** Numerals *)

(** [x] is the numeral of [n] in base [b]: the digit characters, most
    significant first, without leading zeros. *)
Fixpoint numeral_value (b : Z) (ds : list Z) : Z :=
  match ds with [] => 0 | d :: ds => d * b ^ Z.of_nat (length ds) + numeral_value b ds end.

Definition numeral (b n : Z) (x : list Z) : Prop :=
  ∃ ds, x = (λ d, hexdigits !!! Z.to_nat d) <$> ds ∧ ds ≠ [] ∧
        Forall (λ d, 0 ≤ d < b) ds ∧ numeral_value b ds = n ∧ (n ≠ 0 → head ds ≠ Some 0).

Lemma numeral_value_app b ds d :
  numeral_value b (ds ++ [d]) = numeral_value b ds * b + d.
Proof.
  induction ds as [|e ds IH]; cbn [numeral_value app]; [cbn; lia|].
  rewrite IH, length_app. cbn [length]. rewrite Nat.add_1_r, Nat2Z.inj_succ, Z.pow_succ_r by lia. lia.
Qed.

Lemma numeral_digit b n : 0 ≤ n < b → numeral b n [hexdigits !!! Z.to_nat n].
Proof.
  intros Hn. exists [n]. split_and!; [done|done| |cbn; lia|].
  - by constructor.
  - cbn. congruence.
Qed.

Lemma numeral_snoc b n x :
  0 < b → 0 < n / b → numeral b (n / b) x → numeral b n (x ++ [hexdigits !!! Z.to_nat (n mod b)]).
Proof.
  intros Hb Hn (ds & -> & Hne & Hds & Hval & Hhd). exists (ds ++ [n mod b]). split_and!.
  - by rewrite fmap_app.
  - by destruct ds.
  - apply Forall_app. split; [done|]. constructor; [|done]. apply Z.mod_pos_bound. lia.
  - rewrite numeral_value_app, Hval. pose proof (Z.div_mod n b). lia.
  - intros _. destruct ds as [|d ds]; [done|]. cbn. apply Hhd. lia.
Qed.

Lemma byte_at_digit d : 0 ≤ d < 16 → byte_at hexdigits d = Done (hexdigits !!! Z.to_nat d).
Proof.
  intros Hd. unfold byte_at.
  destruct (hexdigits !! Z.to_nat d) eqn:E; [by erewrite list_lookup_total_correct|].
  apply lookup_ge_None in E. cbn in E. lia.
Qed.

(** The conversion loop writes the numeral right-aligned before position
    [x + 1]; [k] digits are enough. *)
Lemma convert_spec b k fuel n x buf :
  2 ≤ b ≤ 16 → 0 ≤ n < b ^ Z.of_nat k → (0 < k ≤ fuel)%nat →
  Z.of_nat k ≤ x + 1 → x + 1 ≤ Z.of_nat (length buf) →
  ∃ t, numeral b n t ∧ (length t ≤ k)%nat ∧
    convert fuel b n x buf =
      Done (splice buf (Z.to_nat (x + 1) - length t) t, x - Z.of_nat (length t)).
Proof.
  intros Hb. revert fuel n x buf. induction k as [|k IH]; intros fuel n x buf Hn Hk Hx Hbuf; [lia|].
  destruct fuel as [|fuel]; [lia|]. cbn [convert].
  pose proof (Z.mod_pos_bound n b) as Hmod. rewrite byte_at_digit by lia. cbn [mbind outcome_bind].
  rewrite patch_run by (cbn; lia). cbn [mbind outcome_bind].
  set (d := hexdigits !!! Z.to_nat (n mod b)). destruct (Z.gtb_spec (n / b) 0) as [Hq|Hq].
  - assert (Hlt : n / b < b ^ Z.of_nat k).
    { apply Z.div_lt_upper_bound; [lia|]. rewrite Nat2Z.inj_succ, Z.pow_succ_r in Hn; lia. }
    assert (0 < k)%nat. { destruct k; [cbn in Hlt; lia|lia]. }
    destruct (IH fuel (n / b) (x - 1) (splice buf (Z.to_nat x) [d])) as (t & Ht & Hlen & Hrun);
      [lia|lia|lia|rewrite splice_length by (cbn; lia); lia|].
    exists (t ++ [d]). split_and!; [apply numeral_snoc; [lia|lia|done]|rewrite length_app; cbn; lia|].
    rewrite Hrun, length_app. cbn [length]. f_equal. f_equal; [|lia].
    replace (Z.to_nat (x - 1 + 1) - length t)%nat with (Z.to_nat x - length t)%nat by lia.
    replace (Z.to_nat (x + 1) - (length t + 1))%nat with (Z.to_nat x - length t)%nat by lia.
    apply list_eq. intros i. rewrite !splice_lookup; rewrite ?splice_length, ?length_app; cbn; try lia.
    repeat case_decide; try lia; rewrite ?lookup_app_l, ?lookup_app_r by lia; try done; f_equal; lia.
  - assert (n / b = 0) by (pose proof (Z.div_pos n b); lia).
    assert (Hnd : n mod b = n). { apply Z.mod_small. apply Z.div_small_iff in H; lia. }
    exists [d]. split_and!; [|cbn; lia|].
    + unfold d. rewrite Hnd. apply numeral_digit. lia.
    + cbn [length]. do 3 f_equal. lia.
Qed.

(** ** The text of a field

    [collect] is the client that keeps everything it is sent. *)

Definition collect (out : list Z) (txt : list Z) : outcome (list Z) := Done (out ++ txt).

(** The session after [txt] has been sent. *)
Definition emit (pf : PF (list Z)) (txt : list Z) : PF (list Z) :=
  Pf (clientdata pf ++ txt) (ap pf) (s32 (charcount pf + Z.of_nat (length txt))) (in_pct pf)
     (size pf) (num pf) (sign pf) (spacing pf) (rightspc pf) (fillchar pf) (base pf)
     (baseprefix pf) (altformat pf).

(** A text with its prefix, padded to the field width: blanks go before the
    prefix, zeros between prefix and text, and with [-] the padding goes to
    the right. *)
Definition padded (width : Z) (right : bool) (fill : Z) (prefix txt : list Z) : list Z :=
  let pad := replicate (Z.to_nat (width - Z.of_nat (length (prefix ++ txt)))) (u8 fill) in
  if right then prefix ++ txt ++ pad
  else if fill =? ch_0 then prefix ++ pad ++ txt
  else pad ++ prefix ++ txt.

Lemma padded_narrow w right fill p t :
  w ≤ Z.of_nat (length (p ++ t)) → padded w right fill p t = p ++ t.
Proof.
  intros. unfold padded. rewrite Z2Nat.nonpos by lia. cbn. rewrite app_nil_r.
  by destruct right, (fill =? ch_0).
Qed.

Lemma s32_add_l a b : s32 (s32 a + b) = s32 (a + b).
Proof.
  unfold s32. f_equal. replace ((a + 2 ^ 31) mod 2 ^ 32 - 2 ^ 31 + b + 2 ^ 31)
    with ((a + 2 ^ 31) mod 2 ^ 32 + b) by lia.
  rewrite Zplus_mod_idemp_l. f_equal. lia.
Qed.

Lemma emit_app pf t u : emit (emit pf t) u = emit pf (t ++ u).
Proof.
  unfold emit. cbn [clientdata ap charcount in_pct size num sign spacing rightspc fillchar base
    baseprefix altformat]. rewrite s32_add_l, length_app, Nat2Z.inj_add, Z.add_assoc, app_assoc. done.
Qed.

Lemma pf_print_emit pf t : pf_print collect pf t = Done (emit pf t).
Proof. done. Qed.

Lemma pf_fill_turns_emit n pf f :
  pf_fill_turns collect (S n) pf f = Done (emit pf (replicate (S n) f)).
Proof.
  revert pf. induction n as [|n IH]; intros pf; [done|].
  cbn [pf_fill_turns]. rewrite pf_print_emit. cbn [mbind outcome_bind].
  change (pf ← pf_print collect (emit pf [f]) [f]; pf_fill_turns collect n pf f)
    with (pf_fill_turns collect (S n) (emit pf [f]) f).
  by rewrite IH, emit_app.
Qed.

Lemma pf_fill_emit pf n :
  0 < n → pf_fill collect pf n = Done (emit pf (replicate (Z.to_nat n) (u8 (fillchar pf)))).
Proof.
  intros Hn. unfold pf_fill. destruct (Z.to_nat n) eqn:E; [lia|]. apply pf_fill_turns_emit.
Qed.

Lemma pf_puts_emit pf s t : cstr s t → pf_puts collect pf s = Done (emit pf t).
Proof.
  intros Hs. unfold pf_puts. rewrite (strlen_spec _ _ Hs). cbn [mbind outcome_bind].
  destruct Hs as (rest & -> & _). rewrite fetch_run by (rewrite ?length_app; lia).
  cbn [mbind outcome_bind]. rewrite pf_print_emit. unfold slice.
  by rewrite Nat2Z.id, drop_0, take_app_length.
Qed.

Lemma rightspc_emit pf t : rightspc (emit pf t) = rightspc pf.
Proof. done. Qed.
Lemma fillchar_emit pf t : fillchar (emit pf t) = fillchar pf.
Proof. done. Qed.

(** Run the steps of a session whose strings and flags are known. *)
Ltac pf_run :=
  repeat (first
    [ rewrite rightspc_emit | rewrite fillchar_emit
    | match goal with
      | H : cstr ?s _ |- context [pf_puts collect ?pf ?s] => rewrite (pf_puts_emit pf _ _ H)
      | H : rightspc ?pf = _ |- context [rightspc ?pf] => rewrite H
      | H : (fillchar ?pf =? ch_0) = _ |- context [fillchar ?pf =? ch_0] => rewrite H
      end
    | rewrite pf_fill_emit by lia | rewrite emit_app ];
    cbn [mbind outcome_bind negb andb]).

Lemma pf_printstuff_spec pf s1 s2 s3 t1 t2 t3 :
  cstr s1 t1 → cstr s2 t2 → cstr s3 t3 → Z.of_nat (length (t1 ++ t2 ++ t3)) < 2 ^ 31 →
  pf_printstuff collect pf s1 s2 s3 =
    Done (emit pf (padded (spacing pf) (rightspc pf) (fillchar pf) (t1 ++ t2) t3)).
Proof.
  intros H1 H2 H3 Hlen. rewrite !length_app in Hlen. unfold pf_printstuff, padded.
  rewrite (strlen_spec _ _ H1), (strlen_spec _ _ H2), (strlen_spec _ _ H3). cbn [mbind outcome_bind].
  rewrite s32_id, !length_app by lia.
  set (w := spacing pf - Z.of_nat (length t1 + length t2 + length t3)).
  replace (if spacing pf >? _ then _ else 0) with (Z.max 0 w)
    by (destruct (Z.gtb_spec (spacing pf) (Z.of_nat (length t1) + Z.of_nat (length t2) + Z.of_nat (length t3))); lia).
  destruct (rightspc pf) eqn:Hr, (fillchar pf =? ch_0) eqn:Hf, (decide (0 < w)) as [Hw|Hw];
    rewrite ?(Z.max_r 0 w), ?(Z.max_l 0 w), ?(proj2 (Z.gtb_lt w 0)), ?(Z2Nat.nonpos w) by lia;
    change (0 >? 0) with false; cbn [negb andb mbind outcome_bind replicate]; pf_run;
    by rewrite ?app_nil_r, <- ?app_assoc.
Qed.

(** The prefixes of a number. *)
Definition number_prefix (neg pfx : bool) (b : Z) : list Z :=
  (if neg then [ch_minus] else []) ++
  (if pfx && (b =? 16) then [ch_0; ch_x] else if pfx && (b =? 8) then [ch_0] else []).

Lemma numeral_chars b n x : 2 ≤ b ≤ 16 → numeral b n x → chars x.
Proof.
  intros Hb (ds & -> & _ & Hds & _). apply Forall_fmap. eapply list.Forall_impl; [exact Hds|].
  intros d Hd. cbn beta in *. assert (Hall : Forall (λ c, 0 < c < 256) (take 16 hexdigits)).
  { cbn. repeat constructor; lia. }
  rewrite list.Forall_forall in Hall. apply Hall.
  apply (list_elem_of_lookup_2 _ (Z.to_nat d)). rewrite lookup_take_lt by lia.
  destruct (hexdigits !! Z.to_nat d) eqn:E; [by erewrite list_lookup_total_correct|].
  apply lookup_ge_None in E. cbn in E. lia.
Qed.

(** The number fits the conversion buffer, in every base that is used. *)
Lemma printnum_buffer b n :
  b = 8 ∨ b = 10 ∨ b = 16 → 0 ≤ n < 2 ^ 32 →
  ∃ t buf, numeral b n t ∧ (length t ≤ 11)%nat ∧
    (buf0 ← patch (replicate (Z.to_nat NUMBER_BUF_SIZE) 0) (NUMBER_BUF_SIZE - 1) [0];
     convert 33 b n (NUMBER_BUF_SIZE - 1 - 1) buf0) = Done (buf, 10 - Z.of_nat (length t)) ∧
    cstr (drop (Z.to_nat (10 - Z.of_nat (length t) + 1)) buf) t.
Proof.
  intros Hb Hn. change (patch _ _ _) with (Done (replicate 12 0)). cbn [mbind outcome_bind].
  change (NUMBER_BUF_SIZE - 1 - 1) with 10.
  destruct (convert_spec b 11 33 n 10 (replicate 12 0)) as (t & Ht & Hlen & ->).
  { lia. } { destruct Hb as [->|[->| ->]]; cbn in *; lia. } { lia. } { lia. } { cbn; lia. }
  exists t. eexists. split_and!; [done|done|done|]. change (Z.to_nat (10 + 1)) with 11%nat.
  exists []. split; [|eapply chars_nonzero, numeral_chars; [|done]; lia].
  unfold splice. replace (Z.to_nat _) with (11 - length t)%nat by lia.
  rewrite drop_app_length' by (rewrite length_take; cbn; lia).
  replace (11 - length t + length t)%nat with 11%nat by lia. done.
Qed.

Lemma cstr_sign (b : bool) :
  cstr (if b then [0] else [ch_minus; 0]) (if negb b then [ch_minus] else []).
Proof. destruct b; exists []; cbn; set_solver. Qed.

Lemma cstr_base (b c : bool) :
  cstr (if b then [ch_0; ch_x; 0] else if c then [ch_0; 0] else [0])
       (if b then [ch_0; ch_x] else if c then [ch_0] else []).
Proof. destruct b, c; exists []; cbn; set_solver. Qed.

Lemma pf_printnum_spec pf :
  base pf = 8 ∨ base pf = 10 ∨ base pf = 16 → 0 ≤ num pf < 2 ^ 32 →
  ∃ t, numeral (base pf) (num pf) t ∧ (length t ≤ 11)%nat ∧
    pf_printnum collect pf =
      Done (emit pf (padded (spacing pf) (rightspc pf) (fillchar pf)
        (number_prefix (negb (sign pf =? 0)) (baseprefix pf) (base pf)) t)).
Proof.
  intros Hb Hn. destruct (printnum_buffer _ _ Hb Hn) as (t & buf & Ht & Hlen & Hrun & Hstr).
  exists t. split_and!; [done..|]. apply bind_Done in Hrun as (buf0 & Hp & Hc).
  unfold pf_printnum. rewrite Hp. cbn [mbind outcome_bind]. rewrite Hc. cbn [mbind outcome_bind].
  apply pf_printstuff_spec; [apply cstr_sign|apply cstr_base|done|].
  rewrite !length_app. destruct (sign pf =? 0), (baseprefix pf), (base pf =? 16), (base pf =? 8); cbn; lia.
Qed.

Definition conversion_base (ch : Z) : Z :=
  if (ch =? ch_d) || (ch =? ch_u) then 10 else if ch =? ch_o then 8 else 16.

(** One goal for every element of a listed range. *)
Ltac each_elem H :=
  repeat (apply elem_of_cons in H as [->|H]); [..|by apply elem_of_nil in H].

Lemma pf_send_number pf ch n args :
  in_pct pf = true → ch ∈ [ch_d; ch_o; ch_u; ch_p; ch_x] → ap pf = VWord n :: args →
  sign pf = 0 → (ch = ch_d → s32 n ≠ - 2 ^ 31) →
  let b := conversion_base ch in
  let neg := (ch =? ch_d) && (s32 n <? 0) in
  let v := if ch =? ch_d then Z.abs (s32 n) else u32 n in
  let pfx := baseprefix pf || altformat pf || (ch =? ch_p) in
  ∃ t, numeral b v t ∧ (length t ≤ 11)%nat ∧
    pf_send collect pf ch =
      Done (pf_endfield (emit (set_num args (num pf) 0 pf)
        (padded (spacing pf) (rightspc pf) (fillchar pf) (number_prefix neg pfx b) t))).
Proof.
  intros Hpct Hch Hap Hsign Hmin b neg v pfx.
  pose proof (u32_range n) as Hu. pose proof (s32_range n) as Hs.
  assert (Hget : pf_getnum pf ch = Done (set_num args v (if neg then -1 else 0) pf)).
  { unfold pf_getnum, va_word, v, neg. rewrite Hap, Hsign. cbn [mbind outcome_bind].
    each_elem Hch; try done.
    cbn -[s32 u32 Z.pow]. destruct (Z.ltb_spec (s32 n) 0); [|by rewrite u32_id, Z.abs_eq by lia].
    rewrite (proj2 (Z.eqb_neq _ _)) by auto. by rewrite u32_id, Z.abs_neq by (specialize (Hmin eq_refl); lia). }
  assert (Hv : 0 ≤ v < 2 ^ 32). { unfold v. destruct (ch =? ch_d); lia. }
  set (pf1 := pf_setbase (set_num args v (if neg then -1 else 0) pf) ch).
  assert (Hbase : base pf1 = b).
  { unfold pf1, b. each_elem Hch; done. }
  destruct (pf_printnum_spec pf1) as (t & Ht & Hlen & Hrun).
  { rewrite Hbase. unfold b. each_elem Hch; cbn; auto. }
  { exact Hv. }
  exists t. split_and!; [by rewrite <- Hbase|done|].
  assert (Hpfx : baseprefix pf1 = pfx).
  { unfold pf1, pfx. cbn. by destruct (altformat pf), (baseprefix pf), (ch =? ch_p). }
  assert (Hneg : negb (sign pf1 =? 0) = neg) by (unfold pf1; cbn; by destruct neg).
  rewrite Hbase, Hpfx, Hneg in Hrun.
  unfold pf_send. rewrite Hpct.
  each_elem Hch;
    cbn [negb andb];
    (cbn -[pf_getnum pf_printnum pf_setbase pf_endfield]; rewrite Hget; cbn [mbind outcome_bind];
     fold pf1; rewrite Hrun; reflexivity).
Qed.

(** the numeric conversions of printf: within a format, [%d], [%u], [%o],
    [%x] and [%p] print the numeral of the argument in their base, without
    leading zeros and never overrunning the conversion buffer, after its
    sign and base prefix, padded to the field width as the flags say; the
    argument is consumed, the characters are counted and the field is
    reset.  (The smallest int cannot be negated and is excluded for %d.) *)
Theorem printf_number pf ch n args :
  in_pct pf = true → ch ∈ [ch_d; ch_o; ch_u; ch_p; ch_x] → ap pf = VWord n :: args →
  sign pf = 0 → (ch = ch_d → s32 n ≠ - 2 ^ 31) →
  let b := conversion_base ch in
  let neg := (ch =? ch_d) && (s32 n <? 0) in
  let v := if ch =? ch_d then Z.abs (s32 n) else u32 n in
  let pfx := baseprefix pf || altformat pf || (ch =? ch_p) in
  ∃ t, numeral b v t ∧ (length t ≤ 11)%nat ∧
    pf_send collect pf ch =
      Done (pf_endfield (emit (set_num args (num pf) 0 pf)
        (padded (spacing pf) (rightspc pf) (fillchar pf) (number_prefix neg pfx b) t))).
Proof. apply pf_send_number. Qed.

(** ** Sessions with different clients run in step *)

Definition osim {A B} (R : A → B → Prop) (o : outcome A) (o' : outcome B) : Prop :=
  match o, o' with
  | Done a, Done b => R a b
  | Panic, Panic | Fault, Fault | Diverge, Diverge => True
  | _, _ => False
  end.

Lemma osim_bind {A B A' B'} (R : A → B → Prop) (S : A' → B' → Prop) o o' f f' :
  osim R o o' → (∀ a b, R a b → osim S (f a) (f' b)) → osim S (o ≫= f) (o' ≫= f').
Proof. destruct o, o'; cbn; try done. auto. Qed.

Lemma osim_refl {A} (R : A → A → Prop) o : (∀ a, R a a) → osim R o o.
Proof. destruct o; cbn; auto. Qed.

Section Simulation.
Context {C C' : Type} (send : C → list Z → outcome C) (send' : C' → list Z → outcome C').
Context (R : C → C' → Prop).
Hypothesis send_sim : ∀ c c' t, R c c' → osim R (send c t) (send' c' t).

(** Equal sessions but for the client. *)
Inductive pf_sim : PF C → PF C' → Prop :=
| Pf_sim c c' a n p s k g w r f b x l :
    R c c' → pf_sim (Pf c a n p s k g w r f b x l) (Pf c' a n p s k g w r f b x l).

Lemma pf_print_sim pf pf' t :
  pf_sim pf pf' → osim pf_sim (pf_print send pf t) (pf_print send' pf' t).
Proof.
  destruct 1. unfold pf_print. eapply osim_bind; [by apply send_sim|]. intros. by constructor.
Qed.

Lemma pf_fill_turns_sim n f pf pf' :
  pf_sim pf pf' → osim pf_sim (pf_fill_turns send n pf f) (pf_fill_turns send' n pf' f).
Proof.
  revert pf pf'. induction n as [|n IH]; intros pf pf' Hpf; [done|].
  cbn [pf_fill_turns]. eapply osim_bind; [by apply pf_print_sim|]. auto.
Qed.

Lemma pf_fill_sim n pf pf' :
  pf_sim pf pf' → osim pf_sim (pf_fill send pf n) (pf_fill send' pf' n).
Proof.
  intros Hpf. unfold pf_fill. replace (fillchar pf') with (fillchar pf) by by destruct Hpf.
  by apply pf_fill_turns_sim.
Qed.

Lemma pf_puts_sim s pf pf' :
  pf_sim pf pf' → osim pf_sim (pf_puts send pf s) (pf_puts send' pf' s).
Proof.
  intros Hpf. unfold pf_puts. eapply (osim_bind eq); [by apply osim_refl|]. intros n _ <-.
  eapply (osim_bind eq); [by apply osim_refl|]. intros t _ <-. by apply pf_print_sim.
Qed.

Lemma pf_fill_if_sim (b : bool) n pf pf' :
  pf_sim pf pf' → osim pf_sim (if b then pf_fill send pf n else Done pf)
                              (if b then pf_fill send' pf' n else Done pf').
Proof. destruct b; [apply pf_fill_sim|done]. Qed.

(** The fields that are not the client's agree. *)
Lemma pf_sim_fields pf pf' :
  pf_sim pf pf' →
  ap pf' = ap pf ∧ charcount pf' = charcount pf ∧ in_pct pf' = in_pct pf ∧ size pf' = size pf ∧
  num pf' = num pf ∧ sign pf' = sign pf ∧ spacing pf' = spacing pf ∧ rightspc pf' = rightspc pf ∧
  fillchar pf' = fillchar pf ∧ base pf' = base pf ∧ baseprefix pf' = baseprefix pf ∧
  altformat pf' = altformat pf.
Proof. by destruct 1. Qed.

Ltac same_fields H :=
  let F := fresh in
  pose proof (pf_sim_fields _ _ H) as F;
  destruct F as (?Hap & ?Hcc & ?Hpct & ?Hsz & ?Hnum & ?Hsign & ?Hspc & ?Hright & ?Hfill & ?Hbase & ?Hbp & ?Halt);
  repeat match goal with E : _ ?pf' = _ ?pf |- _ =>
    match type of H with pf_sim pf pf' => rewrite ?E; clear E end end.

Lemma pf_printstuff_sim s1 s2 s3 pf pf' :
  pf_sim pf pf' → osim pf_sim (pf_printstuff send pf s1 s2 s3) (pf_printstuff send' pf' s1 s2 s3).
Proof.
  intros Hpf. unfold pf_printstuff. same_fields Hpf.
  do 3 (eapply (osim_bind eq); [by apply osim_refl|]; intros ?n _ <-).
  eapply osim_bind; [by apply pf_fill_if_sim|]. intros p1 p1' H1.
  eapply osim_bind; [by apply pf_puts_sim|]. intros p2 p2' H2.
  eapply osim_bind; [by apply pf_puts_sim|]. intros p3 p3' H3. same_fields H3.
  eapply osim_bind; [by apply pf_fill_if_sim|]. intros p4 p4' H4.
  eapply osim_bind; [by apply pf_puts_sim|]. intros p5 p5' H5. same_fields H5.
  by apply pf_fill_if_sim.
Qed.

Lemma pf_printnum_sim pf pf' :
  pf_sim pf pf' → osim pf_sim (pf_printnum send pf) (pf_printnum send' pf').
Proof.
  intros Hpf. unfold pf_printnum. same_fields Hpf.
  eapply (osim_bind eq); [by apply osim_refl|]. intros buf _ <-.
  eapply (osim_bind eq); [by apply osim_refl|]. intros [buf' x] _ <-.
  by apply pf_printstuff_sim.
Qed.

Lemma pf_modifier_sim ch pf pf' :
  pf_sim pf pf' → osim pf_sim (pf_modifier pf ch) (pf_modifier pf' ch).
Proof.
  destruct 1. unfold pf_modifier. cbn -[Z.gtb Z.ltb Z.leb Z.eqb Z.mul Z.pow].
  repeat (case_match; try done); try (by constructor).
  all: destruct (kassert _); cbn; try done; case_match; try done; by constructor.
Qed.

Lemma pf_send_sim ch pf pf' :
  pf_sim pf pf' → osim pf_sim (pf_send send pf ch) (pf_send send' pf' ch).
Proof.
  intros Hpf. unfold pf_send. eapply (osim_bind eq); [by apply osim_refl|]. intros _ _ _.
  same_fields Hpf. destruct (_ && _); [by apply pf_print_sim|].
  destruct (negb _); [destruct Hpf; by constructor|].
  do 2 (eapply (osim_bind eq); [by apply osim_refl|]; intros ?found _ <-).
  destruct found as [|]; [by apply pf_modifier_sim|]. destruct found0 as [|].
  - apply (osim_bind pf_sim).
    { destruct Hpf as [c c' [|[n|s] args]]; cbn -[Z.eqb Z.ltb]; try done.
      repeat (case_match; try done); by constructor. }
    intros p1 p1' H1. eapply (osim_bind pf_sim).
    { apply pf_printnum_sim. destruct H1. by constructor. }
    intros p2 p2' H2. destruct H2. by constructor.
  - destruct (ch =? ch_s).
    + eapply (osim_bind eq); [unfold va_str; same_fields Hpf; by apply osim_refl|].
      intros [str l] _ <-. eapply (osim_bind pf_sim).
      { apply pf_printstuff_sim. destruct Hpf. by constructor. }
      intros p2 p2' H2. destruct H2. by constructor.
    + eapply (osim_bind eq); [unfold va_word; same_fields Hpf; by apply osim_refl|].
      intros [x l] _ <-. eapply (osim_bind pf_sim).
      { apply pf_printstuff_sim. destruct Hpf. by constructor. }
      intros p2 p2' H2. destruct H2. by constructor.
Qed.

Lemma pf_format_sim fmt pf pf' :
  pf_sim pf pf' → osim pf_sim (pf_format send pf fmt) (pf_format send' pf' fmt).
Proof.
  revert pf pf'. induction fmt as [|c fmt IH]; intros pf pf' Hpf; [done|].
  cbn [pf_format]. destruct (c =? 0); [done|]. eapply osim_bind; [by apply pf_send_sim|]. auto.
Qed.

Lemma vprintf_sim fmt args c c' :
  R c c' → osim (λ r r', r.1 = r'.1 ∧ R r.2 r'.2) (vprintf send c fmt args) (vprintf send' c' fmt args).
Proof.
  intros Hc. unfold vprintf. eapply osim_bind; [by apply pf_format_sim; constructor|].
  intros pf pf' Hpf. by destruct Hpf.
Qed.
End Simulation.

(** ** snprintf: the output cut to the buffer *)

(** The buffer after the text [out] has been sent. *)
Definition snp_holds (buf : list Z) (n : nat) (s : SNP) (out : list Z) : Prop :=
  snp_buflen s = Z.of_nat n ∧ snp_bufpos s = Z.of_nat (length (take n out)) ∧
  snp_buf s = splice buf 0 (take n out).

Lemma snprintf_send_char buf n s out d :
  (n ≤ length buf)%nat → snp_holds buf n s out →
  ∃ s', snprintf_send s [d] = Done s' ∧ snp_holds buf n s' (out ++ [d]).
Proof.
  intros Hn (Hlen & Hpos & Hbuf). cbn [snprintf_send]. rewrite Hlen, Hpos, Hbuf.
  rewrite length_take. destruct (Z.ltb_spec (Z.of_nat (n `min` length out)) (Z.of_nat n)).
  - rewrite patch_run by (rewrite ?splice_length; rewrite ?length_take; cbn; lia).
    cbn [mbind outcome_bind]. eexists. split; [done|]. unfold snp_holds. cbn.
    rewrite (take_ge (out ++ [d])), (take_ge out) by (rewrite ?length_app; cbn; lia).
    rewrite length_app. cbn. split_and!; [done|lia|].
    replace (Z.to_nat _) with (0 + length out)%nat by lia. rewrite splice_app; [done|cbn; lia].
  - eexists. split; [done|]. unfold snp_holds. rewrite Hlen, Hpos, Hbuf, take_app_le by lia. done.
Qed.

Lemma snprintf_send_app s t u s' :
  snprintf_send s t = Done s' → snprintf_send s (t ++ u) = snprintf_send s' u.
Proof.
  revert s. induction t as [|d t IH]; intros s; cbn [snprintf_send app]; [by intros [= <-]|].
  destruct (_ <? _); [|auto]. destruct (patch _ _ _); cbn; try done. apply IH.
Qed.

Lemma snprintf_send_holds buf n t s out :
  (n ≤ length buf)%nat → snp_holds buf n s out →
  ∃ s', snprintf_send s t = Done s' ∧ snp_holds buf n s' (out ++ t).
Proof.
  intros Hn. revert s out. induction t as [|d t IH]; intros s out Hs.
  - exists s. by rewrite app_nil_r.
  - destruct (snprintf_send_char buf n s out d Hn Hs) as (s1 & Hrun1 & Hs1).
    destruct (IH s1 (out ++ [d]) Hs1) as (s2 & Hrun2 & Hs2).
    exists s2. rewrite <- app_assoc in Hs2. split; [|done].
    change (d :: t) with ([d] ++ t). by rewrite (snprintf_send_app s [d] t s1).
Qed.

(** What reaches the buffer. *)
Lemma snprintf_cuts buf len fmt args :
  0 ≤ len ≤ Z.of_nat (length buf) →
  match vprintf collect [] fmt args with
  | Done (n, out) =>
      snprintf buf len fmt args =
        Done (n, if len =? 0 then buf else splice buf 0 (take (Z.to_nat (len - 1)) out ++ [0]))
  | Panic => snprintf buf len fmt args = Panic
  | Fault => snprintf buf len fmt args = Fault
  | Diverge => snprintf buf len fmt args = Diverge
  end.
Proof.
  intros Hlen. set (n := Z.to_nat (len - 1)).
  assert (Hinit : snp_holds buf n (Snp buf (if len =? 0 then 0 else len - 1) 0) []).
  { unfold snp_holds. rewrite take_nil, splice_nil. cbn. split_and!; [|done..].
    unfold n. destruct (Z.eqb_spec len 0); lia. }
  pose proof (vprintf_sim snprintf_send collect (snp_holds buf n)) as Hsim.
  specialize (Hsim ltac:(intros c c' t Hc; destruct (snprintf_send_holds buf n t c c')
    as (s' & -> & Hs'); [lia|done|exact Hs']) fmt args _ _ Hinit).
  unfold snprintf, vsnprintf. destruct (vprintf collect [] fmt args) as [[k out]| | |],
    (vprintf snprintf_send _ fmt args) as [[k' s]| | |]; cbn in Hsim; try done.
  destruct Hsim as [-> (Hbl & Hpos & Hbuf)]. cbn [mbind outcome_bind].
  destruct (Z.gtb_spec len 0).
  - rewrite (proj2 (Z.eqb_neq len 0)) by lia. rewrite Hpos, Hbuf.
    assert (Ht : (length (take n out) < length buf)%nat) by (rewrite length_take; lia).
    rewrite patch_run by (rewrite ?splice_length; cbn; lia). cbn [mbind outcome_bind].
    rewrite Nat2Z.id. pose proof (splice_app buf 0 (take n out) [0]) as E. cbn [Nat.add] in E.
    rewrite E by (cbn; lia). done.
  - rewrite (proj2 (Z.eqb_eq len 0)) by lia. rewrite Hbuf.
    replace n with 0%nat by lia. by rewrite take_0, splice_nil.
Qed.

(** The conversion %s alone. *)
Lemma snprintf_string buf len s x :
  cstr s x → 0 < len ≤ Z.of_nat (length buf) → Z.of_nat (length x) < 2 ^ 31 →
  ∃ n, snprintf buf len [ch_pct; ch_s; 0] [VStr (Some s)] =
         Done (n, splice buf 0 (take (Z.to_nat (len - 1)) x ++ [0])).
Proof.
  intros Hs Hlen Hx. pose proof (snprintf_cuts buf len [ch_pct; ch_s; 0] [VStr (Some s)]) as Hcut.
  assert (∃ n, vprintf collect [] [ch_pct; ch_s; 0] [VStr (Some s)] = Done (n, x)) as [n Hv].
  { unfold vprintf. cbn [pf_format Z.eqb]. change (schar ch_pct) with ch_pct. change (schar ch_s) with ch_s.
    cbn -[pf_printstuff]. rewrite (pf_printstuff_spec _ [0] [0] s [] [] x); [|by apply (cstr_of []); constructor..|done|done].
    cbn -[padded]. eexists. do 2 f_equal. rewrite padded_narrow by (cbn; lia). done. }
  rewrite Hv in Hcut. exists n. rewrite Hcut by lia. by rewrite (proj2 (Z.eqb_neq len 0)) by lia.
Qed.


(** ** Printing and parsing integers *)

Lemma hexdigit_dec d : 0 ≤ d < 10 → hexdigits !!! Z.to_nat d = 48 + d.
Proof.
  intros. assert (Hall : Forall (λ d, hexdigits !!! Z.to_nat d = 48 + d) (seqZ 0 10)).
  { cbn. repeat constructor. }
  rewrite list.Forall_forall in Hall. apply Hall, elem_of_seqZ. lia.
Qed.

Lemma strchr_digit d : 0 ≤ d < 10 → strchr digits (schar (48 + d)) = Done (Some d).
Proof.
  intros. assert (Hall : Forall (λ d, strchr digits (schar (48 + d)) = Done (Some d)) (seqZ 0 10)).
  { cbn. repeat constructor. }
  rewrite list.Forall_forall in Hall. apply Hall, elem_of_seqZ. lia.
Qed.

Lemma u32_mul_add a b c : u32 (u32 (a * b) + c) = u32 (a * b + c).
Proof. unfold u32. by rewrite Zplus_mod_idemp_l. Qed.

Lemma atoi_numeral ds rest v :
  Forall (λ d, 0 ≤ d < 10) ds → v = u32 v →
  atoi_digits (((λ d, hexdigits !!! Z.to_nat d) <$> ds) ++ 0 :: rest) v =
    Done (u32 (v * 10 ^ Z.of_nat (length ds) + numeral_value 10 ds)).
Proof.
  intros Hds. revert v. induction Hds as [|d ds Hd Hds IH]; intros v Hv.
  - cbn. rewrite Z.mul_1_r, Z.add_0_r. by f_equal.
  - cbn [fmap list_fmap app atoi_digits]. rewrite hexdigit_dec by done.
    rewrite (proj2 (Z.eqb_neq _ _)) by lia. rewrite strchr_digit by done. cbn [mbind outcome_bind].
    fold (fmap (M := list) (λ d, hexdigits !!! Z.to_nat d) ds). rewrite u32_mul_add.
    rewrite IH by (unfold u32; by rewrite Zmod_mod). f_equal. cbn [numeral_value length].
    rewrite Nat2Z.inj_succ, Z.pow_succ_r by lia. unfold u32.
    rewrite <- Zplus_mod_idemp_l, Zmult_mod_idemp_l, Zplus_mod_idemp_l. f_equal. lia.
Qed.


(** ** Instances *)

(** %#06x of 48879, after the modifiers. *)
Definition demo_pf : PF (list Z) :=
  Pf [] [VWord 0xbeef] 0 true INTSZ 0 0 6 false ch_0 0 false true.

Lemma printf_number_witness :
  ∃ t, numeral 16 0xbeef t ∧ (length t ≤ 11)%nat ∧
    pf_send collect demo_pf ch_x =
      Done (pf_endfield (emit (set_num [] 0 0 demo_pf) (padded 6 false ch_0 [ch_0; ch_x] t))).
Proof. apply (printf_number demo_pf ch_x 0xbeef []); [done|set_solver|done|done|done]. Defined.

(** Seven bytes of room for a name and a number that need eight. *)
Definition demo_fmt : list Z := [ch_pct; ch_s; ch_pct; ch_d; 0].
Definition demo_args : list varg := [VStr (Some [108; 104; 100; 0]); VWord (-1234)].


