(* ===== verification/Uio.v ===== *)
(** * User memory and uio transfers (kern/lib/copyinout.c, kern/userprog/uio.c)

    User memory is the finite map of the user addresses that the VM system
    can make present; touching any other user address ends in the recovery
    function and EFAULT.  It is mapped by pages, so a copy by words stops at
    the same byte as a copy by bytes.  Kernel buffers are private to their
    owner and kept by value: a kernel [iovec] carries its buffer and the
    position in it. *)

From S2P Require Import Prelude Bytes Mem.

Definition USERTOP : Z := MIPS_KSEG0.

(** The memory of the current address space, and curthread->t_vmspace. *)
Record uenv := Uenv { ue_mem : mem; ue_space : option Z }.

(** ** copyin, copyout and their string forms *)

(** copycheck: the result and the length that can be copied. *)
Definition copycheck (userptr len : Z) : Z * Z :=
  let bot := userptr in
  let top := u32 (bot + len - 1) in
  if top <? bot then (EFAULT, len)
  else if bot >=? USERTOP then (EFAULT, len)
  else if top >=? USERTOP then (0, u32 (USERTOP - bot))
  else (0, len).

(** The bytes of user memory from [a] on, [n] of them or up to the first
    that cannot be touched. *)
Fixpoint user_read (n : nat) (a : Z) (m : mem) : list Z :=
  match n with
  | O => []
  | S n => match m !! a with Some b => b :: user_read n (a + 1) m | None => [] end
  end.

(** Store bytes from [a] on, up to the first that cannot be touched. *)
Fixpoint user_write (a : Z) (l : list Z) (m : mem) : bool * mem :=
  match l with
  | [] => (true, m)
  | b :: l => match m !! a with Some _ => user_write (a + 1) l (<[a := b]> m) | None => (false, m) end
  end.

(** copyin to the kernel buffer [dest]. *)
Definition copyin (usersrc : Z) (dest : list Z) (len : Z) (ue : uenv) : outcome (Z * list Z) :=
  let '(result, stoplen) := copycheck usersrc len in
  if negb (result =? 0) then Done (result, dest)
  else if negb (stoplen =? len) then Done (EFAULT, dest)
  else
    let got := user_read (Z.to_nat len) usersrc (ue_mem ue) in
    dest ← patch dest 0 got;
    Done (if Z.of_nat (length got) =? len then 0 else EFAULT, dest).

(** copyout of [len] bytes of the kernel buffer [src]. *)
Definition copyout (src : list Z) (userdest len : Z) (ue : uenv) : outcome (Z * uenv) :=
  let '(result, stoplen) := copycheck userdest len in
  if negb (result =? 0) then Done (result, ue)
  else if negb (stoplen =? len) then Done (EFAULT, ue)
  else
    txt ← fetch src 0 len;
    let '(ok, m) := user_write userdest txt (ue_mem ue) in
    Done (if ok then 0 else EFAULT, Uenv m (ue_space ue)).

(** copystr on abstract memories: [rd i] reads src[i] and [wr i] writes
    dest[i]; [None] is a fault on user memory.  The result is the code and
    the length found, which is stored on success only. *)
Section Copystr.
Context {S : Type} (rd : Z → S → outcome (option Z)) (wr : Z → Z → S → outcome (option S)).

Fixpoint copystr_from (n : nat) (i : Z) (s : S) : outcome (option (option Z) * S) :=
  match n with
  | O => Done (Some None, s)
  | Datatypes.S n =>
      c ← rd i s;
      match c with
      | None => Done (None, s)
      | Some c =>
          s' ← wr i c s;
          match s' with
          | None => Done (None, s)
          | Some s => if c =? 0 then Done (Some (Some (i + 1)), s) else copystr_from n (i + 1) s
          end
      end
  end.

(** The caller's recovery point is included: a fault gives EFAULT. *)
Definition copystr (maxlen stoplen : Z) (s : S) : outcome (Z * option Z * S) :=
  '(r, s) ← copystr_from (Z.to_nat (Z.min maxlen stoplen)) 0 s;
  match r with
  | None => Done (EFAULT, None, s)
  | Some (Some gotlen) => Done (0, Some gotlen, s)
  | Some None => Done (if stoplen <? maxlen then EFAULT else ENAMETOOLONG, None, s)
  end.
End Copystr.

Definition copyinstr (usersrc : Z) (dest : list Z) (len : Z) (ue : uenv)
  : outcome (Z * option Z * list Z) :=
  let '(result, stoplen) := copycheck usersrc len in
  if negb (result =? 0) then Done (result, None, dest)
  else
    copystr (λ i _, Done (ue_mem ue !! (usersrc + i)))
            (λ i c dest, d ← patch dest i [c]; Done (Some d)) len stoplen dest.

Definition copyoutstr (src : list Z) (userdest len : Z) (ue : uenv)
  : outcome (Z * option Z * uenv) :=
  let '(result, stoplen) := copycheck userdest len in
  if negb (result =? 0) then Done (result, None, ue)
  else
    copystr (λ i _, match src !! Z.to_nat i with Some c => Done (Some c) | None => Fault end)
            (λ i c ue, Done (match user_write (userdest + i) [c] (ue_mem ue) with
                             | (true, m) => Some (Uenv m (ue_space ue))
                             | (false, _) => None
                             end)) len stoplen ue.

(** ** uio *)

Inductive uio_rw_t := UIO_READ | UIO_WRITE.
Inductive uio_seg := UIO_USERSPACE | UIO_SYSSPACE | UIO_USERISPACE.
#[global] Instance uio_rw_eq_dec : EqDecision uio_rw_t.
Proof. solve_decision. Defined.
#[global] Instance uio_seg_eq_dec : EqDecision uio_seg.
Proof. solve_decision. Defined.

(** The union in struct iovec: a kernel buffer with the position the
    pointer has reached, or a user address. *)
Inductive iov_base := Kbase (buf : list Z) (pos : Z) | Ubase (va : Z).

Record uio := Uio {
  iov : iov_base;
  iov_len : Z;
  uio_offset : Z;
  uio_resid : Z;
  uio_segflg : uio_seg;
  uio_rw : uio_rw_t;
  uio_space : option Z;
}.

(** The uio after [size] bytes have gone through it. *)
Definition uio_step (u : uio) (base : iov_base) (size : Z) : uio :=
  Uio base (iov_len u - size) (s32 (uio_offset u + size)) (u32 (uio_resid u - size))
      (uio_segflg u) (uio_rw u) (uio_space u).

(** One turn of the loop of uiomove: move [size] bytes between the uio and
    the buffer [ptr] at offset [p]. *)
Definition uio_transfer (ptr : list Z) (p size : Z) (u : uio) (ue : uenv)
  : outcome (Z * list Z * iov_base * uenv) :=
  match uio_segflg u, iov u with
  | UIO_SYSSPACE, Kbase buf pos =>
      if decide (uio_rw u = UIO_READ) then
        x ← fetch ptr p size;
        buf ← patch buf pos x;
        Done (0, ptr, Kbase buf (pos + size), ue)
      else
        x ← fetch buf pos size;
        ptr ← patch ptr p x;
        Done (0, ptr, Kbase buf (pos + size), ue)
  | (UIO_USERSPACE | UIO_USERISPACE), Ubase va =>
      if decide (uio_rw u = UIO_READ) then
        x ← fetch ptr p size;
        '(result, ue) ← copyout x va size ue;
        Done (result, ptr, Ubase (va + size), ue)
      else
        x ← fetch ptr p size;
        '(result, x) ← copyin va x size ue;
        ptr ← patch ptr p x;
        Done (result, ptr, Ubase (va + size), ue)
  | _, _ => Fault
  end.

Fixpoint uiomove_loop (fuel : nat) (ptr : list Z) (p n : Z) (u : uio) (ue : uenv)
  : outcome (Z * list Z * uio * uenv) :=
  if (n >? 0) && (uio_resid u >? 0) then
    match fuel with
    | O => Diverge
    | S fuel =>
        let size := if iov_len u >? n then n else iov_len u in
        if size =? 0 then Panic
        else
          '(result, ptr, base, ue) ← uio_transfer ptr p size u ue;
          if negb (result =? 0) then Done (result, ptr, u, ue)
          else uiomove_loop fuel ptr (p + size) (n - size) (uio_step u base size) ue
    end
  else Done (0, ptr, u, ue).

(** After one turn either [n] is used up or the iovec is, so that a second
    turn ends in the panic. *)
Definition uiomove (ptr : list Z) (n : Z) (u : uio) (ue : uenv)
  : outcome (Z * list Z * uio * uenv) :=
  (if decide (uio_segflg u = UIO_SYSSPACE) then kassert (bool_decide (uio_space u = None))
   else kassert (bool_decide (uio_space u = ue_space ue)));;
  uiomove_loop 2 ptr 0 n u ue.

(** while (n>0) in pieces of sizeof(zeros). *)
Fixpoint uiomovezeros_loop (fuel : nat) (n : Z) (u : uio) (ue : uenv) : outcome (Z * uio * uenv) :=
  if n >? 0 then
    match fuel with
    | O => Diverge
    | S fuel =>
        let amt := if 16 >? n then n else 16 in
        '(result, _, u, ue) ← uiomove (replicate 16 0) amt u ue;
        if negb (result =? 0) then Done (result, u, ue)
        else uiomovezeros_loop fuel (n - amt) u ue
    end
  else Done (0, u, ue).

Definition uiomovezeros (n : Z) (u : uio) (ue : uenv) : outcome (Z * uio * uenv) :=
  kassert (bool_decide (uio_rw u = UIO_READ));;
  uiomovezeros_loop (Z.to_nat ((n + 15) / 16)) n u ue.

Definition mk_kuio (kbuf : list Z) (len pos : Z) (rw : uio_rw_t) : uio :=
  Uio (Kbase kbuf 0) len pos len UIO_SYSSPACE rw None.

(** ** Transfers that go through

    [uio_ok u ue]: the uio is set up as uio.h asks, and the [uio_resid u]
    bytes it stands for can be touched. *)
Definition uio_ok (u : uio) (ue : uenv) : Prop :=
  0 ≤ uio_resid u ≤ iov_len u ∧ iov_len u < 2 ^ 32 ∧ s32 (uio_offset u) = uio_offset u ∧
  match uio_segflg u, iov u with
  | UIO_SYSSPACE, Kbase buf pos =>
      uio_space u = None ∧ 0 ≤ pos ∧ pos + uio_resid u ≤ Z.of_nat (length buf)
  | (UIO_USERSPACE | UIO_USERISPACE), Ubase va =>
      uio_space u = ue_space ue ∧ 0 ≤ va ∧ va + uio_resid u ≤ USERTOP ∧
      mapped (ue_mem ue) va (uio_resid u)
  | _, _ => False
  end.

(** What a transfer of [data] out through the uio does, and the bytes and
    the uio a transfer of [n] bytes in gives. *)
Definition deliver (u : uio) (ue : uenv) (data : list Z) : uio * uenv :=
  let n := Z.of_nat (length data) in
  match iov u with
  | Kbase buf pos => (uio_step u (Kbase (splice buf (Z.to_nat pos) data) (pos + n)) n, ue)
  | Ubase va => (uio_step u (Ubase (va + n)) n, Uenv (user_write va data (ue_mem ue)).2 (ue_space ue))
  end.

Definition source (u : uio) (ue : uenv) (n : nat) : list Z :=
  match iov u with
  | Kbase buf pos => slice buf (Z.to_nat pos) n
  | Ubase va => user_read n va (ue_mem ue)
  end.

Definition consume (u : uio) (n : Z) : uio :=
  match iov u with
  | Kbase buf pos => uio_step u (Kbase buf (pos + n)) n
  | Ubase va => uio_step u (Ubase (va + n)) n
  end.

Lemma user_read_mapped n a m :
  mapped m a (Z.of_nat n) →
  length (user_read n a m) = n ∧ ∀ k, (k < n)%nat → user_read n a m !! k = m !! (a + Z.of_nat k).
Proof.
  revert a. induction n as [|n IH]; intros a Hm; [split; [done|lia]|].
  destruct (Hm a) as [b Hb]; [lia|]. destruct (IH (a + 1)) as [Hlen Hk].
  { intros c Hc. apply Hm. lia. }
  cbn [user_read]. rewrite Hb. cbn. split; [by f_equal|]. intros [|k] ?; cbn.
  - by rewrite Z.add_0_r.
  - rewrite Hk by lia. f_equal. lia.
Qed.

Lemma user_write_mapped a l m :
  mapped m a (Z.of_nat (length l)) →
  (user_write a l m).1 = true ∧
  ∀ c, (user_write a l m).2 !! c =
    if decide (a ≤ c < a + Z.of_nat (length l)) then l !! Z.to_nat (c - a) else m !! c.
Proof.
  revert a m. induction l as [|b l IH]; intros a m Hm.
  - split; [done|]. intros c. cbn. by rewrite decide_False by lia.
  - destruct (Hm a) as [b' Hb]; [cbn; lia|]. destruct (IH (a + 1) (<[a := b]> m)) as (Hok & Hm').
    { intros c Hc. apply lookup_insert_is_Some'. right. apply Hm. cbn. lia. }
    cbn [user_write]. rewrite Hb. split; [done|]. intros c. rewrite Hm'.
    destruct (decide (c = a)) as [->|].
    + rewrite lookup_insert_eq, Z.sub_diag. repeat case_decide; cbn in *; by try lia.
    + rewrite lookup_insert_ne by done. cbn [length]. repeat case_decide; try lia; [|done].
      replace (Z.to_nat (c - a)) with (S (Z.to_nat (c - (a + 1)))) by lia. done.
Qed.

Lemma user_write_app a l1 l2 m :
  (user_write a l1 m).1 = true →
  user_write a (l1 ++ l2) m = user_write (a + Z.of_nat (length l1)) l2 (user_write a l1 m).2.
Proof.
  revert a m. induction l1 as [|b l1 IH]; intros a m; cbn [user_write app length].
  - intros _. cbn. by rewrite Z.add_0_r.
  - destruct (m !! a); [|done]. intros Hok. rewrite IH by done. f_equal. lia.
Qed.

Lemma user_read_app n k a m :
  mapped m a (Z.of_nat n) →
  user_read (n + k) a m = user_read n a m ++ user_read k (a + Z.of_nat n) m.
Proof.
  revert a. induction n as [|n IH]; intros a Hm; cbn [user_read Nat.add].
  - by rewrite Z.add_0_r.
  - destruct (Hm a) as [b ->]; [lia|]. rewrite IH; [|intros c Hc; apply Hm; lia].
    cbn. do 3 f_equal. lia.
Qed.

Lemma copycheck_ok a n : 0 ≤ a → 0 < n → a + n ≤ USERTOP → copycheck a n = (0, n).
Proof.
  intros. unfold copycheck. assert (USERTOP = 2 ^ 31) by done. rewrite u32_id by lia.
  rewrite (proj2 (Z.ltb_ge _ _)) by lia. rewrite !Z.geb_leb, !(proj2 (Z.leb_gt _ _)) by lia. done.
Qed.

Lemma copyout_ok a l ue :
  0 ≤ a → l ≠ [] → a + Z.of_nat (length l) ≤ USERTOP → mapped (ue_mem ue) a (Z.of_nat (length l)) →
  copyout l a (Z.of_nat (length l)) ue = Done (0, Uenv (user_write a l (ue_mem ue)).2 (ue_space ue)).
Proof.
  intros Ha Hl Htop Hm. unfold copyout. assert (length l ≠ 0%nat) by by destruct l.
  rewrite copycheck_ok by lia. cbn -[fetch]. rewrite Z.eqb_refl. cbn -[fetch].
  rewrite fetch_run by lia. cbn. rewrite Nat2Z.id, slice_all.
  destruct (user_write_mapped a l _ Hm) as [Hok _]. destruct (user_write _ _ _). cbn in *. by subst.
Qed.

Lemma copyin_ok a n dest ue :
  0 ≤ a → (0 < n ≤ length dest)%nat → a + Z.of_nat n ≤ USERTOP → mapped (ue_mem ue) a (Z.of_nat n) →
  copyin a dest (Z.of_nat n) ue = Done (0, splice dest 0 (user_read n a (ue_mem ue))).
Proof.
  intros Ha Hn Htop Hm. unfold copyin. rewrite copycheck_ok by lia. cbn -[patch].
  rewrite Z.eqb_refl. cbn -[patch]. rewrite Nat2Z.id.
  destruct (user_read_mapped n a _ Hm) as [Hlen _]. rewrite patch_run by lia. cbn.
  by rewrite Hlen, Z.eqb_refl.
Qed.

Lemma s32_s32 x : s32 (s32 x) = s32 x.
Proof. apply s32_id, s32_range. Qed.

Lemma uio_step_0 u base :
  base = iov u → 0 ≤ uio_resid u < 2 ^ 32 → s32 (uio_offset u) = uio_offset u → uio_step u base 0 = u.
Proof.
  intros -> Hr Ho. unfold uio_step. rewrite Z.add_0_r, !Z.sub_0_r, Ho, u32_id by done.
  by destruct u.
Qed.

Lemma uio_space_ok u ue :
  uio_ok u ue →
  (if decide (uio_segflg u = UIO_SYSSPACE) then kassert (bool_decide (uio_space u = None))
   else kassert (bool_decide (uio_space u = ue_space ue))) = Done tt.
Proof.
  intros (_ & _ & _ & Hseg). destruct (uio_segflg u), (iov u); try done;
    destruct Hseg as (-> & _); case_decide; try done; by rewrite bool_decide_true.
Qed.

(** A transfer ends after one turn. *)
Lemma uiomove_once ptr n u ue base ptr' ue' :
  uio_ok u ue → 0 < n ≤ uio_resid u →
  uio_transfer ptr 0 n u ue = Done (0, ptr', base, ue') →
  uiomove ptr n u ue = Done (0, ptr', uio_step u base n, ue').
Proof.
  intros Hok Hn Hrun. unfold uiomove. rewrite (uio_space_ok _ _ Hok). cbn [mbind outcome_bind uiomove_loop].
  destruct Hok as (Hres & _). rewrite (proj2 (Z.gtb_lt n 0)), (proj2 (Z.gtb_lt (uio_resid u) 0)) by lia.
  cbn [andb]. replace (if iov_len u >? n then n else iov_len u) with n
    by (destruct (Z.gtb_spec (iov_len u) n); lia).
  rewrite (proj2 (Z.eqb_neq n 0)) by lia. rewrite Hrun. cbn. by rewrite Z.sub_diag.
Qed.

Lemma uiomove_none ptr u ue : uio_ok u ue → uiomove ptr 0 u ue = Done (0, ptr, u, ue).
Proof. intros Hok. unfold uiomove. by rewrite (uio_space_ok _ _ Hok). Qed.

Lemma deliver_nil u ue : uio_ok u ue → deliver u ue [] = (u, ue).
Proof.
  intros (Hr & ? & Ho & _). unfold deliver. cbn. destruct (iov u) as [buf pos|va] eqn:E.
  - rewrite splice_nil, uio_step_0; [done| |lia|done]. by rewrite Z.add_0_r.
  - rewrite uio_step_0; [by destruct ue| |lia|done]. by rewrite Z.add_0_r.
Qed.

Lemma consume_0 u ue : uio_ok u ue → consume u 0 = u.
Proof.
  intros (Hr & ? & Ho & _). unfold consume.
  destruct (iov u) eqn:E; (apply uio_step_0; [by rewrite Z.add_0_r|lia|done]).
Qed.

(** Moving [data] out. *)
Lemma uiomove_deliver data rest u ue :
  uio_ok u ue → uio_rw u = UIO_READ → Z.of_nat (length data) ≤ uio_resid u →
  uiomove (data ++ rest) (Z.of_nat (length data)) u ue =
    Done (0, data ++ rest, (deliver u ue data).1, (deliver u ue data).2).
Proof.
  intros Hok Hrw Hlen. destruct (decide (data = [])) as [->|Hne].
  { rewrite deliver_nil by done. by apply uiomove_none. }
  assert (length data ≠ 0%nat) by by destruct data.
  assert (Hf : fetch (data ++ rest) 0 (Z.of_nat (length data)) = Done data).
  { rewrite fetch_run by (rewrite ?length_app; lia). unfold slice.
    by rewrite Nat2Z.id, drop_0, take_app_length. }
  destruct (iov u) as [buf pos|va] eqn:Hiov; unfold deliver; rewrite Hiov; cbn [fst snd].
  - apply uiomove_once; [done|lia|]. destruct Hok as (_ & _ & _ & Hok).
    unfold uio_transfer. rewrite Hiov in *. destruct (uio_segflg u); try done.
    rewrite decide_True, Hf by done. cbn [mbind outcome_bind]. by rewrite patch_run by lia.
  - apply uiomove_once; [done|lia|]. destruct Hok as (_ & _ & _ & Hok).
    assert (mapped (ue_mem ue) va (Z.of_nat (length data))).
    { intros b Hb. rewrite Hiov in Hok. destruct (uio_segflg u); try done; apply Hok; lia. }
    unfold uio_transfer. rewrite Hiov in *. destruct (uio_segflg u); try done;
      rewrite decide_True, Hf by done; cbn [mbind outcome_bind]; rewrite copyout_ok; by try lia.
Qed.

(** Moving [n] bytes in, to the start of the buffer [ptr]. *)
Lemma uiomove_source ptr n u ue :
  uio_ok u ue → uio_rw u = UIO_WRITE → Z.of_nat n ≤ uio_resid u → (n ≤ length ptr)%nat →
  uiomove ptr (Z.of_nat n) u ue =
    Done (0, splice ptr 0 (source u ue n), consume u (Z.of_nat n), ue) ∧
  length (source u ue n) = n.
Proof.
  intros Hok Hrw Hn Hptr. destruct (decide (n = 0%nat)) as [->|Hn0].
  { change (Z.of_nat 0) with 0. rewrite (consume_0 _ _ Hok), uiomove_none by done.
    assert (source u ue 0 = []) as -> by (unfold source; by destruct (iov u)). by rewrite splice_nil. }
  unfold source, consume. destruct (iov u) as [buf pos|va] eqn:Hiov.
  - assert (0 ≤ pos ∧ pos + uio_resid u ≤ Z.of_nat (length buf)) as [??].
    { destruct Hok as (_ & _ & _ & Hok). rewrite Hiov in Hok. destruct (uio_segflg u); try done; lia. }
    assert (length (slice buf (Z.to_nat pos) n) = n) by (apply slice_length; lia).
    split; [|done]. apply uiomove_once; [done|lia|]. destruct Hok as (_ & _ & _ & Hok).
    unfold uio_transfer. rewrite Hiov in *. destruct (uio_segflg u); try done.
    rewrite decide_False by (by rewrite Hrw). rewrite fetch_run by lia. cbn [mbind outcome_bind].
    rewrite Nat2Z.id. by rewrite patch_run by lia.
  - assert (mapped (ue_mem ue) va (Z.of_nat n) ∧ 0 ≤ va ∧ va + uio_resid u ≤ USERTOP) as (Hm & ? & ?).
    { destruct Hok as (_ & _ & _ & Hok). rewrite Hiov in Hok.
      destruct (uio_segflg u); try done; destruct Hok as (_ & ? & ? & Hm);
        (split_and!; [intros b Hb; apply Hm; lia|lia..]). }
    destruct (user_read_mapped n va _ Hm) as [Hlen _]. split; [|done].
    apply uiomove_once; [done|lia|]. destruct Hok as (_ & _ & _ & Hok).
    assert (Hsl : length (slice ptr 0 n) = n) by (apply slice_length; lia).
    unfold uio_transfer. rewrite Hiov in *. destruct (uio_segflg u); try done;
      rewrite decide_False by (by rewrite Hrw); rewrite fetch_run by lia; cbn [mbind outcome_bind];
      change (Z.to_nat 0) with 0%nat; rewrite Nat2Z.id, copyin_ok by (done || lia); cbn [mbind outcome_bind];
      rewrite (splice_whole (slice ptr 0 n)) by lia; by rewrite patch_run by lia.
Qed.

(** ** Transfers in pieces *)

Lemma uio_step_step u b1 b2 n1 n2 :
  0 ≤ n1 → 0 ≤ n2 → n1 + n2 ≤ uio_resid u < 2 ^ 32 →
  uio_step (uio_step u b1 n1) b2 n2 = uio_step u b2 (n1 + n2).
Proof.
  intros. unfold uio_step. cbn. rewrite (u32_id (uio_resid u - n1)) by lia.
  rewrite !u32_id by lia. f_equal; [lia| |lia].
  unfold s32. f_equal.
  replace ((uio_offset u + n1 + 2 ^ 31) mod 2 ^ 32 - 2 ^ 31 + n2 + 2 ^ 31)
    with ((uio_offset u + n1 + 2 ^ 31) mod 2 ^ 32 + n2) by lia.
  rewrite Zplus_mod_idemp_l. f_equal. lia.
Qed.

(** The fields of a uio on its way. *)
Lemma deliver_fields u ue data :
  uio_ok u ue → Z.of_nat (length data) ≤ uio_resid u →
  uio_resid (deliver u ue data).1 = uio_resid u - Z.of_nat (length data) ∧
  uio_offset (deliver u ue data).1 = s32 (uio_offset u + Z.of_nat (length data)) ∧
  uio_rw (deliver u ue data).1 = uio_rw u.
Proof.
  intros (? & ? & _) ?. unfold deliver. destruct (iov u); cbn; split_and!; try done; apply u32_id; lia.
Qed.

Lemma consume_fields u ue n :
  uio_ok u ue → 0 ≤ n ≤ uio_resid u →
  uio_resid (consume u n) = uio_resid u - n ∧
  uio_offset (consume u n) = s32 (uio_offset u + n) ∧
  uio_rw (consume u n) = uio_rw u.
Proof.
  intros (? & ? & _) ?. unfold consume. destruct (iov u); cbn; split_and!; try done; apply u32_id; lia.
Qed.

Lemma deliver_ok u ue data :
  uio_ok u ue → Z.of_nat (length data) ≤ uio_resid u →
  uio_ok (deliver u ue data).1 (deliver u ue data).2.
Proof.
  intros Hok Hlen. destruct (deliver_fields u ue data Hok Hlen) as (Hr & Ho & _).
  destruct Hok as (Hres & Hl & _ & Hseg). unfold uio_ok. rewrite Hr, Ho, s32_s32. clear Hr Ho.
  unfold deliver. destruct (iov u) as [buf pos|va]; cbn [fst snd uio_step iov iov_len uio_segflg uio_space ue_mem ue_space];
    (split_and!; [lia..|done|]); destruct (uio_segflg u); try done.
  - destruct Hseg as (? & ? & ?). rewrite splice_length; [split_and!; [done|lia..]|lia].
  - destruct Hseg as (? & ? & ? & Hm). split_and!; [done|lia|lia|]. intros b Hb.
    rewrite (proj2 (user_write_mapped va data _ ltac:(intros c Hc; apply Hm; lia))).
    rewrite decide_False by lia. apply Hm. lia.
  - destruct Hseg as (? & ? & ? & Hm). split_and!; [done|lia|lia|]. intros b Hb.
    rewrite (proj2 (user_write_mapped va data _ ltac:(intros c Hc; apply Hm; lia))).
    rewrite decide_False by lia. apply Hm. lia.
Qed.

Lemma consume_ok u ue n : uio_ok u ue → 0 ≤ n ≤ uio_resid u → uio_ok (consume u n) ue.
Proof.
  intros Hok Hlen. destruct (consume_fields u ue n Hok Hlen) as (Hr & Ho & _).
  destruct Hok as (Hres & Hl & _ & Hseg). unfold uio_ok. rewrite Hr, Ho, s32_s32. clear Hr Ho.
  unfold consume. destruct (iov u) as [buf pos|va]; cbn [uio_step iov iov_len uio_segflg uio_space];
    (split_and!; [lia..|done|]); destruct (uio_segflg u); try done.
  - destruct Hseg as (? & ? & ?). split_and!; [done|lia..].
  - destruct Hseg as (? & ? & ? & Hm). split_and!; [done|lia|lia|]. intros b Hb. apply Hm. lia.
  - destruct Hseg as (? & ? & ? & Hm). split_and!; [done|lia|lia|]. intros b Hb. apply Hm. lia.
Qed.

(** The area of a uio, if it is in user memory, is mapped. *)
Lemma uio_ok_mapped u ue va n :
  uio_ok u ue → iov u = Ubase va → n ≤ uio_resid u → mapped (ue_mem ue) va n.
Proof.
  intros (_ & _ & _ & Hseg) Hiov ? b Hb. rewrite Hiov in Hseg.
  destruct (uio_segflg u); try done; apply Hseg; lia.
Qed.

Lemma deliver_app u ue d1 d2 :
  uio_ok u ue → Z.of_nat (length (d1 ++ d2)) ≤ uio_resid u →
  deliver u ue (d1 ++ d2) = deliver (deliver u ue d1).1 (deliver u ue d1).2 d2.
Proof.
  intros Hok Hlen. rewrite length_app in Hlen.
  assert (Hmap : ∀ va, iov u = Ubase va → mapped (ue_mem ue) va (Z.of_nat (length d1)))
    by (intros; eapply uio_ok_mapped; [done..|lia]).
  destruct Hok as (Hres & Hl & _ & Hseg). unfold deliver.
  destruct (iov u) as [buf pos|va] eqn:Hiov; cbn [fst snd uio_step iov].
  - fold (uio_step u (Kbase (splice buf (Z.to_nat pos) d1) (pos + Z.of_nat (length d1))) (Z.of_nat (length d1))).
    rewrite uio_step_step, length_app, Nat2Z.inj_add by lia.
    assert (0 ≤ pos ∧ pos + uio_resid u ≤ Z.of_nat (length buf)) as [??].
    { destruct (uio_segflg u); try done; lia. }
    replace (Z.to_nat (pos + Z.of_nat (length d1))) with (Z.to_nat pos + length d1)%nat by lia.
    rewrite splice_app by lia. by rewrite Z.add_assoc.
  - fold (uio_step u (Ubase (va + Z.of_nat (length d1))) (Z.of_nat (length d1))).
    rewrite uio_step_step, length_app, Nat2Z.inj_add, Z.add_assoc by lia. cbn [ue_mem ue_space].
    rewrite user_write_app; [done|]. apply user_write_mapped. auto.
Qed.

Lemma consume_consume u ue n1 n2 :
  uio_ok u ue → 0 ≤ n1 → 0 ≤ n2 → n1 + n2 ≤ uio_resid u →
  consume (consume u n1) n2 = consume u (n1 + n2).
Proof.
  intros (? & ? & _) ???. unfold consume. destruct (iov u) as [buf pos|va]; cbn [uio_step iov].
  - fold (uio_step u (Kbase buf (pos + n1)) n1). rewrite uio_step_step by lia. by rewrite Z.add_assoc.
  - fold (uio_step u (Ubase (va + n1)) n1). rewrite uio_step_step by lia. by rewrite Z.add_assoc.
Qed.

Lemma source_app u ue n1 n2 :
  uio_ok u ue → Z.of_nat (n1 + n2) ≤ uio_resid u →
  source u ue (n1 + n2) = source u ue n1 ++ source (consume u (Z.of_nat n1)) ue n2.
Proof.
  intros Hok Hn. unfold source, consume. destruct (iov u) as [buf pos|va] eqn:Hiov; cbn [uio_step iov].
  - rewrite slice_app. do 2 f_equal. destruct Hok as (_ & _ & _ & Hseg). rewrite Hiov in Hseg.
    destruct (uio_segflg u); try done; lia.
  - apply user_read_app. eapply uio_ok_mapped; [done..|lia].
Qed.

(** uiomovezeros delivers zeros. *)
Lemma uiomovezeros_loop_spec fuel n u ue :
  uio_ok u ue → uio_rw u = UIO_READ → Z.of_nat n ≤ uio_resid u → Z.of_nat n ≤ 16 * Z.of_nat fuel →
  uiomovezeros_loop fuel (Z.of_nat n) u ue =
    Done (0, (deliver u ue (replicate n 0)).1, (deliver u ue (replicate n 0)).2).
Proof.
  revert n u ue. induction fuel as [|fuel IH]; intros n u ue Hok Hrw Hn Hfuel.
  { assert (n = 0%nat) as -> by lia. cbn. by rewrite deliver_nil. }
  cbn [uiomovezeros_loop]. destruct (Z.gtb_spec (Z.of_nat n) 0); cycle 1.
  { assert (n = 0%nat) as -> by lia. by rewrite deliver_nil. }
  set (k := (n `min` 16)%nat).
  replace (if 16 >? Z.of_nat n then Z.of_nat n else 16) with (Z.of_nat (length (replicate k 0)))
    by (rewrite length_replicate; destruct (Z.gtb_spec 16 (Z.of_nat n)); lia).
  replace (replicate 16 0) with (replicate k 0 ++ replicate (16 - k) 0)
    by (rewrite <- replicate_add; f_equal; lia).
  assert (Hk : Z.of_nat (length (replicate k 0)) ≤ uio_resid u) by (rewrite length_replicate; lia).
  rewrite uiomove_deliver by done. cbn [mbind outcome_bind]. cbn [Z.eqb negb].
  destruct (deliver_fields _ _ _ Hok Hk) as (Hr & _ & Hrw').
  replace (Z.of_nat n - Z.of_nat (length (replicate k 0))) with (Z.of_nat (n - k))
    by (rewrite length_replicate; lia).
  rewrite IH; [|by apply deliver_ok|congruence|rewrite Hr, length_replicate; lia|lia].
  rewrite <- deliver_app, <- replicate_add by (rewrite ?length_app, ?length_replicate; done || lia).
  by replace (k + (n - k))%nat with n by lia.
Qed.

Lemma uiomovezeros_deliver n u ue :
  uio_ok u ue → uio_rw u = UIO_READ → Z.of_nat n ≤ uio_resid u →
  uiomovezeros (Z.of_nat n) u ue =
    Done (0, (deliver u ue (replicate n 0)).1, (deliver u ue (replicate n 0)).2).
Proof.
  intros Hok Hrw Hn. unfold uiomovezeros. rewrite bool_decide_true by done. cbn [kassert mbind outcome_bind].
  apply uiomovezeros_loop_spec; [done..|]. Z.to_euclidean_division_equations. lia.
Qed.

(** ** The protection copyout gives *)

Lemma user_write_outside a l m c :
  ¬ (a ≤ c < a + Z.of_nat (length l)) → (user_write a l m).2 !! c = m !! c.
Proof.
  revert a m. induction l as [|b l IH]; intros a m Hc; [done|]. cbn [user_write length] in *.
  destruct (m !! a); [|done]. rewrite IH by lia. apply lookup_insert_ne. lia.
Qed.

Lemma user_write_true a l m : (user_write a l m).1 = true ↔ mapped m a (Z.of_nat (length l)).
Proof.
  split; [|apply user_write_mapped]. revert a m. induction l as [|b l IH]; intros a m H c Hc;
    cbn [user_write length] in *; [lia|].
  destruct (m !! a) as [b'|] eqn:Ha; [|done]. destruct (decide (c = a)) as [->|]; [eauto|].
  specialize (IH _ _ H c ltac:(lia)). by rewrite lookup_insert_ne in IH by lia.
Qed.

Lemma user_write_dom a l m : dom (user_write a l m).2 = dom m.
Proof.
  revert a m. induction l as [|b l IH]; intros a m; [done|]. cbn [user_write].
  destruct (m !! a) eqn:Ha; [|done]. rewrite IH. apply dom_insert_lookup_L. eauto.
Qed.

Lemma copycheck_spec a n :
  0 ≤ a < 2 ^ 32 → 0 ≤ n < 2 ^ 32 →
  (copycheck a n).1 = 0 ∧ (copycheck a n).2 = n ↔ 0 < n ∧ a + n ≤ USERTOP.
Proof.
  intros Ha Hn. assert (Htop : USERTOP = 2 ^ 31) by done. unfold copycheck, u32.
  rewrite !Z.geb_leb. split.
  - intros [H1 H2]. destruct (Z.ltb_spec ((a + n - 1) mod 2 ^ 32) a); [done|].
    destruct (Z.leb_spec USERTOP a); [done|].
    destruct (Z.leb_spec USERTOP ((a + n - 1) mod 2 ^ 32)); cbn in *;
      rewrite ?Htop in *; Z.to_euclidean_division_equations; lia.
  - intros [??]. rewrite Z.mod_small by lia. rewrite (proj2 (Z.ltb_ge _ _)) by lia.
    rewrite !(proj2 (Z.leb_gt _ _)) by lia. done.
Qed.

(** C34: copyout protects the kernel from user pointers: for every address and
    length a program can pass it returns 0 or EFAULT; it returns 0 exactly
    when the area is not empty, lies below the kernel and can be touched,
    and then the area holds the bytes; no byte outside the part of the area
    that lies in user space ever changes, and nothing becomes mapped or
    unmapped. *)
Theorem copyout_protects src a len ue :
  0 ≤ a < 2 ^ 32 → 0 ≤ len ≤ Z.of_nat (length src) → len < 2 ^ 32 →
  ∃ r ue', copyout src a len ue = Done (r, ue') ∧ (r = 0 ∨ r = EFAULT) ∧
    (r = 0 ↔ 0 < len ∧ a + len ≤ USERTOP ∧ mapped (ue_mem ue) a len) ∧
    (r = 0 → user_read (Z.to_nat len) a (ue_mem ue') = take (Z.to_nat len) src) ∧
    (∀ c, ¬ (a ≤ c < a + len ∧ c < USERTOP) → ue_mem ue' !! c = ue_mem ue !! c) ∧
    dom (ue_mem ue') = dom (ue_mem ue) ∧ ue_space ue' = ue_space ue.
Proof.
  intros Ha Hlen Hn. pose proof (copycheck_spec a len Ha ltac:(lia)) as Hcheck.
  unfold copyout. destruct (copycheck a len) as [result stoplen] eqn:Hcc. cbn [fst snd] in Hcheck.
  assert (Hres : result = 0 ∨ result = EFAULT).
  { unfold copycheck in Hcc. repeat case_match; simplify_eq; auto. }
  destruct (Z.eqb_spec result 0) as [->|Hr0]; cbn [negb]; cycle 1.
  { exists result, ue. split_and!; try done. split; [lia|tauto]. }
  destruct (Z.eqb_spec stoplen len) as [->|Hs]; cbn [negb]; cycle 1.
  { exists EFAULT, ue. split_and!; try done; [by right|split; [done|tauto]]. }
  rewrite fetch_run by lia. cbn [mbind outcome_bind]. change (slice src (Z.to_nat 0) (Z.to_nat len)) with (take (Z.to_nat len) src).
  set (txt := take (Z.to_nat len) src).
  assert (Htxt : Z.of_nat (length txt) = len) by (unfold txt; rewrite length_take; lia).
  destruct Hcheck as [[Hpos Htop] _]; [done|].
  pose proof (user_write_true a txt (ue_mem ue)) as Htrue. rewrite Htxt in Htrue.
  pose proof (user_write_outside a txt (ue_mem ue)) as Hout. rewrite Htxt in Hout.
  pose proof (user_write_dom a txt (ue_mem ue)) as Hdom.
  pose proof (user_write_mapped a txt (ue_mem ue)) as Hmap. rewrite Htxt in Hmap.
  destruct (user_write a txt (ue_mem ue)) as [ok m]. cbn [fst snd] in *.
  eexists _, _. split; [done|]. cbn [ue_mem ue_space]. split_and!; [by destruct ok; auto| | | |done|done].
  - destruct ok; [tauto|]. split; [done|]. intros (_ & _ & Hm). by apply Htrue in Hm.
  - intros Hok. assert (Hm : mapped (ue_mem ue) a len) by (apply Htrue; by destruct ok).
    destruct (Hmap Hm) as [_ Hlook]. destruct (user_read_mapped (Z.to_nat len) a m) as [Hrl Hrk].
    { intros c Hc. rewrite Hlook, decide_True by lia. apply lookup_lt_is_Some. lia. }
    apply list_eq. intros k. destruct (decide (k < Z.to_nat len)%nat).
    + rewrite Hrk, Hlook, decide_True by lia. f_equal. lia.
    + rewrite !lookup_ge_None_2; [done|lia..].
  - intros c Hc. apply Hout. lia.
Qed.

(** A uio for a read into the memory of the running process, whose one
    buffer is as long as the transfer. *)
Record user_uio (u : uio) (ue : uenv) : Prop := {
  uu_seg : uio_segflg u = UIO_USERSPACE;
  uu_rw : uio_rw u = UIO_READ;
  uu_space : uio_space u = ue_space ue;
  uu_base : ∃ va, iov u = Ubase va;
  uu_len : iov_len u = uio_resid u;
  uu_resid : 0 ≤ uio_resid u < 2 ^ 32;
}.

(** Such a transfer returns, whatever of the memory is mapped. *)
Lemma uiomove_user ptr n u ue :
  user_uio u ue → 0 ≤ n ≤ Z.of_nat (length ptr) →
  ∃ c u' ue', uiomove ptr n u ue = Done (c, ptr, u', ue') ∧ user_uio u' ue' ∧ ue_space ue' = ue_space ue.
Proof.
  intros Hu Hn. pose proof Hu as [Hseg Hrw Hsp [va Hva] Hlen Hres]. unfold uiomove.
  rewrite decide_False, bool_decide_true by (congruence || done). cbn [kassert mbind outcome_bind uiomove_loop].
  destruct ((n >? 0) && (uio_resid u >? 0)) eqn:E; [|by eexists _, _, _].
  set (size := if iov_len u >? n then n else iov_len u).
  assert (Hsz : 0 < size ≤ n ∧ size ≤ iov_len u ∧ (size = n ∨ size = iov_len u)).
  { unfold size. destruct (Z.gtb_spec (iov_len u) n); lia. }
  rewrite (proj2 (Z.eqb_neq size 0)) by lia. unfold uio_transfer. rewrite Hseg, Hva, decide_True by done.
  rewrite fetch_run by lia. cbn [mbind outcome_bind].
  assert (∃ c ue', copyout (slice ptr (Z.to_nat 0) (Z.to_nat size)) va size ue = Done (c, ue') ∧ ue_space ue' = ue_space ue)
    as (c & ue' & -> & Hsp').
  { unfold copyout. destruct (copycheck va size) as [r l]. destruct (negb (r =? 0)); [by eexists _, _|].
    destruct (negb (l =? size)); [by eexists _, _|].
    rewrite fetch_run by (rewrite ?slice_length by lia; lia). cbn [mbind outcome_bind].
    destruct (user_write _ _ _) as [ok m]. by eexists _, _. }
  cbn [mbind outcome_bind]. destruct (negb (c =? 0)).
  { eexists _, _, _. split; [done|]. split; [|done]. split; try done; [congruence|by eexists]. }
  cbn [uio_step uio_resid]. rewrite u32_id by lia.
  replace ((n - size >? 0) && (uio_resid u - size >? 0)) with false by lia.
  eexists _, _, _. split; [done|]. split; [|done]. split; cbn; try done; [congruence|by eexists|..].
  - rewrite u32_id; lia.
  - rewrite u32_id; lia.
Qed.


(** ** An instance: eight bytes to a program's buffer *)

Definition demo_uenv : uenv :=
  Uenv (list_to_map ((λ a, (a, 0)) <$> seqZ 0x400000 16)) (Some 7).

Lemma demo_uenv_mapped a n : 0x400000 ≤ a → a + n ≤ 0x400010 → mapped (ue_mem demo_uenv) a n.
Proof.
  intros ?? b Hb.
  assert (Hall : Forall (λ c, is_Some (ue_mem demo_uenv !! c)) (seqZ 0x400000 16)).
  { cbn. repeat (constructor; [vm_compute; eauto|]). constructor. }
  rewrite list.Forall_forall in Hall. apply Hall, elem_of_seqZ. lia.
Qed.

Lemma copyout_protects_witness :
  ∃ r ue', copyout [1; 2; 3; 4] 0x400004 4 demo_uenv = Done (r, ue') ∧ r = 0 ∧
    user_read 4 0x400004 (ue_mem ue') = [1; 2; 3; 4] ∧
    ue_mem ue' !! 0x400003 = ue_mem demo_uenv !! 0x400003.
Proof.
  destruct (copyout_protects [1; 2; 3; 4] 0x400004 4 demo_uenv) as (r & ue' & Hrun & _ & H0 & Hrd & Hout & _).
  - lia.
  - cbn. lia.
  - lia.
  - exists r, ue'. assert (r = 0) as ->.
    { apply H0. split_and!; [lia|done|]. apply demo_uenv_mapped; lia. }
    split_and!; [done|done|by apply Hrd|]. apply Hout. lia.
Defined.
