(* ===== verification/Device.v ===== *)
(** * Block devices (kern/include/dev.h)

    [Device] is struct device as the file system uses it; the laws are what
    a sector of a disk in good order promises: an aligned transfer of one
    sector moves the sector's contents and nothing else. *)

From S2P Require Import Prelude Bytes Mem Uio.

Definition SECTSIZE : Z := 512.

Class Device (D : Type) := {
  d_blocks : D → Z;
  d_blocksize : D → Z;
  d_io : uio → D → uenv → outcome (Z * uio * D * uenv);
}.

Class DiskLaws (D : Type) `{Device D} := {
  (** The disk is in good order. *)
  disk_ok : D → Prop;
  (** The contents of a sector. *)
  sector : D → Z → list Z;
  disk_size d : disk_ok d → 0 ≤ d_blocks d < 2 ^ 32;
  disk_sectsize d : disk_ok d → d_blocksize d = SECTSIZE;
  sector_length d s : disk_ok d → 0 ≤ s < d_blocks d → length (sector d s) = 512%nat;
  disk_read d s u ue :
    disk_ok d → uio_ok u ue → uio_rw u = UIO_READ → uio_resid u = SECTSIZE →
    0 ≤ s < d_blocks d → uio_offset u = s * SECTSIZE →
    ∃ d', d_io u d ue = Done (0, (deliver u ue (sector d s)).1, d', (deliver u ue (sector d s)).2) ∧
      disk_ok d' ∧ d_blocks d' = d_blocks d ∧ ∀ t, sector d' t = sector d t;
  disk_write d s u ue :
    disk_ok d → uio_ok u ue → uio_rw u = UIO_WRITE → uio_resid u = SECTSIZE →
    0 ≤ s < d_blocks d → uio_offset u = s * SECTSIZE →
    ∃ d', d_io u d ue = Done (0, consume u SECTSIZE, d', ue) ∧
      disk_ok d' ∧ d_blocks d' = d_blocks d ∧
      ∀ t, sector d' t = if decide (t = s) then source u ue 512 else sector d t;
}.
