(* ===== verification/Lhd.v ===== *)
(** * The LAMEbus hard disk driver (kern/dev/lamebus/lhd.c)

    The card is a parameter: its registers, its sector buffer, and what it
    has done by the time it interrupts.  The driver's semaphores are their
    counts; the model runs one request at a time, so a P that finds its
    semaphore 0 with nobody left to V it never returns.  The theorem is that
    over a card in good order the driver is a disk as [DiskLaws] asks. *)

From S2P Require Import Prelude Bytes Mem Uio Device.

Definition LHD_REG_NSECT : Z := 0.
Definition LHD_REG_STAT : Z := 4.
Definition LHD_REG_SECT : Z := 8.

Definition LHD_IDLE : Z := 0.
Definition LHD_WORKING : Z := 1.
Definition LHD_OK : Z := 4.
Definition LHD_INVSECT : Z := 12.
Definition LHD_MEDIA : Z := 20.
Definition LHD_ISWRITE : Z := 2.
Definition LHD_STATEMASK : Z := 0x1d.

Definition LHD_SECTSIZE : Z := 512.

(** The card: reading and writing registers, the buffer, and the state it
    is in when it raises its next interrupt. *)
Class LhdCard (W : Type) := {
  card_rdreg : Z → W → Z;
  card_wreg : Z → Z → W → W;
  card_buf : W → list Z;
  card_setbuf : list Z → W → W;
  card_wait : W → W;
}.

(** struct lhd_softc; [lh_clear] and [lh_done] are the semaphores' counts. *)
Record lhd_softc (W : Type) := Lhd {
  lh_card : W;
  lh_result : Z;
  lh_clear : Z;
  lh_done : Z;
  lh_blocks : Z;
}.
Arguments Lhd {W} _ _ _ _ _.
Arguments lh_card {W} _.
Arguments lh_result {W} _.
Arguments lh_clear {W} _.
Arguments lh_done {W} _.
Arguments lh_blocks {W} _.

Section Driver.
Context {W : Type} `{LhdCard W}.
Implicit Types lh : lhd_softc W.

Definition set_card (w : W) lh : lhd_softc W :=
  Lhd w (lh_result lh) (lh_clear lh) (lh_done lh) (lh_blocks lh).
Definition set_clear (n : Z) lh : lhd_softc W :=
  Lhd (lh_card lh) (lh_result lh) n (lh_done lh) (lh_blocks lh).
Definition set_done (n : Z) lh : lhd_softc W :=
  Lhd (lh_card lh) (lh_result lh) (lh_clear lh) n (lh_blocks lh).

Definition lhd_rdreg lh (reg : Z) : Z := card_rdreg reg (lh_card lh).
Definition lhd_wreg lh (reg val : Z) : lhd_softc W := set_card (card_wreg reg val (lh_card lh)) lh.

Definition lhd_code_to_errno (code : Z) : Z :=
  let state := Z.land code LHD_STATEMASK in
  if state =? LHD_OK then 0
  else if state =? LHD_INVSECT then EINVAL
  else if state =? LHD_MEDIA then EIO
  else EAGAIN.

(** lhd_iodone: save the result, V(lh_done). *)
Definition lhd_iodone lh (err : Z) : lhd_softc W :=
  Lhd (lh_card lh) err (lh_clear lh) (lh_done lh + 1) (lh_blocks lh).

Definition lhd_irq lh : lhd_softc W :=
  let val := lhd_rdreg lh LHD_REG_STAT in
  let state := Z.land val LHD_STATEMASK in
  if (state =? LHD_OK) || (state =? LHD_INVSECT) || (state =? LHD_MEDIA) then
    lhd_iodone (lhd_wreg lh LHD_REG_STAT 0) (lhd_code_to_errno val)
  else lh.

Definition lhd_open : Z := 0.
Definition lhd_close : Z := 0.
Definition lhd_ioctl : Z := EIOCTL.

(** P(lh_clear). *)
Definition P_clear lh : outcome (lhd_softc W) :=
  if lh_clear lh =? 0 then Diverge else Done (set_clear (lh_clear lh - 1) lh).
(** V(lh_clear). *)
Definition V_clear lh : lhd_softc W := set_clear (lh_clear lh + 1) lh.
(** P(lh_done): sleep until the card interrupts. *)
Definition P_done lh : outcome (lhd_softc W) :=
  let lh := if lh_done lh =? 0 then lhd_irq (set_card (card_wait (lh_card lh)) lh) else lh in
  if lh_done lh =? 0 then Diverge else Done (set_done (lh_done lh - 1) lh).

(** One sector of lhd_io. *)
Definition lhd_io_sector (sect statval : Z) (u : uio) lh (ue : uenv)
  : outcome (Z * uio * lhd_softc W * uenv) :=
  lh ← P_clear lh;
  '(result, u, lh, ue) ←
    (if decide (uio_rw u = UIO_WRITE) then
       '(result, buf, u, ue) ← uiomove (card_buf (lh_card lh)) LHD_SECTSIZE u ue;
       Done (result, u, set_card (card_setbuf buf (lh_card lh)) lh, ue)
     else Done (0, u, lh, ue));
  if negb (result =? 0) then Done (result, u, V_clear lh, ue)
  else
    let lh := lhd_wreg lh LHD_REG_SECT sect in
    let lh := lhd_wreg lh LHD_REG_STAT statval in
    lh ← P_done lh;
    let result := lh_result lh in
    '(result, u, ue) ←
      (if (result =? 0) && bool_decide (uio_rw u = UIO_READ) then
         '(result, _, u, ue) ← uiomove (card_buf (lh_card lh)) LHD_SECTSIZE u ue;
         Done (result, u, ue)
       else Done (result, u, ue));
    Done (result, u, V_clear lh, ue).

(** The loop over the sectors, [n] of them from [sect] on. *)
Fixpoint lhd_io_loop (n : nat) (sect statval : Z) (u : uio) lh (ue : uenv)
  : outcome (Z * uio * lhd_softc W * uenv) :=
  match n with
  | O => Done (0, u, lh, ue)
  | S n =>
      '(result, u, lh, ue) ← lhd_io_sector sect statval u lh ue;
      if negb (result =? 0) then Done (result, u, lh, ue)
      else lhd_io_loop n (u32 (sect + 1)) statval u lh ue
  end.

Definition lhd_io (u : uio) lh (ue : uenv) : outcome (Z * uio * lhd_softc W * uenv) :=
  let sect := u32 (Z.quot (uio_offset u) LHD_SECTSIZE) in
  let sectoff := u32 (Z.rem (uio_offset u) LHD_SECTSIZE) in
  let len := uio_resid u / LHD_SECTSIZE in
  let lenoff := uio_resid u mod LHD_SECTSIZE in
  if negb (sectoff =? 0) || negb (lenoff =? 0) then Done (EINVAL, u, lh, ue)
  else if u32 (sect + len) >? lh_blocks lh then Done (EINVAL, u, lh, ue)
  else
    let statval :=
      if decide (uio_rw u = UIO_WRITE) then Z.lor LHD_WORKING LHD_ISWRITE else LHD_WORKING in
    lhd_io_loop (Z.to_nat len) sect statval u lh ue.

(** config_lhd, once its semaphores could be made. *)
Definition config_lhd (w : W) : lhd_softc W := Lhd w 0 1 0 (card_rdreg LHD_REG_NSECT w).
End Driver.

#[global] Instance lhd_device W `{LhdCard W} : Device (lhd_softc W) := {
  d_blocks := lh_blocks;
  d_blocksize := λ _, LHD_SECTSIZE;
  d_io := lhd_io;
}.

(** ** A card in good order *)

Class LhdCardLaws (W : Type) `{LhdCard W} := {
  (** Idle and without faults. *)
  card_ok : W → Prop;
  card_sector : W → Z → list Z;
  card_nsect w : card_ok w → 0 ≤ card_rdreg LHD_REG_NSECT w < 2 ^ 32;
  card_buf_length w : card_ok w → length (card_buf w) = 512%nat;
  card_sector_length w s :
    card_ok w → 0 ≤ s < card_rdreg LHD_REG_NSECT w → length (card_sector w s) = 512%nat;
  (** A read started on a sector ends with LHD_OK and the sector in the
      buffer. *)
  card_read w s :
    card_ok w → 0 ≤ s < card_rdreg LHD_REG_NSECT w →
    let w1 := card_wait (card_wreg LHD_REG_STAT LHD_WORKING (card_wreg LHD_REG_SECT s w)) in
    let w2 := card_wreg LHD_REG_STAT 0 w1 in
    Z.land (card_rdreg LHD_REG_STAT w1) LHD_STATEMASK = LHD_OK ∧
    card_ok w2 ∧ card_rdreg LHD_REG_NSECT w2 = card_rdreg LHD_REG_NSECT w ∧
    card_buf w2 = card_sector w s ∧ ∀ t, card_sector w2 t = card_sector w t;
  (** A write started on a sector ends with LHD_OK and the buffer in the
      sector. *)
  card_write w s buf :
    card_ok w → 0 ≤ s < card_rdreg LHD_REG_NSECT w → length buf = 512%nat →
    let w1 := card_wait (card_wreg LHD_REG_STAT (Z.lor LHD_WORKING LHD_ISWRITE)
                (card_wreg LHD_REG_SECT s (card_setbuf buf w))) in
    let w2 := card_wreg LHD_REG_STAT 0 w1 in
    Z.land (card_rdreg LHD_REG_STAT w1) LHD_STATEMASK = LHD_OK ∧
    card_ok w2 ∧ card_rdreg LHD_REG_NSECT w2 = card_rdreg LHD_REG_NSECT w ∧
    ∀ t, card_sector w2 t = if decide (t = s) then buf else card_sector w t;
}.

Section Disk.
Context {W : Type} `{LhdCardLaws W}.
Implicit Types lh : lhd_softc W.

(** The driver between requests. *)
Definition lhd_ok lh : Prop :=
  card_ok (lh_card lh) ∧ lh_clear lh = 1 ∧ lh_done lh = 0 ∧
  lh_blocks lh = card_rdreg LHD_REG_NSECT (lh_card lh).

Lemma lhd_ok_blocks lh : lhd_ok lh → lh_blocks lh < 2 ^ 32.
Proof. intros (Hw & _ & _ & ->). by apply card_nsect. Qed.

(** Waiting for a request that the medium fails. *)
Lemma P_done_media lh w :
  lh_done lh = 0 → w = card_wait (lh_card lh) →
  Z.land (card_rdreg LHD_REG_STAT w) LHD_STATEMASK = LHD_MEDIA →
  P_done lh = Done (Lhd (card_wreg LHD_REG_STAT 0 w) EIO (lh_clear lh) 0 (lh_blocks lh)).
Proof.
  intros Hd -> Hst. unfold P_done. rewrite Hd. cbn [Z.eqb].
  unfold lhd_irq, lhd_rdreg. cbn [lh_card set_card]. rewrite Hst. cbn.
  unfold lhd_code_to_errno. rewrite Hst. cbn. rewrite Hd. done.
Qed.

(** Waiting for a request that ends well. *)
Lemma P_done_ok lh w :
  lh_done lh = 0 → w = card_wait (lh_card lh) →
  Z.land (card_rdreg LHD_REG_STAT w) LHD_STATEMASK = LHD_OK →
  P_done lh = Done (Lhd (card_wreg LHD_REG_STAT 0 w) 0 (lh_clear lh) 0 (lh_blocks lh)).
Proof.
  intros Hd -> Hst. unfold P_done. rewrite Hd. cbn [Z.eqb].
  unfold lhd_irq, lhd_rdreg. cbn [lh_card set_card]. rewrite Hst. cbn.
  unfold lhd_code_to_errno. rewrite Hst. cbn. rewrite Hd. done.
Qed.

(** An aligned request for one sector goes to that sector. *)
Lemma lhd_io_one u lh ue s :
  lh_blocks lh < 2 ^ 32 → uio_ok u ue → uio_resid u = SECTSIZE → 0 ≤ s < lh_blocks lh →
  uio_offset u = s * SECTSIZE →
  lhd_io u lh ue =
    ('(result, u, lh, ue) ← lhd_io_sector s
       (if decide (uio_rw u = UIO_WRITE) then Z.lor LHD_WORKING LHD_ISWRITE else LHD_WORKING) u lh ue;
     Done (result, u, lh, ue)).
Proof.
  intros Hbl Hok Hres Hs Hoff.
  assert (Hr : -2 ^ 31 ≤ uio_offset u < 2 ^ 31).
  { destruct Hok as (_ & _ & <- & _). apply s32_range. }
  unfold lhd_io. change LHD_SECTSIZE with SECTSIZE. rewrite Hres, Hoff.
  rewrite Z.quot_mul, Z.rem_mul by done. change (SECTSIZE / SECTSIZE) with 1.
  change (SECTSIZE mod SECTSIZE) with 0. change (u32 0) with 0. cbn [Z.eqb negb orb].
  unfold SECTSIZE in *. rewrite (u32_id s) by lia.
  assert ((u32 (s + 1) >? lh_blocks lh) = false) as -> by (rewrite u32_id by lia; lia).
  change (Z.to_nat 1) with 1%nat. cbn [lhd_io_loop].
  destruct (lhd_io_sector _ _ _ _ _) as [[[[r u'] lh'] ue']| | |]; cbn; try done.
  destruct (Z.eqb_spec r 0) as [->|]; done.
Qed.

(** A write that the medium fails has used up the uio. *)
Lemma lhd_write_media lh s u ue w1 :
  lh_blocks lh < 2 ^ 32 → length (card_buf (lh_card lh)) = 512%nat → lh_clear lh = 1 → lh_done lh = 0 →
  uio_ok u ue → uio_rw u = UIO_WRITE → uio_resid u = SECTSIZE → 0 ≤ s < lh_blocks lh → uio_offset u = s * SECTSIZE →
  w1 = card_wait (card_wreg LHD_REG_STAT (Z.lor LHD_WORKING LHD_ISWRITE)
         (card_wreg LHD_REG_SECT s (card_setbuf (source u ue 512) (lh_card lh)))) →
  Z.land (card_rdreg LHD_REG_STAT w1) LHD_STATEMASK = LHD_MEDIA →
  lhd_io u lh ue = Done (EIO, consume u SECTSIZE, Lhd (card_wreg LHD_REG_STAT 0 w1) EIO 1 0 (lh_blocks lh), ue).
Proof.
  intros Hbl Hbuf Hc Hd Hok Hrw Hres Hs Hoff -> Hst. rewrite (lhd_io_one _ _ _ s) by done. rewrite decide_True by done.
  destruct (uiomove_source (card_buf (lh_card lh)) 512 u ue) as [Hmove Hsl]; [done|done|rewrite Hres; done|lia|].
  change (Z.of_nat 512) with SECTSIZE in Hmove. rewrite splice_whole in Hmove by lia.
  unfold lhd_io_sector, P_clear. rewrite Hc. cbn [Z.eqb mbind outcome_bind].
  rewrite decide_True by done. cbn [lh_card set_clear]. change LHD_SECTSIZE with SECTSIZE.
  rewrite Hmove. cbn [mbind outcome_bind Z.eqb negb].
  erewrite P_done_media; [|exact Hd|done|exact Hst]. done.
Qed.

(** A request for nothing does nothing. *)
Lemma lhd_io_none lh s u ue :
  lh_blocks lh < 2 ^ 31 → uio_resid u = 0 → 0 ≤ s ≤ lh_blocks lh → uio_offset u = s * SECTSIZE →
  lhd_io u lh ue = Done (0, u, lh, ue).
Proof.
  intros Hbl Hres Hs Hoff. unfold lhd_io. change LHD_SECTSIZE with SECTSIZE. rewrite Hres, Hoff.
  rewrite Z.quot_mul, Z.rem_mul by done. change (u32 0) with 0. cbn [Z.eqb negb orb Z.div Z.modulo].
  change (0 / SECTSIZE) with 0. change (0 mod SECTSIZE) with 0. cbn [Z.eqb negb orb]. rewrite Z.add_0_r, (u32_id s), (u32_id s) by lia.
  assert ((s >? lh_blocks lh) = false) as -> by lia. done.
Qed.

Lemma lhd_read lh s u ue :
  lhd_ok lh → uio_ok u ue → uio_rw u = UIO_READ → uio_resid u = SECTSIZE →
  0 ≤ s < lh_blocks lh → uio_offset u = s * SECTSIZE →
  ∃ lh', lhd_io u lh ue = Done (0, (deliver u ue (card_sector (lh_card lh) s)).1, lh',
                                (deliver u ue (card_sector (lh_card lh) s)).2) ∧
    lhd_ok lh' ∧ lh_blocks lh' = lh_blocks lh ∧
    ∀ t, card_sector (lh_card lh') t = card_sector (lh_card lh) t.
Proof.
  intros Hlh Hok Hrw Hres Hs Hoff. rewrite (lhd_io_one _ _ _ s) by (by try apply lhd_ok_blocks).
  destruct Hlh as (Hw & Hc & Hd & Hbl). rewrite decide_False by by rewrite Hrw.
  destruct (card_read (lh_card lh) s Hw) as (Hst & Hw2 & Hn2 & Hbuf & Hsec); [lia|].
  pose proof (card_sector_length _ s Hw ltac:(lia)) as Hlen.
  unfold lhd_io_sector, P_clear. rewrite Hc. cbn [Z.eqb mbind outcome_bind].
  rewrite decide_False by by rewrite Hrw. cbn [mbind outcome_bind Z.eqb negb].
  erewrite P_done_ok; [|exact Hd|done|exact Hst].
  cbn [mbind outcome_bind lh_result lh_card lh_clear lh_blocks lhd_wreg set_card set_clear Z.eqb andb]. rewrite bool_decide_true by done. rewrite Hbuf.
  pose proof (uiomove_deliver (card_sector (lh_card lh) s) [] u ue Hok Hrw) as Hmove.
  rewrite app_nil_r, Hlen in Hmove. change (Z.of_nat 512) with SECTSIZE in Hmove.
  change LHD_SECTSIZE with SECTSIZE. rewrite Hmove by lia. cbn [mbind outcome_bind].
  eexists. split; [done|]. split_and!; try done. split_and!; [done..|]. cbn. congruence.
Qed.

Lemma lhd_write lh s u ue :
  lhd_ok lh → uio_ok u ue → uio_rw u = UIO_WRITE → uio_resid u = SECTSIZE →
  0 ≤ s < lh_blocks lh → uio_offset u = s * SECTSIZE →
  ∃ lh', lhd_io u lh ue = Done (0, consume u SECTSIZE, lh', ue) ∧
    lhd_ok lh' ∧ lh_blocks lh' = lh_blocks lh ∧
    ∀ t, card_sector (lh_card lh') t =
         if decide (t = s) then source u ue 512 else card_sector (lh_card lh) t.
Proof.
  intros Hlh Hok Hrw Hres Hs Hoff. rewrite (lhd_io_one _ _ _ s) by (by try apply lhd_ok_blocks).
  destruct Hlh as (Hw & Hc & Hd & Hbl). rewrite decide_True by done.
  pose proof (card_buf_length _ Hw) as Hbl2.
  destruct (uiomove_source (card_buf (lh_card lh)) 512 u ue) as [Hmove Hsl]; [done|done|..].
  { rewrite Hres. done. } { lia. }
  change (Z.of_nat 512) with SECTSIZE in Hmove. rewrite splice_whole in Hmove by lia.
  destruct (card_write (lh_card lh) s (source u ue 512) Hw) as (Hst & Hw2 & Hn2 & Hsec); [lia|done|].
  unfold lhd_io_sector, P_clear. rewrite Hc. cbn [Z.eqb mbind outcome_bind].
  rewrite decide_True by done. cbn [lh_card set_clear]. change LHD_SECTSIZE with SECTSIZE.
  rewrite Hmove. cbn [mbind outcome_bind Z.eqb negb].
  erewrite P_done_ok; [|exact Hd|done|exact Hst].
  cbn [mbind outcome_bind lh_result lh_card lh_clear lh_blocks lhd_wreg set_card set_clear Z.eqb andb].
  destruct (consume_fields u ue SECTSIZE Hok) as (_ & _ & Hrw2); [rewrite Hres; done|].
  rewrite bool_decide_false by by rewrite Hrw2, Hrw. cbn [mbind outcome_bind].
  eexists. split; [done|]. split_and!; try done. split_and!; [done..|]. cbn. congruence.
Qed.
End Disk.

#[global] Instance lhd_disk W `{LhdCardLaws W} : DiskLaws (lhd_softc W).
Proof.
  refine {| disk_ok := lhd_ok; sector := λ lh s, card_sector (lh_card lh) s |}.
  - intros lh (Hw & _ & _ & Hbl). cbn. rewrite Hbl. by apply card_nsect.
  - done.
  - intros lh s (Hw & _ & _ & Hbl) Hs. cbn in Hs. apply card_sector_length; [done|lia].
  - intros lh s u ue. apply lhd_read.
  - intros lh s u ue. apply lhd_write.
Defined.
