(* ===== verification/Sfs.v ===== *)
(** * The SFS file system: blocks and file I/O (kern/fs/sfs: sfs_io.c and the
    first half of sfs_vnode.c; kern/include/kern/sfs.h)

    The state of one mounted volume: struct sfs_fs with its device, free
    map and table of vnodes, the vnodes in memory by address, the kernel
    heap and the memory of the current process.  Structures that go to disk
    are encoded into blocks of bytes.  The file system runs one operation
    at a time (it has no locks of its own, and static buffers); the count
    lock of a vnode is therefore always free when it is taken and only its
    allocation is kept.  Static and stack buffers are values: all of them
    are filled before they are used. *)

From S2P Require Import Prelude Ram Kheap KheapSpec KArray Bitmap Bytes Mem CString Uio Device.

Definition SFS_MAGIC : Z := 0xabadf001.
Definition SFS_BLOCKSIZE : Z := 512.
Definition SFS_VOLNAME_SIZE : nat := 32.
Definition SFS_NDIRECT : Z := 15.
Definition SFS_DBPERIDB : Z := 128.
Definition SFS_NAMELEN : Z := 60.
Definition SFS_SB_LOCATION : Z := 0.
Definition SFS_ROOT_LOCATION : Z := 1.
Definition SFS_MAP_LOCATION : Z := 2.
Definition SFS_NOINO : Z := 0.
Definition SFS_BLOCKBITS : Z := SFS_BLOCKSIZE * 8.
Definition SFS_ROUNDUP (a b : Z) : Z := u32 (u32 (a + b - 1) / b * b).
Definition SFS_BITMAPSIZE (nblocks : Z) : Z := SFS_ROUNDUP nblocks SFS_BLOCKBITS.
Definition SFS_BITBLOCKS (nblocks : Z) : Z := SFS_BITMAPSIZE nblocks / SFS_BLOCKBITS.
Definition SFS_TYPE_INVAL : Z := 0.
Definition SFS_TYPE_FILE : Z := 1.
Definition SFS_TYPE_DIR : Z := 2.

Definition O_ACCMODE : Z := 3.
Definition O_RDONLY : Z := 0.
Definition O_APPEND : Z := 32.
Definition S_IFREG : Z := 0x1000.
Definition S_IFDIR : Z := 0x2000.

(** ** On-disk structures *)

Record sfs_super := Super {
  sp_magic : Z;
  sp_nblocks : Z;
  sp_volname : list Z;
  sp_reserved : list Z;
}.

Record sfs_inode := Inode {
  sfi_size : Z;
  sfi_type : Z;
  sfi_linkcount : Z;
  sfi_direct : list Z;
  sfi_indirect : Z;
  sfi_waste : list Z;
}.

Record sfs_dir := Dir { sfd_ino : Z; sfd_name : list Z }.

Definition super_bytes (s : sfs_super) : list Z :=
  be32 (sp_magic s) ++ be32 (sp_nblocks s) ++ sp_volname s ++ be32s (sp_reserved s).
Definition super_of (b : list Z) : sfs_super :=
  Super (be_value (slice b 0 4)) (be_value (slice b 4 4)) (slice b 8 32) (words_of 118 (drop 40 b)).

Definition inode_bytes (i : sfs_inode) : list Z :=
  be32 (sfi_size i) ++ be16 (sfi_type i) ++ be16 (sfi_linkcount i) ++
  be32s (sfi_direct i) ++ be32 (sfi_indirect i) ++ be32s (sfi_waste i).
Definition inode_of (b : list Z) : sfs_inode :=
  Inode (be_value (slice b 0 4)) (be_value (slice b 4 2)) (be_value (slice b 6 2))
        (words_of 15 (drop 8 b)) (be_value (slice b 68 4)) (words_of 110 (drop 72 b)).

Definition SIZEOF_DIR : Z := 64.
Definition dir_bytes (d : sfs_dir) : list Z := be32 (sfd_ino d) ++ sfd_name d.
Definition dir_of (b : list Z) : sfs_dir := Dir (be_value (slice b 0 4)) (slice b 4 60).

(** ** State *)

(** Which function table a vnode has. *)
Inductive vnode_ops := sfs_fileops | sfs_dirops.

(** struct sfs_vnode with its struct vnode; the count lock is the block of
    the lock and the block of its name. *)
Record sfs_vnode := Vnode {
  vn_refcount : Z;
  vn_opencount : Z;
  vn_countlock : Z * Z;
  vn_ops : vnode_ops;
  sv_i : sfs_inode;
  sv_ino : Z;
  sv_dirty : bool;
}.

Definition SIZEOF_SFS_VNODE : Z := 544.
Definition SIZEOF_SFS_FS : Z := 552.
Definition SIZEOF_LOCK : Z := 8.
(** The length of the name of a count lock. *)
Definition COUNTLOCK_NAME : Z := 15.

(** [s_pool] has the vnodes in memory by address. *)
Record sfs (D H : Type) := Sfs {
  s_self : Z;
  s_super : sfs_super;
  s_superdirty : bool;
  s_device : D;
  s_vnodes : array Z;
  s_freemap : bitmap;
  s_freemapdirty : bool;
  s_pool : gmap Z sfs_vnode;
  s_heap : H;
  s_user : uenv;
}.
Arguments Sfs {D H} _ _ _ _ _ _ _ _ _ _.
Arguments s_self {D H} _.
Arguments s_super {D H} _.
Arguments s_superdirty {D H} _.
Arguments s_device {D H} _.
Arguments s_vnodes {D H} _.
Arguments s_freemap {D H} _.
Arguments s_freemapdirty {D H} _.
Arguments s_pool {D H} _.
Arguments s_heap {D H} _.
Arguments s_user {D H} _.

(** State and outcome. *)
Definition F (D H A : Type) : Type := sfs D H → outcome (A * sfs D H).
#[global] Instance F_ret D H : MRet (F D H) := λ A a s, Done (a, s).
#[global] Instance F_bind D H : MBind (F D H) := λ A B f m s, '(a, s) ← m s; f a s.

Declare Scope sfs_scope.
Delimit Scope sfs_scope with sfs.
(** result = m; if (result) return result; *)
Definition bindR {D H A B} (m : F D H (res A)) (f : A → F D H (res B)) : F D H (res B) :=
  r ← m; match r with Err e => mret (Err e) | Ok a => f a end.
Notation "x ←? m ; k" := (bindR m (λ x, k))
  (at level 20, m at level 100, k at level 200, right associativity) : sfs_scope.
Notation "' x ←? m ; k" := (bindR m (λ x, k))
  (at level 20, x pattern, m at level 100, k at level 200, right associativity, only parsing) : sfs_scope.
Open Scope sfs_scope.

Section Operations.
Context {D H : Type} `{Device D} `{KHeap H}.
Abbreviation M := (F D H).

Definition getF {A} (f : sfs D H → A) : M A := λ s, Done (f s, s).
Definition modF (f : sfs D H → sfs D H) : M unit := λ s, Done (tt, f s).
Definition liftF {A} (m : outcome A) : M A := λ s, a ← m; Done (a, s).
Definition assertF (b : bool) : M unit := liftF (kassert b).
Definition panicF {A} : M A := λ _, Panic.
Definition faultF {A} : M A := λ _, Fault.
Definition divergeF {A} : M A := λ _, Diverge.
Definition derefF {A} (o : option A) : M A :=
  match o with Some a => mret a | None => faultF end.

Definition set_super (x : sfs_super) (s : sfs D H) : sfs D H :=
  Sfs (s_self s) x (s_superdirty s) (s_device s) (s_vnodes s) (s_freemap s) (s_freemapdirty s)
      (s_pool s) (s_heap s) (s_user s).
Definition set_superdirty (x : bool) (s : sfs D H) : sfs D H :=
  Sfs (s_self s) (s_super s) x (s_device s) (s_vnodes s) (s_freemap s) (s_freemapdirty s)
      (s_pool s) (s_heap s) (s_user s).
Definition set_device (x : D) (y : uenv) (s : sfs D H) : sfs D H :=
  Sfs (s_self s) (s_super s) (s_superdirty s) x (s_vnodes s) (s_freemap s) (s_freemapdirty s)
      (s_pool s) (s_heap s) y.
Definition set_vnodes (x : array Z) (s : sfs D H) : sfs D H :=
  Sfs (s_self s) (s_super s) (s_superdirty s) (s_device s) x (s_freemap s) (s_freemapdirty s)
      (s_pool s) (s_heap s) (s_user s).
Definition set_freemap (x : bitmap) (s : sfs D H) : sfs D H :=
  Sfs (s_self s) (s_super s) (s_superdirty s) (s_device s) (s_vnodes s) x (s_freemapdirty s)
      (s_pool s) (s_heap s) (s_user s).
Definition set_freemapdirty (x : bool) (s : sfs D H) : sfs D H :=
  Sfs (s_self s) (s_super s) (s_superdirty s) (s_device s) (s_vnodes s) (s_freemap s) x
      (s_pool s) (s_heap s) (s_user s).
Definition set_pool (x : gmap Z sfs_vnode) (s : sfs D H) : sfs D H :=
  Sfs (s_self s) (s_super s) (s_superdirty s) (s_device s) (s_vnodes s) (s_freemap s)
      (s_freemapdirty s) x (s_heap s) (s_user s).
Definition set_heapF (x : H) (s : sfs D H) : sfs D H :=
  Sfs (s_self s) (s_super s) (s_superdirty s) (s_device s) (s_vnodes s) (s_freemap s)
      (s_freemapdirty s) (s_pool s) x (s_user s).

(** The vnode at an address, which must be one. *)
Definition get_sv (p : Z) : M sfs_vnode :=
  pool ← getF s_pool; derefF (pool !! p).
Definition put_sv (p : Z) (sv : sfs_vnode) : M unit :=
  modF (λ s, set_pool (<[p := sv]> (s_pool s)) s).

Definition set_inode (i : sfs_inode) (dirty : bool) (sv : sfs_vnode) : sfs_vnode :=
  Vnode (vn_refcount sv) (vn_opencount sv) (vn_countlock sv) (vn_ops sv) i (sv_ino sv) dirty.
Definition set_refcount (n : Z) (sv : sfs_vnode) : sfs_vnode :=
  Vnode n (vn_opencount sv) (vn_countlock sv) (vn_ops sv) (sv_i sv) (sv_ino sv) (sv_dirty sv).
Definition set_opencount (n : Z) (sv : sfs_vnode) : sfs_vnode :=
  Vnode (vn_refcount sv) n (vn_countlock sv) (vn_ops sv) (sv_i sv) (sv_ino sv) (sv_dirty sv).

Definition set_size (n : Z) (i : sfs_inode) : sfs_inode :=
  Inode n (sfi_type i) (sfi_linkcount i) (sfi_direct i) (sfi_indirect i) (sfi_waste i).
Definition set_type (n : Z) (i : sfs_inode) : sfs_inode :=
  Inode (sfi_size i) n (sfi_linkcount i) (sfi_direct i) (sfi_indirect i) (sfi_waste i).
Definition set_linkcount (n : Z) (i : sfs_inode) : sfs_inode :=
  Inode (sfi_size i) (sfi_type i) n (sfi_direct i) (sfi_indirect i) (sfi_waste i).
Definition set_direct (k : nat) (n : Z) (i : sfs_inode) : sfs_inode :=
  Inode (sfi_size i) (sfi_type i) (sfi_linkcount i) (<[k := n]> (sfi_direct i)) (sfi_indirect i)
        (sfi_waste i).
Definition set_indirect (n : Z) (i : sfs_inode) : sfs_inode :=
  Inode (sfi_size i) (sfi_type i) (sfi_linkcount i) (sfi_direct i) n (sfi_waste i).

Definition kmallocF (n : Z) : M (option Z) := λ s,
  '(r, h) ← kmalloc n (s_heap s);
  Done (r, set_heapF h s).
Definition kfreeF (a : Z) : M unit := λ s,
  h ← kfree a (s_heap s);
  Done (tt, set_heapF h s).

(** ** Block I/O (sfs_io.c) *)

(** sfs->sfs_device->d_io *)
Definition device_io (u : uio) : M (Z * uio) := λ s,
  '(result, u, d, ue) ← d_io u (s_device s) (s_user s);
  Done (result, u, set_device d ue s).

(** From the label [retry]; [tries] retries have been made. *)
Fixpoint rwblock_from (fuel : nat) (tries : Z) (u : uio) : M (Z * uio) :=
  match fuel with
  | O => divergeF
  | S fuel =>
      '(result, u) ← device_io u;
      if result =? EINVAL then panicF
      else if result =? EIO then
        if tries =? 0 then rwblock_from fuel (tries + 1) u
        else if tries <? 10 then rwblock_from fuel (tries + 1) u
        else mret (result, u)
      else mret (result, u)
  end.

(** Ten retries at most: eleven rounds are enough. *)
Definition sfs_rwblock (u : uio) : M (Z * uio) := rwblock_from 11 0 u.

(** SFSUIO: the offset of a block must fit an off_t. *)
Definition SFSUIO (data : list Z) (block : Z) (rw : uio_rw_t) : outcome uio :=
  let off := s32 block * SFS_BLOCKSIZE in
  if (- 2 ^ 31 <=? off) && (off <? 2 ^ 31) then Done (mk_kuio data SFS_BLOCKSIZE off rw) else Fault.

(** The kernel buffer a uio points to. *)
Definition kbuf (u : uio) : list Z := match iov u with Kbase buf _ => buf | Ubase _ => [] end.

(** The result is the buffer after the read. *)
Definition sfs_rblock (data : list Z) (block : Z) : M (res (list Z)) :=
  ku ← liftF (SFSUIO data block UIO_READ);
  '(result, ku) ← sfs_rwblock ku;
  mret (if result =? 0 then Ok (kbuf ku) else Err result).

Definition sfs_wblock (data : list Z) (block : Z) : M (res unit) :=
  ku ← liftF (SFSUIO data block UIO_WRITE);
  '(result, _) ← sfs_rwblock ku;
  mret (if result =? 0 then Ok tt else Err result).

(** A buffer whose contents are about to be overwritten. *)
Definition blank_block : list Z := replicate 512 0.

(** ** Space allocation *)

Definition sfs_clearblock (block : Z) : M (res unit) := sfs_wblock (replicate 512 0) block.

Definition sfs_sync_inode (p : Z) : M (res unit) :=
  sv ← get_sv p;
  if sv_dirty sv then
    _ ←? sfs_wblock (inode_bytes (sv_i sv)) (sv_ino sv);
    put_sv p (set_inode (sv_i sv) false sv);;
    mret (Ok tt)
  else mret (Ok tt).

Definition sfs_balloc : M (res Z) :=
  b ← getF s_freemap;
  '(result, block, b) ← liftF (bitmap_alloc b);
  match block with
  | None => mret (Err result)
  | Some block =>
      modF (set_freemap b);;
      modF (set_freemapdirty true);;
      sb ← getF s_super;
      if block >=? sp_nblocks sb then panicF
      else
        _ ←? sfs_clearblock block;
        mret (Ok block)
  end.

Definition sfs_bfree (diskblock : Z) : M unit :=
  b ← getF s_freemap;
  b ← liftF (bitmap_unmark b diskblock);
  modF (set_freemap b);;
  modF (set_freemapdirty true).

Definition sfs_bused (diskblock : Z) : M bool :=
  sb ← getF s_super;
  if diskblock >=? sp_nblocks sb then panicF
  else
    b ← getF s_freemap;
    r ← liftF (bitmap_isset b diskblock);
    mret (negb (r =? 0)).

(** if (block != 0 && !sfs_bused(sfs, block)) panic *)
Definition check_used (block : Z) : M unit :=
  if block =? 0 then mret tt
  else
    used ← sfs_bused block;
    if (used : bool) then mret tt else panicF.

(** ** Block mapping *)

(** The first branch of sfs_bmap. *)
Definition bmap_direct (p fileblock : Z) (doalloc : bool) : M (res Z) :=
  sv ← get_sv p;
  block ← derefF (sfi_direct (sv_i sv) !! Z.to_nat fileblock);
  block ←? (if (block =? 0) && doalloc then
              block ←? sfs_balloc;
              sv ← get_sv p;
              put_sv p (set_inode (set_direct (Z.to_nat fileblock) block (sv_i sv)) true sv);;
              mret (Ok block)
            else mret (Ok block));
  check_used block;;
  mret (Ok block).

(** The indirect block of sfs_bmap once it is known to exist: its number
    and the contents of idbuf. *)
Definition bmap_entry (idblock : Z) (idbuf : list Z) (idoff : Z) (doalloc : bool) : M (res Z) :=
  block ← derefF (idbuf !! Z.to_nat idoff);
  block ←? (if (block =? 0) && doalloc then
              block ←? sfs_balloc;
              _ ←? sfs_wblock (be32s (<[Z.to_nat idoff := block]> idbuf)) idblock;
              mret (Ok block)
            else mret (Ok block));
  check_used block;;
  mret (Ok block).

Definition sfs_bmap (p fileblock : Z) (doalloc : bool) : M (res Z) :=
  if fileblock <? SFS_NDIRECT then bmap_direct p fileblock doalloc
  else
    let fileblock := fileblock - SFS_NDIRECT in
    let idnum := fileblock / SFS_DBPERIDB in
    let idoff := fileblock mod SFS_DBPERIDB in
    if idnum >? 0 then mret (Err EINVAL)
    else
      sv ← get_sv p;
      let idblock := sfi_indirect (sv_i sv) in
      if (idblock =? 0) && negb doalloc then mret (Ok 0)
      else if idblock =? 0 then
        idblock ←? sfs_balloc;
        sv ← get_sv p;
        put_sv p (set_inode (set_indirect idblock (sv_i sv)) true sv);;
        bmap_entry idblock (replicate 128 0) idoff doalloc
      else
        idbuf ←? sfs_rblock blank_block idblock;
        bmap_entry idblock (words_of 128 idbuf) idoff doalloc.

(** ** File I/O

    The routines update the caller's uio on every path, so that they return
    it with the code. *)

(** uiomove and uiomovezeros on the memory of the current process. *)
Definition uiomoveF (ptr : list Z) (n : Z) (u : uio) : M (Z * list Z * uio) := λ s,
  '(result, ptr, u, ue) ← uiomove ptr n u (s_user s);
  Done (result, ptr, u, set_device (s_device s) ue s).
Definition uiomovezerosF (n : Z) (u : uio) : M (Z * uio) := λ s,
  '(result, u, ue) ← uiomovezeros n u (s_user s);
  Done (result, u, set_device (s_device s) ue s).

Definition is_write (u : uio) : bool := bool_decide (uio_rw u = UIO_WRITE).

(** u_int32_t fileblock = uio->uio_offset / SFS_BLOCKSIZE *)
Definition uio_block (u : uio) : Z := u32 (Z.quot (uio_offset u) SFS_BLOCKSIZE).

(** The rest of sfs_partialio, with the block in iobuf. *)
Definition partial_transfer (iobuf : list Z) (diskblock skipstart len : Z) (u : uio) : M (Z * uio) :=
  '(result, tail, u) ← uiomoveF (drop (Z.to_nat skipstart) iobuf) len u;
  if negb (result =? 0) then mret (result, u)
  else if is_write u then
    r ← sfs_wblock (take (Z.to_nat skipstart) iobuf ++ tail) diskblock;
    match r with Err e => mret (e, u) | Ok _ => mret (0, u) end
  else mret (0, u).

Definition sfs_partialio (p : Z) (u : uio) (skipstart len : Z) : M (Z * uio) :=
  let doalloc := is_write u in
  assertF (u32 (skipstart + len) <=? SFS_BLOCKSIZE);;
  r ← sfs_bmap p (uio_block u) doalloc;
  match r with
  | Err e => mret (e, u)
  | Ok diskblock =>
      if diskblock =? 0 then
        assertF (negb (is_write u));;
        partial_transfer (replicate 512 0) diskblock skipstart len u
      else
        r ← sfs_rblock blank_block diskblock;
        match r with
        | Err e => mret (e, u)
        | Ok iobuf => partial_transfer iobuf diskblock skipstart len u
        end
  end.

Definition set_offres (off resid : Z) (u : uio) : uio :=
  Uio (iov u) (iov_len u) off resid (uio_segflg u) (uio_rw u) (uio_space u).

Definition sfs_blockio (p : Z) (u : uio) : M (Z * uio) :=
  let doalloc := is_write u in
  r ← sfs_bmap p (uio_block u) doalloc;
  match r with
  | Err e => mret (e, u)
  | Ok diskblock =>
      if diskblock =? 0 then
        assertF (negb (is_write u));;
        uiomovezerosF SFS_BLOCKSIZE u
      else
        let saveoff := uio_offset u in
        let diskoff := s32 (diskblock * SFS_BLOCKSIZE) in
        assertF (uio_resid u >=? SFS_BLOCKSIZE);;
        let saveres := s32 (uio_resid u) in
        let diskres := SFS_BLOCKSIZE in
        '(result, u) ← sfs_rwblock (set_offres diskoff diskres u);
        mret (result, set_offres (s32 (uio_offset u - diskoff + saveoff))
                                 (u32 (uio_resid u - diskres + saveres)) u)
  end.

(** for (i=0; i<nblocks; i++) sfs_blockio *)
Fixpoint blockio_loop (n : nat) (p : Z) (u : uio) : M (Z * uio) :=
  match n with
  | O => mret (0, u)
  | S n =>
      '(result, u) ← sfs_blockio p u;
      if negb (result =? 0) then mret (result, u) else blockio_loop n p u
  end.

(** From the leading partial block to the label [out]. *)
Definition io_body (p : Z) (u : uio) : M (Z * uio) :=
  let blkoff := u32 (Z.rem (uio_offset u) SFS_BLOCKSIZE) in
  '(result, u) ←
    (if negb (blkoff =? 0) then
       let skip := blkoff in
       let len := u32 (SFS_BLOCKSIZE - blkoff) in
       let len := if len >? uio_resid u then uio_resid u else len in
       sfs_partialio p u skip len
     else mret (0, u));
  if negb (result =? 0) then mret (result, u)
  else if uio_resid u =? 0 then mret (0, u)
  else
    assertF (Z.rem (uio_offset u) SFS_BLOCKSIZE =? 0);;
    let nblocks := uio_resid u / SFS_BLOCKSIZE in
    '(result, u) ← blockio_loop (Z.to_nat nblocks) p u;
    if negb (result =? 0) then mret (result, u)
    else
      assertF (uio_resid u <? SFS_BLOCKSIZE);;
      if uio_resid u >? 0 then sfs_partialio p u 0 (uio_resid u) else mret (0, u).

(** out: adjust the file length, add back what was past the end. *)
Definition io_out (p result extraresid : Z) (u : uio) : M (Z * uio) :=
  sv ← get_sv p;
  (if is_write u && (uio_offset u >? s32 (sfi_size (sv_i sv))) then
     put_sv p (set_inode (set_size (u32 (uio_offset u)) (sv_i sv)) true sv)
   else mret tt);;
  mret (result, set_offres (uio_offset u) (u32 (uio_resid u + extraresid)) u).

Definition sfs_io (p : Z) (u : uio) : M (Z * uio) :=
  sv ← get_sv p;
  if is_write u then
    '(result, u) ← io_body p u;
    io_out p result 0 u
  else
    let size := s32 (sfi_size (sv_i sv)) in
    let endpos := s32 (uio_offset u + uio_resid u) in
    if uio_offset u >=? size then mret (0, u)
    else
      let extraresid := if endpos >? size then u32 (endpos - size) else 0 in
      (if endpos >? size then assertF (uio_resid u >? extraresid) else mret tt);;
      '(result, u) ← io_body p (set_offres (uio_offset u) (uio_resid u - extraresid) u);
      io_out p result extraresid u.
End Operations.
