(* ===== verification/SfsOps.v ===== *)
(** * The SFS file system: directories, vnodes and volumes (kern/fs/sfs: the
    second half of sfs_vnode.c, sfs_fs.c; the vnode counts of
    kern/fs/vfs/vnode.c)

    Every vnode operation of a file and of the directory, loading and
    reclaiming vnodes, and mounting, syncing and unmounting a volume. *)

From S2P Require Import Prelude Ram Kheap KheapSpec KArray Bitmap Bytes Mem CString Uio Device Sfs.

Section Operations.
Context {D H : Type} `{Device D} `{KHeap H}.
Abbreviation M := (F D H).

(** ** Directory I/O *)

(** slot * sizeof(struct sfs_dir) *)
Definition slot_pos (slot : Z) : Z := s32 (slot * SIZEOF_DIR).

Definition sfs_readdir (p slot : Z) : M (res sfs_dir) :=
  '(result, ku) ← sfs_io p (mk_kuio (replicate 64 0) SIZEOF_DIR (slot_pos slot) UIO_READ);
  if negb (result =? 0) then mret (Err result)
  else if uio_resid ku >? 0 then panicF
  else mret (Ok (dir_of (kbuf ku))).

Definition sfs_writedir (p : Z) (sd : sfs_dir) (slot : Z) : M (res unit) :=
  assertF (slot >=? 0);;
  '(result, ku) ← sfs_io p (mk_kuio (dir_bytes sd) SIZEOF_DIR (slot_pos slot) UIO_WRITE);
  if negb (result =? 0) then mret (Err result)
  else if uio_resid ku >? 0 then panicF
  else mret (Ok tt).

Definition sfs_dir_nentries (p : Z) : M Z :=
  sv ← get_sv p;
  assertF (sfi_type (sv_i sv) =? SFS_TYPE_DIR);;
  let size := s32 (sfi_size (sv_i sv)) in
  if negb (u32 size mod SIZEOF_DIR =? 0) then panicF
  else mret (s32 (u32 size / SIZEOF_DIR)).

(** What sfs_dir_findname hands back through its pointers: the inode and
    slot of the name, and the last empty slot seen. *)
Record findname := Find { f_found : option (Z * Z); f_empty : Z }.

(** The loop of sfs_dir_findname from slot [i], [n] slots left. *)
Fixpoint findname_from (n : nat) (i p : Z) (name : list Z) (f : findname) : M (Z * findname) :=
  match n with
  | O => mret (if decide (f_found f = None) then ENOENT else 0, f)
  | S n =>
      r ← sfs_readdir p i;
      match r with
      | Err e => mret (e, f)
      | Ok tsd =>
          if sfd_ino tsd =? SFS_NOINO then findname_from n (i + 1) p name (Find (f_found f) i)
          else
            let sfd_name := <[Z.to_nat (SFS_NAMELEN - 1) := 0]> (sfd_name tsd) in
            c ← liftF (strcmp sfd_name name);
            if c =? 0 then
              assertF (bool_decide (f_found f = None));;
              findname_from n (i + 1) p name (Find (Some (sfd_ino tsd, i)) (f_empty f))
            else findname_from n (i + 1) p name f
      end
  end.

Definition sfs_dir_findname (p : Z) (name : list Z) : M (Z * findname) :=
  nentries ← sfs_dir_nentries p;
  findname_from (Z.to_nat nentries) 0 p name (Find None (-1)).

(** Hands back the slot. *)
Definition sfs_dir_link (p : Z) (name : list Z) (ino : Z) : M (res Z) :=
  '(result, f) ← sfs_dir_findname p name;
  if negb (result =? 0) && negb (result =? ENOENT) then mret (Err result)
  else if result =? 0 then mret (Err EEXIST)
  else
    len ← liftF (strlen name);
    if len + 1 >? SFS_NAMELEN then mret (Err ENAMETOOLONG)
    else
      emptyslot ← (if f_empty f <? 0 then sfs_dir_nentries p else mret (f_empty f));
      sfd_name ← liftF (strcpy (replicate (Z.to_nat SFS_NAMELEN) 0) name);
      _ ←? sfs_writedir p (Dir ino sfd_name) emptyslot;
      mret (Ok emptyslot).

Definition sfs_dir_unlink (p slot : Z) : M (res unit) :=
  sfs_writedir p (Dir SFS_NOINO (replicate (Z.to_nat SFS_NAMELEN) 0)) slot.

(** ** Vnode counts (vnode.c)

    The count lock is taken and released inside each routine. *)

(** lock_create for the count lock. *)
Definition countlock_create : M (option (Z * Z)) :=
  l ← kmallocF SIZEOF_LOCK;
  match l with
  | None => mret None
  | Some l =>
      name ← kmallocF (COUNTLOCK_NAME + 1);
      match name with
      | None => kfreeF l;; mret None
      | Some name => mret (Some (l, name))
      end
  end.

(** lock_destroy: the name, then the lock. *)
Definition countlock_destroy (l : Z * Z) : M unit := kfreeF l.2;; kfreeF l.1.

(** vnode_check; the null and deadbeef tests concern pointers that the
    model cannot hold. *)
Definition vnode_check (p : Z) (reclaim : bool) : M unit :=
  sv ← get_sv p;
  if vn_refcount sv <? 0 then panicF
  else if (vn_refcount sv =? 0) && negb reclaim then panicF
  else if vn_opencount sv <? 0 then panicF
  else mret tt.

Definition vnode_incref (p : Z) : M unit :=
  sv ← get_sv p;
  put_sv p (set_refcount (vn_refcount sv + 1) sv).

Definition vnode_incopen (p : Z) : M unit :=
  sv ← get_sv p;
  put_sv p (set_opencount (vn_opencount sv + 1) sv).

(** vnode_kill, of a vnode that is about to be freed. *)
Definition vnode_kill (p : Z) : M unit :=
  sv ← get_sv p;
  assertF (vn_refcount sv =? 1);;
  assertF (vn_opencount sv =? 0);;
  countlock_destroy (vn_countlock sv).

(** ** Loading vnodes *)

(** The search of the vnode table from index [i], [n] entries left. *)
Fixpoint find_loaded (n : nat) (i ino : Z) : M (option Z) :=
  match n with
  | O => mret None
  | S n =>
      a ← getF s_vnodes;
      p ← liftF (array_getguy a i);
      sv ← get_sv p;
      used ← sfs_bused (sv_ino sv);
      if negb used then panicF
      else if sv_ino sv =? ino then mret (Some p)
      else find_loaded n (i + 1) ino
  end.

(** Choose the function table. *)
Definition choose_ops (type : Z) : M vnode_ops :=
  if type =? SFS_TYPE_FILE then mret sfs_fileops
  else if type =? SFS_TYPE_DIR then mret sfs_dirops
  else panicF.

(** kfree(sv): the structure is gone. *)
Definition free_sv (p : Z) : M unit :=
  modF (λ s, set_pool (delete p (s_pool s)) s);;
  kfreeF p.

(** sfs_loadvnode from the point where the inode has been read. *)
Definition load_inode (p ino forcetype : Z) (i : sfs_inode) : M (res Z) :=
  i ← (if forcetype =? SFS_TYPE_INVAL then mret i
       else assertF (sfi_type i =? SFS_TYPE_INVAL);; mret (set_type forcetype i));
  let dirty := negb (forcetype =? SFS_TYPE_INVAL) in
  ops ← choose_ops (sfi_type i);
  l ← countlock_create;
  match l with
  | None => kfreeF p;; mret (Err ENOMEM)
  | Some l =>
      put_sv p (Vnode 1 0 l ops i ino dirty);;
      a ← getF s_vnodes;
      h ← getF s_heap;
      '(result, a, h) ← liftF (array_add a p h);
      modF (set_vnodes a);;
      modF (set_heapF h);;
      if negb (result =? 0) then
        vnode_kill p;;
        free_sv p;;
        mret (Err result)
      else mret (Ok p)
  end.

Definition sfs_loadvnode (ino forcetype : Z) : M (res Z) :=
  a ← getF s_vnodes;
  found ← find_loaded (Z.to_nat (array_getnum a)) 0 ino;
  match found with
  | Some p =>
      assertF (forcetype =? SFS_TYPE_INVAL);;
      vnode_incref p;;
      mret (Ok p)
  | None =>
      p ← kmallocF SIZEOF_SFS_VNODE;
      match p with
      | None => mret (Err ENOMEM)
      | Some p =>
          used ← sfs_bused ino;
          if negb used then panicF
          else
            r ← sfs_rblock blank_block ino;
            match r with
            | Err e => kfreeF p;; mret (Err e)
            | Ok b => load_inode p ino forcetype (inode_of b)
            end
      end
  end.

(** The vnode of the root directory. *)
Definition sfs_getroot : M Z :=
  r ← sfs_loadvnode SFS_ROOT_LOCATION SFS_TYPE_INVAL;
  match r with Err _ => panicF | Ok p => mret p end.

(** The vnode found and its slot. *)
Definition sfs_lookonce (p : Z) (name : list Z) : M (res (Z * Z)) :=
  '(result, f) ← sfs_dir_findname p name;
  if negb (result =? 0) then mret (Err result)
  else
    '(ino, slot) ← derefF (f_found f);
    v ←? sfs_loadvnode ino SFS_TYPE_INVAL;
    sv ← get_sv v;
    if sfi_linkcount (sv_i sv) =? 0 then panicF else mret (Ok (v, slot)).

Definition sfs_makeobj (type : Z) : M (res Z) :=
  ino ←? sfs_balloc;
  sfs_loadvnode ino type.

(** ** Truncation and disposal *)

(** for (i=0; i<SFS_NDIRECT; i++) discard direct blocks past [blocklen];
    [n] entries left. *)
Fixpoint truncate_direct (n : nat) (i : Z) (p blocklen : Z) : M unit :=
  match n with
  | O => mret tt
  | S n =>
      sv ← get_sv p;
      block ← derefF (sfi_direct (sv_i sv) !! Z.to_nat i);
      (if (i >=? blocklen) && negb (block =? 0) then
         sfs_bfree block;;
         sv ← get_sv p;
         put_sv p (set_inode (set_direct (Z.to_nat i) 0 (sv_i sv)) true sv)
       else mret tt);;
      truncate_direct n (i + 1) p blocklen
  end.

(** for (j=0; j<SFS_DBPERIDB; j++): the new contents of idbuf, and the
    flags hasnonzero and iddirty. *)
Fixpoint truncate_indirect (idbuf : list Z) (j blocklen baseblock : Z)
  : M (list Z * bool * bool) :=
  match idbuf with
  | [] => mret ([], false, false)
  | b :: idbuf =>
      let drop := (blocklen <? baseblock + j) && negb (b =? 0) in
      (if drop then sfs_bfree b else mret tt);;
      let b := if drop then 0 else b in
      '(idbuf, hasnonzero, iddirty) ← truncate_indirect idbuf (j + 1) blocklen baseblock;
      mret (b :: idbuf, negb (b =? 0) || hasnonzero, drop || iddirty)
  end.

(** The length in blocks: DIVROUNDUP on an off_t. *)
Definition block_length (len : Z) : outcome Z :=
  if len + (SFS_BLOCKSIZE - 1) <? 2 ^ 31
  then Done (u32 (Z.quot (len + (SFS_BLOCKSIZE - 1)) SFS_BLOCKSIZE)) else Fault.

Definition sfs_truncate (p len : Z) : M (res unit) :=
  blocklen ← liftF (block_length len);
  truncate_direct (Z.to_nat SFS_NDIRECT) 0 p blocklen;;
  sv ← get_sv p;
  let idblock := sfi_indirect (sv_i sv) in
  let baseblock := SFS_NDIRECT in
  let highblock := baseblock + SFS_DBPERIDB - 1 in
  _ ←? (if (blocklen <? highblock) && negb (idblock =? 0) then
          idbuf ←? sfs_rblock blank_block idblock;
          '(idbuf, hasnonzero, iddirty) ← truncate_indirect (words_of 128 idbuf) 0 blocklen baseblock;
          if negb hasnonzero then
            sfs_bfree idblock;;
            sv ← get_sv p;
            put_sv p (set_inode (set_indirect 0 (sv_i sv)) true sv);;
            mret (Ok tt)
          else if (iddirty : bool) then sfs_wblock (be32s idbuf) idblock
          else mret (Ok tt)
        else mret (Ok tt));
  sv ← get_sv p;
  put_sv p (set_inode (set_size (u32 len) (sv_i sv)) true sv);;
  mret (Ok tt).

(** VOP_TRUNCATE: directories refuse. *)
Definition vop_truncate (p len : Z) : M (res unit) :=
  vnode_check p false;;
  sv ← get_sv p;
  match vn_ops sv with sfs_fileops => sfs_truncate p len | sfs_dirops => mret (Err EISDIR) end.

(** The search for the vnode in the table, [n] entries left. *)
Fixpoint find_index (n : nat) (i p : Z) : M (option Z) :=
  match n with
  | O => mret None
  | S n =>
      a ← getF s_vnodes;
      p2 ← liftF (array_getguy a i);
      if p2 =? p then mret (Some i) else find_index n (i + 1) p
  end.

Definition sfs_reclaim (p : Z) : M (res unit) :=
  sv ← get_sv p;
  if negb (vn_refcount sv =? 1) then
    assertF (vn_refcount sv >? 1);;
    put_sv p (set_refcount (vn_refcount sv - 1) sv);;
    mret (Err EBUSY)
  else
    _ ←? (if sfi_linkcount (sv_i sv) =? 0 then vop_truncate p 0 else mret (Ok tt));
    _ ←? sfs_sync_inode p;
    sv ← get_sv p;
    (if sfi_linkcount (sv_i sv) =? 0 then sfs_bfree (sv_ino sv) else mret tt);;
    a ← getF s_vnodes;
    ix ← find_index (Z.to_nat (array_getnum a)) 0 p;
    match ix with
    | None => panicF
    | Some ix =>
        a ← liftF (array_remove a ix);
        modF (set_vnodes a);;
        vnode_kill p;;
        free_sv p;;
        mret (Ok tt)
    end.

Definition vnode_decref (p : Z) : M unit :=
  sv ← get_sv p;
  assertF (vn_refcount sv >? 0);;
  if vn_refcount sv >? 1 then put_sv p (set_refcount (vn_refcount sv - 1) sv)
  else
    vnode_check p true;;
    _ ← sfs_reclaim p;
    mret tt.

(** VOP_FSYNC and VOP_CLOSE are the same for files and directories. *)
Definition sfs_fsync (p : Z) : M (res unit) := sfs_sync_inode p.
Definition vop_fsync (p : Z) : M (res unit) := vnode_check p false;; sfs_fsync p.
Definition sfs_close (p : Z) : M (res unit) := vop_fsync p.

Definition vnode_decopen (p : Z) : M unit :=
  sv ← get_sv p;
  assertF (vn_opencount sv >? 0);;
  put_sv p (set_opencount (vn_opencount sv - 1) sv);;
  if vn_opencount sv - 1 >? 0 then mret tt
  else
    vnode_check p false;;
    _ ← sfs_close p;
    mret tt.

(** ** Vnode operations *)

Definition sfs_open (openflags : Z) : Z :=
  if negb (Z.land openflags O_APPEND =? 0) then EUNIMP else 0.

Definition sfs_opendir (openflags : Z) : Z :=
  if negb (Z.land openflags O_ACCMODE =? O_RDONLY) then EISDIR
  else if negb (Z.land openflags O_APPEND =? 0) then EISDIR
  else 0.

Definition sfs_read (p : Z) (u : uio) : M (Z * uio) :=
  assertF (bool_decide (uio_rw u = UIO_READ));; sfs_io p u.
Definition sfs_write (p : Z) (u : uio) : M (Z * uio) :=
  assertF (bool_decide (uio_rw u = UIO_WRITE));; sfs_io p u.

Definition sfs_ioctl : Z := EINVAL.
Definition sfs_mmap : Z := EUNIMP.
Definition sfs_tryseek (pos : Z) : Z := if pos <? 0 then EINVAL else 0.
Definition sfs_notdir : Z := ENOTDIR.
Definition sfs_isdir : Z := EISDIR.
Definition sfs_unimp : Z := EUNIMP.

Definition sfs_gettype (p : Z) : M (res Z) :=
  sv ← get_sv p;
  if sfi_type (sv_i sv) =? SFS_TYPE_FILE then mret (Ok S_IFREG)
  else if sfi_type (sv_i sv) =? SFS_TYPE_DIR then mret (Ok S_IFDIR)
  else panicF.

(** The fields of struct stat that are set. *)
Record stat := Stat { st_mode : Z; st_size : Z; st_nlink : Z; st_blocks : Z }.

Definition sfs_stat (p : Z) : M (res stat) :=
  sv ← get_sv p;
  vnode_check p false;;
  mode ←? sfs_gettype p;
  mret (Ok (Stat mode (s32 (sfi_size (sv_i sv))) 0 0)).

(** Nothing is written to the uio. *)
Definition sfs_namefile (p : Z) (u : uio) : M (Z * uio) :=
  sv ← get_sv p;
  assertF (sv_ino sv =? SFS_ROOT_LOCATION);;
  mret (0, u).

(** newguy->sv_i.sfi_linkcount++ and --, in 16 bits. *)
Definition add_link (v : Z) (n : Z) (dirty : bool) : M unit :=
  sv ← get_sv v;
  put_sv v (set_inode (set_linkcount (u16 (sfi_linkcount (sv_i sv) + n)) (sv_i sv))
                      (dirty || sv_dirty sv) sv).

Definition sfs_creat (p : Z) (name : list Z) (excl : bool) : M (res Z) :=
  '(result, f) ← sfs_dir_findname p name;
  if negb (result =? 0) && negb (result =? ENOENT) then mret (Err result)
  else if (result =? 0) && excl then mret (Err EEXIST)
  else if result =? 0 then
    '(ino, _) ← derefF (f_found f);
    sfs_loadvnode ino SFS_TYPE_INVAL
  else
    newguy ←? sfs_makeobj SFS_TYPE_FILE;
    sv ← get_sv newguy;
    r ← sfs_dir_link p name (sv_ino sv);
    match r with
    | Err e => vnode_decref newguy;; mret (Err e)
    | Ok _ => add_link newguy 1 true;; mret (Ok newguy)
    end.

(** Both vnodes belong to this file system. *)
Definition sfs_link (dir : Z) (name : list Z) (file : Z) : M (res unit) :=
  f ← get_sv file;
  _ ←? sfs_dir_link dir name (sv_ino f);
  add_link file 1 true;;
  mret (Ok tt).

Definition sfs_remove (dir : Z) (name : list Z) : M (res unit) :=
  '(victim, slot) ←? sfs_lookonce dir name;
  r ← sfs_dir_unlink dir slot;
  (match r with
   | Ok _ =>
       sv ← get_sv victim;
       assertF (sfi_linkcount (sv_i sv) >? 0);;
       add_link victim (-1) true
   | Err _ => mret tt
   end);;
  vnode_decref victim;;
  mret r.

Definition sfs_rename (d1 : Z) (n1 : list Z) (d2 : Z) (n2 : list Z) : M (res unit) :=
  assertF (d1 =? d2);;
  sv ← get_sv d1;
  assertF (sv_ino sv =? SFS_ROOT_LOCATION);;
  '(g1, slot1) ←? sfs_lookonce d1 n1;
  g ← get_sv g1;
  assertF (sfi_type (sv_i g) =? SFS_TYPE_FILE);;
  r ← sfs_dir_link d1 n2 (sv_ino g);
  match r with
  | Err e => vnode_decref g1;; mret (Err e)
  | Ok slot2 =>
      add_link g1 1 true;;
      r ← sfs_dir_unlink d1 slot1;
      match r with
      | Ok _ =>
          g ← get_sv g1;
          assertF (sfi_linkcount (sv_i g) >? 0);;
          add_link g1 (-1) true;;
          vnode_decref g1;;
          mret (Ok tt)
      | Err e =>
          r2 ← sfs_dir_unlink d1 slot2;
          match r2 with
          | Err _ => panicF
          | Ok _ =>
              add_link g1 (-1) false;;
              vnode_decref g1;;
              mret (Err e)
          end
      end
  end.

(** The directory, and the name copied to the caller's buffer. *)
Definition sfs_lookparent (p : Z) (path buf : list Z) (buflen : Z) : M (res (Z * list Z)) :=
  sv ← get_sv p;
  if negb (sfi_type (sv_i sv) =? SFS_TYPE_DIR) then mret (Err ENOTDIR)
  else
    len ← liftF (strlen path);
    if len + 1 >? buflen then mret (Err ENAMETOOLONG)
    else
      buf ← liftF (strcpy buf path);
      vnode_incref p;;
      mret (Ok (p, buf)).

Definition sfs_lookup (p : Z) (path : list Z) : M (res Z) :=
  sv ← get_sv p;
  if negb (sfi_type (sv_i sv) =? SFS_TYPE_DIR) then mret (Err ENOTDIR)
  else
    '(final, _) ←? sfs_lookonce p path;
    mret (Ok final).

(** ** The file system (sfs_fs.c) *)

(** The loop of sfs_mapio over the sectors of the map from [j] on. *)
Fixpoint mapio_from (n : nat) (j : Z) (rw : uio_rw_t) : M (res unit) :=
  match n with
  | O => mret (Ok tt)
  | S n =>
      b ← getF s_freemap;
      ptr ← liftF (fetch (bitmap_getdata b) (j * SFS_BLOCKSIZE) SFS_BLOCKSIZE);
      _ ←? (match rw with
            | UIO_READ =>
                x ←? sfs_rblock ptr (SFS_MAP_LOCATION + j);
                v ← liftF (patch (bitmap_getdata b) (j * SFS_BLOCKSIZE) x);
                modF (set_freemap (Bitmap (b_self b) (b_nbits b) (b_addr b) v));;
                mret (Ok tt)
            | UIO_WRITE => sfs_wblock ptr (SFS_MAP_LOCATION + j)
            end);
      mapio_from n (j + 1) rw
  end.

Definition sfs_mapio (rw : uio_rw_t) : M (res unit) :=
  sb ← getF s_super;
  mapio_from (Z.to_nat (SFS_BITBLOCKS (sp_nblocks sb))) 0 rw.

(** VOP_FSYNC on every vnode of the table from [i] on; errors are ignored. *)
Fixpoint sync_vnodes (n : nat) (i : Z) : M unit :=
  match n with
  | O => mret tt
  | S n =>
      a ← getF s_vnodes;
      p ← liftF (array_getguy a i);
      _ ← vop_fsync p;
      sync_vnodes n (i + 1)
  end.

Definition sfs_sync : M (res unit) :=
  a ← getF s_vnodes;
  sync_vnodes (Z.to_nat (array_getnum a)) 0;;
  dirty ← getF s_freemapdirty;
  _ ←? (if (dirty : bool) then
          _ ←? sfs_mapio UIO_WRITE;
          modF (set_freemapdirty false);;
          mret (Ok tt)
        else mret (Ok tt));
  dirty ← getF s_superdirty;
  if (dirty : bool) then
    sb ← getF s_super;
    _ ←? sfs_wblock (super_bytes sb) SFS_SB_LOCATION;
    modF (set_superdirty false);;
    mret (Ok tt)
  else mret (Ok tt).

Definition sfs_getvolname : M (list Z) := sb ← getF s_super; mret (sp_volname sb).

(** On success the structures are gone; only device, heap and user memory
    of the state mean anything then. *)
Definition sfs_unmount : M (res unit) :=
  a ← getF s_vnodes;
  if array_getnum a >? 0 then mret (Err EBUSY)
  else
    sd ← getF s_superdirty;
    assertF (negb sd);;
    fd ← getF s_freemapdirty;
    assertF (negb fd);;
    h ← getF s_heap;
    h ← liftF (array_destroy a h);
    b ← getF s_freemap;
    h ← liftF (bitmap_destroy b h);
    modF (set_heapF h);;
    self ← getF s_self;
    kfreeF self;;
    mret (Ok tt).
End Operations.

Section Mount.
Context {D H : Type} `{Device D} `{KHeap H}.

(** Destroy the table and the structure after a failure. *)
Definition mount_fail (e : Z) (a : array Z) (self : Z) (d : D) (h : H) (ue : uenv)
  : outcome (res (sfs D H) * (D * H * uenv)) :=
  h ← array_destroy a h;
  h ← kfree self h;
  Done (Err e, (d, h, ue)).

(** sfs_domount: on success the state of the mounted volume; in any case
    the device, the heap and the user memory. *)
Definition sfs_domount (d : D) (h : H) (ue : uenv) : outcome (res (sfs D H) * (D * H * uenv)) :=
  if negb (d_blocksize d =? SFS_BLOCKSIZE) then Done (Err ENXIO, (d, h, ue))
  else
    '(self, h) ← kmalloc SIZEOF_SFS_FS h;
    match self with
    | None => Done (Err ENOMEM, (d, h, ue))
    | Some self =>
        '(a, h) ← array_create h;
        match a with
        | None => h ← kfree self h; Done (Err ENOMEM, (d, h, ue))
        | Some a =>
            let s0 := Sfs self (Super 0 0 [] []) false d a (Bitmap 0 0 0 []) false ∅ h ue in
            '(r, s) ← sfs_rblock blank_block SFS_SB_LOCATION s0;
            match r with
            | Err e => mount_fail e a self (s_device s) (s_heap s) (s_user s)
            | Ok b =>
                let sb := super_of b in
                if negb (sp_magic sb =? SFS_MAGIC) then
                  mount_fail EINVAL a self (s_device s) (s_heap s) (s_user s)
                else
                  let sb := Super (sp_magic sb) (sp_nblocks sb) (<[31%nat := 0]> (sp_volname sb))
                                  (sp_reserved sb) in
                  '(m, h) ← bitmap_create (SFS_BITMAPSIZE (sp_nblocks sb)) (s_heap s);
                  match m with
                  | None => mount_fail ENOMEM a self (s_device s) h (s_user s)
                  | Some m =>
                      let s := Sfs self sb false (s_device s) a m false ∅ h (s_user s) in
                      '(r, s) ← sfs_mapio UIO_READ s;
                      match r with
                      | Err e =>
                          h ← bitmap_destroy (s_freemap s) (s_heap s);
                          mount_fail e a self (s_device s) h (s_user s)
                      | Ok _ => Done (Ok s, (s_device s, s_heap s, s_user s))
                      end
                  end
            end
        end
    end.
End Mount.
