(* ===== verification/SfsSpec.v ===== *)
(** * SFS: the disk as a set of files

    The invariant that keeps a volume in order (every block in use is marked
    and belongs to one file), the abstract view of a volume (its files with
    size, type, link count and bytes), and what the block layer does to
    both. *)

From S2P Require Import Prelude Ram Kheap KheapSpec KArray Bitmap Bytes Mem CString Uio Device Sfs.

(** ** Running code to the end *)

Definition runs {D H A} (m : F D H A) (s : sfs D H) (Q : A → sfs D H → Prop) : Prop :=
  ∃ a s', m s = Done (a, s') ∧ Q a s'.

Section Runs.
Context {D H : Type}.
Implicit Types s : sfs D H.

Lemma bindF_run {A B} (m : F D H A) (f : A → F D H B) s a s' :
  m s = Done (a, s') → (m ≫= f) s = f a s'.
Proof. unfold mbind at 1, F_bind. by intros ->. Qed.

Lemma bindR_ok {A B} (m : F D H (res A)) (f : A → F D H (res B)) s a s' :
  m s = Done (Ok a, s') → bindR m f s = f a s'.
Proof. intros Hm. unfold bindR. by rewrite (bindF_run _ _ _ _ _ Hm). Qed.

Lemma bindR_err {A B} (m : F D H (res A)) (f : A → F D H (res B)) s e s' :
  m s = Done (Err e, s') → bindR m f s = Done (Err e, s').
Proof. intros Hm. unfold bindR. by rewrite (bindF_run _ _ _ _ _ Hm). Qed.

Lemma runs_ret {A} (a : A) s (Q : A → sfs D H → Prop) : Q a s → runs (mret (M := F D H) a) s Q.
Proof. intros HQ. by exists a, s. Qed.

Lemma runs_bind {A B} (m : F D H A) (f : A → F D H B) s Q :
  runs m s (λ a s', runs (f a) s' Q) → runs (m ≫= f) s Q.
Proof.
  intros (a & s' & Hm & b & s'' & Hf & HQ). exists b, s''. split; [|done].
  unfold mbind, F_bind. by rewrite Hm.
Qed.

Lemma runs_bindR {A B} (m : F D H (res A)) (f : A → F D H (res B)) s Q :
  runs m s (λ r s', match r with Err e => Q (Err e) s' | Ok a => runs (f a) s' Q end) →
  runs (bindR m f) s Q.
Proof.
  intros (r & s' & Hm & HQ). apply runs_bind. exists r, s'. split; [done|].
  destruct r; [by apply runs_ret|done].
Qed.

Lemma runs_mono {A} (m : F D H A) s (Q Q' : A → sfs D H → Prop) :
  runs m s Q → (∀ a s', Q a s' → Q' a s') → runs m s Q'.
Proof. intros (a & s' & Hm & HQ) Himp. exists a, s'. auto. Qed.

Lemma runs_get {A} (f : sfs D H → A) s (Q : A → sfs D H → Prop) : Q (f s) s → runs (getF f) s Q.
Proof. intros. by exists (f s), s. Qed.

Lemma runs_mod (f : sfs D H → sfs D H) s (Q : () → sfs D H → Prop) : Q tt (f s) → runs (modF f) s Q.
Proof. intros. by exists tt, (f s). Qed.

Lemma runs_lift {A} (m : outcome A) a s (Q : A → sfs D H → Prop) :
  m = Done a → Q a s → runs (liftF m) s Q.
Proof. intros -> HQ. by exists a, s. Qed.

Lemma runs_assert b s (Q : () → sfs D H → Prop) : b = true → Q tt s → runs (assertF b) s Q.
Proof. intros ->. by apply runs_lift. Qed.

Lemma runs_deref {A} (o : option A) a s (Q : A → sfs D H → Prop) :
  o = Some a → Q a s → runs (derefF o) s Q.
Proof. intros ->. apply runs_ret. Qed.

Lemma runs_get_sv p sv s (Q : sfs_vnode → sfs D H → Prop) :
  s_pool s !! p = Some sv → Q sv s → runs (get_sv p) s Q.
Proof. intros Hp HQ. apply runs_bind, runs_get. by eapply runs_deref. Qed.

Lemma runs_put_sv p sv s (Q : () → sfs D H → Prop) :
  Q tt (set_pool (<[p := sv]> (s_pool s)) s) → runs (put_sv p sv) s Q.
Proof. apply runs_mod. Qed.
End Runs.

Section Blocks.
Context {D H : Type} `{DiskLaws D} `{KHeap H}.
Implicit Types s : sfs D H.

(** ** Block I/O *)

Definition blk s (b : Z) : list Z := sector (s_device s) b.
Definition nblocks s : Z := sp_nblocks (s_super s).

(** The device part of the volume is in order: off_t can address every
    block. *)
Record dev_wf s : Prop := {
  dw_ok : disk_ok (s_device s);
  dw_blocks : nblocks s ≤ d_blocks (s_device s);
  dw_small : nblocks s ≤ 2 ^ 22;
}.

(** [s'] is [s] with other contents [f] of the blocks. *)
Definition redisk s s' (f : Z → list Z) : Prop :=
  ∃ d, s' = set_device d (s_user s) s ∧ disk_ok d ∧ d_blocks d = d_blocks (s_device s) ∧
       ∀ b, sector d b = f b.

Definition set_blk s (b : Z) (x : list Z) (c : Z) : list Z := if decide (c = b) then x else blk s c.

Lemma blk_length s b : dev_wf s → 0 ≤ b < nblocks s → length (blk s b) = 512%nat.
Proof. intros [Hok Hb _] ?. apply sector_length; [done|lia]. Qed.

Lemma redisk_wf s s' f : redisk s s' f → dev_wf s → dev_wf s'.
Proof.
  intros (d & -> & Hok & Hb & _) [_ Hn Hs]. constructor; cbn; [done|by rewrite Hb|done].
Qed.

Lemma SFSUIO_run data b rw :
  0 ≤ b < 2 ^ 22 → SFSUIO data b rw = Done (mk_kuio data SFS_BLOCKSIZE (b * 512) rw).
Proof.
  intros Hb. unfold SFSUIO, SFS_BLOCKSIZE. rewrite s32_id by lia.
  rewrite (proj2 (andb_true_iff _ _)); [done|]. split; lia.
Qed.

Lemma mk_kuio_ok data len off rw ue :
  0 ≤ len < 2 ^ 32 → len ≤ Z.of_nat (length data) → - 2 ^ 31 ≤ off < 2 ^ 31 →
  uio_ok (mk_kuio data len off rw) ue.
Proof. intros. unfold uio_ok. cbn. rewrite s32_id by lia. split_and!; done || lia. Qed.

(** A good disk answers at the first try. *)
Lemma rwblock_disk s u b :
  disk_ok (s_device s) → uio_ok u (s_user s) → uio_rw u = UIO_READ → uio_resid u = SECTSIZE →
  0 ≤ b < d_blocks (s_device s) → uio_offset u = b * SECTSIZE →
  ∃ d, sfs_rwblock u s =
         Done ((0, (deliver u (s_user s) (blk s b)).1),
               set_device d (deliver u (s_user s) (blk s b)).2 s) ∧
    disk_ok d ∧ d_blocks d = d_blocks (s_device s) ∧ ∀ c, sector d c = blk s c.
Proof.
  intros Hok Hu Hrw Hres Hb Hoff.
  destruct (disk_read (s_device s) b u (s_user s)) as (d & Hrun & Hd); [done..|].
  exists d. split; [|done]. unfold sfs_rwblock. generalize 10%nat. intros n. cbn [rwblock_from].
  unfold mbind, F_bind, device_io. rewrite Hrun. done.
Qed.

Lemma rwblock_read s u b :
  dev_wf s → uio_ok u (s_user s) → uio_rw u = UIO_READ → uio_resid u = SECTSIZE →
  0 ≤ b < nblocks s → uio_offset u = b * SECTSIZE →
  ∃ d, sfs_rwblock u s =
         Done ((0, (deliver u (s_user s) (blk s b)).1),
               set_device d (deliver u (s_user s) (blk s b)).2 s) ∧
    disk_ok d ∧ d_blocks d = d_blocks (s_device s) ∧ ∀ c, sector d c = blk s c.
Proof. intros [Hok Hn _] ? ? ? ?. apply rwblock_disk; [done..|lia]. Qed.

Lemma rwblock_write s u b :
  dev_wf s → uio_ok u (s_user s) → uio_rw u = UIO_WRITE → uio_resid u = SECTSIZE →
  0 ≤ b < nblocks s → uio_offset u = b * SECTSIZE →
  ∃ s', sfs_rwblock u s = Done ((0, consume u SECTSIZE), s') ∧
    redisk s s' (set_blk s b (source u (s_user s) 512)).
Proof.
  intros [Hok Hn _] Hu Hrw Hres Hb Hoff.
  destruct (disk_write (s_device s) b u (s_user s)) as (d & Hrun & Hok' & Hbl & Hsec); [done..|lia|done|].
  exists (set_device d (s_user s) s). split; [|by exists d].
  unfold sfs_rwblock. generalize 10%nat. intros n. cbn [rwblock_from]. unfold mbind, F_bind, device_io. rewrite Hrun. done.
Qed.

Lemma rblock_disk s data b :
  disk_ok (s_device s) → 0 ≤ b < d_blocks (s_device s) → b < 2 ^ 22 → length data = 512%nat →
  ∃ s', sfs_rblock data b s = Done (Ok (blk s b), s') ∧ redisk s s' (blk s).
Proof.
  intros Hok Hb Hs Hdata. pose proof (sector_length _ _ Hok Hb : length (blk s b) = 512%nat) as Hlen.
  destruct (rwblock_disk s (mk_kuio data SFS_BLOCKSIZE (b * 512) UIO_READ) b) as (d & Hrun & ? & ? & ?);
    [done|apply mk_kuio_ok; unfold SFS_BLOCKSIZE; lia|done..|].
  exists (set_device d (s_user s) s). split; [|by exists d].
  unfold sfs_rblock, liftF. unfold mbind at 1, F_bind. rewrite SFSUIO_run by lia.
  cbn [mbind outcome_bind]. unfold mbind, F_bind. rewrite Hrun. cbn.
  rewrite splice_whole by lia. done.
Qed.

Lemma rblock_run s data b :
  dev_wf s → 0 ≤ b < nblocks s → length data = 512%nat →
  ∃ s', sfs_rblock data b s = Done (Ok (blk s b), s') ∧ redisk s s' (blk s).
Proof. intros [Hok Hn Hs] Hb. apply rblock_disk; [done|lia|lia]. Qed.

Lemma wblock_run s data b :
  dev_wf s → 0 ≤ b < nblocks s → length data = 512%nat →
  ∃ s', sfs_wblock data b s = Done (Ok tt, s') ∧ redisk s s' (set_blk s b data).
Proof.
  intros Hwf Hb Hdata. pose proof (dw_small _ Hwf).
  destruct (rwblock_write s (mk_kuio data SFS_BLOCKSIZE (b * 512) UIO_WRITE) b) as (s' & Hrun & Hs');
    [done|apply mk_kuio_ok; unfold SFS_BLOCKSIZE; lia|done..|].
  exists s'. split.
  - unfold sfs_wblock, liftF. unfold mbind at 1, F_bind. rewrite SFSUIO_run by lia.
    cbn [mbind outcome_bind]. unfold mbind, F_bind. rewrite Hrun. done.
  - assert (source (mk_kuio data SFS_BLOCKSIZE (b * 512) UIO_WRITE) (s_user s) 512 = data) as E.
    { unfold source. cbn. rewrite <- Hdata. apply slice_all. }
    by rewrite E in Hs'.
Qed.
End Blocks.

(** ** Files

    The block list of an inode is its indirect block, its direct blocks and
    the entries of the indirect block; 0 is no block. *)

Definition no_inj (l : list Z) : Prop :=
  ∀ j k b, l !! j = Some b → l !! k = Some b → b ≠ 0 → j = k.

Record inode_wf (i : sfs_inode) : Prop := {
  iw_size : 0 ≤ sfi_size i < 2 ^ 31;
  iw_type : sfi_type i = SFS_TYPE_FILE ∨ sfi_type i = SFS_TYPE_DIR;
  iw_links : 0 ≤ sfi_linkcount i < 2 ^ 16;
  iw_direct : length (sfi_direct i) = 15%nat;
  iw_waste : length (sfi_waste i) = 110%nat ∧ Forall (λ w, 0 ≤ w < 2 ^ 32) (sfi_waste i);
}.

(** An abstract file: size, type, link count, and the byte at each offset
    (zero where the file has no block). *)
Record afile := AFile { af_size : Z; af_type : Z; af_links : Z; af_byte : Z → Z }.

Section Files.
Context {D H : Type} `{DiskLaws D} `{KHeap H}.
Implicit Types s : sfs D H.

Definition idtable s (i : sfs_inode) : list Z :=
  if sfi_indirect i =? 0 then replicate 128 0 else words_of 128 (blk s (sfi_indirect i)).
Definition blist s (i : sfs_inode) : list Z := sfi_indirect i :: sfi_direct i ++ idtable s i.
Definition bmapf s (i : sfs_inode) (k : Z) : Z :=
  default 0 ((sfi_direct i ++ idtable s i) !! Z.to_nat k).
Definition file_byte s (i : sfs_inode) (o : Z) : Z :=
  let b := bmapf s i (o / 512) in
  if b =? 0 then 0 else default 0 (blk s b !! Z.to_nat (o mod 512)).

Definition bitblocks s : Z := SFS_BITBLOCKS (nblocks s).
(** A block that can be an inode or belong to a file. *)
Definition valid_block s (b : Z) : Prop :=
  0 < b < nblocks s ∧ ¬ (SFS_MAP_LOCATION ≤ b < SFS_MAP_LOCATION + bitblocks s).
Definition used s (b : Z) : Prop := marked (s_freemap s) (Z.to_nat b) = true.

Record map_wf s : Prop := {
  mw_wf : bitmap_wf (s_freemap s);
  mw_bits : b_nbits (s_freemap s) = SFS_BITMAPSIZE (nblocks s);
  mw_size : 2 + bitblocks s ≤ nblocks s;
  mw_reserved b : 0 ≤ b < b_nbits (s_freemap s) → ¬ valid_block s b → used s b;
}.

(** What the mount code makes of the superblock. *)
Definition mounted_super (b : list Z) : sfs_super :=
  let sb := super_of b in Super (sp_magic sb) (sp_nblocks sb) (<[31%nat := 0]> (sp_volname sb)) (sp_reserved sb).

(** The superblock and the free map on disk are those in memory, unless the
    map is marked dirty. *)
Record meta_inv s : Prop := {
  mi_magic : sp_magic (s_super s) = SFS_MAGIC;
  mi_super : s_super s = mounted_super (blk s SFS_SB_LOCATION);
  mi_superclean : s_superdirty s = false;
  mi_map : s_freemapdirty s = true ∨
    ∀ j, 0 ≤ j < bitblocks s → blk s (SFS_MAP_LOCATION + j) = slice (b_v (s_freemap s)) (Z.to_nat (j * 512)) 512;
}.

(** The invariant of a volume whose current inodes are [files]. *)
Record disk_inv s (files : gmap Z sfs_inode) : Prop := {
  di_dev : dev_wf s;
  di_map : map_wf s;
  di_inode ino i : files !! ino = Some i →
    inode_wf i ∧ no_inj (blist s i) ∧ valid_block s ino ∧ used s ino;
  di_block ino i b : files !! ino = Some i → b ∈ blist s i → b ≠ 0 →
    valid_block s b ∧ used s b ∧ files !! b = None;
  di_own ino i ino' i' b : files !! ino = Some i → files !! ino' = Some i' →
    b ∈ blist s i → b ∈ blist s i' → b ≠ 0 → ino = ino';
  di_loaded p sv : s_pool s !! p = Some sv → files !! sv_ino sv = Some (sv_i sv);
  di_unique p p' sv sv' : s_pool s !! p = Some sv → s_pool s !! p' = Some sv' →
    sv_ino sv = sv_ino sv' → p = p';
  di_synced ino i : files !! ino = Some i →
    (∃ p sv, s_pool s !! p = Some sv ∧ sv_ino sv = ino ∧ sv_dirty sv = true) ∨
    blk s ino = inode_bytes i;
  di_meta : meta_inv s;
}.

(** The abstract file an inode stands for. *)
Definition shows s (i : sfs_inode) (v : afile) : Prop :=
  af_size v = sfi_size i ∧ af_type v = sfi_type i ∧ af_links v = sfi_linkcount i ∧
  ∀ o, 0 ≤ o → af_byte v o = file_byte s i o.

Definition views s (files : gmap Z sfs_inode) (V : gmap Z afile) : Prop :=
  ∀ ino, match files !! ino, V !! ino with
         | Some i, Some v => shows s i v
         | None, None => True
         | _, _ => False
         end.

(** What file I/O leaves alone. *)
Definition vn_same (sv sv' : sfs_vnode) : Prop :=
  vn_refcount sv' = vn_refcount sv ∧ vn_opencount sv' = vn_opencount sv ∧
  vn_countlock sv' = vn_countlock sv ∧ vn_ops sv' = vn_ops sv ∧ sv_ino sv' = sv_ino sv.

Record same_env s s' : Prop := {
  se_self : s_self s' = s_self s;
  se_super : s_super s' = s_super s;
  se_superdirty : s_superdirty s' = s_superdirty s;
  se_vnodes : s_vnodes s' = s_vnodes s;
  se_heap : s_heap s' = s_heap s;
  se_map : b_self (s_freemap s') = b_self (s_freemap s) ∧ b_addr (s_freemap s') = b_addr (s_freemap s);
  se_pool p : option_Forall2 vn_same (s_pool s !! p) (s_pool s' !! p);
}.

#[global] Instance vn_same_refl : Reflexive vn_same.
Proof. done. Qed.
#[global] Instance vn_same_trans : Transitive vn_same.
Proof. intros a b c (?&?&?&?&?) (?&?&?&?&?). repeat split; congruence. Qed.

#[global] Instance same_env_refl : Reflexive same_env.
Proof. intros s. by constructor. Qed.
#[global] Instance same_env_trans : Transitive same_env.
Proof.
  intros s1 s2 s3 [E1 E2 E3 E4 E5 [E6 E6'] E7] [G1 G2 G3 G4 G5 [G6 G6'] G7].
  constructor; try congruence; [split; congruence|]. intros p. etransitivity; [apply E7|apply G7].
Qed.

Lemma redisk_env s s' f : redisk s s' f → same_env s s'.
Proof. intros (d & -> & _). by constructor. Qed.

Lemma redisk_blk s s' f b : redisk s s' f → blk s' b = f b.
Proof. intros (d & -> & _ & _ & Hf). apply Hf. Qed.

(** *** Frame properties *)

Lemma idtable_length s i : length (idtable s i) = 128%nat.
Proof. unfold idtable. destruct (_ =? _); [apply length_replicate|apply words_of_length]. Qed.

Lemma idtable_agree s s' i :
  (sfi_indirect i ≠ 0 → blk s' (sfi_indirect i) = blk s (sfi_indirect i)) → idtable s' i = idtable s i.
Proof. intros Hi. unfold idtable. destruct (Z.eqb_spec (sfi_indirect i) 0); [done|]. by rewrite Hi. Qed.

Lemma blist_agree s s' i :
  (sfi_indirect i ≠ 0 → blk s' (sfi_indirect i) = blk s (sfi_indirect i)) → blist s' i = blist s i.
Proof. intros Hi. unfold blist. by rewrite (idtable_agree s s' i Hi). Qed.

Lemma bmapf_elem s i k : bmapf s i k ≠ 0 → bmapf s i k ∈ blist s i.
Proof.
  unfold bmapf, blist. destruct (_ !! _) as [b|] eqn:E; cbn; [|done]. intros _.
  right. by apply list_elem_of_lookup_2 in E.
Qed.

Lemma file_byte_agree s s' i o :
  (∀ b, b ∈ blist s i → b ≠ 0 → blk s' b = blk s b) → file_byte s' i o = file_byte s i o.
Proof.
  intros Hag. unfold file_byte.
  assert (bmapf s' i (o / 512) = bmapf s i (o / 512)) as ->.
  { unfold bmapf. rewrite (idtable_agree s s' i); [done|]. intros. apply Hag; [left|done]. }
  destruct (Z.eqb_spec (bmapf s i (o / 512)) 0); [done|]. rewrite Hag; [done|by apply bmapf_elem|done].
Qed.

Lemma map_block s j : 0 ≤ j < bitblocks s → ¬ valid_block s (SFS_MAP_LOCATION + j).
Proof. unfold valid_block. lia. Qed.

Lemma super_block s : ¬ valid_block s SFS_SB_LOCATION.
Proof. unfold valid_block, SFS_SB_LOCATION. lia. Qed.

Lemma meta_agree s s' :
  s_super s' = s_super s → s_superdirty s' = s_superdirty s → s_freemap s' = s_freemap s →
  s_freemapdirty s' = s_freemapdirty s → (∀ b, ¬ valid_block s b → blk s' b = blk s b) →
  meta_inv s → meta_inv s'.
Proof.
  intros Es Ed Em Ef Hb [Hm Hs Hc Hmap]. constructor.
  - by rewrite Es.
  - rewrite Es, Hb; [done|apply super_block].
  - by rewrite Ed.
  - unfold bitblocks, nblocks. rewrite Es, Ef, Em. destruct Hmap as [|Hmap]; [by left|right].
    intros j Hj. rewrite Hb by (by apply map_block). by apply Hmap.
Qed.

Lemma file_byte_hole s i o : (∀ b, b ∈ blist s i → b = 0) → file_byte s i o = 0.
Proof.
  intros Hz. unfold file_byte. destruct (Z.eqb_spec (bmapf s i (o / 512)) 0) as [|Hnz]; [done|].
  destruct Hnz. apply dec_stable. intros Hb. apply Hb, Hz, bmapf_elem, Hb.
Qed.

(** A change of contents that spares the files' blocks and inodes is not
    seen. *)
Lemma disk_inv_spare s s' files f :
  redisk s s' f → disk_inv s files →
  (∀ ino i, files !! ino = Some i → sfi_indirect i ≠ 0 → f (sfi_indirect i) = blk s (sfi_indirect i)) →
  (∀ ino i, files !! ino = Some i → f ino = blk s ino) →
  (∀ b, ¬ valid_block s b → f b = blk s b) →
  disk_inv s' files.
Proof.
  intros Hr [Hdev Hmap Hin Hbl Hown Hld Huq Hsy Hme] Hind Hino Hspare.
  assert (Hb : ∀ ino i, files !! ino = Some i → blist s' i = blist s i).
  { intros ino i Hi. apply blist_agree. intros. rewrite (redisk_blk _ _ _ _ Hr). eauto. }
  pose proof (redisk_wf _ _ _ Hr Hdev) as Hdev'.
  assert (Hsync : ∀ ino i, files !! ino = Some i → blk s' ino = blk s ino).
  { intros ino i Hi. rewrite (redisk_blk _ _ _ _ Hr). eauto. }
  assert (Hme' : meta_inv s').
  { destruct Hr as (d & -> & Hd). apply (meta_agree s); [done..| |exact Hme].
    intros b Hnv. rewrite <- Hspare by done. apply Hd. }
  destruct Hr as (d & -> & Hd). constructor.
  - exact Hdev'.
  - destruct Hmap. by constructor.
  - intros ino i Hi. rewrite (Hb _ _ Hi). by apply Hin.
  - intros ino i b Hi. rewrite (Hb _ _ Hi). apply (Hbl _ _ _ Hi).
  - intros ino i ino' i' b Hi Hi'. rewrite (Hb _ _ Hi), (Hb _ _ Hi'). apply (Hown _ _ _ _ _ Hi Hi').
  - exact Hld.
  - exact Huq.
  - intros ino i Hi. rewrite (Hsync _ _ Hi). by apply Hsy.
  - exact Hme'.
Qed.

Lemma views_spare s s' files V :
  views s files V →
  (∀ ino i b, files !! ino = Some i → b ∈ blist s i → b ≠ 0 → blk s' b = blk s b) →
  views s' files V.
Proof.
  intros HV Hag ino. specialize (HV ino).
  destruct (files !! ino) as [i|] eqn:Hi; [|exact HV]. destruct (V !! ino) as [v|]; [|exact HV].
  destruct HV as (? & ? & ? & Hby). split_and!; [assumption..|]. intros o Ho.
  rewrite Hby by exact Ho. symmetry. apply file_byte_agree. eauto.
Qed.

Lemma redisk_same_inv s s' files :
  redisk s s' (blk s) → disk_inv s files → disk_inv s' files.
Proof. intros Hr Hinv. by eapply disk_inv_spare. Qed.

Lemma redisk_same_views s s' files V :
  redisk s s' (blk s) → views s files V → views s' files V.
Proof. intros Hr HV. eapply views_spare; [done|]. intros. by rewrite (redisk_blk _ _ _ _ Hr). Qed.
End Files.

Section Space.
Context {D H : Type} `{DiskLaws D} `{KHeap H}.
Implicit Types s : sfs D H.

Definition remap s (m : bitmap) : sfs D H := set_freemapdirty true (set_freemap m s).

Lemma meta_remap s m : meta_inv s → meta_inv (remap s m).
Proof. intros [? ? ? _]. constructor; [done..|by left]. Qed.

Lemma disk_inv_remap s m files :
  disk_inv s files → map_wf (remap s m) →
  (∀ ino i, files !! ino = Some i → used (remap s m) ino) →
  (∀ ino i b, files !! ino = Some i → b ∈ blist s i → b ≠ 0 → used (remap s m) b) →
  disk_inv (remap s m) files.
Proof.
  intros [[Hok Hb Hs] Hmap Hin Hbl Hown Hld Huq Hsy Hme] Hmap' Hino Hblk. constructor.
  - by constructor.
  - exact Hmap'.
  - intros ino i Hi. destruct (Hin _ _ Hi) as (? & ? & ? & _). split_and!; [done..|eauto].
  - intros ino i b Hi Hin' Hb0. destruct (Hbl _ _ _ Hi Hin' Hb0) as (? & _ & ?). split_and!; [done|eauto|done].
  - exact Hown.
  - exact Hld.
  - exact Huq.
  - exact Hsy.
  - by apply meta_remap.
Qed.

(** A free block is nobody's. *)
Lemma unused_fresh s files b :
  disk_inv s files → ¬ used s b → b ≠ 0 →
  files !! b = None ∧ ∀ ino i, files !! ino = Some i → b ∉ blist s i.
Proof.
  intros Hinv Hu Hb. split.
  - destruct (files !! b) as [i|] eqn:Hi; [|done]. by destruct (di_inode _ _ Hinv _ _ Hi) as (_ & _ & _ & ?).
  - intros ino i Hi Hin. by destruct (di_block _ _ Hinv _ _ _ Hi Hin Hb) as (_ & ? & _).
Qed.

Lemma bitmapsize_le n : 0 ≤ n ≤ 2 ^ 22 → n ≤ SFS_BITMAPSIZE n ≤ 2 ^ 22 + 4096.
Proof.
  intros. unfold SFS_BITMAPSIZE, SFS_ROUNDUP, u32. change SFS_BLOCKBITS with 4096.
  rewrite (Z.mod_small (n + 4096 - 1)) by lia. rewrite Z.mod_small; Z.to_euclidean_division_equations; lia.
Qed.

Lemma marked_used s m i :
  (∀ j, marked m j = if decide (j = i) then true else marked (s_freemap s) j) →
  ∀ b, 0 ≤ b → used (remap s m) b ↔ b = Z.of_nat i ∨ used s b.
Proof.
  intros Hm b Hb. unfold used, remap. cbn. rewrite Hm. case_decide as Hd.
  - split; [left; lia|done].
  - split; [by right|intros [->|?]; [lia|done]].
Qed.

#[global] Instance valid_block_dec s b : Decision (valid_block s b).
Proof. unfold valid_block. apply _. Defined.

(** A block whose bit is clear is one that files may have. *)
Lemma clear_valid s i :
  map_wf s → Z.of_nat i < b_nbits (s_freemap s) → marked (s_freemap s) i = false →
  valid_block s (Z.of_nat i) ∧ ¬ used s (Z.of_nat i).
Proof.
  intros [_ _ _ Hres] Hlt Hfree.
  assert (Hu : ¬ used s (Z.of_nat i)) by (unfold used; rewrite Nat2Z.id; congruence).
  split; [|done]. destruct (decide (valid_block s (Z.of_nat i))) as [|Hnv]; [done|].
  destruct Hu. apply Hres; [lia|done].
Qed.

(** Marking more blocks keeps the map in order. *)
Lemma remap_more s m :
  map_wf s → bitmap_wf m → b_nbits m = b_nbits (s_freemap s) →
  (∀ b, 0 ≤ b → used s b → used (remap s m) b) → map_wf (remap s m).
Proof.
  intros [Hwf Hbits Hsize Hres] Hwf' Hn Hmore. constructor; [done|by cbn; rewrite Hn|done|].
  cbn. rewrite Hn. intros b Hb Hnv. apply Hmore; [lia|]. by apply Hres.
Qed.

Lemma balloc_run s files V :
  disk_inv s files → views s files V →
  sfs_balloc s = Done (Err ENOSPC, s) ∨
  ∃ b s', sfs_balloc s = Done (Ok b, s') ∧ disk_inv s' files ∧ views s' files V ∧
    same_env s s' ∧ s_pool s' = s_pool s ∧ s_user s' = s_user s ∧
    valid_block s b ∧ ¬ used s b ∧ (∀ c, 0 ≤ c → used s' c ↔ c = b ∨ used s c) ∧
    (∀ c, blk s' c = set_blk s b (replicate 512 0) c).
Proof.
  intros Hinv HV. pose proof (di_map _ _ Hinv) as Hmw. pose proof (mw_wf _ Hmw) as Hwf.
  unfold sfs_balloc. erewrite bindF_run by done.
  destruct (bitmap_alloc_spec _ Hwf) as [[Ha _]|(i & m & Ha & Hlt & Hfree & _ & Hwf' & (Hn & Hself & Haddr) & Hm)];
    (erewrite bindF_run; [|unfold liftF; by rewrite Ha]); cbn beta iota; [by left|right].
  destruct (clear_valid s i Hmw Hlt Hfree) as [Hval Hnu]. set (b := Z.of_nat i) in *.
  pose proof (marked_used s m i Hm) as Hused.
  assert (Hmore : ∀ c, 0 ≤ c → used s c → used (remap s m) c) by (intros; apply Hused; auto).
  assert (Hinv1 : disk_inv (remap s m) files).
  { apply disk_inv_remap; [done|by apply remap_more|..].
    - intros ino f Hf. destruct (di_inode _ _ Hinv _ _ Hf) as (_ & _ & [? _] & ?). apply Hmore; [lia|done].
    - intros ino f c Hf Hc Hc0. destruct (di_block _ _ Hinv _ _ _ Hf Hc Hc0) as ([? _] & ? & _).
      apply Hmore; [lia|done]. }
  assert (Hbr : 0 < b < nblocks s) by apply Hval.
  destruct (unused_fresh s files b Hinv Hnu) as [Hb1 Hb2]; [lia|].
  destruct (wblock_run (remap s m) (replicate 512 0) b) as (s' & Hrun & Hre);
    [apply Hinv1|change (nblocks (remap s m)) with (nblocks s); lia|apply length_replicate|].
  exists b, s'. split.
  { do 3 (erewrite bindF_run by done). fold (remap s m).
    change (sp_nblocks (s_super (remap s m))) with (nblocks s).
    rewrite Z.geb_leb, (proj2 (Z.leb_gt _ _)) by lia. by rewrite (bindR_ok _ _ _ _ _ Hrun). }
  assert (Hblk : ∀ c, blk s' c = set_blk s b (replicate 512 0) c) by (intros c; apply (redisk_blk _ _ _ _ Hre)).
  split_and!; [| | | | |done|done| |done].
  - eapply disk_inv_spare; [exact Hre|exact Hinv1|..].
    + intros ino f Hf Hind. unfold set_blk. rewrite decide_False; [done|]. intros E.
      apply (Hb2 _ _ Hf). rewrite <- E. left.
    + intros ino f Hf. unfold set_blk. rewrite decide_False; [done|]. intros ->. congruence.
    + intros c Hc. unfold set_blk. rewrite decide_False; [done|]. intros ->. by apply Hc.
  - eapply views_spare; [exact HV|]. intros ino f c Hf Hc Hc0. rewrite Hblk. unfold set_blk.
    rewrite decide_False; [done|]. intros ->. by apply (Hb2 _ _ Hf).
  - etransitivity; [|by eapply redisk_env]. by constructor.
  - by destruct Hre as (d & -> & _).
  - by destruct Hre as (d & -> & _).
  - intros c Hc. destruct Hre as (d & -> & _). by apply Hused.
Qed.
End Space.

(** ** Bytes of a file from its block list *)

Definition list_byte (L : list Z) (c : Z → list Z) (o : Z) : Z :=
  let b := default 0 (L !! S (Z.to_nat (o / 512))) in
  if b =? 0 then 0 else default 0 (c b !! Z.to_nat (o mod 512)).

Lemma no_inj_insert L j b : no_inj L → b = 0 ∨ b ∉ L → no_inj (<[j := b]> L).
Proof.
  intros HL Hb x y c Hx Hy Hc.
  apply list_lookup_insert_Some in Hx as [(-> & <- & ?)|[? Hx]];
    apply list_lookup_insert_Some in Hy as [(-> & Hy' & ?)|[? Hy]].
  - done.
  - destruct Hb as [->|Hb]; [done|]. destruct Hb. by eapply list_elem_of_lookup_2.
  - subst. destruct Hb as [->|Hb]; [done|]. destruct Hb. by eapply list_elem_of_lookup_2.
  - by eapply HL.
Qed.

Lemma elem_of_insert_list {A} (L : list A) j (b c : A) : c ∈ <[j := b]> L → c = b ∨ c ∈ L.
Proof.
  intros [k Hk]%list_elem_of_lookup. apply list_lookup_insert_Some in Hk as [(_ & -> & _)|[_ Hk]];
    [by left|right]. by eapply list_elem_of_lookup_2.
Qed.

(** A hole filled with a clear block does not show. *)
Lemma list_byte_fill L c c' k b o :
  default 0 (L !! S k) = 0 → (S k < length L)%nat → c' b = replicate 512 0 →
  (∀ x j, L !! S j = Some x → x ≠ 0 → c' x = c x) →
  list_byte (<[S k := b]> L) c' o = list_byte L c o.
Proof.
  intros H0 Hk Hb Hc. unfold list_byte. destruct (decide (Z.to_nat (o / 512) = k)) as [->|Hne].
  - rewrite list_lookup_insert_eq, H0 by done. cbn. destruct (b =? 0); [done|]. rewrite Hb.
    destruct (replicate 512 0 !! Z.to_nat (o mod 512)) as [x|] eqn:E; [|reflexivity].
    by apply lookup_replicate in E as [-> _].
  - rewrite list_lookup_insert_ne by lia. destruct (L !! S (Z.to_nat (o / 512))) as [x|] eqn:E; [|done].
    cbn. destruct (Z.eqb_spec x 0); [done|]. by erewrite Hc.
Qed.

(** Overwriting the block at index [k] changes the bytes of that block of
    the file. *)
Lemma list_byte_write L c k b x o :
  no_inj L → L !! S k = Some b → b ≠ 0 → 0 ≤ o →
  list_byte L (λ d, if decide (d = b) then x else c d) o =
    if decide (o / 512 = Z.of_nat k) then default 0 (x !! Z.to_nat (o mod 512)) else list_byte L c o.
Proof.
  intros Hinj Hk Hb Ho. unfold list_byte.
  assert (0 ≤ o / 512) by (apply Z.div_pos; lia). destruct (decide (o / 512 = Z.of_nat k)) as [E|Hne].
  - rewrite E, Nat2Z.id, Hk. cbn. rewrite (proj2 (Z.eqb_neq _ _)) by done. by rewrite decide_True.
  - destruct (L !! S (Z.to_nat (o / 512))) as [d|] eqn:Hd; [|done]. cbn.
    destruct (Z.eqb_spec d 0); [done|]. rewrite decide_False; [done|]. intros ->.
    specialize (Hinj _ _ _ Hk Hd Hb). lia.
Qed.

Section Inodes.
Context {D H : Type} `{DiskLaws D} `{KHeap H}.
Implicit Types s : sfs D H.

Lemma file_byte_list s i o : file_byte s i o = list_byte (blist s i) (blk s) o.
Proof. done. Qed.

Lemma bmapf_list s i k : 0 ≤ k → bmapf s i k = default 0 (blist s i !! S (Z.to_nat k)).
Proof. done. Qed.

Lemma blist_length s i : inode_wf i → length (blist s i) = 144%nat.
Proof. intros []. unfold blist. cbn. rewrite length_app, idtable_length, iw_direct0. done. Qed.

(** Give the vnode [p] another inode. *)
Definition put_inode s (p : Z) (sv : sfs_vnode) (i : sfs_inode) : sfs D H :=
  set_pool (<[p := set_inode i true sv]> (s_pool s)) s.

Lemma put_inode_env s p sv i : s_pool s !! p = Some sv → same_env s (put_inode s p sv i).
Proof.
  intros Hp. constructor; try done. intros q. cbn. destruct (decide (q = p)) as [->|].
  - rewrite lookup_insert_eq, Hp. by constructor.
  - by rewrite lookup_insert_ne.
Qed.

Lemma disk_inv_put s files p sv i :
  disk_inv s files → s_pool s !! p = Some sv → inode_wf i → no_inj (blist s i) →
  (∀ b, b ∈ blist s i → b ≠ 0 → b ∈ blist s (sv_i sv) ∨
     valid_block s b ∧ used s b ∧ files !! b = None ∧ ∀ ino j, files !! ino = Some j → b ∉ blist s j) →
  disk_inv (put_inode s p sv i) (<[sv_ino sv := i]> files).
Proof.
  intros [Hdev Hmap Hin Hbl Hown Hld Huq Hsy Hme] Hp Hi Hnj Hnew. pose proof (Hld _ _ Hp) as Hcur.
  assert (Hb' : ∀ b, b ∈ blist s i → b ≠ 0 → valid_block s b ∧ used s b ∧ files !! b = None ∧
    ∀ ino j, files !! ino = Some j → b ∈ blist s j → ino = sv_ino sv).
  { intros b Hb Hb0. destruct (Hnew b Hb Hb0) as [Hold|(? & ? & ? & Hno)].
    - destruct (Hbl _ _ _ Hcur Hold Hb0) as (? & ? & ?). split_and!; [done..|]. eauto.
    - split_and!; [done..|]. intros ino j Hj Hbj. by destruct (Hno _ _ Hj). }
  constructor.
  - by destruct Hdev.
  - by destruct Hmap.
  - intros ino j Hj. apply lookup_insert_Some in Hj as [[<- <-]|[? Hj]]; [|by apply Hin].
    destruct (Hin _ _ Hcur) as (_ & _ & ? & ?). done.
  - intros ino j b Hj Hb Hb0. rewrite lookup_insert_None.
    apply lookup_insert_Some in Hj as [[<- <-]|[? Hj]].
    + destruct (Hb' b Hb Hb0) as (? & ? & ? & _). split_and!; [done..|]. intros <-. congruence.
    + destruct (Hbl _ _ _ Hj Hb Hb0) as (? & ? & ?). split_and!; [done..|]. intros <-. congruence.
  - intros ino j ino' j' b Hj Hj' Hb Hbj' Hb0.
    apply lookup_insert_Some in Hj as [[<- <-]|[Hne Hj]];
      apply lookup_insert_Some in Hj' as [[<- <-]|[Hne' Hj']]; [done|..].
    + destruct (Hb' b Hb Hb0) as (_ & _ & _ & Ho). symmetry. by eapply Ho.
    + destruct (Hb' b Hbj' Hb0) as (_ & _ & _ & Ho). by eapply Ho.
    + by eapply Hown.
  - intros q v Hq. cbn in Hq. apply lookup_insert_Some in Hq as [[<- <-]|[Hne Hq]].
    + cbn. apply lookup_insert_eq.
    + rewrite lookup_insert_ne; [by eapply Hld|]. intros E. apply Hne. by eapply Huq.
  - intros q q' v v' Hq Hq' E. cbn in Hq, Hq'.
    apply lookup_insert_Some in Hq as [[<- <-]|[Hne Hq]];
      apply lookup_insert_Some in Hq' as [[<- <-]|[Hne' Hq']]; cbn in E; [done|by eapply Huq..].
  - intros ino j Hj. cbn. apply lookup_insert_Some in Hj as [[<- <-]|[Hne Hj]].
    + left. exists p, (set_inode i true sv). by rewrite lookup_insert_eq.
    + destruct (Hsy _ _ Hj) as [(q & v & Hq & Hv & Hd)|?]; [left|by right].
      exists q, v. split_and!; [|done|done]. rewrite lookup_insert_ne; [done|]. intros <-. congruence.
  - by destruct Hme.
Qed.

Lemma views_put s files V p sv i v :
  views s files V → files !! sv_ino sv = Some (sv_i sv) → shows s i v →
  views (put_inode s p sv i) (<[sv_ino sv := i]> files) (<[sv_ino sv := v]> V).
Proof.
  intros HV Hcur Hv ino. specialize (HV ino). destruct (decide (ino = sv_ino sv)) as [->|].
  - rewrite !lookup_insert_eq. exact Hv.
  - rewrite !lookup_insert_ne by done. exact HV.
Qed.

Lemma views_lookup s files V ino i :
  views s files V → files !! ino = Some i → ∃ v, V !! ino = Some v ∧ shows s i v.
Proof.
  intros HV Hi. specialize (HV ino). rewrite Hi in HV. destruct (V !! ino) as [v|]; [|done]. eauto.
Qed.

(** Changing an inode in a way its view does not show. *)
Lemma views_put_same s files V p sv i :
  views s files V → files !! sv_ino sv = Some (sv_i sv) →
  sfi_size i = sfi_size (sv_i sv) → sfi_type i = sfi_type (sv_i sv) →
  sfi_linkcount i = sfi_linkcount (sv_i sv) →
  (∀ o, 0 ≤ o → file_byte s i o = file_byte s (sv_i sv) o) →
  views (put_inode s p sv i) (<[sv_ino sv := i]> files) V.
Proof.
  intros HV Hcur ??? Hsame. destruct (views_lookup _ _ _ _ _ HV Hcur) as (v & Hv & ? & ? & ? & Hby).
  rewrite <- (insert_id V (sv_ino sv) v) by done. apply views_put; [done..|].
  split_and!; [congruence..|]. intros o Ho. by rewrite Hby, Hsame.
Qed.

(** Unmarking a block that no file has. *)
Lemma disk_inv_free s files m b :
  disk_inv s files → valid_block s b → files !! b = None →
  (∀ ino i, files !! ino = Some i → b ∉ blist s i) →
  bitmap_wf m → b_nbits m = b_nbits (s_freemap s) →
  (∀ j, marked m j = if decide (j = Z.to_nat b) then false else marked (s_freemap s) j) →
  disk_inv (remap s m) files.
Proof.
  intros Hinv Hval Hno Hnb Hwf Hn Hm.
  assert (Hu : ∀ c, 0 ≤ c → c ≠ b → used s c → used (remap s m) c).
  { intros c Hc Hcb Hu. unfold used in *. cbn. rewrite Hm, decide_False; [done|]. destruct Hval. lia. }
  apply disk_inv_remap; [done|..].
  - destruct (di_map _ _ Hinv) as [_ Hbits Hsize Hres]. constructor; [done|by cbn; rewrite Hn|done|].
    cbn. rewrite Hn. intros c Hc Hnv. apply Hu; [lia| |by apply Hres]. intros ->. done.
  - intros ino i Hi. destruct (di_inode _ _ Hinv _ _ Hi) as (_ & _ & [? _] & ?).
    apply Hu; [lia| |done]. intros ->. congruence.
  - intros ino i c Hi Hc Hc0. destruct (di_block _ _ Hinv _ _ _ Hi Hc Hc0) as ([? _] & ? & _).
    apply Hu; [lia| |done]. intros ->. by eapply Hnb.
Qed.

(** *** Checks of the block layer *)

Lemma bused_run s b :
  dev_wf s → map_wf s → 0 ≤ b < nblocks s → used s b → sfs_bused b s = Done (true, s).
Proof.
  intros Hdev [Hwf Hbits _ _] Hb Hu. pose proof (dw_small _ Hdev).
  pose proof (bitmapsize_le (nblocks s) ltac:(lia)).
  destruct (bitmap_isset_spec (s_freemap s) (Z.to_nat b) Hwf) as (r & Hr & Hiff); [lia|].
  rewrite Z2Nat.id in Hr by lia. unfold sfs_bused. erewrite bindF_run by done.
  fold (nblocks s). rewrite Z.geb_leb, (proj2 (Z.leb_gt _ _)) by lia.
  erewrite bindF_run by done. erewrite bindF_run; [|unfold liftF; by rewrite Hr].
  rewrite (proj2 (Z.eqb_neq r 0)); [done|]. by apply Hiff.
Qed.

Lemma check_used_run s b :
  dev_wf s → map_wf s → b = 0 ∨ valid_block s b ∧ used s b → check_used b s = Done (tt, s).
Proof.
  intros Hdev Hmap Hb. unfold check_used. destruct (Z.eqb_spec b 0); [done|].
  destruct Hb as [|[[? _] ?]]; [done|]. erewrite bindF_run; [|apply bused_run; [done..|lia|done]]. done.
Qed.

Lemma bfree_run s b :
  map_wf s → dev_wf s → valid_block s b → used s b →
  ∃ m, sfs_bfree b s = Done (tt, remap s m) ∧ bitmap_wf m ∧ b_nbits m = b_nbits (s_freemap s) ∧
    (b_self m = b_self (s_freemap s) ∧ b_addr m = b_addr (s_freemap s)) ∧
    ∀ j, marked m j = if decide (j = Z.to_nat b) then false else marked (s_freemap s) j.
Proof.
  intros [Hwf Hbits _ _] Hdev [? _] Hu. pose proof (dw_small _ Hdev).
  pose proof (bitmapsize_le (nblocks s) ltac:(lia)).
  destruct (bitmap_unmark_spec (s_freemap s) (Z.to_nat b) Hwf) as (m & Hm & ? & ? & ?); [lia|done|].
  rewrite Z2Nat.id in Hm by lia. exists m. split_and!; [|done|done| | |done].
  - unfold sfs_bfree. erewrite bindF_run by done. erewrite bindF_run; [|unfold liftF; by rewrite Hm]. done.
  - by eapply bitmap_unmark_place.
  - by eapply bitmap_unmark_place.
Qed.
End Inodes.
