(* ===== verification/SfsFile.v ===== *)
(** * SFS: reading and writing files

    Block mapping and file I/O against the abstract view of a volume:
    sfs_bmap finds or allocates blocks without changing what any file
    shows; sfs_io reads the bytes of the file and overwrites exactly the
    bytes written. *)

From S2P Require Import Prelude Ram Kheap KheapSpec KArray Bitmap Bytes Mem CString Uio Device Sfs SfsSpec.

Section Bmap.
Context {D H : Type} `{DiskLaws D} `{KHeap H}.
Implicit Types s : sfs D H.

Lemma redisk_refl s : dev_wf s → redisk s s (blk s).
Proof. intros [Hok _ _]. exists (s_device s). by destruct s. Qed.

Lemma redisk_pool s s' f : redisk s s' f → s_pool s' = s_pool s.
Proof. by intros (d & -> & _). Qed.
Lemma redisk_user s s' f : redisk s s' f → s_user s' = s_user s.
Proof. by intros (d & -> & _). Qed.

Lemma bmapf_direct s i k b :
  inode_wf i → 0 ≤ k < 15 → sfi_direct i !! Z.to_nat k = Some b → bmapf s i k = b.
Proof.
  intros [] ? Hb. unfold bmapf. rewrite lookup_app_l by lia. by rewrite Hb.
Qed.

Lemma bmapf_indirect s i k :
  inode_wf i → 15 ≤ k < 143 → bmapf s i k = default 0 (idtable s i !! Z.to_nat (k - 15)).
Proof.
  intros [] ?. unfold bmapf. rewrite lookup_app_r by lia. do 2 f_equal. lia.
Qed.

(** A block of the list passes the check of sfs_bmap. *)
Lemma bmapf_checked s files ino i k :
  disk_inv s files → files !! ino = Some i → check_used (bmapf s i k) s = Done (tt, s).
Proof.
  intros Hinv Hi. apply check_used_run; [apply Hinv..|].
  destruct (decide (bmapf s i k = 0)) as [|Hb]; [by left|right].
  destruct (di_block _ _ Hinv _ _ _ Hi (bmapf_elem _ _ _ Hb) Hb) as (? & ? & _). done.
Qed.

Lemma idtable_lookup s i k : 0 ≤ k < 128 → is_Some (idtable s i !! Z.to_nat k).
Proof. intros. apply lookup_lt_is_Some. rewrite idtable_length. lia. Qed.

(** The indirect branch of sfs_bmap. *)
Lemma bmap_indirect_unfold p k doalloc :
  15 ≤ k < 143 →
  sfs_bmap (D := D) (H := H) p k doalloc =
    (sv ← get_sv p;
     let idblock := sfi_indirect (sv_i sv) in
     if (idblock =? 0) && negb doalloc then mret (Ok 0)
     else if idblock =? 0 then
       idblock ←? sfs_balloc;
       sv ← get_sv p;
       put_sv p (set_inode (set_indirect idblock (sv_i sv)) true sv);;
       bmap_entry idblock (replicate 128 0) (k - 15) doalloc
     else
       idbuf ←? sfs_rblock blank_block idblock;
       bmap_entry idblock (words_of 128 idbuf) (k - 15) doalloc).
Proof.
  intros Hk. unfold sfs_bmap. change SFS_NDIRECT with 15. change SFS_DBPERIDB with 128.
  rewrite (proj2 (Z.ltb_ge k 15)), (Z.div_small (k - 15)), (Z.mod_small (k - 15)) by lia. done.
Qed.

Lemma get_sv_run p sv s : s_pool s !! p = Some sv → get_sv p s = Done (sv, s).
Proof. intros Hp. unfold get_sv. erewrite bindF_run by done. by rewrite Hp. Qed.

Lemma blank_block_length : length blank_block = 512%nat.
Proof. apply length_replicate. Qed.

(** Looking a block up. *)
Lemma bmap_find s files p sv k (doalloc : bool) :
  disk_inv s files → s_pool s !! p = Some sv → 0 ≤ k < 143 → (doalloc = true → bmapf s (sv_i sv) k ≠ 0) →
  ∃ s', sfs_bmap p k doalloc s = Done (Ok (bmapf s (sv_i sv) k), s') ∧ redisk s s' (blk s).
Proof.
  intros Hinv Hp Hk Hal. pose proof (di_loaded _ _ Hinv _ _ Hp) as Hi.
  pose proof (di_dev _ _ Hinv) as Hdev. destruct (di_inode _ _ Hinv _ _ Hi) as (Hwf & _).
  assert (Hskip : ∀ b, b = bmapf s (sv_i sv) k → (b =? 0) && doalloc = false).
  { intros b ->. destruct doalloc; [|apply andb_false_r]. by rewrite (proj2 (Z.eqb_neq _ _) (Hal eq_refl)). }
  destruct (decide (k < 15)).
  - exists s. split; [|by apply redisk_refl]. unfold sfs_bmap. change SFS_NDIRECT with 15.
    rewrite (proj2 (Z.ltb_lt k 15)) by lia. unfold bmap_direct.
    rewrite (bindF_run _ _ _ _ _ (get_sv_run _ _ _ Hp)).
    destruct (lookup_lt_is_Some_2 (sfi_direct (sv_i sv)) (Z.to_nat k)) as [b Hb].
    { rewrite (iw_direct _ Hwf). lia. }
    pose proof (bmapf_direct s (sv_i sv) k b Hwf ltac:(lia) Hb) as Hbm.
    rewrite Hb. erewrite bindF_run by done. rewrite Hskip by done. erewrite bindR_ok by done.
    rewrite <- Hbm. by erewrite bindF_run by by eapply bmapf_checked.
  - rewrite bmap_indirect_unfold by lia. rewrite (bindF_run _ _ _ _ _ (get_sv_run _ _ _ Hp)).
    pose proof (bmapf_indirect s (sv_i sv) k Hwf ltac:(lia)) as Hbm. cbn zeta.
    destruct (idtable_lookup s (sv_i sv) (k - 15)) as [b Hb]; [lia|]. rewrite Hb in Hbm. cbn [default] in Hbm.
    destruct (Z.eqb_spec (sfi_indirect (sv_i sv)) 0) as [E|E]; cbn [andb negb].
    + exists s. split; [|by apply redisk_refl]. unfold idtable in Hb. rewrite E in Hb.
      apply lookup_replicate in Hb as [-> _]. rewrite Hbm. destruct doalloc; [by destruct (Hal eq_refl)|done].
    + destruct (di_block _ _ Hinv _ _ (sfi_indirect (sv_i sv)) Hi) as ([? _] & _); [left|done|].
      destruct (rblock_run s blank_block (sfi_indirect (sv_i sv)) Hdev) as (s' & Hr & Hre);
        [lia|apply blank_block_length|].
      exists s'. split; [|done]. rewrite (bindR_ok _ _ _ _ _ Hr). unfold bmap_entry.
      assert (Hid : words_of 128 (blk s (sfi_indirect (sv_i sv))) = idtable s (sv_i sv)).
      { unfold idtable. by rewrite (proj2 (Z.eqb_neq _ _)). }
      rewrite Hid, Hb. erewrite bindF_run by done. rewrite Hskip by done. erewrite bindR_ok by done.
      pose proof (redisk_same_inv _ _ _ Hre Hinv) as Hinv'.
      assert (Hb' : b = bmapf s' (sv_i sv) k).
      { rewrite bmapf_indirect, (idtable_agree s s'), Hb by (done || lia || intros; apply (redisk_blk _ _ _ _ Hre)). done. }
      rewrite Hbm, Hb'. erewrite bindF_run by by eapply bmapf_checked. done.
Qed.

Lemma bmap_read s files p sv k :
  disk_inv s files → s_pool s !! p = Some sv → 0 ≤ k < 143 →
  ∃ s', sfs_bmap p k false s = Done (Ok (bmapf s (sv_i sv) k), s') ∧ redisk s s' (blk s).
Proof. intros. by apply (bmap_find s files). Qed.

Lemma bmap_too_large s p k doalloc :
  143 ≤ k < 2 ^ 32 → sfs_bmap p k doalloc s = Done (Err EINVAL, s).
Proof.
  intros Hk. unfold sfs_bmap. change SFS_NDIRECT with 15. change SFS_DBPERIDB with 128.
  rewrite (proj2 (Z.ltb_ge k 15)) by lia.
  rewrite (proj2 (Z.gtb_lt ((k - 15) / 128) 0)); [done|]. Z.to_euclidean_division_equations. lia.
Qed.

(** *** Adding a block to a file *)

(** A marked, clear block that no file has. *)
Record fresh_block s (files : gmap Z sfs_inode) (b : Z) : Prop := {
  fb_valid : valid_block s b;
  fb_used : used s b;
  fb_noino : files !! b = None;
  fb_noblk ino i : files !! ino = Some i → b ∉ blist s i;
  fb_clear : blk s b = replicate 512 0;
}.

Lemma fresh_nonzero s files b : fresh_block s files b → b ≠ 0.
Proof. intros [[? _] _ _ _ _]. lia. Qed.

Lemma blist_set_direct s i k b :
  inode_wf i → (k < 15)%nat → blist s (set_direct k b i) = <[S k := b]> (blist s i).
Proof.
  intros [] ?. unfold blist.
  change (<[S k := b]> (?x :: ?l)) with (x :: <[k := b]> l). f_equal. symmetry. apply insert_app_l. lia.
Qed.

Lemma words_of_clear : words_of 128 (replicate 512 0) = replicate 128 0.
Proof. reflexivity. Qed.

Lemma blist_set_indirect s i b :
  sfi_indirect i = 0 → b ≠ 0 → blk s b = replicate 512 0 →
  blist s (set_indirect b i) = <[0%nat := b]> (blist s i).
Proof.
  intros Hi Hb Hz. unfold blist, idtable. cbn [sfi_indirect set_indirect sfi_direct].
  rewrite Hi, (proj2 (Z.eqb_neq b 0)), Hz, words_of_clear by done. done.
Qed.

(** Adding a fresh block to an inode through the vnode. *)
Lemma put_fresh s files V p sv i j b :
  disk_inv s files → views s files V → s_pool s !! p = Some sv → fresh_block s files b →
  inode_wf i → blist s i = <[j := b]> (blist s (sv_i sv)) →
  sfi_size i = sfi_size (sv_i sv) → sfi_type i = sfi_type (sv_i sv) →
  sfi_linkcount i = sfi_linkcount (sv_i sv) →
  (∀ o, 0 ≤ o → file_byte s i o = file_byte s (sv_i sv) o) →
  disk_inv (put_inode s p sv i) (<[sv_ino sv := i]> files) ∧
  views (put_inode s p sv i) (<[sv_ino sv := i]> files) V.
Proof.
  intros Hinv HV Hp Hb Hwf HL ??? Hbytes. pose proof (di_loaded _ _ Hinv _ _ Hp) as Hcur.
  destruct (di_inode _ _ Hinv _ _ Hcur) as (_ & Hnj & _). destruct Hb as [? ? ? Hno _]. split.
  - apply disk_inv_put; [done..| |].
    + rewrite HL. apply no_inj_insert; [done|]. right. by eapply Hno.
    + intros c Hc Hc0. rewrite HL in Hc. apply elem_of_insert_list in Hc as [->|Hc]; [right|by left].
      split_and!; done.
  - apply views_put_same; done.
Qed.

(** The indirect block rewritten with one more entry. *)
Lemma idtable_range s files ino i :
  disk_inv s files → files !! ino = Some i → Forall (λ w, 0 ≤ w < 2 ^ 32) (idtable s i).
Proof.
  intros Hinv Hi. apply list.Forall_forall. intros b Hb. destruct (decide (b = 0)) as [->|Hb0]; [lia|].
  destruct (di_block _ _ Hinv _ _ b Hi) as ([? _] & _); [|done|].
  - right. apply elem_of_app. by right.
  - pose proof (dw_small _ (di_dev _ _ Hinv)). lia.
Qed.

Lemma blist_table s s' i j b :
  inode_wf i → sfi_indirect i ≠ 0 → (j < 128)%nat → 0 ≤ b < 2 ^ 32 →
  Forall (λ w, 0 ≤ w < 2 ^ 32) (idtable s i) →
  blk s' (sfi_indirect i) = be32s (<[j := b]> (idtable s i)) →
  blist s' i = <[(16 + j)%nat := b]> (blist s i).
Proof.
  intros Hwf Hi Hj Hb Hr Hblk.
  assert (idtable s' i = <[j := b]> (idtable s i)) as Hid.
  { unfold idtable at 1. rewrite (proj2 (Z.eqb_neq _ _)), Hblk by done.
    pose proof (words_of_be32s (<[j := b]> (idtable s i)) []) as E.
    rewrite length_insert, idtable_length, app_nil_r in E. apply E.
    apply Forall_insert; [done|lia]. }
  unfold blist. rewrite Hid. change (16 + j)%nat with (S (15 + j)).
  change (<[S ?k := ?x]> (?y :: ?l)) with (y :: <[k := x]> l). f_equal.
  rewrite <- (iw_direct _ Hwf). symmetry. apply insert_app_r.
Qed.

Lemma blist_entry s i j : inode_wf i → blist s i !! S (15 + j) = idtable s i !! j.
Proof.
  intros Hwf. unfold blist. change ((?x :: ?l) !! S ?n) with (l !! n).
  rewrite lookup_app_r, (iw_direct _ Hwf) by (rewrite (iw_direct _ Hwf); lia). f_equal. lia.
Qed.

(** Rewriting the indirect block of one file. *)
Lemma retable_blk s s' i x c : redisk s s' (set_blk s (sfi_indirect i) x) → c ≠ sfi_indirect i → blk s' c = blk s c.
Proof. intros Hre Hc. rewrite (redisk_blk _ _ _ _ Hre). unfold set_blk. by rewrite decide_False. Qed.

Lemma retable_other s s' files ino i x ino' i' :
  disk_inv s files → files !! ino = Some i → redisk s s' (set_blk s (sfi_indirect i) x) →
  files !! ino' = Some i' → ino' ≠ ino → blist s' i' = blist s i'.
Proof.
  intros Hinv Hi Hre Hi' Hne. apply blist_agree. intros Hi0. eapply retable_blk; [done|]. intros E. apply Hne.
  eapply (di_own _ _ Hinv _ _ _ _ (sfi_indirect i') Hi' Hi); [left|rewrite E; left|done].
Qed.

Lemma disk_inv_retable s s' files ino i x :
  disk_inv s files → files !! ino = Some i → sfi_indirect i ≠ 0 →
  redisk s s' (set_blk s (sfi_indirect i) x) → no_inj (blist s' i) →
  (∀ c, c ∈ blist s' i → c ≠ 0 → c ∈ blist s i ∨
     valid_block s c ∧ used s c ∧ files !! c = None ∧ ∀ ino' i', files !! ino' = Some i' → c ∉ blist s i') →
  disk_inv s' files.
Proof.
  intros Hinv Hi Hid Hre Hnj Hnew. pose proof (λ ino' i', retable_other s s' files ino i x ino' i' Hinv Hi Hre) as Hoth.
  pose proof (λ c, retable_blk s s' i x c Hre) as Hblk. destruct Hinv as [Hdev Hmap Hin Hbl Hown Hld Huq Hsy Hme].
  assert (Hmem : ∀ ino' i' c, files !! ino' = Some i' → c ∈ blist s' i' → c ≠ 0 → c ∈ blist s i' ∨
    ino' = ino ∧ valid_block s c ∧ used s c ∧ files !! c = None ∧ ∀ j i'', files !! j = Some i'' → c ∉ blist s i'').
  { intros ino' i' c Hi' Hc Hc0. destruct (decide (ino' = ino)) as [->|]; [|left; by rewrite (Hoth ino') in Hc].
    assert (i' = i) as -> by congruence. destruct (Hnew c Hc Hc0); auto. }
  assert (Hsync : ∀ ino' i', files !! ino' = Some i' → blk s' ino' = blk s ino').
  { intros ino' i' Hi'. apply Hblk. intros ->. destruct (Hbl _ _ (sfi_indirect i) Hi) as (_ & _ & E); [left|done|]. congruence. }
  pose proof (redisk_wf _ _ _ Hre Hdev) as Hdev'.
  assert (Hval : valid_block s (sfi_indirect i)) by (apply (Hbl _ _ _ Hi); [left|done]).
  destruct Hre as (d & -> & Hd). constructor; [exact Hdev'|by destruct Hmap| | | |exact Hld|exact Huq| |].
  - intros ino' i' Hi'. destruct (Hin _ _ Hi') as (? & ? & ? & ?). split_and!; [done| |done|done].
    destruct (decide (ino' = ino)) as [->|]; [|by rewrite (Hoth ino')]. by assert (i' = i) as -> by congruence.
  - intros ino' i' c Hi' Hc Hc0. destruct (Hmem _ _ _ Hi' Hc Hc0) as [Hc'|(_ & ? & ? & ? & _)]; [|done].
    exact (Hbl _ _ _ Hi' Hc' Hc0).
  - intros i1 n1 i2 n2 c Hn1 Hn2 Hc1 Hc2 Hc0.
    destruct (Hmem _ _ _ Hn1 Hc1 Hc0) as [Hc1'|(-> & _ & _ & _ & Hno1)],
      (Hmem _ _ _ Hn2 Hc2 Hc0) as [Hc2'|(-> & _ & _ & _ & Hno2)].
    + by eapply Hown.
    + by destruct (Hno2 _ _ Hn1).
    + by destruct (Hno1 _ _ Hn2).
    + done.
  - intros ino' i' Hi'. rewrite (Hsync _ _ Hi'). by apply Hsy.
  - apply (meta_agree s); [done..| |exact Hme]. intros c Hc. apply Hblk. by intros ->.
Qed.

Lemma table_inv s s' files V ino i j b :
  disk_inv s files → views s files V → files !! ino = Some i → sfi_indirect i ≠ 0 →
  fresh_block s files b → (j < 128)%nat → default 0 (idtable s i !! j) = 0 →
  redisk s s' (set_blk s (sfi_indirect i) (be32s (<[j := b]> (idtable s i)))) →
  disk_inv s' files ∧ views s' files V ∧ bmapf s' i (15 + Z.of_nat j) = b.
Proof.
  intros Hinv HV Hi Hid Hb Hj Hhole Hre. pose proof (idtable_range _ _ _ _ Hinv Hi) as Hr.
  destruct (di_inode _ _ Hinv _ _ Hi) as (Hwf & Hnj & _).
  pose proof Hb as [[Hbr _] ? Hb1 Hb2 Hz]. pose proof (dw_small _ (di_dev _ _ Hinv)).
  pose proof (λ c, retable_blk s s' i _ c Hre) as Hblk.
  assert (HL : blist s' i = <[(16 + j)%nat := b]> (blist s i)).
  { apply blist_table; try done; [lia|]. rewrite (redisk_blk _ _ _ _ Hre). unfold set_blk.
    by rewrite decide_True. }
  split_and!.
  - eapply disk_inv_retable; [done..| |].
    + rewrite HL. apply no_inj_insert; [done|]. right. eauto.
    + rewrite HL. intros c Hc Hc0. apply elem_of_insert_list in Hc as [->|]; [right|by left]. by destruct Hb.
  - intros ino'. specialize (HV ino'). destruct (files !! ino') as [i'|] eqn:Hi'; [|exact HV].
    destruct (V !! ino') as [v|]; [|exact HV]. destruct HV as (? & ? & ? & Hby).
    split_and!; [assumption..|]. intros o Ho. rewrite Hby by exact Ho. symmetry.
    destruct (decide (ino' = ino)) as [->|Hne].
    + assert (i' = i) as -> by congruence. rewrite !file_byte_list, HL.
      apply (list_byte_fill _ _ _ (15 + j)).
      * by rewrite blist_entry.
      * rewrite blist_length by done. lia.
      * rewrite Hblk; [done|]. intros ->. apply (Hb2 _ _ Hi). left.
      * intros x k Hx Hx0. apply Hblk. intros ->. by specialize (Hnj 0%nat (S k) _ eq_refl Hx Hx0).
    + apply file_byte_agree. intros c Hc Hc0. apply Hblk. intros ->.
      apply Hne. eapply (di_own _ _ Hinv _ _ _ _ (sfi_indirect i) Hi' Hi); [done|left|done].
  - rewrite bmapf_list, HL by lia. replace (S (Z.to_nat (15 + Z.of_nat j))) with (16 + j)%nat by lia.
    rewrite list_lookup_insert_eq by (rewrite blist_length by done; lia). done.
Qed.
Lemma balloc_fresh s files V :
  disk_inv s files → views s files V →
  sfs_balloc s = Done (Err ENOSPC, s) ∨
  ∃ b s', sfs_balloc s = Done (Ok b, s') ∧ disk_inv s' files ∧ views s' files V ∧
    same_env s s' ∧ s_pool s' = s_pool s ∧ s_user s' = s_user s ∧ fresh_block s' files b ∧
    (∀ i, (∃ ino, files !! ino = Some i) → blist s' i = blist s i).
Proof.
  intros Hinv HV. destruct (balloc_run s files V Hinv HV) as [?|Hrun]; [by left|right].
  destruct Hrun as (b & s' & Hrun & Hinv' & HV' & Henv & Hpool & Huser & Hval & Hnu & Hused & Hblk).
  assert (Hb0 : 0 < b) by apply Hval. destruct (unused_fresh _ _ _ Hinv Hnu) as [Hno Hnb]; [lia|].
  assert (HL : ∀ i, (∃ ino, files !! ino = Some i) → blist s' i = blist s i).
  { intros i [ino Hi]. apply blist_agree. intros Hi0. rewrite Hblk. unfold set_blk.
    rewrite decide_False; [done|]. intros E. apply (Hnb _ _ Hi). rewrite <- E. left. }
  exists b, s'. split_and!; [done..| |done]. constructor.
  - unfold valid_block, bitblocks, nblocks. rewrite (se_super _ _ Henv). exact Hval.
  - apply Hused; [lia|by left].
  - done.
  - intros ino i Hi. rewrite HL by eauto. eauto.
  - rewrite Hblk. unfold set_blk. by rewrite decide_True.
Qed.

(** What an allocating sfs_bmap does: nothing a file shows changes; the
    block is found, or the disk is full. *)
Definition alloc_post s (V : gmap Z afile) (p k : Z) (r : res Z) s' : Prop :=
  ∃ files', disk_inv s' files' ∧ views s' files' V ∧ same_env s s' ∧ s_user s' = s_user s ∧
    match r with
    | Err e => e = ENOSPC
    | Ok b => b ≠ 0 ∧ ∃ sv', s_pool s' !! p = Some sv' ∧ bmapf s' (sv_i sv') k = b
    end.

Lemma alloc_post_env s s1 V p k r s' :
  same_env s s1 → s_user s1 = s_user s → alloc_post s1 V p k r s' → alloc_post s V p k r s'.
Proof.
  intros He Hu (files' & ? & ? & ? & ? & ?). exists files'.
  split_and!; [done|done|by etransitivity|congruence|done].
Qed.

(** The block is there already. *)
Lemma alloc_post_found s files V p sv k :
  disk_inv s files → views s files V → s_pool s !! p = Some sv → bmapf s (sv_i sv) k ≠ 0 →
  alloc_post s V p k (Ok (bmapf s (sv_i sv) k)) s.
Proof. intros. exists files. split_and!; [done|done|done|done|done|]. by exists sv. Qed.

Lemma bmap_entry_alloc s files V p sv j :
  disk_inv s files → views s files V → s_pool s !! p = Some sv → sfi_indirect (sv_i sv) ≠ 0 →
  0 ≤ j < 128 →
  runs (bmap_entry (sfi_indirect (sv_i sv)) (idtable s (sv_i sv)) j true) s (alloc_post s V p (15 + j)).
Proof.
  intros Hinv HV Hp Hid Hj. pose proof (di_loaded _ _ Hinv _ _ Hp) as Hi.
  destruct (di_inode _ _ Hinv _ _ Hi) as (Hwf & _).
  destruct (idtable_lookup s (sv_i sv) j) as [b Hb]; [lia|].
  assert (Hbm : bmapf s (sv_i sv) (15 + j) = b).
  { rewrite bmapf_indirect by (done || lia). replace (15 + j - 15) with j by lia. by rewrite Hb. }
  unfold bmap_entry. rewrite Hb. apply runs_bind. eapply runs_deref; [done|].
  destruct (Z.eqb_spec b 0) as [->|Hb0]; cbn [andb]; cycle 1.
  { apply runs_bindR, runs_ret. apply runs_bind. rewrite <- Hbm.
    eexists _, _. split; [by eapply bmapf_checked|]. apply runs_ret. eapply alloc_post_found; [done..|congruence]. }
  destruct (balloc_fresh s files V Hinv HV) as [Hrun|(b & s1 & Hrun & Hinv1 & HV1 & Henv1 & Hp1 & Hu1 & Hf & HL)].
  { apply runs_bindR, runs_bindR. exists (Err ENOSPC), s. split; [done|]. by exists files. }
  assert (Hp1' : s_pool s1 !! p = Some sv) by (by rewrite Hp1).
  assert (Hid1 : idtable s1 (sv_i sv) = idtable s (sv_i sv)).
  { specialize (HL (sv_i sv) (ex_intro _ _ Hi)). unfold blist in HL.
    injection HL as HL. by apply app_inv_head in HL. }
  destruct (wblock_run s1 (be32s (<[Z.to_nat j := b]> (idtable s (sv_i sv)))) (sfi_indirect (sv_i sv)))
    as (s2 & Hrun2 & Hre); [apply Hinv1| | |].
  { destruct (di_block _ _ Hinv1 _ _ (sfi_indirect (sv_i sv)) Hi) as ([? _] & _); [left|done|lia]. }
  { rewrite be32s_length, length_insert, idtable_length. done. }
  rewrite <- Hid1 in Hre.
  destruct (table_inv s1 s2 files V (sv_ino sv) (sv_i sv) (Z.to_nat j) b) as (Hinv2 & HV2 & Hmap2); try done.
  { lia. } { by rewrite Hid1, Hb. }
  rewrite Z2Nat.id in Hmap2 by lia.
  apply runs_bindR. apply runs_bindR. exists (Ok b), s1. split; [done|].
  apply runs_bindR. exists (Ok tt), s2. split; [done|]. apply runs_ret.
  apply runs_bind. eexists _, _. split; [rewrite <- Hmap2; by eapply bmapf_checked|]. apply runs_ret.
  exists files. split_and!; [done|done|etransitivity; [done|by eapply redisk_env]|
    rewrite (redisk_user _ _ _ Hre); done|by eapply fresh_nonzero|].
  exists sv. split; [by rewrite (redisk_pool _ _ _ Hre)|done].
Qed.

Lemma inode_wf_set_direct i k b : inode_wf i → inode_wf (set_direct k b i).
Proof. intros []. constructor; cbn; try done. by rewrite length_insert. Qed.
Lemma inode_wf_set_indirect i b : inode_wf i → inode_wf (set_indirect b i).
Proof. intros []. by constructor. Qed.

Lemma bmap_direct_alloc s files V p sv k :
  disk_inv s files → views s files V → s_pool s !! p = Some sv → 0 ≤ k < 15 →
  runs (bmap_direct p k true) s (alloc_post s V p k).
Proof.
  intros Hinv HV Hp Hk. pose proof (di_loaded _ _ Hinv _ _ Hp) as Hi.
  destruct (di_inode _ _ Hinv _ _ Hi) as (Hwf & _).
  unfold bmap_direct. apply runs_bind. eapply runs_get_sv; [done|].
  destruct (lookup_lt_is_Some_2 (sfi_direct (sv_i sv)) (Z.to_nat k)) as [b Hb].
  { rewrite (iw_direct _ Hwf). lia. }
  pose proof (bmapf_direct s (sv_i sv) k b Hwf Hk Hb) as Hbm.
  apply runs_bind. eapply runs_deref; [exact Hb|].
  destruct (Z.eqb_spec b 0) as [->|Hb0]; cbn [andb]; cycle 1.
  { apply runs_bindR, runs_ret. apply runs_bind. rewrite <- Hbm.
    eexists _, _. split; [by eapply bmapf_checked|]. apply runs_ret. eapply alloc_post_found; [done..|congruence]. }
  destruct (balloc_fresh s files V Hinv HV) as [Hrun|(b & s1 & Hrun & Hinv1 & HV1 & Henv1 & Hp1 & Hu1 & Hf & HL)].
  { apply runs_bindR, runs_bindR. exists (Err ENOSPC), s. split; [done|]. by exists files. }
  apply runs_bindR, runs_bindR. exists (Ok b), s1. split; [done|].
  assert (Hp1' : s_pool s1 !! p = Some sv) by (by rewrite Hp1).
  apply runs_bind. eapply runs_get_sv; [exact Hp1'|]. apply runs_bind, runs_put_sv.
  fold (put_inode s1 p sv (set_direct (Z.to_nat k) b (sv_i sv))).
  set (i := set_direct (Z.to_nat k) b (sv_i sv)). set (s2 := put_inode s1 p sv i).
  pose proof (blist_set_direct s1 (sv_i sv) (Z.to_nat k) b Hwf ltac:(lia)) as HLi. fold i in HLi.
  assert (Hzero : default 0 (blist s1 (sv_i sv) !! S (Z.to_nat k)) = 0).
  { rewrite HL by eauto. rewrite <- bmapf_list by lia. done. }
  assert (Hlen : (S (Z.to_nat k) < length (blist s1 (sv_i sv)))%nat) by (rewrite blist_length by done; lia).
  destruct (put_fresh s1 files V p sv i (S (Z.to_nat k)) b) as [Hinv2 HV2]; try done.
  { by apply inode_wf_set_direct. }
  { intros o Ho. rewrite !file_byte_list, HLi. apply list_byte_fill; [done|done|apply Hf|done]. }
  apply runs_ret. apply runs_bind.
  assert (Hmap2 : bmapf s2 i k = b).
  { rewrite bmapf_list by lia. change (blist s2 i) with (blist s1 i). rewrite HLi.
    by rewrite list_lookup_insert_eq. }
  eexists _, _. split; [rewrite <- Hmap2; eapply bmapf_checked; [exact Hinv2|apply lookup_insert_eq]|].
  apply runs_ret. exists (<[sv_ino sv := i]> files).
  split_and!; [done|done|etransitivity; [done|by apply put_inode_env]|done|by eapply fresh_nonzero|].
  exists (set_inode i true sv). split; [apply lookup_insert_eq|done].
Qed.

Lemma bmap_alloc s files V p sv k :
  disk_inv s files → views s files V → s_pool s !! p = Some sv → 0 ≤ k < 143 →
  runs (sfs_bmap p k true) s (alloc_post s V p k).
Proof.
  intros Hinv HV Hp Hk. pose proof (di_loaded _ _ Hinv _ _ Hp) as Hi.
  destruct (di_inode _ _ Hinv _ _ Hi) as (Hwf & _). destruct (decide (k < 15)).
  { unfold sfs_bmap. change SFS_NDIRECT with 15. rewrite (proj2 (Z.ltb_lt k 15)) by lia.
    eapply bmap_direct_alloc; [done..|lia]. }
  rewrite bmap_indirect_unfold by lia.
  replace (alloc_post s V p k) with (alloc_post s V p (15 + (k - 15))) by (f_equal; lia).
  apply runs_bind. eapply runs_get_sv; [done|]. cbn zeta. rewrite andb_false_r.
  destruct (Z.eqb_spec (sfi_indirect (sv_i sv)) 0) as [E|E].
  - destruct (balloc_fresh s files V Hinv HV) as [Hrun|(b & s1 & Hrun & Hinv1 & HV1 & Henv1 & Hp1 & Hu1 & Hf & HL)].
    { apply runs_bindR. exists (Err ENOSPC), s. split; [done|]. by exists files. }
    apply runs_bindR. exists (Ok b), s1. split; [done|].
    assert (Hp1' : s_pool s1 !! p = Some sv) by (by rewrite Hp1).
    apply runs_bind. eapply runs_get_sv; [exact Hp1'|]. apply runs_bind, runs_put_sv.
    fold (put_inode s1 p sv (set_indirect b (sv_i sv))).
    set (i := set_indirect b (sv_i sv)). set (s2 := put_inode s1 p sv i).
    pose proof (fresh_nonzero _ _ _ Hf) as Hb0.
    pose proof (blist_set_indirect s1 (sv_i sv) b E Hb0 (fb_clear _ _ _ Hf)) as HLi. fold i in HLi.
    destruct (put_fresh s1 files V p sv i 0%nat b) as [Hinv2 HV2]; try done.
    { by apply inode_wf_set_indirect. }
    { intros o Ho. rewrite !file_byte_list, HLi. done. }
    assert (Hp2 : s_pool s2 !! p = Some (set_inode i true sv)) by apply lookup_insert_eq.
    assert (Hid2 : idtable s2 i = replicate 128 0).
    { unfold idtable. change (blk s2 (sfi_indirect i)) with (blk s1 b).
      change (sfi_indirect i) with b. by rewrite (proj2 (Z.eqb_neq b 0)), (fb_clear _ _ _ Hf). }
    rewrite <- Hid2.
    refine (runs_mono _ _ _ _ (bmap_entry_alloc s2 _ V p _ (k - 15) Hinv2 HV2 Hp2 Hb0 ltac:(lia)) _).
    intros r s3. apply alloc_post_env; [|done]. etransitivity; [exact Henv1|by apply put_inode_env].
  - destruct (di_block _ _ Hinv _ _ (sfi_indirect (sv_i sv)) Hi) as ([? _] & _); [left|done|].
    destruct (rblock_run s blank_block (sfi_indirect (sv_i sv)) (di_dev _ _ Hinv)) as (s1 & Hr & Hre);
      [lia|apply blank_block_length|].
    apply runs_bindR. eexists _, s1. split; [exact Hr|]. cbv beta iota.
    assert (Hid : words_of 128 (blk s (sfi_indirect (sv_i sv))) = idtable s1 (sv_i sv)).
    { unfold idtable. by rewrite (proj2 (Z.eqb_neq _ _)), (redisk_blk _ _ _ _ Hre) by done. }
    rewrite Hid. eapply runs_mono.
    { eapply (bmap_entry_alloc s1 files V p sv); [by eapply redisk_same_inv|by eapply redisk_same_views|
        by rewrite (redisk_pool _ _ _ Hre)|done|lia]. }
    intros r s3. apply alloc_post_env; [by eapply redisk_env|by eapply redisk_user].
Qed.
End Bmap.

(** ** Reading *)

(** The largest file: 15 direct blocks and 128 through the indirect one. *)
Definition SFS_MAXFILE : Z := 143 * 512.

Section Read.
Context {D H : Type} `{DiskLaws D} `{KHeap H}.
Implicit Types s : sfs D H.

(** [n] bytes of the file from offset [o]. *)
Definition file_bytes s (i : sfs_inode) (o : Z) (n : nat) : list Z :=
  (λ k, file_byte s i (o + Z.of_nat k)) <$> seq 0 n.

Lemma file_bytes_length s i o n : length (file_bytes s i o n) = n.
Proof. unfold file_bytes. by rewrite length_fmap, length_seq. Qed.

Lemma file_bytes_lookup s i o n k :
  (k < n)%nat → file_bytes s i o n !! k = Some (file_byte s i (o + Z.of_nat k)).
Proof. intros. unfold file_bytes. rewrite list_lookup_fmap, lookup_seq_lt by done. done. Qed.

Lemma file_bytes_app s i o n m :
  file_bytes s i o (n + m) = file_bytes s i o n ++ file_bytes s i (o + Z.of_nat n) m.
Proof.
  apply list_eq. intros k. destruct (decide (k < n)%nat).
  - rewrite lookup_app_l by (rewrite file_bytes_length; lia). by rewrite !file_bytes_lookup by lia.
  - rewrite lookup_app_r, file_bytes_length by (rewrite file_bytes_length; lia).
    destruct (decide (k < n + m)%nat).
    + rewrite !file_bytes_lookup by lia. do 2 f_equal. lia.
    + rewrite !lookup_ge_None_2; [done|rewrite file_bytes_length; lia..].
Qed.

(** The contents of block [k] of a file. *)
Definition block_of s (i : sfs_inode) (k : Z) : list Z :=
  if bmapf s i k =? 0 then replicate 512 0 else blk s (bmapf s i k).

Lemma block_of_length s files ino i k :
  disk_inv s files → files !! ino = Some i → length (block_of s i k) = 512%nat.
Proof.
  intros Hinv Hi. unfold block_of. destruct (Z.eqb_spec (bmapf s i k) 0); [apply length_replicate|].
  destruct (di_block _ _ Hinv _ _ _ Hi (bmapf_elem _ _ _ n)) as ([? _] & _); [done|].
  apply blk_length; [apply Hinv|lia].
Qed.

Lemma file_byte_block s files ino i k j :
  disk_inv s files → files !! ino = Some i → 0 ≤ k → (j < 512)%nat →
  block_of s i k !! j = Some (file_byte s i (k * 512 + Z.of_nat j)).
Proof.
  intros Hinv Hi Hk Hj. pose proof (block_of_length s files ino i k Hinv Hi) as Hlen.
  destruct (lookup_lt_is_Some_2 (block_of s i k) j) as [x Hx]; [lia|]. rewrite Hx. f_equal.
  unfold file_byte. replace ((k * 512 + Z.of_nat j) / 512) with k by (Z.to_euclidean_division_equations; lia).
  replace ((k * 512 + Z.of_nat j) mod 512) with (Z.of_nat j) by (Z.to_euclidean_division_equations; lia).
  unfold block_of in Hx. destruct (bmapf s i k =? 0).
  - by apply lookup_replicate in Hx as [-> _].
  - by rewrite Nat2Z.id, Hx.
Qed.

Lemma file_bytes_block s files ino i k skip n :
  disk_inv s files → files !! ino = Some i → 0 ≤ k → (skip + n ≤ 512)%nat →
  file_bytes s i (k * 512 + Z.of_nat skip) n = slice (block_of s i k) skip n.
Proof.
  intros Hinv Hi Hk Hn. pose proof (block_of_length s files ino i k Hinv Hi).
  apply list_eq. intros j. destruct (decide (j < n)%nat).
  - rewrite file_bytes_lookup, slice_lookup by done.
    rewrite (file_byte_block s files ino) by (done || lia). do 2 f_equal. lia.
  - rewrite !lookup_ge_None_2; [done| |rewrite file_bytes_length; lia]. rewrite slice_length; lia.
Qed.

(** [s'] is [s] after reads that left the user memory [ue]. *)
Definition reread s s' (ue : uenv) : Prop :=
  ∃ d, s' = set_device d ue s ∧ disk_ok d ∧ d_blocks d = d_blocks (s_device s) ∧
       ∀ b, sector d b = blk s b.

Lemma reread_redisk s s' ue :
  reread s s' ue → ∃ s1, redisk s s1 (blk s) ∧ s' = set_device (s_device s1) ue s1.
Proof.
  intros (d & -> & Hd). exists (set_device d (s_user s) s). split; [by exists d|done].
Qed.

Lemma reread_of s s' : redisk s s' (blk s) → reread s s' (s_user s).
Proof. done. Qed.

Lemma reread_trans s1 s2 s3 ue2 ue3 : reread s1 s2 ue2 → reread s2 s3 ue3 → reread s1 s3 ue3.
Proof.
  intros (d & -> & ? & ? & Hd) (d' & -> & ? & Hb & Hd'). exists d'. split_and!; try done.
  - by rewrite Hb.
  - intros b. rewrite Hd'. apply Hd.
Qed.

Lemma reread_pool s s' ue : reread s s' ue → s_pool s' = s_pool s ∧ s_user s' = ue.
Proof. by intros (d & -> & _). Qed.

Lemma reread_blk s s' ue b : reread s s' ue → blk s' b = blk s b.
Proof. intros (d & -> & _ & _ & Hd). apply Hd. Qed.

Lemma reread_inv s s' ue files : reread s s' ue → disk_inv s files → disk_inv s' files.
Proof.
  intros (s1 & Hre & ->)%reread_redisk Hinv. apply (redisk_same_inv _ _ _ Hre) in Hinv.
  destruct Hinv as [[] [] ? ? ? ? ? ? []]. constructor; try done; by constructor.
Qed.

Lemma reread_views s s' ue files V : reread s s' ue → views s files V → views s' files V.
Proof.
  intros Hr HV. eapply views_spare; [exact HV|]. intros. by eapply reread_blk.
Qed.

Lemma reread_env s s' ue : reread s s' ue → same_env s s'.
Proof. intros (d & -> & _). by constructor. Qed.

Lemma reread_byte s s' ue i o : reread s s' ue → file_byte s' i o = file_byte s i o.
Proof. intros Hr. apply file_byte_agree. intros. by eapply reread_blk. Qed.

Lemma reread_bytes s s' ue i o n : reread s s' ue → file_bytes s' i o n = file_bytes s i o n.
Proof. intros Hr. unfold file_bytes. apply list_fmap_ext. intros. by eapply reread_byte. Qed.

(** The uio and the state after delivering [data]. *)
Definition delivered s (u : uio) (data : list Z) (r : Z * uio) s' : Prop :=
  r = (0, (deliver u (s_user s) data).1) ∧ reread s s' (deliver u (s_user s) data).2.

Lemma uio_block_index u k :
  0 ≤ k < 2 ^ 32 → uio_offset u / 512 = k → 0 ≤ uio_offset u → uio_block u = k.
Proof.
  intros Hk <- Ho. unfold uio_block, SFS_BLOCKSIZE. rewrite Z.quot_div_nonneg by lia. by apply u32_id.
Qed.

Lemma is_write_read u : uio_rw u = UIO_READ → is_write u = false.
Proof. intros Hu. unfold is_write. by rewrite bool_decide_false by (by rewrite Hu). Qed.
Lemma is_write_write u : uio_rw u = UIO_WRITE → is_write u = true.
Proof. intros Hu. unfold is_write. by rewrite bool_decide_true. Qed.

(** uiomove of bytes that go out. *)
Lemma uiomoveF_deliver s u data rest :
  uio_ok u (s_user s) → uio_rw u = UIO_READ → Z.of_nat (length data) ≤ uio_resid u →
  uiomoveF (data ++ rest) (Z.of_nat (length data)) u s =
    Done ((0, data ++ rest, (deliver u (s_user s) data).1),
          set_device (s_device s) (deliver u (s_user s) data).2 s).
Proof. intros. unfold uiomoveF. rewrite uiomove_deliver by done. done. Qed.

Lemma partial_transfer_read s u b k skip n data :
  dev_wf s → uio_ok u (s_user s) → uio_rw u = UIO_READ → length data = 512%nat →
  0 ≤ skip → skip + Z.of_nat n ≤ 512 → Z.of_nat n ≤ uio_resid u →
  k = slice data (Z.to_nat skip) n →
  runs (partial_transfer data b skip (Z.of_nat n) u) s (delivered s u k).
Proof.
  intros Hdev Hu Hrw Hlen Hs Hn Hres ->. unfold partial_transfer. apply runs_bind.
  set (x := slice data (Z.to_nat skip) n).
  assert (Hx : length x = n) by (apply slice_length; lia).
  assert (Hsplit : drop (Z.to_nat skip) data = x ++ drop n (drop (Z.to_nat skip) data)).
  { unfold x, slice. by rewrite take_drop. }
  rewrite Hsplit. eexists _, _. split.
  { rewrite <- Hx at 2. apply uiomoveF_deliver; [done..|lia]. }
  cbn [Z.eqb negb]. destruct (deliver_fields u (s_user s) x Hu) as (_ & _ & Hrw'); [lia|].
  rewrite is_write_read by congruence. apply runs_ret. split; [done|].
  destruct (redisk_refl s Hdev) as (d & E & ?). exists (s_device s). by destruct Hdev.
Qed.

Lemma partialio_read s files p sv u n :
  disk_inv s files → s_pool s !! p = Some sv → uio_ok u (s_user s) → uio_rw u = UIO_READ →
  0 ≤ uio_offset u < SFS_MAXFILE → uio_offset u mod 512 + Z.of_nat n ≤ 512 → Z.of_nat n ≤ uio_resid u →
  runs (sfs_partialio p u (uio_offset u mod 512) (Z.of_nat n)) s
    (delivered s u (file_bytes s (sv_i sv) (uio_offset u) n)).
Proof.
  intros Hinv Hp Hu Hrw Ho Hskip Hn. pose proof (di_loaded _ _ Hinv _ _ Hp) as Hi.
  set (o := uio_offset u) in *. set (k := o / 512). pose proof (Z.mod_pos_bound o 512 ltac:(lia)) as Hmod.
  assert (Hk : 0 ≤ k < 143) by (unfold SFS_MAXFILE, k in *; Z.to_euclidean_division_equations; lia).
  assert (Hok : o = k * 512 + o mod 512) by (unfold k; Z.to_euclidean_division_equations; lia).
  unfold sfs_partialio. rewrite is_write_read by done. apply runs_bind, runs_assert.
  { rewrite u32_id by lia. apply Z.leb_le. unfold SFS_BLOCKSIZE. lia. }
  rewrite (uio_block_index u k) by (done || lia).
  destruct (bmap_read s files p sv k Hinv Hp Hk) as (s1 & Hrun & Hre).
  apply runs_bind. exists (Ok (bmapf s (sv_i sv) k)), s1. split; [done|].
  assert (Hbytes : file_bytes s (sv_i sv) o n = slice (block_of s (sv_i sv) k) (Z.to_nat (o mod 512)) n).
  { rewrite Hok at 1. rewrite <- (Z2Nat.id (o mod 512)) at 1 by lia.
    apply (file_bytes_block s files (sv_ino sv)); [done..|lia|lia]. }
  pose proof (redisk_wf _ _ _ Hre (di_dev _ _ Hinv)) as Hdev1. pose proof (redisk_user _ _ _ Hre) as Huser1.
  assert (Hdone : ∀ s2 data, reread s1 s2 (s_user s1) → data = block_of s (sv_i sv) k →
    runs (partial_transfer data (bmapf s (sv_i sv) k) (o mod 512) (Z.of_nat n) u) s2
      (delivered s u (file_bytes s (sv_i sv) o n))).
  { intros s2 data Hr2 ->. destruct (reread_pool _ _ _ Hr2) as [_ Hu2].
    assert (reread s s2 (s_user s)) as Hr.
    { rewrite <- Huser1. eapply reread_trans; [by apply reread_of|exact Hr2]. }
    eapply runs_mono.
    - apply partial_transfer_read; [|congruence| | | | | |exact Hbytes]; try done.
      + destruct (reread_inv _ _ _ _ Hr Hinv). done.
      + by eapply block_of_length.
      + lia.
    - intros r s' [-> Hr']. rewrite Hu2, Huser1 in Hr'. rewrite Hu2, Huser1. split; [done|].
      by eapply reread_trans. }
  cbn beta iota. destruct (Z.eqb_spec (bmapf s (sv_i sv) k) 0) as [Hz|Hz].
  - apply runs_bind, runs_assert; [done|]. apply Hdone; [by apply reread_of, redisk_refl|].
    unfold block_of. by rewrite Hz.
  - destruct (di_block _ _ Hinv _ _ _ Hi (bmapf_elem _ _ _ Hz) Hz) as ([? _] & _).
    destruct (rblock_run s1 blank_block (bmapf s (sv_i sv) k) Hdev1) as (s2 & Hrun2 & Hre2).
    { destruct Hre as (d & -> & _). change (nblocks (set_device d (s_user s) s)) with (nblocks s). lia. }
    { apply blank_block_length. }
    apply runs_bind. eexists _, s2. split; [exact Hrun2|]. apply Hdone; [by apply reread_of|].
    rewrite (redisk_blk _ _ _ _ Hre). unfold block_of. by rewrite (proj2 (Z.eqb_neq _ _)).
Qed.

(** Offset and residue do not matter to where the bytes go. *)
Lemma deliver_offres u ue data off r off' r' :
  set_offres off' r' (deliver (set_offres off r u) ue data).1 = set_offres off' r' (deliver u ue data).1 ∧
  (deliver (set_offres off r u) ue data).2 = (deliver u ue data).2.
Proof. unfold deliver, set_offres, uio_step. cbn. destruct (iov u); done. Qed.

Lemma set_offres_id u off r : off = uio_offset u → r = uio_resid u → set_offres off r u = u.
Proof. intros -> ->. by destruct u. Qed.

Lemma uio_ok_offres u ue off r :
  uio_ok u ue → 0 ≤ r ≤ uio_resid u → s32 off = off → uio_ok (set_offres off r u) ue.
Proof.
  intros (? & ? & ? & Hseg) ??. unfold uio_ok. cbn. split_and!; [lia..|done|].
  destruct (uio_segflg u), (iov u); try done.
  - destruct Hseg as (? & ? & ? & Hm). split_and!; [done|lia..|]. intros b Hb. apply Hm. lia.
  - destruct Hseg as (? & ? & ?). split_and!; [done|lia..].
  - destruct Hseg as (? & ? & ? & Hm). split_and!; [done|lia..|]. intros b Hb. apply Hm. lia.
Qed.

Lemma s32_mod x y : x mod 2 ^ 32 = y mod 2 ^ 32 → s32 x = s32 y.
Proof. intros E. unfold s32. f_equal. by rewrite <- (Zplus_mod_idemp_l x), E, Zplus_mod_idemp_l. Qed.

(** Putting the caller's offset and residue back after a block. *)
Lemma restore_offres u ue data off :
  uio_ok u ue → length data = 512%nat → 512 ≤ uio_resid u → s32 off = off →
  let u' := (deliver (set_offres off 512 u) ue data).1 in
  set_offres (s32 (uio_offset u' - off + uio_offset u)) (u32 (uio_resid u' - 512 + s32 (uio_resid u))) u' =
    (deliver u ue data).1.
Proof.
  intros Hu Hlen Hres Hoff u'.
  assert (Hu' : uio_ok (set_offres off 512 u) ue) by (apply uio_ok_offres; [done|lia|done]).
  destruct (deliver_fields _ _ data Hu') as (Hr' & Ho' & _); [cbn; lia|].
  destruct (deliver_fields _ _ data Hu) as (Hr & Ho & _); [lia|]. fold u' in Hr', Ho'.
  unfold u' at 3. rewrite (proj1 (deliver_offres u ue data off 512 _ _)). apply set_offres_id.
  - rewrite Ho, Ho', Hlen. cbn [uio_offset set_offres]. apply s32_mod.
    change (Z.of_nat 512) with 512. unfold s32.
    replace ((off + 512 + 2 ^ 31) mod 2 ^ 32 - 2 ^ 31 - off + uio_offset u)
      with ((off + 512 + 2 ^ 31) mod 2 ^ 32 + (uio_offset u - 2 ^ 31 - off)) by lia.
    rewrite Zplus_mod_idemp_l. f_equal. lia.
  - rewrite Hr, Hr', Hlen. cbn [uio_resid set_offres]. change (Z.of_nat 512) with 512.
    rewrite Z.sub_diag. destruct Hu as (? & ? & _).
    assert (u32 (- 512 + s32 (uio_resid u)) = u32 (uio_resid u - 512)) as E.
    { unfold u32, s32. replace (- 512 + ((uio_resid u + 2 ^ 31) mod 2 ^ 32 - 2 ^ 31))
        with ((uio_resid u + 2 ^ 31) mod 2 ^ 32 + (- 512 - 2 ^ 31)) by lia.
      rewrite Zplus_mod_idemp_l. f_equal. lia. }
    replace (0 - 512 + s32 (uio_resid u)) with (- 512 + s32 (uio_resid u)) by lia.
    rewrite E. apply u32_id. lia.
Qed.

Lemma blockio_read s files p sv u :
  disk_inv s files → s_pool s !! p = Some sv → uio_ok u (s_user s) → uio_rw u = UIO_READ →
  0 ≤ uio_offset u < SFS_MAXFILE → uio_offset u mod 512 = 0 → 512 ≤ uio_resid u →
  runs (sfs_blockio p u) s (delivered s u (file_bytes s (sv_i sv) (uio_offset u) 512)).
Proof.
  intros Hinv Hp Hu Hrw Ho Hal Hres. pose proof (di_loaded _ _ Hinv _ _ Hp) as Hi.
  set (o := uio_offset u) in *. set (k := o / 512).
  assert (Hk : 0 ≤ k < 143) by (unfold SFS_MAXFILE, k in *; Z.to_euclidean_division_equations; lia).
  assert (Hok : o = k * 512) by (unfold k; Z.to_euclidean_division_equations; lia).
  unfold sfs_blockio. rewrite is_write_read by done. rewrite (uio_block_index u k) by (done || lia).
  destruct (bmap_read s files p sv k Hinv Hp Hk) as (s1 & Hrun & Hre).
  apply runs_bind. exists (Ok (bmapf s (sv_i sv) k)), s1. split; [done|].
  pose proof (block_of_length s files (sv_ino sv) (sv_i sv) k Hinv Hi) as Hblen.
  assert (Hbytes : file_bytes s (sv_i sv) o 512 = block_of s (sv_i sv) k).
  { replace o with (k * 512 + Z.of_nat 0) by lia.
    rewrite (file_bytes_block s files (sv_ino sv)) by (done || lia). rewrite <- Hblen. apply slice_all. }
  pose proof (redisk_wf _ _ _ Hre (di_dev _ _ Hinv)) as Hdev1. pose proof (redisk_user _ _ _ Hre) as Huser1.
  cbn beta iota. rewrite Hbytes. unfold block_of. destruct (Z.eqb_spec (bmapf s (sv_i sv) k) 0) as [Hz|Hz].
  - apply runs_bind, runs_assert; [done|]. eexists _, _. split.
    { unfold uiomovezerosF. rewrite Huser1. change SFS_BLOCKSIZE with (Z.of_nat 512).
      rewrite uiomovezeros_deliver by (done || lia). done. }
    split; [done|]. destruct Hre as (d & -> & ?). by exists d.
  - destruct (di_block _ _ Hinv _ _ _ Hi (bmapf_elem _ _ _ Hz) Hz) as ([Hb _] & _).
    set (b := bmapf s (sv_i sv) k) in *. pose proof (dw_small _ (di_dev _ _ Hinv)) as Hsmall.
    apply runs_bind, runs_assert. { apply Z.geb_le. unfold SFS_BLOCKSIZE. lia. }
    change SFS_BLOCKSIZE with 512. rewrite (s32_id (b * 512)) by lia.
    assert (Hu1 : uio_ok (set_offres (b * 512) 512 u) (s_user s1)).
    { rewrite Huser1. apply uio_ok_offres; [done|lia|]. apply s32_id. lia. }
    destruct (rwblock_read s1 (set_offres (b * 512) 512 u) b) as (d & Hrun2 & Hd); try done.
    { destruct Hre as (d & -> & _). change (nblocks (set_device d (s_user s) s)) with (nblocks s). lia. }
    rewrite (redisk_blk _ _ _ _ Hre), Huser1 in Hrun2.
    apply runs_bind. eexists _, _. split; [exact Hrun2|]. apply runs_ret.
    unfold delivered. cbn [fst snd].
    rewrite restore_offres; [|done| |done|apply s32_id; lia].
    + rewrite (proj2 (deliver_offres _ _ _ _ _ 0 0)). split; [done|].
      destruct Hre as (d1 & -> & ? & Hb1 & Hs1). destruct Hd as (? & Hb2 & Hs2).
      exists d. split_and!; [done..|by rewrite Hb2|]. intros c. rewrite Hs2. apply Hs1.
    + unfold block_of in Hblen. by rewrite (proj2 (Z.eqb_neq _ _)) in Hblen.
Qed.

Lemma delivered_nil s u : dev_wf s → uio_ok u (s_user s) → delivered s u [] (0, u) s.
Proof.
  intros Hdev Hu. unfold delivered. rewrite deliver_nil by done. split; [done|].
  by apply reread_of, redisk_refl.
Qed.

(** One transfer after another. *)
Lemma delivered_next s files u d1 r s1 :
  disk_inv s files → uio_ok u (s_user s) → Z.of_nat (length d1) ≤ uio_resid u →
  delivered s u d1 r s1 →
  ∃ u1, r = (0, u1) ∧ disk_inv s1 files ∧ s_pool s1 = s_pool s ∧ uio_ok u1 (s_user s1) ∧
    uio_rw u1 = uio_rw u ∧ uio_resid u1 = uio_resid u - Z.of_nat (length d1) ∧
    uio_offset u1 = s32 (uio_offset u + Z.of_nat (length d1)) ∧
    (∀ i o k, file_bytes s1 i o k = file_bytes s i o k) ∧
    (∀ d2 r2 s2, Z.of_nat (length (d1 ++ d2)) ≤ uio_resid u → delivered s1 u1 d2 r2 s2 →
       delivered s u (d1 ++ d2) r2 s2).
Proof.
  intros Hinv Hu Hlen [-> Hr]. eexists. split; [done|].
  destruct (deliver_fields u _ d1 Hu Hlen) as (? & ? & ?). destruct (reread_pool _ _ _ Hr) as [Hp1 Hu1].
  split_and!; [by eapply reread_inv|assumption| |assumption..| |].
  - rewrite Hu1. by apply deliver_ok.
  - intros. by eapply reread_bytes.
  - intros d2 r2 s2 Hl [-> Hr2]. rewrite Hu1 in *. unfold delivered. rewrite deliver_app by done.
    split; [done|]. by eapply reread_trans.
Qed.

Lemma blockio_loop_read n s files p sv u :
  disk_inv s files → s_pool s !! p = Some sv → uio_ok u (s_user s) → uio_rw u = UIO_READ →
  0 ≤ uio_offset u → uio_offset u + 512 * Z.of_nat n ≤ SFS_MAXFILE → uio_offset u mod 512 = 0 →
  512 * Z.of_nat n ≤ uio_resid u →
  runs (blockio_loop n p u) s (delivered s u (file_bytes s (sv_i sv) (uio_offset u) (n * 512))).
Proof.
  revert s u. induction n as [|n IH]; intros s u Hinv Hp Hu Hrw Ho Hmax Hal Hres.
  { apply runs_ret. apply delivered_nil; [apply Hinv|done]. }
  cbn [blockio_loop]. unfold SFS_MAXFILE in Hmax.
  apply runs_bind. eapply runs_mono;
    [apply (blockio_read s files p sv); [exact Hinv|exact Hp|exact Hu|exact Hrw|unfold SFS_MAXFILE; lia|exact Hal|lia]|].
  intros r s1 Hd. apply (delivered_next s files) in Hd; [|exact Hinv|exact Hu|rewrite file_bytes_length; lia].
  destruct Hd as (u1 & -> & Hinv1 & Hp1 & Hu1 & Hrw1 & Hr1 & Ho1 & Hby & Hnext).
  rewrite file_bytes_length in Hr1, Ho1. rewrite s32_id in Ho1 by lia. cbn [Z.eqb negb].
  eapply runs_mono.
  { apply IH; [done|by rewrite Hp1|done|congruence| | | |]; unfold SFS_MAXFILE; rewrite ?Ho1, ?Hr1; try lia.
    Z.to_euclidean_division_equations; lia. }
  intros r2 s2. rewrite Hby, Ho1. intros Hd2. cbn [Nat.mul]. rewrite file_bytes_app.
  apply Hnext; [|done]. rewrite length_app, !file_bytes_length. lia.
Qed.

Lemma io_body_aligned_read s files p sv u (n : nat) :
  disk_inv s files → s_pool s !! p = Some sv → uio_ok u (s_user s) → uio_rw u = UIO_READ →
  0 ≤ uio_offset u → uio_resid u = Z.of_nat n → uio_offset u + Z.of_nat n ≤ SFS_MAXFILE →
  uio_offset u mod 512 = 0 →
  runs ('(result, u) ← blockio_loop (Z.to_nat (uio_resid u / SFS_BLOCKSIZE)) p u;
        if negb (result =? 0) then mret (result, u)
        else assertF (uio_resid u <? SFS_BLOCKSIZE);;
             if uio_resid u >? 0 then sfs_partialio p u 0 (uio_resid u) else mret (0, u)) s
    (delivered s u (file_bytes s (sv_i sv) (uio_offset u) n)).
Proof.
  intros Hinv Hp Hu Hrw Ho Hn Hmax Hal. change SFS_BLOCKSIZE with 512. unfold SFS_MAXFILE in *.
  rewrite Hn. set (q := Z.to_nat (Z.of_nat n / 512)). set (t := (n - q * 512)%nat).
  assert (Hq : Z.of_nat n = 512 * Z.of_nat q + Z.of_nat t ∧ Z.of_nat t < 512).
  { unfold t, q. Z.to_euclidean_division_equations; lia. }
  apply runs_bind. eapply runs_mono; [eapply (blockio_loop_read q s files p sv);
    [exact Hinv|exact Hp|exact Hu|exact Hrw|exact Ho|unfold SFS_MAXFILE; lia|exact Hal|lia]|].
  intros r s1 Hd. apply (delivered_next s files) in Hd; [|exact Hinv|exact Hu|rewrite file_bytes_length; lia].
  destruct Hd as (u1 & -> & Hinv1 & Hp1 & Hu1 & Hrw1 & Hr1 & Ho1 & Hby & Hnext).
  rewrite file_bytes_length in Hr1, Ho1. rewrite s32_id in Ho1 by lia. cbn [Z.eqb negb].
  assert (Hr1' : uio_resid u1 = Z.of_nat t) by lia. rewrite Hr1'.
  apply runs_bind, runs_assert; [apply Z.ltb_lt; lia|].
  replace n with (q * 512 + t)%nat by lia. rewrite file_bytes_app.
  assert (Hmod : uio_offset u1 mod 512 = 0) by (rewrite Ho1; Z.to_euclidean_division_equations; lia).
  destruct (Z.gtb_spec (Z.of_nat t) 0).
  - pose proof (partialio_read s1 files p sv u1 t) as Hpart. rewrite Hmod in Hpart. eapply runs_mono.
    { apply Hpart; [done|by rewrite Hp1|done|congruence|unfold SFS_MAXFILE; lia|lia|lia]. }
    intros r2 s2. rewrite Hby, Ho1. intros Hd2. apply Hnext; [|done].
    rewrite length_app, !file_bytes_length. lia.
  - assert (t = 0%nat) as -> by lia. apply runs_ret. apply Hnext.
    + rewrite length_app, !file_bytes_length. lia.
    + apply delivered_nil; [apply Hinv1|done].
Qed.

Lemma io_body_read s files p sv u (n : nat) :
  disk_inv s files → s_pool s !! p = Some sv → uio_ok u (s_user s) → uio_rw u = UIO_READ →
  0 ≤ uio_offset u → uio_resid u = Z.of_nat n → uio_offset u + Z.of_nat n ≤ SFS_MAXFILE → uio_offset u < SFS_MAXFILE →
  runs (io_body p u) s (delivered s u (file_bytes s (sv_i sv) (uio_offset u) n)).
Proof.
  intros Hinv Hp Hu Hrw Ho Hn Hmax Hpos. unfold io_body. set (o := uio_offset u) in *.
  pose proof (Z.mod_pos_bound o 512 ltac:(lia)) as Hmod. unfold SFS_MAXFILE in Hmax, Hpos.
  change SFS_BLOCKSIZE with 512. rewrite Z.rem_mod_nonneg by lia. rewrite (u32_id (o mod 512)) by lia.
  destruct (Z.eqb_spec (o mod 512) 0) as [Hal|Hal]; cbn [negb].
  - apply runs_bind, runs_ret. cbn [Z.eqb negb]. destruct (Z.eqb_spec (uio_resid u) 0).
    { assert (n = 0%nat) as -> by lia. apply runs_ret, delivered_nil; [apply Hinv|done]. }
    fold o.
    apply runs_bind, runs_assert. { rewrite Z.rem_mod_nonneg by lia. by apply Z.eqb_eq. }
    apply (io_body_aligned_read s files p sv u n); done.
  - rewrite (u32_id (512 - _)) by lia. set (l := (n `min` Z.to_nat (512 - o mod 512))%nat).
    replace (if 512 - o mod 512 >? uio_resid u then uio_resid u else 512 - o mod 512) with (Z.of_nat l)
      by (destruct (Z.gtb_spec (512 - o mod 512) (uio_resid u)); lia).
    apply runs_bind. eapply runs_mono; [apply (partialio_read s files p sv u l);
      [exact Hinv|exact Hp|exact Hu|exact Hrw|unfold SFS_MAXFILE; fold o; lia|fold o; lia|lia]|].
    intros r s1 Hd. apply (delivered_next s files) in Hd; [|exact Hinv|exact Hu|rewrite file_bytes_length; lia].
    destruct Hd as (u1 & -> & Hinv1 & Hp1 & Hu1 & Hrw1 & Hr1 & Ho1 & Hby & Hnext). fold o in Hnext, Ho1.
    rewrite file_bytes_length in Hr1, Ho1. rewrite s32_id in Ho1 by lia. cbn [Z.eqb negb].
    replace n with (l + (n - l))%nat by lia. rewrite file_bytes_app.
    destruct (Z.eqb_spec (uio_resid u1) 0) as [Hz|Hz].
    + assert (n - l = 0)%nat as -> by lia. apply runs_ret. apply Hnext.
      * rewrite length_app, !file_bytes_length. lia.
      * apply delivered_nil; [apply Hinv1|done].
    + assert (Hal1 : uio_offset u1 mod 512 = 0).
      { rewrite Ho1. assert (Z.of_nat l = 512 - o mod 512) as -> by lia. Z.to_euclidean_division_equations; lia. }
      apply runs_bind, runs_assert. { rewrite Z.rem_mod_nonneg by lia. by apply Z.eqb_eq. }
      eapply runs_mono; [apply (io_body_aligned_read s1 files p sv u1 (n - l));
        [done|by rewrite Hp1|done|congruence|lia|lia|unfold SFS_MAXFILE; lia|done]|].
      intros r2 s2. rewrite Hby, Ho1. intros Hd2. apply Hnext; [|done].
      rewrite length_app, !file_bytes_length. lia.
Qed.

(** The bytes sfs_io reads: up to the end of the file. *)
Definition read_length (size o resid : Z) : nat := Z.to_nat (Z.min resid (size - o)).

Lemma sfs_io_read s files p sv u :
  disk_inv s files → s_pool s !! p = Some sv → uio_ok u (s_user s) → uio_rw u = UIO_READ →
  0 ≤ uio_offset u → uio_offset u + uio_resid u < 2 ^ 31 → sfi_size (sv_i sv) ≤ SFS_MAXFILE →
  runs (sfs_io p u) s (delivered s u (file_bytes s (sv_i sv) (uio_offset u)
    (read_length (sfi_size (sv_i sv)) (uio_offset u) (uio_resid u)))).
Proof.
  intros Hinv Hp Hu Hrw Ho Hend Hmax. pose proof (di_loaded _ _ Hinv _ _ Hp) as Hi.
  destruct (di_inode _ _ Hinv _ _ Hi) as ([Hsz _ _ _ _] & _). pose proof Hu as (Hres & _ & Hs32 & _).
  unfold sfs_io. apply runs_bind. eapply runs_get_sv; [done|]. rewrite is_write_read by done.
  rewrite (s32_id (sfi_size _)), (s32_id (_ + _)) by lia.
  set (size := sfi_size (sv_i sv)) in *. set (o := uio_offset u) in *. set (r := uio_resid u) in *.
  unfold read_length. destruct (Z.geb_spec o size).
  { rewrite Z2Nat.nonpos by lia. apply runs_ret, delivered_nil; [apply Hinv|done]. }
  set (n := Z.to_nat (Z.min r (size - o))).
  set (extra := if o + r >? size then u32 (o + r - size) else 0).
  assert (Hex : extra = r - Z.of_nat n).
  { unfold extra, n. destruct (Z.gtb_spec (o + r) size); [rewrite u32_id by lia|]; lia. }
  apply runs_bind. assert (Hass : (if o + r >? size then assertF (r >? extra) else mret tt) s = Done (tt, s)).
  { destruct (Z.gtb_spec (o + r) size); [|done]. unfold assertF, liftF.
    rewrite (proj2 (Z.gtb_lt r extra)) by lia. done. }
  exists tt, s. split; [exact Hass|]. rewrite Hex. replace (r - (r - Z.of_nat n)) with (Z.of_nat n) by lia.
  set (u0 := set_offres o (Z.of_nat n) u).
  assert (Hu0 : uio_ok u0 (s_user s)) by (apply uio_ok_offres; [done|lia|done]).
  apply runs_bind. eapply runs_mono.
  { apply (io_body_read s files p sv u0 n); [exact Hinv|exact Hp|exact Hu0|exact Hrw|exact Ho|reflexivity|..];
      change (uio_offset u0) with o; lia. }
  intros rr s1 [-> Hr]. unfold io_out. apply runs_bind. eapply runs_get_sv.
  { by rewrite (proj1 (reread_pool _ _ _ Hr)). }
  change (uio_offset u0) with o in *. set (data := file_bytes s (sv_i sv) o n) in *.
  assert (Hlen : Z.of_nat (length data) = Z.of_nat n) by (unfold data; by rewrite file_bytes_length).
  destruct (deliver_fields u0 (s_user s) data Hu0) as (Hr0 & Ho0 & Hrw0); [cbn; lia|].
  destruct (deliver_fields u (s_user s) data Hu) as (Hr1 & Ho1 & _); [lia|].
  rewrite is_write_read by (by rewrite Hrw0). cbn [andb]. apply runs_bind, runs_ret, runs_ret.
  destruct (deliver_offres u (s_user s) data o (Z.of_nat n)
    (uio_offset (deliver u0 (s_user s) data).1) (u32 (uio_resid (deliver u0 (s_user s) data).1 + (r - Z.of_nat n))))
    as [E1 E2]. fold u0 in E1, E2. split; [|by rewrite <- E2]. rewrite E1. f_equal.
  apply set_offres_id; [by rewrite Ho0, Ho1|]. rewrite Hr0, Hr1. cbn [u0 uio_resid set_offres].
  replace (uio_resid u0) with (Z.of_nat n) by done. rewrite u32_id; fold r; lia.
Qed.
End Read.
