(* ===== verification/SfsWrite.v ===== *)
(** * SFS: writing files

    sfs_io overwrites exactly the bytes it consumed, of exactly one file,
    and stops early only when the disk is full or the file would outgrow
    its block map.  Each step of a write is described by [written]: a number
    of bytes consumed from the uio and the abstract file with those bytes in
    place. *)

From S2P Require Import Prelude Ram Kheap KheapSpec KArray Bitmap Bytes Mem CString Uio Device Sfs SfsSpec SfsFile.

(** [f] with [data] laid over it from offset [o]. *)
Definition overwrite (f : Z → Z) (o : Z) (data : list Z) (x : Z) : Z :=
  if decide (o ≤ x < o + Z.of_nat (length data)) then default 0 (data !! Z.to_nat (x - o)) else f x.

Definition write_at (v : afile) (o : Z) (data : list Z) : afile :=
  AFile (af_size v) (af_type v) (af_links v) (overwrite (af_byte v) o data).

Lemma overwrite_nil f o x : overwrite f o [] x = f x.
Proof. unfold overwrite. rewrite decide_False; [done|]. cbn. lia. Qed.

Lemma overwrite_app f o d1 d2 x :
  overwrite (overwrite f o d1) (o + Z.of_nat (length d1)) d2 x = overwrite f o (d1 ++ d2) x.
Proof.
  unfold overwrite. rewrite length_app. destruct (decide (x < o + Z.of_nat (length d1))).
  - rewrite decide_False by lia. destruct (decide (o ≤ x)).
    + rewrite !decide_True by lia. rewrite lookup_app_l by lia. done.
    + rewrite !decide_False by lia. done.
  - rewrite (decide_False (P := o ≤ x < o + Z.of_nat (length d1))) by lia.
    destruct (decide (x < o + Z.of_nat (length d1 + length d2))).
    + rewrite !decide_True by lia. rewrite lookup_app_r by lia. do 2 f_equal. lia.
    + rewrite !decide_False by lia. done.
Qed.

(** Replacing a block whose new contents are the old with [data] inside. *)
Lemma overwrite_block f (b : list Z) k skip data x :
  length b = 512%nat → (skip + length data ≤ 512)%nat → 0 ≤ k →
  (∀ j, (j < 512)%nat → b !! j = Some (f (k * 512 + Z.of_nat j))) → 0 ≤ x →
  (if decide (x / 512 = k) then default 0 (splice b skip data !! Z.to_nat (x mod 512)) else f x) =
  overwrite f (k * 512 + Z.of_nat skip) data x.
Proof.
  intros Hb Hlen Hk Hf Hx. unfold overwrite. destruct (decide (x / 512 = k)) as [Hd|Hd]; cycle 1.
  { rewrite decide_False; [done|]. Z.to_euclidean_division_equations; lia. }
  assert (Hxj : x = k * 512 + Z.of_nat (Z.to_nat (x mod 512)) ∧ (Z.to_nat (x mod 512) < 512)%nat)
    by (Z.to_euclidean_division_equations; lia).
  destruct Hxj as [Hxj Hj]. set (j := Z.to_nat (x mod 512)) in *.
  rewrite splice_lookup by lia. destruct (decide (skip ≤ j < skip + length data)%nat).
  - rewrite decide_True by lia. do 2 f_equal. lia.
  - rewrite decide_False by lia. rewrite Hf by lia. cbn. by rewrite <- Hxj.
Qed.

Section Write.
Context {D H : Type} `{DiskLaws D} `{KHeap H}.
Implicit Types s : sfs D H.

Lemma views_ext s files V ino v v' :
  views s files (<[ino := v]> V) → af_size v' = af_size v → af_type v' = af_type v →
  af_links v' = af_links v → (∀ o, 0 ≤ o → af_byte v' o = af_byte v o) →
  views s files (<[ino := v']> V).
Proof.
  intros HV ??? Hby j. specialize (HV j). destruct (decide (j = ino)) as [->|].
  - rewrite lookup_insert_eq in *. destruct (files !! ino) as [i|]; [|done].
    destruct HV as (? & ? & ? & Hb). split_and!; [congruence..|]. intros. rewrite Hby by done. auto.
  - rewrite lookup_insert_ne in * by done. done.
Qed.

(** Overwriting a block of a file. *)
Lemma write_block s s' files V ino i v k x :
  disk_inv s files → views s files V → files !! ino = Some i → V !! ino = Some v → 0 ≤ k →
  bmapf s i k ≠ 0 → redisk s s' (set_blk s (bmapf s i k) x) →
  disk_inv s' files ∧
  views s' files (<[ino := AFile (af_size v) (af_type v) (af_links v)
    (λ o, if decide (o / 512 = k) then default 0 (x !! Z.to_nat (o mod 512)) else af_byte v o)]> V).
Proof.
  intros Hinv HV Hi Hv Hk Hb Hre. set (b := bmapf s i k) in *.
  pose proof (bmapf_elem s i k Hb) as Hel. fold b in Hel.
  destruct (di_inode _ _ Hinv _ _ Hi) as (Hwf & Hnj & _).
  destruct (di_block _ _ Hinv _ _ _ Hi Hel Hb) as (Hval & _ & Hnoino).
  assert (Hpos : blist s i !! S (Z.to_nat k) = Some b).
  { unfold b in *. rewrite bmapf_list in * by done. destruct (blist s i !! _); done. }
  assert (Hother : ∀ ino' i', files !! ino' = Some i' → sfi_indirect i' ≠ 0 → sfi_indirect i' ≠ b).
  { intros ino' i' Hi' Hid E. assert (ino = ino') as <-.
    { eapply (di_own _ _ Hinv); [exact Hi|exact Hi'|exact Hel|rewrite <- E; left|done]. }
    rewrite Hi in Hi'. injection Hi' as <-.
    pose proof (Hnj 0%nat _ b ltac:(cbn; by rewrite E) Hpos Hb). done. }
  assert (Hblk : ∀ c, c ≠ b → blk s' c = blk s c).
  { intros c Hc. rewrite (redisk_blk _ _ _ _ Hre). unfold set_blk. by rewrite decide_False. }
  split.
  - eapply disk_inv_spare; [exact Hre|exact Hinv|..].
    + intros ino' i' Hi' Hid. unfold set_blk. rewrite decide_False; [done|]. by eapply Hother.
    + intros ino' i' Hi'. unfold set_blk. rewrite decide_False; [done|]. intros ->. congruence.
    + intros c Hc. unfold set_blk. rewrite decide_False; [done|]. by intros ->.
  - intros j. specialize (HV j). destruct (decide (j = ino)) as [->|Hj].
    + rewrite lookup_insert_eq. rewrite Hi in *. rewrite Hv in HV. destruct HV as (? & ? & ? & Hby).
      split_and!; [done..|]. intros o Ho. cbn. rewrite file_byte_list.
      rewrite (blist_agree s s') by (intros; apply Hblk; by eapply Hother).
      replace (list_byte (blist s i) (blk s') o) with (list_byte (blist s i) (λ d, if decide (d = b) then x else blk s d) o).
      2: { unfold list_byte. destruct (_ =? 0); [done|]. by rewrite (redisk_blk _ _ _ _ Hre). }
      rewrite (list_byte_write _ _ _ _ _ _ Hnj Hpos Hb Ho), Z2Nat.id by done.
      destruct (decide _); [done|]. by rewrite Hby, file_byte_list.
    + rewrite lookup_insert_ne by done. destruct (files !! j) as [i'|] eqn:Hi', (V !! j); try done.
      destruct HV as (? & ? & ? & Hby). split_and!; [done..|]. intros o Ho. rewrite Hby by done.
      symmetry. apply file_byte_agree. intros c Hc Hc0. apply Hblk. intros ->.
      apply Hj. symmetry. eapply (di_own _ _ Hinv); [exact Hi|exact Hi'|exact Hel|exact Hc|done].
Qed.

(** ** What a write does *)

(** The result [e] of asking for [n] bytes at offset [o] when [k] were
    consumed: all of them, or those up to the start of a block that could
    not be had.  Nothing can fail when there is nothing to do. *)
Definition write_code (o : Z) (n k : nat) (e : Z) : Prop :=
  e = 0 ∧ k = n ∧ (n = 0%nat ∨ o + Z.of_nat n ≤ SFS_MAXFILE) ∨
  (k = 0%nat ∨ (k < n)%nat ∧ (o + Z.of_nat k) mod 512 = 0) ∧ (o mod 512 ≠ 0 ∨ (0 < n)%nat) ∧
  (e = ENOSPC ∨ e = EINVAL ∧ SFS_MAXFILE < o + Z.of_nat n).

Lemma write_code_le o n k e : write_code o n k e → (k ≤ n)%nat.
Proof. intros [(_ & -> & _)|[[->|[? _]] _]]; lia. Qed.

Lemma write_code_done o n k : write_code o n k 0 → k = n.
Proof. intros [(_ & ? & _)|(_ & _ & [?|[? _]])]; done. Qed.

(** A stage after [n1] bytes that all went through. *)
Lemma write_code_next o n1 n2 k e :
  (o + Z.of_nat n1) mod 512 = 0 ∨ n1 = 0%nat → write_code o n1 n1 0 →
  write_code (o + Z.of_nat n1) n2 k e → write_code o (n1 + n2) (n1 + k) e.
Proof.
  intros Hal [(_ & _ & Hm1)|(_ & _ & [?|[? _]])] [(-> & -> & Hm2)|(Hk & Hn & He)]; [left|right|done..].
  { split; [done|]. split; [done|]. lia. }
  split; [|split; [|destruct He as [->|[-> ?]]; [by left|right; split; [done|lia]]]].
  - destruct Hal as [Hal| ->]; [|replace (o + Z.of_nat 0) with o in * by lia; exact Hk].
    destruct Hk as [->|[? Hk]]; right; split; [lia| |lia|].
    + rewrite Nat.add_0_r. done.
    + rewrite <- Hk. f_equal. lia.
  - destruct Hal as [Hal| ->]; [right; lia|]. by replace (o + Z.of_nat 0) with o in Hn by lia.
Qed.

(** A stage that failed fails the whole. *)
Lemma write_code_fail o n1 n2 k e :
  e ≠ 0 → write_code o n1 k e → write_code o (n1 + n2) k e.
Proof.
  intros Hz [(? & _)|(Hk & Hn & He)]; [done|]. right. split; [|split].
  - destruct Hk as [->|[? ?]]; [by left|]. right. split; [lia|done].
  - destruct Hn; [by left|right; lia].
  - destruct He as [->|[-> ?]]; [by left|right; split; [done|lia]].
Qed.

(** Some block that the bytes [o], [o + n) touch shows only zeros: only for
    such a block is a new one needed. *)
Definition blank_part (v : afile) (o : Z) (n : nat) : Prop :=
  ∃ k, o / 512 ≤ k ∧ 512 * k < o + Z.max 1 (Z.of_nat n) ∧ ∀ x, x / 512 = k → 0 ≤ x → af_byte v x = 0.

Definition written s V ino v u (n : nat) (r : Z * uio) s' : Prop :=
  ∃ k files', write_code (uio_offset u) n k r.1 ∧ (r.1 = ENOSPC → blank_part v (uio_offset u) n) ∧ r.2 = consume u (Z.of_nat k) ∧
    disk_inv s' files' ∧
    views s' files' (<[ino := write_at v (uio_offset u) (source u (s_user s) k)]> V) ∧
    same_env s s' ∧ s_user s' = s_user s.

Lemma source_0 u ue : source u ue 0 = [].
Proof. unfold source. by destruct (iov u). Qed.

Lemma written_nothing s files V s' ino v u n e :
  uio_ok u (s_user s) → V !! ino = Some v → disk_inv s' files → views s' files V →
  same_env s s' → s_user s' = s_user s → write_code (uio_offset u) n 0 e →
  (e = ENOSPC → blank_part v (uio_offset u) n) →
  written s V ino v u n (e, u) s'.
Proof.
  intros Hu Hv ??????. exists 0%nat, files. rewrite source_0. change (Z.of_nat 0) with 0. cbn [fst snd].
  rewrite (consume_0 _ _ Hu). split_and!; [done..| |done|done].
  eapply (views_ext _ _ _ _ v); [by rewrite insert_id|done..|].

  intros. cbn. apply overwrite_nil.
Qed.

Lemma written_none s files V ino v u :
  uio_ok u (s_user s) → V !! ino = Some v → disk_inv s files → views s files V →
  written s V ino v u 0 (0, u) s.
Proof. intros. eapply written_nothing; [done..| |done]. left. split_and!; [done|done|by left]. Qed.

Lemma same_env_pool s s' p sv :
  same_env s s' → s_pool s !! p = Some sv →
  ∃ sv', s_pool s' !! p = Some sv' ∧ vn_same sv sv'.
Proof.
  intros Henv Hp. pose proof (se_pool _ _ Henv p) as Hq. rewrite Hp in Hq.
  inversion Hq as [? sv' Hsame E1 E2|]; subst. by exists sv'.
Qed.

Lemma views_files s files V ino v :
  views s files V → V !! ino = Some v → ∃ i, files !! ino = Some i ∧ shows s i v.
Proof. intros HV Hv. specialize (HV ino). rewrite Hv in HV. destruct (files !! ino) as [i|]; [eauto|done]. Qed.

Lemma sector_contents s files V ino i v k :
  disk_inv s files → views s files V → files !! ino = Some i → V !! ino = Some v → 0 ≤ k →
  bmapf s i k ≠ 0 → length (blk s (bmapf s i k)) = 512%nat ∧
  ∀ j, (j < 512)%nat → blk s (bmapf s i k) !! j = Some (af_byte v (k * 512 + Z.of_nat j)).
Proof.
  intros Hinv HV Hi Hv Hk Hb. destruct (views_lookup _ _ _ _ _ HV Hi) as (v' & Hv' & _ & _ & _ & Hby).
  rewrite Hv in Hv'. injection Hv' as <-.
  pose proof (block_of_length s files ino i k Hinv Hi) as Hlen.
  pose proof (λ j, file_byte_block s files ino i k j Hinv Hi Hk) as Hfb.
  unfold block_of in *. rewrite (proj2 (Z.eqb_neq _ _) Hb) in *. split; [done|].
  intros j Hj. rewrite Hfb by done. f_equal. rewrite Hby by lia. done.
Qed.

(** After the block is found or allocated, a sector holding the old block
    with the consumed bytes inside is written back. *)
Lemma written_block s s1 s2 files V ino i v u k skip n :
  uio_ok u (s_user s) → disk_inv s1 files → views s1 files V → files !! ino = Some i → V !! ino = Some v →
  0 ≤ k → (skip + n ≤ 512)%nat → uio_offset u = k * 512 + Z.of_nat skip →
  Z.of_nat n ≤ uio_resid u → length (source u (s_user s) n) = n →
  bmapf s1 i k ≠ 0 → k < 143 → same_env s s1 → s_user s1 = s_user s →
  redisk s1 s2 (set_blk s1 (bmapf s1 i k) (splice (blk s1 (bmapf s1 i k)) skip (source u (s_user s) n))) →
  written s V ino v u n (0, consume u (Z.of_nat n)) s2.
Proof.
  intros Hu Hinv HV Hi Hv Hk Hn Ho Hres Hlen Hb Hmax Henv Huser Hre.
  destruct (write_block _ _ _ _ _ _ _ _ _ Hinv HV Hi Hv Hk Hb Hre) as [Hinv2 HV2].
  destruct (sector_contents s1 files V ino i v k Hinv HV Hi Hv Hk Hb) as [Hbl Hold].
  exists n, files. split_and!; [left; split_and!; [done|done|unfold SFS_MAXFILE; lia]|done|done|done| |etransitivity; [done|by eapply redisk_env]|].
  - eapply views_ext; [exact HV2|done..|]. intros x Hx. cbn [af_byte write_at]. rewrite Ho.
    symmetry. apply overwrite_block; [done|lia|done|done|done].
  - by rewrite (redisk_user _ _ _ Hre).
Qed.

Lemma partial_transfer_write s b skip n u :
  dev_wf s → uio_ok u (s_user s) → uio_rw u = UIO_WRITE → 0 ≤ b < nblocks s →
  (skip + n ≤ 512)%nat → Z.of_nat n ≤ uio_resid u →
  length (source u (s_user s) n) = n ∧
  ∃ s', partial_transfer (blk s b) b (Z.of_nat skip) (Z.of_nat n) u s =
          Done ((0, consume u (Z.of_nat n)), s') ∧
    redisk s s' (set_blk s b (splice (blk s b) skip (source u (s_user s) n))).
Proof.
  intros Hdev Hu Hrw Hb Hn Hres. pose proof (blk_length s b Hdev Hb) as Hlen.
  destruct (uiomove_source (drop skip (blk s b)) n u (s_user s)) as [Hmove Hsrc];
    [done|done|done|rewrite length_drop; lia|]. split; [done|].
  set (x := take skip (blk s b) ++ splice (drop skip (blk s b)) 0 (source u (s_user s) n)).
  assert (Hx : x = splice (blk s b) skip (source u (s_user s) n)).
  { unfold x, splice. rewrite take_0, drop_drop. cbn [app]. done. }
  assert (Hxl : length x = 512%nat) by (rewrite Hx, splice_length; lia).
  destruct (wblock_run s x b Hdev Hb Hxl) as (s' & Hw & Hre).
  exists s'. split; [|by rewrite <- Hx]. unfold partial_transfer. rewrite Nat2Z.id.
  assert (Hm : uiomoveF (drop skip (blk s b)) (Z.of_nat n) u s =
    Done (0, splice (drop skip (blk s b)) 0 (source u (s_user s) n), consume u (Z.of_nat n), s)).
  { unfold uiomoveF. rewrite Hmove. cbn. by destruct s. }
  rewrite (bindF_run _ _ _ _ _ Hm). cbn [Z.eqb negb].
  destruct (consume_fields u (s_user s) (Z.of_nat n) Hu) as (_ & _ & Hrw'); [lia|].
  rewrite is_write_write by congruence. rewrite (bindF_run _ _ _ _ _ Hw). done.
Qed.

(** Finding the block to write. *)
Definition mapped_block s V (ino : Z) (v : afile) (k : Z) (r : res Z) s1 : Prop :=
  ∃ files, disk_inv s1 files ∧ views s1 files V ∧ same_env s s1 ∧ s_user s1 = s_user s ∧
    match r with
    | Err e => e = ENOSPC ∧ (∀ x, x / 512 = k → 0 ≤ x → af_byte v x = 0) ∨ e = EINVAL ∧ 143 ≤ k
    | Ok b => b ≠ 0 ∧ k < 143 ∧ 0 ≤ b < nblocks s1 ∧ ∃ i, files !! ino = Some i ∧ bmapf s1 i k = b
    end.

Lemma bmap_write s files V p sv v k :
  disk_inv s files → views s files V → s_pool s !! p = Some sv → V !! sv_ino sv = Some v → 0 ≤ k < 2 ^ 32 →
  runs (sfs_bmap p k true) s (mapped_block s V (sv_ino sv) v k).
Proof.
  intros Hinv HV Hp Hv Hk. pose proof (di_loaded _ _ Hinv _ _ Hp) as Hcur. destruct (decide (k < 143)); cycle 1.
  { exists (Err EINVAL), s. split; [apply bmap_too_large; lia|]. exists files. split_and!; [done..|]. right. split; [done|lia]. }
  destruct (decide (bmapf s (sv_i sv) k = 0)) as [Hz|Hz]; cycle 1.
  { destruct (bmap_find s files p sv k true Hinv Hp) as (s1 & Hrun & Hre); [lia|done|].
    eexists _, s1. split; [exact Hrun|]. exists files.
    pose proof (redisk_same_inv _ _ _ Hre Hinv) as Hinv1.
    destruct (di_block _ _ Hinv _ _ _ Hcur (bmapf_elem _ _ _ Hz) Hz) as ([? _] & _).
    split_and!; [done|by eapply redisk_same_views|by eapply redisk_env|by rewrite (redisk_user _ _ _ Hre)|done|done| | |].
    - lia.
    - destruct Hre as (d & -> & _). change (nblocks _) with (nblocks s). lia.
    - exists (sv_i sv). split; [done|]. unfold bmapf. rewrite (idtable_agree s s1); [done|].
      intros. by rewrite (redisk_blk _ _ _ _ Hre). }
  eapply runs_mono; [apply (bmap_alloc s files V p sv k Hinv HV Hp); lia|].
  intros r s1 (files1 & Hinv1 & HV1 & Henv & Hu & Hr). exists files1. split_and!; [done..|].
  destruct r as [e|b].
  { left. split; [done|]. intros x <- Hx. destruct (views_lookup _ _ _ _ _ HV Hcur) as (v' & Hv' & _ & _ & _ & Hby).
    assert (v' = v) as -> by congruence. rewrite Hby by done. unfold file_byte. by rewrite Hz. }
  destruct Hr as (Hb & sv1 & Hp1 & Hbm). split; [done|].
  destruct (same_env_pool _ _ _ _ Henv Hp) as (sv1' & Hp1' & _ & _ & _ & _ & Hino).
  rewrite Hp1 in Hp1'. injection Hp1' as <-. pose proof (di_loaded _ _ Hinv1 _ _ Hp1) as Hi. rewrite Hino in Hi.
  rewrite <- Hbm in Hb |- *. destruct (di_block _ _ Hinv1 _ _ _ Hi (bmapf_elem _ _ _ Hb) Hb) as ([? _] & _).
  split; [done|]. split; [lia|]. by exists (sv_i sv1).
Qed.

(** A write that finds no block consumes nothing. *)
Lemma written_error s files V s1 ino v u n k e :
  uio_ok u (s_user s) → V !! ino = Some v → disk_inv s1 files → views s1 files V →
  same_env s s1 → s_user s1 = s_user s →
  e = ENOSPC ∧ (∀ x, x / 512 = k → 0 ≤ x → af_byte v x = 0) ∨ e = EINVAL ∧ 143 ≤ k →
  uio_offset u / 512 = k → uio_offset u mod 512 ≠ 0 ∨ (0 < n)%nat →
  written s V ino v u n (e, u) s1.
Proof.
  intros Hu Hv Hinv HV Henv Huser He Hk Hpos. eapply written_nothing; [done..| |].
  - right. split; [by left|]. split; [done|]. destruct He as [[-> _]|[-> ?]]; [by left|]. right. split; [done|].
    unfold SFS_MAXFILE. Z.to_euclidean_division_equations; lia.
  - intros ->. destruct He as [[_ Hz]|[? _]]; [|done]. exists k. split_and!; [lia| |done].
    Z.to_euclidean_division_equations; lia.
Qed.

Lemma partialio_write s files V p sv v u (n : nat) :
  disk_inv s files → views s files V → s_pool s !! p = Some sv → V !! sv_ino sv = Some v →
  uio_ok u (s_user s) → uio_rw u = UIO_WRITE → 0 ≤ uio_offset u < 2 ^ 31 →
  uio_offset u mod 512 + Z.of_nat n ≤ 512 → Z.of_nat n ≤ uio_resid u →
  uio_offset u mod 512 ≠ 0 ∨ (0 < n)%nat →
  runs (sfs_partialio p u (uio_offset u mod 512) (Z.of_nat n)) s (written s V (sv_ino sv) v u n).
Proof.
  intros Hinv HV Hp Hv Hu Hrw Ho Hn Hres Hpos. set (k := uio_offset u / 512).
  set (skip := Z.to_nat (uio_offset u mod 512)).
  assert (Hk : 0 ≤ k < 2 ^ 31 ∧ uio_offset u mod 512 = Z.of_nat skip ∧ uio_offset u = k * 512 + Z.of_nat skip).
  { unfold k, skip. Z.to_euclidean_division_equations; lia. }
  destruct Hk as (Hk & Hskip & Hok). rewrite Hskip in *.
  unfold sfs_partialio. rewrite is_write_write by done. apply runs_bind, runs_assert.
  { rewrite u32_id by lia. apply Z.leb_le. unfold SFS_BLOCKSIZE. lia. }
  rewrite (uio_block_index u k) by (done || lia). apply runs_bind.
  eapply runs_mono; [apply (bmap_write s files V p sv v k); [done..|lia]|].
  intros [e|b] s1 (files1 & Hinv1 & HV1 & Henv & Huser & Hr).
  { apply runs_ret. eapply written_error; [done..|]. by rewrite Hskip. }
  destruct Hr as (Hb0 & Hk143 & Hb & i & Hi & Hbm). rewrite (proj2 (Z.eqb_neq b 0)) by done.
  destruct (rblock_run s1 blank_block b (di_dev _ _ Hinv1) Hb blank_block_length) as (s2 & Hrun2 & Hre2).
  apply runs_bind. eexists _, s2. split; [exact Hrun2|]. cbv beta iota.
  pose proof (redisk_same_inv _ _ _ Hre2 Hinv1) as Hinv2. pose proof (redisk_same_views _ _ _ _ Hre2 HV1) as HV2.
  pose proof (redisk_user _ _ _ Hre2) as Huser2. pose proof (redisk_env _ _ _ Hre2) as Henv2.
  assert (Hblk2 : ∀ c, blk s2 c = blk s1 c) by (intros; by rewrite (redisk_blk _ _ _ _ Hre2)).
  assert (Hbm2 : bmapf s2 i k = b).
  { rewrite <- Hbm. unfold bmapf. rewrite (idtable_agree s1 s2); [done|]. intros. by rewrite Hblk2. }
  rewrite <- Hblk2. destruct (partial_transfer_write s2 b skip n u) as (Hsrc & s3 & Hrun3 & Hre3);
    [apply Hinv2|by rewrite Huser2, Huser|done|by destruct Hre2 as (d & -> & _)|lia|done|].
  eexists _, s3. split; [exact Hrun3|]. rewrite Huser2, Huser in Hsrc, Hre3. rewrite <- Hbm2 in Hre3.
  eapply (written_block s s2 s3 files1 V (sv_ino sv) i v u k skip n); try done; [lia|lia|congruence| |congruence].
  by etransitivity.
Qed.

Lemma restore_offres_consume u ue off :
  uio_ok u ue → 512 ≤ uio_resid u → s32 off = off →
  let u' := consume (set_offres off 512 u) 512 in
  set_offres (s32 (uio_offset u' - off + uio_offset u)) (u32 (uio_resid u' - 512 + s32 (uio_resid u))) u' =
    consume u 512.
Proof.
  intros Hu Hres Hoff u'. pose proof (restore_offres u ue (replicate 512 0) off Hu) as Hr.
  rewrite length_replicate in Hr. specialize (Hr eq_refl Hres Hoff). cbn zeta in Hr.
  revert Hr. unfold u', consume, deliver, set_offres, uio_step. cbn [iov].
  rewrite length_replicate. change (Z.of_nat 512) with 512.
  destruct (iov u) as [buf pos|va]; cbn; intros Hr; injection Hr; intros; congruence.
Qed.

Lemma source_offres u ue off r n : source (set_offres off r u) ue n = source u ue n.
Proof. done. Qed.

Lemma blockio_write s files V p sv v u :
  disk_inv s files → views s files V → s_pool s !! p = Some sv → V !! sv_ino sv = Some v →
  uio_ok u (s_user s) → uio_rw u = UIO_WRITE → 0 ≤ uio_offset u < 2 ^ 31 →
  uio_offset u mod 512 = 0 → 512 ≤ uio_resid u →
  runs (sfs_blockio p u) s (written s V (sv_ino sv) v u 512).
Proof.
  intros Hinv HV Hp Hv Hu Hrw Ho Hal Hres. set (k := uio_offset u / 512).
  assert (Hk : 0 ≤ k < 2 ^ 31 ∧ uio_offset u = k * 512 + Z.of_nat 0).
  { unfold k. Z.to_euclidean_division_equations; lia. }
  destruct Hk as (Hk & Hok). unfold sfs_blockio. rewrite is_write_write by done.
  rewrite (uio_block_index u k) by (done || lia). apply runs_bind.
  eapply runs_mono; [apply (bmap_write s files V p sv v k); [done..|lia]|].
  intros [e|b] s1 (files1 & Hinv1 & HV1 & Henv & Huser & Hr).
  { apply runs_ret. eapply written_error; [done..|]. right. lia. }
  destruct Hr as (Hb0 & Hk143 & Hb & i & Hi & Hbm). rewrite (proj2 (Z.eqb_neq b 0)) by done.
  pose proof (dw_small _ (di_dev _ _ Hinv1)) as Hsmall. change SFS_BLOCKSIZE with 512.
  apply runs_bind, runs_assert; [by apply Z.geb_le|]. rewrite (s32_id (b * 512)) by lia.
  set (u1 := set_offres (b * 512) 512 u).
  assert (Hu1 : uio_ok u1 (s_user s1)).
  { rewrite Huser. apply uio_ok_offres; [done|lia|]. apply s32_id. lia. }
  destruct (rwblock_write s1 u1 b (di_dev _ _ Hinv1) Hu1 Hrw eq_refl Hb eq_refl) as (s2 & Hrun2 & Hre2).
  destruct (uiomove_source (replicate 512 0) 512 u (s_user s) Hu Hrw) as [_ Hlen];
    [lia|rewrite length_replicate; lia|].
  apply runs_bind. eexists _, s2. split; [exact Hrun2|]. cbv beta iota. apply runs_ret.
  change SECTSIZE with 512. unfold u1. rewrite (restore_offres_consume u (s_user s)) by (done || lia || (apply s32_id; lia)).
  rewrite Huser in Hre2. unfold u1 in Hre2. rewrite source_offres in Hre2.
  destruct (sector_contents s1 files1 V _ i v k Hinv1 HV1 Hi Hv) as [Hbl _]; [lia|congruence|].
  eapply (written_block s s1 s2 files1 V (sv_ino sv) i v u k 0 512); try first [done|lia|congruence].
  rewrite Hbm in *. rewrite splice_whole by lia. exact Hre2.
Qed.

Lemma blank_more v o n m : blank_part v o n → blank_part v o (n + m).
Proof. intros (k & ? & ? & ?). exists k. split_and!; [done|lia|done]. Qed.

Lemma blank_next v o d n2 :
  (o + Z.of_nat (length d)) mod 512 = 0 ∨ length d = 0%nat →
  (o + Z.of_nat (length d)) mod 512 ≠ 0 ∨ (0 < n2)%nat →
  blank_part (write_at v o d) (o + Z.of_nat (length d)) n2 → blank_part v o (length d + n2).
Proof.
  intros Hal Hpos (k & Hk1 & Hk2 & Hz). exists k. split_and!.
  - etransitivity; [|exact Hk1]. apply Z.div_le_mono; lia.
  - destruct Hal as [Hal|Hal]; lia.
  - intros x Hx Hx0. specialize (Hz x Hx Hx0). cbn [write_at af_byte] in Hz. rewrite <- Hz. unfold overwrite.
    rewrite decide_False; [done|]. destruct Hal as [Hal|Hal]; [|lia]. Z.to_euclidean_division_equations; lia.
Qed.

(** One write after another. *)
Lemma written_next s V ino v u n1 r s1 :
  uio_ok u (s_user s) → 0 ≤ uio_offset u → uio_offset u + Z.of_nat n1 < 2 ^ 31 → Z.of_nat n1 ≤ uio_resid u →
  length (source u (s_user s) n1) = n1 → (uio_offset u + Z.of_nat n1) mod 512 = 0 ∨ n1 = 0%nat →
  written s V ino v u n1 r s1 → r.1 = 0 →
  ∃ files1 u1, r = (0, u1) ∧ u1 = consume u (Z.of_nat n1) ∧ disk_inv s1 files1 ∧
    views s1 files1 (<[ino := write_at v (uio_offset u) (source u (s_user s) n1)]> V) ∧
    same_env s s1 ∧ s_user s1 = s_user s ∧ uio_ok u1 (s_user s1) ∧
    uio_rw u1 = uio_rw u ∧ uio_resid u1 = uio_resid u - Z.of_nat n1 ∧
    uio_offset u1 = uio_offset u + Z.of_nat n1 ∧
    ∀ n2 r2 s2, Z.of_nat (n1 + n2) ≤ uio_resid u →
      written s1 (<[ino := write_at v (uio_offset u) (source u (s_user s) n1)]> V) ino
        (write_at v (uio_offset u) (source u (s_user s) n1)) u1 n2 r2 s2 →
      written s V ino v u (n1 + n2) r2 s2.
Proof.
  intros Hu Ho Hend Hres Hlen Hal (k & files1 & Hcode & _ & Hr2 & Hinv & HV & Henv & Huser) Hz.
  rewrite Hz in Hcode. pose proof (write_code_done _ _ _ Hcode) as ->.
  destruct (consume_fields u (s_user s) (Z.of_nat n1) Hu) as (Hr1 & Ho1 & Hrw1); [lia|].
  rewrite s32_id in Ho1 by lia. exists files1, (consume u (Z.of_nat n1)).
  split; [by destruct r; cbn in *; congruence|]. split; [done|]. split; [done|]. split; [done|].
  split; [done|]. split; [done|]. split; [rewrite Huser; apply consume_ok; [done|lia]|].
  split; [done|]. split; [done|]. split; [done|]. intros n2 r2 s2 Hn2 (k2 & files2 & Hc2 & Hbl & Hr & ? & HV2 & ? & ?).
  pose proof (write_code_le _ _ _ _ Hc2) as Hk2.
  exists (n1 + k2)%nat, files2. split_and!; [| | |done| |by etransitivity|congruence].
  - rewrite Ho1 in Hc2. by eapply write_code_next.
  - intros E. rewrite Ho1 in Hc2, Hbl. pose proof (blank_next v (uio_offset u) (source u (s_user s) n1) n2) as Hb.
    rewrite Hlen in Hb. apply Hb; [done| |by apply Hbl]. destruct Hc2 as [(E' & _)|(_ & ? & _)]; [by rewrite E in E'|done].
  - rewrite Hr, (consume_consume u (s_user s)) by (done || lia). f_equal. lia.
  - rewrite insert_insert_eq in HV2. eapply views_ext; [exact HV2|done..|]. intros x Hx.
    cbn [write_at af_byte]. rewrite Ho1, Huser. rewrite source_app by (done || lia).
    rewrite <- overwrite_app, Hlen. done.
Qed.

Lemma source_length s u n :
  uio_ok u (s_user s) → uio_rw u = UIO_WRITE → Z.of_nat n ≤ uio_resid u →
  length (source u (s_user s) n) = n.
Proof.
  intros Hu Hrw Hn. by destruct (uiomove_source (replicate n 0) n u (s_user s) Hu Hrw Hn);
    [rewrite length_replicate|].
Qed.

(** Sequencing two stages of a write, the second skipped after an error. *)
Lemma runs_written_then s V ino v u n1 n2 (m : F D H (Z * uio)) (f : uio → F D H (Z * uio)) :
  uio_ok u (s_user s) → uio_rw u = UIO_WRITE → 0 ≤ uio_offset u → uio_offset u + Z.of_nat n1 < 2 ^ 31 →
  Z.of_nat (n1 + n2) ≤ uio_resid u → (uio_offset u + Z.of_nat n1) mod 512 = 0 ∨ n1 = 0%nat →
  runs m s (written s V ino v u n1) →
  (∀ s1 u1 files1 V1 v1, disk_inv s1 files1 → views s1 files1 V1 → same_env s s1 → V1 !! ino = Some v1 →
     uio_ok u1 (s_user s1) → uio_rw u1 = UIO_WRITE → uio_resid u1 = uio_resid u - Z.of_nat n1 →
     uio_offset u1 = uio_offset u + Z.of_nat n1 →
     runs (f u1) s1 (written s1 V1 ino v1 u1 n2)) →
  runs ('(result, u) ← m; if negb (result =? 0) then mret (result, u) else f u) s
    (written s V ino v u (n1 + n2)).
Proof.
  intros Hu Hrw Ho Hend Hres Hal Hm Hf. apply runs_bind. eapply runs_mono; [exact Hm|].
  intros [e u1] s1 Hw. destruct (Z.eqb_spec e 0) as [->|He]; cbn [negb].
  - apply written_next in Hw; [|done|done|done|lia|apply source_length; [done|done|lia]|done|done].
    destruct Hw as (files1 & u1' & E & _ & Hinv1 & HV1 & Henv1 & Huser1 & Hu1 & Hrw1 & Hr1 & Ho1 & Hnext).
    injection E as ->. eapply runs_mono.
    { eapply Hf; [exact Hinv1|exact HV1|exact Henv1|apply lookup_insert_eq|exact Hu1|congruence|exact Hr1|exact Ho1]. }
    intros r2 s2 Hw2. by apply Hnext.
  - apply runs_ret. destruct Hw as (k & files1 & Hc & Hbl & ? & ? & ? & ? & ?). exists k, files1.
    split; [by apply write_code_fail|]. split; [|done]. intros E. apply blank_more. by apply Hbl.
Qed.

Lemma blockio_loop_write n s files V p sv v u :
  disk_inv s files → views s files V → s_pool s !! p = Some sv → V !! sv_ino sv = Some v →
  uio_ok u (s_user s) → uio_rw u = UIO_WRITE → 0 ≤ uio_offset u → uio_offset u + 512 * Z.of_nat n < 2 ^ 31 →
  uio_offset u mod 512 = 0 → 512 * Z.of_nat n ≤ uio_resid u →
  runs (blockio_loop n p u) s (written s V (sv_ino sv) v u (n * 512)).
Proof.
  revert s files V sv v u. induction n as [|n IH]; intros s files V sv v u Hinv HV Hp Hv Hu Hrw Ho Hend Hal Hres.
  { apply runs_ret. by eapply written_none. }
  cbn [blockio_loop Nat.mul]. apply runs_written_then; [done|done|done|lia|lia|left; Z.to_euclidean_division_equations; lia| |].
  - eapply blockio_write; [done..|lia|done|lia].
  - intros s1 u1 files1 V1 v1 Hinv1 HV1 Henv1 Hv1 Hu1 Hrw1 Hr1 Ho1.
    destruct (same_env_pool _ _ _ _ Henv1 Hp) as (sv1 & Hp1 & _ & _ & _ & _ & Hino). rewrite <- Hino in Hv1 |- *.
    eapply IH; [done..|lia|lia| |lia]. rewrite Ho1. Z.to_euclidean_division_equations; lia.
Qed.

Lemma io_body_aligned_write s files V p sv v u (n : nat) :
  disk_inv s files → views s files V → s_pool s !! p = Some sv → V !! sv_ino sv = Some v →
  uio_ok u (s_user s) → uio_rw u = UIO_WRITE → 0 ≤ uio_offset u → uio_offset u + Z.of_nat n < 2 ^ 31 →
  uio_resid u = Z.of_nat n → uio_offset u mod 512 = 0 →
  runs ('(result, u) ← blockio_loop (Z.to_nat (uio_resid u / SFS_BLOCKSIZE)) p u;
        if negb (result =? 0) then mret (result, u)
        else assertF (uio_resid u <? SFS_BLOCKSIZE);;
             if uio_resid u >? 0 then sfs_partialio p u 0 (uio_resid u) else mret (0, u)) s
    (written s V (sv_ino sv) v u n).
Proof.
  intros Hinv HV Hp Hv Hu Hrw Ho Hend Hn Hal. change SFS_BLOCKSIZE with 512. rewrite Hn.
  set (q := Z.to_nat (Z.of_nat n / 512)). set (t := (n - q * 512)%nat).
  assert (Hq : Z.of_nat n = 512 * Z.of_nat q + Z.of_nat t ∧ Z.of_nat t < 512).
  { unfold t, q. Z.to_euclidean_division_equations; lia. }
  replace n with (q * 512 + t)%nat by lia.
  apply (runs_written_then s V (sv_ino sv) v u _ _ _
    (λ u, assertF (uio_resid u <? 512);; if uio_resid u >? 0 then sfs_partialio p u 0 (uio_resid u) else mret (0, u)));
    [done|done|done|lia|lia|left; Z.to_euclidean_division_equations; lia| |].
  - eapply blockio_loop_write; [done..|lia|done|lia].
  - intros s1 u1 files1 V1 v1 Hinv1 HV1 Henv1 Hv1 Hu1 Hrw1 Hr1 Ho1.
    assert (Hr1' : uio_resid u1 = Z.of_nat t) by lia. rewrite Hr1'.
    apply runs_bind, runs_assert; [apply Z.ltb_lt; lia|].
    destruct (same_env_pool _ _ _ _ Henv1 Hp) as (sv1 & Hp1 & _ & _ & _ & _ & Hino). rewrite <- Hino in Hv1 |- *.
    assert (Hmod : uio_offset u1 mod 512 = 0) by (rewrite Ho1; Z.to_euclidean_division_equations; lia).
    destruct (Z.gtb_spec (Z.of_nat t) 0).
    + rewrite <- Hmod. eapply partialio_write; [done..|lia|lia|lia|right; lia].
    + assert (t = 0%nat) as -> by lia. apply runs_ret. by eapply written_none.
Qed.

(** The leading partial block: up to its end or all there is. *)
Definition lead (o : Z) (n : nat) : nat :=
  if decide (o mod 512 = 0) then 0%nat else (n `min` Z.to_nat (512 - o mod 512))%nat.

Lemma lead_le o n : (lead o n ≤ n)%nat.
Proof. unfold lead. destruct (decide _); lia. Qed.

Lemma lead_aligned o n : 0 ≤ o → (lead o n < n)%nat → (o + Z.of_nat (lead o n)) mod 512 = 0.
Proof.
  intros Ho. unfold lead. destruct (decide (o mod 512 = 0)); [by rewrite Z.add_0_r|].
  Z.to_euclidean_division_equations; lia.
Qed.

Lemma io_body_lead_write s files V p sv v u (n : nat) :
  disk_inv s files → views s files V → s_pool s !! p = Some sv → V !! sv_ino sv = Some v →
  uio_ok u (s_user s) → uio_rw u = UIO_WRITE → 0 ≤ uio_offset u < 2 ^ 31 → uio_resid u = Z.of_nat n →
  runs (let blkoff := u32 (Z.rem (uio_offset u) 512) in
        if negb (blkoff =? 0) then
          sfs_partialio p u blkoff (if u32 (512 - blkoff) >? uio_resid u then uio_resid u else u32 (512 - blkoff))
        else mret (0, u)) s (written s V (sv_ino sv) v u (lead (uio_offset u) n)).
Proof.
  intros Hinv HV Hp Hv Hu Hrw Ho Hn. set (o := uio_offset u) in *.
  pose proof (Z.mod_pos_bound o 512 ltac:(lia)) as Hmod.
  rewrite Z.rem_mod_nonneg by lia. rewrite (u32_id (o mod 512)) by lia. cbn zeta.
  unfold lead. destruct (decide (o mod 512 = 0)) as [E|E].
  - rewrite E. cbn [Z.eqb negb]. apply runs_ret. by eapply written_none.
  - rewrite (proj2 (Z.eqb_neq _ _) E). cbn [negb]. rewrite (u32_id (512 - _)) by lia.
    match goal with |- runs (sfs_partialio p u _ ?x) _ _ =>
      replace x with (Z.of_nat (n `min` Z.to_nat (512 - o mod 512))) end.
    2: { destruct (Z.gtb_spec (512 - o mod 512) (uio_resid u)); lia. }
    eapply partialio_write; [done..|fold o; lia|lia|by left].
Qed.

Lemma io_body_write s files V p sv v u (n : nat) :
  disk_inv s files → views s files V → s_pool s !! p = Some sv → V !! sv_ino sv = Some v →
  uio_ok u (s_user s) → uio_rw u = UIO_WRITE → 0 ≤ uio_offset u → uio_offset u + Z.of_nat n < 2 ^ 31 →
  uio_resid u = Z.of_nat n →
  runs (io_body p u) s (written s V (sv_ino sv) v u n).
Proof.
  intros Hinv HV Hp Hv Hu Hrw Ho Hend Hn. unfold io_body. change SFS_BLOCKSIZE with 512.
  pose proof (lead_le (uio_offset u) n) as Hle. set (l := lead (uio_offset u) n) in *.
  destruct (decide (l = n)) as [E|E].
  { apply runs_bind. eapply runs_mono.
    { eapply io_body_lead_write; [done..|lia|done]. }
    intros [e u1] s1 Hw. fold l in Hw. rewrite E in Hw. destruct (Z.eqb_spec e 0) as [->|]; cbn [negb]; [|by apply runs_ret].
    pose proof Hw as (k & files1 & Hc & _ & Hu1 & _). apply write_code_done in Hc as ->. cbn [snd] in Hu1.
    destruct (consume_fields u (s_user s) (Z.of_nat n) Hu) as (Hr1 & _); [lia|].
    rewrite Hu1, Hr1, Hn, Z.sub_diag, <- Hu1. by apply runs_ret. }
  replace n with (l + (n - l))%nat by lia.
  assert (Hal : (uio_offset u + Z.of_nat l) mod 512 = 0) by (apply lead_aligned; [done|fold l; lia]).
  apply (runs_written_then s V (sv_ino sv) v u l (n - l)); [done|done|done|lia|lia|by left| |].
  - eapply io_body_lead_write; [done..|lia|done].
  - intros s1 u1 files1 V1 v1 Hinv1 HV1 Henv1 Hv1 Hu1 Hrw1 Hr1 Ho1.
    destruct (same_env_pool _ _ _ _ Henv1 Hp) as (sv1 & Hp1 & _ & _ & _ & _ & Hino). rewrite <- Hino in Hv1 |- *.
    rewrite (proj2 (Z.eqb_neq (uio_resid u1) 0)) by lia. rewrite <- Ho1 in Hal.
    apply runs_bind, runs_assert. { rewrite Z.rem_mod_nonneg by lia. by apply Z.eqb_eq. }
    eapply io_body_aligned_write; [done..|lia|lia|lia|done].
Qed.

(** ** sfs_io *)

(** A file after [data] was written at [o]: it grows to hold the end of the
    data. *)
Definition grown (v : afile) (o : Z) (data : list Z) : afile :=
  AFile (Z.max (af_size v) (o + Z.of_nat (length data))) (af_type v) (af_links v)
        (overwrite (af_byte v) o data).

Definition write_post s V ino v u (n : nat) (r : Z * uio) s' : Prop :=
  ∃ k files', write_code (uio_offset u) n k r.1 ∧ (r.1 = ENOSPC → blank_part v (uio_offset u) n) ∧ r.2 = consume u (Z.of_nat k) ∧
    disk_inv s' files' ∧
    views s' files' (<[ino := grown v (uio_offset u) (source u (s_user s) k)]> V) ∧
    same_env s s' ∧ s_user s' = s_user s.

Lemma inode_wf_size i n : inode_wf i → 0 ≤ n < 2 ^ 31 → inode_wf (set_size n i).
Proof. intros [] ?. by constructor. Qed.

Lemma sfs_io_write s files V p sv v u (n : nat) :
  disk_inv s files → views s files V → s_pool s !! p = Some sv → V !! sv_ino sv = Some v →
  uio_ok u (s_user s) → uio_rw u = UIO_WRITE → 0 ≤ uio_offset u → uio_offset u + Z.of_nat n < 2 ^ 31 →
  uio_resid u = Z.of_nat n →
  runs (sfs_io p u) s (write_post s V (sv_ino sv) v u n).
Proof.
  intros Hinv HV Hp Hv Hu Hrw Ho Hend Hn. unfold sfs_io. apply runs_bind. eapply runs_get_sv; [done|].
  rewrite is_write_write by done. apply runs_bind.
  eapply runs_mono; [eapply io_body_write; done|]. intros [e u1] s1 (k & files1 & Hc & Hbl & Hu1 & Hinv1 & HV1 & Henv1 & Huser1).
  cbn [fst snd] in *. subst u1.
  pose proof (write_code_le _ _ _ _ Hc) as Hk.
  destruct (consume_fields u (s_user s) (Z.of_nat k) Hu) as (Hr1 & Ho1 & Hrw1); [lia|]. rewrite s32_id in Ho1 by lia.
  pose proof (source_length s u k Hu Hrw ltac:(lia)) as Hlen. pose proof Hu as (_ & Hil & _).
  destruct (same_env_pool _ _ _ _ Henv1 Hp) as (sv1 & Hp1 & _ & _ & _ & _ & Hino). rewrite <- Hino in *.
  pose proof (di_loaded _ _ Hinv1 _ _ Hp1) as Hi1.
  destruct (di_inode _ _ Hinv1 _ _ Hi1) as (Hwf & Hnj & _). pose proof (iw_size _ Hwf) as Hsz.
  destruct (views_lookup _ _ _ _ _ HV1 Hi1) as (v1 & Hv1 & Hs1 & Ht1 & Hl1 & Hb1).
  rewrite lookup_insert_eq in Hv1. injection Hv1 as <-. cbn [write_at af_size af_type af_links af_byte] in *.
  unfold io_out. apply runs_bind. eapply runs_get_sv; [done|]. rewrite is_write_write by congruence.
  rewrite Ho1, Hr1, s32_id by lia. cbn [andb]. rewrite Z.add_0_r, (u32_id (_ - _)), (u32_id (_ + _)) by lia.
  rewrite set_offres_id by congruence. apply runs_bind.
  destruct (Z.gtb_spec (uio_offset u + Z.of_nat k) (sfi_size (sv_i sv1))).
  - apply runs_put_sv, runs_ret. fold (put_inode s1 p sv1 (set_size (uio_offset u + Z.of_nat k) (sv_i sv1))).
    eexists k, _. split_and!; [done|done|done| | |etransitivity; [done|by apply put_inode_env]|done].
    + eapply disk_inv_put; [done|done|by apply inode_wf_size; [|lia]|done|]. intros b Hb _. by left.
    + rewrite <- (insert_insert_eq V _ _ (write_at v (uio_offset u) (source u (s_user s) k))).
      apply views_put; [exact HV1|done|].
      split_and!; [cbn; lia|done|done|]. intros o' Ho'. cbn. by rewrite Hb1.
  - apply runs_ret, runs_ret. exists k, files1. split_and!; [done..| |done|done].
    eapply views_ext; [exact HV1|cbn; lia|done..].
Qed.
End Write.
