(* ===== verification/SfsDir.v ===== *)
(** * SFS: the directory as a map from names to inodes

    A directory is a file of 64-byte slots.  [dir_rep v dm] relates its
    contents to a finite map [dm] from names to inode numbers; searching,
    adding and removing entries are lookup, insert and delete on that map,
    whatever order the slots are in. *)

From S2P Require Import Prelude Ram Kheap KheapSpec KArray Bitmap Bytes Mem CString Uio Device Sfs SfsOps SfsSpec SfsFile SfsWrite.

(** ** Slots *)

Definition abytes (v : afile) (o : Z) (n : nat) : list Z := (λ k, af_byte v (o + Z.of_nat k)) <$> seq 0 n.

Definition entry (v : afile) (j : Z) : sfs_dir := dir_of (abytes v (64 * j) 64).

Definition nslots (v : afile) : Z := af_size v / 64.

(** The text of a buffer, up to the null. *)
Fixpoint text (l : list Z) : list Z :=
  match l with [] => [] | c :: l => if c =? 0 then [] else c :: text l end.

(** The name in a slot as sfs_dir_findname reads it. *)
Definition cname (d : sfs_dir) : list Z := text (<[59%nat := 0]> (sfd_name d)).

(** Slot [j] has [ino] under [name]. *)
Definition listed (v : afile) (name : list Z) (ino j : Z) : Prop :=
  0 ≤ j < nslots v ∧ sfd_ino (entry v j) = ino ∧ ino ≠ 0 ∧ cname (entry v j) = name.

Record dir_ok (v : afile) : Prop := {
  dk_type : af_type v = SFS_TYPE_DIR;
  dk_size : af_size v = 64 * nslots v;
  dk_max : 0 ≤ af_size v ≤ SFS_MAXFILE;
  dk_unique name ino ino' j j' : listed v name ino j → listed v name ino' j' → j = j';
}.

Definition dir_rep (v : afile) (dm : gmap (list Z) Z) : Prop :=
  dir_ok v ∧ ∀ name ino, dm !! name = Some ino ↔ ∃ j, listed v name ino j.

(** A structure that fits its slot. *)
Definition dirent_wf (d : sfs_dir) : Prop := 0 ≤ sfd_ino d < 2 ^ 32 ∧ length (sfd_name d) = 60%nat.

Lemma text_cstr l : 0 ∈ l → cstr l (text l).
Proof.
  induction l as [|c l IH]; [set_solver|]. intros Hin. cbn. destruct (Z.eqb_spec c 0) as [->|Hc].
  - exists l. split; [done|set_solver].
  - destruct IH as (rest & E & Hno); [set_solver|]. exists rest. split; [cbn; by rewrite <- E|set_solver].
Qed.

Lemma text_of x rest : 0 ∉ x → text (x ++ 0 :: rest) = x.
Proof.
  induction x as [|c x IH]; [done|]. intros Hx. cbn. rewrite (proj2 (Z.eqb_neq c 0)) by set_solver.
  f_equal. apply IH. set_solver.
Qed.

Lemma abytes_length v o n : length (abytes v o n) = n.
Proof. unfold abytes. by rewrite length_fmap, length_seq. Qed.

Lemma abytes_lookup v o n k : (k < n)%nat → abytes v o n !! k = Some (af_byte v (o + Z.of_nat k)).
Proof. intros. unfold abytes. rewrite list_lookup_fmap, lookup_seq_lt by done. done. Qed.

Lemma cname_cstr v j : cstr (<[59%nat := 0]> (sfd_name (entry v j))) (cname (entry v j)).
Proof.
  apply text_cstr. apply (list_elem_of_lookup_2 _ 59%nat). apply list_lookup_insert_eq.
  unfold entry, dir_of. cbn [sfd_name]. rewrite slice_length; [lia|]. rewrite abytes_length. lia.
Qed.

Lemma dir_bytes_length d : dirent_wf d → length (dir_bytes d) = 64%nat.
Proof. intros [_ Hn]. unfold dir_bytes. by rewrite length_app, be32_length, Hn. Qed.

Lemma dir_of_bytes d : dirent_wf d → dir_of (dir_bytes d) = d.
Proof.
  intros [Hi Hn]. unfold dir_of, dir_bytes, slice. rewrite drop_0.
  rewrite take_app_le, take_ge by (rewrite be32_length; lia). rewrite be32_value by done.
  rewrite drop_app_length' by (by rewrite be32_length). rewrite take_ge by lia. by destruct d.
Qed.

(** What one more entry does to the slots. *)
Lemma entry_grown v j d j' :
  dirent_wf d → entry (grown v (64 * j) (dir_bytes d)) j' = if decide (j' = j) then d else entry v j'.
Proof.
  intros Hd. pose proof (dir_bytes_length d Hd) as Hlen. unfold entry.
  destruct (decide (j' = j)) as [->|Hj].
  - rewrite <- (dir_of_bytes d Hd) at 2. f_equal. apply list_eq. intros k.
    destruct (decide (k < 64)%nat).
    + rewrite abytes_lookup by done. cbn [grown af_byte]. unfold overwrite. rewrite decide_True by lia.
      replace (Z.to_nat (64 * j + Z.of_nat k - 64 * j)) with k by lia.
      destruct (lookup_lt_is_Some_2 (dir_bytes d) k) as [x ->]; [lia|done].
    + rewrite !lookup_ge_None_2; [done|lia|rewrite abytes_length; lia].
  - f_equal. apply list_eq. intros k. destruct (decide (k < 64)%nat).
    + rewrite !abytes_lookup by done. cbn [grown af_byte]. unfold overwrite. by rewrite decide_False by lia.
    + rewrite !lookup_ge_None_2; [done|rewrite abytes_length; lia..].
Qed.

Lemma nslots_grown v j d :
  dir_ok v → dirent_wf d → 0 ≤ j ≤ nslots v → nslots (grown v (64 * j) (dir_bytes d)) = Z.max (nslots v) (j + 1).
Proof.
  intros Hv Hd Hj. unfold nslots at 1. cbn [grown af_size]. rewrite (dir_bytes_length d Hd), (dk_size _ Hv).
  Z.to_euclidean_division_equations; lia.
Qed.

(** Putting an entry where none was. *)
Lemma dir_rep_link v dm name ino j d :
  dir_rep v dm → 0 ≤ j ≤ nslots v → (j < nslots v → sfd_ino (entry v j) = 0) →
  64 * j + 64 ≤ SFS_MAXFILE → dm !! name = None →
  dirent_wf d → sfd_ino d = ino → ino ≠ 0 → cname d = name →
  dir_rep (grown v (64 * j) (dir_bytes d)) (<[name := ino]> dm).
Proof.
  intros [Hv Hdm] Hj Hfree Hmax Hnew Hd Hino Hz Hname. pose proof (nslots_grown v j d Hv Hd Hj) as Hn.
  assert (Hl : ∀ nm i k, listed (grown v (64 * j) (dir_bytes d)) nm i k ↔
    k = j ∧ nm = name ∧ i = ino ∨ k ≠ j ∧ listed v nm i k).
  { intros nm i k. unfold listed. rewrite Hn, entry_grown by done. destruct (decide (k = j)) as [->|Hk].
    - rewrite Hino, Hname. split; [intros (? & <- & ? & <-); by left|].
      intros [(_ & -> & ->)|[? _]]; [|done]. split_and!; [lia..|done|done|done].
    - split; [intros (? & ? & ? & ?); right; split_and!; [done|lia|lia|done..]|].
      intros [[? _]|(_ & ? & ? & ? & ?)]; [done|]. split_and!; [lia..|done|done|done]. }
  split; [constructor|].
  - apply Hv.
  - rewrite Hn. cbn [grown af_size]. rewrite (dir_bytes_length d Hd), (dk_size _ Hv). lia.
  - cbn [grown af_size]. rewrite (dir_bytes_length d Hd). pose proof (dk_max _ Hv). lia.
  - intros nm i i' k k'. rewrite !Hl. intros [(-> & -> & ->)|[? Hk]] [(-> & E & ->)|[? Hk']]; [done|..].
    + assert (dm !! name = Some i') as E by (apply Hdm; by exists k'). congruence.
    + subst nm. assert (dm !! name = Some i) as E by (apply Hdm; by exists k). congruence.
    + by eapply (dk_unique _ Hv).
  - intros nm i. rewrite lookup_insert_Some, Hdm. split.
    + intros [[<- <-]|[Hne [k Hk]]]; [exists j; apply Hl; by left|]. exists k. apply Hl. right.
      split; [|done]. intros ->. destruct Hk as (? & E & ? & _). rewrite Hfree in E by lia. by subst.
    + intros [k [(_ & -> & ->)|[Hk Hlk]]%Hl]; [by left|]. right. split; [|by exists k].
      intros <-. assert (dm !! name = Some i) as E by (apply Hdm; by exists k). congruence.
Qed.

(** Clearing a slot. *)
Lemma dir_rep_unlink v dm name ino j d :
  dir_rep v dm → listed v name ino j → dirent_wf d → sfd_ino d = 0 →
  dir_rep (grown v (64 * j) (dir_bytes d)) (delete name dm).
Proof.
  intros [Hv Hdm] Hj Hd Hz. pose proof Hj as ([? ?] & _).
  pose proof (nslots_grown v j d Hv Hd ltac:(lia)) as Hn. rewrite Z.max_l in Hn by lia.
  assert (Hl : ∀ nm i k, listed (grown v (64 * j) (dir_bytes d)) nm i k ↔ k ≠ j ∧ listed v nm i k).
  { intros nm i k. unfold listed. rewrite Hn, entry_grown by done. destruct (decide (k = j)) as [->|Hk].
    - rewrite Hz. split; [by intros (_ & <- & ? & _)|by intros [? _]].
    - naive_solver. }
  pose proof (dk_max _ Hv). pose proof (dk_size _ Hv). split; [constructor|].
  - apply Hv.
  - rewrite Hn. cbn [grown af_size]. rewrite (dir_bytes_length d Hd). lia.
  - cbn [grown af_size]. rewrite (dir_bytes_length d Hd). lia.
  - intros nm i i' k k' [_ Hk]%Hl [_ Hk']%Hl. by eapply (dk_unique _ Hv).
  - intros nm i. rewrite lookup_delete_Some, Hdm. split.
    + intros [Hne [k Hk]]. exists k. apply Hl. split; [|done]. intros ->.
      destruct Hk as (_ & _ & _ & <-). by destruct Hj as (_ & _ & _ & <-).
    + intros [k [Hk Hlk]%Hl]. split; [|by exists k]. intros ->. apply Hk. by eapply (dk_unique _ Hv).
Qed.

(** ** The operations *)

Section Operations.
Context {D H : Type} `{DiskLaws D} `{KHeap H}.
Implicit Types s : sfs D H.

(** The vnode [p] shows the directory [v]. *)
Record at_dir s (files : gmap Z sfs_inode) (V : gmap Z afile) (p : Z) (sv : sfs_vnode) (v : afile) : Prop := {
  ad_inv : disk_inv s files;
  ad_views : views s files V;
  ad_pool : s_pool s !! p = Some sv;
  ad_file : V !! sv_ino sv = Some v;
}.

Lemma at_dir_shows s files V p sv v : at_dir s files V p sv v → shows s (sv_i sv) v.
Proof.
  intros [Hinv HV Hp Hv]. destruct (views_lookup _ _ _ _ _ HV (di_loaded _ _ Hinv _ _ Hp)) as (v' & Hv' & Hs).
  congruence.
Qed.

Lemma at_dir_reread s s' files V p sv v ue :
  reread s s' ue → at_dir s files V p sv v → at_dir s' files V p sv v.
Proof.
  intros Hr [Hinv HV Hp Hv]. constructor; [by eapply reread_inv|by eapply reread_views| |done].
  by rewrite (proj1 (reread_pool _ _ _ Hr)).
Qed.

Lemma file_bytes_abytes s files V p sv v o n :
  at_dir s files V p sv v → 0 ≤ o → file_bytes s (sv_i sv) o n = abytes v o n.
Proof.
  intros (_ & _ & _ & Hby)%at_dir_shows Ho. unfold file_bytes, abytes. apply list_fmap_ext.
  intros k x _. symmetry. apply Hby. lia.
Qed.

Lemma slot_pos_id j : 0 ≤ 64 * j < 2 ^ 31 → slot_pos j = 64 * j.
Proof. intros. unfold slot_pos, SIZEOF_DIR. rewrite s32_id; lia. Qed.

Lemma readdir_run s files V p sv v j :
  at_dir s files V p sv v → dir_ok v → 0 ≤ j < nslots v →
  ∃ s', sfs_readdir p j s = Done (Ok (entry v j), s') ∧ reread s s' (s_user s).
Proof.
  intros Hd Hv Hj. pose proof (dk_size _ Hv). pose proof (dk_max _ Hv) as Hmax. unfold SFS_MAXFILE in Hmax.
  pose proof (at_dir_shows _ _ _ _ _ _ Hd) as (Hs & _).
  set (u := mk_kuio (replicate 64 0) 64 (64 * j) UIO_READ).
  assert (Hu : uio_ok u (s_user s)) by (apply mk_kuio_ok; rewrite ?length_replicate; lia).
  destruct (sfs_io_read s files p sv u) as (r & s' & Hrun & -> & Hr); [apply Hd|apply Hd|done|done|..].
  1-3: change (uio_offset u) with (64 * j); change (uio_resid u) with 64; unfold SFS_MAXFILE; lia.
  assert (Hlen : read_length (sfi_size (sv_i sv)) (uio_offset u) (uio_resid u) = 64%nat).
  { unfold read_length. cbn [u mk_kuio uio_offset uio_resid]. lia. }
  rewrite Hlen in *. change (uio_offset u) with (64 * j) in *.
  rewrite (file_bytes_abytes s files V p sv v) in * by (done || lia).
  set (data := abytes v (64 * j) 64) in *. pose proof (abytes_length v (64 * j) 64) as Hdl. fold data in Hdl.
  destruct (deliver_fields u (s_user s) data Hu) as (Hr0 & _ & _); [rewrite Hdl; cbn; lia|].
  exists s'. split; [|exact Hr]. unfold sfs_readdir. rewrite slot_pos_id by lia.
  change (mk_kuio (replicate 64 0) SIZEOF_DIR (64 * j) UIO_READ) with u.
  rewrite (bindF_run _ _ _ _ _ Hrun). cbn [Z.eqb negb].
  rewrite Hr0, Hdl. change (uio_resid u - Z.of_nat 64 >? 0) with false.
  change (kbuf (deliver u (s_user s) data).1) with (splice (replicate 64 0) 0 data).
  rewrite splice_whole by (by rewrite Hdl, length_replicate). done.
Qed.

Lemma nentries_run s files V p sv v :
  at_dir s files V p sv v → dir_ok v → sfs_dir_nentries p s = Done (nslots v, s).
Proof.
  intros Hd Hv. pose proof (at_dir_shows _ _ _ _ _ _ Hd) as (Hs & Ht & _). pose proof (dk_size _ Hv) as Hsz.
  pose proof (dk_max _ Hv) as Hmax. unfold SFS_MAXFILE in Hmax. unfold sfs_dir_nentries.
  rewrite (bindF_run _ _ _ _ _ (get_sv_run _ _ _ (ad_pool _ _ _ _ _ _ Hd))).
  rewrite <- Ht, (dk_type _ Hv), <- Hs. erewrite bindF_run by done.
  rewrite (s32_id (af_size v)), (u32_id (af_size v)) by lia. unfold SIZEOF_DIR.
  replace (af_size v mod 64) with 0 by (rewrite Hsz, Z.mul_comm; by rewrite Z.mod_mul).
  fold (nslots v). rewrite s32_id by lia. done.
Qed.

(** *** Searching *)

(** What sfs_dir_findname knows after the slots below [i]. *)
Definition found_upto (v : afile) (name : list Z) (i : Z) (f : findname) : Prop :=
  match f_found f with
  | None => ∀ ino j, listed v name ino j → ¬ j < i
  | Some (ino, j) => listed v name ino j ∧ j < i
  end ∧ (f_empty f = -1 ∨ 0 ≤ f_empty f < i ∧ sfd_ino (entry v (f_empty f)) = 0).

Lemma findname_from_run n s files V p sv v name buf i f :
  at_dir s files V p sv v → dir_ok v → cstr buf name → 0 ≤ i → i + Z.of_nat n = nslots v → found_upto v name i f →
  runs (findname_from n i p buf f) s (λ '(r, f') s',
    reread s s' (s_user s) ∧ found_upto v name (nslots v) f' ∧ r = if decide (f_found f' = None) then ENOENT else 0).
Proof.
  intros Hd Hv Hname. revert s i f Hd. induction n as [|n IH]; intros s i f Hd Hi Hn [Hf He].
  { apply runs_ret. split; [apply reread_of, redisk_refl, Hd|]. split; [|done].
    replace (nslots v) with i by lia. by split. }
  cbn [findname_from]. destruct (readdir_run s files V p sv v i Hd Hv) as (s1 & Hrun & Hr); [lia|].
  apply runs_bind. eexists _, s1. split; [exact Hrun|]. cbv beta iota.
  pose proof (at_dir_reread _ _ _ _ _ _ _ _ Hr Hd) as Hd1. destruct (reread_pool _ _ _ Hr) as [_ Hu1].
  assert (Hnext : ∀ f', found_upto v name (i + 1) f' → runs (findname_from n (i + 1) p buf f') s1 (λ '(r, f') s',
    reread s s' (s_user s) ∧ found_upto v name (nslots v) f' ∧ r = if decide (f_found f' = None) then ENOENT else 0)).
  { intros f' Hf'. eapply runs_mono; [apply IH; [done|lia|lia|done]|]. intros [r f''] s2 (Hr2 & ? & ?).
    split; [|done]. rewrite <- Hu1. rewrite <- Hu1 in Hr. by eapply reread_trans. }
  destruct (Z.eqb_spec (sfd_ino (entry v i)) SFS_NOINO) as [Hz|Hz]; unfold SFS_NOINO in Hz.
  - apply Hnext. split; cbn; [|right; split; [lia|done]]. destruct (f_found f) as [[ino j]|].
    + split; [apply Hf|lia].
    + intros ino j Hl Hj. destruct (decide (j = i)) as [->|]; [destruct Hl as (_ & ? & ? & _); congruence|].
      eapply Hf; [done|lia].
  - change (Z.to_nat (SFS_NAMELEN - 1)) with 59%nat. apply runs_bind.
    eapply runs_lift; [by apply strcmp_spec; [apply cname_cstr|]|].
    destruct (Z.eqb_spec (lex (cname (entry v i)) name) 0) as [E|E]; rewrite lex_0 in E.
    + assert (Hl : listed v name (sfd_ino (entry v i)) i) by (split_and!; [lia..|done|done|done]).
      apply runs_bind, runs_assert.
      { apply bool_decide_true. destruct (f_found f) as [[ino j]|] eqn:Ef; [|done]. destruct Hf as [Hf Hj].
        pose proof (dk_unique _ Hv _ _ _ _ _ Hf Hl). lia. }
      apply Hnext. split; cbn; [split; [done|lia]|]. destruct He as [?|[? ?]]; [by left|right; split; [lia|done]].
    + apply Hnext. split; [|destruct He as [?|[? ?]]; [by left|right; split; [lia|done]]].
      destruct (f_found f) as [[ino j]|]; [split; [apply Hf|lia]|].
      intros ino j Hl Hj. destruct (decide (j = i)) as [->|]; [by destruct Hl as (_ & _ & _ & ?)|].
      eapply Hf; [done|lia].
Qed.

(** sfs_dir_findname is lookup in the map. *)
Lemma findname_run s files V p sv v dm name buf :
  at_dir s files V p sv v → dir_rep v dm → cstr buf name →
  runs (sfs_dir_findname p buf) s (λ '(r, f) s', reread s s' (s_user s) ∧
    (f_empty f = -1 ∨ 0 ≤ f_empty f < nslots v ∧ sfd_ino (entry v (f_empty f)) = 0) ∧
    match dm !! name with
    | Some ino => r = 0 ∧ ∃ j, f_found f = Some (ino, j) ∧ listed v name ino j
    | None => r = ENOENT ∧ f_found f = None
    end).
Proof.
  intros Hd [Hv Hdm] Hname. unfold sfs_dir_findname. apply runs_bind. eexists _, s.
  split; [by eapply nentries_run|]. pose proof (dk_max _ Hv). pose proof (dk_size _ Hv).
  eapply runs_mono.
  { eapply findname_from_run; [done..| |lia|]; [done|]. split; [|by left]. cbn. intros ino j ([? ?] & _) ?. lia. }
  intros [r f] s' (Hr & [Hf He] & ->). split; [done|]. split; [done|].
  destruct (f_found f) as [[ino j]|].
  - destruct Hf as [Hl _]. rewrite (proj2 (Hdm name ino)) by (by exists j). split; [done|]. by exists j.
  - destruct (dm !! name) as [ino|] eqn:E; [|done]. apply Hdm in E as [j Hl]. destruct (Hf _ _ Hl). apply Hl.
Qed.

(** *** Changing slots *)

(** The state after the directory became [v']. *)
Definition dir_now s V (ino : Z) (v' : afile) s' : Prop :=
  ∃ files', disk_inv s' files' ∧ views s' files' (<[ino := v']> V) ∧ same_env s s' ∧ s_user s' = s_user s.

Lemma dir_now_at s files V p sv v v' s' :
  at_dir s files V p sv v → dir_now s V (sv_ino sv) v' s' →
  ∃ files' sv', at_dir s' files' (<[sv_ino sv := v']> V) p sv' v' ∧ vn_same sv sv' ∧ same_env s s' ∧
    s_user s' = s_user s.
Proof.
  intros [Hinv HV Hp Hv] (files' & Hinv' & HV' & Henv & Hu).
  destruct (same_env_pool _ _ _ _ Henv Hp) as (sv' & Hp' & Hsame). exists files', sv'.
  split_and!; [|done..]. constructor; try done. destruct Hsame as (_ & _ & _ & _ & ->). apply lookup_insert_eq.
Qed.

Lemma dir_now_reread s s1 V ino v' s' ue :
  reread s s1 ue → ue = s_user s → dir_now s1 V ino v' s' → dir_now s V ino v' s'.
Proof.
  intros Hr -> (files' & ? & ? & ? & Hu). exists files'. split_and!; [done..| |].
  - etransitivity; [by eapply reread_env|done].
  - rewrite Hu. apply (reread_pool _ _ _ Hr).
Qed.

Lemma writedir_run s files V p sv v d j :
  at_dir s files V p sv v → dir_ok v → dirent_wf d → 0 ≤ j ≤ nslots v →
  runs (sfs_writedir p d j) s (λ r s',
    match r with
    | Ok _ => 64 * j + 64 ≤ SFS_MAXFILE ∧ dir_now s V (sv_ino sv) (grown v (64 * j) (dir_bytes d)) s'
    | Err e => (e = ENOSPC ∧ blank_part v (64 * j) 64 ∨ e = EINVAL ∧ SFS_MAXFILE < 64 * j + 64) ∧
        dir_now s V (sv_ino sv) v s'
    end).
Proof.
  intros Hd Hv Hwf Hj. pose proof (dk_size _ Hv). pose proof (dk_max _ Hv) as Hmax. unfold SFS_MAXFILE in Hmax.
  pose proof (dir_bytes_length d Hwf) as Hlen. unfold sfs_writedir.
  apply runs_bind, runs_assert; [apply Z.geb_le; lia|]. rewrite slot_pos_id by lia. change SIZEOF_DIR with 64.
  set (u := mk_kuio (dir_bytes d) 64 (64 * j) UIO_WRITE).
  assert (Hu : uio_ok u (s_user s)) by (apply mk_kuio_ok; rewrite ?Hlen; lia).
  apply runs_bind. eapply runs_mono.
  { eapply (sfs_io_write s files V p sv v u 64); [apply Hd|apply Hd|apply Hd|apply Hd|done|done|..];
      change (uio_offset u) with (64 * j); change (uio_resid u) with 64; lia. }
  intros [e u1] s1 (k & files1 & Hc & Hbl & Hu1 & Hinv1 & HV1 & Henv1 & Huser1). cbn [fst snd] in *.
  change (uio_offset u) with (64 * j) in *.
  destruct Hc as [(-> & -> & Hm)|(Hk & _ & He)].
  - cbn [Z.eqb negb]. destruct (consume_fields u (s_user s) 64 Hu) as (Hr1 & _); [cbn; lia|].
    rewrite Hu1. change (Z.of_nat 64) with 64. rewrite Hr1. change (uio_resid u - 64 >? 0) with false.
    apply runs_ret. split; [lia|]. exists files1. split_and!; [done| |done|done].
    change (source u (s_user s) 64) with (slice (dir_bytes d) 0 64) in HV1.
    rewrite <- Hlen, slice_all in HV1. exact HV1.
  - assert (k = 0%nat) as ->.
    { destruct Hk as [->|[? Hk]]; [done|]. Z.to_euclidean_division_equations; lia. }
    rewrite (proj2 (Z.eqb_neq e 0)) by (destruct He as [->|[-> _]]; done). cbn [negb].
    apply runs_ret. split; [destruct He as [->|?]; [left; auto|by right]|]. exists files1. split_and!; [done| |done|done].
    rewrite source_0 in HV1. eapply views_ext; [exact HV1|cbn [grown af_size length]; lia|done|done|].
    intros. symmetry. apply overwrite_nil.
Qed.

Lemma cname_copied name :
  0 ∉ name → (length name < 60)%nat → cname (Dir 0 (splice (replicate 60 0) 0 (name ++ [0]))) = name.
Proof.
  intros Hno Hlen. unfold cname. cbn [sfd_name].
  assert (Hs : splice (replicate 60 0) 0 (name ++ [0]) = name ++ 0 :: replicate (59 - length name) 0).
  { unfold splice. rewrite take_0, drop_replicate, length_app, <- app_assoc, app_nil_l.
    change (length [0]) with 1%nat. do 2 f_equal. f_equal. lia. }
  rewrite Hs, insert_app_r_alt by lia. destruct (59 - length name)%nat; cbn; by apply text_of.
Qed.

(** sfs_dir_link is insertion of a new name. *)
Lemma dir_link_run s files V p sv v dm name buf ino :
  at_dir s files V p sv v → dir_rep v dm → cstr buf name → 0 < ino < 2 ^ 32 →
  runs (sfs_dir_link p buf ino) s (λ r s',
    match r with
    | Ok slot => dm !! name = None ∧ (length name < 60)%nat ∧
        ∃ v', dir_rep v' (<[name := ino]> dm) ∧ listed v' name ino slot ∧ dir_now s V (sv_ino sv) v' s' ∧
          af_links v' = af_links v ∧ ∀ nm i k, listed v nm i k → listed v' nm i k
    | Err e => dir_now s V (sv_ino sv) v s' ∧
        (e = EEXIST ∧ is_Some (dm !! name) ∨ e = ENAMETOOLONG ∧ (60 ≤ length name)%nat ∨
         dm !! name = None ∧ (e = ENOSPC ∨ e = EINVAL))
    end).
Proof.
  intros Hd Hrep Hname Hino. pose proof Hrep as [Hv _]. unfold sfs_dir_link. apply runs_bind.
  eapply runs_mono; [by eapply findname_run|]. intros [r f] s1 (Hr & He & Hf).
  pose proof (at_dir_reread _ _ _ _ _ _ _ _ Hr Hd) as Hd1. destruct (reread_pool _ _ _ Hr) as [_ Hu1].
  assert (Hsame : dir_now s V (sv_ino sv) v s1).
  { exists files. destruct Hd1 as [? ? _ Hfile]. rewrite insert_id by done.
    split_and!; [done|done|by eapply reread_env|done]. }
  destruct (dm !! name) as [old|] eqn:Edm.
  { destruct Hf as [-> _]. cbn. apply runs_ret. split; [done|]. left. by split. }
  destruct Hf as [-> _]. cbn [Z.eqb negb andb ENOENT]. apply runs_bind. eapply runs_lift; [by apply strlen_spec|].
  change SFS_NAMELEN with 60. destruct (Z.gtb_spec (Z.of_nat (length name) + 1) 60).
  { apply runs_ret. split; [done|]. right. left. split; [done|lia]. }
  set (j := if f_empty f <? 0 then nslots v else f_empty f).
  assert (Hj : 0 ≤ j ≤ nslots v ∧ (j < nslots v → sfd_ino (entry v j) = 0)).
  { pose proof (dk_max _ Hv). pose proof (dk_size _ Hv). unfold j.
    destruct He as [->|[? ?]]; [cbn; lia|]. rewrite (proj2 (Z.ltb_ge _ _)) by lia. split; [lia|done]. }
  destruct Hj as [Hj Hfree]. apply runs_bind. exists j, s1. split.
  { unfold j. destruct (f_empty f <? 0); [by eapply nentries_run|done]. }
  pose proof Hname as (_ & _ & Hno). change (Z.to_nat 60) with 60%nat.
  apply runs_bind. eapply runs_lift; [apply (strcpy_spec _ _ name Hname); rewrite length_replicate; lia|].
  set (d := Dir ino (splice (replicate 60 0) 0 (name ++ [0]))).
  assert (Hwf : dirent_wf d).
  { split; cbn [d sfd_ino sfd_name]; [lia|]. rewrite splice_length; [apply length_replicate|]. rewrite length_app, length_replicate. cbn. lia. }
  apply runs_bindR. eapply runs_mono; [by eapply (writedir_run s1)|]. intros [e|[]] s2 Hw.
  - destruct Hw as [He' Hnow]. split; [by eapply dir_now_reread|]. right. right. split; [done|].
    destruct He' as [[? _]|[? _]]; [by left|by right].
  - destruct Hw as [Hm Hnow]. apply runs_ret. split; [done|]. split; [lia|]. eexists. split; [|split; [|split; [by eapply dir_now_reread|split; [done|]]]].
    + apply (dir_rep_link v dm name ino j d); try done; [lia|]. by apply cname_copied; [|lia].
    + unfold listed. rewrite nslots_grown, entry_grown by (done || lia). rewrite decide_True by done.
      split_and!; [lia..|done|lia|]. apply cname_copied; [done|lia].
    + intros nm i k (? & ? & ? & ?). unfold listed. rewrite nslots_grown, entry_grown by (done || lia).
      rewrite decide_False; [split_and!; [lia..|done|done|done]|]. intros ->. rewrite Hfree in * by lia. congruence.
Qed.

(** An entry occupies its block. *)
Lemma listed_not_blank v name ino j : listed v name ino j → ¬ blank_part v (64 * j) 64.
Proof.
  intros ([Hj _] & Hino & Hz & _) (k & Hk1 & Hk2 & Hb). apply Hz. rewrite <- Hino.
  assert (Hk : k = 64 * j / 512) by (Z.to_euclidean_division_equations; lia).
  assert (Hbyte : ∀ c, (c < 64)%nat → abytes v (64 * j) 64 !! c = Some 0).
  { intros c Hc. rewrite abytes_lookup by done. f_equal. apply Hb; [|lia]. rewrite Hk. Z.to_euclidean_division_equations; lia. }
  unfold entry, dir_of. cbn [sfd_ino].
  assert (slice (abytes v (64 * j) 64) 0 4 = [0; 0; 0; 0]) as ->; [|done].
  apply list_eq. intros c. destruct (decide (c < 4)%nat).
  - rewrite slice_lookup, Nat.add_0_l, Hbyte by lia. do 4 (destruct c as [|c]; [done|]). lia.
  - rewrite !lookup_ge_None_2; [done|cbn; lia|]. rewrite slice_length; [lia|]. rewrite abytes_length. lia.
Qed.

(** sfs_dir_unlink is deletion. *)
Lemma dir_unlink_run s files V p sv v dm name ino j :
  at_dir s files V p sv v → dir_rep v dm → listed v name ino j →
  runs (sfs_dir_unlink p j) s (λ r s',
    match r with
    | Ok _ => ∃ v', dir_rep v' (delete name dm) ∧ dir_now s V (sv_ino sv) v' s' ∧ af_links v' = af_links v ∧
        ∀ nm i k, k ≠ j → listed v nm i k → listed v' nm i k
    | Err _ => False
    end).
Proof.
  intros Hd Hrep Hl. pose proof Hrep as [Hv _]. pose proof Hl as ([? ?] & _).
  pose proof (dk_max _ Hv). pose proof (dk_size _ Hv). unfold sfs_dir_unlink.
  set (d := Dir SFS_NOINO _). assert (Hwf : dirent_wf d) by (split; [done|apply length_replicate]).
  eapply runs_mono; [eapply (writedir_run s); [done|done|done|lia]|]. intros [e|[]] s1 Hw.
  - destruct Hw as [[[_ Hb]|[_ ?]] _]; [|lia]. by eapply listed_not_blank.
  - destruct Hw as [_ Hnow]. eexists. split; [by eapply dir_rep_unlink|]. split; [exact Hnow|]. split; [done|].
    intros nm i k Hk (? & ? & ? & ?). unfold listed. rewrite nslots_grown, entry_grown by (done || lia).
    rewrite decide_False by done. split_and!; [lia..|done|done|done].
Qed.
End Operations.
