(* ===== verification/SfsTrunc.v ===== *)
(** * SFS: truncating files

    sfs_truncate frees the blocks past the new end, except that among the
    blocks reached through the indirect block it keeps the first one past
    the end.  What the file shows afterwards, that no block is shared or
    lost in the free map's accounting, and that truncating to nothing leaves
    no block. *)

From S2P Require Import Prelude Ram Kheap KheapSpec KArray Bitmap Bytes Mem CString Uio Device Sfs SfsOps SfsSpec SfsFile SfsWrite.

(** The blocks that survive a truncation to [B] blocks. *)
Definition kept (B k : Z) : Prop := k < B ∨ 15 ≤ k ≤ B.
#[global] Instance kept_dec B k : Decision (kept B k).
Proof. unfold kept. apply _. Defined.

Definition truncated (v : afile) (len : Z) : afile :=
  AFile len (af_type v) (af_links v)
        (λ o, if decide (kept ((len + 511) / 512) (o / 512)) then af_byte v o else 0).

(** [L'] is [L] with some blocks dropped. *)
Definition shrinks (L L' : list Z) : Prop := ∀ k b, L' !! k = Some b → b = 0 ∨ L !! k = Some b.

Lemma shrinks_elem L L' b : shrinks L L' → b ∈ L' → b ≠ 0 → b ∈ L.
Proof.
  intros Hs [k Hk]%list_elem_of_lookup Hb. destruct (Hs _ _ Hk) as [|?]; [done|]. by eapply list_elem_of_lookup_2.
Qed.

Lemma shrinks_no_inj L L' : shrinks L L' → no_inj L → no_inj L'.
Proof.
  intros Hs Hn j k b Hj Hk Hb. destruct (Hs _ _ Hj) as [|Hj']; [done|]. destruct (Hs _ _ Hk) as [|Hk']; [done|].
  by eapply Hn.
Qed.

Section Free.
Context {D H : Type} `{DiskLaws D} `{KHeap H}.
Implicit Types s : sfs D H.

(** [s'] is [s] with the blocks [X] unmarked. *)
Definition unmap s s' (X : list Z) : Prop :=
  ∃ m d, s' = set_freemapdirty d (set_freemap m s) ∧ bitmap_wf m ∧ b_nbits m = b_nbits (s_freemap s) ∧
    (b_self m = b_self (s_freemap s) ∧ b_addr m = b_addr (s_freemap s) ∧
     (d = true ∨ d = s_freemapdirty s ∧ m = s_freemap s)) ∧
    ∀ j, marked m j = if decide (Z.of_nat j ∈ X) then false else marked (s_freemap s) j.

Lemma unmap_nil s : map_wf s → unmap s s [].
Proof.
  intros [Hwf _ _ _]. exists (s_freemap s), (s_freemapdirty s). split_and!; [by destruct s|done..|by right|].
  intros j. by rewrite decide_False by set_solver.
Qed.

Lemma unmap_trans s1 s2 s3 X Y : unmap s1 s2 X → unmap s2 s3 Y → unmap s1 s3 (X ++ Y).
Proof.
  intros (m & d & -> & ? & ? & (? & ? & Hd) & Hm) (m' & d' & -> & ? & ? & (? & ? & Hd') & Hm'). exists m', d'.
  split_and!; try done; cbn in *; try congruence.
  { destruct Hd' as [->|[-> ->]]; [by left|done]. }
  intros j. rewrite Hm', Hm.
  destruct (decide (Z.of_nat j ∈ Y)); [by rewrite decide_True by (apply elem_of_app; by right)|].
  destruct (decide (Z.of_nat j ∈ X)); [by rewrite decide_True by (apply elem_of_app; by left)|].
  by rewrite decide_False by (intros [?|?]%elem_of_app; done).
Qed.

Lemma unmap_env s s' X : unmap s s' X → same_env s s'.
Proof. intros (m & d & -> & ? & ? & (? & ? & _) & _). by constructor. Qed.

Lemma unmap_same s s' X :
  unmap s s' X → s_pool s' = s_pool s ∧ s_user s' = s_user s ∧ s_device s' = s_device s.
Proof. by intros (m & d & -> & _). Qed.

Lemma unmap_valid s s' X b : unmap s s' X → valid_block s b → valid_block s' b.
Proof. by intros (m & d & -> & _). Qed.
Lemma unmap_dev s s' X : unmap s s' X → dev_wf s → dev_wf s'.
Proof. intros (m & d & -> & _) []. by constructor. Qed.

Lemma unmap_used s s' X b : unmap s s' X → 0 ≤ b → b ∉ X → used s b → used s' b.
Proof.
  intros (m & d & -> & _ & _ & _ & Hm) Hb Hx Hu. unfold used in *. cbn. rewrite Hm.
  rewrite decide_False; [done|]. by rewrite Z2Nat.id.
Qed.

(** Unmarking blocks that no file has. *)
Lemma disk_inv_unmap s s' files X :
  disk_inv s files → unmap s s' X →
  (∀ b, b ∈ X → valid_block s b ∧ files !! b = None ∧ ∀ ino i, files !! ino = Some i → b ∉ blist s i) →
  disk_inv s' files.
Proof.
  intros Hinv Hun HX. pose proof (λ b, unmap_used _ _ _ b Hun) as Hu.
  destruct Hun as (m & d & -> & Hwf & Hn & (_ & _ & Hd) & _).
  destruct Hd as [->|[-> ->]]; [|destruct s; exact Hinv].
  apply disk_inv_remap; [done|..].
  - destruct (di_map _ _ Hinv) as [_ Hbits Hsize Hres]. constructor; [done|by cbn; rewrite Hn|done|].
    cbn. rewrite Hn. intros c Hc Hnv. apply (Hu c); [lia| |by apply Hres]. intros Hx. by destruct (HX _ Hx).
  - intros ino i Hi. destruct (di_inode _ _ Hinv _ _ Hi) as (_ & _ & [? _] & ?).
    apply (Hu ino); [lia| |done]. intros Hx. destruct (HX _ Hx) as (_ & ? & _). congruence.
  - intros ino i c Hi Hc Hc0. destruct (di_block _ _ Hinv _ _ _ Hi Hc Hc0) as ([? _] & ? & _).
    apply (Hu c); [lia| |done]. intros Hx. destruct (HX _ Hx) as (_ & _ & Hno). by eapply Hno.
Qed.

Lemma bfree_unmap s b :
  map_wf s → dev_wf s → valid_block s b → used s b →
  ∃ s', sfs_bfree b s = Done (tt, s') ∧ unmap s s' [b].
Proof.
  intros Hmap Hdev Hval Hu. destruct (bfree_run s b Hmap Hdev Hval Hu) as (m & Hrun & ? & ? & (? & ?) & Hm).
  exists (remap s m). split; [done|]. exists m, true. split_and!; [done..|by left|]. intros j. rewrite Hm.
  destruct Hval as [[? _] _]. destruct (decide (j = Z.to_nat b)), (decide (Z.of_nat j ∈ [b])); set_solver by lia.
Qed.

(** A file that drops blocks keeps the volume in order. *)
Lemma put_shrunk s files p sv i :
  disk_inv s files → s_pool s !! p = Some sv → inode_wf i → shrinks (blist s (sv_i sv)) (blist s i) →
  disk_inv (put_inode s p sv i) (<[sv_ino sv := i]> files).
Proof.
  intros Hinv Hp Hi Hs. pose proof (di_loaded _ _ Hinv _ _ Hp) as Hcur.
  destruct (di_inode _ _ Hinv _ _ Hcur) as (_ & Hnj & _).
  apply disk_inv_put; [done|done|done|by eapply shrinks_no_inj|]. intros b Hb Hb0. left. by eapply shrinks_elem.
Qed.

(** A block that was dropped is nobody's. *)
Lemma dropped_free s s1 files ino i i1 b :
  disk_inv s files → files !! ino = Some i → shrinks (blist s i) (blist s1 i1) →
  (∀ j i', files !! j = Some i' → j ≠ ino → blist s1 i' = blist s i') →
  b ∈ blist s i → b ≠ 0 → b ∉ blist s1 i1 →
  valid_block s b ∧ used s b ∧ (<[ino := i1]> files) !! b = None ∧
  ∀ j i', (<[ino := i1]> files) !! j = Some i' → b ∉ blist s1 i'.
Proof.
  intros Hinv Hi Hs Hoth Hb Hb0 Hno. destruct (di_block _ _ Hinv _ _ _ Hi Hb Hb0) as (? & ? & ?).
  split; [done|]. split; [done|]. split; [rewrite lookup_insert_None; split; [done|congruence]|].
  intros j i' [[<- <-]|[Hj Hi']]%lookup_insert_Some; [done|]. rewrite (Hoth _ _ Hi') by done.
  intros Hb'. apply Hj. by eapply (di_own _ _ Hinv).
Qed.

(** ** The direct blocks *)

(** What dropping direct blocks changes: the vnode's inode, and marks. *)
Record direct_cut (B i : Z) s s' p (files : gmap Z sfs_inode) (sv sv' : sfs_vnode) : Prop := {
  dc_inv : disk_inv s' (<[sv_ino sv := sv_i sv']> files);
  dc_pool : s_pool s' !! p = Some sv';
  dc_ino : sv_ino sv' = sv_ino sv;
  dc_env : same_env s s';
  dc_user : s_user s' = s_user s;
  dc_dev : s_device s' = s_device s;
  dc_type : sfi_type (sv_i sv') = sfi_type (sv_i sv);
  dc_links : sfi_linkcount (sv_i sv') = sfi_linkcount (sv_i sv);
  dc_indirect : sfi_indirect (sv_i sv') = sfi_indirect (sv_i sv);
  dc_direct k : (k < 15)%nat → sfi_direct (sv_i sv') !! k =
    if decide (i ≤ Z.of_nat k ∧ B ≤ Z.of_nat k) then Some 0 else sfi_direct (sv_i sv) !! k;
}.

Lemma direct_cut_none B i s p files sv :
  disk_inv s files → s_pool s !! p = Some sv → 15 ≤ i → direct_cut B i s s p files sv sv.
Proof.
  intros Hinv Hp Hi. constructor; try done.
  - rewrite insert_id; [done|]. by apply (di_loaded _ _ Hinv _ _ Hp).
  - intros k Hk. by rewrite decide_False by lia.
Qed.

Lemma blk_device s s' b : s_device s' = s_device s → blk s' b = blk s b.
Proof. unfold blk. by intros ->. Qed.

Lemma blist_device s s' i : s_device s' = s_device s → blist s' i = blist s i.
Proof. intros E. apply blist_agree. intros. by apply blk_device. Qed.

(** Dropping one direct block. *)
Lemma drop_direct s files p sv k b :
  disk_inv s files → s_pool s !! p = Some sv → (k < 15)%nat → sfi_direct (sv_i sv) !! k = Some b → b ≠ 0 →
  runs (sfs_bfree b;; sv ← get_sv p; put_sv p (set_inode (set_direct k 0 (sv_i sv)) true sv)) s
    (λ _ s', let i' := set_direct k 0 (sv_i sv) in
       disk_inv s' (<[sv_ino sv := i']> files) ∧ s_pool s' !! p = Some (set_inode i' true sv) ∧
       same_env s s' ∧ s_user s' = s_user s ∧ s_device s' = s_device s).
Proof.
  intros Hinv Hp Hk Hd Hb. pose proof (di_loaded _ _ Hinv _ _ Hp) as Hi.
  destruct (di_inode _ _ Hinv _ _ Hi) as (Hwf & Hnj & _). set (i' := set_direct k 0 (sv_i sv)).
  assert (HL : blist s i' = <[S k := 0]> (blist s (sv_i sv))) by (by apply blist_set_direct).
  assert (Hpos : blist s (sv_i sv) !! S k = Some b).
  { change (blist s (sv_i sv) !! S k) with ((sfi_direct (sv_i sv) ++ idtable s (sv_i sv)) !! k).
    rewrite lookup_app_l; [done|]. rewrite (iw_direct _ Hwf). lia. }
  assert (Hsh : shrinks (blist s (sv_i sv)) (blist s i')).
  { rewrite HL. intros j c [(<- & <- & _)|[? ?]]%list_lookup_insert_Some; [by left|by right]. }
  assert (Hno : b ∉ blist s i').
  { rewrite HL. intros [j [(<- & <- & _)|[Hj Hc]]%list_lookup_insert_Some]%list_elem_of_lookup; [done|].
    apply Hj. by eapply Hnj. }
  destruct (dropped_free s s files _ _ i' b Hinv Hi Hsh) as (Hval & Hu & Hfree); [done|by eapply list_elem_of_lookup_2|done|done|].
  destruct (bfree_unmap s b (di_map _ _ Hinv) (di_dev _ _ Hinv) Hval Hu) as (s1 & Hrun & Hun).
  destruct (unmap_same _ _ _ Hun) as (Hp1 & Hu1 & Hd1).
  apply runs_bind. exists tt, s1. split; [done|]. apply runs_bind. eapply runs_get_sv; [by rewrite Hp1|].
  apply runs_put_sv. cbn zeta. fold i'. split_and!.
  - assert (Hwf' : inode_wf i').
    { destruct Hwf. constructor; try done. cbn. by rewrite length_insert. }
    pose proof (put_shrunk s files p sv i' Hinv Hp Hwf' Hsh) as Hinv'.
    eapply disk_inv_unmap; [exact Hinv'| |].
    + destruct Hun as (m & d & -> & Hm). exists m, d. split; [reflexivity|]. exact Hm.
    + intros c ->%list_elem_of_singleton. done.
  - cbn. apply lookup_insert_eq.
  - etransitivity; [by eapply unmap_env|]. apply (put_inode_env s1 p sv i'). by rewrite Hp1.
  - exact Hu1.
  - exact Hd1.
Qed.

Lemma truncate_direct_run n B i s files p sv :
  disk_inv s files → s_pool s !! p = Some sv → 0 ≤ i → i + Z.of_nat n = 15 →
  runs (truncate_direct n i p B) s (λ _ s', ∃ sv', direct_cut B i s s' p files sv sv').
Proof.
  revert i s files sv. induction n as [|n IH]; intros i s files sv Hinv Hp Hi Hn.
  { apply runs_ret. exists sv. apply direct_cut_none; [done..|lia]. }
  pose proof (di_loaded _ _ Hinv _ _ Hp) as Hcur. destruct (di_inode _ _ Hinv _ _ Hcur) as ([_ _ _ Hlen _] & _).
  destruct (lookup_lt_is_Some_2 (sfi_direct (sv_i sv)) (Z.to_nat i)) as [b Hb]; [lia|].
  cbn [truncate_direct]. apply runs_bind. eapply runs_get_sv; [done|]. apply runs_bind. eapply runs_deref; [done|].
  apply runs_bind. destruct (Z.geb_spec i B); cbn [andb]; cycle 1.
  { apply runs_ret. eapply runs_mono; [apply (IH (i + 1) s files sv); [done..|lia|lia]|].
    intros _ s' (sv' & [? ? ? ? ? ? ? ? ? Hdir]). exists sv'. constructor; try done. intros k Hk. rewrite Hdir by done.
    destruct (decide _) as [|Hno]; [by rewrite decide_True by lia|]. by rewrite decide_False by lia. }
  destruct (Z.eqb_spec b 0) as [->|Hb0]; cbn [negb].
  { apply runs_ret. eapply runs_mono; [apply (IH (i + 1) s files sv); [done..|lia|lia]|].
    intros _ s' (sv' & [? ? ? ? ? ? ? ? ? Hdir]). exists sv'. constructor; try done. intros k Hk. rewrite Hdir by done.
    destruct (decide (i = Z.of_nat k)) as [->|].
    - rewrite Nat2Z.id in Hb. rewrite decide_False, decide_True by lia. done.
    - destruct (decide _) as [|Hno]; [by rewrite decide_True by lia|]. by rewrite decide_False by lia. }
  eapply runs_mono; [apply (drop_direct s files p sv (Z.to_nat i) b); [done|done|lia|done|done]|].
  intros _ s1 (Hinv1 & Hp1 & Henv1 & Hu1 & Hd1). cbn zeta in *.
  eapply runs_mono; [apply (IH (i + 1) s1 _ _ Hinv1 Hp1); lia|].
  intros _ s2 (sv2 & [Hinv2 ? ? ? ? ? ? ? ? Hdir]). exists sv2. cbn in Hinv2. rewrite insert_insert_eq in Hinv2.
  constructor; try done; try congruence; [by etransitivity|].
  intros k Hk. rewrite Hdir by done. cbn. destruct (decide (i = Z.of_nat k)) as [->|].
  - rewrite Nat2Z.id. rewrite decide_False, decide_True by lia. apply list_lookup_insert_eq. lia.
  - rewrite list_lookup_insert_ne by lia. destruct (decide _) as [|Hno]; [by rewrite decide_True by lia|].
    by rewrite decide_False by lia.
Qed.

(** ** The indirect block *)

(** The table after the loop of sfs_truncate, from entry [j] on, and the
    blocks the loop frees. *)
Fixpoint cut_from (B j : Z) (T : list Z) : list Z :=
  match T with [] => [] | b :: T => (if B <? 15 + j then 0 else b) :: cut_from B (j + 1) T end.
Fixpoint dropped_from (B j : Z) (T : list Z) : list Z :=
  match T with
  | [] => []
  | b :: T => (if (B <? 15 + j) && negb (b =? 0) then [b] else []) ++ dropped_from B (j + 1) T
  end.

Lemma cut_from_lookup B j T k :
  cut_from B j T !! k = (λ b, if B <? 15 + j + Z.of_nat k then 0 else b) <$> T !! k.
Proof.
  revert j k. induction T as [|b T IH]; intros j k; [done|]. destruct k as [|k].
  - change (cut_from B j (b :: T) !! 0%nat) with (Some (if B <? 15 + j then 0 else b)).
    change (Z.of_nat 0) with 0. by rewrite Z.add_0_r.
  - change (cut_from B j (b :: T) !! S k) with (cut_from B (j + 1) T !! k). rewrite IH.
    by replace (15 + (j + 1) + Z.of_nat k) with (15 + j + Z.of_nat (S k)) by lia.
Qed.

Lemma cut_from_length B j T : length (cut_from B j T) = length T.
Proof. revert j. induction T; intros; cbn; [done|]. by f_equal. Qed.

Lemma dropped_from_elem B j T b :
  b ∈ dropped_from B j T → b ≠ 0 ∧ ∃ k, T !! k = Some b ∧ cut_from B j T !! k = Some 0.
Proof.
  revert j. induction T as [|c T IH]; intros j; [set_solver|]. cbn [dropped_from]. rewrite elem_of_app.
  intros [Hb|Hb].
  - destruct (B <? 15 + j) eqn:E, (Z.eqb_spec c 0); cbn in Hb; try by apply not_elem_of_nil in Hb.
    apply list_elem_of_singleton in Hb as ->. split; [done|]. exists 0%nat. cbn. by rewrite E.
  - destruct (IH _ Hb) as (? & k & ? & ?). split; [done|]. by exists (S k).
Qed.

Lemma unmap_map_wf s s' X :
  map_wf s → unmap s s' X → (∀ b, b ∈ X → valid_block s b) → map_wf s'.
Proof.
  intros [Hwf Hbits Hsize Hres] Hun HX. pose proof (λ b, unmap_used _ _ _ b Hun) as Hu.
  destruct Hun as (m & d & -> & Hwf' & Hn & _). constructor; [done|by cbn; rewrite Hn|done|].
  cbn. rewrite Hn. intros c Hc Hnv. apply (Hu c); [lia| |by apply Hres]. intros Hx. apply Hnv, HX, Hx.
Qed.

Lemma truncate_indirect_run T j B s :
  map_wf s → dev_wf s → no_inj T → (∀ b, b ∈ T → b ≠ 0 → valid_block s b ∧ used s b) →
  runs (truncate_indirect T j B 15) s (λ r s', ∃ nz dirty, r = (cut_from B j T, nz, dirty) ∧
    (nz = false ↔ ∀ b, b ∈ cut_from B j T → b = 0) ∧
    (dirty = false → cut_from B j T = T ∧ dropped_from B j T = []) ∧ unmap s s' (dropped_from B j T)).
Proof.
  revert j s. induction T as [|b T IH]; intros j s Hmap Hdev Hnj Hval.
  { apply runs_ret. exists false, false. split_and!; [done|set_solver|done|by apply unmap_nil]. }
  cbn [truncate_indirect cut_from dropped_from]. set (dr := (B <? 15 + j) && negb (b =? 0)).
  assert (Hnj' : no_inj T).
  { intros k1 k2 c E1 E2 Hc. pose proof (Hnj (S k1) (S k2) c E1 E2 Hc). lia. }
  assert (Hstep : runs (if dr then sfs_bfree b else mret tt) s (λ _ s1, unmap s s1 (if dr then [b] else []))).
  { unfold dr. destruct (B <? 15 + j), (Z.eqb_spec b 0); cbn [andb negb]; try (apply runs_ret; by apply unmap_nil).
    destruct (Hval b) as [? ?]; [left|done|].
    destruct (bfree_unmap s b Hmap Hdev) as (s1 & Hrun & Hun); [done..|]. by exists tt, s1. }
  apply runs_bind. eapply runs_mono; [exact Hstep|]. intros [] s1 Hun1. cbv beta in Hun1 |- *.
  assert (Hval1 : ∀ c, c ∈ T → c ≠ 0 → valid_block s1 c ∧ used s1 c).
  { intros c Hc Hc0. destruct (Hval c) as [Hv Hu]; [by right|done|]. split; [by eapply unmap_valid|].
    eapply unmap_used; [exact Hun1|destruct Hv as [[? ?] ?]; lia| |done].
    intros Hin. assert (c = b) as ->. { clear -Hin. clearbody dr. destruct dr; set_solver. } apply list_elem_of_lookup in Hc as [k Hk].
    pose proof (Hnj 0%nat (S k) b eq_refl Hk Hc0). done. }
  assert (Hmap1 : map_wf s1).
  { eapply unmap_map_wf; [exact Hmap|exact Hun1|]. intros c Hin.
    assert (c = b ∧ b ≠ 0) as [-> Hb0].
    { clear -Hin. unfold dr in Hin. destruct (B <? 15 + j), (Z.eqb_spec b 0); cbn in Hin; set_solver. }
    apply Hval; [left|exact Hb0]. }
  pose proof (unmap_dev _ _ _ Hun1 Hdev) as Hdev1.
  apply runs_bind. eapply runs_mono; [apply (IH (j + 1) s1); done|].
  intros r s2 (nz & dirty & -> & Hnz & Hdirty & Hun2). apply runs_ret.
  assert (Hhd : (if dr then 0 else b) = (if B <? 15 + j then 0 else b)).
  { unfold dr. destruct (B <? 15 + j), (Z.eqb_spec b 0); cbn; congruence. }
  eexists _, _. split.
  { rewrite Hhd. reflexivity. }
  split; [|split; [|by eapply unmap_trans]].
  - destruct (Z.eqb_spec (if B <? 15 + j then 0 else b) 0) as [E|E]; cbn [negb orb].
    + rewrite Hnz, E. split; [intros Hall c [->|?]%elem_of_cons; auto|]. intros Hall c Hc. apply Hall. by right.
    + split; [done|]. intros Hall. destruct E. apply Hall. left.
  - intros [Hd1 Hd2]%orb_false_iff. destruct (Hdirty Hd2) as [-> ->]. clear -Hd1. unfold dr in *.
    destruct (B <? 15 + j), (Z.eqb_spec b 0); cbn in *; subst; done.
Qed.

Lemma shrinks_gone L L' k b : shrinks L L' → no_inj L → L !! k = Some b → b ≠ 0 → L' !! k ≠ Some b → b ∉ L'.
Proof.
  intros Hs Hn Hk Hb Hk' [j Hj]%list_elem_of_lookup. destruct (Hs _ _ Hj) as [|Hj']; [done|].
  assert (j = k) as -> by (by eapply Hn). done.
Qed.

(** A file shrinks, then the blocks it dropped are freed. *)
Lemma shrink_unmap s s1 s' files ino i i1 X :
  disk_inv s files → files !! ino = Some i → disk_inv s1 (<[ino := i1]> files) → s_super s1 = s_super s →
  shrinks (blist s i) (blist s1 i1) →
  (∀ j i', files !! j = Some i' → j ≠ ino → blist s1 i' = blist s i') →
  unmap s1 s' X → (∀ b, b ∈ X → b ≠ 0 ∧ ∃ k, blist s i !! k = Some b ∧ blist s1 i1 !! k ≠ Some b) →
  disk_inv s' (<[ino := i1]> files).
Proof.
  intros Hinv Hi Hinv1 Hsup Hs Hoth Hun HX. destruct (di_inode _ _ Hinv _ _ Hi) as (_ & Hnj & _).
  eapply disk_inv_unmap; [exact Hinv1|exact Hun|]. intros b Hb. destruct (HX b Hb) as (Hb0 & k & Hk & Hk').
  destruct (dropped_free s s1 files ino i i1 b) as (Hv & _ & Hfree); try done.
  - by eapply list_elem_of_lookup_2.
  - by eapply shrinks_gone.
  - split; [|done]. revert Hv. unfold valid_block, bitblocks, nblocks. by rewrite Hsup.
Qed.

Record table_cut (B : Z) s s' p (files : gmap Z sfs_inode) (sv sv' : sfs_vnode) : Prop := {
  tc_inv : disk_inv s' (<[sv_ino sv := sv_i sv']> files);
  tc_pool : s_pool s' !! p = Some sv';
  tc_ino : sv_ino sv' = sv_ino sv;
  tc_env : same_env s s';
  tc_user : s_user s' = s_user s;
  tc_type : sfi_type (sv_i sv') = sfi_type (sv_i sv);
  tc_links : sfi_linkcount (sv_i sv') = sfi_linkcount (sv_i sv);
  tc_direct : sfi_direct (sv_i sv') = sfi_direct (sv_i sv);
  tc_table k : (k < 128)%nat → default 0 (idtable s' (sv_i sv') !! k) =
    if B <? 15 + Z.of_nat k then 0 else default 0 (idtable s (sv_i sv) !! k);
  tc_blk c : c ≠ sfi_indirect (sv_i sv) → blk s' c = blk s c;
  tc_zero : B = 0 → sfi_indirect (sv_i sv') = 0;
}.

Definition cut_table (p B idblock : Z) : F D H (res unit) :=
  if (B <? 142) && negb (idblock =? 0) then
    idbuf ←? sfs_rblock blank_block idblock;
    '(idbuf, hasnonzero, iddirty) ← truncate_indirect (words_of 128 idbuf) 0 B 15;
    if negb hasnonzero then
      sfs_bfree idblock;;
      sv ← get_sv p;
      put_sv p (set_inode (set_indirect 0 (sv_i sv)) true sv);;
      mret (Ok tt)
    else if (iddirty : bool) then sfs_wblock (be32s idbuf) idblock
    else mret (Ok tt)
  else mret (Ok tt).

Lemma redisk_table s s1 i : redisk s s1 (blk s) → idtable s1 i = idtable s i.
Proof. intros Hre. apply idtable_agree. intros. by rewrite (redisk_blk _ _ _ _ Hre). Qed.

Lemma default_zero (l : list Z) k : default 0 (l !! k) = 0 → l !! k = None ∨ l !! k = Some 0.
Proof. destruct (l !! k); cbn; [intros ->|]; auto. Qed.

(** The indirect block is dropped: nothing in it survives. *)
Lemma cut_table_free s1 s2 files p sv B :
  disk_inv s1 files → s_pool s1 !! p = Some sv → sfi_indirect (sv_i sv) ≠ 0 →
  (∀ b, b ∈ cut_from B 0 (idtable s1 (sv_i sv)) → b = 0) →
  unmap s1 s2 (dropped_from B 0 (idtable s1 (sv_i sv))) →
  runs (sfs_bfree (sfi_indirect (sv_i sv));;
        sv ← get_sv p;
        put_sv p (set_inode (set_indirect 0 (sv_i sv)) true sv);; mret (Ok tt)) s2
    (λ r s', r = Ok tt ∧ ∃ sv', table_cut B s1 s' p files sv sv').
Proof.
  intros Hinv Hp Hid Hall Hun. pose proof (di_loaded _ _ Hinv _ _ Hp) as Hi.
  destruct (di_inode _ _ Hinv _ _ Hi) as (Hwf & Hnj & _). set (T := idtable s1 (sv_i sv)) in *.
  destruct (di_block _ _ Hinv _ _ (sfi_indirect (sv_i sv)) Hi) as (Hval & Hused & _); [left|done|].
  assert (HTpos : ∀ k b, T !! k = Some b → blist s1 (sv_i sv) !! (S (15 + k))%nat = Some b).
  { intros k b Hk. by rewrite blist_entry. }
  assert (HX : ∀ b, b ∈ dropped_from B 0 T → b ≠ 0 ∧ ∃ k, T !! k = Some b ∧ cut_from B 0 T !! k = Some 0)
    by (intros; by apply dropped_from_elem).
  assert (HidX : sfi_indirect (sv_i sv) ∉ dropped_from B 0 T).
  { intros (_ & k & Hk & _)%HX. by specialize (Hnj 0%nat (S (15 + k)) _ eq_refl (HTpos _ _ Hk) Hid). }
  destruct (unmap_same _ _ _ Hun) as (Hp2 & Hu2 & Hd2).
  assert (Hmap2 : map_wf s2).
  { eapply unmap_map_wf; [apply Hinv|exact Hun|]. intros b (Hb0 & k & Hk & _)%HX.
    apply (di_block _ _ Hinv _ _ _ Hi); [by eapply list_elem_of_lookup_2, HTpos|done]. }
  destruct (bfree_unmap s2 (sfi_indirect (sv_i sv)) Hmap2) as (s3 & Hrun & Hun3).
  { eapply unmap_dev; [exact Hun|apply Hinv]. } { by eapply unmap_valid. }
  { eapply unmap_used; [exact Hun|destruct Hval as [? _]; lia|done|done]. }
  pose proof (unmap_trans _ _ _ _ _ Hun Hun3) as Hun13. destruct (unmap_same _ _ _ Hun13) as (Hp3 & Hu3 & Hd3).
  apply runs_bind. exists tt, s3. split; [done|]. apply runs_bind. eapply runs_get_sv; [by rewrite Hp3|].
  apply runs_bind, runs_put_sv, runs_ret. split; [done|]. set (i' := set_indirect 0 (sv_i sv)).
  exists (set_inode i' true sv).
  assert (HL' : blist s1 i' = 0 :: sfi_direct (sv_i sv) ++ replicate 128 0) by done.
  assert (Hsh : shrinks (blist s1 (sv_i sv)) (blist s1 i')).
  { rewrite HL'. intros [|k] b; [intros [= <-]; by left|]. change ((?x :: ?l) !! S k) with (l !! k).
    intros [Hk|[? Hk]]%lookup_app_Some; [right|left; by apply lookup_replicate in Hk as [-> _]].
    change (blist s1 (sv_i sv) !! S k) with ((sfi_direct (sv_i sv) ++ T) !! k). by apply lookup_app_l_Some. }
  assert (Hwf' : inode_wf i') by (by destruct Hwf).
  constructor; try done.
  - apply (shrink_unmap s1 (put_inode s1 p sv i') _ files _ (sv_i sv) i'
      (dropped_from B 0 T ++ [sfi_indirect (sv_i sv)])); try done.
    + by apply put_shrunk.
    + destruct Hun13 as (m & d & -> & Hm). exists m, d. split; [reflexivity|exact Hm].
    + change (blist (put_inode s1 p sv i') i') with (blist s1 i'). rewrite HL'.
      intros b [(Hb0 & k & Hk & _)%HX| ->%list_elem_of_singleton]%elem_of_app; [split; [done|]|by split; [|exists 0%nat; split; [|intros [= ?]]]].
      exists (S (15 + k)). split; [by apply HTpos|]. change ((?x :: ?l) !! S ?k) with (l !! k).
      rewrite lookup_app_r by (rewrite (iw_direct _ Hwf); lia). intros [? _]%lookup_replicate. done.
  - cbn. apply lookup_insert_eq.
  - etransitivity; [by eapply unmap_env|]. apply (put_inode_env s3 p sv i'). by rewrite Hp3.
  - intros k Hk. change (idtable _ _) with (replicate 128 0) at 1. rewrite lookup_replicate_2 by done. cbn [default].
    destruct (lookup_lt_is_Some_2 T k) as [b Hb]; [unfold T; by rewrite idtable_length|]. fold T. rewrite Hb. cbn [default].
    pose proof (cut_from_lookup B 0 T k) as Hc. rewrite Hb in Hc. cbn [fmap option_fmap option_map] in Hc.
    symmetry. apply Hall. by eapply list_elem_of_lookup_2.
  - intros c Hc. by apply blk_device.
Qed.

(** The indirect block is written back with fewer entries. *)
Lemma cut_table_write s1 s2 files p sv B :
  disk_inv s1 files → s_pool s1 !! p = Some sv → sfi_indirect (sv_i sv) ≠ 0 → B ≠ 0 →
  unmap s1 s2 (dropped_from B 0 (idtable s1 (sv_i sv))) →
  runs (sfs_wblock (be32s (cut_from B 0 (idtable s1 (sv_i sv)))) (sfi_indirect (sv_i sv))) s2
    (λ r s', r = Ok tt ∧ ∃ sv', table_cut B s1 s' p files sv sv').
Proof.
  intros Hinv Hp Hid HB Hun. pose proof (di_loaded _ _ Hinv _ _ Hp) as Hi.
  destruct (di_inode _ _ Hinv _ _ Hi) as (Hwf & Hnj & _). pose proof (idtable_range _ _ _ _ Hinv Hi) as Hrange.
  destruct (di_block _ _ Hinv _ _ (sfi_indirect (sv_i sv)) Hi) as ([Hval _] & _); [left|done|].
  set (T := idtable s1 (sv_i sv)) in *. set (T' := cut_from B 0 T).
  assert (HT' : length T' = 128%nat) by (unfold T', T; by rewrite cut_from_length, idtable_length).
  destruct (unmap_same _ _ _ Hun) as (Hp2 & Hu2 & Hd2).
  destruct (wblock_run s2 (be32s T') (sfi_indirect (sv_i sv))) as (s3 & Hrun & Hre).
  { eapply unmap_dev; [exact Hun|apply Hinv]. } { destruct Hun as (m & d & -> & _). change (nblocks _) with (nblocks s1). lia. }
  { by rewrite be32s_length, HT'. }
  exists (Ok tt), s3. split; [exact Hrun|]. split; [done|]. exists sv.
  assert (∃ s1', redisk s1 s1' (set_blk s1 (sfi_indirect (sv_i sv)) (be32s T')) ∧ unmap s1' s3 (dropped_from B 0 T))
    as (s1' & Hre' & Hun').
  { destruct Hre as (d & -> & Hd & Hdb & Hsec). exists (set_device d (s_user s1) s1). split.
    - exists d. split_and!; [done|done|by rewrite Hdb, Hd2|]. intros c. rewrite Hsec. unfold set_blk, blk. by rewrite Hd2.
    - destruct Hun as (m & dd & -> & Hm). exists m, dd. split; [reflexivity|exact Hm]. }
  assert (Hid' : idtable s1' (sv_i sv) = T').
  { unfold idtable. rewrite (proj2 (Z.eqb_neq _ _) Hid), (redisk_blk _ _ _ _ Hre'). unfold set_blk. rewrite decide_True by done.
    pose proof (words_of_be32s T' []) as E. rewrite HT', app_nil_r in E. apply E. apply Forall_lookup_2.
    intros k b Hk. unfold T' in Hk. rewrite cut_from_lookup in Hk. destruct (T !! k) as [c|] eqn:Ec; [|done].
    cbn in Hk. injection Hk as <-. apply (Forall_lookup_1 _ _ _ _ Hrange) in Ec. destruct (B <? _); lia. }
  assert (HL : blist s1' (sv_i sv) = sfi_indirect (sv_i sv) :: sfi_direct (sv_i sv) ++ T').
  { unfold blist. by rewrite Hid'. }
  assert (Hcut : ∀ k b, T' !! k = Some b → b = 0 ∨ T !! k = Some b).
  { intros k b Hk. unfold T' in Hk. rewrite cut_from_lookup in Hk. destruct (T !! k) as [c|]; [|done].
    cbn in Hk. injection Hk as <-. destruct (B <? _); auto. }
  assert (Hsh : shrinks (blist s1 (sv_i sv)) (blist s1' (sv_i sv))).
  { rewrite HL. intros [|k] b; [by right|]. change ((?x :: ?l) !! S k) with (l !! k).
    change (blist s1 (sv_i sv) !! S k) with ((sfi_direct (sv_i sv) ++ T) !! k).
    intros [Hk|[Hl Hk]]%lookup_app_Some; [right; by apply lookup_app_l_Some|].
    destruct (Hcut _ _ Hk) as [|?]; [by left|right]. by rewrite lookup_app_r. }
  assert (Hinv1' : disk_inv s1' files).
  { eapply disk_inv_retable; [done..|by eapply shrinks_no_inj|]. intros c Hc Hc0. left. by eapply shrinks_elem. }
  constructor; try done.
  - rewrite insert_id by done. rewrite <- (insert_id files (sv_ino sv) (sv_i sv)) by done.
    apply (shrink_unmap s1 s1' _ files _ (sv_i sv) _ (dropped_from B 0 T));
      [exact Hinv|exact Hi| | |exact Hsh| |exact Hun'|].
    + by rewrite insert_id.
    + by destruct Hre' as (d & -> & _).
    + intros j i' Hi' Hj. by apply (retable_other s1 s1' files (sv_ino sv) (sv_i sv) (be32s T') j).
    + intros b (Hb0 & k & Hk & Hk')%dropped_from_elem. split; [done|]. exists (S (15 + k)).
      rewrite HL. split; [by rewrite blist_entry|]. change ((?x :: ?l) !! S ?k) with (l !! k).
      rewrite lookup_app_r, (iw_direct _ Hwf) by (rewrite (iw_direct _ Hwf); lia).
      replace (15 + k - 15)%nat with k by lia. fold T' in Hk'. rewrite Hk'. congruence.
  - by rewrite (redisk_pool _ _ _ Hre), Hp2.
  - etransitivity; [by eapply unmap_env|by eapply redisk_env].
  - by rewrite (redisk_user _ _ _ Hre).
  - intros k Hk. destruct (unmap_same _ _ _ Hun') as (_ & _ & Hd').
    rewrite (idtable_agree s1' s3) by (intros; by apply blk_device). rewrite Hid'. fold T. unfold T'. rewrite cut_from_lookup.
    destruct (T !! k) as [b|]; cbn; [done|]. by destruct (B <? _).
  - intros c Hc. rewrite (redisk_blk _ _ _ _ Hre). unfold set_blk. rewrite decide_False by done. by apply blk_device.
Qed.

(** No entry is dropped. *)
Lemma table_cut_none s s1 files p sv B :
  disk_inv s files → s_pool s !! p = Some sv → disk_inv s1 files → s_pool s1 = s_pool s → same_env s s1 →
  s_user s1 = s_user s → (∀ c, blk s1 c = blk s c) →
  (∀ k, (k < 128)%nat → (B <? 15 + Z.of_nat k) = true → default 0 (idtable s (sv_i sv) !! k) = 0) →
  (B = 0 → sfi_indirect (sv_i sv) = 0) → table_cut B s s1 p files sv sv.
Proof.
  intros Hinv Hp Hinv1 Hp1 Henv Hu Hblk Ht HB. constructor; try done.
  - rewrite insert_id; [done|]. by apply (di_loaded _ _ Hinv _ _ Hp).
  - by rewrite Hp1.
  - intros k Hk. rewrite (idtable_agree s s1) by (intros; apply Hblk).
    destruct (B <? 15 + Z.of_nat k) eqn:E; [auto|done].
Qed.

Lemma table_cut_redisk s s1 s' files p sv sv' B :
  redisk s s1 (blk s) → table_cut B s1 s' p files sv sv' → table_cut B s s' p files sv sv'.
Proof.
  intros Hre [? ? ? ? Hu ? ? ? Ht Hb ?]. constructor; try done.
  - etransitivity; [by eapply redisk_env|done].
  - by rewrite Hu, (redisk_user _ _ _ Hre).
  - intros k Hk. by rewrite Ht, (redisk_table _ _ _ Hre).
  - intros c Hc. by rewrite Hb, (redisk_blk _ _ _ _ Hre).
Qed.

Lemma cut_table_run s files p sv B :
  disk_inv s files → s_pool s !! p = Some sv → 0 ≤ B →
  runs (cut_table p B (sfi_indirect (sv_i sv))) s (λ r s', r = Ok tt ∧ ∃ sv', table_cut B s s' p files sv sv').
Proof.
  intros Hinv Hp HB. pose proof (di_loaded _ _ Hinv _ _ Hp) as Hi. unfold cut_table.
  destruct (Z.ltb_spec B 142) as [Hlt|Hge]; cbn [andb]; cycle 1.
  { apply runs_ret. split; [done|]. exists sv. apply table_cut_none; [done..| |lia].
    intros k Hk E%Z.ltb_lt. lia. }
  destruct (Z.eqb_spec (sfi_indirect (sv_i sv)) 0) as [Hid|Hid]; cbn [negb].
  { apply runs_ret. split; [done|]. exists sv. apply table_cut_none; [done..| |done].
    intros k Hk _. unfold idtable. rewrite Hid. cbn [Z.eqb]. by rewrite lookup_replicate_2. }
  destruct (di_block _ _ Hinv _ _ (sfi_indirect (sv_i sv)) Hi) as ([? _] & _); [left|done|].
  destruct (rblock_run s blank_block (sfi_indirect (sv_i sv)) (di_dev _ _ Hinv)) as (s1 & Hr & Hre);
    [lia|apply blank_block_length|].
  apply runs_bindR. eexists _, s1. split; [exact Hr|]. cbv beta iota.
  pose proof (redisk_same_inv _ _ _ Hre Hinv) as Hinv1.
  assert (Hp1 : s_pool s1 !! p = Some sv) by (by rewrite (redisk_pool _ _ _ Hre)).
  replace (words_of 128 (blk s (sfi_indirect (sv_i sv)))) with (idtable s1 (sv_i sv))
    by (rewrite (redisk_table _ _ _ Hre); unfold idtable; by rewrite (proj2 (Z.eqb_neq _ _) Hid)).
  destruct (di_inode _ _ Hinv1 _ _ Hi) as (_ & Hnj & _).
  apply runs_bind. eapply runs_mono.
  { apply (truncate_indirect_run (idtable s1 (sv_i sv)) 0 B s1); [apply Hinv1|apply Hinv1| |].
    - intros j k b Hj Hk Hb. assert (Hlen : (16 + j = 16 + k)%nat); [|lia].
      destruct (di_inode _ _ Hinv1 _ _ Hi) as (Hwf & _). eapply Hnj; [| |exact Hb]; change (16 + ?x)%nat with (S (15 + x)); by rewrite blist_entry.
    - intros b Hb Hb0. destruct (di_block _ _ Hinv1 _ _ b Hi) as (? & ? & _); [|done|done].
      right. apply elem_of_app. by right. }
  intros r s2 (nz & dirty & -> & Hnz & Hdirty & Hun). cbv beta iota.
  destruct nz; cbn [negb]; cycle 1.
  { eapply runs_mono; [eapply (cut_table_free s1 s2 files p sv B); [done|done|done|by apply Hnz|done]|].
    intros r s3 (-> & sv' & Hc). split; [done|]. exists sv'. by eapply table_cut_redisk. }
  assert (HB0 : B ≠ 0).
  { intros ->. assert (true = false); [apply Hnz|done]. intros b [k Hk]%list_elem_of_lookup.
    rewrite cut_from_lookup in Hk. destruct (idtable s1 (sv_i sv) !! k); [|done]. cbn [fmap option_fmap option_map] in Hk.
    rewrite (proj2 (Z.ltb_lt _ _)) in Hk by lia. congruence. }
  destruct dirty.
  - eapply runs_mono; [eapply (cut_table_write s1 s2 files p sv B); done|].
    intros r s3 (-> & sv' & Hc). split; [done|]. exists sv'. by eapply table_cut_redisk.
  - destruct (Hdirty eq_refl) as [Hsame Hnone]. rewrite Hnone in Hun. apply runs_ret. split; [done|].
    exists sv. eapply table_cut_redisk; [exact Hre|]. destruct (unmap_same _ _ _ Hun) as (Hp2 & Hu2 & Hd2).
    apply table_cut_none; [done|done| |done|by eapply unmap_env|done|intros; by apply blk_device| |done].
    + eapply disk_inv_unmap; [done|exact Hun|]. set_solver.
    + intros k Hk E. pose proof (cut_from_lookup B 0 (idtable s1 (sv_i sv)) k) as Hc. rewrite Hsame in Hc.
      destruct (idtable s1 (sv_i sv) !! k) as [b|]; [|done]. cbn [fmap option_fmap option_map] in Hc.
      injection Hc as Hc. cbn. rewrite Hc. replace (15 + 0 + Z.of_nat k) with (15 + Z.of_nat k) by lia. by rewrite E.
Qed.

(** ** sfs_truncate *)

Lemma sfs_truncate_unfold p len :
  0 ≤ len < 2 ^ 31 - 511 →
  sfs_truncate (D := D) (H := H) p len =
    (let B := (len + 511) / 512 in
     truncate_direct 15 0 p B;;
     sv ← get_sv p;
     _ ←? cut_table p B (sfi_indirect (sv_i sv));
     sv ← get_sv p;
     put_sv p (set_inode (set_size len (sv_i sv)) true sv);; mret (Ok tt)).
Proof.
  intros Hlen. unfold sfs_truncate, block_length. change (SFS_BLOCKSIZE - 1) with 511. change SFS_BLOCKSIZE with 512.
  rewrite (proj2 (Z.ltb_lt _ _)) by lia. rewrite Z.quot_div_nonneg by lia.
  rewrite (u32_id (_ / _)) by (Z.to_euclidean_division_equations; lia). rewrite (u32_id len) by lia. reflexivity.
Qed.

(** A file's blocks after a truncation to [B] blocks. *)
Lemma truncated_list s s1 s2 p files files1 sv sv1 sv2 B k :
  inode_wf (sv_i sv) → inode_wf (sv_i sv1) → inode_wf (sv_i sv2) →
  direct_cut B 0 s s1 p files sv sv1 → table_cut B s1 s2 p files1 sv1 sv2 → 0 ≤ k →
  bmapf s2 (sv_i sv2) k = if decide (kept B k) then bmapf s (sv_i sv) k else 0.
Proof.
  intros Hw Hw1 Hw2 [_ _ _ _ _ Hdev _ _ Hind Hdir] [_ _ _ _ _ _ _ Hd2 Htab _ _] Hk. unfold kept.
  destruct (decide (k < 15)); [|destruct (decide (k < 143))].
  - destruct (lookup_lt_is_Some_2 (sfi_direct (sv_i sv)) (Z.to_nat k)) as [b Hb]; [rewrite (iw_direct _ Hw); lia|].
    rewrite (bmapf_direct s (sv_i sv) k b) by (done || lia). apply bmapf_direct; [done|lia|].
    rewrite Hd2, Hdir, Hb by lia. rewrite Z2Nat.id by lia.
    destruct (decide (0 ≤ k ∧ B ≤ k)), (decide (k < B ∨ 15 ≤ k ≤ B)); done || lia.
  - rewrite !bmapf_indirect by (done || lia). rewrite Htab by lia.
    replace (15 + Z.of_nat (Z.to_nat (k - 15))) with k by lia.
    replace (idtable s1 (sv_i sv1)) with (idtable s (sv_i sv)).
    2: { unfold idtable. rewrite Hind. destruct (_ =? 0); [done|]. by rewrite (blk_device s s1). }
    destruct (Z.ltb_spec B k), (decide (k < B ∨ 15 ≤ k ≤ B)); done || lia.
  - assert (Hz : ∀ s0 i, inode_wf i → bmapf s0 i k = 0).
    { intros s0 i Hi. unfold bmapf. rewrite lookup_ge_None_2; [done|].
      rewrite length_app, idtable_length, (iw_direct _ Hi). lia. }
    rewrite !Hz by done. by destruct (decide _).
Qed.

(** The state after truncating the file of vnode [p]. *)
Definition truncate_post s V p sv v len s' : Prop :=
  ∃ files' sv', disk_inv s' files' ∧ views s' files' (<[sv_ino sv := truncated v len]> V) ∧
    s_pool s' !! p = Some sv' ∧ same_env s s' ∧ s_user s' = s_user s ∧
    (len = 0 → ∀ b, b ∈ blist s' (sv_i sv') → b = 0).

Lemma cut_shows s s1 s2 p files sv sv1 sv2 v B len :
  disk_inv s files → files !! sv_ino sv = Some (sv_i sv) →
  direct_cut B 0 s s1 p files sv sv1 →
  table_cut B s1 s2 p (<[sv_ino sv := sv_i sv1]> files) sv1 sv2 →
  B = (len + 511) / 512 → shows s (sv_i sv) v →
  shows s2 (set_size len (sv_i sv2)) (truncated v len).
Proof.
  intros Hinv Hi Hdc Htc HB (Hs & Ht & Hl & Hby).
  assert (Hw1 : inode_wf (sv_i sv1)).
  { eapply (di_inode _ _ (dc_inv _ _ _ _ _ _ _ _ Hdc) (sv_ino sv)). apply lookup_insert_eq. }
  assert (Hw2 : inode_wf (sv_i sv2)).
  { eapply (di_inode _ _ (tc_inv _ _ _ _ _ _ _ Htc) (sv_ino sv1)). apply lookup_insert_eq. }
  destruct (di_inode _ _ Hinv _ _ Hi) as (Hw & Hnj & _).
  split_and!; cbn.
  - done.
  - by rewrite Ht, (tc_type _ _ _ _ _ _ _ Htc), (dc_type _ _ _ _ _ _ _ _ Hdc).
  - by rewrite Hl, (tc_links _ _ _ _ _ _ _ Htc), (dc_links _ _ _ _ _ _ _ _ Hdc).
  - intros o Ho. unfold file_byte. change (bmapf s2 (set_size len (sv_i sv2)) (o / 512)) with (bmapf s2 (sv_i sv2) (o / 512)).
    pose proof (truncated_list s s1 s2 p files _ sv sv1 sv2 B (o / 512) Hw Hw1 Hw2 Hdc Htc) as Hbm.
    rewrite Hbm by (apply Z.div_pos; lia). rewrite <- HB.
    destruct (decide (kept B (o / 512))); [|done]. rewrite Hby by done. unfold file_byte.
    destruct (Z.eqb_spec (bmapf s (sv_i sv) (o / 512)) 0) as [|Hb]; [done|]. f_equal. f_equal.
    rewrite (tc_blk _ _ _ _ _ _ _ Htc); [by rewrite (blk_device s s1) by apply Hdc|].
    rewrite (dc_indirect _ _ _ _ _ _ _ _ Hdc). intros E.
    rewrite bmapf_list in Hb, E by (apply Z.div_pos; lia).
    destruct (blist s (sv_i sv) !! S (Z.to_nat (o / 512))) as [b|] eqn:Eb; [|done]. change (b = sfi_indirect (sv_i sv)) in E. subst b.
    by specialize (Hnj 0%nat _ _ eq_refl Eb Hb).
Qed.

(** Other files do not notice. *)
Lemma cut_views s s1 s2 p files sv sv1 sv2 V B v' :
  disk_inv s files → s_pool s !! p = Some sv → views s files V →
  direct_cut B 0 s s1 p files sv sv1 →
  table_cut B s1 s2 p (<[sv_ino sv := sv_i sv1]> files) sv1 sv2 →
  shows s2 (sv_i sv2) v' →
  views s2 (<[sv_ino sv := sv_i sv2]> files) (<[sv_ino sv := v']> V).
Proof.
  intros Hinv Hp HV Hdc Htc Hsh ino. specialize (HV ino). destruct (decide (ino = sv_ino sv)) as [->|Hne].
  { by rewrite !lookup_insert_eq. }
  rewrite !lookup_insert_ne by done. destruct (files !! ino) as [i|] eqn:Hi, (V !! ino) as [v|]; try done.
  destruct HV as (? & ? & ? & Hby). split_and!; [done..|]. intros o Ho. rewrite Hby by done.
  symmetry. apply file_byte_agree. intros b Hb Hb0.
  pose proof (di_loaded _ _ Hinv _ _ Hp) as Hcur.
  rewrite (tc_blk _ _ _ _ _ _ _ Htc); [by rewrite (blk_device s s1) by apply Hdc|].
  rewrite (dc_indirect _ _ _ _ _ _ _ _ Hdc). intros ->. apply Hne.
  eapply (di_own _ _ Hinv); [exact Hi|exact Hcur|exact Hb|left|done].
Qed.

Lemma truncated_none s s1 s2 p files files1 sv sv1 sv2 b :
  inode_wf (sv_i sv) → inode_wf (sv_i sv1) → inode_wf (sv_i sv2) →
  direct_cut 0 0 s s1 p files sv sv1 → table_cut 0 s1 s2 p files1 sv1 sv2 →
  b ∈ blist s2 (sv_i sv2) → b = 0.
Proof.
  intros Hw Hw1 Hw2 Hdc Htc [k Hk]%list_elem_of_lookup. destruct k as [|k].
  { change (Some (sfi_indirect (sv_i sv2)) = Some b) in Hk. rewrite (tc_zero _ _ _ _ _ _ _ Htc) in Hk by done. congruence. }
  pose proof (truncated_list s s1 s2 p files files1 sv sv1 sv2 0 (Z.of_nat k) Hw Hw1 Hw2 Hdc Htc ltac:(lia)) as Hb.
  rewrite bmapf_list, Nat2Z.id, Hk in Hb by lia. cbn in Hb. rewrite decide_False in Hb; [done|]. unfold kept. lia.
Qed.

Lemma truncate_run s files V p sv v len :
  disk_inv s files → views s files V → s_pool s !! p = Some sv → V !! sv_ino sv = Some v →
  0 ≤ len < 2 ^ 31 - 511 →
  runs (sfs_truncate p len) s (λ r s', r = Ok tt ∧ truncate_post s V p sv v len s').
Proof.
  intros Hinv HV Hp Hv Hlen. pose proof (di_loaded _ _ Hinv _ _ Hp) as Hcur.
  destruct (views_lookup _ _ _ _ _ HV Hcur) as (v' & Hv' & Hshow). assert (v' = v) as -> by congruence.
  rewrite sfs_truncate_unfold by done. cbn zeta. set (B := (len + 511) / 512).
  assert (HB : 0 ≤ B) by (unfold B; apply Z.div_pos; lia).
  apply runs_bind. eapply runs_mono; [apply (truncate_direct_run 15 B 0 s files p sv); [done..|lia]|].
  intros [] s1 (sv1 & Hdc). pose proof Hdc as [Hinv1 Hp1 Hino1 Henv1 Hu1 _ _ _ _ _]. rewrite <- Hino1 in Hinv1.
  apply runs_bind. eapply runs_get_sv; [exact Hp1|]. apply runs_bindR.
  eapply runs_mono; [apply (cut_table_run s1 _ p sv1 B Hinv1 Hp1 HB)|].
  intros r s2 (-> & sv2 & Htc). pose proof Htc as [Hinv2 Hp2 Hino2 Henv2 Hu2 _ _ _ _ _ _].
  rewrite insert_insert_eq, Hino1 in Hinv2. rewrite Hino1 in Htc. cbv beta iota.
  destruct (di_inode _ _ Hinv _ _ Hcur) as (Hw & _).
  destruct (di_inode _ _ Hinv1 (sv_ino sv1) (sv_i sv1)) as (Hw1 & _); [apply lookup_insert_eq|].
  destruct (di_inode _ _ Hinv2 (sv_ino sv) (sv_i sv2)) as (Hw2 & Hnj2 & _); [apply lookup_insert_eq|].
  apply runs_bind. eapply runs_get_sv; [exact Hp2|]. apply runs_bind, runs_put_sv, runs_ret. split; [done|].
  set (i3 := set_size len (sv_i sv2)). fold (put_inode s2 p sv2 i3).
  assert (Hino : sv_ino sv2 = sv_ino sv) by congruence.
  eexists _, (set_inode i3 true sv2). split_and!.
  - apply (disk_inv_put s2 (<[sv_ino sv := sv_i sv2]> files) p sv2 i3 Hinv2 Hp2).
    + by apply inode_wf_size; [|lia].
    + exact Hnj2.
    + intros b Hb _. by left.
  - rewrite Hino, insert_insert_eq.
    pose proof (cut_shows s s1 s2 p files sv sv1 sv2 v B len Hinv Hcur Hdc Htc eq_refl Hshow) as Hs3. fold i3 in Hs3.
    intros ino. pose proof (cut_views s s1 s2 p files sv sv1 sv2 V B (AFile (sfi_size (sv_i sv2)) (sfi_type (sv_i sv2))
      (sfi_linkcount (sv_i sv2)) (file_byte s2 (sv_i sv2))) Hinv Hp HV Hdc Htc) as Hall.
    specialize (Hall ltac:(by split_and!) ino). destruct (decide (ino = sv_ino sv)) as [->|].
    + by rewrite !lookup_insert_eq.
    + by rewrite !lookup_insert_ne in * by done.
  - cbn. apply lookup_insert_eq.
  - etransitivity; [exact Henv1|]. etransitivity; [exact Henv2|]. by apply put_inode_env.
  - cbn. congruence.
  - intros ->. change ((0 + 511) / 512) with 0 in B. intros b Hb.
    by eapply (truncated_none s s1 s2 p files _ sv sv1 sv2).
Qed.
End Free.
