(* ===== verification/SfsVnode.v ===== *)
(** * SFS: the life of a vnode

    The table of vnodes in memory and the heap blocks behind it, loading an
    inode, creating one, and the disposal of a vnode whose last reference
    goes: written back, or erased from the disk when nothing links to it. *)

From S2P Require Import Prelude Ram Kheap KheapSpec KArray Bitmap Bytes Mem CString Uio Device Sfs SfsOps SfsSpec SfsFile SfsWrite SfsTrunc.

(** ** Inodes on disk *)

Definition words_ok (l : list Z) : Prop := Forall (λ w, 0 ≤ w < 2 ^ 32) l.

Lemma be16_length x : length (be16 x) = 2%nat.
Proof. done. Qed.

(** Writing an inode and reading it back. *)
Lemma inode_of_bytes i :
  inode_wf i → words_ok (sfi_direct i) → 0 ≤ sfi_indirect i < 2 ^ 32 → inode_of (inode_bytes i) = i.
Proof.
  intros [Hsz Hty Hln Hdir [Hwl Hw]] Hd Hi. unfold inode_of, inode_bytes.
  assert (Hty' : 0 ≤ sfi_type i < 2 ^ 16) by (unfold SFS_TYPE_FILE, SFS_TYPE_DIR in *; lia).
  pose proof (be32s_length (sfi_direct i)) as Hdl. rewrite Hdir in Hdl.
  destruct i as [sz ty ln dir ind waste]. cbn [sfi_size sfi_type sfi_linkcount sfi_direct sfi_indirect sfi_waste] in *.
  set (A := be32 sz). set (B := be16 ty). set (C := be16 ln). set (D := be32s dir). set (E := be32 ind). set (W := be32s waste).
  assert (HA : length A = 4%nat) by apply be32_length. assert (HB : length B = 2%nat) by done.
  assert (HC : length C = 2%nat) by done. assert (HD : length D = 60%nat) by exact Hdl.
  assert (HE : length E = 4%nat) by apply be32_length.
  assert (Hs : ∀ (X Y Z' : list Z) n m, length X = n → length Y = m → slice (X ++ Y ++ Z') n m = Y).
  { intros X Y Z' n m <- <-. unfold slice. rewrite drop_app_length. apply take_app_length. }
  assert (Hsz4 : slice (A ++ B ++ C ++ D ++ E ++ W) 0 4 = A) by (unfold slice; rewrite drop_0, <- HA; apply take_app_length).
  assert (Hty2 : slice (A ++ B ++ C ++ D ++ E ++ W) 4 2 = B) by (by apply Hs).
  assert (Hln2 : slice (A ++ B ++ C ++ D ++ E ++ W) 6 2 = C).
  { rewrite app_assoc. apply Hs; [rewrite length_app; lia|done]. }
  assert (Hind : slice (A ++ B ++ C ++ D ++ E ++ W) 68 4 = E).
  { replace (A ++ B ++ C ++ D ++ E ++ W) with ((A ++ B ++ C ++ D) ++ E ++ W) by (by rewrite <- !app_assoc).
    apply Hs; [rewrite !length_app; lia|done]. }
  assert (Hdrop : ∀ (X Y : list Z) n, length X = n → drop n (X ++ Y) = Y) by (intros X Y n <-; apply drop_app_length).
  rewrite Hsz4, Hty2, Hln2, Hind. unfold A, B, C, E. rewrite be32_value, !be16_value, be32_value by lia.
  f_equal.
  - replace (be32 sz ++ be16 ty ++ be16 ln ++ D ++ be32 ind ++ W) with ((A ++ B ++ C) ++ D ++ E ++ W) by (by rewrite <- !app_assoc).
    rewrite Hdrop by (rewrite !length_app; lia). unfold D. rewrite <- Hdir. by apply words_of_be32s.
  - replace (be32 sz ++ be16 ty ++ be16 ln ++ D ++ be32 ind ++ W) with ((A ++ B ++ C ++ D ++ E) ++ W) by (by rewrite <- !app_assoc).
    rewrite Hdrop by (rewrite !length_app; lia). unfold W. rewrite <- Hwl, <- (app_nil_r (be32s waste)). by apply words_of_be32s.
Qed.

Lemma inode_bytes_length i :
  length (sfi_direct i) = 15%nat → length (sfi_waste i) = 110%nat → length (inode_bytes i) = 512%nat.
Proof.
  intros Hd Hw. unfold inode_bytes. rewrite !length_app, !be32s_length, !be32_length, !be16_length. lia.
Qed.

(** The inode in a cleared block. *)
Definition blank_inode : sfs_inode := Inode 0 0 0 (replicate 15 0) 0 (replicate 110 0).

Lemma inode_of_clear : inode_of (replicate 512 0) = blank_inode.
Proof. vm_compute. reflexivity. Qed.

Lemma bind_ext_in {A B} (f g : A → list B) l : (∀ x, x ∈ l → f x = g x) → l ≫= f = l ≫= g.
Proof.
  induction l as [|x l IH]; [done|]. intros Hfg. cbn. rewrite (Hfg x) by left. f_equal. apply IH.
  intros y Hy. apply Hfg. by right.
Qed.

Section Vnodes.
Context {D H : Type} `{DiskLaws D} `{KHeapLaws H}.
Implicit Types s : sfs D H.

(** The inodes of a volume survive the trip to disk. *)
Lemma files_roundtrip s files ino i :
  disk_inv s files → files !! ino = Some i → inode_of (inode_bytes i) = i.
Proof.
  intros Hinv Hi. destruct (di_inode _ _ Hinv _ _ Hi) as (Hwf & _). pose proof (dw_small _ (di_dev _ _ Hinv)) as Hn.
  assert (Hb : ∀ b, b ∈ blist s i → 0 ≤ b < 2 ^ 32).
  { intros b Hb. destruct (decide (b = 0)) as [->|Hb0]; [lia|].
    destruct (di_block _ _ Hinv _ _ b Hi Hb Hb0) as ([? _] & _). lia. }
  apply inode_of_bytes; [done| |apply Hb; left]. apply list.Forall_forall. intros b Hd. apply Hb.
  right. apply elem_of_app. by left.
Qed.

(** ** The table of vnodes *)

Definition vblocks s (p : Z) : list Z :=
  match s_pool s !! p with Some sv => [p; (vn_countlock sv).1; (vn_countlock sv).2] | None => [] end.

Definition ops_of (type : Z) : vnode_ops := if type =? SFS_TYPE_DIR then sfs_dirops else sfs_fileops.

(** [tab] lists the vnodes in memory; they, their locks and the table own
    their blocks of the heap beside [rest]. *)
Record vtab s (tab rest : list Z) : Prop := {
  vt_rep : array_rep (s_vnodes s) (Some <$> tab);
  vt_nodup : NoDup tab;
  vt_dom p : p ∈ tab ↔ is_Some (s_pool s !! p);
  vt_owns : heap_owns (s_heap s) (array_blocks (s_vnodes s) ++ (tab ≫= vblocks s) ++ rest);
  vt_small : Z.of_nat (length tab) < array_limit;
  vt_counts p sv : s_pool s !! p = Some sv → 0 < vn_refcount sv ∧ 0 ≤ vn_opencount sv;
}.

Record fs_inv s (files : gmap Z sfs_inode) (V : gmap Z afile) (tab rest : list Z) : Prop := {
  fi_disk : disk_inv s files;
  fi_views : views s files V;
  fi_tab : vtab s tab rest;
  fi_ops p sv v : s_pool s !! p = Some sv → V !! sv_ino sv = Some v → vn_ops sv = ops_of (af_type v);
}.

Lemma vblocks_env s s' p : same_env s s' → vblocks s' p = vblocks s p.
Proof.
  intros Henv. unfold vblocks. pose proof (se_pool _ _ Henv p) as Hp.
  inversion Hp as [sv sv' (_ & _ & E & _)|]; [|done]. by rewrite E.
Qed.

Lemma same_env_back s s' p sv' :
  same_env s s' → s_pool s' !! p = Some sv' → ∃ sv, s_pool s !! p = Some sv ∧ vn_same sv sv'.
Proof.
  intros Henv Hp. pose proof (se_pool _ _ Henv p) as Hq. rewrite Hp in Hq.
  inversion Hq as [sv ? Hsame|]; subst. by exists sv.
Qed.

Lemma vtab_env s s' tab rest : same_env s s' → vtab s tab rest → vtab s' tab rest.
Proof.
  intros Henv [Hrep Hnd Hdom Howns Hsmall Hcnt]. constructor.
  - by rewrite (se_vnodes _ _ Henv).
  - done.
  - intros p. rewrite Hdom. pose proof (se_pool _ _ Henv p) as Hp.
    inversion Hp; split; intros [? ?]; by eauto.
  - rewrite (se_vnodes _ _ Henv), (se_heap _ _ Henv).
    replace (tab ≫= vblocks s') with (tab ≫= vblocks s); [done|].
    apply list_bind_ext; [|done]. intros p. symmetry. by apply vblocks_env.
  - done.
  - intros p sv' Hp. destruct (same_env_back _ _ _ _ Henv Hp) as (sv & Hp0 & -> & -> & _). by eapply Hcnt.
Qed.

(** After file I/O. *)
Lemma fs_inv_env s s' files files' V V' tab rest :
  fs_inv s files V tab rest → same_env s s' → disk_inv s' files' → views s' files' V' →
  (∀ ino v', V' !! ino = Some v' → ∃ v, V !! ino = Some v ∧ af_type v' = af_type v) →
  fs_inv s' files' V' tab rest.
Proof.
  intros [_ _ Htab Hops] Henv Hinv' HV' Hty. constructor; [done|done|by eapply vtab_env|].
  intros p sv' v' Hp Hv'. destruct (same_env_back _ _ _ _ Henv Hp) as (sv & Hp0 & _ & _ & _ & -> & Hino).
  destruct (Hty _ _ Hv') as (v & Hv & ->). rewrite Hino in Hv. by eapply Hops.
Qed.

(** Changes of the heap alone. *)
Lemma disk_inv_heap s files h : disk_inv s files → disk_inv (set_heapF h s) files.
Proof. intros [[] [] ? ? ? ? ? ? []]. constructor; try assumption; by constructor. Qed.

Lemma views_heap s files V h : views s files V → views (set_heapF h s) files V.
Proof. done. Qed.

Lemma kmalloc_runs s L n :
  heap_owns (s_heap s) L → 0 ≤ n ≤ 2 ^ 31 →
  runs (kmallocF n) s (λ r s', ∃ h, s' = set_heapF h s ∧
    match r with None => heap_owns h L | Some a => a ≠ 0 ∧ heap_owns h (a :: L) end).
Proof.
  intros HL Hn. destruct (owns_alloc _ _ _ HL Hn) as (r & h & Hrun & Hr). exists r, (set_heapF h s).
  split; [unfold kmallocF; by rewrite Hrun|]. by exists h.
Qed.

Lemma kfree_runs s L L' a :
  heap_owns (s_heap s) L' → L' ≡ₚ a :: L → runs (kfreeF a) s (λ _ s', ∃ h, s' = set_heapF h s ∧ heap_owns h L).
Proof.
  intros HL E. rewrite E in HL. destruct (owns_free _ _ _ HL) as (h & Hrun & Hr). exists tt, (set_heapF h s).
  split; [unfold kfreeF; by rewrite Hrun|]. by exists h.
Qed.

Lemma countlock_create_runs s L :
  heap_owns (s_heap s) L →
  runs countlock_create s (λ r s', ∃ h, s' = set_heapF h s ∧
    match r with None => heap_owns h L | Some l => heap_owns h (l.1 :: l.2 :: L) end).
Proof.
  intros HL. unfold countlock_create. apply runs_bind. eapply runs_mono; [apply kmalloc_runs; [done|unfold SIZEOF_LOCK; lia]|].
  intros [l|] s1 (h1 & -> & Hr); [|apply runs_ret; by exists h1]. destruct Hr as [_ Hr].
  apply runs_bind. eapply runs_mono; [apply kmalloc_runs; [exact Hr|unfold COUNTLOCK_NAME; lia]|].
  intros [nm|] s2 (h2 & -> & Hr2); cbv beta iota.
  - destruct Hr2 as [_ Hr2]. apply runs_ret. exists h2. split; [done|]. revert Hr2. apply heap_owns_perm. constructor.
  - apply runs_bind. eapply runs_mono; [eapply kfree_runs; [exact Hr2|done]|].
    intros [] s3 (h3 & -> & Hr3). apply runs_ret. by exists h3.
Qed.

(** ** Loading *)

Lemma find_loaded_run n i s files tab rest ino :
  disk_inv s files → vtab s tab rest → 0 ≤ i → i + Z.of_nat n = Z.of_nat (length tab) →
  runs (find_loaded n i ino) s (λ r s', s' = s ∧
    match r with
    | Some p => ∃ sv, s_pool s !! p = Some sv ∧ sv_ino sv = ino
    | None => ∀ k p sv, i ≤ Z.of_nat k → tab !! k = Some p → s_pool s !! p = Some sv → sv_ino sv ≠ ino
    end).
Proof.
  intros Hinv Htab. revert i. induction n as [|n IH]; intros i Hi Hn.
  { apply runs_ret. split; [done|]. intros k p sv Hk Hp. apply lookup_lt_Some in Hp. lia. }
  cbn [find_loaded]. destruct (lookup_lt_is_Some_2 tab (Z.to_nat i)) as [p Hp]; [lia|].
  destruct (proj1 (vt_dom _ _ _ Htab p)) as [sv Hsv]; [by eapply list_elem_of_lookup_2|].
  apply runs_bind, runs_get, runs_bind. eapply runs_lift.
  { rewrite <- (Z2Nat.id i) by lia. eapply array_getguy_spec; [apply Htab|]. by rewrite list_lookup_fmap, Hp. }
  apply runs_bind. eapply runs_get_sv; [done|]. pose proof (di_loaded _ _ Hinv _ _ Hsv) as Hcur.
  destruct (di_inode _ _ Hinv _ _ Hcur) as (_ & _ & [? _] & ?).
  apply runs_bind. eexists _, s. split; [apply bused_run; [apply Hinv|apply Hinv|lia|done]|]. cbn [negb].
  destruct (Z.eqb_spec (sv_ino sv) ino) as [E|E].
  { apply runs_ret. split; [done|]. by exists sv. }
  eapply runs_mono; [apply (IH (i + 1)); lia|]. intros r s' [-> Hr]. split; [done|].
  destruct r as [q|]; [done|]. intros k q sv' Hk Hq Hsv'. destruct (decide (k = Z.to_nat i)) as [->|].
  - assert (q = p) as -> by congruence. by assert (sv' = sv) as -> by congruence.
  - eapply Hr; [|done..]. lia.
Qed.

(** All vnodes but [p] are untouched. *)
Definition pool_frame s s' (p : Z) : Prop := ∀ q, q ≠ p → s_pool s' !! q = s_pool s !! q.

(** A vnode joins the table. *)
Lemma vtab_add s tab rest p sv a h :
  vtab s tab rest → s_pool s !! p = None → 0 < vn_refcount sv → 0 ≤ vn_opencount sv →
  array_rep a ((Some <$> tab) ++ [Some p]) → Z.of_nat (length tab) + 1 < array_limit →
  heap_owns h (array_blocks a ++ p :: (vn_countlock sv).1 :: (vn_countlock sv).2 :: (tab ≫= vblocks s) ++ rest) →
  vtab (set_heapF h (set_vnodes a (set_pool (<[p := sv]> (s_pool s)) s))) (tab ++ [p]) rest.
Proof.
  intros [Hrep Hnd Hdom Howns Hsmall Hcnt] Hnone Hr Ho Ha Hlim Hh.
  assert (Hp : p ∉ tab) by (rewrite Hdom, Hnone; by intros [? ?]).
  constructor; cbn.
  - by rewrite fmap_app.
  - apply list.NoDup_app. split_and!; [done| |apply list.NoDup_singleton]. intros q Hq ->%list_elem_of_singleton. done.
  - intros q. rewrite elem_of_app, list_elem_of_singleton, Hdom. destruct (decide (q = p)) as [->|].
    + rewrite lookup_insert_eq. split; [eauto|by right].
    + rewrite lookup_insert_ne by done. split; [intros [?| ->]; [done|done]|by left].
  - rewrite bind_app. cbn. unfold vblocks at 2. cbn. rewrite lookup_insert_eq.
    replace (tab ≫= vblocks _) with (tab ≫= vblocks s).
    + revert Hh. apply heap_owns_perm. apply Permutation_app_head. rewrite app_nil_r, <- !app_assoc. cbn.
      solve_Permutation.
    + apply bind_ext_in. intros q Hq. unfold vblocks. cbn. rewrite lookup_insert_ne; [done|]. intros ->. done.
  - rewrite length_app. cbn. lia.
  - intros q sv'. destruct (decide (q = p)) as [->|].
    + rewrite lookup_insert_eq. intros [= <-]. done.
    + rewrite lookup_insert_ne by done. apply Hcnt.
Qed.

(** A block that is owned besides the table is no vnode of it. *)
Lemma vtab_fresh s tab rest p : vtab s tab (p :: rest) → s_pool s !! p = None.
Proof.
  intros [_ _ Hdom (_ & Hnd & _) _ _]. destruct (s_pool s !! p) as [sv|] eqn:E; [exfalso|done].
  apply list.NoDup_app in Hnd as (_ & _ & Hnd). apply list.NoDup_app in Hnd as (_ & Hno & _).
  apply (Hno p); [|left]. apply list_elem_of_bind. exists p. split; [unfold vblocks; rewrite E; left|].
  apply Hdom. by rewrite E.
Qed.

Lemma vtab_heap s tab rest rest' h :
  vtab s tab rest → heap_owns h (array_blocks (s_vnodes s) ++ (tab ≫= vblocks s) ++ rest') →
  vtab (set_heapF h s) tab rest'.
Proof. intros [] Hh. by constructor. Qed.

Definition loaded_vnode (l : Z * Z) (i : sfs_inode) (ino : Z) (dirty : bool) : sfs_vnode :=
  Vnode 1 0 l (ops_of (sfi_type i)) i ino dirty.

Definition forced (ft : Z) (i : sfs_inode) : sfs_inode := if ft =? SFS_TYPE_INVAL then i else set_type ft i.

Lemma choose_ops_run s t : t = SFS_TYPE_FILE ∨ t = SFS_TYPE_DIR → choose_ops t s = Done (ops_of t, s).
Proof. by intros [->| ->]. Qed.

Lemma load_inode_run s tab rest p ino ft i :
  vtab s tab (p :: rest) → Z.of_nat (length tab) + 1 < array_limit →
  (ft = SFS_TYPE_INVAL ∨ sfi_type i = SFS_TYPE_INVAL) →
  sfi_type (forced ft i) = SFS_TYPE_FILE ∨ sfi_type (forced ft i) = SFS_TYPE_DIR →
  runs (load_inode p ino ft i) s (λ r s',
    match r with
    | Ok q => q = p ∧ vtab s' (tab ++ [p]) rest ∧ ∃ h a l,
        s' = set_heapF h (set_vnodes a (set_pool
               (<[p := loaded_vnode l (forced ft i) ino (negb (ft =? SFS_TYPE_INVAL))]> (s_pool s)) s))
    | Err e => e = ENOMEM ∧ vtab s' tab rest ∧ ∃ h, s' = set_heapF h s
    end).
Proof.
  intros Htab Hlim Hft Hty. pose proof (vtab_fresh _ _ _ _ Htab) as Hnone.
  pose proof (vt_owns _ _ _ Htab) as Howns. set (AB := array_blocks (s_vnodes s)) in *. set (VB := tab ≫= vblocks s) in *.
  unfold load_inode. apply runs_bind. exists (forced ft i), s. split.
  { unfold forced. destruct (Z.eqb_spec ft SFS_TYPE_INVAL); [done|]. destruct Hft as [|E]; [done|]. by rewrite E. }
  apply runs_bind. eexists _, s. split; [by apply choose_ops_run|].
  apply runs_bind. eapply runs_mono; [by apply countlock_create_runs|].
  intros [l|] s1 (h1 & -> & Hh1); cbv beta iota; cycle 1.
  { apply runs_bind. eapply runs_mono; [eapply (kfree_runs _ (AB ++ VB ++ rest) _ p); [exact Hh1|solve_Permutation]|].
    intros [] s2 (h2 & -> & Hh2). apply runs_ret. split; [done|]. split; [|by exists h2]. by apply (vtab_heap s tab (p :: rest)). }
  set (sv := loaded_vnode l (forced ft i) ino (negb (ft =? SFS_TYPE_INVAL))).
  apply runs_bind, runs_put_sv, runs_bind, runs_get, runs_bind, runs_get. cbn [s_vnodes s_heap set_pool set_heapF s_pool].
  destruct (array_add_spec (s_vnodes s) (Some <$> tab) p h1 (l.1 :: l.2 :: VB ++ p :: rest)) as (r & a & h2 & Hadd & Hh2 & _ & Hr & _).
  { apply Htab. } { revert Hh1. apply heap_owns_perm. solve_Permutation. } { rewrite length_fmap. lia. }
  apply runs_bind. eapply runs_lift; [exact Hadd|]. apply runs_bind, runs_mod, runs_bind, runs_mod.
  destruct Hr as [[-> ->]|[-> Hrep]].
  - cbn [Z.eqb negb ENOMEM].
    assert (Hkill : ∀ s0, s_pool s0 !! p = Some sv → heap_owns (s_heap s0) (AB ++ l.1 :: l.2 :: VB ++ p :: rest) →
      runs (vnode_kill p;; free_sv p;; mret (Err ENOMEM : res Z)) s0 (λ r s', r = Err ENOMEM ∧
        ∃ h, heap_owns h (AB ++ VB ++ rest) ∧ s' = set_heapF h (set_pool (delete p (s_pool s0)) s0))).
    { intros s0 Hp0 Hs0. unfold vnode_kill, countlock_destroy, free_sv. apply runs_bind, runs_bind. eapply runs_get_sv; [done|].
      apply runs_bind, runs_assert; [done|]. apply runs_bind, runs_assert; [done|].
      apply runs_bind. eapply runs_mono; [eapply (kfree_runs _ (l.1 :: AB ++ VB ++ p :: rest) _ l.2); [exact Hs0|solve_Permutation]|].
      intros [] s3 (h3 & -> & Hh3).
      eapply runs_mono; [eapply (kfree_runs _ (AB ++ VB ++ p :: rest) _ l.1); [exact Hh3|solve_Permutation]|].
      intros [] s4 (h4 & -> & Hh4). apply runs_bind, runs_bind, runs_mod.
      eapply runs_mono; [eapply (kfree_runs _ (AB ++ VB ++ rest) _ p); [exact Hh4|solve_Permutation]|].
      intros [] s5 (h5 & -> & Hh5). apply runs_ret. split; [done|]. exists h5. by split. }
    eapply runs_mono; [apply Hkill; [apply lookup_insert_eq|done]|].
    intros r s3 (-> & h3 & Hh3 & ->). split; [done|]. cbn [s_pool set_heapF set_vnodes set_pool].
    rewrite delete_insert_id by done.
    match goal with |- vtab ?x _ _ ∧ _ => replace x with (set_heapF h3 s) by (by destruct s) end.
    split; [by apply (vtab_heap s tab (p :: rest))|by exists h3].
  - cbn [Z.eqb negb]. apply runs_ret. split; [done|]. split; [|by exists h2, a, l].
    assert (Htab' : vtab s tab rest).
    { destruct Htab. constructor; try done. eapply owns_sub; [|exact Howns].
      apply submseteq_app; [done|]. apply submseteq_app; [done|]. by apply submseteq_cons. }
    apply (vtab_add s tab rest p sv a h2 Htab' Hnone); [done|done|done|lia|].
    revert Hh2. apply heap_owns_perm. cbn [sv loaded_vnode vn_countlock]. fold VB. solve_Permutation.
Qed.

(** References to a vnode. *)
Definition refs s (p : Z) : Z := match s_pool s !! p with Some sv => vn_refcount sv | None => 0 end.

(** What loading a vnode leaves alone. *)
Record load_frame s s' (p : Z) : Prop := {
  lf_pool q : q ≠ p → s_pool s' !! q = s_pool s !! q;
  lf_user : s_user s' = s_user s;
  lf_self : s_self s' = s_self s;
}.

(** The table does not have [ino]: an inode from disk is added to the
    inodes in memory. *)
Lemma disk_inv_load s files p sv a h i :
  disk_inv s files → s_pool s !! p = None → files !! sv_ino sv = Some (sv_i sv) →
  (∀ q sv', s_pool s !! q = Some sv' → sv_ino sv' ≠ sv_ino sv) →
  (sv_dirty sv = true ∨ blk s (sv_ino sv) = inode_bytes i ∧ i = sv_i sv) →
  disk_inv (set_heapF h (set_vnodes a (set_pool (<[p := sv]> (s_pool s)) s))) files.
Proof.
  intros [Hdev Hmap Hin Hbl Hown Hld Huq Hsy Hme] Hnone Hcur Hno Hsync. constructor; cbn.
  - by destruct Hdev.
  - by destruct Hmap.
  - exact Hin.
  - exact Hbl.
  - exact Hown.
  - intros q sv' [[<- <-]|[? ?]]%lookup_insert_Some; [done|by eapply Hld].
  - intros q q' sv1 sv2 [[<- <-]|[? Hq]]%lookup_insert_Some [[<- <-]|[? Hq']]%lookup_insert_Some E; [done|..].
    + by destruct (Hno _ _ Hq').
    + by destruct (Hno _ _ Hq).
    + by eapply Huq.
  - intros ino j Hj. destruct (decide (ino = sv_ino sv)) as [->|Hne].
    + assert (j = sv_i sv) as -> by congruence. destruct Hsync as [?|[? ->]]; [left|by right].
      exists p, sv. by rewrite lookup_insert_eq.
    + destruct (Hsy _ _ Hj) as [(q & sv' & Hq & ? & ?)|?]; [left|by right]. exists q, sv'.
      split; [|done]. rewrite lookup_insert_ne; [done|]. intros <-. congruence.
  - by destruct Hme.
Qed.

Lemma fs_inv_heap s files V tab rest rest' h :
  fs_inv s files V tab rest → vtab (set_heapF h s) tab rest' → fs_inv (set_heapF h s) files V tab rest'.
Proof. intros [? ? _ ?] Htab. constructor; [by apply disk_inv_heap|done|done|done]. Qed.

(** A change of the counts of a vnode that is in memory. *)
Lemma fs_inv_counts s files V tab rest p sv n m :
  fs_inv s files V tab rest → s_pool s !! p = Some sv → 0 < n → 0 ≤ m →
  fs_inv (set_pool (<[p := set_refcount n (set_opencount m sv)]> (s_pool s)) s) files V tab rest.
Proof.
  intros [[Hdev Hmap Hin Hbl Hown Hld Huq Hsy Hme] HV [Hrep Hnd Hdom Howns Hsmall Hcnt] Hops] Hp Hn Hm.
  assert (Hl : ∀ q sv', <[p := set_refcount n (set_opencount m sv)]> (s_pool s) !! q = Some sv' →
    ∃ sv0, s_pool s !! q = Some sv0 ∧ sv_i sv' = sv_i sv0 ∧ sv_ino sv' = sv_ino sv0 ∧ sv_dirty sv' = sv_dirty sv0 ∧
      vn_ops sv' = vn_ops sv0 ∧ (0 < vn_refcount sv0 ∧ 0 ≤ vn_opencount sv0 → 0 < vn_refcount sv' ∧ 0 ≤ vn_opencount sv')).
  { intros q sv' [[<- <-]|[? ?]]%lookup_insert_Some; [exists sv|exists sv']; by split_and!. }
  constructor; [constructor; cbn| |constructor; cbn|]; try done.
  - by destruct Hdev.
  - by destruct Hmap.
  - intros q sv' (sv0 & Hq & -> & -> & _)%Hl. by eapply Hld.
  - intros q q' sv1 sv2 (sv3 & Hq & _ & -> & _)%Hl (sv4 & Hq' & _ & -> & _)%Hl. by eapply Huq.
  - intros ino i Hi. destruct (Hsy _ _ Hi) as [(q & sv' & Hq & ? & ?)|?]; [left|by right].
    destruct (decide (q = p)) as [->|].
    + exists p, (set_refcount n (set_opencount m sv)). rewrite lookup_insert_eq. by assert (sv' = sv) as -> by congruence.
    + exists q, sv'. by rewrite lookup_insert_ne.
  - by destruct Hme.
  - intros q. rewrite Hdom. destruct (decide (q = p)) as [->|]; [rewrite lookup_insert_eq, Hp; by split; eauto|].
    by rewrite lookup_insert_ne.
  - replace (tab ≫= vblocks _) with (tab ≫= vblocks s); [done|]. apply bind_ext_in. intros q _. unfold vblocks. cbn.
    destruct (decide (q = p)) as [->|]; [by rewrite lookup_insert_eq, Hp|by rewrite lookup_insert_ne].
  - intros q sv' (sv0 & Hq & _ & _ & _ & _ & Hr)%Hl. by apply Hr, (Hcnt _ _ Hq).
  - cbn. intros q sv' v (sv0 & Hq & _ & -> & _ & -> & _)%Hl. by eapply Hops.
Qed.

(** One more reference to a vnode that is in memory. *)
Lemma fs_inv_refcount s files V tab rest p sv n :
  fs_inv s files V tab rest → s_pool s !! p = Some sv → 0 < n →
  fs_inv (set_pool (<[p := set_refcount n sv]> (s_pool s)) s) files V tab rest.
Proof.
  intros Hfs Hp Hn. destruct (vt_counts _ _ _ (fi_tab _ _ _ _ _ Hfs) _ _ Hp) as [_ Hm].
  replace (set_refcount n sv) with (set_refcount n (set_opencount (vn_opencount sv) sv)) by (by destruct sv).
  by apply fs_inv_counts.
Qed.

(** The vnode is not in memory: the block [ino] is read and a vnode made. *)
Lemma loadvnode_miss s files tab rest ino ft i :
  disk_inv s files → vtab s tab rest → Z.of_nat (length tab) + 1 < array_limit →
  0 ≤ ino < nblocks s → used s ino → inode_of (blk s ino) = i →
  (∀ q sv', s_pool s !! q = Some sv' → sv_ino sv' ≠ ino) →
  (ft = SFS_TYPE_INVAL ∨ sfi_type i = SFS_TYPE_INVAL) →
  sfi_type (forced ft i) = SFS_TYPE_FILE ∨ sfi_type (forced ft i) = SFS_TYPE_DIR →
  runs (sfs_loadvnode ino ft) s (λ r s', ∃ s2 h, redisk s s2 (blk s) ∧
    match r with
    | Err e => e = ENOMEM ∧ s' = set_heapF h s2 ∧ vtab s' tab rest
    | Ok p => s_pool s !! p = None ∧ vtab s' (tab ++ [p]) rest ∧ ∃ a l,
        s' = set_heapF h (set_vnodes a (set_pool
               (<[p := loaded_vnode l (forced ft i) ino (negb (ft =? SFS_TYPE_INVAL))]> (s_pool s2)) s2))
    end).
Proof.
  intros Hinv Htab Hlim Hr Hused Hino Hno Hft Hty. pose proof (redisk_refl s (di_dev _ _ Hinv)) as Hrefl.
  unfold sfs_loadvnode. apply runs_bind, runs_get, runs_bind. unfold array_getnum.
  rewrite (ar_num _ _ (vt_rep _ _ _ Htab)), length_fmap, Nat2Z.id.
  eapply runs_mono; [apply (find_loaded_run (length tab) 0 s files tab rest ino Hinv Htab); lia|].
  intros [p|] s' [-> Hp]; cbv beta iota.
  { destruct Hp as (sv & Hp & E). by destruct (Hno _ _ Hp). }
  apply runs_bind. eapply runs_mono; [apply (kmalloc_runs _ _ SIZEOF_SFS_VNODE (vt_owns _ _ _ Htab)); unfold SIZEOF_SFS_VNODE; lia|].
  intros [p|] s1 (h1 & -> & Hh1); cbv beta iota; cycle 1.
  { apply runs_ret. exists s, h1. split; [done|]. split; [done|]. split; [done|]. by eapply vtab_heap. }
  destruct Hh1 as [_ Hh1].
  assert (Htab1 : vtab (set_heapF h1 s) tab (p :: rest)).
  { apply (vtab_heap s tab rest); [done|]. revert Hh1. apply heap_owns_perm. solve_Permutation. }
  assert (Hinv1 : disk_inv (set_heapF h1 s) files) by (by apply disk_inv_heap).
  apply runs_bind. eexists _, _. split; [apply bused_run; [apply Hinv1|apply Hinv1|exact Hr|exact Hused]|].
  cbn [negb]. destruct (rblock_run (set_heapF h1 s) blank_block ino (di_dev _ _ Hinv1)) as (s2 & Hrun2 & Hre2);
    [exact Hr|apply blank_block_length|].
  apply runs_bind. eexists _, s2. split; [exact Hrun2|]. cbv beta iota.
  change (blk (set_heapF h1 s) ino) with (blk s ino). rewrite Hino.
  pose proof (redisk_env _ _ _ Hre2) as Henv2. destruct Hre2 as (d & -> & Hd).
  assert (Hre : redisk s (set_device d (s_user s) s) (blk s)) by (by exists d).
  eapply runs_mono; [apply (load_inode_run _ tab rest p ino ft i); [by eapply vtab_env|done|done|done]|].
  intros [e|q] s3 Hr3.
  - destruct Hr3 as (-> & Htab3 & h3 & ->). exists (set_device d (s_user s) s), h3. done.
  - destruct Hr3 as (-> & Htab3 & h3 & a3 & l & ->). exists (set_device d (s_user s) s), h3.
    split; [done|]. split; [by apply (vtab_fresh _ _ _ _ Htab1)|]. split; [done|]. by exists a3, l.
Qed.

Lemma loadvnode_run s files V tab rest ino v :
  fs_inv s files V tab rest → V !! ino = Some v → Z.of_nat (length tab) + 1 < array_limit →
  runs (sfs_loadvnode ino SFS_TYPE_INVAL) s (λ r s',
    match r with
    | Err e => e = ENOMEM ∧ fs_inv s' files V tab rest ∧ ∀ p, load_frame s s' p
    | Ok p => ∃ tab' sv, fs_inv s' files V tab' rest ∧ (length tab' ≤ length tab + 1)%nat ∧
        s_pool s' !! p = Some sv ∧ sv_ino sv = ino ∧ vn_refcount sv = refs s p + 1 ∧
        (vn_refcount sv = 1 → vn_opencount sv = 0) ∧
        (∀ sv0, s_pool s !! p = Some sv0 → sv_ino sv0 = ino ∧ vn_opencount sv0 = vn_opencount sv) ∧ load_frame s s' p
    end).
Proof.
  intros Hfs Hv Hlim. pose proof Hfs as [Hinv HV Htab Hops]. destruct (views_files _ _ _ _ _ HV Hv) as (i & Hi & Hshow).
  destruct (di_inode _ _ Hinv _ _ Hi) as (Hwf & _ & [Hr _] & Hused).
  destruct (decide (Exists (λ p, sv_ino <$> s_pool s !! p = Some ino) tab)) as [Hload|Hload].
  { unfold sfs_loadvnode. apply runs_bind, runs_get, runs_bind. unfold array_getnum.
    rewrite (ar_num _ _ (vt_rep _ _ _ Htab)), length_fmap, Nat2Z.id.
    eapply runs_mono; [apply (find_loaded_run (length tab) 0 s files tab rest ino Hinv Htab); lia|].
    intros [p|] s' [-> Hp]; cbv beta iota; cycle 1.
    { apply list.Exists_exists in Hload as (p & [k Hk]%list_elem_of_lookup & Hp'). destruct (s_pool s !! p) as [sv|] eqn:E; [|done].
      cbn in Hp'. injection Hp' as Hp'. destruct (Hp k p sv); [lia|done..]. }
    destruct Hp as (sv & Hp & Hino). apply runs_bind, runs_assert; [done|].
    destruct (vt_counts _ _ _ Htab _ _ Hp) as [Hrc _].
    apply runs_bind. unfold vnode_incref. apply runs_bind. eapply runs_get_sv; [done|]. apply runs_put_sv, runs_ret.
    exists tab, (set_refcount (vn_refcount sv + 1) sv). split_and!.
    - apply fs_inv_refcount; [done|done|lia].
    - lia.
    - cbn. apply lookup_insert_eq.
    - done.
    - cbn. unfold refs. by rewrite Hp.
    - cbn. lia.
    - intros sv0 Hsv0. assert (sv0 = sv) as -> by congruence. done.
    - constructor; [|done|done]. intros q Hq. cbn. by rewrite lookup_insert_ne. }
  assert (Hno : ∀ q sv', s_pool s !! q = Some sv' → sv_ino sv' ≠ ino).
  { intros q sv' Hq <-. apply Hload, list.Exists_exists. exists q. rewrite Hq. split; [|done]. apply Htab. by rewrite Hq. }
  assert (Hblk : blk s ino = inode_bytes i).
  { destruct (di_synced _ _ Hinv _ _ Hi) as [(q & sv' & Hq & E & _)|?]; [by destruct (Hno _ _ Hq)|done]. }
  eapply runs_mono; [apply (loadvnode_miss s files tab rest ino SFS_TYPE_INVAL i); try done; [lia| |by left|apply Hwf]|].
  { rewrite Hblk. by eapply files_roundtrip. }
  intros r s' (s2 & h & Hre & Hr'). pose proof (redisk_same_inv _ _ _ Hre Hinv) as Hinv2.
  pose proof (redisk_same_views _ _ _ _ Hre HV) as HV2. pose proof (redisk_env _ _ _ Hre) as Henv2.
  pose proof (redisk_pool _ _ _ Hre) as Hp2. pose proof (redisk_user _ _ _ Hre) as Hu2.
  destruct r as [e|p].
  - destruct Hr' as (-> & -> & Htab3). split; [done|]. split.
    + constructor; [by apply disk_inv_heap|by apply views_heap|done|]. cbn. by rewrite Hp2.
    + intros q. constructor; cbn; [by rewrite Hp2|done|by rewrite (se_self _ _ Henv2)].
  - destruct Hr' as (Hnone & Htab3 & a3 & l & ->). change (forced SFS_TYPE_INVAL i) with i in *.
    set (sv := loaded_vnode l i ino (negb (SFS_TYPE_INVAL =? SFS_TYPE_INVAL))) in *. exists (tab ++ [p]), sv. split_and!.
    + constructor; [|exact HV2|exact Htab3|].
      * apply (disk_inv_load s2 files p sv a3 h i Hinv2); [by rewrite Hp2|exact Hi|by rewrite Hp2|].
        right. split; [|done]. rewrite (redisk_blk _ _ _ _ Hre). exact Hblk.
      * cbn. intros q sv' v' [[<- <-]|[? Hq]]%lookup_insert_Some Hv'; [|rewrite Hp2 in Hq; by eapply Hops].
        cbn in Hv'. assert (v' = v) as -> by congruence. destruct Hshow as (_ & E & _). by rewrite E.
    + rewrite length_app. cbn. lia.
    + cbn. apply lookup_insert_eq.
    + done.
    + unfold refs. by rewrite Hnone.
    + done.
    + intros sv0 Hsv0. congruence.
    + constructor; cbn; [|done|by rewrite (se_self _ _ Henv2)]. intros q Hq. by rewrite lookup_insert_ne, Hp2.
Qed.

(** ** Creating *)

(** The new file: empty, without links. *)
Definition new_file : afile := AFile 0 SFS_TYPE_FILE 0 (λ _, 0).
Definition new_inode : sfs_inode := set_type SFS_TYPE_FILE blank_inode.

Lemma new_inode_wf : inode_wf new_inode.
Proof.
  constructor; [done|by left|done|done|]. split; [done|]. change (sfi_waste new_inode) with (replicate 110 0). apply Forall_replicate. lia.
Qed.

Lemma new_blist s : blist s new_inode = replicate 144 0.
Proof. done. Qed.

Lemma file_byte_new s o : file_byte s new_inode o = 0.
Proof.
  apply file_byte_hole. intros b. rewrite new_blist. by intros [-> _]%elem_of_replicate.
Qed.

(** A marked, clear block becomes an inode. *)
Lemma disk_inv_new s files ino p sv a h :
  disk_inv s files → fresh_block s files ino → s_pool s !! p = None →
  sv_ino sv = ino → sv_i sv = new_inode → sv_dirty sv = true →
  disk_inv (set_heapF h (set_vnodes a (set_pool (<[p := sv]> (s_pool s)) s))) (<[ino := new_inode]> files).
Proof.
  intros [Hdev Hmap Hin Hbl Hown Hld Huq Hsy Hme] [Hval Hused Hnoino Hnoblk _] Hnone Hino Hi Hd.
  assert (Hzero : ∀ b, b ∈ blist s new_inode → b = 0).
  { intros b. rewrite new_blist. by intros [-> _]%elem_of_replicate. }
  assert (Hne : ∀ q sv', s_pool s !! q = Some sv' → sv_ino sv' ≠ ino).
  { intros q sv' Hq E. apply Hld in Hq. congruence. }
  constructor; cbn.
  - by destruct Hdev.
  - by destruct Hmap.
  - intros ino' i' [[<- <-]|[? ?]]%lookup_insert_Some; [|by apply Hin].
    split_and!; [apply new_inode_wf| |done|done]. intros j k b Hj _ Hb. destruct Hb. apply Hzero. by eapply list_elem_of_lookup_2.
  - intros ino' i' b [[<- <-]|[? Hi']]%lookup_insert_Some Hb Hb0; [by apply Hzero in Hb|].
    destruct (Hbl _ _ _ Hi' Hb Hb0) as (? & ? & ?). split_and!; [done|done|]. rewrite lookup_insert_None.
    split; [done|]. intros ->. by eapply Hnoblk.
  - intros i1 n1 i2 n2 b [[<- <-]|[? Hn1]]%lookup_insert_Some [[<- <-]|[? Hn2]]%lookup_insert_Some Hb1 Hb2 Hb0.
    + done.
    + by apply Hzero in Hb1.
    + by apply Hzero in Hb2.
    + by eapply Hown.
  - intros q sv' [[<- <-]|[? Hq]]%lookup_insert_Some; [by rewrite Hino, Hi, lookup_insert_eq|].
    rewrite lookup_insert_ne; [by eapply Hld|]. symmetry. by eapply Hne.
  - intros q q' sv1 sv2 [[<- <-]|[? Hq]]%lookup_insert_Some [[<- <-]|[? Hq']]%lookup_insert_Some E; [done|..].
    + rewrite Hino in E. by destruct (Hne _ _ Hq').
    + rewrite Hino in E. by destruct (Hne _ _ Hq).
    + by eapply Huq.
  - intros ino' i' [[<- <-]|[? Hi']]%lookup_insert_Some.
    + left. exists p, sv. by rewrite lookup_insert_eq.
    + destruct (Hsy _ _ Hi') as [(q & sv' & Hq & ? & ?)|?]; [left|by right]. exists q, sv'.
      split; [|done]. rewrite lookup_insert_ne; [done|]. intros <-. congruence.
  - by destruct Hme.
Qed.

Lemma makeobj_run s files V tab rest :
  fs_inv s files V tab rest → Z.of_nat (length tab) + 1 < array_limit →
  runs (sfs_makeobj SFS_TYPE_FILE) s (λ r s',
    match r with
    | Err e => (e = ENOSPC ∨ e = ENOMEM) ∧ fs_inv s' files V tab rest ∧ ∀ p, load_frame s s' p
    | Ok p => ∃ ino tab' sv files', V !! ino = None ∧ 0 < ino < 2 ^ 32 ∧
        fs_inv s' files' (<[ino := new_file]> V) tab' rest ∧ (length tab' ≤ length tab + 1)%nat ∧
        s_pool s' !! p = Some sv ∧ s_pool s !! p = None ∧ sv_ino sv = ino ∧ vn_refcount sv = 1 ∧
        vn_opencount sv = 0 ∧ load_frame s s' p
    end).
Proof.
  intros Hfs Hlim. pose proof Hfs as [Hinv HV Htab Hops]. unfold sfs_makeobj. apply runs_bindR.
  destruct (balloc_fresh s files V Hinv HV) as [Hrun|(ino & s1 & Hrun & Hinv1 & HV1 & Henv1 & Hp1 & Hu1 & Hf & _)].
  { exists (Err ENOSPC), s. split; [done|]. split; [by left|]. split; [done|]. by constructor. }
  exists (Ok ino), s1. split; [done|]. cbv beta iota.
  assert (Hfs1 : fs_inv s1 files V tab rest) by (eapply fs_inv_env; [done..|]; eauto).
  pose proof Hfs1 as [_ _ Htab1 Hops1]. pose proof Hf as [[Hr _] Hused Hnoino Hnoblk Hclear].
  assert (Hvnone : V !! ino = None).
  { specialize (HV1 ino). rewrite Hnoino in HV1. by destruct (V !! ino). }
  eapply runs_mono; [apply (loadvnode_miss s1 files tab rest ino SFS_TYPE_FILE blank_inode); try done; [lia| | |by right|by left]|].
  { rewrite Hclear. apply inode_of_clear. }
  { intros q sv' Hq E. apply (di_loaded _ _ Hinv1) in Hq. congruence. }
  intros r s' (s2 & h & Hre & Hr'). pose proof (redisk_same_inv _ _ _ Hre Hinv1) as Hinv2.
  pose proof (redisk_same_views _ _ _ _ Hre HV1) as HV2. pose proof (redisk_env _ _ _ Hre) as Henv2.
  pose proof (redisk_pool _ _ _ Hre) as Hp2. pose proof (redisk_user _ _ _ Hre) as Hu2.
  assert (Hself : s_self s2 = s_self s) by (by rewrite (se_self _ _ Henv2), (se_self _ _ Henv1)).
  destruct r as [e|p].
  - destruct Hr' as (-> & -> & Htab3). split; [by right|]. split.
    + constructor; [by apply disk_inv_heap|by apply views_heap|done|]. cbn. by rewrite Hp2.
    + intros q. constructor; cbn; [by rewrite Hp2, Hp1|by rewrite Hu2|done].
  - destruct Hr' as (Hnone & Htab3 & a3 & l & ->). change (forced SFS_TYPE_FILE blank_inode) with new_inode in *.
    set (sv := loaded_vnode l new_inode ino (negb (SFS_TYPE_FILE =? SFS_TYPE_INVAL))) in *.
    exists ino, (tab ++ [p]), sv, (<[ino := new_inode]> files).
    pose proof (dw_small _ (di_dev _ _ Hinv1)). split_and!; [done|lia|lia| | | | | | | |].
    + constructor; [| |exact Htab3|].
      * apply disk_inv_new; try done; [|by rewrite Hp2]. destruct Hf as [? ? ? Hnb ?]. destruct Hre as (d & -> & _ & _ & Hsec).
        constructor; try done; [|by unfold blk; rewrite Hsec].
        intros j i Hi. rewrite (blist_agree s1); [by eapply Hnb|]. intros. apply Hsec.
      * intros j. destruct (decide (j = ino)) as [->|]; [|by rewrite !lookup_insert_ne; [apply HV2|done..]].
        rewrite !lookup_insert_eq. split_and!; [done..|]. intros o Ho. symmetry. apply file_byte_new.
      * cbn. intros q sv' v' [[<- <-]|[? Hq]]%lookup_insert_Some Hv'.
        -- cbn in Hv'. rewrite lookup_insert_eq in Hv'. by injection Hv' as <-.
        -- rewrite Hp2 in Hq. rewrite lookup_insert_ne in Hv'; [by eapply Hops1|]. intros E.
           apply (di_loaded _ _ Hinv1) in Hq. congruence.
    + rewrite length_app. cbn. lia.
    + cbn. apply lookup_insert_eq.
    + by rewrite <- Hp1.
    + done.
    + done.
    + done.
    + constructor; cbn; [|by rewrite Hu2|done]. intros q Hq. by rewrite lookup_insert_ne, Hp2, Hp1.
Qed.
End Vnodes.
