(* ===== verification/SfsReclaim.v ===== *)
(** * SFS: letting vnodes go

    Writing an inode back, and what happens when the last reference to a
    vnode is dropped: the vnode leaves the table and the heap, and a file
    without links leaves the disk with all its blocks. *)

From S2P Require Import Prelude Ram Kheap KheapSpec KArray Bitmap Bytes Mem CString Uio Device Sfs SfsOps SfsSpec SfsFile SfsWrite SfsTrunc SfsVnode.

Section Reclaim.
Context {D H : Type} `{DiskLaws D} `{KHeapLaws H}.
Implicit Types s : sfs D H.

(** ** Writing an inode back *)

(** The block of an inode rewritten with the inode. *)
Lemma disk_inv_sync s s' files p sv :
  disk_inv s files → s_pool s !! p = Some sv →
  redisk s s' (set_blk s (sv_ino sv) (inode_bytes (sv_i sv))) →
  disk_inv (set_pool (<[p := set_inode (sv_i sv) false sv]> (s_pool s')) s') files.
Proof.
  intros Hinv Hp Hre. pose proof (di_loaded _ _ Hinv _ _ Hp) as Hcur.
  assert (Hblk : ∀ c, c ≠ sv_ino sv → blk s' c = blk s c).
  { intros c Hc. rewrite (redisk_blk _ _ _ _ Hre). unfold set_blk. by rewrite decide_False. }
  assert (Hself : blk s' (sv_ino sv) = inode_bytes (sv_i sv)).
  { rewrite (redisk_blk _ _ _ _ Hre). unfold set_blk. by rewrite decide_True. }
  assert (HL : ∀ ino i, files !! ino = Some i → blist s' i = blist s i).
  { intros ino i Hi. apply blist_agree. intros Hid. apply Hblk. intros E.
    destruct (di_block _ _ Hinv _ _ (sfi_indirect i) Hi) as (_ & _ & Hno); [left|done|]. congruence. }
  pose proof (redisk_wf _ _ _ Hre (di_dev _ _ Hinv)) as Hdev'. pose proof (redisk_pool _ _ _ Hre) as Hpool.
  destruct Hinv as [_ Hmap Hin Hbl Hown Hld Huq Hsy Hme]. rewrite Hpool.
  assert (Hl : ∀ q sv', <[p := set_inode (sv_i sv) false sv]> (s_pool s) !! q = Some sv' →
    ∃ sv0, s_pool s !! q = Some sv0 ∧ sv_i sv' = sv_i sv0 ∧ sv_ino sv' = sv_ino sv0).
  { intros q sv' [[<- <-]|[? ?]]%lookup_insert_Some; [by exists sv|by exists sv']. }
  constructor; cbn.
  - by destruct Hdev'.
  - destruct Hre as (d & -> & _). by destruct Hmap.
  - intros ino i Hi. destruct (Hin _ _ Hi) as (? & ? & ? & ?). destruct Hre as (d & -> & _).
    split_and!; [done| |done|done]. change (no_inj (blist (set_device d (s_user s) s) i)). by rewrite (HL _ _ Hi).
  - intros ino i b Hi Hb Hb0. change (b ∈ blist s' i) in Hb. rewrite (HL _ _ Hi) in Hb.
    destruct Hre as (d & -> & _). by apply (Hbl _ _ _ Hi Hb).
  - intros ino i ino' i' b Hi Hi' Hb Hb'. change (b ∈ blist s' i) in Hb. change (b ∈ blist s' i') in Hb'.
    rewrite (HL _ _ Hi) in Hb. rewrite (HL _ _ Hi') in Hb'. by eapply Hown.
  - intros q sv' (sv0 & Hq & -> & ->)%Hl. by eapply Hld.
  - intros q q' sv1 sv2 (sv3 & Hq & _ & ->)%Hl (sv4 & Hq' & _ & ->)%Hl. by eapply Huq.
  - intros ino i Hi. destruct (decide (ino = sv_ino sv)) as [->|Hne].
    + right. assert (i = sv_i sv) as -> by congruence. exact Hself.
    + destruct (Hsy _ _ Hi) as [(q & sv' & Hq & ? & ?)|E]; [left|right].
      * exists q, sv'. split; [|done]. rewrite lookup_insert_ne; [done|]. intros <-. congruence.
      * change (blk s' ino = inode_bytes i). by rewrite Hblk.
  - destruct (Hin _ _ Hcur) as (_ & _ & Hval & _). destruct Hre as (d & -> & _).
    apply (meta_agree s); [done..| |exact Hme]. intros c Hc. apply Hblk. by intros ->.
Qed.

Lemma inode_block_spare s s' files V ino i x :
  disk_inv s files → files !! ino = Some i → views s files V → redisk s s' (set_blk s ino x) → views s' files V.
Proof.
  intros Hinv Hi HV Hre. eapply views_spare; [done|]. intros ino' i' b Hi' Hb Hb0.
  rewrite (redisk_blk _ _ _ _ Hre). unfold set_blk. rewrite decide_False; [done|]. intros ->.
  destruct (di_block _ _ Hinv _ _ _ Hi' Hb Hb0) as (_ & _ & ?). congruence.
Qed.

Lemma sync_inode_run s files V p sv :
  disk_inv s files → views s files V → s_pool s !! p = Some sv →
  runs (sfs_sync_inode p) s (λ r s', r = Ok tt ∧ disk_inv s' files ∧ views s' files V ∧ same_env s s' ∧
    s_user s' = s_user s ∧ s_pool s' = <[p := set_inode (sv_i sv) false sv]> (s_pool s) ∧
    s_freemapdirty s' = s_freemapdirty s ∧ s_freemap s' = s_freemap s).
Proof.
  intros Hinv HV Hp. pose proof (di_loaded _ _ Hinv _ _ Hp) as Hcur.
  destruct (di_inode _ _ Hinv _ _ Hcur) as (Hwf & _ & [Hr _] & _). unfold sfs_sync_inode.
  apply runs_bind. eapply runs_get_sv; [done|]. destruct (sv_dirty sv) eqn:Hd; cycle 1.
  { apply runs_ret. split_and!; [done..| |done|done]. symmetry. apply insert_id. rewrite Hp. f_equal. destruct sv. cbn in *. by subst. }
  destruct (wblock_run s (inode_bytes (sv_i sv)) (sv_ino sv) (di_dev _ _ Hinv)) as (s1 & Hrun & Hre); [lia| |].
  { apply inode_bytes_length; apply Hwf. }
  apply runs_bindR. exists (Ok tt), s1. split; [done|]. cbv beta iota. apply runs_bind, runs_put_sv, runs_ret.
  split_and!; [done|by eapply disk_inv_sync| | |by rewrite <- (redisk_user _ _ _ Hre)| | |].
  - change (views s1 files V). by eapply (inode_block_spare s s1).
  - etransitivity; [by eapply redisk_env|]. constructor; try done. intros q. cbn.
    rewrite (redisk_pool _ _ _ Hre). destruct (decide (q = p)) as [->|]; [rewrite lookup_insert_eq, Hp; by constructor|].
    by rewrite lookup_insert_ne.
  - cbn. by rewrite (redisk_pool _ _ _ Hre).
  - by destruct Hre as (d & -> & _).
  - by destruct Hre as (d & -> & _).
Qed.

(** ** Dropping the vnode *)

Lemma disk_inv_unload s files p sv a h :
  disk_inv s files → s_pool s !! p = Some sv → sv_dirty sv = false →
  disk_inv (set_heapF h (set_pool (delete p (s_pool s)) (set_vnodes a s))) files.
Proof.
  intros [Hdev Hmap Hin Hbl Hown Hld Huq Hsy Hme] Hp Hd. constructor; cbn.
  - by destruct Hdev.
  - by destruct Hmap.
  - exact Hin.
  - exact Hbl.
  - exact Hown.
  - intros q sv' [_ Hq]%lookup_delete_Some. by eapply Hld.
  - intros q q' sv1 sv2 [_ Hq]%lookup_delete_Some [_ Hq']%lookup_delete_Some. by eapply Huq.
  - intros ino i Hi. destruct (Hsy _ _ Hi) as [(q & sv' & Hq & ? & Hd')|?]; [left|by right].
    exists q, sv'. split; [|done]. rewrite lookup_delete_ne; [done|]. intros <-. congruence.
  - by destruct Hme.
Qed.

(** An inode with no blocks and no vnode can be given up. *)
Lemma disk_inv_erase s s' files ino i :
  disk_inv s files → files !! ino = Some i → (∀ p sv, s_pool s !! p = Some sv → sv_ino sv ≠ ino) →
  unmap s s' [ino] → disk_inv s' (delete ino files).
Proof.
  intros Hinv Hi Hno Hun.
  assert (Hinv' : disk_inv s (delete ino files)).
  { destruct Hinv as [Hdev Hmap Hin Hbl Hown Hld Huq Hsy Hme]. constructor; [done|done|..].
    - intros j k [_ Hj]%lookup_delete_Some. by apply Hin.
    - intros j k b [_ Hj]%lookup_delete_Some Hb Hb0. destruct (Hbl _ _ _ Hj Hb Hb0) as (? & ? & ?).
      split_and!; [done|done|]. apply lookup_delete_None. by right.
    - intros j k j' k' b [_ Hj]%lookup_delete_Some [_ Hj']%lookup_delete_Some. by eapply Hown.
    - intros p sv Hp. apply lookup_delete_Some. split; [symmetry; by eapply Hno|by eapply Hld].
    - exact Huq.
    - intros j k [_ Hj]%lookup_delete_Some. by apply Hsy.
    - exact Hme. }
  destruct (di_inode _ _ Hinv _ _ Hi) as (_ & _ & Hval & _).
  eapply disk_inv_unmap; [exact Hinv'|exact Hun|]. intros b ->%list_elem_of_singleton.
  split; [done|]. split; [apply lookup_delete_eq|]. intros j k [_ Hj]%lookup_delete_Some Hb.
  destruct (di_block _ _ Hinv _ _ _ Hj Hb) as (_ & _ & ?); [destruct Hval; lia|congruence].
Qed.

Lemma views_erase s files V ino : views s files V → views s (delete ino files) (delete ino V).
Proof.
  intros HV j. specialize (HV j). destruct (decide (j = ino)) as [->|]; [by rewrite !lookup_delete_eq|].
  by rewrite !lookup_delete_ne.
Qed.

Lemma find_index_run n i s tab rest p :
  vtab s tab rest → 0 ≤ i → i + Z.of_nat n = Z.of_nat (length tab) → p ∈ drop (Z.to_nat i) tab →
  runs (find_index n i p) s (λ r s', s' = s ∧ ∃ k, r = Some (Z.of_nat k) ∧ tab !! k = Some p).
Proof.
  intros Htab. revert i. induction n as [|n IH]; intros i Hi Hn Hin.
  { rewrite drop_ge in Hin by lia. by apply not_elem_of_nil in Hin. }
  cbn [find_index]. destruct (lookup_lt_is_Some_2 tab (Z.to_nat i)) as [q Hq]; [lia|].
  apply runs_bind, runs_get, runs_bind. eapply runs_lift.
  { rewrite <- (Z2Nat.id i) by lia. eapply array_getguy_spec; [apply Htab|]. by rewrite list_lookup_fmap, Hq. }
  destruct (Z.eqb_spec q p) as [->|Hne].
  { apply runs_ret. split; [done|]. exists (Z.to_nat i). by rewrite Z2Nat.id by lia. }
  apply IH; [lia|lia|]. rewrite (drop_S _ _ _ Hq) in Hin. apply elem_of_cons in Hin as [->|Hin]; [done|].
  by replace (Z.to_nat (i + 1)) with (S (Z.to_nat i)) by lia.
Qed.

Lemma vtab_remove s tab rest p sv a h k :
  vtab s tab rest → s_pool s !! p = Some sv → tab !! k = Some p → array_rep a (delete k (Some <$> tab)) →
  heap_owns h (array_blocks a ++ (delete k tab ≫= vblocks s) ++ rest) →
  vtab (set_heapF h (set_pool (delete p (s_pool s)) (set_vnodes a s))) (delete k tab) rest.
Proof.
  intros [Hrep Hnd Hdom Howns Hsmall Hcnt] Hp Hk Ha Hh. pose proof (delete_Permutation _ _ _ Hk) as Hperm.
  pose proof Hnd as Hnd'. rewrite Hperm in Hnd'. apply list.NoDup_cons in Hnd' as [Hpk Hnd'].
  constructor; cbn.
  - by rewrite list_fmap_delete.
  - done.
  - intros q. destruct (decide (q = p)) as [->|Hq].
    + rewrite lookup_delete_eq. split; [done|by intros [? ?]].
    + rewrite lookup_delete_ne, <- Hdom by done. rewrite Hperm at 2. rewrite elem_of_cons. naive_solver.
  - replace (delete k tab ≫= vblocks _) with (delete k tab ≫= vblocks s); [done|]. apply bind_ext_in.
    intros q Hq. unfold vblocks. cbn. rewrite lookup_delete_ne; [done|]. intros ->. done.
  - rewrite length_delete by (by rewrite Hk). lia.
  - intros q sv' [_ Hq]%lookup_delete_Some. by eapply Hcnt.
Qed.

(** The end of sfs_reclaim. *)
Definition unload (p : Z) : F D H (res unit) :=
  a ← getF s_vnodes;
  ix ← find_index (Z.to_nat (array_getnum a)) 0 p;
  match ix with
  | None => panicF
  | Some ix =>
      a ← liftF (array_remove a ix);
      modF (set_vnodes a);;
      vnode_kill p;;
      free_sv p;;
      mret (Ok tt)
  end.

Lemma unload_run s tab rest p sv :
  vtab s tab rest → s_pool s !! p = Some sv → vn_refcount sv = 1 → vn_opencount sv = 0 →
  runs (unload p) s (λ r s', r = Ok tt ∧ ∃ h a tab',
    s' = set_heapF h (set_pool (delete p (s_pool s)) (set_vnodes a s)) ∧ vtab s' tab' rest ∧
    (length tab' ≤ length tab)%nat).
Proof.
  intros Htab Hp Hr Ho. unfold unload. apply runs_bind, runs_get, runs_bind. unfold array_getnum.
  rewrite (ar_num _ _ (vt_rep _ _ _ Htab)), length_fmap, Nat2Z.id.
  assert (Hin : p ∈ tab) by (apply (vt_dom _ _ _ Htab); by rewrite Hp).
  eapply runs_mono; [apply (find_index_run (length tab) 0 s tab rest p Htab); [lia|lia|done]|].
  intros r s' (-> & k & -> & Hk). cbv beta iota.
  destruct (array_remove_spec (s_vnodes s) (Some <$> tab) k) as (a & Hrem & Ha & Hblocks & _);
    [apply Htab|rewrite length_fmap; by eapply lookup_lt_Some|].
  apply runs_bind. eapply runs_lift; [exact Hrem|]. apply runs_bind, runs_mod.
  unfold vnode_kill, countlock_destroy, free_sv. apply runs_bind, runs_bind. eapply runs_get_sv; [exact Hp|].
  apply runs_bind, runs_assert; [by apply Z.eqb_eq|]. apply runs_bind, runs_assert; [by apply Z.eqb_eq|].
  pose proof (vt_owns _ _ _ Htab) as Howns. set (DB := delete k tab ≫= vblocks s). set (l := vn_countlock sv).
  assert (HDB : tab ≫= vblocks s ≡ₚ p :: l.1 :: l.2 :: DB).
  { rewrite (delete_Permutation _ _ _ Hk) at 1. cbn. unfold vblocks at 1. by rewrite Hp. }
  rewrite HDB in Howns. rewrite <- Hblocks in Howns.
  apply runs_bind. eapply runs_mono; [eapply (kfree_runs _ (array_blocks a ++ p :: l.1 :: DB ++ rest) _ l.2); [exact Howns|solve_Permutation]|].
  intros [] s3 (h3 & -> & Hh3).
  eapply runs_mono; [eapply (kfree_runs _ (array_blocks a ++ p :: DB ++ rest) _ l.1); [exact Hh3|solve_Permutation]|].
  intros [] s4 (h4 & -> & Hh4). apply runs_bind, runs_bind, runs_mod.
  eapply runs_mono; [eapply (kfree_runs _ (array_blocks a ++ DB ++ rest) _ p); [exact Hh4|solve_Permutation]|].
  intros [] s5 (h5 & -> & Hh5). apply runs_ret. split; [done|]. exists h5, a, (delete k tab).
  split; [done|]. split; [by apply (vtab_remove s tab rest p sv a h5 k)|]. rewrite length_delete by (by rewrite Hk). lia.
Qed.

(** *** Dropping a reference *)

(** What happens to other vnodes. *)
Record drop_frame s s' (p : Z) : Prop := {
  df_pool q : q ≠ p → option_Forall2 vn_same (s_pool s !! q) (s_pool s' !! q);
  df_user : s_user s' = s_user s;
  df_self : s_self s' = s_self s;
}.

(** The files after the last reference to [ino] went. *)
Definition after_drop (V : gmap Z afile) (ino : Z) (v : afile) : gmap Z afile :=
  if af_links v =? 0 then delete ino V else V.

Lemma reclaim_unfold p sv s :
  s_pool s !! p = Some sv → vn_refcount sv = 1 →
  sfs_reclaim p s =
    (_ ←? (if sfi_linkcount (sv_i sv) =? 0 then vop_truncate p 0 else mret (Ok tt));
     _ ←? sfs_sync_inode p;
     sv ← get_sv p;
     (if sfi_linkcount (sv_i sv) =? 0 then sfs_bfree (sv_ino sv) else mret tt);;
     unload p) s.
Proof.
  intros Hp Hr. unfold sfs_reclaim. rewrite (bindF_run _ _ _ _ _ (get_sv_run _ _ _ Hp)), Hr. reflexivity.
Qed.

Lemma vnode_check_run s tab rest p sv b :
  vtab s tab rest → s_pool s !! p = Some sv → vnode_check p b s = Done (tt, s).
Proof.
  intros Htab Hp. destruct (vt_counts _ _ _ Htab _ _ Hp) as [Hr Ho]. unfold vnode_check.
  rewrite (bindF_run _ _ _ _ _ (get_sv_run _ _ _ Hp)). rewrite (proj2 (Z.ltb_ge _ _)) by lia.
  rewrite (proj2 (Z.eqb_neq _ _)) by lia. cbn [andb]. by rewrite (proj2 (Z.ltb_ge _ _)) by lia.
Qed.

(** VOP_TRUNCATE on a file, and on a directory. *)
Lemma vop_truncate_run s files V tab rest p sv v len :
  fs_inv s files V tab rest → s_pool s !! p = Some sv → V !! sv_ino sv = Some v →
  0 ≤ len < 2 ^ 31 - 511 →
  runs (vop_truncate p len) s (λ r s',
    if af_type v =? SFS_TYPE_DIR then r = Err EISDIR ∧ s' = s
    else r = Ok tt ∧ truncate_post s V p sv v len s').
Proof.
  intros [Hinv HV Htab Hops] Hp Hv Hlen. unfold vop_truncate. apply runs_bind. exists tt, s.
  split; [by eapply vnode_check_run|]. apply runs_bind. eapply runs_get_sv; [done|].
  rewrite (Hops _ _ _ Hp Hv). unfold ops_of. destruct (af_type v =? SFS_TYPE_DIR); [by apply runs_ret|].
  by eapply truncate_run.
Qed.

(** The first stage of sfs_reclaim. *)
Lemma reclaim_erase s files V tab rest p sv v :
  fs_inv s files V tab rest → s_pool s !! p = Some sv → V !! sv_ino sv = Some v →
  (af_links v = 0 → af_type v = SFS_TYPE_FILE) →
  runs (if sfi_linkcount (sv_i sv) =? 0 then vop_truncate p 0 else mret (Ok tt)) s (λ r s',
    r = Ok tt ∧ ∃ files' v' sv', fs_inv s' files' (<[sv_ino sv := v']> V) tab rest ∧ same_env s s' ∧
      s_user s' = s_user s ∧ s_pool s' !! p = Some sv' ∧ af_links v' = af_links v ∧ (af_links v ≠ 0 → v' = v)).
Proof.
  intros Hfs Hp Hv Hfile. pose proof Hfs as [Hinv HV Htab Hops].
  destruct (views_lookup _ _ _ _ _ HV (di_loaded _ _ Hinv _ _ Hp)) as (v' & Hv' & _ & _ & Hl & _).
  assert (v' = v) as -> by congruence. rewrite <- Hl. destruct (Z.eqb_spec (af_links v) 0) as [E|E].
  - eapply runs_mono; [by eapply vop_truncate_run|]. intros r s'. rewrite (Hfile E). cbn.
    intros (-> & files' & sv' & ? & ? & ? & ? & ? & _). split; [done|]. exists files', (truncated v 0), sv'.
    split; [|done]. eapply fs_inv_env; [done..|]. intros ino w.
    destruct (decide (ino = sv_ino sv)) as [->|]; [|rewrite lookup_insert_ne by done; eauto].
    rewrite lookup_insert_eq. intros [= <-]. by exists v.
  - apply runs_ret. split; [done|]. exists files, v, sv. by rewrite insert_id.
Qed.

Lemma reclaim_run s files V tab rest p sv v :
  fs_inv s files V tab rest → s_pool s !! p = Some sv → V !! sv_ino sv = Some v →
  vn_refcount sv = 1 → vn_opencount sv = 0 → (af_links v = 0 → af_type v = SFS_TYPE_FILE) →
  runs (sfs_reclaim p) s (λ r s', r = Ok tt ∧ ∃ files' tab',
    fs_inv s' files' (after_drop V (sv_ino sv) v) tab' rest ∧ (length tab' ≤ length tab)%nat ∧
    s_pool s' !! p = None ∧ drop_frame s s' p).
Proof.
  intros Hfs Hp Hv Hr Ho Hfile. unfold runs. rewrite (reclaim_unfold p sv s Hp Hr). fold (runs (D := D) (H := H) (A := res unit)).
  apply runs_bindR. eapply runs_mono; [by eapply reclaim_erase|].
  intros r s1 (-> & files1 & v1 & sv1 & Hfs1 & Henv1 & Hu1 & Hp1 & Hl1 & Hv1). cbv beta iota.
  pose proof Hfs1 as [Hinv1 HV1 Htab1 Hops1].
  destruct (same_env_pool _ _ _ _ Henv1 Hp) as (sv1' & Hp1' & Hr1 & Ho1 & _ & _ & Hino1).
  assert (sv1' = sv1) as -> by congruence.
  apply runs_bindR. eapply runs_mono; [by eapply (sync_inode_run s1)|].
  intros r s2 (-> & Hinv2 & HV2 & Henv2 & Hu2 & Hpool2 & _ & _). cbv beta iota.
  set (sv2 := set_inode (sv_i sv1) false sv1) in *.
  assert (Hp2 : s_pool s2 !! p = Some sv2) by (rewrite Hpool2; apply lookup_insert_eq). apply runs_bind. eapply runs_get_sv; [exact Hp2|].
  pose proof (di_loaded _ _ Hinv2 _ _ Hp2) as Hcur2. destruct (di_inode _ _ Hinv2 _ _ Hcur2) as (_ & _ & Hval & Hused).
  assert (Hlink : sfi_linkcount (sv_i sv2) = af_links v).
  { destruct (views_lookup _ _ _ _ _ HV2 Hcur2) as (w & Hw & _ & _ & E & _). cbn in Hw. rewrite Hino1, lookup_insert_eq in Hw.
    injection Hw as <-. congruence. }
  rewrite Hlink. set (X := if af_links v =? 0 then [sv_ino sv] else []). apply runs_bind.
  assert (Hfree : runs (if af_links v =? 0 then sfs_bfree (sv_ino sv2) else mret tt) s2 (λ _ s3, unmap s2 s3 X)).
  { unfold X. destruct (af_links v =? 0); [|apply runs_ret; by apply unmap_nil, Hinv2].
    change (sv_ino sv2) with (sv_ino sv1) in *. rewrite Hino1 in *.
    destruct (bfree_unmap s2 (sv_ino sv)) as (s3 & Hrun & Hun); [apply Hinv2|apply Hinv2|done|done|]. by exists tt, s3. }
  eapply runs_mono; [exact Hfree|]. intros [] s3 Hun. cbv beta in Hun.
  destruct (unmap_same _ _ _ Hun) as (Hp3 & Hu3 & Hd3). pose proof (unmap_env _ _ _ Hun) as Henv3.
  assert (Htab3 : vtab s3 tab rest) by (eapply vtab_env; [exact Henv3|]; by eapply vtab_env).
  eapply runs_mono; [eapply (unload_run s3 tab rest p sv2); [done|by rewrite Hp3|cbn; congruence|cbn; congruence]|].
  intros r s4 (-> & h & a & tab' & -> & Htab4 & Hlen). split; [done|].
  pose proof (disk_inv_unload s2 files1 p sv2 a h Hinv2 Hp2 eq_refl) as Hinvu.
  set (u := set_heapF h (set_pool (delete p (s_pool s2)) (set_vnodes a s2))) in *.
  assert (Hunu : unmap u (set_heapF h (set_pool (delete p (s_pool s3)) (set_vnodes a s3))) X).
  { destruct Hun as (m & d & -> & Hm). exists m, d. split; [reflexivity|exact Hm]. }
  assert (Hnou : ∀ q sv', s_pool u !! q = Some sv' → sv_ino sv' ≠ sv_ino sv).
  { intros q sv' Hq0 E. change (s_pool u) with (delete p (s_pool s2)) in Hq0.
    apply lookup_delete_Some in Hq0 as [Hq Hq']. apply Hq. eapply (di_unique _ _ Hinv2); [exact Hp2|exact Hq'|]. cbn. congruence. }
  set (s4 := set_heapF h (set_pool (delete p (s_pool s3)) (set_vnodes a s3))) in *.
  assert (Hpool4 : ∀ q, q ≠ p → s_pool s4 !! q = s_pool s2 !! q).
  { intros q Hq. cbn. rewrite lookup_delete_ne by done. by rewrite Hp3. }
  assert (Hops4 : ∀ q sv' w, s_pool s4 !! q = Some sv' → V !! sv_ino sv' = Some w → sv_ino sv' ≠ sv_ino sv → vn_ops sv' = ops_of (af_type w)).
  { intros q sv' w Hq Hw Hne. pose proof Hq as Hq0. cbn in Hq0. apply lookup_delete_Some in Hq0 as [Hqp Hq0]. rewrite Hp3 in Hq0.
    destruct (same_env_back _ _ _ _ Henv2 Hq0) as (sv0 & Hsv0 & _ & _ & _ & -> & E). rewrite E in *.
    eapply Hops1; [exact Hsv0|]. by rewrite lookup_insert_ne. }
  exists (if af_links v =? 0 then delete (sv_ino sv) files1 else files1), tab'. split_and!; [|done| |].
  - assert (HV4 : views s4 files1 (<[sv_ino sv := v1]> V)).
    { eapply views_spare; [exact HV2|]. intros. by apply blk_device. }
    unfold after_drop, X in *. destruct (Z.eqb_spec (af_links v) 0) as [E|E].
    + constructor; [| |exact Htab4|].
      * eapply (disk_inv_erase u s4 files1 (sv_ino sv) (sv_i sv2)); [done| |done|done]. cbn in Hcur2. by rewrite <- Hino1.
      * rewrite <- (delete_insert_eq V (sv_ino sv) v1). by apply views_erase.
      * intros q sv' w Hq [Hne Hw]%lookup_delete_Some. by eapply Hops4.
    + constructor; [| |exact Htab4|].
      * eapply disk_inv_unmap; [exact Hinvu|exact Hunu|]. intros b Hb. by apply not_elem_of_nil in Hb.
      * rewrite (Hv1 E), insert_id in HV4 by done. exact HV4.
      * intros q sv' w Hq Hw. eapply Hops4; [done|done|]. intros Hino. pose proof Hq as Hq0. cbn in Hq0. rewrite Hp3 in Hq0.
        by apply (Hnou q sv').
  - cbn. apply lookup_delete_eq.
  - constructor.
    + intros q Hq. rewrite Hpool4 by done. pose proof (same_env_trans _ _ _ Henv1 Henv2) as Henv. apply (se_pool _ _ Henv).
    + cbn. congruence.
    + cbn. by rewrite (se_self _ _ Henv3), (se_self _ _ Henv2), (se_self _ _ Henv1).
Qed.

(** VOP_DECREF. *)
Lemma decref_run s files V tab rest p sv v :
  fs_inv s files V tab rest → s_pool s !! p = Some sv → V !! sv_ino sv = Some v →
  (vn_refcount sv = 1 → vn_opencount sv = 0) → (af_links v = 0 → af_type v = SFS_TYPE_FILE) →
  runs (vnode_decref p) s (λ _ s', drop_frame s s' p ∧
    if decide (vn_refcount sv = 1)
    then s_pool s' !! p = None ∧ ∃ files' tab', fs_inv s' files' (after_drop V (sv_ino sv) v) tab' rest ∧
           (length tab' ≤ length tab)%nat
    else s_pool s' !! p = Some (set_refcount (vn_refcount sv - 1) sv) ∧ fs_inv s' files V tab rest).
Proof.
  intros Hfs Hp Hv Hopen Hfile. pose proof (fi_tab _ _ _ _ _ Hfs) as Htab.
  destruct (vt_counts _ _ _ Htab _ _ Hp) as [Hr _]. unfold vnode_decref. apply runs_bind.
  eapply runs_get_sv; [done|]. apply runs_bind, runs_assert; [by apply Z.gtb_lt|].
  destruct (decide (vn_refcount sv = 1)) as [E|E].
  - rewrite E. cbn [Z.gtb Z.compare Pos.compare Pos.compare_cont]. apply runs_bind. exists tt, s.
    split; [by eapply vnode_check_run|]. apply runs_bind. eapply runs_mono; [by eapply reclaim_run; eauto|].
    intros r s' (-> & files' & tab' & ? & ? & ? & ?). apply runs_ret. split; [done|]. split; [done|]. by exists files', tab'.
  - rewrite (proj2 (Z.gtb_lt _ _)) by lia. apply runs_put_sv. split; [|split; [cbn; apply lookup_insert_eq|]].
    + constructor; [|done|done]. intros q Hq. cbn. by rewrite lookup_insert_ne.
    + apply fs_inv_refcount; [done|done|lia].
Qed.
End Reclaim.
