(* ===== verification/SfsName.v ===== *)
(** * SFS: the name space

    The whole volume as an abstract file system: a map [dm] from names to
    inodes, a map [V] from inodes to files, and link counts that count the
    names.  Looking up, creating, linking, removing and renaming files are
    operations on these maps, and every error leaves them as they were. *)

From S2P Require Import Prelude Ram Kheap KheapSpec KArray Bitmap Bytes Mem CString Uio Device Sfs SfsOps SfsSpec SfsFile SfsWrite SfsDir SfsTrunc SfsVnode SfsReclaim.

(** ** Counting names *)

Definition nlinks (dm : gmap (list Z) Z) (ino : Z) : Z := Z.of_nat (size (filter (λ kv, kv.2 = ino) dm)).

Lemma nlinks_insert dm name ino j :
  dm !! name = None → nlinks (<[name := ino]> dm) j = nlinks dm j + (if decide (j = ino) then 1 else 0).
Proof.
  intros Hn. unfold nlinks. destruct (decide (j = ino)) as [->|Hj].
  - rewrite map_filter_insert_True by done. rewrite map_size_insert_None; [lia|].
    apply map_lookup_filter_None. by left.
  - rewrite map_filter_insert_False by (cbn; congruence). rewrite delete_id by done. lia.
Qed.

Lemma nlinks_delete dm name ino j :
  dm !! name = Some ino → nlinks (delete name dm) j = nlinks dm j - (if decide (j = ino) then 1 else 0).
Proof.
  intros Hn. rewrite <- (insert_delete_id dm name ino) at 2 by done.
  rewrite nlinks_insert by apply lookup_delete_eq. lia.
Qed.

Lemma nlinks_pos dm name ino : dm !! name = Some ino → 0 < nlinks dm ino.
Proof.
  intros Hn. pose proof (nlinks_delete dm name ino ino Hn) as E. rewrite decide_True in E by done.
  unfold nlinks in *. lia.
Qed.

(** A directory of at most 143 blocks has room for far fewer names than a
    link count can count. *)
Lemma nlinks_bound v dm j : dir_rep v dm → 0 ≤ nlinks dm j ≤ 1144.
Proof.
  intros [Hv Hdm]. unfold nlinks. split; [lia|].
  assert (Hsub : (size (filter (λ kv : list Z * Z, kv.2 = j) dm) ≤ size dm)%nat)
    by (apply map_subseteq_size, map_filter_subseteq).
  set (names := (λ k, cname (entry v (Z.of_nat k))) <$> seq 0 (Z.to_nat (nslots v))).
  assert (Hlen : (size dm ≤ length names)%nat).
  { rewrite <- length_map_to_list, <- (length_fmap fst).
    apply submseteq_length, NoDup_submseteq; [apply NoDup_fst_map_to_list|].
    intros name [[nm ino] [-> Hin]]%list_elem_of_fmap. apply elem_of_map_to_list, Hdm in Hin as [k Hk].
    destruct Hk as (Hk & _ & _ & <-). apply list_elem_of_fmap. exists (Z.to_nat k).
    split; [by rewrite Z2Nat.id by lia|]. apply elem_of_seq. lia. }
  unfold names in Hlen. rewrite length_fmap, length_seq in Hlen.
  pose proof (dk_size _ Hv). pose proof (dk_max _ Hv). unfold SFS_MAXFILE in *. lia.
Qed.

Section Names.
Context {D H : Type} `{DiskLaws D} `{KHeapLaws H}.
Implicit Types s : sfs D H.

(** The table of vnodes cannot outgrow its array: vnodes have different
    inodes, and those are blocks of the volume. *)
Lemma tab_bound s files V tab rest : fs_inv s files V tab rest → Z.of_nat (length tab) + 1 < array_limit.
Proof.
  intros [Hinv _ Htab _]. pose proof (dw_small _ (di_dev _ _ Hinv)) as Hn.
  set (f := λ p, match s_pool s !! p with Some sv => sv_ino sv | None => 0 end).
  assert (Hl : (length (f <$> tab) ≤ length (seqZ 0 (nblocks s)))%nat).
  { apply submseteq_length, NoDup_submseteq.
    - apply NoDup_fmap_2_strong; [|apply Htab]. intros p q Hp Hq. apply (vt_dom _ _ _ Htab) in Hp as [sv Hp].
      apply (vt_dom _ _ _ Htab) in Hq as [sv' Hq]. unfold f. rewrite Hp, Hq. by eapply (di_unique _ _ Hinv).
    - intros b [p [-> Hp]]%list_elem_of_fmap. apply (vt_dom _ _ _ Htab) in Hp as [sv Hp]. unfold f. rewrite Hp.
      destruct (di_inode _ _ Hinv _ _ (di_loaded _ _ Hinv _ _ Hp)) as (_ & _ & [? _] & _). apply elem_of_seqZ. lia. }
  rewrite length_fmap, length_seqZ in Hl. unfold array_limit. lia.
Qed.

(** ** The abstract file system *)

Record ns_inv s (files : gmap Z sfs_inode) (V : gmap Z afile) (tab rest : list Z) (d : Z)
    (dm : gmap (list Z) Z) : Prop := {
  ni_fs : fs_inv s files V tab rest;
  ni_root : ∃ sv, s_pool s !! d = Some sv ∧ sv_ino sv = SFS_ROOT_LOCATION;
  ni_dir : ∃ dv, V !! SFS_ROOT_LOCATION = Some dv ∧ dir_rep dv dm ∧ af_links dv ≠ 0;
  ni_files ino v : V !! ino = Some v → ino ≠ SFS_ROOT_LOCATION →
    af_type v = SFS_TYPE_FILE ∧ af_links v = nlinks dm ino;
  ni_names name ino : dm !! name = Some ino → ino ≠ SFS_ROOT_LOCATION ∧ is_Some (V !! ino);
}.

(** The directory as [SfsDir] sees it. *)
Lemma ns_at_dir s files V tab rest d dm :
  ns_inv s files V tab rest d dm →
  ∃ sv dv, at_dir s files V d sv dv ∧ sv_ino sv = SFS_ROOT_LOCATION ∧ dir_rep dv dm ∧
    V !! SFS_ROOT_LOCATION = Some dv ∧ af_links dv ≠ 0.
Proof.
  intros [[Hinv HV _ _] (sv & Hp & Hino) (dv & Hdv & Hrep & Hl) _ _]. exists sv, dv.
  split_and!; [|done..]. constructor; [done|done|done|by rewrite Hino].
Qed.

Lemma reread_fs s s' ue files V tab rest :
  reread s s' ue → fs_inv s files V tab rest → fs_inv s' files V tab rest.
Proof.
  intros Hr Hfs. eapply fs_inv_env; [done|by eapply reread_env|eapply reread_inv; [done|apply Hfs]|
    eapply reread_views; [done|apply Hfs]|eauto].
Qed.

Lemma ns_same s s' files files' V tab tab' rest d dm :
  ns_inv s files V tab rest d dm → fs_inv s' files' V tab' rest →
  (∃ sv, s_pool s' !! d = Some sv ∧ sv_ino sv = SFS_ROOT_LOCATION) → ns_inv s' files' V tab' rest d dm.
Proof. intros [_ _ ? ? ?] Hfs Hroot. by constructor. Qed.

Lemma ns_reread s s' ue files V tab rest d dm :
  reread s s' ue → ns_inv s files V tab rest d dm → ns_inv s' files V tab rest d dm.
Proof.
  intros Hr Hns. eapply ns_same; [done|eapply reread_fs; [done|apply Hns]|].
  rewrite (proj1 (reread_pool _ _ _ Hr)). apply Hns.
Qed.

Lemma load_drop_frame s s' p : load_frame s s' p → drop_frame s s' p.
Proof. intros [Hp ? ?]. constructor; [|done|done]. intros q Hq. by rewrite Hp. Qed.

Lemma reread_load_frame s s' p : reread s s' (s_user s) → load_frame s s' p.
Proof. intros (d & -> & _). by constructor. Qed.

Lemma load_frame_trans s1 s2 s3 p : load_frame s1 s2 p → load_frame s2 s3 p → load_frame s1 s3 p.
Proof. intros [A ? ?] [B ? ?]. constructor; [|congruence..]. intros q Hq. by rewrite B, A. Qed.

(** A vnode other than the one a frame is about keeps its inode. *)
Lemma drop_frame_root s s' p d :
  drop_frame s s' p → d ≠ p → (∃ sv, s_pool s !! d = Some sv ∧ sv_ino sv = SFS_ROOT_LOCATION) →
  ∃ sv, s_pool s' !! d = Some sv ∧ sv_ino sv = SFS_ROOT_LOCATION.
Proof.
  intros Hf Hd (sv & Hp & Hino). pose proof (df_pool _ _ _ Hf d Hd) as Hq. rewrite Hp in Hq.
  inversion Hq as [? sv' (_ & _ & _ & _ & E)|]; subst. exists sv'. split; [done|congruence].
Qed.

(** ** The vnodes that clients hold *)

(** What a client knows of a vnode: its inode, its references and opens. *)
Definition seen (sv : sfs_vnode) : Z * Z * Z := (sv_ino sv, vn_refcount sv, vn_opencount sv).
Definition vnodes s : gmap Z (Z * Z * Z) := seen <$> s_pool s.

Lemma vnodes_lookup s p sv : s_pool s !! p = Some sv → vnodes s !! p = Some (seen sv).
Proof. intros Hp. unfold vnodes. by rewrite lookup_fmap, Hp. Qed.

Lemma seen_same o o' : option_Forall2 vn_same o o' → seen <$> o' = seen <$> o.
Proof. intros [sv sv' (? & ? & ? & ? & ?)|]; [|done]. cbn. unfold seen. congruence. Qed.

Lemma vnodes_env s s' : same_env s s' → vnodes s' = vnodes s.
Proof. intros Henv. apply map_eq. intros p. unfold vnodes. rewrite !lookup_fmap. apply seen_same, Henv. Qed.

Lemma vnodes_kept s s' p sv : drop_frame s s' p → s_pool s' !! p = Some sv → vnodes s' = <[p := seen sv]> (vnodes s).
Proof.
  intros Hf Hp. apply map_eq. intros q. destruct (decide (q = p)) as [->|Hq].
  - by rewrite lookup_insert_eq, (vnodes_lookup _ _ _ Hp).
  - rewrite lookup_insert_ne by done. unfold vnodes. rewrite !lookup_fmap. by apply seen_same, Hf.
Qed.

Lemma vnodes_dropped s s' p : drop_frame s s' p → s_pool s' !! p = None → vnodes s' = delete p (vnodes s).
Proof.
  intros Hf Hp. apply map_eq. intros q. destruct (decide (q = p)) as [->|Hq].
  - rewrite lookup_delete_eq. unfold vnodes. by rewrite lookup_fmap, Hp.
  - rewrite lookup_delete_ne by done. unfold vnodes. rewrite !lookup_fmap. by apply seen_same, Hf.
Qed.

Lemma vnodes_load s s' : (∀ p, load_frame s s' p) → vnodes s' = vnodes s.
Proof.
  intros Hfr. apply map_eq. intros q. unfold vnodes. by rewrite !lookup_fmap, (lf_pool _ _ _ (Hfr (q + 1))) by lia.
Qed.

(** Whether a file is in memory. *)
Definition in_use (O : gmap Z (Z * Z * Z)) (ino : Z) : Prop := ∃ p r o, O !! p = Some (ino, r, o).

(** A reference to [ino] is taken: a new one to its vnode in memory, or the
    first to a vnode that was not there. *)
Definition taken (O : gmap Z (Z * Z * Z)) (ino p : Z) (O' : gmap Z (Z * Z * Z)) : Prop :=
  ∃ r o, O' = <[p := (ino, r + 1, o)]> O ∧
    (O !! p = Some (ino, r, o) ∧ 0 < r ∨ O !! p = None ∧ r = 0 ∧ o = 0 ∧ ¬ in_use O ino).

Lemma load_taken s s' files V V' tab rest files' tab' p sv ino :
  fs_inv s files V tab rest → fs_inv s' files' V' tab' rest → load_frame s s' p →
  s_pool s' !! p = Some sv → sv_ino sv = ino → vn_refcount sv = refs s p + 1 →
  (vn_refcount sv = 1 → vn_opencount sv = 0) →
  (∀ sv0, s_pool s !! p = Some sv0 → sv_ino sv0 = ino ∧ vn_opencount sv0 = vn_opencount sv) →
  taken (vnodes s) ino p (vnodes s').
Proof.
  intros Hfs Hfs' Hfr Hp Hino Hrc Hoc Hold. exists (refs s p), (vn_opencount sv). split.
  { rewrite (vnodes_kept s s' p sv (load_drop_frame _ _ _ Hfr) Hp). unfold seen. by rewrite Hino, Hrc. }
  unfold refs in *. destruct (s_pool s !! p) as [sv0|] eqn:E.
  - left. destruct (Hold _ eq_refl) as [Hi Ho]. rewrite (vnodes_lookup _ _ _ E). unfold seen. rewrite Hi, Ho.
    by destruct (vt_counts _ _ _ (fi_tab _ _ _ _ _ Hfs) _ _ E).
  - right. unfold vnodes at 1. rewrite lookup_fmap, E. split_and!; [done|done|by apply Hoc; rewrite Hrc|].
    intros (q & r & o & Hq). unfold vnodes in Hq. rewrite lookup_fmap in Hq.
    destruct (s_pool s !! q) as [svq|] eqn:Eq; [|done]. injection Hq as Hiq _ _.
    assert (Hne : q ≠ p) by congruence. rewrite <- (lf_pool _ _ _ Hfr q Hne) in Eq. destruct Hne.
    eapply (di_unique _ _ (fi_disk _ _ _ _ _ Hfs')); [done|done|congruence].
Qed.

(** ** Looking up *)

Lemma lookonce_run s files V tab rest d dm name buf :
  ns_inv s files V tab rest d dm → cstr buf name →
  runs (sfs_lookonce d buf) s (λ r s',
    match r with
    | Ok (p, slot) => ∃ ino tab' sv dv, dm !! name = Some ino ∧ ns_inv s' files V tab' rest d dm ∧
        s_pool s' !! p = Some sv ∧ sv_ino sv = ino ∧ taken (vnodes s) ino p (vnodes s') ∧
        V !! SFS_ROOT_LOCATION = Some dv ∧ listed dv name ino slot ∧ p ≠ d ∧ load_frame s s' p
    | Err e => ns_inv s' files V tab rest d dm ∧ (e = ENOENT ∧ dm !! name = None ∨ e = ENOMEM) ∧
        ∀ p, load_frame s s' p
    end).
Proof.
  intros Hns Hname. destruct (ns_at_dir _ _ _ _ _ _ _ Hns) as (dsv & dv & Hd & Hroot & Hrep & Hdv & Hl).
  unfold sfs_lookonce. apply runs_bind. eapply runs_mono; [by eapply findname_run|].
  intros [r f] s1 (Hr & _ & Hf). pose proof (ns_reread _ _ _ _ _ _ _ _ _ Hr Hns) as Hns1.
  destruct (dm !! name) as [ino|] eqn:Edm; cycle 1.
  { destruct Hf as [-> _]. cbn. apply runs_ret. split; [done|]. split; [by left|]. intros p. by apply reread_load_frame. }
  destruct Hf as (-> & slot & -> & Hlist). cbn [Z.eqb negb]. apply runs_bind. eapply runs_deref; [done|]. cbv beta iota.
  destruct (ni_names _ _ _ _ _ _ _ Hns1 _ _ Edm) as [Hne [v Hv]]. pose proof (ni_fs _ _ _ _ _ _ _ Hns1) as Hfs1.
  apply runs_bindR. eapply runs_mono; [eapply loadvnode_run; [exact Hfs1|exact Hv|by eapply tab_bound]|].
  intros [e|p] s2 Hp; cbv beta iota.
  { destruct Hp as (-> & Hfs2 & Hfr). split; [|split; [by right|]].
    - eapply ns_same; [exact Hns1|done|]. destruct (ni_root _ _ _ _ _ _ _ Hns1) as (sv & Hsv & ?). exists sv.
      split; [|done]. rewrite (lf_pool _ _ _ (Hfr (d + 1))); [done|lia].
    - intros q. eapply load_frame_trans; [by apply reread_load_frame|done]. }
  destruct Hp as (tab' & sv & Hfs2 & _ & Hp & Hino & Hrc & Hoc & Hold & Hfr). apply runs_bind. eapply runs_get_sv; [exact Hp|].
  destruct (views_lookup _ _ _ _ _ (fi_views _ _ _ _ _ Hfs2) (di_loaded _ _ (fi_disk _ _ _ _ _ Hfs2) _ _ Hp)) as (v' & Hv' & _ & _ & Hlk & _).
  rewrite Hino in Hv'. assert (v' = v) as -> by congruence.
  destruct (ni_files _ _ _ _ _ _ _ Hns1 _ _ Hv Hne) as [_ Hlinks]. pose proof (nlinks_pos _ _ _ Edm).
  rewrite (proj2 (Z.eqb_neq _ _)) by lia. apply runs_ret.
  assert (Hpd : p ≠ d).
  { intros ->. destruct (ni_root _ _ _ _ _ _ _ Hns1) as (sv0 & Hsv0 & Hi0). destruct (Hold _ Hsv0). congruence. }
  exists ino, tab', sv, dv. split_and!; try done.
  - eapply ns_same; [exact Hns1|done|]. eapply drop_frame_root; [by apply load_drop_frame|done|apply Hns1].
  - rewrite <- (vnodes_env s s1) by (by eapply reread_env). eapply load_taken; [exact Hfs1|exact Hfs2|done..].
  - eapply load_frame_trans; [by apply reread_load_frame|done].
Qed.

(** ** Links *)

Definition relinked (v : afile) (n : Z) : afile := AFile (af_size v) (af_type v) (af_links v + n) (af_byte v).

Lemma same_env_drop s s' p : same_env s s' → s_user s' = s_user s → drop_frame s s' p.
Proof. intros Henv Hu. constructor; [|done|apply Henv]. intros q _. apply Henv. Qed.

Lemma drop_frame_trans s1 s2 s3 p : drop_frame s1 s2 p → drop_frame s2 s3 p → drop_frame s1 s3 p.
Proof.
  intros [A ? ?] [B ? ?]. constructor; [|congruence..]. intros q Hq. specialize (A q Hq). specialize (B q Hq).
  destruct A as [x y Hxy|]; inversion B as [? z Hyz|]; subst; constructor. by etransitivity.
Qed.

Lemma add_link_run s files V tab rest p sv v n :
  fs_inv s files V tab rest → s_pool s !! p = Some sv → V !! sv_ino sv = Some v →
  0 ≤ af_links v + n < 2 ^ 16 →
  runs (add_link p n true) s (λ _ s', ∃ files' sv', fs_inv s' files' (<[sv_ino sv := relinked v n]> V) tab rest ∧
    s_pool s' !! p = Some sv' ∧ vn_same sv sv' ∧ same_env s s' ∧ s_user s' = s_user s).
Proof.
  intros Hfs Hp Hv Hn. pose proof Hfs as [Hinv HV Htab Hops]. pose proof (di_loaded _ _ Hinv _ _ Hp) as Hcur.
  destruct (views_lookup _ _ _ _ _ HV Hcur) as (v' & Hv' & Hsz & Hty & Hln & Hby). assert (v' = v) as -> by congruence.
  destruct (di_inode _ _ Hinv _ _ Hcur) as (Hwf & Hnj & _). unfold add_link. apply runs_bind.
  eapply runs_get_sv; [done|]. apply runs_put_sv. cbn [orb].
  rewrite <- Hln. unfold u16. rewrite Z.mod_small by lia.
  set (i' := set_linkcount (af_links v + n) (sv_i sv)). fold (put_inode s p sv i').
  assert (Henv : same_env s (put_inode s p sv i')) by (by apply put_inode_env).
  assert (Hwf' : inode_wf i') by (destruct Hwf; by constructor).
  exists (<[sv_ino sv := i']> files), (set_inode i' true sv). split_and!; [|cbn; apply lookup_insert_eq|done..].
  eapply fs_inv_env; [done|done| | |].
  - apply disk_inv_put; [done|done|done|done|]. intros b Hb _. by left.
  - apply views_put; [done|done|]. split_and!; [done..|]. exact Hby.
  - intros ino w. destruct (decide (ino = sv_ino sv)) as [->|]; [|rewrite lookup_insert_ne by done; eauto].
    rewrite lookup_insert_eq. intros [= <-]. by exists v.
Qed.

(** The directory changes from [dv] to [dv']. *)
Lemma dir_change s s' files V tab rest dv dv' :
  fs_inv s files V tab rest → V !! SFS_ROOT_LOCATION = Some dv → af_type dv' = af_type dv →
  dir_now s V SFS_ROOT_LOCATION dv' s' →
  ∃ files', fs_inv s' files' (<[SFS_ROOT_LOCATION := dv']> V) tab rest ∧ same_env s s' ∧ s_user s' = s_user s.
Proof.
  intros Hfs Hdv Hty (files' & Hinv & HV & Henv & Hu). exists files'. split; [|done].
  eapply fs_inv_env; [done..|]. intros ino w.
  destruct (decide (ino = SFS_ROOT_LOCATION)) as [->|]; [|rewrite lookup_insert_ne by done; eauto].
  rewrite lookup_insert_eq. intros [= <-]. by exists dv.
Qed.

(** ** Links in the directory *)

(** Why a name cannot be entered. *)
Definition link_error (dm : gmap (list Z) Z) (name : list Z) (e : Z) : Prop :=
  e = EEXIST ∧ is_Some (dm !! name) ∨ e = ENAMETOOLONG ∧ (60 ≤ length name)%nat ∨
  dm !! name = None ∧ (e = ENOSPC ∨ e = EINVAL).

Lemma ns_dir_link s files V tab rest d dm name buf ino :
  ns_inv s files V tab rest d dm → cstr buf name → is_Some (V !! ino) →
  runs (sfs_dir_link d buf ino) s (λ r s', same_env s s' ∧ s_user s' = s_user s ∧
    match r with
    | Ok slot => dm !! name = None ∧ (length name < 60)%nat ∧ ∃ files' dv dv',
        V !! SFS_ROOT_LOCATION = Some dv ∧ fs_inv s' files' (<[SFS_ROOT_LOCATION := dv']> V) tab rest ∧
        dir_rep dv' (<[name := ino]> dm) ∧ af_links dv' ≠ 0 ∧ ∀ nm i k, listed dv nm i k → listed dv' nm i k
    | Err e => link_error dm name e ∧ ∃ files', ns_inv s' files' V tab rest d dm
    end).
Proof.
  intros Hns Hname [v Hv]. destruct (ns_at_dir _ _ _ _ _ _ _ Hns) as (dsv & dv & Hd & Hroot & Hrep & Hdv & Hdl).
  pose proof (ni_fs _ _ _ _ _ _ _ Hns) as Hfs. destruct (views_files _ _ _ _ _ (fi_views _ _ _ _ _ Hfs) Hv) as (i & Hi & _).
  destruct (di_inode _ _ (fi_disk _ _ _ _ _ Hfs) _ _ Hi) as (_ & _ & [Hr _] & _).
  pose proof (dw_small _ (di_dev _ _ (fi_disk _ _ _ _ _ Hfs))) as Hsmall.
  eapply runs_mono; [eapply dir_link_run; [done|done|done|lia]|]. intros [e|slot] s' Hl; rewrite Hroot in Hl.
  - destruct Hl as [Hnow He]. destruct (dir_change s s' files V tab rest dv dv) as (files' & Hfs' & Henv & Hu); [done..|].
    rewrite insert_id in Hfs' by done. split_and!; [done|done|done|]. exists files'.
    eapply ns_same; [done|done|]. eapply (drop_frame_root s s' (d + 1)); [by apply same_env_drop|lia|apply Hns].
  - destruct Hl as (Hnone & Hlen & dv' & Hrep' & Hlist & Hnow & Hl' & Hkeep).
    destruct (dir_change s s' files V tab rest dv dv') as (files' & Hfs' & Henv & Hu);
      [done|done|by rewrite (dk_type _ (proj1 Hrep')), (dk_type _ (proj1 Hrep))|done|].
    split_and!; [done..|]. exists files', dv, dv'. split_and!; [done|done|done|congruence|done].
Qed.

Lemma ns_linked s s' files files' V tab tab' rest d dm name ino v dv' :
  ns_inv s files V tab rest d dm → dm !! name = None → V !! ino = Some v → ino ≠ SFS_ROOT_LOCATION →
  dir_rep dv' (<[name := ino]> dm) → af_links dv' ≠ 0 →
  fs_inv s' files' (<[ino := relinked v 1]> (<[SFS_ROOT_LOCATION := dv']> V)) tab' rest →
  (∃ sv, s_pool s' !! d = Some sv ∧ sv_ino sv = SFS_ROOT_LOCATION) →
  ns_inv s' files' (<[ino := relinked v 1]> (<[SFS_ROOT_LOCATION := dv']> V)) tab' rest d (<[name := ino]> dm).
Proof.
  intros Hns Hdm Hv Hne Hrep Hl Hfs Hroot. constructor; [done|done| | |].
  - exists dv'. rewrite lookup_insert_ne by done. by rewrite lookup_insert_eq.
  - intros j w Hw Hj. rewrite nlinks_insert by done. destruct (decide (j = ino)) as [->|Hji].
    + rewrite lookup_insert_eq in Hw. injection Hw as <-. destruct (ni_files _ _ _ _ _ _ _ Hns _ _ Hv Hne). cbn. split; [done|lia].
    + rewrite !lookup_insert_ne in Hw by done. rewrite Z.add_0_r. by apply (ni_files _ _ _ _ _ _ _ Hns).
  - intros n j Hn. destruct (decide (j = ino)) as [->|Hj]; [by rewrite lookup_insert_eq|].
    rewrite lookup_insert_Some in Hn. destruct Hn as [[_ E]|[_ Hn]]; [by destruct Hj|].
    destruct (ni_names _ _ _ _ _ _ _ Hns _ _ Hn). split; [done|]. by rewrite !lookup_insert_ne.
Qed.

(** A link count counts the names of the directory, and is far from its
    limit. *)
Lemma ns_links s files V tab rest d dm ino v :
  ns_inv s files V tab rest d dm → V !! ino = Some v → ino ≠ SFS_ROOT_LOCATION → 0 ≤ af_links v ≤ 1144.
Proof.
  intros Hns Hv Hne. destruct (ni_files _ _ _ _ _ _ _ Hns _ _ Hv Hne) as [_ ->].
  destruct (ni_dir _ _ _ _ _ _ _ Hns) as (dv & _ & Hrep & _). by eapply nlinks_bound.
Qed.

(** The name is entered and the link count of the vnode [p] goes up. *)
Lemma ns_add_link s s1 files files1 V tab rest d dm name p sv v dv' :
  ns_inv s files V tab rest d dm → dm !! name = None → s_pool s !! p = Some sv → V !! sv_ino sv = Some v →
  sv_ino sv ≠ SFS_ROOT_LOCATION → same_env s s1 → s_user s1 = s_user s →
  fs_inv s1 files1 (<[SFS_ROOT_LOCATION := dv']> V) tab rest →
  dir_rep dv' (<[name := sv_ino sv]> dm) → af_links dv' ≠ 0 →
  runs (add_link p 1 true) s1 (λ _ s', same_env s s' ∧ s_user s' = s_user s ∧ ∃ files' V',
    V' = <[sv_ino sv := relinked v 1]> (<[SFS_ROOT_LOCATION := dv']> V) ∧
    ns_inv s' files' V' tab rest d (<[name := sv_ino sv]> dm)).
Proof.
  intros Hns Hnone Hp Hv Hne Henv Hu Hfs1 Hrep Hl. destruct (same_env_pool _ _ _ _ Henv Hp) as (sv1 & Hp1 & _ & _ & _ & _ & Hi1).
  pose proof (ns_links _ _ _ _ _ _ _ _ _ Hns Hv Hne).
  eapply runs_mono; [eapply (add_link_run s1 _ _ _ _ p sv1 v 1); [exact Hfs1|done|rewrite Hi1, lookup_insert_ne; done|lia]|].
  intros [] s2 (files2 & sv2 & Hfs2 & _ & _ & Henv2 & Hu2). rewrite Hi1 in Hfs2.
  assert (Henv' : same_env s s2) by (by etransitivity). assert (Hu' : s_user s2 = s_user s) by congruence.
  split_and!; [done..|]. exists files2. eexists. split; [reflexivity|]. eapply (ns_linked s s2); try done.
  eapply (drop_frame_root s s2 (d + 1)); [by apply same_env_drop|lia|apply Hns].
Qed.

Lemma link_run s files V tab rest d dm name buf p sv v :
  ns_inv s files V tab rest d dm → cstr buf name → s_pool s !! p = Some sv → V !! sv_ino sv = Some v →
  sv_ino sv ≠ SFS_ROOT_LOCATION →
  runs (sfs_link d buf p) s (λ r s', same_env s s' ∧ s_user s' = s_user s ∧
    match r with
    | Ok _ => dm !! name = None ∧ ∃ files' V' dv', V' = <[sv_ino sv := relinked v 1]> (<[SFS_ROOT_LOCATION := dv']> V) ∧
        ns_inv s' files' V' tab rest d (<[name := sv_ino sv]> dm)
    | Err e => link_error dm name e ∧ ∃ files', ns_inv s' files' V tab rest d dm
    end).
Proof.
  intros Hns Hname Hp Hv Hne. unfold sfs_link. apply runs_bind. eapply runs_get_sv; [done|]. apply runs_bindR.
  eapply runs_mono; [by eapply ns_dir_link|]. intros [e|slot] s1 (Henv & Hu & Hl); cbv beta iota; [exact (conj Henv (conj Hu Hl))|].
  destruct Hl as (Hnone & _ & files1 & dv & dv' & _ & Hfs1 & Hrep & Hdl & _). apply runs_bind. eapply runs_mono; [by eapply (ns_add_link s s1)|].
  intros [] s2 (? & ? & files2 & V2 & ? & ?). apply runs_ret. split_and!; [done..|]. by exists files2, V2, dv'.
Qed.

(** ** Dropping references *)

Definition release (O : gmap Z (Z * Z * Z)) (p : Z) : gmap Z (Z * Z * Z) :=
  match O !! p with
  | Some (ino, r, o) => if r =? 1 then delete p O else <[p := (ino, r - 1, o)]> O
  | None => O
  end.

Lemma release_taken O ino p O' : taken O ino p O' → release O' p = O.
Proof.
  intros (r & o & -> & Hp). unfold release. rewrite lookup_insert_eq. destruct (Z.eqb_spec (r + 1) 1).
  - destruct Hp as [[_ ?]|(Hp & _)]; [lia|]. by rewrite delete_insert_eq, delete_id.
  - destruct Hp as [[Hp _]|(_ & ? & _)]; [|lia]. rewrite insert_insert_eq, Z.add_simpl_r. by apply insert_id.
Qed.

(** The references of a vnode just taken tell whether its file was in use. *)
Lemma taken_refs O ino p O' rc oc :
  taken O ino p O' → O' !! p = Some (ino, rc, oc) → (in_use O ino ↔ rc ≠ 1) ∧ (rc = 1 → oc = 0).
Proof.
  intros (r & o & -> & Hp) Hq. rewrite lookup_insert_eq in Hq. injection Hq as <- <-.
  destruct Hp as [[Hp Hr]|(_ & -> & -> & Hno)].
  - split; [|lia]. split; [lia|]. intros _. by exists p, r, o.
  - split; [|done]. split; [done|lia].
Qed.

(** A file without names goes with its last reference. *)
Lemma decref_ns s files V tab rest p sv v :
  fs_inv s files V tab rest → s_pool s !! p = Some sv → V !! sv_ino sv = Some v →
  (vn_refcount sv = 1 → vn_opencount sv = 0) → (af_links v = 0 → af_type v = SFS_TYPE_FILE) →
  runs (vnode_decref p) s (λ _ s', drop_frame s s' p ∧ vnodes s' = release (vnodes s) p ∧
    ∃ files' tab', fs_inv s' files' (if vn_refcount sv =? 1 then after_drop V (sv_ino sv) v else V) tab' rest).
Proof.
  intros Hfs Hp Hv Hoc Hty. eapply runs_mono; [by eapply decref_run|]. intros [] s' (Hfr & Hs').
  split; [done|]. unfold release. rewrite (vnodes_lookup _ _ _ Hp). unfold seen at 1. cbv iota.
  destruct (decide (vn_refcount sv = 1)) as [E|E].
  - rewrite E. cbn [Z.eqb Pos.eqb]. destruct Hs' as (Hnone & files' & tab' & Hfs' & _).
    split; [by apply vnodes_dropped|]. by exists files', tab'.
  - rewrite (proj2 (Z.eqb_neq _ _)) by done. destruct Hs' as (Hsome & Hfs').
    split; [rewrite (vnodes_kept _ _ _ _ Hfr Hsome); done|]. by exists files, tab.
Qed.

(** ** Removing *)

(** The files after the name of [ino] is gone: the file itself goes with
    its last name, unless it is in use. *)
Definition removed (O : gmap Z (Z * Z * Z)) (V : gmap Z afile) (ino : Z) (v dv' : afile) (V' : gmap Z afile) : Prop :=
  af_links v = 1 ∧ ¬ in_use O ino ∧ V' = delete ino (<[SFS_ROOT_LOCATION := dv']> V) ∨
  (af_links v ≠ 1 ∨ in_use O ino) ∧ V' = <[ino := relinked v (-1)]> (<[SFS_ROOT_LOCATION := dv']> V).

Lemma ns_removed s s' files' V V' tab tab' rest files d dm name ino v dv' :
  ns_inv s files V tab rest d dm → dm !! name = Some ino → V !! ino = Some v →
  dir_rep dv' (delete name dm) → af_links dv' ≠ 0 →
  fs_inv s' files' V' tab' rest → (∃ sv, s_pool s' !! d = Some sv ∧ sv_ino sv = SFS_ROOT_LOCATION) →
  (V' = delete ino (<[SFS_ROOT_LOCATION := dv']> V) ∧ af_links v = 1 ∨
   V' = <[ino := relinked v (-1)]> (<[SFS_ROOT_LOCATION := dv']> V)) →
  ns_inv s' files' V' tab' rest d (delete name dm).
Proof.
  intros Hns Hdm Hv Hrep Hl Hfs Hroot HV'. destruct (ni_names _ _ _ _ _ _ _ Hns _ _ Hdm) as [Hne _].
  destruct (ni_files _ _ _ _ _ _ _ Hns _ _ Hv Hne) as [Hty Hlinks].
  assert (Hother : ∀ j, j ≠ ino → V' !! j = <[SFS_ROOT_LOCATION := dv']> V !! j).
  { intros j Hj. destruct HV' as [[-> _]| ->]; [by rewrite lookup_delete_ne|by rewrite lookup_insert_ne]. }
  constructor; [done|done| | |].
  - exists dv'. rewrite Hother by done. by rewrite lookup_insert_eq.
  - intros j w Hw Hj. rewrite (nlinks_delete _ _ _ _ Hdm). destruct (decide (j = ino)) as [->|Hji].
    + destruct HV' as [[-> _]| ->]; [by rewrite lookup_delete_eq in Hw|]. rewrite lookup_insert_eq in Hw.
      injection Hw as <-. cbn. split; [done|lia].
    + rewrite Hother, lookup_insert_ne in Hw by done. rewrite Z.sub_0_r. by apply (ni_files _ _ _ _ _ _ _ Hns).
  - intros n j Hn. pose proof (nlinks_pos _ _ _ Hn) as Hpos. apply lookup_delete_Some in Hn as [Hnn Hn].
    destruct (ni_names _ _ _ _ _ _ _ Hns _ _ Hn) as [? Hsome]. split; [done|].
    destruct (decide (j = ino)) as [->|]; [|by rewrite Hother, lookup_insert_ne].
    rewrite (nlinks_delete _ _ _ _ Hdm), decide_True in Hpos by done.
    destruct HV' as [[_ E]| ->]; [lia|by rewrite lookup_insert_eq].
Qed.

Lemma ns_dir_unlink s files V tab rest d dm name ino slot dv :
  ns_inv s files V tab rest d dm → V !! SFS_ROOT_LOCATION = Some dv → listed dv name ino slot →
  runs (sfs_dir_unlink d slot) s (λ r s', r = Ok tt ∧ same_env s s' ∧ s_user s' = s_user s ∧ ∃ files' dv',
    fs_inv s' files' (<[SFS_ROOT_LOCATION := dv']> V) tab rest ∧ dir_rep dv' (delete name dm) ∧ af_links dv' ≠ 0).
Proof.
  intros Hns Hdv Hlist. destruct (ns_at_dir _ _ _ _ _ _ _ Hns) as (dsv & dv0 & Hd & Hroot & Hrep & Hdv0 & Hdl).
  assert (dv0 = dv) as -> by congruence.
  eapply runs_mono; [by eapply dir_unlink_run|]. intros [?|[]] s' Hu; [done|].
  destruct Hu as (dv' & Hrep' & Hnow & Hdl' & _). rewrite Hroot in Hnow.
  destruct (dir_change s s' files V tab rest dv dv') as (files' & Hfs' & Henv & Hu);
    [apply Hns|done|by rewrite (dk_type _ (proj1 Hrep')), (dk_type _ (proj1 Hrep))|done|].
  split_and!; [done..|]. exists files', dv'. split_and!; [done|done|congruence].
Qed.

(** The name is gone from the directory: the link count of [p] goes down
    and then the reference to it is dropped. *)
Lemma ns_drop_link s s1 files files1 V tab rest d dm name p sv v dv' :
  ns_inv s files V tab rest d dm → dm !! name = Some (sv_ino sv) → s_pool s !! p = Some sv →
  V !! sv_ino sv = Some v → p ≠ d → (vn_refcount sv = 1 → vn_opencount sv = 0) →
  same_env s s1 → s_user s1 = s_user s → fs_inv s1 files1 (<[SFS_ROOT_LOCATION := dv']> V) tab rest →
  dir_rep dv' (delete name dm) → af_links dv' ≠ 0 →
  (∃ sv1, s_pool s1 !! p = Some sv1 ∧ (sfi_linkcount (sv_i sv1) >? 0) = true) ∧
  runs (add_link p (-1) true) s1 (λ _ s2, runs (vnode_decref p) s2 (λ _ s3,
    s_user s3 = s_user s ∧ vnodes s3 = release (vnodes s) p ∧ ∃ files' V' tab',
    ns_inv s3 files' V' tab' rest d (delete name dm) ∧
    V' = if (af_links v =? 1) && (vn_refcount sv =? 1) then delete (sv_ino sv) (<[SFS_ROOT_LOCATION := dv']> V)
         else <[sv_ino sv := relinked v (-1)]> (<[SFS_ROOT_LOCATION := dv']> V))).
Proof.
  intros Hns Hdm Hp Hv Hpd Hoc Henv Hu Hfs1 Hrep Hl. destruct (ni_names _ _ _ _ _ _ _ Hns _ _ Hdm) as [Hne _].
  destruct (ni_files _ _ _ _ _ _ _ Hns _ _ Hv Hne) as [Hty Hlinks]. pose proof (nlinks_pos _ _ _ Hdm) as Hpos.
  pose proof (ns_links _ _ _ _ _ _ _ _ _ Hns Hv Hne).
  destruct (same_env_pool _ _ _ _ Henv Hp) as (sv1 & Hp1 & Hr1 & Ho1 & _ & _ & Hi1).
  assert (Hv1 : <[SFS_ROOT_LOCATION := dv']> V !! sv_ino sv1 = Some v) by (rewrite Hi1, lookup_insert_ne; done).
  destruct (views_lookup _ _ _ _ _ (fi_views _ _ _ _ _ Hfs1) (di_loaded _ _ (fi_disk _ _ _ _ _ Hfs1) _ _ Hp1))
    as (v' & Hv' & _ & _ & Hlk & _). assert (v' = v) as -> by congruence.
  split; [exists sv1; split; [done|apply Z.gtb_lt; lia]|].
  eapply runs_mono; [eapply (add_link_run s1); [exact Hfs1|exact Hp1|exact Hv1|lia]|].
  intros [] s2 (files2 & sv2 & Hfs2 & Hp2 & (Hr2 & Ho2 & _ & _ & Hi2) & Henv2 & Hu2). rewrite Hi1 in Hi2, Hfs2.
  eapply runs_mono; [eapply (decref_ns s2); [exact Hfs2|exact Hp2|rewrite Hi2; apply lookup_insert_eq| |done]|].
  { intros E. rewrite Ho2, Ho1. apply Hoc. congruence. }
  intros [] s3 (Hfr3 & Hvn & files3 & tab3 & Hfs3).
  assert (Hfr : drop_frame s s3 p).
  { eapply drop_frame_trans; [by apply same_env_drop|]. eapply drop_frame_trans; [by apply (same_env_drop s1 s2)|done]. }
  split_and!; [apply Hfr|by rewrite Hvn, (vnodes_env _ _ Henv2), (vnodes_env _ _ Henv)|].
  eexists files3, _, tab3. split; [|reflexivity]. rewrite Hi2 in Hfs3.
  eapply (ns_removed s s3); [exact Hns|done|done|exact Hrep|done| | |].
  - replace (if _ && _ then _ else _) with (if vn_refcount sv2 =? 1
      then after_drop (<[sv_ino sv := relinked v (-1)]> (<[SFS_ROOT_LOCATION := dv']> V)) (sv_ino sv) (relinked v (-1))
      else <[sv_ino sv := relinked v (-1)]> (<[SFS_ROOT_LOCATION := dv']> V)); [done|].
    rewrite Hr2, Hr1. unfold after_drop. cbn [af_links relinked]. rewrite delete_insert_eq.
    destruct (Z.eqb_spec (vn_refcount sv) 1), (Z.eqb_spec (af_links v) 1), (Z.eqb_spec (af_links v + -1) 0); done || lia.
  - eapply drop_frame_root; [exact Hfr|congruence|apply Hns].
  - destruct (Z.eqb_spec (af_links v) 1), (vn_refcount sv =? 1); cbn [andb]; auto.
Qed.

Lemma remove_run s files V tab rest d dm name buf :
  ns_inv s files V tab rest d dm → cstr buf name →
  runs (sfs_remove d buf) s (λ r s', s_user s' = s_user s ∧ vnodes s' = vnodes s ∧
    match r with
    | Ok _ => ∃ ino v dv' files' V' tab', dm !! name = Some ino ∧ V !! ino = Some v ∧
        removed (vnodes s) V ino v dv' V' ∧ ns_inv s' files' V' tab' rest d (delete name dm)
    | Err e => (e = ENOENT ∧ dm !! name = None ∨ e = ENOMEM) ∧ ns_inv s' files V tab rest d dm
    end).
Proof.
  intros Hns Hname. unfold sfs_remove. apply runs_bindR. eapply runs_mono; [by eapply lookonce_run|].
  intros [e|[p slot]] s1 Hlk; cbv beta iota.
  { destruct Hlk as (? & ? & Hfr). split_and!; [apply (Hfr 0)|by apply vnodes_load|done..]. }
  destruct Hlk as (ino & tab1 & sv1 & dv & Hdm & Hns1 & Hp1 & Hino & Htaken & Hdv & Hlist & Hpd & Hfr1).
  destruct (ni_names _ _ _ _ _ _ _ Hns _ _ Hdm) as [Hne [v Hv]]. subst ino.
  destruct (taken_refs _ _ _ _ _ _ Htaken (vnodes_lookup _ _ _ Hp1)) as [Huse Hoc].
  apply runs_bind. eapply runs_mono; [by eapply (ns_dir_unlink s1)|].
  intros r s2 (-> & Henv2 & Hu2 & files2 & dv' & Hfs2 & Hrep & Hdl).
  destruct (ns_drop_link s1 s2 files files2 V tab1 rest d dm name p sv1 v dv') as [(sv2 & Hp2 & Hpos) Hdrop]; try done.
  cbv beta iota. apply runs_bind, runs_bind. eapply runs_get_sv; [exact Hp2|]. apply runs_bind, runs_assert; [done|].
  eapply runs_mono; [exact Hdrop|]. intros [] s3 Hdec. apply runs_bind. eapply runs_mono; [exact Hdec|].
  intros [] s4 (Hu4 & Hvn4 & files4 & V4 & tab4 & Hns4 & HV4). apply runs_ret.
  split_and!; [rewrite Hu4; apply Hfr1|by rewrite Hvn4, (release_taken _ _ _ _ Htaken)|].
  exists (sv_ino sv1), v, dv', files4, V4, tab4. split_and!; [done|done| |done]. rewrite HV4. unfold removed.
  destruct (Z.eqb_spec (af_links v) 1) as [E|E], (Z.eqb_spec (vn_refcount sv1) 1) as [E2|E2]; cbn [andb].
  - left. split_and!; [done| |done]. rewrite Huse. lia.
  - right. split; [|done]. right. by rewrite Huse.
  - right. split; [by left|done].
  - right. split; [by left|done].
Qed.

(** ** Renaming *)

Lemma relinked_back v : relinked (relinked v 1) (-1) = v.
Proof. destruct v as [sz ty n b]. unfold relinked. cbn. f_equal. lia. Qed.

(** Dropping a reference to a file that has a name changes no file. *)
Lemma ns_put_back s s0 files V tab rest d dm p sv v :
  ns_inv s files V tab rest d dm → s_pool s !! p = Some sv → V !! sv_ino sv = Some v → af_links v ≠ 0 → p ≠ d →
  (vn_refcount sv = 1 → vn_opencount sv = 0) → taken (vnodes s0) (sv_ino sv) p (vnodes s) →
  runs (vnode_decref p) s (λ _ s', s_user s' = s_user s ∧ vnodes s' = vnodes s0 ∧
    ∃ files' tab', ns_inv s' files' V tab' rest d dm).
Proof.
  intros Hns Hp Hv Hl Hpd Hoc Htaken. pose proof (ni_fs _ _ _ _ _ _ _ Hns) as Hfs.
  eapply runs_mono; [eapply decref_ns; [exact Hfs|exact Hp|exact Hv|done|done]|].
  intros [] s' (Hfr & Hvn & files' & tab' & Hfs'). split; [apply Hfr|]. split; [by rewrite Hvn, (release_taken _ _ _ _ Htaken)|].
  unfold after_drop in Hfs'. rewrite (proj2 (Z.eqb_neq _ _) Hl) in Hfs'.
  exists files', tab'. destruct (vn_refcount sv =? 1); (eapply ns_same; [exact Hns|exact Hfs'|]);
    (eapply drop_frame_root; [exact Hfr|congruence|apply Hns]).
Qed.

Lemma renamed_files (V : gmap Z afile) ino v dv' dv'' :
  V !! ino = Some v → ino ≠ SFS_ROOT_LOCATION →
  <[ino := relinked (relinked v 1) (-1)]>
    (<[SFS_ROOT_LOCATION := dv'']> (<[ino := relinked v 1]> (<[SFS_ROOT_LOCATION := dv']> V))) =
  <[SFS_ROOT_LOCATION := dv'']> V.
Proof.
  intros Hv Hne. rewrite relinked_back. apply map_eq. intros j.
  destruct (decide (j = ino)) as [->|Hj]; [by rewrite lookup_insert_eq, lookup_insert_ne|].
  rewrite lookup_insert_ne by done. destruct (decide (j = SFS_ROOT_LOCATION)) as [->|Hr]; [by rewrite !lookup_insert_eq|].
  by rewrite !lookup_insert_ne.
Qed.

Lemma rename_run s files V tab rest d dm n1 b1 n2 b2 :
  ns_inv s files V tab rest d dm → cstr b1 n1 → cstr b2 n2 →
  runs (sfs_rename d b1 d b2) s (λ r s', s_user s' = s_user s ∧ vnodes s' = vnodes s ∧
    match r with
    | Ok _ => ∃ ino dv' files' tab', dm !! n1 = Some ino ∧ dm !! n2 = None ∧
        ns_inv s' files' (<[SFS_ROOT_LOCATION := dv']> V) tab' rest d (delete n1 (<[n2 := ino]> dm))
    | Err e => (e = ENOENT ∧ dm !! n1 = None ∨ e = ENOMEM ∨ is_Some (dm !! n1) ∧ link_error dm n2 e) ∧
        ∃ files' tab', ns_inv s' files' V tab' rest d dm
    end).
Proof.
  intros Hns Hn1 Hn2. unfold sfs_rename. apply runs_bind, runs_assert; [apply Z.eqb_refl|].
  destruct (ni_root _ _ _ _ _ _ _ Hns) as (dsv & Hd & Hroot). apply runs_bind. eapply runs_get_sv; [done|].
  apply runs_bind, runs_assert; [by apply Z.eqb_eq|]. apply runs_bindR. eapply runs_mono; [by eapply lookonce_run|].
  intros [e|[p slot]] s1 Hlk; cbv beta iota.
  { destruct Hlk as (? & He & Hfr). split_and!; [apply (Hfr 0)|by apply vnodes_load|tauto|by eexists _, _]. }
  destruct Hlk as (ino & tab1 & sv1 & dv & Hdm & Hns1 & Hp1 & Hino & Htaken & Hdv & Hlist & Hpd & Hfr1).
  destruct (ni_names _ _ _ _ _ _ _ Hns _ _ Hdm) as [Hne [v Hv]]. subst ino.
  destruct (ni_files _ _ _ _ _ _ _ Hns _ _ Hv Hne) as [Hty Hlinks]. pose proof (nlinks_pos _ _ _ Hdm) as Hpos.
  destruct (taken_refs _ _ _ _ _ _ Htaken (vnodes_lookup _ _ _ Hp1)) as [_ Hoc].
  pose proof (ni_fs _ _ _ _ _ _ _ Hns1) as Hfs1.
  destruct (views_lookup _ _ _ _ _ (fi_views _ _ _ _ _ Hfs1) (di_loaded _ _ (fi_disk _ _ _ _ _ Hfs1) _ _ Hp1))
    as (v' & Hv' & _ & Ht & _). assert (v' = v) as -> by congruence.
  apply runs_bind. eapply runs_get_sv; [exact Hp1|]. apply runs_bind, runs_assert; [apply Z.eqb_eq; congruence|].
  apply runs_bind. eapply runs_mono; [by eapply (ns_dir_link s1)|]. intros [e|slot2] s2 (Henv2 & Hu2 & Hl); cbv beta iota.
  { destruct Hl as (He & files2 & Hns2). destruct (same_env_pool _ _ _ _ Henv2 Hp1) as (sv2 & Hp2 & Hr2 & Ho2 & _ & _ & Hi2).
    apply runs_bind. eapply runs_mono.
    { apply (ns_put_back s2 s files2 V tab1 rest d dm p sv2 v); [done|done|by rewrite Hi2|lia|done| |].
      - rewrite Hr2, Ho2. exact Hoc.
      - rewrite Hi2, (vnodes_env _ _ Henv2). exact Htaken. }
    intros [] s3 (Hu3 & Hvn & files3 & tab3 & Hns3). apply runs_ret.
    split_and!; [rewrite Hu3, Hu2; apply Hfr1|done|right; right; by rewrite Hdm|by exists files3, tab3]. }
  destruct Hl as (Hnone & _ & files2 & dv0 & dv' & Hdv0 & Hfs2 & Hrep2 & Hdl2 & Hkeep). assert (dv0 = dv) as -> by congruence.
  apply runs_bind. eapply runs_mono; [by eapply (ns_add_link s1 s2)|].
  intros [] s3 (Henv3 & Hu3 & files3 & V3 & HV3 & Hns3).
  destruct (same_env_pool _ _ _ _ Henv3 Hp1) as (sv3 & Hp3 & Hr3 & Ho3 & _ & _ & Hi3).
  apply runs_bind. eapply runs_mono; [eapply (ns_dir_unlink s3 _ _ _ _ _ _ n1); [exact Hns3| |by apply Hkeep]|].
  { rewrite HV3, lookup_insert_ne by done. apply lookup_insert_eq. }
  intros r s4 (-> & Henv4 & Hu4 & files4 & dv'' & Hfs4 & Hrep4 & Hdl4).
  destruct (ns_drop_link s3 s4 files3 files4 V3 tab1 rest d (<[n2 := sv_ino sv1]> dm) n1 p sv3 (relinked v 1) dv'')
    as [(sv4 & Hp4 & Hgt) Hdrop]; [done| |done| |done| |done..|].
  { rewrite Hi3, lookup_insert_ne by congruence. done. }
  { rewrite Hi3, HV3. apply lookup_insert_eq. }
  { rewrite Hr3, Ho3. exact Hoc. }
  cbv beta iota. apply runs_bind. eapply runs_get_sv; [exact Hp4|]. apply runs_bind, runs_assert; [done|].
  apply runs_bind. eapply runs_mono; [exact Hdrop|]. intros [] s5 Hdec. apply runs_bind. eapply runs_mono; [exact Hdec|].
  intros [] s6 (Hu6 & Hvn6 & files6 & V6 & tab6 & Hns6 & HV6). apply runs_ret.
  split_and!; [rewrite Hu6, Hu3; apply Hfr1|by rewrite Hvn6, (vnodes_env _ _ Henv3), (release_taken _ _ _ _ Htaken)|].
  exists (sv_ino sv1), dv'', files6, tab6. split_and!; [done|done|].
  cbn [af_links relinked] in HV6. rewrite (proj2 (Z.eqb_neq (af_links v + 1) 1)) in HV6 by lia. cbn [andb] in HV6.
  rewrite Hi3, HV3, renamed_files in HV6 by done. by rewrite <- HV6.
Qed.

(** ** Creating *)

Lemma ns_names_fresh s files V tab rest d dm ino :
  ns_inv s files V tab rest d dm → V !! ino = None → nlinks dm ino = 0 ∧ ino ≠ SFS_ROOT_LOCATION.
Proof.
  intros Hns Hino. split.
  - unfold nlinks. rewrite map_empty_filter_2; [by rewrite map_size_empty|].
    intros nm j Hnm. cbn. intros ->. destruct (ni_names _ _ _ _ _ _ _ Hns _ _ Hnm) as [_ [? ?]]. congruence.
  - intros ->. destruct (ni_dir _ _ _ _ _ _ _ Hns) as (? & ? & _). congruence.
Qed.

(** The new file is there and has no name yet. *)
Lemma ns_made s s' files files' V tab tab' rest d dm ino p :
  ns_inv s files V tab rest d dm → V !! ino = None → fs_inv s' files' (<[ino := new_file]> V) tab' rest →
  load_frame s s' p → p ≠ d → ns_inv s' files' (<[ino := new_file]> V) tab' rest d dm.
Proof.
  intros Hns Hnone Hfs Hfr Hpd. destruct (ns_names_fresh _ _ _ _ _ _ _ _ Hns Hnone) as [H0' Hne]. constructor; [done| | | |].
  - eapply drop_frame_root; [by apply load_drop_frame|congruence|apply Hns].
  - rewrite lookup_insert_ne by done. apply Hns.
  - intros j w [[<- <-]|[_ Hw]]%lookup_insert_Some Hj; [by rewrite H0'|]. by apply (ni_files _ _ _ _ _ _ _ Hns).
  - intros nm j Hnm. destruct (ni_names _ _ _ _ _ _ _ Hns _ _ Hnm) as [? [w Hw]]. split; [done|].
    rewrite lookup_insert_ne by congruence. eauto.
Qed.

(** A file that has no name goes. *)
Lemma ns_erased s s' files files' V tab tab' rest d dm ino v :
  ns_inv s files V tab rest d dm → V !! ino = Some v → ino ≠ SFS_ROOT_LOCATION → af_links v = 0 →
  fs_inv s' files' (delete ino V) tab' rest →
  (∃ sv, s_pool s' !! d = Some sv ∧ sv_ino sv = SFS_ROOT_LOCATION) → ns_inv s' files' (delete ino V) tab' rest d dm.
Proof.
  intros Hns Hv Hne Hl Hfs Hd. destruct (ni_files _ _ _ _ _ _ _ Hns _ _ Hv Hne) as [_ Hlinks]. constructor; [done|done| | |].
  - rewrite lookup_delete_ne by done. apply Hns.
  - intros j w [_ Hw]%lookup_delete_Some. by apply (ni_files _ _ _ _ _ _ _ Hns).
  - intros nm j Hnm. pose proof (nlinks_pos _ _ _ Hnm). destruct (ni_names _ _ _ _ _ _ _ Hns _ _ Hnm) as [? ?].
    split; [done|]. rewrite lookup_delete_ne; [done|]. intros ->. lia.
Qed.

(** What sfs_creat does when the name is new. *)
Lemma creat_new_run s files V tab rest d dm name buf :
  ns_inv s files V tab rest d dm → cstr buf name → dm !! name = None →
  runs (newguy ←? sfs_makeobj SFS_TYPE_FILE;
        sv ← get_sv newguy;
        r ← sfs_dir_link d buf (sv_ino sv);
        match r with
        | Err e => vnode_decref newguy;; mret (Err e)
        | Ok _ => add_link newguy 1 true;; mret (Ok newguy)
        end) s (λ r s', s_user s' = s_user s ∧
    match r with
    | Ok p => ∃ ino dv' files' tab', V !! ino = None ∧ taken (vnodes s) ino p (vnodes s') ∧
        ns_inv s' files' (<[ino := relinked new_file 1]> (<[SFS_ROOT_LOCATION := dv']> V)) tab' rest d (<[name := ino]> dm)
    | Err e => (e = ENOMEM ∨ e = ENOSPC ∨ link_error dm name e) ∧ vnodes s' = vnodes s ∧
        ∃ files' tab', ns_inv s' files' V tab' rest d dm
    end).
Proof.
  intros Hns Hname Hnone. pose proof (ni_fs _ _ _ _ _ _ _ Hns) as Hfs. apply runs_bindR.
  eapply runs_mono; [eapply makeobj_run; [exact Hfs|by eapply tab_bound]|]. intros [e|p] s1 Hmk; cbv beta iota.
  { destruct Hmk as (He & Hfs1 & Hfr). split_and!; [apply (Hfr 0)|tauto|by apply vnodes_load|]. exists files, tab.
    eapply ns_same; [exact Hns|exact Hfs1|]. eapply drop_frame_root; [apply load_drop_frame, (Hfr (d + 1))|lia|apply Hns]. }
  destruct Hmk as (ino & tab1 & sv & files1 & Hino & Hr & Hfs1 & _ & Hp1 & Hp & Hi & Hrc & Hoc & Hfr). subst ino.
  destruct (ns_names_fresh _ _ _ _ _ _ _ _ Hns Hino) as [Hl0 Hne].
  assert (Hpd : p ≠ d). { intros ->. destruct (ni_root _ _ _ _ _ _ _ Hns) as (? & ? & _). congruence. }
  pose proof (ns_made _ _ _ _ _ _ _ _ _ _ _ _ Hns Hino Hfs1 Hfr Hpd) as Hns1.
  assert (Htaken : taken (vnodes s) (sv_ino sv) p (vnodes s1)).
  { eapply load_taken; [exact Hfs|exact Hfs1|exact Hfr|exact Hp1|done| |done|congruence]. unfold refs. by rewrite Hp. }
  apply runs_bind. eapply runs_get_sv; [exact Hp1|]. apply runs_bind.
  eapply runs_mono; [eapply (ns_dir_link s1); [exact Hns1|exact Hname|by rewrite lookup_insert_eq]|].
  intros [e|slot] s2 (Henv2 & Hu2 & Hl); cbv beta iota.
  - destruct Hl as (He & files2 & Hns2). destruct (same_env_pool _ _ _ _ Henv2 Hp1) as (sv2 & Hp2 & Hr2 & Ho2 & _ & _ & Hi2).
    apply runs_bind. eapply runs_mono.
    { eapply (decref_ns s2); [apply Hns2|exact Hp2|rewrite Hi2; apply lookup_insert_eq|congruence|done]. }
    intros [] s3 (Hfr3 & Hvn3 & files3 & tab3 & Hfs3). apply runs_ret.
    rewrite Hr2, Hrc, Hi2 in Hfs3. change (1 =? 1) with true in Hfs3. unfold after_drop in Hfs3.
    change (af_links new_file =? 0) with true in Hfs3. cbv iota in Hfs3. split_and!.
    + rewrite (df_user _ _ _ Hfr3), Hu2. apply Hfr.
    + tauto.
    + by rewrite Hvn3, (vnodes_env _ _ Henv2), (release_taken _ _ _ _ Htaken).
    + exists files3, tab3. pose proof (ns_erased s2 s3 files2 files3 _ tab1 tab3 rest d dm _ _ Hns2 (lookup_insert_eq _ _ _)) as Hns3.
      rewrite delete_insert_id in Hns3, Hfs3 by done. apply Hns3; [done|done|done|].
      eapply drop_frame_root; [exact Hfr3|congruence|apply Hns2].
  - destruct Hl as (_ & _ & files2 & dv & dv' & _ & Hfs2 & Hrep & Hdl & _). apply runs_bind.
    eapply runs_mono; [eapply (ns_add_link s1 s2); [exact Hns1|done|exact Hp1|apply lookup_insert_eq|done..]|].
    intros [] s3 (Henv3 & Hu3 & files3 & V3 & -> & Hns3). apply runs_ret. split; [rewrite Hu3; apply Hfr|].
    exists (sv_ino sv), dv', files3, tab1. split_and!; [done|by rewrite (vnodes_env _ _ Henv3)|].
    rewrite (insert_insert_ne V), insert_insert_eq in Hns3 by done. exact Hns3.
Qed.

Lemma creat_run s files V tab rest d dm name buf excl :
  ns_inv s files V tab rest d dm → cstr buf name →
  runs (sfs_creat d buf excl) s (λ r s', s_user s' = s_user s ∧
    match r, dm !! name with
    | Ok p, Some ino => excl = false ∧ taken (vnodes s) ino p (vnodes s') ∧
        ∃ tab', ns_inv s' files V tab' rest d dm
    | Ok p, None => ∃ ino dv' files' tab', V !! ino = None ∧ taken (vnodes s) ino p (vnodes s') ∧
        ns_inv s' files' (<[ino := relinked new_file 1]> (<[SFS_ROOT_LOCATION := dv']> V)) tab' rest d (<[name := ino]> dm)
    | Err e, old => (e = EEXIST ∧ is_Some old ∧ excl = true ∨ e = ENOMEM ∨ e = ENOSPC ∧ old = None ∨ old = None ∧ link_error dm name e) ∧
        vnodes s' = vnodes s ∧ ∃ files' tab', ns_inv s' files' V tab' rest d dm
    end).
Proof.
  intros Hns Hname. destruct (ns_at_dir _ _ _ _ _ _ _ Hns) as (dsv & dv & Hd & Hroot & Hrep & Hdv & Hl).
  unfold sfs_creat. apply runs_bind. eapply runs_mono; [by eapply findname_run|].
  intros [r f] s1 (Hr & _ & Hf). pose proof (ns_reread _ _ _ _ _ _ _ _ _ Hr Hns) as Hns1.
  pose proof (vnodes_env s s1 (reread_env _ _ _ Hr)) as Hvn1. pose proof (proj2 (reread_pool _ _ _ Hr)) as Hu1.
  destruct (dm !! name) as [ino|] eqn:Edm; cycle 1.
  - destruct Hf as [-> _]. cbn [Z.eqb Pos.eqb negb andb ENOENT]. eapply runs_mono; [by eapply creat_new_run|].
    intros [e|p] s2 (Hu2 & H2'); rewrite Hvn1 in H2'; (split; [congruence|]); [|done].
    destruct H2' as (He & ? & ?). split; [tauto|done].
  - destruct Hf as (-> & slot & -> & _). cbn [Z.eqb negb andb]. destruct excl.
    { apply runs_ret. split; [done|]. split; [by left|]. split; [done|]. by exists files, tab. }
    apply runs_bind. eapply runs_deref; [done|]. cbv beta iota.
    destruct (ni_names _ _ _ _ _ _ _ Hns1 _ _ Edm) as [Hne [v Hv]]. pose proof (ni_fs _ _ _ _ _ _ _ Hns1) as Hfs1.
    eapply runs_mono; [eapply loadvnode_run; [exact Hfs1|exact Hv|by eapply tab_bound]|].
    intros [e|p] s2 Hp.
    + destruct Hp as (-> & Hfs2 & Hfr). split; [rewrite (lf_user _ _ _ (Hfr 0)); done|]. split; [tauto|].
      split; [by rewrite (vnodes_load _ _ Hfr)|]. exists files, tab. eapply ns_same; [exact Hns1|done|].
      eapply drop_frame_root; [apply load_drop_frame, (Hfr (d + 1))|lia|apply Hns1].
    + destruct Hp as (tab' & sv & Hfs2 & _ & Hp & Hino & Hrc & Hoc & Hold & Hfr).
      split; [rewrite (lf_user _ _ _ Hfr); done|]. split; [done|]. split.
      { rewrite <- Hvn1. eapply load_taken; [exact Hfs1|exact Hfs2|done..]. }
      exists tab'. eapply ns_same; [exact Hns1|done|]. eapply drop_frame_root; [by apply load_drop_frame| |apply Hns1].
      intros ->. destruct (ni_root _ _ _ _ _ _ _ Hns1) as (sv0 & Hsv0 & Hi0). destruct (Hold _ Hsv0). congruence.
Qed.

(** ** Looking up a path *)

Lemma lookup_run s files V tab rest d dm name buf :
  ns_inv s files V tab rest d dm → cstr buf name →
  runs (sfs_lookup d buf) s (λ r s', s_user s' = s_user s ∧
    match r with
    | Ok p => ∃ ino tab', dm !! name = Some ino ∧ taken (vnodes s) ino p (vnodes s') ∧
        ns_inv s' files V tab' rest d dm
    | Err e => (e = ENOENT ∧ dm !! name = None ∨ e = ENOMEM) ∧ vnodes s' = vnodes s ∧ ns_inv s' files V tab rest d dm
    end).
Proof.
  intros Hns Hname. destruct (ns_at_dir _ _ _ _ _ _ _ Hns) as (dsv & dv & Hd & Hroot & Hrep & Hdv & _).
  pose proof Hd as [Hinv HV Hp Hv]. destruct (views_lookup _ _ _ _ _ HV (di_loaded _ _ Hinv _ _ Hp)) as (v' & Hv' & _ & Hty & _).
  assert (v' = dv) as -> by congruence. unfold sfs_lookup. apply runs_bind. eapply runs_get_sv; [exact Hp|].
  rewrite <- Hty, (dk_type _ (proj1 Hrep)). cbn [Z.eqb Pos.eqb negb SFS_TYPE_DIR]. apply runs_bindR.
  eapply runs_mono; [by eapply lookonce_run|]. intros [e|[p slot]] s1 Hlk; cbv beta iota.
  - destruct Hlk as (? & ? & Hfr). split_and!; [apply (Hfr 0)|done|by apply vnodes_load|done].
  - destruct Hlk as (ino & tab1 & sv1 & dv0 & ? & ? & _ & _ & ? & _ & _ & _ & Hfr). apply runs_ret.
    split; [apply Hfr|]. by exists ino, tab1.
Qed.
End Names.
