(* ===== verification/SfsSystem.v ===== *)
(** * SFS as an abstract file system

    The promise of the file system to its clients: files are byte sequences
    with a length, names are a finite map, vnodes carry reference counts,
    and each call is a step on these.  A client is a tree of calls, so that
    what it does may depend on the vnodes and codes it got; every client
    that keeps to the preconditions runs to its end, and what it sees are
    steps of the abstract file system. *)

From S2P Require Import Prelude Ram Kheap KheapSpec KArray Bitmap Bytes Mem CString Uio Device Sfs SfsOps SfsSpec SfsFile SfsWrite SfsDir SfsTrunc SfsVnode SfsReclaim SfsName.

(** ** The abstract file system *)

Record afs := AFs {
  fs_files : gmap Z afile;              (* the regular files, by inode *)
  fs_names : gmap (list Z) Z;           (* the root directory *)
  fs_vnodes : gmap Z (Z * Z * Z);       (* inode, references, opens *)
  fs_mem : uenv;                        (* the client's memory *)
}.

Definition with_files (F : gmap Z afile) (a : afs) : afs := AFs F (fs_names a) (fs_vnodes a) (fs_mem a).
Definition with_vnodes (O : gmap Z (Z * Z * Z)) (a : afs) : afs := AFs (fs_files a) (fs_names a) O (fs_mem a).

(** The calls of a client; names are the buffers they are passed in. *)
Inductive fsop :=
  | Lookup (path : list Z)
  | Creat (name : list Z) (excl : bool)
  | Link (name : list Z) (p : Z)
  | Remove (name : list Z)
  | Rename (n1 n2 : list Z)
  | Read (p : Z) (u : uio)
  | Write (p : Z) (u : uio)
  | Truncate (p len : Z)
  | Fsync (p : Z)
  | Incref (p : Z)
  | Incopen (p : Z)
  | Decopen (p : Z)
  | Decref (p : Z).

Inductive fsres :=
  | RVnode (r : res Z)
  | RUnit (r : res unit)
  | RIo (r : Z * uio).

(** The file behind a vnode. *)
Definition file_of (a : afs) (p : Z) : option (Z * afile) :=
  '(ino, _, _) ← fs_vnodes a !! p; v ← fs_files a !! ino; Some (ino, v).

Lemma file_of_insert a p ino v v' :
  file_of a p = Some (ino, v) → file_of (with_files (<[ino := v']> (fs_files a)) a) p = Some (ino, v').
Proof.
  unfold file_of. cbn [fs_vnodes fs_files with_files]. destruct (fs_vnodes a !! p) as [[[i r] o]|]; [|done]. cbn.
  destruct (fs_files a !! i); [|done]. intros [= -> _]. by rewrite lookup_insert_eq.
Qed.

(** What a caller must see to. *)
Definition allowed_call (d : Z) (a : afs) (op : fsop) : Prop :=
  match op with
  | Lookup buf | Creat buf _ | Remove buf => ∃ name, cstr buf name
  | Link buf p => (∃ name, cstr buf name) ∧ is_Some (file_of a p)
  | Rename b1 b2 => (∃ name, cstr b1 name) ∧ ∃ name, cstr b2 name
  | Read p u => ∃ ino v, file_of a p = Some (ino, v) ∧ af_size v ≤ SFS_MAXFILE ∧
      uio_ok u (fs_mem a) ∧ uio_rw u = UIO_READ ∧ 0 ≤ uio_offset u ∧ uio_offset u + uio_resid u < 2 ^ 31
  | Write p u => is_Some (file_of a p) ∧
      uio_ok u (fs_mem a) ∧ uio_rw u = UIO_WRITE ∧ 0 ≤ uio_offset u ∧ uio_offset u + uio_resid u < 2 ^ 31
  | Truncate p len => is_Some (file_of a p) ∧ 0 ≤ len < 2 ^ 31 - 511
  | Fsync p | Incref p | Incopen p => is_Some (fs_vnodes a !! p)
  | Decopen p => ∃ ino r o, fs_vnodes a !! p = Some (ino, r, o) ∧ 0 < o
  | Decref p => p ≠ d ∧ ∃ ino r o, fs_vnodes a !! p = Some (ino, r, o) ∧ (r = 1 → o = 0)
  end.

(** The file behind [ino] loses a name. *)
Definition unlinked (a : afs) (ino : Z) (v : afile) (F : gmap Z afile) : Prop :=
  af_links v = 1 ∧ ¬ in_use (fs_vnodes a) ino ∧ F = delete ino (fs_files a) ∨
  (af_links v ≠ 1 ∨ in_use (fs_vnodes a) ino) ∧ F = <[ino := relinked v (-1)]> (fs_files a).

Inductive fsstep : afs → fsop → fsres → afs → Prop :=
  | step_lookup a buf name ino p O :
      cstr buf name → fs_names a !! name = Some ino → taken (fs_vnodes a) ino p O →
      fsstep a (Lookup buf) (RVnode (Ok p)) (with_vnodes O a)
  | step_lookup_err a buf name e :
      cstr buf name → (e = ENOENT ∧ fs_names a !! name = None ∨ e = ENOMEM) →
      fsstep a (Lookup buf) (RVnode (Err e)) a
  | step_creat_old a buf name ino p O :
      cstr buf name → fs_names a !! name = Some ino → taken (fs_vnodes a) ino p O →
      fsstep a (Creat buf false) (RVnode (Ok p)) (with_vnodes O a)
  | step_creat_new a buf name excl ino p O :
      cstr buf name → fs_names a !! name = None → fs_files a !! ino = None → taken (fs_vnodes a) ino p O →
      fsstep a (Creat buf excl) (RVnode (Ok p))
        (AFs (<[ino := relinked new_file 1]> (fs_files a)) (<[name := ino]> (fs_names a)) O (fs_mem a))
  | step_creat_err a buf name excl e :
      cstr buf name →
      (e = EEXIST ∧ is_Some (fs_names a !! name) ∧ excl = true ∨ e = ENOMEM ∨
       e = ENOSPC ∧ fs_names a !! name = None ∨ fs_names a !! name = None ∧ link_error (fs_names a) name e) →
      fsstep a (Creat buf excl) (RVnode (Err e)) a
  | step_link a buf name p ino v :
      cstr buf name → file_of a p = Some (ino, v) → fs_names a !! name = None →
      fsstep a (Link buf p) (RUnit (Ok tt))
        (AFs (<[ino := relinked v 1]> (fs_files a)) (<[name := ino]> (fs_names a)) (fs_vnodes a) (fs_mem a))
  | step_link_err a buf name p e :
      cstr buf name → link_error (fs_names a) name e → fsstep a (Link buf p) (RUnit (Err e)) a
  | step_remove a buf name ino v F :
      cstr buf name → fs_names a !! name = Some ino → fs_files a !! ino = Some v → unlinked a ino v F →
      fsstep a (Remove buf) (RUnit (Ok tt)) (AFs F (delete name (fs_names a)) (fs_vnodes a) (fs_mem a))
  | step_remove_err a buf name e :
      cstr buf name → (e = ENOENT ∧ fs_names a !! name = None ∨ e = ENOMEM) →
      fsstep a (Remove buf) (RUnit (Err e)) a
  | step_rename a b1 n1 b2 n2 ino :
      cstr b1 n1 → cstr b2 n2 → fs_names a !! n1 = Some ino → fs_names a !! n2 = None →
      fsstep a (Rename b1 b2) (RUnit (Ok tt))
        (AFs (fs_files a) (delete n1 (<[n2 := ino]> (fs_names a))) (fs_vnodes a) (fs_mem a))
  | step_rename_err a b1 n1 b2 n2 e :
      cstr b1 n1 → cstr b2 n2 →
      (e = ENOENT ∧ fs_names a !! n1 = None ∨ e = ENOMEM ∨
       is_Some (fs_names a !! n1) ∧ link_error (fs_names a) n2 e) →
      fsstep a (Rename b1 b2) (RUnit (Err e)) a
  | step_read a p u ino v data :
      file_of a p = Some (ino, v) →
      data = abytes v (uio_offset u) (read_length (af_size v) (uio_offset u) (uio_resid u)) →
      fsstep a (Read p u) (RIo (0, (deliver u (fs_mem a) data).1))
        (AFs (fs_files a) (fs_names a) (fs_vnodes a) (deliver u (fs_mem a) data).2)
  | step_write a p u ino v n k e :
      file_of a p = Some (ino, v) → uio_resid u = Z.of_nat n → write_code (uio_offset u) n k e →
      (e = ENOSPC → blank_part v (uio_offset u) n) →
      fsstep a (Write p u) (RIo (e, consume u (Z.of_nat k)))
        (with_files (<[ino := grown v (uio_offset u) (source u (fs_mem a) k)]> (fs_files a)) a)
  | step_truncate a p len ino v :
      file_of a p = Some (ino, v) →
      fsstep a (Truncate p len) (RUnit (Ok tt)) (with_files (<[ino := truncated v len]> (fs_files a)) a)
  | step_fsync a p : fsstep a (Fsync p) (RUnit (Ok tt)) a
  | step_incref a p ino r o :
      fs_vnodes a !! p = Some (ino, r, o) →
      fsstep a (Incref p) (RUnit (Ok tt)) (with_vnodes (<[p := (ino, r + 1, o)]> (fs_vnodes a)) a)
  | step_incopen a p ino r o :
      fs_vnodes a !! p = Some (ino, r, o) →
      fsstep a (Incopen p) (RUnit (Ok tt)) (with_vnodes (<[p := (ino, r, o + 1)]> (fs_vnodes a)) a)
  | step_decopen a p ino r o :
      fs_vnodes a !! p = Some (ino, r, o) →
      fsstep a (Decopen p) (RUnit (Ok tt)) (with_vnodes (<[p := (ino, r, o - 1)]> (fs_vnodes a)) a)
  | step_decref a p ino r o F :
      fs_vnodes a !! p = Some (ino, r, o) →
      (r = 1 ∧ (∃ v, fs_files a !! ino = Some v ∧ af_links v = 0) ∧ F = delete ino (fs_files a) ∨
       (r ≠ 1 ∨ ∀ v, fs_files a !! ino = Some v → af_links v ≠ 0) ∧ F = fs_files a) →
      fsstep a (Decref p) (RUnit (Ok tt)) (AFs F (fs_names a) (release (fs_vnodes a) p) (fs_mem a)).

Lemma write_step_inv a p u r a' :
  fsstep a (Write p u) r a' →
  ∃ ino v n k e, file_of a p = Some (ino, v) ∧ uio_resid u = Z.of_nat n ∧ write_code (uio_offset u) n k e ∧
    r = RIo (e, consume u (Z.of_nat k)) ∧
    a' = with_files (<[ino := grown v (uio_offset u) (source u (fs_mem a) k)]> (fs_files a)) a.
Proof. inversion 1; subst. by eexists _, _, _, _, _. Qed.

Lemma read_step_inv a p u r a' :
  fsstep a (Read p u) r a' →
  ∃ ino v data, file_of a p = Some (ino, v) ∧
    data = abytes v (uio_offset u) (read_length (af_size v) (uio_offset u) (uio_resid u)) ∧
    r = RIo (0, (deliver u (fs_mem a) data).1).
Proof. inversion 1; subst. by eexists _, _, _. Qed.

(** A client: it stops, or makes a call and goes on with the answer. *)
Inductive client :=
  | Stop
  | Call (op : fsop) (k : fsres → client).

(** The client keeps to the preconditions, whatever the file system answers. *)
Fixpoint behaves (d : Z) (c : client) (a : afs) : Prop :=
  match c with
  | Stop => True
  | Call op k => allowed_call d a op ∧ ∀ r a', fsstep a op r a' → behaves d (k r) a'
  end.

(** What the client did and saw, and where that leaves the file system. *)
Inductive plays : client → afs → list (fsop * fsres) → afs → Prop :=
  | plays_stop a : plays Stop a [] a
  | plays_call op k a r a' t a'' : fsstep a op r a' → plays (k r) a' t a'' → plays (Call op k) a ((op, r) :: t) a''.

(** ** The implementation *)

Section Refinement.
Context {D H : Type} `{DiskLaws D} `{KHeapLaws H}.
Implicit Types s : sfs D H.

Definition exec (d : Z) (op : fsop) : F D H fsres :=
  match op with
  | Lookup path => r ← sfs_lookup d path; mret (RVnode r)
  | Creat name excl => r ← sfs_creat d name excl; mret (RVnode r)
  | Link name p => r ← sfs_link d name p; mret (RUnit r)
  | Remove name => r ← sfs_remove d name; mret (RUnit r)
  | Rename n1 n2 => r ← sfs_rename d n1 d n2; mret (RUnit r)
  | Read p u => r ← sfs_read p u; mret (RIo r)
  | Write p u => r ← sfs_write p u; mret (RIo r)
  | Truncate p len => r ← vop_truncate p len; mret (RUnit r)
  | Fsync p => r ← vop_fsync p; mret (RUnit r)
  | Incref p => vnode_incref p;; mret (RUnit (Ok tt))
  | Incopen p => vnode_incopen p;; mret (RUnit (Ok tt))
  | Decopen p => vnode_decopen p;; mret (RUnit (Ok tt))
  | Decref p => vnode_decref p;; mret (RUnit (Ok tt))
  end.

Fixpoint play (d : Z) (c : client) : F D H (list (fsop * fsres)) :=
  match c with
  | Stop => mret []
  | Call op k => r ← exec d op; t ← play d (k r); mret ((op, r) :: t)
  end.

(** The volume and its vnodes stand for [a]. *)
Definition represents (rest : list Z) (d : Z) s (a : afs) : Prop :=
  ∃ files dv tab, ns_inv s files (<[SFS_ROOT_LOCATION := dv]> (fs_files a)) tab rest d (fs_names a) ∧
    fs_files a !! SFS_ROOT_LOCATION = None ∧ vnodes s = fs_vnodes a ∧ s_user s = fs_mem a.

(** *** From the volume to the abstract state *)

Lemma rep_vnode rest d s a p ino r o :
  represents rest d s a → fs_vnodes a !! p = Some (ino, r, o) →
  ∃ sv, s_pool s !! p = Some sv ∧ seen sv = (ino, r, o).
Proof.
  intros (files & dv & tab & _ & _ & <- & _) Hp. unfold vnodes in Hp. rewrite lookup_fmap in Hp.
  destruct (s_pool s !! p) as [sv|]; [|done]. injection Hp as <- <- <-. by exists sv.
Qed.

Lemma rep_file rest d s a p ino v :
  represents rest d s a → file_of a p = Some (ino, v) →
  ∃ sv, s_pool s !! p = Some sv ∧ sv_ino sv = ino ∧ fs_files a !! ino = Some v ∧ ino ≠ SFS_ROOT_LOCATION.
Proof.
  intros Hrep Hf. unfold file_of in Hf. destruct (fs_vnodes a !! p) as [[[ino' r] o]|] eqn:Hp; [|done]. cbn in Hf.
  destruct (fs_files a !! ino') as [v'|] eqn:Hv; [|done]. injection Hf as -> ->.
  destruct (rep_vnode _ _ _ _ _ _ _ _ Hrep Hp) as (sv & Hsv & [= ? _ _]). exists sv. split_and!; [done..|].
  intros ->. destruct Hrep as (_ & _ & _ & _ & ? & _). congruence.
Qed.

(** A vnode other than the root's belongs to a file. *)
Lemma rep_not_root rest d s a p sv :
  represents rest d s a → s_pool s !! p = Some sv → p ≠ d →
  ∃ v, fs_files a !! sv_ino sv = Some v ∧ sv_ino sv ≠ SFS_ROOT_LOCATION ∧ file_of a p = Some (sv_ino sv, v).
Proof.
  intros (files & dv & tab & Hns & _ & Hvn & _) Hp Hpd. pose proof (ni_fs _ _ _ _ _ _ _ Hns) as Hfs.
  pose proof (di_loaded _ _ (fi_disk _ _ _ _ _ Hfs) _ _ Hp) as Hcur.
  destruct (views_lookup _ _ _ _ _ (fi_views _ _ _ _ _ Hfs) Hcur) as (v & Hv & _).
  assert (Hne : sv_ino sv ≠ SFS_ROOT_LOCATION).
  { intros E. destruct (ni_root _ _ _ _ _ _ _ Hns) as (dsv & Hd & Hroot). apply Hpd.
    eapply (di_unique _ _ (fi_disk _ _ _ _ _ Hfs)); [done|done|congruence]. }
  rewrite lookup_insert_ne in Hv by done. exists v. split_and!; [done..|].
  unfold file_of. rewrite <- Hvn, (vnodes_lookup _ _ _ Hp). cbn. by rewrite Hv.
Qed.

Lemma rep_intro rest d s a F dm O mem files dv tab :
  a = AFs F dm O mem → ns_inv s files (<[SFS_ROOT_LOCATION := dv]> F) tab rest d dm →
  F !! SFS_ROOT_LOCATION = None → vnodes s = O → s_user s = mem → represents rest d s a.
Proof. intros. subst. by exists files, dv, tab. Qed.

(** A file changes, its type and its names do not. *)
Lemma ns_change s s' files files' V tab rest d dm ino v v' :
  ns_inv s files V tab rest d dm → V !! ino = Some v → ino ≠ SFS_ROOT_LOCATION →
  af_type v' = af_type v → af_links v' = af_links v →
  disk_inv s' files' → views s' files' (<[ino := v']> V) → same_env s s' → s_user s' = s_user s →
  ns_inv s' files' (<[ino := v']> V) tab rest d dm.
Proof.
  intros Hns Hv Hne Hty Hl Hinv HV Henv Hu. constructor.
  - eapply fs_inv_env; [apply Hns|done..|]. intros j w [[<- <-]|[_ Hw]]%lookup_insert_Some; eauto.
  - eapply (drop_frame_root s s' (d + 1)); [by apply same_env_drop|lia|apply Hns].
  - rewrite lookup_insert_ne by done. apply Hns.
  - intros j w [[<- <-]|[_ Hw]]%lookup_insert_Some Hj; [rewrite Hty, Hl|]; by apply (ni_files _ _ _ _ _ _ _ Hns).
  - intros nm j Hnm. destruct (ni_names _ _ _ _ _ _ _ Hns _ _ Hnm) as [? [w Hw]]. split; [done|].
    destruct (decide (j = ino)) as [->|]; [by rewrite lookup_insert_eq|rewrite lookup_insert_ne by done; eauto].
Qed.

(** The counts of a vnode change. *)
Lemma rep_counts rest d s a p sv n m :
  represents rest d s a → s_pool s !! p = Some sv → 0 < n → 0 ≤ m →
  represents rest d (set_pool (<[p := set_refcount n (set_opencount m sv)]> (s_pool s)) s)
    (with_vnodes (<[p := (sv_ino sv, n, m)]> (fs_vnodes a)) a).
Proof.
  intros (files & dv & tab & Hns & Hroot & Hvn & Hu) Hp Hn Hm.
  eapply rep_intro; [reflexivity| |exact Hroot|by cbn; rewrite <- Hvn; unfold vnodes; cbn; rewrite fmap_insert|done].
  eapply ns_same; [exact Hns|apply fs_inv_counts; [apply Hns|done..]|].
  destruct (ni_root _ _ _ _ _ _ _ Hns) as (dsv & Hd & Hi). cbn. destruct (decide (d = p)) as [->|].
  - rewrite lookup_insert_eq. eexists. split; [done|]. cbn. congruence.
  - rewrite lookup_insert_ne by done. by exists dsv.
Qed.

Lemma rep_env rest d s s' files dv tab a :
  represents rest d s a → same_env s s' → s_user s' = s_user s →
  ns_inv s' files (<[SFS_ROOT_LOCATION := dv]> (fs_files a)) tab rest d (fs_names a) → represents rest d s' a.
Proof.
  intros (_ & _ & _ & _ & Hroot & Hvn & Hu) Henv Hu' Hns. exists files, dv, tab.
  split_and!; [done|done|by rewrite (vnodes_env _ _ Henv)|congruence].
Qed.

(** *** The calls on vnodes *)

Definition refines rest d (a : afs) (op : fsop) (r : fsres) s' : Prop :=
  ∃ a', fsstep a op r a' ∧ represents rest d s' a'.

Lemma fsync_run rest d s a p :
  represents rest d s a → is_Some (fs_vnodes a !! p) →
  runs (vop_fsync p) s (λ r s', r = Ok tt ∧ represents rest d s' a).
Proof.
  intros Hrep [[[ino r] o] Hp]. destruct (rep_vnode _ _ _ _ _ _ _ _ Hrep Hp) as (sv & Hsv & _).
  pose proof Hrep as (files & dv & tab & Hns & _). pose proof (ni_fs _ _ _ _ _ _ _ Hns) as Hfs.
  unfold vop_fsync, sfs_fsync. apply runs_bind. exists tt, s. split; [eapply vnode_check_run; [apply Hfs|done]|].
  eapply runs_mono; [eapply sync_inode_run; [apply Hfs|apply Hfs|done]|].
  intros r1 s' (-> & Hinv & HV & Henv & Hu & _). split; [done|]. eapply rep_env; [done..|].
  eapply ns_same; [exact Hns|eapply fs_inv_env; [exact Hfs|done..|eauto]|].
  eapply (drop_frame_root s s' (d + 1)); [by apply same_env_drop|lia|apply Hns].
Qed.

Lemma decopen_run rest d s a p ino r o :
  represents rest d s a → fs_vnodes a !! p = Some (ino, r, o) → 0 < o →
  runs (vnode_decopen p) s (λ _ s', represents rest d s' (with_vnodes (<[p := (ino, r, o - 1)]> (fs_vnodes a)) a)).
Proof.
  intros Hrep Hp Ho. destruct (rep_vnode _ _ _ _ _ _ _ _ Hrep Hp) as (sv & Hsv & [= <- <- <-]).
  pose proof Hrep as (files & dv & tab & Hns & _). pose proof (ni_fs _ _ _ _ _ _ _ Hns) as Hfs.
  destruct (vt_counts _ _ _ (fi_tab _ _ _ _ _ Hfs) _ _ Hsv) as [Hr _].
  pose proof (rep_counts _ _ _ _ _ _ (vn_refcount sv) (vn_opencount sv - 1) Hrep Hsv Hr ltac:(lia)) as Hrep'.
  unfold vnode_decopen. apply runs_bind. eapply runs_get_sv; [done|]. apply runs_bind, runs_assert; [by apply Z.gtb_lt|].
  apply runs_bind, runs_put_sv.
  replace (set_refcount (vn_refcount sv) (set_opencount (vn_opencount sv - 1) sv)) with
    (set_opencount (vn_opencount sv - 1) sv) in Hrep' by (by destruct sv).
  destruct (vn_opencount sv - 1 >? 0); [by apply runs_ret|]. apply runs_bind. eexists tt, _.
  destruct Hrep' as (files' & dv' & tab' & Hns' & Hrest). split.
  { eapply vnode_check_run; [apply Hns'|]. cbn. apply lookup_insert_eq. }
  apply runs_bind. unfold sfs_close. eapply runs_mono; [eapply fsync_run; [by exists files', dv', tab'|]|].
  - cbn. rewrite lookup_insert_eq. eauto.
  - intros _ s' [_ Hs']. by apply runs_ret.
Qed.

Lemma decref_refines rest d s a p :
  represents rest d s a → allowed_call d a (Decref p) →
  runs (exec d (Decref p)) s (refines rest d a (Decref p)).
Proof.
  intros Hrep (Hpd & ino & r & o & Hp & Hro). destruct (rep_vnode _ _ _ _ _ _ _ _ Hrep Hp) as (sv & Hsv & [= <- <- <-]).
  destruct (rep_not_root _ _ _ _ _ _ Hrep Hsv Hpd) as (v & Hv & Hne & _).
  pose proof Hrep as (files & dv & tab & Hns & Hroot & Hvn & Hu).
  assert (HvV : <[SFS_ROOT_LOCATION := dv]> (fs_files a) !! sv_ino sv = Some v) by (by rewrite lookup_insert_ne).
  destruct (ni_files _ _ _ _ _ _ _ Hns _ _ HvV Hne) as [Hty Hlinks].
  cbn [exec]. apply runs_bind. eapply runs_mono; [eapply decref_ns; [apply Hns|done|done|done|done]|].
  intros [] s' (Hfr & Hvn' & files' & tab' & Hfs'). apply runs_ret.
  assert (Hd' : ∃ sv, s_pool s' !! d = Some sv ∧ sv_ino sv = SFS_ROOT_LOCATION)
    by (eapply drop_frame_root; [exact Hfr|congruence|apply Hns]).
  eexists. split; [eapply (step_decref a p _ _ _ (if (vn_refcount sv =? 1) && (af_links v =? 0)
    then delete (sv_ino sv) (fs_files a) else fs_files a)); [exact Hp|]|].
  { destruct (Z.eqb_spec (vn_refcount sv) 1), (Z.eqb_spec (af_links v) 0); cbn [andb]; [left; eauto|right..];
      (split; [|done]); [right; congruence|by left..]. }
  unfold after_drop in Hfs'.
  destruct (Z.eqb_spec (vn_refcount sv) 1), (Z.eqb_spec (af_links v) 0); cbn [andb];
    (eapply (rep_intro _ _ _ _ _ _ _ _ files' dv tab'); [reflexivity| | |by rewrite Hvn', Hvn|by rewrite (df_user _ _ _ Hfr)]);
    try exact Hroot; try (by eapply ns_same).
  - rewrite <- delete_insert_ne by done. by eapply (ns_erased s s').
  - by rewrite lookup_delete_ne.
Qed.

(** *** The calls on names *)

Lemma lookup_refines rest d s a buf :
  represents rest d s a → allowed_call d a (Lookup buf) →
  runs (exec d (Lookup buf)) s (refines rest d a (Lookup buf)).
Proof.
  intros (files & dv & tab & Hns & Hroot & Hvn & Hu) [name Hname]. cbn [exec]. apply runs_bind.
  eapply runs_mono; [by eapply lookup_run|]. intros [e|p] s' [Hu' Hs']; apply runs_ret; rewrite Hvn in Hs'.
  - destruct Hs' as (He & Hvn' & Hns'). exists a. split; [by eapply step_lookup_err|].
    exists files, dv, tab. split_and!; [done|done|done|congruence].
  - destruct Hs' as (ino & tab' & Hino & Ht & Hns'). eexists. split; [by eapply step_lookup|].
    eapply rep_intro; [done|exact Hns'|done|done|congruence].
Qed.

Lemma creat_refines rest d s a buf excl :
  represents rest d s a → allowed_call d a (Creat buf excl) →
  runs (exec d (Creat buf excl)) s (refines rest d a (Creat buf excl)).
Proof.
  intros (files & dv & tab & Hns & Hroot & Hvn & Hu) [name Hname]. cbn [exec]. apply runs_bind.
  eapply runs_mono; [by eapply (creat_run s _ _ _ _ _ _ name)|]. intros [e|p] s' [Hu' Hs']; apply runs_ret; rewrite Hvn in Hs'.
  - destruct Hs' as (He & Hvn' & files' & tab' & Hns'). exists a. split; [by eapply step_creat_err|].
    exists files', dv, tab'. split_and!; [done|done|done|congruence].
  - destruct (fs_names a !! name) as [ino|] eqn:Hino.
    + destruct Hs' as (-> & Ht & tab' & Hns'). eexists. split; [by eapply step_creat_old|].
      eapply rep_intro; [done|exact Hns'|done|done|congruence].
    + destruct Hs' as (ino & dv' & files' & tab' & Hnone & Ht & Hns'). rewrite insert_insert_eq in Hns'.
      assert (Hne : ino ≠ SFS_ROOT_LOCATION) by (intros ->; by rewrite lookup_insert_eq in Hnone).
      rewrite lookup_insert_ne in Hnone by done. eexists. split; [by eapply step_creat_new|].
      rewrite insert_insert_ne in Hns' by done.
      eapply rep_intro; [done|exact Hns'|by rewrite lookup_insert_ne|done|congruence].
Qed.

Lemma link_refines rest d s a buf p :
  represents rest d s a → allowed_call d a (Link buf p) →
  runs (exec d (Link buf p)) s (refines rest d a (Link buf p)).
Proof.
  intros Hrep [[name Hname] [[ino v] Hf]]. destruct (rep_file _ _ _ _ _ _ _ Hrep Hf) as (sv & Hp & <- & Hv & Hne).
  pose proof Hrep as (files & dv & tab & Hns & Hroot & Hvn & Hu). cbn [exec]. apply runs_bind.
  eapply runs_mono; [eapply (link_run s _ _ _ _ _ _ name); [exact Hns|done|exact Hp|by rewrite lookup_insert_ne|done]|].
  intros [e|[]] s' (Henv & Hu' & Hs'); apply runs_ret.
  - destruct Hs' as (He & files' & Hns'). exists a. split; [by eapply step_link_err|]. by eapply rep_env.
  - destruct Hs' as (Hnone & files' & V' & dv' & -> & Hns'). rewrite insert_insert_eq in Hns'.
    eexists. split; [by eapply step_link|]. rewrite insert_insert_ne in Hns' by done.
    eapply rep_intro; [done|exact Hns'|by rewrite lookup_insert_ne|by rewrite (vnodes_env _ _ Henv)|congruence].
Qed.

Lemma remove_refines rest d s a buf :
  represents rest d s a → allowed_call d a (Remove buf) →
  runs (exec d (Remove buf)) s (refines rest d a (Remove buf)).
Proof.
  intros (files & dv & tab & Hns & Hroot & Hvn & Hu) [name Hname]. cbn [exec]. apply runs_bind.
  eapply runs_mono; [by eapply remove_run|]. intros [e|[]] s' (Hu' & Hvn' & Hs'); apply runs_ret; rewrite ?Hvn in Hs'.
  - destruct Hs' as (He & Hns'). exists a. split; [by eapply step_remove_err|].
    exists files, dv, tab. split_and!; [done|done|congruence|congruence].
  - destruct Hs' as (ino & v & dv' & files' & V' & tab' & Hino & Hv & Hrm & Hns').
    destruct (ni_names _ _ _ _ _ _ _ Hns _ _ Hino) as [Hne _]. rewrite lookup_insert_ne in Hv by done.
    unfold removed in Hrm. rewrite insert_insert_eq in Hrm. destruct Hrm as [(Hl & Huse & ->)|[Hl ->]].
    + eexists. split; [eapply (step_remove _ _ _ ino v); [done..|by left]|]. rewrite delete_insert_ne in Hns' by done.
      eapply rep_intro; [done|exact Hns'|by rewrite lookup_delete_ne|congruence|congruence].
    + eexists. split; [eapply (step_remove _ _ _ ino v); [done..|by right]|]. rewrite insert_insert_ne in Hns' by done.
      eapply rep_intro; [done|exact Hns'|by rewrite lookup_insert_ne|congruence|congruence].
Qed.

Lemma rename_refines rest d s a b1 b2 :
  represents rest d s a → allowed_call d a (Rename b1 b2) →
  runs (exec d (Rename b1 b2)) s (refines rest d a (Rename b1 b2)).
Proof.
  intros (files & dv & tab & Hns & Hroot & Hvn & Hu) [[n1 Hn1] [n2 Hn2]]. cbn [exec]. apply runs_bind.
  eapply runs_mono; [by eapply rename_run|]. intros [e|[]] s' (Hu' & Hvn' & Hs'); apply runs_ret.
  - destruct Hs' as (He & files' & tab' & Hns'). exists a. split; [by eapply step_rename_err|].
    exists files', dv, tab'. split_and!; [done|done|congruence|congruence].
  - destruct Hs' as (ino & dv' & files' & tab' & Hino & Hnone & Hns'). rewrite insert_insert_eq in Hns'.
    eexists. split; [by eapply step_rename|].
    eapply rep_intro; [done|exact Hns'|done|congruence|congruence].
Qed.

(** *** The calls on files *)

Lemma abytes_shows s i v o n : shows s i v → 0 ≤ o → file_bytes s i o n = abytes v o n.
Proof.
  intros (_ & _ & _ & Hb) Ho. unfold file_bytes, abytes. apply list_fmap_ext. intros k x Hx. symmetry. apply Hb. lia.
Qed.

Lemma read_refines rest d s a p u :
  represents rest d s a → allowed_call d a (Read p u) →
  runs (exec d (Read p u)) s (refines rest d a (Read p u)).
Proof.
  intros Hrep (ino & v & Hf & Hmax & Hu & Hrw & Ho & Hend).
  destruct (rep_file _ _ _ _ _ _ _ Hrep Hf) as (sv & Hp & <- & Hv & Hne).
  pose proof Hrep as (files & dv & tab & Hns & Hroot & Hvn & Hmem). pose proof (ni_fs _ _ _ _ _ _ _ Hns) as Hfs.
  destruct (views_lookup _ _ _ _ _ (fi_views _ _ _ _ _ Hfs) (di_loaded _ _ (fi_disk _ _ _ _ _ Hfs) _ _ Hp)) as (v' & Hv' & Hshow).
  rewrite lookup_insert_ne in Hv' by done. assert (v' = v) as -> by congruence. pose proof Hshow as (Hsz & _).
  rewrite <- Hmem in *. cbn [exec]. unfold sfs_read. apply runs_bind, runs_bind, runs_assert; [by apply bool_decide_eq_true|].
  eapply runs_mono; [eapply sfs_io_read; [apply Hfs|exact Hp|done..|by rewrite <- Hsz]|].
  intros r s' [-> Hr]. apply runs_ret. rewrite (abytes_shows _ _ _ _ _ Hshow Ho), <- Hsz in Hr |- *. rewrite Hmem in *.
  eexists. split; [by eapply step_read|].
  pose proof (ns_reread _ _ _ _ _ _ _ _ _ Hr Hns) as Hns'.
  eapply rep_intro; [done|exact Hns'|done| |apply (proj2 (reread_pool _ _ _ Hr))].
  unfold vnodes. rewrite (proj1 (reread_pool _ _ _ Hr)). done.
Qed.

Lemma write_refines rest d s a p u :
  represents rest d s a → allowed_call d a (Write p u) →
  runs (exec d (Write p u)) s (refines rest d a (Write p u)).
Proof.
  intros Hrep ([[ino v] Hf] & Hu & Hrw & Ho & Hend).
  destruct (rep_file _ _ _ _ _ _ _ Hrep Hf) as (sv & Hp & <- & Hv & Hne).
  pose proof Hrep as (files & dv & tab & Hns & Hroot & Hvn & Hmem). pose proof (ni_fs _ _ _ _ _ _ _ Hns) as Hfs.
  pose proof Hu as ([Hres _] & _). cbn [exec]. unfold sfs_write.
  apply runs_bind, runs_bind, runs_assert; [by apply bool_decide_eq_true|].
  eapply runs_mono.
  { apply (sfs_io_write s files _ p sv v u (Z.to_nat (uio_resid u)) (fi_disk _ _ _ _ _ Hfs) (fi_views _ _ _ _ _ Hfs) Hp);
      [by rewrite lookup_insert_ne|by rewrite Hmem|done|done|lia|lia]. }
  intros [e u'] s' (k & files' & Hc & Hbl & Hu' & Hinv & HV & Henv & Hmem'). apply runs_ret. cbn [fst snd] in *. subst u'.
  eexists. split; [eapply (step_write _ _ _ _ _ (Z.to_nat (uio_resid u)) k); [done|lia|done|done]|].
  rewrite Hmem in HV. pose proof (ns_change s s' files files' _ tab rest d _ _ v
    (grown v (uio_offset u) (source u (fs_mem a) k)) Hns ltac:(by rewrite lookup_insert_ne) Hne eq_refl eq_refl Hinv HV Henv Hmem') as Hns'.
  rewrite insert_insert_ne in Hns' by done.
  eapply rep_intro; [done|exact Hns'|by rewrite lookup_insert_ne|by rewrite (vnodes_env _ _ Henv)|congruence].
Qed.

Lemma truncate_refines rest d s a p len :
  represents rest d s a → allowed_call d a (Truncate p len) →
  runs (exec d (Truncate p len)) s (refines rest d a (Truncate p len)).
Proof.
  intros Hrep ([[ino v] Hf] & Hlen). destruct (rep_file _ _ _ _ _ _ _ Hrep Hf) as (sv & Hp & <- & Hv & Hne).
  pose proof Hrep as (files & dv & tab & Hns & Hroot & Hvn & Hmem). pose proof (ni_fs _ _ _ _ _ _ _ Hns) as Hfs.
  assert (HvV : <[SFS_ROOT_LOCATION := dv]> (fs_files a) !! sv_ino sv = Some v) by (by rewrite lookup_insert_ne).
  cbn [exec]. apply runs_bind. eapply runs_mono; [by eapply vop_truncate_run|].
  destruct (ni_files _ _ _ _ _ _ _ Hns _ _ HvV Hne) as [-> _]. change (SFS_TYPE_FILE =? SFS_TYPE_DIR) with false.
  intros r s' (-> & files' & sv' & Hinv & HV & _ & Henv & Hmem' & _). apply runs_ret.
  eexists. split; [by eapply step_truncate|].
  pose proof (ns_change s s' files files' _ tab rest d _ _ v (truncated v len) Hns HvV Hne eq_refl eq_refl Hinv HV Henv Hmem') as Hns'.
  rewrite insert_insert_ne in Hns' by done.
  eapply rep_intro; [done|exact Hns'|by rewrite lookup_insert_ne|by rewrite (vnodes_env _ _ Henv)|congruence].
Qed.

(** *** Every client *)

Lemma exec_refines rest d s a op :
  represents rest d s a → allowed_call d a op → runs (exec d op) s (refines rest d a op).
Proof.
  intros Hrep Hok. destruct op as [| | | | | | | |p|p|p|p|].
  - by apply lookup_refines.
  - by apply creat_refines.
  - by apply link_refines.
  - by apply remove_refines.
  - by apply rename_refines.
  - by apply read_refines.
  - by apply write_refines.
  - by apply truncate_refines.
  - cbn [exec]. apply runs_bind. eapply runs_mono; [by apply fsync_run|].
    intros r s' [-> Hs']. apply runs_ret. exists a. split; [constructor|done].
  - destruct Hok as [[[ino r] o] Hp]. destruct (rep_vnode _ _ _ _ _ _ _ _ Hrep Hp) as (sv & Hsv & [= <- <- <-]).
    pose proof Hrep as (files & dv & tab & Hns & _).
    destruct (vt_counts _ _ _ (fi_tab _ _ _ _ _ (ni_fs _ _ _ _ _ _ _ Hns)) _ _ Hsv) as [Hr Ho].
    cbn [exec]. unfold vnode_incref. apply runs_bind, runs_bind. eapply runs_get_sv; [done|]. apply runs_put_sv, runs_ret.
    eexists. split; [by apply step_incref|].
    pose proof (rep_counts _ _ _ _ _ _ (vn_refcount sv + 1) _ Hrep Hsv ltac:(lia) Ho) as Hrep'. by destruct sv.
  - destruct Hok as [[[ino r] o] Hp]. destruct (rep_vnode _ _ _ _ _ _ _ _ Hrep Hp) as (sv & Hsv & [= <- <- <-]).
    pose proof Hrep as (files & dv & tab & Hns & _).
    destruct (vt_counts _ _ _ (fi_tab _ _ _ _ _ (ni_fs _ _ _ _ _ _ _ Hns)) _ _ Hsv) as [Hr Ho].
    cbn [exec]. unfold vnode_incopen. apply runs_bind, runs_bind. eapply runs_get_sv; [done|]. apply runs_put_sv, runs_ret.
    eexists. split; [by apply step_incopen|].
    pose proof (rep_counts _ _ _ _ _ _ _ (vn_opencount sv + 1) Hrep Hsv Hr ltac:(lia)) as Hrep'. by destruct sv.
  - destruct Hok as (ino & r & o & Hp & Ho). cbn [exec]. apply runs_bind. eapply runs_mono; [by eapply decopen_run|].
    intros [] s' Hs'. apply runs_ret. eexists. split; [by apply step_decopen|done].
  - by apply decref_refines.
Qed.

Lemma play_refines rest d c : ∀ s a,
  represents rest d s a → behaves d c a →
  runs (play d c) s (λ t s', ∃ a', plays c a t a' ∧ represents rest d s' a').
Proof.
  induction c as [|op k IH]; intros s a Hrep Hb; cbn [play].
  - apply runs_ret. exists a. split; [constructor|done].
  - destruct Hb as [Hok Hk]. apply runs_bind. eapply runs_mono; [by apply exec_refines|].
    intros r s1 (a1 & Hstep & Hrep1). apply runs_bind. eapply runs_mono; [eapply IH; [done|by apply Hk]|].
    intros t s2 (a2 & Hp & Hrep2). apply runs_ret. exists a2. split; [by econstructor|done].
Qed.
End Refinement.
