(* ===== verification/SfsMount.v ===== *)
(** * SFS: sync, mount and unmount

    What is on disk after sfs_sync is all there is: a later mount finds the
    same files under the same names.  Mounting takes the vnode table, the
    free map and the file system structure from the heap, and gives all of
    it back when it fails or at unmount. *)

From S2P Require Import Prelude Ram Kheap KheapSpec KArray Bitmap Bytes Mem CString Uio Device Sfs SfsOps SfsSpec SfsFile SfsWrite SfsDir SfsTrunc SfsVnode SfsReclaim SfsName SfsSystem.

(** The directory lists the files, and the link counts count its names. *)
Record names_ok (V : gmap Z afile) (dm : gmap (list Z) Z) : Prop := {
  no_dir : ∃ dv, V !! SFS_ROOT_LOCATION = Some dv ∧ dir_rep dv dm ∧ af_links dv ≠ 0;
  no_files ino v : V !! ino = Some v → ino ≠ SFS_ROOT_LOCATION →
    af_type v = SFS_TYPE_FILE ∧ af_links v = nlinks dm ino;
  no_names name ino : dm !! name = Some ino → ino ≠ SFS_ROOT_LOCATION ∧ is_Some (V !! ino);
}.

Section Mount.
Context {D H : Type} `{DiskLaws D} `{KHeapLaws H}.
Implicit Types s : sfs D H.

(** ** Writing everything back *)

(** Nothing is left to write. *)
Definition clean s : Prop :=
  s_freemapdirty s = false ∧ ∀ p sv, s_pool s !! p = Some sv → sv_dirty sv = false.

Lemma sync_vnodes_run n i s files V tab rest :
  fs_inv s files V tab rest → 0 ≤ i → i + Z.of_nat n = Z.of_nat (length tab) →
  (∀ k p sv, tab !! k = Some p → Z.of_nat k < i → s_pool s !! p = Some sv → sv_dirty sv = false) →
  runs (sync_vnodes n i) s (λ _ s', fs_inv s' files V tab rest ∧ same_env s s' ∧ s_user s' = s_user s ∧
    s_freemapdirty s' = s_freemapdirty s ∧ s_freemap s' = s_freemap s ∧
    ∀ p sv, s_pool s' !! p = Some sv → sv_dirty sv = false).
Proof.
  revert i s. induction n as [|n IH]; intros i s Hfs Hi Hlen Hdone; cbn [sync_vnodes].
  - apply runs_ret. split_and!; [done..|]. intros p sv Hp.
    assert (Hin : p ∈ tab) by (apply (vt_dom _ _ _ (fi_tab _ _ _ _ _ Hfs)); eauto).
    apply list_elem_of_lookup in Hin as [k Hk]. pose proof (lookup_lt_Some _ _ _ Hk). eapply Hdone; [done|lia|done].
  - pose proof Hfs as [Hinv HV Htab Hops]. destruct (lookup_lt_is_Some_2 tab (Z.to_nat i)) as [p Hk]; [lia|].
    destruct (proj1 (vt_dom _ _ _ Htab p) (list_elem_of_lookup_2 _ _ _ Hk)) as [sv Hp].
    apply runs_bind, runs_get, runs_bind. eapply runs_lift.
    { rewrite <- (Z2Nat.id i) by lia. eapply array_getguy_spec; [apply Htab|]. by rewrite list_lookup_fmap, Hk. }
    apply runs_bind. unfold vop_fsync, sfs_fsync. apply runs_bind. exists tt, s.
    split; [by eapply vnode_check_run|]. eapply runs_mono; [by eapply sync_inode_run|].
    intros r s1 (-> & Hinv1 & HV1 & Henv1 & Hu1 & Hp1 & Hd1 & Hm1).
    eapply runs_mono; [apply (IH (i + 1) s1); [eapply fs_inv_env; eauto|lia|lia|]|].
    + intros k q sv' Hq Hlt. rewrite Hp1. intros [[<- <-]|[Hne Hsv']]%lookup_insert_Some; [done|].
      destruct (decide (Z.of_nat k = i)) as [<-|]; [|eapply Hdone; [done|lia|done]].
      rewrite Nat2Z.id in Hk. congruence.
    + intros [] s2 (? & ? & ? & ? & ? & ?). split_and!; [done|by etransitivity|congruence|congruence|congruence|done].
Qed.

(** *** The free map *)

Lemma bitmapsize_blocks n : 0 ≤ n ≤ 2 ^ 22 → SFS_BITMAPSIZE n = 4096 * SFS_BITBLOCKS n ∧ 0 ≤ SFS_BITBLOCKS n.
Proof.
  intros Hn. unfold SFS_BITBLOCKS. pose proof (bitmapsize_le n Hn). change SFS_BLOCKBITS with 4096.
  unfold SFS_BITMAPSIZE, SFS_ROUNDUP, u32 in *. change SFS_BLOCKBITS with 4096 in *.
  rewrite (Z.mod_small (n + 4096 - 1)) in * by lia.
  rewrite Z.mod_small in * by (Z.to_euclidean_division_equations; lia). Z.to_euclidean_division_equations; lia.
Qed.

Lemma map_length s : dev_wf s → map_wf s → Z.of_nat (length (b_v (s_freemap s))) = 512 * bitblocks s ∧ 0 ≤ bitblocks s.
Proof.
  intros Hdev [Hwf Hbits Hsize _]. unfold bitblocks in *. pose proof (dw_small _ Hdev).
  pose proof (disk_size _ (dw_ok _ Hdev)). pose proof (bw_nbits _ Hwf) as Hnb.
  assert (Hn : 0 ≤ nblocks s).
  { unfold SFS_BITBLOCKS, SFS_BITMAPSIZE, SFS_ROUNDUP in Hsize.
    pose proof (Z.div_pos (u32 (u32 (nblocks s + SFS_BLOCKBITS - 1) / SFS_BLOCKBITS * SFS_BLOCKBITS)) SFS_BLOCKBITS
      (proj1 (u32_range _)) ltac:(done)). lia. }
  destruct (bitmapsize_blocks (nblocks s) ltac:(lia)) as [E ?]. rewrite (bw_len _ Hwf), Hbits, E.
  split; [|done]. Z.to_euclidean_division_equations; lia.
Qed.

(** The map block [j] of a free map with the bytes [v]. *)
Definition map_part (v : list Z) (j : Z) : list Z := slice v (Z.to_nat (j * 512)) 512.

Lemma map_part_fetch v j n :
  Z.of_nat (length v) = 512 * n → 0 ≤ j < n →
  fetch v (j * SFS_BLOCKSIZE) SFS_BLOCKSIZE = Done (map_part v j) ∧ length (map_part v j) = 512%nat.
Proof.
  intros Hv Hj. unfold fetch, SFS_BLOCKSIZE. rewrite (proj2 (andb_true_iff _ _)) by lia. split; [done|].
  unfold map_part. apply slice_length. lia.
Qed.

(** The contents of the disk with the map blocks from [j] on rewritten. *)
Definition map_out s (j b : Z) : list Z :=
  if decide (SFS_MAP_LOCATION + j ≤ b < SFS_MAP_LOCATION + bitblocks s)
  then map_part (b_v (s_freemap s)) (b - SFS_MAP_LOCATION) else blk s b.

Lemma mapio_write_run n j s :
  dev_wf s → map_wf s → 0 ≤ j → j + Z.of_nat n = bitblocks s →
  runs (mapio_from n j UIO_WRITE) s (λ r s', r = Ok tt ∧ redisk s s' (map_out s j)).
Proof.
  revert j s. induction n as [|n IH]; intros j s Hdev Hmap Hj Hn; cbn [mapio_from].
  - apply runs_ret. split; [done|]. exists (s_device s). split_and!; [by destruct s|apply Hdev|done|].
    intros b. unfold map_out. by rewrite decide_False by lia.
  - destruct (map_length s Hdev Hmap) as [Hlen Hbb]. pose proof (mw_size _ Hmap) as Hsize.
    apply runs_bind, runs_get. destruct (map_part_fetch (b_v (s_freemap s)) j (bitblocks s)) as [Hf Hpl]; [done|lia|].
    apply runs_bind. eapply runs_lift; [exact Hf|]. apply runs_bindR.
    destruct (wblock_run s (map_part (b_v (s_freemap s)) j) (SFS_MAP_LOCATION + j)) as (s1 & Hrun & Hre);
      [done|unfold SFS_MAP_LOCATION; lia|done|].
    exists (Ok tt), s1. split; [done|]. cbv beta iota. pose proof (λ c, redisk_blk _ _ _ c Hre) as Hblk.
    pose proof (redisk_wf _ _ _ Hre Hdev) as Hdev1. destruct Hre as (d1 & -> & Hok1 & Hd1 & Hs1).
    eapply runs_mono; [apply (IH (j + 1)); [done|by destruct Hmap|lia|change (bitblocks _) with (bitblocks s); lia]|].
    intros r s2 [-> (d2 & -> & Hok2 & Hd2 & Hs2)]. split; [done|]. exists d2. split_and!; [done|done|by rewrite Hd2|].
    intros b. rewrite Hs2. unfold map_out. cbn [s_freemap set_device].
    change (bitblocks (set_device d1 (s_user s) s)) with (bitblocks s). destruct (decide (b = SFS_MAP_LOCATION + j)) as [->|Hne].
    + rewrite decide_False, decide_True by lia. rewrite Hblk. unfold set_blk. rewrite decide_True by done. f_equal. lia.
    + destruct (decide _), (decide _); try done; try lia. rewrite Hblk. unfold set_blk. by rewrite decide_False.
Qed.

(** The map on disk is the one in memory, and nothing else changed. *)
Lemma disk_inv_mapped s s' files V :
  disk_inv s files → views s files V → redisk s s' (map_out s 0) →
  disk_inv (set_freemapdirty false s') files ∧ views (set_freemapdirty false s') files V.
Proof.
  intros Hinv HV Hre. assert (Hval : ∀ b, valid_block s b → blk s' b = blk s b).
  { intros b [_ Hb]. rewrite (redisk_blk _ _ _ _ Hre). unfold map_out. by rewrite decide_False by lia. }
  assert (Hinv' := Hinv). destruct Hinv' as [Hdev Hmap Hin Hbl Hown Hld Huq Hsy Hme].
  assert (HL : ∀ ino i, files !! ino = Some i → blist s' i = blist s i).
  { intros ino i Hi. apply blist_agree. intros Hi0. apply Hval. apply (Hbl _ _ _ Hi); [left|done]. }
  pose proof (redisk_wf _ _ _ Hre Hdev) as Hdev'. split.
  - pose proof (λ c, redisk_blk _ _ _ c Hre) as Hblk. destruct Hre as (d & -> & _).
    constructor; [by destruct Hdev'|by destruct Hmap| | | |done|done| |].
    + intros ino i Hi. destruct (Hin _ _ Hi) as (? & ? & ? & ?). split_and!; [done| |done|done].
      change (no_inj (blist (set_device d (s_user s) s) i)). by rewrite (HL _ _ Hi).
    + intros ino i b Hi Hb. change (b ∈ blist (set_device d (s_user s) s) i) in Hb. rewrite (HL _ _ Hi) in Hb. by apply (Hbl _ _ _ Hi Hb).
    + intros ino i ino' i' b Hi Hi' Hb Hb'. change (b ∈ blist (set_device d (s_user s) s) i) in Hb.
      change (b ∈ blist (set_device d (s_user s) s) i') in Hb'. rewrite (HL _ _ Hi) in Hb. rewrite (HL _ _ Hi') in Hb'. by eapply Hown.
    + intros ino i Hi. destruct (Hsy _ _ Hi) as [?|E]; [by left|right]. rewrite <- E. apply Hval, (Hin _ _ Hi).
    + destruct Hme as [Hmg Hsb Hsc _]. constructor; [done| |done|right].
      * cbn [s_super set_freemapdirty set_device]. rewrite Hsb. f_equal. symmetry.
        change (blk (set_device d (s_user s) s) SFS_SB_LOCATION = blk s SFS_SB_LOCATION). rewrite Hblk. unfold map_out.
        by rewrite decide_False by (unfold SFS_SB_LOCATION, SFS_MAP_LOCATION; lia).
      * intros j Hj. change (blk (set_device d (s_user s) s) (SFS_MAP_LOCATION + j) = map_part (b_v (s_freemap s)) j).
        change (0 ≤ j < bitblocks s) in Hj. rewrite Hblk. unfold map_out. rewrite decide_True by lia. f_equal. lia.
  - change (views s' files V). eapply views_spare; [done|]. intros ino i b Hi Hb Hb0. by apply Hval, (Hbl _ _ _ Hi Hb Hb0).
Qed.

Lemma sync_run s files V tab rest :
  fs_inv s files V tab rest →
  runs sfs_sync s (λ r s', r = Ok tt ∧ fs_inv s' files V tab rest ∧ clean s' ∧ same_env s s' ∧ s_user s' = s_user s).
Proof.
  intros Hfs. unfold sfs_sync. apply runs_bind, runs_get, runs_bind. unfold array_getnum.
  rewrite (ar_num _ _ (vt_rep _ _ _ (fi_tab _ _ _ _ _ Hfs))), length_fmap, Nat2Z.id.
  eapply runs_mono; [apply (sync_vnodes_run (length tab) 0 s files V tab rest); [done|lia|lia|intros; lia]|].
  intros [] s1 (Hfs1 & Henv1 & Hu1 & Hd1 & Hm1 & Hcl1). pose proof Hfs1 as [Hinv1 HV1 _ _].
  apply runs_bind, runs_get, runs_bindR.
  assert (Hmap : runs (if s_freemapdirty s1 then _ ←? sfs_mapio UIO_WRITE; modF (set_freemapdirty false);; mret (Ok tt)
    else mret (Ok tt)) s1 (λ r s', r = Ok tt ∧ fs_inv s' files V tab rest ∧ clean s' ∧ same_env s1 s' ∧ s_user s' = s_user s1)).
  { destruct (s_freemapdirty s1) eqn:Hd; [|by apply runs_ret]. apply runs_bindR. unfold sfs_mapio. apply runs_bind, runs_get.
    destruct (map_length s1) as [_ Hbb]; [apply Hinv1..|].
    eapply runs_mono; [apply (mapio_write_run _ 0); [apply Hinv1|apply Hinv1|lia|fold (nblocks s1); fold (bitblocks s1); lia]|].
    intros r s2 [-> Hre]. cbv beta iota. apply runs_bind, runs_mod, runs_ret. split; [done|].
    destruct (disk_inv_mapped _ _ _ _ Hinv1 HV1 Hre) as [Hinv2 HV2].
    assert (Henv2 : same_env s1 (set_freemapdirty false s2)).
    { etransitivity; [by eapply redisk_env|by constructor]. }
    split; [eapply fs_inv_env; eauto|]. split; [|split; [exact Henv2|exact (redisk_user _ _ _ Hre)]].
    split; [done|]. cbn. by rewrite (redisk_pool _ _ _ Hre). }
  eapply runs_mono; [exact Hmap|]. intros r s2 (-> & Hfs2 & Hcl2 & Henv2 & Hu2). cbv beta iota.
  apply runs_bind, runs_get. rewrite (mi_superclean _ (di_meta _ _ (fi_disk _ _ _ _ _ Hfs2))). apply runs_ret.
  split; [done|]. split; [done|]. split; [exact Hcl2|]. split; [by etransitivity|congruence].
Qed.

(** ** Mounting *)

(** [v] is [old] with the map blocks from [j] on read from the disk. *)
Definition map_in s (j : Z) (old v : list Z) : Prop :=
  length v = length old ∧ ∀ k, (k < length old)%nat →
    v !! k = if decide (Z.of_nat k / 512 < j) then old !! k
             else blk s (SFS_MAP_LOCATION + Z.of_nat k / 512) !! (k mod 512)%nat.

Lemma map_in_step s j old v :
  0 ≤ j → (Z.to_nat (j * 512) + 512 ≤ length old)%nat → length (blk s (SFS_MAP_LOCATION + j)) = 512%nat →
  map_in s (j + 1) (splice old (Z.to_nat (j * 512)) (blk s (SFS_MAP_LOCATION + j))) v → map_in s j old v.
Proof.
  intros Hj Hlen Hb [Hl Hv]. rewrite splice_length in * by lia. split; [done|]. intros k Hk. rewrite Hv by done.
  rewrite splice_lookup by lia. rewrite Hb.
  destruct (decide (Z.of_nat k / 512 < j)) as [Hlt|Hge].
  - rewrite decide_True by lia. rewrite decide_False; [done|]. Z.to_euclidean_division_equations; lia.
  - destruct (decide (Z.of_nat k / 512 < j + 1)) as [Hlt1|]; [|done].
    assert (Z.of_nat k / 512 = j) as E by lia. rewrite E.
    rewrite decide_True by (Z.to_euclidean_division_equations; lia). f_equal.
    pose proof (Nat.div_mod_eq k 512). pose proof (Nat.mod_upper_bound k 512 ltac:(lia)). Z.to_euclidean_division_equations; lia.
Qed.

Lemma mapio_read_run n j s :
  disk_ok (s_device s) → SFS_MAP_LOCATION + bitblocks s ≤ d_blocks (s_device s) →
  SFS_MAP_LOCATION + bitblocks s ≤ 2 ^ 22 → Z.of_nat (length (b_v (s_freemap s))) = 512 * bitblocks s →
  0 ≤ j → j + Z.of_nat n = bitblocks s →
  runs (mapio_from n j UIO_READ) s (λ r s', r = Ok tt ∧ ∃ d v,
    s' = set_freemap (Bitmap (b_self (s_freemap s)) (b_nbits (s_freemap s)) (b_addr (s_freemap s)) v)
           (set_device d (s_user s) s) ∧
    disk_ok d ∧ d_blocks d = d_blocks (s_device s) ∧ (∀ b, sector d b = blk s b) ∧ map_in s j (b_v (s_freemap s)) v).
Proof.
  revert j s. induction n as [|n IH]; intros j s Hok Hn22 Hsm Hlen Hj Hn; cbn [mapio_from].
  - apply runs_ret. split; [done|]. exists (s_device s), (b_v (s_freemap s)).
    split_and!; [by destruct s as [? ? ? ? ? [] ? ? ? ?]|done..|]. split; [done|]. intros k Hk.
    rewrite decide_True; [done|]. Z.to_euclidean_division_equations; lia.
  - apply runs_bind, runs_get. destruct (map_part_fetch (b_v (s_freemap s)) j (bitblocks s)) as [Hf Hpl]; [done|lia|].
    apply runs_bind. eapply runs_lift; [exact Hf|]. apply runs_bindR.
    destruct (rblock_disk s (map_part (b_v (s_freemap s)) j) (SFS_MAP_LOCATION + j)) as (s1 & Hrun & d1 & -> & Hok1 & Hd1 & Hs1);
      [done|unfold SFS_MAP_LOCATION in *; lia|lia|done|].
    assert (Hbl : length (blk s (SFS_MAP_LOCATION + j)) = 512%nat)
      by (apply sector_length; [done|unfold SFS_MAP_LOCATION in *; lia]).
    apply runs_bindR. eexists _, _. split; [exact Hrun|]. cbv beta iota. apply runs_bind. eapply runs_lift.
    { unfold patch, bitmap_getdata, SFS_BLOCKSIZE. rewrite (proj2 (andb_true_iff _ _)) by lia. reflexivity. }
    apply runs_bind, runs_mod, runs_ret. set (v1 := splice _ _ _). set (s2 := set_freemap _ _).
    assert (Hv1 : length v1 = length (b_v (s_freemap s))) by (apply splice_length; lia).
    eapply runs_mono; [apply (IH (j + 1) s2)|].
    + done.
    + cbn. rewrite Hd1. exact Hn22.
    + exact Hsm.
    + cbn. rewrite Hv1. exact Hlen.
    + lia.
    + change (bitblocks s2) with (bitblocks s). lia.
    + intros r s3 (-> & d & v & -> & Hok3 & Hd3 & Hs3 & Hin). split; [done|]. exists d, v.
      split_and!; [done|done|by rewrite Hd3|intros b; rewrite Hs3; apply Hs1|]. eapply map_in_step; [done|lia|done|].
      destruct Hin as [Hl Hin]. split; [done|]. intros k Hk. rewrite Hin by done.
      destruct (decide _); [done|]. f_equal. apply Hs1.
Qed.

(** The volume as it is after a mount: no vnodes, the rest as on disk. *)
Definition fresh s (self : Z) (d : D) (a : array Z) (p addr : Z) (h : H) (ue : uenv) : sfs D H :=
  Sfs self (s_super s) false d a (Bitmap p (b_nbits (s_freemap s)) addr (b_v (s_freemap s))) false ∅ h ue.

Lemma fresh_inv s files V self d a p addr h ue :
  disk_inv s files → views s files V → clean s →
  disk_ok d → d_blocks d = d_blocks (s_device s) → (∀ b, sector d b = blk s b) →
  disk_inv (fresh s self d a p addr h ue) files ∧ views (fresh s self d a p addr h ue) files V.
Proof.
  intros [Hdev Hmap Hin Hbl Hown Hld Huq Hsy Hme] HV [Hcm Hcl] Hok Hd Hs. set (s' := fresh _ _ _ _ _ _ _ _).
  assert (HL : ∀ i, blist s' i = blist s i) by (intros i; apply blist_agree; intros _; apply Hs).
  split; [constructor|].
  - destruct Hdev. constructor; cbn; [done|by rewrite Hd|done].
  - destruct Hmap as [[] ? ? ?]. constructor; [by constructor|done..].
  - intros ino i Hi. rewrite HL. by apply Hin.
  - intros ino i b Hi. rewrite HL. by apply (Hbl _ _ _ Hi).
  - intros ino i ino' i' b Hi Hi'. rewrite !HL. by apply (Hown _ _ _ _ _ Hi Hi').
  - done.
  - done.
  - intros ino i Hi. right. destruct (Hsy _ _ Hi) as [(q & sv & Hq & _ & E)|E]; [by rewrite (Hcl _ _ Hq) in E|].
    rewrite <- E. apply Hs.
  - destruct Hme as [Hmg Hsb _ Hmp]. destruct Hmp as [?|Hmp]; [congruence|]. constructor; [done| |done|right].
    + cbn [s_super fresh s']. rewrite Hsb. f_equal. symmetry. apply Hs.
    + intros j Hj. rewrite <- Hmp by done. apply Hs.
  - eapply views_spare; [done|]. intros. apply Hs.
Qed.

(** The map that mount reads is the one that sync wrote. *)
Lemma map_in_clean s s' old v :
  map_wf s → dev_wf s → meta_inv s → s_freemapdirty s = false → (∀ b, blk s' b = blk s b) →
  length old = length (b_v (s_freemap s)) → map_in s' 0 old v → v = b_v (s_freemap s).
Proof.
  intros Hmap Hdev Hme Hd Hs Hold [Hl Hv]. destruct (map_length s Hdev Hmap) as [Hlen Hbb].
  destruct (mi_map _ Hme) as [?|Hmp]; [congruence|].
  apply list_eq_same_length with (length v); [congruence|done|]. intros k x y Hk Hx Hy.
  rewrite Hv in Hx by congruence. rewrite decide_False in Hx by (Z.to_euclidean_division_equations; lia).
  rewrite Hs, Hmp in Hx by (Z.to_euclidean_division_equations; lia).
  rewrite slice_lookup in Hx by (apply Nat.mod_upper_bound; lia).
  replace (Z.to_nat (Z.of_nat k / 512 * 512) + k mod 512)%nat with k in Hx; [congruence|].
  pose proof (Nat.div_mod_eq k 512). pose proof (Nat.mod_upper_bound k 512 ltac:(lia)).
  Z.to_euclidean_division_equations; lia.
Qed.

Lemma mount_fail_run e (a : array Z) self (d : D) (h : H) ue L :
  heap_owns h (array_blocks a ++ self :: L) →
  ∃ h', mount_fail e a self d h ue = Done (Err e, (d, h', ue)) ∧ heap_owns h' L.
Proof.
  intros Hh. unfold mount_fail. destruct (array_destroy_spec a h (self :: L) Hh) as (h1 & -> & Hh1). cbn [mbind outcome_bind].
  destruct (owns_free h1 self L Hh1) as (h2 & -> & Hh2). by exists h2.
Qed.

Lemma mount_run s files V h ue L :
  disk_inv s files → views s files V → clean s → heap_owns h L →
  ∃ r d' h', sfs_domount (s_device s) h ue = Done (r, (d', h', ue)) ∧
    match r with
    | Ok s' => fs_inv s' files V [] (s_self s' :: b_self (s_freemap s') :: b_addr (s_freemap s') :: L) ∧
        clean s' ∧ s_pool s' = ∅ ∧ s_user s' = ue
    | Err e => e = ENOMEM ∧ heap_owns h' L
    end.
Proof.
  intros Hinv HV Hcl Hh. pose proof Hinv as [Hdev Hmap _ _ _ _ _ _ Hme]. pose proof (dw_small _ Hdev) as Hsm.
  pose proof (dw_ok _ Hdev) as Hok. pose proof (mw_size _ Hmap) as Hsz. pose proof (dw_blocks _ Hdev) as Hdb.
  destruct (map_length s Hdev Hmap) as [Hlen Hbb].
  unfold sfs_domount. rewrite (disk_sectsize _ Hok). change (negb (SECTSIZE =? SFS_BLOCKSIZE)) with false. cbv iota.
  destruct (owns_alloc h L SIZEOF_SFS_FS Hh) as (self & h1 & -> & Hh1); [unfold SIZEOF_SFS_FS; lia|]. cbn [mbind outcome_bind].
  destruct self as [self|]; [|by eexists _, _, _]. destruct Hh1 as [_ Hh1].
  destruct (array_create_spec (A := Z) h1 (self :: L) Hh1) as (a & h2 & -> & Hh2). cbn [mbind outcome_bind].
  destruct a as [a|]; cycle 1.
  { destruct (owns_free _ _ _ Hh2) as (h3 & -> & Hh3). by eexists _, _, h3. }
  destruct Hh2 as [Harr Hh2]. set (s0 := Sfs self _ _ _ _ _ _ _ _ _).
  destruct (rblock_disk s0 blank_block SFS_SB_LOCATION) as (s1 & -> & d1 & -> & Hok1 & Hd1 & Hs1);
    [done|unfold SFS_SB_LOCATION; cbn; lia|done|apply blank_block_length|]. cbn [mbind outcome_bind].
  change (blk s0 SFS_SB_LOCATION) with (blk s SFS_SB_LOCATION). fold (mounted_super (blk s SFS_SB_LOCATION)).
  change (sp_magic (super_of ?b)) with (sp_magic (mounted_super b)). rewrite <- (mi_super _ Hme), (mi_magic _ Hme).
  change (negb (SFS_MAGIC =? SFS_MAGIC)) with false. cbv iota zeta. cbn [s_heap s_user s_device set_device s0].
  pose proof (bw_nbits _ (mw_wf _ Hmap)) as Hnb. rewrite (mw_bits _ Hmap) in Hnb. fold (nblocks s).
  destruct (bitmap_create_owns (SFS_BITMAPSIZE (nblocks s)) h2 _ Hh2 Hnb) as (m & h3 & -> & Hm). cbn [mbind outcome_bind].
  destruct m as [m|]; cycle 1.
  { destruct (mount_fail_run ENOMEM a self d1 h3 ue L Hm) as (h4 & -> & Hh4). by eexists _, _, h4. }
  destruct Hm as (Hh3 & Hwfm & Hnm). unfold sfs_mapio. set (s2 := Sfs self _ _ _ _ _ _ _ _ _).
  assert (Hmv : length (b_v m) = length (b_v (s_freemap s))).
  { apply Nat2Z.inj. rewrite (bw_len _ Hwfm), (bw_len _ (mw_wf _ Hmap)). by rewrite Hnm, (mw_bits _ Hmap). }
  destruct (mapio_read_run (Z.to_nat (bitblocks s)) 0 s2) as (r & s3 & Hrun & -> & d3 & v & -> & Hok3 & Hd3 & Hs3 & Hin);
    [done|cbn; rewrite Hd1; unfold SFS_MAP_LOCATION; change (bitblocks s2) with (bitblocks s); cbn in *; lia
    |change (bitblocks s2) with (bitblocks s); unfold SFS_MAP_LOCATION; lia|cbn [s_freemap s2]; by rewrite Hmv, Hlen|done
    |change (bitblocks s2) with (bitblocks s); lia|].
  erewrite bindF_run by done. cbn [s_super s2]. fold (nblocks s). fold (bitblocks s). rewrite Hrun. cbn [mbind outcome_bind].
  assert (Hblk2 : ∀ b, blk s2 b = blk s b) by (intros b; apply Hs1).
  pose proof (map_in_clean s s2 (b_v m) v Hmap Hdev Hme (proj1 Hcl) Hblk2 Hmv Hin) as ->.
  assert (Hfresh : set_freemap (Bitmap (b_self m) (b_nbits m) (b_addr m) (b_v (s_freemap s))) (set_device d3 ue s2) =
    fresh s self d3 a (b_self m) (b_addr m) h3 ue).
  { unfold fresh. by rewrite (mw_bits _ Hmap), <- Hnm. }
  destruct (fresh_inv s files V self d3 a (b_self m) (b_addr m) h3 ue Hinv HV Hcl Hok3) as [Hinv3 HV3];
    [by rewrite Hd3; cbn; rewrite Hd1|intros b; by rewrite Hs3|].
  eexists _, _, _. split; [reflexivity|]. cbv iota. cbn [s_freemap s_user s2]. rewrite Hfresh. split.
  - constructor; [done|done| |done]. constructor; [done|constructor| | | |done].
    + intros q. cbn. rewrite lookup_empty. split; [by intros ?%elem_of_nil|by intros []].
    + cbn. revert Hh3. apply heap_owns_perm. solve_Permutation.
    + cbn. unfold array_limit. lia.
  - split; [|done]. split; [done|]. intros p sv Hp. cbn in Hp. by rewrite lookup_empty in Hp.
Qed.

Lemma ns_names_ok s files V tab rest d dm : ns_inv s files V tab rest d dm → names_ok V dm.
Proof. by intros []. Qed.

(** Mount and get the root directory. *)
Lemma mount_root s files V dm h ue L :
  disk_inv s files → views s files V → clean s → names_ok V dm → heap_owns h L →
  ∃ r d' h', sfs_domount (s_device s) h ue = Done (r, (d', h', ue)) ∧
    match r with
    | Ok s' => runs (sfs_loadvnode SFS_ROOT_LOCATION SFS_TYPE_INVAL) s' (λ r s'',
        match r with
        | Ok p => s_user s'' = ue ∧ vnodes s'' = {[ p := (SFS_ROOT_LOCATION, 1, 0) ]} ∧ ∃ tab',
            ns_inv s'' files V tab' (s_self s' :: b_self (s_freemap s') :: b_addr (s_freemap s') :: L) p dm
        | Err e => e = ENOMEM
        end)
    | Err e => e = ENOMEM ∧ heap_owns h' L
    end.
Proof.
  intros Hinv HV Hcl Hns Hh.
  destruct (mount_run s files V h ue L Hinv HV Hcl Hh) as (r & d' & h' & Hrun & Hr). exists r, d', h'. split; [done|].
  destruct r as [e|s']; [done|]. destruct Hr as (Hfs' & _ & Hpool & Hu). destruct (no_dir _ _ Hns) as (dv & Hdv & _).
  eapply runs_mono; [eapply loadvnode_run; [exact Hfs'|exact Hdv|cbn; unfold array_limit; lia]|].
  intros [e|p] s'' Hr; [by destruct Hr|]. destruct Hr as (tab' & sv & Hfs2 & _ & Hp & Hino & Hrc & Hoc & Hold & Hfr).
  split; [by rewrite (lf_user _ _ _ Hfr)|].
  assert (Hrc1 : vn_refcount sv = 1) by (rewrite Hrc; unfold refs; by rewrite Hpool, lookup_empty). split.
  - rewrite (vnodes_kept s' s'' p sv (load_drop_frame _ _ _ Hfr) Hp). unfold vnodes, seen. rewrite Hpool, fmap_empty, insert_empty.
    by rewrite Hino, Hrc1, (Hoc Hrc1).
  - exists tab'. destruct Hns as [? ? ?]. constructor; [done|by exists sv|done..].
Qed.

(** ** Unmounting *)

Lemma unmount_busy s files V p tab rest :
  fs_inv s files V (p :: tab) rest → sfs_unmount s = Done (Err EBUSY, s).
Proof.
  intros [_ _ Htab _]. unfold sfs_unmount. erewrite bindF_run by done. unfold array_getnum.
  rewrite (ar_num _ _ (vt_rep _ _ _ Htab)), length_fmap. cbn [length].
  rewrite (proj2 (Z.gtb_lt _ _)) by lia. done.
Qed.

Lemma unmount_run s files V L :
  fs_inv s files V [] (s_self s :: b_self (s_freemap s) :: b_addr (s_freemap s) :: L) → clean s →
  runs sfs_unmount s (λ r s', r = Ok tt ∧ s_device s' = s_device s ∧ heap_owns (s_heap s') L).
Proof.
  intros [Hinv _ Htab _] [Hcm _]. unfold sfs_unmount. apply runs_bind, runs_get. unfold array_getnum.
  rewrite (ar_num _ _ (vt_rep _ _ _ Htab)), length_fmap. cbn [length Z.of_nat Z.gtb Z.compare].
  apply runs_bind, runs_get, runs_bind, runs_assert; [by rewrite (mi_superclean _ (di_meta _ _ Hinv))|].
  apply runs_bind, runs_get, runs_bind, runs_assert; [by rewrite Hcm|]. apply runs_bind, runs_get, runs_bind.
  pose proof (vt_owns _ _ _ Htab) as Hown. cbn [mbind list_bind app] in Hown.
  destruct (array_destroy_spec _ _ _ Hown) as (h1 & Hr1 & Hh1). eapply runs_lift; [exact Hr1|].
  apply runs_bind, runs_get, runs_bind.
  destruct (owns_free h1 (b_addr (s_freemap s)) (s_self s :: b_self (s_freemap s) :: L)) as (h2 & Hr2 & Hh2).
  { revert Hh1. apply heap_owns_perm. solve_Permutation. }
  destruct (owns_free h2 (b_self (s_freemap s)) (s_self s :: L)) as (h3 & Hr3 & Hh3).
  { revert Hh2. apply heap_owns_perm. solve_Permutation. }
  eapply runs_lift; [unfold bitmap_destroy; rewrite Hr2; exact Hr3|]. apply runs_bind, runs_mod, runs_bind, runs_get, runs_bind.
  eapply runs_mono; [eapply kfree_runs; [exact Hh3|reflexivity]|]. intros [] s' (h4 & -> & Hh4). by apply runs_ret.
Qed.
End Mount.
