(* ===== verification/Mksfs.v ===== *)
(** * Making a volume (sbin/mksfs: mksfs.c, disk.c)

    The program as it is built for OS/161 itself: the machine is big-endian
    and SWAPL and SWAPS do nothing.  The disk it writes is a parameter: its
    size and what a write call does.  A volume it made can be mounted, and is
    then an empty file system. *)

From S2P Require Import Prelude Ram Kheap KheapSpec KArray Bitmap Bytes Mem CString Uio Device Sfs SfsOps SfsSpec SfsFile SfsWrite SfsDir SfsTrunc SfsVnode SfsReclaim SfsName SfsSystem SfsMount.

Definition BLOCKSIZE : Z := 512.
Definition MAXBITBLOCKS : Z := 32.
Definition CHAR_BIT : Z := 8.

(** The file a disk is written through: st_size, and a write call at a
    position, which gives the length written or errno. *)
Class RawDisk (F : Type) := {
  rd_size : F → Z;
  rd_write : Z → list Z → F → res Z * F;
}.

(** ** The program

    Errors end the program with status 1. *)

Section Program.
Context {F : Type} `{RawDisk F}.
Implicit Types f : F.

(** opendisk, once the file is open. *)
Definition diskblocks f : Z := u32 (rd_size f / BLOCKSIZE).
Definition diskblocksize : Z := BLOCKSIZE.

(** while (tot < BLOCKSIZE) write(fd, cdata + tot, BLOCKSIZE - tot); EINTR
    is 0 here. *)
Fixpoint diskwrite_loop (fuel : nat) (tot pos : Z) (data : list Z) f : outcome (res unit * F) :=
  if tot <? BLOCKSIZE then
    match fuel with
    | O => Diverge
    | S fuel =>
        rest ← fetch data tot (BLOCKSIZE - tot);
        match rd_write pos rest f with
        | (Err errno, f) =>
            if (errno =? 0) || (errno =? EAGAIN) then diskwrite_loop fuel tot pos data f
            else Done (Err 1, f)
        | (Ok len, f) =>
            if len =? 0 then Done (Err 1, f)
            else diskwrite_loop fuel (u32 (tot + len)) (pos + len) data f
        end
    end
  else Done (Ok tt, f).

(** lseek refuses a negative position. *)
Definition diskwrite (fuel : nat) (data : list Z) (block : Z) f : outcome (res unit * F) :=
  let pos := s32 (u32 (block * BLOCKSIZE)) in
  if pos <? 0 then Done (Err 1, f) else diskwrite_loop fuel 0 pos data f.

Definition writesuper (fuel : nat) (volname : list Z) (nblocks : Z) f : outcome (res unit * F) :=
  len ← strlen volname;
  if len >=? Z.of_nat SFS_VOLNAME_SIZE then Done (Err 1, f)
  else
    name ← strcpy (replicate SFS_VOLNAME_SIZE 0) volname;
    diskwrite fuel (super_bytes (Super SFS_MAGIC nblocks name (replicate 118 0))) SFS_SB_LOCATION f.

Definition root_inode : sfs_inode := Inode 0 SFS_TYPE_DIR 1 (replicate 15 0) 0 (replicate 110 0).

Definition writerootdir (fuel : nat) f : outcome (res unit * F) :=
  diskwrite fuel (inode_bytes root_inode) SFS_ROOT_LOCATION f.

(** static char bitbuf[]: zero at the start. *)
Definition bitbuf_init : list Z := replicate (Z.to_nat (MAXBITBLOCKS * SFS_BLOCKSIZE)) 0.

Definition doallocbit (bit : Z) (bitbuf : list Z) : outcome (list Z) :=
  let byte := bit / CHAR_BIT in
  let mask := u8 (Z.shiftl 1 (bit mod CHAR_BIT)) in
  c ← byte_at bitbuf byte;
  kassert (Z.land c mask =? 0);;
  Done (<[Z.to_nat byte := Z.lor c mask]> bitbuf).

(** for (i=...) doallocbit(i), [n] times. *)
Fixpoint doallocbits (n : nat) (i : Z) (bitbuf : list Z) : outcome (list Z) :=
  match n with
  | O => Done bitbuf
  | S n => bitbuf ← doallocbit i bitbuf; doallocbits n (i + 1) bitbuf
  end.

(** The blocks of the map from [i] on, [n] of them. *)
Fixpoint writemap (fuel n : nat) (i : Z) (bitbuf : list Z) f : outcome (res unit * F) :=
  match n with
  | O => Done (Ok tt, f)
  | S n =>
      ptr ← fetch bitbuf (i * SFS_BLOCKSIZE) SFS_BLOCKSIZE;
      '(r, f) ← diskwrite fuel ptr (SFS_MAP_LOCATION + i) f;
      match r with
      | Err e => Done (Err e, f)
      | Ok _ => writemap fuel n (i + 1) bitbuf f
      end
  end.

Definition writebitmap (fuel : nat) (fsblocks : Z) f : outcome (res unit * F) :=
  let nbits := SFS_BITMAPSIZE fsblocks in
  let nblocks := SFS_BITBLOCKS fsblocks in
  if nblocks >? MAXBITBLOCKS then Done (Err 1, f)
  else
    bitbuf ← doallocbit SFS_SB_LOCATION bitbuf_init;
    bitbuf ← doallocbit SFS_ROOT_LOCATION bitbuf;
    bitbuf ← doallocbits (Z.to_nat nblocks) SFS_MAP_LOCATION bitbuf;
    bitbuf ← doallocbits (Z.to_nat (nbits - fsblocks)) fsblocks bitbuf;
    writemap fuel (Z.to_nat nblocks) 0 bitbuf f.

(** The volume name: one trailing colon is dropped, slashes are refused. *)
Definition checkname (volname : list Z) : outcome (res (list Z)) :=
  s ← strchr volname 58;
  r ← (match s with
       | Some i =>
           len ← strlen (drop (Z.to_nat i) volname);
           if negb (len =? 1) then Done (Err 1)
           else volname ← patch volname i [0]; Done (Ok volname)
       | None => Done (Ok volname)
       end);
  match r with
  | Err e => Done (Err e)
  | Ok volname =>
      s ← strchr volname 47;
      match s with Some _ => Done (Err 1) | None => Done (Ok volname) end
  end.

(** main, with the disk open and its two arguments. *)
Definition mksfs (fuel : nat) (volname : list Z) f : outcome (res unit * F) :=
  r ← checkname volname;
  match r with
  | Err e => Done (Err e, f)
  | Ok volname =>
      if negb (diskblocksize =? SFS_BLOCKSIZE) then Done (Err 1, f)
      else
        let size := diskblocks f in
        '(r, f) ← writesuper fuel volname size f;
        match r with
        | Err e => Done (Err e, f)
        | Ok _ =>
            '(r, f) ← writerootdir fuel f;
            match r with
            | Err e => Done (Err e, f)
            | Ok _ => writebitmap fuel size f
            end
        end
  end.
End Program.

(** ** What it writes *)

(** A disk in good order: a write call moves some of the bytes. *)
Class RawDiskLaws (F : Type) `{RawDisk F} := {
  rd_ok : F → Prop;
  rd_byte : F → Z → Z;
  rd_write_ok f pos data :
    rd_ok f → 0 ≤ pos → data ≠ [] → pos + Z.of_nat (length data) ≤ rd_size f →
    ∃ len f', rd_write pos data f = (Ok len, f') ∧ 0 < len ≤ Z.of_nat (length data) ∧
      rd_ok f' ∧ rd_size f' = rd_size f ∧
      ∀ o, rd_byte f' o = if decide (pos ≤ o < pos + len) then data !!! Z.to_nat (o - pos) else rd_byte f o;
}.

Section Written.
Context {F : Type} `{RawDiskLaws F}.
Implicit Types f : F.

Definition rd_block f (b : Z) : list Z := (λ k, rd_byte f (b * 512 + Z.of_nat k)) <$> seq 0 512.

(** [f'] is [f] with other contents of the blocks. *)
Definition rewritten f f' (blocks : Z → list Z) : Prop :=
  rd_ok f' ∧ rd_size f' = rd_size f ∧ ∀ b, rd_block f' b = blocks b.

Lemma diskwrite_loop_ok fuel tot base data f :
  rd_ok f → length data = 512%nat → 0 ≤ base → base + 512 ≤ rd_size f → 0 ≤ tot ≤ 512 → 512 - tot ≤ Z.of_nat fuel →
  ∃ f', diskwrite_loop fuel tot (base + tot) data f = Done (Ok tt, f') ∧ rd_ok f' ∧ rd_size f' = rd_size f ∧
    ∀ o, rd_byte f' o = if decide (base + tot ≤ o < base + 512) then data !!! Z.to_nat (o - base) else rd_byte f o.
Proof.
  revert tot f. induction fuel as [|fuel IH]; intros tot f Hok Hlen Hb Hsz Ht Hf.
  { assert (tot = 512) as -> by lia. exists f. split; [done|]. split; [done|]. split; [done|]. intros o. by rewrite decide_False by lia. }
  cbn [diskwrite_loop]. change BLOCKSIZE with 512. destruct (Z.ltb_spec tot 512); cycle 1.
  { assert (tot = 512) as -> by lia. exists f. split; [done|]. split; [done|]. split; [done|]. intros o. by rewrite decide_False by lia. }
  unfold fetch. rewrite (proj2 (andb_true_iff _ _)) by lia. cbn [mbind outcome_bind].
  set (rest := slice data _ _). assert (Hrl : length rest = Z.to_nat (512 - tot)) by (apply slice_length; lia).
  destruct (rd_write_ok f (base + tot) rest) as (len & f1 & -> & Hl & Hok1 & Hsz1 & Hby1); [done|lia| |lia|].
  { intros E. rewrite E in Hrl. cbn in Hrl. lia. }
  rewrite (proj2 (Z.eqb_neq len 0)) by lia. rewrite u32_id by lia.
  replace (base + tot + len) with (base + (tot + len)) by lia.
  destruct (IH (tot + len) f1) as (f' & Hrun & Hok' & Hsz' & Hby'); [done|done|done|lia|lia|lia|].
  exists f'. split; [done|]. split; [done|]. split; [by rewrite Hsz'|]. intros o. rewrite Hby', Hby1.
  destruct (decide (base + (tot + len) ≤ o < base + 512)); [by rewrite decide_True by lia|].
  destruct (decide (base + tot ≤ o < base + tot + len)); [|by rewrite decide_False by lia].
  rewrite decide_True by lia. unfold rest. rewrite !list_lookup_total_alt, slice_lookup by lia. do 2 f_equal. lia.
Qed.

Lemma diskwrite_ok fuel data block f :
  rd_ok f → length data = 512%nat → 0 ≤ block < 2 ^ 22 → (block + 1) * 512 ≤ rd_size f → (512 ≤ fuel)%nat →
  ∃ f', diskwrite fuel data block f = Done (Ok tt, f') ∧
    rewritten f f' (λ b, if decide (b = block) then data else rd_block f b).
Proof.
  intros Hok Hlen Hb Hsz Hf. unfold diskwrite. change BLOCKSIZE with 512.
  rewrite u32_id, s32_id by lia. rewrite (proj2 (Z.ltb_ge _ _)) by lia.
  destruct (diskwrite_loop_ok fuel 0 (block * 512) data f) as (f' & Hrun & Hok' & Hsz' & Hby); [done|done|lia|lia|lia|lia|].
  rewrite Z.add_0_r in *. exists f'. split; [done|]. split; [done|]. split; [done|]. intros b. unfold rd_block.
  apply list_eq. intros k. destruct (decide (k < 512)%nat); cycle 1.
  { rewrite lookup_ge_None_2 by (rewrite length_fmap, length_seq; lia). symmetry. apply lookup_ge_None_2.
    case_decide; [lia|rewrite length_fmap, length_seq; lia]. }
  rewrite list_lookup_fmap, lookup_seq_lt by done. cbn [fmap option_fmap option_map]. rewrite Hby, Nat.add_0_l.
  destruct (decide (b = block)) as [->|].
  - rewrite decide_True by lia. replace (Z.to_nat _) with k by lia. symmetry. apply list_lookup_lookup_total_lt. lia.
  - rewrite decide_False by lia. by rewrite list_lookup_fmap, lookup_seq_lt by done.
Qed.

(** *** The bit map *)

Definition bytes (l : list Z) : Prop := ∀ w, w ∈ l → 0 ≤ w < 2 ^ 8.

Lemma doallocbit_ok bit buf :
  bytes buf → 0 ≤ bit < 8 * Z.of_nat (length buf) → table_bit 8 buf (Z.to_nat bit) = false →
  ∃ buf', doallocbit bit buf = Done buf' ∧ bytes buf' ∧ length buf' = length buf ∧
    ∀ j, table_bit 8 buf' j = if decide (Z.of_nat j = bit) then true else table_bit 8 buf j.
Proof.
  intros Hb Hbit Hclear. unfold doallocbit, byte_at. change CHAR_BIT with 8.
  set (i := Z.to_nat (bit / 8)). set (o := Z.to_nat (bit mod 8)).
  pose proof (Z.div_mod bit 8 ltac:(done)). pose proof (Z.mod_pos_bound bit 8 ltac:(done)).
  pose proof (Z.div_pos bit 8 ltac:(lia) ltac:(done)).
  assert (Hi : (i < length buf)%nat) by lia. assert (Ho : (o < 8)%nat) by lia.
  assert (Hio : Z.to_nat bit = (i * 8 + o)%nat) by lia.
  destruct (lookup_lt_is_Some_2 buf i Hi) as [c Hc]. rewrite Hc. cbn [mbind outcome_bind].
  rewrite bit_mask by lia. replace (bit mod 8) with (Z.of_nat o) by (unfold o; lia).
  assert (Hcb : Z.testbit c (Z.of_nat o) = false).
  { rewrite Hio in Hclear. unfold table_bit in Hclear.
    replace ((i * 8 + o) / 8)%nat with i in Hclear by (apply (Nat.div_unique _ 8 i o); lia).
    replace ((i * 8 + o) mod 8)%nat with o in Hclear by (apply (Nat.mod_unique _ 8 i o); lia).
    by rewrite (list_lookup_total_correct _ _ _ Hc) in Hclear. }
  assert (Hland : Z.land c (2 ^ Z.of_nat o) = 0).
  { apply Z.bits_inj'. intros k Hk. rewrite Z.land_spec, Z.bits_0, Z.pow2_bits_eqb by lia.
    destruct (Z.eqb_spec (Z.of_nat o) k) as [<-|]; [by rewrite Hcb|apply andb_false_r]. }
  rewrite Hland. cbn [kassert Z.eqb mbind outcome_bind]. eexists. split; [done|]. split; [|split; [apply length_insert|]].
  - intros w. apply bytes_insert; [done|]. apply lor_bound; [done|by eapply Hb, list_elem_of_lookup_2|apply pow2_byte; lia].
  - intros j. rewrite (table_bit_set 8 buf c i o Ho Hc). destruct (decide _), (decide _); try done; lia.
Qed.

Lemma doallocbits_ok n i buf :
  bytes buf → 0 ≤ i → i + Z.of_nat n ≤ 8 * Z.of_nat (length buf) →
  (∀ j, i ≤ Z.of_nat j < i + Z.of_nat n → table_bit 8 buf j = false) →
  ∃ buf', doallocbits n i buf = Done buf' ∧ bytes buf' ∧ length buf' = length buf ∧
    ∀ j, table_bit 8 buf' j = if decide (i ≤ Z.of_nat j < i + Z.of_nat n) then true else table_bit 8 buf j.
Proof.
  revert i buf. induction n as [|n IH]; intros i buf Hb Hi Hlen Hclear; cbn [doallocbits].
  { exists buf. split_and!; [done..|]. intros j. by rewrite decide_False by lia. }
  destruct (doallocbit_ok i buf) as (b1 & -> & Hb1 & Hl1 & Hj1); [done|lia|apply Hclear; lia|]. cbn [mbind outcome_bind].
  destruct (IH (i + 1) b1) as (b2 & -> & Hb2 & Hl2 & Hj2); [done|lia|lia| |].
  { intros j Hj. rewrite Hj1, decide_False by lia. apply Hclear. lia. }
  exists b2. split_and!; [done|done|congruence|]. intros j. rewrite Hj2, Hj1.
  repeat case_decide; done || lia.
Qed.

(** The blocks of the map are written out. *)
Lemma writemap_ok fuel n i buf f :
  rd_ok f → 0 ≤ i → (i + Z.of_nat n) * 512 ≤ Z.of_nat (length buf) → i + Z.of_nat n ≤ 32 →
  (SFS_MAP_LOCATION + i + Z.of_nat n) * 512 ≤ rd_size f → (512 ≤ fuel)%nat →
  ∃ f', writemap fuel n i buf f = Done (Ok tt, f') ∧
    rewritten f f' (λ b, if decide (SFS_MAP_LOCATION + i ≤ b < SFS_MAP_LOCATION + i + Z.of_nat n)
                         then map_part buf (b - SFS_MAP_LOCATION) else rd_block f b).
Proof.
  revert i f. induction n as [|n IH]; intros i f Hok Hi Hlen Hmax Hsz Hfuel; cbn [writemap].
  { exists f. split; [done|]. split; [done|]. split; [done|]. intros b. by rewrite decide_False by lia. }
  unfold SFS_MAP_LOCATION in *. unfold fetch, SFS_BLOCKSIZE. rewrite (proj2 (andb_true_iff _ _)) by lia.
  cbn [mbind outcome_bind]. fold (map_part buf i). change (slice buf _ _) with (map_part buf i).
  destruct (diskwrite_ok fuel (map_part buf i) (2 + i) f) as (f1 & -> & Hok1 & Hsz1 & Hb1);
    [done|apply slice_length; lia|lia|lia|done|]. cbn [mbind outcome_bind].
  destruct (IH (i + 1) f1) as (f2 & -> & Hok2 & Hsz2 & Hb2); [done|lia|lia|lia|lia|done|].
  exists f2. split; [done|]. split; [done|]. split; [congruence|]. intros b. rewrite Hb2, Hb1.
  destruct (decide (2 + (i + 1) ≤ b < _)), (decide (2 + i ≤ b < _)), (decide (b = 2 + i)); try done; try lia.
  subst b. f_equal. lia.
Qed.

(** *** A whole volume *)

Lemma super_bytes_length sb :
  length (sp_volname sb) = 32%nat → length (sp_reserved sb) = 118%nat → length (super_bytes sb) = 512%nat.
Proof. intros Hv Hr. unfold super_bytes. rewrite !length_app, !be32_length, be32s_length, Hv, Hr. done. Qed.


(** What is on a new volume of [n] blocks. *)
Record formatted (blk : Z → list Z) (n : Z) (name : list Z) : Prop := {
  fm_super : blk SFS_SB_LOCATION =
    super_bytes (Super SFS_MAGIC n (splice (replicate 32 0) 0 (name ++ [0])) (replicate 118 0));
  fm_root : blk SFS_ROOT_LOCATION = inode_bytes root_inode;
  fm_map : ∃ buf, bytes buf ∧ 512 * SFS_BITBLOCKS n ≤ Z.of_nat (length buf) ∧
    (∀ j, 0 ≤ j < SFS_BITBLOCKS n → blk (SFS_MAP_LOCATION + j) = map_part buf j) ∧
    ∀ i, Z.of_nat i < SFS_BITMAPSIZE n →
      table_bit 8 buf i = bool_decide (Z.of_nat i < SFS_MAP_LOCATION + SFS_BITBLOCKS n ∨ n ≤ Z.of_nat i);
}.

Lemma volume_sizes n :
  3 ≤ n ≤ 131072 → SFS_BITMAPSIZE n = 4096 * SFS_BITBLOCKS n ∧ 1 ≤ SFS_BITBLOCKS n ≤ 32 ∧
    n ≤ SFS_BITMAPSIZE n ∧ 2 + SFS_BITBLOCKS n ≤ n.
Proof.
  intros Hn. destruct (bitmapsize_blocks n ltac:(lia)) as [E H0']. pose proof (bitmapsize_le n ltac:(lia)).
  assert (SFS_BITMAPSIZE n = (n + 4095) / 4096 * 4096) as E2.
  { unfold SFS_BITMAPSIZE, SFS_ROUNDUP. change SFS_BLOCKBITS with 4096. rewrite (u32_id (n + 4096 - 1)) by lia.
    replace (n + 4096 - 1) with (n + 4095) by lia. apply u32_id. Z.to_euclidean_division_equations; lia. }
  rewrite E in *. split_and!; [done|..]; Z.to_euclidean_division_equations; lia.
Qed.

Lemma formatted_ext blk blk' n name :
  3 ≤ n ≤ 131072 → (∀ b, 0 ≤ b < n → blk' b = blk b) → formatted blk n name → formatted blk' n name.
Proof.
  intros Hn Hext [Hsup Hroot (buf & ? & ? & Hmap & ?)]. destruct (volume_sizes _ Hn) as (_ & ? & _ & ?). constructor.
  - rewrite Hext; [done|unfold SFS_SB_LOCATION; lia].
  - rewrite Hext; [done|unfold SFS_ROOT_LOCATION; lia].
  - exists buf. split_and!; [done..| |done]. intros j Hj. rewrite Hext; [by apply Hmap|unfold SFS_MAP_LOCATION; lia].
Qed.

Lemma checkname_ok volname name :
  chars name → 58 ∉ name → 47 ∉ name → cstr volname name ∨ cstr volname (name ++ [58]) →
  ∃ vn, checkname volname = Done (Ok vn) ∧ cstr vn name.
Proof.
  intros Hc H58 H47 Hs. unfold checkname. destruct Hs as [Hs|Hs].
  - rewrite (strchr_absent _ 58 name) by done. cbn [mbind outcome_bind].
    rewrite (strchr_absent _ 47 name) by done. by exists volname.
  - assert (Hc' : chars (name ++ [58])) by (apply Forall_app; split; [done|by repeat constructor]).
    rewrite (strchr_found _ 58 name []) by done. cbn [mbind outcome_bind]. rewrite Nat2Z.id.
    destruct Hs as (rest & -> & H0'). rewrite <- app_assoc. rewrite drop_app_length. cbn [app].
    assert (Hl : strlen (58 :: 0 :: rest) = Done 1) by done. rewrite Hl. cbn [mbind outcome_bind Z.eqb Pos.eqb negb].
    rewrite patch_run by (rewrite ?length_app; cbn [length]; lia). cbn [mbind outcome_bind].
    assert (Hvn : cstr (splice (name ++ 58 :: 0 :: rest) (Z.to_nat (Z.of_nat (length name))) [0]) name).
    { rewrite Nat2Z.id. unfold splice. rewrite take_app_length. cbn [app length].
      eexists. split; [reflexivity|by apply chars_nonzero]. }
    rewrite (strchr_absent _ 47 name) by done. cbn [mbind outcome_bind]. by eexists.
Qed.

Lemma writebitmap_ok fuel n f :
  rd_ok f → 3 ≤ n ≤ 131072 → n * 512 ≤ rd_size f → (512 ≤ fuel)%nat →
  ∃ f' buf, writebitmap fuel n f = Done (Ok tt, f') ∧ bytes buf ∧ 512 * SFS_BITBLOCKS n ≤ Z.of_nat (length buf) ∧
    rewritten f f' (λ b, if decide (SFS_MAP_LOCATION ≤ b < SFS_MAP_LOCATION + SFS_BITBLOCKS n)
                         then map_part buf (b - SFS_MAP_LOCATION) else rd_block f b) ∧
    ∀ i, Z.of_nat i < SFS_BITMAPSIZE n →
      table_bit 8 buf i = bool_decide (Z.of_nat i < SFS_MAP_LOCATION + SFS_BITBLOCKS n ∨ n ≤ Z.of_nat i).
Proof.
  intros Hok Hn Hsz Hfuel. destruct (volume_sizes n Hn) as (Hbits & Hbb & Hle & Hfit). unfold writebitmap.
  change MAXBITBLOCKS with 32.
  assert ((SFS_BITBLOCKS n >? 32) = false) as -> by lia. set (nb := SFS_BITBLOCKS n) in *.
  assert (Hl0 : Z.of_nat (length bitbuf_init) = 16384) by (unfold bitbuf_init; rewrite length_replicate; done).
  assert (Hb0 : bytes bitbuf_init) by (intros w [-> _]%elem_of_replicate; lia).
  assert (Hz : ∀ j, Z.of_nat j < 131072 → table_bit 8 bitbuf_init j = false).
  { intros j Hj. unfold table_bit, bitbuf_init. rewrite lookup_total_replicate_2; [apply Z.bits_0|].
    apply Nat.Div0.div_lt_upper_bound. unfold MAXBITBLOCKS, SFS_BLOCKSIZE. lia. }
  destruct (doallocbit_ok 0 bitbuf_init) as (b1 & E1 & Hb1 & Hl1 & Hj1); [done|lia|apply Hz; lia|].
  change SFS_SB_LOCATION with 0. rewrite E1. cbn [mbind outcome_bind].
  destruct (doallocbit_ok 1 b1) as (b2 & E2 & Hb2 & Hl2 & Hj2); [done|lia|rewrite Hj1, decide_False by lia; apply Hz; lia|].
  change SFS_ROOT_LOCATION with 1. rewrite E2. cbn [mbind outcome_bind]. unfold SFS_MAP_LOCATION in *.
  destruct (doallocbits_ok (Z.to_nat nb) 2 b2) as (b3 & -> & Hb3 & Hl3 & Hj3); [done|lia|lia| |]. 
  { intros j Hj. rewrite Hj2, decide_False, Hj1, decide_False by lia. apply Hz. lia. }
  cbn [mbind outcome_bind].
  destruct (doallocbits_ok (Z.to_nat (SFS_BITMAPSIZE n - n)) n b3) as (b4 & -> & Hb4 & Hl4 & Hj4); [done|lia|lia| |].
  { intros j Hj. rewrite Hj3, decide_False, Hj2, decide_False, Hj1, decide_False by lia. apply Hz. lia. }
  cbn [mbind outcome_bind].
  destruct (writemap_ok fuel (Z.to_nat nb) 0 b4 f) as (f' & -> & Hw); [done|lia|lia|lia|unfold SFS_MAP_LOCATION; lia|done|].
  exists f', b4. split_and!; [done|done|lia| |].
  - destruct Hw as (? & ? & Hw). split_and!; [done..|]. intros b. rewrite Hw. unfold SFS_MAP_LOCATION.
    rewrite Z2Nat.id, Z.add_0_r by lia. reflexivity.
  - intros i Hi. rewrite Hj4, Hj3, Hj2, Hj1, Hz by lia. clear -Hi Hbits Hbb Hfit Hle Hn. repeat case_decide; case_bool_decide; first [reflexivity|exfalso; lia].
Qed.

Lemma rewritten_block f f' g b : rewritten f f' g → rd_block f' b = g b.
Proof. by intros (_ & _ & ?). Qed.

Lemma mksfs_ok fuel volname name f :
  rd_ok f → chars name → 58 ∉ name → 47 ∉ name → (length name < 32)%nat →
  cstr volname name ∨ cstr volname (name ++ [58]) →
  3 ≤ rd_size f / 512 ≤ 131072 → (512 ≤ fuel)%nat →
  ∃ f', mksfs fuel volname f = Done (Ok tt, f') ∧ rd_ok f' ∧ rd_size f' = rd_size f ∧
    formatted (rd_block f') (rd_size f / 512) name.
Proof.
  intros Hok Hc H58 H47 Hlen Hs Hn Hfuel. destruct (checkname_ok volname name Hc H58 H47 Hs) as (vn & E & Hvn).
  unfold mksfs. rewrite E. cbn [mbind outcome_bind]. change (negb (diskblocksize =? SFS_BLOCKSIZE)) with false. cbv iota.
  assert (diskblocks f = rd_size f / 512) as -> by (unfold diskblocks, BLOCKSIZE; apply u32_id; lia).
  set (n := rd_size f / 512) in *. assert (Hsz : n * 512 ≤ rd_size f) by (unfold n; Z.to_euclidean_division_equations; lia).
  destruct (volume_sizes n Hn) as (_ & Hbb & _ & _).
  unfold writesuper. rewrite (strlen_spec _ _ Hvn). cbn [mbind outcome_bind]. change (Z.of_nat SFS_VOLNAME_SIZE) with 32.
  assert ((Z.of_nat (length name) >=? 32) = false) as -> by lia.
  rewrite (strcpy_spec _ _ _ Hvn) by (rewrite length_replicate; exact Hlen). cbn [mbind outcome_bind].
  set (sb := Super _ _ _ _). assert (Hvl : length (sp_volname sb) = 32%nat).
  { cbn [sp_volname sb]. rewrite splice_length; [apply length_replicate|].
    rewrite length_app, length_replicate. unfold SFS_VOLNAME_SIZE. cbn [length]. lia. }
  destruct (diskwrite_ok fuel (super_bytes sb) SFS_SB_LOCATION f) as (f1 & -> & Hw1);
    [done|by apply super_bytes_length|done|unfold SFS_SB_LOCATION; lia|done|]. cbn [mbind outcome_bind].
  pose proof Hw1 as (Hok1 & Hsz1 & _). unfold writerootdir.
  destruct (diskwrite_ok fuel (inode_bytes root_inode) SFS_ROOT_LOCATION f1) as (f2 & -> & Hw2);
    [done|done|done|unfold SFS_ROOT_LOCATION; lia|done|]. cbn [mbind outcome_bind].
  pose proof Hw2 as (Hok2 & Hsz2 & _).
  destruct (writebitmap_ok fuel n f2 Hok2 Hn) as (f3 & buf & -> & Hbuf & Hbl & Hw3 & Hbits); [lia|done|].
  pose proof Hw3 as (Hok3 & Hsz3 & _). exists f3. split_and!; [done|done|congruence|]. constructor.
  - rewrite (rewritten_block _ _ _ _ Hw3), decide_False by (unfold SFS_SB_LOCATION, SFS_MAP_LOCATION; lia).
    rewrite (rewritten_block _ _ _ _ Hw2), decide_False by done. by rewrite (rewritten_block _ _ _ _ Hw1), decide_True.
  - rewrite (rewritten_block _ _ _ _ Hw3), decide_False by (unfold SFS_ROOT_LOCATION, SFS_MAP_LOCATION; lia).
    by rewrite (rewritten_block _ _ _ _ Hw2), decide_True.
  - exists buf. split_and!; [done|done| |done]. intros j Hj. rewrite (rewritten_block _ _ _ _ Hw3), decide_True by lia.
    f_equal. lia.
Qed.
End Written.

(** ** A new volume is an empty file system *)

Section Empty.
Context {D H : Type} `{DiskLaws D} `{KHeapLaws H}.

Definition empty_dir : afile := AFile 0 SFS_TYPE_DIR 1 (λ _, 0).

(** A volume as [formatted] describes it, before anything is read. *)
Definition volume_image (d : D) (n : Z) (buf : list Z) (h : H) (ue : uenv) : sfs D H :=
  Sfs 0 (mounted_super (sector d SFS_SB_LOCATION)) false d (Array 0 0 0 None)
    (Bitmap 0 (SFS_BITMAPSIZE n) 0 (take (Z.to_nat (512 * SFS_BITBLOCKS n)) buf)) false ∅ h ue.

Lemma formatted_super blk n name :
  formatted blk n name → 0 ≤ n < 2 ^ 32 → (length name < 32)%nat →
  sp_magic (mounted_super (blk SFS_SB_LOCATION)) = SFS_MAGIC ∧ sp_nblocks (mounted_super (blk SFS_SB_LOCATION)) = n.
Proof.
  intros [-> _ _] Hn Hlen. unfold mounted_super, super_of, super_bytes, slice.
  cbn [sp_magic sp_nblocks sp_volname sp_reserved]. rewrite drop_0, take_app_length' by done.
  rewrite drop_app_length', take_app_length' by done. split; by apply be32_value.
Qed.

Lemma empty_names : names_ok {[ SFS_ROOT_LOCATION := empty_dir ]} ∅.
Proof.
  constructor.
  - exists empty_dir. rewrite lookup_singleton_eq. split; [done|]. split; [|done].
    assert (Hno : ∀ name ino j, ¬ listed empty_dir name ino j) by (intros name ino j [Hj _]; change (0 ≤ j < 0) in Hj; lia).
    split; [constructor; [done|done|unfold SFS_MAXFILE; cbn; lia|]|].
    + intros name ino ino' j j' Hl. by destruct (Hno _ _ _ Hl).
    + intros name ino. rewrite lookup_empty. split; [done|]. intros [j Hj]. by destruct (Hno _ _ _ Hj).
  - intros ino v [<- _]%lookup_singleton_Some. done.
  - intros name ino. by rewrite lookup_empty.
Qed.

Lemma root_blist (s : sfs D H) : blist s root_inode = replicate 144 0.
Proof. done. Qed.

Lemma root_inode_wf : inode_wf root_inode.
Proof. constructor; [done|by right|done|done|]. split; [done|]. apply Forall_replicate. lia. Qed.

Lemma image_marked d n buf h ue i :
  512 * SFS_BITBLOCKS n ≤ Z.of_nat (length buf) → Z.of_nat i < 4096 * SFS_BITBLOCKS n →
  marked (s_freemap (volume_image d n buf h ue)) i = table_bit 8 buf i.
Proof.
  intros Hl Hi. unfold marked, table_bit. cbn [b_v s_freemap volume_image].
  rewrite !list_lookup_total_alt, lookup_take_lt; [done|]. apply Nat.Div0.div_lt_upper_bound. lia.
Qed.

Lemma image_inv d n name buf h ue :
  disk_ok d → d_blocks d = n → 3 ≤ n ≤ 131072 → (length name < 32)%nat → formatted (sector d) n name →
  bytes buf → 512 * SFS_BITBLOCKS n ≤ Z.of_nat (length buf) →
  (∀ j, 0 ≤ j < SFS_BITBLOCKS n → sector d (SFS_MAP_LOCATION + j) = map_part buf j) →
  (∀ i, Z.of_nat i < SFS_BITMAPSIZE n →
    table_bit 8 buf i = bool_decide (Z.of_nat i < SFS_MAP_LOCATION + SFS_BITBLOCKS n ∨ n ≤ Z.of_nat i)) →
  disk_inv (volume_image d n buf h ue) {[ SFS_ROOT_LOCATION := root_inode ]}.
Proof.
  intros Hok Hd Hn Hlen Hfm Hbuf Hbl Hmap Hbits. set (s := volume_image d n buf h ue).
  destruct (formatted_super _ _ _ Hfm ltac:(lia) Hlen) as [Hmagic Hnb]. change (nblocks s = n) in Hnb.
  destruct (volume_sizes n Hn) as (Hsz & Hbb & Hle & Hfit).
  assert (Hbits' : bitblocks s = SFS_BITBLOCKS n) by (unfold bitblocks; by rewrite Hnb).
  assert (Hused : ∀ b, 0 ≤ b < SFS_BITMAPSIZE n → b < SFS_MAP_LOCATION + SFS_BITBLOCKS n ∨ n ≤ b → used s b).
  { intros b Hb Hor. unfold used. unfold s. rewrite image_marked, Hbits by lia. apply bool_decide_eq_true. lia. }
  assert (Hroot : valid_block s SFS_ROOT_LOCATION).
  { unfold valid_block. rewrite Hnb. unfold SFS_ROOT_LOCATION, SFS_MAP_LOCATION. lia. }
  assert (Hzero : ∀ b, b ∈ blist s root_inode → b = 0).
  { intros b. rewrite root_blist. by intros [-> _]%elem_of_replicate. }
  constructor.
  - constructor; [done|change (nblocks s ≤ d_blocks d); lia|change (nblocks s ≤ 2 ^ 22); lia].
  - constructor; [|change (SFS_BITMAPSIZE n = SFS_BITMAPSIZE (nblocks s)); by rewrite Hnb|rewrite Hbits', Hnb; done|].
    + constructor; cbn [b_nbits b_v s_freemap s volume_image].
      * lia.
      * rewrite length_take. Z.to_euclidean_division_equations; lia.
      * intros w Hw. apply Hbuf. rewrite <- (take_drop (Z.to_nat (512 * SFS_BITBLOCKS n)) buf). apply elem_of_app. by left.
      * intros i. rewrite length_take. lia.
    + intros b Hb Hnv. change (b_nbits (s_freemap s)) with (SFS_BITMAPSIZE n) in Hb. apply Hused; [done|].
      destruct (decide (b = 0)) as [->|]; [left; unfold SFS_MAP_LOCATION; lia|].
      destruct (decide (b < n)); [|lia]. left. apply dec_stable. intros Hge. apply Hnv. unfold valid_block.
      rewrite Hnb, Hbits'. lia.
  - intros ino i [<- <-]%lookup_singleton_Some. split_and!; [apply root_inode_wf| |done|].
    + intros j k b Hj _ Hb. destruct Hb. apply Hzero. by eapply list_elem_of_lookup_2.
    + apply Hused; unfold SFS_ROOT_LOCATION, SFS_MAP_LOCATION; lia.
  - intros ino i b [<- <-]%lookup_singleton_Some Hb Hb0. by apply Hzero in Hb.
  - intros ino i ino' i' b [<- _]%lookup_singleton_Some [<- _]%lookup_singleton_Some. done.
  - done.
  - done.
  - intros ino i [<- <-]%lookup_singleton_Some. right. apply Hfm.
  - constructor; [done|done|done|right]. intros j Hj. rewrite Hbits' in Hj.
    change (sector d (SFS_MAP_LOCATION + j) = slice (take (Z.to_nat (512 * SFS_BITBLOCKS n)) buf) (Z.to_nat (j * 512)) 512).
    rewrite Hmap by done. unfold map_part. apply list_eq. intros k.
    destruct (decide (k < 512)%nat); [by rewrite !slice_lookup, lookup_take_lt by lia|].
    rewrite !lookup_ge_None_2; [done|rewrite slice_length; rewrite ?length_take; lia..].
Qed.

Lemma image_views d n buf h ue :
  views (volume_image d n buf h ue) {[ SFS_ROOT_LOCATION := root_inode ]} {[ SFS_ROOT_LOCATION := empty_dir ]}.
Proof.
  intros ino. destruct (decide (ino = SFS_ROOT_LOCATION)) as [->|Hne]; [|by rewrite !lookup_singleton_ne].
  rewrite !lookup_singleton_eq. split_and!; [done..|]. intros o Ho. symmetry. apply file_byte_hole.
  intros b. rewrite root_blist. by intros [-> _]%elem_of_replicate.
Qed.

(** Mounting a new volume: an empty file system with its root directory. *)
Lemma formatted_mount d n name h ue L :
  disk_ok d → d_blocks d = n → 3 ≤ n ≤ 131072 → (length name < 32)%nat → formatted (sector d) n name →
  heap_owns h L →
  ∃ r d' h', sfs_domount d h ue = Done (r, (d', h', ue)) ∧
    match r with
    | Ok s => runs (sfs_loadvnode SFS_ROOT_LOCATION SFS_TYPE_INVAL) s (λ r s',
        match r with
        | Ok p => represents (s_self s :: b_self (s_freemap s) :: b_addr (s_freemap s) :: L) p s'
                    (AFs ∅ ∅ {[ p := (SFS_ROOT_LOCATION, 1, 0) ]} ue)
        | Err e => e = ENOMEM
        end)
    | Err e => e = ENOMEM ∧ heap_owns h' L
    end.
Proof.
  intros Hok Hd Hn Hlen Hfm Hh. destruct (fm_map _ _ _ Hfm) as (buf & Hbuf & Hbl & Hmap & Hbits).
  set (s0 := volume_image d n buf h ue).
  destruct (mount_root s0 {[ SFS_ROOT_LOCATION := root_inode ]} {[ SFS_ROOT_LOCATION := empty_dir ]} ∅ h ue L)
    as (r & d' & h' & Hrun & Hr); [by eapply image_inv|apply image_views|done|apply empty_names|done|].
  exists r, d', h'. split; [done|]. destruct r as [e|s]; [done|]. eapply runs_mono; [exact Hr|].
  intros [e|p] s'; [done|]. intros (Hu & Hvn & tab & Hns).
  eapply rep_intro; [done|rewrite insert_empty; exact Hns|done|done|done].
Qed.
End Empty.
