(* ===== verification/SfsTheorems.v ===== *)
(** * What the file system promises

    The properties of SFS, of the disk driver under it and of the program
    that makes volumes, from the lemmas of the files before. *)

From S2P Require Import Prelude Ram Kheap KheapSpec KArray Bitmap Bytes Mem CString Uio Device Lhd Sfs SfsOps SfsSpec SfsFile SfsWrite SfsDir SfsTrunc SfsVnode SfsReclaim SfsName SfsSystem SfsMount Mksfs.

Section Volume.
Context {D H : Type} `{DiskLaws D} `{KHeapLaws H}.
Implicit Types s : sfs D H.

Lemma runs_unret {A B} (m : F D H A) (f : A → B) s Q :
  runs (r ← m; mret (f r)) s Q → runs m s (λ r s', Q (f r) s').
Proof.
  intros (b & s' & Hm & HQ). unfold mbind, F_bind in Hm. destruct (m s) as [[r s1]| | |] eqn:E; try done.
  injection Hm as <- <-. by exists r, s1.
Qed.

(** C1: Refinement of the file system.  From a volume that stands for the
    abstract file system [a], every client that keeps to the preconditions
    of the calls (whatever answers it gets) runs to its end without a panic
    or a fault, the calls and answers it sees are steps of the abstract file
    system, and the volume stands for the state these lead to. *)
Theorem sfs_refines rest d c s a :
  represents rest d s a → behaves d c a →
  runs (play d c) s (λ t s', ∃ a', plays c a t a' ∧ represents rest d s' a').
Proof. apply play_refines. Qed.

(** C9: Durability.  sfs_sync succeeds and changes nothing a client sees;
    mounting the disk it leaves, with any heap, either runs out of memory
    (and gives its memory back) or gives a file system with the same files
    under the same names, of which only the root directory is in memory. *)
Theorem sfs_remount rest d s a :
  represents rest d s a →
  runs sfs_sync s (λ r s', r = Ok tt ∧ represents rest d s' a ∧
    ∀ h ue L, heap_owns h L →
    ∃ r d' h', sfs_domount (s_device s') h ue = Done (r, (d', h', ue)) ∧
      match r with
      | Ok s2 => runs (sfs_loadvnode SFS_ROOT_LOCATION SFS_TYPE_INVAL) s2 (λ r s3,
          match r with
          | Ok p => represents (s_self s2 :: b_self (s_freemap s2) :: b_addr (s_freemap s2) :: L) p s3
                      (AFs (fs_files a) (fs_names a) {[ p := (SFS_ROOT_LOCATION, 1, 0) ]} ue)
          | Err e => e = ENOMEM
          end)
      | Err e => e = ENOMEM ∧ heap_owns h' L
      end).
Proof.
  intros Hrep. pose proof Hrep as (files & dv & tab & Hns & Hroot & _). pose proof (ni_fs _ _ _ _ _ _ _ Hns) as Hfs.
  eapply runs_mono; [by eapply sync_run|]. intros r s' (-> & Hfs' & Hcl & Henv & Hu). split; [done|].
  assert (Hns' : ns_inv s' files (<[SFS_ROOT_LOCATION := dv]> (fs_files a)) tab rest d (fs_names a)).
  { eapply ns_same; [exact Hns|exact Hfs'|]. eapply (drop_frame_root s s' (d + 1)); [by apply same_env_drop|lia|apply Hns]. }
  split; [by eapply rep_env|]. intros h ue L Hh.
  destruct (mount_root s' files _ (fs_names a) h ue L (fi_disk _ _ _ _ _ Hfs') (fi_views _ _ _ _ _ Hfs') Hcl
    (ns_names_ok _ _ _ _ _ _ _ Hns') Hh) as (r & d' & h' & Hrun & Hr).
  exists r, d', h'. split; [done|]. destruct r as [e|s2]; [done|]. eapply runs_mono; [exact Hr|].
  intros [e|p] s3; [done|]. intros (Hu3 & Hvn & tab3 & Hns3).
  eapply rep_intro; [done|exact Hns3|done|done|done].
Qed.

(** C12: Reading what was written.  A write of [data] inside the largest file
    size ends with 0 or ENOSPC; when it ends with 0, reading as many bytes
    at the same place gives [data]. *)
Theorem sfs_write_read rest d s a p ino v data o :
  represents rest d s a → file_of a p = Some (ino, v) → af_size v ≤ SFS_MAXFILE →
  0 ≤ o → o + Z.of_nat (length data) ≤ SFS_MAXFILE →
  runs (w ← sfs_write p (mk_kuio data (Z.of_nat (length data)) o UIO_WRITE);
        r ← sfs_read p (mk_kuio (replicate (length data) 0) (Z.of_nat (length data)) o UIO_READ);
        mret (w, r)) s
    (λ '(w, r) _, r.1 = 0 ∧ (w.1 = 0 ∧ kbuf r.2 = data ∨ w.1 = ENOSPC)).
Proof.
  intros Hrep Hf Hsz Ho Hend. set (n := length data) in *. set (u := mk_kuio data _ _ _). set (u' := mk_kuio (replicate n 0) _ _ _).
  assert (Hmax : SFS_MAXFILE < 2 ^ 31) by done.
  apply runs_bind. eapply runs_mono.
  { apply (runs_unret _ RIo), (write_refines rest d s a p u Hrep). split_and!; [by rewrite Hf|apply mk_kuio_ok; lia|done|done|cbn; lia]. }
  intros w s1 (a1 & Hstep & Hrep1). apply write_step_inv in Hstep as (ino' & v' & n' & k & e & Hf' & Hn' & Hcode & [= ->] & ->).
  rewrite Hf in Hf'. injection Hf' as <- <-. assert (n' = n) as -> by (cbn in Hn'; lia). cbn [uio_offset u mk_kuio] in *.
  set (v1 := grown v o (source u (fs_mem a) k)) in *. set (a1 := with_files _ a) in *.
  assert (Hf1 : file_of a1 p = Some (ino, v1)) by by apply file_of_insert with v.
  pose proof (write_code_le _ _ _ _ Hcode) as Hk.
  assert (Hsrc : source u (fs_mem a) k = take k data) by (cbn [source u mk_kuio iov]; unfold slice; by rewrite drop_0).
  assert (Hsz1 : af_size v1 = Z.max (af_size v) (o + Z.of_nat k)).
  { cbn [af_size v1 grown]. rewrite Hsrc, length_take. do 2 f_equal. lia. }
  apply runs_bind. eapply runs_mono.
  { apply (runs_unret _ RIo), (read_refines rest d s1 a1 p u' Hrep1). exists ino, v1.
    split_and!; [done|lia|apply mk_kuio_ok; rewrite ?length_replicate; lia|done|done|cbn; lia]. }
  intros r s2 (a2 & Hstep2 & _). apply runs_ret.
  apply read_step_inv in Hstep2 as (ino' & v' & dat & Hf' & Hdat & [= ->]).
  rewrite Hf1 in Hf'. injection Hf' as <- <-. cbn [fst snd]. split; [done|].
  destruct Hcode as [(-> & -> & _)|(_ & _ & [->|[_ ?]])]; [left|by right|lia]. split; [done|].
  change (kbuf (deliver u' (fs_mem a1) dat).1 = data). cbn [deliver u' mk_kuio iov kbuf uio_step fst].
  assert (dat = data) as ->; [|apply splice_whole; by rewrite length_replicate]. rewrite Hdat. cbn [uio_offset uio_resid u' mk_kuio].
  unfold read_length. rewrite Z.min_l, Nat2Z.id by lia. apply list_eq. intros j.
  destruct (decide (j < n)%nat); [|by rewrite !lookup_ge_None_2 by (rewrite ?abytes_length; lia)].
  rewrite abytes_lookup by done. cbn [af_byte v1 grown]. unfold overwrite. rewrite Hsrc, take_ge by lia.
  rewrite decide_True by lia. replace (Z.to_nat _) with j by lia. destruct (lookup_lt_is_Some_2 data j) as [x ->]; [done|]. done.
Qed.

(** Truncation.  VOP_TRUNCATE of a file to [len] succeeds and sets the
    size; the bytes of the blocks up to the end stay, those past the end go,
    except for the one block that follows the end of a file that reaches
    into its indirect block: its bytes stay and are seen again when the file
    grows. *)
Theorem sfs_truncate_bytes rest d s a p ino v len :
  represents rest d s a → file_of a p = Some (ino, v) → 0 ≤ len < 2 ^ 31 - 511 →
  runs (vop_truncate p len) s (λ r s', r = Ok tt ∧ ∃ v',
    represents rest d s' (with_files (<[ino := v']> (fs_files a)) a) ∧
    af_size v' = len ∧ af_type v' = af_type v ∧ af_links v' = af_links v ∧
    let B := (len + 511) / 512 in
    (∀ o, o / 512 < B → af_byte v' o = af_byte v o) ∧
    (∀ o, B < o / 512 → af_byte v' o = 0) ∧
    (∀ o, o / 512 = B → af_byte v' o = if decide (15 ≤ B) then af_byte v o else 0)).
Proof.
  intros Hrep Hf Hlen. eapply runs_mono.
  { apply (runs_unret _ RUnit), (truncate_refines rest d s a p len Hrep). split; [by rewrite Hf|done]. }
  intros r s' (a' & Hstep & Hrep'). inversion Hstep; subst. split; [done|]. exists (truncated v len).
  match goal with E : file_of a p = Some (?i, ?w) |- _ => rewrite Hf in E; injection E as <- <- end.
  split; [done|]. do 3 (split; [done|]). cbn [af_byte truncated]. unfold kept.
  split_and!; intros o Ho; repeat case_decide; done || lia.
Qed.

(** A write that starts past the largest file size fails, yet leaves the
    file with a size past it: bytes the file can never have. *)
Theorem sfs_write_too_far rest d s a p ino v u :
  represents rest d s a → file_of a p = Some (ino, v) → uio_ok u (fs_mem a) → uio_rw u = UIO_WRITE →
  SFS_MAXFILE < uio_offset u → 0 < uio_resid u → uio_offset u + uio_resid u < 2 ^ 31 →
  runs (sfs_write p u) s (λ r s', r.1 ≠ 0 ∧ ∃ v',
    represents rest d s' (with_files (<[ino := v']> (fs_files a)) a) ∧ SFS_MAXFILE < af_size v').
Proof.
  intros Hrep Hf Hu Hrw Ho Hr Hend. eapply runs_mono.
  { apply (runs_unret _ RIo), (write_refines rest d s a p u Hrep). split_and!; [by rewrite Hf|done|done|unfold SFS_MAXFILE in *; lia|done]. }
  intros r s' (a' & Hstep & Hrep'). apply write_step_inv in Hstep as (ino' & v' & n & k & e & Hf' & Hn & Hcode & [= ->] & ->).
  rewrite Hf in Hf'. injection Hf' as <- <-. split.
  - cbn [fst]. intros ->. destruct Hcode as [(_ & _ & ?)|(_ & _ & [?|[? _]])]; [lia|done..].
  - eexists. split; [exact Hrep'|]. cbn [af_size grown]. lia.
Qed.
End Volume.

(** C14: A new volume.  mksfs on a disk in good order, given a volume name
    it accepts, ends with status 0; mounting any disk with the blocks it
    wrote gives an empty file system, unless memory runs out. *)
Theorem mksfs_mounts {F D H} `{RawDiskLaws F} `{DiskLaws D} `{KHeapLaws H}
    fuel volname name (f : F) :
  rd_ok f → chars name → 58 ∉ name → 47 ∉ name → (length name < 32)%nat →
  cstr volname name ∨ cstr volname (name ++ [58]) →
  3 ≤ rd_size f / 512 ≤ 131072 → (512 ≤ fuel)%nat →
  ∃ f', mksfs fuel volname f = Done (Ok tt, f') ∧
    ∀ (d : D) (h : H) ue L, disk_ok d → d_blocks d = rd_size f / 512 →
      (∀ b, 0 ≤ b < d_blocks d → sector d b = rd_block f' b) → heap_owns h L →
      ∃ r d' h', sfs_domount d h ue = Done (r, (d', h', ue)) ∧
        match r with
        | Ok s => runs (sfs_loadvnode SFS_ROOT_LOCATION SFS_TYPE_INVAL) s (λ r s',
            match r with
            | Ok p => represents (s_self s :: b_self (s_freemap s) :: b_addr (s_freemap s) :: L) p s'
                        (AFs ∅ ∅ {[ p := (SFS_ROOT_LOCATION, 1, 0) ]} ue)
            | Err e => e = ENOMEM
            end)
        | Err e => e = ENOMEM ∧ heap_owns h' L
        end.
Proof.
  intros Hok Hc H58 H47 Hlen Hs Hn Hfuel.
  destruct (mksfs_ok fuel volname name f Hok Hc H58 H47 Hlen Hs Hn Hfuel) as (f' & Hrun & _ & _ & Hfm).
  exists f'. split; [done|]. intros d h ue L Hd Hdn Hsec Hh.
  apply (formatted_mount d (rd_size f / 512) name); [done..| |done].
  eapply formatted_ext; [done| |exact Hfm]. by rewrite <- Hdn.
Qed.

(** ** The disk driver *)

Section Driver.
Context {W : Type} `{LhdCardLaws W}.

(** C28: The disk driver.  Over a card in good order an aligned request for
    one sector moves that sector between the caller's memory and the disk,
    changes no other sector, and leaves the driver ready for the next. *)
Theorem lhd_io_moves_sector (lh : lhd_softc W) s u ue :
  lhd_ok lh → uio_ok u ue → uio_resid u = SECTSIZE → 0 ≤ s < lh_blocks lh → uio_offset u = s * SECTSIZE →
  ∃ lh', lhd_ok lh' ∧ lh_blocks lh' = lh_blocks lh ∧
    match uio_rw u with
    | UIO_READ => lhd_io u lh ue = Done (0, (deliver u ue (card_sector (lh_card lh) s)).1, lh',
                                         (deliver u ue (card_sector (lh_card lh) s)).2) ∧
        ∀ t, card_sector (lh_card lh') t = card_sector (lh_card lh) t
    | UIO_WRITE => lhd_io u lh ue = Done (0, consume u SECTSIZE, lh', ue) ∧
        ∀ t, card_sector (lh_card lh') t = if decide (t = s) then source u ue 512 else card_sector (lh_card lh) t
    end.
Proof.
  intros Hlh Hu Hres Hs Hoff. destruct (uio_rw u) eqn:Hrw.
  - destruct (lhd_read lh s u ue) as (lh' & ? & ? & ? & ?); [done..|]. by exists lh'.
  - destruct (lhd_write lh s u ue) as (lh' & ? & ? & ? & ?); [done..|]. by exists lh'.
Qed.
End Driver.

Section LostWrite.
Context {W H : Type} `{LhdCard W} `{KHeap H}.

(** A lost write.  When the card reports a media error for the write of
    a block, sfs_wblock's retry finds the uio used up, asks the card for
    nothing, and reports success: the card has seen one write, the one that
    failed. *)
Theorem sfs_wblock_lost (s : sfs (lhd_softc W) H) data b w1 :
  let lh := s_device s in
  length data = 512%nat → length (card_buf (lh_card lh)) = 512%nat →
  lh_clear lh = 1 → lh_done lh = 0 → 0 ≤ b < lh_blocks lh → lh_blocks lh < 2 ^ 22 →
  w1 = card_wait (card_wreg LHD_REG_STAT (Z.lor LHD_WORKING LHD_ISWRITE)
         (card_wreg LHD_REG_SECT b (card_setbuf data (lh_card lh)))) →
  Z.land (card_rdreg LHD_REG_STAT w1) LHD_STATEMASK = LHD_MEDIA →
  sfs_wblock data b s =
    Done (Ok tt, set_device (Lhd (card_wreg LHD_REG_STAT 0 w1) EIO 1 0 (lh_blocks lh)) (s_user s) s).
Proof.
  intros lh Hlen Hbuf Hc Hd Hb Hbl Hw1 Hst. unfold sfs_wblock, liftF. unfold mbind at 1, F_bind.
  rewrite SFSUIO_run by lia. cbn [mbind outcome_bind]. set (u := mk_kuio data SFS_BLOCKSIZE (b * 512) UIO_WRITE).
  assert (Hok : uio_ok u (s_user s)) by (apply mk_kuio_ok; unfold SFS_BLOCKSIZE; lia).
  assert (Hsrc : source u (s_user s) 512 = data) by (unfold source; cbn; rewrite <- Hlen; apply slice_all).
  pose proof (lhd_write_media lh b u (s_user s) w1) as Hfail. rewrite Hsrc in Hfail.
  specialize (Hfail ltac:(lia) Hbuf Hc Hd Hok eq_refl eq_refl Hb eq_refl Hw1 Hst).
  destruct (consume_fields u (s_user s) SECTSIZE Hok) as (Hr2 & Ho2 & _); [done|].
  change (uio_offset u) with (b * 512) in Ho2. rewrite s32_id in Ho2 by (unfold SECTSIZE; lia).
  unfold sfs_rwblock. generalize 9%nat as n. intros n. cbn [rwblock_from]. unfold mbind, F_bind, device_io.
  change (d_io u (s_device s)) with (lhd_io u lh). rewrite Hfail. cbn [mbind outcome_bind]. 
  cbn [Z.eqb Pos.eqb EIO EINVAL]. 
  change (d_io (consume u SECTSIZE)) with (lhd_io (W := W) (consume u SECTSIZE)).
  cbn [s_device set_device s_user].
  rewrite (lhd_io_none _ (b + 1)); [done|cbn [lh_blocks]; lia|rewrite Hr2; done|cbn [lh_blocks]; lia|rewrite Ho2; unfold SECTSIZE; lia].
Qed.
End LostWrite.
