(* ===== verification/SfsDemo.v ===== *)
(** * A volume at work

    A simulated disk card, a volume made on it by mksfs, mounted, and used by
    a client: the inputs at which the theorems about the file system are
    applied. *)

From S2P Require Import Prelude Ram Kheap KheapSpec KArray Bitmap Bytes Mem CString Uio Device Lhd Sfs SfsOps SfsSpec SfsFile SfsWrite SfsDir SfsTrunc SfsVnode SfsReclaim SfsName SfsSystem SfsMount Mksfs SfsTheorems SystemDemo.

(** ** The card *)

Record simcard := SimCard {
  sc_nsect : Z;
  sc_sects : gmap Z (list Z);
  sc_buf : list Z;
  sc_sect : Z;
  sc_stat : Z;
  sc_faults : nat;                (* the requests that will fail *)
}.

Definition sim_sector (w : simcard) (s : Z) : list Z := default (replicate 512 0) (sc_sects w !! s).

Definition sim_rdreg (reg : Z) (w : simcard) : Z :=
  if reg =? LHD_REG_NSECT then sc_nsect w else if reg =? LHD_REG_STAT then sc_stat w else sc_sect w.
Definition sim_wreg (reg val : Z) (w : simcard) : simcard :=
  if reg =? LHD_REG_STAT then SimCard (sc_nsect w) (sc_sects w) (sc_buf w) (sc_sect w) val (sc_faults w)
  else SimCard (sc_nsect w) (sc_sects w) (sc_buf w) val (sc_stat w) (sc_faults w).
Definition sim_setbuf (b : list Z) (w : simcard) : simcard :=
  SimCard (sc_nsect w) (sc_sects w) b (sc_sect w) (sc_stat w) (sc_faults w).
Definition sim_wait (w : simcard) : simcard :=
  match sc_faults w with
  | S n => SimCard (sc_nsect w) (sc_sects w) (sc_buf w) (sc_sect w) LHD_MEDIA n
  | O =>
      if sc_stat w =? LHD_WORKING
      then SimCard (sc_nsect w) (sc_sects w) (sim_sector w (sc_sect w)) (sc_sect w) LHD_OK 0
      else SimCard (sc_nsect w) (<[sc_sect w := sc_buf w]> (sc_sects w)) (sc_buf w) (sc_sect w) LHD_OK 0
  end.

#[global] Instance sim_card : LhdCard simcard := {
  card_rdreg := sim_rdreg; card_wreg := sim_wreg; card_buf := sc_buf;
  card_setbuf := sim_setbuf; card_wait := sim_wait;
}.

Definition sim_ok (w : simcard) : Prop :=
  0 ≤ sc_nsect w < 2 ^ 32 ∧ length (sc_buf w) = 512%nat ∧ sc_faults w = 0%nat ∧
  map_Forall (λ _ x, length x = 512%nat) (sc_sects w).

Lemma sim_sector_length w s : sim_ok w → length (sim_sector w s) = 512%nat.
Proof.
  intros (_ & _ & _ & Hs). unfold sim_sector. destruct (sc_sects w !! s) as [x|] eqn:E; [by apply (Hs s)|apply length_replicate].
Qed.

#[global] Instance sim_card_laws : LhdCardLaws simcard.
Proof.
  refine {| card_ok := sim_ok; card_sector := sim_sector |}.
  - by intros w (? & _).
  - by intros w (_ & ? & _).
  - intros w s Hw _. by apply sim_sector_length.
  - intros w s Hw Hs. pose proof (sim_sector_length w s Hw). destruct w as [n sects buf sect stat f].
    destruct Hw as (Hn & Hb & Hf & Hl). cbn in Hf. subst f. done.
  - intros w s b Hw Hs Hb. destruct w as [n sects buf sect stat f].
    destruct Hw as (Hn & Hb' & Hf & Hl). cbn in Hf. subst f. split; [done|]. split; [|split; [done|]].
    + split; [done|]. split; [done|]. split; [done|]. cbn. by apply map_Forall_insert_2.
    + intros t. unfold sim_sector at 2. cbn [sc_sects]. change (sim_sector _ t) with (default (replicate 512 0) (<[s := b]> sects !! t)).
      destruct (decide (t = s)) as [->|]; [by rewrite lookup_insert_eq|by rewrite lookup_insert_ne].
Defined.

(** The same card seen as a file by a program: a write call moves the bytes
    up to the end of a sector. *)
Definition sim_write (pos : Z) (data : list Z) (w : simcard) : res Z * simcard :=
  let o := pos mod 512 in
  let k := Z.min (Z.of_nat (length data)) (512 - o) in
  (Ok k, SimCard (sc_nsect w)
     (<[pos / 512 := splice (sim_sector w (pos / 512)) (Z.to_nat o) (take (Z.to_nat k) data)]> (sc_sects w))
     (sc_buf w) (sc_sect w) (sc_stat w) (sc_faults w)).

#[global] Instance sim_raw : RawDisk simcard := { rd_size w := sc_nsect w * 512; rd_write := sim_write }.

#[global] Instance sim_raw_laws : RawDiskLaws simcard.
Proof.
  refine {| rd_ok := sim_ok; rd_byte := λ w o, sim_sector w (o / 512) !!! Z.to_nat (o mod 512) |}.
  intros w pos data Hw Hpos Hdata Hend. unfold rd_write, sim_raw, sim_write. set (k := Z.min _ _).
  pose proof (Z.mod_pos_bound pos 512 ltac:(done)) as Hm. pose proof (sim_sector_length w (pos / 512) Hw) as Hl.
  assert (Hd : (0 < length data)%nat) by (destruct data; [done|cbn; lia]).
  assert (Hk : 0 < k ≤ Z.of_nat (length data) ∧ k ≤ 512 - pos mod 512) by lia.
  assert (Htk : length (take (Z.to_nat k) data) = Z.to_nat k) by (rewrite length_take; lia).
  eexists k, _. split; [done|]. split; [lia|]. split; [|split; [done|]].
  - destruct Hw as (? & ? & ? & Hs). split; [done|]. split; [done|]. split; [done|]. apply map_Forall_insert_2; [|done].
    rewrite splice_length; lia.
  - intros o. unfold sim_sector at 1. cbn [sc_sects]. destruct (decide (o / 512 = pos / 512)) as [E|E].
    + rewrite E, lookup_insert_eq. cbn [from_option id]. rewrite !list_lookup_total_alt, splice_lookup by lia. rewrite Htk.
      assert (Hoo : pos ≤ o < pos + k ↔ pos mod 512 ≤ o mod 512 < pos mod 512 + k).
      { pose proof (Z.div_mod o 512 ltac:(done)). pose proof (Z.div_mod pos 512 ltac:(done)). lia. }
      pose proof (Z.mod_pos_bound o 512 ltac:(done)).
      destruct (decide (pos ≤ o < pos + k)) as [Hin|Hout].
      * rewrite decide_True by lia. rewrite lookup_take_lt by lia. do 2 f_equal.
        pose proof (Z.div_mod o 512 ltac:(done)). pose proof (Z.div_mod pos 512 ltac:(done)). lia.
      * by rewrite decide_False by lia.
    + rewrite lookup_insert_ne by done. rewrite decide_False; [done|]. intros Hin. apply E.
      pose proof (Z.div_mod o 512 ltac:(done)). pose proof (Z.div_mod pos 512 ltac:(done)).
      pose proof (Z.mod_pos_bound o 512 ltac:(done)). nia.
Defined.

Lemma sim_block w b : sim_ok w → 0 ≤ b → rd_block w b = sim_sector w b.
Proof.
  intros Hw Hb. unfold rd_block. pose proof (sim_sector_length w b Hw) as Hl. apply list_eq. intros k.
  destruct (decide (k < 512)%nat); cycle 1.
  { rewrite !lookup_ge_None_2; [done|lia|rewrite length_fmap, length_seq; lia]. }
  rewrite list_lookup_fmap, lookup_seq_lt by done. cbn [fmap option_fmap option_map rd_byte sim_raw_laws].
  rewrite Nat.add_0_l. replace ((b * 512 + Z.of_nat k) / 512) with b by (Z.to_euclidean_division_equations; lia).
  replace ((b * 512 + Z.of_nat k) mod 512) with (Z.of_nat k) by (Z.to_euclidean_division_equations; lia).
  rewrite Nat2Z.id. symmetry. apply list_lookup_lookup_total_lt. lia.
Qed.

(** ** A volume *)

Definition demo_blank : simcard := SimCard 24 ∅ (replicate 512 0) 0 0 0.
(** mksfs disk t: *)
Definition demo_volname : list Z := [116; 58; 0].
Definition demo_formatted : simcard :=
  match mksfs 512 demo_volname demo_blank with Done (Ok _, w) => w | _ => demo_blank end.
Definition demo_ue : uenv := Uenv ∅ None.
Definition demo_mount := sfs_domount (config_lhd demo_formatted) (Bump 4096 []) demo_ue.

Lemma demo_blank_ok : sim_ok demo_blank.
Proof. split_and!; [done|done|done|done|apply map_Forall_empty]. Qed.

Definition done_ok {A B} (m : outcome (res A * B)) : bool := match m with Done (Ok _, _) => true | _ => false end.
Definition done_val {A B} (a : A) (m : outcome (res A * B)) : A := match m with Done (Ok v, _) => v | _ => a end.
Definition done_st {A B} (b : B) (m : outcome (res A * B)) : B := match m with Done (Ok _, w) => w | _ => b end.

Lemma demo_mksfs_runs : done_ok (mksfs 512 demo_volname demo_blank) = true.
Proof. vm_compute. reflexivity. Qed.
Lemma demo_mount_runs : done_ok demo_mount = true.
Proof. vm_compute. reflexivity. Qed.

Definition no_volume : sfs (lhd_softc simcard) bump :=
  Sfs 0 (Super 0 0 [] []) false (config_lhd demo_blank) (Array 0 0 0 None) (Bitmap 0 0 0 []) false ∅ (Bump 4096 []) demo_ue.
Definition demo_vol : sfs (lhd_softc simcard) bump :=
  done_val no_volume demo_mount.
(** The vnode of the root directory, and the state after getting it. *)
Definition demo_start_open := sfs_loadvnode SFS_ROOT_LOCATION SFS_TYPE_INVAL demo_vol.
Definition demo_root : Z := done_val 0 demo_start_open.
Definition demo_fs : sfs (lhd_softc simcard) bump := done_st no_volume demo_start_open.
Definition demo_rest : list Z :=
  [s_self demo_vol; b_self (s_freemap demo_vol); b_addr (s_freemap demo_vol)].
Definition demo_afs : afs := AFs ∅ ∅ {[ demo_root := (SFS_ROOT_LOCATION, 1, 0) ]} demo_ue.

#[local] Opaque mksfs sfs_domount sfs_loadvnode.

Lemma demo_open_runs : done_ok demo_start_open = true.
Proof. vm_compute. reflexivity. Qed.

Lemma bump_owns_nil : heap_owns (Bump 4096 []) [].
Proof. split; [split; [done|by intros a ?%elem_of_nil]|]. split; [constructor|]. by intros a ?%elem_of_nil. Qed.

Lemma demo_formatted_ok :
  sim_ok demo_formatted ∧ sc_nsect demo_formatted = 24 ∧ formatted (sim_sector demo_formatted) 24 [116].
Proof.
  destruct (mksfs_ok 512 demo_volname [116] demo_blank) as (w & Hrun & Hok & Hsz & Hfm);
    [exact demo_blank_ok|by repeat constructor|set_solver by lia|set_solver by lia|cbn; lia| |done|lia|].
  { right. exists []. split; [done|set_solver by lia]. }
  assert (demo_formatted = w) as -> by (unfold demo_formatted; by rewrite Hrun).
  change (sc_nsect w * 512 = 24 * 512) in Hsz. split; [exact Hok|]. split; [lia|].
  eapply formatted_ext; [| |exact Hfm]; [change (rd_size demo_blank / 512) with 24; lia|].
  intros b Hb. symmetry. apply sim_block; [done|lia].
Qed.

Lemma demo_represents : represents demo_rest demo_root demo_fs demo_afs.
Proof.
  destruct demo_formatted_ok as (Hok & Hn & Hfm).
  destruct (formatted_mount (config_lhd demo_formatted) 24 [116] (Bump 4096 []) demo_ue []) as (r & d' & h' & Hrun & Hr);
    [exact (conj Hok (conj eq_refl (conj eq_refl eq_refl)))|exact Hn|lia|cbn; lia|exact Hfm|exact bump_owns_nil|].
  pose proof demo_mount_runs as Hm. unfold demo_mount in Hm. rewrite Hrun in Hm. destruct r as [e|s]; [done|].
  assert (demo_vol = s) as E by (unfold demo_vol, demo_mount; by rewrite Hrun).
  destruct Hr as (r2 & s2 & Hrun2 & Hr2). pose proof demo_open_runs as Ho. unfold demo_start_open in Ho. rewrite E, Hrun2 in Ho.
  destruct r2 as [e|p]; [done|].
  assert (demo_root = p) as Ep by (unfold demo_root, demo_start_open; by rewrite E, Hrun2).
  assert (demo_fs = s2) as Es by (unfold demo_fs, demo_start_open; by rewrite E, Hrun2).
  unfold demo_rest, demo_afs. rewrite E, Ep, Es. exact Hr2.
Qed.

(** ** A file on it *)

(** The name f, as a C string. *)
Definition demo_name : list Z := [102; 0].
Definition demo_data : list Z := [104; 101; 108; 108; 111].

Lemma demo_name_cstr : cstr demo_name [102].
Proof. exists []. split; [reflexivity|set_solver by lia]. Qed.

(** What creating a file in an empty volume gives. *)
Lemma creat_empty_step a p a' :
  fs_names a = ∅ → fsstep a (Creat demo_name false) (RVnode (Ok p)) a' →
  ∃ ino, file_of a' p = Some (ino, relinked new_file 1) ∧ fs_mem a' = fs_mem a.
Proof.
  intros Hn Hstep. inversion Hstep as [| |? ? ? ino ? ? Hc Hl Ht| ? ? ? ? ino ? ? Hc Hl Hf Ht| | | | | | | | | | | | | | | ]; subst.
  - by rewrite Hn, lookup_empty in Hl.
  - exists ino. split; [|done]. destruct Ht as (r & o & -> & _). unfold file_of. cbn [fs_vnodes fs_files].
    rewrite lookup_insert_eq. cbn. by rewrite lookup_insert_eq.
Qed.

Definition gave_vnode {B} (m : outcome (fsres * B)) : bool := match m with Done (RVnode (Ok _), _) => true | _ => false end.
Lemma demo_creat_ok : gave_vnode (exec demo_root (Creat demo_name false) demo_fs) = true.
Proof. vm_compute. reflexivity. Qed.

Lemma creat_gives_file {D H} `{DiskLaws D} `{KHeapLaws H} rest d (s : sfs D H) a :
  represents rest d s a → fs_names a = ∅ → gave_vnode (exec d (Creat demo_name false) s) = true →
  ∃ s' a' p ino, represents rest d s' a' ∧ file_of a' p = Some (ino, relinked new_file 1) ∧ fs_mem a' = fs_mem a.
Proof.
  intros Hrep Hn Hok. destruct (exec_refines rest d s a (Creat demo_name false) Hrep) as (r & s' & Hrun & a' & Hstep & Hrep').
  { exists [102]. exact demo_name_cstr. }
  rewrite Hrun in Hok. destruct r as [[e|p]| |]; try discriminate.
  destruct (creat_empty_step a p a' Hn Hstep) as (ino & Hf & Hm). by exists s', a', p, ino.
Qed.

Lemma demo_file : ∃ (s : sfs (lhd_softc simcard) bump) a p ino,
  represents demo_rest demo_root s a ∧ file_of a p = Some (ino, relinked new_file 1) ∧ fs_mem a = demo_ue.
Proof. exact (creat_gives_file demo_rest demo_root demo_fs demo_afs demo_represents eq_refl demo_creat_ok). Qed.

(** A client that makes a file and writes to it. *)
Definition demo_client : client :=
  Call (Creat demo_name false) (λ r,
    match r with
    | RVnode (Ok p) => Call (Write p (mk_kuio demo_data 5 0 UIO_WRITE)) (λ _, Stop)
    | _ => Stop
    end).

Lemma demo_client_behaves : behaves demo_root demo_client demo_afs.
Proof.
  split; [exists [102]; exact demo_name_cstr|]. intros r a' Hstep. destruct r as [[e|p]| |]; [exact I| |exact I|exact I].
  destruct (creat_empty_step demo_afs p a' eq_refl Hstep) as (ino & Hf & Hm).
  split; [|intros; exact I]. split; [rewrite Hf; by eexists|]. split; [apply mk_kuio_ok; cbn; lia|]. cbn. split; [done|lia].
Qed.

(** ** The theorems at work *)

Lemma sfs_refines_witness :
  represents demo_rest demo_root demo_fs demo_afs ∧ behaves demo_root demo_client demo_afs ∧
  runs (play demo_root demo_client) demo_fs (λ t s', ∃ a', plays demo_client demo_afs t a' ∧ represents demo_rest demo_root s' a').
Proof.
  split; [exact demo_represents|]. split; [exact demo_client_behaves|].
  apply (sfs_refines demo_rest demo_root demo_client demo_fs demo_afs demo_represents demo_client_behaves).
Defined.

Lemma sfs_remount_witness : ∃ s' : sfs (lhd_softc simcard) bump,
  sfs_sync demo_fs = Done (Ok tt, s') ∧ represents demo_rest demo_root s' demo_afs ∧
  ∃ r d' h', sfs_domount (s_device s') (Bump 4096 []) demo_ue = Done (r, (d', h', demo_ue)).
Proof.
  destruct (sfs_remount demo_rest demo_root demo_fs demo_afs demo_represents) as (r & s' & Hrun & Hr & Hrep & Hm).
  exists s'. rewrite <- Hr. split; [exact Hrun|]. split; [exact Hrep|].
  destruct (Hm (Bump 4096 []) demo_ue [] bump_owns_nil) as (r2 & d' & h' & Hrun2 & _).
  exists r2, d', h'. exact Hrun2.
Defined.

Lemma sfs_write_read_witness : ∃ (s : sfs (lhd_softc simcard) bump) p,
  runs (w ← sfs_write p (mk_kuio demo_data 5 7000 UIO_WRITE);
        r ← sfs_read p (mk_kuio (replicate 5 0) 5 7000 UIO_READ);
        mret (w, r)) s
    (λ '(w, r) _, r.1 = 0 ∧ (w.1 = 0 ∧ kbuf r.2 = demo_data ∨ w.1 = ENOSPC)).
Proof.
  destruct demo_file as (s & a & p & ino & Hrep & Hf & _). exists s, p.
  apply (sfs_write_read demo_rest demo_root s a p ino (relinked new_file 1) demo_data 7000 Hrep Hf); unfold SFS_MAXFILE; cbn; lia.
Defined.

Lemma sfs_truncate_bytes_witness : ∃ (s : sfs (lhd_softc simcard) bump) p,
  runs (vop_truncate p 1000) s (λ r s', r = Ok tt ∧ ∃ a' ino v', represents demo_rest demo_root s' a' ∧
    file_of a' p = Some (ino, v') ∧ af_size v' = 1000).
Proof.
  destruct demo_file as (s & a & p & ino & Hrep & Hf & _). exists s, p.
  eapply runs_mono; [apply (sfs_truncate_bytes demo_rest demo_root s a p ino (relinked new_file 1) 1000 Hrep Hf); lia|].
  intros r s' (Hr & v' & Hrep' & Hsz & _). split; [exact Hr|]. eexists _, ino, v'. split; [exact Hrep'|].
  split; [eapply file_of_insert; exact Hf|exact Hsz].
Defined.

Lemma sfs_write_too_far_witness : ∃ (s : sfs (lhd_softc simcard) bump) p,
  runs (sfs_write p (mk_kuio demo_data 5 (SFS_MAXFILE + 1) UIO_WRITE)) s (λ r s', r.1 ≠ 0).
Proof.
  destruct demo_file as (s & a & p & ino & Hrep & Hf & _). exists s, p.
  eapply runs_mono; [apply (sfs_write_too_far demo_rest demo_root s a p ino (relinked new_file 1) _ Hrep Hf)|].
  - apply mk_kuio_ok; unfold SFS_MAXFILE; cbn; lia.
  - reflexivity.
  - cbn; lia.
  - cbn; lia.
  - unfold SFS_MAXFILE; cbn; lia.
  - intros r s' [Hr _]. exact Hr.
Defined.

Lemma mksfs_mounts_witness : ∃ f' : simcard,
  mksfs 512 demo_volname demo_blank = Done (Ok tt, f').
Proof.
  destruct (mksfs_mounts (D := lhd_softc simcard) (H := bump) 512 demo_volname [116] demo_blank) as (f' & Hrun & _).
  - exact demo_blank_ok.
  - by repeat constructor.
  - set_solver by lia.
  - set_solver by lia.
  - cbn; lia.
  - right. exists []. split; [reflexivity|set_solver by lia].
  - done.
  - lia.
  - exists f'. exact Hrun.
Defined.

Definition demo_sector_uio : uio := mk_kuio (replicate 512 7) 512 (3 * SECTSIZE) UIO_WRITE.

Lemma lhd_io_moves_sector_witness : ∃ lh',
  lhd_io demo_sector_uio (config_lhd demo_blank) demo_ue = Done (0, consume demo_sector_uio SECTSIZE, lh', demo_ue) ∧
  card_sector (lh_card lh') 3 = replicate 512 7 ∧ card_sector (lh_card lh') 4 = replicate 512 0.
Proof.
  destruct (lhd_io_moves_sector (config_lhd demo_blank) 3 demo_sector_uio demo_ue) as (lh' & _ & _ & Hrun & Hsec).
  - exact (conj demo_blank_ok (conj eq_refl (conj eq_refl eq_refl))).
  - apply mk_kuio_ok; unfold SECTSIZE; rewrite ?length_replicate; lia.
  - reflexivity.
  - cbn; lia.
  - reflexivity.
  - exists lh'. split; [exact Hrun|]. split; rewrite Hsec; reflexivity.
Defined.

(** A card whose next request fails. *)
Definition demo_faulty : sfs (lhd_softc simcard) bump :=
  Sfs 0 (Super 0 0 [] []) false (config_lhd (SimCard 24 ∅ (replicate 512 0) 0 0 1)) (Array 0 0 0 None) (Bitmap 0 0 0 []) false ∅
    (Bump 4096 []) demo_ue.

Lemma sfs_wblock_lost_witness : ∃ s',
  sfs_wblock (replicate 512 7) 5 demo_faulty = Done (Ok tt, s') ∧ sc_sects (lh_card (s_device s')) = ∅.
Proof.
  eexists. split.
  - apply (sfs_wblock_lost demo_faulty (replicate 512 7) 5).
    + reflexivity.
    + reflexivity.
    + reflexivity.
    + reflexivity.
    + cbn; lia.
    + cbn; lia.
    + reflexivity.
    + reflexivity.
  - reflexivity.
Defined.
