(* ===== verification/Vm.v ===== *)
(** * Address spaces (kern/vm/addrspace.c, kern/arch/mips/mips/tlb_mips1.S)

    A user process has two regions and a stack, each a run of physical
    pages; the TLB is filled by [vm_fault].  The code of dumbvm.c, which is
    compiled instead of addrspace.c in the earlier configurations, is the
    same.  The file models every operation over physical memory, the TLB and
    the address space structures; VmSpec proves what they do. *)

From S2P Require Import Prelude Ram Mem.

(** ** The TLB

    64 pairs of an entryhi and an entrylo word. *)

Definition NUM_TLB : Z := 64.
Definition TLBHI_VPAGE : Z := 0xfffff000.
Definition TLBLO_PPAGE : Z := 0xfffff000.
Definition TLBLO_DIRTY : Z := 0x400.
Definition TLBLO_VALID : Z := 0x200.
Definition TLBHI_INVALID (entryno : Z) : Z := u32 (Z.shiftl (0x80000 + entryno) 12).
Definition TLBLO_INVALID : Z := 0.

Abbreviation tlb := (list (Z * Z)).

Definition TLB_Write (ehi elo index : Z) (t : tlb) : tlb := <[Z.to_nat index := (ehi, elo)]> t.
Definition TLB_Read (index : Z) (t : tlb) : Z * Z := default (0, 0) (t !! Z.to_nat index).

(** ** State *)

Record addrspace := AddrSpace {
  as_vbase1 : Z;
  as_pbase1 : Z;
  as_npages1 : Z;
  as_vbase2 : Z;
  as_pbase2 : Z;
  as_npages2 : Z;
  as_stackpbase : Z;
}.
Definition SIZEOF_ADDRSPACE : Z := 36.   (* with first_pte and reg, which nothing uses *)

(** The kernel heap gets its pages from the same memory: [heap_ram] is the
    allocator it uses, [with_ram] the heap with that allocator moved on. *)
Class RamHeap (H : Type) := {
  heap_ram : H → ram;
  with_ram : ram → H → H;
}.

Definition USERSTACK : Z := 0x80000000.
Definition DUMBVM_STACKPAGES : Z := 12.
Definition VM_FAULT_READ : Z := 0.
Definition VM_FAULT_WRITE : Z := 1.
Definition VM_FAULT_READONLY : Z := 2.

Record vm (H : Type) := Vm {
  v_spl : Z;                        (* curspl *)
  v_heap : H;
  v_mem : mem;                      (* physical memory, by its address in kseg0 *)
  v_tlb : tlb;
  v_spaces : gmap Z addrspace;      (* the structures allocated, by address *)
  v_cur : Z;                        (* curthread->t_vmspace *)
}.
Arguments Vm {H} _ _ _ _ _ _.
Arguments v_spl {H} _.
Arguments v_heap {H} _.
Arguments v_mem {H} _.
Arguments v_tlb {H} _.
Arguments v_spaces {H} _.
Arguments v_cur {H} _.

Section Vm.
Context {H : Type} `{KHeap H} `{RamHeap H}.
Implicit Types (s : vm H) (a : addrspace).

Definition set_spl spl s : vm H := Vm spl (v_heap s) (v_mem s) (v_tlb s) (v_spaces s) (v_cur s).
Definition set_heap h s : vm H := Vm (v_spl s) h (v_mem s) (v_tlb s) (v_spaces s) (v_cur s).
Definition set_mem m s : vm H := Vm (v_spl s) (v_heap s) m (v_tlb s) (v_spaces s) (v_cur s).
Definition set_tlb t s : vm H := Vm (v_spl s) (v_heap s) (v_mem s) t (v_spaces s) (v_cur s).
Definition set_spaces S s : vm H := Vm (v_spl s) (v_heap s) (v_mem s) (v_tlb s) S (v_cur s).
Definition set_cur p s : vm H := Vm (v_spl s) (v_heap s) (v_mem s) (v_tlb s) (v_spaces s) p.

Definition the_space (p : Z) s : outcome addrspace :=
  match v_spaces s !! p with Some a => Done a | None => Fault end.
Definition put_space (p : Z) a s : vm H := set_spaces (<[p := a]> (v_spaces s)) s.

(** splhigh and splx around the call have no effect of their own. *)
Definition vm_getppages (npages : Z) s : Z * vm H :=
  let '(pa, r) := getppages npages (heap_ram (v_heap s)) in
  (pa, set_heap (with_ram r (v_heap s)) s).

(** ** Page faults *)

(** The slot the loop over the TLB stops at: the turns from [i] on, [n] of
    them. *)
Fixpoint tlb_slot (n : nat) (i : Z) (t : tlb) : option Z :=
  match n with
  | O => None
  | S n =>
      let '(ehi, elo) := TLB_Read i t in
      if negb (Z.land elo TLBLO_VALID =? 0) then tlb_slot n (i + 1) t else Some i
  end.

Definition page_aligned (x : Z) : bool := Z.land x PAGE_FRAME =? x.

(** The assertions on the address space. *)
Definition space_check a : bool :=
  negb (as_vbase1 a =? 0) && negb (as_pbase1 a =? 0) && negb (as_npages1 a =? 0) &&
  negb (as_vbase2 a =? 0) && negb (as_pbase2 a =? 0) && negb (as_npages2 a =? 0) &&
  negb (as_stackpbase a =? 0) &&
  page_aligned (as_vbase1 a) && page_aligned (as_pbase1 a) &&
  page_aligned (as_vbase2 a) && page_aligned (as_pbase2 a) && page_aligned (as_stackpbase a).

(** The physical address of a page, by the segment that holds it. *)
Definition fault_paddr a (faultaddress : Z) : option Z :=
  let vbase1 := as_vbase1 a in
  let vtop1 := u32 (vbase1 + u32 (as_npages1 a * PAGE_SIZE)) in
  let vbase2 := as_vbase2 a in
  let vtop2 := u32 (vbase2 + u32 (as_npages2 a * PAGE_SIZE)) in
  let stackbase := USERSTACK - DUMBVM_STACKPAGES * PAGE_SIZE in
  let stacktop := USERSTACK in
  if (faultaddress >=? vbase1) && (faultaddress <? vtop1)
  then Some (u32 ((faultaddress - vbase1) + as_pbase1 a))
  else if (faultaddress >=? vbase2) && (faultaddress <? vtop2)
  then Some (u32 ((faultaddress - vbase2) + as_pbase2 a))
  else if (faultaddress >=? stackbase) && (faultaddress <? stacktop)
  then Some (u32 ((faultaddress - stackbase) + as_stackpbase a))
  else None.

Definition vm_fault (faulttype faultaddress : Z) s : outcome (Z * vm H) :=
  let spl := v_spl s in
  let s := set_spl SPL_HIGH s in
  let faultaddress := Z.land faultaddress PAGE_FRAME in
  if faulttype =? VM_FAULT_READONLY then Panic
  else if negb ((faulttype =? VM_FAULT_READ) || (faulttype =? VM_FAULT_WRITE))
  then Done (EINVAL, set_spl spl s)
  else if v_cur s =? 0 then Done (EFAULT, s)
  else
    a ← the_space (v_cur s) s;
    kassert (space_check a);;
    match fault_paddr a faultaddress with
    | None => Done (EFAULT, set_spl spl s)
    | Some paddr =>
        kassert (page_aligned paddr);;
        match tlb_slot (Z.to_nat NUM_TLB) 0 (v_tlb s) with
        | Some i =>
            let elo := Z.lor (Z.lor paddr TLBLO_DIRTY) TLBLO_VALID in
            Done (0, set_spl spl (set_tlb (TLB_Write faultaddress elo i (v_tlb s)) s))
        | None => Done (EFAULT, set_spl spl s)
        end
    end.

(** ** Address spaces *)

Definition as_create s : outcome (option Z * vm H) :=
  '(p, h) ← kmalloc SIZEOF_ADDRSPACE (v_heap s);
  match p with
  | None => Done (None, set_heap h s)
  | Some p => Done (Some p, put_space p (AddrSpace 0 0 0 0 0 0 0) (set_heap h s))
  end.

Definition as_destroy (p : Z) s : outcome (vm H) :=
  h ← kfree p (v_heap s);
  Done (set_spaces (delete p (v_spaces s)) (set_heap h s)).

(** for (i=0; i<NUM_TLB; i++) TLB_Write(TLBHI_INVALID(i), TLBLO_INVALID(), i); *)
Fixpoint tlb_flush (n : nat) (i : Z) (t : tlb) : tlb :=
  match n with
  | O => t
  | S n => tlb_flush n (i + 1) (TLB_Write (TLBHI_INVALID i) TLBLO_INVALID i t)
  end.

Definition as_activate s : vm H := set_tlb (tlb_flush (Z.to_nat NUM_TLB) 0 (v_tlb s)) s.

Definition as_define_region (p vaddr sz : Z) s : outcome (Z * vm H) :=
  let sz := u32 (sz + Z.land vaddr 0xfff) in
  let vaddr := Z.land vaddr PAGE_FRAME in
  let sz := Z.land (u32 (sz + PAGE_SIZE - 1)) PAGE_FRAME in
  let npages := sz / PAGE_SIZE in
  a ← the_space p s;
  if as_vbase1 a =? 0 then
    Done (0, put_space p (AddrSpace vaddr (as_pbase1 a) npages
                            (as_vbase2 a) (as_pbase2 a) (as_npages2 a) (as_stackpbase a)) s)
  else if as_vbase2 a =? 0 then
    Done (0, put_space p (AddrSpace (as_vbase1 a) (as_pbase1 a) (as_npages1 a)
                            vaddr (as_pbase2 a) npages (as_stackpbase a)) s)
  else Done (EUNIMP, s).

Definition set_pbase1 pa a : addrspace :=
  AddrSpace (as_vbase1 a) pa (as_npages1 a) (as_vbase2 a) (as_pbase2 a) (as_npages2 a) (as_stackpbase a).
Definition set_pbase2 pa a : addrspace :=
  AddrSpace (as_vbase1 a) (as_pbase1 a) (as_npages1 a) (as_vbase2 a) pa (as_npages2 a) (as_stackpbase a).
Definition set_stackpbase pa a : addrspace :=
  AddrSpace (as_vbase1 a) (as_pbase1 a) (as_npages1 a) (as_vbase2 a) (as_pbase2 a) (as_npages2 a) pa.

Definition as_prepare_load (p : Z) s : outcome (Z * vm H) :=
  a ← the_space p s;
  kassert (as_pbase1 a =? 0);;
  kassert (as_pbase2 a =? 0);;
  kassert (as_stackpbase a =? 0);;
  let '(pa, s) := vm_getppages (as_npages1 a) s in
  let a := set_pbase1 pa a in
  let s := put_space p a s in
  if pa =? 0 then Done (ENOMEM, s)
  else
    let '(pa, s) := vm_getppages (as_npages2 a) s in
    let a := set_pbase2 pa a in
    let s := put_space p a s in
    if pa =? 0 then Done (ENOMEM, s)
    else
      let '(pa, s) := vm_getppages DUMBVM_STACKPAGES s in
      let a := set_stackpbase pa a in
      let s := put_space p a s in
      if pa =? 0 then Done (ENOMEM, s) else Done (0, s).

(** Gives the initial stack pointer. *)
Definition as_define_stack (p : Z) s : outcome Z :=
  a ← the_space p s;
  kassert (negb (as_stackpbase a =? 0));;
  Done USERSTACK.

(** memmove between two runs of pages. *)
Definition copy_pages (dst src npages : Z) s : outcome (vm H) :=
  m ← memmove (PADDR_TO_KVADDR dst) (PADDR_TO_KVADDR src) (u32 (npages * PAGE_SIZE)) (v_mem s);
  Done (set_mem m s).

Definition as_copy (old : Z) s : outcome (Z * option Z * vm H) :=
  '(new, s) ← as_create s;
  match new with
  | None => Done (ENOMEM, None, s)
  | Some new =>
      a ← the_space old s;
      let s := put_space new (AddrSpace (as_vbase1 a) 0 (as_npages1 a) (as_vbase2 a) 0 (as_npages2 a) 0) s in
      '(e, s) ← as_prepare_load new s;
      if negb (e =? 0) then s ← as_destroy new s; Done (ENOMEM, None, s)
      else
        n ← the_space new s;
        kassert (negb (as_pbase1 n =? 0));;
        kassert (negb (as_pbase2 n =? 0));;
        kassert (negb (as_stackpbase n =? 0));;
        s ← copy_pages (as_pbase1 n) (as_pbase1 a) (as_npages1 a) s;
        s ← copy_pages (as_pbase2 n) (as_pbase2 a) (as_npages2 a) s;
        s ← copy_pages (as_stackpbase n) (as_stackpbase a) DUMBVM_STACKPAGES s;
        Done (0, Some new, s)
  end.
End Vm.
