(* ===== verification/VmSpec.v ===== *)
(** * What the address spaces promise

    No two runs of pages meet, the TLB translates as the address space says,
    and a copied space has the bytes of the old one in pages of its own. *)

From S2P Require Import Prelude Ram Mem Vm.

(** ** The heap and the pages

    Allocating and freeing only ever move the page allocator up, and taking
    pages from it leaves the heap in order. *)

Definition ram_above (r r' : ram) : Prop :=
  ram_ok r' ∧ firstpaddr r ≤ firstpaddr r' ∧ lastpaddr r' = lastpaddr r.

Class RamHeapLaws (H : Type) `{KHeapLaws H} `{RamHeap H} := {
  heap_ram_ok (h : H) : heap_ok h → ram_ok (heap_ram h);
  kmalloc_ram (h : H) n r h' : heap_ok h → 0 ≤ n ≤ 2 ^ 31 → kmalloc n h = Done (r, h') → ram_above (heap_ram h) (heap_ram h');
  kfree_ram (h : H) b h' : heap_ok h → live h b → kfree b h = Done h' → ram_above (heap_ram h) (heap_ram h');
  heap_ram_with r (h : H) : heap_ram (with_ram r h) = r;
  with_ram_ok r (h : H) : heap_ok h → ram_above (heap_ram h) r → heap_ok (with_ram r h);
  with_ram_live r (h : H) b : live h b → live (with_ram r h) b;
}.

(** ** The invariant

    [run a k] is the [k]th run of pages of an address space: its base and
    its number of pages.  A base of 0 says that it has not been given. *)

Definition run (a : addrspace) (k : nat) : Z * Z :=
  match k with
  | 0%nat => (as_pbase1 a, as_npages1 a)
  | 1%nat => (as_pbase2 a, as_npages2 a)
  | _ => (as_stackpbase a, DUMBVM_STACKPAGES)
  end.

Definition set_run (k : nat) (pa : Z) (a : addrspace) : addrspace :=
  match k with 0%nat => set_pbase1 pa a | 1%nat => set_pbase2 pa a | _ => set_stackpbase pa a end.

Section Invariant.
Context {H : Type} `{RamHeapLaws H}.
Implicit Types (s : vm H) (a b : addrspace) (L : list Z).

Abbreviation first s := (firstpaddr (heap_ram (v_heap s))).
Abbreviation last s := (lastpaddr (heap_ram (v_heap s))).

Record run_ok (top : Z) (u : Z * Z) : Prop := {
  ro_pages : 0 ≤ u.2 ≤ 2 ^ 19;
  ro_base : 0 < u.1;
  ro_aligned : u.1 mod PAGE_SIZE = 0;
  ro_top : u.1 + u.2 * PAGE_SIZE ≤ top;
}.

(** The regions are of a size as_define_region can be asked for. *)
Definition small a : Prop := 0 ≤ as_npages1 a ≤ 2 ^ 19 ∧ 0 ≤ as_npages2 a ≤ 2 ^ 19.

(** The page structures of [v_spaces] and the blocks of [L] are allocated;
    the runs lie in the memory given out and do not meet. *)
Record vm_inv L s : Prop := {
  vi_heap : heap_owns (v_heap s) ((map_to_list (v_spaces s)).*1 ++ L);
  vi_run p a k : v_spaces s !! p = Some a → (k < 3)%nat → (run a k).1 ≠ 0 → run_ok (first s) (run a k);
  vi_disjoint p q a b j k : v_spaces s !! p = Some a → v_spaces s !! q = Some b →
    (j < 3)%nat → (k < 3)%nat → (p, j) ≠ (q, k) → (run a j).1 ≠ 0 → (run b k).1 ≠ 0 →
    disjoint_ranges (run a j).1 ((run a j).2 * PAGE_SIZE) (run b k).1 ((run b k).2 * PAGE_SIZE);
  vi_mem : mapped (v_mem s) MIPS_KSEG0 (last s);
  vi_small p a : v_spaces s !! p = Some a → small a;
}.

Lemma vi_ram L s : vm_inv L s → ram_ok (heap_ram (v_heap s)).
Proof. intros Hi. apply heap_ram_ok, (vi_heap _ _ Hi). Qed.

Lemma run_set_run a j k pa :
  (j < 3)%nat → (k < 3)%nat → run (set_run j pa a) k = if decide (j = k) then (pa, (run a k).2) else run a k.
Proof. intros. destruct j as [|[|[|]]], k as [|[|[|]]]; (lia || done). Qed.

(** Every run of the new state is one of the old at the same place, but for
    one that may be new. *)
Lemma inv_change L L' s s' p k :
  vm_inv L s → heap_owns (v_heap s') ((map_to_list (v_spaces s')).*1 ++ L') →
  ram_above (heap_ram (v_heap s)) (heap_ram (v_heap s')) → mapped (v_mem s') MIPS_KSEG0 (last s') →
  (∀ q b j, v_spaces s' !! q = Some b → (j < 3)%nat → (run b j).1 ≠ 0 →
    (q, j) = (p, k) ∧ first s ≤ (run b j).1 ∧ run_ok (first s') (run b j) ∨
    ∃ b0, v_spaces s !! q = Some b0 ∧ run b j = run b0 j) →
  (∀ q b, v_spaces s' !! q = Some b → small b) →
  vm_inv L' s'.
Proof.
  intros Hi Hh (Hr & Hf & Hl) Hm Hrun Hsm. split; [done| | |done|done].
  - intros q b j Hq Hj Hb. destruct (Hrun q b j Hq Hj Hb) as [(_ & _ & ?)|(b0 & Hq0 & E)]; [done|].
    rewrite E in *. destruct (vi_run _ _ Hi q b0 j Hq0 Hj Hb). split; [done..|lia].
  - intros q1 q2 b1 b2 j1 j2 Hq1 Hq2 Hj1 Hj2 Hne Hb1 Hb2.
    destruct (Hrun q1 b1 j1 Hq1 Hj1 Hb1) as [(E1 & Hge1 & _)|(c1 & Hc1 & E1)], (Hrun q2 b2 j2 Hq2 Hj2 Hb2) as [(E2 & Hge2 & _)|(c2 & Hc2 & E2)].
    + congruence.
    + rewrite E2 in *. right. destruct (vi_run _ _ Hi q2 c2 j2 Hc2 Hj2 Hb2). lia.
    + rewrite E1 in *. left. destruct (vi_run _ _ Hi q1 c1 j1 Hc1 Hj1 Hb1). lia.
    + rewrite E1, E2 in *. by eapply (vi_disjoint _ _ Hi q1 q2 c1 c2).
Qed.

Lemma keys_insert (S : gmap Z addrspace) p a a' :
  S !! p = Some a → (map_to_list (<[p := a']> S)).*1 ≡ₚ (map_to_list S).*1.
Proof.
  intros Hp. rewrite <- (insert_delete_id _ _ _ Hp) at 2. rewrite <- insert_delete_eq.
  by rewrite !map_to_list_insert by apply lookup_delete_eq.
Qed.

Lemma small_insert s p a L :
  vm_inv L s → small a → ∀ q b, <[p := a]> (v_spaces s) !! q = Some b → small b.
Proof. intros Hi Ha q b [[<- <-]|[_ Hq]]%lookup_insert_Some; [done|by eapply vi_small]. Qed.

Lemma owns_with_ram (h : H) L r : heap_owns h L → ram_above (heap_ram h) r → heap_owns (with_ram r h) L.
Proof.
  intros (Hok & Hnd & Hl) Hr. split; [by apply with_ram_ok|]. split; [done|]. intros b Hb. by apply with_ram_live, Hl.
Qed.

Lemma getppages_run s n :
  ram_ok (heap_ram (v_heap s)) → 0 ≤ n ≤ 2 ^ 19 →
  ∃ pa r, vm_getppages n s = (pa, set_heap (with_ram r (v_heap s)) s) ∧ ram_above (heap_ram (v_heap s)) r ∧
    (pa ≠ 0 → first s ≤ pa ∧ run_ok (firstpaddr r) (pa, n)).
Proof.
  intros Hr Hn. unfold vm_getppages, getppages. rewrite ram_stealmem_spec by done.
  pose proof Hr as [Hlo Hhi Hal]. destruct (Z.gtb_spec (first s + n * PAGE_SIZE) (last s)).
  - exists 0, (heap_ram (v_heap s)). split; [done|]. split; [|done]. split; [done|]. lia.
  - eexists _, _. split; [done|]. unfold PAGE_SIZE in *.
    split; [split; [split; cbn; [lia|lia|by apply page_aligned_add]|cbn; lia]|].
    intros _. split; [lia|]. split; cbn [fst snd firstpaddr]; done || lia.
Qed.

(** One run is taken from the allocator. *)
Lemma give_run L s p a k n :
  vm_inv L s → v_spaces s !! p = Some a → (k < 3)%nat → (run a k).2 = n → 0 ≤ n ≤ 2 ^ 19 →
  ∃ pa h, vm_getppages n s = (pa, set_heap h s) ∧ vm_inv L (put_space p (set_run k pa a) (set_heap h s)) ∧
    first s ≤ firstpaddr (heap_ram h) ∧ lastpaddr (heap_ram h) = last s ∧
    (pa ≠ 0 → first s ≤ pa).
Proof.
  intros Hi Hp Hk Hn Hb. destruct (getppages_run s n (vi_ram _ _ Hi) Hb) as (pa & r & Hrun & Hr & Hpa).
  exists pa, (with_ram r (v_heap s)). rewrite heap_ram_with. split; [done|]. pose proof Hr as (_ & ? & ?).
  split; [|split_and!; [done|done|by intros [? _]%Hpa]].
  eapply (inv_change L L s _ p k Hi); cbn [v_heap v_spaces v_mem put_space set_spaces set_heap]; rewrite ?heap_ram_with.
  - rewrite (keys_insert _ _ _ _ Hp). apply owns_with_ram; [apply Hi|done].
  - done.
  - replace (lastpaddr r) with (last s). apply Hi.
  - intros q b j Hq Hj Hz. destruct (decide (q = p)) as [->|]; cycle 1.
    { rewrite lookup_insert_ne in Hq by done. right. by exists b. }
    rewrite lookup_insert_eq in Hq. injection Hq as <-. rewrite run_set_run in * by done.
    case_decide; [|right; by exists a]. subst k. left. rewrite Hn. by destruct (Hpa Hz).
  - apply small_insert with L; [done|]. pose proof (vi_small _ _ Hi p a Hp). by destruct k as [|[|]].
Qed.

Lemma the_space_Some p a s : v_spaces s !! p = Some a → the_space p s = Done a.
Proof. unfold the_space. by intros ->. Qed.
Lemma put_put_space p a b h s : put_space p b (set_heap h (put_space p a s)) = put_space p b (set_heap h s).
Proof. unfold put_space, set_spaces. cbn. by rewrite insert_insert_eq. Qed.
Lemma set_heap_twice h h' s : set_heap h (set_heap h' s) = set_heap h s.
Proof. done. Qed.

(** as_prepare_load gives every run of an empty space its pages, or runs
    out of memory. *)
Lemma prepare_run L s p a :
  vm_inv L s → v_spaces s !! p = Some a → (∀ k, (k < 3)%nat → (run a k).1 = 0) →
  ∃ e h pa1 pa2 pa3, let a' := AddrSpace (as_vbase1 a) pa1 (as_npages1 a) (as_vbase2 a) pa2 (as_npages2 a) pa3 in
    as_prepare_load p s = Done (e, put_space p a' (set_heap h s)) ∧
    vm_inv L (put_space p a' (set_heap h s)) ∧ first s ≤ firstpaddr (heap_ram h) ∧ lastpaddr (heap_ram h) = last s ∧
    (e = ENOMEM ∨ e = 0 ∧ ∀ k, (k < 3)%nat → (run a' k).1 ≠ 0 ∧ first s ≤ (run a' k).1).
Proof.
  intros Hi Hp Hz. destruct (vi_small _ _ Hi p a Hp) as [Hn1 Hn2]. unfold as_prepare_load, the_space. rewrite Hp. cbn [mbind outcome_bind].
  pose proof (Hz 0%nat ltac:(lia)) as Hz1. pose proof (Hz 1%nat ltac:(lia)) as Hz2. pose proof (Hz 2%nat ltac:(lia)) as Hz3.
  cbn [run fst] in Hz1, Hz2, Hz3. rewrite Hz1, Hz2, Hz3. cbn [mbind outcome_bind kassert Z.eqb].
  destruct (give_run L s p a 0 (as_npages1 a) Hi Hp ltac:(lia) eq_refl Hn1) as (pa1 & h1 & Hr1 & Hi1 & Hf1 & Hl1 & Hp1).
  rewrite Hr1. cbn [set_run] in Hi1. destruct a as [v1 b1 n1 v2 b2 n2 b3]. cbn in Hz1, Hz2, Hz3. subst b1 b2 b3.
  cbn [set_pbase1 set_pbase2 set_stackpbase as_vbase1 as_pbase1 as_npages1 as_vbase2 as_pbase2 as_npages2 as_stackpbase] in *.
  destruct (Z.eqb_spec pa1 0) as [->|Hz1]; [by exists ENOMEM, h1, 0, 0, 0; split_and!; auto|].
  set (s1 := put_space p _ (set_heap h1 s)) in *.
  destruct (give_run L s1 p (AddrSpace v1 pa1 n1 v2 0 n2 0) 1 n2 Hi1) as (pa2 & h2 & Hr2 & Hi2 & Hf2 & Hl2 & Hp2);
    [apply lookup_insert_eq|lia|done|done|]. rewrite Hr2. unfold s1 in *. rewrite !put_put_space, set_heap_twice in *.
  cbn [v_heap put_space set_spaces set_heap] in Hf2, Hl2, Hp2.
  destruct (Z.eqb_spec pa2 0) as [->|Hz2]; [exists ENOMEM, h2, pa1, 0, 0; split_and!; auto; lia|].
  set (s2 := put_space p _ (set_heap h2 s)) in *.
  destruct (give_run L s2 p (AddrSpace v1 pa1 n1 v2 pa2 n2 0) 2 DUMBVM_STACKPAGES Hi2) as (pa3 & h3 & Hr3 & Hi3 & Hf3 & Hl3 & Hp3);
    [apply lookup_insert_eq|lia|done|done|]. rewrite Hr3. unfold s2 in *. rewrite !put_put_space, set_heap_twice in *.
  cbn [v_heap put_space set_spaces set_heap] in Hf3, Hl3, Hp3.
  destruct (Z.eqb_spec pa3 0) as [->|Hz3]; [exists ENOMEM, h3, pa1, pa2, 0; split_and!; auto; lia|].
  exists 0, h3, pa1, pa2, pa3. split_and!; auto; [lia..|]. right. split; [done|].
  intros [|[|k]] Hk; cbn [run fst as_pbase1 as_pbase2 as_stackpbase]; lia.
Qed.

Lemma create_run L s :
  vm_inv L s →
  ∃ r h, ram_above (heap_ram (v_heap s)) (heap_ram h) ∧
    match r with
    | Some p => v_spaces s !! p = None ∧ p ≠ 0 ∧
        as_create s = Done (Some p, put_space p (AddrSpace 0 0 0 0 0 0 0) (set_heap h s)) ∧
        vm_inv L (put_space p (AddrSpace 0 0 0 0 0 0 0) (set_heap h s))
    | None => as_create s = Done (None, set_heap h s) ∧ vm_inv L (set_heap h s)
    end.
Proof.
  intros Hi. destruct (owns_alloc (v_heap s) _ SIZEOF_ADDRSPACE (vi_heap _ _ Hi)) as (r & h & Hrun & Hr); [done|].
  assert (Hab : ram_above (heap_ram (v_heap s)) (heap_ram h)) by (eapply kmalloc_ram; [apply Hi| |done]; done).
  exists r, h. split; [done|]. unfold as_create. rewrite Hrun. cbn [mbind outcome_bind]. pose proof Hab as (_ & _ & Hl).
  assert (Hm : mapped (v_mem s) MIPS_KSEG0 (lastpaddr (heap_ram h))) by (rewrite Hl; apply Hi).
  destruct r as [p|].
  - destruct Hr as [Hp0 Hr]. assert (Hnew : v_spaces s !! p = None).
    { apply eq_None_not_Some. intros [a Ha]. destruct Hr as (_ & [Hni _]%list.NoDup_cons & _). apply Hni, elem_of_app. left.
      apply list_elem_of_fmap. exists (p, a). split; [done|by apply elem_of_map_to_list]. }
    split_and!; [done..|]. apply (inv_change L L s _ p 0 Hi); [|done|done| |]; cbn [v_heap v_spaces put_space set_spaces set_heap].
    + rewrite map_to_list_insert by done. done.
    + intros q b j Hq Hj Hb. right. destruct (decide (q = p)) as [->|]; [|rewrite lookup_insert_ne in Hq by done; by exists b].
      rewrite lookup_insert_eq in Hq. injection Hq as <-. by destruct j as [|[|]].
    + by apply small_insert with L.
  - split; [done|]. apply (inv_change L L s _ 0 0 Hi); [done..| |exact (vi_small _ _ Hi)]. intros q b j Hq Hj Hb. right. by exists b.
Qed.

Lemma destroy_run L s p a :
  vm_inv L s → v_spaces s !! p = Some a →
  ∃ h, as_destroy p s = Done (set_spaces (delete p (v_spaces s)) (set_heap h s)) ∧
    vm_inv L (set_spaces (delete p (v_spaces s)) (set_heap h s)).
Proof.
  intros Hi Hp. pose proof (vi_heap _ _ Hi) as Hh.
  rewrite <- (insert_delete_id _ _ _ Hp), map_to_list_insert in Hh by apply lookup_delete_eq.
  destruct (owns_free (v_heap s) p ((map_to_list (delete p (v_spaces s))).*1 ++ L) Hh) as (h & Hrun & Hown).
  assert (Hab : ram_above (heap_ram (v_heap s)) (heap_ram h)).
  { eapply kfree_ram; [apply Hi| |done]. apply Hh. left. }
  exists h. unfold as_destroy. rewrite Hrun. split; [done|]. pose proof Hab as (_ & _ & Hl).
  apply (inv_change L L s _ 0 0 Hi); [done|done|cbn [v_heap v_mem set_spaces set_heap]; rewrite Hl; apply Hi|..].
  - intros q b j Hq Hj Hb. right. exists b. cbn in Hq. by apply lookup_delete_Some in Hq as [_ ?].
  - intros q b Hq. cbn in Hq. apply lookup_delete_Some in Hq as [_ Hq]. by eapply vi_small.
Qed.

(** ** Translation

    The run that holds a user address and the place in it. *)

Definition stackbase : Z := USERSTACK - DUMBVM_STACKPAGES * PAGE_SIZE.

Definition locate a (va : Z) : option (nat * Z) :=
  if decide (as_vbase1 a ≤ va < as_vbase1 a + as_npages1 a * PAGE_SIZE) then Some (0%nat, va - as_vbase1 a)
  else if decide (as_vbase2 a ≤ va < as_vbase2 a + as_npages2 a * PAGE_SIZE) then Some (1%nat, va - as_vbase2 a)
  else if decide (stackbase ≤ va < USERSTACK) then Some (2%nat, va - stackbase)
  else None.

Definition translate a (va : Z) : option Z := '(k, o) ← locate a va; Some ((run a k).1 + o).

(** The byte a process sees at an address. *)
Definition user_byte s a (va : Z) : option Z := pa ← translate a va; v_mem s !! (MIPS_KSEG0 + pa).

(** A space a process can run in. *)
Record loaded a : Prop := {
  ld_check : space_check a = true;
  ld_range1 : 0 ≤ as_vbase1 a ∧ as_vbase1 a + as_npages1 a * PAGE_SIZE < 2 ^ 32;
  ld_range2 : 0 ≤ as_vbase2 a ∧ as_vbase2 a + as_npages2 a * PAGE_SIZE < 2 ^ 32;
}.

Lemma locate_bound a va k o :
  locate a va = Some (k, o) → (k < 3)%nat ∧ 0 ≤ o < (run a k).2 * PAGE_SIZE.
Proof.
  unfold locate, stackbase. intros Hl.
  repeat case_decide; try done; injection Hl as <- <-; cbn [run snd]; (split; [lia|]); unfold PAGE_SIZE, DUMBVM_STACKPAGES, USERSTACK in *; lia.
Qed.

Lemma loaded_bases a k : loaded a → (k < 3)%nat → (run a k).1 ≠ 0.
Proof.
  intros Hl Hk. pose proof (ld_check _ Hl) as Hc. unfold space_check in Hc.
  repeat (apply andb_true_iff in Hc as [Hc ?]). destruct k as [|[|[|]]]; cbn [run fst]; lia.
Qed.

(** Two addresses never share memory, in one space or in two. *)
Lemma translate_inj L s p q a b va vb pa :
  vm_inv L s → v_spaces s !! p = Some a → v_spaces s !! q = Some b → loaded a → loaded b →
  translate a va = Some pa → translate b vb = Some pa → p = q ∧ va = vb.
Proof.
  intros Hi Hp Hq Ha Hb Hta Htb. unfold translate in *.
  destruct (locate a va) as [[j o]|] eqn:Ea; [|done]. destruct (locate b vb) as [[k u]|] eqn:Eb; [|done].
  cbn in Hta, Htb. injection Hta as Hta. injection Htb as Htb.
  destruct (locate_bound _ _ _ _ Ea) as [Hj Ho], (locate_bound _ _ _ _ Eb) as [Hk Hu].
  destruct (decide ((p, j) = (q, k))) as [[= <- <-]|Hne]; cycle 1.
  { pose proof (vi_disjoint _ _ Hi p q a b j k Hp Hq Hj Hk Hne (loaded_bases _ _ Ha Hj) (loaded_bases _ _ Hb Hk)).
    unfold disjoint_ranges in *. lia. }
  split; [done|]. rewrite Hp in Hq. injection Hq as <-. assert (o = u) as <- by lia. clear -Ea Eb.
  unfold locate in *. repeat case_decide; congruence || (injection Ea; injection Eb; lia).
Qed.

(** *** Copies *)

Lemma kvaddr_ok pa : 0 ≤ pa < 2 ^ 31 → PADDR_TO_KVADDR pa = MIPS_KSEG0 + pa.
Proof. intros. unfold PADDR_TO_KVADDR, MIPS_KSEG0. rewrite u32_id; lia. Qed.

Lemma copy_pages_run s dst src n :
  0 ≤ n ≤ 2 ^ 19 → 0 ≤ dst → 0 ≤ src → dst + n * PAGE_SIZE ≤ last s → src + n * PAGE_SIZE ≤ last s →
  last s ≤ 508 * 1024 * 1024 → mapped (v_mem s) MIPS_KSEG0 (last s) →
  ∃ m, copy_pages dst src n s = Done (set_mem m s) ∧
    copied (v_mem s) m (MIPS_KSEG0 + dst) (MIPS_KSEG0 + src) (n * PAGE_SIZE).
Proof.
  intros Hn Hd Hs Htd Hts Hl Hm. unfold copy_pages. unfold PAGE_SIZE in *. rewrite !kvaddr_ok, u32_id by lia.
  destruct (memmove_spec (MIPS_KSEG0 + dst) (MIPS_KSEG0 + src) (n * 4096) (v_mem s)) as (m & -> & Hc);
    [lia|intros b Hb; apply Hm; lia..|]. by exists m.
Qed.

(** Three copies upwards, to areas that do not meet. *)
Lemma three_copies (m m1 m2 m3 : mem) f (src dst len : nat → Z) :
  copied m m1 (dst 0%nat) (src 0%nat) (len 0%nat) → copied m1 m2 (dst 1%nat) (src 1%nat) (len 1%nat) →
  copied m2 m3 (dst 2%nat) (src 2%nat) (len 2%nat) →
  (∀ k, (k < 3)%nat → src k + len k ≤ f ≤ dst k) →
  (∀ j k, (j < 3)%nat → (k < 3)%nat → j ≠ k → disjoint_ranges (dst j) (len j) (dst k) (len k)) →
  (∀ k o, (k < 3)%nat → 0 ≤ o < len k → m3 !! (dst k + o) = m !! (src k + o)) ∧
  ∀ x, x < f → m3 !! x = m !! x.
Proof.
  intros C1 C2 C3 Hf Hd. pose proof (Hf 0%nat ltac:(lia)). pose proof (Hf 1%nat ltac:(lia)). pose proof (Hf 2%nat ltac:(lia)).
  pose proof (Hd 0 1 ltac:(lia) ltac:(lia) ltac:(lia))%nat as D01. pose proof (Hd 0 2 ltac:(lia) ltac:(lia) ltac:(lia))%nat as D02.
  pose proof (Hd 1 2 ltac:(lia) ltac:(lia) ltac:(lia))%nat as D12. unfold disjoint_ranges in *.
  split; [intros [|[|[|]]] o Hk Ho; [..|lia]|intros x Hx].
  - rewrite C3, decide_False by lia. rewrite C2, decide_False by lia. rewrite C1, decide_True by lia. f_equal. lia.
  - rewrite C3, decide_False by lia. rewrite C2, decide_True by lia. rewrite C1, decide_False by lia. f_equal. lia.
  - rewrite C3, decide_True by lia. rewrite C2, decide_False by lia. rewrite C1, decide_False by lia. f_equal. lia.
  - rewrite C3, decide_False by lia. rewrite C2, decide_False by lia. rewrite C1, decide_False by lia. done.
Qed.

(** What as_copy makes of space [a] at [q]: the same bytes, in pages of its
    own; the other spaces and their bytes are left alone. *)
Definition copy_made s s' a q : Prop :=
  v_spaces s !! q = None ∧ (∀ p, p ≠ q → v_spaces s' !! p = v_spaces s !! p) ∧
  ∃ b, v_spaces s' !! q = Some b ∧ loaded b ∧ (∀ va, user_byte s' b va = user_byte s a va) ∧
    (∀ p c va, v_spaces s !! p = Some c → loaded c → user_byte s' c va = user_byte s c va).

Lemma user_byte_low s s' L p c va :
  vm_inv L s → v_spaces s !! p = Some c → loaded c →
  (∀ x, x < MIPS_KSEG0 + first s → v_mem s' !! x = v_mem s !! x) → user_byte s' c va = user_byte s c va.
Proof.
  intros Hi Hp Hc Hm. unfold user_byte, translate. destruct (locate c va) as [[k o]|] eqn:E; [|done]. cbn.
  destruct (locate_bound _ _ _ _ E) as [Hk Ho]. destruct (vi_run _ _ Hi p c k Hp Hk (loaded_bases _ _ Hc Hk)).
  apply Hm. lia.
Qed.

(** The check of vm_fault, as the invariant gives it. *)
Lemma aligned_mod x : 0 ≤ x < 2 ^ 32 → x mod PAGE_SIZE = 0 → page_aligned x = true.
Proof.
  intros Hx Hm. unfold page_aligned. rewrite land_page_frame by done. apply Z.eqb_eq.
  unfold PAGE_SIZE in *. pose proof (Z.div_mod x 4096 ltac:(done)). lia.
Qed.

Lemma loaded_copy L s q b a :
  vm_inv L s → v_spaces s !! q = Some b → loaded a → (∀ k, (k < 3)%nat → (run b k).1 ≠ 0) →
  as_vbase1 b = as_vbase1 a → as_npages1 b = as_npages1 a → as_vbase2 b = as_vbase2 a → as_npages2 b = as_npages2 a →
  loaded b.
Proof.
  intros Hi Hq Ha Hz E1 E2 E3 E4. pose proof (ld_check _ Ha) as Hc. unfold space_check in Hc.
  repeat (apply andb_true_iff in Hc as [Hc ?]).
  assert (Hal : ∀ k, (k < 3)%nat → page_aligned (run b k).1 = true).
  { intros k Hk. destruct (vi_run _ _ Hi q b k Hq Hk (Hz k Hk)) as [? ? ? Htop]. apply aligned_mod; [|done].
    pose proof (vi_ram _ _ Hi) as [_ ? _]. unfold PAGE_SIZE in Htop. lia. }
  pose proof (Hal 0%nat ltac:(lia)). pose proof (Hal 1%nat ltac:(lia)). pose proof (Hal 2%nat ltac:(lia)).
  pose proof (Hz 0%nat ltac:(lia)). pose proof (Hz 1%nat ltac:(lia)). pose proof (Hz 2%nat ltac:(lia)).
  destruct Ha as [_ Hr1 Hr2]. cbn [run fst] in *. split; [|congruence..].
  unfold space_check. rewrite E1, E2, E3, E4. repeat (apply andb_true_iff; split); done || lia.
Qed.

Lemma inv_mem L s m : vm_inv L s → mapped m MIPS_KSEG0 (last s) → vm_inv L (set_mem m s).
Proof.
  intros Hi Hm. apply (inv_change L L s _ 0 0 Hi); [apply Hi|split; [apply (vi_ram _ _ Hi)|cbn; lia]|done| |exact (vi_small _ _ Hi)].
  intros q b j Hq _ _. right. by exists b.
Qed.

(** The three runs of [a] copied to those of [b]. *)
Lemma copy_runs_run L s p q a b :
  vm_inv L s → v_spaces s !! p = Some a → v_spaces s !! q = Some b → loaded a → loaded b →
  (∀ k, (k < 3)%nat → (run b k).2 = (run a k).2) →
  ∀ f, (∀ k, (k < 3)%nat → (run a k).1 + (run a k).2 * PAGE_SIZE ≤ f ≤ (run b k).1) →
  ∃ m, (s1 ← copy_pages (as_pbase1 b) (as_pbase1 a) (as_npages1 a) s;
        s2 ← copy_pages (as_pbase2 b) (as_pbase2 a) (as_npages2 a) s1;
        copy_pages (as_stackpbase b) (as_stackpbase a) DUMBVM_STACKPAGES s2) = Done (set_mem m s) ∧
    mapped m MIPS_KSEG0 (last s) ∧
    (∀ k o, (k < 3)%nat → 0 ≤ o < (run a k).2 * PAGE_SIZE →
      m !! (MIPS_KSEG0 + (run b k).1 + o) = v_mem s !! (MIPS_KSEG0 + (run a k).1 + o)) ∧
    ∀ x, x < MIPS_KSEG0 + f → m !! x = v_mem s !! x.
Proof.
  intros Hi Hp Hq Ha Hb Hn f Hf. pose proof (vi_ram _ _ Hi) as [_ Hhi _].
  assert (Hone : ∀ k s1, (k < 3)%nat → v_heap s1 = v_heap s → mapped (v_mem s1) MIPS_KSEG0 (last s) →
    ∃ m, copy_pages (run b k).1 (run a k).1 (run a k).2 s1 = Done (set_mem m s1) ∧
      copied (v_mem s1) m (MIPS_KSEG0 + (run b k).1) (MIPS_KSEG0 + (run a k).1) ((run a k).2 * PAGE_SIZE) ∧
      mapped m MIPS_KSEG0 (last s)).
  { intros k s1 Hk Eh Hm. destruct (vi_run _ _ Hi p a k Hp Hk (loaded_bases _ _ Ha Hk)).
    destruct (vi_run _ _ Hi q b k Hq Hk (loaded_bases _ _ Hb Hk)) as [_ ? _ Htop]. rewrite (Hn k Hk) in Htop.
    destruct (copy_pages_run s1 (run b k).1 (run a k).1 (run a k).2) as (m & Hrun & Hc); rewrite ?Eh; try lia; [done|].
    exists m. split; [done|]. split; [done|]. eapply copied_mapped; [exact Hc|intros x Hx; apply Hm; lia|done]. }
  destruct (Hone 0%nat s) as (m1 & R1 & C1 & M1); [lia|done|apply Hi|]. cbn [run fst snd] in R1. rewrite R1. cbn [mbind outcome_bind].
  destruct (Hone 1%nat (set_mem m1 s)) as (m2 & R2 & C2 & M2); [lia|done|done|]. cbn [run fst snd] in R2. rewrite R2. cbn [mbind outcome_bind].
  destruct (Hone 2%nat (set_mem m2 s)) as (m3 & R3 & C3 & M3); [lia|done|done|]. cbn [run fst snd] in R3. exists m3.
  split; [exact R3|]. split; [done|].
  apply (three_copies (v_mem s) m1 m2 m3 (MIPS_KSEG0 + f) (λ k, MIPS_KSEG0 + (run a k).1) (λ k, MIPS_KSEG0 + (run b k).1)
    (λ k, (run a k).2 * PAGE_SIZE) C1 C2 C3).
  - intros k Hk. specialize (Hf k Hk). lia.
  - intros j k Hj Hk Hjk. rewrite <- !Hn by done.
    pose proof (vi_disjoint _ _ Hi q q b b j k Hq Hq Hj Hk ltac:(congruence) (loaded_bases _ _ Hb Hj) (loaded_bases _ _ Hb Hk)).
    unfold disjoint_ranges in *. lia.
Qed.

(** The new space with the regions of [a] and no pages. *)
Definition bare a : addrspace := AddrSpace (as_vbase1 a) 0 (as_npages1 a) (as_vbase2 a) 0 (as_npages2 a) 0.

Lemma inv_bare L s q c a :
  vm_inv L s → v_spaces s !! q = Some c → small a → vm_inv L (put_space q (bare a) s).
Proof.
  intros Hi Hq Ha. apply (inv_change L L s _ 0 0 Hi).
  - cbn [v_heap v_spaces put_space set_spaces]. rewrite (keys_insert _ _ _ _ Hq). apply Hi.
  - split; [apply (vi_ram _ _ Hi)|cbn; lia].
  - apply Hi.
  - intros p b j Hp Hj Hb. right. cbn in Hp. destruct (decide (p = q)) as [->|]; cycle 1.
    { exists b. rewrite lookup_insert_ne in Hp by done. done. }
    rewrite lookup_insert_eq in Hp. injection Hp as <-. by destruct j as [|[|]].
  - by apply small_insert with L.
Qed.

(** What is left to do once the new space has its pages. *)
Lemma copy_finish L s s3 p q a b :
  vm_inv L s → v_spaces s !! p = Some a → loaded a → v_spaces s !! q = None → v_mem s3 = v_mem s →
  vm_inv L s3 → v_spaces s3 = <[q := b]> (v_spaces s) →
  as_vbase1 b = as_vbase1 a → as_npages1 b = as_npages1 a → as_vbase2 b = as_vbase2 a → as_npages2 b = as_npages2 a →
  (∀ k, (k < 3)%nat → (run b k).1 ≠ 0 ∧ first s ≤ (run b k).1) →
  ∃ m, (s1 ← copy_pages (as_pbase1 b) (as_pbase1 a) (as_npages1 a) s3;
        s2 ← copy_pages (as_pbase2 b) (as_pbase2 a) (as_npages2 a) s1;
        copy_pages (as_stackpbase b) (as_stackpbase a) DUMBVM_STACKPAGES s2) = Done (set_mem m s3) ∧
    vm_inv L (set_mem m s3) ∧ copy_made s (set_mem m s3) a q.
Proof.
  intros Hi Hp Ha Hq Em Hi3 ES E1 E2 E3 E4 Hnz. assert (Hpq : p ≠ q) by congruence.
  assert (Hq3 : v_spaces s3 !! q = Some b) by (rewrite ES; apply lookup_insert_eq).
  assert (Hp3 : v_spaces s3 !! p = Some a) by (rewrite ES; by rewrite lookup_insert_ne).
  assert (Hb : loaded b) by (eapply (loaded_copy L s3 q b a); try done; intros k Hk; apply (Hnz k Hk)).
  assert (Hn : ∀ k, (k < 3)%nat → (run b k).2 = (run a k).2) by (intros [|[|[|]]] ?; cbn [run snd]; done || lia).
  destruct (copy_runs_run L s3 p q a b Hi3 Hp3 Hq3 Ha Hb Hn (first s)) as (m & Hrun & Hmap & Hnew & Hold).
  { intros k Hk. destruct (Hnz k Hk), (vi_run _ _ Hi p a k Hp Hk (loaded_bases _ _ Ha Hk)). lia. }
  exists m. split; [done|]. split; [by apply inv_mem|]. split; [done|].
  split; [intros c Hc; cbn; rewrite ES; by rewrite lookup_insert_ne|]. exists b. split; [done|]. split; [done|]. split.
  - intros va. unfold user_byte, translate. assert (locate b va = locate a va) as -> by (unfold locate; by rewrite E1, E2, E3, E4).
    destruct (locate a va) as [[k o]|] eqn:El; [|done]. destruct (locate_bound _ _ _ _ El) as [Hk Ho].
    cbn. rewrite !Z.add_assoc, (Hnew k o Hk Ho). by rewrite Em.
  - intros c x va Hc Hx. eapply user_byte_low; [exact Hi|exact Hc|exact Hx|]. intros y Hy. cbn. rewrite Hold by lia. by rewrite Em.
Qed.

Lemma copy_run L s p a :
  vm_inv L s → v_spaces s !! p = Some a → loaded a →
  ∃ e r s', as_copy p s = Done (e, r, s') ∧ vm_inv L s' ∧
    v_tlb s' = v_tlb s ∧ v_cur s' = v_cur s ∧ v_spl s' = v_spl s ∧
    match r with
    | Some q => e = 0 ∧ copy_made s s' a q
    | None => e = ENOMEM ∧ v_spaces s' = v_spaces s ∧ v_mem s' = v_mem s
    end.
Proof.
  intros Hi Hp Ha. destruct (create_run L s Hi) as (r & h & (Hok & Hf & Hl) & Hr). unfold as_copy.
  destruct r as [q|]; [|destruct Hr as [-> Hi1]; exists ENOMEM, None, (set_heap h s); done].
  destruct Hr as (Hq & Hq0 & -> & Hi1). cbn [mbind outcome_bind]. assert (Hpq : p ≠ q) by congruence.
  rewrite (the_space_Some p a) by (by apply lookup_insert_Some; right). cbn [mbind outcome_bind].
  pose proof (inv_bare L _ q _ a Hi1 ltac:(apply lookup_insert_eq) (vi_small _ _ Hi p a Hp)) as Hi2. unfold bare in Hi2.
  set (s2 := put_space q (AddrSpace (as_vbase1 a) 0 _ _ 0 _ 0) _) in *.
  destruct (prepare_run L s2 q (bare a) Hi2) as (e & h3 & pa1 & pa2 & pa3 & Hrun & Hi3 & Hf3 & Hl3 & He);
    [apply lookup_insert_eq|by intros [|[|]]|]. cbv zeta in Hrun, Hi3, He. rewrite Hrun. cbn [mbind outcome_bind].
  set (b := AddrSpace _ pa1 _ _ pa2 _ pa3) in *. set (s3 := put_space q b (set_heap h3 s2)) in *.
  assert (ES : v_spaces s3 = <[q := b]> (v_spaces s)) by (cbn; by rewrite !insert_insert_eq).
  assert (Hq3 : v_spaces s3 !! q = Some b) by apply lookup_insert_eq.
  destruct He as [->|[-> Hnz]]; cbn [negb Z.eqb ENOMEM].
  { destruct (destroy_run L s3 q b Hi3 Hq3) as (h4 & -> & Hi4). cbn [mbind outcome_bind].
    eexists ENOMEM, None, _. do 6 (split; [done|]). split; [|done]. cbn [v_spaces set_spaces]. rewrite ES. by apply delete_insert_id. }
  rewrite (the_space_Some q b) by done. cbn [mbind outcome_bind].
  destruct (copy_finish L s s3 p q a b Hi Hp Ha Hq) as (m & Hcopy & Him & Hmade); try done.
  { intros k Hk. destruct (Hnz k Hk). cbn in Hf3. cbn [v_heap s2 put_space set_spaces set_heap] in *. split; [done|lia]. }
  rewrite !kassert_true by (destruct (Hnz 0%nat ltac:(lia)), (Hnz 1%nat ltac:(lia)), (Hnz 2%nat ltac:(lia)); cbn [run fst] in *; lia).
  cbn [mbind outcome_bind]. exists 0, (Some q), (set_mem m s3).
  apply bind_Done in Hcopy as (t1 & R1 & Hcopy). apply bind_Done in Hcopy as (t2 & R2 & R3).
  rewrite R1. cbn [mbind outcome_bind]. rewrite R2. cbn [mbind outcome_bind]. rewrite R3. done.
Qed.
End Invariant.

(** ** What the processor does with the TLB

    A user address is looked up by its page; an entry is used when its
    valid bit is set. *)

Definition tlb_valid (lo : Z) : bool := negb (Z.land lo TLBLO_VALID =? 0).

Definition tlb_translate (t : tlb) (va : Z) : option Z :=
  '(_, (_, lo)) ← list_find (λ e, Z.land e.1 TLBHI_VPAGE = Z.land va PAGE_FRAME) t;
  if tlb_valid lo then Some (Z.lor (Z.land lo TLBLO_PPAGE) (Z.land va 0xfff)) else None.

(** The TLB while space [a] is current: each slot still holds what
    as_activate put there, or a page of [a] with its frame. *)
Record tlb_ok (a : addrspace) (t : tlb) : Prop := {
  to_length : length t = 64%nat;
  to_pages : NoDup t.*1;
  to_entry i hi lo : t !! i = Some (hi, lo) →
    hi = TLBHI_INVALID (Z.of_nat i) ∧ lo = TLBLO_INVALID ∨
    hi mod PAGE_SIZE = 0 ∧ 0 ≤ hi < 2 ^ 31 ∧ space_check a = true ∧
      ∃ pa, fault_paddr a hi = Some pa ∧ page_aligned pa = true ∧ lo = Z.lor (Z.lor pa TLBLO_DIRTY) TLBLO_VALID;
}.

Lemma entry_valid pa : tlb_valid (Z.lor (Z.lor pa TLBLO_DIRTY) TLBLO_VALID) = true.
Proof.
  unfold tlb_valid. apply negb_true_iff, Z.eqb_neq. rewrite Z.land_lor_distr_l.
  intros [_ E]%Z.lor_eq_0_iff. done.
Qed.

Lemma entry_frame pa :
  page_aligned pa = true → Z.land (Z.lor (Z.lor pa TLBLO_DIRTY) TLBLO_VALID) TLBLO_PPAGE = pa.
Proof.
  unfold page_aligned. intros E%Z.eqb_eq. rewrite !Z.land_lor_distr_l. change TLBLO_PPAGE with PAGE_FRAME.
  rewrite E. change (Z.land TLBLO_DIRTY PAGE_FRAME) with 0. change (Z.land TLBLO_VALID PAGE_FRAME) with 0. by rewrite !Z.lor_0_r.
Qed.

Lemma TLBHI_INVALID_eq i : 0 ≤ i < 64 → TLBHI_INVALID i = 2 ^ 31 + i * PAGE_SIZE.
Proof. intros Hi. unfold TLBHI_INVALID. rewrite Z.shiftl_mul_pow2, u32_id by lia. unfold PAGE_SIZE. lia. Qed.

(** A page address with an offset inside it. *)
Lemma lor_offset pa o : pa mod PAGE_SIZE = 0 → 0 ≤ o < PAGE_SIZE → Z.lor pa o = pa + o.
Proof.
  intros Hp Ho. symmetry. apply Z.add_nocarry_lor. rewrite <- (Z.mod_small o PAGE_SIZE) by done.
  rewrite <- land_page_offset, (Z.land_comm o), Z.land_assoc, land_page_offset, Hp. apply Z.land_0_l.
Qed.

Lemma page_split va : 0 ≤ va < 2 ^ 32 → va = Z.land va PAGE_FRAME + va mod PAGE_SIZE.
Proof. intros. rewrite land_page_frame by done. unfold PAGE_SIZE. pose proof (Z.div_mod va 4096 ltac:(done)). lia. Qed.

Lemma aligned_inv x : 0 ≤ x < 2 ^ 32 → page_aligned x = true → x mod PAGE_SIZE = 0.
Proof.
  intros Hx Ha. unfold page_aligned in Ha. apply Z.eqb_eq in Ha. rewrite <- Ha, land_page_frame by done.
  by rewrite Z.mod_mul by done.
Qed.

Section Faults.
Context {H : Type} `{RamHeapLaws H}.
Implicit Types (s : vm H) (a : addrspace).

Lemma loaded_aligned a : loaded a → small a → as_vbase1 a mod PAGE_SIZE = 0 ∧ as_vbase2 a mod PAGE_SIZE = 0.
Proof.
  intros [Hc ? ?] [? ?]. unfold space_check in Hc. repeat (apply andb_true_iff in Hc as [Hc ?]). unfold PAGE_SIZE in *.
  split; apply aligned_inv; done || lia.
Qed.

Lemma locate_page a va :
  loaded a → small a → 0 ≤ va < 2 ^ 32 →
  locate a va = '(k, o) ← locate a (Z.land va PAGE_FRAME); Some (k, o + va mod PAGE_SIZE).
Proof.
  intros Hl Hsm Hva. destruct (loaded_aligned a Hl Hsm) as [A1 A2]. pose proof (page_split va Hva) as Hs.
  assert (Hp : Z.land va PAGE_FRAME mod PAGE_SIZE = 0) by (rewrite land_page_frame by done; by rewrite Z.mod_mul).
  set (pg := Z.land va PAGE_FRAME) in *. pose proof (Z.mod_pos_bound va PAGE_SIZE ltac:(done)) as Hm.
  set (o := va mod PAGE_SIZE) in *. rewrite Hs.
  assert (Hseg : ∀ b n, b mod PAGE_SIZE = 0 → b ≤ pg + o < b + n * PAGE_SIZE ↔ b ≤ pg < b + n * PAGE_SIZE).
  { intros b n Hb. unfold PAGE_SIZE in *. pose proof (Z.div_mod b 4096 ltac:(done)). pose proof (Z.div_mod pg 4096 ltac:(done)). lia. }
  unfold locate. pose proof (Hseg (as_vbase1 a) (as_npages1 a) A1). pose proof (Hseg (as_vbase2 a) (as_npages2 a) A2).
  pose proof (Hseg stackbase 12 ltac:(done)). replace (stackbase + 12 * PAGE_SIZE) with USERSTACK in * by done.
  repeat case_decide; try tauto; cbn; do 2 f_equal; lia.
Qed.

Lemma fault_paddr_translate L s p a va :
  vm_inv L s → v_spaces s !! p = Some a → loaded a → 0 ≤ va < 2 ^ 32 → va mod PAGE_SIZE = 0 →
  fault_paddr a va = translate a va ∧ ∀ pa, translate a va = Some pa → page_aligned pa = true ∧ pa mod PAGE_SIZE = 0.
Proof.
  intros Hi Hp Hl Hva Hal. pose proof (vi_small _ _ Hi p a Hp) as Hsm. destruct (loaded_aligned a Hl Hsm) as [A1 A2].
  pose proof Hl as [Hc Hr1 Hr2]. destruct Hsm as [Hn1 Hn2].
  pose proof (vi_ram _ _ Hi) as [_ Hhi _].
  assert (Hrun : ∀ k o, (k < 3)%nat → 0 ≤ o < (run a k).2 * PAGE_SIZE → o mod PAGE_SIZE = 0 →
    u32 (o + (run a k).1) = (run a k).1 + o ∧ page_aligned ((run a k).1 + o) = true ∧ ((run a k).1 + o) mod PAGE_SIZE = 0).
  { intros k o Hk Ho Hom. destruct (vi_run _ _ Hi p a k Hp Hk (loaded_bases _ _ Hl Hk)) as [? ? Hbm ?].
    rewrite Z.add_comm, u32_id by (unfold PAGE_SIZE in *; lia). split; [done|].
    assert (((run a k).1 + o) mod PAGE_SIZE = 0) by (by rewrite Z.add_mod, Hbm, Hom).
    split; [|done]. apply aligned_mod; [unfold PAGE_SIZE in *; lia|done]. }
  assert (Hsub : ∀ b, b mod PAGE_SIZE = 0 → (va - b) mod PAGE_SIZE = 0) by (intros b Hb; by rewrite Zminus_mod, Hal, Hb).
  assert (Hin : ∀ b t, (va >=? b) && (va <? t) = bool_decide (b ≤ va < t)) by (intros; case_bool_decide; lia).
  unfold fault_paddr, translate, locate. rewrite !Hin. fold stackbase. unfold PAGE_SIZE in *.
  rewrite (u32_id (as_npages1 a * _)), (u32_id (as_vbase1 a + _)), (u32_id (as_npages2 a * _)), (u32_id (as_vbase2 a + _)) by lia.
  destruct (decide (as_vbase1 a ≤ va < _)).
  { rewrite bool_decide_true by done. destruct (Hrun 0%nat (va - as_vbase1 a)) as [E ?]; [lia|cbn; lia|by apply Hsub|].
    cbn [run fst] in *. rewrite E. split; [done|]. by intros ? [= <-]. }
  rewrite bool_decide_false by done. destruct (decide (as_vbase2 a ≤ va < _)).
  { rewrite bool_decide_true by done. destruct (Hrun 1%nat (va - as_vbase2 a)) as [E ?]; [lia|cbn [run snd]; lia|by apply Hsub|].
    cbn [run fst] in *. rewrite E. split; [done|]. by intros ? [= <-]. }
  rewrite bool_decide_false by done. destruct (decide (stackbase ≤ va < _)); [|by rewrite bool_decide_false by done].
  rewrite bool_decide_true by done. destruct (Hrun 2%nat (va - stackbase)) as [E ?];
    [lia|cbn [run snd]; unfold stackbase, USERSTACK, DUMBVM_STACKPAGES, PAGE_SIZE in *; lia|by apply Hsub|].
  cbn [run fst] in *. rewrite E. split; [done|]. by intros ? [= <-].
Qed.

Lemma tlb_slot_spec n i t :
  0 ≤ i → Z.of_nat (length t) = i + Z.of_nat n →
  match tlb_slot n i t with
  | Some j => i ≤ j < i + Z.of_nat n ∧ ∃ hi lo, t !! Z.to_nat j = Some (hi, lo) ∧ tlb_valid lo = false
  | None => ∀ j hi lo, i ≤ Z.of_nat j → t !! j = Some (hi, lo) → tlb_valid lo = true
  end.
Proof.
  revert i. induction n as [|n IH]; intros i Hi Hl; cbn [tlb_slot].
  { intros j hi lo Hj Hlk. apply lookup_lt_Some in Hlk. lia. }
  unfold TLB_Read. destruct (lookup_lt_is_Some_2 t (Z.to_nat i)) as [[hi lo] Hlk]; [lia|]. rewrite Hlk. cbn [from_option id].
  fold (tlb_valid lo). destruct (tlb_valid lo) eqn:Hv; [|split; [lia|by exists hi, lo]].
  specialize (IH (i + 1) ltac:(lia) ltac:(lia)). destruct (tlb_slot n (i + 1) t) as [j|]; [destruct IH as [? ?]; split; [lia|done]|].
  intros j hi' lo' Hj Hlk'. destruct (decide (Z.of_nat j = i)) as [<-|]; [|eapply IH; [|done]; lia].
  rewrite Nat2Z.id, Hlk' in Hlk. by injection Hlk as <- <-.
Qed.

Lemma entry_page a t i hi lo : tlb_ok a t → t !! i = Some (hi, lo) → Z.land hi TLBHI_VPAGE = hi.
Proof.
  intros Ht Hi. change TLBHI_VPAGE with PAGE_FRAME. apply Z.eqb_eq. fold (page_aligned hi).
  pose proof (lookup_lt_Some _ _ _ Hi) as Hlt. rewrite (to_length _ _ Ht) in Hlt.
  destruct (to_entry _ _ Ht i hi lo Hi) as [[-> _]|(Hm & Hr & _)]; [|apply aligned_mod; done || lia].
  rewrite TLBHI_INVALID_eq by lia. unfold PAGE_SIZE. apply aligned_mod; [lia|]. unfold PAGE_SIZE.
  replace (2 ^ 31) with (524288 * 4096) by done. by rewrite <- Z.mul_add_distr_r, Z.mod_mul.
Qed.

Lemma tlb_translate_entry a t va i lo :
  tlb_ok a t → t !! i = Some (Z.land va PAGE_FRAME, lo) →
  tlb_translate t va = if tlb_valid lo then Some (Z.lor (Z.land lo TLBLO_PPAGE) (Z.land va 0xfff)) else None.
Proof.
  intros Ht Hi. unfold tlb_translate.
  assert (list_find (λ e, Z.land e.1 TLBHI_VPAGE = Z.land va PAGE_FRAME) t = Some (i, (Z.land va PAGE_FRAME, lo))) as ->; [|done].
  apply list_find_Some. split; [done|]. split; [by apply (entry_page a t i _ lo)|].
  intros j [hi lo'] Hj Hji Hm. cbn [fst] in Hm. rewrite (entry_page a t j hi lo' Ht Hj) in Hm. subst hi.
  assert (j = i); [|lia]. eapply (NoDup_lookup t.*1); [apply Ht|rewrite list_lookup_fmap, Hj; done|rewrite list_lookup_fmap, Hi; done].
Qed.

Lemma tlb_translate_inv a t va pa :
  tlb_ok a t → 0 ≤ va < 2 ^ 31 → tlb_translate t va = Some pa →
  space_check a = true ∧ ∃ f, fault_paddr a (Z.land va PAGE_FRAME) = Some f ∧ page_aligned f = true ∧ pa = Z.lor f (Z.land va 0xfff).
Proof.
  intros Ht Hva Htr. unfold tlb_translate in Htr. destruct (list_find _ t) as [[i [hi lo]]|] eqn:Ef; [|done].
  apply list_find_Some in Ef as (Hi & Hm & _). cbn [fst] in Hm. rewrite (entry_page a t i hi lo Ht Hi) in Hm. subst hi. cbn in Htr.
  destruct (to_entry _ _ Ht _ _ _ Hi) as [[_ ->]|(_ & _ & Hc & f & Hf & Hal & ->)]; [done|].
  rewrite entry_valid, entry_frame in Htr by done. injection Htr as <-. split; [done|]. by exists f.
Qed.

(** What the TLB says is what the address space says. *)
Lemma tlb_sound L s p a t va pa :
  vm_inv L s → v_spaces s !! p = Some a → loaded a → tlb_ok a t → 0 ≤ va < 2 ^ 31 →
  tlb_translate t va = Some pa → translate a va = Some pa.
Proof.
  intros Hi Hp Hl Ht Hva Htr. destruct (tlb_translate_inv a t va pa Ht Hva Htr) as (_ & f & Hf & _ & ->).
  assert (Hpm : Z.land va PAGE_FRAME mod PAGE_SIZE = 0) by (rewrite land_page_frame by lia; by rewrite Z.mod_mul).
  assert (Hpg : 0 ≤ Z.land va PAGE_FRAME < 2 ^ 32) by (apply land_bound; lia).
  destruct (fault_paddr_translate L s p a _ Hi Hp Hl Hpg Hpm) as [E Hal]. rewrite Hf in E. symmetry in E.
  unfold translate in *. rewrite (locate_page a va Hl (vi_small _ _ Hi _ _ Hp)) by lia.
  destruct (locate a (Z.land va PAGE_FRAME)) as [[k o]|]; [|done]. cbn in E |- *. injection E as E.
  rewrite land_page_offset, lor_offset; [f_equal; lia|rewrite <- E; apply Hal; done|apply Z.mod_pos_bound; done].
Qed.

Lemma tlb_miss a t va :
  tlb_ok a t → 0 ≤ va < 2 ^ 31 → tlb_translate t va = None → Z.land va PAGE_FRAME ∉ t.*1.
Proof.
  intros Ht Hva Htr ([hi lo] & E & Hin)%list_elem_of_fmap. cbn in E. subst hi. apply list_elem_of_lookup in Hin as [i Hi].
  rewrite (tlb_translate_entry a t va i lo Ht Hi) in Htr. pose proof (lookup_lt_Some _ _ _ Hi) as Hlt. rewrite (to_length _ _ Ht) in Hlt.
  destruct (to_entry _ _ Ht _ _ _ Hi) as [[E _]|(_ & _ & _ & f & _ & _ & ->)]; [|by rewrite entry_valid in Htr].
  rewrite TLBHI_INVALID_eq in E by lia. pose proof (page_split va ltac:(lia)). pose proof (Z.mod_pos_bound va PAGE_SIZE ltac:(done)).
  unfold PAGE_SIZE in *. lia.
Qed.

Lemma tlb_fill a t i hi pa :
  tlb_ok a t → (i < 64)%nat → hi ∉ t.*1 → hi mod PAGE_SIZE = 0 → 0 ≤ hi < 2 ^ 31 → space_check a = true →
  fault_paddr a hi = Some pa → page_aligned pa = true →
  tlb_ok a (<[i := (hi, Z.lor (Z.lor pa TLBLO_DIRTY) TLBLO_VALID)]> t).
Proof.
  intros Ht Hi Hnew Hm Hr Hc Hf Hal. pose proof (to_length _ _ Ht) as Hl. split.
  - by rewrite length_insert.
  - rewrite list_fmap_insert. cbn [fst]. apply NoDup_alt. intros j k x Hj Hk.
    destruct (decide (j = i)) as [->|], (decide (k = i)) as [->|]; [done|..].
    + rewrite list_lookup_insert_eq in Hj by (rewrite length_fmap; lia). injection Hj as <-.
      rewrite list_lookup_insert_ne in Hk by done. by apply list_elem_of_lookup_2 in Hk.
    + rewrite list_lookup_insert_eq in Hk by (rewrite length_fmap; lia). injection Hk as <-.
      rewrite list_lookup_insert_ne in Hj by done. by apply list_elem_of_lookup_2 in Hj.
    + rewrite list_lookup_insert_ne in Hj, Hk by done. eapply NoDup_lookup; [apply Ht|done|done].
  - intros j hi' lo Hj. destruct (decide (j = i)) as [->|].
    + rewrite list_lookup_insert_eq in Hj by lia. injection Hj as <- <-. right. split_and!; [done|lia|lia|done|]. by exists pa.
    + rewrite list_lookup_insert_ne in Hj by done. by apply (to_entry _ _ Ht).
Qed.

(** as_activate empties the TLB. *)
Lemma tlb_flush_lookup n : ∀ i t, 0 ≤ i → i + Z.of_nat n ≤ Z.of_nat (length t) →
  length (tlb_flush n i t) = length t ∧
  ∀ j, tlb_flush n i t !! j =
    if decide (i ≤ Z.of_nat j < i + Z.of_nat n) then Some (TLBHI_INVALID (Z.of_nat j), TLBLO_INVALID) else t !! j.
Proof.
  induction n as [|n IH]; intros i t Hi Hl; cbn [tlb_flush].
  { split; [done|]. intros j. by rewrite decide_False by lia. }
  unfold TLB_Write. destruct (IH (i + 1) (<[Z.to_nat i := (TLBHI_INVALID i, TLBLO_INVALID)]> t)) as [Hlen Hlk];
    [lia|rewrite length_insert; lia|]. split; [by rewrite Hlen, length_insert|].
  intros j. rewrite Hlk. destruct (decide (Z.of_nat j = i)) as [<-|].
  - rewrite decide_False, decide_True by lia. rewrite Nat2Z.id. apply list_lookup_insert_eq. lia.
  - rewrite list_lookup_insert_ne by lia. repeat case_decide; done || lia.
Qed.

Lemma activate_ok s a : length (v_tlb s) = 64%nat → tlb_ok a (v_tlb (as_activate s)).
Proof.
  intros Hl. unfold as_activate. cbn [v_tlb set_tlb].
  destruct (tlb_flush_lookup (Z.to_nat NUM_TLB) 0 (v_tlb s)) as [Hlen Hlk]; [done|by rewrite Hl|].
  set (t := tlb_flush _ _ _) in *.
  assert (He : ∀ i e, t !! i = Some e → (i < 64)%nat ∧ e = (TLBHI_INVALID (Z.of_nat i), TLBLO_INVALID)).
  { intros i e Hi. pose proof (lookup_lt_Some _ _ _ Hi) as Hlt. rewrite Hlen, Hl in Hlt. split; [done|].
    rewrite Hlk, decide_True in Hi; [by injection Hi as <-|]. change (Z.of_nat (Z.to_nat NUM_TLB)) with 64. lia. }
  split; [by rewrite Hlen| |].
  - apply NoDup_alt. intros i j x Hi Hj. rewrite list_lookup_fmap in Hi, Hj.
    destruct (t !! i) as [ei|] eqn:Ei; [|done]. destruct (t !! j) as [ej|] eqn:Ej; [|done]. cbn in Hi, Hj.
    destruct (He _ _ Ei) as [Hi64 ->], (He _ _ Ej) as [Hj64 ->]. cbn in Hi, Hj. rewrite TLBHI_INVALID_eq in Hi, Hj by lia.
    unfold PAGE_SIZE in *. injection Hi as Hi. injection Hj as Hj. lia.
  - intros i hi lo Hi. destruct (He _ _ Hi) as [_ [= -> ->]]. by left.
Qed.

(** vm_fault for the running process: the page is entered, or the address
    has none, or all 64 slots are taken. *)
Lemma vm_fault_run L s a ft va :
  vm_inv L s → v_cur s ≠ 0 → v_spaces s !! v_cur s = Some a → loaded a → tlb_ok a (v_tlb s) →
  ft = VM_FAULT_READ ∨ ft = VM_FAULT_WRITE → 0 ≤ va < 2 ^ 31 → tlb_translate (v_tlb s) va = None →
  ∃ e t, vm_fault ft va s = Done (e, set_tlb t s) ∧ tlb_ok a t ∧
    match translate a va with
    | Some pa => e = 0 ∧ tlb_translate t va = Some pa ∨
                 e = EFAULT ∧ t = v_tlb s ∧ ∀ i hi lo, t !! i = Some (hi, lo) → tlb_valid lo = true
    | None => e = EFAULT ∧ t = v_tlb s
    end.
Proof.
  intros Hi Hcur Hsp Hl Ht Hft Hva Hmiss. unfold vm_fault. set (pg := Z.land va PAGE_FRAME).
  assert (Hpm : pg mod PAGE_SIZE = 0) by (unfold pg; rewrite land_page_frame by lia; by rewrite Z.mod_mul).
  pose proof (page_split va ltac:(lia)) as Hsplit. pose proof (Z.mod_pos_bound va PAGE_SIZE ltac:(done)) as Hmb.
  assert (Hpg : 0 ≤ pg < 2 ^ 31) by (unfold pg; rewrite land_page_frame by lia; unfold PAGE_SIZE in *; Z.to_euclidean_division_equations; lia).
  destruct (fault_paddr_translate L s (v_cur s) a pg Hi Hsp Hl ltac:(lia) Hpm) as [Hfp Hfa].
  assert (Htr : translate a va = f ← translate a pg; Some (f + va mod PAGE_SIZE)).
  { unfold translate. rewrite (locate_page a va Hl (vi_small _ _ Hi _ _ Hsp)) by lia. fold pg. destruct (locate a pg) as [[k o]|]; [|done].
    cbn. f_equal. lia. }
  replace (ft =? VM_FAULT_READONLY) with false by (destruct Hft as [-> | ->]; done).
  replace ((ft =? VM_FAULT_READ) || (ft =? VM_FAULT_WRITE)) with true by (destruct Hft as [-> | ->]; done).
  cbn [negb v_cur set_spl]. replace (v_cur s =? 0) with false by lia. unfold the_space. cbn [v_spaces set_spl]. rewrite Hsp.
  cbn [mbind outcome_bind]. rewrite (ld_check _ Hl). cbn [mbind outcome_bind kassert]. rewrite Hfp, Htr.
  destruct (translate a pg) as [f|] eqn:Ef; [|by exists EFAULT, (v_tlb s); destruct s].
  cbn [mbind option_bind outcome_bind]. rewrite (proj1 (Hfa f eq_refl)). cbn [kassert mbind outcome_bind v_tlb set_spl].
  pose proof (tlb_slot_spec (Z.to_nat NUM_TLB) 0 (v_tlb s) ltac:(done) ltac:(rewrite (to_length _ _ Ht); done)) as Hslot.
  destruct (tlb_slot _ 0 (v_tlb s)) as [i|]; cycle 1.
  { exists EFAULT, (v_tlb s). split; [by destruct s|]. split; [done|]. right. split_and!; [done..|]. intros j hi lo. apply Hslot. lia. }
  destruct Hslot as [Hir _]. change (Z.of_nat (Z.to_nat NUM_TLB)) with 64 in Hir.
  eexists 0, _. split; [by destruct s|]. unfold TLB_Write.
  assert (Hfill : tlb_ok a (<[Z.to_nat i := (pg, Z.lor (Z.lor f TLBLO_DIRTY) TLBLO_VALID)]> (v_tlb s))).
  { apply tlb_fill; try done; [lia|by apply (tlb_miss a)|apply (ld_check _ Hl)|by apply Hfa]. }
  split; [done|]. left. split; [done|]. erewrite tlb_translate_entry; [|exact Hfill|apply list_lookup_insert_eq; rewrite (to_length _ _ Ht); lia].
  rewrite entry_valid, entry_frame by by apply Hfa. f_equal. rewrite land_page_offset. apply lor_offset; [by apply Hfa|done].
Qed.
End Faults.

(** ** The machine

    What processes and the kernel do to address spaces and the TLB.  A
    thread with a space flushes the TLB when it is switched to
    (kern/thread/thread.c, mi_switch); one without leaves it alone.  Regions
    are defined before the space has pages, and the space of the running
    thread is not destroyed. *)

Section Machine.
Context {H : Type} `{RamHeapLaws H}.
Implicit Types (s : vm H) (a : addrspace) (L : list Z).

Inductive vm_step : vm H → vm H → Prop :=
  | vs_create s r s' : as_create s = Done (r, s') → vm_step s s'
  | vs_define s p a va sz e s' :
      v_spaces s !! p = Some a → as_pbase1 a = 0 → as_pbase2 a = 0 → 0 ≤ va < 2 ^ 32 → 0 ≤ sz ≤ 2 ^ 30 →
      as_define_region p va sz s = Done (e, s') → vm_step s s'
  | vs_prepare s p e s' : as_prepare_load p s = Done (e, s') → vm_step s s'
  | vs_copy s p a e r s' : v_spaces s !! p = Some a → loaded a → as_copy p s = Done (e, r, s') → vm_step s s'
  | vs_destroy s p s' : p ≠ v_cur s → is_Some (v_spaces s !! p) → as_destroy p s = Done s' → vm_step s s'
  | vs_switch s p : is_Some (v_spaces s !! p) → p ≠ 0 → vm_step s (as_activate (set_cur p s))
  | vs_idle s : vm_step s (set_cur 0 s)
  | vs_fault s a ft va e s' :
      v_cur s ≠ 0 → v_spaces s !! v_cur s = Some a → loaded a → ft = VM_FAULT_READ ∨ ft = VM_FAULT_WRITE →
      0 ≤ va < 2 ^ 31 → tlb_translate (v_tlb s) va = None → vm_fault ft va s = Done (e, s') → vm_step s s'
  | vs_store s va pa b :
      v_cur s ≠ 0 → 0 ≤ va < 2 ^ 31 → tlb_translate (v_tlb s) va = Some pa →
      vm_step s (set_mem (<[MIPS_KSEG0 + pa := b]> (v_mem s)) s).

(** Before any process runs. *)
Definition vm_boot L s : Prop :=
  heap_owns (v_heap s) L ∧ v_spaces s = ∅ ∧ v_cur s = 0 ∧ length (v_tlb s) = 64%nat ∧
  mapped (v_mem s) MIPS_KSEG0 (lastpaddr (heap_ram (v_heap s))).

Inductive vm_reach L : vm H → Prop :=
  | vr_boot s : vm_boot L s → vm_reach L s
  | vr_step s s' : vm_reach L s → vm_step s s' → vm_reach L s'.

Record machine_ok L s : Prop := {
  mo_inv : vm_inv L s;
  mo_length : length (v_tlb s) = 64%nat;
  mo_tlb : v_cur s ≠ 0 → ∃ a, v_spaces s !! v_cur s = Some a ∧ tlb_ok a (v_tlb s);
}.

(** A region takes no more pages than its bytes need. *)
Lemma define_run L s p a va sz :
  vm_inv L s → v_spaces s !! p = Some a → as_pbase1 a = 0 → as_pbase2 a = 0 → 0 ≤ va < 2 ^ 32 → 0 ≤ sz ≤ 2 ^ 30 →
  ∃ e a', as_define_region p va sz s = Done (e, put_space p a' s) ∧ vm_inv L (put_space p a' s) ∧
    (a' = a ∨ space_check a = false).
Proof.
  intros Hi Hp Hb1 Hb2 Hva Hsz. unfold as_define_region. rewrite (the_space_Some p a s Hp). cbn [mbind outcome_bind].
  rewrite land_page_offset. pose proof (Z.mod_pos_bound va PAGE_SIZE ltac:(done)) as Hm. unfold PAGE_SIZE in *.
  rewrite (u32_id (sz + _)), (u32_id (sz + _ + _ - 1)), (land_page_frame (sz + _ + _ - 1)) by lia.
  unfold PAGE_SIZE. rewrite Z.div_mul by done. set (n := _ / 4096).
  assert (Hn : 0 ≤ n ≤ 2 ^ 19) by (split; [apply Z.div_pos|apply Z.div_le_upper_bound]; lia).
  assert (Hput : ∀ a', (∀ k, (k < 3)%nat → (run a' k).1 = (run a k).1 ∧ ((run a k).1 ≠ 0 → run a' k = run a k)) → small a' →
    vm_inv L (put_space p a' s)).
  { intros a' Hrun Hsm. apply (inv_change L L s _ 0 0 Hi).
    - cbn [v_heap v_spaces put_space set_spaces]. rewrite (keys_insert _ _ _ _ Hp). apply Hi.
    - split; [apply (vi_ram _ _ Hi)|cbn; lia].
    - apply Hi.
    - intros q b j Hq Hj Hb. right. cbn in Hq. destruct (decide (q = p)) as [->|]; [|rewrite lookup_insert_ne in Hq by done; by exists b].
      rewrite lookup_insert_eq in Hq. injection Hq as <-. exists a. split; [done|]. destruct (Hrun j Hj) as [E Hr]. apply Hr. by rewrite <- E.
    - by apply small_insert with L. }
  destruct (vi_small _ _ Hi p a Hp) as [Hs1 Hs2].
  assert (Hf : as_pbase1 a = 0 → space_check a = false).
  { intros E. unfold space_check. rewrite E. cbn. by rewrite !andb_false_r. }
  destruct (as_vbase1 a =? 0); [|destruct (as_vbase2 a =? 0)].
  - eexists 0, _. split; [done|]. split; [|right; by apply Hf]. apply Hput; [|by split]. intros [|[|]] Hk; cbn; by rewrite ?Hb1, ?Hb2.
  - eexists 0, _. split; [done|]. split; [|right; by apply Hf]. apply Hput; [|by split]. intros [|[|]] Hk; cbn; by rewrite ?Hb1, ?Hb2.
  - exists EUNIMP, a. replace (put_space p a s) with s; [split_and!; [done|done|by left]|].
    destruct s; cbn in *. unfold put_space, set_spaces. cbn. by rewrite insert_id.
Qed.

Lemma inv_same L s s' :
  vm_inv L s → v_heap s' = v_heap s → v_spaces s' = v_spaces s → v_mem s' = v_mem s → vm_inv L s'.
Proof.
  intros [? ? ? ? ?] Eh Es Em. split; rewrite ?Eh, ?Es, ?Em; done.
Qed.

Lemma tlb_ok_idle a a' t : tlb_ok a t → space_check a = false → tlb_ok a' t.
Proof.
  intros Ht Hc. split; [apply Ht..|]. intros i hi lo Hi.
  destruct (to_entry _ _ Ht i hi lo Hi) as [?|(_ & _ & E & _)]; [by left|congruence].
Qed.

(** A step that leaves the TLB and the running thread alone, and the space
    of that thread too unless nothing of it is in the TLB. *)
Lemma machine_frame L s s' :
  machine_ok L s → vm_inv L s' → v_tlb s' = v_tlb s → v_cur s' = v_cur s →
  (∀ a, v_cur s ≠ 0 → v_spaces s !! v_cur s = Some a → ∃ a', v_spaces s' !! v_cur s = Some a' ∧ (a' = a ∨ space_check a = false)) →
  machine_ok L s'.
Proof.
  intros [Hi Hl Ht] Hi' Et Ec Hsp. split; [done|by rewrite Et|]. rewrite Et, Ec. intros Hc.
  destruct (Ht Hc) as (a & Ha & Hok). destruct (Hsp a Hc Ha) as (a' & Ha' & Hf). exists a'. split; [done|].
  destruct Hf as [->|Hf]; [done|by eapply tlb_ok_idle].
Qed.

(** The space of [p] is replaced. *)
Lemma machine_put L s p a a' h :
  machine_ok L s → v_spaces s !! p = Some a → (a' = a ∨ space_check a = false) →
  vm_inv L (put_space p a' (set_heap h s)) → machine_ok L (put_space p a' (set_heap h s)).
Proof.
  intros Hm Hp Hf Hi. apply (machine_frame L s); [done..|]. intros c Hc Ha. cbn.
  destruct (decide (v_cur s = p)) as [E|]; [rewrite E in *|rewrite lookup_insert_ne by done; exists c; auto].
  rewrite lookup_insert_eq. exists a'. split; [done|]. congruence.
Qed.

Lemma machine_prepare L s p e s' : machine_ok L s → as_prepare_load p s = Done (e, s') → machine_ok L s'.
Proof.
  intros Hm Hrun. pose proof (mo_inv _ _ Hm) as Hi.
  destruct (v_spaces s !! p) as [a|] eqn:Hp; [|unfold as_prepare_load, the_space in Hrun; by rewrite Hp in Hrun].
  assert (Hz : ∀ k, (k < 3)%nat → (run a k).1 = 0).
  { unfold as_prepare_load, the_space in Hrun. rewrite Hp in Hrun. cbn [mbind outcome_bind] in Hrun.
    destruct (as_pbase1 a =? 0) eqn:E1; [|done]. destruct (as_pbase2 a =? 0) eqn:E2; [|done]. destruct (as_stackpbase a =? 0) eqn:E3; [|done].
    intros [|[|]] Hk; cbn; lia. }
  destruct (prepare_run L s p a Hi Hp Hz) as (e' & h & pa1 & pa2 & pa3 & Hrun' & Hi' & _). cbv zeta in *.
  rewrite Hrun in Hrun'. injection Hrun' as <- ->. eapply machine_put; [done|done| |done]. right.
  pose proof (Hz 0%nat ltac:(lia)) as E. cbn in E. unfold space_check. rewrite E. cbn. by rewrite !andb_false_r.
Qed.

Lemma machine_step L s s' : machine_ok L s → vm_step s s' → machine_ok L s'.
Proof.
  intros Hm Hstep. pose proof Hm as [Hi Hl Ht]. destruct Hstep as
    [s r s' Hrun|s p a va sz e s' Hp H1' H2' Hva Hsz Hrun|s p e s' Hrun|s p a e r s' Hp Ha Hrun|s p s' Hne [a Hp] Hrun|s p [a Hp] Hp0|s
    |s a ft va e s' Hc Hp Ha Hft Hva Hmiss Hrun|s va pa b Hc Hva Htr].
  - destruct (create_run L s Hi) as (r' & h & _ & Hr). destruct r' as [p|].
    + destruct Hr as (Hnew & _ & Hrun' & Hi'). rewrite Hrun in Hrun'. injection Hrun' as -> ->.
      apply (machine_frame L s); [done..|]. intros a _ Ha. exists a. cbn. split; [|by left]. rewrite lookup_insert_ne; [done|congruence].
    + destruct Hr as [Hrun' Hi']. rewrite Hrun in Hrun'. injection Hrun' as -> ->. apply (machine_frame L s); [done..|]. intros a _ Ha. exists a. auto.
  - destruct (define_run L s p a va sz Hi Hp H1' H2' Hva Hsz) as (e' & a' & Hrun' & Hi' & Hf). rewrite Hrun in Hrun'. injection Hrun' as <- ->.
    apply (machine_put L s p a a' (v_heap s)); done.
  - by eapply machine_prepare.
  - destruct (copy_run L s p a Hi Hp Ha) as (e' & r' & s'' & Hrun' & Hi' & Et & Ec & _ & Hr). rewrite Hrun in Hrun'. injection Hrun' as <- <- <-.
    apply (machine_frame L s); [done..|]. intros b _ Hb. exists b. split; [|by left]. destruct r as [q|]; [|by destruct Hr as (_ & -> & _)].
    destruct Hr as (_ & Hnew & Hold & _). rewrite Hold; [done|]. congruence.
  - destruct (destroy_run L s p a Hi Hp) as (h & Hrun' & Hi'). rewrite Hrun in Hrun'. injection Hrun' as ->.
    apply (machine_frame L s); [done..|]. intros b _ Hb. exists b. cbn. split; [|by left]. by rewrite lookup_delete_ne.
  - split; [by apply (inv_same L s)|by rewrite (to_length a) by by apply activate_ok|].
    intros _. exists a. split; [done|by apply activate_ok].
  - split; [by apply (inv_same L s)|done|done].
  - destruct (Ht Hc) as (c & Hsp & Hok). rewrite Hp in Hsp. injection Hsp as <-.
    destruct (vm_fault_run L s a ft va Hi Hc Hp Ha Hok Hft Hva Hmiss) as (e' & t & Hrun' & Hok' & _).
    rewrite Hrun in Hrun'. injection Hrun' as <- ->. split; [by apply (inv_same L s)|apply Hok'|]. intros _. by exists a.
  - apply (machine_frame L s); [done| |done|done|intros a _ Ha; exists a; auto]. apply inv_mem; [done|].
    intros x Hx. apply lookup_insert_is_Some'. right. by apply Hi.
Qed.

Lemma reach_ok L s : vm_reach L s → machine_ok L s.
Proof.
  induction 1 as [s (Hh & Hs & Hc & Hl & Hm)|s s' _ IH Hstep]; [|by eapply machine_step].
  split; [|done|by rewrite Hc]. split; rewrite ?Hs; done.
Qed.


(** Page faults.  In every reachable state, a fault of the running
    process at an address the TLB does not have is answered: if the address
    lies in no region, with EFAULT; if it does and a slot of the TLB is
    free, with 0, and the TLB then has the address at its place in memory;
    if all 64 slots are taken, with EFAULT although the address is good. *)
Theorem vm_fault_answers L s a ft va :
  vm_reach L s → v_cur s ≠ 0 → v_spaces s !! v_cur s = Some a → loaded a →
  ft = VM_FAULT_READ ∨ ft = VM_FAULT_WRITE → 0 ≤ va < 2 ^ 31 → tlb_translate (v_tlb s) va = None →
  ∃ e t, vm_fault ft va s = Done (e, set_tlb t s) ∧
    match translate a va with
    | Some pa => e = 0 ∧ tlb_translate t va = Some pa ∨
                 e = EFAULT ∧ t = v_tlb s ∧ ∀ i hi lo, t !! i = Some (hi, lo) → tlb_valid lo = true
    | None => e = EFAULT ∧ t = v_tlb s
    end.
Proof.
  intros Hr Hc Hp Ha Hft Hva Hmiss. destruct (reach_ok L s Hr) as [Hi _ Ht]. destruct (Ht Hc) as (c & Hsp & Hok).
  rewrite Hp in Hsp. injection Hsp as <-.
  destruct (vm_fault_run L s a ft va Hi Hc Hp Ha Hok Hft Hva Hmiss) as (e & t & Hrun & _ & Hres). by exists e, t.
Qed.

(** C33: Copying an address space, as fork does.  as_copy never stops the
    machine.  It returns ENOMEM and changes neither the spaces nor memory,
    or it makes a space in which every user address has the byte it has in
    the old one, while every other space keeps its bytes. *)
Theorem as_copy_copies L s p a :
  vm_reach L s → v_spaces s !! p = Some a → loaded a →
  ∃ e r s', as_copy p s = Done (e, r, s') ∧
    match r with
    | Some q => e = 0 ∧ copy_made s s' a q
    | None => e = ENOMEM ∧ v_spaces s' = v_spaces s ∧ v_mem s' = v_mem s
    end.
Proof.
  intros Hr Hp Ha. destruct (copy_run L s p a (mo_inv _ _ (reach_ok L s Hr)) Hp Ha) as (e & r & s' & Hrun & _ & _ & _ & _ & Hres).
  by exists e, r, s'.
Qed.

(** as_prepare_load when the allocator has something for each run. *)
Lemma prepare_given s p v1 n1 v2 n2 pa1 pa2 pa3 r1 r2 r3 :
  v_spaces s !! p = Some (AddrSpace v1 0 n1 v2 0 n2 0) →
  getppages n1 (heap_ram (v_heap s)) = (pa1, r1) → getppages n2 r1 = (pa2, r2) → getppages DUMBVM_STACKPAGES r2 = (pa3, r3) →
  pa1 ≠ 0 → pa2 ≠ 0 → pa3 ≠ 0 →
  ∃ s', as_prepare_load p s = Done (0, s') ∧ v_spaces s' !! p = Some (AddrSpace v1 pa1 n1 v2 pa2 n2 pa3).
Proof.
  intros Hp E1 E2 E3 Hz1 Hz2 Hz3. unfold as_prepare_load. rewrite (the_space_Some p _ s Hp). unfold vm_getppages.
  cbn [mbind outcome_bind kassert Z.eqb as_vbase1 as_pbase1 as_npages1 as_vbase2 as_pbase2 as_npages2 as_stackpbase].
  rewrite E1. replace (pa1 =? 0) with false by lia. cbn [set_pbase1 v_heap set_heap put_space set_spaces as_npages2].
  rewrite heap_ram_with, E2. replace (pa2 =? 0) with false by lia. cbn [v_heap set_heap put_space set_spaces].
  rewrite heap_ram_with, E3. replace (pa3 =? 0) with false by lia. eexists. split; [done|]. apply lookup_insert_eq.
Qed.

(** A request that wraps around the 32-bit address of the allocator. *)
Lemma getppages_wraps r k :
  ram_ok r → 1 ≤ k ≤ 2 ^ 19 → k * PAGE_SIZE < firstpaddr r →
  getppages (2 ^ 20 - k) r = (firstpaddr r, Ram (firstpaddr r - k * PAGE_SIZE) (lastpaddr r)).
Proof.
  intros [Hlo Hhi _] Hk Hf. unfold getppages, ram_stealmem. unfold PAGE_SIZE in *.
  rewrite (u32_id ((2 ^ 20 - k) * 4096)) by lia. set (f := firstpaddr _) in *. set (l := lastpaddr _) in *.
  assert (u32 (f + (2 ^ 20 - k) * 4096) = f - k * 4096) as ->.
  { unfold u32. replace (f + _) with (f - k * 4096 + 1 * 2 ^ 32) by lia. rewrite Z.mod_add by done. apply Z.mod_small. lia. }
  by replace (f - k * 4096 >? l) with false by lia.
Qed.

(** A region too large for the machine.  A program that asks for a
    region of almost 4 gigabytes is not refused: the arithmetic of the page
    allocator wraps, its first free address moves down, and the next region
    of the program is given pages that were handed out before. *)
Theorem huge_region_reuses_memory s p k n v1 v2 :
  ram_ok (heap_ram (v_heap s)) → v_spaces s !! p = Some (AddrSpace 0 0 0 0 0 0 0) →
  0 < v1 < 2 ^ 20 → 0 < v2 < 2 ^ 20 → 1 ≤ n ≤ k → k ≤ 2 ^ 19 →
  let f := firstpaddr (heap_ram (v_heap s)) in
  k * PAGE_SIZE < f → f + DUMBVM_STACKPAGES * PAGE_SIZE ≤ lastpaddr (heap_ram (v_heap s)) →
  ∃ s' a, ('(e1, s) ← as_define_region p (v1 * PAGE_SIZE) (2 ^ 32 - k * PAGE_SIZE) s;
           '(e2, s) ← as_define_region p (v2 * PAGE_SIZE) (n * PAGE_SIZE) s;
           '(e3, s) ← as_prepare_load p s; Done (e1, e2, e3, s)) = Done (0, 0, 0, s') ∧
    v_spaces s' !! p = Some a ∧ as_pbase2 a = f - k * PAGE_SIZE ∧ as_pbase2 a + as_npages2 a * PAGE_SIZE ≤ f.
Proof.
  intros Hr Hp Hv1 Hv2 Hn Hk f Hf Hl. pose proof Hr as [Hlo Hhi Hal].
  assert (Hdef : ∀ v z, 0 < v < 2 ^ 20 → 0 < z < 2 ^ 20 →
    u32 (z * PAGE_SIZE + Z.land (v * PAGE_SIZE) 0xfff) = z * PAGE_SIZE ∧
    Z.land (u32 (z * PAGE_SIZE + PAGE_SIZE - 1)) PAGE_FRAME / PAGE_SIZE = z ∧ Z.land (v * PAGE_SIZE) PAGE_FRAME = v * PAGE_SIZE).
  { intros v z Hv Hz. rewrite land_page_offset, Z.mod_mul, Z.add_0_r by done. unfold PAGE_SIZE in *. rewrite !u32_id by lia.
    split; [done|]. rewrite !land_page_frame by lia. unfold PAGE_SIZE. rewrite !Z.div_mul by done. split; [|done].
    replace (z * 4096 + 4096 - 1) with (4095 + z * 4096) by lia. by rewrite Z.div_add. }
  replace (2 ^ 32 - k * PAGE_SIZE) with ((2 ^ 20 - k) * PAGE_SIZE) by (unfold PAGE_SIZE; lia).
  unfold as_define_region. destruct (Hdef v1 (2 ^ 20 - k)) as (-> & -> & ->); [lia|lia|]. destruct (Hdef v2 n) as (-> & -> & ->); [lia|lia|].
  rewrite (the_space_Some p _ s Hp). cbn [mbind outcome_bind as_vbase1 as_pbase1 as_npages1 as_vbase2 as_pbase2 as_npages2 as_stackpbase Z.eqb].
  rewrite (the_space_Some p _ _ (lookup_insert_eq _ _ _)).
  cbn [mbind outcome_bind as_vbase1 as_pbase1 as_npages1 as_vbase2 as_pbase2 as_npages2 as_stackpbase Z.eqb].
  replace (v1 * PAGE_SIZE =? 0) with false by (unfold PAGE_SIZE; lia). cbn [mbind outcome_bind].
  set (r1 := Ram (f - k * PAGE_SIZE) (lastpaddr (heap_ram (v_heap s)))).
  assert (Hfk : (f - k * PAGE_SIZE) mod PAGE_SIZE = 0) by (rewrite Zminus_mod; unfold f; by rewrite Hal, Z.mod_mul).
  assert (Hk1 : ram_ok r1) by (split; cbn [firstpaddr lastpaddr r1]; [lia|unfold PAGE_SIZE in *; lia|done]).
  set (r2 := Ram (f - k * PAGE_SIZE + n * PAGE_SIZE) (lastpaddr (heap_ram (v_heap s)))).
  assert (Hk2 : ram_ok r2) by (split; cbn [firstpaddr lastpaddr r2]; [unfold PAGE_SIZE in *; lia..|by apply page_aligned_add]).
  destruct (prepare_given (put_space p (AddrSpace (v1 * PAGE_SIZE) 0 (2 ^ 20 - k) (v2 * PAGE_SIZE) 0 n 0)
     (put_space p (AddrSpace (v1 * PAGE_SIZE) 0 (2 ^ 20 - k) 0 0 0 0) s)) p (v1 * PAGE_SIZE) (2 ^ 20 - k) (v2 * PAGE_SIZE) n
     f (f - k * PAGE_SIZE) (f - k * PAGE_SIZE + n * PAGE_SIZE) r1 r2
     (Ram (f - k * PAGE_SIZE + n * PAGE_SIZE + DUMBVM_STACKPAGES * PAGE_SIZE) (lastpaddr (heap_ram (v_heap s))))) as (s' & -> & Hs').
  - apply lookup_insert_eq.
  - apply getppages_wraps; done || lia.
  - unfold getppages. rewrite ram_stealmem_spec by (done || lia). cbn [firstpaddr lastpaddr r1].
    by replace (_ >? _) with false by (unfold PAGE_SIZE in *; lia).
  - unfold getppages. rewrite ram_stealmem_spec by done. cbn [firstpaddr lastpaddr r2].
    by replace (_ >? _) with false by (unfold PAGE_SIZE, DUMBVM_STACKPAGES in *; lia).
  - lia.
  - lia.
  - unfold PAGE_SIZE in *; lia.
  - cbn [mbind outcome_bind]. eexists _, _. split; [done|]. split; [done|]. cbn [as_pbase2 as_npages2]. split; [done|]. unfold PAGE_SIZE. lia.
Qed.
End Machine.
