(* ===== verification/VmDemo.v ===== *)
(** * Address spaces over the kernel heap

    The kernel heap of kheap.c and the page allocator of ram.c meet the
    requirements VmSpec makes of them, and the theorems of VmSpec are applied
    to processes on a small machine. *)

From S2P Require Import Prelude Ram Kheap KheapSpec Mem Vm VmSpec.

(** ** The heap only moves the page allocator up *)

Section Pages.
Context {P : Type} `{KPages P}.
Implicit Types h : kheap P.

Lemma allocpageref_pages n : ∀ i h r h', allocpageref_from n i h = Done (r, h') → pages h' = pages h.
Proof.
  induction n as [|n IH]; intros i h r h' Hrun; cbn [allocpageref_from] in Hrun; [by injection Hrun as <- <-|].
  apply bind_Done in Hrun as (w & _ & Hrun). destruct (w =? _); [by eapply IH|].
  apply bind_Done in Hrun as ([[k j]|] & _ & Hrun); [|done]. by injection Hrun as <- <-.
Qed.

Lemma freepageref_pages j h h' : freepageref j h = Done h' → pages h' = pages h.
Proof.
  unfold freepageref. intros (? & _ & Hrun)%bind_Done. apply bind_Done in Hrun as (? & _ & Hrun).
  apply bind_Done in Hrun as (? & _ & Hrun). by injection Hrun as <-.
Qed.

Lemma doalloc_pages i h r h' : doalloc i h = Done (r, h') → pages h' = pages h.
Proof.
  unfold doalloc. intros (pr & _ & Hrun)%bind_Done. apply bind_Done in Hrun as (? & _ & Hrun). destruct (negb _).
  - apply bind_Done in Hrun as (? & _ & Hrun). apply bind_Done in Hrun as (? & _ & Hrun). by injection Hrun as <- <-.
  - apply bind_Done in Hrun as (? & _ & Hrun). by injection Hrun as <- <-.
Qed.

Lemma init_page_pages i pg t size h h' : init_page i pg t size h = Done h' → pages h' = pages h.
Proof.
  unfold init_page. intros ([fl m] & _ & Hrun)%bind_Done. apply bind_Done in Hrun as (? & _ & Hrun).
  apply bind_Done in Hrun as (? & _ & Hrun). by injection Hrun as <-.
Qed.

Lemma unlink_pages fuel next : ∀ guy pr h h', unlink fuel next guy pr h = Done h' → pages h' = pages h.
Proof.
  induction fuel as [|fuel IH]; intros guy pr h h' Hrun; cbn [unlink] in Hrun; apply bind_Done in Hrun as (o & _ & Hrun);
    (destruct o as [g|]; [|by injection Hrun as <-]); (destruct (Nat.eqb g pr);
      [apply bind_Done in Hrun as (n & _ & Hrun); injection Hrun as <-; by destruct guy|]); [done|by eapply IH].
Qed.

(** An allocation asks for one run of pages at most. *)
Lemma kmalloc_pages n h r h' :
  0 ≤ n ≤ 2 ^ 31 → kheap_kmalloc n h = Done (r, h') →
  pages h' = pages h ∨ ∃ k, 1 ≤ k ≤ 2 ^ 19 ∧ pages h' = (alloc_kpages k (pages h)).2.
Proof.
  intros Hn Hrun. unfold kheap_kmalloc in Hrun. destruct (n >=? LARGEST_SUBPAGE_SIZE) eqn:E.
  - right. exists (u32 (n + PAGE_SIZE - 1) / PAGE_SIZE). unfold PAGE_SIZE in *. rewrite u32_id in * by lia.
    split; [change LARGEST_SUBPAGE_SIZE with 2048 in E; Z.to_euclidean_division_equations; lia|].
    destruct (alloc_kpages _ (pages h)) as [address p] eqn:Ea. destruct (address =? 0); by injection Hrun as <- <-.
  - unfold subpage_kmalloc in Hrun. apply bind_Done in Hrun as (t & _ & Hrun). apply bind_Done in Hrun as (size & _ & Hrun).
    apply bind_Done in Hrun as (base & _ & Hrun). apply bind_Done in Hrun as ([i|] & _ & Hrun).
    + apply bind_Done in Hrun as ([x h1] & Hrun & E1). injection E1 as <- <-. left. by eapply doalloc_pages.
    + unfold subpage_newpage in Hrun. apply bind_Done in Hrun as ([[i|] h1] & Halloc%allocpageref_pages & Hrun); cycle 1.
      { injection Hrun as <- <-. by left. }
      right. exists 1. split; [lia|]. rewrite <- Halloc. destruct (alloc_kpages 1 (pages h1)) as [pg p]. destruct (pg =? 0).
      * apply bind_Done in Hrun as (h2 & Hrun%freepageref_pages & E1). injection E1 as <- <-. done.
      * apply bind_Done in Hrun as (h2 & Hinit%init_page_pages & Hrun).
        apply bind_Done in Hrun as ([x h3] & Hrun%doalloc_pages & E1). injection E1 as <- <-. by rewrite Hrun, Hinit.
Qed.

Lemma kfree_pages a h h' :
  (∀ b (p : P), free_kpages b p = p) → kheap_kfree a h = Done h' → pages h' = pages h.
Proof.
  intros Hfree. unfold kheap_kfree. destruct (a =? 0); [by intros [= <-]|]. intros ([r h1] & Hsub & Hrun)%bind_Done.
  assert (pages h1 = pages h) as <-.
  { unfold subpage_kfree in Hsub. apply bind_Done in Hsub as ([i|] & _ & Hsub); [|by injection Hsub as <- <-].
    apply bind_Done in Hsub as (pr & _ & Hsub). apply bind_Done in Hsub as (size & _ & Hsub).
    destruct (_ || _); [done|]. apply bind_Done in Hsub as (? & _ & Hsub). apply bind_Done in Hsub as (h2 & Hif & E).
    injection E as <- <-. destruct (_ =? _); [|by injection Hif as <-].
    apply bind_Done in Hif as (h3 & Hrem & Hfr%freepageref_pages). rewrite Hfr. cbn. rewrite Hfree. clear Hfr.
    unfold remove_lists in Hrem. apply bind_Done in Hrem as (? & _ & Hrem).
    apply bind_Done in Hrem as (h4 & H4%unlink_pages & H3%unlink_pages). by rewrite H3, H4. }
  destruct (negb _); [|by injection Hrun as <-]. apply bind_Done in Hrun as (? & _ & E). injection E as <-. cbn. apply Hfree.
Qed.
End Pages.

Lemma tables_pages {P} `{KPagesLaws P} (h : kheap P) all p : tables_ok h all → tables_ok (Kheap.set_pages p h) all.
Proof.
  intros [Hp Hb Hw Hu Hr Hn Hall Hsame]. split; try done.
  - revert Hall. by apply schain_ext.
  - intros t Ht. specialize (Hsame t Ht). revert Hsame. by apply schain_ext.
Qed.

#[global] Instance traced_ram : RamHeap (traced ram) := {
  heap_ram g := pages (heap g);
  with_ram r g := Traced (Kheap.set_pages r (heap g)) (blocks g);
}.

Lemma alloc_kpages_above r k : ram_ok r → 1 ≤ k ≤ 2 ^ 19 → ram_above r (ram_alloc_kpages k r).2.
Proof.
  intros Hr Hk. unfold ram_alloc_kpages, getppages. rewrite s32_id, u32_id, ram_stealmem_spec by (done || lia).
  pose proof Hr as [Hlo Hhi Hal]. destruct (Z.gtb_spec (firstpaddr r + k * PAGE_SIZE) (lastpaddr r)); cbn -[Z.mul].
  - split; [done|]. lia.
  - unfold PAGE_SIZE in *. replace (firstpaddr r =? 0) with false by lia. cbn [snd].
    split; [|cbn; lia]. split; cbn; [lia|lia|by apply page_aligned_add].
Qed.

Lemma ram_rel_above r r' R : ram_rel r R → ram_above r r' → ram_rel r' R.
Proof.
  intros [Hok Hrun Hd] (Hok' & Hf & Hl). split; [done| |done]. intros a n Ha. destruct (Hrun a n Ha) as (? & ? & ? & ?).
  split_and!; [done..|lia].
Qed.

#[global] Instance traced_ram_laws : RamHeapLaws (traced ram).
Proof.
  assert (Hok : ∀ g : traced ram, heap_ok g → ∃ R, ram_rel (pages (heap g)) R).
  { intros g (all & R & fls & _ & Hb & _). exists R. apply Hb. }
  split.
  - intros g Hg. destruct (Hok g Hg) as [R HR]. apply HR.
  - intros g n r g' Hg Hn Hrun. destruct (Hok g Hg) as [R HR]. cbn in Hrun |- *. apply bind_Done in Hrun as ([x h'] & Hrun & E).
    injection E as <- <-. cbn [heap]. destruct (kmalloc_pages n (heap g) x h' Hn Hrun) as [->|(k & Hk & ->)].
    + split; [apply HR|lia].
    + apply alloc_kpages_above; [apply HR|done].
  - intros g b g' Hg _ Hrun. destruct (Hok g Hg) as [R HR]. cbn in Hrun |- *. apply bind_Done in Hrun as (h' & Hrun & E).
    injection E as <-. cbn [heap]. rewrite (kfree_pages b (heap g) h'); [|done|done]. split; [apply HR|lia].
  - done.
  - intros r g (all & R & fls & Ht & Hb & Hu) Hr. exists all, R, fls. cbn [heap with_ram traced_ram blocks].
    split; [by apply tables_pages|]. split; [|exact Hu]. apply blocks_ok_pages; [done|]. eapply ram_rel_above; [apply Hb|exact Hr].
  - done.
Qed.

(** ** A process on a small machine

    128k of memory, of which the kernel takes the first page; the program
    has a page of code at 0x400000 and a page of data at 0x10000000. *)

Definition small_ram : ram := ram_bootstrap 0x20000 0x80001000.
Definition small_mem : gmap Z Z := list_to_map ((λ a, (a, 0)) <$> seqZ MIPS_KSEG0 0x20000).
Definition small_boot (m : gmap Z Z) : vm (traced ram) :=
  Vm 0 (Traced (kheap_boot (λ _, 0) small_ram) ∅) m (replicate 64 (0, 0)) ∅ 0.

Lemma small_boot_of m : mapped m MIPS_KSEG0 0x20000 → vm_boot [] (small_boot m).
Proof.
  intros Hm. split_and!; [|done|done|done|exact Hm].
  split; [apply heap_rel_boot, ram_bootstrap_ok; done|]. split; [constructor|]. by intros b ?%elem_of_nil.
Qed.

Lemma small_mem_mapped : mapped small_mem MIPS_KSEG0 0x20000.
Proof.
  intros a Ha. exists 0. apply elem_of_list_to_map_1.
  - rewrite <- list_fmap_compose. rewrite (list_fmap_ext _ id) by done. rewrite list_fmap_id. apply NoDup_seqZ.
  - apply list_elem_of_fmap. exists a. split; [done|]. by apply elem_of_seqZ.
Qed.

Lemma small_boot_ok : vm_boot [] (small_boot small_mem).
Proof. exact (small_boot_of _ small_mem_mapped). Qed.

Definition unpaged (p : Z) (s : vm (traced ram)) : bool :=
  match v_spaces s !! p with Some a => (as_pbase1 a =? 0) && (as_pbase2 a =? 0) | None => false end.

(** The program is loaded and touches a byte of its code. *)
Definition demo_load (m : gmap Z Z) : outcome (Z * vm (traced ram) * vm (traced ram)) :=
  '(r, s1) ← as_create (small_boot m);
  match r with
  | None => Fault
  | Some p =>
      '(e1, s2) ← as_define_region p 0x400000 100 s1;
      '(e2, s3) ← as_define_region p 0x10000000 4096 s2;
      '(e3, s4) ← as_prepare_load p s3;
      let s5 := as_activate (set_cur p s4) in
      '(e4, s6) ← vm_fault VM_FAULT_READ 0x400010 s5;
      if unpaged p s1 && unpaged p s2 && negb (p =? 0) then Done (p, s5, s6) else Fault
  end.

Definition demo_space (o : option addrspace) : bool :=
  match o with
  | Some a => space_check a && (as_vbase1 a =? 0x400000) && (as_npages1 a =? 1) && (as_vbase2 a =? 0x10000000) && (as_npages2 a =? 1)
  | None => false
  end.

Definition demo_loaded (x : Z * vm (traced ram) * vm (traced ram)) : bool :=
  let '(p, s5, s6) := x in
  demo_space (v_spaces s5 !! p) && bool_decide (is_Some (tlb_translate (v_tlb s6) 0x400010)) &&
  bool_decide (tlb_translate (v_tlb s5) 0x400010 = None).

Lemma demo_load_runs m : match demo_load m with Done x => demo_loaded x | _ => false end = true.
Proof. vm_compute. reflexivity. Qed.

Lemma demo_space_loaded o : demo_space o = true → ∃ a, o = Some a ∧ loaded a.
Proof.
  unfold demo_space. destruct o as [a|]; [|done]. rewrite !andb_true_iff, !Z.eqb_eq. intros ((((Hc & E1) & E2) & E3) & E4).
  exists a. split; [done|]. split; [done|..]; rewrite ?E1, ?E2, ?E3, ?E4; done.
Qed.

Lemma unpaged_inv p s : unpaged p s = true → ∃ a, v_spaces s !! p = Some a ∧ as_pbase1 a = 0 ∧ as_pbase2 a = 0.
Proof.
  unfold unpaged. destruct (v_spaces s !! p) as [a|]; [|done]. rewrite andb_true_iff, !Z.eqb_eq. intros [? ?]. by exists a.
Qed.

#[local] Opaque small_boot.

(** The machine before and after the fault. *)
Lemma demo_machine_of m p s5 s6 :
  vm_boot [] (small_boot m) → demo_load m = Done (p, s5, s6) → demo_loaded (p, s5, s6) = true → ∃ a,
  vm_reach [] s5 ∧ vm_reach [] s6 ∧ v_cur s5 ≠ 0 ∧ v_cur s6 = v_cur s5 ∧ v_spaces s6 = v_spaces s5 ∧
  v_spaces s5 !! v_cur s5 = Some a ∧ loaded a ∧
  tlb_translate (v_tlb s5) 0x400010 = None ∧ is_Some (tlb_translate (v_tlb s6) 0x400010).
Proof.
  intros Hboot Hrun Hchk. unfold demo_load in Hrun.
  unfold demo_loaded in Hchk. rewrite !andb_true_iff, !bool_decide_eq_true in Hchk. destruct Hchk as ((Hsp & Hhit) & Hmiss).
  apply bind_Done in Hrun as ([r s1] & R1 & Hrun). destruct r as [q|]; [|done].
  apply bind_Done in Hrun as ([e1 s2] & R2 & Hrun). apply bind_Done in Hrun as ([e2 s3] & R3 & Hrun).
  apply bind_Done in Hrun as ([e3 s4] & R4 & Hrun). cbv zeta in Hrun. apply bind_Done in Hrun as ([e4 s6'] & R5 & Hrun).
  destruct (_ && _) eqn:E in Hrun; [|done]. injection Hrun as <- <- <-. rewrite !andb_true_iff in E. destruct E as ((U1 & U2) & Hq).
  destruct (demo_space_loaded _ Hsp) as (a & Ha & Hl).
  destruct (unpaged_inv _ _ U1) as (a1 & Ha1 & Hz1 & Hz1'), (unpaged_inv _ _ U2) as (a2 & Ha2 & Hz2 & Hz2').
  assert (H1 : vm_reach [] s1) by (eapply vr_step; [apply vr_boot, Hboot|exact (vs_create _ _ _ R1)]).
  assert (H2 : vm_reach [] s2) by (eapply vr_step; [exact H1|apply (vs_define _ q a1 0x400000 100 e1); (exact R2 || assumption || lia)]).
  assert (H3 : vm_reach [] s3) by (eapply vr_step; [exact H2|apply (vs_define _ q a2 0x10000000 4096 e2); (exact R3 || assumption || lia)]).
  assert (H4 : vm_reach [] s4) by (eapply vr_step; [exact H3|exact (vs_prepare _ _ _ _ R4)]).
  set (s5 := as_activate (set_cur q s4)) in *.
  assert (H5 : vm_reach [] s5) by (eapply vr_step; [exact H4|apply vs_switch; [by exists a|lia]]).
  assert (Hc : v_cur s5 ≠ 0) by (cbn; lia).
  assert (H6 : vm_reach [] s6') by (eapply vr_step; [exact H5|apply (vs_fault s5 a VM_FAULT_READ 0x400010 e4); (exact R5 || assumption || lia || by left)]).
  destruct (reach_ok [] s5 H5) as [Hi _ Ht]. destruct (Ht Hc) as (b & Hb & Hok). change (v_cur s5) with q in Hb. rewrite Ha in Hb. injection Hb as <-.
  destruct (vm_fault_run [] s5 a VM_FAULT_READ 0x400010 Hi Hc Ha Hl Hok ltac:(by left) ltac:(lia) Hmiss) as (e & t & R5' & _).
  rewrite R5 in R5'. injection R5' as _ ->. exists a. split_and!; done.
Qed.

Lemma demo_machine m : vm_boot [] (small_boot m) → ∃ s5 s6 a,
  vm_reach [] s5 ∧ vm_reach [] s6 ∧ v_cur s5 ≠ 0 ∧ v_cur s6 = v_cur s5 ∧ v_spaces s6 = v_spaces s5 ∧
  v_spaces s5 !! v_cur s5 = Some a ∧ loaded a ∧
  tlb_translate (v_tlb s5) 0x400010 = None ∧ is_Some (tlb_translate (v_tlb s6) 0x400010).
Proof.
  intros Hboot. destruct (run_Done (demo_load m) demo_loaded (demo_load_runs m)) as ([[p s5] s6] & Hrun & Hchk).
  destruct (demo_machine_of m p s5 s6 Hboot Hrun Hchk) as [a Ha]. exists s5, s6, a. exact Ha.
Qed.

(** ** The theorems at work *)


Lemma vm_fault_answers_witness : ∃ (s : vm (traced ram)) e t,
  vm_reach [] s ∧ vm_fault VM_FAULT_READ 0x400010 s = Done (e, set_tlb t s).
Proof.
  destruct (demo_machine small_mem small_boot_ok) as (s & s6 & a & Hr & _ & Hc & _ & _ & Ha & Hl & Hmiss & _).
  destruct (vm_fault_answers [] s a VM_FAULT_READ 0x400010 Hr Hc Ha Hl ltac:(left; reflexivity) ltac:(lia) Hmiss) as (e & t & Hrun & _).
  exists s, e, t. split; [exact Hr|exact Hrun].
Defined.

Lemma as_copy_copies_witness : ∃ (s : vm (traced ram)) p a e r s',
  vm_reach [] s ∧ v_spaces s !! p = Some a ∧ loaded a ∧ as_copy p s = Done (e, r, s').
Proof.
  destruct (demo_machine small_mem small_boot_ok) as (s & s6 & a & Hr & _ & Hc & _ & _ & Ha & Hl & _).
  destruct (as_copy_copies [] s (v_cur s) a Hr Ha Hl) as (e & r & s' & Hrun & _).
  exists s, (v_cur s), a, e, r, s'. split; [exact Hr|]. split; [exact Ha|]. split; [exact Hl|exact Hrun].
Defined.

(** A space on a machine whose first 16 pages are in use. *)
Definition demo_used : vm (traced ram) :=
  Vm 0 (Traced (kheap_boot (λ _, 0) (Ram 0x10000 0x40000)) ∅) ∅ [] {[ 0x80008000 := AddrSpace 0 0 0 0 0 0 0 ]} 0.

Lemma huge_region_reuses_memory_witness : ∃ s' a,
  ('(e1, s) ← as_define_region 0x80008000 (0x400 * PAGE_SIZE) (2 ^ 32 - 4 * PAGE_SIZE) demo_used;
   '(e2, s) ← as_define_region 0x80008000 (0x10000 * PAGE_SIZE) (2 * PAGE_SIZE) s;
   '(e3, s) ← as_prepare_load 0x80008000 s; Done (e1, e2, e3, s)) = Done (0, 0, 0, s') ∧
  v_spaces s' !! 0x80008000 = Some a ∧ as_pbase2 a = 0x10000 - 4 * PAGE_SIZE ∧ as_pbase2 a + as_npages2 a * PAGE_SIZE ≤ 0x10000.
Proof.
  destruct (huge_region_reuses_memory demo_used 0x80008000 4 2 0x400 0x10000) as (s' & a & Hrun & Ha & Hb & Hn).
  - split; [reflexivity|cbn; lia|reflexivity].
  - reflexivity.
  - lia.
  - lia.
  - lia.
  - lia.
  - reflexivity.
  - discriminate.
  - exists s', a. split; [exact Hrun|]. split; [exact Ha|]. split; [exact Hb|exact Hn].
Defined.
