(* ===== verification/Malloc.v ===== *)
(** * The allocator of user programs (lib/libc/malloc.c)

    A first-fit allocator whose blocks lie one after the other from
    [__heapbase] to [__heaptop], each with a header of two words that gives
    the distances to its neighbours.  Memory is a map from word addresses to
    32-bit words; [sbrk] is a parameter, with the behaviour its manual page
    promises (man/syscall/sbrk.html).  The debugging dump is compiled out.
    err and errx end the program: [Panic]. *)

From S2P Require Import Prelude.

Abbreviation wmem := (gmap Z Z).

Definition MBLOCKSIZE : Z := 8.
Definition MBLOCKSHIFT : Z := 3.
Definition MMAGIC : Z := 2.

(** The bit fields, from the most significant bit down as the compiler for
    this big-endian machine lays them out. *)
Record mheader := Mheader {
  mh_prevblock : Z;    (* 29 bits *)
  mh_pad : Z;          (* 1 *)
  mh_magic1 : Z;       (* 2 *)
  mh_nextblock : Z;    (* 29 *)
  mh_inuse : Z;        (* 1 *)
  mh_magic2 : Z;       (* 2 *)
}.

Definition ld (a : Z) (m : wmem) : outcome Z := match m !! a with Some w => Done w | None => Fault end.
Definition st (a w : Z) (m : wmem) : outcome wmem := match m !! a with Some _ => Done (<[a := w]> m) | None => Fault end.

Definition mh_get (a : Z) (m : wmem) : outcome mheader :=
  w1 ← ld a m;
  w2 ← ld (a + 4) m;
  Done (Mheader (w1 / 8) (w1 / 4 mod 2) (w1 mod 4) (w2 / 8) (w2 / 4 mod 2) (w2 mod 4)).

Definition mh_put (a : Z) (h : mheader) (m : wmem) : outcome wmem :=
  m ← st a (mh_prevblock h * 8 + mh_pad h * 4 + mh_magic1 h) m;
  st (a + 4) (mh_nextblock h * 8 + mh_inuse h * 4 + mh_magic2 h) m.

Definition set_prevblock v h := Mheader (v mod 2 ^ 29) (mh_pad h) (mh_magic1 h) (mh_nextblock h) (mh_inuse h) (mh_magic2 h).
Definition set_nextblock v h := Mheader (mh_prevblock h) (mh_pad h) (mh_magic1 h) (v mod 2 ^ 29) (mh_inuse h) (mh_magic2 h).
Definition set_inuse v h := Mheader (mh_prevblock h) (mh_pad h) (mh_magic1 h) (mh_nextblock h) v (mh_magic2 h).

Definition M_NEXTOFF (h : mheader) : Z := u32 (Z.shiftl (mh_nextblock h) MBLOCKSHIFT).
Definition M_PREVOFF (h : mheader) : Z := u32 (Z.shiftl (mh_prevblock h) MBLOCKSHIFT).
Definition M_NEXT (mh : Z) (h : mheader) : Z := u32 (mh + M_NEXTOFF h).
Definition M_PREV (mh : Z) (h : mheader) : Z := u32 (mh - M_PREVOFF h).
Definition M_DATA (mh : Z) : Z := u32 (mh + MBLOCKSIZE).
Definition M_SIZE (h : mheader) : Z := u32 (M_NEXTOFF h - MBLOCKSIZE).
Definition M_OK (h : mheader) : bool := (mh_magic1 h =? MMAGIC) && (mh_magic2 h =? MMAGIC).
Definition M_MKFIELD (off : Z) : Z := Z.shiftr off MBLOCKSHIFT.

(** The system's part: the call moves the break and may map memory. *)
Class Sbrk (S : Type) := {
  sbrk : Z → S * wmem → Z * (S * wmem);
}.

(** The static variables and the memory of the process. *)
Record heap (S : Type) := Heap {
  heapbase : Z;
  heaptop : Z;
  h_mem : wmem;
  h_sys : S;
}.
Arguments Heap {S} _ _ _ _.
Arguments heapbase {S} _.
Arguments heaptop {S} _.
Arguments h_mem {S} _.
Arguments h_sys {S} _.

Section Malloc.
Context {S : Type} `{Sbrk S}.
Implicit Types g : heap S.

Definition put_mem m g : heap S := Heap (heapbase g) (heaptop g) m (h_sys g).

(** sbrk as the program calls it: the result is an address or -1. *)
Definition call_sbrk (amount : Z) g : Z * heap S :=
  let '(x, (s, m)) := sbrk amount (h_sys g, h_mem g) in (x, Heap (heapbase g) (heaptop g) m s).

Definition malloc_init g : outcome (heap S) :=
  if negb (heapbase g =? 0) || negb (heaptop g =? 0) then Panic
  else
    let '(x, g) := call_sbrk 0 g in
    if x =? -1 then Panic
    else if x =? 0 then Panic
    else
      let g := Heap x x (h_mem g) (h_sys g) in
      if negb (x mod MBLOCKSIZE =? 0) then
        let adjust := MBLOCKSIZE - x mod MBLOCKSIZE in
        let '(y, g) := call_sbrk adjust g in
        if y =? -1 then Panic
        else if negb (y =? heapbase g) then Panic
        else
          let base := u32 (heapbase g + adjust) in
          Done (Heap base base (h_mem g) (h_sys g))
      else Done g.

(** NULL is 0. *)
Definition malloc_sbrk (size : Z) g : outcome (Z * heap S) :=
  let '(x, g) := call_sbrk (s32 size) g in
  if x =? -1 then Done (0, g)
  else if negb (x =? heaptop g) then Panic
  else Done (x, Heap (heapbase g) (u32 (heaptop g + size)) (h_mem g) (h_sys g)).

Definition malloc_split (mh size : Z) g : outcome (heap S) :=
  if negb (size mod MBLOCKSIZE =? 0) then Panic
  else
    h ← mh_get mh (h_mem g);
    if u32 (M_SIZE h - size) <? 2 * MBLOCKSIZE then Done g
    else
      let mhnext := M_NEXT mh h in
      let oldsize := M_SIZE h in
      let h := set_nextblock (M_MKFIELD (u32 (size + MBLOCKSIZE))) h in
      m ← mh_put mh h (h_mem g);
      let mhnew := M_NEXT mh h in
      if mhnew =? mhnext then Panic
      else
        let hnew := Mheader (M_MKFIELD (u32 (size + MBLOCKSIZE)) mod 2 ^ 29) 0 MMAGIC
                            (M_MKFIELD (u32 (oldsize - size)) mod 2 ^ 29) 0 MMAGIC in
        m ← mh_put mhnew hnew m;
        if negb (mhnext =? heaptop g) then
          hn ← mh_get mhnext m;
          m ← mh_put mhnext (set_prevblock (mh_nextblock hnew) hn) m;
          Done (put_mem m g)
        else Done (put_mem m g).

(** The search: the block found, or the rightprevblock at the end.  [i] is
    the address the loop is at. *)
Inductive found := Found (mh : Z) | AtEnd (rightprevblock : Z).

Fixpoint malloc_search (fuel : nat) (i rightprevblock size : Z) g : outcome found :=
  if i <? heaptop g then
    match fuel with
    | O => Diverge
    | Datatypes.S fuel =>
        h ← mh_get i (h_mem g);
        if negb (M_OK h) then Panic
        else if negb (mh_prevblock h =? rightprevblock) then Panic
        else if negb (mh_inuse h =? 0) || (M_SIZE h <? size)
        then malloc_search fuel (u32 (i + M_NEXTOFF h)) (mh_nextblock h) size g
        else Done (Found i)
    end
  else if negb (i =? heaptop g) then Panic
  else Done (AtEnd rightprevblock).

(** A heap of [n] bytes has at most [n / 8] blocks. *)
Definition search_fuel g : nat := Z.to_nat ((heaptop g - heapbase g) / MBLOCKSIZE).

Definition malloc (size : Z) g : outcome (Z * heap S) :=
  g ← (if heapbase g =? 0 then malloc_init g else Done g);
  if (heapbase g =? 0) || (heaptop g =? 0) || (heapbase g >? heaptop g) then Panic
  else
    let size := Z.land (u32 (size + MBLOCKSIZE - 1)) (u32 (Z.lnot (MBLOCKSIZE - 1))) in
    r ← malloc_search (search_fuel g) (heapbase g) 0 size g;
    match r with
    | Found mh =>
        g ← malloc_split mh size g;
        h ← mh_get mh (h_mem g);
        m ← mh_put mh (set_inuse 1 h) (h_mem g);
        Done (M_DATA mh, put_mem m g)
    | AtEnd rightprevblock =>
        '(mh, g) ← malloc_sbrk (u32 (size + MBLOCKSIZE)) g;
        if mh =? 0 then Done (0, g)
        else
          m ← mh_put mh (Mheader (rightprevblock mod 2 ^ 29) 0 MMAGIC
                                 (M_MKFIELD (u32 (size + MBLOCKSIZE)) mod 2 ^ 29) 1 MMAGIC) (h_mem g);
          Done (M_DATA mh, put_mem m g)
    end.

(** x[i] = 0xdeadbeef from [i] on, [n] times. *)
Fixpoint deadbeef_from (n : nat) (i x : Z) (m : wmem) : outcome wmem :=
  match n with
  | O => Done m
  | Datatypes.S n => m ← st (x + 4 * i) 0xdeadbeef m; deadbeef_from n (i + 1) x m
  end.

Definition malloc_deadbeef (ptr size : Z) (m : wmem) : outcome wmem :=
  deadbeef_from (Z.to_nat (size / 4)) 0 ptr m.

Definition malloc_trymerge (mh mhnext : Z) g : outcome (heap S) :=
  h ← mh_get mh (h_mem g);
  hn ← mh_get mhnext (h_mem g);
  if negb (mh_nextblock h =? mh_prevblock hn) then Panic
  else if negb (mh_inuse h =? 0) || negb (mh_inuse hn =? 0) then Done g
  else
    let mhnextnext := M_NEXT mhnext hn in
    let h := set_nextblock (M_MKFIELD (u32 (MBLOCKSIZE + M_SIZE h + MBLOCKSIZE + M_SIZE hn))) h in
    m ← mh_put mh h (h_mem g);
    m ← (if negb (mhnextnext =? heaptop g) then
           hnn ← mh_get mhnextnext m;
           mh_put mhnextnext (set_prevblock (mh_nextblock h) hnn) m
         else Done m);
    m ← malloc_deadbeef mhnext MBLOCKSIZE m;
    Done (put_mem m g).

Definition free (x : Z) g : outcome (heap S) :=
  if x =? 0 then Done g
  else if (heapbase g =? 0) || (heaptop g =? 0) || (heapbase g >? heaptop g) then Panic
  else if (x <? heapbase g) || (x >=? heaptop g) then Panic
  else
    let mh := u32 (x - MBLOCKSIZE) in
    h ← mh_get mh (h_mem g);
    if negb (M_OK h) then Panic
    else if mh_inuse h =? 0 then Panic
    else
      m ← mh_put mh (set_inuse 0 h) (h_mem g);
      m ← malloc_deadbeef (M_DATA mh) (M_SIZE h) m;
      let g := put_mem m g in
      let mhnext := M_NEXT mh h in
      g ← (if negb (mhnext =? heaptop g) then malloc_trymerge mh mhnext g else Done g);
      if negb (mh =? heapbase g) then
        h ← mh_get mh (h_mem g);
        malloc_trymerge (M_PREV mh h) mh g
      else Done g.
End Malloc.
