(* ===== verification/MallocSpec.v ===== *)
(** * What malloc and free promise

    The heap is a row of blocks; no two free ones are neighbours.  malloc
    and free keep it so, never find it corrupt, hand out disjoint blocks and
    leave the contents of the blocks in use alone. *)

From S2P Require Import Prelude Malloc.

(** ** The system's side

    sbrk gives the old break and maps the memory up to the new one, or
    fails and does nothing; asking for the break does not fail.  The heap
    lies in user space. *)
Class SbrkLaws (S : Type) `{Sbrk S} := {
  brk : S → Z;
  brk_range s : 0 < brk s ≤ 2 ^ 31;
  sbrk_zero s m : sbrk 0 (s, m) = (brk s, (s, m));
  sbrk_more s m n : 0 < n < 2 ^ 31 →
    ∃ x s' m', sbrk n (s, m) = (x, (s', m')) ∧
      (x = -1 ∧ brk s' = brk s ∧ m' = m ∨
       x = brk s ∧ brk s' = brk s + n ∧
       (∀ w, ¬ (brk s ≤ w < brk s + n) → m' !! w = m !! w) ∧
       (∀ w, brk s ≤ w < brk s + n → w mod 4 = 0 → is_Some (m' !! w)));
}.

(** ** The row of blocks

    A block is its size with the header and whether it is in use. *)

Abbreviation block := (Z * bool)%type.

Definition use_bit (u : bool) : Z := if u then 4 else 0.

Fixpoint laid (m : wmem) (prev a : Z) (bl : list block) (top : Z) : Prop :=
  match bl with
  | [] => a = top
  | (n, u) :: bl =>
      (8 ≤ n ∧ n mod 8 = 0) ∧ m !! a = Some (prev + MMAGIC) ∧ m !! (a + 4) = Some (n + use_bit u + MMAGIC) ∧
      (∀ w, a ≤ w < a + n → w mod 4 = 0 → is_Some (m !! w)) ∧ laid m n (a + n) bl top
  end.

Fixpoint total (bl : list block) : Z := match bl with [] => 0 | (n, _) :: bl => n + total bl end.
Fixpoint last_size (prev : Z) (bl : list block) : Z := match bl with [] => prev | (n, _) :: bl => last_size n bl end.

Lemma total_app l1 l2 : total (l1 ++ l2) = total l1 + total l2.
Proof. induction l1 as [|[n u] l1 IH]; cbn; lia. Qed.
Lemma last_size_app prev l1 l2 : last_size prev (l1 ++ l2) = last_size (last_size prev l1) l2.
Proof. revert prev. induction l1 as [|[n u] l1 IH]; intros; cbn; auto. Qed.

Lemma laid_top m bl : ∀ prev a top, laid m prev a bl top → top = a + total bl ∧ 8 * Z.of_nat (length bl) ≤ total bl.
Proof.
  induction bl as [|[n u] bl IH]; intros prev a top; cbn [laid total length]; [lia|].
  intros ((? & ?) & _ & _ & _ & Hl). destruct (IH _ _ _ Hl). lia.
Qed.

Lemma laid_app m l1 l2 : ∀ prev a top,
  laid m prev a (l1 ++ l2) top ↔ laid m prev a l1 (a + total l1) ∧ laid m (last_size prev l1) (a + total l1) l2 top.
Proof.
  induction l1 as [|[n u] l1 IH]; intros prev a top; cbn [app laid total last_size].
  - rewrite Z.add_0_r. tauto.
  - rewrite IH, Z.add_assoc. tauto.
Qed.

Lemma laid_frame m m' bl : ∀ prev a top,
  laid m prev a bl top → (∀ w, a ≤ w < top → m' !! w = m !! w) → laid m' prev a bl top.
Proof.
  induction bl as [|[n u] bl IH]; intros prev a top; cbn [laid]; [done|].
  intros ((Hn & Hm) & H1 & H2 & Hd & Hl) Hf. destruct (laid_top _ _ _ _ _ Hl) as [Ht ?]. split_and!; try done.
  - by rewrite Hf by lia.
  - by rewrite Hf by lia.
  - intros w Hw Hw4. rewrite Hf by lia. by apply Hd.
  - apply IH; [done|]. intros w Hw. apply Hf. lia.
Qed.

(** The header of the first block tells of another block below. *)
Lemma laid_set_prev m prev prev' a bl top :
  laid m prev a bl top → bl ≠ [] → laid (<[a := prev' + MMAGIC]> m) prev' a bl top.
Proof.
  destruct bl as [|[n u] bl]; [done|]. cbn [laid]. intros ((Hn & Hm) & H1 & H2 & Hd & Hl) _.
  destruct (laid_top _ _ _ _ _ Hl) as [Ht ?]. split_and!; try done.
  - by rewrite lookup_insert_eq.
  - by rewrite lookup_insert_ne by lia.
  - intros w Hw Hw4. apply lookup_insert_is_Some'. right. by apply Hd.
  - eapply laid_frame; [done|]. intros w Hw. by rewrite lookup_insert_ne by lia.
Qed.

(** ** Headers *)

Definition hdr (prev n : Z) (u : bool) : mheader := Mheader (prev / 8) 0 MMAGIC (n / 8) (Z.b2z u) MMAGIC.

Lemma get_hdr m a prev n u :
  prev mod 8 = 0 → n mod 8 = 0 → m !! a = Some (prev + MMAGIC) → m !! (a + 4) = Some (n + use_bit u + MMAGIC) →
  mh_get a m = Done (hdr prev n u).
Proof.
  intros Hp Hn H1 H2. unfold mh_get, ld. rewrite H1, H2. cbn [mbind outcome_bind]. unfold hdr, MMAGIC, use_bit.
  do 2 f_equal; destruct u; cbn [Z.b2z]; Z.to_euclidean_division_equations; lia.
Qed.

Lemma put_hdr m a prev n u :
  prev mod 8 = 0 → n mod 8 = 0 → is_Some (m !! a) → is_Some (m !! (a + 4)) →
  mh_put a (hdr prev n u) m = Done (<[a + 4 := n + use_bit u + MMAGIC]> (<[a := prev + MMAGIC]> m)).
Proof.
  intros Hp Hn [x Hx] [y Hy]. unfold mh_put, st, hdr. cbn [mh_prevblock mh_pad mh_magic1 mh_nextblock mh_inuse mh_magic2].
  rewrite Hx. cbn [mbind outcome_bind]. rewrite lookup_insert_ne, Hy by lia.
  do 3 f_equal; [destruct u; cbn [Z.b2z use_bit]|f_equal]; Z.to_euclidean_division_equations; lia.
Qed.

Lemma hdr_nextoff prev n u : 0 ≤ n < 2 ^ 32 → n mod 8 = 0 → M_NEXTOFF (hdr prev n u) = n.
Proof.
  intros Hn Hm. unfold M_NEXTOFF, hdr, MBLOCKSHIFT. cbn [mh_nextblock]. rewrite Z.shiftl_mul_pow2 by done.
  rewrite u32_id; Z.to_euclidean_division_equations; lia.
Qed.

Lemma hdr_prevoff prev n u : 0 ≤ prev < 2 ^ 32 → prev mod 8 = 0 → M_PREVOFF (hdr prev n u) = prev.
Proof.
  intros Hn Hm. unfold M_PREVOFF, hdr, MBLOCKSHIFT. cbn [mh_prevblock]. rewrite Z.shiftl_mul_pow2 by done.
  rewrite u32_id; Z.to_euclidean_division_equations; lia.
Qed.

Lemma mkfield n : 0 ≤ n < 2 ^ 32 → M_MKFIELD n mod 2 ^ 29 = n / 8.
Proof.
  intros Hn. unfold M_MKFIELD, MBLOCKSHIFT. rewrite Z.shiftr_div_pow2 by done. apply Z.mod_small.
  Z.to_euclidean_division_equations. lia.
Qed.

(** ** The invariant *)

(** No two free blocks are neighbours; [u] says whether the block before is
    in use. *)
Fixpoint merged (u : bool) (bl : list block) : Prop :=
  match bl with
  | [] => True
  | (_, u') :: bl => (u = true ∨ u' = true) ∧ merged u' bl
  end.

Fixpoint last_use (u : bool) (bl : list block) : bool := match bl with [] => u | (_, u') :: bl => last_use u' bl end.

Lemma merged_app l1 l2 : ∀ u, merged u (l1 ++ l2) ↔ merged u l1 ∧ merged (last_use u l1) l2.
Proof. induction l1 as [|[n u'] l1 IH]; intros u; cbn [app merged last_use]; [tauto|]. rewrite IH. tauto. Qed.

Lemma last_use_app l1 l2 : ∀ u, last_use u (l1 ++ l2) = last_use (last_use u l1) l2.
Proof. induction l1 as [|[n u'] l1 IH]; intros u; cbn; auto. Qed.

Lemma merged_true u bl : merged u bl → merged true bl.
Proof. destruct bl as [|[n u'] bl]; cbn; tauto. Qed.

(** The data of the blocks in use: where it is and how much. *)
Fixpoint spots (a : Z) (bl : list block) : gmap Z Z :=
  match bl with
  | [] => ∅
  | (n, u) :: bl => if u : bool then <[a + 8 := n - 8]> (spots (a + n) bl) else spots (a + n) bl
  end.

Definition sizes_ok (bl : list block) : Prop := Forall (λ b, 8 ≤ b.1) bl.

Lemma laid_sizes m bl : ∀ prev a top, laid m prev a bl top → sizes_ok bl.
Proof. induction bl as [|[n u] bl IH]; intros prev a top; cbn [laid]; [constructor|]. intros ((? & ?) & _ & _ & _ & Hl). constructor; [done|by eapply IH]. Qed.

Lemma total_nonneg bl : sizes_ok bl → 0 ≤ total bl.
Proof. induction 1 as [|[n u] bl ? ? IH]; cbn in *; lia. Qed.

Lemma spots_range bl : ∀ a p k, sizes_ok bl → spots a bl !! p = Some k → a + 8 ≤ p ∧ 0 ≤ k ∧ p + k ≤ a + total bl.
Proof.
  induction bl as [|[n u] bl IH]; intros a p k Hs Hp; cbn [spots total] in *; [by rewrite lookup_empty in Hp|].
  apply Forall_cons_1 in Hs as [Hn Hs]. cbn in Hn. pose proof (total_nonneg bl Hs).
  assert (Hrec : spots (a + n) bl !! p = Some k → a + 8 ≤ p ∧ 0 ≤ k ∧ p + k ≤ a + (n + total bl)) by (intros Hr; destruct (IH _ _ _ Hs Hr); lia).
  destruct u; [|auto]. apply lookup_insert_Some in Hp as [[<- <-]|[_ ?]]; [lia|auto].
Qed.

Lemma spots_disjoint bl : ∀ a p k q j, sizes_ok bl →
  spots a bl !! p = Some k → spots a bl !! q = Some j → p ≠ q → p + k + 8 ≤ q ∨ q + j + 8 ≤ p.
Proof.
  induction bl as [|[n u] bl IH]; intros a p k q j Hs Hp Hq Hne; cbn [spots] in *; [by rewrite lookup_empty in Hp|].
  apply Forall_cons_1 in Hs as [Hn Hs]. cbn in Hn. destruct u; [|by eapply IH].
  apply lookup_insert_Some in Hp as [[<- <-]|[_ Hp]]; apply lookup_insert_Some in Hq as [[<- <-]|[_ Hq]]; [done|..].
  - apply spots_range in Hq as (? & ? & ?); [|done]. lia.
  - apply spots_range in Hp as (? & ? & ?); [|done]. lia.
  - by eapply IH.
Qed.

Lemma spots_app l1 l2 : ∀ a, sizes_ok l1 → spots a (l1 ++ l2) = spots a l1 ∪ spots (a + total l1) l2.
Proof.
  induction l1 as [|[n u] l1 IH]; intros a Hs; cbn [app spots total]; [by rewrite (left_id_L ∅ (∪)), Z.add_0_r|].
  apply Forall_cons_1 in Hs as [Hn Hs]. rewrite (IH (a + n) Hs), Z.add_assoc. destruct u; [|done]. by rewrite insert_union_l.
Qed.

(** Space of one block given a different use. *)
Lemma spots_take l1 l2 rest k n a :
  sizes_ok l1 → spots (a + total l1 + k) rest = spots (a + total l1 + n) l2 →
  spots a (l1 ++ (k, true) :: rest) = <[a + total l1 + 8 := k - 8]> (spots a (l1 ++ (n, false) :: l2)).
Proof.
  intros Hs E. rewrite !spots_app by done. cbn [spots]. rewrite E. rewrite insert_union_r; [done|].
  apply eq_None_not_Some. intros [j Hj]. apply spots_range in Hj as (? & ? & ?); [|done]. lia.
Qed.

Lemma spots_drop l1 l2 rest n k a :
  sizes_ok l1 → sizes_ok l2 → 8 ≤ n → spots (a + total l1 + k) rest = spots (a + total l1 + n) l2 →
  spots a (l1 ++ (k, false) :: rest) = delete (a + total l1 + 8) (spots a (l1 ++ (n, true) :: l2)).
Proof.
  intros Hs Hs2 Hn E. rewrite (spots_take l1 l2 l2 n n) by done. rewrite delete_insert_id.
  - rewrite !spots_app by done. cbn [spots]. by rewrite E.
  - rewrite spots_app by done. cbn [spots]. apply eq_None_not_Some. intros [j Hj]. apply lookup_union_Some_raw in Hj as [Hj|[_ Hj]];
      apply spots_range in Hj as (? & ? & ?); done || lia.
Qed.

(** The bits from [k] up. *)
Lemma land_high x k : 0 ≤ x < 2 ^ 32 → 0 ≤ k ≤ 32 → Z.land x (Z.shiftl (Z.ones (32 - k)) k) = x / 2 ^ k * 2 ^ k.
Proof.
  intros Hx Hk. rewrite <- Z.shiftr_div_pow2, <- Z.shiftl_mul_pow2 by lia. apply Z.bits_inj'. intros i Hi.
  rewrite Z.land_spec, !Z.shiftl_spec by lia. destruct (decide (i < k)).
  { rewrite !(Z.testbit_neg_r _ (i - k)) by lia. apply andb_false_r. }
  rewrite Z.shiftr_spec by lia. replace (i - k + k) with i by lia. destruct (decide (i - k < 32 - k)).
  - by rewrite Z.ones_spec_low, andb_true_r by lia.
  - rewrite Z.ones_spec_high, andb_false_r by lia. symmetry. apply (testbit_above 32); lia.
Qed.

Section Spec.
Context {S : Type} `{SbrkLaws S}.
Implicit Types (g : heap S) (bl : list block).

Record heap_ok g bl : Prop := {
  ho_base : 0 < heapbase g;
  ho_aligned : heapbase g mod 8 = 0;
  ho_top : heaptop g = brk (h_sys g);
  ho_laid : laid (h_mem g) 0 (heapbase g) bl (heaptop g);
  ho_merged : merged true bl;
}.

Lemma ok_total g bl : heap_ok g bl → heaptop g = heapbase g + total bl ∧ 8 * Z.of_nat (length bl) ≤ total bl ∧ heaptop g ≤ 2 ^ 31.
Proof.
  intros Hg. destruct (laid_top _ _ _ _ _ (ho_laid _ _ Hg)). rewrite (ho_top _ _ Hg) at 2. pose proof (brk_range (h_sys g)).
  rewrite (ho_top _ _ Hg) in *. lia.
Qed.

(** A block that can hold [size] bytes. *)
Definition fits (size : Z) (b : block) : Prop := b.2 = false ∧ size ≤ b.1 - 8.

#[global] Instance fits_dec size b : Decision (fits size b).
Proof. unfold fits. apply _. Defined.

(** The search goes through the row and stops at the first block that
    fits. *)
Lemma search_run g size bl : ∀ fuel prev a,
  0 ≤ size → 0 < a → heaptop g ≤ 2 ^ 31 → prev mod 8 = 0 →
  laid (h_mem g) prev a bl (heaptop g) → (length bl ≤ fuel)%nat →
  (∃ l1 n l2, bl = l1 ++ (n, false) :: l2 ∧ size ≤ n - 8 ∧ Forall (λ b, ¬ fits size b) l1 ∧
     malloc_search fuel a (prev / 8) size g = Done (Found (a + total l1))) ∨
  (Forall (λ b, ¬ fits size b) bl ∧ malloc_search fuel a (prev / 8) size g = Done (AtEnd (last_size prev bl / 8))).
Proof.
  induction bl as [|[n u] bl IH]; intros fuel prev a Hsz Ha Htop Hp Hl Hf.
  - right. cbn [laid] in Hl. subst a. split; [done|].
    destruct fuel; cbn [malloc_search]; rewrite Z.ltb_irrefl, Z.eqb_refl; done.
  - cbn [length] in Hf. destruct fuel as [|fuel]; [lia|]. cbn [laid] in Hl. destruct Hl as ((Hn & Hm) & H1' & H2' & Hd & Hl).
    destruct (laid_top _ _ _ _ _ Hl) as [Ht Hlen]. cbn [malloc_search].
    replace (a <? heaptop g) with true by lia. rewrite (get_hdr _ _ prev n u) by done. cbn [mbind outcome_bind].
    change (M_OK (hdr prev n u)) with true. cbn [negb]. change (mh_prevblock (hdr prev n u)) with (prev / 8). rewrite Z.eqb_refl. cbn [negb].
    unfold M_SIZE. rewrite hdr_nextoff by (done || lia). change (mh_inuse (hdr prev n u)) with (Z.b2z u).
    change (mh_nextblock (hdr prev n u)) with (n / 8). unfold MBLOCKSIZE. rewrite (u32_id (n - 8)), (u32_id (a + n)) by lia.
    destruct (decide (fits size (n, u))) as [[Hu Hfit]|Hno]; cbn in *.
    + subst u. cbn [Z.b2z Z.eqb negb orb]. replace (n - 8 <? size) with false by lia.
      left. exists [], n, bl. cbn [total]. rewrite Z.add_0_r. done.
    + replace (negb (Z.b2z u =? 0) || (n - 8 <? size)) with true; cycle 1.
      { symmetry. apply orb_true_iff. unfold fits in Hno. cbn in Hno. destruct u; [by left|right; lia]. }
      destruct (IH fuel n (a + n)) as [(l1 & k & l2 & -> & Hk & Hl1 & Hrun)|[Hall Hrun]]; try done || lia.
      * left. exists ((n, u) :: l1), k, l2. cbn [total app]. split; [done|]. split; [done|]. split; [by constructor|].
        rewrite Hrun. do 2 f_equal. lia.
      * right. cbn [last_size]. split; [by constructor|done].
Qed.

Lemma laid_last m bl : ∀ prev a top, laid m prev a bl top → 0 ≤ prev → prev mod 8 = 0 →
  0 ≤ last_size prev bl ∧ last_size prev bl mod 8 = 0 ∧ last_size prev bl ≤ Z.max prev (total bl).
Proof.
  induction bl as [|[n u] bl IH]; intros prev a top; cbn [laid last_size total]; [lia|].
  intros ((Hn & Hm) & _ & _ & _ & Hl) ? ?. destruct (IH _ _ _ Hl) as (? & ? & ?); [lia|done|]. destruct (laid_top _ _ _ _ _ Hl). lia.
Qed.

Lemma laid_total m bl : ∀ prev a top, laid m prev a bl top → total bl mod 8 = 0.
Proof.
  induction bl as [|[n u] bl IH]; intros prev a top; cbn [laid total]; [done|].
  intros ((Hn & Hm) & _ & _ & _ & Hl). specialize (IH _ _ _ Hl). by rewrite Z.add_mod, Hm, IH.
Qed.

(** The rest of the row is changed, its start is not. *)
Lemma laid_mid m m' l1 l2 l2' base top :
  laid m 0 base (l1 ++ l2) top → (∀ w, base ≤ w < base + total l1 → m' !! w = m !! w) →
  laid m' (last_size 0 l1) (base + total l1) l2' top → laid m' 0 base (l1 ++ l2') top.
Proof.
  intros [Hl1 _]%laid_app Hf Hl2. apply laid_app. split; [|done]. eapply laid_frame; [exact Hl1|exact Hf].
Qed.

(** mh->mh_inuse = v *)
Lemma inuse_run m prev a n u l top v :
  laid m prev a ((n, u) :: l) top → 0 ≤ prev → prev mod 8 = 0 →
  ∃ m', (h ← mh_get a m; mh_put a (set_inuse (Z.b2z v) h) m) = Done m' ∧ laid m' prev a ((n, v) :: l) top ∧
    ∀ w, w ≠ a + 4 → m' !! w = m !! w.
Proof.
  cbn [laid]. intros ((Hn & Hm) & H1' & H2' & Hd & Hl) Hp0 Hp. rewrite (get_hdr _ _ prev n u) by done. cbn [mbind outcome_bind].
  change (set_inuse (Z.b2z v) (hdr prev n u)) with (hdr prev n v). rewrite put_hdr by done. rewrite (insert_id m a) by done.
  destruct (laid_top _ _ _ _ _ Hl) as [Ht ?]. eexists. split; [done|]. split; [split_and!; try done|].
  - by rewrite lookup_insert_ne by lia.
  - by rewrite lookup_insert_eq.
  - intros w Hw Hw4. apply lookup_insert_is_Some'. right. by apply Hd.
  - eapply laid_frame; [done|]. intros w Hw. by rewrite lookup_insert_ne by lia.
  - intros w Hw. by rewrite lookup_insert_ne.
Qed.

(** mhnext->mh_prevblock = ..., unless at the top. *)
Lemma set_prev_run m prev prev' a l top t :
  laid m prev a l top → 0 ≤ prev → prev mod 8 = 0 → 0 ≤ prev' < 2 ^ 32 → prev' mod 8 = 0 → t = top →
  ∃ m', (if negb (a =? t) then h ← mh_get a m; mh_put a (set_prevblock (prev' / 8) h) m else Done m) = Done m' ∧
    laid m' prev' a l top ∧ ∀ w, w ≠ a → m' !! w = m !! w.
Proof.
  intros Hl Hp0 Hp Hq0 Hq ->. destruct l as [|[n u] l].
  - cbn [laid] in Hl. subst a. rewrite Z.eqb_refl. by exists m.
  - destruct (laid_top _ _ _ _ _ Hl) as [Ht ?]. pose proof Hl as ((Hn & Hm) & H1' & H2' & Hd & Hl'). cbn [total length] in *.
    destruct (laid_top _ _ _ _ _ Hl') as [Ht' ?]. replace (a =? top) with false by lia. cbn [negb].
    rewrite (get_hdr _ _ prev n u) by done. cbn [mbind outcome_bind].
    replace (set_prevblock (prev' / 8) (hdr prev n u)) with (hdr prev' n u); cycle 1.
    { unfold set_prevblock, hdr. f_equal. cbn [mh_prevblock]. symmetry. apply Z.mod_small. Z.to_euclidean_division_equations. lia. }
    rewrite put_hdr by done. exists (<[a := prev' + MMAGIC]> m). split; [|split; [by eapply laid_set_prev|]].
    + f_equal. rewrite insert_id; [done|]. by rewrite lookup_insert_ne by lia.
    + intros w Hw. by rewrite lookup_insert_ne.
Qed.

(** The block is cut when there is room for another behind it. *)
Lemma split_run g l1 n l2 size :
  heap_ok g (l1 ++ (n, false) :: l2) → 0 ≤ size ≤ n - 8 → size mod 8 = 0 →
  let a := heapbase g + total l1 in
  ∃ m k rest, malloc_split a size g = Done (put_mem m g) ∧
    laid m 0 (heapbase g) (l1 ++ (k, false) :: rest) (heaptop g) ∧ size + 8 ≤ k ∧
    (k = n ∧ rest = l2 ∨ k = size + 8 ∧ rest = (n - k, false) :: l2) ∧
    ∀ w, w < a ∨ a + n < w → m !! w = h_mem g !! w.
Proof.
  intros Hg Hsz Hm8 a. destruct (ok_total _ _ Hg) as (Ht & _ & Htop). pose proof (ho_laid _ _ Hg) as Hlaid.
  pose proof Hlaid as [Hl1 Hl]%laid_app. set (prev := last_size 0 l1) in *. fold a in Hl1, Hl.
  destruct (laid_last _ _ _ _ _ Hl1) as (Hp0 & Hp & _); [done|done|]. fold prev in Hp0, Hp.
  pose proof Hl as ((Hn & Hm) & H1' & H2' & Hd & Hl2). destruct (laid_top _ _ _ _ _ Hl2) as [Ht2 ?].
  pose proof (ho_base _ _ Hg). destruct (laid_top _ _ _ _ _ Hl1) as [_ ?]. assert (0 < a) by lia.
  unfold malloc_split. unfold MBLOCKSIZE. rewrite Hm8. cbn [Z.eqb negb]. rewrite (get_hdr _ _ prev n false) by done. cbn [mbind outcome_bind].
  unfold M_SIZE, M_NEXT. rewrite hdr_nextoff by (done || lia). unfold MBLOCKSIZE. rewrite (u32_id (n - 8)), (u32_id (n - 8 - size)), (u32_id (a + n)) by lia.
  destruct (Z.ltb_spec (n - 8 - size) (2 * 8)) as [Hsmall|Hbig].
  { exists (h_mem g), n, l2. split; [by destruct g|]. split; [done|]. split; [lia|]. split; [by left|done]. }
  rewrite (u32_id (size + 8)) by lia.
  replace (set_nextblock (M_MKFIELD (size + 8)) (hdr prev n false)) with (hdr prev (size + 8) false)
    by (unfold set_nextblock, hdr; f_equal; cbn; by rewrite mkfield by lia).
  assert (Hs8 : (size + 8) mod 8 = 0) by (Z.to_euclidean_division_equations; lia).
  rewrite put_hdr by done. cbn [mbind outcome_bind]. rewrite (insert_id (h_mem g) a) by done. set (m1 := <[a + 4 := _]> (h_mem g)).
  rewrite hdr_nextoff by (done || lia). rewrite (u32_id (a + (size + 8))) by lia. replace (a + (size + 8) =? a + n) with false by lia.
  rewrite !mkfield by lia. set (b := a + (size + 8)) in *. set (k2 := n - 8 - size).
  change (Mheader ((size + 8) / 8) 0 MMAGIC (k2 / 8) 0 MMAGIC) with (hdr (size + 8) k2 false).
  assert (Ha8 : a mod 8 = 0) by (unfold a; by rewrite Z.add_mod, (ho_aligned _ _ Hg), (laid_total _ _ _ _ _ Hl1)).
  assert (Hb8 : b mod 8 = 0) by (unfold b; by rewrite Z.add_mod, Ha8, Hs8).
  assert (Hk8 : k2 mod 8 = 0) by (unfold k2; Z.to_euclidean_division_equations; lia).
  assert (Hd1 : ∀ w, a ≤ w < a + n → w mod 4 = 0 → is_Some (m1 !! w)).
  { intros w Hw Hw4. apply lookup_insert_is_Some'. right. by apply Hd. }
  rewrite put_hdr; [|done|done|apply Hd1; Z.to_euclidean_division_equations; lia..]. cbn [mbind outcome_bind].
  set (m2 := <[b + 4 := _]> _). cbn [mh_nextblock hdr].
  assert (Hout : ∀ w, w < a ∨ a + n ≤ w → m2 !! w = h_mem g !! w).
  { intros w Hw. unfold m2, m1. by rewrite !lookup_insert_ne by lia. }
  destruct (set_prev_run m2 n k2 (a + n) l2 (heaptop g) (heaptop g)) as (m3 & Hrun & Hl3 & Hf3); [|lia|done|lia|done|done|].
  { eapply laid_frame; [exact Hl2|]. intros w Hw. apply Hout. lia. }
  exists m3, (size + 8), ((k2, false) :: l2). split.
  { destruct (negb (a + n =? heaptop g)); [|by injection Hrun as ->].
    apply bind_Done in Hrun as (hn & -> & Hrun). cbn [mbind outcome_bind]. by rewrite Hrun. }
  split; [|split; [lia|split; [right; split; [done|do 2 f_equal; lia]|intros w Hw; rewrite Hf3 by lia; apply Hout; lia]]].
  apply (laid_mid (h_mem g) m3 l1 ((n, false) :: l2)); [done|intros w Hw; rewrite Hf3 by lia; apply Hout; lia|].
  fold prev a. cbn [laid]. split_and!; [lia|done|..].
  - rewrite Hf3 by lia. unfold m2, m1. by rewrite !lookup_insert_ne by lia.
  - rewrite Hf3 by lia. unfold m2, m1. rewrite !(lookup_insert_ne _ _ (a + 4)) by lia. by rewrite lookup_insert_eq.
  - intros w Hw Hw4. rewrite Hf3 by lia. unfold m2. do 2 (apply lookup_insert_is_Some'; right). apply Hd1; [lia|done].
  - lia.
  - done.
  - fold b. rewrite Hf3 by lia. unfold m2. by rewrite lookup_insert_ne, lookup_insert_eq by lia.
  - fold b. rewrite Hf3 by lia. unfold m2. by rewrite lookup_insert_eq.
  - fold b. intros w Hw Hw4. rewrite Hf3 by lia. unfold m2. do 2 (apply lookup_insert_is_Some'; right). apply Hd1; [lia|done].
  - replace (a + (size + 8) + k2) with (a + n) by lia. done.
Qed.

(** The words of the blocks in use are left alone. *)
Definition data_kept (m m' : wmem) (L : gmap Z Z) : Prop :=
  ∀ q j w, L !! q = Some j → q ≤ w < q + j → m' !! w = m !! w.

Lemma kept_around m m' a l1 n u l2 :
  sizes_ok (l1 ++ (n, u) :: l2) → (∀ w, w < a + total l1 ∨ a + total l1 + n < w → m' !! w = m !! w) →
  data_kept m m' (delete (a + total l1 + 8) (spots a (l1 ++ (n, u) :: l2))).
Proof.
  intros Hs Hf q j w [Hne Hq]%lookup_delete_Some Hw. pose proof Hs as [Hs1 [Hn Hs2]%Forall_cons_1]%Forall_app.
  rewrite spots_app in Hq by done. apply lookup_union_Some_raw in Hq as [Hq|[_ Hq]].
  - apply spots_range in Hq as (? & ? & ?); [|done]. apply Hf. lia.
  - cbn [spots] in Hq. assert (Hq' : spots (a + total l1 + n) l2 !! q = Some j).
    { destruct u; [|done]. by rewrite lookup_insert_ne in Hq by done. }
    apply spots_range in Hq' as (? & ? & ?); [|done]. apply Hf. lia.
Qed.

(** What malloc does to the blocks. *)
Definition malloc_result g bl n p g' : Prop :=
  ∃ bl', heap_ok g' bl' ∧ heapbase g' = heapbase g ∧
    (p = 0 ∧ spots (heapbase g) bl' = spots (heapbase g) bl ∧ h_mem g' = h_mem g ∨
     p ≠ 0 ∧ p mod 8 = 0 ∧ spots (heapbase g) bl !! p = None ∧ ∃ k, n ≤ k ∧
       spots (heapbase g) bl' = <[p := k]> (spots (heapbase g) bl) ∧ data_kept (h_mem g) (h_mem g') (spots (heapbase g) bl)).

Lemma spots_new g l1 n l2 : sizes_ok l1 → sizes_ok l2 → 8 ≤ n →
  spots (heapbase g) (l1 ++ (n, false) :: l2) !! (heapbase g + total l1 + 8) = None.
Proof.
  intros Hs1 Hs2 Hn. rewrite spots_app by done. cbn [spots]. apply eq_None_not_Some. intros [j Hj].
  apply lookup_union_Some_raw in Hj as [Hj|[_ Hj]]; apply spots_range in Hj as (? & ? & ?); done || lia.
Qed.

Lemma merged_take l1 n l2 k rest :
  merged true (l1 ++ (n, false) :: l2) → k = n ∧ rest = l2 ∨ rest = (n - k, false) :: l2 →
  merged true (l1 ++ (k, true) :: rest).
Proof.
  intros [H1' [_ H2']]%merged_app Hr. apply merged_app. split; [done|]. cbn [merged]. split; [by right|].
  destruct Hr as [[_ ->]| ->]; [by apply (merged_true false)|]. cbn [merged]. split; [by left|done].
Qed.

Lemma take_run g l1 n l2 size :
  heap_ok g (l1 ++ (n, false) :: l2) → 0 ≤ size ≤ n - 8 → size mod 8 = 0 →
  let a := heapbase g + total l1 in
  ∃ m, (g ← malloc_split a size g; h ← mh_get a (h_mem g); m ← mh_put a (Malloc.set_inuse 1 h) (h_mem g);
        Done (M_DATA a, put_mem m g)) = Done (a + 8, put_mem m g) ∧ malloc_result g (l1 ++ (n, false) :: l2) size (a + 8) (put_mem m g).
Proof.
  intros Hg Hsz Hm8 a. destruct (split_run g l1 n l2 size Hg Hsz Hm8) as (m & k & rest & Hrun & Hl & Hk & Hrest & Hf).
  fold a in Hrun, Hf. rewrite Hrun. cbn [mbind outcome_bind h_mem put_mem]. pose proof Hl as [Hl1 Hl2]%laid_app. fold a in Hl1, Hl2.
  destruct (laid_last _ _ _ _ _ Hl1) as (Hp0 & Hp & _); [done|done|].
  destruct (inuse_run m _ a k false rest (heaptop g) true Hl2 Hp0 Hp) as (m' & Hput & Hl' & Hf').
  apply bind_Done in Hput as (h & -> & Hput). cbn [mbind outcome_bind Z.b2z] in *. rewrite Hput. cbn [mbind outcome_bind].
  destruct (ok_total _ _ Hg) as (Ht & _ & Htop). pose proof (laid_sizes _ _ _ _ _ (ho_laid _ _ Hg)) as Hs.
  pose proof Hs as [Hs1 [Hn Hs2]%Forall_cons_1]%Forall_app. cbn in Hn. pose proof (ho_base _ _ Hg).
  rewrite total_app in Ht. cbn [total] in Ht. pose proof (total_nonneg _ Hs1). pose proof (total_nonneg _ Hs2).
  unfold M_DATA, MBLOCKSIZE. rewrite u32_id by lia. exists m'. split; [done|]. exists (l1 ++ (k, true) :: rest). split; [|split; [done|right]].
  - split; [apply Hg..| |].
    + cbn. apply (laid_mid m m' l1 ((k, false) :: rest)); [exact Hl| |exact Hl']. intros w Hw. apply Hf'. lia.
    + eapply merged_take; [apply Hg|]. destruct Hrest as [?|[_ ?]]; auto.
  - assert (Hnew : spots (heapbase g) (l1 ++ (n, false) :: l2) !! (a + 8) = None) by by apply spots_new.
    split_and!; [lia| |done|].
    + unfold a. pose proof (laid_total _ _ _ _ _ Hl1). pose proof (ho_aligned _ _ Hg). Z.to_euclidean_division_equations. lia.
    + exists (k - 8). split; [lia|]. split.
      * apply (spots_take l1 l2 rest k n); [done|]. fold a. destruct Hrest as [[-> ->]|[-> ->]]; [done|]. cbn [spots]. f_equal. lia.
      * rewrite <- (delete_id _ _ Hnew). unfold a. apply kept_around; [done|]. intros w Hw. fold a in Hw. cbn [h_mem put_mem].
        rewrite Hf' by lia. by apply Hf.
Qed.

(** The heap is extended by one block. *)
Lemma grow_run g bl size :
  heap_ok g bl → 0 ≤ size < 2 ^ 31 - 8 → size mod 8 = 0 →
  ∃ p g', ('(mh, g) ← malloc_sbrk (u32 (size + MBLOCKSIZE)) g;
           if mh =? 0 then Done (0, g)
           else m ← mh_put mh (Mheader (last_size 0 bl / 8 mod 2 ^ 29) 0 MMAGIC
                                       (M_MKFIELD (u32 (size + MBLOCKSIZE)) mod 2 ^ 29) 1 MMAGIC) (h_mem g);
                Done (M_DATA mh, put_mem m g)) = Done (p, g') ∧ malloc_result g bl size p g' ∧
    (p = 0 ∨ p = heaptop g + 8 ∧ heaptop g' = heaptop g + (size + 8)).
Proof.
  intros Hg Hsz Hm8. pose proof (ho_laid _ _ Hg) as Hl. destruct (ok_total _ _ Hg) as (Ht & Hlen & Htop).
  pose proof (ho_base _ _ Hg) as Hb0. destruct (laid_last _ _ _ _ _ Hl) as (Hp0 & Hp & Hp2); [done|done|].
  unfold malloc_sbrk, call_sbrk, MBLOCKSIZE. rewrite u32_id by lia. rewrite s32_id by lia.
  destruct (sbrk_more (h_sys g) (h_mem g) (size + 8)) as (x & s' & m' & -> & Hx); [lia|].
  destruct Hx as [(-> & Hbrk & ->)|(-> & Hbrk & Hkeep & Hmap)].
  { cbn [Z.eqb mbind outcome_bind]. eexists _, _. split; [done|]. split; [|by left]. exists bl. split; [|split; [done|left; done]].
    split; cbn; [apply Hg|apply Hg|rewrite Hbrk; apply Hg|exact Hl|apply Hg]. }
  rewrite <- (ho_top _ _ Hg) in *. pose proof (brk_range s') as Hr'. rewrite Hbrk in Hr'. set (t := heaptop g) in *.
  replace (t =? -1) with false by lia. cbn [heaptop heapbase h_mem h_sys]. rewrite Z.eqb_refl. cbn [negb mbind outcome_bind].
  replace (t =? 0) with false by lia. rewrite mkfield, (u32_id (t + _)) by lia.
  rewrite (Z.mod_small (last_size 0 bl / 8)) by (Z.to_euclidean_division_equations; lia).
  change (Mheader (last_size 0 bl / 8) 0 MMAGIC ((size + 8) / 8) 1 MMAGIC) with (hdr (last_size 0 bl) (size + 8) true).
  assert (Hs8 : (size + 8) mod 8 = 0) by (Z.to_euclidean_division_equations; lia).
  assert (Ht8 : t mod 8 = 0) by (rewrite Ht; by rewrite Z.add_mod, (ho_aligned _ _ Hg), (laid_total _ _ _ _ _ Hl)).
  rewrite put_hdr; [|done|done|apply Hmap; [lia|Z.to_euclidean_division_equations; lia]..]. cbn [mbind outcome_bind].
  set (m2 := <[t + 4 := _]> _). unfold M_DATA, MBLOCKSIZE. rewrite u32_id by lia.
  pose proof (laid_sizes _ _ _ _ _ Hl) as Hs.
  assert (Hlow : ∀ w, w < t → m2 !! w = h_mem g !! w) by (intros w Hw; unfold m2; rewrite !lookup_insert_ne by lia; apply Hkeep; lia).
  eexists _, _. split; [done|]. split; [|right; done]. exists (bl ++ [(size + 8, true)]). split; [|split; [done|right]].
  - split; cbn; [apply Hg|apply Hg|done| |].
    + apply laid_app. rewrite <- Ht. split; [eapply laid_frame; [exact Hl|intros w Hw; apply Hlow; lia]|]. cbn [laid]. split_and!; [lia|done|..].
      * unfold m2. by rewrite lookup_insert_ne, lookup_insert_eq by lia.
      * unfold m2. by rewrite lookup_insert_eq.
      * intros w Hw Hw4. unfold m2. do 2 (apply lookup_insert_is_Some'; right). apply Hmap; [lia|done].
      * done.
    + apply merged_app. split; [apply Hg|]. cbn. auto.
  - assert (Hnew : spots (heapbase g) bl !! (t + 8) = None).
    { apply eq_None_not_Some. intros [j Hj]. apply spots_range in Hj as (? & ? & ?); [|done]. lia. }
    split_and!; [lia|by rewrite Z.add_mod, Ht8|done|]. exists size. split; [lia|]. split.
    + rewrite spots_app by done. cbn [spots]. rewrite <- Ht. replace (size + 8 - 8) with size by lia.
      rewrite <- insert_union_r by done. by rewrite (right_id_L ∅ (∪)).
    + intros q j w Hq Hw. apply spots_range in Hq as (? & ? & ?); [|done]. apply Hlow. lia.
Qed.

Lemma round_up n : 0 ≤ n < 2 ^ 32 - 8 →
  let size := Z.land (u32 (n + MBLOCKSIZE - 1)) (u32 (Z.lnot (MBLOCKSIZE - 1))) in
  n ≤ size < n + 8 ∧ size mod 8 = 0.
Proof.
  intros Hn. unfold MBLOCKSIZE. rewrite u32_id by lia. change (u32 (Z.lnot (8 - 1))) with (Z.shiftl (Z.ones (32 - 3)) 3).
  rewrite land_high by lia. cbv zeta. split; [|by apply Z.mod_mul]. change (2 ^ 3) with 8. Z.to_euclidean_division_equations. lia.
Qed.

(** The first block that fits is used; if there is none the heap grows. *)
Lemma malloc_run g bl n :
  heap_ok g bl → 0 ≤ n ≤ 2 ^ 31 - 16 →
  ∃ p g' size, malloc n g = Done (p, g') ∧ n ≤ size < n + 8 ∧ size mod 8 = 0 ∧ malloc_result g bl size p g' ∧
    ((∃ l1 k l2 m, bl = l1 ++ (k, false) :: l2 ∧ Forall (λ b, ¬ fits size b) l1 ∧ p = heapbase g + total l1 + 8 ∧ g' = put_mem m g) ∨
     Forall (λ b, ¬ fits size b) bl ∧ (p = 0 ∨ p = heaptop g + 8 ∧ heaptop g' = heaptop g + (size + 8))).
Proof.
  intros Hg Hn. destruct (ok_total _ _ Hg) as (Ht & Hlen & Htop). pose proof (ho_base _ _ Hg) as Hb0.
  unfold malloc. replace (heapbase g =? 0) with false by lia. cbn [mbind outcome_bind].
  replace (heapbase g =? 0) with false by lia. replace (heaptop g =? 0) with false by lia.
  replace (heapbase g >? heaptop g) with false by lia. cbn [orb].
  destruct (round_up n) as [Hr Hr8]; [lia|]. set (size := Z.land _ _) in *.
  destruct (search_run g size bl (search_fuel g) 0 (heapbase g)) as [(l1 & k & l2 & -> & Hk & Hno & Hrun)|[Hno Hrun]];
    try done; try lia; [apply Hg| | |].
  { unfold search_fuel, MBLOCKSIZE. rewrite Ht. replace (heapbase g + total bl - heapbase g) with (total bl) by lia.
    apply Nat2Z.inj_le. rewrite Z2Nat.id by (Z.to_euclidean_division_equations; lia). Z.to_euclidean_division_equations. lia. }
  - change (0 / 8) with 0 in Hrun. rewrite Hrun. cbn [mbind outcome_bind].
    destruct (take_run g l1 k l2 size Hg) as (m & Htake & Hres); [lia|done|]. cbn [mbind outcome_bind] in *. rewrite Htake.
    eexists _, _, size. split; [done|]. split; [lia|]. split; [done|]. split; [done|]. left. by exists l1, k, l2, m.
  - change (0 / 8) with 0 in Hrun. rewrite Hrun. cbn [mbind outcome_bind].
    destruct (grow_run g bl size Hg) as (p & g' & Hgrow & Hres & Hp); [lia|done|]. cbn [mbind outcome_bind] in *. rewrite Hgrow.
    exists p, g', size. split; [done|]. split; [lia|]. split; [done|]. split; [done|]. by right.
Qed.

(** ** free *)

Lemma deadbeef_from_run n : ∀ i x m, (∀ j, 0 ≤ j < Z.of_nat n → is_Some (m !! (x + 4 * (i + j)))) →
  ∃ m', deadbeef_from n i x m = Done m' ∧ (∀ w, is_Some (m !! w) → is_Some (m' !! w)) ∧
    ∀ w, ¬ (x + 4 * i ≤ w < x + 4 * (i + Z.of_nat n)) → m' !! w = m !! w.
Proof.
  induction n as [|n IH]; intros i x m Hm; cbn [deadbeef_from]; [by exists m|].
  unfold st. destruct (Hm 0 ltac:(lia)) as [y Hy]. rewrite Z.add_0_r in Hy. rewrite Hy. cbn [mbind outcome_bind].
  destruct (IH (i + 1) x (<[x + 4 * i := 0xdeadbeef]> m)) as (m' & -> & Hd & Hf).
  { intros j Hj. apply lookup_insert_is_Some'. right. replace (i + 1 + j) with (i + (j + 1)) by lia. apply Hm. lia. }
  exists m'. split; [done|]. split.
  - intros w Hw. apply Hd, lookup_insert_is_Some'. by right.
  - intros w Hw. rewrite Hf by lia. by rewrite lookup_insert_ne by lia.
Qed.

Lemma deadbeef_run x size m :
  0 ≤ size → x mod 4 = 0 → (∀ w, x ≤ w < x + size → w mod 4 = 0 → is_Some (m !! w)) →
  ∃ m', malloc_deadbeef x size m = Done m' ∧ (∀ w, is_Some (m !! w) → is_Some (m' !! w)) ∧
    ∀ w, ¬ (x ≤ w < x + size) → m' !! w = m !! w.
Proof.
  intros Hs Hx Hm. unfold malloc_deadbeef. pose proof (Z.div_mod size 4 ltac:(done)). pose proof (Z.mod_pos_bound size 4 ltac:(done)).
  destruct (deadbeef_from_run (Z.to_nat (size / 4)) 0 x m) as (m' & -> & Hd & Hf).
  { intros j Hj. apply Hm; [lia|]. rewrite Z.add_0_l. rewrite Z.mul_comm, Z.mod_add; done. }
  exists m'. split; [done|]. split; [done|]. intros w Hw. apply Hf. lia.
Qed.

(** The data of a block overwritten. *)
Lemma laid_data m m' prev a n u l top :
  laid m prev a ((n, u) :: l) top → (∀ w, is_Some (m !! w) → is_Some (m' !! w)) →
  (∀ w, ¬ (a + 8 ≤ w < a + n) → m' !! w = m !! w) → laid m' prev a ((n, u) :: l) top.
Proof.
  cbn [laid]. intros ((Hn & Hm) & H1' & H2' & Hd & Hl) Hdom Hf. split_and!; try done.
  - by rewrite Hf by lia.
  - by rewrite Hf by lia.
  - intros w Hw Hw4. by apply Hdom, Hd.
  - eapply laid_frame; [exact Hl|]. intros w Hw. apply Hf. lia.
Qed.

(** What a row must satisfy for the arithmetic to work. *)
Definition row g bl : Prop :=
  0 < heapbase g ∧ heapbase g mod 8 = 0 ∧ heaptop g ≤ 2 ^ 31 ∧ laid (h_mem g) 0 (heapbase g) bl (heaptop g).

Lemma trymerge_run g l1 n1 u1 n2 u2 l2 :
  row g (l1 ++ (n1, u1) :: (n2, u2) :: l2) →
  let a := heapbase g + total l1 in
  ∃ m, malloc_trymerge a (a + n1) g = Done (put_mem m g) ∧
    (if u1 || u2 then m = h_mem g else
       row (put_mem m g) (l1 ++ (n1 + n2, false) :: l2) ∧ ∀ w, w < a ∨ a + (n1 + n2) < w → m !! w = h_mem g !! w).
Proof.
  intros (Hb & Hb8 & Htop & Hlaid) a. pose proof Hlaid as [Hl1 Hl]%laid_app. set (prev := last_size 0 l1) in *. fold a in Hl1, Hl.
  destruct (laid_last _ _ _ _ _ Hl1) as (Hp0 & Hp & _); [done|done|]. fold prev in Hp0, Hp. destruct (laid_top _ _ _ _ _ Hl1) as [_ ?].
  pose proof Hl as ((Hn1 & Hm1) & W1 & W2 & Hd1 & (Hn2 & Hm2) & W3 & W4 & Hd2 & Hl2). destruct (laid_top _ _ _ _ _ Hl2) as [Ht2 ?].
  unfold malloc_trymerge. rewrite (get_hdr _ a prev n1 u1), (get_hdr _ (a + n1) n1 n2 u2) by done. cbn [mbind outcome_bind].
  cbn [mh_nextblock mh_prevblock mh_inuse hdr]. rewrite Z.eqb_refl. cbn [negb].
  replace (negb (Z.b2z u1 =? 0) || negb (Z.b2z u2 =? 0)) with (u1 || u2) by (by destruct u1, u2).
  destruct (u1 || u2) eqn:Eu; [exists (h_mem g); split; [by destruct g|done]|]. apply orb_false_iff in Eu as [-> ->].
  unfold M_NEXT, M_SIZE, MBLOCKSIZE. rewrite !hdr_nextoff by (done || lia). rewrite (u32_id (n1 - 8)), (u32_id (n2 - 8)), (u32_id (a + n1 + n2)) by lia.
  replace (8 + (n1 - 8) + 8 + (n2 - 8)) with (n1 + n2) by lia. rewrite u32_id by lia.
  assert (Hm12 : (n1 + n2) mod 8 = 0) by (by rewrite Z.add_mod, Hm1, Hm2).
  replace (set_nextblock (M_MKFIELD (n1 + n2)) (hdr prev n1 false)) with (hdr prev (n1 + n2) false)
    by (unfold set_nextblock, hdr; f_equal; cbn; by rewrite mkfield by lia).
  rewrite put_hdr by done. cbn [mbind outcome_bind]. rewrite (insert_id (h_mem g) a) by done. set (m1 := <[a + 4 := _]> (h_mem g)).
  assert (Hd : ∀ w, a ≤ w < a + (n1 + n2) → w mod 4 = 0 → is_Some (m1 !! w)).
  { intros w Hw Hw4. apply lookup_insert_is_Some'. right. destruct (decide (w < a + n1)); [apply Hd1|apply Hd2]; done || lia. }
  change (mh_nextblock (hdr prev (n1 + n2) false)) with ((n1 + n2) / 8).
  destruct (set_prev_run m1 n2 (n1 + n2) (a + n1 + n2) l2 (heaptop g) (heaptop g)) as (m2 & Hrun & Hl2' & Hf2); [|lia|done|lia|done|done|].
  { eapply laid_frame; [exact Hl2|]. intros w Hw. unfold m1. by rewrite lookup_insert_ne by lia. }
  rewrite Hrun. cbn [mbind outcome_bind].
  assert (Ha8 : a mod 8 = 0) by (unfold a; by rewrite Z.add_mod, Hb8, (laid_total _ _ _ _ _ Hl1)).
  assert (Hd' : ∀ w, a ≤ w < a + (n1 + n2) → w mod 4 = 0 → is_Some (m2 !! w)) by (intros w Hw Hw4; rewrite Hf2 by lia; by apply Hd).
  destruct (deadbeef_run (a + n1) 8 m2) as (m3 & -> & Hdom & Hf3); [done|Z.to_euclidean_division_equations; lia|intros w Hw; apply Hd'; lia|].
  cbn [mbind outcome_bind]. exists m3. split; [done|].
  assert (Hout : ∀ w, w < a ∨ a + (n1 + n2) < w → m3 !! w = h_mem g !! w).
  { intros w Hw. rewrite Hf3, Hf2 by lia. unfold m1. by rewrite lookup_insert_ne by lia. }
  split; [|done]. split_and!; [done..|]. cbn [h_mem put_mem heapbase heaptop].
  apply (laid_mid (h_mem g) m3 l1 ((n1, false) :: (n2, false) :: l2)); [done|intros w Hw; apply Hout; lia|]. fold prev a.
  cbn [laid]. split_and!; [lia|done|..].
  - rewrite Hf3, Hf2 by lia. unfold m1. by rewrite lookup_insert_ne by lia.
  - rewrite Hf3, Hf2 by lia. unfold m1. by rewrite lookup_insert_eq.
  - intros w Hw Hw4. by apply Hdom, Hd'.
  - rewrite Z.add_assoc. eapply laid_frame; [exact Hl2'|]. intros w Hw. apply Hf3. lia.
Qed.

Lemma spots_find bl : ∀ a p k, spots a bl !! p = Some k → ∃ l1 l2, bl = l1 ++ (k + 8, true) :: l2 ∧ p = a + total l1 + 8.
Proof.
  induction bl as [|[n u] bl IH]; intros a p k Hp; cbn [spots] in Hp; [by rewrite lookup_empty in Hp|].
  assert (Hrec : spots (a + n) bl !! p = Some k → ∃ l1 l2, (n, u) :: bl = l1 ++ (k + 8, true) :: l2 ∧ p = a + total l1 + 8).
  { intros Hr. destruct (IH _ _ _ Hr) as (l1 & l2 & -> & ->). exists ((n, u) :: l1), l2. split; [done|]. cbn [total]. lia. }
  destruct u; [|auto]. apply lookup_insert_Some in Hp as [[<- <-]|[_ ?]]; [|auto].
  exists [], bl. cbn. split; [do 2 f_equal; lia|lia].
Qed.

(** The block above is joined if it is free. *)
Lemma next_run g l1 n l2 u :
  row g (l1 ++ (n, false) :: l2) → merged u l2 →
  let a := heapbase g + total l1 in
  ∃ m N l2', (if negb (a + n =? heaptop g) then malloc_trymerge a (a + n) g else Done g) = Done (put_mem m g) ∧
    row (put_mem m g) (l1 ++ (N, false) :: l2') ∧ merged false l2' ∧ n ≤ N ∧ spots (a + N) l2' = spots (a + n) l2 ∧
    ∀ w, w < a ∨ a + N < w → m !! w = h_mem g !! w.
Proof.
  intros Hrow Hm a. pose proof Hrow as (_ & _ & _ & [_ Hl]%laid_app). fold a in Hl. destruct l2 as [|[n2 u2] l2].
  - destruct Hl as ((? & ?) & _ & _ & _ & Hl). cbn [laid] in Hl. rewrite Hl, Z.eqb_refl. cbn [negb].
    exists (h_mem g), n, []. split; [by destruct g|]. split; [by destruct g|]. done.
  - pose proof Hl as ((? & ?) & _ & _ & _ & (? & ?) & _ & _ & _ & Hl2). destruct (laid_top _ _ _ _ _ Hl2) as [Ht2 ?].
    replace (a + n =? heaptop g) with false by lia. cbn [negb].
    destruct (trymerge_run g l1 n false n2 u2 l2 Hrow) as (m & Hrun & Hres). fold a in Hrun, Hres. destruct u2; cbn [orb] in Hres.
    + subst m. exists (h_mem g), n, ((n2, true) :: l2). split; [done|]. split; [by destruct g|]. cbn in Hm |- *.
      split; [destruct Hm; auto|]. done.
    + destruct Hres as [Hrow' Hf]. exists m, (n + n2), l2. split; [done|]. split; [done|]. split; [apply Hm|]. split; [lia|].
      split; [cbn; f_equal; lia|done].
Qed.

(** The block below is joined if it is free. *)
Lemma prev_run g l1 n l2 :
  row g (l1 ++ (n, false) :: l2) → merged true l1 → merged false l2 →
  let a := heapbase g + total l1 in
  ∃ m l1' N, (if negb (a =? heapbase g) then h ← mh_get a (h_mem g); malloc_trymerge (M_PREV a h) a g else Done g) = Done (put_mem m g) ∧
    row (put_mem m g) (l1' ++ (N, false) :: l2) ∧ merged true (l1' ++ (N, false) :: l2) ∧
    spots (heapbase g) l1' = spots (heapbase g) l1 ∧ total l1' + N = total l1 + n ∧ n ≤ N ∧
    ∀ w, w < heapbase g + total l1' ∨ a + n < w → m !! w = h_mem g !! w.
Proof.
  intros Hrow Hm1 Hm2 a. pose proof Hrow as (Hb & Hb8 & Htop & Hlaid). pose proof Hlaid as [Hl1 Hl]%laid_app. fold a in Hl1, Hl.
  destruct (laid_top _ _ _ _ _ Hl1) as [_ Hlen]. destruct l1 as [|[n0 u0] l1 _] using rev_ind.
  - unfold a. cbn [total]. rewrite Z.add_0_r, Z.eqb_refl. cbn [negb]. exists (h_mem g), [], n. split; [by destruct g|].
    split; [by destruct g|]. split; [cbn; auto|]. split; [done|]. split; [done|]. split; [lia|done].
  - rewrite length_app in Hlen. cbn [length] in Hlen. replace (a =? heapbase g) with false by lia. cbn [negb].
    pose proof (laid_sizes _ _ _ _ _ Hl1) as [Hs1 [Hn0 _]%Forall_cons_1]%Forall_app. cbn in Hn0. rewrite last_size_app in Hl. cbn [last_size] in Hl.
    pose proof Hl as ((? & ?) & W1 & W2 & _). apply laid_app in Hl1 as [Hl1a Hl1b]. destruct Hl1b as ((? & Hn08) & _).
    rewrite (get_hdr _ a n0 n false) by done. cbn [mbind outcome_bind]. unfold M_PREV.
    assert (Ea : a = heapbase g + total l1 + n0) by (unfold a; rewrite total_app; cbn [total]; lia). pose proof (total_nonneg _ Hs1).
    destruct (laid_top _ _ _ _ _ Hl) as [Ht ?]. rewrite hdr_prevoff by (done || lia). rewrite u32_id by lia.
    replace (a - n0) with (heapbase g + total l1) by lia.
    rewrite <- app_assoc in Hrow. cbn [app] in Hrow. destruct (trymerge_run g l1 n0 u0 n false l2 Hrow) as (m & Hrun & Hres).
    rewrite <- Ea in Hrun. rewrite Hrun. apply merged_app in Hm1 as [Hma Hmb]. rewrite total_app. cbn [total]. destruct u0; cbn [orb] in Hres.
    + subst m. exists (h_mem g), (l1 ++ [(n0, true)]), n. split; [done|]. split; [rewrite <- app_assoc; by destruct g|].
      split; [apply merged_app; split; [by apply merged_app|rewrite last_use_app; cbn; auto]|].
      split; [done|]. rewrite total_app. cbn [total]. split; [lia|]. split; [lia|done].
    + destruct Hres as [Hrow' Hf]. exists m, l1, (n0 + n). split; [done|]. split; [done|].
      split; [apply merged_app; split; [done|]; cbn; split; [cbn in Hmb; destruct Hmb as [[?|?] _]; [by left|done]|done]|].
      split; [rewrite spots_app by done; cbn [spots]; by rewrite (right_id_L ∅ (∪))|]. split; [lia|]. split; [lia|].
      intros w Hw. apply Hf. lia.
Qed.

Lemma row_ok g bl : heap_ok g bl → row g bl.
Proof. intros Hg. destruct (ok_total _ _ Hg) as (_ & _ & ?). split_and!; [apply Hg|apply Hg|done|apply Hg]. Qed.

Lemma row_merged g bl m bl' : heap_ok g bl → row (put_mem m g) bl' → merged true bl' → heap_ok (put_mem m g) bl'.
Proof. intros Hg (_ & _ & _ & Hl) Hm. split; [apply Hg..|done|done]. Qed.

(** free of a block in use: it is no longer there, and the other blocks
    keep their data. *)
Lemma free_run g bl p k :
  heap_ok g bl → spots (heapbase g) bl !! p = Some k → 0 < k →
  ∃ m bl', free p g = Done (put_mem m g) ∧ heap_ok (put_mem m g) bl' ∧
    spots (heapbase g) bl' = delete p (spots (heapbase g) bl) ∧
    data_kept (h_mem g) m (delete p (spots (heapbase g) bl)).
Proof.
  intros Hg Hp Hk. destruct (spots_find _ _ _ _ Hp) as (l1 & l2 & -> & ->). set (a := heapbase g + total l1) in *. set (n := k + 8).
  pose proof (row_ok _ _ Hg) as (Hb & Hb8 & Htop & Hlaid). pose proof Hlaid as [Hl1 Hl]%laid_app. fold a in Hl1, Hl.
  pose proof (laid_sizes _ _ _ _ _ Hlaid) as Hs. pose proof Hs as [Hs1 [Hn Hs2]%Forall_cons_1]%Forall_app. cbn in Hn.
  pose proof (total_nonneg _ Hs1). destruct (laid_last _ _ _ _ _ Hl1) as (Hp0 & Hp8 & _); [done|done|].
  pose proof Hl as ((_ & Hn8) & W1 & W2 & Hd & Hl2). destruct (laid_top _ _ _ _ _ Hl2) as [Ht2 ?].
  unfold free. replace (a + 8 =? 0) with false by lia. replace (heapbase g =? 0) with false by lia. replace (heaptop g =? 0) with false by lia.
  replace (heapbase g >? heaptop g) with false by lia. replace (a + 8 <? heapbase g) with false by lia.
  replace (a + 8 >=? heaptop g) with false by lia. cbn [orb]. unfold MBLOCKSIZE. rewrite u32_id by lia. replace (a + 8 - 8) with a by lia.
  destruct (inuse_run (h_mem g) _ a n true l2 (heaptop g) false Hl Hp0 Hp8) as (m1 & Hput & Hlm1 & Hf1).
  rewrite (get_hdr _ a (last_size 0 l1) n true) in * by done. cbn [mbind outcome_bind Z.b2z] in *.
  change (M_OK (hdr (last_size 0 l1) n true)) with true. cbn [negb mh_inuse hdr Z.b2z Z.eqb]. change (Mheader _ 0 MMAGIC _ 1 MMAGIC) with (hdr (last_size 0 l1) n true).
  rewrite Hput. cbn [mbind outcome_bind]. unfold M_DATA, M_SIZE, M_NEXT, MBLOCKSIZE. rewrite hdr_nextoff by (done || lia).
  rewrite (u32_id (a + 8)), (u32_id (n - 8)), (u32_id (a + n)) by lia.
  assert (Ha8 : a mod 8 = 0) by (unfold a; by rewrite Z.add_mod, Hb8, (laid_total _ _ _ _ _ Hl1)).
  pose proof Hlm1 as (_ & _ & _ & Hd1 & _).
  destruct (deadbeef_run (a + 8) (n - 8) m1) as (m2 & -> & Hdom & Hf2);
    [lia|Z.to_euclidean_division_equations; lia|intros w Hw; apply Hd1; lia|]. cbn [mbind outcome_bind].
  assert (Hlm2 : laid m2 (last_size 0 l1) a ((n, false) :: l2) (heaptop g)).
  { eapply laid_data; [exact Hlm1|exact Hdom|]. intros w Hw. apply Hf2. lia. }
  assert (Hout : ∀ w, w < a ∨ a + n ≤ w → m2 !! w = h_mem g !! w) by (intros w Hw; rewrite Hf2, Hf1 by lia; done).
  assert (Hrow1 : row (put_mem m2 g) (l1 ++ (n, false) :: l2)).
  { split_and!; [done..|]. cbn. apply (laid_mid (h_mem g) m2 l1 ((n, true) :: l2)); [done|intros w Hw; apply Hout; lia|exact Hlm2]. }
  pose proof (ho_merged _ _ Hg) as [Hmg1 [_ Hmg2]]%merged_app.
  destruct (next_run (put_mem m2 g) l1 n l2 true Hrow1 Hmg2) as (m3 & N & l2' & Hrun3 & Hrow3 & Hmg3 & HN & Hsp3 & Hf3).
  cbn [heapbase heaptop h_mem put_mem] in Hrun3, Hf3, Hsp3. fold a in Hrun3, Hf3, Hsp3. change (heaptop (put_mem m2 g)) with (heaptop g). rewrite Hrun3. cbn [mbind outcome_bind].
  destruct (prev_run _ l1 N l2' Hrow3 Hmg1 Hmg3) as (m4 & l1' & N' & Hrun4 & Hrow4 & Hmg4 & Hsp4 & Htot & HN' & Hf4).
  cbn [heapbase heaptop h_mem put_mem] in Hrun4, Hf4, Hsp4. fold a in Hrun4, Hf4. cbn [heapbase heaptop h_mem put_mem].
  exists m4, (l1' ++ (N', false) :: l2'). split; [exact Hrun4|]. split; [by eapply row_merged|].
  pose proof Hrow4 as (_ & _ & _ & Hl4). pose proof (laid_sizes _ _ _ _ _ Hl4) as [Hs1' [_ Hs2']%Forall_cons_1]%Forall_app.
  assert (Esp : delete (a + 8) (spots (heapbase g) (l1 ++ (n, true) :: l2)) = spots (heapbase g) l1' ∪ spots (a + N) l2').
  { unfold a. rewrite <- (spots_drop l1 l2 l2 n n) by done. rewrite spots_app by done. cbn [spots]. fold a. by rewrite Hsp3, Hsp4. }
  split.
  - rewrite Esp, spots_app by done. cbn [spots]. do 2 f_equal. lia.
  - rewrite Esp. intros q j w Hq Hw. apply lookup_union_Some_raw in Hq as [Hq|[_ Hq]]; apply spots_range in Hq as (? & ? & ?); try done;
      rewrite Hf4, Hf3 by lia; apply Hout; lia.
Qed.

(** ** Programs

    [L] gives the blocks a program has been handed, with the size it asked
    for. *)

Definition live_ok g bl (L : gmap Z Z) : Prop :=
  ∀ p, match L !! p, spots (heapbase g) bl !! p with
       | Some n, Some k => 1 ≤ n ≤ k
       | None, None => True
       | _, _ => False
       end.

Definition unused g : Prop := heapbase g = 0 ∧ heaptop g = 0 ∧ brk (h_sys g) mod 8 = 0.

(** A program allocates, writes words of its blocks and frees them. *)
Inductive mreach : heap S → gmap Z Z → Prop :=
  | mr_start s m : brk s mod PAGE_SIZE = 0 → mreach (Heap 0 0 m s) ∅
  | mr_malloc g L n p g' :
      mreach g L → 1 ≤ n ≤ 2 ^ 31 - 16 → malloc n g = Done (p, g') →
      mreach g' (if decide (p = 0) then L else <[p := n]> L)
  | mr_free g L p n g' : mreach g L → L !! p = Some n → free p g = Done g' → mreach g' (delete p L)
  | mr_write g L p n w x :
      mreach g L → L !! p = Some n → p ≤ w < p + n → w mod 4 = 0 →
      mreach (put_mem (<[w := x]> (h_mem g)) g) L.

Definition heap_rel g L : Prop := unused g ∧ L = ∅ ∨ ∃ bl, heap_ok g bl ∧ live_ok g bl L.

(** The first call sets the heap up. *)
Lemma malloc_first g n :
  unused g → ∃ g0, heap_ok g0 [] ∧ h_mem g0 = h_mem g ∧ malloc n g = malloc n g0.
Proof.
  intros (Eb & Et & H8). destruct g as [b t m s]. cbn in *. subst b t. pose proof (brk_range s) as Hr.
  exists (Heap (brk s) (brk s) m s). split; [split; cbn; done || lia|]. split; [done|].
  unfold malloc at 1. cbn [heapbase heaptop Z.eqb]. unfold malloc_init, call_sbrk. cbn [heapbase heaptop h_sys h_mem Z.eqb negb orb].
  rewrite sbrk_zero. replace (brk s =? -1) with false by lia. replace (brk s =? 0) with false by lia. change (brk s mod MBLOCKSIZE) with (brk s mod 8). rewrite H8. cbn [Z.eqb negb mbind outcome_bind].
  unfold malloc. cbn [heapbase heaptop h_mem h_sys]. replace (brk s =? 0) with false by lia.
  cbn [mbind outcome_bind heapbase heaptop]. by replace (brk s =? 0) with false by lia.
Qed.

(** A program's view of an allocation. *)
Definition malloc_gives g L n p g' : Prop :=
  (p = 0 ∨ p ≠ 0 ∧ p mod 8 = 0 ∧ L !! p = None ∧ heapbase g' < p ∧ p + n ≤ heaptop g' ∧
     ∀ q j, L !! q = Some j → q + j ≤ p ∨ p + n ≤ q) ∧
  data_kept (h_mem g) (h_mem g') L.

Lemma live_spot g bl L p n : live_ok g bl L → L !! p = Some n → ∃ k, spots (heapbase g) bl !! p = Some k ∧ 1 ≤ n ≤ k.
Proof. intros Hl Hp. specialize (Hl p). rewrite Hp in Hl. destruct (spots _ _ !! p) as [k|]; [by exists k|done]. Qed.

Lemma live_kept g bl L m m' : live_ok g bl L → data_kept m m' (spots (heapbase g) bl) → data_kept m m' L.
Proof. intros Hl Hk q j w Hq Hw. destruct (live_spot _ _ _ _ _ Hl Hq) as (k & Hs & ?). apply (Hk q k w Hs). lia. Qed.

Lemma malloc_ok_run g bl L n :
  heap_ok g bl → live_ok g bl L → 1 ≤ n ≤ 2 ^ 31 - 16 →
  ∃ p g', malloc n g = Done (p, g') ∧ malloc_gives g L n p g' ∧ heap_rel g' (if decide (p = 0) then L else <[p := n]> L).
Proof.
  intros Hg HL Hn. destruct (malloc_run g bl n Hg) as (p & g' & size & Hrun & Hsz & _ & (bl' & Hg' & Eb & Hres) & _); [lia|].
  exists p, g'. split; [done|]. destruct Hres as [(-> & Hsp & Em)|(Hp0 & Hp8 & Hnew & k & Hk & Hsp & Hkeep)].
  { split; [split; [by left|rewrite Em; by intros ????]|]. right. exists bl'. split; [done|]. intros q. cbn. rewrite Eb, Hsp. apply HL. }
  rewrite decide_False by done. pose proof (laid_sizes _ _ _ _ _ (ho_laid _ _ Hg')) as Hs'.
  assert (HLp : L !! p = None) by (specialize (HL p); rewrite Hnew in HL; by destruct (L !! p)).
  destruct (ok_total _ _ Hg') as (Ht' & _ & _). split.
  - split; [right|by eapply live_kept]. split_and!; [done..| | |].
    + assert (Hin : spots (heapbase g') bl' !! p = Some k) by (rewrite Eb, Hsp; apply lookup_insert_eq).
      apply spots_range in Hin as (? & ? & ?); [lia|done].
    + assert (Hin : spots (heapbase g') bl' !! p = Some k) by (rewrite Eb, Hsp; apply lookup_insert_eq).
      apply spots_range in Hin as (? & ? & ?); [lia|done].
    + intros q j Hq. destruct (live_spot _ _ _ _ _ HL Hq) as (kq & Hsq & Hj). assert (q ≠ p) by congruence.
      destruct (spots_disjoint bl' (heapbase g) q kq p k Hs') as [?|?]; [by rewrite Hsp, lookup_insert_ne|by rewrite Hsp, lookup_insert_eq|done|lia|lia].
  - right. exists bl'. split; [done|]. intros q. rewrite Eb, Hsp. destruct (decide (q = p)) as [->|].
    + rewrite !lookup_insert_eq. lia.
    + rewrite !lookup_insert_ne by done. apply HL.
Qed.

Lemma malloc_rel_run g L n :
  heap_rel g L → 1 ≤ n ≤ 2 ^ 31 - 16 →
  ∃ p g', malloc n g = Done (p, g') ∧ malloc_gives g L n p g' ∧ heap_rel g' (if decide (p = 0) then L else <[p := n]> L).
Proof.
  intros [[Hu ->]|(bl & Hg & HL)] Hn; [|by eapply malloc_ok_run].
  destruct (malloc_first g n Hu) as (g0 & Hg0 & Em & ->).
  destruct (malloc_ok_run g0 [] ∅ n Hg0) as (p & g' & Hrun & Hgive & Hrel); [intros q; by cbn; rewrite !lookup_empty|done|].
  exists p, g'. split; [done|]. split; [|done]. unfold malloc_gives in *. by rewrite <- Em.
Qed.

Lemma free_rel_run g L p n :
  heap_rel g L → L !! p = Some n →
  ∃ g', free p g = Done g' ∧ heap_rel g' (delete p L) ∧ data_kept (h_mem g) (h_mem g') (delete p L).
Proof.
  intros [[_ ->]|(bl & Hg & HL)] Hp; [by rewrite lookup_empty in Hp|]. destruct (live_spot _ _ _ _ _ HL Hp) as (k & Hk & Hn).
  destruct (free_run g bl p k Hg Hk ltac:(lia)) as (m & bl' & Hrun & Hg' & Hsp & Hkeep). exists (put_mem m g). split; [done|].
  assert (HL' : live_ok (put_mem m g) bl' (delete p L)).
  { intros q. cbn [heapbase put_mem]. rewrite Hsp. destruct (decide (q = p)) as [->|]; [by rewrite !lookup_delete_eq|].
    rewrite !lookup_delete_ne by done. apply HL. }
  split; [right; by exists bl'|]. eapply live_kept; [exact HL'|]. cbn [heapbase put_mem h_mem]. by rewrite Hsp.
Qed.

Lemma write_rel g L p n w x :
  heap_rel g L → L !! p = Some n → p ≤ w < p + n → w mod 4 = 0 → heap_rel (put_mem (<[w := x]> (h_mem g)) g) L.
Proof.
  intros [[_ ->]|(bl & Hg & HL)] Hp Hw Hw4; [by rewrite lookup_empty in Hp|]. right. exists bl. split; [|exact HL].
  destruct (live_spot _ _ _ _ _ HL Hp) as (k & Hk & Hn). destruct (spots_find _ _ _ _ Hk) as (l1 & l2 & -> & ->).
  split; [apply Hg..| |apply Hg]. cbn [h_mem put_mem heapbase heaptop]. pose proof (ho_laid _ _ Hg) as Hlaid.
  apply (laid_mid (h_mem g) _ l1 ((k + 8, true) :: l2)); [done|intros y Hy; by rewrite lookup_insert_ne by lia|].
  apply laid_app in Hlaid as [_ Hl]. eapply laid_data; [exact Hl| |].
  - intros y Hy. apply lookup_insert_is_Some'. by right.
  - intros y Hy. by rewrite lookup_insert_ne by lia.
Qed.

Lemma mreach_rel g L : mreach g L → heap_rel g L.
Proof.
  induction 1 as [s m Hs|g L n p g' _ IH Hn Hrun|g L p n g' _ IH Hp Hrun|g L p n w x _ IH Hp Hw Hw4].
  - left. split; [|done]. split; [done|]. split; [done|]. cbn. unfold PAGE_SIZE in Hs. Z.to_euclidean_division_equations. lia.
  - destruct (malloc_rel_run g L n IH Hn) as (p' & g'' & Hrun' & _ & Hrel). rewrite Hrun in Hrun'. by injection Hrun' as <- <-.
  - destruct (free_rel_run g L p n IH Hp) as (g'' & Hrun' & Hrel & _). rewrite Hrun in Hrun'. by injection Hrun' as <-.
  - by eapply write_rel.
Qed.



(** No fragmentation is left behind.  When a program has freed all its
    blocks, the whole heap is again one free block: an allocation of any
    size up to that of the heap is served from its start without asking the
    system for more. *)
Theorem free_coalesces g n :
  mreach g ∅ → 1 ≤ n → n + 15 ≤ heaptop g - heapbase g → heapbase g ≠ 0 →
  ∃ g', malloc n g = Done (heapbase g + 8, g') ∧ heaptop g' = heaptop g.
Proof.
  intros Hr Hn1 Hn Hb. destruct (mreach_rel g ∅ Hr) as [[[? _] _]|(bl & Hg & HL)]; [done|].
  assert (Hbl : ∃ k, bl = [(k, false)]).
  { destruct (ok_total _ _ Hg) as (Ht & _ & _). destruct bl as [|[k u] bl]; [cbn in Ht; lia|]. assert (Hnone : ∀ p, spots (heapbase g) ((k, u) :: bl) !! p = None).
    { intros p. specialize (HL p). rewrite lookup_empty in HL. by destruct (spots _ _ !! p). }
    destruct u; [specialize (Hnone (heapbase g + 8)); cbn in Hnone; by rewrite lookup_insert_eq in Hnone|].
    exists k. f_equal. destruct bl as [|[k2 u2] bl]; [done|]. destruct (ho_merged _ _ Hg) as (_ & [?|Hu] & _); [done|].
    subst u2. specialize (Hnone (heapbase g + k + 8)). cbn in Hnone. by rewrite lookup_insert_eq in Hnone. }
  destruct Hbl as [k ->]. destruct (ok_total _ _ Hg) as (Ht & _ & Htop). cbn [total] in Ht.
  pose proof (ho_base _ _ Hg). destruct (malloc_run g [(k, false)] n Hg) as (p & g' & size & Hrun & Hsz & _ & _ & Hcase); [lia|].
  assert (Hfit : fits size (k, false)) by (split; cbn; [done|lia]).
  destruct Hcase as [(l1 & k' & l2 & m & E & Hno & -> & ->)|[[Hno _]%Forall_cons_1 _]]; [|done].
  destruct l1 as [|b l1]; cycle 1.
  { injection E as <- _. by apply Forall_cons_1 in Hno as [? _]. }
  cbn [total] in Hrun. rewrite Z.add_0_r in Hrun. rewrite Hrun. by eexists.
Qed.

(** Sizes that wrap.  A request for more than 2^32 - 8 bytes is rounded
    up to 0 bytes and served as a request for none: a caller that asked for
    almost 4 gigabytes gets a block of 0 bytes instead of NULL. *)
Theorem malloc_huge_is_zero g n : 2 ^ 32 - 8 < n < 2 ^ 32 → malloc n g = malloc 0 g.
Proof.
  intros Hn. unfold malloc, MBLOCKSIZE. assert (u32 (n + 8 - 1) = n - 2 ^ 32 + 7) as ->.
  { unfold u32. replace (n + 8 - 1) with (n - 2 ^ 32 + 7 + 1 * 2 ^ 32) by lia. rewrite Z.mod_add by done. apply Z.mod_small. lia. }
  assert (Z.land (n - 2 ^ 32 + 7) (u32 (Z.lnot (8 - 1))) = Z.land (u32 (0 + 8 - 1)) (u32 (Z.lnot (8 - 1)))) as ->; [|done].
  change (u32 (Z.lnot (8 - 1))) with (Z.shiftl (Z.ones (32 - 3)) 3). rewrite !land_high by (done || lia).
  rewrite Z.div_small by lia. done.
Qed.

(** A block of no bytes at the top of the heap has its address equal to
    the top, where free no longer believes that it is on the heap: freeing
    what malloc(0) gave ends the program. *)
Theorem free_malloc_zero g bl p g' :
  heap_ok g bl → Forall (λ b, b.2 = true) bl → malloc 0 g = Done (p, g') → p ≠ 0 → free p g' = Panic.
Proof.
  intros Hg Hall Hrun Hp. destruct (malloc_run g bl 0 Hg) as (p' & g'' & size & Hrun' & Hsz & Hs8 & (bl' & Hg' & _) & Hcase); [lia|].
  rewrite Hrun in Hrun'. injection Hrun' as <- <-. assert (size = 0) as -> by (Z.to_euclidean_division_equations; lia).
  destruct Hcase as [(l1 & k & l2 & m & -> & _)|[_ [?|[-> Ht]]]]; [|done|].
  { apply Forall_app in Hall as [_ [? _]%Forall_cons_1]. done. }
  destruct (ok_total _ _ Hg) as (Htg & Hlen & _). pose proof (ho_base _ _ Hg). destruct (ok_total _ _ Hg') as (Htg' & ? & _). pose proof (ho_base _ _ Hg').
  unfold free. rewrite Ht. replace (heaptop g + 8 =? 0) with false by lia. replace (heapbase g' =? 0) with false by lia.
  replace (heaptop g + (0 + 8) =? 0) with false by lia. replace (heapbase g' >? heaptop g + (0 + 8)) with false by lia. cbn [orb].
  by replace (heaptop g + 8 >=? heaptop g + (0 + 8)) with true by lia; rewrite orb_true_r.
Qed.
End Spec.
