(* ===== verification/MallocDemo.v ===== *)
(** * malloc and free at work

    A process whose heap begins at 0x10000000 and may grow to 8000 bytes:
    the input at which the theorems of MallocSpec are applied. *)

From S2P Require Import Prelude Malloc MallocSpec.

(** The state of the system: how many 8-byte units the heap has, 1000 at
    most. *)
Definition mdemo_brk (s : nat) : Z := 0x10000000 + 8 * Z.of_nat (Nat.min s 1000).

(** [n] words from [a] on are mapped. *)
Fixpoint map_words (n : nat) (a : Z) (m : wmem) : wmem :=
  match n with
  | O => m
  | S n => map_words n (a + 4) (<[a := 0]> m)
  end.

Definition mdemo_sbrk (n : Z) (x : nat * wmem) : Z * (nat * wmem) :=
  let '(s, m) := x in
  if n =? 0 then (mdemo_brk s, (s, m))
  else if (n mod 8 =? 0) && (0 <? n) && (Z.of_nat s + n / 8 <=? 1000)
  then (mdemo_brk s, ((s + Z.to_nat (n / 8))%nat, map_words (Z.to_nat (n / 4)) (mdemo_brk s) m))
  else (-1, (s, m)).

#[global] Instance nat_sbrk : Sbrk nat := { sbrk := mdemo_sbrk }.

Lemma map_words_lookup n : ∀ a m w, map_words n a m !! w =
  if decide (a ≤ w < a + 4 * Z.of_nat n ∧ (w - a) mod 4 = 0) then Some 0 else m !! w.
Proof.
  induction n as [|n IH]; intros a m w; cbn [map_words]; [by rewrite decide_False by lia|].
  rewrite IH. destruct (decide (w = a)) as [->|Hne].
  - rewrite decide_False, decide_True by (rewrite ?Z.sub_diag; (split; [lia|done]) || lia). apply lookup_insert_eq.
  - rewrite lookup_insert_ne by done.
    assert ((w - (a + 4)) mod 4 = (w - a) mod 4) as -> by (replace (w - a) with (w - (a + 4) + 1 * 4) by lia; by rewrite Z.mod_add).
    destruct (decide (a + 4 ≤ w < _ ∧ _)), (decide (a ≤ w < _ ∧ _)) as [[? Hm]|]; try done; [lia|].
    exfalso. assert (w = a ∨ a + 4 ≤ w) as [?|?] by (Z.to_euclidean_division_equations; lia); [done|lia].
Qed.

#[global] Instance nat_sbrk_laws : SbrkLaws nat.
Proof.
  refine {| brk := mdemo_brk |}.
  - intros s. unfold mdemo_brk. lia.
  - done.
  - intros s m n Hn. cbn [sbrk nat_sbrk]. unfold mdemo_sbrk. replace (n =? 0) with false by lia.
    destruct ((n mod 8 =? 0) && (0 <? n) && (Z.of_nat s + n / 8 <=? 1000)) eqn:E; [|by exists (-1), s, m; split; [|left]].
    rewrite !andb_true_iff in E. destruct E as [[E1 E2] E3]. eexists _, _, _. split; [done|]. right. split; [done|].
    assert (Hn8 : n = 8 * (n / 8)) by (Z.to_euclidean_division_equations; lia). split; [unfold mdemo_brk; lia|].
    assert (Hn4 : 4 * Z.of_nat (Z.to_nat (n / 4)) = n) by (Z.to_euclidean_division_equations; lia).
    split; intros w Hw; rewrite map_words_lookup, Hn4.
    + by rewrite decide_False by tauto.
    + intros Hw4. rewrite decide_True; [by eexists|]. split; [done|]. unfold mdemo_brk in *.
      replace (w - (268435456 + 8 * Z.of_nat (s `min` 1000))) with (w + (- 67108864 - 2 * Z.of_nat (s `min` 1000)) * 4) by lia.
      by rewrite Z.mod_add.
Defined.

Definition mdemo_start : heap nat := Heap 0 0 ∅ 0%nat.

Lemma mdemo_start_reach : mreach mdemo_start ∅.
Proof. by apply mr_start. Qed.

(** Two blocks of 100 and 20 bytes, of which the first is freed. *)
Definition mdemo_run : outcome (Z * Z * heap nat * heap nat) :=
  '(p, g1) ← malloc 100 mdemo_start; '(q, g2) ← malloc 20 g1; g3 ← free p g2; Done (p, q, g2, g3).

Definition mdemo_p : Z := 0x10000008.
Definition mdemo_q : Z := 0x10000078.

Lemma mdemo_runs : match mdemo_run with Done (p, q, _, _) => (p =? mdemo_p) && (q =? mdemo_q) | _ => false end = true.
Proof. vm_compute. reflexivity. Qed.

Lemma mdemo_states : ∃ g2 g3,
  mreach g2 (<[mdemo_q := 20]> (<[mdemo_p := 100]> ∅)) ∧ mreach g3 (delete mdemo_p (<[mdemo_q := 20]> (<[mdemo_p := 100]> ∅))).
Proof.
  pose proof mdemo_runs as Hrun. unfold mdemo_run in Hrun. destruct (malloc 100 mdemo_start) as [[p g1]| | |] eqn:R1; try discriminate. cbn [mbind outcome_bind] in Hrun.
  destruct (malloc 20 g1) as [[q g2]| | |] eqn:R2; try discriminate. cbn [mbind outcome_bind] in Hrun.
  destruct (free p g2) as [g3| | |] eqn:R3; try discriminate. cbn [mbind outcome_bind] in Hrun.
  apply andb_true_iff in Hrun as [->%Z.eqb_eq ->%Z.eqb_eq].
  assert (H1 : mreach g1 (<[mdemo_p := 100]> ∅)) by (apply (mr_malloc mdemo_start ∅ 100 mdemo_p g1 mdemo_start_reach); [lia|exact R1]).
  assert (H2 : mreach g2 (<[mdemo_q := 20]> (<[mdemo_p := 100]> ∅))) by (apply (mr_malloc g1 _ 20 mdemo_q g2 H1); [lia|exact R2]).
  exists g2, g3. split; [exact H2|]. eapply (mr_free g2 _ mdemo_p 100 g3 H2); [reflexivity|exact R3].
Qed.

(** ** The theorems at work *)



Definition mdemo_all : outcome (heap nat) :=
  '(p, g) ← malloc 100 mdemo_start; free p g.

Lemma mdemo_all_runs : match mdemo_all with Done g => (heapbase g =? 0x10000000) && (heaptop g - heapbase g =? 112) | _ => false end = true.
Proof. vm_compute. reflexivity. Qed.

Lemma mdemo_empty : ∃ g, mreach g ∅ ∧ heapbase g = 0x10000000 ∧ heaptop g - heapbase g = 112.
Proof.
  pose proof mdemo_all_runs as Hrun. unfold mdemo_all in Hrun. destruct (malloc 100 mdemo_start) as [[p g1]| | |] eqn:R1; try discriminate.
  cbn [mbind outcome_bind] in Hrun. destruct (free p g1) as [g| | |] eqn:R2; try discriminate.
  apply andb_true_iff in Hrun as [E1%Z.eqb_eq E2%Z.eqb_eq]. exists g. split; [|done].
  assert (Hp : p = mdemo_p).
  { assert (E : match malloc 100 mdemo_start with Done (p, _) => p =? mdemo_p | _ => false end = true) by (vm_compute; reflexivity).
    rewrite R1 in E. by apply Z.eqb_eq. }
  subst p. assert (H1 : mreach g1 (<[mdemo_p := 100]> ∅)) by (apply (mr_malloc mdemo_start ∅ 100 mdemo_p g1 mdemo_start_reach); [lia|exact R1]).
  rewrite <- (delete_insert_id ∅ mdemo_p 100) by apply lookup_empty.
  eapply (mr_free g1 _ mdemo_p 100 g H1); [apply lookup_insert_eq|exact R2].
Qed.

Lemma free_coalesces_witness : ∃ g g' : heap nat, mreach g ∅ ∧ malloc 97 g = Done (0x10000008, g') ∧ heaptop g' = heaptop g.
Proof.
  destruct mdemo_empty as (g & Hr & Eb & Et).
  destruct (free_coalesces g 97 Hr) as (g' & Hrun & Htop); [lia|lia|lia|].
  exists g, g'. split; [exact Hr|]. split; [rewrite Eb in Hrun; exact Hrun|exact Htop].
Defined.

Lemma malloc_huge_is_zero_witness : malloc (2 ^ 32 - 1) mdemo_start = malloc 0 mdemo_start.
Proof. apply (malloc_huge_is_zero mdemo_start (2 ^ 32 - 1)). lia. Defined.

Definition mdemo_set_up : heap nat := Heap 0x10000000 0x10000000 ∅ 0%nat.

Lemma mdemo_set_up_ok : heap_ok mdemo_set_up [].
Proof. by split. Qed.

Lemma mdemo_zero_runs : match malloc 0 mdemo_set_up with Done (p, _) => negb (p =? 0) | _ => false end = true.
Proof. vm_compute. reflexivity. Qed.

Lemma free_malloc_zero_witness : ∃ p g', malloc 0 mdemo_set_up = Done (p, g') ∧ free p g' = Panic.
Proof.
  pose proof mdemo_zero_runs as Hrun. destruct (malloc 0 mdemo_set_up) as [[p g']| | |] eqn:R; try discriminate.
  exists p, g'. split; [reflexivity|].
  apply (free_malloc_zero mdemo_set_up [] p g' mdemo_set_up_ok); [constructor|exact R|].
  intros ->. discriminate Hrun.
Defined.
