(* ===== verification/Vfs.v ===== *)
(** * The VFS layer (kern/fs/vfs: vfslist.c, vfslookup.c, vfspath.c, vfscwd.c)

    The layer works on vnodes and file systems through the VOP_ and FSOP_
    macros of vnode.h and fs.h, which dispatch to the code of the file
    system or of device.c; here they are the operations of the class
    [Files] on a world [W], and [Vnodes] adds the vnodes of devices.  Vnodes, file systems and devices are their
    addresses.  Path names are the buffers they are passed in, and a pointer
    into one is the rest of the buffer.

    The locks knowndevs_lock and bootfs_lock are held over what is one step
    here, and no routine runs into a lock it holds. *)

From S2P Require Import Prelude KArray Bytes Mem CString Printf Uio.

Definition NAME_MAX : Z := 255.

Definition O_RDONLY : Z := 0.
Definition O_WRONLY : Z := 1.
Definition O_RDWR : Z := 2.
Definition O_CREAT : Z := 4.
Definition O_EXCL : Z := 8.
Definition O_TRUNC : Z := 16.
Definition O_APPEND : Z := 32.
Definition O_ACCMODE : Z := 3.

Definition S_IFMT : Z := 28672.
Definition S_IFDIR : Z := 8192.
Definition S_ISDIR (mode : Z) : bool := Z.land mode S_IFMT =? S_IFDIR.

(** A flag of a word of flags. *)
Definition flag (x f : Z) : bool := negb (Z.land x f =? 0).

Class Files (H W : Type) := {
  (** The kernel heap. *)
  heap : W → H;
  set_heap : H → W → W;
  VOP_INCREF : Z → W → outcome W;
  VOP_DECREF : Z → W → outcome W;
  VOP_INCOPEN : Z → W → outcome W;
  VOP_DECOPEN : Z → W → outcome W;
  VOP_OPEN : Z → Z → W → outcome (Z * W);
  VOP_READLINK : Z → uio → W → outcome (Z * uio * W);
  VOP_GETTYPE : Z → W → outcome (res Z * W);
  VOP_TRUNCATE : Z → Z → W → outcome (Z * W);
  VOP_NAMEFILE : Z → uio → W → outcome (Z * uio * W);
  VOP_CREAT : Z → list Z → bool → W → outcome (res Z * W);
  VOP_SYMLINK : Z → list Z → list Z → W → outcome (Z * W);
  VOP_MKDIR : Z → list Z → W → outcome (Z * W);
  VOP_LINK : Z → list Z → Z → W → outcome (Z * W);
  VOP_REMOVE : Z → list Z → W → outcome (Z * W);
  VOP_RMDIR : Z → list Z → W → outcome (Z * W);
  VOP_RENAME : Z → list Z → Z → list Z → W → outcome (Z * W);
  VOP_LOOKUP : Z → list Z → W → outcome (res Z * W);
  VOP_LOOKPARENT : Z → list Z → list Z → Z → W → outcome (res (Z * list Z) * W);
  (** vn->vn_fs; NULL for the vnode of a device. *)
  vn_fs : Z → W → outcome (option Z);
  FSOP_SYNC : Z → W → outcome (Z * W);
  FSOP_GETVOLNAME : Z → W → outcome (option (list Z));
  FSOP_GETROOT : Z → W → outcome (Z * W);
  FSOP_UNMOUNT : Z → W → outcome (Z * W);
  (** The memory of the running process, for uiomove. *)
  user : W → uenv;
  set_user : uenv → W → W;
}.

Class Vnodes (H W : Type) := {
  vnodes_files :: Files H W;
  dev_create_vnode : option Z → W → outcome (option Z * W);
  (** kfree of the vnode of a device. *)
  vnode_kfree : Z → W → outcome W;
  (** The stores that make a block of memory the device null:. *)
  null_device : Z → W → W;
}.

(** ** The state of the layer *)

(** A string on the kernel heap: its address and its bytes. *)
Definition kstring : Type := Z * list Z.

Record knowndev := Knowndev {
  kd_name : kstring;
  kd_rawname : option kstring;
  kd_device : option Z;
  kd_vnode : Z;
  kd_fs : option Z;
}.
Definition set_fs (fs : option Z) (kd : knowndev) : knowndev :=
  Knowndev (kd_name kd) (kd_rawname kd) (kd_device kd) (kd_vnode kd) fs.
Definition SIZEOF_KNOWNDEV : Z := 20.

(** [v_kds] has the device entries by address; [t_cwd] belongs to the
    running thread. *)
Record vfs (W : Type) := Vfs {
  knowndevs : array Z;
  v_kds : gmap Z knowndev;
  bootfs_vnode : option Z;
  t_cwd : option Z;
  world : W;
}.
Arguments Vfs {W} _ _ _ _ _.
Arguments knowndevs {W} _.
Arguments v_kds {W} _.
Arguments bootfs_vnode {W} _.
Arguments t_cwd {W} _.
Arguments world {W} _.

Definition V (W A : Type) : Type := vfs W → outcome (A * vfs W).
#[global] Instance V_ret W : MRet (V W) := λ A a s, Done (a, s).
#[global] Instance V_bind W : MBind (V W) := λ A B f m s, '(a, s) ← m s; f a s.

Section Operations.
Context {H W : Type} `{KHeap H} `{Vnodes H W}.
Abbreviation M := (V W).

Definition set_devs (x : array Z) (s : vfs W) : vfs W := Vfs x (v_kds s) (bootfs_vnode s) (t_cwd s) (world s).
Definition set_kds (x : gmap Z knowndev) (s : vfs W) : vfs W := Vfs (knowndevs s) x (bootfs_vnode s) (t_cwd s) (world s).
Definition set_boot (x : option Z) (s : vfs W) : vfs W := Vfs (knowndevs s) (v_kds s) x (t_cwd s) (world s).
Definition set_cwd (x : option Z) (s : vfs W) : vfs W := Vfs (knowndevs s) (v_kds s) (bootfs_vnode s) x (world s).
Definition set_world (x : W) (s : vfs W) : vfs W := Vfs (knowndevs s) (v_kds s) (bootfs_vnode s) (t_cwd s) x.

Definition getV {A} (f : vfs W → A) : M A := λ s, Done (f s, s).
Definition modV (f : vfs W → vfs W) : M unit := λ s, Done (tt, f s).
Definition liftV {A} (m : outcome A) : M A := λ s, a ← m; Done (a, s).
Definition assertV (b : bool) : M unit := liftV (kassert b).
Definition panicV {A} : M A := λ _, Panic.
Definition derefV {A} (o : option A) : M A := match o with Some a => mret a | None => λ _, Fault end.

(** Operations of the world: without a result, with one, and reading only. *)
Definition doW (f : W → outcome W) : M unit := λ s, w ← f (world s); Done (tt, set_world w s).
Definition callW {A} (f : W → outcome (A * W)) : M A := λ s, '(a, w) ← f (world s); Done (a, set_world w s).
Definition askW {A} (f : W → outcome A) : M A := λ s, a ← f (world s); Done (a, s).

(** result = m; if (result) return result; *)
Definition bindE {A B} (m : M (res A)) (f : A → M (res B)) : M (res B) :=
  r ← m; match r with Err e => mret (Err e) | Ok a => f a end.

Definition kmallocV (n : Z) : M (option Z) :=
  callW (λ w, '(r, h) ← kmalloc n (heap w); Done (r, set_heap h w)).
Definition kfreeV (a : Z) : M unit := doW (λ w, h ← kfree a (heap w); Done (set_heap h w)).

(** ** The current directory (vfscwd.c) *)

Definition vfs_getcurdir : M (res Z) :=
  cwd ← getV t_cwd;
  match cwd with
  | Some p => doW (VOP_INCREF p);; mret (Ok p)
  | None => mret (Err ENOENT)
  end.

Definition decref_old (old : option Z) : M unit :=
  match old with Some p => doW (VOP_DECREF p) | None => mret tt end.

Definition vfs_setcurdir (dir : Z) : M Z :=
  r ← callW (VOP_GETTYPE dir);
  match r with
  | Err e => mret e
  | Ok vtype =>
      if negb (S_ISDIR vtype) then mret ENOTDIR
      else
        doW (VOP_INCREF dir);;
        old ← getV t_cwd;
        modV (set_cwd (Some dir));;
        decref_old old;;
        mret 0
  end.

Definition vfs_clearcurdir : M Z :=
  old ← getV t_cwd;
  modV (set_cwd None);;
  decref_old old;;
  mret 0.

(** ** The list of devices (vfslist.c) *)

(** array_getguy and the structure it points to. *)
Definition getkd (i : Z) : M (Z * knowndev) :=
  a ← getV knowndevs;
  p ← liftV (array_getguy a i);
  kds ← getV v_kds;
  kd ← derefV (kds !! p);
  mret (p, kd).
Definition numdevs : M nat := a ← getV knowndevs; mret (Z.to_nat (array_getnum a)).

(** !strcmp(a, b) *)
Definition same (a b : list Z) : M bool := c ← liftV (strcmp a b); mret (c =? 0).

Definition samestring (a b : option (list Z)) : M bool :=
  match a, b with Some a, Some b => same a b | _, _ => mret false end.
Definition samestring3 (a b c d : option (list Z)) : M bool :=
  x ← samestring a b;
  if (x : bool) then mret true else
  x ← samestring a c;
  if (x : bool) then mret true else samestring a d.

Definition volname_of (fs : option Z) : M (option (list Z)) :=
  match fs with Some f => askW (FSOP_GETVOLNAME f) | None => mret None end.

(** The loops over the table have [n] entries left from index [i] on. *)
Fixpoint sync_from (n : nat) (i : Z) : M unit :=
  match n with
  | O => mret tt
  | S n =>
      '(_, dev) ← getkd i;
      match kd_fs dev with
      | Some f => _ ← callW (FSOP_SYNC f); mret tt
      | None => mret tt
      end;;
      sync_from n (i + 1)
  end.
Definition vfs_sync : M Z := n ← numdevs; sync_from n 0;; mret 0.

(** kd->kd_vnode with a reference of its own. *)
Definition take_vnode (kd : knowndev) : M (option (res Z)) :=
  assertV (bool_decide (is_Some (kd_device kd)));;
  doW (VOP_INCREF (kd_vnode kd));;
  mret (Some (Ok (kd_vnode kd))).

(** One entry of the loop of vfs_getroot: [None] goes on to the next. *)
Definition getroot_entry (kd : knowndev) (devname : list Z) : M (option (res Z)) :=
  named ← same (kd_name kd).2 devname;
  r ← match kd_fs kd with
      | Some f =>
          volname ← askW (FSOP_GETVOLNAME f);
          vol ← samestring volname (Some devname);
          if named || vol then p ← callW (FSOP_GETROOT f); mret (Some (Ok p)) else mret None
      | None =>
          mret (if bool_decide (is_Some (kd_rawname kd)) && named then Some (Err ENXIO) else None)
      end;
  match r with
  | Some r => mret (Some r)
  | None =>
      if (named : bool) then
        assertV (bool_decide (kd_fs kd = None));;
        assertV (bool_decide (kd_rawname kd = None));;
        take_vnode kd
      else
        raw ← samestring (snd <$> kd_rawname kd) (Some devname);
        if (raw : bool) then take_vnode kd else mret None
  end.

Fixpoint getroot_from (n : nat) (i : Z) (devname : list Z) : M (res Z) :=
  match n with
  | O => mret (Err ENODEV)
  | S n =>
      '(_, kd) ← getkd i;
      r ← getroot_entry kd devname;
      match r with Some r => mret r | None => getroot_from n (i + 1) devname end
  end.
Definition vfs_getroot (devname : list Z) : M (res Z) := n ← numdevs; getroot_from n 0 devname.

Fixpoint getdevname_from (n : nat) (i fs : Z) : M (option (list Z)) :=
  match n with
  | O => mret None
  | S n =>
      '(_, kd) ← getkd i;
      if bool_decide (kd_fs kd = Some fs) then mret (Some (kd_name kd).2)
      else getdevname_from n (i + 1) fs
  end.
Definition vfs_getdevname (fs : Z) : M (option (list Z)) := n ← numdevs; getdevname_from n 0 fs.

(** ** Adding devices *)

(** The bytes of a fresh block; all of them are overwritten. *)
Definition fresh_bytes (n : Z) : list Z := replicate (Z.to_nat n) 0.

Definition kstrdup (s : list Z) : M (option kstring) :=
  len ← liftV (strlen s);
  z ← kmallocV (len + 1);
  match z with
  | None => mret None
  | Some z => b ← liftV (strcpy (fresh_bytes (len + 1)) s); mret (Some (z, b))
  end.

(** "raw" *)
Definition raw_suffix : list Z := [114; 97; 119; 0].

Definition mkrawname (name : list Z) : M (option kstring) :=
  len ← liftV (strlen name);
  s ← kmallocV (len + 3 + 1);
  match s with
  | None => mret None
  | Some s =>
      b ← liftV (strcpy (fresh_bytes (len + 3 + 1)) name);
      b ← liftV (strcat b raw_suffix);
      mret (Some (s, b))
  end.

Fixpoint badnames_from (n : nat) (i : Z) (n1 n2 n3 : option (list Z)) : M bool :=
  match n with
  | O => mret false
  | S n =>
      '(_, kd) ← getkd i;
      volname ← volname_of (kd_fs kd);
      v ← samestring3 volname n1 n2 n3;
      if (v : bool) then mret true else
      r ← samestring3 (snd <$> kd_rawname kd) n1 n2 n3;
      if (r : bool) then mret true else
      d ← samestring3 (Some (kd_name kd).2) n1 n2 n3;
      if (d : bool) then mret true else badnames_from n (i + 1) n1 n2 n3
  end.
Definition badnames (n1 n2 n3 : option (list Z)) : M bool := n ← numdevs; badnames_from n 0 n1 n2 n3.

(** The label puke: free what has been allocated. *)
Definition kfree_if (a : option Z) : M unit := match a with Some a => kfreeV a | None => mret tt end.
Definition puke (name rawname : option kstring) (vnode kd : option Z) : M Z :=
  kfree_if (fst <$> name);;
  kfree_if (fst <$> rawname);;
  match vnode with Some p => doW (vnode_kfree p) | None => mret tt end;;
  kfree_if kd;;
  mret ENOMEM.

Definition array_addV (kd : Z) : M Z := λ s,
  '(result, a, h) ← array_add (knowndevs s) kd (heap (world s));
  Done (result, set_devs a (set_world (set_heap h (world s)) s)).

Definition doadd_named (name : kstring) (rawname : option kstring) (dev fs : option Z) : M Z :=
  vnode ← callW (dev_create_vnode dev);
  match vnode with
  | None => puke (Some name) rawname None None
  | Some vnode =>
      kd ← kmallocV SIZEOF_KNOWNDEV;
      match kd with
      | None => puke (Some name) rawname (Some vnode) None
      | Some kd =>
          modV (λ s, set_kds (<[kd := Knowndev name rawname dev vnode fs]> (v_kds s)) s);;
          volname ← volname_of fs;
          bad ← badnames (Some name.2) (snd <$> rawname) volname;
          if (bad : bool) then mret EEXIST else array_addV kd
      end
  end.

Definition vfs_doadd (dname : list Z) (mountable : bool) (dev fs : option Z) : M Z :=
  name ← kstrdup dname;
  match name with
  | None => puke None None None None
  | Some name =>
      if mountable then
        rawname ← mkrawname name.2;
        match rawname with
        | None => puke (Some name) None None None
        | Some rawname => doadd_named name (Some rawname) dev fs
        end
      else doadd_named name None dev fs
  end.

Definition vfs_adddev (devname : list Z) (dev : Z) (mountable : bool) : M Z :=
  vfs_doadd devname mountable (Some dev) None.
Definition vfs_addfs (devname : list Z) (fs : Z) : M Z := vfs_doadd devname false None (Some fs).

(** ** Mounting *)

Fixpoint findmount_from (n : nat) (i : Z) (devname : list Z) : M (res (Z * knowndev)) :=
  match n with
  | O => mret (Err ENODEV)
  | S n =>
      '(p, dev) ← getkd i;
      match kd_rawname dev with
      | None => findmount_from n (i + 1) devname
      | Some _ =>
          c ← same devname (kd_name dev).2;
          if (c : bool) then mret (Ok (p, dev)) else findmount_from n (i + 1) devname
      end
  end.
Definition findmount (devname : list Z) : M (res (Z * knowndev)) := n ← numdevs; findmount_from n 0 devname.

Definition put_fs (p : Z) (kd : knowndev) (fs : option Z) : M unit :=
  modV (λ s, set_kds (<[p := set_fs fs kd]> (v_kds s)) s).

(** [mountfunc] sets up the file system of a device. *)
Definition vfs_mount (devname : list Z) (mountfunc : Z → W → outcome (res Z * W)) : M Z :=
  r ← findmount devname;
  match r with
  | Err e => mret e
  | Ok (p, kd) =>
      match kd_fs kd with
      | Some _ => mret EBUSY
      | None =>
          assertV (bool_decide (is_Some (kd_rawname kd)));;
          assertV (bool_decide (is_Some (kd_device kd)));;
          dev ← derefV (kd_device kd);
          r ← callW (mountfunc dev);
          match r with
          | Err e => mret e
          | Ok fs =>
              put_fs p kd (Some fs);;
              _ ← askW (FSOP_GETVOLNAME fs);
              mret 0
          end
      end
  end.

Definition vfs_unmount (devname : list Z) : M Z :=
  r ← findmount devname;
  match r with
  | Err e => mret e
  | Ok (p, kd) =>
      match kd_fs kd with
      | None => mret EINVAL
      | Some fs =>
          assertV (bool_decide (is_Some (kd_rawname kd)));;
          assertV (bool_decide (is_Some (kd_device kd)));;
          result ← callW (FSOP_SYNC fs);
          if negb (result =? 0) then mret result
          else
            result ← callW (FSOP_UNMOUNT fs);
            if negb (result =? 0) then mret result
            else put_fs p kd None;; mret 0
      end
  end.

(** A second try when the first sync fails. *)
Definition sync_twice (fs : Z) : M Z :=
  result ← callW (FSOP_SYNC fs);
  if result =? 0 then mret 0 else callW (FSOP_SYNC fs).

Definition unmount_entry (p : Z) (dev : knowndev) : M unit :=
  match kd_rawname dev, kd_fs dev with
  | Some _, Some fs =>
      result ← sync_twice fs;
      if negb (result =? 0) then mret tt
      else
        result ← callW (FSOP_UNMOUNT fs);
        if negb (result =? 0) then mret tt else put_fs p dev None
  | _, _ => mret tt
  end.

Fixpoint unmountall_from (n : nat) (i : Z) : M unit :=
  match n with
  | O => mret tt
  | S n =>
      '(p, dev) ← getkd i;
      unmount_entry p dev;;
      unmountall_from n (i + 1)
  end.
Definition vfs_unmountall : M Z := n ← numdevs; unmountall_from n 0;; mret 0.

(** ** Path names (vfslookup.c) *)

Inductive sep := Colon (i : Z) | Slash (i : Z) | NoSep.

(** The first colon or slash. *)
Fixpoint find_sep (path : list Z) (i : Z) : outcome sep :=
  match path with
  | [] => Fault
  | c :: path =>
      if c =? 0 then Done NoSep
      else if c =? 58 then Done (Colon i)
      else if c =? 47 then Done (Slash i)
      else find_sep path (i + 1)
  end.

(** while (path[0]=='/') path++; *)
Fixpoint skip_slashes (path : list Z) : outcome (list Z) :=
  match path with
  | [] => Fault
  | c :: path' => if c =? 47 then skip_slashes path' else Done path
  end.

(** The part of the path left to look up, and the vnode to start from. *)
Definition getdevice (path : list Z) : M (res (list Z * Z)) :=
  s ← liftV (find_sep path 0);
  match s with
  | Colon 0 =>
      r ← vfs_getcurdir;
      match r with
      | Err e => mret (Err e)
      | Ok vn =>
          fs ← askW (vn_fs vn);
          assertV (bool_decide (is_Some fs));;
          f ← derefV fs;
          startvn ← callW (FSOP_GETROOT f);
          doW (VOP_DECREF vn);;
          subpath ← liftV (skip_slashes (drop 1 path));
          mret (Ok (subpath, startvn))
      end
  | Slash 0 =>
      boot ← getV bootfs_vnode;
      match boot with
      | None => mret (Err ENOENT)
      | Some p =>
          doW (VOP_INCREF p);;
          subpath ← liftV (skip_slashes (drop 1 path));
          mret (Ok (subpath, p))
      end
  | Colon colon =>
      devname ← liftV (patch path colon [0]);
      subpath ← liftV (skip_slashes (drop (Z.to_nat (colon + 1)) path));
      r ← vfs_getroot devname;
      match r with Err e => mret (Err e) | Ok startvn => mret (Ok (subpath, startvn)) end
  | _ =>
      r ← vfs_getcurdir;
      match r with Err e => mret (Err e) | Ok startvn => mret (Ok (path, startvn)) end
  end.

Definition vfs_lookparent (path buf : list Z) (buflen : Z) : M (res (Z * list Z)) :=
  r ← getdevice path;
  match r with
  | Err e => mret (Err e)
  | Ok (path, startvn) =>
      len ← liftV (strlen path);
      result ← (if len =? 0 then mret (Err EINVAL) else callW (VOP_LOOKPARENT startvn path buf buflen));
      doW (VOP_DECREF startvn);;
      mret result
  end.

Definition vfs_lookup (path : list Z) : M (res Z) :=
  r ← getdevice path;
  match r with
  | Err e => mret (Err e)
  | Ok (path, startvn) =>
      len ← liftV (strlen path);
      if len =? 0 then mret (Ok startvn)
      else
        result ← callW (VOP_LOOKUP startvn path);
        doW (VOP_DECREF startvn);;
        mret result
  end.

Definition vfs_chdir (path : list Z) : M Z :=
  r ← vfs_lookup path;
  match r with
  | Err e => mret e
  | Ok vn =>
      result ← vfs_setcurdir vn;
      doW (VOP_DECREF vn);;
      mret result
  end.

Definition change_bootfs (newguy : option Z) : M unit :=
  oldguy ← getV bootfs_vnode;
  modV (set_boot newguy);;
  decref_old oldguy.

(** "%s" and ":" *)
Definition fmt_s : list Z := [37; 115; 0].
Definition colon_str : list Z := [58; 0].

Definition vfs_setbootfs (fsname : list Z) : M Z :=
  '(_, tmp) ← liftV (snprintf (fresh_bytes (NAME_MAX + 1)) (NAME_MAX + 1 - 1) fmt_s [VStr (Some fsname)]);
  s ← liftV (strchr tmp 58);
  r ← match s with
      | Some i =>
          len ← liftV (strlen (drop (Z.to_nat i) tmp));
          if len >? 0 then mret (Err EINVAL) else mret (Ok tmp)
      | None => tmp ← liftV (strcat tmp colon_str); mret (Ok tmp)
      end;
  match r with
  | Err e => mret e
  | Ok tmp =>
      result ← vfs_chdir tmp;
      if negb (result =? 0) then mret result
      else
        r ← vfs_getcurdir;
        match r with
        | Err e => mret e
        | Ok newguy => change_bootfs (Some newguy);; mret 0
        end
  end.
Definition vfs_clearbootfs : M unit := change_bootfs None.

Definition uiomoveV (ptr : list Z) (n : Z) (u : uio) : M (Z * uio) := λ s,
  '(result, _, u, ue) ← uiomove ptr n u (user (world s));
  Done (result, u, set_world (set_user ue (world s)) s).

Definition vfs_getcwd (u : uio) : M (Z * uio) :=
  assertV (bool_decide (uio_rw u = UIO_READ));;
  r ← vfs_getcurdir;
  match r with
  | Err e => mret (e, u)
  | Ok cwd =>
      fs ← askW (vn_fs cwd);
      assertV (bool_decide (is_Some fs));;
      f ← derefV fs;
      name ← askW (FSOP_GETVOLNAME f);
      name ← match name with Some n => mret (Some n) | None => vfs_getdevname f end;
      assertV (bool_decide (is_Some name));;
      name ← derefV name;
      len ← liftV (strlen name);
      '(result, u) ← uiomoveV name len u;
      '(result, u) ← (if negb (result =? 0) then mret (result, u)
                      else
                        '(result, u) ← uiomoveV [58] 1 u;
                        if negb (result =? 0) then mret (result, u) else callW (VOP_NAMEFILE cwd u));
      doW (VOP_DECREF cwd);;
      mret (result, u)
  end.

(** ** Operations on path names (vfspath.c) *)

(** char name[NAME_MAX+1]; *)
Definition name_buffer : list Z := replicate 256 0.
Definition lookparent_name (path : list Z) : M (res (Z * list Z)) := vfs_lookparent path name_buffer (NAME_MAX + 1).

(** The vnode of a file to open, created when asked. *)
Definition open_vnode (path : list Z) (openflags : Z) : M (res Z) :=
  if flag openflags O_CREAT then
    r ← lookparent_name path;
    match r with
    | Err e => mret (Err e)
    | Ok (dir, name) =>
        result ← callW (VOP_CREAT dir name (flag openflags O_EXCL));
        doW (VOP_DECREF dir);;
        mret result
    end
  else vfs_lookup path.

Definition vfs_open (path : list Z) (openflags : Z) : M (res Z) :=
  let how := Z.land openflags O_ACCMODE in
  if negb ((how =? O_RDONLY) || (how =? O_WRONLY) || (how =? O_RDWR)) then mret (Err EINVAL)
  else
    let canwrite := negb (how =? O_RDONLY) in
    r ← open_vnode path openflags;
    match r with
    | Err e => mret (Err e)
    | Ok vn =>
        result ← callW (VOP_OPEN vn openflags);
        if negb (result =? 0) then doW (VOP_DECREF vn);; mret (Err result)
        else
          doW (VOP_INCOPEN vn);;
          result ← (if flag openflags O_TRUNC then
                      if canwrite then callW (VOP_TRUNCATE vn 0) else mret EINVAL
                    else mret 0);
          if negb (result =? 0) then
            doW (VOP_DECOPEN vn);; doW (VOP_DECREF vn);; mret (Err result)
          else mret (Ok vn)
    end.

Definition vfs_close (vn : Z) : M unit := doW (VOP_DECOPEN vn);; doW (VOP_DECREF vn).

(** The operations on a name in a directory. *)
Definition in_parent (path : list Z) (op : Z → list Z → W → outcome (Z * W)) : M Z :=
  r ← lookparent_name path;
  match r with
  | Err e => mret e
  | Ok (dir, name) =>
      result ← callW (op dir name);
      doW (VOP_DECREF dir);;
      mret result
  end.

Definition vfs_remove (path : list Z) : M Z := in_parent path VOP_REMOVE.
Definition vfs_mkdir (path : list Z) : M Z := in_parent path VOP_MKDIR.
Definition vfs_rmdir (path : list Z) : M Z := in_parent path VOP_RMDIR.
Definition vfs_symlink (contents path : list Z) : M Z :=
  in_parent path (λ dir name, VOP_SYMLINK dir name contents).

(** Two vnodes of one file system. *)
Definition same_fs (a b : Z) : M bool :=
  fa ← askW (vn_fs a);
  fb ← askW (vn_fs b);
  mret (bool_decide (is_Some fa) && bool_decide (is_Some fb) && bool_decide (fa = fb)).

Definition vfs_rename (oldpath newpath : list Z) : M Z :=
  r ← lookparent_name oldpath;
  match r with
  | Err e => mret e
  | Ok (olddir, oldname) =>
      r ← lookparent_name newpath;
      match r with
      | Err e => doW (VOP_DECREF olddir);; mret e
      | Ok (newdir, newname) =>
          ok ← same_fs olddir newdir;
          result ← (if (ok : bool) then callW (VOP_RENAME olddir oldname newdir newname) else mret EXDEV);
          doW (VOP_DECREF newdir);;
          doW (VOP_DECREF olddir);;
          mret result
      end
  end.

Definition vfs_link (oldpath newpath : list Z) : M Z :=
  r ← vfs_lookup oldpath;
  match r with
  | Err e => mret e
  | Ok oldfile =>
      r ← lookparent_name newpath;
      match r with
      | Err e => doW (VOP_DECREF oldfile);; mret e
      | Ok (newdir, newname) =>
          ok ← same_fs oldfile newdir;
          result ← (if (ok : bool) then callW (VOP_LINK newdir newname oldfile) else mret EXDEV);
          doW (VOP_DECREF newdir);;
          doW (VOP_DECREF oldfile);;
          mret result
      end
  end.

Definition vfs_readlink (path : list Z) (u : uio) : M (Z * uio) :=
  r ← vfs_lookup path;
  match r with
  | Err e => mret (e, u)
  | Ok vn =>
      '(result, u) ← callW (VOP_READLINK vn u);
      doW (VOP_DECREF vn);;
      mret (result, u)
  end.

(** ** Starting the layer (vfs_bootstrap, devnull_create) *)

Definition SIZEOF_DEVICE : Z := 28.
(** "null" *)
Definition null_name : list Z := [110; 117; 108; 108; 0].

Definition devnull_create : M unit :=
  dev ← kmallocV SIZEOF_DEVICE;
  match dev with
  | None => panicV
  | Some dev =>
      modV (λ s, set_world (null_device dev (world s)) s);;
      result ← vfs_adddev null_name dev false;
      if negb (result =? 0) then panicV else mret tt
  end.

Definition SIZEOF_LOCK : Z := 8.
(** lock_create with a name of [len] characters, or the panic of the caller. *)
Definition lock_or_panic (len : Z) : M unit :=
  l ← kmallocV SIZEOF_LOCK;
  match l with
  | None => panicV
  | Some l => name ← kmallocV (len + 1); match name with None => panicV | Some _ => mret tt end
  end.

Definition vfs_bootstrap (w : W) : outcome (vfs W) :=
  '(a, h) ← array_create (heap w);
  match a with
  | None => Panic
  | Some a =>
      '(_, s) ← (lock_or_panic 9;; lock_or_panic 11;; devnull_create)
                  (Vfs a ∅ None None (set_heap h w));
      Done s
  end.
End Operations.
