(* ===== verification/VfsSpec.v ===== *)
(** * References to vnodes in the VFS layer

    [VnodesLaws] is what the layer relies on below it: every operation
    returns, and hands out and takes back references as vnode.h says.  The
    layer's own promise is proved against it: between calls, the references
    to a vnode are those of the current directory, of the boot file system
    and of the callers that hold it open, so that no path through the layer
    loses a reference or gives one back twice. *)

From S2P Require Import Prelude Ram Kheap KheapSpec KArray Bytes Mem CString Printf Uio Vfs.

(** ** The interface *)

(** [wok w L]: the world is in order and the blocks [L] of the heap are
    the caller's.  [vrefs] and [vopens] are the references and opens that
    users of the layer hold.  [pinned w p d]: [p] is the vnode of device
    [d], or of none; it stays while nobody refers to it.  [fs_live] file
    systems are mounted. *)
Class VnodesView (W : Type) := {
  wok : W → list Z → Prop;
  vrefs : W → Z → Z;
  vopens : W → Z → Z;
  pinned : W → Z → option Z → Prop;
  is_device : W → Z → Prop;
  fs_live : W → Z → Prop;
  vn_dir : W → Z → Prop;
}.

(** Counts by vnode. *)
Definition none : Z → Z := λ _, 0.
Definition one (p k : Z) : Z → Z := λ q, if decide (q = p) then k else 0.
Definition plus (e d : Z → Z) : Z → Z := λ q, e q + d q.
Infix "⊞" := plus (at level 50, left associativity).
Definition held (o : option Z) : Z → Z := match o with Some p => one p 1 | None => none end.

Section Interface.
Context {H W : Type} `{Files H W} `{VnodesView W}.
Implicit Types (w : W) (p q f : Z).

(** What an operation may do besides its effect on the counts: it starts or
    ends one file system or one vnode at most. *)
Inductive loss := Nothing | Lose_fs (f : Z) | Gain_fs (f : Z) | Lose_vnode (p : Z).

Record step (L : list Z) (lo : loss) (w w' : W) (dr do : Z → Z) : Prop := {
  st_ok : wok w' L;
  st_refs q : vrefs w' q = vrefs w q + dr q;
  st_opens q : vopens w' q = vopens w q + do q;
  st_pin q d : pinned w q d → lo ≠ Lose_vnode q → pinned w' q d;
  st_dev d : is_device w d → is_device w' d;
  st_live f : fs_live w f → lo ≠ Lose_fs f → fs_live w' f;
  st_old f : fs_live w' f → fs_live w f ∧ lo ≠ Lose_fs f ∨ lo = Gain_fs f;
  st_vol f : fs_live w f → lo ≠ Lose_fs f → FSOP_GETVOLNAME f w' = FSOP_GETVOLNAME f w;
  st_fs q : 1 ≤ vrefs w q → 1 ≤ vrefs w' q → vn_fs q w' = vn_fs q w;
  st_space : ue_space (user w') = ue_space (user w);
  st_dir q : vn_dir w q → 1 ≤ vrefs w q → 1 ≤ vrefs w' q → vn_dir w' q;
}.

Lemma step_refl L w : wok w L → step L Nothing w w none none.
Proof. intros. split; try done; try (intros q; unfold none; lia). intros f Hf. by left. Qed.

(** A step and one that changes no count. *)
Lemma step_then L L' w1 w2 w3 dr do :
  step L Nothing w1 w2 dr do → step L' Nothing w2 w3 none none → step L' Nothing w1 w3 dr do.
Proof.
  intros [? r1 o1 p1 d1 l1 ol1 v1 f1 sp1 dir1] [? r2 o2 p2 d2 l2 ol2 v2 f2 sp2 dir2].
  assert (Hr : ∀ q, vrefs w3 q = vrefs w2 q) by (intros q; rewrite r2; unfold none; lia).
  split; try done.
  - intros q. by rewrite Hr.
  - intros q. rewrite o2, o1. unfold none. lia.
  - auto.
  - auto.
  - auto.
  - intros f Hf. destruct (ol2 f Hf) as [[Hf' _]|]; [auto|done].
  - intros f Hf _. rewrite v2, v1; auto.
  - intros q Hq Hq'. rewrite Hr in Hq'. rewrite f2, f1; rewrite ?Hr; auto.
  - congruence.
  - intros q Hd Hq Hq'. rewrite Hr in Hq'. apply dir2; rewrite ?Hr; auto.
Qed.

(** An operation that returns a code and leaves the counts alone. *)
Definition quiet (L : list Z) (w : W) (m : outcome (Z * W)) : Prop :=
  ∃ e w', m = Done (e, w') ∧ step L Nothing w w' none none.
(** ... with a uio. *)
Definition quiet_io (L : list Z) (w : W) (m : outcome (Z * uio * W)) : Prop :=
  ∃ e u w', m = Done (e, u, w') ∧ step L Nothing w w' none none.
(** An operation that hands back a vnode with a reference, or fails. *)
Definition gives (L : list Z) (w : W) (m : outcome (res Z * W)) : Prop :=
  ∃ r w', m = Done (r, w') ∧ step L Nothing w w' (match r with Ok p => one p 1 | Err _ => none end) none.
Definition is_str (b : list Z) : Prop := ∃ x, cstr b x.
End Interface.

Class FilesLaws (H W : Type) `{KHeap H} `{Files H W} `{VnodesView W} := {
  vrefs_nonneg w L p : wok w L → 0 ≤ vrefs w p ∧ 0 ≤ vopens w p;
  wok_owns w L : wok w L → heap_owns (heap w) L;
  wok_perm w L L' : L ≡ₚ L' → wok w L → wok w L';
  (** The heap may be changed outside the blocks of the world. *)
  wok_heap w L L' h : wok w L →
    (∀ R, heap_owns (heap w) (L ++ R) → heap_owns h (L' ++ R)) →
    step L' Nothing w (set_heap h w) none none;
  heap_set w h : heap (set_heap h w) = h;
  user_step w L ue : wok w L → ue_space ue = ue_space (user w) → step L Nothing w (set_user ue w) none none;
  user_set w ue : user (set_user ue w) = ue;
  incref_law w L p : wok w L → 1 ≤ vrefs w p ∨ (∃ d, pinned w p (Some d) ∧ is_device w d) →
    ∃ w', VOP_INCREF p w = Done w' ∧ step L Nothing w w' (one p 1) none;
  decref_law w L p : wok w L → 1 ≤ vrefs w p → (vrefs w p = 1 → vopens w p = 0) →
    ∃ w', VOP_DECREF p w = Done w' ∧ step L Nothing w w' (one p (-1)) none;
  incopen_law w L p : wok w L → 1 ≤ vrefs w p →
    ∃ w', VOP_INCOPEN p w = Done w' ∧ step L Nothing w w' none (one p 1);
  decopen_law w L p : wok w L → 1 ≤ vrefs w p → 1 ≤ vopens w p →
    ∃ w', VOP_DECOPEN p w = Done w' ∧ step L Nothing w w' none (one p (-1));
  open_law w L p fl : wok w L → 1 ≤ vrefs w p → quiet L w (VOP_OPEN p fl w);
  truncate_law w L p : wok w L → 1 ≤ vrefs w p → quiet L w (VOP_TRUNCATE p 0 w);
  readlink_law w L p u : wok w L → 1 ≤ vrefs w p → quiet_io L w (VOP_READLINK p u w);
  namefile_law w L p u : wok w L → 1 ≤ vrefs w p → vn_dir w p → quiet_io L w (VOP_NAMEFILE p u w);
  gettype_law w L p : wok w L → 1 ≤ vrefs w p →
    ∃ r w', VOP_GETTYPE p w = Done (r, w') ∧ step L Nothing w w' none none ∧
      (∀ t, r = Ok t → S_ISDIR t = true → vn_dir w' p) ∧ r ≠ Err 0;
  creat_law w L p b x : wok w L → 1 ≤ vrefs w p → is_str b → gives L w (VOP_CREAT p b x w);
  lookup_law w L p b : wok w L → 1 ≤ vrefs w p → is_str b → gives L w (VOP_LOOKUP p b w);
  lookparent_law w L p b buf n : wok w L → 1 ≤ vrefs w p → is_str b → n = Z.of_nat (length buf) →
    ∃ r w', VOP_LOOKPARENT p b buf n w = Done (r, w') ∧
      match r with
      | Ok (q, name) => step L Nothing w w' (one q 1) none ∧ is_str name
      | Err _ => step L Nothing w w' none none
      end;
  symlink_law w L p b c : wok w L → 1 ≤ vrefs w p → is_str b → is_str c → quiet L w (VOP_SYMLINK p b c w);
  mkdir_law w L p b : wok w L → 1 ≤ vrefs w p → is_str b → quiet L w (VOP_MKDIR p b w);
  rmdir_law w L p b : wok w L → 1 ≤ vrefs w p → is_str b → quiet L w (VOP_RMDIR p b w);
  remove_law w L p b : wok w L → 1 ≤ vrefs w p → is_str b → quiet L w (VOP_REMOVE p b w);
  link_law w L p b q f : wok w L → 1 ≤ vrefs w p → 1 ≤ vrefs w q → is_str b →
    vn_fs p w = Done (Some f) → vn_fs q w = Done (Some f) → quiet L w (VOP_LINK p b q w);
  rename_law w L p b q c f : wok w L → 1 ≤ vrefs w p → 1 ≤ vrefs w q → is_str b → is_str c →
    vn_fs p w = Done (Some f) → vn_fs q w = Done (Some f) → quiet L w (VOP_RENAME p b q c w);
  vn_fs_law w L p : wok w L → 1 ≤ vrefs w p →
    ∃ o, vn_fs p w = Done o ∧ (∀ f, o = Some f → fs_live w f) ∧ (vn_dir w p → is_Some o);
  sync_law w L f : wok w L → fs_live w f → quiet L w (FSOP_SYNC f w);
  volname_law w L f : wok w L → fs_live w f →
    ∃ o, FSOP_GETVOLNAME f w = Done o ∧ ∀ b, o = Some b → is_str b;
  getroot_law w L f : wok w L → fs_live w f →
    ∃ p w', FSOP_GETROOT f w = Done (p, w') ∧ step L Nothing w w' (one p 1) none;
  (** A file system whose vnodes are in use is not unmounted. *)
  unmount_law w L f : wok w L → fs_live w f →
    ∃ e w', FSOP_UNMOUNT f w = Done (e, w') ∧
      step L (if decide (e = 0) then Lose_fs f else Nothing) w w' none none;
  (** A vnode is not among the caller's blocks. *)
  vnode_own w L p : wok w L → p ∈ L → vrefs w p = 0 ∧ vopens w p = 0;
}.

Class VnodesLaws (H W : Type) `{KHeap H} `{Vnodes H W} `{VnodesView W} := {
  vnodes_files_laws :: FilesLaws H W;
  null_law w L d : wok w (d :: L) → step (d :: L) Nothing w (null_device d w) none none ∧ is_device (null_device d w) d;
  (** The memory for a vnode runs out with NULL, that for its lock with a panic. *)
  dev_create_law w L d : wok w L →
    dev_create_vnode d w = Panic ∨
    ∃ r w', dev_create_vnode d w = Done (r, w') ∧ step L Nothing w w' none none ∧
      ∀ p, r = Some p → (∀ d', ¬ pinned w p d') ∧ pinned w' p d ∧ vrefs w' p = 0;
  vnode_kfree_law w L p d : wok w L → pinned w p d → vrefs w p = 0 → vopens w p = 0 →
    ∃ w', vnode_kfree p w = Done w' ∧ step L (Lose_vnode p) w w' none none;
}.

(** ** Runs of the layer *)

Section Vfs.
Context {H W : Type} `{KHeapLaws H} `{Vnodes H W} `{VnodesView W} `{!VnodesLaws H W}.
Implicit Types (s : vfs W) (w : W) (e o : Z → Z) (kd : knowndev).

(** The device table: each entry is in order, and every file system is
    mounted in one. *)
Record kd_ok (w : W) kd : Prop := {
  kd_str : is_str (kd_name kd).2;
  kd_rawstr r : kd_rawname kd = Some r → is_str r.2;
  kd_live f : kd_fs kd = Some f → fs_live w f;
  kd_pin : pinned w (kd_vnode kd) (kd_device kd);
  kd_dev d : kd_device kd = Some d → is_device w d;
  kd_some : kd_fs kd = None ∨ is_Some (kd_rawname kd) → is_Some (kd_device kd);
}.

Record table_ok (s : vfs W) : Prop := {
  tb_array : ∃ ps, array_rep (knowndevs s) (Some <$> ps) ∧ NoDup ps ∧
    (∀ p, p ∈ ps → ∃ kd, v_kds s !! p = Some kd ∧ kd_ok (world s) kd) ∧
    (∀ p q kd kd' f, p ∈ ps → q ∈ ps → v_kds s !! p = Some kd → v_kds s !! q = Some kd' →
       kd_fs kd = Some f → kd_fs kd' = Some f → p = q) ∧
    (∀ f, fs_live (world s) f → ∃ p kd, p ∈ ps ∧ v_kds s !! p = Some kd ∧ kd_fs kd = Some f);
}.

(** [e] and [o] are the references and opens of the users of the layer. *)
Record vfs_ok (L : list Z) e o (s : vfs W) : Prop := {
  vo_world : wok (world s) L;
  vo_table : table_ok s;
  vo_refs q : vrefs (world s) q = e q + held (t_cwd s) q + held (bootfs_vnode s) q;
  vo_opens q : vopens (world s) q = o q;
  vo_users q : 0 ≤ o q ≤ e q;
  vo_cwd p : t_cwd s = Some p → vn_dir (world s) p;
}.

(** ** Rules for runs *)

Definition vruns {A} (m : V W A) s (Q : A → vfs W → Prop) : Prop := ∃ a s', m s = Done (a, s') ∧ Q a s'.

Lemma vruns_ret {A} (a : A) s (Q : A → vfs W → Prop) : Q a s → vruns (mret a) s Q.
Proof. intros. by exists a, s. Qed.

Lemma vruns_bind {A B} (m : V W A) (f : A → V W B) s Q :
  vruns m s (λ a s', vruns (f a) s' Q) → vruns (m ≫= f) s Q.
Proof.
  intros (a & s1 & Hm & b & s2 & Hf & HQ). exists b, s2. split; [|done].
  unfold mbind, V_bind. by rewrite Hm.
Qed.

Lemma vruns_mono {A} (m : V W A) s (Q Q' : A → vfs W → Prop) :
  vruns m s Q → (∀ a s', Q a s' → Q' a s') → vruns m s Q'.
Proof. intros (a & s' & Hm & HQ) HQ'. exists a, s'. auto. Qed.

Lemma vruns_seq {A B} (m : V W A) (f : A → V W B) s Q Q' :
  vruns m s Q → (∀ a s', Q a s' → vruns (f a) s' Q') → vruns (m ≫= f) s Q'.
Proof. intros Hm Hf. apply vruns_bind. by eapply vruns_mono. Qed.

Lemma vruns_get {A B} (g : vfs W → A) (f : A → V W B) s Q : vruns (f (g s)) s Q → vruns (getV g ≫= f) s Q.
Proof. intros. apply vruns_bind. by exists (g s), s. Qed.

Lemma vruns_mod {B} g (f : unit → V W B) s Q : vruns (f tt) (g s) Q → vruns (modV g ≫= f) s Q.
Proof. intros. apply vruns_bind. by exists tt, (g s). Qed.

Lemma vruns_lift {A B} (m : outcome A) a (f : A → V W B) s Q :
  m = Done a → vruns (f a) s Q → vruns (liftV m ≫= f) s Q.
Proof. intros -> ?. apply vruns_bind. by exists a, s. Qed.

Lemma vruns_assert {B} b (f : unit → V W B) s Q : b = true → vruns (f tt) s Q → vruns (assertV b ≫= f) s Q.
Proof. intros -> ?. by eapply vruns_lift. Qed.

Lemma vruns_ask {A B} (g : W → outcome A) a (f : A → V W B) s Q :
  g (world s) = Done a → vruns (f a) s Q → vruns (askW g ≫= f) s Q.
Proof. intros Hg ?. apply vruns_bind. exists a, s. split; [|done]. unfold askW. by rewrite Hg. Qed.

Lemma vruns_do (g : W → outcome W) w' s (Q : unit → vfs W → Prop) :
  g (world s) = Done w' → Q tt (set_world w' s) → vruns (doW g) s Q.
Proof. intros Hg ?. exists tt, (set_world w' s). split; [|done]. unfold doW. by rewrite Hg. Qed.

Lemma vruns_call {A} (g : W → outcome (A * W)) a w' s (Q : A → vfs W → Prop) :
  g (world s) = Done (a, w') → Q a (set_world w' s) → vruns (callW g) s Q.
Proof. intros Hg ?. exists a, (set_world w' s). split; [|done]. unfold callW. by rewrite Hg. Qed.

(** ** Steps of the world under the layer *)

(** Everything of the layer but the world is as it was. *)
Definition keeps s s' : Prop :=
  knowndevs s' = knowndevs s ∧ v_kds s' = v_kds s ∧ t_cwd s' = t_cwd s ∧ bootfs_vnode s' = bootfs_vnode s.

Lemma keeps_refl s : keeps s s.
Proof. done. Qed.
Lemma keeps_trans s1 s2 s3 : keeps s1 s2 → keeps s2 s3 → keeps s1 s3.
Proof. intros (?&?&?&?) (?&?&?&?). split_and!; congruence. Qed.
Lemma keeps_world s w : keeps s (set_world w s).
Proof. done. Qed.

Lemma kd_ok_step L w w' dr do kd : step L Nothing w w' dr do → kd_ok w kd → kd_ok w' kd.
Proof.
  intros Hst [Hn Hr Hl Hp Hd Hs]. split; [done|done|..|done].
  - intros f Hf. apply (st_live _ _ _ _ _ _ Hst); [by apply Hl|done].
  - by apply (st_pin _ _ _ _ _ _ Hst).
  - intros d Hkd. by apply (st_dev _ _ _ _ _ _ Hst), Hd.
Qed.

Lemma table_ok_step L s w' dr do : step L Nothing (world s) w' dr do → table_ok s → table_ok (set_world w' s).
Proof.
  intros Hst [(ps & Harr & Hnd & Hkd & Hfs & Hlive)]. split. exists ps. split_and!; [done|done| |done|].
  - intros p Hp. destruct (Hkd p Hp) as (kd & Hl & Hok). exists kd. split; [done|]. by eapply kd_ok_step.
  - intros f Hf. by destruct (st_old _ _ _ _ _ _ Hst f Hf) as [[Hf' _]|]; [apply Hlive|].
Qed.

Lemma held_nonneg c q : 0 ≤ held c q.
Proof. destruct c; cbn; unfold none, one; [case_decide|]; lia. Qed.
Lemma held_self p : held (Some p) p = 1.
Proof. cbn. unfold one. by rewrite decide_True. Qed.

Lemma vfs_ok_ext L e o e' o' s :
  vfs_ok L e o s → (∀ q, e' q = e q) → (∀ q, o' q = o q) → vfs_ok L e' o' s.
Proof.
  intros [Hw Ht Hr Ho Hu Hc] He Ho'. split; try done.
  - intros q. by rewrite He, Hr.
  - intros q. by rewrite Ho', Ho.
  - intros q. by rewrite He, Ho'.
Qed.

Lemma vfs_ok_step L L' e o s w' dr do :
  vfs_ok L e o s → step L' Nothing (world s) w' dr do → (∀ q, 0 ≤ o q + do q ≤ e q + dr q) →
  vfs_ok L' (e ⊞ dr) (o ⊞ do) (set_world w' s).
Proof.
  intros [Hw Ht Hr Ho Hu Hc] Hst Hq. split; cbn.
  - apply Hst.
  - by eapply table_ok_step.
  - intros q. rewrite (st_refs _ _ _ _ _ _ Hst), Hr. unfold plus. lia.
  - intros q. by rewrite (st_opens _ _ _ _ _ _ Hst), Ho.
  - done.
  - intros p Hp. pose proof (held_nonneg (bootfs_vnode s) p). pose proof (Hr p) as Hrp.
    rewrite Hp, held_self in Hrp. specialize (Hq p). specialize (Hu p).
    apply (st_dir _ _ _ _ _ _ Hst); [by apply Hc|lia|]. rewrite (st_refs _ _ _ _ _ _ Hst). lia.
Qed.

(** A vnode that may be used. *)
Definition usable e s p : Prop :=
  1 ≤ e p ∨ t_cwd s = Some p ∨ bootfs_vnode s = Some p.

Lemma usable_refs L e o s p : vfs_ok L e o s → usable e s p → 1 ≤ vrefs (world s) p.
Proof.
  intros Hs Hp. rewrite (vo_refs _ _ _ _ Hs).
  pose proof (vo_users _ _ _ _ Hs p). pose proof (held_nonneg (t_cwd s) p). pose proof (held_nonneg (bootfs_vnode s) p).
  destruct Hp as [?|[->| ->]]; [|rewrite held_self in *..]; lia.
Qed.

Lemma usable_one e s p : 0 ≤ e p → usable (e ⊞ one p 1) s p.
Proof. left. unfold plus, one. rewrite decide_True by done. lia. Qed.

(** What a call that hands back a vnode leaves. *)
Definition got (r : res Z) : Z → Z := match r with Ok p => one p 1 | Err _ => none end.

Definition got2 {A} (r : res (A * Z)) : Z → Z := match r with Ok (_, p) => one p 1 | Err _ => none end.

Ltac counts := intros; unfold plus, held, got, got2, none, one in *; repeat case_decide; subst; lia.

(** A step that changes no count, and one that hands out a vnode. *)
Lemma step_quiet L L' e o s w' :
  vfs_ok L e o s → step L' Nothing (world s) w' none none → vfs_ok L' e o (set_world w' s) ∧ keeps s (set_world w' s).
Proof.
  intros Hs Hst. pose proof (vo_users _ _ _ _ Hs) as Hu. split; [|apply keeps_world].
  eapply vfs_ok_ext; [eapply vfs_ok_step; [done..|]|..]; [intros q; specialize (Hu q)|..]; counts.
Qed.

Lemma step_gives L e o s w' p :
  vfs_ok L e o s → step L Nothing (world s) w' (one p 1) none →
  vfs_ok L (e ⊞ one p 1) o (set_world w' s) ∧ keeps s (set_world w' s).
Proof.
  intros Hs Hst. pose proof (vo_users _ _ _ _ Hs) as Hu. split; [|apply keeps_world].
  eapply vfs_ok_ext; [eapply vfs_ok_step; [done..|]|..]; [intros q; specialize (Hu q)|..]; counts.
Qed.

Lemma quiet_run L e o s (f : W → outcome (Z * W)) :
  vfs_ok L e o s → quiet L (world s) (f (world s)) →
  vruns (callW f) s (λ _ s', vfs_ok L e o s' ∧ keeps s s').
Proof. intros Hs (c & w' & Hf & Hst). eapply vruns_call; [done|]. by eapply step_quiet. Qed.

Lemma quiet_io_run L e o s (f : W → outcome (Z * uio * W)) :
  vfs_ok L e o s → quiet_io L (world s) (f (world s)) →
  vruns (callW f) s (λ _ s', vfs_ok L e o s' ∧ keeps s s').
Proof. intros Hs (c & u & w' & Hf & Hst). eapply vruns_call; [done|]. by eapply step_quiet. Qed.

Lemma gives_run L e o s (f : W → outcome (res Z * W)) :
  vfs_ok L e o s → gives L (world s) (f (world s)) →
  vruns (callW f) s (λ r s', vfs_ok L (e ⊞ got r) o s' ∧ keeps s s').
Proof.
  intros Hs (r & w' & Hf & Hst). eapply vruns_call; [done|]. destruct r as [c|p]; cbn [got].
  - destruct (step_quiet _ _ _ _ _ _ Hs Hst) as [Hs' ?]. split; [|done]. eapply vfs_ok_ext; [done|counts..].
  - by apply step_gives.
Qed.

Lemma incref_run L e o s p :
  vfs_ok L e o s → usable e s p ∨ (∃ d, pinned (world s) p (Some d) ∧ is_device (world s) d) →
  vruns (doW (VOP_INCREF p)) s (λ _ s', vfs_ok L (e ⊞ one p 1) o s' ∧ keeps s s').
Proof.
  intros Hs Hp. destruct (incref_law (world s) L p) as (w' & Hf & Hst); [apply Hs| |].
  { destruct Hp as [Hp|Hp]; [left; by eapply usable_refs|by right]. }
  eapply vruns_do; [done|]. by apply step_gives.
Qed.

(** Giving a reference back. *)
Lemma vdecref_run L e o s p :
  vfs_ok L (e ⊞ one p 1) o s → (∀ q, 0 ≤ o q ≤ e q) →
  vruns (doW (VOP_DECREF p)) s (λ _ s', vfs_ok L e o s' ∧ keeps s s').
Proof.
  intros Hs Hu. pose proof (vo_refs _ _ _ _ Hs p) as Hr. pose proof (vo_opens _ _ _ _ Hs p) as Ho.
  pose proof (held_nonneg (t_cwd s) p). pose proof (held_nonneg (bootfs_vnode s) p). pose proof (Hu p).
  assert ((e ⊞ one p 1) p = e p + 1) as Hep by (unfold plus, one; by rewrite decide_True).
  destruct (decref_law (world s) L p) as (w' & Hf & Hst); [apply Hs|lia|lia|].
  eapply vruns_do; [done|]. split; [|apply keeps_world].
  eapply vfs_ok_ext; [eapply vfs_ok_step; [done..|]|..]; [intros q; specialize (Hu q)|..]; counts.
Qed.

(** The current directory or the boot vnode has been replaced: the
    reference it held is now the caller's, to be given back. *)
Lemma decref_old_run L e o s old :
  vfs_ok L (e ⊞ held old) o s → (∀ q, 0 ≤ o q ≤ e q) →
  vruns (decref_old old) s (λ _ s', vfs_ok L e o s' ∧ keeps s s').
Proof.
  intros Hs Hu. destruct old as [p|]; [by apply vdecref_run|].
  apply vruns_ret. split; [|done]. eapply vfs_ok_ext; [done|counts..].
Qed.

Lemma incopen_run L e o s p :
  vfs_ok L (e ⊞ one p 1) o s → (∀ q, 0 ≤ o q ≤ e q) →
  vruns (doW (VOP_INCOPEN p)) s (λ _ s', vfs_ok L (e ⊞ one p 1) (o ⊞ one p 1) s' ∧ keeps s s').
Proof.
  intros Hs Hu. destruct (incopen_law (world s) L p) as (w' & Hf & Hst); [apply Hs|..].
  { eapply usable_refs; [done|]. apply usable_one. specialize (Hu p). lia. }
  eapply vruns_do; [done|]. split; [|apply keeps_world].
  eapply vfs_ok_ext; [eapply vfs_ok_step; [done..|]|..]; [intros q; specialize (Hu q)|..]; counts.
Qed.

Lemma vdecopen_run L e o s p :
  vfs_ok L (e ⊞ one p 1) (o ⊞ one p 1) s → (∀ q, 0 ≤ o q ≤ e q) →
  vruns (doW (VOP_DECOPEN p)) s (λ _ s', vfs_ok L (e ⊞ one p 1) o s' ∧ keeps s s').
Proof.
  intros Hs Hu. pose proof (vo_opens _ _ _ _ Hs p) as Ho. pose proof (Hu p).
  assert ((o ⊞ one p 1) p = o p + 1) as Hop by (unfold plus, one; by rewrite decide_True).
  destruct (decopen_law (world s) L p) as (w' & Hf & Hst); [apply Hs| |lia|].
  { eapply usable_refs; [done|]. apply usable_one. lia. }
  eapply vruns_do; [done|]. split; [|apply keeps_world].
  eapply vfs_ok_ext; [eapply vfs_ok_step; [done..|]|..]; [intros q; specialize (Hu q)|..]; counts.
Qed.

(** ** The current directory and the boot vnode *)

Lemma set_cwd_ok L e o s c :
  vfs_ok L (e ⊞ held c) o s → (∀ p, c = Some p → vn_dir (world s) p) → (∀ q, 0 ≤ o q ≤ e q) →
  vfs_ok L (e ⊞ held (t_cwd s)) o (set_cwd c s).
Proof.
  intros [Hw Ht Hr Ho _ _] Hc Hu. split; cbn; [done|..|done].
  - destruct Ht as [Ht]. by split.
  - intros q. rewrite Hr. unfold plus. lia.
  - done.
  - intros q. pose proof (held_nonneg (t_cwd s) q). specialize (Hu q). unfold plus. lia.
Qed.

Lemma set_boot_ok L e o s c :
  vfs_ok L (e ⊞ held c) o s → (∀ q, 0 ≤ o q ≤ e q) →
  vfs_ok L (e ⊞ held (bootfs_vnode s)) o (set_boot c s).
Proof.
  intros [Hw Ht Hr Ho _ Hc] Hu. split; cbn; [done|..|done].
  - destruct Ht as [Ht]. by split.
  - intros q. rewrite Hr. unfold plus. lia.
  - done.
  - intros q. pose proof (held_nonneg (bootfs_vnode s) q). specialize (Hu q). unfold plus. lia.
Qed.

Lemma getcurdir_run L e o s :
  vfs_ok L e o s →
  vruns vfs_getcurdir s (λ r s', vfs_ok L (e ⊞ got r) o s' ∧ keeps s s' ∧
    step L Nothing (world s) (world s') (got r) none ∧
    r = match t_cwd s with Some p => Ok p | None => Err ENOENT end).
Proof.
  intros Hs. apply vruns_get. destruct (t_cwd s) as [p|] eqn:Hc.
  - destruct (incref_law (world s) L p) as (w' & Hf & Hst); [apply Hs| |].
    { left. eapply usable_refs; [done|]. right. by left. }
    destruct (step_gives _ _ _ _ _ _ Hs Hst) as [Hs' Hk].
    eapply vruns_bind, vruns_do; [done|]. by apply vruns_ret.
  - apply vruns_ret. split_and!; [|done|by apply step_refl, Hs|done]. eapply vfs_ok_ext; [done|counts..].
Qed.

(** The device table stays. *)
Definition same_table s s' : Prop := knowndevs s' = knowndevs s ∧ v_kds s' = v_kds s.
Lemma keeps_table s s' : keeps s s' → same_table s s'.
Proof. by intros (? & ? & _). Qed.

Lemma setcurdir_run L e o s dir :
  vfs_ok L (e ⊞ one dir 1) o s → (∀ q, 0 ≤ o q ≤ e q) →
  vruns (vfs_setcurdir dir) s (λ r s', vfs_ok L (e ⊞ one dir 1) o s' ∧ same_table s s' ∧
    bootfs_vnode s' = bootfs_vnode s ∧ t_cwd s' = if decide (r = 0) then Some dir else t_cwd s).
Proof.
  intros Hs Hu. assert (Hu1 : ∀ q, 0 ≤ o q ≤ (e ⊞ one dir 1) q) by apply Hs.
  unfold vfs_setcurdir.
  destruct (gettype_law (world s) L dir) as (r & w' & Hf & Hst & Hdir & Hne); [apply Hs|..].
  { eapply usable_refs; [done|]. apply usable_one. specialize (Hu dir). lia. }
  destruct (step_quiet _ _ _ _ _ _ Hs Hst) as [Hs1 Hk1].
  eapply vruns_bind, vruns_call; [done|]. destruct r as [c|t].
  { apply vruns_ret. split_and!; [done..|]. rewrite decide_False; [done|]. intros ->. done. }
  destruct (S_ISDIR t) eqn:Ht; cbn [negb]; [|by apply vruns_ret].
  assert (Hd1 : 1 ≤ vrefs w' dir).
  { eapply (usable_refs _ _ _ (set_world w' s)); [done|]. apply usable_one. specialize (Hu dir). lia. }
  destruct (incref_law w' L dir) as (w2 & Hf2 & Hst2); [apply Hs1|by left|].
  destruct (step_gives _ _ _ _ _ _ Hs1 Hst2) as [Hs2 _].
  eapply vruns_bind, vruns_do; [done|]. apply vruns_get, vruns_mod.
  eapply vruns_seq; [apply (decref_old_run L (e ⊞ one dir 1) o); [|done]|].
  { apply set_cwd_ok; [done| |done]. intros p [= <-]. apply (st_dir _ _ _ _ _ _ Hst2); [by eapply Hdir|done|].
    rewrite (st_refs _ _ _ _ _ _ Hst2). unfold one. rewrite decide_True; lia. }
  intros [] s4 (Hs4 & Ha & Hb & Hc & Hd). apply vruns_ret. by split_and!.
Qed.

Lemma clearcurdir_run L e o s :
  vfs_ok L e o s →
  vruns vfs_clearcurdir s (λ r s', vfs_ok L e o s' ∧ same_table s s' ∧
    bootfs_vnode s' = bootfs_vnode s ∧ t_cwd s' = None ∧ r = 0).
Proof.
  intros Hs. apply vruns_get, vruns_mod. pose proof (vo_users _ _ _ _ Hs) as Hu.
  eapply vruns_seq; [apply (decref_old_run L e o); [|done]|].
  { apply set_cwd_ok; [|done..]. eapply vfs_ok_ext; [done|counts..]. }
  intros [] s4 (Hs4 & Ha & Hb & Hc & Hd). apply vruns_ret. by split_and!.
Qed.

Lemma change_bootfs_run L e o s c :
  vfs_ok L (e ⊞ held c) o s → (∀ q, 0 ≤ o q ≤ e q) →
  vruns (change_bootfs c) s (λ _ s', vfs_ok L e o s' ∧ same_table s s' ∧
    bootfs_vnode s' = c ∧ t_cwd s' = t_cwd s).
Proof.
  intros Hs Hu. apply vruns_get, vruns_mod.
  eapply vruns_mono; [apply (decref_old_run L e o); [by apply set_boot_ok|done]|].
  intros [] s4 (Hs4 & Ha & Hb & Hc & Hd). by split_and!.
Qed.

(** ** The device table *)

Definition entry s (i : Z) (p : Z) kd : Prop :=
  array_getguy (knowndevs s) i = Done p ∧ v_kds s !! p = Some kd ∧ kd_ok (world s) kd.

Lemma table_entry s i : table_ok s → 0 ≤ i < array_getnum (knowndevs s) → ∃ p kd, entry s i p kd.
Proof.
  intros [(ps & Harr & _ & Hkd & _)] Hi. unfold array_getnum in Hi. rewrite (ar_num _ _ Harr), length_fmap in Hi.
  destruct (lookup_lt_is_Some_2 ps (Z.to_nat i)) as [p Hp]; [lia|].
  destruct (Hkd p) as (kd & Hl & Hok); [by eapply list_elem_of_lookup_2|].
  exists p, kd. split; [|done]. rewrite <- (Z2Nat.id i) by lia. eapply array_getguy_spec; [done|].
  by rewrite list_lookup_fmap, Hp.
Qed.

Lemma getkd_run {B} s i p kd (f : Z * knowndev → V W B) Q :
  entry s i p kd → vruns (f (p, kd)) s Q → vruns (getkd i ≫= f) s Q.
Proof.
  intros (Ha & Hl & _) Hf. apply vruns_bind. exists (p, kd), s. split; [|done].
  unfold getkd, getV, liftV, derefV, mbind, V_bind, outcome_bind. cbn. rewrite Ha. cbn. by rewrite Hl.
Qed.

Lemma numdevs_run {B} s (f : nat → V W B) Q :
  vruns (f (Z.to_nat (array_getnum (knowndevs s)))) s Q → vruns (numdevs ≫= f) s Q.
Proof. intros. apply vruns_bind. by eexists _, s. Qed.

Lemma same_run {B} a b x y s (f : bool → V W B) Q :
  cstr a x → cstr b y → vruns (f (bool_decide (x = y))) s Q → vruns (same a b ≫= f) s Q.
Proof.
  intros Ha Hb Hf. apply vruns_bind. exists (bool_decide (x = y)), s. split; [|done].
  unfold same, liftV, mbind, V_bind. cbn. rewrite (strcmp_spec _ _ _ _ Ha Hb). cbn [mbind outcome_bind].
  change (Done (lex x y =? 0, s) = Done (bool_decide (x = y), s)). do 2 f_equal.
  pose proof (lex_0 x y). case_bool_decide; [apply Z.eqb_eq|apply Z.eqb_neq]; naive_solver.
Qed.

(** A string that may be NULL. *)
Definition ostr (b x : option (list Z)) : Prop :=
  match b, x with Some b, Some x => cstr b x | None, None => True | _, _ => False end.
Definition osame (x y : option (list Z)) : bool :=
  match x, y with Some x, Some y => bool_decide (x = y) | _, _ => false end.

Lemma samestring_run {B} a b x y s (f : bool → V W B) Q :
  ostr a x → ostr b y → vruns (f (osame x y)) s Q → vruns (samestring a b ≫= f) s Q.
Proof.
  intros Ha Hb Hf. destruct a as [a|], x as [x|], b as [b|], y as [y|]; try done; cbn [ostr osame samestring] in *.
  all: first [by eapply same_run | by apply vruns_bind, vruns_ret].
Qed.

Definition osame3 (x a b c : option (list Z)) : bool := osame x a || osame x b || osame x c.

Lemma samestring3_run {B} a b c d x y z t s (f : bool → V W B) Q :
  ostr a x → ostr b y → ostr c z → ostr d t →
  vruns (f (osame3 x y z t)) s Q → vruns (samestring3 a b c d ≫= f) s Q.
Proof.
  intros Ha Hb Hc Hd Hf. unfold osame3 in Hf. apply vruns_bind. unfold samestring3.
  eapply samestring_run; [done..|]. destruct (osame x y); [by apply vruns_ret|]. cbn in Hf.
  eapply samestring_run; [done..|]. destruct (osame x z); [by apply vruns_ret|]. cbn in Hf.
  assert (vruns (samestring a d ≫= f) s Q) as (v & s1 & Hv & HQ) by by eapply samestring_run.
  unfold mbind, V_bind in Hv. destruct (samestring a d s) as [[v1 s2]| | |] eqn:E; [|done..].
  by exists v1, s2; split; [|by exists v, s1].
Qed.

(** The names of an entry: of the device, of the raw device and of the
    volume. *)
Record kd_names (w : W) kd (name : list Z) (raw vol : option (list Z)) : Prop := {
  kn_name : cstr (kd_name kd).2 name;
  kn_raw : ostr (snd <$> kd_rawname kd) raw;
  kn_vol : match kd_fs kd with
           | Some f => ∃ b, FSOP_GETVOLNAME f w = Done b ∧ ostr b vol
           | None => vol = None
           end;
}.

Lemma kd_has_names w L kd : wok w L → kd_ok w kd → ∃ name raw vol, kd_names w kd name raw vol.
Proof.
  intros Hw [[name Hn] Hr Hl _ _ _]. exists name.
  assert (∃ raw, ostr (snd <$> kd_rawname kd) raw) as [raw Hraw].
  { destruct (kd_rawname kd) as [r|]; [|by exists None]. destruct (Hr r eq_refl) as [x Hx]. by exists (Some x). }
  exists raw. destruct (kd_fs kd) as [f|] eqn:Hf.
  - destruct (volname_law w L f Hw (Hl f eq_refl)) as (b & Hb & Hs).
    assert (∃ vol, ostr b vol) as [vol Hvol].
    { destruct b as [b|]; [|by exists None]. destruct (Hs b eq_refl) as [x Hx]. by exists (Some x). }
    exists vol. split; [done..|]. rewrite Hf. by exists b.
  - exists None. split; [done..|]. by rewrite Hf.
Qed.

Lemma volname_run {B} s kd name raw vol (f : option (list Z) → V W B) Q :
  kd_names (world s) kd name raw vol → (∀ b, ostr b vol → vruns (f b) s Q) → vruns (volname_of (kd_fs kd) ≫= f) s Q.
Proof.
  intros [_ _ Hv] Hf. unfold volname_of. destruct (kd_fs kd) as [g|].
  - destruct Hv as (b & Hb & Hs). eapply vruns_ask; [done|]. by apply Hf.
  - subst vol. apply vruns_bind, vruns_ret. by apply Hf.
Qed.

(** What naming [dev] means to an entry: the root of the file system on
    it, the device itself, or that nothing is mounted. *)
Inductive answer := Root (f : Z) | Itself (p : Z) | Unmounted.

Definition entry_answer kd (name : list Z) (raw vol : option (list Z)) (dev : list Z) : option answer :=
  match kd_fs kd with
  | Some f =>
      if bool_decide (name = dev) || osame vol (Some dev) then Some (Root f)
      else if osame raw (Some dev) then Some (Itself (kd_vnode kd)) else None
  | None =>
      if bool_decide (name = dev) then
        Some (match kd_rawname kd with Some _ => Unmounted | None => Itself (kd_vnode kd) end)
      else if osame raw (Some dev) then Some (Itself (kd_vnode kd)) else None
  end.

Definition answered (s s' : vfs W) (a : answer) (r : res Z) : Prop :=
  match a with
  | Root f => ∃ p, r = Ok p ∧ FSOP_GETROOT f (world s) = Done (p, world s')
  | Itself p => r = Ok p
  | Unmounted => r = Err ENXIO
  end.

Lemma take_vnode_run L e o s kd :
  vfs_ok L e o s → kd_ok (world s) kd → kd_fs kd = None ∨ is_Some (kd_rawname kd) →
  vruns (take_vnode kd) s (λ r s', r = Some (Ok (kd_vnode kd)) ∧ vfs_ok L (e ⊞ one (kd_vnode kd) 1) o s' ∧ keeps s s').
Proof.
  intros Hs [_ _ _ Hp Hd Hsome] Hw. destruct (Hsome Hw) as [d Hdev].
  apply vruns_assert; [by rewrite bool_decide_eq_true_2 by (by rewrite Hdev)|].
  eapply vruns_seq; [apply (incref_run L e o s _ Hs); right; exists d; rewrite <- Hdev; auto|].
  intros [] s' [Hs' Hk]. by apply vruns_ret.
Qed.

Lemma getroot_entry_run L e o s kd name raw vol devname dev :
  vfs_ok L e o s → kd_ok (world s) kd → kd_names (world s) kd name raw vol → cstr devname dev →
  vruns (getroot_entry kd devname) s (λ r s',
    match entry_answer kd name raw vol dev with
    | None => r = None ∧ s' = s
    | Some a => ∃ r', r = Some r' ∧ answered s s' a r' ∧ vfs_ok L (e ⊞ got r') o s' ∧ keeps s s'
    end).
Proof.
  intros Hs Hkd Hn Hdev. pose proof Hn as [Hname Hraw Hvol]. unfold getroot_entry, entry_answer.
  eapply same_run; [done..|]. pose proof (kd_live _ _ Hkd) as Hlive.
  destruct (kd_fs kd) as [f|] eqn:Hf.
  - destruct Hvol as (b & Hb & Hbv). apply vruns_bind. eapply vruns_ask; [done|].
    eapply samestring_run; [done|by instantiate (1 := Some dev)|].
    destruct (bool_decide (name = dev) || osame vol (Some dev)) eqn:E.
    + destruct (getroot_law (world s) L f) as (p & w' & Hr & Hst); [apply Hs|by apply Hlive|].
      destruct (step_gives _ _ _ _ _ _ Hs Hst) as [Hs' Hk].
      eapply vruns_bind, vruns_call; [done|]. apply vruns_ret, vruns_ret. exists (Ok p).
      split_and!; [done| |done..]. by exists p.
    + apply orb_false_iff in E as [-> _]. apply vruns_ret.
      eapply samestring_run; [done|by instantiate (1 := Some dev)|].
      destruct (osame raw (Some dev)) eqn:Er; [|by apply vruns_ret].
      eapply vruns_mono; [apply (take_vnode_run _ _ _ _ _ Hs Hkd); right|].
      { destruct (kd_rawname kd); [done|]. by destruct raw. }
      intros r s' (-> & Hs' & Hk). by exists (Ok (kd_vnode kd)).
  - apply vruns_bind, vruns_ret. destruct (bool_decide (name = dev)) eqn:E.
    + destruct (kd_rawname kd) eqn:Hrn; cbn.
      * apply vruns_ret. exists (Err ENXIO). split_and!; [done|done| |done]. eapply vfs_ok_ext; [done|counts..].
      * apply vruns_assert; [done|]. apply vruns_assert; [done|].
        eapply vruns_mono; [apply (take_vnode_run _ _ _ _ _ Hs Hkd); by left|].
        intros r s' (-> & Hs' & Hk). by exists (Ok (kd_vnode kd)).
    + rewrite andb_false_r. eapply samestring_run; [done|by instantiate (1 := Some dev)|].
      destruct (osame raw (Some dev)) eqn:Er; [|by apply vruns_ret].
      eapply vruns_mono; [apply (take_vnode_run _ _ _ _ _ Hs Hkd); by left|].
      intros r s' (-> & Hs' & Hk). by exists (Ok (kd_vnode kd)).
Qed.

Definition entry_says s (i : Z) (dev : list Z) (a : option answer) : Prop :=
  ∃ p kd name raw vol, entry s i p kd ∧ kd_names (world s) kd name raw vol ∧ entry_answer kd name raw vol dev = a.

(** The first entry that knows the name answers. *)
Definition table_says s (dev : list Z) (a : answer) : Prop :=
  ∃ i, 0 ≤ i < array_getnum (knowndevs s) ∧ entry_says s i dev (Some a) ∧ ∀ j, 0 ≤ j < i → entry_says s j dev None.

Definition named s s' (dev : list Z) (r : res Z) : Prop :=
  (∃ a, table_says s dev a ∧ answered s s' a r) ∨
  r = Err ENODEV ∧ ∀ j, 0 ≤ j < array_getnum (knowndevs s) → entry_says s j dev None.

Lemma getroot_from_run L e o s devname dev n i :
  vfs_ok L e o s → cstr devname dev → 0 ≤ i → i + Z.of_nat n = array_getnum (knowndevs s) →
  (∀ j, 0 ≤ j < i → entry_says s j dev None) →
  vruns (getroot_from n i devname) s (λ r s', vfs_ok L (e ⊞ got r) o s' ∧ keeps s s' ∧ named s s' dev r).
Proof.
  intros Hs Hdev. revert i. induction n as [|n IH]; intros i Hi Hn Hbefore.
  { apply vruns_ret. split_and!; [eapply vfs_ok_ext; [done|counts..]|done|]. right. split; [done|].
    intros j Hj. apply Hbefore. lia. }
  cbn [getroot_from]. destruct (table_entry s i) as (p & kd & Hen); [apply Hs|lia|].
  destruct (kd_has_names (world s) L kd) as (name & raw & vol & Hnm); [apply Hs|apply Hen|].
  eapply getkd_run; [done|].
  eapply vruns_seq; [by eapply (getroot_entry_run L e o); [| |done|done]; [|apply Hen]|].
  intros r s'. destruct (entry_answer kd name raw vol dev) as [a|] eqn:Ea.
  - intros (r' & -> & Hans & Hs' & Hk). apply vruns_ret. split_and!; [done..|]. left. exists a. split; [|done].
    exists i. split_and!; [lia|lia| |done]. by exists p, kd, name, raw, vol.
  - intros [-> ->]. apply IH; [lia..|]. intros j Hj. destruct (decide (j = i)) as [->|].
    + by exists p, kd, name, raw, vol.
    + apply Hbefore. lia.
Qed.

Lemma getroot_run L e o s devname dev :
  vfs_ok L e o s → cstr devname dev →
  vruns (vfs_getroot devname) s (λ r s', vfs_ok L (e ⊞ got r) o s' ∧ keeps s s' ∧ named s s' dev r).
Proof.
  intros Hs Hdev. apply numdevs_run.
  destruct (vo_table _ _ _ _ Hs) as [(ps & Harr & _)]. pose proof (ar_num _ _ Harr) as Hnum.
  apply getroot_from_run; [done..| |lia]. unfold array_getnum. lia.
Qed.

(** ** Path names *)

(** The characters before the first colon or slash, and the rest. *)
Fixpoint span (x : list Z) : list Z * list Z :=
  match x with
  | [] => ([], [])
  | c :: y => if (c =? 58) || (c =? 47) then ([], x) else let '(a, b) := span y in (c :: a, b)
  end.
Fixpoint unslash (x : list Z) : list Z :=
  match x with c :: y => if c =? 47 then unslash y else x | [] => [] end.

(** Where a path starts, and what is left to look up: [name], [/name],
    [:name] and [device:name]. *)
Inductive place := Relative (sub : list Z) | From_boot (sub : list Z) | From_root (sub : list Z) | On_device (dev sub : list Z).

Definition place_of (x : list Z) : place :=
  match span x with
  | ([], 58 :: r) => From_root (unslash r)
  | ([], 47 :: r) => From_boot (unslash r)
  | (a, 58 :: r) => On_device a (unslash r)
  | _ => Relative x
  end.

Lemma span_app x a b : span x = (a, b) → x = a ++ b.
Proof.
  revert a b. induction x as [|c x IH]; intros a b; cbn; [by intros [= <- <-]|].
  destruct ((c =? 58) || (c =? 47)); [by intros [= <- <-]|].
  destruct (span x) as [a' b'] eqn:E. intros [= <- <-]. by rewrite (IH a' b').
Qed.

Lemma span_head x a c b : span x = (a, c :: b) → c = 58 ∨ c = 47.
Proof.
  revert a. induction x as [|d x IH]; intros a; cbn; [done|].
  destruct ((d =? 58) || (d =? 47)) eqn:E; [intros [= <- <- <-]; lia|].
  destruct (span x) as [a' b'] eqn:Hs. intros [= <- ->]. by apply (IH a').
Qed.

Definition sep_of (i : Z) (x : list Z) : sep :=
  match span x with
  | (a, 58 :: _) => Colon (i + Z.of_nat (length a))
  | (a, 47 :: _) => Slash (i + Z.of_nat (length a))
  | _ => NoSep
  end.

Lemma find_sep_run path x i : cstr path x → find_sep path i = Done (sep_of i x).
Proof.
  revert path i. induction x as [|c x IH]; intros path i Hx; unfold sep_of.
  { apply cstr_nil_inv in Hx as [r ->]. done. }
  apply cstr_cons_inv in Hx as (r & -> & Hc & Hx). cbn [find_sep span].
  rewrite (proj2 (Z.eqb_neq c 0)) by done.
  destruct (Z.eqb_spec c 58) as [->|]; cbn [orb]; [by rewrite Z.add_0_r|].
  destruct (Z.eqb_spec c 47) as [->|]; cbn [orb]; [by rewrite Z.add_0_r|].
  rewrite (IH r (i + 1) Hx). unfold sep_of. destruct (span x) as [a b]. cbn [length].
  replace (i + 1 + Z.of_nat (length a)) with (i + Z.of_nat (S (length a))) by lia. done.
Qed.

Lemma skip_slashes_run path x : cstr path x → ∃ sub, skip_slashes path = Done sub ∧ cstr sub (unslash x).
Proof.
  revert path. induction x as [|c x IH]; intros path Hx.
  { pose proof Hx as Hx'. apply cstr_nil_inv in Hx' as [r ->]. by exists (0 :: r). }
  pose proof Hx as Hx'. apply cstr_cons_inv in Hx' as (r & -> & Hc & Hr). cbn [skip_slashes unslash].
  destruct (c =? 47); [by apply IH|]. by eexists.
Qed.

Lemma cstr_drop path a x : cstr path (a ++ x) → cstr (drop (length a) path) x.
Proof.
  intros (rest & -> & Ha). exists rest. rewrite <- app_assoc, drop_app_length. split; [done|set_solver].
Qed.

(** The colon has been overwritten with a null. *)
Lemma cstr_patch path a x :
  cstr path (a ++ x) → x ≠ [] → ∃ d, patch path (Z.of_nat (length a)) [0] = Done d ∧ cstr d a.
Proof.
  intros (rest & -> & Ha) Hx. destruct x as [|c x]; [done|].
  eexists. split; [apply patch_run; rewrite ?length_app; cbn; lia|].
  rewrite Nat2Z.id. unfold splice. rewrite <- app_assoc, take_app_length.
  eexists. split; [done|set_solver].
Qed.

(** A start that is the vnode [c], or ENOENT. *)
Definition starts (c : option Z) (y : list Z) (r : res (list Z * Z)) : Prop :=
  match c with Some p => ∃ sub, r = Ok (sub, p) ∧ cstr sub y | None => r = Err ENOENT end.

(** What [getdevice] makes of the path with the characters [x]. *)
Definition located (s s' : vfs W) (x : list Z) (r : res (list Z * Z)) : Prop :=
  match place_of x with
  | Relative y => starts (t_cwd s) y r
  | From_boot y => starts (bootfs_vnode s) y r
  | From_root y =>
      match t_cwd s with
      | None => r = Err ENOENT
      | Some c => ∃ f p w w', vn_fs c (world s) = Done (Some f) ∧ FSOP_GETROOT f w = Done (p, w') ∧ starts (Some p) y r
      end
  | On_device dev y =>
      ∃ r0, named s s' dev r0 ∧ match r0 with Err c => r = Err c | Ok p => starts (Some p) y r end
  end.

Lemma relative_run L e o s path x :
  vfs_ok L e o s → cstr path x →
  vruns (r ← vfs_getcurdir; match r with Err c => mret (Err c) | Ok p => mret (Ok (path, p)) end) s
    (λ r s', vfs_ok L (e ⊞ got2 r) o s' ∧ keeps s s' ∧ starts (t_cwd s) x r).
Proof.
  intros Hs Hx. eapply vruns_seq; [by apply getcurdir_run|]. intros r s' (Hs' & Hk & _ & ->).
  destruct (t_cwd s) as [p|]; apply vruns_ret; split_and!; try done. by exists path.
Qed.

Lemma from_boot_run L e o s path x :
  vfs_ok L e o s → cstr path (47 :: x) →
  vruns (boot ← getV bootfs_vnode;
         match boot with
         | None => mret (Err ENOENT)
         | Some p => doW (VOP_INCREF p);; sub ← liftV (skip_slashes (drop 1 path)); mret (Ok (sub, p))
         end) s
    (λ r s', vfs_ok L (e ⊞ got2 r) o s' ∧ keeps s s' ∧ starts (bootfs_vnode s) (unslash x) r).
Proof.
  intros Hs Hx. apply (cstr_drop _ [47]) in Hx. destruct (skip_slashes_run _ _ Hx) as (sub & Hsub & Hy).
  apply vruns_get. destruct (bootfs_vnode s) as [p|] eqn:Hb.
  - eapply vruns_seq; [apply (incref_run L e o s p Hs); left; right; by right|].
    intros [] s' [Hs' Hk]. eapply vruns_lift; [done|]. apply vruns_ret. split_and!; [done..|]. by exists sub.
  - apply vruns_ret. split_and!; [|done..]. eapply vfs_ok_ext; [done|counts..].
Qed.

Lemma from_root_run L e o s path x :
  vfs_ok L e o s → cstr path (58 :: x) →
  vruns (r ← vfs_getcurdir;
         match r with
         | Err c => mret (Err c)
         | Ok vn =>
             fs ← askW (vn_fs vn);
             assertV (bool_decide (is_Some fs));;
             f ← derefV fs;
             startvn ← callW (FSOP_GETROOT f);
             doW (VOP_DECREF vn);;
             sub ← liftV (skip_slashes (drop 1 path));
             mret (Ok (sub, startvn))
         end) s
    (λ r s', vfs_ok L (e ⊞ got2 r) o s' ∧ keeps s s' ∧
       match t_cwd s with
       | None => r = Err ENOENT
       | Some c => ∃ f p w w', vn_fs c (world s) = Done (Some f) ∧ FSOP_GETROOT f w = Done (p, w') ∧
           starts (Some p) (unslash x) r
       end).
Proof.
  intros Hs Hx. apply (cstr_drop _ [58]) in Hx. destruct (skip_slashes_run _ _ Hx) as (sub & Hsub & Hy).
  pose proof (vo_users _ _ _ _ Hs) as Hu.
  eapply vruns_seq; [by apply getcurdir_run|]. intros r s1 (Hs1 & Hk1 & Hst1 & ->).
  destruct (t_cwd s) as [c|] eqn:Hc; [|apply vruns_ret; split_and!; done].
  assert (Hc0 : 1 ≤ vrefs (world s) c) by (eapply usable_refs; [done|right; by left]).
  assert (Hc1 : 1 ≤ vrefs (world s1) c).
  { eapply usable_refs; [done|]. apply usable_one. specialize (Hu c). lia. }
  destruct (vn_fs_law (world s1) L c) as (fo & Hfo & Hlive & Hdir); [apply Hs1|done|].
  destruct Hdir as [f ->]; [apply (vo_cwd _ _ _ _ Hs1); destruct Hk1 as (?&?&?&?); congruence|].
  eapply vruns_ask; [done|]. apply vruns_assert; [done|]. apply vruns_bind, vruns_ret.
  destruct (getroot_law (world s1) L f) as (p & w2 & Hr & Hst2); [apply Hs1|by apply Hlive|].
  destruct (step_gives _ _ _ _ _ _ Hs1 Hst2) as [Hs2 Hk2].
  eapply vruns_bind, vruns_call; [done|].
  eapply vruns_seq; [apply (vdecref_run L (e ⊞ one p 1) o)|].
  { eapply vfs_ok_ext; [done|counts..]. }
  { intros q. specialize (Hu q). counts. }
  intros [] s3 [Hs3 Hk3]. eapply vruns_lift; [done|]. apply vruns_ret.
  split_and!; [done|by eapply keeps_trans, keeps_trans|].
  exists f, p, (world s1), w2. split_and!; [|done|by exists sub].
  rewrite <- Hfo. symmetry. by apply (st_fs _ _ _ _ _ _ Hst1).
Qed.

Lemma on_device_run L e o s path a x :
  vfs_ok L e o s → cstr path (a ++ 58 :: x) →
  vruns (devname ← liftV (patch path (Z.of_nat (length a)) [0]);
         sub ← liftV (skip_slashes (drop (Z.to_nat (Z.of_nat (length a) + 1)) path));
         r ← vfs_getroot devname;
         match r with Err c => mret (Err c) | Ok startvn => mret (Ok (sub, startvn)) end) s
    (λ r s', vfs_ok L (e ⊞ got2 r) o s' ∧ keeps s s' ∧
       ∃ r0, named s s' a r0 ∧ match r0 with Err c => r = Err c | Ok p => starts (Some p) (unslash x) r end).
Proof.
  intros Hs Hx. destruct (cstr_patch _ _ _ Hx) as (d & Hd & Hda); [done|].
  assert (Hx' : cstr (drop (Z.to_nat (Z.of_nat (length a) + 1)) path) x).
  { replace (Z.to_nat (Z.of_nat (length a) + 1)) with (length (a ++ [58])) by (rewrite length_app; cbn; lia).
    apply cstr_drop. by rewrite <- app_assoc. }
  destruct (skip_slashes_run _ _ Hx') as (sub & Hsub & Hy).
  eapply vruns_lift; [done|]. eapply vruns_lift; [done|].
  eapply vruns_seq; [by apply getroot_run|]. intros r s' (Hs' & Hk & Hn).
  destruct r as [c|p]; apply vruns_ret; split_and!; try done; [by exists (Err c)|].
  exists (Ok p). split; [done|]. by exists sub.
Qed.

Lemma getdevice_run L e o s path x :
  vfs_ok L e o s → cstr path x →
  vruns (getdevice path) s (λ r s', vfs_ok L (e ⊞ got2 r) o s' ∧ keeps s s' ∧ located s s' x r).
Proof.
  intros Hs Hx. unfold getdevice, located. eapply vruns_lift; [by apply find_sep_run|].
  unfold sep_of, place_of. destruct (span x) as [a b] eqn:Hsp0. pose proof (span_app _ _ _ Hsp0) as Hsp. pose proof Hx as Hx0. rewrite Hsp in Hx.
  rewrite Z.add_0_l.
  destruct b as [|c b]; [destruct a; by apply relative_run|].
  destruct (decide (c = 58)) as [->|].
  { destruct a as [|a0 a]; [by apply from_root_run|]. cbn [length]. by apply (on_device_run L e o s path (a0 :: a)). }
  destruct (decide (c = 47)) as [->|].
  { destruct a as [|a0 a]; [by apply from_boot_run|]. by apply relative_run. }
  by destruct (span_head _ _ _ _ Hsp0).
Qed.

(** The start of a lookup is held by the lookup alone, and given back. *)
Lemma start_refs L e o s p : vfs_ok L (e ⊞ one p 1) o s → (∀ q, 0 ≤ o q ≤ e q) → 1 ≤ vrefs (world s) p.
Proof. intros Hs Hu. eapply usable_refs; [done|]. apply usable_one. specialize (Hu p). lia. Qed.

Lemma users_more e o p : (∀ q, 0 ≤ o q ≤ e q) → ∀ q, 0 ≤ o q ≤ (e ⊞ one p 1) q.
Proof. intros Hu q. specialize (Hu q). counts. Qed.
Hint Resolve users_more : core.

Lemma plus_swap L e o s p d : vfs_ok L (e ⊞ one p 1 ⊞ d) o s → vfs_ok L (e ⊞ d ⊞ one p 1) o s.
Proof. intros. eapply vfs_ok_ext; [done|counts..]. Qed.

Lemma users_got e o r : (∀ q, 0 ≤ o q ≤ e q) → ∀ q, 0 ≤ o q ≤ (e ⊞ got r) q.
Proof. intros Hu q. specialize (Hu q). destruct r; counts. Qed.
Hint Resolve users_got : core.

Lemma located_str s s' x sub p : located s s' x (Ok (sub, p)) → is_str sub.
Proof.
  assert (∀ c y, starts c y (Ok (sub, p)) → is_str sub) as Hst.
  { intros [c|] y; cbn; [|done]. intros (b & [= <- <-] & Hb). by exists y. }
  unfold located. destruct (place_of x); [apply Hst|apply Hst|..].
  - destruct (t_cwd s); [|done]. intros (f & q & w & w' & _ & _ & Hs). by eapply Hst.
  - intros (r0 & _ & Hr). destruct r0; [done|]. by eapply Hst.
Qed.

Lemma vlookup_run L e o s path :
  vfs_ok L e o s → is_str path →
  vruns (vfs_lookup path) s (λ r s', vfs_ok L (e ⊞ got r) o s' ∧ keeps s s').
Proof.
  intros Hs [x Hx]. pose proof (vo_users _ _ _ _ Hs) as Hu.
  eapply vruns_seq; [by apply getdevice_run|]. intros r s1 (Hs1 & Hk1 & Hloc).
  destruct r as [c|[sub p]]; [by apply vruns_ret|]. cbn [got2] in Hs1.
  destruct (located_str _ _ _ _ _ Hloc) as [y Hy].
  eapply vruns_lift; [by apply strlen_spec|]. destruct (_ =? 0); [by apply vruns_ret|].
  eapply vruns_seq; [eapply gives_run; [done|]; eapply lookup_law; [apply Hs1|by eapply start_refs|by exists y]|].
  intros r s2 [Hs2 Hk2]. apply plus_swap in Hs2.
  eapply vruns_seq; [by apply (vdecref_run L (e ⊞ got r) o); auto|].
  intros [] s3 [Hs3 Hk3]. apply vruns_ret. split; [done|]. by eapply keeps_trans, keeps_trans.
Qed.

(** The directory a path name is in, and the name there. *)
Definition parent_ok L e o (r : res (Z * list Z)) s' : Prop :=
  match r with Ok (p, name) => vfs_ok L (e ⊞ one p 1) o s' ∧ is_str name | Err _ => vfs_ok L e o s' end.

Lemma lookparent_run L e o s path :
  vfs_ok L e o s → is_str path →
  vruns (lookparent_name path) s (λ r s', parent_ok L e o r s' ∧ keeps s s').
Proof.
  intros Hs [x Hx]. pose proof (vo_users _ _ _ _ Hs) as Hu.
  eapply vruns_seq; [by apply getdevice_run|]. intros r s1 (Hs1 & Hk1 & Hloc).
  destruct r as [c|[sub p]]; cbn [got2] in Hs1.
  { apply vruns_ret. split; [|done]. eapply vfs_ok_ext; [done|counts..]. }
  destruct (located_str _ _ _ _ _ Hloc) as [y Hy].
  eapply vruns_lift; [by apply strlen_spec|]. destruct (_ =? 0).
  { apply vruns_bind, vruns_ret. eapply vruns_seq; [by apply (vdecref_run L e o)|].
    intros [] s3 [Hs3 Hk3]. apply vruns_ret. split; [done|]. by eapply keeps_trans. }
  destruct (lookparent_law (world s1) L p sub name_buffer (NAME_MAX + 1)) as (r & w' & Hr & Hst);
    [apply Hs1|by eapply start_refs|by exists y|done|].
  eapply vruns_bind, vruns_call; [done|]. destruct r as [c|[q name]].
  - destruct (step_quiet _ _ _ _ _ _ Hs1 Hst) as [Hs2 Hk2].
    eapply vruns_seq; [by apply (vdecref_run L e o)|]. intros [] s3 [Hs3 Hk3]. apply vruns_ret.
    split; [done|]. by eapply keeps_trans, keeps_trans.
  - destruct Hst as [Hst Hname]. destruct (step_gives _ _ _ _ _ _ Hs1 Hst) as [Hs2 Hk2]. apply plus_swap in Hs2.
    eapply vruns_seq; [by apply (vdecref_run L (e ⊞ one q 1) o); auto|]. intros [] s3 [Hs3 Hk3]. apply vruns_ret.
    split; [done|]. by eapply keeps_trans, keeps_trans.
Qed.

(** ** Operations on path names *)

Lemma in_parent_run L e o s path op :
  vfs_ok L e o s → is_str path →
  (∀ w p name, wok w L → 1 ≤ vrefs w p → is_str name → quiet L w (op p name w)) →
  vruns (in_parent path op) s (λ _ s', vfs_ok L e o s' ∧ keeps s s').
Proof.
  intros Hs Hp Hop. pose proof (vo_users _ _ _ _ Hs) as Hu.
  eapply vruns_seq; [by apply lookparent_run|]. intros r s1 [Hr Hk1].
  destruct r as [c|[p name]]; [by apply vruns_ret|]. destruct Hr as [Hs1 Hname].
  eapply vruns_seq; [eapply quiet_run; [done|]; apply Hop; [apply Hs1|by eapply start_refs|done]|].
  intros r s2 [Hs2 Hk2]. eapply vruns_seq; [by apply (vdecref_run L e o)|].
  intros [] s3 [Hs3 Hk3]. apply vruns_ret. split; [done|]. by eapply keeps_trans, keeps_trans.
Qed.

Lemma same_fs_run {B} L e o s a b (f : bool → V W B) Q :
  vfs_ok L e o s → 1 ≤ vrefs (world s) a → 1 ≤ vrefs (world s) b →
  ((∃ g, vn_fs a (world s) = Done (Some g) ∧ vn_fs b (world s) = Done (Some g)) → vruns (f true) s Q) →
  vruns (f false) s Q → vruns (same_fs a b ≫= f) s Q.
Proof.
  intros Hs Ha Hb Hyes Hno. apply vruns_bind. unfold same_fs.
  destruct (vn_fs_law (world s) L a) as (fa & Hfa & _); [apply Hs|done|].
  destruct (vn_fs_law (world s) L b) as (fb & Hfb & _); [apply Hs|done|].
  eapply vruns_ask; [done|]. eapply vruns_ask; [done|]. apply vruns_ret.
  destruct fa as [g|], fb as [h|]; cbn; try done. case_bool_decide; [|done]. apply Hyes. exists g. split; congruence.
Qed.

(** Give two references back, the last taken first. *)
Lemma decref2_run {B} L e o s p q (f : unit → V W B) Q :
  vfs_ok L (e ⊞ one p 1 ⊞ one q 1) o s → (∀ q, 0 ≤ o q ≤ e q) →
  (∀ s', vfs_ok L e o s' → keeps s s' → vruns (f tt) s' Q) →
  vruns (doW (VOP_DECREF q);; doW (VOP_DECREF p) ≫= f) s Q.
Proof.
  intros Hs Hu Hf. eapply vruns_seq; [by apply (vdecref_run L (e ⊞ one p 1) o); auto|].
  intros [] s1 [Hs1 Hk1]. eapply vruns_seq; [by apply (vdecref_run L e o)|].
  intros [] s2 [Hs2 Hk2]. apply Hf; [done|by eapply keeps_trans].
Qed.

(** An operation on two vnodes of one file system. *)
Lemma on_both_run L e o s p q (op : W → outcome (Z * W)) :
  vfs_ok L (e ⊞ one p 1 ⊞ one q 1) o s → (∀ q, 0 ≤ o q ≤ e q) →
  (∀ g, 1 ≤ vrefs (world s) p → 1 ≤ vrefs (world s) q →
     vn_fs p (world s) = Done (Some g) → vn_fs q (world s) = Done (Some g) → quiet L (world s) (op (world s))) →
  vruns (ok ← same_fs p q;
         result ← (if (ok : bool) then callW op else mret EXDEV);
         doW (VOP_DECREF q);;
         doW (VOP_DECREF p);;
         mret result) s (λ _ s', vfs_ok L e o s' ∧ keeps s s').
Proof.
  intros Hs Hu Hop. assert (Hq : 1 ≤ vrefs (world s) q) by (eapply start_refs; eauto).
  assert (Hp : 1 ≤ vrefs (world s) p) by (eapply start_refs; [by apply plus_swap|eauto]).
  assert (Hend : ∀ (code : Z) s3, vfs_ok L (e ⊞ one p 1 ⊞ one q 1) o s3 → keeps s s3 →
    vruns (doW (VOP_DECREF q);; doW (VOP_DECREF p);; mret code) s3 (λ _ s', vfs_ok L e o s' ∧ keeps s s')).
  { intros code s3 Hs3 Hk3. eapply decref2_run; [done..|]. intros s4 Hs4 Hk4. apply vruns_ret.
    split; [done|]. by eapply keeps_trans. }
  eapply same_fs_run; [done..| |].
  - intros (g & Hg1 & Hg2). eapply vruns_seq; [eapply quiet_run; [done|]; by eapply Hop|].
    intros code s3 [Hs3 Hk3]. by apply Hend.
  - apply vruns_bind, vruns_ret. by apply Hend.
Qed.

Lemma vrename_run L e o s b1 b2 :
  vfs_ok L e o s → is_str b1 → is_str b2 →
  vruns (vfs_rename b1 b2) s (λ _ s', vfs_ok L e o s' ∧ keeps s s').
Proof.
  intros Hs Hb1 Hb2. pose proof (vo_users _ _ _ _ Hs) as Hu.
  eapply vruns_seq; [by apply lookparent_run|]. intros r s1 [Hr Hk1].
  destruct r as [c|[p n1]]; [by apply vruns_ret|]. destruct Hr as [Hs1 Hn1].
  eapply vruns_seq; [by apply lookparent_run|]. intros r s2 [Hr Hk2].
  destruct r as [c|[q n2]].
  { eapply vruns_seq; [by apply (vdecref_run L e o)|]. intros [] s3 [Hs3 Hk3]. apply vruns_ret.
    split; [done|]. by eapply keeps_trans, keeps_trans. }
  destruct Hr as [Hs2 Hn2].
  eapply vruns_mono; [apply (on_both_run L e o); [done..|]|].
  { intros g Hp Hq Hgp Hgq. eapply rename_law; eauto; apply Hs2. }
  intros code s3 [Hs3 Hk3]. split; [done|]. by eapply keeps_trans, keeps_trans.
Qed.

Lemma vlink_run L e o s b1 b2 :
  vfs_ok L e o s → is_str b1 → is_str b2 →
  vruns (vfs_link b1 b2) s (λ _ s', vfs_ok L e o s' ∧ keeps s s').
Proof.
  intros Hs Hb1 Hb2. pose proof (vo_users _ _ _ _ Hs) as Hu.
  eapply vruns_seq; [by apply vlookup_run|]. intros r s1 [Hs1 Hk1].
  destruct r as [c|p]; cbn [got] in Hs1.
  { apply vruns_ret. split; [|done]. eapply vfs_ok_ext; [done|counts..]. }
  eapply vruns_seq; [by apply lookparent_run|]. intros r s2 [Hr Hk2].
  destruct r as [c|[q n2]].
  { eapply vruns_seq; [by apply (vdecref_run L e o)|]. intros [] s3 [Hs3 Hk3]. apply vruns_ret.
    split; [done|]. by eapply keeps_trans, keeps_trans. }
  destruct Hr as [Hs2 Hn2].
  eapply vruns_mono; [apply (on_both_run L e o); [done..|]|].
  { intros g Hp Hq Hgp Hgq. eapply link_law; eauto; apply Hs2. }
  intros code s3 [Hs3 Hk3]. split; [done|]. by eapply keeps_trans, keeps_trans.
Qed.

Lemma readlink_run L e o s path u :
  vfs_ok L e o s → is_str path → vruns (vfs_readlink path u) s (λ _ s', vfs_ok L e o s' ∧ keeps s s').
Proof.
  intros Hs Hp. pose proof (vo_users _ _ _ _ Hs) as Hu.
  eapply vruns_seq; [by apply vlookup_run|]. intros r s1 [Hs1 Hk1].
  destruct r as [c|p]; cbn [got] in Hs1.
  { apply vruns_ret. split; [|done]. eapply vfs_ok_ext; [done|counts..]. }
  eapply vruns_seq; [eapply quiet_io_run; [done|]; eapply readlink_law; [apply Hs1|by eapply start_refs]|].
  intros [code u'] s2 [Hs2 Hk2]. eapply vruns_seq; [by apply (vdecref_run L e o)|].
  intros [] s3 [Hs3 Hk3]. apply vruns_ret. split; [done|]. by eapply keeps_trans, keeps_trans.
Qed.

Lemma chdir_run L e o s path :
  vfs_ok L e o s → is_str path →
  vruns (vfs_chdir path) s (λ _ s', vfs_ok L e o s' ∧ same_table s s' ∧ bootfs_vnode s' = bootfs_vnode s).
Proof.
  intros Hs Hp. pose proof (vo_users _ _ _ _ Hs) as Hu.
  eapply vruns_seq; [by apply vlookup_run|]. intros r s1 [Hs1 (Ha & Hb & Hc & Hd)].
  destruct r as [c|p]; cbn [got] in Hs1.
  { apply vruns_ret. split_and!; [|done..]. eapply vfs_ok_ext; [done|counts..]. }
  eapply vruns_seq; [by apply setcurdir_run|]. intros r s2 (Hs2 & [Ha2 Hb2] & Hd2 & _).
  eapply vruns_seq; [by apply (vdecref_run L e o)|]. intros [] s3 [Hs3 (Ha3 & Hb3 & Hc3 & Hd3)]. apply vruns_ret.
  unfold same_table. split_and!; [done|congruence..].
Qed.

Lemma open_vnode_run L e o s path fl :
  vfs_ok L e o s → is_str path →
  vruns (open_vnode path fl) s (λ r s', vfs_ok L (e ⊞ got r) o s' ∧ keeps s s').
Proof.
  intros Hs Hp. pose proof (vo_users _ _ _ _ Hs) as Hu. unfold open_vnode.
  destruct (flag fl O_CREAT); [|by apply vlookup_run].
  eapply vruns_seq; [by apply lookparent_run|]. intros r s1 [Hr Hk1]. destruct r as [c|[p name]].
  { apply vruns_ret. split; [|done]. eapply vfs_ok_ext; [done|counts..]. }
  destruct Hr as [Hs1 Hn].
  eapply vruns_seq; [eapply gives_run; [done|]; eapply creat_law; [apply Hs1|by eapply start_refs|done]|].
  intros r s2 [Hs2 Hk2]. apply plus_swap in Hs2.
  eapply vruns_seq; [by apply (vdecref_run L (e ⊞ got r) o); auto|].
  intros [] s3 [Hs3 Hk3]. apply vruns_ret. split; [done|]. by eapply keeps_trans, keeps_trans.
Qed.

Lemma open_run L e o s path fl :
  vfs_ok L e o s → is_str path →
  vruns (vfs_open path fl) s (λ r s', vfs_ok L (e ⊞ got r) (o ⊞ got r) s' ∧ keeps s s').
Proof.
  intros Hs Hp. pose proof (vo_users _ _ _ _ Hs) as Hu.
  assert (Herr : ∀ c s', vfs_ok L e o s' → vfs_ok L (e ⊞ got (Err c)) (o ⊞ got (Err c)) s').
  { intros c s' Hs'. eapply vfs_ok_ext; [done|counts..]. }
  unfold vfs_open. destruct (negb _); [apply vruns_ret; split; [by apply Herr|done]|].
  eapply vruns_seq; [by apply open_vnode_run|]. intros r s1 [Hs1 Hk1]. destruct r as [c|p]; cbn [got] in Hs1.
  { apply vruns_ret. split; [|done]. eapply vfs_ok_ext; [done|counts..]. }
  eapply vruns_seq; [eapply quiet_run; [done|]; eapply open_law; [apply Hs1|by eapply start_refs]|].
  intros c s2 [Hs2 Hk2]. destruct (negb (c =? 0)).
  { eapply vruns_seq; [by apply (vdecref_run L e o)|]. intros [] s3 [Hs3 Hk3]. apply vruns_ret.
    split; [by apply Herr|]. by eapply keeps_trans, keeps_trans. }
  eapply vruns_seq; [by apply incopen_run|]. intros [] s3 [Hs3 Hk3].
  eapply (vruns_seq _ _ _ (λ _ s4, vfs_ok L (e ⊞ one p 1) (o ⊞ one p 1) s4 ∧ keeps s3 s4)).
  { destruct (flag fl O_TRUNC); [|by apply vruns_ret]. destruct (negb (_ =? O_RDONLY)); [|by apply vruns_ret].
    eapply quiet_run; [done|]. eapply truncate_law; [apply Hs3|]. eapply usable_refs; [done|].
    apply usable_one. specialize (Hu p). lia. }
  intros c' s4 [Hs4 Hk4]. pose proof (keeps_trans _ _ _ (keeps_trans _ _ _ Hk1 Hk2) (keeps_trans _ _ _ Hk3 Hk4)) as Hk.
  destruct (negb (c' =? 0)); [|by apply vruns_ret].
  eapply vruns_seq; [by apply vdecopen_run|]. intros [] s5 [Hs5 Hk5].
  eapply vruns_seq; [by apply (vdecref_run L e o)|]. intros [] s6 [Hs6 Hk6]. apply vruns_ret.
  split; [by apply Herr|]. by eapply keeps_trans, keeps_trans.
Qed.

Lemma close_run L e o s p :
  vfs_ok L (e ⊞ one p 1) (o ⊞ one p 1) s → (∀ q, 0 ≤ o q ≤ e q) →
  vruns (vfs_close p) s (λ _ s', vfs_ok L e o s' ∧ keeps s s').
Proof.
  intros Hs Hu. eapply vruns_seq; [by apply vdecopen_run|]. intros [] s5 [Hs5 Hk5].
  eapply vruns_mono; [by apply (vdecref_run L e o)|]. intros [] s6 [Hs6 Hk6]. split; [done|]. by eapply keeps_trans.
Qed.

(** ** Naming the boot file system *)

Lemma fresh_name x :
  Z.of_nat (length x) < 2 ^ 31 → ∀ fsname, cstr fsname x →
  ∃ n tmp, snprintf (fresh_bytes (NAME_MAX + 1)) (NAME_MAX + 1 - 1) fmt_s [VStr (Some fsname)] = Done (n, tmp) ∧
    length tmp = 256%nat ∧ cstr tmp (take 254 x).
Proof.
  intros Hx fsname Hs.
  destruct (snprintf_string (fresh_bytes (NAME_MAX + 1)) (NAME_MAX + 1 - 1) fsname x Hs) as [n Hn];
    [change (Z.of_nat (length (fresh_bytes (NAME_MAX + 1)))) with 256; unfold NAME_MAX; lia|done|].
  change (Z.to_nat (NAME_MAX + 1 - 1 - 1)) with 254%nat in Hn.
  eexists n, _. split; [exact Hn|]. assert (length (take 254 x) ≤ 254)%nat by (rewrite length_take; lia).
  split.
  - rewrite splice_length; [done|]. rewrite length_app. change (length (fresh_bytes (NAME_MAX + 1))) with 256%nat. cbn. lia.
  - unfold splice. rewrite take_0. eexists. split; [by rewrite <- app_assoc|].
    destruct Hs as (rest & _ & Hz). intros [i Hi]%list_elem_of_lookup. apply Hz.
    apply lookup_take_Some in Hi as [Hi _]. by eapply list_elem_of_lookup_2.
Qed.

(** strcat of a string into a buffer with room for it. *)
Lemma strcat_str dest src x y :
  cstr dest x → cstr src y → (length x + length y < length dest)%nat →
  ∃ r, strcat dest src = Done r ∧ cstr r (x ++ y).
Proof.
  intros Hd Hs Hlen. unfold strcat. rewrite (strlen_spec _ _ Hd). cbn [mbind outcome_bind]. rewrite Nat2Z.id.
  rewrite (strcpy_spec _ _ _ Hs) by (rewrite length_drop; lia). cbn [mbind outcome_bind].
  eexists. split; [done|]. destruct Hd as (rest & -> & Hx). destruct Hs as (rest' & -> & Hy).
  rewrite take_app_length. unfold splice. rewrite take_0. eexists. rewrite <- !app_assoc. split; [done|set_solver].
Qed.

Lemma setbootfs_run L e o s fsname x :
  vfs_ok L e o s → cstr fsname x → chars x → Z.of_nat (length x) < 2 ^ 31 →
  vruns (vfs_setbootfs fsname) s (λ r s', vfs_ok L e o s' ∧ same_table s s' ∧
    (58 ∈ take 254 x → r = EINVAL ∧ s' = s)).
Proof.
  intros Hs Hx Hch Hlen. pose proof (vo_users _ _ _ _ Hs) as Hu.
  destruct (fresh_name x Hlen fsname Hx) as (n & tmp & Hrun & Htmp & Hy).
  assert (Hcy : chars (take 254 x)) by (by apply Forall_take).
  eapply vruns_lift; [done|]. destruct (decide (58 ∈ take 254 x)) as [Hin|Hnot].
  - apply list_elem_of_split_l in Hin as (a & b & Hab & Ha). rewrite Hab in Hy, Hcy |- *.
    eapply vruns_lift; [by eapply strchr_found|]. apply vruns_bind. cbn beta iota. rewrite Nat2Z.id.
    apply cstr_drop in Hy. eapply vruns_lift; [by apply strlen_spec|].
    rewrite (proj2 (Z.gtb_lt _ 0)) by (cbn; lia). by apply vruns_ret, vruns_ret.
  - eapply vruns_lift; [by eapply strchr_absent|]. apply vruns_bind.
    destruct (strcat_str tmp colon_str (take 254 x) [58]) as (r & Hr & Hcr); [done|by exists []; split; [done|set_solver]|..].
    { rewrite length_take, Htmp. cbn [length]. lia. }
    eapply vruns_lift; [done|]. apply vruns_ret.
    eapply vruns_seq; [apply chdir_run; [done|by eexists]|]. intros c s1 (Hs1 & Ht1 & Hb1).
    destruct (negb (c =? 0)); [by apply vruns_ret|].
    eapply vruns_seq; [by apply getcurdir_run|]. intros r1 s2 (Hs2 & [Ha2 Hb2]%keeps_table & _ & Hr1).
    destruct Ht1 as [Ha1 Hk1]. destruct r1 as [c'|p]; cbn [got] in Hs2.
    { apply vruns_ret. unfold same_table. split_and!; [|congruence..|done]. eapply vfs_ok_ext; [done|counts..]. }
    eapply vruns_seq; [by apply (change_bootfs_run L e o s2 (Some p))|].
    intros [] s3 (Hs3 & [Ha3 Hb3] & _ & _). apply vruns_ret. unfold same_table. split_and!; [done|congruence..|done].
Qed.

Lemma clearbootfs_run L e o s :
  vfs_ok L e o s → vruns vfs_clearbootfs s (λ _ s', vfs_ok L e o s' ∧ same_table s s').
Proof.
  intros Hs. pose proof (vo_users _ _ _ _ Hs) as Hu.
  eapply vruns_mono; [apply (change_bootfs_run L e o s None); [eapply vfs_ok_ext; [done|counts..]|done]|].
  intros [] s3 (Hs3 & ? & _). by split.
Qed.

(** ** Synchronizing, mounting and unmounting *)

Lemma num_nonneg L e o s : vfs_ok L e o s → 0 ≤ array_getnum (knowndevs s).
Proof. intros Hs. destruct (vo_table _ _ _ _ Hs) as [(ps & Harr & _)]. unfold array_getnum. rewrite (ar_num _ _ Harr). lia. Qed.

Lemma sync_from_run L e o s n i :
  vfs_ok L e o s → 0 ≤ i → i + Z.of_nat n = array_getnum (knowndevs s) →
  vruns (sync_from n i) s (λ _ s', vfs_ok L e o s' ∧ keeps s s').
Proof.
  revert s i. induction n as [|n IH]; intros s i Hs Hi Hn; [by apply vruns_ret|]. cbn [sync_from].
  destruct (table_entry s i) as (p & kd & Hen); [apply Hs|lia|]. eapply getkd_run; [done|].
  destruct Hen as (_ & _ & Hok).
  eapply (vruns_seq _ _ _ (λ _ s1, vfs_ok L e o s1 ∧ keeps s s1)).
  - destruct (kd_fs kd) as [f|] eqn:Hf; [|by apply vruns_ret].
    eapply vruns_seq; [eapply quiet_run; [done|]; eapply sync_law; [apply Hs|by apply Hok]|].
    intros c s1 Hs1. by apply vruns_ret.
  - intros [] s1 [Hs1 Hk1]. eapply vruns_mono; [apply IH; [done|lia|]|].
    + destruct Hk1 as (-> & _). lia.
    + intros [] s2 [Hs2 Hk2]. split; [done|by eapply keeps_trans].
Qed.

Lemma vsync_run L e o s : vfs_ok L e o s → vruns vfs_sync s (λ r s', vfs_ok L e o s' ∧ keeps s s' ∧ r = 0).
Proof.
  intros Hs. apply numdevs_run. pose proof (num_nonneg _ _ _ _ Hs).
  eapply vruns_seq; [apply (sync_from_run L e o); [done|lia..]|]. intros [] s1 [Hs1 Hk1]. by apply vruns_ret.
Qed.

(** [p] is a pointer of the table to the entry [kd]. *)
Definition listed s (p : Z) kd : Prop := ∃ i, 0 ≤ i < array_getnum (knowndevs s) ∧ entry s i p kd.

Lemma listed_in s p kd ps : listed s p kd → array_rep (knowndevs s) (Some <$> ps) → p ∈ ps.
Proof.
  intros (i & Hi & Hg & _) Harr. unfold array_getnum in Hi. rewrite (ar_num _ _ Harr), length_fmap in Hi.
  destruct (lookup_lt_is_Some_2 ps (Z.to_nat i)) as [p' Hp]; [lia|].
  rewrite <- (Z2Nat.id i) in Hg by lia.
  rewrite (array_getguy_spec _ _ _ p' Harr) in Hg by (by rewrite list_lookup_fmap, Hp).
  injection Hg as ->. by eapply list_elem_of_lookup_2.
Qed.

Lemma findmount_run L e o s devname dev :
  vfs_ok L e o s → cstr devname dev →
  vruns (findmount devname) s (λ r s', s' = s ∧
    match r with Ok (p, kd) => listed s p kd ∧ is_Some (kd_rawname kd) | Err c => c = ENODEV end).
Proof.
  intros Hs Hdev. apply numdevs_run. pose proof (num_nonneg _ _ _ _ Hs) as Hnum.
  assert (∀ n i, 0 ≤ i → i + Z.of_nat n = array_getnum (knowndevs s) →
    vruns (findmount_from n i devname) s (λ r s', s' = s ∧
      match r with Ok (p, kd) => listed s p kd ∧ is_Some (kd_rawname kd) | Err c => c = ENODEV end)) as Hloop;
    [|apply Hloop; lia].
  induction n as [|n IH]; intros i Hi Hn; [by apply vruns_ret|]. cbn [findmount_from].
  destruct (table_entry s i) as (p & kd & Hen); [apply Hs|lia|]. eapply getkd_run; [done|].
  destruct (kd_rawname kd) as [raw|] eqn:Hraw; [|apply IH; lia].
  pose proof Hen as (_ & _ & Hok). destruct (kd_str _ _ Hok) as [name Hname].
  eapply same_run; [done..|]. case_bool_decide; [|apply IH; lia].
  apply vruns_ret. split_and!; [done| |by rewrite Hraw]. exists i. split; [lia|done].
Qed.

(** The file system of an entry is replaced; [w'] is a world in which
    every other one still is. *)
Lemma put_fs_table s p kd fs w' :
  table_ok s → listed s p kd → is_Some (kd_device kd) →
  (∀ kd', kd_ok (world s) kd' → kd_fs kd' ≠ kd_fs kd ∨ kd_fs kd = None → kd_ok w' kd') →
  (∀ f, fs = Some f → fs_live w' f ∧ ¬ fs_live (world s) f) →
  (∀ f, fs_live w' f → fs = Some f ∨ fs_live (world s) f ∧ kd_fs kd ≠ Some f) →
  table_ok (set_kds (<[p := set_fs fs kd]> (v_kds s)) (set_world w' s)).
Proof.
  intros [(ps & Harr & Hnd & Hkd & Huniq & Hlive)] Hlist Hdev Hothers Hfs Hnow. pose proof (listed_in _ _ _ _ Hlist Harr) as Hp.
  destruct Hlist as (i & _ & _ & Hl & Hok). split. exists ps. cbn. split_and!; [done|done|..].
  - intros q Hq. destruct (decide (q = p)) as [->|Hne].
    + rewrite lookup_insert_eq. eexists. split; [done|].
      assert (Hok' : kd_ok w' (set_fs None kd)).
      { destruct (decide (kd_fs kd = None)) as [Hn|Hn]; [|apply Hothers].
        - replace (set_fs None kd) with kd by (destruct kd; unfold set_fs; cbn in Hn |- *; by rewrite Hn). auto.
        - destruct Hok. split; try done.
        - left. done. }
      destruct Hok' as [Ha Hb Hc Hd He Hf]. split; try done. intros f Hf'. by apply (Hfs f).
    + rewrite lookup_insert_ne by done. destruct (Hkd q Hq) as (kd' & Hl' & Hok'). exists kd'. split; [done|].
      apply Hothers; [done|]. destruct (kd_fs kd) as [f|] eqn:Ef; [left|by right].
      intros Ef'. apply Hne. by eapply Huniq.
  - intros q q' kd1 kd2 f Hq Hq' H1' H2' Hf1 Hf2.
    assert (∀ q0 kd0, q0 ∈ ps → q0 ≠ p → v_kds s !! q0 = Some kd0 → kd_fs kd0 = Some f → fs ≠ Some f) as Hnew.
    { intros q0 kd0 Hq0 Hne Hl0 Hf0 ->. destruct (Hfs f eq_refl) as [_ []].
      destruct (Hkd q0 Hq0) as (kd0' & Hl0' & Hok0). rewrite Hl0 in Hl0'. injection Hl0' as <-. by apply Hok0. }
    destruct (decide (q = p)) as [->|Hne], (decide (q' = p)) as [->|Hne']; [done|..].
    + rewrite lookup_insert_eq in H1'. injection H1' as <-. rewrite lookup_insert_ne in H2' by done.
      by destruct (Hnew q' kd2).
    + rewrite lookup_insert_eq in H2'. injection H2' as <-. rewrite lookup_insert_ne in H1' by done.
      by destruct (Hnew q kd1).
    + rewrite lookup_insert_ne in H1', H2' by done. by eapply Huniq.
  - intros f Hf. destruct (Hnow f Hf) as [->|[Hold Hne]].
    + exists p, (set_fs (Some f) kd). split_and!; [done|apply lookup_insert_eq|done].
    + destruct (Hlive f Hold) as (q & kd' & Hq & Hl' & Hf'). exists q, kd'. split_and!; [done| |done].
      rewrite lookup_insert_ne; [done|]. intros ->. congruence.
Qed.

Lemma put_fs_ok L e o s p kd fs lo w' :
  vfs_ok L e o s → listed s p kd → is_Some (kd_device kd) → step L lo (world s) w' none none →
  (∀ f, kd_fs kd = Some f ↔ lo = Lose_fs f) → (∀ q, lo ≠ Lose_vnode q) →
  (∀ f, fs = Some f → fs_live w' f ∧ ¬ fs_live (world s) f) → (∀ f, lo = Gain_fs f → fs = Some f) →
  vfs_ok L e o (set_kds (<[p := set_fs fs kd]> (v_kds s)) (set_world w' s)).
Proof.
  intros [Hw Ht Hr Ho Hu Hc] Hlist Hdev Hst Hlo Hlv Hfs Hgain. split; cbn; [apply Hst|..|done|].
  - apply put_fs_table; [done..| |done|].
    + intros kd' [Ha Hb Hl Hp Hd Hs] Hne. split; [done|done|..|done].
      * intros f Hf. apply (st_live _ _ _ _ _ _ Hst); [by apply Hl|]. intros Ef%Hlo.
        destruct Hne as [Hne|Hne]; congruence.
      * by apply (st_pin _ _ _ _ _ _ Hst).
      * intros d Hkd. by apply (st_dev _ _ _ _ _ _ Hst), Hd.
    + intros f Hf. destruct (st_old _ _ _ _ _ _ Hst f Hf) as [[Hold Hne]|Hg]; [right|left; auto].
      split; [done|]. by rewrite Hlo.
  - intros q. rewrite (st_refs _ _ _ _ _ _ Hst), Hr. unfold none. lia.
  - intros q. rewrite (st_opens _ _ _ _ _ _ Hst), Ho. unfold none. lia.
  - intros q Hq. assert (1 ≤ vrefs (world s) q).
    { rewrite Hr, Hq, held_self. pose proof (held_nonneg (bootfs_vnode s) q). specialize (Hu q). lia. }
    apply (st_dir _ _ _ _ _ _ Hst); [by apply Hc|done|]. rewrite (st_refs _ _ _ _ _ _ Hst). unfold none. lia.
Qed.

(** Only the file systems of entries differ. *)
Definition same_places s s' : Prop :=
  knowndevs s' = knowndevs s ∧ t_cwd s' = t_cwd s ∧ bootfs_vnode s' = bootfs_vnode s.
Lemma keeps_places s s' : keeps s s' → same_places s s'.
Proof. by intros (?&?&?&?). Qed.

(** What a mount function promises: a code, or a file system that was not
    mounted before. *)
Definition mount_law (mf : Z → W → outcome (res Z * W)) : Prop :=
  ∀ w L d, wok w L → is_device w d → ∃ r w', mf d w = Done (r, w') ∧
    match r with
    | Ok f => step L (Gain_fs f) w w' none none ∧ fs_live w' f ∧ ¬ fs_live w f
    | Err _ => step L Nothing w w' none none
    end.

Lemma vmount_run L e o s devname mf :
  vfs_ok L e o s → is_str devname → mount_law mf →
  vruns (vfs_mount devname mf) s (λ _ s', vfs_ok L e o s' ∧ same_places s s').
Proof.
  intros Hs [dev Hdev] Hmf. eapply vruns_seq; [by eapply findmount_run|]. intros r s1 [-> Hr].
  destruct r as [c|[p kd]]; [by apply vruns_ret|]. destruct Hr as [Hlist Hraw].
  pose proof Hlist as (i & _ & _ & Hl & Hok). destruct (kd_some _ _ Hok) as [d Hd]; [by right|].
  destruct (kd_fs kd) as [f|] eqn:Hf; [by apply vruns_ret|].
  apply vruns_assert; [by rewrite bool_decide_eq_true_2|].
  apply vruns_assert; [by rewrite bool_decide_eq_true_2 by by rewrite Hd|].
  rewrite Hd. apply vruns_bind, vruns_ret.
  destruct (Hmf (world s) L d) as (r & w' & Hrun & Hst); [apply Hs|by apply Hok|].
  eapply vruns_bind, vruns_call; [done|]. destruct r as [c|f].
  { destruct (step_quiet _ _ _ _ _ _ Hs Hst) as [Hs' Hk']. by apply vruns_ret. }
  destruct Hst as (Hst & Hlive & Hnew). apply vruns_mod.
  destruct (volname_law w' L f) as (b & Hb & _); [apply Hst|done|].
  eapply vruns_ask; [done|]. apply vruns_ret. split; [|done].
  apply (put_fs_ok L e o s p kd (Some f) (Gain_fs f) w' Hs Hlist); [done|done| |done|..].
  - intros g. by rewrite Hf.
  - by intros g [= <-].
  - by intros g [= <-].
Qed.

Lemma sync_twice_run L e o s f :
  vfs_ok L e o s → fs_live (world s) f →
  vruns (sync_twice f) s (λ _ s', vfs_ok L e o s' ∧ keeps s s').
Proof.
  intros Hs Hf. destruct (sync_law (world s) L f) as (c & w' & Hrun & Hst); [apply Hs|done|].
  destruct (step_quiet _ _ _ _ _ _ Hs Hst) as [Hs1 Hk1]. eapply vruns_bind, vruns_call; [done|].
  destruct (c =? 0); [by apply vruns_ret|].
  eapply vruns_mono; [eapply quiet_run; [done|]; eapply sync_law; [apply Hs1|]|].
  - by apply (st_live _ _ _ _ _ _ Hst).
  - intros c' s2 [Hs2 Hk2]. split; [done|by eapply keeps_trans].
Qed.

Lemma listed_keeps L e o s s' p kd : listed s p kd → keeps s s' → vfs_ok L e o s' → listed s' p kd.
Proof.
  intros (i & Hi & Hg & Hl & Hok) (Ha & Hb & _) Hs'. exists i. rewrite Ha. split; [done|].
  split_and!; [by rewrite Ha|by rewrite Hb|].
  destruct (table_entry s' i) as (p' & kd' & Hg' & Hl' & Hok'); [apply Hs'|by rewrite Ha|].
  rewrite Ha in Hg'. rewrite Hb in Hl'. congruence.
Qed.

(** The last steps of an unmount. *)
Lemma drop_fs_run L e o s p kd f :
  vfs_ok L e o s → listed s p kd → is_Some (kd_rawname kd) → kd_fs kd = Some f →
  ∃ c w', FSOP_UNMOUNT f (world s) = Done (c, w') ∧
    vfs_ok L e o (if decide (c = 0) then set_kds (<[p := set_fs None kd]> (v_kds s)) (set_world w' s)
                  else set_world w' s).
Proof.
  intros Hs Hlist Hraw Hf. pose proof Hlist as (i & _ & _ & _ & Hok).
  destruct (unmount_law (world s) L f) as (c & w' & Hrun & Hst); [apply Hs|by apply Hok|].
  exists c, w'. split; [done|]. case_decide.
  - eapply put_fs_ok; [done..| |done| |done|done|done].
    + apply (kd_some _ _ Hok). by right.
    + intros g. rewrite Hf. naive_solver.
  - by eapply step_quiet.
Qed.

Lemma vunmount_run L e o s devname :
  vfs_ok L e o s → is_str devname →
  vruns (vfs_unmount devname) s (λ _ s', vfs_ok L e o s' ∧ same_places s s').
Proof.
  intros Hs [dev Hdev]. eapply vruns_seq; [by eapply findmount_run|]. intros r s1 [-> Hr].
  destruct r as [c|[p kd]]; [by apply vruns_ret|]. destruct Hr as [Hlist Hraw].
  pose proof Hlist as (i & _ & _ & _ & Hok). destruct (kd_some _ _ Hok) as [d Hd]; [by right|].
  destruct (kd_fs kd) as [f|] eqn:Hf; [|by apply vruns_ret].
  apply vruns_assert; [by rewrite bool_decide_eq_true_2|].
  apply vruns_assert; [by rewrite bool_decide_eq_true_2 by by rewrite Hd|].
  eapply vruns_seq; [eapply quiet_run; [done|]; eapply sync_law; [apply Hs|by apply Hok]|].
  intros c s1 [Hs1 Hk1]. pose proof (keeps_places _ _ Hk1) as Hpl. destruct (negb (c =? 0)); [by apply vruns_ret|].
  destruct (drop_fs_run L e o s1 p kd f Hs1) as (c' & w' & Hrun & Hs2); [by eapply listed_keeps|done|done|].
  eapply vruns_bind, vruns_call; [done|]. destruct (Z.eqb_spec c' 0) as [->|]; cbn [negb].
  - apply vruns_mod, vruns_ret. by split.
  - rewrite decide_False in Hs2 by done. by apply vruns_ret.
Qed.

Lemma unmount_entry_run L e o s p kd :
  vfs_ok L e o s → listed s p kd →
  vruns (unmount_entry p kd) s (λ _ s', vfs_ok L e o s' ∧ same_places s s').
Proof.
  intros Hs Hlist. pose proof Hlist as (i & _ & _ & _ & Hok). unfold unmount_entry.
  destruct (kd_rawname kd) as [raw|] eqn:Hraw; [|by apply vruns_ret].
  destruct (kd_fs kd) as [f|] eqn:Hf; [|by apply vruns_ret].
  eapply vruns_seq; [apply (sync_twice_run L e o s f Hs); by apply Hok|].
  intros c s1 [Hs1 Hk1]. pose proof (keeps_places _ _ Hk1) as Hpl. destruct (negb (c =? 0)); [by apply vruns_ret|].
  destruct (drop_fs_run L e o s1 p kd f Hs1) as (c' & w' & Hrun & Hs2); [by eapply listed_keeps|by rewrite Hraw|done|].
  eapply vruns_bind, vruns_call; [done|]. destruct (Z.eqb_spec c' 0) as [->|]; cbn [negb].
  - by eexists tt, _.
  - rewrite decide_False in Hs2 by done. by apply vruns_ret.
Qed.

Lemma unmountall_run L e o s :
  vfs_ok L e o s → vruns vfs_unmountall s (λ _ s', vfs_ok L e o s' ∧ same_places s s').
Proof.
  intros Hs. apply numdevs_run. pose proof (num_nonneg _ _ _ _ Hs) as Hnum.
  assert (∀ n s i, vfs_ok L e o s → 0 ≤ i → i + Z.of_nat n = array_getnum (knowndevs s) →
    vruns (unmountall_from n i) s (λ _ s', vfs_ok L e o s' ∧ same_places s s')) as Hloop.
  { clear s Hs Hnum. induction n as [|n IH]; intros s i Hs Hi Hn; [by apply vruns_ret|]. cbn [unmountall_from].
    destruct (table_entry s i) as (p & kd & Hen); [apply Hs|lia|]. eapply getkd_run; [done|].
    eapply vruns_seq; [apply (unmount_entry_run L e o s p kd Hs); exists i; split; [lia|done]|].
    intros [] s1 [Hs1 (Ha & Hb & Hc)]. eapply vruns_mono; [apply IH; [done|lia|rewrite Ha; lia]|].
    intros [] s2 [Hs2 (Ha2 & Hb2 & Hc2)]. split; [done|]. split_and!; congruence. }
  eapply vruns_seq; [apply Hloop; [done|lia..]|]. intros [] s1 Hs1. by apply vruns_ret.
Qed.

(** ** getcwd *)

Lemma getdevname_run L e o s f :
  vfs_ok L e o s → fs_live (world s) f →
  vruns (vfs_getdevname f) s (λ r s', s' = s ∧ ∃ b, r = Some b ∧ is_str b).
Proof.
  intros Hs Hf. apply numdevs_run. pose proof (num_nonneg _ _ _ _ Hs) as Hnum.
  destruct (vo_table _ _ _ _ Hs) as [(ps & Harr & _ & _ & _ & Hlive)].
  destruct (Hlive f Hf) as (p & kd & [k Hk]%list_elem_of_lookup & Hl & Hkf).
  assert (Hguy : array_getguy (knowndevs s) (Z.of_nat k) = Done p).
  { eapply array_getguy_spec; [done|]. by rewrite list_lookup_fmap, Hk. }
  assert (Hknum : Z.of_nat k < array_getnum (knowndevs s)).
  { apply lookup_lt_Some in Hk. unfold array_getnum. rewrite (ar_num _ _ Harr), length_fmap. lia. }
  assert (∀ n i, 0 ≤ i ≤ Z.of_nat k → i + Z.of_nat n = array_getnum (knowndevs s) →
    vruns (getdevname_from n i f) s (λ r s', s' = s ∧ ∃ b, r = Some b ∧ is_str b)) as Hloop; [|apply Hloop; lia].
  induction n as [|n IH]; intros i Hi Hn; [lia|]. cbn [getdevname_from].
  destruct (table_entry s i) as (p' & kd' & Hen); [apply Hs|lia|]. eapply getkd_run; [done|].
  destruct Hen as (Hg & Hl' & Hok'). case_bool_decide as Hd.
  - apply vruns_ret. split; [done|]. eexists. split; [done|]. by apply Hok'.
  - apply IH; [|lia]. destruct (decide (i = Z.of_nat k)) as [->|]; [|lia]. congruence.
Qed.

Lemma uiomove_run L e o s ptr n u :
  vfs_ok L e o s → user_uio u (user (world s)) → 0 ≤ n ≤ Z.of_nat (length ptr) →
  vruns (uiomoveV ptr n u) s (λ r s', vfs_ok L e o s' ∧ keeps s s' ∧ user_uio r.2 (user (world s'))).
Proof.
  intros Hs Hu Hn. destruct (uiomove_user ptr n u _ Hu Hn) as (c & u' & ue' & Hrun & Hu' & Hsp).
  destruct (step_quiet _ _ _ _ _ _ Hs (user_step _ _ ue' (vo_world _ _ _ _ Hs) Hsp)) as [Hs' Hk'].
  exists (c, u'), (set_world (set_user ue' (world s)) s). unfold uiomoveV. rewrite Hrun. split; [done|].
  cbn. by rewrite user_set.
Qed.

Lemma user_uio_space u ue ue' : user_uio u ue → ue_space ue' = ue_space ue → user_uio u ue'.
Proof. intros [] ?. split; congruence. Qed.

Lemma getcwd_run L e o s u :
  vfs_ok L e o s → user_uio u (user (world s)) →
  vruns (vfs_getcwd u) s (λ _ s', vfs_ok L e o s' ∧ keeps s s').
Proof.
  intros Hs Huu. pose proof (vo_users _ _ _ _ Hs) as Hu.
  apply vruns_assert; [apply bool_decide_eq_true_2, Huu|].
  eapply vruns_seq; [by apply getcurdir_run|]. intros r s1 (Hs1 & Hk1 & Hst1 & ->).
  destruct (t_cwd s) as [c|] eqn:Hc; cbn [got] in Hs1; [|apply vruns_ret; split; [|done]; eapply vfs_ok_ext; [done|counts..]].
  pose proof (start_refs _ _ _ _ _ Hs1 Hu) as Hc1.
  assert (Hdir : vn_dir (world s1) c) by (apply (vo_cwd _ _ _ _ Hs1); destruct Hk1 as (?&?&?&?); congruence).
  destruct (vn_fs_law (world s1) L c) as (fo & Hfo & Hlive & Hsome); [apply Hs1|done|].
  destruct (Hsome Hdir) as [f ->]. specialize (Hlive f eq_refl).
  eapply vruns_ask; [done|]. apply vruns_assert; [done|]. apply vruns_bind, vruns_ret.
  destruct (volname_law (world s1) L f) as (vol & Hvol & Hstr); [apply Hs1|done|].
  eapply vruns_ask; [done|].
  eapply (vruns_seq _ _ _ (λ n s2, s2 = s1 ∧ ∃ b, n = Some b ∧ is_str b)).
  { destruct vol as [b|]; [apply vruns_ret; split; [done|]; exists b; auto|].
    eapply vruns_mono; [by eapply getdevname_run|]. done. }
  intros n s2 [-> (b & -> & x & Hx)]. apply vruns_assert; [done|]. apply vruns_bind, vruns_ret.
  eapply vruns_lift; [by apply strlen_spec|].
  assert (Hxl : (length x ≤ length b)%nat) by (destruct Hx as (rest & -> & _); rewrite length_app; lia).
  assert (Huu1 : user_uio u (user (world s1))) by (eapply user_uio_space; [done|apply Hst1]).
  eapply vruns_seq; [eapply uiomove_run; [done..|lia]|]. intros [r1 u1] s2 (Hs2 & Hk2 & Huu2).
  eapply (vruns_seq _ _ _ (λ _ s3, vfs_ok L (e ⊞ one c 1) o s3 ∧ keeps s2 s3)).
  { destruct (negb (r1 =? 0)); [by apply vruns_ret|].
    eapply vruns_seq; [eapply uiomove_run; [done..|cbn; lia]|].
    intros [r2 u2] s3 (Hs3 & Hk3 & _). destruct (negb (r2 =? 0)); [by apply vruns_ret|].
    eapply vruns_mono; [eapply quiet_io_run; [done|]; eapply namefile_law; [apply Hs3|by eapply start_refs|]|].
    - destruct Hk1 as (_&_&Hck&_), Hk2 as (_&_&Hck2&_), Hk3 as (_&_&Hck3&_). apply (vo_cwd _ _ _ _ Hs3). congruence.
    - intros r3 s4 [Hs4 Hk4]. split; [done|by eapply keeps_trans]. }
  intros [r3 u3] s3 [Hs3 Hk3]. eapply vruns_seq; [by apply (vdecref_run L e o)|]. intros [] s4 [Hs4 Hk4].
  apply vruns_ret. split; [done|]. by eapply keeps_trans, keeps_trans, keeps_trans.
Qed.

End Vfs.
