(* ===== verification/VfsTheorems.v ===== *)
(** * What the VFS layer promises

    Devices and their names, and the system of all calls of the layer. *)

From S2P Require Import Prelude Ram Kheap KheapSpec KArray Bytes Mem CString Printf Uio Vfs VfsSpec.

Section Vfs.
Context {H W : Type} `{KHeapLaws H} `{Vnodes H W} `{VnodesView W} `{!VnodesLaws H W}.
Implicit Types (s : vfs W) (w : W) (e o : Z → Z) (kd : knowndev).

(** ** Adding devices *)

(** The names that file systems go by stay, and so do devices. *)
Record later w w' : Prop := {
  lt_fs f : fs_live w f → fs_live w' f ∧ FSOP_GETVOLNAME f w' = FSOP_GETVOLNAME f w;
  lt_pin q d : pinned w q d → pinned w' q d;
  lt_dev d : is_device w d → is_device w' d;
}.
Definition fixed s s' : Prop := keeps s s' ∧ later (world s) (world s').

Lemma later_step L w w' dr do : step L Nothing w w' dr do → later w w'.
Proof.
  intros Hst. split.
  - intros f Hf. split; [by apply (st_live _ _ _ _ _ _ Hst)|by apply (st_vol _ _ _ _ _ _ Hst)].
  - intros q d Hq. by apply (st_pin _ _ _ _ _ _ Hst).
  - apply Hst.
Qed.
Lemma later_trans w1 w2 w3 : later w1 w2 → later w2 w3 → later w1 w3.
Proof.
  intros [Hf Hp Hd] [Hf' Hp' Hd']. split; auto. intros f Hl. destruct (Hf f Hl) as [Hl2 Hv]. destruct (Hf' f Hl2) as [Hl3 Hv'].
  split; [done|congruence].
Qed.
Lemma fixed_refl s : fixed s s.
Proof. by repeat split. Qed.
Lemma fixed_trans s1 s2 s3 : fixed s1 s2 → fixed s2 s3 → fixed s1 s3.
Proof. intros [] []. split; [by eapply keeps_trans|by eapply later_trans]. Qed.
Lemma step_fixed L L' e o s w' :
  vfs_ok L e o s → step L' Nothing (world s) w' none none → vfs_ok L' e o (set_world w' s) ∧ fixed s (set_world w' s).
Proof. intros Hs Hst. destruct (step_quiet _ _ _ _ _ _ Hs Hst). split; [done|]. split; [done|by eapply later_step]. Qed.

Lemma kmalloc_run L e o s n :
  vfs_ok L e o s → 0 ≤ n ≤ 2 ^ 31 →
  vruns (kmallocV n) s (λ r s', fixed s s' ∧
    vfs_ok (match r with Some a => a :: L | None => L end) e o s').
Proof.
  intros Hs Hn. pose proof (wok_owns _ _ (vo_world _ _ _ _ Hs)) as Hown.
  destruct (owns_alloc _ _ n Hown Hn) as (r & h & Hk & _).
  eapply vruns_call; [by rewrite Hk|].
  destruct (step_fixed L (match r with Some a => a :: L | None => L end) e o s (set_heap h (world s)) Hs) as [Hs' Hkeep];
    [|done].
  apply (wok_heap _ L); [apply Hs|]. intros R HR.
  destruct (owns_alloc _ _ n HR Hn) as (r' & h' & Hk' & Hr'). rewrite Hk in Hk'. injection Hk' as <- <-.
  destruct r; [by destruct Hr'|done].
Qed.

Lemma kfree_run L e o s a :
  vfs_ok (a :: L) e o s → vruns (kfreeV a) s (λ _ s', vfs_ok L e o s' ∧ fixed s s').
Proof.
  intros Hs. pose proof (wok_owns _ _ (vo_world _ _ _ _ Hs)) as Hown.
  destruct (owns_free _ _ _ Hown) as (h & Hk & _). eapply vruns_do; [by rewrite Hk|].
  eapply step_fixed; [done|]. apply (wok_heap _ (a :: L)); [apply Hs|]. intros R HR.
  destruct (owns_free _ _ _ HR) as (h' & Hk' & Hr'). rewrite Hk in Hk'. by injection Hk' as <-.
Qed.

Lemma kstrdup_run L e o s b x :
  vfs_ok L e o s → cstr b x → Z.of_nat (length x) < 2 ^ 31 →
  vruns (kstrdup b) s (λ r s', fixed s s' ∧
    match r with
    | Some (a, c) => vfs_ok (a :: L) e o s' ∧ cstr c x
    | None => vfs_ok L e o s'
    end).
Proof.
  intros Hs Hb Hlen. eapply vruns_lift; [by apply strlen_spec|].
  eapply vruns_seq; [apply (kmalloc_run L e o s _ Hs); lia|]. intros [a|] s1 [Hk Hs1]; [|by apply vruns_ret].
  eapply vruns_lift; [apply (strcpy_spec _ _ _ Hb)|].
  { unfold fresh_bytes. rewrite length_replicate. lia. }
  apply vruns_ret. split_and!; [done..|]. unfold splice. rewrite take_0. eexists.
  split; [by rewrite <- app_assoc|]. by destruct Hb as (? & _ & ?).
Qed.

Definition raw_of (x : list Z) : list Z := x ++ [114; 97; 119].

Lemma mkrawname_run L e o s b x :
  vfs_ok L e o s → cstr b x → Z.of_nat (length x) < 2 ^ 30 →
  vruns (mkrawname b) s (λ r s', fixed s s' ∧
    match r with
    | Some (a, c) => vfs_ok (a :: L) e o s' ∧ cstr c (raw_of x)
    | None => vfs_ok L e o s'
    end).
Proof.
  intros Hs Hb Hlen. eapply vruns_lift; [by apply strlen_spec|].
  eapply vruns_seq; [apply (kmalloc_run L e o s _ Hs); lia|]. intros [a|] s1 [Hk Hs1]; [|by apply vruns_ret].
  eapply vruns_lift; [apply (strcpy_spec _ _ _ Hb)|].
  { unfold fresh_bytes. rewrite length_replicate. lia. }
  destruct (strcat_str (splice (fresh_bytes (Z.of_nat (length x) + 3 + 1)) 0 (x ++ [0])) raw_suffix x [114; 97; 119])
    as (r & Hr & Hcr).
  - unfold splice. rewrite take_0. eexists. split; [by rewrite <- app_assoc|]. by destruct Hb as (? & _ & ?).
  - exists []. split; [done|set_solver].
  - unfold fresh_bytes. rewrite splice_length; rewrite length_replicate; rewrite ?length_app; cbn [length]; lia.
  - eapply vruns_lift; [done|]. by apply vruns_ret.
Qed.

(** No entry knows the name, or one does. *)
Definition free s (y : list Z) : Prop := ∀ i, 0 ≤ i < array_getnum (knowndevs s) → entry_says s i y None.
Definition known s (y : list Z) : Prop :=
  ∃ i a, 0 ≤ i < array_getnum (knowndevs s) ∧ entry_says s i y (Some a).

Definition names3 (x y z : option (list Z)) : list (list Z) := omap id [x; y; z].

Lemma osame3_spec t x y z : osame3 t x y z = true ↔ ∃ n, t = Some n ∧ n ∈ names3 x y z.
Proof.
  unfold osame3, names3, osame. rewrite !orb_true_iff.
  destruct t as [t|], x as [x|], y as [y|], z as [z|]; cbn; rewrite ?bool_decide_eq_true; set_solver.
Qed.

Lemma osame_true x y : osame x (Some y) = true ↔ x = Some y.
Proof. destruct x; cbn; rewrite ?bool_decide_eq_true; naive_solver. Qed.

(** An entry answers exactly to its three names. *)
Lemma entry_answer_none w kd name raw vol y :
  kd_names w kd name raw vol → entry_answer kd name raw vol y = None ↔ name ≠ y ∧ raw ≠ Some y ∧ vol ≠ Some y.
Proof.
  intros [_ _ Hvol]. unfold entry_answer.
  pose proof (osame_true raw y). pose proof (osame_true vol y).
  destruct (kd_fs kd), (osame raw (Some y)), (osame vol (Some y)); case_bool_decide; cbn; naive_solver.
Qed.

Lemma badnames_run L e o s n1 n2 n3 x1 x2 x3 :
  vfs_ok L e o s → ostr n1 x1 → ostr n2 x2 → ostr n3 x3 →
  vruns (badnames n1 n2 n3) s (λ b s', s' = s ∧
    if (b : bool) then ∃ y, y ∈ names3 x1 x2 x3 ∧ known s y else ∀ y, y ∈ names3 x1 x2 x3 → free s y).
Proof.
  intros Hs H1' H2' H3'. apply numdevs_run. pose proof (num_nonneg _ _ _ _ Hs) as Hnum.
  assert (∀ n i, 0 ≤ i → i + Z.of_nat n = array_getnum (knowndevs s) →
    (∀ y, y ∈ names3 x1 x2 x3 → ∀ j, 0 ≤ j < i → entry_says s j y None) →
    vruns (badnames_from n i n1 n2 n3) s (λ b s', s' = s ∧
      if (b : bool) then ∃ y, y ∈ names3 x1 x2 x3 ∧ known s y else ∀ y, y ∈ names3 x1 x2 x3 → free s y)) as Hloop;
    [|apply Hloop; [lia..|]; intros; lia].
  induction n as [|n IH]; intros i Hi Hn Hbefore.
  { apply vruns_ret. split; [done|]. intros y Hy j Hj. apply Hbefore; [done|lia]. }
  cbn [badnames_from]. destruct (table_entry s i) as (p & kd & Hen); [apply Hs|lia|]. eapply getkd_run; [done|].
  destruct (kd_has_names (world s) L kd) as (name & raw & vol & Hnm); [apply Hs|apply Hen|].
  assert (Hhit : ∀ t, osame3 t x1 x2 x3 = true → t = vol ∨ t = raw ∨ t = Some name →
    ∃ y, y ∈ names3 x1 x2 x3 ∧ known s y).
  { intros t (y & -> & Hy)%osame3_spec Ht. exists y. split; [done|].
    destruct (entry_answer kd name raw vol y) as [a|] eqn:Ea.
    - exists i, a. split; [lia|]. by exists p, kd, name, raw, vol.
    - apply (entry_answer_none (world s)) in Ea; [|done]. naive_solver. }
  eapply volname_run; [done|]. intros b Hb. eapply samestring3_run; [done..|].
  destruct (osame3 vol x1 x2 x3) eqn:E1; [apply vruns_ret; eauto|].
  eapply samestring3_run; [apply Hnm|done..|].
  destruct (osame3 raw x1 x2 x3) eqn:E2; [apply vruns_ret; eauto|].
  eapply (samestring3_run _ _ _ _ (Some name)); [apply Hnm|done..|].
  destruct (osame3 (Some name) x1 x2 x3) eqn:E3; [apply vruns_ret; eauto 7|].
  apply IH; [lia..|]. intros y Hy j Hj. destruct (decide (j = i)) as [->|]; [|apply Hbefore; [done|lia]].
  exists p, kd, name, raw, vol. split_and!; [done..|]. apply (entry_answer_none (world s)); [done|].
  assert (Hno : ∀ t, osame3 t x1 x2 x3 = false → t ≠ Some y).
  { intros t Ht ->. assert (osame3 (Some y) x1 x2 x3 = true) by (apply osame3_spec; eauto). congruence. }
  split_and!; [intros ->; by apply (Hno (Some y))|by apply Hno..].
Qed.

(** The blocks of the names of a device. *)
Definition name_blocks (name : kstring) (raw : option kstring) : list Z :=
  name.1 :: match raw with Some r => [r.1] | None => [] end.

Lemma vfs_ok_perm L L' e o s : L ≡ₚ L' → vfs_ok L e o s → vfs_ok L' e o s.
Proof. intros HL [Hw Ht Hr Ho Hu Hc]. split; try done. by eapply wok_perm. Qed.

Lemma free_names_run {B} L e o s name raw (f : unit → V W B) Q :
  vfs_ok (name_blocks name raw ++ L) e o s → (∀ s', vfs_ok L e o s' → fixed s s' → vruns (f tt) s' Q) →
  vruns (kfree_if (fst <$> Some name);; kfree_if (fst <$> raw) ≫= f) s Q.
Proof.
  intros Hs Hf. cbn [kfree_if fmap option_fmap option_map].
  eapply vruns_seq; [apply kfree_run; exact Hs|]. intros [] s1 [Hs1 Hf1].
  destruct raw as [r|]; [|by apply vruns_bind, vruns_ret, Hf].
  eapply vruns_seq; [by apply kfree_run|]. intros [] s2 [Hs2 Hf2]. apply Hf; [done|by eapply fixed_trans].
Qed.

(** The vnode of no entry may be freed. *)
Lemma lose_vnode_ok L e o s p w' :
  vfs_ok L e o s → (∀ q kd, v_kds s !! q = Some kd → kd_vnode kd ≠ p ∨ ¬ listed s q kd) →
  step L (Lose_vnode p) (world s) w' none none → vfs_ok L e o (set_world w' s).
Proof.
  intros [Hw [(ps & Harr & Hnd & Hkd & Huniq & Hlive)] Hr Ho Hu Hc] Hno Hst.
  assert (Hlisted : ∀ q kd, q ∈ ps → v_kds s !! q = Some kd → listed s q kd).
  { intros q kd [k Hk]%list_elem_of_lookup Hl. destruct (Hkd q) as (kd' & Hl' & Hok); [by eapply list_elem_of_lookup_2|].
    rewrite Hl in Hl'. injection Hl' as <-. exists (Z.of_nat k). split; [|split; [|done]].
    - apply lookup_lt_Some in Hk. unfold array_getnum. rewrite (ar_num _ _ Harr), length_fmap. lia.
    - eapply array_getguy_spec; [done|]. by rewrite list_lookup_fmap, Hk. }
  split; cbn; [apply Hst|split; exists ps|..].
  - split_and!; [done|done| |done|].
    + intros q Hq. destruct (Hkd q Hq) as (kd & Hl & Hok). exists kd. split; [done|].
      destruct (Hno q kd Hl) as [Hne|[]]; [|by apply Hlisted]. destruct Hok as [Ha Hb Hf Hp Hd Hs]. split; try done.
      * intros f Ef. by apply (st_live _ _ _ _ _ _ Hst); [apply Hf|].
      * apply (st_pin _ _ _ _ _ _ Hst); [done|congruence].
      * intros d Ed. by apply (st_dev _ _ _ _ _ _ Hst), Hd.
    + intros f Hf. by destruct (st_old _ _ _ _ _ _ Hst f Hf) as [[Hf' _]|]; [apply Hlive|].
  - intros q. rewrite (st_refs _ _ _ _ _ _ Hst), Hr. unfold none. lia.
  - intros q. rewrite (st_opens _ _ _ _ _ _ Hst), Ho. unfold none. lia.
  - done.
  - intros q Hq. assert (1 ≤ vrefs (world s) q).
    { rewrite Hr, Hq, held_self. pose proof (held_nonneg (bootfs_vnode s) q). specialize (Hu q). lia. }
    apply (st_dir _ _ _ _ _ _ Hst); [by apply Hc|done|]. rewrite (st_refs _ _ _ _ _ _ Hst). unfold none. lia.
Qed.

(** The table of [s'] is that of [s] and one entry more. *)
Record extended s s' (k : Z) kd : Prop := {
  ex_num : array_getnum (knowndevs s') = array_getnum (knowndevs s) + 1;
  ex_entry : entry s' (array_getnum (knowndevs s)) k kd;
  ex_says j y a : 0 ≤ j < array_getnum (knowndevs s) → entry_says s j y a → entry_says s' j y a;
  ex_cwd : t_cwd s' = t_cwd s;
  ex_boot : bootfs_vnode s' = bootfs_vnode s;
}.

Lemma kd_names_later w w' kd name raw vol :
  later w w' → kd_ok w kd → kd_names w kd name raw vol → kd_names w' kd name raw vol.
Proof.
  intros Hl Hok [Hn Hr Hv]. split; [done..|]. pose proof (kd_live _ _ Hok) as Hlive. destruct (kd_fs kd) as [f|]; [|done].
  destruct Hv as (b & Hb & Hbv). exists b. split; [|done]. by rewrite (proj2 (lt_fs _ _ Hl f (Hlive f eq_refl))).
Qed.

(** The pointers of the table, by index. *)
Lemma table_ptr s ps i p : array_rep (knowndevs s) (Some <$> ps) → ps !! i = Some p → array_getguy (knowndevs s) (Z.of_nat i) = Done p.
Proof. intros Harr Hp. eapply array_getguy_spec; [done|]. by rewrite list_lookup_fmap, Hp. Qed.

Lemma table_num s ps : array_rep (knowndevs s) (Some <$> ps) → array_getnum (knowndevs s) = Z.of_nat (length ps).
Proof. intros Harr. unfold array_getnum. by rewrite (ar_num _ _ Harr), length_fmap. Qed.

(** Appending an entry whose block is new. *)
Lemma append_ok L L' e o s s1 ps a' k kd w' :
  fixed s s1 → vfs_ok L e o s1 → table_ok s → step L' Nothing (world s1) w' none none →
  array_rep (knowndevs s) (Some <$> ps) → array_rep a' (Some <$> ps ++ [k]) → k ∉ ps →
  kd_ok w' kd → kd_fs kd = None →
  let s' := Vfs a' (<[k := kd]> (v_kds s1)) (bootfs_vnode s1) (t_cwd s1) w' in
  vfs_ok L' e o s' ∧ extended s s' k kd.
Proof.
  intros [(Ha & Hb & Hcw & Hbo) Hlat] Hs1 Hts Hst Harr Harr' Hk Hok Hfs s'.
  destruct (step_quiet _ _ _ _ _ _ Hs1 Hst) as [Hs2 _]. pose proof (later_step _ _ _ _ _ Hst) as Hlat'.
  destruct (vo_table _ _ _ _ Hs2) as [(ps2 & Harr2 & Hnd & Hkd & Huniq & Hlive)]. cbn in *.
  assert (ps2 = ps) as ->.
  { pose proof (ar_contents _ _ Harr2) as E1. pose proof (ar_contents _ _ Harr) as E2. rewrite Ha in E1.
    pose proof (ar_num _ _ Harr2) as N1. pose proof (ar_num _ _ Harr) as N2. rewrite Ha in N1.
    replace (length (Some <$> ps2)) with (length (Some <$> ps)) in E1 by lia. rewrite E2 in E1.
    by apply (inj (fmap Some)) in E1. }
  assert (Hold : ∀ p, p ∈ ps → <[k := kd]> (v_kds s1) !! p = v_kds s1 !! p).
  { intros p Hp. apply lookup_insert_ne. by intros ->. }
  assert (Htab : table_ok s').
  { split. exists (ps ++ [k]). cbn. split_and!; [done|..].
    - apply list.NoDup_app. split_and!; [done| |apply NoDup_singleton]. set_solver.
    - intros p [Hp|Ep%list_elem_of_singleton]%elem_of_app; subst; [rewrite (Hold p Hp); by apply Hkd|].
      exists kd. by rewrite lookup_insert_eq.
    - intros p q kd1 kd2 f [Hp|Ep%list_elem_of_singleton]%elem_of_app [Hq|Eq%list_elem_of_singleton]%elem_of_app;
        subst; rewrite ?lookup_insert_eq, ?Hold by done; naive_solver.
    - intros f Hf. destruct (Hlive f Hf) as (p & kd' & Hp & Hl & Hf'). exists p, kd'.
      split_and!; [set_solver|by rewrite Hold|done]. }
  split.
  - destruct Hs2 as [Hw _ Hr Ho Hu Hc]. by split.
  - pose proof (table_num _ _ Harr) as Hn. pose proof (table_num s' (ps ++ [k]) Harr') as Hn'.
    rewrite length_app in Hn'. split; cbn [length t_cwd bootfs_vnode s'] in *; [lia| |..|done|done].
    + rewrite Hn. split_and!; [apply (table_ptr s' (ps ++ [k])); [done|]|apply lookup_insert_eq|done].
      by rewrite lookup_app_r, Nat.sub_diag by lia.
    + intros j y b Hj (p & kd0 & name & raw & vol & (Hg & Hl & Hok0) & Hnm & Hans).
      rewrite Hn in Hj. destruct (lookup_lt_is_Some_2 ps (Z.to_nat j)) as [p' Hp']; [lia|].
      pose proof (table_ptr _ _ _ _ Harr Hp') as Hg'. rewrite Z2Nat.id in Hg' by lia. rewrite Hg in Hg'. injection Hg' as <-.
      exists p, kd0, name, raw, vol. split_and!; [..|done].
      * split_and!; cbn.
        -- rewrite <- (Z2Nat.id j) by lia. apply (table_ptr s' (ps ++ [k])); [done|]. by apply lookup_app_l_Some.
        -- rewrite Hold by (by eapply list_elem_of_lookup_2). congruence.
        -- destruct (Hkd p) as (kd1 & Hl1 & Hok1); [by eapply list_elem_of_lookup_2|]. rewrite Hb, Hl in Hl1. by injection Hl1 as <-.
      * apply (kd_names_later (world s)); [by apply (later_trans _ (world s1))|done..].
Qed.

Lemma ostr_fun b x y : ostr b x → ostr b y → x = y.
Proof. destruct b, x, y; cbn; try done. intros. f_equal. by eapply cstr_fun. Qed.

Lemma kd_names_fun w kd n r v n' r' v' :
  kd_names w kd n r v → kd_names w kd n' r' v' → n = n' ∧ r = r' ∧ v = v'.
Proof.
  intros [Ha Hb Hc] [Ha' Hb' Hc']. split_and!; [by eapply cstr_fun|by eapply ostr_fun|].
  destruct (kd_fs kd); [|congruence]. destruct Hc as (b & Hb1 & Hv), Hc' as (b' & Hb1' & Hv').
  rewrite Hb1 in Hb1'. injection Hb1' as <-. by eapply ostr_fun.
Qed.

(** What the table says is the same in a later state with the same table. *)
Lemma entry_says_back L e o s s' j y a :
  vfs_ok L e o s → knowndevs s' = knowndevs s → (∀ p kd, listed s p kd → v_kds s' !! p = Some kd) →
  later (world s) (world s') → 0 ≤ j < array_getnum (knowndevs s) → entry_says s' j y a → entry_says s j y a.
Proof.
  intros Hs Ha Hb Hlat Hj (p & kd & n & r & v & (Hg & Hl & Hok) & Hnm & Hans).
  destruct (table_entry s j) as (p0 & kd0 & Hen); [apply Hs|done|].
  assert (Hlist : listed s p0 kd0) by (exists j; done). pose proof Hen as (Hg0 & Hl0 & Hok0).
  rewrite Ha, Hg0 in Hg. injection Hg as <-. rewrite (Hb _ _ Hlist) in Hl. injection Hl as <-.
  destruct (kd_has_names (world s) L kd0) as (n0 & r0 & v0 & Hnm0); [apply Hs|done|].
  exists p0, kd0, n0, r0, v0. split_and!; [done..|].
  destruct (kd_names_fun _ _ _ _ _ _ _ _ Hnm (kd_names_later _ _ _ _ _ _ Hlat Hok0 Hnm0)) as (-> & -> & ->). done.
Qed.

Lemma listed_ptr s ps p kd : array_rep (knowndevs s) (Some <$> ps) → listed s p kd → p ∈ ps.
Proof. intros Harr Hl. by eapply listed_in. Qed.

(** An entry that is not in the table may be written. *)
Lemma insert_kd_ok L e o s ps k kd :
  vfs_ok L e o s → array_rep (knowndevs s) (Some <$> ps) → k ∉ ps →
  vfs_ok L e o (set_kds (<[k := kd]> (v_kds s)) s).
Proof.
  intros [Hw [(ps' & Harr' & Hnd & Hkd & Huniq & Hlive)] Hr Ho Hu Hc] Harr Hk.
  assert (ps' = ps) as ->.
  { apply (inj (fmap Some)). rewrite <- (ar_contents _ _ Harr'), <- (ar_contents _ _ Harr). f_equal.
    pose proof (ar_num _ _ Harr). pose proof (ar_num _ _ Harr'). lia. }
  assert (Hold : ∀ p, p ∈ ps → <[k := kd]> (v_kds s) !! p = v_kds s !! p).
  { intros p Hp. apply lookup_insert_ne. by intros ->. }
  split; try done. split. exists ps. cbn. split_and!; [done|done|..].
  - intros p Hp. rewrite Hold by done. by apply Hkd.
  - intros p q kd1 kd2 f Hp Hq. rewrite !Hold by done. by apply Huniq.
  - intros f Hf. destruct (Hlive f Hf) as (p & kd' & Hp & Hl & Hf'). exists p, kd'. by rewrite Hold.
Qed.

(** A run that may end in a panic. *)
Definition vmay {A} (m : V W A) s (Q : A → vfs W → Prop) : Prop := m s = Panic ∨ vruns m s Q.

Lemma vmay_bind {A B} (m : V W A) (f : A → V W B) s Q Q' :
  vmay m s Q → (∀ a s', Q a s' → vmay (f a) s' Q') → vmay (m ≫= f) s Q'.
Proof.
  unfold mbind, V_bind. intros [Hp|(a & s1 & Hm & HQ)] Hf.
  - left. by rewrite Hp.
  - destruct (Hf a s1 HQ) as [Hp|(b & s2 & Hb & HQ')]; [left; by rewrite Hm|].
    right. exists b, s2. split; [|done]. by rewrite Hm.
Qed.

Lemma vmay_mono {A} (m : V W A) s (Q Q' : A → vfs W → Prop) :
  vmay m s Q → (∀ a s', Q a s' → Q' a s') → vmay m s Q'.
Proof. intros [?|Hm] HQ; [by left|right]. by eapply vruns_mono. Qed.

Lemma dev_create_run L e o s d :
  vfs_ok L e o s →
  vmay (callW (dev_create_vnode (Some d))) s (λ r s', vfs_ok L e o s' ∧ fixed s s' ∧
    ∀ p, r = Some p → (∀ q kd, listed s q kd → kd_vnode kd ≠ p) ∧ pinned (world s') p (Some d) ∧ vrefs (world s') p = 0).
Proof.
  intros Hs. destruct (dev_create_law (world s) L (Some d)) as [Hp|(r & w' & Hr & Hst & Hnew)]; [apply Hs|..].
  { left. unfold callW. by rewrite Hp. }
  right. eapply vruns_call; [done|]. destruct (step_fixed _ _ _ _ _ _ Hs Hst) as [Hs' Hf'].
  split_and!; [done|done|]. intros p Hrp. destruct (Hnew p Hrp) as (Hno & Hpin & Href).
  split_and!; [|done..]. intros q kd (i & _ & _ & _ & Hok) <-. by eapply Hno, (kd_pin _ _ Hok).
Qed.

Lemma vfs_refs_same L L' e o s s' p : vfs_ok L e o s → vfs_ok L' e o s' → keeps s s' → vrefs (world s') p = vrefs (world s) p.
Proof. intros Hs Hs' (_ & _ & Hc & Hb). by rewrite (vo_refs _ _ _ _ Hs), (vo_refs _ _ _ _ Hs'), Hc, Hb. Qed.

(** Giving up after the vnode has been made. *)
Lemma puke_vnode_run L e o s name raw p d :
  vfs_ok (name_blocks name raw ++ L) e o s → pinned (world s) p d → vrefs (world s) p = 0 →
  (∀ q kd, listed s q kd → kd_vnode kd ≠ p) →
  vruns (puke (Some name) raw (Some p) None) s (λ c s', c = ENOMEM ∧ vfs_ok L e o s' ∧ keeps s s').
Proof.
  intros Hs Hpin Href Hno. eapply free_names_run; [done|]. intros s1 Hs1 [Hk1 Hl1].
  destruct (vnode_kfree_law (world s1) L p d) as (w' & Hrun & Hst); [apply Hs1|by apply (lt_pin _ _ Hl1)|..].
  { by rewrite (vfs_refs_same _ _ _ _ _ _ _ Hs Hs1 Hk1). }
  { rewrite (vo_opens _ _ _ _ Hs1). rewrite (vo_refs _ _ _ _ Hs) in Href. pose proof (vo_users _ _ _ _ Hs p).
    pose proof (held_nonneg (t_cwd s) p). pose proof (held_nonneg (bootfs_vnode s) p). lia. }
  eapply vruns_bind, vruns_do; [done|]. apply vruns_bind, vruns_ret, vruns_ret. split_and!; [done| |done].
  eapply lose_vnode_ok; [done| |done]. intros q kd Hl. destruct (decide (kd_vnode kd = p)) as [Hp|]; [right|by left].
  intros Hlist. eapply (Hno q kd); [|done]. destruct Hlist as (i & Hi & Hg & Hl' & Hok).
  destruct Hk1 as (Ha & Hb & _). rewrite Ha in Hi, Hg. rewrite Hb in Hl'.
  destruct (table_entry s i) as (q' & kd' & Hg' & Hl2 & Hok'); [apply Hs|done|].
  rewrite Hg in Hg'. injection Hg' as <-. rewrite Hl' in Hl2. injection Hl2 as <-. by exists i.
Qed.

(** The outcome of adding a device by the names [x] and [rx]. *)
Definition add_result L0 e o s (x : list Z) (rx : option (list Z)) (d : Z) (c : Z) s' : Prop :=
  (∃ L, vfs_ok (L ++ array_blocks (knowndevs s') ++ L0) e o s') ∧
  (c = ENOMEM ∧ knowndevs s' = knowndevs s ∨
   c = EEXIST ∧ knowndevs s' = knowndevs s ∧ (∃ y, y ∈ names3 (Some x) rx None ∧ known s y) ∨
   c = 0 ∧ (∀ y, y ∈ names3 (Some x) rx None → free s y) ∧
     ∃ k kd p, extended s s' k kd ∧ kd_names (world s') kd x rx None ∧ kd_vnode kd = p ∧
       kd_fs kd = None ∧ pinned (world s') p (Some d)).

(** The end of vfs_doadd: the entry [k] is filled in and added. *)
Definition add_entry (k : Z) (name : kstring) (raw : option kstring) (d p : Z) : V W Z :=
  modV (λ s, set_kds (<[k := Knowndev name raw (Some d) p None]> (v_kds s)) s);;
  volname ← volname_of None;
  bad ← badnames (Some name.2) (snd <$> raw) volname;
  if (bad : bool) then mret EEXIST else array_addV k.

Lemma array_add_run L0 LN e o s ps k :
  vfs_ok (LN ++ array_blocks (knowndevs s) ++ L0) e o s → array_rep (knowndevs s) (Some <$> ps) →
  Z.of_nat (length ps) < array_limit →
  ∃ c a' h, array_add (knowndevs s) k (heap (world s)) = Done (c, a', h) ∧
    step (LN ++ array_blocks a' ++ L0) Nothing (world s) (set_heap h (world s)) none none ∧
    (c = ENOMEM ∧ a' = knowndevs s ∨ c = 0 ∧ array_rep a' (Some <$> ps ++ [k])).
Proof.
  intros Hs Harr Hlim. pose proof (wok_owns _ _ (vo_world _ _ _ _ Hs)) as Hown.
  assert (Hperm : ∀ A R : list Z, (LN ++ A ++ L0) ++ R ≡ₚ A ++ LN ++ L0 ++ R) by (intros; solve_Permutation).
  destruct (array_add_spec (knowndevs s) (Some <$> ps) k (heap (world s)) (LN ++ L0 ++ []) Harr) as (c & a' & h & Hadd & _ & _ & Hr & _).
  { by rewrite <- Hperm, app_nil_r. }
  { by rewrite length_fmap. }
  exists c, a', h. split_and!; [done| |].
  - eapply wok_heap; [apply Hs|]. intros R HR. rewrite Hperm in HR |- *.
    destruct (array_add_spec (knowndevs s) (Some <$> ps) k (heap (world s)) _ Harr HR) as (c' & a'' & h' & Hadd' & Hown' & _).
    { by rewrite length_fmap. }
    rewrite Hadd in Hadd'. by injection Hadd' as <- <- <-.
  - rewrite fmap_app. destruct Hr as [Hr|Hr]; [by left|by right].
Qed.

Lemma add_entry_run L0 L1 e o s s0 ps k name raw x rx d p :
  vfs_ok (k :: name_blocks name raw ++ array_blocks (knowndevs s) ++ L0) e o s →
  fixed s0 s → vfs_ok L1 e o s0 →
  array_rep (knowndevs s) (Some <$> ps) → (∀ p, p ∈ ps → p ∈ L0) → Z.of_nat (length ps) < array_limit →
  cstr name.2 x → ostr (snd <$> raw) rx → is_device (world s) d → pinned (world s) p (Some d) →
  vruns (add_entry k name raw d p) s (add_result L0 e o s0 x rx d).
Proof.
  intros Hs [Hk0 Hl0] Hs0 Harr Hps Hlim Hx Hrx Hd Hpin. pose proof Hk0 as (Ha & Hb & Hc & Hbt).
  assert (Hk : k ∉ ps).
  { intros Hin%Hps. pose proof (wok_owns _ _ (vo_world _ _ _ _ Hs)) as (_ & [Hnin _]%list.NoDup_cons & _). set_solver. }
  set (kd := Knowndev name raw (Some d) p None).
  pose proof (insert_kd_ok _ _ _ _ _ k kd Hs Harr Hk) as Hs1. apply vruns_mod, vruns_bind, vruns_ret.
  assert (Hback : ∀ j y a, 0 ≤ j < array_getnum (knowndevs s0) →
    entry_says (set_kds (<[k := kd]> (v_kds s)) s) j y a → entry_says s0 j y a).
  { intros j y a Hj. eapply entry_says_back; [done|done| |done|done]. intros q kd' Hlist. cbn.
    assert (q ∈ ps) by (eapply (listed_ptr s0); [by rewrite <- Ha|done]).
    rewrite lookup_insert_ne by (by intros ->). rewrite Hb. by destruct Hlist as (? & _ & _ & ? & _). }
  eapply vruns_seq; [by eapply (badnames_run _ _ _ _ _ _ _ (Some x) rx None)|]. intros bad s2 [-> Hbad].
  destruct bad.
  { apply vruns_ret. split; [by exists (k :: name_blocks name raw)|]. right; left. split_and!; [done|done|].
    destruct Hbad as (y & Hy & i & a & Hi & Hsay). exists y. split; [done|]. exists i, a. cbn in Hi. rewrite Ha in Hi. auto. }
  assert (Hfree : ∀ y, y ∈ names3 (Some x) rx None → free s0 y).
  { intros y Hy i Hi. apply Hback; [done|]. apply Hbad; [done|]. cbn. by rewrite Ha. }
  destruct (array_add_run L0 (k :: name_blocks name raw) e o (set_kds (<[k := kd]> (v_kds s)) s) ps k Hs1 Harr Hlim) as (c & a' & h & Hadd & Hst & Hres).
  cbn [knowndevs world set_kds] in Hadd, Hst, Hres.
  eexists c, _. split; [unfold array_addV; cbn; by rewrite Hadd|]. destruct Hres as [[-> ->]|[-> Harr']].
  - destruct (step_fixed _ _ _ _ _ _ Hs1 Hst) as [Hs2 _]. split; [by exists (k :: name_blocks name raw)|]. by left.
  - pose proof (later_step _ _ _ _ _ Hst) as Hl2.
    assert (Hok : kd_ok (set_heap h (world s)) kd).
    { split; cbn; [by exists x| |done|by apply (lt_pin _ _ Hl2)| |by eexists].
      - intros r ->. destruct rx as [y|]; [by exists y|done].
      - intros d' [= <-]. by apply (lt_dev _ _ Hl2). }
    destruct (append_ok _ ((k :: name_blocks name raw) ++ array_blocks a' ++ L0) e o s0 s ps a' k kd (set_heap h (world s)) (conj Hk0 Hl0) Hs) as [Hs2 Hex];
      [apply Hs0|done|by rewrite <- Ha|done..|]. split; [by exists (k :: name_blocks name raw)|]. right; right.
    split_and!; [done|done|]. exists k, kd, p. split_and!; [done| |done|done|apply Hok]. by split.
Qed.

Lemma doadd_named_run L0 L1 e o s s0 ps name raw x rx d :
  vfs_ok (name_blocks name raw ++ array_blocks (knowndevs s) ++ L0) e o s → fixed s0 s → vfs_ok L1 e o s0 →
  array_rep (knowndevs s) (Some <$> ps) → (∀ p, p ∈ ps → p ∈ L0) → Z.of_nat (length ps) < array_limit →
  cstr name.2 x → ostr (snd <$> raw) rx → is_device (world s) d →
  vmay (doadd_named name raw (Some d) None) s (add_result L0 e o s0 x rx d).
Proof.
  intros Hs Hf0 Hs0 Harr Hps Hlim Hx Hrx Hd. set (Lb := array_blocks (knowndevs s) ++ L0) in *.
  eapply vmay_bind; [by apply dev_create_run|]. intros r s1 (Hs1 & [Hk1 Hl1] & Hp1).
  pose proof Hk1 as (Ha1 & Hb1 & Hc1 & Hd1). destruct r as [p|].
  2:{ right. eapply free_names_run; [done|]. intros s2 Hs2 [(Ha2 & _) _].
      apply vruns_bind, vruns_ret, vruns_bind, vruns_ret, vruns_ret. split.
      - exists []. by rewrite Ha2, Ha1.
      - left. split; [done|]. destruct Hf0 as [(? & _) _]. congruence. }
  destruct (Hp1 p eq_refl) as (Hno & Hpin & Href).
  eapply vmay_bind; [right; apply kmalloc_run; [done|by vm_compute]|]. intros k s2 [[Hk2 Hl2] Hs2]. right.
  pose proof (keeps_trans _ _ _ Hk1 Hk2) as Hk. pose proof Hk as (Ha & Hb & _).
  pose proof (lt_pin _ _ Hl2 _ _ Hpin) as Hpin2. destruct k as [k|].
  - apply (add_entry_run L0 L1 e o s2 s0 ps);
      [by rewrite Ha|eapply fixed_trans; [done|by split; [|by eapply later_trans]]|done|by rewrite Ha|done|done|done|done| |done].
    by apply (lt_dev _ _ Hl2), (lt_dev _ _ Hl1).
  - eapply vruns_mono; [eapply puke_vnode_run; [done|done|..]|].
    + by rewrite (vfs_refs_same _ _ _ _ _ _ _ Hs1 Hs2 Hk2).
    + intros q kd (i & Hi & Hg & Hl & Hok). eapply (Hno q). exists i. rewrite Ha in Hi, Hg. rewrite Hb in Hl. split; [done|].
      destruct (table_entry s i) as (q' & kd' & Hg' & Hl' & Hok'); [apply Hs|done|].
      rewrite Hg in Hg'. injection Hg' as <-. rewrite Hl in Hl'. injection Hl' as <-. done.
    + intros c s3 (-> & Hs3 & (Ha3 & _)). split; [exists []; by rewrite Ha3, Ha|]. left. split; [done|].
      destruct Hf0 as [(? & _) _]. congruence.
Qed.

Lemma adddev_run L0 e o s ps b x (m : bool) d :
  vfs_ok (array_blocks (knowndevs s) ++ L0) e o s →
  array_rep (knowndevs s) (Some <$> ps) → (∀ p, p ∈ ps → p ∈ L0) → Z.of_nat (length ps) < array_limit →
  cstr b x → Z.of_nat (length x) < 2 ^ 30 → is_device (world s) d →
  vmay (vfs_adddev b d m) s (add_result L0 e o s x (if m then Some (raw_of x) else None) d).
Proof.
  intros Hs Harr Hps Hlim Hb Hlen Hd.
  assert (Hgone : ∀ s' rx, fixed s s' → vfs_ok (array_blocks (knowndevs s) ++ L0) e o s' → add_result L0 e o s x rx d ENOMEM s').
  { intros s' rx [(Ha & _) _] Hs'. split; [exists []; by rewrite Ha|]. by left. }
  eapply vmay_bind; [right; apply (kstrdup_run _ _ _ _ _ _ Hs Hb); lia|]. intros [[na nb]|] s1 [Hf1 Hs1].
  2:{ right. apply vruns_bind, vruns_ret, vruns_bind, vruns_ret, vruns_bind, vruns_ret, vruns_bind, vruns_ret, vruns_ret. auto. }
  destruct Hs1 as [Hs1 Hnb]. destruct m.
  - eapply vmay_bind; [right; by apply (mkrawname_run _ _ _ _ _ _ Hs1 Hnb)|].
    intros [[ra rb]|] s2 [Hf2 Hs2].
    + destruct Hs2 as [Hs2 Hrb]. pose proof (fixed_trans _ _ _ Hf1 Hf2) as Hf. pose proof Hf as [(Ha & _) Hl].
      apply (doadd_named_run L0 (array_blocks (knowndevs s) ++ L0) e o s2 s ps (na, nb) (Some (ra, rb))); try done; [|by rewrite Ha|by apply (lt_dev _ _ Hl)].
      eapply vfs_ok_perm; [|done]. rewrite Ha. cbn. apply Permutation_swap.
    + right. eapply (free_names_run (array_blocks (knowndevs s) ++ L0) _ _ _ _ None); [exact Hs2|]. intros s3 Hs3 Hf3.
      apply vruns_bind, vruns_ret, vruns_bind, vruns_ret, vruns_ret. apply Hgone; [by eapply fixed_trans, fixed_trans|done].
  - pose proof Hf1 as [(Ha & _) Hl].
    apply (doadd_named_run L0 (array_blocks (knowndevs s) ++ L0) e o s1 s ps (na, nb) None); try done; [by rewrite Ha..|by apply (lt_dev _ _ Hl)].
Qed.

(** The names of the new entry resolve to it, the others as before. *)
Lemma added_says s s' k kd x rx :
  extended s s' k kd → kd_names (world s') kd x rx None → kd_fs kd = None →
  (∀ y, y ∈ names3 (Some x) rx None → free s y) →
  (∀ y a, table_says s y a → table_says s' y a) ∧
  table_says s' x (match rx with Some _ => Unmounted | None => Itself (kd_vnode kd) end) ∧
  (∀ y, rx = Some y → y ≠ x → table_says s' y (Itself (kd_vnode kd))).
Proof.
  intros [Hnum Hen Hold _ _] Hnm Hfs Hfree.
  assert (Hnew : ∀ y a, y ∈ names3 (Some x) rx None → 0 ≤ array_getnum (knowndevs s) →
    entry_answer kd x rx None y = Some a → table_says s' y a).
  { intros y a Hy Hpos Ha. exists (array_getnum (knowndevs s)). split_and!; [lia|lia|by exists k, kd, x, rx, None|].
    intros j Hj. apply Hold; [done|]. by apply Hfree. }
  assert (Hpos : 0 ≤ array_getnum (knowndevs s)).
  { destruct Hen as (Hg & _). unfold array_getguy in Hg. apply bind_Done in Hg as ([] & _ & Hg).
    apply bind_Done in Hg as ([] & Hi%kassert_Done & _). lia. }
  split_and!.
  - intros y a (i & Hi & Hsay & Hb). exists i. split_and!; [lia|lia|by apply Hold|]. intros j Hj. apply Hold; [lia|auto].
  - apply Hnew; [set_solver|done|]. unfold entry_answer. rewrite Hfs, bool_decide_true by done. f_equal.
    pose proof (kn_raw _ _ _ _ _ Hnm) as Hr. destruct (kd_rawname kd), rx; done.
  - intros y -> Hne. apply Hnew; [unfold names3; cbn; set_solver|done|]. unfold entry_answer.
    rewrite Hfs, bool_decide_false by congruence. cbn. by rewrite bool_decide_true.
Qed.

Lemma entry_says_fun s i y a a' : entry_says s i y a → entry_says s i y a' → a = a'.
Proof.
  intros (p & kd & n & r & v & (Hg & Hl & _) & Hnm & <-) (p' & kd' & n' & r' & v' & (Hg' & Hl' & _) & Hnm' & <-).
  rewrite Hg in Hg'. injection Hg' as <-. rewrite Hl in Hl'. injection Hl' as <-.
  by destruct (kd_names_fun _ _ _ _ _ _ _ _ Hnm Hnm') as (-> & -> & ->).
Qed.

Lemma table_says_fun s y a a' : table_says s y a → table_says s y a' → a = a'.
Proof.
  intros (i & Hi & Hs & Hb) (j & Hj & Hs' & Hb'). destruct (Z.lt_trichotomy i j) as [Hlt|[->|Hlt]].
  - assert (entry_says s i y None) as Hn by (apply Hb'; lia). by pose proof (entry_says_fun _ _ _ _ _ Hs Hn).
  - pose proof (entry_says_fun _ _ _ _ _ Hs Hs'). congruence.
  - assert (entry_says s j y None) as Hn by (apply Hb; lia). by pose proof (entry_says_fun _ _ _ _ _ Hs' Hn).
Qed.

(** Naming a device resolves as its table says. *)
Lemma getroot_says L e o s b y a :
  vfs_ok L e o s → cstr b y → table_says s y a →
  ∃ r s', vfs_getroot b s = Done (r, s') ∧ answered s s' a r.
Proof.
  intros Hs Hb Ha. destruct (getroot_run _ _ _ _ _ _ Hs Hb) as (r & s' & Hrun & _ & _ & Hn).
  exists r, s'. split; [done|]. destruct Hn as [(a' & Ha' & Hans)|[-> Hnone]].
  - by rewrite (table_says_fun _ _ _ _ Ha Ha').
  - destruct Ha as (i & Hi & Hsay & _). by pose proof (entry_says_fun _ _ _ _ _ Hsay (Hnone i Hi)).
Qed.

(** ** Starting the layer *)

Lemma empty_ok w L (a : array Z) :
  wok w L → array_rep a [] → (∀ f, ¬ fs_live w f) → (∀ q, vrefs w q = 0 ∧ vopens w q = 0) →
  vfs_ok L none none (Vfs a ∅ None None w).
Proof.
  intros Hw Ha Hf Hq. split; cbn; unfold none; try done.
  - split. exists []. cbn. split_and!; [done|apply NoDup_nil_2|by intros p ?%not_elem_of_nil|by intros p q ? ? f ?%not_elem_of_nil|].
    intros f Hl. by destruct (Hf f).
  - intros q. destruct (Hq q). lia.
  - intros q. by destruct (Hq q).
Qed.

Lemma lock_or_panic_run L e o s n :
  vfs_ok L e o s → 0 ≤ n < 2 ^ 31 → vmay (lock_or_panic n) s (λ _ s', fixed s s' ∧ ∃ B, vfs_ok (B ++ L) e o s').
Proof.
  intros Hs Hn. eapply vmay_bind; [right; apply (kmalloc_run _ _ _ _ _ Hs); by vm_compute|].
  intros [l|] s1 [Hf1 Hs1]; [|by left]. eapply vmay_bind; [right; apply (kmalloc_run _ _ _ _ _ Hs1); lia|].
  intros [p|] s2 [Hf2 Hs2]; [|by left]. right. apply vruns_ret. split; [by eapply fixed_trans|]. by exists [p; l].
Qed.

Lemma null_name_str : cstr null_name [110; 117; 108; 108].
Proof. exists []. split; [done|set_solver by lia]. Qed.

Lemma devnull_create_run L0 e o s :
  vfs_ok (array_blocks (knowndevs s) ++ L0) e o s → array_rep (knowndevs s) [] →
  vmay devnull_create s (λ _ s', ∃ L d p, vfs_ok L e o s' ∧
    table_says s' [110; 117; 108; 108] (Itself p) ∧ pinned (world s') p (Some d) ∧
    t_cwd s' = t_cwd s ∧ bootfs_vnode s' = bootfs_vnode s).
Proof.
  intros Hs Ha. eapply vmay_bind; [right; apply (kmalloc_run _ _ _ _ _ Hs); by vm_compute|].
  intros [d|] s1 [[(Hk1 & Hm1 & Hc1 & Hb1) Hl1] Hs1]; [|by left].
  destruct (null_law (world s1) _ d (vo_world _ _ _ _ Hs1)) as [Hst Hd].
  destruct (step_fixed _ _ _ _ _ _ Hs1 Hst) as [Hs2 _].
  apply (vmay_bind _ _ _ (λ _ s2, s2 = set_world (null_device d (world s1)) s1)); [right; by eexists _, _|].
  intros _ s2 ->. eapply vmay_bind.
  - apply (adddev_run (d :: L0) e o _ [] null_name [110; 117; 108; 108] false d); [|cbn; by rewrite Hk1|set_solver|done|apply null_name_str|done|done].
    eapply vfs_ok_perm; [|exact Hs2]. cbn. rewrite Hk1. apply Permutation_middle.
  - intros c s3 [[L Hs3] Hres]. cbn. destruct (c =? 0) eqn:Ec; [|by left]. right. apply vruns_ret. apply Z.eqb_eq in Ec as ->.
    destruct Hres as [[? _]|[[? _]|(_ & Hfree & k & kd & p & Hex & Hnm & <- & Hfs & Hpin)]]; [done|done|].
    destruct (added_says _ _ _ _ _ _ Hex Hnm Hfs Hfree) as (_ & Hx & _).
    eexists _, d, _. split_and!; [done..|by rewrite (ex_cwd _ _ _ _ Hex)|by rewrite (ex_boot _ _ _ _ Hex)].
Qed.

(** The layer comes up with null: or the kernel panics for want of memory. *)
Lemma bootstrap_run w L :
  wok w L → (∀ f, ¬ fs_live w f) → (∀ q, vrefs w q = 0 ∧ vopens w q = 0) →
  vfs_bootstrap w = Panic ∨
  ∃ s L d p, vfs_bootstrap w = Done s ∧ vfs_ok L none none s ∧ t_cwd s = None ∧ bootfs_vnode s = None ∧
    table_says s [110; 117; 108; 108] (Itself p) ∧ pinned (world s) p (Some d).
Proof.
  intros Hw Hf Hq. unfold vfs_bootstrap.
  destruct (array_create_spec (A := Z) _ _ (wok_owns _ _ Hw)) as (r & h & Hc & Hr). rewrite Hc. destruct r as [a|]; [|by left].
  assert (Hst : step (array_blocks a ++ L) Nothing w (set_heap h w) none none ∧ array_rep a []).
  { split; [|apply Hr].
    apply (wok_heap _ L); [done|]. intros R HR. destruct (array_create_spec (A := Z) _ _ HR) as (r' & h' & Hc' & Hr').
    rewrite Hc in Hc'. injection Hc' as <- <-. rewrite <- (assoc_L (++)). apply Hr'. }
  destruct Hst as [Hst Ha]. pose proof (st_refs _ _ _ _ _ _ Hst) as Hsr. pose proof (st_opens _ _ _ _ _ _ Hst) as Hso.
  assert (Hs : vfs_ok (array_blocks a ++ L) none none (Vfs a ∅ None None (set_heap h w))).
  { apply empty_ok; [apply Hst|done| |].
    - intros f Hl. by destruct (st_old _ _ _ _ _ _ Hst f Hl) as [[?%Hf _]|].
    - intros q. rewrite Hsr, Hso. unfold none. destruct (Hq q). lia. }
  cbn [mbind outcome_bind].
  assert (Hrun : vmay (lock_or_panic 9;; lock_or_panic 11;; devnull_create) (Vfs a ∅ None None (set_heap h w))
    (λ _ s, ∃ L d p, vfs_ok L none none s ∧ table_says s [110; 117; 108; 108] (Itself p) ∧ pinned (world s) p (Some d) ∧
       t_cwd s = None ∧ bootfs_vnode s = None)).
  { eapply vmay_bind; [by apply (lock_or_panic_run _ _ _ _ 9 Hs)|]. intros _ s1 [[(Ha1 & _ & Hc1 & Hb1) _] [B1 Hs1]].
    eapply vmay_bind; [by apply (lock_or_panic_run _ _ _ _ 11 Hs1)|]. intros _ s2 [[(Ha2 & _ & Hc2 & Hb2) _] [B2 Hs2]].
    eapply vmay_mono; [apply (devnull_create_run (B2 ++ B1 ++ L)); [|by rewrite Ha2, Ha1]|].
    - eapply vfs_ok_perm; [|exact Hs2]. rewrite Ha2, Ha1. cbn. solve_Permutation.
    - intros _ s (L' & d & p & ? & ? & ? & -> & ->). rewrite Hc2, Hc1, Hb2, Hb1. by exists L', d, p. }
  destruct Hrun as [->|([] & s & -> & L' & d & p & ? & ? & ? & ? & ?)]; [by left|right].
  by exists s, L', d, p.
Qed.

(** A device added under a name is found under it.  vfs_adddev runs out
    of memory, refuses a name that an entry of the table goes by, or adds
    the device so that its name (for a mountable device the name with "raw"
    appended) gives its vnode, a mountable device's own name ENXIO, and
    every other name what it gave before. *)
Theorem adddev_getroot L0 e o s ps b x (m : bool) d :
  vfs_ok (array_blocks (knowndevs s) ++ L0) e o s →
  array_rep (knowndevs s) (Some <$> ps) → (∀ p, p ∈ ps → p ∈ L0) → Z.of_nat (length ps) < array_limit →
  cstr b x → Z.of_nat (length x) < 2 ^ 30 → is_device (world s) d →
  vfs_adddev b d m s = Panic ∨
  ∃ c s', vfs_adddev b d m s = Done (c, s') ∧
    (c = ENOMEM ∧ knowndevs s' = knowndevs s ∨
     c = EEXIST ∧ knowndevs s' = knowndevs s ∧ (known s x ∨ m = true ∧ known s (raw_of x)) ∨
     c = 0 ∧ (∀ y a, table_says s y a → table_says s' y a) ∧
       ∃ p, pinned (world s') p (Some d) ∧
         ∀ b', (cstr b' (if m then raw_of x else x) → ∃ s2, vfs_getroot b' s' = Done (Ok p, s2)) ∧
               (m = true → cstr b' x → ∃ s2, vfs_getroot b' s' = Done (Err ENXIO, s2))).
Proof.
  intros Hs Harr Hps Hlim Hb Hlen Hd.
  destruct (adddev_run _ _ _ _ _ _ _ m _ Hs Harr Hps Hlim Hb Hlen Hd) as [Hp|(c & s' & Hrun & [L Hs'] & Hres)]; [by left|right].
  exists c, s'. split; [done|]. destruct Hres as [Hr|[(-> & Ha & y & Hy & Hk)|(-> & Hfree & k & kd & p & Hex & Hnm & <- & Hfs & Hpin)]].
  - by left.
  - right; left. split_and!; [done..|]. destruct m; unfold names3 in Hy; cbn in Hy.
    + apply elem_of_cons in Hy as [->|Hy]; [by left|]. apply list_elem_of_singleton in Hy as ->. by right.
    + apply list_elem_of_singleton in Hy as ->. by left.
  - right; right. destruct (added_says _ _ _ _ _ _ Hex Hnm Hfs Hfree) as (Hold & Hx & Hraw).
    split_and!; [done..|]. exists (kd_vnode kd). split; [done|]. intros b'. split.
    + intros Hb'. assert (table_says s' (if m then raw_of x else x) (Itself (kd_vnode kd))) as Hsays.
      { destruct m; [apply Hraw; [done|]|done]. unfold raw_of. intros E. apply (f_equal length) in E.
        rewrite length_app in E. cbn in E. lia. }
      destruct (getroot_says _ _ _ _ _ _ _ Hs' Hb' Hsays) as (r & s2 & Hg & ->). by exists s2.
    + intros -> Hb'. destruct (getroot_says _ _ _ _ _ _ _ Hs' Hb' Hx) as (r & s2 & Hg & ->). by exists s2.
Qed.

(** A path name starts where its form says: a relative one at the
    current directory, one that begins with a slash at the root of the boot
    file system, one that begins with a colon at the root of the file
    system of the current directory, and [device:path] at what the device
    name stands for; the slashes after the device or the leading colon or
    slash are skipped.  The vnode comes with a reference to it. *)
Theorem path_starts L e o s path x :
  vfs_ok L e o s → cstr path x →
  ∃ r s', getdevice path s = Done (r, s') ∧ vfs_ok L (e ⊞ got2 r) o s' ∧ keeps s s' ∧ located s s' x r.
Proof. intros Hs Hx. by apply getdevice_run. Qed.

(** vfs_setbootfs refuses every name with a colon, also one at the end,
    which its comment means to allow. *)
Theorem setbootfs_colon L e o s fsname x :
  vfs_ok L e o s → cstr fsname x → chars x → Z.of_nat (length x) < 2 ^ 31 → 58 ∈ take 254 x →
  vfs_setbootfs fsname s = Done (EINVAL, s).
Proof.
  intros Hs Hx Hc Hlen Hin. destruct (setbootfs_run _ _ _ _ _ _ Hs Hx Hc Hlen) as (r & s' & Hrun & _ & _ & Hr).
  by destruct (Hr Hin) as [-> ->].
Qed.

(** ** The calls of the layer *)

Inductive vfsop :=
  | Vopen (path : list Z) (flags : Z)
  | Vclose (p : Z)
  | Vremove (path : list Z)
  | Vrename (old new : list Z)
  | Vlink (old new : list Z)
  | Vsymlink (contents path : list Z)
  | Vreadlink (path : list Z) (u : uio)
  | Vmkdir (path : list Z)
  | Vrmdir (path : list Z)
  | Vchdir (path : list Z)
  | Vclearcurdir
  | Vgetcwd (u : uio)
  | Vsetbootfs (name : list Z)
  | Vclearbootfs
  | Vsync
  | Vmount (dev : list Z) (mountfunc : Z → W → outcome (res Z * W))
  | Vunmount (dev : list Z)
  | Vunmountall.

Definition opened (r : res Z) : option Z := match r with Ok p => Some p | Err _ => None end.
Definition without {A} (m : V W A) : V W (option Z) := _ ← m; mret None.

(** A call; the result is the vnode that it hands out. *)
Definition vfs_call (op : vfsop) : V W (option Z) :=
  match op with
  | Vopen path flags => r ← vfs_open path flags; mret (opened r)
  | Vclose p => without (vfs_close p)
  | Vremove path => without (vfs_remove path)
  | Vrename old new => without (vfs_rename old new)
  | Vlink old new => without (vfs_link old new)
  | Vsymlink contents path => without (vfs_symlink contents path)
  | Vreadlink path u => without (vfs_readlink path u)
  | Vmkdir path => without (vfs_mkdir path)
  | Vrmdir path => without (vfs_rmdir path)
  | Vchdir path => without (vfs_chdir path)
  | Vclearcurdir => without vfs_clearcurdir
  | Vgetcwd u => without (vfs_getcwd u)
  | Vsetbootfs name => without (vfs_setbootfs name)
  | Vclearbootfs => without vfs_clearbootfs
  | Vsync => without vfs_sync
  | Vmount dev mf => without (vfs_mount dev mf)
  | Vunmount dev => without (vfs_unmount dev)
  | Vunmountall => without vfs_unmountall
  end.

(** What a caller must see to; [l] are the vnodes open. *)
Definition allowed (s : vfs W) (l : list Z) (op : vfsop) : Prop :=
  match op with
  | Vopen path _ | Vremove path | Vreadlink path _ | Vmkdir path | Vrmdir path | Vchdir path | Vunmount path => is_str path
  | Vclose p => p ∈ l
  | Vrename old new | Vlink old new | Vsymlink old new => is_str old ∧ is_str new
  | Vgetcwd u => user_uio u (user (world s))
  | Vsetbootfs name => ∃ x, cstr name x ∧ chars x ∧ Z.of_nat (length x) < 2 ^ 31
  | Vmount dev mf => is_str dev ∧ mount_law mf
  | Vclearcurdir | Vclearbootfs | Vsync | Vunmountall => True
  end.

(** The vnodes open after a call. *)
Fixpoint remove_one (p : Z) (l : list Z) : list Z :=
  match l with [] => [] | q :: l => if decide (q = p) then l else q :: remove_one p l end.
Definition after (op : vfsop) (r : option Z) (l : list Z) : list Z :=
  match op, r with Vopen _ _, Some p => p :: l | Vclose p, _ => remove_one p l | _, _ => l end.

Inductive vfs_step : vfs W * list Z → vfs W * list Z → Prop :=
  | do_call s s' l op r :
      allowed s l op → vfs_call op s = Done (r, s') → vfs_step (s, l) (s', after op r l).

(** How often a vnode is open. *)
Definition count (l : list Z) : Z → Z := λ q, Z.of_nat (length (filter (λ x, x = q) l)).

Lemma count_cons p l q : count (p :: l) q = (count l ⊞ one p 1) q.
Proof.
  unfold count, plus, one. rewrite filter_cons. destruct (decide (p = q)), (decide (q = p)); subst; try done; cbn [length]; lia.
Qed.

Lemma count_remove p l q : p ∈ l → count l q = (count (remove_one p l) ⊞ one p 1) q.
Proof.
  induction l as [|x l IH]; [by intros ?%not_elem_of_nil|]. cbn [remove_one]. case_decide as Hx.
  - subst. intros _. apply count_cons.
  - intros [->|Hp]%elem_of_cons; [done|]. specialize (IH Hp). unfold plus in *.
    rewrite (count_cons x l), (count_cons x (remove_one p l)). unfold plus. lia.
Qed.

Lemma without_run {A} (m : V W A) s Q : vruns m s (λ _ s', Q s') → vruns (without m) s (λ r s', r = None ∧ Q s').
Proof. intros Hm. eapply vruns_seq; [done|]. intros a s' HQ. by apply vruns_ret. Qed.

Lemma call_run L s l op :
  vfs_ok L (count l) (count l) s → allowed s l op →
  vruns (vfs_call op) s (λ r s', vfs_ok L (count (after op r l)) (count (after op r l)) s').
Proof.
  intros Hs Hop. pose proof (vo_users _ _ _ _ Hs) as Hu.
  assert (Hq : ∀ A (m : V W A) (Q : A → vfs W → Prop), vruns m s Q → (∀ a s', Q a s' → vfs_ok L (count l) (count l) s') →
    after op None l = l →
    vruns (without m) s (λ r s', vfs_ok L (count (after op r l)) (count (after op r l)) s')).
  { intros A m Q Hm HQ Hl. eapply vruns_mono; [apply without_run; eapply vruns_mono; [done|exact HQ]|].
    intros r s' [-> Hs']. by rewrite Hl. }
  destruct op; cbn [vfs_call allowed] in *.
  - eapply vruns_seq; [by apply open_run|]. intros r s' [Hs' _]. apply vruns_ret. eapply vfs_ok_ext; [done|..];
      destruct r; intros q; cbn [opened after got]; rewrite ?count_cons; unfold plus, none; lia.
  - eapply vruns_mono; [apply without_run; eapply vruns_mono; [apply (close_run L (count (remove_one p l)) (count (remove_one p l)))|]|].
    + eapply vfs_ok_ext; [done|intros q; by rewrite <- count_remove..].
    + intros q. unfold count. lia.
    + intros [] s' [Hs' _]. exact Hs'.
    + by intros r s' [-> Hs'].
  - eapply Hq; [apply in_parent_run; [done|done|intros; by apply remove_law]|by intros ? ? []|done].
  - destruct Hop. eapply Hq; [by apply vrename_run|by intros ? ? []|done].
  - destruct Hop. eapply Hq; [by apply vlink_run|by intros ? ? []|done].
  - destruct Hop. eapply Hq; [apply in_parent_run; [done|done|intros; by apply symlink_law]|by intros ? ? []|done].
  - eapply Hq; [by apply readlink_run|by intros ? ? []|done].
  - eapply Hq; [apply in_parent_run; [done|done|intros; by apply mkdir_law]|by intros ? ? []|done].
  - eapply Hq; [apply in_parent_run; [done|done|intros; by apply rmdir_law]|by intros ? ? []|done].
  - eapply Hq; [by apply chdir_run|by intros ? ? []|done].
  - eapply Hq; [by apply clearcurdir_run|by intros ? ? []|done].
  - eapply Hq; [by apply getcwd_run|by intros ? ? []|done].
  - destruct Hop as (x & Hx & Hc & Hlen). eapply Hq; [by eapply setbootfs_run|by intros ? ? []|done].
  - eapply Hq; [by apply clearbootfs_run|by intros ? ? []|done].
  - eapply Hq; [by apply vsync_run|by intros ? ? []|done].
  - destruct Hop. eapply Hq; [by apply vmount_run|by intros ? ? []|done].
  - eapply Hq; [by apply vunmount_run|by intros ? ? []|done].
  - eapply Hq; [by apply unmountall_run|by intros ? ? []|done].
Qed.

Lemma system_run L s l s' l' :
  vfs_ok L (count l) (count l) s → rtc vfs_step (s, l) (s', l') → vfs_ok L (count l') (count l') s'.
Proof.
  intros Hs Hr. remember (s, l) as c1 eqn:E1. remember (s', l') as c2 eqn:E2. revert s l s' l' E1 E2 Hs.
  induction Hr as [c|c1 c2 c3 Hst _ IH]; intros s l s' l' E1 E2 Hs.
  - simplify_eq. done.
  - subst c1 c3. inversion Hst as [s0 s1 l0 op r Hop Hrun]; subst.
    eapply IH; [done|done|]. destruct (call_run _ _ _ _ Hs Hop) as (r' & s1' & Hrun' & Hs1).
    rewrite Hrun in Hrun'. by injection Hrun' as <- <-.
Qed.

End Vfs.
