(* ===== verification/VfsDev.v ===== *)
(** * Device vnodes (kern/fs/vfs: device.c, devnull.c, vnode.c)

    The functions of device.c hand the operations on the vnode of a device
    to the functions of its [device].  [devworld] puts device vnodes beside
    the vnodes of a file system below, and is a world for the VFS layer; the
    laws of the layer's interface are proved from those of the file system. *)

From S2P Require Import Prelude Ram Kheap KheapSpec KArray Bytes Mem CString Printf Uio Vfs VfsSpec.

(** struct device; its functions work on a state [S]. *)
Record device (S : Type) := Dev {
  dv_open : Z → S → outcome (Z * S);
  dv_close : S → outcome (Z * S);
  dv_io : uio → S → outcome (Z * uio * S);
  dv_ioctl : Z → Z → S → outcome (Z * S);
  dv_blocks : Z;
  dv_blocksize : Z;
}.
Arguments Dev {S} _ _ _ _ _ _.
Arguments dv_open {S} _ _ _.
Arguments dv_close {S} _ _.
Arguments dv_io {S} _ _ _.
Arguments dv_ioctl {S} _ _ _ _.
Arguments dv_blocks {S} _.
Arguments dv_blocksize {S} _.

Definition S_IFCHR : Z := 16384.
Definition S_IFBLK : Z := 20480.

Section Operations.
Context {S : Type}.
Implicit Types (d : device S) (s : S).

(** ** The device null: (devnull.c) *)

Definition nullopen (openflags : Z) s : outcome (Z * S) := Done (0, s).
Definition nullclose s : outcome (Z * S) := Done (0, s).
Definition set_resid (n : Z) (u : uio) : uio :=
  Uio (iov u) (iov_len u) (uio_offset u) n (uio_segflg u) (uio_rw u) (uio_space u).
Definition nullio (u : uio) s : outcome (Z * uio * S) :=
  Done (0, if decide (uio_rw u = UIO_WRITE) then set_resid 0 u else u, s).
Definition nullioctl (op data : Z) s : outcome (Z * S) := Done (EINVAL, s).
Definition nulldev : device S := Dev nullopen nullclose nullio nullioctl 0 1.

(** ** Operations on device vnodes (device.c) *)

Definition dev_open d (flags : Z) s : outcome (Z * S) :=
  if flag flags (Z.lor (Z.lor (Z.lor O_CREAT O_TRUNC) O_EXCL) O_APPEND) then Done (EINVAL, s)
  else dv_open d flags s.
Definition dev_close d s : outcome (Z * S) := dv_close d s.
Definition dev_reclaim : Z := 0.
Definition dev_read d (u : uio) s : outcome (Z * uio * S) :=
  kassert (bool_decide (uio_rw u = UIO_READ));; dv_io d u s.
Definition null_io : Z := EINVAL.
Definition dev_write d (u : uio) s : outcome (Z * uio * S) :=
  kassert (bool_decide (uio_rw u = UIO_WRITE));; dv_io d u s.
Definition dev_ioctl d (op data : Z) s : outcome (Z * S) := dv_ioctl d op data s.
Definition dev_gettype d : Z := if dv_blocks d >? 0 then S_IFBLK else S_IFCHR.

(** st_mode, st_nlink, st_blocks and st_size; the rest is zero. *)
Definition dev_stat d : Z * Z * Z * Z :=
  (dev_gettype d, 1, dv_blocks d, if dv_blocks d >? 0 then s32 (u32 (dv_blocks d * dv_blocksize d)) else 0).

(** off_t is signed, the arithmetic with the block size unsigned. *)
Definition dev_tryseek d (pos : Z) : outcome Z :=
  if dv_blocks d >? 0 then
    if dv_blocksize d =? 0 then Fault
    else if negb (u32 pos mod dv_blocksize d =? 0) then Done EINVAL
    else if pos <? 0 then Done EINVAL
    else if u32 pos / dv_blocksize d >=? dv_blocks d then Done EINVAL
    else Done 0
  else Done ESPIPE.

Definition null_fsync : Z := 0.
Definition dev_mmap : Z := EUNIMP.
Definition dev_truncate d (len : Z) : Z :=
  if (dv_blocks d >? 0) && (s32 (u32 (dv_blocks d * dv_blocksize d)) =? len) then 0 else EINVAL.
Definition dev_namefile : Z := 0.
Definition null_creat : Z := ENOTDIR.
Definition null_symlink : Z := ENOTDIR.
Definition null_nameop : Z := ENOTDIR.
Definition null_link : Z := ENOTDIR.
Definition null_rename : Z := ENOTDIR.
Definition dev_lookparent : Z := ENOTDIR.
End Operations.

(** ** Device vnodes beside a file system *)

(** struct vnode with dev_vnode_ops: [dn_data] is the device. *)
Record dvnode := Dvnode {
  dn_refcount : Z;
  dn_opencount : Z;
  dn_countlock : Z * Z;
  dn_data : option Z;
}.
Definition set_refs (n : Z) (v : dvnode) : dvnode := Dvnode n (dn_opencount v) (dn_countlock v) (dn_data v).
Definition set_opens (n : Z) (v : dvnode) : dvnode := Dvnode (dn_refcount v) n (dn_countlock v) (dn_data v).
Definition SIZEOF_VNODE : Z := 24.
(** The length of "vnode-countlock". *)
Definition COUNTLOCK_LEN : Z := 15.

Record devworld (W : Type) := DevWorld {
  dw_pool : gmap Z dvnode;
  dw_devs : gmap Z (device W);
  dw_base : W;
}.
Arguments DevWorld {W} _ _ _.
Arguments dw_pool {W} _.
Arguments dw_devs {W} _.
Arguments dw_base {W} _.

Section World.
Context {H W : Type} `{KHeap H} `{Files H W}.
Implicit Types (w : devworld W) (v : dvnode).

Definition set_dpool (x : gmap Z dvnode) w : devworld W := DevWorld x (dw_devs w) (dw_base w).
Definition set_base (x : W) w : devworld W := DevWorld (dw_pool w) (dw_devs w) x.

(** vnode_check, on the counts of a device vnode. *)
Definition dvnode_check v (reclaim : bool) : outcome unit :=
  if dn_refcount v <? 0 then Panic
  else if (dn_refcount v =? 0) && negb reclaim then Panic
  else if dn_opencount v <? 0 then Panic
  else Done tt.

(** vn->vn_data, which must be a device. *)
Definition the_device v w : outcome (device W) :=
  match dn_data v with
  | Some d => match dw_devs w !! d with Some dv => Done dv | None => Fault end
  | None => Fault
  end.

(** Call the file system below. *)
Definition below {A} (f : W → outcome (A * W)) w : outcome (A * devworld W) :=
  '(a, b) ← f (dw_base w); Done (a, set_base b w).
Definition below_do (f : W → outcome W) w : outcome (devworld W) :=
  b ← f (dw_base w); Done (set_base b w).

(** A VOP_ macro: the check, then the function of the vnode's table. *)
Definition vop {A} (p : Z) (fd : dvnode → devworld W → outcome (A * devworld W))
    (f : W → outcome (A * W)) w : outcome (A * devworld W) :=
  match dw_pool w !! p with
  | Some v => dvnode_check v false;; fd v w
  | None => below f w
  end.
(** One of the functions that only return a code. *)
Definition code {A} (c : A) (v : dvnode) w : outcome (A * devworld W) := Done (c, w).

(** VOP_RECLAIM does nothing on a device, whose vnode stays. *)
Definition dvnode_decref (p : Z) v w : outcome (devworld W) :=
  kassert (dn_refcount v >? 0);;
  if dn_refcount v >? 1 then Done (set_dpool (<[p := set_refs (dn_refcount v - 1) v]> (dw_pool w)) w)
  else dvnode_check v true;; let _ := dev_reclaim in Done w.

Definition dvnode_decopen (p : Z) v w : outcome (devworld W) :=
  kassert (dn_opencount v >? 0);;
  let v := set_opens (dn_opencount v - 1) v in
  let w := set_dpool (<[p := v]> (dw_pool w)) w in
  if dn_opencount v >? 0 then Done w
  else
    dvnode_check v false;;
    dv ← the_device v w;
    '(_, b) ← dev_close dv (dw_base w);
    Done (set_base b w).

#[global] Instance devworld_files : Files H (devworld W) := {
  heap w := heap (dw_base w);
  set_heap h w := set_base (set_heap h (dw_base w)) w;
  VOP_INCREF p w :=
    match dw_pool w !! p with
    | Some v => Done (set_dpool (<[p := set_refs (dn_refcount v + 1) v]> (dw_pool w)) w)
    | None => below_do (VOP_INCREF p) w
    end;
  VOP_DECREF p w :=
    match dw_pool w !! p with Some v => dvnode_decref p v w | None => below_do (VOP_DECREF p) w end;
  VOP_INCOPEN p w :=
    match dw_pool w !! p with
    | Some v => Done (set_dpool (<[p := set_opens (dn_opencount v + 1) v]> (dw_pool w)) w)
    | None => below_do (VOP_INCOPEN p) w
    end;
  VOP_DECOPEN p w :=
    match dw_pool w !! p with Some v => dvnode_decopen p v w | None => below_do (VOP_DECOPEN p) w end;
  VOP_OPEN p fl :=
    vop p (λ v w, dv ← the_device v w; below (dev_open dv fl) w) (VOP_OPEN p fl);
  VOP_READLINK p u := vop p (code (null_io, u)) (VOP_READLINK p u);
  VOP_GETTYPE p := vop p (λ v w, dv ← the_device v w; Done (Ok (dev_gettype dv), w)) (VOP_GETTYPE p);
  VOP_TRUNCATE p n := vop p (λ v w, dv ← the_device v w; Done (dev_truncate dv n, w)) (VOP_TRUNCATE p n);
  VOP_NAMEFILE p u := vop p (code (dev_namefile, u)) (VOP_NAMEFILE p u);
  VOP_CREAT p b x := vop p (code (Err null_creat)) (VOP_CREAT p b x);
  VOP_SYMLINK p b c := vop p (code null_symlink) (VOP_SYMLINK p b c);
  VOP_MKDIR p b := vop p (code null_nameop) (VOP_MKDIR p b);
  VOP_LINK p b q := vop p (code null_link) (VOP_LINK p b q);
  VOP_REMOVE p b := vop p (code null_nameop) (VOP_REMOVE p b);
  VOP_RMDIR p b := vop p (code null_nameop) (VOP_RMDIR p b);
  VOP_RENAME p b q c := vop p (code null_rename) (VOP_RENAME p b q c);
  VOP_LOOKUP p b :=
    vop p (λ v w,
      n ← strlen b;
      if n >? 0 then Done (Err ENOENT, w)
      else Done (Ok p, set_dpool (<[p := set_refs (dn_refcount v + 1) v]> (dw_pool w)) w)) (VOP_LOOKUP p b);
  VOP_LOOKPARENT p b buf n := vop p (code (Err dev_lookparent)) (VOP_LOOKPARENT p b buf n);
  vn_fs p w := match dw_pool w !! p with Some _ => Done None | None => vn_fs p (dw_base w) end;
  FSOP_SYNC f := below (FSOP_SYNC f);
  FSOP_GETVOLNAME f w := FSOP_GETVOLNAME f (dw_base w);
  FSOP_GETROOT f := below (FSOP_GETROOT f);
  FSOP_UNMOUNT f := below (FSOP_UNMOUNT f);
  user w := user (dw_base w);
  set_user ue w := set_base (set_user ue (dw_base w)) w;
}.

Definition kmallocW (n : Z) w : outcome (option Z * devworld W) :=
  '(r, h) ← kmalloc n (heap w); Done (r, set_heap h w).

(** vnode_init: the count lock; the panic of the caller when it fails. *)
Definition vnode_init (p : Z) (data : option Z) w : outcome (devworld W) :=
  '(l, w) ← kmallocW SIZEOF_LOCK w;
  match l with
  | None => Panic
  | Some l =>
      '(n, w) ← kmallocW (COUNTLOCK_LEN + 1) w;
      match n with
      | None => Panic
      | Some n => Done (set_dpool (<[p := Dvnode 1 0 (l, n) data]> (dw_pool w)) w)
      end
  end.

#[global] Instance devworld_vnodes : Vnodes H (devworld W) := {
  dev_create_vnode data w :=
    '(p, w) ← kmallocW SIZEOF_VNODE w;
    match p with
    | None => Done (None, w)
    | Some p => w ← vnode_init p data w; Done (Some p, w)
    end;
  vnode_kfree p w :=
    h ← kfree p (heap w);
    Done (set_dpool (delete p (dw_pool w)) (set_heap h w));
  null_device d w := DevWorld (dw_pool w) (<[d := nulldev]> (dw_devs w)) (dw_base w);
}.
End World.

(** ** The laws *)

Section Laws.
Context {H W : Type} `{KHeapLaws H} `{Files H W} `{VnodesView W} `{!FilesLaws H W}.
Implicit Types (w : devworld W) (v : dvnode).

Definition pool_blocks (m : gmap Z dvnode) : list Z :=
  map_to_list m ≫= λ pv, [pv.1; (dn_countlock pv.2).1; (dn_countlock pv.2).2].

Lemma pool_blocks_insert m p v :
  m !! p = None → pool_blocks (<[p := v]> m) ≡ₚ [p; (dn_countlock v).1; (dn_countlock v).2] ++ pool_blocks m.
Proof. intros Hp. unfold pool_blocks. by rewrite (map_to_list_insert m p v Hp). Qed.

Lemma pool_blocks_delete m p v :
  m !! p = Some v → pool_blocks m ≡ₚ [p; (dn_countlock v).1; (dn_countlock v).2] ++ pool_blocks (delete p m).
Proof. intros Hp. rewrite <- pool_blocks_insert by apply lookup_delete_eq. by rewrite insert_delete_id. Qed.

Lemma pool_blocks_in m p v : m !! p = Some v → p ∈ pool_blocks m.
Proof. intros Hp. rewrite (pool_blocks_delete m p v Hp). set_solver. Qed.

(** The blocks do not depend on the counts. *)
Lemma pool_blocks_update m p v v' :
  m !! p = Some v → dn_countlock v' = dn_countlock v → pool_blocks (<[p := v']> m) ≡ₚ pool_blocks m.
Proof.
  intros Hp Hv. rewrite (pool_blocks_delete m p v Hp), (pool_blocks_delete _ p v') by apply lookup_insert_eq.
  by rewrite delete_insert_eq, Hv.
Qed.

(** The functions of a device leave the vnodes alone. *)
Definition dev_ok (dv : device W) : Prop :=
  ∀ b L, wok b L → (∀ fl, quiet L b (dv_open dv fl b)) ∧ quiet L b (dv_close dv b).

#[global] Instance devworld_view : VnodesView (devworld W) := {
  wok w L :=
    wok (dw_base w) (pool_blocks (dw_pool w) ++ L) ∧
    (∀ p v, dw_pool w !! p = Some v → 1 ≤ dn_refcount v ∧ 0 ≤ dn_opencount v ∧
       (1 < dn_refcount v → ∃ d, dn_data v = Some d ∧ is_Some (dw_devs w !! d))) ∧
    (∀ d dv, dw_devs w !! d = Some dv → dev_ok dv);
  vrefs w p := match dw_pool w !! p with Some v => dn_refcount v - 1 | None => vrefs (dw_base w) p end;
  vopens w p := match dw_pool w !! p with Some v => dn_opencount v | None => vopens (dw_base w) p end;
  pinned w p d := ∃ v, dw_pool w !! p = Some v ∧ dn_data v = d;
  is_device w d := is_Some (dw_devs w !! d);
  fs_live w f := fs_live (dw_base w) f;
  vn_dir w p := dw_pool w !! p = None ∧ vn_dir (dw_base w) p;
}.

(** A step of the file system below. *)
Lemma below_step L L0 lo w b dr do :
  wok w L0 → step (pool_blocks (dw_pool w) ++ L) lo (dw_base w) b dr do → (∀ p, lo ≠ Lose_vnode p) →
  (∀ q, is_Some (dw_pool w !! q) → dr q = 0 ∧ do q = 0) →
  step L lo w (set_base b w) dr do.
Proof.
  intros (Hb & Hp & Hd) Hst Hlo Hz. split; cbn.
  - split_and!; [apply Hst|done..].
  - intros q. specialize (Hz q). destruct (dw_pool w !! q); [destruct Hz; eauto; lia|apply Hst].
  - intros q. specialize (Hz q). destruct (dw_pool w !! q); [destruct Hz; eauto; lia|apply Hst].
  - done.
  - done.
  - apply Hst.
  - apply Hst.
  - apply Hst.
  - intros q. destruct (dw_pool w !! q); [done|apply Hst].
  - apply Hst.
  - intros q [Hq Hdir] Hr Hr'. rewrite Hq in Hr, Hr'. split; [done|]. by apply (st_dir _ _ _ _ _ _ Hst).
Qed.

(** A step of the counts of one device vnode. *)
Lemma count_step L w p v v' dr do :
  wok w L → dw_pool w !! p = Some v → dn_countlock v' = dn_countlock v → dn_data v' = dn_data v →
  1 ≤ dn_refcount v' → 0 ≤ dn_opencount v' →
  (1 < dn_refcount v' → ∃ d, dn_data v = Some d ∧ is_Some (dw_devs w !! d)) →
  dn_refcount v' = dn_refcount v + dr p → dn_opencount v' = dn_opencount v + do p →
  (∀ q, q ≠ p → dr q = 0 ∧ do q = 0) →
  step L Nothing w (set_dpool (<[p := v']> (dw_pool w)) w) dr do.
Proof.
  intros (Hb & Hpool & Hd) Hp Hl Hdat Hr Ho Hdev Edr Edo Hz. split; cbn.
  - split_and!; [by eapply wok_perm; [|exact Hb]; rewrite (pool_blocks_update _ _ _ _ Hp Hl)| |done].
    intros q vq [[<- <-]|[Hne Hq]]%lookup_insert_Some; [rewrite Hdat; auto|by apply (Hpool q)].
  - intros q. destruct (decide (q = p)) as [->|Hne]; [rewrite lookup_insert_eq, Hp; lia|].
    rewrite lookup_insert_ne by done. destruct (Hz q Hne) as [-> _]. lia.
  - intros q. destruct (decide (q = p)) as [->|Hne]; [rewrite lookup_insert_eq, Hp; lia|].
    rewrite lookup_insert_ne by done. destruct (Hz q Hne) as [_ ->]. lia.
  - intros q d (vq & Hq & <-) _. destruct (decide (q = p)) as [->|Hne].
    + exists v'. rewrite lookup_insert_eq. split; [done|]. congruence.
    + exists vq. by rewrite lookup_insert_ne.
  - done.
  - done.
  - intros f Hf. by left.
  - done.
  - intros q _ _. destruct (decide (q = p)) as [->|Hne]; [by rewrite lookup_insert_eq, Hp|by rewrite lookup_insert_ne].
  - done.
  - intros q [Hq Hdir] _ _. split; [|done]. rewrite lookup_insert_ne; [done|]. intros ->. congruence.
Qed.

Lemma base_ok w L : wok w L → wok (dw_base w) (pool_blocks (dw_pool w) ++ L).
Proof. by intros []. Qed.

Lemma base_refs w p : dw_pool w !! p = None → vrefs w p = vrefs (dw_base w) p.
Proof. cbn. by intros ->. Qed.
Lemma base_opens w p : dw_pool w !! p = None → vopens w p = vopens (dw_base w) p.
Proof. cbn. by intros ->. Qed.

(** A vnode with a reference below is not that of a device. *)
Lemma below_fresh L w (b : W) p :
  wok b (pool_blocks (dw_pool w) ++ L) → 1 ≤ vrefs b p → dw_pool w !! p = None.
Proof.
  intros Hb Hp. destruct (dw_pool w !! p) as [v|] eqn:E; [|done].
  destruct (vnode_own b _ p Hb); [|lia]. apply elem_of_app. left. by eapply pool_blocks_in.
Qed.

Lemma below_step_none L lo w (b : W) :
  wok w L → step (pool_blocks (dw_pool w) ++ L) lo (dw_base w) b none none → (∀ p, lo ≠ Lose_vnode p) →
  step L lo w (set_base b w) none none.
Proof. intros Hw Hst Hlo. by eapply below_step. Qed.

Lemma below_step_one L w (b : W) p :
  wok w L → step (pool_blocks (dw_pool w) ++ L) Nothing (dw_base w) b (one p 1) none →
  step L Nothing w (set_base b w) (one p 1) none.
Proof.
  intros Hw Hst. eapply below_step; [done..|]. intros q [v Hq]. split; [|done]. unfold one. case_decide; [|done]. subst.
  assert (dw_pool w !! p = None); [|congruence]. eapply below_fresh; [apply Hst|].
  rewrite (st_refs _ _ _ _ _ _ Hst). destruct (vrefs_nonneg _ _ p (base_ok _ _ Hw)). unfold one. rewrite decide_True by done. lia.
Qed.

Lemma below_quiet L w f :
  wok w L → quiet (pool_blocks (dw_pool w) ++ L) (dw_base w) (f (dw_base w)) → quiet L w (below f w).
Proof.
  intros Hw (c & b & Hf & Hst). exists c, (set_base b w). split; [unfold below; by rewrite Hf|]. by apply below_step_none.
Qed.
Lemma below_quiet_io L w f :
  wok w L → quiet_io (pool_blocks (dw_pool w) ++ L) (dw_base w) (f (dw_base w)) → quiet_io L w (below f w).
Proof.
  intros Hw (c & u & b & Hf & Hst). exists c, u, (set_base b w). split; [unfold below; by rewrite Hf|]. by apply below_step_none.
Qed.
Lemma below_gives L w f :
  wok w L → gives (pool_blocks (dw_pool w) ++ L) (dw_base w) (f (dw_base w)) → gives L w (below f w).
Proof.
  intros Hw (r & b & Hf & Hst). exists r, (set_base b w). split; [unfold below; by rewrite Hf|].
  destruct r; [by apply below_step_none|by apply below_step_one].
Qed.

Lemma check_ok w L p v : wok w L → dw_pool w !! p = Some v → dvnode_check v false = Done tt.
Proof.
  intros (_ & Hp & _) Hv. destruct (Hp p v Hv) as (Hr & Ho & _). unfold dvnode_check.
  rewrite (proj2 (Z.ltb_ge _ 0)) by lia. rewrite (proj2 (Z.eqb_neq _ 0)) by lia. cbn.
  by rewrite (proj2 (Z.ltb_ge _ 0)) by lia.
Qed.

(** A device vnode in use has its device. *)
Lemma device_ok w L p v :
  wok w L → dw_pool w !! p = Some v → 1 ≤ vrefs w p → ∃ dv, the_device v w = Done dv ∧ dev_ok dv.
Proof.
  intros (_ & Hp & Hd) Hv Hr. cbn in Hr. rewrite Hv in Hr. destruct (Hp p v Hv) as (_ & _ & Hdev).
  destruct Hdev as (d & Hdat & [dv Hdv]); [lia|]. exists dv. split; [unfold the_device; by rewrite Hdat, Hdv|by eapply Hd].
Qed.

(** An operation that devices refuse. *)
Lemma vop_quiet L w p c f :
  wok w L → (dw_pool w !! p = None → quiet (pool_blocks (dw_pool w) ++ L) (dw_base w) (f (dw_base w))) →
  quiet L w (vop p (code c) f w).
Proof.
  intros Hw Hf. unfold vop. destruct (dw_pool w !! p) as [v|] eqn:Hv; [|by apply below_quiet; auto].
  rewrite (check_ok _ _ _ _ Hw Hv). exists c, w. split; [done|by apply step_refl].
Qed.
Lemma vop_quiet_io L w p c u f :
  wok w L → (dw_pool w !! p = None → quiet_io (pool_blocks (dw_pool w) ++ L) (dw_base w) (f (dw_base w))) →
  quiet_io L w (vop p (code (c, u)) f w).
Proof.
  intros Hw Hf. unfold vop. destruct (dw_pool w !! p) as [v|] eqn:Hv; [|by apply below_quiet_io; auto].
  rewrite (check_ok _ _ _ _ Hw Hv). exists c, u, w. split; [done|by apply step_refl].
Qed.
Lemma vop_gives L w p c f :
  wok w L → (dw_pool w !! p = None → gives (pool_blocks (dw_pool w) ++ L) (dw_base w) (f (dw_base w))) →
  gives L w (vop p (code (Err c)) f w).
Proof.
  intros Hw Hf. unfold vop. destruct (dw_pool w !! p) as [v|] eqn:Hv; [|by apply below_gives; auto].
  rewrite (check_ok _ _ _ _ Hw Hv). exists (Err c), w. split; [done|by apply step_refl].
Qed.

Lemma dw_heap w L L' h :
  wok w L → (∀ R, heap_owns (heap w) (L ++ R) → heap_owns h (L' ++ R)) →
  step L' Nothing w (set_heap h w) none none.
Proof.
  intros Hw Hh. eapply below_step; [done| |done|done]. eapply wok_heap; [by apply base_ok|]. intros R HR.
  assert (Hperm : ∀ A B C : list Z, (A ++ B) ++ C ≡ₚ B ++ A ++ C) by (intros; solve_Permutation).
  rewrite Hperm in HR |- *. by apply Hh.
Qed.

Lemma dw_decref w L p :
  wok w L → 1 ≤ vrefs w p → (vrefs w p = 1 → vopens w p = 0) →
  ∃ w', VOP_DECREF p w = Done w' ∧ step L Nothing w w' (one p (-1)) none.
Proof.
  intros Hw Hr Hro. cbn in Hr, Hro |- *. destruct (dw_pool w !! p) as [v|] eqn:Hv.
  - unfold dvnode_decref. rewrite kassert_true by lia. cbn [mbind outcome_bind].
    rewrite (proj2 (Z.gtb_lt _ _)) by lia. eexists. split; [done|].
    pose proof Hw as (_ & Hp & _). destruct (Hp p v Hv) as (_ & Ho & Hd).
    apply (count_step L w p v); cbn; unfold one, none; rewrite ?decide_True by done; try done; try lia.
    + intros. apply Hd. lia.
    + intros q Hq. by rewrite decide_False.
  - destruct (decref_law (dw_base w) _ p (base_ok _ _ Hw) Hr Hro) as (b & Hb & Hst).
    exists (set_base b w). split; [unfold below_do; by rewrite Hb|]. eapply below_step; [done..|].
    intros q Hq. split; [|done]. unfold one. rewrite decide_False; [done|]. intros ->. rewrite Hv in Hq. by destruct Hq.
Qed.

Lemma dw_incref w L p :
  wok w L → 1 ≤ vrefs w p ∨ (∃ d, pinned w p (Some d) ∧ is_device w d) →
  ∃ w', VOP_INCREF p w = Done w' ∧ step L Nothing w w' (one p 1) none.
Proof.
  intros Hw Hp. cbn in Hp |- *. destruct (dw_pool w !! p) as [v|] eqn:Hv.
  - eexists. split; [done|]. pose proof Hw as (_ & Hpool & _). destruct (Hpool p v Hv) as (Hr & Ho & Hd).
    apply (count_step L w p v); cbn; unfold one, none; rewrite ?decide_True by done; try done; try lia.
    + intros _. destruct Hp as [Hp|(d & (v' & [= <-] & Hdat) & Hdev)]; [apply Hd; lia|by exists d].
    + intros q Hq. by rewrite decide_False.
  - destruct Hp as [Hp|(d & (v' & ? & _) & _)]; [|done].
    destruct (incref_law (dw_base w) _ p (base_ok _ _ Hw) (or_introl Hp)) as (b & Hb & Hst).
    exists (set_base b w). split; [unfold below_do; by rewrite Hb|]. by apply below_step_one.
Qed.

Lemma dw_incopen w L p :
  wok w L → 1 ≤ vrefs w p → ∃ w', VOP_INCOPEN p w = Done w' ∧ step L Nothing w w' none (one p 1).
Proof.
  intros Hw Hr. cbn in Hr |- *. destruct (dw_pool w !! p) as [v|] eqn:Hv.
  - eexists. split; [done|]. pose proof Hw as (_ & Hpool & _). destruct (Hpool p v Hv) as (_ & Ho & Hd).
    apply (count_step L w p v); cbn; unfold one, none; rewrite ?decide_True by done; try done; try lia.
    intros q Hq. by rewrite decide_False.
  - destruct (incopen_law (dw_base w) _ p (base_ok _ _ Hw) Hr) as (b & Hb & Hst).
    exists (set_base b w). split; [unfold below_do; by rewrite Hb|]. eapply below_step; [done..|].
    intros q Hq. split; [done|]. unfold one. rewrite decide_False; [done|]. intros ->. rewrite Hv in Hq. by destruct Hq.
Qed.

Lemma dw_decopen w L p :
  wok w L → 1 ≤ vrefs w p → 1 ≤ vopens w p →
  ∃ w', VOP_DECOPEN p w = Done w' ∧ step L Nothing w w' none (one p (-1)).
Proof.
  intros Hw Hr Ho. destruct (dw_pool w !! p) as [v|] eqn:Hv.
  - destruct (device_ok _ _ _ _ Hw Hv Hr) as (dv & Hdv & Hok).
    cbn in Hr, Ho |- *. rewrite Hv in Hr, Ho |- *. pose proof Hw as (_ & Hpool & _). destruct (Hpool p v Hv) as (Hr1 & _ & Hd).
    unfold dvnode_decopen. rewrite kassert_true by lia. cbn [mbind outcome_bind].
    set (v1 := set_opens (dn_opencount v - 1) v). set (w1 := set_dpool (<[p := v1]> (dw_pool w)) w).
    assert (Hst : step L Nothing w w1 none (one p (-1))).
    { apply (count_step L w p v); cbn; unfold one, none; rewrite ?decide_True by done; try done; try lia.
      intros q Hq. by rewrite decide_False. }
    destruct (dn_opencount v1 >? 0); [by exists w1|].
    rewrite (check_ok w1 L p v1) by (apply Hst || apply lookup_insert_eq). cbn [mbind outcome_bind].
    replace (the_device v1 w1) with (the_device v w) by done. rewrite Hdv. cbn [mbind outcome_bind].
    destruct (Hok (dw_base w1) _ (base_ok _ _ (st_ok _ _ _ _ _ _ Hst))) as [_ (c & b & Hc & Hb)].
    unfold dev_close. rewrite Hc. eexists. split; [done|]. eapply step_then; [done|].
    apply (below_step_none L); [apply Hst|done|done].
  - cbn in Hr, Ho |- *. rewrite Hv in Hr, Ho |- *.
    destruct (decopen_law (dw_base w) _ p (base_ok _ _ Hw) Hr Ho) as (b & Hb & Hst).
    exists (set_base b w). split; [unfold below_do; by rewrite Hb|]. eapply below_step; [done..|].
    intros q Hq. split; [done|]. unfold one. rewrite decide_False; [done|]. intros ->. rewrite Hv in Hq. by destruct Hq.
Qed.

(** The operations with work on both sides. *)
Lemma dw_open w L p fl : wok w L → 1 ≤ vrefs w p → quiet L w (VOP_OPEN p fl w).
Proof.
  intros Hw Hr. cbn [VOP_OPEN devworld_files]. unfold vop. destruct (dw_pool w !! p) as [v|] eqn:Hv.
  - destruct (device_ok _ _ _ _ Hw Hv Hr) as (dv & Hdv & Hok). rewrite (check_ok _ _ _ _ Hw Hv). cbn [mbind outcome_bind].
    rewrite Hdv. cbn [mbind outcome_bind]. apply below_quiet; [done|]. unfold dev_open. destruct (flag _ _).
    + eexists EINVAL, _. split; [done|]. by apply step_refl, base_ok.
    + apply Hok. by apply base_ok.
  - apply below_quiet; [done|]. apply open_law; [by apply base_ok|by rewrite <- base_refs].
Qed.

Lemma dw_gettype w L p :
  wok w L → 1 ≤ vrefs w p →
  ∃ r w', VOP_GETTYPE p w = Done (r, w') ∧ step L Nothing w w' none none ∧
    (∀ t, r = Ok t → S_ISDIR t = true → vn_dir w' p) ∧ r ≠ Err 0.
Proof.
  intros Hw Hr. cbn [VOP_GETTYPE devworld_files]. unfold vop. destruct (dw_pool w !! p) as [v|] eqn:Hv.
  - destruct (device_ok _ _ _ _ Hw Hv Hr) as (dv & Hdv & Hok). rewrite (check_ok _ _ _ _ Hw Hv). cbn [mbind outcome_bind].
    rewrite Hdv. cbn [mbind outcome_bind]. eexists _, w. split; [done|]. split_and!; [by apply step_refl| |done].
    intros t [= <-]. unfold dev_gettype. by destruct (_ >? _).
  - destruct (gettype_law (dw_base w) _ p (base_ok _ _ Hw)) as (r & b & Hb & Hst & Hdir & Hne); [by rewrite <- base_refs|].
    exists r, (set_base b w). split; [unfold below; by rewrite Hb|]. split_and!; [by apply below_step_none| |done].
    intros t Ht Hd. split; [done|by eapply Hdir].
Qed.

Lemma dw_truncate w L p : wok w L → 1 ≤ vrefs w p → quiet L w (VOP_TRUNCATE p 0 w).
Proof.
  intros Hw Hr. cbn [VOP_TRUNCATE devworld_files]. unfold vop. destruct (dw_pool w !! p) as [v|] eqn:Hv.
  - destruct (device_ok _ _ _ _ Hw Hv Hr) as (dv & Hdv & Hok). rewrite (check_ok _ _ _ _ Hw Hv). cbn [mbind outcome_bind].
    rewrite Hdv. cbn [mbind outcome_bind]. eexists _, w. split; [done|]. by apply step_refl.
  - apply below_quiet; [done|]. apply truncate_law; [by apply base_ok|by rewrite <- base_refs].
Qed.

Lemma dw_lookup w L p b : wok w L → 1 ≤ vrefs w p → is_str b → gives L w (VOP_LOOKUP p b w).
Proof.
  intros Hw Hr [x Hx]. cbn [VOP_LOOKUP devworld_files]. unfold vop. destruct (dw_pool w !! p) as [v|] eqn:Hv.
  - rewrite (check_ok _ _ _ _ Hw Hv). cbn [mbind outcome_bind]. rewrite (strlen_spec _ _ Hx). cbn [mbind outcome_bind].
    destruct (_ >? 0); [exists (Err ENOENT), w; split; [done|by apply step_refl]|].
    eexists (Ok p), _. split; [done|]. destruct (dw_incref w L p Hw (or_introl Hr)) as (w' & Hi & Hst).
    cbn in Hi. rewrite Hv in Hi. injection Hi as <-. done.
  - apply below_gives; [done|]. apply lookup_law; [by apply base_ok|by rewrite <- base_refs|by exists x].
Qed.

Lemma dw_lookparent w L p b buf n :
  wok w L → 1 ≤ vrefs w p → is_str b → n = Z.of_nat (length buf) →
  ∃ r w', VOP_LOOKPARENT p b buf n w = Done (r, w') ∧
    match r with
    | Ok (q, name) => step L Nothing w w' (one q 1) none ∧ is_str name
    | Err _ => step L Nothing w w' none none
    end.
Proof.
  intros Hw Hr Hb Hn. cbn [VOP_LOOKPARENT devworld_files]. unfold vop. destruct (dw_pool w !! p) as [v|] eqn:Hv.
  - rewrite (check_ok _ _ _ _ Hw Hv). exists (Err dev_lookparent), w. split; [done|by apply step_refl].
  - destruct (lookparent_law (dw_base w) _ p b buf n (base_ok _ _ Hw)) as (r & b' & Hrun & Hst); [by rewrite <- base_refs|done|done|].
    exists r, (set_base b' w). split; [unfold below; by rewrite Hrun|]. destruct r as [c|[q name]].
    + by apply below_step_none.
    + destruct Hst. split; [by apply below_step_one|done].
Qed.

Lemma dw_fs w p f : vn_fs p w = Done (Some f) → dw_pool w !! p = None ∧ vn_fs p (dw_base w) = Done (Some f).
Proof. cbn. by destruct (dw_pool w !! p). Qed.

#[global] Instance devworld_files_laws : FilesLaws H (devworld W).
Proof.
  split.
  - intros w L p Hw. cbn. pose proof (vrefs_nonneg (dw_base w) _ p (base_ok _ _ Hw)).
    destruct (dw_pool w !! p) as [v|] eqn:Hv; [|done]. destruct Hw as (_ & Hp & _). destruct (Hp p v Hv) as (? & ? & _). lia.
  - intros w L (Hb & _). apply wok_owns in Hb. eapply owns_sub; [|exact Hb]. by apply submseteq_inserts_l.
  - intros w L L' HL (Hb & Hp & Hd). split_and!; [|done..]. eapply wok_perm; [|exact Hb]. by rewrite HL.
  - apply dw_heap.
  - intros w h. cbn. apply heap_set.
  - intros w L ue Hw Hsp. eapply below_step_none; [done| |done]. by apply user_step; [apply base_ok|].
  - intros w ue. cbn. apply user_set.
  - apply dw_incref.
  - apply dw_decref.
  - apply dw_incopen.
  - apply dw_decopen.
  - apply dw_open.
  - apply dw_truncate.
  - intros w L p u Hw Hr. apply vop_quiet_io; [done|]. intros Hp. apply readlink_law; [by apply base_ok|by rewrite <- base_refs].
  - intros w L p u Hw Hr [Hp Hdir]. apply vop_quiet_io; [done|]. intros _.
    apply namefile_law; [by apply base_ok|by rewrite <- base_refs|done].
  - apply dw_gettype.
  - intros w L p b x Hw Hr Hb. apply vop_gives; [done|]. intros Hp. apply creat_law; [by apply base_ok|by rewrite <- base_refs|done].
  - apply dw_lookup.
  - apply dw_lookparent.
  - intros w L p b c Hw Hr Hb Hc. apply vop_quiet; [done|]. intros Hp. apply symlink_law; [by apply base_ok|by rewrite <- base_refs|done..].
  - intros w L p b Hw Hr Hb. apply vop_quiet; [done|]. intros Hp. apply mkdir_law; [by apply base_ok|by rewrite <- base_refs|done].
  - intros w L p b Hw Hr Hb. apply vop_quiet; [done|]. intros Hp. apply rmdir_law; [by apply base_ok|by rewrite <- base_refs|done].
  - intros w L p b Hw Hr Hb. apply vop_quiet; [done|]. intros Hp. apply remove_law; [by apply base_ok|by rewrite <- base_refs|done].
  - intros w L p b q f Hw Hr Hrq Hb [Hp Hfp]%dw_fs [Hq Hfq]%dw_fs. apply vop_quiet; [done|]. intros _.
    eapply link_law; [by apply base_ok|by rewrite <- base_refs|by rewrite <- base_refs|done..].
  - intros w L p b q c f Hw Hr Hrq Hb Hc [Hp Hfp]%dw_fs [Hq Hfq]%dw_fs. apply vop_quiet; [done|]. intros _.
    eapply rename_law; [by apply base_ok|by rewrite <- base_refs|by rewrite <- base_refs|done..].
  - intros w L p Hw Hr. cbn in Hr |- *. destruct (dw_pool w !! p) as [v|] eqn:Hv.
    + exists None. split_and!; [done|done|by intros []].
    + destruct (vn_fs_law (dw_base w) _ p (base_ok _ _ Hw) Hr) as (o & Ho & Hl & Hd). exists o. split_and!; [done|done|].
      intros [_ Hdir]. auto.
  - intros w L f Hw Hf. apply below_quiet; [done|]. apply sync_law; [by apply base_ok|done].
  - intros w L f Hw Hf. apply (volname_law (dw_base w) _ f (base_ok _ _ Hw) Hf).
  - intros w L f Hw Hf. destruct (getroot_law (dw_base w) _ f (base_ok _ _ Hw) Hf) as (p & b & Hb & Hst).
    exists p, (set_base b w). split; [cbn; unfold below; by rewrite Hb|by apply below_step_one].
  - intros w L f Hw Hf. destruct (unmount_law (dw_base w) _ f (base_ok _ _ Hw) Hf) as (c & b & Hb & Hst).
    exists c, (set_base b w). split; [cbn; unfold below; by rewrite Hb|]. apply below_step_none; [done..|].
    intros p. by case_decide.
  - intros w L p Hw Hin. cbn. destruct (dw_pool w !! p) as [v|] eqn:Hv.
    + destruct (wok_owns _ _ (base_ok _ _ Hw)) as (_ & (_ & Hdis & _)%list.NoDup_app & _).
      destruct (Hdis p); [by eapply pool_blocks_in|done].
    + apply (vnode_own (dw_base w) _ p (base_ok _ _ Hw)). set_solver.
Qed.

(** An allocation, as a step of the world. *)
Lemma kmallocW_run w L n :
  wok w L → 0 ≤ n ≤ 2 ^ 31 →
  ∃ r w', kmallocW n w = Done (r, w') ∧ dw_pool w' = dw_pool w ∧
    step (match r with Some a => a :: L | None => L end) Nothing w w' none none.
Proof.
  intros Hw Hn. pose proof (wok_owns _ _ Hw) as Hown. destruct (owns_alloc _ _ n Hown Hn) as (r & h & Hk & _).
  exists r, (set_heap h w). split_and!; [unfold kmallocW; by rewrite Hk|done|].
  apply (dw_heap w L); [done|]. intros R HR. destruct (owns_alloc _ _ n HR Hn) as (r' & h' & Hk' & Hr').
  rewrite Hk in Hk'. injection Hk' as <- <-. destruct r; [by destruct Hr'|done].
Qed.

(** A new vnode takes over its three blocks. *)
Lemma new_vnode_step w L p l n data :
  wok w (n :: l :: p :: L) →
  step L Nothing w (set_dpool (<[p := Dvnode 1 0 (l, n) data]> (dw_pool w)) w) none none ∧ dw_pool w !! p = None.
Proof.
  intros Hw. pose proof Hw as (Hb & Hp & Hd).
  assert (Hnone : dw_pool w !! p = None).
  { destruct (dw_pool w !! p) as [v|] eqn:Hv; [|done].
    destruct (wok_owns _ _ Hb) as (_ & (_ & Hdis & _)%list.NoDup_app & _).
    destruct (Hdis p); [by eapply pool_blocks_in|set_solver]. }
  destruct (vnode_own _ _ p Hw) as [Hr0 Ho0]; [set_solver|].
  split; [|done]. split; cbn.
  - split_and!; [| |done].
    + eapply wok_perm; [|exact Hb]. rewrite (pool_blocks_insert _ _ _ Hnone). cbn. solve_Permutation.
    + intros q v [[<- <-]|[_ Hq]]%lookup_insert_Some; [cbn; split_and!; [lia|lia|lia]|by apply (Hp q)].
  - intros q. unfold none. destruct (decide (q = p)) as [->|Hne]; [rewrite lookup_insert_eq|rewrite lookup_insert_ne by done; lia].
    cbn in Hr0. rewrite Hnone in Hr0 |- *. cbn. lia.
  - intros q. unfold none. destruct (decide (q = p)) as [->|Hne]; [rewrite lookup_insert_eq|rewrite lookup_insert_ne by done; lia].
    cbn in Ho0. rewrite Hnone in Ho0 |- *. cbn. lia.
  - intros q d (v & Hv & Hdat) _. exists v. rewrite lookup_insert_ne; [done|]. intros ->. congruence.
  - done.
  - done.
  - intros f Hf. by left.
  - done.
  - intros q Hq _. rewrite lookup_insert_ne; [done|]. intros ->. cbn in Hr0. lia.
  - done.
  - intros q [Hq Hdir] Hq1 _. split; [|done]. rewrite lookup_insert_ne; [done|]. intros ->. cbn in Hr0. lia.
Qed.

Lemma dw_create w L d :
  wok w L →
  dev_create_vnode d w = Panic ∨
  ∃ r w', dev_create_vnode d w = Done (r, w') ∧ step L Nothing w w' none none ∧
    ∀ p, r = Some p → (∀ d', ¬ pinned w p d') ∧ pinned w' p d ∧ vrefs w' p = 0.
Proof.
  intros Hw. cbn [dev_create_vnode devworld_vnodes].
  destruct (kmallocW_run w L SIZEOF_VNODE Hw) as (r1 & w1 & -> & Hp1 & Hst1); [by vm_compute|]. cbn [mbind outcome_bind].
  destruct r1 as [p|]; [|right; exists None, w1; split_and!; done].
  unfold vnode_init.
  destruct (kmallocW_run w1 (p :: L) SIZEOF_LOCK (st_ok _ _ _ _ _ _ Hst1)) as (r2 & w2 & -> & Hp2 & Hst2); [by vm_compute|].
  cbn [mbind outcome_bind]. destruct r2 as [l|]; [|by left].
  destruct (kmallocW_run w2 (l :: p :: L) (COUNTLOCK_LEN + 1) (st_ok _ _ _ _ _ _ Hst2)) as (r3 & w3 & -> & Hp3 & Hst3); [by vm_compute|].
  cbn [mbind outcome_bind]. destruct r3 as [n|]; [|by left].
  destruct (new_vnode_step w3 L p l n d (st_ok _ _ _ _ _ _ Hst3)) as [Hst4 Hnone]. right. eexists (Some p), _. split; [done|].
  split; [by eapply step_then, step_then, step_then|]. intros p' [= <-]. split_and!.
  - intros d' (v & Hv & _). congruence.
  - eexists. split; [apply lookup_insert_eq|done].
  - cbn. by rewrite lookup_insert_eq.
Qed.

(** Freeing a vnode nobody refers to drops its block. *)
Lemma dw_kfree w L p d :
  wok w L → pinned w p d → vrefs w p = 0 → vopens w p = 0 →
  ∃ w', vnode_kfree p w = Done w' ∧ step L (Lose_vnode p) w w' none none.
Proof.
  intros Hw (v & Hv & <-) Hr Ho. pose proof Hw as (Hb & Hp & Hd). pose proof (pool_blocks_delete _ _ _ Hv) as Hperm.
  set (P := pool_blocks (delete p (dw_pool w))) in *.
  assert (Hfree : ∀ R, heap_owns (heap (dw_base w)) ((pool_blocks (dw_pool w) ++ L) ++ R) →
    ∃ h, kfree p (heap (dw_base w)) = Done h ∧ heap_owns h ((P ++ L) ++ R)).
  { intros R HR. destruct (owns_free (heap (dw_base w)) p ((dn_countlock v).1 :: (dn_countlock v).2 :: P ++ L ++ R)) as (h & Hk & Hh).
    { eapply heap_owns_perm, HR. rewrite Hperm. cbn. solve_Permutation. }
    exists h. split; [done|]. eapply owns_sub, Hh. rewrite <- (assoc_L (++)). by do 2 apply submseteq_cons. }
  destruct (Hfree []) as (h & Hk & _); [rewrite app_nil_r; by apply wok_owns|].
  assert (Hst : step (P ++ L) Nothing (dw_base w) (set_heap h (dw_base w)) none none).
  { apply (wok_heap _ (pool_blocks (dw_pool w) ++ L)); [done|]. intros R (h' & Hk' & Hh')%Hfree. congruence. }
  destruct (vnode_own _ _ p Hb) as [Hr0 Ho0]; [apply elem_of_app; left; by eapply pool_blocks_in|].
  cbn in Hr, Ho. rewrite Hv in Hr, Ho.
  exists (set_dpool (delete p (dw_pool w)) (set_heap h w)). split; [cbn; by rewrite Hk|].
  pose proof (st_refs _ _ _ _ _ _ Hst) as Hsr. pose proof (st_opens _ _ _ _ _ _ Hst) as Hso. unfold none in Hsr, Hso.
  split; cbn; unfold none.
  - split_and!; [apply Hst| |done]. intros q u [_ Hq]%lookup_delete_Some. by apply (Hp q).
  - intros q. destruct (decide (q = p)) as [->|]; [rewrite lookup_delete_eq, Hv, Hsr; lia|].
    rewrite lookup_delete_ne by done. rewrite Hsr. destruct (dw_pool w !! q); lia.
  - intros q. destruct (decide (q = p)) as [->|]; [rewrite lookup_delete_eq, Hv, Hso; lia|].
    rewrite lookup_delete_ne by done. rewrite Hso. destruct (dw_pool w !! q); lia.
  - intros q d (u & Hu & Hdat) Hne. exists u. rewrite lookup_delete_ne; [done|congruence].
  - done.
  - intros f Hf _. by apply (st_live _ _ _ _ _ _ Hst).
  - intros f Hf. destruct (st_old _ _ _ _ _ _ Hst f Hf) as [[? _]|]; [by left|done].
  - intros f Hf _. by apply (st_vol _ _ _ _ _ _ Hst).
  - intros q. destruct (decide (q = p)) as [->|]; [rewrite Hv; lia|]. rewrite lookup_delete_ne by done.
    destruct (dw_pool w !! q); [done|apply Hst].
  - apply Hst.
  - intros q [Hq Hdir] Hq1 Hq2. assert (q ≠ p) by congruence. rewrite lookup_delete_ne in * by done.
    rewrite Hq in *. split; [done|]. by apply (st_dir _ _ _ _ _ _ Hst).
Qed.

Lemma nulldev_ok : dev_ok (nulldev (S := W)).
Proof. intros b L Hb. split; [intros fl|]; exists 0, b; (split; [done|by apply step_refl]). Qed.

#[global] Instance devworld_vnodes_laws : VnodesLaws H (devworld W).
Proof.
  split.
  - apply devworld_files_laws.
  - intros w L d (Hb & Hp & Hd). split; [|cbn; rewrite lookup_insert_eq; eauto]. split; cbn; try done; try (intros; unfold none; lia).
    + split_and!; [done| |].
      * intros p v Hv. destruct (Hp p v Hv) as (? & ? & Hdat). split_and!; [done..|].
        intros (d' & -> & Hd')%Hdat. exists d'. split; [done|]. by apply lookup_insert_is_Some'; right.
      * intros d' dv [[<- <-]|[_ Hd']]%lookup_insert_Some; [apply nulldev_ok|by eapply Hd].
    + intros d' Hd'. by apply lookup_insert_is_Some'; right.
    + intros f Hf. by left.
  - apply dw_create.
  - apply dw_kfree.
Qed.
End Laws.
