(* ===== verification/VfsDemo.v ===== *)
(** * The VFS layer at work

    A kernel in which no file system is mounted yet: a heap, a user process
    and the devices.  The layer is started on it, null: is opened by name,
    and the theorems about the layer are applied to what comes of it. *)

From S2P Require Import Prelude Ram Kheap KheapSpec KArray Bytes Mem CString Printf Uio Vfs VfsSpec VfsTheorems VfsDev SystemDemo.

(** ** A kernel without file systems *)

Record bare := Bare { ba_heap : bump; ba_user : uenv }.

(** There is no vnode at any address. *)
#[global] Instance bare_files : Files bump bare := {
  heap := ba_heap;
  set_heap h w := Bare h (ba_user w);
  VOP_INCREF _ _ := Fault; VOP_DECREF _ _ := Fault; VOP_INCOPEN _ _ := Fault; VOP_DECOPEN _ _ := Fault;
  VOP_OPEN _ _ _ := Fault; VOP_READLINK _ _ _ := Fault; VOP_GETTYPE _ _ := Fault; VOP_TRUNCATE _ _ _ := Fault;
  VOP_NAMEFILE _ _ _ := Fault; VOP_CREAT _ _ _ _ := Fault; VOP_SYMLINK _ _ _ _ := Fault; VOP_MKDIR _ _ _ := Fault;
  VOP_LINK _ _ _ _ := Fault; VOP_REMOVE _ _ _ := Fault; VOP_RMDIR _ _ _ := Fault; VOP_RENAME _ _ _ _ _ := Fault;
  VOP_LOOKUP _ _ _ := Fault; VOP_LOOKPARENT _ _ _ _ _ := Fault; vn_fs _ _ := Fault;
  FSOP_SYNC _ _ := Fault; FSOP_GETVOLNAME _ _ := Fault; FSOP_GETROOT _ _ := Fault; FSOP_UNMOUNT _ _ := Fault;
  user := ba_user;
  set_user u w := Bare (ba_heap w) u;
}.

#[global] Instance bare_view : VnodesView bare := {
  wok w L := heap_owns (ba_heap w) L;
  vrefs _ _ := 0; vopens _ _ := 0; pinned _ _ _ := False; is_device _ _ := False; fs_live _ _ := False; vn_dir _ _ := False;
}.

#[global] Instance bare_files_laws : FilesLaws bump bare.
Proof.
  split; try (intros; cbn in *; lia); try done.
  - intros w L L' E Hw. cbn in *. by rewrite <- E.
  - intros w L L' h Hw HR. split; try done. cbn. specialize (HR []). rewrite !app_nil_r in HR. by apply HR.
  - intros w L p _ [Hr|(d & [] & _)]. cbn in Hr. lia.
Qed.

(** ** Starting the layer *)

Definition demo_user : uenv := Uenv ∅ (Some 1).
Definition demo_bare : bare := Bare (Bump 16 []) demo_user.
Definition demo_world : devworld bare := DevWorld ∅ ∅ demo_bare.
Definition demo_vfs : vfs (devworld bare) :=
  match vfs_bootstrap demo_world with Done s => s | _ => Vfs (Array 0 0 0 None) ∅ None None demo_world end.

Lemma demo_world_ok : wok demo_world [].
Proof.
  split_and!; try done. cbn. split; [split; [done|by intros a ?%not_elem_of_nil]|].
  split; [apply NoDup_nil_2|by intros a ?%not_elem_of_nil].
Qed.

Lemma demo_vfs_ok : ∃ L, vfs_ok L none none demo_vfs.
Proof.
  destruct (bootstrap_run demo_world [] demo_world_ok) as [Hp|(s & L & d & p & Hs & Hok & _)]; [by intros f []|done|..].
  - exfalso. revert Hp. by vm_compute.
  - exists L. unfold demo_vfs. by rewrite Hs.
Qed.

(** "null:" and "lhd0:" *)
Definition null_path : list Z := [110; 117; 108; 108; 58; 0].
Definition disk_path : list Z := [108; 104; 100; 48; 58; 0].

Lemma null_path_str : cstr null_path [110; 117; 108; 108; 58].
Proof. exists []. split; [done|set_solver by lia]. Qed.
Lemma disk_path_str : cstr disk_path [108; 104; 100; 48; 58].
Proof. exists []. split; [done|set_solver by lia]. Qed.

(** null: is opened. *)
Definition demo_call : vfsop (W := devworld bare) := Vopen null_path O_RDONLY.
Definition demo_opened : option Z * vfs (devworld bare) :=
  match vfs_call demo_call demo_vfs with Done x => x | _ => (None, demo_vfs) end.

Lemma demo_vfs_open_runs : vfs_call demo_call demo_vfs = Done demo_opened.
Proof. by vm_compute. Qed.


Lemma path_starts_witness :
  ∃ L r s', getdevice null_path demo_vfs = Done (r, s') ∧ vfs_ok L (none ⊞ got2 r) none s' ∧
    located demo_vfs s' [110; 117; 108; 108; 58] r.
Proof.
  destruct demo_vfs_ok as [L Hok]. destruct (path_starts L _ _ _ _ _ Hok null_path_str) as (r & s' & H1 & H2 & _ & H3).
  exact (ex_intro _ L (ex_intro _ r (ex_intro _ s' (conj H1 (conj H2 H3))))).
Defined.

Lemma setbootfs_colon_witness : vfs_setbootfs disk_path demo_vfs = Done (EINVAL, demo_vfs).
Proof.
  destruct demo_vfs_ok as [L Hok]. apply (setbootfs_colon L _ _ _ _ _ Hok disk_path_str).
  - repeat constructor.
  - reflexivity.
  - repeat constructor.
Defined.

(** ** A disk is added *)

Definition disk_name : list Z := [108; 104; 100; 48; 0].
Definition demo_device : device bare := nulldev.
Definition demo_table : vfs (devworld bare) :=
  Vfs (Array 16 0 0 None) ∅ None None (DevWorld ∅ {[ 28 := demo_device ]} (Bare (Bump 64 [16; 28]) demo_user)).

Lemma demo_table_ok : vfs_ok ([16] ++ [28]) none none demo_table.
Proof.
  apply empty_ok; [|done|by intros f []|done]. split_and!.
  - cbn. split; [split; [done|set_solver by lia]|]. split; [|set_solver].
    apply NoDup_cons_2; [set_solver by lia|apply NoDup_singleton].
  - done.
  - cbn. intros d dv [<- <-]%lookup_singleton_Some. apply nulldev_ok.
Qed.

Lemma adddev_getroot_witness :
  ∃ s' p, vfs_adddev disk_name 28 true demo_table = Done (0, s') ∧
    ∃ s2, vfs_getroot [108; 104; 100; 48; 114; 97; 119; 0] s' = Done (Ok p, s2).
Proof.
  assert (Hx : cstr disk_name [108; 104; 100; 48]) by (exists []; split; [done|set_solver by lia]).
  assert (Hraw : cstr [108; 104; 100; 48; 114; 97; 119; 0] [108; 104; 100; 48; 114; 97; 119]) by (exists []; split; [done|set_solver by lia]).
  destruct (adddev_getroot [28] none none demo_table [] disk_name [108; 104; 100; 48] true 28 demo_table_ok)
    as [Hp|(c & s' & Hrun & Hres)]; [done|set_solver|done|exact Hx|done|by eexists|exfalso; revert Hp; by vm_compute|].
  destruct Hres as [[-> _]|[[-> _]|(-> & _ & p & _ & Hget)]]; [exfalso; revert Hrun; by vm_compute..|].
  exists s', p. split; [exact Hrun|]. exact (proj1 (Hget _) Hraw).
Defined.
