(* ===== verification/Stoplight.v ===== *)
(** * Cars at an intersection (kern/asst1/stoplight.c)

    Twenty threads drive cars through an intersection of four regions, each
    protected by a semaphore; a fifth semaphore lets three cars in at a time.
    A car is the sequence of calls its thread still has to make; the threads
    run interleaved.  A semaphore is its count: P goes on when the count is
    positive and takes one, V adds one, which is what Synch.P and Synch.V do
    (see SystemTheorems).  The theorems: no region holds two cars, the cars
    never block one another for good, and all of them leave. *)

From S2P Require Import Prelude.

Inductive semaphore := Nw | Ne | Sw | Se | Intersection.
#[global] Instance semaphore_eq_dec : EqDecision semaphore.
Proof. solve_decision. Defined.

(** A call of a thread: P, V or message(msg_nr, carnumber, cardirection,
    destdirection). *)
Inductive call :=
  | P (s : semaphore)
  | V (s : semaphore)
  | message (msg_nr carnumber cardirection destdirection : Z).

Definition gostraight (cardirection carnumber : Z) : list call :=
  let m k := message k carnumber cardirection ((cardirection + 2) mod 4) in
  if cardirection =? 0 then
    [P Intersection; m 0; P Nw; m 1; P Sw; m 2; V Nw; m 4; V Sw; V Intersection]
  else if cardirection =? 1 then
    [P Intersection; m 0; P Ne; m 1; P Nw; m 2; V Ne; m 4; V Nw; V Intersection]
  else if cardirection =? 2 then
    [P Intersection; m 0; P Se; m 1; P Ne; m 2; V Se; m 4; V Ne; V Intersection]
  else
    [P Intersection; m 0; P Sw; m 1; P Se; m 2; V Sw; m 4; V Se; V Intersection].

Definition turnleft (cardirection carnumber : Z) : list call :=
  let m k := message k carnumber cardirection ((cardirection + 1) mod 4) in
  if cardirection =? 0 then
    [P Intersection; m 0; P Nw; m 1; P Sw; m 2; V Nw; P Se; m 3; V Sw; m 4; V Se; V Intersection]
  else if cardirection =? 1 then
    [P Intersection; m 0; P Ne; m 1; P Nw; m 2; V Ne; P Sw; m 3; V Nw; m 4; V Sw; V Intersection]
  else if cardirection =? 2 then
    [P Intersection; m 0; P Se; m 1; P Ne; m 2; V Se; P Nw; m 3; V Ne; m 4; V Nw; V Intersection]
  else
    [P Intersection; m 0; P Sw; m 1; P Se; m 2; V Sw; P Ne; m 3; V Se; m 4; V Ne; V Intersection].

Definition turnright (cardirection carnumber : Z) : list call :=
  let m k := message k carnumber cardirection ((cardirection + 3) mod 4) in
  if cardirection =? 0 then
    [P Intersection; m 0; P Nw; m 1; m 4; V Nw; V Intersection]
  else if cardirection =? 1 then
    [P Intersection; m 0; P Ne; m 1; m 4; V Ne; V Intersection]
  else if cardirection =? 2 then
    [P Intersection; m 0; P Se; m 1; m 4; V Se; V Intersection]
  else
    [P Intersection; m 0; P Sw; m 1; m 4; V Sw; V Intersection].

(** [r1] and [r2] are what the two calls of random() return. *)
Definition approachintersection (r1 r2 carnumber : Z) : list call :=
  let carDirection := r1 mod 4 in
  let carDriving := r2 mod 3 in
  if carDriving =? 0 then gostraight carDirection carnumber
  else if carDriving =? 1 then turnleft carDirection carnumber
  else turnright carDirection carnumber.

Definition NCARS : Z := 20.

(** The semaphores, the index of the loop of createcars, the cars on their
    way and the messages printed, the last one first. *)
Record world := World {
  w_count : semaphore → Z;
  w_index : Z;
  w_cars : list (list call);
  w_printed : list call;
}.

(** sem_create of the five semaphores. *)
Definition initial_count (s : semaphore) : Z := match s with Intersection => 3 | _ => 1 end.
Definition createcars : world := World initial_count 0 [] [].

Definition set_count (s : semaphore) (n : Z) (c : semaphore → Z) : semaphore → Z :=
  λ t, if decide (t = s) then n else c t.

(** A call by a thread; None while it has to wait. *)
Definition do_call (k : call) (w : world) : option world :=
  match k with
  | P s =>
      if w_count w s >? 0
      then Some (World (set_count s (w_count w s - 1) (w_count w)) (w_index w) (w_cars w) (w_printed w))
      else None
  | V s => Some (World (set_count s (w_count w s + 1) (w_count w)) (w_index w) (w_cars w) (w_printed w))
  | message _ _ _ _ => Some (World (w_count w) (w_index w) (w_cars w) (k :: w_printed w))
  end.

(** The next call of car [i]. *)
Definition drive (i : nat) (w : world) : option world :=
  match w_cars w !! i with
  | Some (k :: rest) => do_call k (World (w_count w) (w_index w) (<[i := rest]> (w_cars w)) (w_printed w))
  | _ => None
  end.

(** The loop of createcars forks the next car; its thread draws two random
    numbers. *)
Definition fork_car (r1 r2 : Z) (w : world) : option world :=
  if w_index w <? NCARS
  then Some (World (w_count w) (w_index w + 1)
               (w_cars w ++ [approachintersection r1 r2 (w_index w)]) (w_printed w))
  else None.

Inductive step : world → world → Prop :=
  | st_fork r1 r2 w w' : 0 ≤ r1 → 0 ≤ r2 → fork_car r1 r2 w = Some w' → step w w'
  | st_drive i w w' : drive i w = Some w' → step w w'.

Definition reachable (w : world) : Prop := rtc step createcars w.

(** ** What a car holds *)

Definition mentions (s : semaphore) (k : call) : Z :=
  match k with
  | P t => if decide (t = s) then -1 else 0
  | V t => if decide (t = s) then 1 else 0
  | message _ _ _ _ => 0
  end.

(** A car holds what it still has to give back. *)
Fixpoint holds (s : semaphore) (l : list call) : Z :=
  match l with [] => 0 | k :: l => mentions s k + holds s l end.

(** The regions in the order in which they are crossed. *)
Definition before (s : semaphore) : semaphore :=
  match s with Sw => Nw | Se => Sw | Ne => Se | Nw => Ne | Intersection => Intersection end.

Definition regions : list semaphore := [Nw; Ne; Sw; Se].

(** What is true of a car between two calls: it holds a region at most once
    and only inside the intersection, it has entered before it asks for a
    region, and when it asks for one it holds at most the one before it. *)
Definition good (l : list call) : bool :=
  forallb (λ s, (0 <=? holds s l) && (holds s l <=? holds Intersection l)) regions &&
  (0 <=? holds Intersection l) && (holds Intersection l <=? 1) &&
  match l with
  | P s :: _ =>
      if decide (s = Intersection) then forallb (λ t, holds t l =? 0) (Intersection :: regions)
      else (holds Intersection l =? 1) && forallb (λ t, (holds t l =? 0) || bool_decide (t = before s)) regions
  | _ => true
  end.

Fixpoint well_driven (l : list call) : bool :=
  good l && match l with [] => true | _ :: l => well_driven l end.

Lemma approach_well_driven r1 r2 n :
  0 ≤ r1 → 0 ≤ r2 → well_driven (approachintersection r1 r2 n) = true ∧ ∀ s, holds s (approachintersection r1 r2 n) = 0.
Proof.
  intros H1 H2. unfold approachintersection. pose proof (Z.mod_pos_bound r1 4 ltac:(done)) as H4.
  assert (r1 mod 4 = 0 ∨ r1 mod 4 = 1 ∨ r1 mod 4 = 2 ∨ r1 mod 4 = 3) as Hd by lia.
  unfold gostraight, turnleft, turnright.
  destruct (r2 mod 3 =? 0); [|destruct (r2 mod 3 =? 1)];
    destruct Hd as [-> |[-> |[-> | ->]]]; (split; [vm_compute; reflexivity|by intros []]).
Qed.

Record goodness (l : list call) : Prop := {
  g_region s : s ≠ Intersection → 0 ≤ holds s l ≤ holds Intersection l;
  g_inside : 0 ≤ holds Intersection l ≤ 1;
  g_enter l' : l = P Intersection :: l' → ∀ s, holds s l = 0;
  g_ask s l' : l = P s :: l' → s ≠ Intersection →
    holds Intersection l = 1 ∧ ∀ t, t ≠ Intersection → t ≠ before s → holds t l = 0;
}.

Lemma good_goodness l : good l = true → goodness l.
Proof.
  unfold good. rewrite !andb_true_iff. intros [[[Hreg Hi0] Hi1] Hask].
  assert (Hin : ∀ s, s ≠ Intersection → s ∈ regions) by (intros []; set_solver).
  rewrite forallb_forall in Hreg. split.
  - intros s Hs%Hin%list_elem_of_In%Hreg. lia.
  - lia.
  - intros l' -> s. rewrite decide_True in Hask by done. rewrite forallb_forall in Hask.
    apply Z.eqb_eq, Hask, list_elem_of_In. destruct s; set_solver.
  - intros s l' -> Hs. rewrite decide_False in Hask by done. apply andb_true_iff in Hask as [Hi Hall].
    split; [lia|]. intros t Ht%Hin%list_elem_of_In Hne. rewrite forallb_forall in Hall.
    specialize (Hall t Ht). rewrite bool_decide_eq_false_2 in Hall by done. rewrite orb_false_r in Hall. lia.
Qed.

Lemma well_driven_good l : well_driven l = true → goodness l.
Proof. intros H. apply good_goodness. destruct l; cbn [well_driven] in H; by apply andb_true_iff in H as [? _]. Qed.

Lemma well_driven_tail k l : well_driven (k :: l) = true → well_driven l = true.
Proof. cbn [well_driven]. by intros [_ ?]%andb_true_iff. Qed.

(** ** The invariant *)

Definition total (s : semaphore) (cars : list (list call)) : Z := foldr (λ l n, holds s l + n) 0 cars.

Lemma total_cons s l c : total s (l :: c) = holds s l + total s c.
Proof. done. Qed.

Lemma cars_total_app s c c' : total s (c ++ c') = total s c + total s c'.
Proof. unfold total. induction c as [|l c IH]; cbn; lia. Qed.

Lemma total_insert s cars i l l' :
  cars !! i = Some l → total s (<[i := l']> cars) = total s cars - holds s l + holds s l'.
Proof.
  revert i. induction cars as [|x cars IH]; intros [|i] Hi; simplify_eq/=; [lia|].
  rewrite (IH i Hi). lia.
Qed.

Record inv (w : world) : Prop := {
  i_well l : l ∈ w_cars w → well_driven l = true;
  i_count s : w_count w s + total s (w_cars w) = initial_count s;
  i_free s : 0 ≤ w_count w s;
  i_index : w_index w = Z.of_nat (length (w_cars w)) ∧ w_index w ≤ NCARS;
}.

Lemma inv_start : inv createcars.
Proof. split; cbn; [set_solver|by intros []..|done]. Qed.

Lemma inv_fork r1 r2 w w' : 0 ≤ r1 → 0 ≤ r2 → inv w → fork_car r1 r2 w = Some w' → inv w'.
Proof.
  intros H1 H2 [Hw Hc Hf [Hi Hn]] Hrun. unfold fork_car in Hrun. destruct (w_index w <? NCARS) eqn:E; [|done].
  injection Hrun as <-. apply Z.ltb_lt in E. destruct (approach_well_driven r1 r2 (w_index w) H1 H2) as [Hgood Hz].
  split; cbn [w_cars w_count w_index].
  - intros l [Hl|Hl%list_elem_of_singleton]%elem_of_app; [by apply Hw|by subst].
  - intros s. rewrite cars_total_app. unfold total at 2. cbn. rewrite Hz, <- (Hc s). lia.
  - done.
  - rewrite length_app. cbn. lia.
Qed.

(** One call changes the count of its semaphore by what it takes or gives. *)
Lemma do_call_count k w w' :
  do_call k w = Some w' →
  (∀ s, w_count w' s = w_count w s + mentions s k) ∧ w_cars w' = w_cars w ∧ w_index w' = w_index w ∧
  ((∀ s, 0 ≤ w_count w s) → ∀ s, 0 ≤ w_count w' s).
Proof.
  destruct k as [t|t|]; cbn [do_call]; intros Hrun.
  - destruct (w_count w t >? 0) eqn:E; [|done]. injection Hrun as <-. cbn. unfold set_count.
    split_and!; [|done|done|]; intros; repeat case_decide; subst; try congruence; lia.
  - injection Hrun as <-. cbn. unfold set_count.
    split_and!; [|done|done|]; intros Hs; try intros s; repeat case_decide; subst; try congruence; try lia; try done.
    all: try (specialize (Hs t)); lia.
  - injection Hrun as <-. cbn. split_and!; [intros; lia|done..].
Qed.

Lemma inv_drive i w w' : inv w → drive i w = Some w' → inv w'.
Proof.
  intros [Hw Hc Hf Hi] Hrun. unfold drive in Hrun. destruct (w_cars w !! i) as [[|k rest]|] eqn:E; [done| |done].
  destruct (do_call_count _ _ _ Hrun) as (Hcnt & Hcars & Hidx & Hfree). cbn in *.
  assert (Hkr : k :: rest ∈ w_cars w) by by eapply list_elem_of_lookup_2.
  split.
  - rewrite Hcars. intros l (j & Hj)%list_elem_of_lookup. apply list_lookup_insert_Some in Hj as [(<- & <- & _)|[_ Hj]].
    + by eapply well_driven_tail, Hw.
    + by eapply Hw, list_elem_of_lookup_2.
  - intros s. rewrite Hcnt, Hcars, (total_insert _ _ _ _ _ E), <- (Hc s). cbn. lia.
  - auto.
  - rewrite Hidx, Hcars, length_insert. done.
Qed.

Lemma step_inv w w' : step w w' → inv w → inv w'.
Proof. intros [r1 r2 w1 w2 H1 H2 Hf|i w1 w2 Hd] Hi; [exact (inv_fork _ _ _ _ H1 H2 Hi Hf)|exact (inv_drive _ _ _ Hi Hd)]. Qed.

Lemma reachable_inv w : reachable w → inv w.
Proof.
  unfold reachable. intros Hr. pose proof inv_start as Hinv. induction Hr as [|w1 w2 w3 Hst _ IH]; [done|].
  apply IH. by eapply step_inv.
Qed.

(** ** Who holds what *)

Lemma holds_nonneg w s l : inv w → l ∈ w_cars w → 0 ≤ holds s l.
Proof.
  intros Hinv Hl. pose proof (well_driven_good _ (i_well _ Hinv l Hl)) as Hg.
  destruct (decide (s = Intersection)) as [->|Hs]; [by destruct (g_inside _ Hg)|by destruct (g_region _ Hg s Hs)].
Qed.

Definition nonneg (s : semaphore) (cars : list (list call)) : Prop := ∀ l, l ∈ cars → 0 ≤ holds s l.

Lemma cars_total_nonneg s cars : nonneg s cars → 0 ≤ total s cars.
Proof.
  unfold nonneg. induction cars as [|l cars IH]; intros Hl; [done|]. rewrite total_cons.
  pose proof (Hl l ltac:(set_solver)). pose proof (IH ltac:(set_solver)). lia.
Qed.

Lemma total_holder s cars : 0 < total s cars → ∃ j l, cars !! j = Some l ∧ 0 < holds s l.
Proof.
  induction cars as [|l cars IH]; [done|]. rewrite total_cons. intros Ht. destruct (decide (0 < holds s l)); [by exists 0%nat, l|].
  destruct IH as (j & l' & ? & ?); [lia|]. by exists (S j), l'.
Qed.

(** Taking one car out. *)
Lemma total_pick s cars j l :
  cars !! j = Some l → nonneg s cars →
  total s cars = holds s l + total s (<[j := []]> cars) ∧ nonneg s (<[j := []]> cars) ∧
  ∀ i, i ≠ j → <[j := []]> cars !! i = cars !! i.
Proof.
  intros Hj Hn. rewrite (total_insert _ _ _ _ _ Hj). split_and!; [cbn; lia| |].
  - intros l' (i & Hi)%list_elem_of_lookup. apply list_lookup_insert_Some in Hi as [(<- & <- & _)|[_ Hi]]; [done|].
    by eapply Hn, list_elem_of_lookup_2.
  - intros i Hi. by apply list_lookup_insert_ne.
Qed.

Lemma total_two s cars i j l m :
  nonneg s cars → i ≠ j → cars !! i = Some l → cars !! j = Some m → holds s l + holds s m ≤ total s cars.
Proof.
  intros Hn Hij Hi Hj. destruct (total_pick _ _ _ _ Hi Hn) as (-> & Hn1 & Hsame).
  destruct (total_pick s (<[i := []]> cars) j m) as (-> & Hn2 & _); [by rewrite Hsame|done|].
  pose proof (cars_total_nonneg _ _ Hn2). lia.
Qed.

Lemma total_four s cars j1 j2 j3 j4 l1 l2 l3 l4 :
  nonneg s cars → NoDup [j1; j2; j3; j4] →
  cars !! j1 = Some l1 → cars !! j2 = Some l2 → cars !! j3 = Some l3 → cars !! j4 = Some l4 →
  holds s l1 + holds s l2 + holds s l3 + holds s l4 ≤ total s cars.
Proof.
  intros Hn (H1 & (H2 & (H3 & _)%list.NoDup_cons)%list.NoDup_cons)%list.NoDup_cons E1 E2 E3 E4.
  destruct (total_pick _ _ _ _ E1 Hn) as (-> & Hn1 & Hs1).
  destruct (total_pick s (<[j1 := []]> cars) j2 l2) as (-> & Hn2 & Hs2); [rewrite Hs1; [done|set_solver]|done|].
  enough (holds s l3 + holds s l4 ≤ total s (<[j2 := []]> (<[j1 := []]> cars))) by lia.
  apply (total_two s _ j3 j4); [done|set_solver|..]; rewrite Hs2, Hs1; set_solver.
Qed.

(** ** Deadlock *)

Definition blocked (w : world) (j : nat) (s : semaphore) : Prop :=
  ∃ rest, w_cars w !! j = Some (P s :: rest) ∧ w_count w s = 0.

(** A region that is asked for in vain is held by a car inside that asks for
    the next one. *)
Lemma holder_blocked w s :
  inv w → (∀ j l, w_cars w !! j = Some l → l ≠ [] → ∃ s, blocked w j s) → w_count w s = 0 →
  ∃ j t, blocked w j t ∧ t ≠ Intersection ∧ (s ≠ Intersection → before t = s).
Proof.
  intros Hinv Hall Hc. pose proof (i_count _ Hinv s) as Ht. rewrite Hc in Ht.
  destruct (total_holder s (w_cars w)) as (j & l & Hj & Hl); [rewrite Z.add_0_l in Ht; rewrite Ht; by destruct s|].
  destruct (Hall j l Hj) as [t Hb]; [by intros ->|]. pose proof Hb as (rest & Hj' & _).
  rewrite Hj in Hj'. injection Hj' as ->. exists j, t.
  pose proof (well_driven_good _ (i_well _ Hinv _ (list_elem_of_lookup_2 _ _ _ Hj))) as Hg.
  assert (Hti : t ≠ Intersection). { intros ->. rewrite (g_enter _ Hg rest eq_refl s) in Hl. lia. }
  split_and!; [done|done|]. intros Hs. destruct (decide (s = before t)) as [->|Hne]; [done|].
  destruct (g_ask _ Hg t rest eq_refl Hti) as [_ Hz]. rewrite Hz in Hl by done. lia.
Qed.

Lemma blocked_inside w j s : inv w → blocked w j s → s ≠ Intersection →
  ∃ l, w_cars w !! j = Some l ∧ holds Intersection l = 1.
Proof.
  intros Hinv (rest & Hj & _) Hs. exists (P s :: rest). split; [done|].
  pose proof (well_driven_good _ (i_well _ Hinv _ (list_elem_of_lookup_2 _ _ _ Hj))) as Hg.
  by destruct (g_ask _ Hg s rest eq_refl Hs).
Qed.

Lemma blocked_fun w j s t : blocked w j s → blocked w j t → s = t.
Proof. intros (? & H1 & _) (? & H2 & _). congruence. Qed.

(** Not all the cars that are left can be blocked. *)
Lemma no_deadlock w :
  inv w → (∀ j l, w_cars w !! j = Some l → l ≠ [] → ∃ s, blocked w j s) → ∀ l, l ∈ w_cars w → l = [].
Proof.
  intros Hinv Hall l (j & Hj)%list_elem_of_lookup. destruct (decide (l = [])) as [|Hne]; [done|exfalso].
  destruct (Hall j l Hj Hne) as (s0 & r0 & _ & Hc0).
  destruct (holder_blocked w s0 Hinv Hall Hc0) as (j1 & s1 & B1 & N1 & _).
  destruct (holder_blocked w s1 Hinv Hall) as (j2 & s2 & B2 & N2 & E2); [by destruct B1 as (? & _ & ?)|].
  destruct (holder_blocked w s2 Hinv Hall) as (j3 & s3 & B3 & N3 & E3); [by destruct B2 as (? & _ & ?)|].
  destruct (holder_blocked w s3 Hinv Hall) as (j4 & s4 & B4 & N4 & E4); [by destruct B3 as (? & _ & ?)|].
  assert (Hd : ∀ i k s t, blocked w i s → blocked w k t → s ≠ t → i ≠ k).
  { intros i k s t Hi Hk Hst ->. by eapply Hst, blocked_fun. }
  specialize (E2 N1). specialize (E3 N2). specialize (E4 N3).
  assert (NoDup [j1; j2; j3; j4]) as Hnd.
  { assert (s1 ≠ s2 ∧ s1 ≠ s3 ∧ s1 ≠ s4 ∧ s2 ≠ s3 ∧ s2 ≠ s4 ∧ s3 ≠ s4) as (?&?&?&?&?&?) by (by destruct s4; simplify_eq/=).
    repeat apply NoDup_cons_2; [..|apply NoDup_nil_2]; rewrite ?not_elem_of_cons; split_and?; eauto using not_elem_of_nil. }
  destruct (blocked_inside _ _ _ Hinv B1 N1) as (l1 & C1 & D1), (blocked_inside _ _ _ Hinv B2 N2) as (l2 & C2 & D2),
    (blocked_inside _ _ _ Hinv B3 N3) as (l3 & C3 & D3), (blocked_inside _ _ _ Hinv B4 N4) as (l4 & C4 & D4).
  assert (Hnn : nonneg Intersection (w_cars w)) by (intros x Hx; by eapply holds_nonneg).
  pose proof (total_four _ _ _ _ _ _ _ _ _ _ Hnn Hnd C1 C2 C3 C4).
  pose proof (i_count _ Hinv Intersection) as Hcnt. pose proof (i_free _ Hinv Intersection). cbn in Hcnt. lia.
Qed.

(** ** Progress *)

Definition remaining (w : world) : nat := sum_list (length <$> w_cars w) + 14 * Z.to_nat (NCARS - w_index w).

Lemma sum_lengths_insert (cars : list (list call)) i k l :
  cars !! i = Some (k :: l) → sum_list (length <$> cars) = S (sum_list (length <$> <[i := l]> cars)).
Proof. revert i. induction cars as [|x cars IH]; intros [|i] Hi; simplify_eq/=; [done|]. rewrite (IH i Hi). lia. Qed.

Lemma approach_length r1 r2 n : (length (approachintersection r1 r2 n) < 14)%nat.
Proof. unfold approachintersection, gostraight, turnleft, turnright. repeat case_match; cbn; lia. Qed.

Lemma step_remaining w w' : step w w' → (remaining w' < remaining w)%nat.
Proof.
  unfold remaining. intros [r1 r2 w1 w2 _ _ Hf|i w1 w2 Hd].
  - unfold fork_car in Hf. destruct (_ <? _) eqn:E; [|done]. injection Hf as <-. cbn [w_cars w_index].
    pose proof (approach_length r1 r2 (w_index w1)). rewrite fmap_app, sum_list_with_app. cbn. lia.
  - unfold drive in Hd. destruct (w_cars w1 !! i) as [[|k rest]|] eqn:E; [done| |done].
    destruct (do_call_count _ _ _ Hd) as (_ & -> & -> & _). cbn. rewrite (sum_lengths_insert _ _ _ _ E). lia.
Qed.

Lemma stuck_blocked w :
  (∀ w', ¬ step w w') → NCARS ≤ w_index w ∧ ∀ j l, inv w → w_cars w !! j = Some l → l ≠ [] → ∃ s, blocked w j s.
Proof.
  intros Hst. split.
  - destruct (decide (w_index w < NCARS)); [|lia]. destruct (Hst (World (w_count w) (w_index w + 1)
      (w_cars w ++ [approachintersection 0 0 (w_index w)]) (w_printed w))).
    apply (st_fork 0 0); [done..|]. unfold fork_car. by rewrite (proj2 (Z.ltb_lt _ _)).
  - intros j [|k rest] Hinv Hj Hne; [done|]. destruct (drive j w) as [w'|] eqn:E; [by destruct (Hst w'); eapply st_drive|].
    unfold drive in E. rewrite Hj in E. destruct k as [s|s|]; cbn in E; [|done..].
    exists s, rest. split; [done|]. destruct (w_count w s >? 0) eqn:Hc; [done|]. pose proof (i_free _ Hinv s). lia.
Qed.

(** ** Properties *)

(** C26: No region of the intersection ever holds two cars, and at most three
    cars are inside it. *)
Theorem stoplight_exclusive w :
  reachable w →
  (∀ s i j l m, s ≠ Intersection → w_cars w !! i = Some l → w_cars w !! j = Some m →
     0 < holds s l → 0 < holds s m → i = j) ∧
  total Intersection (w_cars w) ≤ 3.
Proof.
  intros Hinv%reachable_inv. split.
  - intros s i j l m Hs Hi Hj Hl Hm. destruct (decide (i = j)) as [|Hij]; [done|exfalso].
    assert (Hnn : nonneg s (w_cars w)) by (intros x Hx; by eapply holds_nonneg).
    pose proof (total_two _ _ _ _ _ _ Hnn Hij Hi Hj). pose proof (i_count _ Hinv s). pose proof (i_free _ Hinv s).
    assert (initial_count s = 1) by by destruct s. lia.
  - pose proof (i_count _ Hinv Intersection) as Hc. pose proof (i_free _ Hinv Intersection). cbn in Hc. lia.
Qed.

(** C20: The cars never block one another for good.  However the threads are
    scheduled the run ends, and it ends only when all twenty cars have
    passed and every semaphore is as it was at the start. *)
Theorem stoplight_cars_leave w :
  reachable w →
  (∀ n w', nsteps step n w w' → (n ≤ remaining w)%nat) ∧
  ((∀ w', ¬ step w w') →
     length (w_cars w) = 20%nat ∧ (∀ l, l ∈ w_cars w → l = []) ∧ ∀ s, w_count w s = initial_count s).
Proof.
  intros Hinv%reachable_inv. split.
  - intros n. revert w Hinv. induction n as [|n IH]; intros w Hinv w' Hn; [lia|].
    inversion Hn as [|? ? w1 ? Hst Hrest]; subst. pose proof (step_remaining _ _ Hst).
    pose proof (IH _ (step_inv _ _ Hst Hinv) _ Hrest). lia.
  - intros Hst. destruct (stuck_blocked _ Hst) as [Hidx Hb]. destruct (i_index _ Hinv) as [Hi Hle]. unfold NCARS in *.
    assert (Hall : ∀ l, l ∈ w_cars w → l = []) by (apply no_deadlock; [done|intros; by eapply Hb]).
    split_and!; [lia|done|]. intros s. rewrite <- (i_count _ Hinv s). assert (total s (w_cars w) = 0); [|lia].
    revert Hall. clear. induction (w_cars w) as [|l c IH]; intros Hall; [done|]. rewrite total_cons, IH by set_solver.
    by rewrite (Hall l) by set_solver.
Qed.

(** ** A run *)

(** The cars are forked one after another, and drive in turns of one call
    each. *)
Definition drive_all (l : list nat) (w : world) : world := foldl (λ w i, default w (drive i w)) w l.
Definition fork_all (l : list Z) (w : world) : world := foldl (λ w r, default w (fork_car r (r / 4) w)) w l.
Definition demo_cars : world := fork_all (seqZ 0 20) createcars.
Definition demo_crossing : world := drive_all (seq 0 20 ++ seq 0 20 ++ seq 0 20) demo_cars.
Definition demo_end : world := drive_all (concat (replicate 100 (seq 0 20))) demo_crossing.

Lemma drive_all_steps l w : rtc step w (drive_all l w).
Proof.
  revert w. induction l as [|i l IH]; intros w; [done|]. cbn. destruct (drive i w) as [w'|] eqn:E; cbn; [|apply IH].
  eapply rtc_l, IH. by eapply st_drive.
Qed.

Lemma fork_all_steps l w : (∀ r, r ∈ l → 0 ≤ r) → rtc step w (fork_all l w).
Proof.
  revert w. induction l as [|r l IH]; intros w Hl; [done|]. assert (0 ≤ r) by (apply Hl; set_solver).
  cbn. destruct (fork_car r (r / 4) w) as [w'|] eqn:E; cbn; [|apply IH; set_solver].
  eapply rtc_l, IH; [|set_solver]. eapply st_fork; [done| |done]. by apply Z.div_pos.
Qed.

Lemma demo_crossing_reachable : reachable demo_crossing.
Proof.
  unfold reachable. transitivity demo_cars; [|apply drive_all_steps]. apply fork_all_steps.
  intros r Hr%elem_of_seqZ. lia.
Qed.

Lemma demo_end_reachable : reachable demo_end.
Proof. unfold reachable. etransitivity; [apply demo_crossing_reachable|apply drive_all_steps]. Qed.

Lemma all_gone_stuck w : w_index w = NCARS → w_cars w = replicate 20 [] → ∀ w', ¬ step w w'.
Proof.
  intros Hi Hc w' Hst. inversion Hst as [r1 r2 w1 w2 _ _ Hf|i w1 w2 Hd]; subst.
  - unfold fork_car in Hf. by rewrite Hi in Hf.
  - unfold drive in Hd. rewrite Hc in Hd. destruct (replicate 20 [] !! i) as [l|] eqn:E; [|done].
    apply lookup_replicate in E as [-> _]. done.
Qed.

Lemma demo_end_stuck : ∀ w', ¬ step demo_end w'.
Proof. apply all_gone_stuck; vm_compute; reflexivity. Qed.

Lemma stoplight_exclusive_witness : total Intersection (w_cars demo_crossing) ≤ 3 ∧ total Nw (w_cars demo_crossing) = 1.
Proof. split; [exact (proj2 (stoplight_exclusive _ demo_crossing_reachable))|vm_compute; reflexivity]. Defined.

Lemma stoplight_cars_leave_witness : length (w_cars demo_end) = 20%nat ∧ w_count demo_end Intersection = 3.
Proof.
  destruct (stoplight_cars_leave _ demo_end_reachable) as [_ Hend].
  destruct (Hend demo_end_stuck) as (Hlen & _ & Hcount). split; [exact Hlen|exact (Hcount Intersection)].
Defined.
