(* ===== verification/Exec.v ===== *)
(** * Programs (kern/userprog/loadelf.c, kern/userprog/runprogram.c,
      sys_execv of kern/arch/mips/mips/syscall.c)

    The machine is the memory system of Vm and the state of the file system;
    the class [Programs] says what the loader uses of the latter.  Copies to
    and from user memory go through the address space of the process: what
    it can reach is its [view], and what is stored there goes to the
    physical pages behind it.  The entries such copies leave in the TLB are
    left out; they translate as the address space does (VmSpec).  *)

From S2P Require Import Prelude Ram Bytes Mem CString Uio Vm VmSpec.

(** ** ELF files (kern/include/elf.h) *)

Definition ELF_NIDENT : Z := 16.

Record Elf_Ehdr := Ehdr {
  e_ident : list Z;
  e_type : Z;
  e_machine : Z;
  e_version : Z;
  e_entry : Z;
  e_phoff : Z;
  e_phentsize : Z;
  e_phnum : Z;
}.

Record Elf_Phdr := Phdr {
  p_type : Z;
  p_offset : Z;
  p_vaddr : Z;
  p_filesz : Z;
  p_memsz : Z;
  p_flags : Z;
}.

Definition SIZEOF_EHDR : Z := 52.
Definition SIZEOF_PHDR : Z := 32.

Definition field (b : list Z) (off n : nat) : Z := be_value (slice b off n).

(** The structures as the processor finds them in memory; the fields nothing
    uses are left out. *)
Definition ehdr_of (b : list Z) : Elf_Ehdr :=
  Ehdr (slice b 0 16) (field b 16 2) (field b 18 2) (field b 20 4) (field b 24 4) (field b 28 4)
       (field b 42 2) (field b 44 2).
Definition phdr_of (b : list Z) : Elf_Phdr :=
  Phdr (field b 0 4) (field b 4 4) (field b 8 4) (field b 16 4) (field b 20 4) (field b 24 4).

Definition ELFMAG : list Z := [0x7f; 69; 76; 70].
Definition ELFCLASS32 : Z := 1.
Definition ELFDATA2MSB : Z := 2.
Definition EV_CURRENT : Z := 1.
Definition ET_EXEC : Z := 2.
Definition EM_MIPS : Z := 8.
Definition PT_NULL : Z := 0.
Definition PT_LOAD : Z := 1.
Definition PT_PHDR : Z := 6.
Definition PT_MIPS_REGINFO : Z := 0x70000000.
Definition PF_X : Z := 1.

Definition elf_ok (eh : Elf_Ehdr) : bool :=
  bool_decide (take 4 (e_ident eh) = ELFMAG) &&
  bool_decide (slice (e_ident eh) 4 3 = [ELFCLASS32; ELFDATA2MSB; EV_CURRENT]) &&
  (e_version eh =? EV_CURRENT) && (e_type eh =? ET_EXEC) && (e_machine eh =? EM_MIPS).

(** ** The trap frame (kern/arch/mips/include/trapframe.h) *)

Record trapframe := Trapframe {
  tf_vaddr : Z; tf_status : Z; tf_cause : Z; tf_lo : Z; tf_hi : Z; tf_ra : Z; tf_at : Z; tf_v0 : Z;
  tf_v1 : Z; tf_a0 : Z; tf_a1 : Z; tf_a2 : Z; tf_a3 : Z; tf_t0 : Z; tf_t1 : Z; tf_t2 : Z;
  tf_t3 : Z; tf_t4 : Z; tf_t5 : Z; tf_t6 : Z; tf_t7 : Z; tf_s0 : Z; tf_s1 : Z; tf_s2 : Z;
  tf_s3 : Z; tf_s4 : Z; tf_s5 : Z; tf_s6 : Z; tf_s7 : Z; tf_t8 : Z; tf_t9 : Z; tf_k0 : Z;
  tf_k1 : Z; tf_gp : Z; tf_sp : Z; tf_s8 : Z; tf_epc : Z;
}.

Definition set_tf_status (x : Z) (t : trapframe) : trapframe :=
  Trapframe (tf_vaddr t) x (tf_cause t) (tf_lo t) (tf_hi t) (tf_ra t) (tf_at t) (tf_v0 t) (tf_v1 t)
    (tf_a0 t) (tf_a1 t) (tf_a2 t) (tf_a3 t) (tf_t0 t) (tf_t1 t) (tf_t2 t) (tf_t3 t) (tf_t4 t) (tf_t5
    t) (tf_t6 t) (tf_t7 t) (tf_s0 t) (tf_s1 t) (tf_s2 t) (tf_s3 t) (tf_s4 t) (tf_s5 t) (tf_s6 t)
    (tf_s7 t) (tf_t8 t) (tf_t9 t) (tf_k0 t) (tf_k1 t) (tf_gp t) (tf_sp t) (tf_s8 t) (tf_epc t).
Definition set_tf_v0 (x : Z) (t : trapframe) : trapframe :=
  Trapframe (tf_vaddr t) (tf_status t) (tf_cause t) (tf_lo t) (tf_hi t) (tf_ra t) (tf_at t) x (tf_v1
    t) (tf_a0 t) (tf_a1 t) (tf_a2 t) (tf_a3 t) (tf_t0 t) (tf_t1 t) (tf_t2 t) (tf_t3 t) (tf_t4 t)
    (tf_t5 t) (tf_t6 t) (tf_t7 t) (tf_s0 t) (tf_s1 t) (tf_s2 t) (tf_s3 t) (tf_s4 t) (tf_s5 t) (tf_s6
    t) (tf_s7 t) (tf_t8 t) (tf_t9 t) (tf_k0 t) (tf_k1 t) (tf_gp t) (tf_sp t) (tf_s8 t) (tf_epc t).
Definition set_tf_a0 (x : Z) (t : trapframe) : trapframe :=
  Trapframe (tf_vaddr t) (tf_status t) (tf_cause t) (tf_lo t) (tf_hi t) (tf_ra t) (tf_at t) (tf_v0
    t) (tf_v1 t) x (tf_a1 t) (tf_a2 t) (tf_a3 t) (tf_t0 t) (tf_t1 t) (tf_t2 t) (tf_t3 t) (tf_t4 t)
    (tf_t5 t) (tf_t6 t) (tf_t7 t) (tf_s0 t) (tf_s1 t) (tf_s2 t) (tf_s3 t) (tf_s4 t) (tf_s5 t) (tf_s6
    t) (tf_s7 t) (tf_t8 t) (tf_t9 t) (tf_k0 t) (tf_k1 t) (tf_gp t) (tf_sp t) (tf_s8 t) (tf_epc t).
Definition set_tf_a1 (x : Z) (t : trapframe) : trapframe :=
  Trapframe (tf_vaddr t) (tf_status t) (tf_cause t) (tf_lo t) (tf_hi t) (tf_ra t) (tf_at t) (tf_v0
    t) (tf_v1 t) (tf_a0 t) x (tf_a2 t) (tf_a3 t) (tf_t0 t) (tf_t1 t) (tf_t2 t) (tf_t3 t) (tf_t4 t)
    (tf_t5 t) (tf_t6 t) (tf_t7 t) (tf_s0 t) (tf_s1 t) (tf_s2 t) (tf_s3 t) (tf_s4 t) (tf_s5 t) (tf_s6
    t) (tf_s7 t) (tf_t8 t) (tf_t9 t) (tf_k0 t) (tf_k1 t) (tf_gp t) (tf_sp t) (tf_s8 t) (tf_epc t).
Definition set_tf_a3 (x : Z) (t : trapframe) : trapframe :=
  Trapframe (tf_vaddr t) (tf_status t) (tf_cause t) (tf_lo t) (tf_hi t) (tf_ra t) (tf_at t) (tf_v0
    t) (tf_v1 t) (tf_a0 t) (tf_a1 t) (tf_a2 t) x (tf_t0 t) (tf_t1 t) (tf_t2 t) (tf_t3 t) (tf_t4 t)
    (tf_t5 t) (tf_t6 t) (tf_t7 t) (tf_s0 t) (tf_s1 t) (tf_s2 t) (tf_s3 t) (tf_s4 t) (tf_s5 t) (tf_s6
    t) (tf_s7 t) (tf_t8 t) (tf_t9 t) (tf_k0 t) (tf_k1 t) (tf_gp t) (tf_sp t) (tf_s8 t) (tf_epc t).
Definition set_tf_sp (x : Z) (t : trapframe) : trapframe :=
  Trapframe (tf_vaddr t) (tf_status t) (tf_cause t) (tf_lo t) (tf_hi t) (tf_ra t) (tf_at t) (tf_v0
    t) (tf_v1 t) (tf_a0 t) (tf_a1 t) (tf_a2 t) (tf_a3 t) (tf_t0 t) (tf_t1 t) (tf_t2 t) (tf_t3 t)
    (tf_t4 t) (tf_t5 t) (tf_t6 t) (tf_t7 t) (tf_s0 t) (tf_s1 t) (tf_s2 t) (tf_s3 t) (tf_s4 t) (tf_s5
    t) (tf_s6 t) (tf_s7 t) (tf_t8 t) (tf_t9 t) (tf_k0 t) (tf_k1 t) (tf_gp t) x (tf_s8 t) (tf_epc t).
Definition set_tf_epc (x : Z) (t : trapframe) : trapframe :=
  Trapframe (tf_vaddr t) (tf_status t) (tf_cause t) (tf_lo t) (tf_hi t) (tf_ra t) (tf_at t) (tf_v0
    t) (tf_v1 t) (tf_a0 t) (tf_a1 t) (tf_a2 t) (tf_a3 t) (tf_t0 t) (tf_t1 t) (tf_t2 t) (tf_t3 t)
    (tf_t4 t) (tf_t5 t) (tf_t6 t) (tf_t7 t) (tf_s0 t) (tf_s1 t) (tf_s2 t) (tf_s3 t) (tf_s4 t) (tf_s5
    t) (tf_s6 t) (tf_s7 t) (tf_t8 t) (tf_t9 t) (tf_k0 t) (tf_k1 t) (tf_gp t) (tf_sp t) (tf_s8 t) x.

(** bzero(&tf, sizeof(tf)) *)
Definition zero_frame : trapframe :=
  Trapframe 0 0 0 0 0 0 0 0 0 0 0 0 0 0 0 0 0 0 0 0 0 0 0 0 0 0 0 0 0 0 0 0 0 0 0 0 0.

Definition CST_IEp : Z := 0x4.
Definition CST_KUp : Z := 0x8.
Definition CST_IRQMASK : Z := 0xff00.

(** The frame md_usermode makes. *)
Definition usermode_frame (argc argv stack entry : Z) : trapframe :=
  set_tf_sp stack (set_tf_a1 argv (set_tf_a0 argc (set_tf_epc entry
    (set_tf_status (Z.lor (Z.lor CST_IRQMASK CST_IEp) CST_KUp) zero_frame)))).

(** ** The machine *)

Class Programs (H F : Type) := {
  VOP_READ : Z → uio → uenv → F → outcome (Z * uio * uenv * F);
  prog_open : list Z → H → F → outcome (res Z * H * F);
  prog_close : Z → H → F → outcome (H * F);
}.

Record machine (H F : Type) := Machine { mc_vm : vm H; mc_files : F }.
Arguments Machine {H F} _ _.
Arguments mc_vm {H F} _.
Arguments mc_files {H F} _.

Section Exec.
Context {H F : Type} `{KHeap H} `{RamHeap H} `{!Programs H F}.
Implicit Types (s : vm H) (m : machine H F) (a : addrspace).

Definition set_vm s m : machine H F := Machine s (mc_files m).

(** Run an operation of the memory system. *)
Definition on_vm {A} (f : vm H → outcome (A * vm H)) m : outcome (A * machine H F) :=
  '(x, s) ← f (mc_vm m); Done (x, set_vm s m).

(** ** User memory *)

Definition user_addrs a : gset Z :=
  list_to_set (seqZ (as_vbase1 a) (as_npages1 a * PAGE_SIZE) ++ seqZ (as_vbase2 a) (as_npages2 a * PAGE_SIZE) ++
               seqZ stackbase (DUMBVM_STACKPAGES * PAGE_SIZE)).

Definition view s a : mem := set_to_map (λ va, (va, default 0 (user_byte s a va))) (user_addrs a).

Definition stored (u : mem) a : mem :=
  set_to_map (λ va, (MIPS_KSEG0 + default 0 (translate a va), default 0 (u !! va))) (user_addrs a).

(** curthread->t_vmspace and what it makes of memory: nothing can be touched
    before the segments and the stack have been set up. *)
Definition t_vmspace s : option Z := if v_cur s =? 0 then None else Some (v_cur s).
Definition current s : option addrspace :=
  a ← v_spaces s !! v_cur s; if space_check a then Some a else None.
Definition user_of s : uenv := Uenv (match current s with Some a => view s a | None => ∅ end) (t_vmspace s).
Definition put_user (ue : uenv) s : vm H :=
  match current s with Some a => set_mem (stored (ue_mem ue) a ∪ v_mem s) s | None => s end.

(** A user address touched in an address space that has not been set up
    fails the assertions of vm_fault. *)
Definition unready (result va : Z) s : bool :=
  match v_spaces s !! v_cur s with
  | Some a => negb (space_check a) && (result =? EFAULT) && (va <? USERTOP)
  | None => false
  end.
Definition untouchable (result : Z) (u : uio) s : bool :=
  match iov u with Ubase va => unready result va s | Kbase _ _ => false end.

Definition vop_read (v : Z) (u : uio) m : outcome (Z * uio * machine H F) :=
  '(result, u, ue, f) ← VOP_READ v u (user_of (mc_vm m)) (mc_files m);
  kassert (negb (untouchable result u (mc_vm m)));;
  Done (result, u, Machine (put_user ue (mc_vm m)) f).

Definition vm_uiomovezeros (n : Z) (u : uio) m : outcome (Z * machine H F) :=
  '(result, u, ue) ← uiomovezeros n u (user_of (mc_vm m));
  kassert (negb (untouchable result u (mc_vm m)));;
  Done (result, set_vm (put_user ue (mc_vm m)) m).

(** ** load_segment *)

Definition load_segment (v offset vaddr memsize filesize : Z) (is_executable : bool) m
  : outcome (Z * machine H F) :=
  let filesize := if filesize >? memsize then memsize else filesize in
  let u := Uio (Ubase vaddr) memsize (s32 offset) filesize
               (if is_executable then UIO_USERISPACE else UIO_USERSPACE) UIO_READ (t_vmspace (mc_vm m)) in
  '(result, u, m) ← vop_read v u m;
  if negb (result =? 0) then Done (result, m)
  else if negb (uio_resid u =? 0) then Done (ENOEXEC, m)
  else
    let fillamt := u32 (memsize - filesize) in
    if fillamt >? 0 then
      let u := Uio (iov u) (iov_len u) (uio_offset u) (u32 (uio_resid u + fillamt))
                   (uio_segflg u) (uio_rw u) (uio_space u) in
      vm_uiomovezeros fillamt u m
    else Done (result, m).

(** ** load_elf *)

(** Read [len] bytes at [offset] into a structure; ENOEXEC after a short read. *)
Definition read_struct (v offset len : Z) m : outcome (res (list Z) * machine H F) :=
  '(result, u, m) ← vop_read v (mk_kuio (replicate (Z.to_nat len) 0) len offset UIO_READ) m;
  if negb (result =? 0) then Done (Err result, m)
  else if negb (uio_resid u =? 0) then Done (Err ENOEXEC, m)
  else match iov u with
       | Kbase buf _ => Done (Ok buf, m)
       | Ubase _ => Fault
       end.

Definition phdr_offset (eh : Elf_Ehdr) (i : Z) : Z := s32 (e_phoff eh + i * e_phentsize eh).

(** The switch on ph.p_type: true to go on with the segment, false to skip it. *)
Definition segment_kind (ph : Elf_Phdr) : res bool :=
  if (p_type ph =? PT_NULL) || (p_type ph =? PT_PHDR) || (p_type ph =? PT_MIPS_REGINFO) then Ok false
  else if p_type ph =? PT_LOAD then Ok true
  else Err ENOEXEC.

(** A pass over the program headers, from number [i] on. *)
Fixpoint each_segment (n : nat) (i : Z) (v : Z) (eh : Elf_Ehdr)
    (body : Elf_Phdr → machine H F → outcome (Z * machine H F)) m : outcome (Z * machine H F) :=
  match n with
  | O => Done (0, m)
  | S n =>
      '(r, m) ← read_struct v (phdr_offset eh i) SIZEOF_PHDR m;
      match r with
      | Err e => Done (e, m)
      | Ok b =>
          let ph := phdr_of b in
          match segment_kind ph with
          | Err e => Done (e, m)
          | Ok false => each_segment n (i + 1) v eh body m
          | Ok true =>
              '(result, m) ← body ph m;
              if negb (result =? 0) then Done (result, m) else each_segment n (i + 1) v eh body m
          end
      end
  end.

Definition define_segment (ph : Elf_Phdr) m : outcome (Z * machine H F) :=
  on_vm (as_define_region (v_cur (mc_vm m)) (p_vaddr ph) (p_memsz ph)) m.
Definition fill_segment (v : Z) (ph : Elf_Phdr) m : outcome (Z * machine H F) :=
  load_segment v (p_offset ph) (p_vaddr ph) (p_memsz ph) (p_filesz ph) (negb (Z.land (p_flags ph) PF_X =? 0)) m.

(** The entry point on success. *)
Definition load_elf (v : Z) m : outcome (res Z * machine H F) :=
  '(r, m) ← read_struct v 0 SIZEOF_EHDR m;
  match r with
  | Err e => Done (Err e, m)
  | Ok b =>
      let eh := ehdr_of b in
      if negb (elf_ok eh) then Done (Err ENOEXEC, m)
      else
        '(result, m) ← each_segment (Z.to_nat (e_phnum eh)) 0 v eh define_segment m;
        if negb (result =? 0) then Done (Err result, m)
        else
          '(result, m) ← on_vm (as_prepare_load (v_cur (mc_vm m))) m;
          if negb (result =? 0) then Done (Err result, m)
          else
            '(result, m) ← each_segment (Z.to_nat (e_phnum eh)) 0 v eh (fill_segment v) m;
            if negb (result =? 0) then Done (Err result, m)
            else Done (Ok (e_entry eh), m)   (* as_complete_load returns 0 *)
  end.

(** ** The user stack *)

Definition vm_copyoutstr (src : list Z) (dest len : Z) m : outcome (Z * machine H F) :=
  '(result, _, ue) ← copyoutstr src dest len (user_of (mc_vm m));
  kassert (negb (unready result dest (mc_vm m)));;
  Done (result, set_vm (put_user ue (mc_vm m)) m).
Definition vm_copyout (src : list Z) (dest len : Z) m : outcome (Z * machine H F) :=
  '(result, ue) ← copyout src dest len (user_of (mc_vm m));
  kassert (negb (unready result dest (mc_vm m)));;
  Done (result, set_vm (put_user ue (mc_vm m)) m).

(** The room for a string, a multiple of 4. *)
Definition block_len (arg_len : Z) : Z :=
  if (arg_len + 1) mod 4 =? 0 then arg_len + 1 else arg_len + 1 + (4 - (arg_len + 1) mod 4).

(** for (i = nargs-1; i>=0; i--): the strings still to be copied, the last
    one first; [pointers] has those of the ones copied. *)
Fixpoint push_strings (rargs : list (list Z)) (stackptr : Z) (pointers : list Z) m
  : outcome (Z * Z * list Z * machine H F) :=
  match rargs with
  | [] => Done (0, stackptr, pointers, m)
  | arg :: rargs =>
      arg_len ← strlen arg;
      let stackptr := u32 (stackptr - block_len arg_len) in
      '(result, m) ← vm_copyoutstr arg stackptr (arg_len + 1) m;
      if negb (result =? 0) then Done (result, stackptr, pointers, m)
      else push_strings rargs stackptr (stackptr :: pointers) m
  end.

(** The pointers, the last one first.  runprogram ignores the result of
    copyout, sys_execv returns it ([strict]). *)
Fixpoint push_pointers (strict : bool) (rpointers : list Z) (stackptr : Z) m : outcome (Z * Z * machine H F) :=
  match rpointers with
  | [] => Done (0, stackptr, m)
  | p :: rpointers =>
      let stackptr := u32 (stackptr - 4) in
      '(result, m) ← vm_copyout (be32 p) stackptr 4 m;
      if strict && negb (result =? 0) then Done (result, stackptr, m)
      else push_pointers strict rpointers stackptr m
  end.

(** md_usermode and mips_usermode: interrupts count as on in user mode.  The
    frame is what the processor is loaded with. *)
Definition md_usermode (argc argv stack entry : Z) m : trapframe * machine H F :=
  (usermode_frame argc argv stack entry, set_vm (set_spl 0 (mc_vm m)) m).

(** From the address space on, in runprogram and in sys_execv; [v] is the
    open program. *)
Definition start_program (strict : bool) (v : Z) (args : list (list Z)) m : outcome (res trapframe * machine H F) :=
  '(p, s) ← as_create (mc_vm m);
  match p with
  | None =>
      let s := set_cur 0 s in
      '(h, f) ← prog_close v (v_heap s) (mc_files m);
      Done (Err ENOMEM, Machine (set_heap h s) f)
  | Some p =>
      let m := set_vm (as_activate (set_cur p s)) m in
      '(r, m) ← load_elf v m;
      '(h, f) ← prog_close v (v_heap (mc_vm m)) (mc_files m);
      let m := Machine (set_heap h (mc_vm m)) f in
      match r with
      | Err e => Done (Err e, m)
      | Ok entrypoint =>
          stackptr ← as_define_stack p (mc_vm m);
          '(result, stackptr, pointers, m) ← push_strings (rev args) stackptr [] m;
          if negb (result =? 0) then Done (Err result, m)
          else
            '(result, stackptr, m) ← push_pointers strict (rev pointers) stackptr m;
            if negb (result =? 0) then Done (Err result, m)
            else
              let '(tf, m) := md_usermode (Z.of_nat (length args)) stackptr stackptr entrypoint m in
              Done (Ok tf, m)
      end
  end.

(** ** runprogram *)

Definition runprogram (progname : list Z) (args : list (list Z)) m : outcome (res trapframe * machine H F) :=
  '(r, h, f) ← prog_open progname (v_heap (mc_vm m)) (mc_files m);
  let m := Machine (set_heap h (mc_vm m)) f in
  match r with
  | Err e => Done (Err e, m)
  | Ok v =>
      kassert (v_cur (mc_vm m) =? 0);;
      start_program false v args m
  end.

(** ** sys_execv *)

(** A byte the kernel reads through a pointer: user memory, or physical
    memory through its window in kernel space; anything else is a fatal
    fault in kernel mode. *)
Definition kernel_byte s (va : Z) : outcome Z :=
  match (if va <? USERTOP then ue_mem (user_of s) !! va else v_mem s !! va) with
  | Some b => Done b
  | None => Panic
  end.

(** No string is longer than memory. *)
Definition memory_size s : nat := S (size (ue_mem (user_of s)) + size (v_mem s)).

Fixpoint strlen_at (n : nat) s (va : Z) : outcome Z :=
  match n with
  | O => Diverge
  | S n => b ← kernel_byte s va; if b =? 0 then Done 0 else l ← strlen_at n s (va + 1); Done (l + 1)
  end.

(** args[i] *)
Definition kernel_word s (va : Z) : outcome Z :=
  if negb (va mod 4 =? 0) then Panic
  else
    b0 ← kernel_byte s va; b1 ← kernel_byte s (va + 1);
    b2 ← kernel_byte s (va + 2); b3 ← kernel_byte s (va + 3);
    Done (be_value [b0; b1; b2; b3]).

(** while (args[argc] != NULL) argc++ *)
Fixpoint arg_pointers (n : nat) s (va : Z) : outcome (list Z) :=
  match n with
  | O => Diverge
  | S n => p ← kernel_word s va; if p =? 0 then Done [] else l ← arg_pointers n s (va + 4); Done (p :: l)
  end.

Definition bad_pointer (p : Z) : bool := (p =? 0x40000000) || (p =? 0x80000000).

(** A string is measured in place and copied to the kernel heap. *)
Definition fetch_string (va : Z) m : outcome (res (list Z) * machine H F) :=
  len ← strlen_at (memory_size (mc_vm m)) (mc_vm m) va;
  '(p, h) ← kmalloc (len + 1) (v_heap (mc_vm m));
  let m := set_vm (set_heap h (mc_vm m)) m in
  match p with
  | None => Done (Err ENOMEM, m)
  | Some _ =>
      '(result, _, dest) ← copyinstr va (replicate (Z.to_nat (len + 1)) 0) (len + 1) (user_of (mc_vm m));
      if negb (result =? 0) then Done (Err ENOMEM, m) else Done (Ok dest, m)
  end.

Fixpoint fetch_strings (ps : list Z) m : outcome (res (list (list Z)) * machine H F) :=
  match ps with
  | [] => Done (Ok [], m)
  | p :: ps =>
      if bad_pointer p then Done (Err EFAULT, m)
      else
        '(r, m) ← fetch_string p m;
        match r with
        | Err e => Done (Err e, m)
        | Ok x =>
            '(r, m) ← fetch_strings ps m;
            Done (match r with Ok l => Ok (x :: l) | Err e => Err e end, m)
        end
  end.

(** From as_destroy(curthread->t_vmspace) on. *)
Definition replace_program (program_path : list Z) (argv : list (list Z)) m : outcome (res trapframe * machine H F) :=
  s ← as_destroy (v_cur (mc_vm m)) (mc_vm m);
  '(r, h, f) ← prog_open program_path (v_heap s) (mc_files m);
  let m := Machine (set_heap h s) f in
  match r with
  | Err e => Done (Err e, m)
  | Ok v => start_program true v argv m
  end.

Definition sys_execv (program args : Z) m : outcome (res trapframe * machine H F) :=
  if (program =? 0) || bad_pointer program then Done (Err EFAULT, m)
  else
    program_len ← strlen_at (memory_size (mc_vm m)) (mc_vm m) program;
    if program_len =? 0 then Done (Err EINVAL, m)
    else
      '(r, m) ← fetch_string program m;
      match r with
      | Err e => Done (Err e, m)
      | Ok program_path =>
          if bad_pointer args || (args =? 0) then Done (Err EFAULT, m)
          else
            ps ← arg_pointers (memory_size (mc_vm m)) (mc_vm m) args;
            '(r, m) ← fetch_strings ps m;
            match r with
            | Err e => Done (Err e, m)
            | Ok argv =>
                replace_program program_path argv m
            end
      end.
End Exec.
