(* ===== verification/ExecSpec.v ===== *)
(** * What loading a program does

    User memory seen through the address space, and load_elf: every segment
    of the file is in memory, the rest of it zero, and no other process has
    lost a byte. *)

From S2P Require Import Prelude Ram Bytes Mem CString Uio Vm VmSpec Exec.

(** ** User memory through the address space *)

Section View.
Context {H : Type} `{RamHeapLaws H}.
Implicit Types (s : vm H) (a b : addrspace) (L : list Z) (u : mem).

Lemma user_addrs_translate a va : va ∈ user_addrs a ↔ is_Some (translate a va).
Proof.
  unfold user_addrs, translate, locate. rewrite elem_of_list_to_set, !elem_of_app, !elem_of_seqZ.
  unfold stackbase, USERSTACK, DUMBVM_STACKPAGES, PAGE_SIZE. repeat case_decide; cbn; split; intros Hx;
    try (by eexists); try lia; destruct Hx; done.
Qed.

Lemma user_byte_is_Some L s p a va :
  vm_inv L s → v_spaces s !! p = Some a → loaded a → is_Some (user_byte s a va) ↔ is_Some (translate a va).
Proof.
  intros Hi Hp Ha. unfold user_byte. split; [by destruct (translate a va); [eauto|intros []]|].
  intros [pa Hpa]. rewrite Hpa. cbn. unfold translate in Hpa. destruct (locate a va) as [[k o]|] eqn:E; [|done].
  injection Hpa as <-. destruct (locate_bound _ _ _ _ E) as [Hk Ho].
  destruct (vi_run _ _ Hi p a k Hp Hk (loaded_bases _ _ Ha Hk)). pose proof (vi_ram _ _ Hi) as [_ ? _].
  apply (vi_mem _ _ Hi). lia.
Qed.

Lemma view_lookup L s p a va :
  vm_inv L s → v_spaces s !! p = Some a → loaded a → view s a !! va = user_byte s a va.
Proof.
  intros Hi Hp Ha. unfold view. pose proof (user_byte_is_Some L s p a va Hi Hp Ha) as Hs.
  apply option_eq. intros x. rewrite lookup_set_to_map by (intros y y' _ _ [=]; done). split.
  - intros (y & Hy & [= -> <-]). apply user_addrs_translate, Hs in Hy as [b Hb]. by rewrite Hb.
  - intros Hx. exists va. rewrite Hx. split; [|done]. apply user_addrs_translate, Hs. eauto.
Qed.

Lemma stored_keys L s p a y y' :
  vm_inv L s → v_spaces s !! p = Some a → loaded a → y ∈ user_addrs a → y' ∈ user_addrs a →
  MIPS_KSEG0 + default 0 (translate a y) = MIPS_KSEG0 + default 0 (translate a y') → y = y'.
Proof.
  intros Hi Hp Ha [q Hq]%user_addrs_translate [q' Hq']%user_addrs_translate. rewrite Hq, Hq'. cbn. intros E.
  eapply (translate_inj L s p p a a y y' q); [done..|]. rewrite Hq'. f_equal. lia.
Qed.

(** The physical byte behind a user address, and the others. *)
Lemma stored_lookup L s p a u va pa :
  vm_inv L s → v_spaces s !! p = Some a → loaded a → translate a va = Some pa →
  stored u a !! (MIPS_KSEG0 + pa) = Some (default 0 (u !! va)).
Proof.
  intros Hi Hp Ha Ht. unfold stored. apply lookup_set_to_map.
  - intros y y'. by apply (stored_keys L s p).
  - exists va. rewrite Ht. split; [apply user_addrs_translate; eauto|done].
Qed.

Lemma stored_other L s p a u x :
  vm_inv L s → v_spaces s !! p = Some a → loaded a → (∀ va pa, translate a va = Some pa → x ≠ MIPS_KSEG0 + pa) →
  stored u a !! x = None.
Proof.
  intros Hi Hp Ha Hx. apply eq_None_not_Some. intros [y Hy]. unfold stored in Hy. apply lookup_set_to_map in Hy.
  - destruct Hy as (va & [pa Hpa]%user_addrs_translate & [= E _]). rewrite Hpa in E. cbn in E. by eapply Hx.
  - intros z z'. by apply (stored_keys L s p).
Qed.

Lemma current_loaded s a : v_spaces s !! v_cur s = Some a → loaded a → current s = Some a.
Proof. intros Hp Ha. unfold current. rewrite Hp. cbn. by rewrite (ld_check _ Ha). Qed.

(** Storing the memory of the running process changes its bytes only. *)
Record stored_as s a (f : Z → option Z) s' : Prop := {
  sa_frame : ∃ x, s' = set_mem x s;
  sa_self va : user_byte s' a va = f va;
  sa_others q b va : v_spaces s !! q = Some b → loaded b → q ≠ v_cur s → user_byte s' b va = user_byte s b va;
}.

Lemma put_user_run L s a ue :
  vm_inv L s → v_spaces s !! v_cur s = Some a → loaded a →
  (∀ va, is_Some (ue_mem ue !! va) ↔ is_Some (translate a va)) →
  vm_inv L (put_user ue s) ∧ stored_as s a (λ va, ue_mem ue !! va) (put_user ue s).
Proof.
  intros Hi Hp Ha Hdom. unfold put_user. rewrite (current_loaded _ _ Hp Ha). split.
  - apply inv_mem; [done|]. intros x Hx. apply lookup_union_is_Some. right. by apply (vi_mem _ _ Hi).
  - split; [by eexists|..].
    + intros va. unfold user_byte. destruct (translate a va) as [pa|] eqn:E; cbn.
      * rewrite (lookup_union_Some_l _ _ _ _ (stored_lookup L s _ a _ va pa Hi Hp Ha E)).
        assert (is_Some (ue_mem ue !! va)) as [x ->] by (apply Hdom; eauto). done.
      * symmetry. apply eq_None_not_Some. rewrite Hdom, E. by intros [].
    + intros q b va Hq Hb Hne. unfold user_byte. destruct (translate b va) as [pa|] eqn:E; [|done]. cbn.
      rewrite lookup_union_r; [done|]. apply (stored_other L s _ a _ _ Hi Hp Ha).
      intros va' pa' E' Hx. destruct (translate_inj L s q (v_cur s) b a va va' pa Hi Hq Hp Hb Ha E); [|done].
      rewrite E'. f_equal. lia.
Qed.

Lemma user_of_view L s a :
  vm_inv L s → v_spaces s !! v_cur s = Some a → loaded a →
  (∀ va, ue_mem (user_of s) !! va = user_byte s a va) ∧ ue_space (user_of s) = t_vmspace s.
Proof.
  intros Hi Hp Ha. unfold user_of. rewrite (current_loaded _ _ Hp Ha). split; [|done].
  intros va. by apply (view_lookup L s (v_cur s)).
Qed.

Lemma user_mapped L s a va n :
  vm_inv L s → v_spaces s !! v_cur s = Some a → loaded a → (∀ c, va ≤ c < va + n → is_Some (translate a c)) →
  mapped (ue_mem (user_of s)) va n.
Proof.
  intros Hi Hp Ha Hc c Hb. destruct (user_of_view L s a Hi Hp Ha) as [Hv _]. rewrite Hv.
  by apply (user_byte_is_Some L s (v_cur s)), Hc.
Qed.

(** Bytes stored at an address of the running process. *)
Definition over (va : Z) (x : list Z) (old : Z → option Z) (c : Z) : option Z :=
  if decide (va ≤ c < va + Z.of_nat (length x)) then x !! Z.to_nat (c - va) else old c.

Lemma user_store L s a va x :
  vm_inv L s → v_spaces s !! v_cur s = Some a → loaded a →
  (∀ c, va ≤ c < va + Z.of_nat (length x) → is_Some (translate a c)) →
  let s' := put_user (Uenv (user_write va x (ue_mem (user_of s))).2 (ue_space (user_of s))) s in
  vm_inv L s' ∧ stored_as s a (over va x (user_byte s a)) s'.
Proof.
  intros Hi Hp Ha Hc. pose proof (user_mapped L s a va _ Hi Hp Ha Hc) as Hm.
  destruct (user_write_mapped _ _ _ Hm) as [_ Hw]. destruct (user_of_view L s a Hi Hp Ha) as [Hv _].
  destruct (put_user_run L s a (Uenv (user_write va x (ue_mem (user_of s))).2 (ue_space (user_of s))) Hi Hp Ha) as [Hi' [Hf Hs Ho]].
  { cbn. intros c. rewrite Hw. case_decide.
    - split; intros _; [by apply Hc|]. apply lookup_lt_is_Some. lia.
    - rewrite Hv. by apply (user_byte_is_Some L s (v_cur s)). }
  split; [done|]. split; [done| |done]. intros c. rewrite Hs. cbn. rewrite Hw. unfold over. case_decide; [done|apply Hv].
Qed.

(** Storing what was there changes nothing. *)
Lemma put_user_same L s :
  vm_inv L s → (∀ a, current s = Some a → loaded a) → put_user (user_of s) s = s.
Proof.
  intros Hi Hl. unfold put_user, user_of. destruct (current s) as [a|] eqn:Hc; [|done].
  pose proof (Hl a eq_refl) as Ha. assert (Hp : v_spaces s !! v_cur s = Some a).
  { unfold current in Hc. destruct (v_spaces s !! v_cur s) as [b|]; [|done]. cbn in Hc. by destruct (space_check b). }
  assert (E : stored (view s a) a ∪ v_mem s = v_mem s); [|cbn; rewrite E; by destruct s].
  apply map_eq. intros x. destruct (stored (view s a) a !! x) as [y|] eqn:E; [|by rewrite lookup_union_r].
  rewrite (lookup_union_Some_l _ _ _ _ E). symmetry.
  unfold stored in E. apply lookup_set_to_map in E as (va & [pa Hpa]%user_addrs_translate & [= <- <-]).
  - rewrite Hpa, (view_lookup L s (v_cur s)) by done. unfold user_byte. rewrite Hpa. cbn.
    destruct (user_byte_is_Some L s (v_cur s) a va Hi Hp Ha) as [_ Hs]. destruct Hs as [b Hb]; [eauto|].
    unfold user_byte in Hb. rewrite Hpa in Hb. cbn in Hb. by rewrite Hb.
  - intros z z'. by apply (stored_keys L s (v_cur s)).
Qed.
End View.

(** ** Strings and pointers on the user stack *)

Lemma user_write_cons a c l (m : mem) :
  is_Some (m !! a) → user_write a (c :: l) m = user_write (a + 1) l (user_write a [c] m).2.
Proof. intros [x Hx]. cbn. by rewrite Hx. Qed.

Lemma copystr_out src x dest ue (l : list Z) (i : nat) :
  src = x ++ 0 :: l → 0 ∉ x → (i ≤ length x)%nat →
  mapped (ue_mem ue) (dest + Z.of_nat i) (Z.of_nat (length x - i) + 1) →
  copystr_from (λ i _, match src !! Z.to_nat i with Some c => Done (Some c) | None => Fault end)
    (λ i c ue, Done (match user_write (dest + i) [c] (ue_mem ue) with
                     | (true, m) => Some (Uenv m (ue_space ue)) | (false, _) => None end))
    (length x - i + 1) (Z.of_nat i) ue =
  Done (Some (Some (Z.of_nat (length x) + 1)),
        Uenv (user_write (dest + Z.of_nat i) (drop i x ++ [0]) (ue_mem ue)).2 (ue_space ue)).
Proof.
  intros -> Hx. remember (length x - i)%nat as n eqn:En. revert i ue En.
  induction n as [|n IH]; intros i ue En Hi Hm; cbn [copystr_from Nat.add]; rewrite Nat2Z.id.
  - assert (i = length x) as -> by lia. rewrite lookup_app_r, Nat.sub_diag, drop_all by lia. cbn [lookup list_lookup mbind outcome_bind].
    destruct (Hm (dest + Z.of_nat (length x))) as [y Hy]; [lia|]. cbn. by rewrite Hy.
  - destruct (lookup_lt_is_Some_2 x i ltac:(lia)) as [c Hc]. rewrite (lookup_app_l_Some _ _ _ _ Hc). cbn [mbind outcome_bind].
    destruct (Hm (dest + Z.of_nat i)) as [y Hy]; [lia|].
    rewrite (drop_S _ _ _ Hc). cbn [app]. rewrite user_write_cons by eauto. cbn [user_write]. rewrite Hy. cbn [mbind outcome_bind fst snd].
    assert (c ≠ 0) as Hc0 by (intros ->; by eapply Hx, list_elem_of_lookup_2). rewrite (proj2 (Z.eqb_neq _ _) Hc0).
    replace (Z.of_nat i + 1) with (Z.of_nat (S i)) by lia. replace (n + 1)%nat with (S n) by lia.
    rewrite <- (Nat.add_1_r n), (IH (S i)); [|lia|lia|].
    + cbn [ue_mem ue_space]. by replace (dest + Z.of_nat i + 1) with (dest + Z.of_nat (S i)) by lia.
    + cbn [ue_mem]. intros b Hb. apply lookup_insert_is_Some'. right. apply Hm. lia.
Qed.

Lemma copyoutstr_ok src x dest ue :
  cstr src x → 0 ≤ dest → dest + Z.of_nat (length x) + 1 ≤ USERTOP →
  mapped (ue_mem ue) dest (Z.of_nat (length x) + 1) →
  copyoutstr src dest (Z.of_nat (length x) + 1) ue =
    Done (0, Some (Z.of_nat (length x) + 1), Uenv (user_write dest (x ++ [0]) (ue_mem ue)).2 (ue_space ue)).
Proof.
  intros (l & Hsrc & Hx) Hd Ht Hm. unfold copyoutstr. rewrite copycheck_ok by lia. cbn [negb Z.eqb]. unfold copystr.
  rewrite Z.min_id. replace (Z.to_nat (Z.of_nat (length x) + 1)) with (length x - 0 + 1)%nat by lia.
  pose proof (copystr_out src x dest ue l 0 Hsrc Hx) as Hrun. rewrite Z.add_0_r, Nat.sub_0_r in Hrun. rewrite Nat.sub_0_r.
  change (Z.of_nat 0) with 0 in Hrun. rewrite Hrun by (lia || done). cbn [mbind outcome_bind]. by rewrite drop_0.
Qed.

(** ** What the loader relies on

    Reading a file delivers its bytes from the offset of the uio on, as many
    as are asked for or there are. *)
Class ReadLaws (H F : Type) `{!Programs H F} := {
  file_data : F → Z → list Z → Prop;
  read_law f v d u ue : file_data f v d → uio_ok u ue → uio_rw u = UIO_READ → 0 ≤ uio_offset u →
    let x := slice d (Z.to_nat (uio_offset u)) (Z.to_nat (uio_resid u)) in
    ∃ f', VOP_READ v u ue f = Done (0, (deliver u ue x).1, (deliver u ue x).2, f') ∧ file_data f' v d;
}.

(** Closing the file may free memory. *)
Class ProgramLaws (H F : Type) `{RamHeapLaws H} `{!Programs H F} := {
  program_reads :: ReadLaws H F;
  close_law v h f d L : heap_owns h L → file_data f v d →
    ∃ h' f', prog_close v h f = Done (h', f') ∧ heap_owns h' L ∧ ram_above (heap_ram h) (heap_ram h');
}.

Section Load.
Context {H F : Type} `{RamHeapLaws H} `{!Programs H F} `{!ProgramLaws H F}.
Implicit Types (s : vm H) (a b : addrspace) (L : list Z) (d : list Z) (f : F).

(** The address space of the running process is complete or not used yet. *)
Definition ready s : Prop := ∀ a, current s = Some a → loaded a.

Lemma untouchable_kernel r u s buf pos : iov u = Kbase buf pos → untouchable r u s = false.
Proof. intros E. unfold untouchable. by rewrite E. Qed.

Lemma unready_loaded r va s a : v_spaces s !! v_cur s = Some a → loaded a → unready r va s = false.
Proof. intros Hp Ha. unfold unready. by rewrite Hp, (ld_check _ Ha). Qed.

Lemma untouchable_loaded r u s a : v_spaces s !! v_cur s = Some a → loaded a → untouchable r u s = false.
Proof. intros Hp Ha. unfold untouchable. destruct (iov u); [done|by eapply unready_loaded]. Qed.

Lemma read_struct_run L s f v d off n :
  vm_inv L s → ready s → file_data f v d → 0 ≤ off → 0 < n → off + n ≤ Z.of_nat (length d) → off + n < 2 ^ 31 →
  ∃ f', read_struct v off n (Machine s f) = Done (Ok (slice d (Z.to_nat off) (Z.to_nat n)), Machine s f') ∧ file_data f' v d.
Proof.
  intros Hi Hr Hd Ho Hn Hlen Hmax. unfold read_struct, vop_read.
  set (u := mk_kuio (replicate (Z.to_nat n) 0) n off UIO_READ).
  assert (Hx : length (slice d (Z.to_nat off) (Z.to_nat n)) = Z.to_nat n) by (rewrite slice_length; lia).
  destruct (read_law f v d u (user_of s)) as (f' & Hrun & Hd'); [done| |done|done|].
  { unfold u, mk_kuio, uio_ok. cbn. rewrite length_replicate, s32_id by lia. split_and!; done || lia. }
  exists f'. split; [|done]. cbn [mc_vm mc_files]. rewrite Hrun. unfold deliver. cbn [iov u mk_kuio fst snd].
  cbn [mbind outcome_bind]. erewrite untouchable_kernel by reflexivity. cbn -[slice splice u32].
  rewrite Hx, Z2Nat.id, Z.sub_diag by lia. cbn -[slice splice].
  rewrite splice_whole by (by rewrite length_replicate). by rewrite (put_user_same L s Hi Hr).
Qed.

(** ** One segment *)

Record segment_fits a d (ph : Elf_Phdr) : Prop := {
  sf_size : 0 ≤ p_filesz ph ≤ p_memsz ph;
  sf_addr : 0 ≤ p_vaddr ph ∧ p_vaddr ph + p_memsz ph ≤ USERTOP;
  sf_file : 0 ≤ p_offset ph ∧ p_offset ph + p_filesz ph ≤ Z.of_nat (length d) ∧ p_offset ph + p_filesz ph < 2 ^ 31;
  sf_space va : p_vaddr ph ≤ va < p_vaddr ph + p_memsz ph → is_Some (translate a va);
}.

(** The bytes of a segment: those of the file, then zeros. *)
Definition image d (ph : Elf_Phdr) : list Z :=
  slice d (Z.to_nat (p_offset ph)) (Z.to_nat (p_filesz ph)) ++ replicate (Z.to_nat (p_memsz ph - p_filesz ph)) 0.

Lemma stored_as_trans s a g s1 h s2 :
  stored_as s a g s1 → stored_as s1 a h s2 → stored_as s a h s2.
Proof.
  intros [[x ->] _ Ho] [[y ->] Hs Ho']. split; [by eexists|done|]. intros q b va Hq Hb Hne.
  rewrite (Ho' q b va Hq Hb Hne). by apply (Ho q).
Qed.

Lemma over_app va x y old c : over (va + Z.of_nat (length x)) y (over va x old) c = over va (x ++ y) old c.
Proof.
  unfold over. rewrite length_app. repeat case_decide; try lia; [|..|done].
  - rewrite lookup_app_r by lia. f_equal. lia.
  - rewrite lookup_app_l by lia. done.
Qed.

Lemma over_ext va x old old' c : (∀ c, old c = old' c) → over va x old c = over va x old' c.
Proof. intros E. unfold over. case_decide; [done|apply E]. Qed.

(** A transfer to user memory goes through. *)
Lemma user_uio_ok L s a u va :
  vm_inv L s → v_spaces s !! v_cur s = Some a → loaded a →
  iov u = Ubase va → uio_segflg u ≠ UIO_SYSSPACE → uio_space u = t_vmspace s → s32 (uio_offset u) = uio_offset u →
  0 ≤ uio_resid u ≤ iov_len u → 0 ≤ va → va + iov_len u ≤ USERTOP →
  (∀ c, va ≤ c < va + iov_len u → is_Some (translate a c)) → uio_ok u (user_of s).
Proof.
  intros Hi Hp Ha Hv Hseg Hsp Ho Hr Hva Ht Hc. assert (USERTOP = 2 ^ 31) as HT by done.
  destruct (user_of_view L s a Hi Hp Ha) as [_ Hsv]. unfold uio_ok. rewrite Hv, Hsv.
  assert (mapped (ue_mem (user_of s)) va (uio_resid u)) by (apply (user_mapped L s a); [done..|intros; apply Hc; lia]).
  split_and!; [lia|lia|lia|done|]. destruct (uio_segflg u); [|done|]; (split_and!; [done|lia|lia|done]).
Qed.

Lemma vop_read_user L s f v d a u va :
  vm_inv L s → v_spaces s !! v_cur s = Some a → loaded a → file_data f v d → uio_ok u (user_of s) →
  iov u = Ubase va → uio_rw u = UIO_READ → 0 ≤ uio_offset u → uio_offset u + uio_resid u ≤ Z.of_nat (length d) →
  (∀ c, va ≤ c < va + uio_resid u → is_Some (translate a c)) →
  ∃ s' f', vop_read v u (Machine s f) = Done (0, uio_step u (Ubase (va + uio_resid u)) (uio_resid u), Machine s' f') ∧
    vm_inv L s' ∧ file_data f' v d ∧
    stored_as s a (over va (slice d (Z.to_nat (uio_offset u)) (Z.to_nat (uio_resid u))) (user_byte s a)) s'.
Proof.
  intros Hi Hp Ha Hd Hok Hv Hrw Ho Hlen Hc. unfold vop_read. pose proof Hok as ([Hr _] & _).
  destruct (read_law f v d u (user_of s) Hd Hok Hrw Ho) as (f1 & Hrun & Hd1). set (x := slice d _ _) in *.
  assert (Hx : Z.of_nat (length x) = uio_resid u) by (unfold x; rewrite slice_length; lia).
  destruct (user_store L s a va x Hi Hp Ha) as [Hi1 Hst1]; [intros; apply Hc; lia|].
  cbn [mc_vm mc_files]. rewrite Hrun. unfold deliver. rewrite Hv. cbn [fst snd mbind outcome_bind].
  rewrite (untouchable_loaded _ _ _ _ Hp Ha), Hx. eexists _, f1. split; [done|]. by split_and!.
Qed.

Lemma zeros_run L s f a u va n :
  vm_inv L s → v_spaces s !! v_cur s = Some a → loaded a → uio_ok u (user_of s) →
  iov u = Ubase va → uio_rw u = UIO_READ → 0 ≤ n ≤ uio_resid u →
  (∀ c, va ≤ c < va + n → is_Some (translate a c)) →
  ∃ s', vm_uiomovezeros n u (Machine s f) = Done (0, Machine s' f) ∧ vm_inv L s' ∧
    stored_as s a (over va (replicate (Z.to_nat n) 0) (user_byte s a)) s'.
Proof.
  intros Hi Hp Ha Hok Hv Hrw Hn Hc. unfold vm_uiomovezeros. cbn [mc_vm].
  pose proof (uiomovezeros_deliver (Z.to_nat n) _ _ Hok Hrw ltac:(lia)) as Hz. rewrite Z2Nat.id in Hz by lia. rewrite Hz.
  destruct (user_store L s a va (replicate (Z.to_nat n) 0) Hi Hp Ha) as [Hi1 Hst1].
  { intros c Hb. rewrite length_replicate in Hb. apply Hc. lia. }
  unfold deliver. rewrite Hv. cbn [fst snd mbind outcome_bind]. rewrite (untouchable_loaded _ _ _ _ Hp Ha).
  eexists. split; [done|]. by split.
Qed.

Lemma load_segment_run L s f v d a ph :
  vm_inv L s → v_spaces s !! v_cur s = Some a → loaded a → file_data f v d → segment_fits a d ph →
  ∃ s' f', fill_segment v ph (Machine s f) = Done (0, Machine s' f') ∧ vm_inv L s' ∧ file_data f' v d ∧
    stored_as s a (over (p_vaddr ph) (image d ph) (user_byte s a)) s'.
Proof.
  intros Hi Hp Ha Hd [Hsz [Ha0 Ha1] (Ho0 & Ho1 & Ho2) Hsp]. unfold fill_segment, load_segment.
  assert (USERTOP = 2 ^ 31) as HT by done. replace (p_filesz ph >? p_memsz ph) with false by lia.
  set (seg := if negb (Z.land (p_flags ph) PF_X =? 0) then _ else _).
  assert (Hseg : seg ≠ UIO_SYSSPACE) by (unfold seg; by destruct (negb _)). set (u := Uio _ _ _ _ _ _ _).
  assert (Hof : uio_offset u = p_offset ph) by (cbn; rewrite s32_id; lia).
  destruct (vop_read_user L s f v d a u (p_vaddr ph)) as (s1 & f1 & -> & Hi1 & Hd1 & Hst1);
    [done|done|done|done| |done|done|rewrite Hof; lia|rewrite Hof; cbn; lia|cbn; intros; apply Hsp; lia|].
  { eapply (user_uio_ok L s a); [done|done|done|done|done|done|rewrite Hof, s32_id; lia|cbn; lia|done|done|done]. }
  rewrite Hof in Hst1. cbn [uio_resid u] in Hst1. set (x := slice d _ _) in *. unfold image. fold x.
  assert (Hx : Z.of_nat (length x) = p_filesz ph) by (unfold x; rewrite slice_length; lia).
  cbn [mbind outcome_bind]. change (uio_resid u) with (p_filesz ph). cbn [uio_step uio_resid].
  rewrite Z.sub_diag, (u32_id (p_memsz ph - p_filesz ph)) by lia. change (u32 0) with 0. cbn [negb Z.eqb].
  destruct (Z.gtb_spec (p_memsz ph - p_filesz ph) 0) as [Hgt|Hle]; cycle 1.
  { exists s1, f1. split; [done|]. split_and!; [done|done|]. replace (Z.to_nat (p_memsz ph - p_filesz ph)) with 0%nat by lia.
    by rewrite app_nil_r. }
  destruct (sa_frame _ _ _ _ Hst1) as [y Hy].
  destruct (zeros_run L s1 f1 a (Uio (Ubase (p_vaddr ph + p_filesz ph)) (p_memsz ph - p_filesz ph)
    (s32 (s32 (p_offset ph) + p_filesz ph)) (u32 (0 + (p_memsz ph - p_filesz ph))) seg UIO_READ (t_vmspace s))
    (p_vaddr ph + p_filesz ph) (p_memsz ph - p_filesz ph)) as (s2 & Hz & Hi2 & Hst2); try done.
  - by rewrite Hy.
  - eapply (user_uio_ok L s1 a); [done|by rewrite Hy|done|done|done|by rewrite Hy|apply s32_s32|cbn; rewrite u32_id; lia|lia|cbn; lia|].
    cbn. intros c Hc. apply Hsp. lia.
  - cbn. rewrite u32_id; lia.
  - intros c Hc. apply Hsp. lia.
  - exists s2, f1. split; [exact Hz|]. split_and!; [done|done|].
    destruct (stored_as_trans _ _ _ _ _ _ Hst1 Hst2) as [Hf Hs Ho]. split; [done| |done].
    intros c. rewrite Hs, <- Hx, (over_ext _ _ _ _ _ (sa_self _ _ _ _ Hst1)). apply over_app.
Qed.

(** ** The passes over the program headers *)

Definition phdrs d (eh : Elf_Ehdr) : list Elf_Phdr :=
  (λ i, phdr_of (slice d (Z.to_nat (e_phoff eh + Z.of_nat i * e_phentsize eh)) (Z.to_nat SIZEOF_PHDR))) <$>
    seq 0 (Z.to_nat (e_phnum eh)).

Record elf_file d (eh : Elf_Ehdr) : Prop := {
  ef_header : SIZEOF_EHDR ≤ Z.of_nat (length d) < 2 ^ 31 ∧ eh = ehdr_of (slice d 0 (Z.to_nat SIZEOF_EHDR));
  ef_ok : elf_ok eh = true;
  ef_table : 0 ≤ e_phoff eh ∧ 0 ≤ e_phentsize eh ∧
    ∀ i, 0 ≤ i < e_phnum eh → e_phoff eh + i * e_phentsize eh + SIZEOF_PHDR ≤ Z.of_nat (length d);
  ef_kinds ph : ph ∈ phdrs d eh → ∃ k, segment_kind ph = Ok k;
}.

Definition loads d eh : list Elf_Phdr := filter (λ ph, p_type ph = PT_LOAD) (phdrs d eh).

Lemma phdrs_lookup d eh i :
  0 ≤ i < e_phnum eh →
  phdrs d eh !! Z.to_nat i = Some (phdr_of (slice d (Z.to_nat (e_phoff eh + i * e_phentsize eh)) (Z.to_nat SIZEOF_PHDR))).
Proof.
  intros Hi. unfold phdrs. rewrite list_lookup_fmap, lookup_seq_lt by lia. cbn. by rewrite Z2Nat.id by lia.
Qed.

Lemma segment_kind_load ph k : segment_kind ph = Ok k → k = bool_decide (p_type ph = PT_LOAD).
Proof.
  unfold segment_kind, PT_NULL, PT_PHDR, PT_MIPS_REGINFO, PT_LOAD. intros E.
  destruct (Z.eqb_spec (p_type ph) 1) as [->|Hne]; [by injection E as <-|].
  rewrite bool_decide_eq_false_2 by done. destruct (_ || _); by simplify_eq.
Qed.

(** A pass over the segments still to come: each loadable one is handled in
    turn by [body], which keeps what [I] says. *)
Lemma each_segment_run L d eh v body (I : list Elf_Phdr → vm H → Prop) n i s f :
  elf_file d eh → file_data f v d →
  (∀ l s, I l s → vm_inv L s ∧ ready s) →
  (∀ ph l s f, I (ph :: l) s → file_data f v d →
     ∃ s' f', body ph (Machine s f) = Done (0, Machine s' f') ∧ file_data f' v d ∧ I l s') →
  0 ≤ i → i + Z.of_nat n = e_phnum eh →
  I (filter (λ ph, p_type ph = PT_LOAD) (drop (Z.to_nat i) (phdrs d eh))) s →
  ∃ s' f', each_segment n i v eh body (Machine s f) = Done (0, Machine s' f') ∧ file_data f' v d ∧ I [] s'.
Proof.
  intros He Hd Hinv Hbody. revert i s f Hd. induction n as [|n IH]; intros i s f Hd Hi Hn HI; cbn [each_segment].
  { rewrite drop_ge in HI; [by eexists _, _|]. unfold phdrs. rewrite length_fmap, length_seq. lia. }
  destruct (ef_header _ _ He) as [Hlen _]. destruct (ef_table _ _ He) as (Ho & Hes & Htab). specialize (Htab i ltac:(lia)).
  pose proof (phdrs_lookup d eh i ltac:(lia)) as Hph. set (ph := phdr_of _) in Hph.
  destruct (Hinv _ _ HI) as [Hvm Hr]. unfold SIZEOF_PHDR in *.
  assert (0 ≤ e_phoff eh + i * e_phentsize eh) by nia.
  destruct (read_struct_run L s f v d (phdr_offset eh i) 32 Hvm Hr Hd) as (f1 & Hrd & Hd1); unfold phdr_offset in *; try (rewrite s32_id; lia); [done|].
  rewrite Hrd. rewrite s32_id by lia. cbn [mbind outcome_bind]. change (phdr_of _) with ph.
  rewrite (drop_S _ _ _ Hph), filter_cons in HI. replace (S (Z.to_nat i)) with (Z.to_nat (i + 1)) in HI by lia.
  destruct (ef_kinds _ _ He ph) as [k Hb]; [by eapply list_elem_of_lookup_2|]. rewrite Hb.
  rewrite (segment_kind_load _ _ Hb) in *. case_decide as Ht; [rewrite bool_decide_eq_true_2 by done|rewrite bool_decide_eq_false_2 by done].
  - destruct (Hbody _ _ _ _ HI Hd1) as (s2 & f2 & -> & Hd2 & HI2). cbn [mbind outcome_bind Z.eqb negb]. apply IH; [done|lia|lia|done].
  - apply IH; [done|lia|lia|done].
Qed.

(** ** The whole file *)

Record good_segment d (ph : Elf_Phdr) : Prop := {
  gs_size : 0 < p_memsz ph ≤ 2 ^ 30 ∧ 0 ≤ p_filesz ph ≤ p_memsz ph;
  gs_addr : PAGE_SIZE ≤ p_vaddr ph ∧ p_vaddr ph + p_memsz ph ≤ USERTOP;
  gs_file : 0 ≤ p_offset ph ∧ p_offset ph + p_filesz ph ≤ Z.of_nat (length d);
}.

Definition seg_base (ph : Elf_Phdr) : Z := p_vaddr ph - p_vaddr ph mod PAGE_SIZE.
Definition seg_pages (ph : Elf_Phdr) : Z := (p_memsz ph + p_vaddr ph mod PAGE_SIZE + PAGE_SIZE - 1) / PAGE_SIZE.

Lemma seg_range d ph :
  good_segment d ph →
  seg_base ph mod PAGE_SIZE = 0 ∧ PAGE_SIZE ≤ seg_base ph ∧ 0 < seg_pages ph ∧
  seg_base ph ≤ p_vaddr ph ∧ p_vaddr ph + p_memsz ph ≤ seg_base ph + seg_pages ph * PAGE_SIZE < 2 ^ 31 + 2 ^ 12.
Proof.
  intros [[Hm Hf] [Ha Ht] _]. unfold seg_base, seg_pages, PAGE_SIZE in *. assert (USERTOP = 2 ^ 31) as HT by done. rewrite HT in Ht.
  Z.to_euclidean_division_equations. lia.
Qed.

Lemma define_exact d ph p s a :
  good_segment d ph → v_spaces s !! p = Some a →
  as_define_region p (p_vaddr ph) (p_memsz ph) s =
    if as_vbase1 a =? 0 then
      Done (0, put_space p (AddrSpace (seg_base ph) (as_pbase1 a) (seg_pages ph)
                              (as_vbase2 a) (as_pbase2 a) (as_npages2 a) (as_stackpbase a)) s)
    else if as_vbase2 a =? 0 then
      Done (0, put_space p (AddrSpace (as_vbase1 a) (as_pbase1 a) (as_npages1 a)
                              (seg_base ph) (as_pbase2 a) (seg_pages ph) (as_stackpbase a)) s)
    else Done (EUNIMP, s).
Proof.
  intros [[Hm Hf] [Ha Ht] _] Hp. assert (USERTOP = 2 ^ 31) as HT by done. rewrite HT in Ht.
  unfold as_define_region. rewrite (the_space_Some p a s Hp). cbn [mbind outcome_bind]. unfold seg_base, seg_pages.
  rewrite land_page_offset. pose proof (Z.mod_pos_bound (p_vaddr ph) PAGE_SIZE ltac:(done)) as Hmod. unfold PAGE_SIZE in *.
  rewrite (u32_id (p_memsz ph + _)), (u32_id (p_memsz ph + _ + _ - 1)), !land_page_frame by lia.
  unfold PAGE_SIZE. rewrite Z.div_mul by done.
  replace (p_vaddr ph / 4096 * 4096) with (p_vaddr ph - p_vaddr ph mod 4096); [done|].
  pose proof (Z.div_mod (p_vaddr ph) 4096 ltac:(done)). lia.
Qed.

(** A space with two segments and all its runs given can be run. *)
Lemma loaded_intro L s p d ph1 ph2 a :
  vm_inv L s → v_spaces s !! p = Some a → good_segment d ph1 → good_segment d ph2 →
  (∀ k, (k < 3)%nat → (run a k).1 ≠ 0) →
  as_vbase1 a = seg_base ph1 → as_npages1 a = seg_pages ph1 → as_vbase2 a = seg_base ph2 → as_npages2 a = seg_pages ph2 →
  loaded a.
Proof.
  intros Hi Hp G1 G2 Hz E1 E2 E3 E4.
  destruct (seg_range _ _ G1) as (Al1 & B1 & N1 & _ & T1), (seg_range _ _ G2) as (Al2 & B2 & N2 & _ & T2).
  assert (Hal : ∀ k, (k < 3)%nat → page_aligned (run a k).1 = true).
  { intros k Hk. destruct (vi_run _ _ Hi p a k Hp Hk (Hz k Hk)) as [? ? ? Htop]. apply aligned_mod; [|done].
    pose proof (vi_ram _ _ Hi) as [_ ? _]. unfold PAGE_SIZE in Htop. lia. }
  pose proof (Hal 0%nat ltac:(lia)). pose proof (Hal 1%nat ltac:(lia)). pose proof (Hal 2%nat ltac:(lia)).
  pose proof (Hz 0%nat ltac:(lia)). pose proof (Hz 1%nat ltac:(lia)). pose proof (Hz 2%nat ltac:(lia)). cbn [run fst] in *.
  unfold PAGE_SIZE in B1, B2, T1, T2. split; rewrite ?E1, ?E2, ?E3, ?E4; [|unfold PAGE_SIZE; lia..].
  unfold space_check. rewrite E1, E2, E3, E4. repeat (apply andb_true_iff; split); try done; try lia; apply aligned_mod; try done; lia.
Qed.

Definition fresh : addrspace := AddrSpace 0 0 0 0 0 0 0.
Definition one_segment (ph : Elf_Phdr) : addrspace := AddrSpace (seg_base ph) 0 (seg_pages ph) 0 0 0 0.
Definition two_segments (ph1 ph2 : Elf_Phdr) : addrspace :=
  AddrSpace (seg_base ph1) 0 (seg_pages ph1) (seg_base ph2) 0 (seg_pages ph2) 0.

Lemma not_ready_yet s a : v_spaces s !! v_cur s = Some a → as_pbase1 a = 0 → ready s.
Proof.
  intros Hp Hz b Hb. exfalso. unfold current in Hb. rewrite Hp in Hb. cbn in Hb. unfold space_check in Hb.
  rewrite Hz in Hb. cbn in Hb. by rewrite !andb_false_r in Hb.
Qed.

Lemma done_state {A} (x y : A) (t t' : vm H) : Done (x, t) = Done (y, t') → t = t'.
Proof. by intros [= _ ->]. Qed.

(** The first pass. *)
Lemma define_pass L s f v d eh ph1 ph2 :
  vm_inv L s → v_spaces s !! v_cur s = Some fresh → file_data f v d → elf_file d eh →
  loads d eh = [ph1; ph2] → good_segment d ph1 → good_segment d ph2 →
  ∃ f', each_segment (Z.to_nat (e_phnum eh)) 0 v eh define_segment (Machine s f) =
          Done (0, Machine (put_space (v_cur s) (two_segments ph1 ph2) s) f') ∧
    file_data f' v d ∧ vm_inv L (put_space (v_cur s) (two_segments ph1 ph2) s).
Proof.
  intros Hi Hp Hd He Hl G1 G2. set (p := v_cur s) in *.
  destruct (seg_range _ _ G1) as (_ & B1 & _). assert (Hb1 : seg_base ph1 ≠ 0) by (unfold PAGE_SIZE in B1; lia).
  set (I := λ (l : list Elf_Phdr) (t : vm H), ∃ a, t = put_space p a s ∧ vm_inv L t ∧
    (l = [ph1; ph2] ∧ a = fresh ∨ l = [ph2] ∧ a = one_segment ph1 ∨ l = [] ∧ a = two_segments ph1 ph2)).
  assert (Hput : put_space p fresh s = s) by (destruct s; unfold put_space, set_spaces; cbn in *; by rewrite insert_id).
  destruct (each_segment_run L d eh v define_segment I (Z.to_nat (e_phnum eh)) 0 s f He Hd) as (s' & f' & Hrun & Hd' & HI).
  - intros l t (a & -> & Ht & Hcase). split; [done|]. apply (not_ready_yet _ a); [apply lookup_insert_eq|].
    by destruct Hcase as [[_ ->]|[[_ ->]|[_ ->]]].
  - intros ph l t g (a & -> & Ht & Hcase) Hg. unfold define_segment, on_vm. cbn [mc_vm mc_files].
    change (v_cur (put_space p a s)) with p.
    assert (Ha : v_spaces (put_space p a s) !! p = Some a) by apply lookup_insert_eq.
    assert (good_segment d ph ∧ as_pbase1 a = 0 ∧ as_pbase2 a = 0) as (G & Z1 & Z2).
    { by destruct Hcase as [[[= -> _] ->]|[[[= -> _] ->]|[? _]]]. }
    destruct (define_run L _ p a (p_vaddr ph) (p_memsz ph) Ht Ha Z1 Z2) as (c & a' & Hr & Hi' & _).
    { destruct G as [[? _] [Hlo Hhi] _]. assert (USERTOP = 2 ^ 31) as HT by done. unfold PAGE_SIZE in Hlo. lia. }
    { destruct (gs_size _ _ G). lia. }
    rewrite (define_exact d ph p _ a G Ha) in Hr |- *.
    destruct Hcase as [([= -> ->] & ->)|[([= -> ->] & ->)|[? _]]]; [..|done]; cbn -[seg_base seg_pages put_space] in Hr |- *.
    + apply done_state in Hr. eexists _, g. split; [done|]. split; [done|]. exists (one_segment ph1). rewrite <- Hr in Hi'.
      split; [unfold put_space, set_spaces; cbn; by rewrite insert_insert_eq|]. split; [done|auto].
    + rewrite (proj2 (Z.eqb_neq _ _) Hb1) in Hr |- *. apply done_state in Hr. eexists _, g. split; [done|]. split; [done|].
      exists (two_segments ph1 ph2). rewrite <- Hr in Hi'.
      split; [unfold put_space, set_spaces; cbn; by rewrite insert_insert_eq|]. split; [done|auto].
  - done.
  - destruct (decide (0 ≤ e_phnum eh)); [lia|]. unfold loads, phdrs in Hl. by replace (Z.to_nat (e_phnum eh)) with 0%nat in Hl by lia.
  - exists fresh. split; [done|]. split; [done|]. left. split; [|done]. exact Hl.
  - destruct HI as (a & -> & Ht & [[? _]|[[? _]|[_ ->]]]); [done|done|]. by exists f'.
Qed.

Lemma segment_in_space d ph1 ph2 ph a :
  good_segment d ph1 → good_segment d ph2 → ph ∈ [ph1; ph2] → Z.of_nat (length d) < 2 ^ 31 →
  as_vbase1 a = seg_base ph1 → as_npages1 a = seg_pages ph1 → as_vbase2 a = seg_base ph2 → as_npages2 a = seg_pages ph2 →
  segment_fits a d ph.
Proof.
  intros G1 G2 Hin Hd E1 E2 E3 E4.
  assert (ph = ph1 ∨ ph = ph2) as Hor by set_solver. assert (G : good_segment d ph) by (by destruct Hor as [->| ->]).
  pose proof G as [[Hm Hf] [Hlo Hhi] [Ho0 Ho]]. destruct (seg_range _ _ G) as (_ & _ & _ & Hb & Ht).
  split; [done|unfold PAGE_SIZE in Hlo; lia|lia|].
  intros va Hva. apply user_addrs_translate. unfold user_addrs. rewrite elem_of_list_to_set, !elem_of_app, !elem_of_seqZ, E1, E2, E3, E4.
  destruct Hor as [->| ->]; [left|right; left]; lia.
Qed.

(** The second pass. *)
Lemma fill_pass L s f v d eh ph1 ph2 a :
  vm_inv L s → v_spaces s !! v_cur s = Some a → loaded a → file_data f v d → elf_file d eh →
  loads d eh = [ph1; ph2] → (∀ ph, ph ∈ [ph1; ph2] → segment_fits a d ph) →
  ∃ s' f', each_segment (Z.to_nat (e_phnum eh)) 0 v eh (fill_segment v) (Machine s f) = Done (0, Machine s' f') ∧
    vm_inv L s' ∧ file_data f' v d ∧
    stored_as s a (over (p_vaddr ph2) (image d ph2) (over (p_vaddr ph1) (image d ph1) (user_byte s a))) s'.
Proof.
  intros Hi Hp Ha Hd He Hl Hfit.
  set (I := λ (l : list Elf_Phdr) (t : vm H), vm_inv L t ∧ ∃ l0, l0 ++ l = [ph1; ph2] ∧
    stored_as s a (foldl (λ g ph, over (p_vaddr ph) (image d ph) g) (user_byte s a) l0) t).
  assert (Hcur : ∀ l t, I l t → v_spaces t !! v_cur t = Some a).
  { intros l t (_ & l0 & _ & [[x ->] _ _]). done. }
  destruct (each_segment_run L d eh v (fill_segment v) I (Z.to_nat (e_phnum eh)) 0 s f He Hd) as (s' & f' & Hrun & Hd' & HI).
  - intros l t HI. split; [apply HI|]. intros b Hb. unfold current in Hb. rewrite (Hcur l t HI) in Hb. cbn in Hb.
    rewrite (ld_check _ Ha) in Hb. by injection Hb as <-.
  - intros ph l t g HI Hg. pose proof (Hcur _ _ HI) as Ht. destruct HI as (Hit & l0 & El & Hst).
    destruct (load_segment_run L t g v d a ph Hit Ht Ha Hg) as (t' & g' & -> & Hi' & Hg' & Hst').
    { apply Hfit. rewrite <- El. set_solver. }
    exists t', g'. split; [done|]. split; [done|]. split; [done|]. exists (l0 ++ [ph]). rewrite <- (assoc_L (++)). split; [done|].
    destruct (stored_as_trans _ _ _ _ _ _ Hst Hst') as [Hf Hs Ho]. split; [done| |done].
    intros c. rewrite Hs, foldl_app. cbn. apply over_ext, Hst.
  - done.
  - destruct (decide (0 ≤ e_phnum eh)); [lia|]. unfold loads, phdrs in Hl. by replace (Z.to_nat (e_phnum eh)) with 0%nat in Hl by lia.
  - split; [done|]. exists []. split; [exact Hl|]. split; [exists (v_mem s); by destruct s|done|done].
  - destruct HI as (Hi' & l0 & El & Hst). rewrite app_nil_r in El. subst l0. by exists s', f'.
Qed.

(** What the program finds in memory: the bytes of the second segment, and
    those of the first where the second does not cover them. *)
Definition program_loaded s a d (ph1 ph2 : Elf_Phdr) : Prop :=
  (∀ i, 0 ≤ i < p_memsz ph2 → user_byte s a (p_vaddr ph2 + i) = image d ph2 !! Z.to_nat i) ∧
  (∀ i, 0 ≤ i < p_memsz ph1 → ¬ (p_vaddr ph2 ≤ p_vaddr ph1 + i < p_vaddr ph2 + p_memsz ph2) →
     user_byte s a (p_vaddr ph1 + i) = image d ph1 !! Z.to_nat i).

Lemma image_length a d ph : segment_fits a d ph → Z.of_nat (length (image d ph)) = p_memsz ph.
Proof. intros [Hs _ Hf _]. unfold image. rewrite length_app, length_replicate, slice_length; lia. Qed.

Lemma loaded_bytes s s' a d ph1 ph2 :
  segment_fits a d ph1 → segment_fits a d ph2 →
  stored_as s a (over (p_vaddr ph2) (image d ph2) (over (p_vaddr ph1) (image d ph1) (user_byte s a))) s' →
  program_loaded s' a d ph1 ph2.
Proof.
  intros F1 F2 Hst. pose proof (image_length _ _ _ F1) as L1. pose proof (image_length _ _ _ F2) as L2. split.
  - intros i Hi. rewrite (sa_self _ _ _ _ Hst). unfold over. rewrite decide_True by lia. f_equal. lia.
  - intros i Hi Hno. rewrite (sa_self _ _ _ _ Hst). unfold over. rewrite decide_False by lia. rewrite decide_True by lia. f_equal. lia.
Qed.

Lemma header_run L s f v d eh :
  vm_inv L s → ready s → file_data f v d → elf_file d eh →
  ∃ x f', read_struct v 0 SIZEOF_EHDR (Machine s f) = Done (Ok x, Machine s f') ∧ ehdr_of x = eh ∧ file_data f' v d.
Proof.
  intros Hi Hr Hd He. destruct (ef_header _ _ He) as [[Hlen Hmax] Heh]. unfold SIZEOF_EHDR in *.
  destruct (read_struct_run L s f v d 0 52 Hi Hr Hd) as (f1 & -> & Hd1); [lia..|]. by eexists _, f1.
Qed.

Lemma load_elf_run L s f v d eh ph1 ph2 :
  vm_inv L s → v_spaces s !! v_cur s = Some fresh → file_data f v d → elf_file d eh →
  loads d eh = [ph1; ph2] → good_segment d ph1 → good_segment d ph2 →
  ∃ r s' f', load_elf v (Machine s f) = Done (r, Machine s' f') ∧ vm_inv L s' ∧ v_cur s' = v_cur s ∧
    (∀ q b va, v_spaces s !! q = Some b → loaded b → v_spaces s' !! q = Some b ∧ user_byte s' b va = user_byte s b va) ∧
    file_data f' v d ∧
    (r = Err ENOMEM ∨
     r = Ok (e_entry eh) ∧ ∃ a, v_spaces s' !! v_cur s = Some a ∧ loaded a ∧ program_loaded s' a d ph1 ph2).
Proof.
  intros Hi Hp Hd He Hl G1 G2. destruct (ef_header _ _ He) as [[_ Hmax] _]. unfold load_elf.
  destruct (header_run L s f v d eh Hi (not_ready_yet _ _ Hp eq_refl) Hd He) as (b & f1 & -> & Hb & Hd1).
  cbn [mbind outcome_bind]. rewrite Hb, (ef_ok _ _ He). cbn [negb].
  destruct (define_pass L s f1 v d eh ph1 ph2) as (f2 & -> & Hd2 & Hi2); [done..|]. cbn [mbind outcome_bind negb Z.eqb].
  set (s1 := put_space _ _ s) in *. unfold on_vm at 1. cbn [mc_vm]. change (v_cur s1) with (v_cur s).
  assert (Hs1 : v_spaces s1 !! v_cur s = Some (two_segments ph1 ph2)) by apply lookup_insert_eq.
  destruct (prepare_run L s1 (v_cur s) _ Hi2 Hs1) as (c & h & pa1 & pa2 & pa3 & Hrun & Hi3 & _ & _ & Hc).
  { intros [|[|[|]]] ?; done || lia. }
  rewrite Hrun. set (a := AddrSpace _ pa1 _ _ pa2 _ pa3) in *. set (s3 := put_space _ a _) in *. cbn [mbind outcome_bind].
  assert (Hne : ∀ q b, v_spaces s !! q = Some b → loaded b → q ≠ v_cur s).
  { intros q b' Hq Hb' ->. rewrite Hp in Hq. injection Hq as <-. by apply ld_check in Hb'. }
  assert (Hsp : ∀ q, q ≠ v_cur s → v_spaces s3 !! q = v_spaces s !! q).
  { intros q Hq. unfold s3, s1, put_space, set_spaces. cbn. by rewrite !lookup_insert_ne by done. }
  assert (Hold : ∀ q b va, v_spaces s !! q = Some b → loaded b → v_spaces s3 !! q = Some b ∧ user_byte s3 b va = user_byte s b va).
  { intros q b' va Hq Hb'. split; [rewrite Hsp; [done|by eapply Hne]|done]. }
  destruct Hc as [->|[-> Hz]].
  { cbn [negb Z.eqb]. eexists _, s3, f2. split; [done|]. split_and!; [done|done|done|done|by left]. }
  cbn [negb Z.eqb]. assert (Hs3 : v_spaces s3 !! v_cur s3 = Some a) by apply lookup_insert_eq.
  assert (Ha : loaded a) by (apply (loaded_intro L s3 (v_cur s) d ph1 ph2); try done; intros k Hk; by apply Hz).
  assert (Hfit : ∀ ph, ph ∈ [ph1; ph2] → segment_fits a d ph) by (intros ph Hin; by apply (segment_in_space d ph1 ph2)).
  destruct (fill_pass L s3 f2 v d eh ph1 ph2 a) as (s4 & f4 & Hfill & Hi4 & Hd4 & Hst); [done..|].
  unfold set_vm. cbn [mc_files]. rewrite Hfill. cbn [mbind outcome_bind negb Z.eqb].
  destruct (sa_frame _ _ _ _ Hst) as [x Hx]. exists (Ok (e_entry eh)), s4, f4. split; [done|].
  split_and!; [done|by rewrite Hx| |done|right; split; [done|]].
  - intros q b' va Hq Hb'. destruct (Hold q b' va Hq Hb') as [Hq3 Hv]. split; [by rewrite Hx|].
    rewrite (sa_others _ _ _ _ Hst q b' va Hq3 Hb'); [done|]. by eapply Hne.
  - exists a. split_and!; [by rewrite Hx|done|]. eapply (loaded_bytes s3); [apply Hfit; set_solver..|done].
Qed.
(** ** The arguments of the program *)

Definition string_at (g : Z → option Z) (p : Z) (x : list Z) : Prop :=
  ∀ k, (k ≤ length x)%nat → g (p + Z.of_nat k) = (x ++ [0]) !! k.
Definition word_at (g : Z → option Z) (p w : Z) : Prop := ∀ k, (k < 4)%nat → g (p + Z.of_nat k) = be32 w !! k.

(** The room the strings take. *)
Definition room (xs : list (list Z)) : Z := foldr (λ x n, block_len (Z.of_nat (length x)) + n) 0 xs.

Lemma room_cons x xs : room (x :: xs) = block_len (Z.of_nat (length x)) + room xs.
Proof. done. Qed.

Lemma block_len_spec n : 0 ≤ n → block_len n mod 4 = 0 ∧ n + 1 ≤ block_len n ≤ n + 4.
Proof. intros Hn. unfold block_len. destruct (Z.eqb_spec ((n + 1) mod 4) 0); Z.to_euclidean_division_equations; lia. Qed.

Lemma room_nonneg xs : 0 ≤ room xs ∧ room xs mod 4 = 0.
Proof.
  induction xs as [|x xs IH]; [done|]. rewrite room_cons. destruct (block_len_spec (Z.of_nat (length x))) as [H4 Hb]; [lia|].
  Z.to_euclidean_division_equations. lia.
Qed.

Lemma stack_translate a c : stackbase ≤ c < USERSTACK → is_Some (translate a c).
Proof. intros Hc. unfold translate, locate. repeat case_decide; cbn; eauto; lia. Qed.

Lemma string_at_over va x old : string_at (over va (x ++ [0]) old) va x.
Proof. intros k Hk. unfold over. rewrite length_app. cbn. rewrite decide_True by lia. f_equal. lia. Qed.

Lemma string_at_ext g g' p x : (∀ c, p ≤ c ≤ p + Z.of_nat (length x) → g' c = g c) → string_at g p x → string_at g' p x.
Proof. intros E Hs k Hk. rewrite E by lia. by apply Hs. Qed.

Lemma copyoutstr_run L s f a arg x dest :
  vm_inv L s → v_spaces s !! v_cur s = Some a → loaded a → cstr arg x →
  stackbase ≤ dest → dest + Z.of_nat (length x) + 1 ≤ USERSTACK →
  ∃ s', vm_copyoutstr arg dest (Z.of_nat (length x) + 1) (Machine s f) = Done (0, Machine s' f) ∧ vm_inv L s' ∧
    stored_as s a (over dest (x ++ [0]) (user_byte s a)) s'.
Proof.
  intros Hi Hp Ha Hx Hlo Hhi. assert (USERTOP = USERSTACK) as HT by done. assert (0 ≤ stackbase) by done.
  unfold vm_copyoutstr. cbn [mc_vm]. rewrite (copyoutstr_ok _ _ _ _ Hx); [|lia|lia|].
  2:{ apply (user_mapped L s a); [done..|]. intros c Hc. apply stack_translate. lia. }
  cbn [mbind outcome_bind]. rewrite (unready_loaded _ _ _ _ Hp Ha).
  destruct (user_store L s a dest (x ++ [0]) Hi Hp Ha) as [Hi1 Hst1].
  { intros c. rewrite length_app. cbn. intros Hc. apply stack_translate. lia. }
  eexists. split; [done|]. by split.
Qed.

Lemma push_strings_run L f a rargs xs s sp ptrs :
  vm_inv L s → v_spaces s !! v_cur s = Some a → loaded a → Forall2 cstr rargs xs →
  sp mod 4 = 0 → stackbase ≤ sp - room xs → sp ≤ USERSTACK →
  ∃ s' ps g, push_strings rargs sp ptrs (Machine s f) = Done (0, sp - room xs, ps ++ ptrs, Machine s' f) ∧ vm_inv L s' ∧
    stored_as s a g s' ∧ (∀ c, c < sp - room xs ∨ sp ≤ c → g c = user_byte s a c) ∧ Forall2 (string_at g) ps (rev xs) ∧
    Forall (λ p, sp - room xs ≤ p < 2 ^ 31) ps.
Proof.
  intros Hi Hp Ha Hargs. revert s sp ptrs Hi Hp. induction Hargs as [|arg x rargs xs Hx Hargs IH]; intros s sp ptrs Hi Hp H4 Hlo Hhi.
  { exists s, [], (user_byte s a). change (room []) with 0. rewrite Z.sub_0_r. split; [done|]. split_and!; [done| |done|constructor..].
    split; [exists (v_mem s); by destruct s|done|done]. }
  rewrite room_cons in *. destruct (room_nonneg xs) as [Hr0 _]. assert (USERSTACK = 2 ^ 31 ∧ stackbase = 2 ^ 31 - 49152) as [HU HB] by done.
  destruct (block_len_spec (Z.of_nat (length x))) as [Hb4 Hb]; [lia|]. cbn [push_strings].
  rewrite (strlen_spec _ _ Hx). cbn [mbind outcome_bind]. set (bl := block_len _) in *. set (sp1 := sp - bl). rewrite (u32_id sp1) by (unfold sp1; lia).
  destruct (copyoutstr_run L s f a arg x sp1 Hi Hp Ha Hx) as (s1 & -> & Hi1 & Hst1); [unfold sp1; lia..|].
  destruct (sa_frame _ _ _ _ Hst1) as [y Hy]. cbn [mbind outcome_bind negb Z.eqb].
  destruct (IH s1 sp1 (sp1 :: ptrs)) as (s' & ps & g & Hrun & Hi' & Hst' & Hg & Hps & Hpr);
    [done|by rewrite Hy|unfold sp1; Z.to_euclidean_division_equations; lia|unfold sp1; lia..|].
  exists s', (ps ++ [sp1]), g. rewrite Hrun. split; [unfold sp1; by rewrite <- (assoc_L (++)), Z.sub_add_distr|].
  split_and!; [done|by eapply stored_as_trans| | |].
  - intros c Hc. rewrite Hg, (sa_self _ _ _ _ Hst1) by (unfold sp1; lia). unfold over. rewrite length_app. cbn.
    by rewrite decide_False by (unfold sp1; lia).
  - cbn [rev]. apply Forall2_app; [done|]. repeat constructor. eapply string_at_ext; [|apply string_at_over].
    intros c Hc. rewrite Hg by lia. apply (sa_self _ _ _ _ Hst1).
  - apply Forall_app. split; [|repeat constructor; unfold sp1; lia]. eapply Forall_impl; [|exact Hpr]. unfold sp1. cbn. intros. lia.
Qed.
Lemma word_at_over va w old : word_at (over va (be32 w) old) va w.
Proof. intros k Hk. unfold over. rewrite be32_length. rewrite decide_True by lia. f_equal. lia. Qed.

Lemma word_at_ext g g' p w : (∀ c, p ≤ c < p + 4 → g' c = g c) → word_at g p w → word_at g' p w.
Proof. intros E Hs k Hk. rewrite E by lia. by apply Hs. Qed.

Lemma copyout_run L s f a w dest :
  vm_inv L s → v_spaces s !! v_cur s = Some a → loaded a → stackbase ≤ dest → dest + 4 ≤ USERSTACK →
  ∃ s', vm_copyout (be32 w) dest 4 (Machine s f) = Done (0, Machine s' f) ∧ vm_inv L s' ∧
    stored_as s a (over dest (be32 w) (user_byte s a)) s'.
Proof.
  intros Hi Hp Ha Hlo Hhi. assert (USERTOP = USERSTACK) as HT by done. assert (0 ≤ stackbase) by done.
  assert (Hc : ∀ c, dest ≤ c < dest + Z.of_nat (length (be32 w)) → is_Some (translate a c)).
  { intros c. rewrite be32_length. intros Hc. apply stack_translate. lia. }
  unfold vm_copyout. cbn [mc_vm]. change 4 with (Z.of_nat (length (be32 w))).
  rewrite copyout_ok; [|lia|done|rewrite be32_length; lia|by apply (user_mapped L s a)].
  cbn [mbind outcome_bind]. rewrite (unready_loaded _ _ _ _ Hp Ha).
  destruct (user_store L s a dest (be32 w) Hi Hp Ha Hc) as [Hi1 Hst1]. eexists. split; [done|]. by split.
Qed.

Lemma push_pointers_run L f a strict rps s sp :
  vm_inv L s → v_spaces s !! v_cur s = Some a → loaded a →
  stackbase ≤ sp - 4 * Z.of_nat (length rps) → sp ≤ USERSTACK →
  ∃ s' g, let sp' := sp - 4 * Z.of_nat (length rps) in
    push_pointers strict rps sp (Machine s f) = Done (0, sp', Machine s' f) ∧ vm_inv L s' ∧
    stored_as s a g s' ∧ (∀ c, c < sp' ∨ sp ≤ c → g c = user_byte s a c) ∧
    ∀ i p, rev rps !! i = Some p → word_at g (sp' + 4 * Z.of_nat i) p.
Proof.
  intros Hi Hp Ha. revert s sp Hi Hp. induction rps as [|p rps IH]; intros s sp Hi Hp Hlo Hhi.
  { exists s, (user_byte s a). cbn. rewrite Z.sub_0_r. split; [done|]. split_and!; [done| |done|done].
    split; [exists (v_mem s); by destruct s|done|done]. }
  cbn [length] in Hlo. assert (USERSTACK = 2 ^ 31 ∧ stackbase = 2 ^ 31 - 49152) as [HU HB] by done. cbn [push_pointers].
  rewrite (u32_id (sp - 4)) by lia. destruct (copyout_run L s f a p (sp - 4) Hi Hp Ha) as (s1 & -> & Hi1 & Hst1); [lia..|].
  destruct (sa_frame _ _ _ _ Hst1) as [y Hy]. cbn [mbind outcome_bind]. rewrite andb_false_r.
  destruct (IH s1 (sp - 4)) as (s' & g & Hrun & Hi' & Hst' & Hg & Hw); [done|by rewrite Hy|lia..|].
  exists s', g. cbn [length]. replace (sp - 4 * Z.of_nat (S (length rps))) with (sp - 4 - 4 * Z.of_nat (length rps)) by lia.
  split; [exact Hrun|]. split_and!; [done|by eapply stored_as_trans| |].
  - intros c Hc. rewrite Hg, (sa_self _ _ _ _ Hst1) by lia. unfold over. rewrite be32_length. by rewrite decide_False by lia.
  - intros i q Hi0. cbn [rev] in Hi0. apply lookup_app_Some in Hi0 as [Hi0|[Hge Hi0]]; [by apply Hw|].
    rewrite length_rev in *. destruct (i - length rps)%nat as [|k] eqn:Ek; [|done]. injection Hi0 as <-. assert (i = length rps) as -> by lia.
    replace (sp - 4 - 4 * Z.of_nat (length rps) + 4 * Z.of_nat (length rps)) with (sp - 4) by lia.
    eapply word_at_ext; [|apply word_at_over]. intros c Hc. rewrite Hg by lia. apply (sa_self _ _ _ _ Hst1).
Qed.

(** The stack of a program about to start: the table of arguments at the
    stack pointer, each entry pointing to its string. *)
Definition args_at (g : Z → option Z) (sp : Z) (xs : list (list Z)) : Prop :=
  ∃ ps, length ps = length xs ∧ ∀ i p x, ps !! i = Some p → xs !! i = Some x →
    word_at g (sp + 4 * Z.of_nat i) p ∧ string_at g p x.

Lemma Forall2_rev {A B} (R : A → B → Prop) l k : Forall2 R l k → Forall2 R (rev l) (rev k).
Proof. induction 1; cbn; [done|]. apply Forall2_app; auto. Qed.

Lemma push_args_run L s f a strict args xs :
  vm_inv L s → v_spaces s !! v_cur s = Some a → loaded a → Forall2 cstr args xs →
  room xs + 4 * Z.of_nat (length xs) ≤ DUMBVM_STACKPAGES * PAGE_SIZE →
  ∃ s1 s' ps, let sp := USERSTACK - room xs - 4 * Z.of_nat (length xs) in
    push_strings (rev args) USERSTACK [] (Machine s f) = Done (0, USERSTACK - room xs, ps, Machine s1 f) ∧
    push_pointers strict (rev ps) (USERSTACK - room xs) (Machine s1 f) = Done (0, sp, Machine s' f) ∧
    vm_inv L s' ∧ ∃ g, stored_as s a g s' ∧ (∀ c, c < sp → g c = user_byte s a c) ∧ args_at g sp xs.
Proof.
  intros Hi Hp Ha Hargs Hroom. assert (Hrev : room (rev xs) = room xs).
  { clear. induction xs as [|x xs IH]; [done|]. cbn [rev]. rewrite room_cons, <- IH. clear IH. induction (rev xs) as [|y l IH]; cbn [app].
    - rewrite !room_cons. change (room []) with 0. lia.
    - rewrite !room_cons, IH. lia. }
  assert (USERSTACK = 2 ^ 31 ∧ stackbase = 2 ^ 31 - 49152) as [HU HB] by done. unfold DUMBVM_STACKPAGES, PAGE_SIZE in Hroom.
  destruct (room_nonneg xs) as [Hr0 Hr4].
  destruct (push_strings_run L f a (rev args) (rev xs) s USERSTACK []) as (s1 & ps & g1 & Hrun1 & Hi1 & Hst1 & Hg1 & Hps & Hpr);
    [done|done|done|by apply Forall2_rev|done|rewrite Hrev; lia|done|].
  rewrite Hrev, rev_involutive, app_nil_r in *. destruct (sa_frame _ _ _ _ Hst1) as [y Hy]. pose proof (Forall2_length Hps) as Hlen.
  destruct (push_pointers_run L f a strict (rev ps) s1 (USERSTACK - room xs)) as (s2 & g2 & Hrun2 & Hi2 & Hst2 & Hg2 & Hw);
    [done|by rewrite Hy|done|rewrite length_rev; lia|lia|].
  rewrite length_rev, rev_involutive, Hlen in *. exists s1, s2, ps. split_and!; [done|done|done|]. exists g2.
  split_and!; [by eapply stored_as_trans| |].
  - intros c Hc. rewrite Hg2, (sa_self _ _ _ _ Hst1), Hg1 by lia. done.
  - exists ps. split; [done|]. intros i p x Hpi Hxi. split; [by apply Hw|].
    pose proof (Forall2_lookup_lr _ _ _ _ _ _ Hps Hpi Hxi) as Hs. pose proof (Forall_lookup_1 _ _ _ _ Hpr Hpi) as Hb. cbn in Hb.
    eapply string_at_ext; [|exact Hs]. intros c Hc. rewrite Hg2 by lia. apply (sa_self _ _ _ _ Hst1).
Qed.
(** ** From the file to the first instruction *)

Lemma vm_inv_heap L s h :
  vm_inv L s → heap_owns h ((map_to_list (v_spaces s)).*1 ++ L) → ram_above (heap_ram (v_heap s)) (heap_ram h) →
  vm_inv L (set_heap h s).
Proof.
  intros Hi Hh Hr. apply (inv_change L L s _ 0 0 Hi); [done|done| |intros q b j Hq _ _; right; by exists b|apply (vi_small _ _ Hi)].
  cbn. destruct Hr as (_ & _ & ->). apply (vi_mem _ _ Hi).
Qed.

(** The state of a program about to start. *)
Record started L s s' (tf : trapframe) d eh (ph1 ph2 : Elf_Phdr) (xs : list (list Z)) : Prop := {
  sd_inv : vm_inv L s';
  sd_space : ∃ p a, v_cur s' = p ∧ v_spaces s !! p = None ∧ v_spaces s' !! p = Some a ∧ loaded a ∧
    program_loaded s' a d ph1 ph2 ∧ args_at (user_byte s' a) (tf_sp tf) xs;
  sd_frame : tf = usermode_frame (Z.of_nat (length xs)) (tf_sp tf) (tf_sp tf) (e_entry eh);
  sd_stack : tf_sp tf = USERSTACK - room xs - 4 * Z.of_nat (length xs) ∧ v_spl s' = 0;
  sd_others q b va : v_spaces s !! q = Some b → loaded b → v_spaces s' !! q = Some b ∧ user_byte s' b va = user_byte s b va;
}.


(** The stack is filled and the processor loaded. *)
Lemma enter_run L s f a strict args xs d ph1 ph2 :
  vm_inv L s → v_spaces s !! v_cur s = Some a → loaded a → program_loaded s a d ph1 ph2 →
  p_vaddr ph1 + p_memsz ph1 ≤ stackbase → p_vaddr ph2 + p_memsz ph2 ≤ stackbase → Forall2 cstr args xs →
  room xs + 4 * Z.of_nat (length xs) ≤ DUMBVM_STACKPAGES * PAGE_SIZE →
  ∃ s1 s2 ps, let sp := USERSTACK - room xs - 4 * Z.of_nat (length xs) in
    push_strings (rev args) USERSTACK [] (Machine s f) = Done (0, USERSTACK - room xs, ps, Machine s1 f) ∧
    push_pointers strict (rev ps) (USERSTACK - room xs) (Machine s1 f) = Done (0, sp, Machine s2 f) ∧ vm_inv L s2 ∧
    stored_as s a (user_byte s2 a) s2 ∧ program_loaded s2 a d ph1 ph2 ∧ args_at (user_byte s2 a) sp xs.
Proof.
  intros Hi Hp Ha [Hl2 Hl1] Ht1 Ht2 Hargs Hroom. assert (USERSTACK = 2 ^ 31 ∧ stackbase = 2 ^ 31 - 49152) as [HU HB] by done.
  destruct (push_args_run L s f a strict args xs Hi Hp Ha Hargs Hroom) as (s1 & s2 & ps & Hrun1 & Hrun2 & Hi2 & g & Hst & Hlow & Hat).
  unfold DUMBVM_STACKPAGES, PAGE_SIZE in Hroom. exists s1, s2, ps. split_and!; [done..| | |].
  - destruct Hst as [Hf Hs Ho]. by split.
  - split; intros; rewrite (sa_self _ _ _ _ Hst), Hlow by lia; auto.
  - destruct Hat as (qs & Hlen & Hat). exists qs. split; [done|]. intros i p x Hpi Hxi. destruct (Hat i p x Hpi Hxi).
    split; [eapply word_at_ext; [|done]|eapply string_at_ext; [|done]]; intros c _; apply (sa_self _ _ _ _ Hst).
Qed.

Lemma start_program_run L s f v d eh ph1 ph2 strict args xs :
  vm_inv L s → file_data f v d → elf_file d eh → loads d eh = [ph1; ph2] → good_segment d ph1 → good_segment d ph2 →
  p_vaddr ph1 + p_memsz ph1 ≤ stackbase → p_vaddr ph2 + p_memsz ph2 ≤ stackbase → Forall2 cstr args xs →
  room xs + 4 * Z.of_nat (length xs) ≤ DUMBVM_STACKPAGES * PAGE_SIZE →
  ∃ r s' f', start_program strict v args (Machine s f) = Done (r, Machine s' f') ∧
    (r = Err ENOMEM ∨ ∃ tf, r = Ok tf ∧ started L s s' tf d eh ph1 ph2 xs).
Proof.
  intros Hi Hd He Hl G1 G2 Ht1 Ht2 Hargs Hroom. unfold start_program. cbn [mc_vm mc_files].
  destruct (create_run L s Hi) as ([p|] & h & Hab & Hc).
  2:{ destruct Hc as [-> Hi1]. cbn [mbind outcome_bind].
      destruct (close_law v (v_heap (set_cur 0 (set_heap h s))) f d _ (vi_heap _ _ Hi1) Hd) as (h' & f' & -> & _).
      eexists _, _, f'. split; [done|by left]. }
  destruct Hc as (Hnew & Hp0 & -> & Hi1). cbn [mbind outcome_bind]. set (s1 := as_activate _).
  assert (Hi1' : vm_inv L s1) by (by eapply inv_same; [exact Hi1|..]).
  destruct (load_elf_run L s1 f v d eh ph1 ph2) as (r & s2 & f2 & Hrun & Hi2 & Hcur & Hoth & Hd2 & Hr);
    [done|apply lookup_insert_eq|done..|].
  unfold set_vm. cbn [mc_files]. rewrite Hrun. cbn [mbind outcome_bind mc_vm mc_files].
  destruct (close_law v (v_heap s2) f2 d _ (vi_heap _ _ Hi2) Hd2) as (h3 & f3 & -> & Hown3 & Hab3). cbn [mbind outcome_bind].
  set (s3 := set_heap h3 s2). assert (Hi3 : vm_inv L s3) by by apply vm_inv_heap.
  destruct Hr as [->|(-> & a & Ha & Hla & Hpl)]; [eexists _, s3, f3; split; [done|by left]|].
  change (v_cur s1) with p in *. unfold as_define_stack. rewrite (the_space_Some p a s3 Ha). cbn [mbind outcome_bind].
  pose proof (loaded_bases a 2 Hla ltac:(lia)) as Hsb. cbn [run fst] in Hsb. rewrite (proj2 (Z.eqb_neq _ _) Hsb). cbn [negb kassert mbind outcome_bind].
  destruct (enter_run L s3 f3 a strict args xs d ph1 ph2) as (s4 & s5 & ps & -> & Hpp & Hi5 & Hst & Hpl5 & Hat5);
    [done|change (v_spaces s2 !! v_cur s2 = Some a); by rewrite Hcur|done..|].
  cbn [mbind outcome_bind negb Z.eqb]. rewrite Hpp. cbn [mbind outcome_bind negb Z.eqb]. destruct (sa_frame _ _ _ _ Hst) as [y Hy].
  eexists _, _, f3. split; [done|]. right. eexists. split; [done|]. split; cbn.
  - by eapply inv_same; [exact Hi5|..].
  - exists p, a. split_and!; [by rewrite Hy|done|by rewrite Hy|done|done|done].
  - by rewrite (Forall2_length Hargs).
  - done.
  - intros q b va Hq Hb. destruct (decide (q = p)) as [->|Hne]; [congruence|].
    destruct (Hoth q b va) as [Hq2 Hv2]; [cbn; by rewrite lookup_insert_ne|done|]. split; [by rewrite Hy|].
    etransitivity; [apply (sa_others _ _ _ _ Hst q b va Hq2 Hb)|exact Hv2]. cbn. by rewrite Hcur.
Qed.
(** ** sys_execv *)

(** Whatever is read through a pointer, memory ends before the fuel does. *)
Lemma memory_bound s va q n :
  q ≠ 0 →
  (∀ k, 0 ≤ k < Z.of_nat n → is_Some (ue_mem (user_of s) !! (va + q * k)) ∨ is_Some (v_mem s !! (va + q * k))) →
  (n < memory_size s)%nat.
Proof.
  intros Hd Hall. unfold memory_size. rewrite <- !size_dom.
  assert (Hsub : (list_to_set ((λ k, va + q * k) <$> seqZ 0 (Z.of_nat n)) : gset Z) ⊆ dom (ue_mem (user_of s)) ∪ dom (v_mem s)).
  { intros c. rewrite elem_of_list_to_set, list_elem_of_fmap, elem_of_union, !elem_of_dom. intros (k & -> & Hk%elem_of_seqZ).
    apply Hall. lia. }
  apply subseteq_size in Hsub. rewrite size_list_to_set in Hsub.
  2:{ apply NoDup_fmap_2; [intros x y; nia|apply NoDup_seqZ]. }
  rewrite length_fmap, length_seqZ, Nat2Z.id in Hsub.
  pose proof (size_union_alt (dom (ue_mem (user_of s))) (dom (v_mem s))).
  pose proof (subseteq_size (dom (v_mem s) ∖ dom (ue_mem (user_of s))) (dom (v_mem s)) ltac:(set_solver)). lia.
Qed.

Lemma kernel_byte_some s va c : kernel_byte s va = Done c → is_Some (ue_mem (user_of s) !! va) ∨ is_Some (v_mem s !! va).
Proof. unfold kernel_byte. destruct (va <? USERTOP); destruct (_ !! va) eqn:E; try done; eauto. Qed.

Lemma kernel_byte_cases s va : kernel_byte s va = Panic ∨ ∃ c, kernel_byte s va = Done c.
Proof. unfold kernel_byte. destruct (va <? USERTOP); destruct (_ !! va); eauto. Qed.

Lemma kernel_word_cases s va : kernel_word s va = Panic ∨ ∃ w, kernel_word s va = Done w.
Proof.
  unfold kernel_word. destruct (negb _); [by left|].
  destruct (kernel_byte_cases s va) as [->|[c0 ->]]; [by left|]. destruct (kernel_byte_cases s (va + 1)) as [->|[c1 ->]]; [by left|].
  destruct (kernel_byte_cases s (va + 2)) as [->|[c2 ->]]; [by left|]. destruct (kernel_byte_cases s (va + 3)) as [->|[c3 ->]]; [by left|].
  right. by eexists.
Qed.

Lemma strlen_at_fuel n s va :
  strlen_at n s va = Diverge →
  ∀ k, 0 ≤ k < Z.of_nat n → is_Some (ue_mem (user_of s) !! (va + k)) ∨ is_Some (v_mem s !! (va + k)).
Proof.
  revert va. induction n as [|n IH]; intros va Hd k Hk; [lia|]. cbn [strlen_at] in Hd.
  destruct (kernel_byte_cases s va) as [Eb|[b Eb]]; rewrite Eb in Hd; [done|].
  cbn [mbind outcome_bind] in Hd. destruct (b =? 0); [done|].
  destruct (strlen_at n s (va + 1)) eqn:El; try done. destruct (decide (k = 0)) as [->|].
  - rewrite Z.add_0_r. by eapply kernel_byte_some.
  - replace (va + k) with (va + 1 + (k - 1)) by lia. apply IH; [done|lia].
Qed.

Lemma strlen_at_ends s va : strlen_at (memory_size s) s va ≠ Diverge.
Proof.
  intros Hd. pose proof (strlen_at_fuel _ _ _ Hd) as Hk. assert (memory_size s < memory_size s)%nat; [|lia].
  apply (memory_bound s va 1); [done|]. intros k. rewrite Z.mul_1_l. apply Hk.
Qed.

Lemma arg_pointers_fuel n s va :
  arg_pointers n s va = Diverge →
  ∀ k, 0 ≤ k < Z.of_nat n → is_Some (ue_mem (user_of s) !! (va + 4 * k)) ∨ is_Some (v_mem s !! (va + 4 * k)).
Proof.
  revert va. induction n as [|n IH]; intros va Hd k Hk; [lia|]. cbn [arg_pointers] in Hd.
  destruct (kernel_word_cases s va) as [Ew|[w Ew]]; rewrite Ew in Hd; [done|].
  assert (Hb : is_Some (ue_mem (user_of s) !! va) ∨ is_Some (v_mem s !! va)).
  { unfold kernel_word in Ew. destruct (negb _); [done|]. destruct (kernel_byte_cases s va) as [Eb|[c Eb]]; [by rewrite Eb in Ew|by eapply kernel_byte_some]. }
  cbn [mbind outcome_bind] in Hd. destruct (w =? 0); [done|].
  destruct (arg_pointers n s (va + 4)) eqn:El; try done. destruct (decide (k = 0)) as [->|].
  - by rewrite Z.mul_0_r, Z.add_0_r.
  - replace (va + 4 * k) with (va + 4 + 4 * (k - 1)) by lia. apply IH; [done|lia].
Qed.

Lemma arg_pointers_ends s va : arg_pointers (memory_size s) s va ≠ Diverge.
Proof.
  intros Hd. pose proof (arg_pointers_fuel _ _ _ Hd) as Hk. assert (memory_size s < memory_size s)%nat; [|lia].
  by apply (memory_bound s va 4).
Qed.
End Load.
