(* ===== verification/ExecTheorems.v ===== *)
(** * Starting and replacing a program

    What runprogram and execv promise: the program is in memory as its file
    says, its arguments are on its stack, the processor enters it in user
    mode, and no other process has changed. *)

From S2P Require Import Prelude Ram Bytes Mem CString Uio Vm VmSpec Exec ExecSpec.

(** ** Strings in user memory *)

Lemma copystr_in (m : mem) src x (i : nat) :
  0 ∉ x → (∀ k, (k ≤ length x)%nat → m !! (src + Z.of_nat k) = (x ++ [0]) !! k) → (i ≤ length x)%nat →
  copystr_from (λ i _, Done (m !! (src + i))) (λ i c dest, d ← patch dest i [c]; Done (Some d))
    (length x - i + 1) (Z.of_nat i) (take i x ++ replicate (length x - i + 1) 0) =
  Done (Some (Some (Z.of_nat (length x) + 1)), x ++ [0]).
Proof.
  intros Hx Hm. remember (length x - i)%nat as n eqn:En. revert i En.
  induction n as [|n IH]; intros i En Hi; cbn [copystr_from Nat.add]; rewrite Hm by done; cbn [mbind outcome_bind].
  - assert (i = length x) as -> by lia. rewrite lookup_app_r, Nat.sub_diag by lia. cbn [lookup list_lookup].
    rewrite firstn_all. cbn [replicate]. rewrite patch_run by (rewrite ?length_app; cbn; lia). cbn [mbind outcome_bind Z.eqb].
    rewrite Nat2Z.id. unfold splice. rewrite take_app_length, drop_ge by (rewrite length_app; cbn; lia). by rewrite app_nil_r.
  - destruct (lookup_lt_is_Some_2 x i ltac:(lia)) as [c Hc]. rewrite (lookup_app_l_Some _ _ _ _ Hc).
    assert (c ≠ 0) as Hc0 by (intros ->; by eapply Hx, list_elem_of_lookup_2).
    rewrite patch_run by (rewrite ?length_app, ?length_take, ?length_replicate; cbn; lia). cbn [mbind outcome_bind].
    rewrite (proj2 (Z.eqb_neq _ _) Hc0). replace (Z.of_nat i + 1) with (Z.of_nat (S i)) by lia. rewrite <- (IH (S i)) by lia.
    f_equal. unfold splice. rewrite Nat2Z.id, (take_S_r _ _ _ Hc), take_app_le, take_take, Nat.min_id by (rewrite length_take; lia).
    rewrite drop_app_ge by (rewrite length_take; cbn; lia). rewrite length_take, drop_replicate, <- (assoc_L (++)).
    do 3 f_equal. cbn. lia.
Qed.

Lemma copyinstr_ok src x ue :
  0 ∉ x → (∀ k, (k ≤ length x)%nat → ue_mem ue !! (src + Z.of_nat k) = (x ++ [0]) !! k) →
  0 ≤ src → src + Z.of_nat (length x) < USERTOP →
  copyinstr src (replicate (Z.to_nat (Z.of_nat (length x) + 1)) 0) (Z.of_nat (length x) + 1) ue =
    Done (0, Some (Z.of_nat (length x) + 1), x ++ [0]).
Proof.
  intros Hx Hm Hs Ht. unfold copyinstr. rewrite copycheck_ok by lia. cbn [negb Z.eqb]. unfold copystr. rewrite Z.min_id.
  replace (Z.to_nat (Z.of_nat (length x) + 1)) with (length x - 0 + 1)%nat by lia.
  pose proof (copystr_in (ue_mem ue) src x 0 Hx Hm ltac:(lia)) as Hrun. rewrite take_0, app_nil_l in Hrun. change (Z.of_nat 0) with 0 in Hrun.
  rewrite Hrun. done.
Qed.

Section Execv.
Context {H F : Type} `{RamHeapLaws H} `{!Programs H F} `{!ProgramLaws H F}.
Implicit Types (s : vm H) (a b : addrspace) (L : list Z) (d : list Z) (f : F).

(** A string and the table of arguments as the caller of execv passes them. *)
Record user_string s a (p : Z) (x : list Z) : Prop := {
  us_addr : 0 < p ∧ p + Z.of_nat (length x) < USERTOP ∧ bad_pointer p = false;
  us_bytes : string_at (user_byte s a) p x;
  us_end : 0 ∉ x;
}.

Record arg_table s a (args : Z) (ps : list Z) : Prop := {
  at_addr : 0 < args ∧ args + 4 * (Z.of_nat (length ps) + 1) ≤ USERTOP ∧ bad_pointer args = false;
  at_aligned : args mod 4 = 0;
  at_words i p : (ps ++ [0]) !! i = Some p → word_at (user_byte s a) (args + 4 * Z.of_nat i) p;
  at_pointers : Forall (λ p, 0 < p < 2 ^ 32) ps;
}.

Lemma kernel_byte_user L s a va c :
  vm_inv L s → v_spaces s !! v_cur s = Some a → loaded a → va < USERTOP → user_byte s a va = Some c →
  kernel_byte s va = Done c.
Proof.
  intros Hi Hp Ha Hva Hc. unfold kernel_byte. rewrite (proj2 (Z.ltb_lt _ _) Hva).
  destruct (user_of_view L s a Hi Hp Ha) as [-> _]. by rewrite Hc.
Qed.

Lemma strlen_at_run L s a : ∀ x n p,
  vm_inv L s → v_spaces s !! v_cur s = Some a → loaded a → string_at (user_byte s a) p x → 0 ∉ x →
  p + Z.of_nat (length x) < USERTOP → strlen_at n s p = Diverge ∨ strlen_at n s p = Done (Z.of_nat (length x)).
Proof.
  induction x as [|c x IH]; intros [|n] p Hi Hp Ha Hx Hz Ht; [by left| |by left|]; cbn [strlen_at].
  all: pose proof (Hx 0%nat ltac:(lia)) as Hc; rewrite Z.add_0_r in Hc; cbn in Hc.
  all: rewrite (kernel_byte_user L s a p _ Hi Hp Ha ltac:(lia) Hc); cbn [mbind outcome_bind].
  - by right.
  - cbn [length] in *. rewrite (proj2 (Z.eqb_neq c 0)) by (intros ->; apply Hz; left).
    destruct (IH n (p + 1)) as [->| ->]; [done..| | |lia|by left|right].
    + intros k Hk. replace (p + 1 + Z.of_nat k) with (p + Z.of_nat (S k)) by lia. rewrite Hx by (cbn; lia). done.
    + intros ?. apply Hz. by right.
    + cbn. f_equal. lia.
Qed.

Lemma kernel_word_user L s a va w :
  vm_inv L s → v_spaces s !! v_cur s = Some a → loaded a → va mod 4 = 0 → va + 4 ≤ USERTOP → 0 ≤ w < 2 ^ 32 →
  word_at (user_byte s a) va w → kernel_word s va = Done w.
Proof.
  intros Hi Hp Ha H4 Hva Hw Hat. unfold kernel_word. rewrite H4. cbn [negb Z.eqb].
  assert (Hb : ∀ k, (k < 4)%nat → ∀ c, be32 w !! k = Some c → kernel_byte s (va + Z.of_nat k) = Done c).
  { intros k Hk c Hc. apply (kernel_byte_user L s a _ _ Hi Hp Ha); [lia|]. by rewrite Hat. }
  rewrite <- (be32_value w Hw) at 1. pose proof (be32_length w) as Hlen.
  destruct (be32 w) as [|c0 [|c1 [|c2 [|c3 [|]]]]]; try done.
  pose proof (Hb 0%nat ltac:(lia) c0 eq_refl) as E0. rewrite Z.add_0_r in E0. rewrite E0, (Hb 1%nat ltac:(lia) c1 eq_refl : kernel_byte s (va + 1) = _).
  by rewrite (Hb 2%nat ltac:(lia) c2 eq_refl : kernel_byte s (va + 2) = _), (Hb 3%nat ltac:(lia) c3 eq_refl : kernel_byte s (va + 3) = _).
Qed.

Lemma arg_pointers_run L s a : ∀ ps n args,
  vm_inv L s → v_spaces s !! v_cur s = Some a → loaded a → arg_table s a args ps →
  arg_pointers n s args = Diverge ∨ arg_pointers n s args = Done ps.
Proof.
  intros ps n args Hi Hp Ha [(_ & Ht & _) H4 Hw Hps]. revert n args Ht H4 Hw.
  induction Hps as [|p ps Hpr Hps IH]; intros [|n] args Ht H4 Hw; [by left| |by left|]; cbn [arg_pointers].
  all: pose proof (Hw 0%nat _ eq_refl) as H0'; rewrite Z.add_0_r in H0'; cbn [length] in Ht.
  all: rewrite (λ A B, kernel_word_user L s a args _ Hi Hp Ha H4 A B H0') by lia; cbn [mbind outcome_bind].
  - by right.
  - rewrite (proj2 (Z.eqb_neq p 0)) by lia. destruct (IH n (args + 4)) as [->| ->]; [lia| | |by left|by right].
    + Z.to_euclidean_division_equations. lia.
    + intros i q Hq. replace (args + 4 + 4 * Z.of_nat i) with (args + 4 * Z.of_nat (S i)) by lia. by apply Hw.
Qed.

(** ** Fetching the arguments

    The heap changes and nothing else; blocks that are never given back are
    still owned by nobody else. *)

Lemma inv_alloc L s n :
  vm_inv L s → 0 ≤ n ≤ 2 ^ 31 → ∃ r h, kmalloc n (v_heap s) = Done (r, h) ∧ vm_inv L (set_heap h s).
Proof.
  intros Hi Hn. destruct (owns_alloc (v_heap s) _ n (vi_heap _ _ Hi) Hn) as (r & h & Hrun & Hr). exists r, h. split; [done|].
  apply vm_inv_heap; [done| |by eapply kmalloc_ram; [apply Hi|..]]. destruct r as [q|]; [|done].
  destruct Hr as [_ Hr]. eapply owns_sub; [|exact Hr]. by apply submseteq_cons.
Qed.

Lemma fetch_string_run L s f a p x :
  vm_inv L s → v_spaces s !! v_cur s = Some a → loaded a → user_string s a p x →
  ∃ r h, fetch_string p (Machine s f) = Done (r, Machine (set_heap h s) f) ∧ vm_inv L (set_heap h s) ∧
    (r = Err ENOMEM ∨ r = Ok (x ++ [0])).
Proof.
  intros Hi Hp Ha [(Hlo & Hhi & _) Hx Hz]. assert (USERTOP = 2 ^ 31) as HT by done. unfold fetch_string. cbn [mc_vm].
  destruct (strlen_at_run L s a x (memory_size s) p) as [Hd| ->]; [done..|by destruct (strlen_at_ends s p)|]. cbn [mbind outcome_bind].
  destruct (inv_alloc L s (Z.of_nat (length x) + 1) Hi ltac:(lia)) as (r & h & -> & Hi'). cbn [mbind outcome_bind].
  destruct r as [q|]; [|eexists _, h; split; [done|by auto]].
  unfold set_vm. cbn [mc_vm mc_files]. rewrite copyinstr_ok; [|done| |lia|lia]; cycle 1.
  { destruct (user_of_view L (set_heap h s) a Hi' Hp Ha) as [Hv _]. intros k Hk. rewrite Hv. by apply Hx. }
  eexists _, h. split; [done|by auto].
Qed.

Lemma strings_heap s a h ps xs : Forall2 (user_string s a) ps xs → Forall2 (user_string (set_heap h s) a) ps xs.
Proof. induction 1 as [|p x ps xs [? ? ?] _ IH]; constructor; [by split|done]. Qed.

Lemma fetch_strings_run L f a : ∀ ps xs s,
  vm_inv L s → v_spaces s !! v_cur s = Some a → loaded a → Forall2 (user_string s a) ps xs →
  ∃ r h, fetch_strings ps (Machine s f) = Done (r, Machine (set_heap h s) f) ∧ vm_inv L (set_heap h s) ∧
    (r = Err ENOMEM ∨ ∃ argv, r = Ok argv ∧ Forall2 cstr argv xs).
Proof.
  intros ps xs s Hi Hp Ha Hall. revert s Hi Hp Hall. induction ps as [|p ps IH] in xs |- *; intros s Hi Hp Hall.
  { apply Forall2_nil_inv_l in Hall as ->. exists (Ok []), (v_heap s). split; [by destruct s|]. split; [by destruct s|].
    right. by exists []. }
  apply Forall2_cons_inv_l in Hall as (x & xs' & Hx & Hall & ->). cbn [fetch_strings].
  destruct (us_addr _ _ _ _ Hx) as (_ & _ & ->).
  destruct (fetch_string_run L s f a p x Hi Hp Ha Hx) as (r & h & -> & Hi1 & Hr). cbn [mbind outcome_bind].
  destruct Hr as [->| ->]; [eexists _, h; split; [done|by auto]|].
  destruct (IH xs' (set_heap h s) Hi1 Hp) as (r & h2 & -> & Hi2 & Hr).
  { by apply strings_heap. }
  exists (match r with Ok l => Ok ((x ++ [0]) :: l) | Err e => Err e end), h2. split; [done|]. split; [done|].
  destruct Hr as [->|(argv & -> & Hargv)]; [by left|right]. eexists. split; [done|]. constructor; [|done].
  exists []. split; [done|]. by destruct Hx.
Qed.

(** execv up to the point of no return. *)
Lemma execv_fetched L s f a program path args ps xs :
  vm_inv L s → v_spaces s !! v_cur s = Some a → loaded a →
  user_string s a program path → path ≠ [] → arg_table s a args ps → Forall2 (user_string s a) ps xs →
  ∃ h, vm_inv L (set_heap h s) ∧
    (sys_execv program args (Machine s f) = Done (Err ENOMEM, Machine (set_heap h s) f) ∨
     ∃ argv, Forall2 cstr argv xs ∧
       sys_execv program args (Machine s f) = replace_program (path ++ [0]) argv (Machine (set_heap h s) f)).
Proof.
  intros Hi Hp Ha Hprog Hne Htab Hall. destruct (us_addr _ _ _ _ Hprog) as (Hlo & Hhi & Hbad).
  destruct (at_addr _ _ _ _ Htab) as (Halo & Hahi & Habad). unfold sys_execv.
  rewrite Hbad, (proj2 (Z.eqb_neq program 0)) by lia. cbn [orb mc_vm].
  destruct (strlen_at_run L s a path (memory_size s) program) as [Hd| ->]; [done|done|done|apply Hprog..|by destruct (strlen_at_ends s program)|].
  cbn [mbind outcome_bind]. rewrite (proj2 (Z.eqb_neq (Z.of_nat (length path)) 0)) by (destruct path; [done|cbn; lia]).
  destruct (fetch_string_run L s f a program path Hi Hp Ha Hprog) as (r & h & -> & Hi1 & Hr). cbn [mbind outcome_bind].
  destruct Hr as [->| ->]; [exists h; by auto|]. rewrite Habad, (proj2 (Z.eqb_neq args 0)) by lia. cbn [orb mc_vm].
  assert (Htab' : arg_table (set_heap h s) a args ps) by (destruct Htab; by split).
  destruct (arg_pointers_run L (set_heap h s) a ps (memory_size (set_heap h s)) args Hi1 Hp Ha Htab') as [Hd| ->];
    [by destruct (arg_pointers_ends (set_heap h s) args)|]. cbn [mbind outcome_bind].
  destruct (fetch_strings_run L f a ps xs (set_heap h s) Hi1 Hp Ha) as (r & h2 & -> & Hi2 & Hr).
  { by apply strings_heap. }
  cbn [mbind outcome_bind]. exists h2. split; [done|]. destruct Hr as [->|(argv & -> & Hargv)]; [by left|right; by exists argv].
Qed.

(** ** Programs that can run

    An executable with two segments below the stack. *)
Record runnable d eh (ph1 ph2 : Elf_Phdr) : Prop := {
  rn_elf : elf_file d eh;
  rn_loads : loads d eh = [ph1; ph2];
  rn_good1 : good_segment d ph1;
  rn_good2 : good_segment d ph2;
  rn_below : p_vaddr ph1 + p_memsz ph1 ≤ stackbase ∧ p_vaddr ph2 + p_memsz ph2 ≤ stackbase;
}.

(** Opening [path] gives the vnode [v] of a file that holds [d], and leaves
    the memory of others alone. *)
Definition can_open f (path : list Z) (v : Z) d : Prop :=
  ∀ h L, heap_owns h L → ∃ h' f', prog_open path h f = Done (Ok v, h', f') ∧
    heap_owns h' L ∧ ram_above (heap_ram h) (heap_ram h') ∧ file_data f' v d.

Definition cannot_open f (path : list Z) (e : Z) : Prop :=
  ∀ h L, heap_owns h L → ∃ h' f', prog_open path h f = Done (Err e, h', f') ∧
    heap_owns h' L ∧ ram_above (heap_ram h) (heap_ram h').

Definition args_fit (xs : list (list Z)) : Prop := room xs + 4 * Z.of_nat (length xs) ≤ DUMBVM_STACKPAGES * PAGE_SIZE.

Lemma runnable_starts L s f v d eh ph1 ph2 strict args xs :
  vm_inv L s → file_data f v d → runnable d eh ph1 ph2 → Forall2 cstr args xs → args_fit xs →
  ∃ r s' f', start_program strict v args (Machine s f) = Done (r, Machine s' f') ∧
    (r = Err ENOMEM ∨ ∃ tf, r = Ok tf ∧ started L s s' tf d eh ph1 ph2 xs).
Proof. intros Hi Hd [He Hl G1 G2 [Ht1 Ht2]]. by apply start_program_run. Qed.

Lemma replace_starts L s f a path v d eh ph1 ph2 argv xs :
  vm_inv L s → v_spaces s !! v_cur s = Some a → can_open f path v d → runnable d eh ph1 ph2 → Forall2 cstr argv xs → args_fit xs →
  ∃ r s' f', replace_program path argv (Machine s f) = Done (r, Machine s' f') ∧
    (r = Err ENOMEM ∨ ∃ tf, r = Ok tf ∧ started L (set_spaces (delete (v_cur s) (v_spaces s)) s) s' tf d eh ph1 ph2 xs).
Proof.
  intros Hi Hp Ho Hrn Hargs Hfit. unfold replace_program. cbn [mc_vm mc_files].
  destruct (destroy_run L s _ a Hi Hp) as (h & -> & Hi1). cbn [mbind outcome_bind]. set (s1 := set_spaces _ _) in *.
  destruct (Ho (v_heap s1) _ (vi_heap _ _ Hi1)) as (h2 & f2 & -> & Hown & Hab & Hd). cbn [mbind outcome_bind].
  assert (Hi2 : vm_inv L (set_heap h2 s1)) by by apply vm_inv_heap.
  destruct (runnable_starts L _ f2 v d eh ph1 ph2 true argv xs Hi2 Hd Hrn Hargs Hfit) as (r & s' & f' & Hrun & Hr).
  exists r, s', f'. split; [exact Hrun|]. destruct Hr as [?|(tf & Hr & [? ? ? ? ?])]; [by left|right]. exists tf. split; [done|]. by split.
Qed.

(** ** The theorems *)



(** C39: an execv of a program that cannot be opened does not leave the caller
    as it was: unless memory ran out before, its address space has been
    destroyed while it stays the current one, and the next page fault of the
    process uses memory that has been freed. *)
Theorem execv_open_fails L s f a program path args ps xs e :
  vm_inv L s → v_spaces s !! v_cur s = Some a → loaded a → v_cur s ≠ 0 →
  user_string s a program path → path ≠ [] → arg_table s a args ps → Forall2 (user_string s a) ps xs →
  cannot_open f (path ++ [0]) e →
  ∃ r s' f', sys_execv program args (Machine s f) = Done (Err r, Machine s' f') ∧
    (r = ENOMEM ∨
     r = e ∧ v_cur s' = v_cur s ∧ v_spaces s' !! v_cur s' = None ∧ ∀ va, vm_fault VM_FAULT_READ va s' = Fault).
Proof.
  intros Hi Hp Ha Hc Hprog Hne Htab Hall Ho.
  destruct (execv_fetched L s f a program path args ps xs Hi Hp Ha Hprog Hne Htab Hall) as (h & Hi1 & [->|(argv & Hargv & ->)]).
  { eexists _, _, f. split; [done|by left]. }
  unfold replace_program. cbn [mc_vm mc_files]. destruct (destroy_run L (set_heap h s) (v_cur (set_heap h s)) a Hi1 Hp) as (h2 & -> & Hi2). cbn [mbind outcome_bind].
  destruct (Ho _ _ (vi_heap _ _ Hi2)) as (h3 & f3 & -> & _ & _). cbn [mbind outcome_bind].
  eexists _, _, f3. split; [done|]. right. split; [done|]. split; [done|]. split; [apply lookup_delete_eq|].
  intros va. unfold vm_fault. cbn -[Z.land]. rewrite (proj2 (Z.eqb_neq _ _) Hc). unfold the_space. cbn. by rewrite lookup_delete_eq.
Qed.
End Execv.
