(* ===== verification/ExecDemo.v ===== *)
(** * A program on a small machine

    The files are one executable held in memory; the theorems of
    ExecTheorems are applied to it on the machine of VmDemo. *)

From S2P Require Import Prelude Ram Kheap KheapSpec Bytes Mem CString Uio Vm VmSpec VmDemo Exec ExecSpec ExecTheorems.

(** ** The file *)

Definition demo_name : list Z := [112].   (* p *)

(** Two words of code at 0x400000; a word of data at 0x10000000, with 12
    bytes of zeros behind it. *)
Definition demo_elf : list Z :=
  ELFMAG ++ [ELFCLASS32; ELFDATA2MSB; EV_CURRENT] ++ replicate 9 0 ++
  be16 ET_EXEC ++ be16 EM_MIPS ++ be32 EV_CURRENT ++ be32 0x400000 ++ be32 52 ++ be32 0 ++ be32 0 ++
  be16 52 ++ be16 32 ++ be16 2 ++ be16 0 ++ be16 0 ++ be16 0 ++
  be32 PT_LOAD ++ be32 116 ++ be32 0x400000 ++ be32 0 ++ be32 8 ++ be32 8 ++ be32 5 ++ be32 4096 ++
  be32 PT_LOAD ++ be32 124 ++ be32 0x10000000 ++ be32 0 ++ be32 4 ++ be32 16 ++ be32 6 ++ be32 4096 ++
  [1; 2; 3; 4; 5; 6; 7; 8; 9; 10; 11; 12].

Definition demo_ehdr : Elf_Ehdr := ehdr_of (slice demo_elf 0 52).
Definition demo_code : Elf_Phdr := phdr_of (slice demo_elf 52 32).
Definition demo_data : Elf_Phdr := phdr_of (slice demo_elf 84 32).

(** A disk with that file on it. *)
Definition disk := list Z.

Definition disk_read (d : disk) (u : uio) (ue : uenv) : outcome (Z * uio * uenv) :=
  let n := Z.min (uio_resid u) (Z.max 0 (Z.of_nat (length d) - uio_offset u)) in
  '(e, _, u, ue) ← uiomove (slice d (Z.to_nat (uio_offset u)) (Z.to_nat n)) n u ue; Done (e, u, ue).

#[global] Instance disk_programs {H} : Programs H disk := {
  VOP_READ v u ue d := '(e, u, ue) ← disk_read d u ue; Done (e, u, ue, d);
  prog_open path h d := Done (if bool_decide (path = demo_name ++ [0]) then Ok 1 else Err ENOENT, h, d);
  prog_close v h d := Done (h, d);
}.

Lemma slice_min (d : list Z) i n : slice d i n = slice d i (n `min` (length d - i)).
Proof.
  unfold slice. destruct (decide (n ≤ length d - i)%nat); [by rewrite Nat.min_l by lia|].
  rewrite !take_ge; [done|rewrite length_drop; lia..].
Qed.

Lemma disk_read_run d u ue :
  uio_ok u ue → uio_rw u = UIO_READ → 0 ≤ uio_offset u →
  let x := slice d (Z.to_nat (uio_offset u)) (Z.to_nat (uio_resid u)) in
  disk_read d u ue = Done (0, (deliver u ue x).1, (deliver u ue x).2).
Proof.
  intros Hu Hrw Ho x. unfold disk_read. pose proof (slice_min d (Z.to_nat (uio_offset u)) (Z.to_nat (uio_resid u))) as E. fold x in E.
  destruct Hu as (Hr & Hu). set (n := Z.min _ _).
  assert (Z.to_nat n = Z.to_nat (uio_resid u) `min` (length d - Z.to_nat (uio_offset u)))%nat as En by lia. rewrite En, <- E.
  assert (Hx : Z.of_nat (length x) = n).
  { destruct (decide (Z.to_nat (uio_offset u) ≤ length d)%nat).
    - rewrite E, slice_length by lia. lia.
    - unfold x, slice. rewrite drop_ge by lia. cbn. destruct (Z.to_nat (uio_resid u)); cbn; lia. }
  rewrite <- Hx. rewrite <- (app_nil_r x) at 1.
  rewrite (uiomove_deliver x [] u ue) by (done || lia). done.
Qed.

#[global] Instance disk_laws {H} `{RamHeapLaws H} : ProgramLaws H disk.
Proof.
  unshelve esplit; [unshelve esplit|].
  - exact (λ f v d, f = d).
  - intros f v d u ue -> Hu Hrw Ho x. exists d. split; [|done]. cbn [VOP_READ disk_programs]. by rewrite disk_read_run.
  - intros v h f d L Hh _. exists h, f. split; [done|]. split; [done|]. split; [apply heap_ram_ok, Hh|lia].
Defined.

Lemma demo_runnable : runnable demo_elf demo_ehdr demo_code demo_data.
Proof.
  split.
  - split; [split; [vm_compute; split; congruence|done]|by vm_compute| |].
    + split; [by vm_compute|]. split; [by vm_compute|]. intros i. change (e_phnum demo_ehdr) with 2.
      change (e_phoff demo_ehdr) with 52. change (e_phentsize demo_ehdr) with 32. change (Z.of_nat (length demo_elf)) with 128.
      unfold SIZEOF_PHDR. lia.
    + assert (E : phdrs demo_elf demo_ehdr = [demo_code; demo_data]) by by vm_compute. rewrite E. intros ph Hph%list_elem_of_In. destruct Hph as [<-|[<-|[]]]; by exists true.
  - by vm_compute.
  - split; vm_compute; repeat split; congruence.
  - split; vm_compute; repeat split; congruence.
  - split; by vm_compute.
Qed.

Lemma demo_opens {H} `{RamHeapLaws H} : can_open demo_elf (demo_name ++ [0]) 1 demo_elf.
Proof.
  intros h L Hh. exists h, demo_elf. split; [done|]. split; [done|]. split; [|done]. split; [apply heap_ram_ok, Hh|lia].
Qed.

Lemma demo_missing {H} `{RamHeapLaws H} : cannot_open demo_elf ([113] ++ [0]) ENOENT.
Proof.
  intros h L Hh. exists h, demo_elf. split; [done|]. split; [done|]. split; [apply heap_ram_ok, Hh|lia].
Qed.

(** ** runprogram *)

Definition demo_args : list (list Z) := [[97; 98]; [99]].   (* ab c *)

Lemma demo_args_strings : Forall2 cstr ((λ x, x ++ [0]) <$> demo_args) demo_args.
Proof. repeat constructor; (exists []; split; [done|]; intros Hx%list_elem_of_In; cbn in Hx; lia). Qed.

Lemma demo_args_fit : args_fit demo_args.
Proof. by vm_compute. Qed.

Lemma small_inv : vm_inv [] (small_boot small_mem).
Proof. destruct (reach_ok [] _ (vr_boot _ _ small_boot_ok)). done. Qed.


(** ** execv

    A process whose first page holds the name of the program, a name that
    there is not, and the table of the arguments. *)
Definition demo_text : list (Z * list Z) :=
  [(0x10, [112; 0]); (0x14, [113; 0]);
   (0x20, be32 0x400030 ++ be32 0x400034 ++ be32 0); (0x30, [97; 98; 0]); (0x34, [99; 0])].


(** The page starts at 0x2000 in physical memory. *)
Definition demo_page : gmap Z Z :=
  list_to_map (demo_text ≫= λ x, imap (λ k b, (MIPS_KSEG0 + 0x2000 + x.1 + Z.of_nat k, b)) x.2).
Definition demo_mem : gmap Z Z := demo_page ∪ small_mem.

Definition demo_state (m : gmap Z Z) : vm (traced ram) :=
  match demo_load m with Done (_, s5, _) => s5 | _ => small_boot m end.
Definition demo_process : addrspace := AddrSpace 0x400000 0x2000 1 0x10000000 0x3000 1 0x4000.

Lemma demo_boot_ok : vm_boot [] (small_boot demo_mem).
Proof. apply small_boot_of. intros c Hc. apply lookup_union_is_Some. right. by apply small_mem_mapped. Qed.

Lemma demo_state_mem m : v_mem (demo_state m) = m.
Proof. vm_compute. reflexivity. Qed.

Lemma demo_state_space m : v_spaces (demo_state m) !! v_cur (demo_state m) = Some demo_process.
Proof. vm_compute. reflexivity. Qed.

Lemma demo_state_ok m :
  vm_boot [] (small_boot m) → vm_inv [] (demo_state m) ∧ v_cur (demo_state m) ≠ 0 ∧ loaded demo_process.
Proof.
  intros Hboot. destruct (run_Done (demo_load m) demo_loaded (demo_load_runs m)) as ([[p s5] s6] & Hrun & Hchk).
  pose proof (demo_state_space m) as Hsp. assert (E : demo_state m = s5) by (unfold demo_state; rewrite Hrun; reflexivity).
  rewrite E in *. destruct (demo_machine_of m p s5 s6 Hboot Hrun Hchk) as (a & Hr & _ & Hc & _ & _ & Ha & Hl & _). clear Hrun Hchk.
  rewrite Ha in Hsp. injection Hsp as ->. destruct (reach_ok [] s5 Hr) as [Hi _ _]. split; [exact Hi|]. split; [exact Hc|exact Hl].
Qed.

Definition text_in (m : gmap Z Z) (x : Z * list Z) : bool :=
  bool_decide ((λ k, m !! (MIPS_KSEG0 + 0x2000 + x.1 + Z.of_nat k)) <$> seq 0 (length x.2) = Some <$> x.2).

Lemma demo_page_text : forallb (text_in demo_page) demo_text = true.
Proof. vm_compute. reflexivity. Qed.

(** What the process finds at its addresses. *)
Lemma demo_bytes o x k b :
  In (o, x) demo_text → 0 ≤ o → o + Z.of_nat k < PAGE_SIZE → x !! k = Some b →
  user_byte (demo_state demo_mem) demo_process (0x400000 + o + Z.of_nat k) = Some b.
Proof.
  intros Hin Ho Hk Hb. pose proof (proj1 (forallb_forall _ _) demo_page_text _ Hin) as Hx. unfold text_in in Hx.
  rewrite bool_decide_eq_true in Hx. apply (f_equal (.!! k)) in Hx. cbn [fst snd] in Hx.
  pose proof (lookup_lt_Some _ _ _ Hb). rewrite !list_lookup_fmap, lookup_seq_lt, Hb in Hx by done.
  injection Hx as Hx. apply (lookup_union_Some_l _ small_mem) in Hx. unfold user_byte. rewrite demo_state_mem.
  assert (translate demo_process (0x400000 + o + Z.of_nat k) = Some (0x2000 + o + Z.of_nat k)) as ->.
  { unfold translate, locate. cbn [as_vbase1 as_npages1 demo_process]. rewrite decide_True by lia.
    cbn [fmap option_fmap option_map mbind option_bind run fst as_pbase1 demo_process]. f_equal. lia. }
  cbn [mbind option_bind]. rewrite !(assoc_L Z.add). exact Hx.
Qed.

Lemma demo_string o x :
  In (o, x ++ [0]) demo_text → 0 ≤ o → o + Z.of_nat (length x) < PAGE_SIZE → 0 ∉ x →
  user_string (demo_state demo_mem) demo_process (0x400000 + o) x.
Proof.
  intros Hin Ho Hlen Hx. split; [|intros k Hk|done].
  - change USERTOP with 0x80000000. unfold bad_pointer, PAGE_SIZE in *. split; [lia|]. split; [lia|]. apply orb_false_iff. lia.
  - assert (is_Some ((x ++ [0]) !! k)) as [b Hb] by (apply lookup_lt_is_Some; rewrite length_app; cbn; lia).
    rewrite Hb. apply (demo_bytes o (x ++ [0])); [done|done|lia|done].
Qed.

Ltac no_zero := intros Hx%list_elem_of_In; cbn in Hx; lia.

Lemma demo_strings : Forall2 (user_string (demo_state demo_mem) demo_process) [0x400030; 0x400034] demo_args.
Proof.
  constructor; [|constructor; [|constructor]].
  - apply (demo_string 0x30 [97; 98]); [by do 3 right; left|lia|done|no_zero].
  - apply (demo_string 0x34 [99]); [by do 4 right; left|lia|done|no_zero].
Qed.

Lemma demo_table : arg_table (demo_state demo_mem) demo_process 0x400020 [0x400030; 0x400034].
Proof.
  split; [done|done| |repeat constructor; lia].
  assert (Hat : ∀ i w, (i < 3)%nat → (∀ k, (k < 4)%nat → (be32 0x400030 ++ be32 0x400034 ++ be32 0) !! (4 * i + k)%nat = be32 w !! k) →
    word_at (user_byte (demo_state demo_mem) demo_process) (0x400020 + 4 * Z.of_nat i) w).
  { intros i w Hi Hw k Hk. assert (is_Some (be32 w !! k)) as [b Hb] by (apply lookup_lt_is_Some; by rewrite be32_length).
    rewrite Hb. replace (0x400020 + 4 * Z.of_nat i + Z.of_nat k) with (0x400000 + 0x20 + Z.of_nat (4 * i + k)) by lia.
    eapply demo_bytes; [by do 2 right; left|lia|unfold PAGE_SIZE; lia|by rewrite Hw]. }
  intros [|[|[|i]]] p Hp; cbn in Hp; simplify_eq; (apply Hat; [lia|]; intros [|[|[|[|k]]]] Hk; (lia || done)).
Qed.


Lemma execv_open_fails_witness : ∃ r s' f',
  sys_execv 0x400014 0x400020 (Machine (demo_state demo_mem) demo_elf) = Done (Err r, Machine s' f') ∧
  (r = ENOMEM ∨ r = ENOENT ∧ v_cur s' = v_cur (demo_state demo_mem) ∧ v_spaces s' !! v_cur s' = None ∧
   ∀ va, vm_fault VM_FAULT_READ va s' = Fault).
Proof.
  destruct (demo_state_ok demo_mem demo_boot_ok) as (Hi & Hc & Hl).
  assert (Hprog : user_string (demo_state demo_mem) demo_process 0x400014 [113]).
  { apply (demo_string 0x14 [113]); [by right; left|lia|done|no_zero]. }
  exact (execv_open_fails [] (demo_state demo_mem) demo_elf demo_process 0x400014 [113] 0x400020 [0x400030; 0x400034] demo_args
           ENOENT Hi (demo_state_space demo_mem) Hl Hc Hprog ltac:(discriminate) demo_table demo_strings demo_missing).
Defined.
