(* ===== verification/Console.v ===== *)
(** * The console (kern/dev/generic/console.c, kern/dev/lamebus/lser.c,
      kern/dev/lamebus/con_lser.c)

    The driver of the serial card and the console on top of it.  The card is
    hardware: [SerialCard] has its registers and [SerialLaws] what the driver
    relies on.  The threads that print and read, the interrupts of the card
    and the passing of time are a transition system; a semaphore is its count,
    as in SystemTheorems.  The theorems: no thread ever writes to a card that
    is busy, every character goes to the card once and in order, and a thread
    that waits to print can always go on. *)

From S2P Require Import Prelude Bytes Mem Uio.

Definition LSER_REG_CHAR : Z := 0.
Definition LSER_REG_WIRQ : Z := 4.
Definition LSER_REG_RIRQ : Z := 8.
Definition LSER_IRQ_ENABLE : Z := 1.
Definition LSER_IRQ_ACTIVE : Z := 2.

Class SerialCard (C : Type) := {
  bus_read_register : Z → C → Z * C;
  bus_write_register : Z → Z → C → C;
}.

(** ** The driver *)

Record lser_softc (C : Type) := Lser { ls_wbusy : bool; ls_card : C }.
Arguments Lser {C} _ _.
Arguments ls_wbusy {C} _.
Arguments ls_card {C} _.

Record con_softc (C : Type) := Con {
  cs_devdata : lser_softc C;
  cs_rsem : Z;
  cs_wsem : Z;
  cs_gotchar : Z;
}.
Arguments Con {C} _ _ _ _.
Arguments cs_devdata {C} _.
Arguments cs_rsem {C} _.
Arguments cs_wsem {C} _.
Arguments cs_gotchar {C} _.

Section Driver.
Context {C : Type} `{SerialCard C}.
Implicit Types (c : C) (ls : lser_softc C) (cs : con_softc C).

Definition con_input (ch : Z) cs : con_softc C := Con (cs_devdata cs) (cs_rsem cs + 1) (cs_wsem cs) ch.
Definition con_start cs : con_softc C := Con (cs_devdata cs) (cs_rsem cs) (cs_wsem cs + 1) (cs_gotchar cs).
Definition set_lser ls cs : con_softc C := Con ls (cs_rsem cs) (cs_wsem cs) (cs_gotchar cs).

Definition active (x : Z) : bool := negb (Z.land x LSER_IRQ_ACTIVE =? 0).

(** ls_start is con_start and ls_input is con_input (attach_con_to_lser). *)
Definition lser_irq cs : con_softc C :=
  let ls := cs_devdata cs in
  let '(x, c) := bus_read_register LSER_REG_WIRQ (ls_card ls) in
  let clear_to_write := active x in
  let ls := if clear_to_write
            then Lser false (bus_write_register LSER_REG_WIRQ LSER_IRQ_ENABLE c)
            else Lser (ls_wbusy ls) c in
  let '(x, c) := bus_read_register LSER_REG_RIRQ (ls_card ls) in
  let got_a_read := active x in
  let '(ch, c) := if got_a_read then
                    let '(ch, c) := bus_read_register LSER_REG_CHAR c in
                    (ch, bus_write_register LSER_REG_RIRQ LSER_IRQ_ENABLE c)
                  else (0, c) in
  let cs := set_lser (Lser (ls_wbusy ls) c) cs in
  let cs := if clear_to_write then con_start cs else cs in
  if got_a_read then con_input ch cs else cs.

Definition lser_write (ch : Z) ls : outcome (lser_softc C) :=
  if ls_wbusy ls then Panic
  else Done (Lser true (bus_write_register LSER_REG_CHAR ch (ls_card ls))).

(** The loop reads the register until the card has finished, [n] times at
    most. *)
Fixpoint lser_spin_until_write (n : nat) c : outcome C :=
  match n with
  | O => Diverge
  | S n =>
      let '(val, c) := bus_read_register LSER_REG_WIRQ c in
      if Z.land val LSER_IRQ_ACTIVE =? 0 then lser_spin_until_write n c else Done c
  end.

Definition lser_writepolled (n : nat) (ch : Z) ls : outcome (lser_softc C) :=
  let irqpending := ls_wbusy ls in
  c ← (if ls_wbusy ls then
         c ← lser_spin_until_write n (ls_card ls);
         Done (bus_write_register LSER_REG_WIRQ LSER_IRQ_ENABLE c)
       else Done (ls_card ls));
  let c := bus_write_register LSER_REG_CHAR ch c in
  c ← lser_spin_until_write n c;
  let c := if negb irqpending then bus_write_register LSER_REG_WIRQ LSER_IRQ_ENABLE c else c in
  Done (Lser (ls_wbusy ls) c).

Definition config_lser c : lser_softc C :=
  Lser false (bus_write_register LSER_REG_WIRQ LSER_IRQ_ENABLE
                (bus_write_register LSER_REG_RIRQ LSER_IRQ_ENABLE c)).

(** config_con once its semaphores have been made. *)
Definition config_con ls : con_softc C := Con ls 0 1 0.
End Driver.

(** ** What threads do

    The calls a thread makes on the console, each of which is atomic: the
    semaphore operations and the driver's functions run with interrupts
    off. *)
Inductive call :=
  | P_wsem
  | Send (ch : Z)
  | SendPolled (ch : Z)
  | P_rsem
  | Gotchar.

Definition putch_polled (ch : Z) : list call := [SendPolled ch].
Definition putch_intr (ch : Z) : list call := [P_wsem; Send ch].
Definition getch_intr : list call := [P_rsem; Gotchar].

(** putch and getch once there is a console. *)
Definition putch (in_interrupt : bool) (curspl ch : Z) : list call :=
  if in_interrupt || (curspl >? 0) then putch_polled ch else putch_intr ch.
Definition getch (in_interrupt : bool) (curspl : Z) : outcome (list call) :=
  kassert (negb in_interrupt && (curspl =? 0));;
  Done getch_intr.

(** What is printed before there is a console is kept, and printed once
    there is one. *)
Definition DELAYBUFSIZE : Z := 1024.
Definition putch_delayed (ch : Z) (delayed_outbuf : list Z) : outcome (list Z) :=
  kassert (Z.of_nat (length delayed_outbuf) <? DELAYBUFSIZE);;
  Done (delayed_outbuf ++ [ch]).
Definition flush_delay_buf (in_interrupt : bool) (curspl : Z) (delayed_outbuf : list Z) : list call :=
  delayed_outbuf ≫= putch in_interrupt curspl.

(** The console, what each thread has still to do, the characters sent to
    the card and those read, the oldest first. *)
Record world (C : Type) := World {
  w_con : con_softc C;
  w_threads : list (list call);
  w_sent : list Z;
  w_got : list Z;
}.
Arguments World {C} _ _ _ _.
Arguments w_con {C} _.
Arguments w_threads {C} _.
Arguments w_sent {C} _.
Arguments w_got {C} _.

Section World.
Context {C : Type} `{SerialCard C}.
Implicit Types (w : world C) (cs : con_softc C).

(** A call by a thread; None while it has to wait. *)
Definition do_call (n : nat) (k : call) w : outcome (option (world C)) :=
  let cs := w_con w in
  match k with
  | P_wsem =>
      Done (if cs_wsem cs >? 0
            then Some (World (Con (cs_devdata cs) (cs_rsem cs) (cs_wsem cs - 1) (cs_gotchar cs)) (w_threads w) (w_sent w) (w_got w))
            else None)
  | Send ch =>
      ls ← lser_write ch (cs_devdata cs);
      Done (Some (World (set_lser ls cs) (w_threads w) (w_sent w ++ [ch]) (w_got w)))
  | SendPolled ch =>
      ls ← lser_writepolled n ch (cs_devdata cs);
      Done (Some (World (set_lser ls cs) (w_threads w) (w_sent w ++ [ch]) (w_got w)))
  | P_rsem =>
      Done (if cs_rsem cs >? 0
            then Some (World (Con (cs_devdata cs) (cs_rsem cs - 1) (cs_wsem cs) (cs_gotchar cs)) (w_threads w) (w_sent w) (w_got w))
            else None)
  | Gotchar => Done (Some (World cs (w_threads w) (w_sent w) (w_got w ++ [cs_gotchar cs])))
  end.

(** The next call of thread [i]. *)
Definition run_thread (n i : nat) w : outcome (option (world C)) :=
  match w_threads w !! i with
  | Some (k :: rest) => do_call n k (World (w_con w) (<[i := rest]> (w_threads w)) (w_sent w) (w_got w))
  | _ => Done None
  end.
End World.

(** A thread prints and reads. *)
Inductive request := Put (in_interrupt : bool) (curspl ch : Z) | Get.
Definition request_calls (r : request) : list call :=
  match r with Put i s ch => putch i s ch | Get => getch_intr end.
Definition program (rs : list request) : list call := rs ≫= request_calls.

(** ** What the driver relies on

    The card is idle, sends a character, or has sent it and waits for the
    driver to say that it knows.  It may have received a character.  Time
    passes with every access and between them. *)
Inductive wstate := Idle | Sending | Sent.
#[global] Instance wstate_eq_dec : EqDecision wstate.
Proof. solve_decision. Defined.

Class SerialLaws (C : Type) `{SerialCard C} := {
  writing : C → wstate;
  received : C → option Z;
  taken : C → list Z;             (* the characters sent, the oldest first *)
  passes : C → C → Prop;          (* time goes by *)
  char_time : nat;                (* a character is out after so many looks *)
  patience : C → nat;
  passes_taken c c' : passes c c' → taken c' = taken c;
  passes_writing c c' : passes c c' → writing c' = writing c ∨ writing c = Sending ∧ writing c' = Sent;
  passes_received c c' : passes c c' → received c' = received c ∨ received c = None;
  passes_sent c : writing c = Sending → ∃ c', passes c c' ∧ writing c' = Sent;
  read_passes r c : passes c (bus_read_register r c).2;
  read_wirq c : let '(x, c') := bus_read_register LSER_REG_WIRQ c in
    Z.land x LSER_IRQ_ACTIVE = 0 ↔ writing c' ≠ Sent;
  read_rirq c : let '(x, c') := bus_read_register LSER_REG_RIRQ c in
    Z.land x LSER_IRQ_ACTIVE = 0 ↔ received c' = None;
  read_char c ch : received c = Some ch → (bus_read_register LSER_REG_CHAR c).1 = ch;
  read_waits c : writing c = Sending → let c' := (bus_read_register LSER_REG_WIRQ c).2 in
    writing c' = Sent ∨ (patience c' < patience c)%nat;
  patience_bound c : (patience c ≤ char_time)%nat;
  write_char ch c : writing c = Idle → let c' := bus_write_register LSER_REG_CHAR ch c in
    taken c' = taken c ++ [Z.land ch 0xff] ∧ writing c' ≠ Idle;
  write_wirq c : let c' := bus_write_register LSER_REG_WIRQ LSER_IRQ_ENABLE c in
    taken c' = taken c ∧ (writing c ≠ Sending → writing c' = Idle);
  write_rirq c : let c' := bus_write_register LSER_REG_RIRQ LSER_IRQ_ENABLE c in
    taken c' = taken c ∧ (writing c' = writing c ∨ writing c = Sending ∧ writing c' = Sent);
}.

Section Laws.
Context {C : Type} `{SerialLaws C}.
Implicit Types (c : C) (ls : lser_softc C) (cs : con_softc C) (w : world C).

Inductive step : world C → world C → Prop :=
  | st_start rs w : step w (World (w_con w) (w_threads w ++ [program rs]) (w_sent w) (w_got w))
  | st_run i w w' : run_thread (S char_time) i w = Done (Some w') → step w w'
  | st_irq w : step w (World (lser_irq (w_con w)) (w_threads w) (w_sent w) (w_got w))
  | st_time c w : passes (ls_card (cs_devdata (w_con w))) c →
      step w (World (set_lser (Lser (ls_wbusy (cs_devdata (w_con w))) c) (w_con w)) (w_threads w) (w_sent w) (w_got w)).

(** The machine after config_con, with a card that is idle and what was
    printed before still to be printed. *)
Definition booted w : Prop :=
  ∃ c i spl buf, writing c = Idle ∧ taken c = [] ∧
    w = World (config_con (config_lser c)) [flush_delay_buf i spl buf] [] [].

Definition reachable w : Prop := ∃ w0, booted w0 ∧ rtc step w0 w.

(** ** The driver and the card *)

Definition card_of ls (busy : bool) (l : list Z) : Prop :=
  ls_wbusy ls = busy ∧ (writing (ls_card ls) = Idle ↔ busy = false) ∧ taken (ls_card ls) = l.

Lemma spin_run n c :
  writing c ≠ Idle → (patience c < n)%nat →
  ∃ c', lser_spin_until_write n c = Done c' ∧ writing c' = Sent ∧ taken c' = taken c.
Proof.
  revert c. induction n as [|n IH]; intros c Hw Hn; [lia|]. cbn [lser_spin_until_write].
  pose proof (read_passes LSER_REG_WIRQ c) as Hp. pose proof (read_wirq c) as Hx. pose proof (read_waits c) as Hwait. cbn zeta in Hwait.
  destruct (bus_read_register LSER_REG_WIRQ c) as [x c1]. cbn [snd] in *. pose proof (passes_taken _ _ Hp) as Ht.
  destruct (Z.eqb_spec (Z.land x LSER_IRQ_ACTIVE) 0) as [E|E].
  - apply Hx in E. assert (writing c = Sending) as Hs.
    { destruct (passes_writing _ _ Hp) as [E'|[? ?]]; [|done]. destruct (writing c); congruence. }
    destruct (Hwait Hs) as [?|Hlt]; [done|]. destruct (IH c1) as (c' & -> & ? & ?); [|lia|exists c'; split_and!; congruence].
    destruct (passes_writing _ _ Hp) as [E'|[? ?]]; congruence.
  - exists c1. split; [done|]. split; [|done]. destruct (decide (writing c1 = Sent)) as [|Hne]; [done|]. by apply Hx in Hne.
Qed.

Lemma write_run ls l ch :
  card_of ls false l → ∃ ls', lser_write ch ls = Done ls' ∧ card_of ls' true (l ++ [Z.land ch 0xff]).
Proof.
  intros (Hb & Hi & Ht). unfold lser_write. rewrite Hb. eexists. split; [done|].
  destruct (write_char ch (ls_card ls)) as [Ht' Hw]; [by apply Hi|]. split; [done|]. cbn. split; [split; done|congruence].
Qed.

Lemma writepolled_run ls busy l ch :
  card_of ls busy l → ∃ ls', lser_writepolled (S char_time) ch ls = Done ls' ∧ card_of ls' busy (l ++ [Z.land ch 0xff]).
Proof.
  intros (Hb & Hi & Ht). unfold lser_writepolled. rewrite Hb.
  assert (∃ c, (if busy then c ← lser_spin_until_write (S char_time) (ls_card ls); Done (bus_write_register LSER_REG_WIRQ LSER_IRQ_ENABLE c)
    else Done (ls_card ls)) = Done c ∧ writing c = Idle ∧ taken c = l) as (c1 & -> & Hi1 & Ht1).
  { destruct busy; [|exists (ls_card ls); split; [done|split; [by apply Hi|done]]].
    destruct (spin_run (S char_time) (ls_card ls)) as (c & -> & Hs & Htc).
    - intros E. by apply Hi in E.
    - pose proof (patience_bound (ls_card ls)). lia.
    - cbn [mbind outcome_bind]. eexists. split; [done|]. destruct (write_wirq c) as [Ht2 Hw2]. split; [apply Hw2; congruence|congruence]. }
  cbn [mbind outcome_bind]. destruct (write_char ch c1 Hi1) as [Ht2 Hw2].
  destruct (spin_run (S char_time) _ Hw2) as (c3 & -> & Hs3 & Ht3).
  { pose proof (patience_bound (bus_write_register LSER_REG_CHAR ch c1)). lia. }
  cbn [mbind outcome_bind]. eexists. split; [done|]. split; [done|]. cbn [ls_card ls_wbusy]. destruct busy; cbn [negb].
  - split; [split; [congruence|done]|congruence].
  - destruct (write_wirq c3) as [Ht4 Hw4]. split; [split; [done|intros _; apply Hw4; congruence]|congruence].
Qed.

Lemma passes_card ls busy l c :
  card_of ls busy l → passes (ls_card ls) c → card_of (Lser (ls_wbusy ls) c) busy l.
Proof.
  intros (Hb & Hi & Ht) Hp. split; [done|]. cbn. pose proof (passes_taken _ _ Hp). split; [|congruence].
  destruct (passes_writing _ _ Hp) as [->|[E ->]]; [done|]. rewrite E in Hi. split; [done|]. intros Hf. by apply Hi in Hf.
Qed.

Lemma irq_run cs busy l :
  card_of (cs_devdata cs) busy l → 0 ≤ cs_rsem cs →
  ∃ busy', card_of (cs_devdata (lser_irq cs)) busy' l ∧ 0 ≤ cs_rsem (lser_irq cs) ∧ cs_wsem cs ≤ cs_wsem (lser_irq cs) ∧
    cs_wsem (lser_irq cs) + Z.b2z busy' = cs_wsem cs + Z.b2z busy ∧
    (writing (ls_card (cs_devdata cs)) = Sent → busy' = false).
Proof.
  intros Hc Hr. unfold lser_irq.
  pose proof (read_passes LSER_REG_WIRQ (ls_card (cs_devdata cs))) as Hp1. pose proof (read_wirq (ls_card (cs_devdata cs))) as Hx1.
  destruct (bus_read_register LSER_REG_WIRQ (ls_card (cs_devdata cs))) as [x1 c1]. cbn [snd] in Hp1.
  pose proof (passes_card _ _ _ _ Hc Hp1) as Hc1. destruct Hc as (Hb & Hi & _).
  set (ls1 := if active x1 then _ else _).
  assert (∃ busy', card_of ls1 busy' l ∧ Z.b2z (active x1) + Z.b2z busy' = Z.b2z busy ∧ (active x1 = true → busy' = false)) as (busy' & Hc2 & Hbs & Hact).
  { unfold ls1, active. destruct (Z.eqb_spec (Z.land x1 LSER_IRQ_ACTIVE) 0) as [E|E]; cbn [negb]; [by exists busy|].
    assert (Hs : writing c1 = Sent) by (destruct (decide (writing c1 = Sent)) as [|Hn]; [done|by apply Hx1 in Hn]).
    destruct Hc1 as (_ & Hi1 & Ht1). cbn in Hi1, Ht1. destruct (write_wirq c1) as [Ht2 Hw2]. exists false. split; [|split; [|done]].
    - split; [done|]. cbn. split; [|congruence]. split; [done|]. intros _. apply Hw2. congruence.
    - destruct busy; [done|]. by rewrite (proj2 Hi1 eq_refl) in Hs. }
  assert (Hsent : writing (ls_card (cs_devdata cs)) = Sent → busy' = false).
  { intros Hs. apply Hact. unfold active. apply negb_true_iff, Z.eqb_neq. intros E. apply Hx1 in E.
    destruct (passes_writing _ _ Hp1) as [?|[? ?]]; congruence. }
  pose proof (read_passes LSER_REG_RIRQ (ls_card ls1)) as Hp2. clearbody ls1. clear Hx1 Hp1 Hc1.
  destruct (bus_read_register LSER_REG_RIRQ (ls_card ls1)) as [x2 c2]. cbn [snd] in Hp2. pose proof (passes_card _ _ _ _ Hc2 Hp2) as Hc3.
  assert (Hc4 : card_of (Lser (ls_wbusy ls1) (if active x2 then let '(ch, c) := bus_read_register LSER_REG_CHAR c2 in
      (ch, bus_write_register LSER_REG_RIRQ LSER_IRQ_ENABLE c) else (0, c2)).2) busy' l).
  { destruct (active x2); [|exact Hc3]. pose proof (read_passes LSER_REG_CHAR c2) as Hp3.
    destruct (bus_read_register LSER_REG_CHAR c2) as [ch c3]. cbn [snd] in *. pose proof (passes_card _ _ _ _ Hc3 Hp3) as (Hb4 & Hi4 & Ht4).
    destruct (write_rirq c3) as [Ht5 Hw5]. split; [exact Hb4|]. cbn in *. split; [|congruence].
    destruct Hw5 as [->|[E ->]]; [done|]. rewrite E in Hi4. split; [done|]. intros Hf. by apply Hi4 in Hf. }
  destruct (if active x2 then _ else _) as [ch c4]. cbn [snd] in Hc4. exists busy'.
  destruct (active x1), (active x2); cbn in *; split_and!; done || lia.
Qed.

(** ** The invariant *)

Definition sends (l : list call) : Z := match l with Send _ :: _ => 1 | _ => 0 end.
Definition senders (ts : list (list call)) : Z := foldr (λ l n, sends l + n) 0 ts.

(** What is left of a program. *)
Inductive shape : list call → Prop :=
  | sh_program rs : shape (program rs)
  | sh_send ch rs : shape (Send ch :: program rs)
  | sh_got rs : shape (Gotchar :: program rs).

Record inv w : Prop := {
  i_card : ∃ busy, card_of (cs_devdata (w_con w)) busy ((λ ch, Z.land ch 0xff) <$> w_sent w) ∧
    cs_wsem (w_con w) + senders (w_threads w) + Z.b2z busy = 1;
  i_sems : 0 ≤ cs_wsem (w_con w) ∧ 0 ≤ cs_rsem (w_con w);
  i_shape : Forall shape (w_threads w);
}.

Lemma sends_nonneg l : 0 ≤ sends l.
Proof. unfold sends. destruct l as [|[]]; lia. Qed.

Lemma senders_cons l ts : senders (l :: ts) = sends l + senders ts.
Proof. done. Qed.

Lemma senders_app ts us : senders (ts ++ us) = senders ts + senders us.
Proof. induction ts as [|l ts IH]; [done|]. cbn [app]. rewrite !senders_cons. lia. Qed.

Lemma senders_nonneg ts : 0 ≤ senders ts.
Proof. induction ts as [|l ts IH]; [done|]. rewrite senders_cons. pose proof (sends_nonneg l). lia. Qed.

Lemma senders_insert ts i l l' : ts !! i = Some l → senders (<[i := l']> ts) = senders ts - sends l + sends l'.
Proof.
  revert i. induction ts as [|m ts IH]; intros [|i] Hi; [done|done| |].
  - injection Hi as ->. change (<[0%nat := l']> (l :: ts)) with (l' :: ts). rewrite !senders_cons. lia.
  - change (<[S i := l']> (m :: ts)) with (m :: <[i := l']> ts). rewrite !senders_cons, (IH i Hi). lia.
Qed.

Lemma sends_program rs : sends (program rs) = 0.
Proof. destruct rs as [|[i s ch|] rs]; [done| |done]. unfold program. cbn. unfold putch. by destruct (_ || _). Qed.

(** What the next call is and what is left after it. *)
Lemma shape_next k rest :
  shape (k :: rest) →
  shape rest ∧ match k with P_wsem => ∃ ch, sends rest = 1 ∧ hd_error rest = Some (Send ch) | _ => sends rest = 0 end.
Proof.
  assert (Hp : ∀ rs, program rs = k :: rest → shape rest ∧ match k with P_wsem => ∃ ch, sends rest = 1 ∧ hd_error rest = Some (Send ch) | _ => sends rest = 0 end).
  { intros [|[i s ch|] rs]; [done| |]; unfold program; cbn [mbind list_bind request_calls].
    - unfold putch. destruct (_ || _); cbn; intros [= <- <-]; fold (program rs).
      + split; [constructor|apply sends_program].
      + split; [constructor|by exists ch].
    - cbn. intros [= <- <-]. fold (program rs). split; [constructor|done]. }
  inversion 1 as [rs E|ch rs E|rs E]; subst; [by apply (Hp rs)|..]; (split; [constructor|apply sends_program]).
Qed.

#[local] Arguments senders : simpl never.
#[local] Arguments sends : simpl never.

(** A call of a thread never fails; it goes on or has to wait for a
    semaphore that is 0. *)
Lemma run_inv w i k rest :
  inv w → w_threads w !! i = Some (k :: rest) →
  ∃ r, run_thread (S char_time) i w = Done r ∧
    match r with
    | Some w' => inv w'
    | None => k = P_wsem ∧ cs_wsem (w_con w) = 0 ∨ k = P_rsem ∧ cs_rsem (w_con w) = 0
    end.
Proof.
  intros [(busy & Hc & Hsum) [Hw Hr] Hsh] Hi. unfold run_thread. rewrite Hi.
  destruct (shape_next k rest (Forall_lookup_1 _ _ _ _ Hsh Hi)) as [Hrest Hk].
  pose proof (senders_insert _ _ _ rest Hi) as Hins. pose proof (senders_nonneg (<[i := rest]> (w_threads w))) as Hnn.
  assert (Hsh' : Forall shape (<[i := rest]> (w_threads w))) by by apply Forall_insert.
  assert (Hk0 : sends (k :: rest) = match k with Send _ => 1 | _ => 0 end) by by destruct k. rewrite Hk0 in Hins. clear Hk0.
  destruct k as [|ch|ch| |]; cbn [do_call w_con].
  - destruct Hk as (ch & Hs & _). destruct (Z.gtb_spec (cs_wsem (w_con w)) 0); eexists; (split; [done|]); [|left; split; [done|lia]].
    split; cbn; [exists busy; split; [done|lia]|lia|done].
  - destruct busy; [cbn in Hsum; lia|]. destruct (write_run _ _ ch Hc) as (ls & -> & Hc'). eexists. split; [done|].
    split; cbn; [exists true; split; [by rewrite fmap_app|cbn in *; lia]|done|done].
  - destruct (writepolled_run _ _ _ ch Hc) as (ls & -> & Hc'). eexists. split; [done|].
    split; cbn; [exists busy; split; [by rewrite fmap_app|lia]|done|done].
  - destruct (Z.gtb_spec (cs_rsem (w_con w)) 0); eexists; (split; [done|]); [|right; split; [done|lia]].
    split; cbn; [exists busy; split; [done|lia]|lia|done].
  - eexists. split; [done|]. split; cbn; [exists busy; split; [done|lia]|done|done].
Qed.

Lemma run_thread_some i w w' :
  run_thread (S char_time) i w = Done (Some w') → ∃ k rest, w_threads w !! i = Some (k :: rest).
Proof. unfold run_thread. destruct (w_threads w !! i) as [[|k rest]|]; [done|by eauto|done]. Qed.

Lemma console_step w w' : step w w' → inv w → inv w'.
Proof.
  intros Hst Hinv. pose proof Hinv as [(busy & Hc & Hsum) [Hw Hr] Hsh]. destruct Hst as [rs w|i w w' Hrun|w|c w Hp].
  - split; cbn; [|done|apply Forall_app; split; [done|repeat constructor]].
    exists busy. rewrite senders_app, senders_cons, sends_program. change (senders []) with 0. split; [done|lia].
  - destruct (run_thread_some _ _ _ Hrun) as (k & rest & Hi). destruct (run_inv w i k rest Hinv Hi) as (r & Hrun' & Hr').
    rewrite Hrun in Hrun'. by injection Hrun' as <-.
  - destruct (irq_run _ _ _ Hc Hr) as (busy' & Hc' & Hr' & Hle & Hsum' & _). split; cbn; [exists busy'; split; [done|lia]|lia|done].
  - split; cbn; [|done|done]. exists busy. split; [by apply passes_card|done].
Qed.

Lemma booted_inv w : booted w → inv w.
Proof.
  intros (c & i & spl & buf & Hw & Ht & ->). split; cbn.
  - exists false. destruct (write_rirq c) as [Ht1 Hw1]. destruct (write_wirq (bus_write_register LSER_REG_RIRQ LSER_IRQ_ENABLE c)) as [Ht2 Hw2].
    assert (Hp : flush_delay_buf i spl buf = program (Put i spl <$> buf)) by (induction buf as [|ch buf IH]; [done|]; cbn; by f_equal).
    rewrite Hp, senders_cons, sends_program. split; [|done]. split; [done|]. cbn. split; [|congruence]. split; [done|]. intros _. apply Hw2.
    destruct Hw1 as [->|[? ?]]; congruence.
  - done.
  - assert (Hp : flush_delay_buf i spl buf = program (Put i spl <$> buf)) by (induction buf as [|ch buf IH]; [done|]; cbn; by f_equal).
    rewrite Hp. repeat constructor.
Qed.

Lemma console_reachable w : reachable w → inv w.
Proof.
  intros (w0 & Hb & Hr). pose proof (booted_inv w0 Hb) as Hinv. clear Hb. induction Hr as [|w0 w1 w Hst _ IH]; [done|].
  apply IH. by eapply console_step.
Qed.

Lemma senders_find ts : 0 < senders ts → ∃ i ch rest, ts !! i = Some (Send ch :: rest).
Proof.
  induction ts as [|l ts IH]; [done|]. rewrite senders_cons. destruct (decide (sends l = 0)) as [E|E].
  - intros Hs. destruct IH as (i & ch & rest & Hi); [lia|]. by exists (S i), ch, rest.
  - intros _. destruct l as [|[| ch| | |] rest]; try done. by exists 0%nat, ch, rest.
Qed.

(** ** Properties *)


(** A thread that waits to print does not wait for ever: the thread
    about to send can go on, the card finishes its character, and its
    interrupt lets another thread print. *)
Theorem console_progress w :
  reachable w → ∃ w', rtc step w w' ∧ 0 < cs_wsem (w_con w').
Proof.
  intros Hinv%console_reachable.
  assert (Hbusy : ∀ v, inv v → ls_wbusy (cs_devdata (w_con v)) = true → ∃ v', rtc step v v' ∧ 0 < cs_wsem (w_con v')).
  { intros v [(busy & Hc & Hsum) [Hw Hr] _] Hb. pose proof Hc as (Hb' & Hi & _). rewrite Hb in Hb'. subst busy.
    assert (∃ v1, rtc step v v1 ∧ w_con v1 = set_lser (cs_devdata (w_con v1)) (w_con v) ∧
      card_of (cs_devdata (w_con v1)) true ((λ ch, Z.land ch 0xff) <$> w_sent v) ∧ writing (ls_card (cs_devdata (w_con v1))) = Sent) as (v1 & Hv1 & E1 & Hc1 & Hs1).
    { destruct (writing (ls_card (cs_devdata (w_con v)))) eqn:E.
      - by pose proof (proj1 Hi eq_refl).
      - destruct (passes_sent _ E) as (c & Hp & Hs). eexists. split; [apply rtc_once, (st_time c v Hp)|]. cbn.
        split; [done|]. split; [by apply (passes_card _ _ _ _ Hc)|done].
      - exists v. split; [done|]. split; [by destruct (w_con v)|]. split; [done|done]. }
    destruct (irq_run (w_con v1) true _ Hc1) as (busy' & _ & _ & _ & Hsum' & Hf); [by rewrite E1|].
    eexists. split; [eapply rtc_r; [exact Hv1|apply st_irq]|]. cbn. rewrite (Hf Hs1) in Hsum'. rewrite E1 in Hsum' at 2. cbn in Hsum'.
    pose proof (senders_nonneg (w_threads v)). lia. }
  pose proof Hinv as [(busy & Hc & Hsum) [Hw Hr] _]. destruct (decide (0 < cs_wsem (w_con w))) as [|Hz]; [by exists w|].
  destruct busy; [apply Hbusy; [done|apply Hc]|]. destruct (senders_find (w_threads w)) as (i & ch & rest & Hi); [cbn in Hsum; lia|].
  destruct (run_inv w i _ _ Hinv Hi) as ([w1|] & Hrun & Hr1); [|destruct Hr1 as [[? ?]|[? ?]]; done].
  destruct (Hbusy w1 Hr1) as (w' & Hrtc & Hpos); [|exists w'; split; [|done]; eapply rtc_l; [by apply (st_run i)|done]].
  unfold run_thread in Hrun. rewrite Hi in Hrun. cbn [do_call w_con] in Hrun. unfold lser_write in Hrun.
  destruct (ls_wbusy _); [done|]. by injection Hrun as <-.
Qed.
End Laws.

(** ** con_io

    Reading and writing the device con: the characters typed and not yet
    read come from [input], those printed go to [output]; a reader waits for
    ever when no more are typed.  The lock that keeps out other readers or
    writers is held for the whole of it. *)
Fixpoint con_io_loop (n : nat) (u : uio) (ue : uenv) (input output : list Z)
  : outcome (Z * uio * uenv * list Z * list Z) :=
  if uio_resid u >? 0 then
    match n with
    | O => Diverge
    | S n =>
        if decide (uio_rw u = UIO_READ) then
          match input with
          | [] => Diverge
          | ch :: input =>
              let ch := if ch =? 13 then 10 else ch in
              '(result, _, u, ue) ← uiomove [ch] 1 u ue;
              if negb (result =? 0) then Done (result, u, ue, input, output)
              else if ch =? 10 then Done (0, u, ue, input, output)
              else con_io_loop n u ue input output
          end
        else
          '(result, ptr, u, ue) ← uiomove [0] 1 u ue;
          if negb (result =? 0) then Done (result, u, ue, input, output)
          else
            match ptr with
            | [] => Fault
            | ch :: _ =>
                let output := if ch =? 10 then output ++ [13] else output in
                con_io_loop n u ue input (output ++ [ch])
            end
    end
  else Done (0, u, ue, input, output).

(** Each turn moves one character. *)
Definition con_io (u : uio) (ue : uenv) (input output : list Z) : outcome (Z * uio * uenv * list Z * list Z) :=
  con_io_loop (Z.to_nat (uio_resid u)) u ue input output.

(** The characters a text is printed as. *)
Definition printed (text : list Z) : list Z := text ≫= λ ch, if ch =? 10 then [13; 10] else [ch].

Lemma con_write_loop n : ∀ u ue input output,
  uio_ok u ue → uio_rw u = UIO_WRITE → uio_resid u = Z.of_nat n →
  con_io_loop n u ue input output =
    Done (0, consume u (Z.of_nat n), ue, input, output ++ printed (source u ue n)).
Proof.
  induction n as [|n IH]; intros u ue input output Hok Hrw Hr.
  { cbn [con_io_loop]. rewrite Hr. change (Z.of_nat 0) with 0. cbn [Z.gtb Z.compare]. rewrite (consume_0 _ _ Hok).
    assert (source u ue 0 = []) as -> by (unfold source; by destruct (iov u)). cbn. by rewrite app_nil_r. }
  cbn [con_io_loop]. destruct (Z.gtb_spec (uio_resid u) 0); [|lia]. rewrite decide_False by (by rewrite Hrw).
  destruct (uiomove_source [0] 1 u ue Hok Hrw) as [Hrun Hlen]; [lia|cbn; lia|]. change (Z.of_nat 1) with 1 in Hrun. rewrite Hrun.
  cbn [mbind outcome_bind negb Z.eqb].
  rewrite (source_app u ue 1 n Hok ltac:(lia) : source u ue (S n) = _). change (Z.of_nat 1) with 1.
  destruct (source u ue 1) as [|ch [|]]; try done. cbn [splice take drop app length Nat.add].
  destruct (consume_fields u ue 1 Hok) as (Hr' & _ & Hrw'); [lia|].
  change (splice [0] 0 [ch]) with [ch]. cbn beta iota.
  rewrite IH; [|apply consume_ok; [done|lia]|congruence|lia]. rewrite (consume_consume u ue 1 (Z.of_nat n)) by (done || lia).
  replace (1 + Z.of_nat n) with (Z.of_nat (S n)) by lia. do 2 f_equal. unfold printed. cbn [mbind list_bind].
  destruct (ch =? 10) eqn:E; [|by rewrite <- (assoc_L (++))]. apply Z.eqb_eq in E as ->. by rewrite <- !(assoc_L (++)).
Qed.

(** What a reader is given: the characters up to the end of the line, or as
    many as it asked for. *)
Definition line_of (n : nat) (input text rest : list Z) : Prop :=
  ∃ l e, input = l ++ e ++ rest ∧ Forall (λ ch, ch ≠ 10 ∧ ch ≠ 13) l ∧
    (e = [] ∧ length l = n ∧ text = l ∨ (e = [10] ∨ e = [13]) ∧ (length l < n)%nat ∧ text = l ++ [10]).

Lemma con_read_loop n : ∀ u ue input output text rest,
  uio_ok u ue → uio_rw u = UIO_READ → uio_resid u = Z.of_nat n → line_of n input text rest →
  con_io_loop n u ue input output = Done (0, (deliver u ue text).1, (deliver u ue text).2, rest, output).
Proof.
  induction n as [|n IH]; intros u ue input output text rest Hok Hrw Hr (l & e & -> & Hl & He).
  { destruct He as [(-> & Hlen & ->)|(_ & ? & _)]; [|lia]. apply nil_length_inv in Hlen as ->.
    cbn [con_io_loop]. rewrite Hr. change (Z.of_nat 0) with 0. cbn [Z.gtb Z.compare app]. by rewrite deliver_nil. }
  cbn [con_io_loop]. destruct (Z.gtb_spec (uio_resid u) 0); [|lia]. rewrite decide_True by done.
  assert (Hmove : ∀ ch, uiomove [ch] 1 u ue = Done (0, [ch], (deliver u ue [ch]).1, (deliver u ue [ch]).2)).
  { intros ch. apply (uiomove_deliver [ch] []); [done|done|cbn; lia]. }
  destruct Hl as [|ch l [H10 H13] Hl].
  - destruct He as [(_ & Hlen & _)|(He & _ & ->)]; [done|]. destruct He as [->| ->]; cbn [app Z.eqb Pos.eqb]; by rewrite Hmove.
  - cbn [app]. rewrite (proj2 (Z.eqb_neq ch 13) H13), Hmove. cbn [mbind outcome_bind negb Z.eqb]. rewrite (proj2 (Z.eqb_neq ch 10) H10).
    destruct (deliver_fields u ue [ch] Hok) as (Hr' & _ & Hrw'); [cbn; lia|]. cbn [length] in Hr'.
    assert (∃ text', text = ch :: text' ∧ line_of n (l ++ e ++ rest) text' rest ∧ (length text' ≤ n)%nat) as (text' & -> & Hl' & Hlen').
    { destruct He as [(-> & Hlen & ->)|(He & Hlen & ->)]; cbn in Hlen.
      - exists l. split; [done|]. split; [|lia]. exists l, []. split; [done|]. split; [done|]. left. split; [done|]. split; [lia|done].
      - exists (l ++ [10]). split; [done|]. split; [|rewrite length_app; cbn; lia]. exists l, e. split; [done|]. split; [done|]. right. split; [done|]. split; [lia|done]. }
    rewrite (IH _ _ _ output text' rest); [|apply deliver_ok; [done|cbn; lia]|congruence|lia|done].
    change (ch :: text') with ([ch] ++ text'). rewrite deliver_app; [done|done|cbn; lia].
Qed.

(** Writing to con prints the bytes of the caller, each end of line as
    the two characters the terminal wants, and uses up the whole request. *)
Theorem con_write_prints u ue input output :
  uio_ok u ue → uio_rw u = UIO_WRITE →
  con_io u ue input output =
    Done (0, consume u (uio_resid u), ue, input, output ++ printed (source u ue (Z.to_nat (uio_resid u)))).
Proof.
  intros Hok Hrw. pose proof Hok as ((Hr & _) & _). unfold con_io.
  rewrite con_write_loop by (done || lia). by rewrite Z2Nat.id by lia.
Qed.

(** Reading from con gives a line: the characters typed up to and with
    the end of the line, as a newline whether return or newline was typed, or
    the first ones when the line is longer than the request; what was typed
    after them is left for the next reader. *)
Theorem con_read_line u ue input output text rest :
  uio_ok u ue → uio_rw u = UIO_READ → line_of (Z.to_nat (uio_resid u)) input text rest →
  con_io u ue input output = Done (0, (deliver u ue text).1, (deliver u ue text).2, rest, output).
Proof. intros Hok Hrw Hl. pose proof Hok as ((Hr & _) & _). apply con_read_loop; [done|done|lia|done]. Qed.
