(* ===== verification/ConsoleDemo.v ===== *)
(** * A serial card

    A card that takes three looks to send a character meets the requirements
    of Console; the theorems there are applied to it. *)

From S2P Require Import Prelude Bytes Mem Uio Console.

Record card := Card {
  k_writing : wstate;
  k_left : nat;            (* looks until the character is out *)
  k_received : option Z;
  k_taken : list Z;
}.

Definition tick (c : card) : card :=
  match k_writing c, (k_left c `min` 3)%nat with
  | Sending, S (S n) => Card Sending (S n) (k_received c) (k_taken c)
  | Sending, _ => Card Sent 0 (k_received c) (k_taken c)
  | _, _ => c
  end.

#[global] Instance card_registers : SerialCard card := {
  bus_read_register r c :=
    if r =? LSER_REG_WIRQ then
      let c := tick c in (if decide (k_writing c = Sent) then 3 else 1, c)
    else if r =? LSER_REG_RIRQ then (match k_received c with Some _ => 3 | None => 1 end, c)
    else (default 0 (k_received c), c);
  bus_write_register r v c :=
    if r =? LSER_REG_CHAR then Card Sending 3 (k_received c) (k_taken c ++ [Z.land v 0xff])
    else if r =? LSER_REG_WIRQ then
      Card (if decide (k_writing c = Sent) then Idle else k_writing c) (k_left c) (k_received c) (k_taken c)
    else Card (k_writing c) (k_left c) None (k_taken c);
}.

Definition later (c c' : card) : Prop :=
  k_taken c' = k_taken c ∧ (k_writing c' = k_writing c ∨ k_writing c = Sending ∧ k_writing c' = Sent) ∧
  (k_received c' = k_received c ∨ k_received c = None).

Lemma tick_later c : later c (tick c).
Proof.
  unfold tick. destruct c as [[] n r t]; cbn; [| |]; try (split; [done|]; split; by left).
  destruct (n `min` 3)%nat as [|[|]]; (split; [done|]; split; [|by left]); auto.
Qed.

#[global] Instance card_laws : SerialLaws card.
Proof.
  refine {| writing := k_writing; received := k_received; taken := k_taken; passes := later;
            char_time := 3; patience := λ c, (k_left c `min` 3)%nat |}.
  - by intros c c' (? & _).
  - by intros c c' (_ & ? & _).
  - by intros c c' (_ & _ & ?).
  - intros c Hw. exists (Card Sent 0 (k_received c) (k_taken c)). split; [|done]. split; [done|]. split; [by right|by left].
  - intros r c. cbn. destruct (r =? _); [apply tick_later|]. assert (later c c) by (split; [done|]; split; by left).
    by destruct (r =? _).
  - intros c. cbn. destruct (decide (k_writing (tick c) = Sent)) as [E|E]; cbn; split; done.
  - intros c. cbn. destruct (k_received c); cbn; split; done.
  - intros c ch Hr. cbn. by rewrite Hr.
  - intros [w n r t] Hw. cbn in *. subst w. unfold tick. cbn. destruct (n `min` 3)%nat as [|[|k]] eqn:E; cbn; [by left..|right; lia].
  - intros c. lia.
  - intros ch c Hw. split; done.
  - intros c. split; [done|]. cbn. intros Hw. destruct (decide (k_writing c = Sent)); [done|]. by destruct (k_writing c).
  - intros c. split; [done|by left].
Defined.

(** ** The theorems at work

    hi was printed before there was a console; its first character is on its
    way, and another thread prints a line with interrupts off. *)
Definition demo_boot : world card :=
  World (config_con (config_lser (Card Idle 0 None []))) [flush_delay_buf false 0 [104; 105]] [] [].

Definition demo_spawned (w : world card) : world card :=
  World (w_con w) (w_threads w ++ [program [Put false 1 111; Put false 1 107]]) (w_sent w) (w_got w).

Definition run_all (l : list nat) (w : world card) : option (world card) :=
  foldl (λ o i, w ← o; match run_thread (S (@char_time card _ _)) i w with Done (Some w') => Some w' | _ => None end) (Some w) l.

Lemma run_all_reach l : ∀ w w', run_all l w = Some w' → rtc step w w'.
Proof.
  induction l as [|i l IH] using rev_ind; intros w w' Hrun; [injection Hrun as <-; constructor|].
  unfold run_all in Hrun. rewrite foldl_app in Hrun. cbn [foldl] in Hrun. fold (run_all l w) in Hrun.
  destruct (run_all l w) as [w1|] eqn:E; [|done]. cbn [mbind option_bind] in Hrun.
  destruct (run_thread _ i w1) as [[w2|]| | |] eqn:E2; try done. injection Hrun as <-.
  eapply rtc_r; [by apply IH|by apply (st_run i)].
Qed.

Lemma demo_booted : booted demo_boot.
Proof. by exists (Card Idle 0 None []), false, 0, [104; 105]. Qed.

Definition demo_world : world card := default demo_boot (run_all [0; 0; 1]%nat (demo_spawned demo_boot)).

Lemma demo_reachable : reachable demo_world.
Proof.
  exists demo_boot. split; [exact demo_booted|]. eapply rtc_l; [exact (st_start [Put false 1 111; Put false 1 107] demo_boot)|].
  apply (run_all_reach [0; 0; 1]%nat). vm_compute. reflexivity.
Qed.


Lemma console_progress_witness :
  cs_wsem (w_con demo_world) = 0 ∧ ∃ w', rtc step demo_world w' ∧ 0 < cs_wsem (w_con w').
Proof. split; [vm_compute; reflexivity|exact (console_progress demo_world demo_reachable)]. Defined.

Lemma con_write_prints_witness :
  con_io (mk_kuio [97; 10] 2 0 UIO_WRITE) (Uenv ∅ None) [] [] =
    Done (0, consume (mk_kuio [97; 10] 2 0 UIO_WRITE) 2, Uenv ∅ None, [], [97; 13; 10]).
Proof.
  refine (con_write_prints (mk_kuio [97; 10] 2 0 UIO_WRITE) (Uenv ∅ None) [] [] _ eq_refl).
  split; [cbn; lia|]. split; [cbn; lia|]. split; [reflexivity|]. cbn. split; [reflexivity|]. cbn. lia.
Defined.

Lemma con_read_line_witness :
  con_io (mk_kuio [0; 0; 0; 0] 4 0 UIO_READ) (Uenv ∅ None) [104; 105; 13; 120] [] =
    Done (0, (deliver (mk_kuio [0; 0; 0; 0] 4 0 UIO_READ) (Uenv ∅ None) [104; 105; 10]).1, Uenv ∅ None, [120], []).
Proof.
  refine (con_read_line (mk_kuio [0; 0; 0; 0] 4 0 UIO_READ) (Uenv ∅ None) [104; 105; 13; 120] [] [104; 105; 10] [120] _ eq_refl _).
  - split; [cbn; lia|]. split; [cbn; lia|]. split; [reflexivity|]. cbn. split; [reflexivity|]. cbn. lia.
  - exists [104; 105], [13]. split; [reflexivity|]. split; [repeat constructor; lia|]. right. split; [right; reflexivity|]. split; [cbn; lia|reflexivity].
Defined.
