(* ===== verification/Kgets.v ===== *)
(** * Reading a line (kern/lib/kgets.c)

    The line editor of the kernel: the characters typed come from a list,
    what is printed goes to one.  The theorems: the buffer never overflows
    and ends up with the line as a line editor on lists leaves it, and the
    terminal shows that line all the while. *)

From S2P Require Import Prelude Bytes CString.

(** putch of a character, or beep. *)
Inductive shown := Ch (ch : Z) | Beep.

Record typing := K {
  buf : list Z;
  pos : Z;
  out : list shown;        (* the oldest first *)
}.

Definition put (l : list Z) (k : typing) : typing := K (buf k) (pos k) (out k ++ (Ch <$> l)).
Definition set_pos (p : Z) (k : typing) : typing := K (buf k) p (out k).

Definition backsp (k : typing) : typing := put [8; 32; 8] k.

(** while (pos > 0) *)
Fixpoint erase_line (n : nat) (k : typing) : typing :=
  match n with
  | O => k
  | S n => if pos k >? 0 then erase_line n (set_pos (pos k - 1) (backsp k)) else k
  end.

(** while (pos > 0 && buf[pos-1] is, or is not, a space) *)
Fixpoint erase_while (n : nat) (space : bool) (k : typing) : outcome typing :=
  match n with
  | O => Done k
  | S n =>
      if pos k >? 0 then
        c ← fetch (buf k) (pos k - 1) 1;
        if Bool.eqb (bool_decide (c = [32])) space
        then erase_while n space (set_pos (pos k - 1) (backsp k))
        else Done k
      else Done k
  end.

(** A turn of the loop for a key that does not end it. *)
Definition kgets_key (maxlen ch : Z) (k : typing) : outcome typing :=
  if (ch >=? 32) && (ch <? 127) && (pos k <? u32 (maxlen - 1)) then
    let k := put [ch] k in
    b ← patch (buf k) (pos k) [ch];
    Done (K b (pos k + 1) (out k))
  else if ((ch =? 8) || (ch =? 127)) && (pos k >? 0) then
    Done (set_pos (pos k - 1) (backsp k))
  else if ch =? 18 then
    b ← patch (buf k) (pos k) [0];
    n ← strlen b;
    Done (put ([94; 82; 10] ++ take (Z.to_nat n) b) (K b (pos k) (out k)))
  else if ch =? 21 then
    Done (erase_line (Z.to_nat (pos k)) k)
  else if ch =? 23 then
    k ← erase_while (Z.to_nat (pos k)) true k;
    erase_while (Z.to_nat (pos k)) false k
  else Done (K (buf k) (pos k) (out k ++ [Beep])).

(** The result is the state and what was typed after the line. *)
Fixpoint kgets_loop (maxlen : Z) (input : list Z) (k : typing) : outcome (typing * list Z) :=
  match input with
  | [] => Diverge
  | ch :: input =>
      if (ch =? 10) || (ch =? 13) then Done (put [10] k, input)
      else if ch =? 3 then Done (set_pos 0 (put [94; 67; 10] k), input)
      else k ← kgets_key maxlen ch k; kgets_loop maxlen input k
  end.

(** ^C is tried after the keys that store or erase a character, none of
    which it is. *)
Definition kgets (b : list Z) (maxlen : Z) (input : list Z) : outcome (typing * list Z) :=
  '(k, input) ← kgets_loop maxlen input (K b 0 []);
  b ← patch (buf k) (pos k) [0];
  Done (K b (pos k) (out k), input).

(** ** The line editor on lists *)

(** Drop the characters at the head that are spaces, or that are not. *)
Fixpoint drop_while (space : bool) (r : list Z) : list Z :=
  match r with
  | c :: r' => if Bool.eqb (c =? 32) space then drop_while space r' else r
  | [] => []
  end.
Definition without_word (l : list Z) : list Z := rev (drop_while false (drop_while true (rev l))).

Definition edit (maxlen : Z) (l : list Z) (ch : Z) : list Z :=
  if (ch >=? 32) && (ch <? 127) && (Z.of_nat (length l) <? maxlen - 1) then l ++ [ch]
  else if (ch =? 8) || (ch =? 127) then removelast l
  else if ch =? 21 then []
  else if ch =? 23 then without_word l
  else l.

(** ** The terminal

    The line the cursor is on and the place of the cursor in it. *)
Record term := Term { cells : list Z; cursor : nat }.

Definition show (t : term) (x : shown) : term :=
  match x with
  | Beep => t
  | Ch c =>
      if c =? 8 then Term (cells t) (cursor t - 1)
      else if c =? 10 then Term [] 0
      else Term (take (cursor t) (cells t) ++ c :: drop (S (cursor t)) (cells t)) (S (cursor t))
  end.
Definition screen (l : list shown) : term := foldl show (Term [] 0) l.

(** ** The state and the line *)

Definition on_screen (t : term) (l : list Z) : Prop := take (cursor t) (cells t) = l ∧ cursor t = length l.

Lemma show_char t l c : on_screen t l → c ≠ 8 → c ≠ 10 → on_screen (show t (Ch c)) (l ++ [c]).
Proof.
  intros [Ht Hc] H8 H10. unfold show. rewrite (proj2 (Z.eqb_neq c 8) H8), (proj2 (Z.eqb_neq c 10) H10). split; cbn.
  - rewrite Ht, Hc. replace (S (length l)) with (length (l ++ [c])) by (rewrite length_app; cbn; lia).
    rewrite (cons_middle c l (drop _ _)), (assoc_L (++)). apply take_app_length.
  - rewrite length_app. cbn. lia.
Qed.

Lemma show_chars t l m : on_screen t l → Forall (λ c, 32 ≤ c < 127) m → on_screen (foldl show t (Ch <$> m)) (l ++ m).
Proof.
  intros Ht Hm. revert t l Ht. induction Hm as [|c m Hc Hm IH]; intros t l Ht; cbn [fmap list_fmap foldl]; [by rewrite app_nil_r|].
  rewrite (cons_middle c l m), (assoc_L (++)). apply IH, show_char; [done|lia|lia].
Qed.

Lemma show_backsp t l c : on_screen t (l ++ [c]) → on_screen (foldl show t (Ch <$> [8; 32; 8])) l.
Proof.
  intros [Ht Hc]. rewrite length_app in Hc. cbn in Hc. cbn -[take drop]. rewrite Hc in *. replace (length l + 1 - 1)%nat with (length l) by lia.
  split; cbn -[take drop].
  - rewrite Nat.sub_0_r. rewrite take_app_le by (rewrite length_take; assert (length (take (length l + 1) (cells t)) = (length l + 1)%nat) by (rewrite Ht, length_app; done); rewrite length_take in *; lia).
    rewrite take_take, Nat.min_id. apply (f_equal (take (length l))) in Ht. rewrite take_take, take_app_length in Ht.
    by replace (length l `min` (length l + 1))%nat with (length l) in Ht by lia.
  - lia.
Qed.

Section Line.
Context (maxlen : Z) (Hmax : 1 ≤ maxlen < 2 ^ 32).

(** The buffer holds the line up to [pos], and the terminal shows it. *)
Record typed (l : list Z) (k : typing) : Prop := {
  ty_len : Z.of_nat (length (buf k)) = maxlen;
  ty_pos : pos k = Z.of_nat (length l);
  ty_room : Z.of_nat (length l) ≤ maxlen - 1;
  ty_buf : take (length l) (buf k) = l;
  ty_chars : Forall (λ c, 32 ≤ c < 127) l;
  ty_screen : on_screen (screen (out k)) l;
}.

Lemma typed_backsp l c k : typed (l ++ [c]) k → typed l (set_pos (pos k - 1) (backsp k)).
Proof.
  intros [Hlen Hp Hr Hb Hc Hs]. rewrite length_app in *. cbn in *. split; cbn; [done|lia|lia| | |].
  - apply (f_equal (take (length l))) in Hb. rewrite take_take, take_app_length in Hb.
    by replace (length l `min` (length l + 1))%nat with (length l) in Hb by lia.
  - by apply Forall_app in Hc as [? _].
  - unfold screen. rewrite foldl_app. by eapply show_backsp.
Qed.

Lemma typed_put l c k :
  typed l k → 32 ≤ c < 127 → Z.of_nat (length l) < maxlen - 1 →
  ∃ b, patch (buf k) (pos k) [c] = Done b ∧ typed (l ++ [c]) (K b (pos k + 1) (out (put [c] k))).
Proof.
  intros [Hlen Hp Hr Hb Hc Hs] H32 Hroom. rewrite patch_run by (cbn; lia). eexists. split; [done|].
  rewrite Hp, Nat2Z.id in *. assert (length (l ++ [c]) = S (length l)) as Hla by (rewrite length_app; cbn; lia).
  split; cbn -[take drop splice]; rewrite ?Hla; [rewrite splice_length; cbn; lia|lia|lia| | |].
  - unfold splice. rewrite Hb, (assoc_L (++)), <- Hla. apply take_app_length.
  - apply Forall_app. split; [done|]. by apply Forall_singleton.
  - unfold screen. rewrite foldl_app. apply show_char; [done|lia|lia].
Qed.

(** buf[pos] = 0 *)
Lemma typed_end l k : typed l k → ∃ b, patch (buf k) (pos k) [0] = Done b ∧ cstr b l ∧ typed l (K b (pos k) (out k)).
Proof.
  intros [Hlen Hp Hr Hb Hc Hs]. rewrite patch_run by (cbn; lia). eexists. split; [done|]. rewrite Hp, Nat2Z.id in *. split.
  - exists (drop (length l + 1) (buf k)). unfold splice. rewrite Hb. split; [done|]. intros [i Hi]%list_elem_of_lookup.
    pose proof (Forall_lookup_1 _ _ _ _ Hc Hi) as H32. cbn in H32. lia.
  - split; cbn -[take drop splice]; [rewrite splice_length; cbn; lia|done|done| |done|done].
    unfold splice. rewrite Hb. apply take_app_length.
Qed.

Lemma split_last (l : list Z) : l = [] ∨ ∃ m c, l = m ++ [c].
Proof. destruct l as [|c m _] using rev_ind; [by left|right; by exists m, c]. Qed.

Lemma typed_erase_line n : ∀ l k, typed l k → length l = n → typed [] (erase_line n k).
Proof.
  induction n as [|n IH]; intros l k Hk Hn; [by apply nil_length_inv in Hn as ->|]. cbn [erase_line].
  destruct (split_last l) as [->|(m & c & ->)]; [done|]. rewrite length_app in Hn. cbn in Hn.
  rewrite (ty_pos _ _ Hk), length_app. cbn [length]. destruct (Z.gtb_spec (Z.of_nat (length m + 1)) 0); [|lia].
  replace (Z.of_nat (length m + 1)) with (pos k) by (rewrite (ty_pos _ _ Hk), length_app; done).
  apply (IH m); [by eapply typed_backsp|lia].
Qed.

Lemma fetch_last l c k : typed (l ++ [c]) k → fetch (buf k) (pos k - 1) 1 = Done [c].
Proof.
  intros [Hlen Hp Hr Hb _ _]. rewrite length_app in *. cbn in *. rewrite fetch_run by lia.
  replace (Z.to_nat (pos k - 1)) with (length l) by lia. f_equal. unfold slice. change (Z.to_nat 1) with 1%nat.
  rewrite take_drop_commute, Hb. by rewrite drop_app_length.
Qed.

Lemma typed_erase_while n space : ∀ l k,
  typed l k → length l = n → ∃ k', erase_while n space k = Done k' ∧ typed (rev (drop_while space (rev l))) k'.
Proof.
  induction n as [|n IH]; intros l k Hk Hn; [apply nil_length_inv in Hn as ->; by exists k|]. cbn [erase_while].
  destruct (split_last l) as [->|(m & c & ->)]; [done|]. rewrite length_app in Hn. cbn in Hn.
  destruct (Z.gtb_spec (pos k) 0); [|pose proof (ty_pos _ _ Hk) as Hp; rewrite length_app in Hp; cbn in Hp; lia].
  rewrite (fetch_last _ _ _ Hk). cbn [mbind outcome_bind]. rewrite rev_app_distr. cbn [rev app drop_while].
  assert (bool_decide ([c] = [32]) = (c =? 32)) as ->.
  { destruct (Z.eqb_spec c 32) as [->|Hne]; [by apply bool_decide_eq_true|apply bool_decide_eq_false; congruence]. }
  destruct (Bool.eqb (c =? 32) space).
  - apply (IH m); [by eapply typed_backsp|lia].
  - exists k. split; [done|]. cbn. by rewrite rev_involutive.
Qed.

(** One key. *)
Lemma typed_key l k ch :
  typed l k → ch ≠ 3 → ∃ k', kgets_key maxlen ch k = Done k' ∧ typed (edit maxlen l ch) k'.
Proof.
  intros Hk H3. pose proof Hk as [Hlen Hp Hr Hb Hc Hs]. unfold kgets_key, edit. rewrite Hp, u32_id by lia.
  destruct ((ch >=? 32) && (ch <? 127) && (Z.of_nat (length l) <? maxlen - 1)) eqn:E1.
  { destruct (typed_put l ch k Hk) as (b & Hrun & Hk'); [lia..|]. cbn [buf pos put]. rewrite Hrun. by eexists. }
  destruct ((ch =? 8) || (ch =? 127)) eqn:E2; cbn [andb].
  { destruct (split_last l) as [->|(m & c & ->)].
    - cbn. replace (ch =? 18) with false by lia. replace (ch =? 21) with false by lia. replace (ch =? 23) with false by lia.
      eexists. split; [done|]. split; cbn; try done. unfold screen. by rewrite foldl_app.
    - rewrite removelast_last, length_app. cbn [length]. destruct (Z.gtb_spec (Z.of_nat (length m + 1)) 0); [|lia].
      eexists. split; [done|]. apply typed_backsp in Hk. by rewrite Hp, length_app in Hk. }
  destruct (Z.eqb_spec ch 18) as [->|H18].
  { cbn [Z.eqb Pos.eqb]. destruct (typed_end l k Hk) as (b & Hrun & Hstr & Hk'). rewrite Hp in Hrun, Hk'. rewrite Hrun. cbn [mbind outcome_bind].
    rewrite (strlen_spec _ _ Hstr). cbn [mbind outcome_bind]. eexists. split; [done|]. destruct Hk' as [? ? ? Hb' ? ?]. cbn in Hb'.
    rewrite Nat2Z.id, Hb'. split; cbn [buf pos out put]; try done. unfold screen. rewrite foldl_app, fmap_app, foldl_app.
    apply (show_chars _ [] l); [|done]. by split. }
  destruct (Z.eqb_spec ch 21) as [->|H21]; [eexists; split; [done|]; apply (typed_erase_line _ l); [done|lia]|].
  destruct (Z.eqb_spec ch 23) as [->|H23].
  { rewrite Nat2Z.id. destruct (typed_erase_while (length l) true l k Hk eq_refl) as (k1 & -> & Hk1). cbn [mbind outcome_bind].
    rewrite (ty_pos _ _ Hk1), Nat2Z.id.
    destruct (typed_erase_while _ false _ k1 Hk1 eq_refl) as (k2 & -> & Hk2). exists k2. split; [done|]. by rewrite rev_involutive in Hk2. }
  eexists. split; [done|]. split; cbn; try done. unfold screen. by rewrite foldl_app.
Qed.

Lemma typed_keys keys : ∀ l k e rest,
  typed l k → Forall (λ ch, ch ≠ 10 ∧ ch ≠ 13 ∧ ch ≠ 3) keys →
  ∃ k', typed (foldl (edit maxlen) l keys) k' ∧
    kgets_loop maxlen (keys ++ e :: rest) k = kgets_loop maxlen (e :: rest) k'.
Proof.
  induction keys as [|ch keys IH]; intros l k e rest Hk Hkeys; [by exists k|].
  apply Forall_cons_iff in Hkeys as [(H10 & H13 & H3) Hkeys]. cbn [app kgets_loop foldl].
  rewrite (proj2 (Z.eqb_neq ch 10) H10), (proj2 (Z.eqb_neq ch 13) H13), (proj2 (Z.eqb_neq ch 3) H3). cbn [orb].
  destruct (typed_key l k ch Hk H3) as (k1 & -> & Hk1). cbn [mbind outcome_bind]. by apply IH.
Qed.
End Line.


