(* ===== verification/Catlock.v ===== *)
(** * Cats and mice (kern/asst1/catlock.c)

    Six cats and two mice eat four times each from two bowls; a bowl is a
    lock, and a cat waits while a mouse eats and a mouse while a cat does.
    Each animal is at a place of its thread's function; the threads run
    interleaved, one access to shared memory or one operation on a lock or a
    condition variable at a time.  A lock is its holder and a sleeper on a
    condition variable is at the place [Sleeping], which is what Synch makes
    of them (SystemTheorems).

    A bowl feeds one animal at a time and the counts of the eating cats and
    mice are right.  The counts are tested without a lock that protects them,
    however: runs are given in which a cat and a mouse eat at once, and in
    which a cat sleeps for ever. *)

From S2P Require Import Prelude.

Definition NCATS : nat := 6.
Definition NMICE : nat := 2.

Inductive kind := Cat | Mouse.
Inductive bowl := First | Second.
#[global] Instance kind_eq_dec : EqDecision kind.
Proof. solve_decision. Defined.
#[global] Instance bowl_eq_dec : EqDecision bowl.
Proof. solve_decision. Defined.

(** The places of catlock and mouselock. *)
Inductive place :=
  | TestFirst                (* first_bowl->holder == NULL *)
  | TestSecond               (* second_bowl->holder == NULL *)
  | TakeBowl (b : bowl)      (* lock_acquire(bowl) *)
  | TestOthers (b : bowl)    (* while (others_eating_num != 0) *)
  | CvWait (b : bowl)        (* cv_wait(cv, bowl): releases the bowl *)
  | Sleeping (b : bowl)
  | Woken (b : bowl)         (* takes the bowl again *)
  | TakeNum (b : bowl)       (* lock_acquire(num_change_lock) *)
  | Increment (b : bowl)     (* eating_num++ *)
  | DropNum (b : bowl)
  | StartEating (b : bowl)   (* lock_eat, first kprintf *)
  | Eating (b : bowl)        (* clocksleep, second kprintf *)
  | TakeNum2 (b : bowl)
  | Decrement (b : bowl)     (* eating_num-- *)
  | DropNum2 (b : bowl)
  | DropBowl (b : bowl)      (* lock_release(bowl) *)
  | TestNone (b : bowl)      (* eating_num == 0 *)
  | Broadcast (b : bowl)     (* cv_broadcast of the others *)
  | Left.
#[global] Instance place_eq_dec : EqDecision place.
Proof. solve_decision. Defined.

Record animal := Animal { a_kind : kind; a_num : Z; a_ctr : Z; a_place : place }.

(** The holders of the locks, by the number of the thread, and the counts. *)
Record world := World {
  w_bowl : bowl → option nat;
  w_numlock : kind → option nat;
  w_eating : kind → Z;
  w_animals : list animal;
}.

Definition other (k : kind) : kind := match k with Cat => Mouse | Mouse => Cat end.

(** catmouselock, once the locks have been made. *)
Definition catmouselock : world :=
  World (λ _, None) (λ _, None) (λ _, 0)
    (((λ i, Animal Cat (Z.of_nat i) 0 TestFirst) <$> seq 0 NCATS) ++
     ((λ i, Animal Mouse (Z.of_nat i) 0 TestFirst) <$> seq 0 NMICE)).

Definition set_fun `{EqDecision A} {B} (x : A) (y : B) (f : A → B) : A → B := λ z, if decide (z = x) then y else f z.

Definition move (p : place) (a : animal) : animal := Animal (a_kind a) (a_num a) (a_ctr a) p.

(** for (ctr = 0; ctr < 4; ctr++): after a meal; with both bowls taken the
    turn is not counted. *)
Definition next_turn (counted : bool) (a : animal) : animal :=
  let ctr := if counted then a_ctr a + 1 else a_ctr a in
  Animal (a_kind a) (a_num a) ctr (if ctr <? 4 then TestFirst else Left).

(** The sleepers on the condition variable of the animals of kind [k]. *)
Definition wake (k : kind) (a : animal) : animal :=
  if decide (a_kind a = k) then match a_place a with Sleeping b => move (Woken b) a | _ => a end else a.

(** One step of thread [i]; None when it has to wait or has left. *)
Definition turn (i : nat) (w : world) : option world :=
  a ← w_animals w !! i;
  let k := a_kind a in
  let go p w := Some (World (w_bowl w) (w_numlock w) (w_eating w) (<[i := move p a]> (w_animals w))) in
  let bowl_to b x w := World (set_fun b x (w_bowl w)) (w_numlock w) (w_eating w) (w_animals w) in
  let num_to x w := World (w_bowl w) (set_fun k x (w_numlock w)) (w_eating w) (w_animals w) in
  let count n w := World (w_bowl w) (w_numlock w) (set_fun k n (w_eating w)) (w_animals w) in
  match a_place a with
  | TestFirst => go (match w_bowl w First with None => TakeBowl First | Some _ => TestSecond end) w
  | TestSecond =>
      match w_bowl w Second with
      | None => go (TakeBowl Second) w
      | Some _ => Some (World (w_bowl w) (w_numlock w) (w_eating w) (<[i := next_turn false a]> (w_animals w)))
      end
  | TakeBowl b =>
      match w_bowl w b with None => go (TestOthers b) (bowl_to b (Some i) w) | Some _ => None end
  | TestOthers b => go (if w_eating w (other k) =? 0 then TakeNum b else CvWait b) w
  | CvWait b => go (Sleeping b) (bowl_to b None w)
  | Sleeping _ => None
  | Woken b =>
      match w_bowl w b with None => go (TestOthers b) (bowl_to b (Some i) w) | Some _ => None end
  | TakeNum b => match w_numlock w k with None => go (Increment b) (num_to (Some i) w) | Some _ => None end
  | Increment b => go (DropNum b) (count (w_eating w k + 1) w)
  | DropNum b => go (StartEating b) (num_to None w)
  | StartEating b => go (Eating b) w
  | Eating b => go (TakeNum2 b) w
  | TakeNum2 b => match w_numlock w k with None => go (Decrement b) (num_to (Some i) w) | Some _ => None end
  | Decrement b => go (DropNum2 b) (count (w_eating w k - 1) w)
  | DropNum2 b => go (DropBowl b) (num_to None w)
  | DropBowl b => go (TestNone b) (bowl_to b None w)
  | TestNone b =>
      if w_eating w k =? 0 then go (Broadcast b) w
      else Some (World (w_bowl w) (w_numlock w) (w_eating w) (<[i := next_turn true a]> (w_animals w)))
  | Broadcast b =>
      Some (World (w_bowl w) (w_numlock w) (w_eating w)
              (wake (other k) <$> <[i := next_turn true a]> (w_animals w)))
  | Left => None
  end.

Definition step (w w' : world) : Prop := ∃ i, turn i w = Some w'.
Definition reachable (w : world) : Prop := rtc step catmouselock w.

(** ** Where an animal holds what *)

Definition has_bowl (b : bowl) (p : place) : bool :=
  match p with
  | TestOthers c | CvWait c | TakeNum c | Increment c | DropNum c | StartEating c | Eating c
  | TakeNum2 c | Decrement c | DropNum2 c | DropBowl c => bool_decide (b = c)
  | _ => false
  end.
Definition has_num (p : place) : bool :=
  match p with Increment _ | DropNum _ | Decrement _ | DropNum2 _ => true | _ => false end.
Definition counted (p : place) : bool :=
  match p with DropNum _ | StartEating _ | Eating _ | TakeNum2 _ | Decrement _ => true | _ => false end.

Definition counts (k : kind) (l : list animal) : Z :=
  foldr (λ a n, (if bool_decide (a_kind a = k) && counted (a_place a) then 1 else 0) + n) 0 l.

Record inv (w : world) : Prop := {
  i_bowl b i : w_bowl w b = Some i ↔ ∃ a, w_animals w !! i = Some a ∧ has_bowl b (a_place a) = true;
  i_num k i : w_numlock w k = Some i ↔ ∃ a, w_animals w !! i = Some a ∧ a_kind a = k ∧ has_num (a_place a) = true;
  i_count k : w_eating w k = counts k (w_animals w);
}.

(** A lock of a thread that moves: it keeps it or not, takes it, or gives it
    back. *)
Definition lock_change (i : nat) (had has : bool) (before after : option nat) : Prop :=
  has = had ∧ after = before ∨
  had = false ∧ has = true ∧ before = None ∧ after = Some i ∨
  had = true ∧ has = false ∧ after = None.

Lemma holder_change (P : animal → bool) (l : list animal) i a a' before after :
  l !! i = Some a → (∀ j, before = Some j ↔ ∃ x, l !! j = Some x ∧ P x = true) →
  lock_change i (P a) (P a') before after →
  ∀ j, after = Some j ↔ ∃ x, <[i := a']> l !! j = Some x ∧ P x = true.
Proof.
  intros Hi Hb Hch j. pose proof (lookup_lt_Some _ _ _ Hi) as Hlt. destruct (decide (j = i)) as [->|Hne].
  - rewrite list_lookup_insert_eq by done. specialize (Hb i). rewrite Hi in Hb.
    destruct Hch as [[E ->]|[(_ & E & _ & ->)|(_ & E & ->)]].
    + rewrite Hb. split; intros (x & [= <-] & Hx); eexists; (split; [done|congruence]).
    + split; [intros _; by exists a'|done].
    + split; [done|]. intros (x & [= <-] & Hx). congruence.
  - rewrite list_lookup_insert_ne by done. destruct Hch as [[_ ->]|[(_ & _ & -> & ->)|(E & _ & ->)]]; [apply Hb|..].
    + split; [intros [= ->]; done|]. intros Hx. by apply Hb in Hx.
    + split; [done|]. intros Hx%Hb. assert (before = Some i) by (apply Hb; by exists a). congruence.
Qed.

Lemma counts_insert k l i a a' :
  l !! i = Some a →
  counts k (<[i := a']> l) = counts k l - (if bool_decide (a_kind a = k) && counted (a_place a) then 1 else 0)
                             + (if bool_decide (a_kind a' = k) && counted (a_place a') then 1 else 0).
Proof.
  revert i. induction l as [|x l IH]; intros [|i] Hi; [done|done| |].
  - injection Hi as ->. change (<[0%nat := a']> (a :: l)) with (a' :: l). cbn [counts foldr]. fold (counts k l). lia.
  - change (<[S i := a']> (x :: l)) with (x :: <[i := a']> l). cbn [counts foldr]. fold (counts k l) (counts k (<[i := a']> l)).
    rewrite (IH i Hi). lia.
Qed.

Lemma inv_move w i a a' wb wn we :
  inv w → w_animals w !! i = Some a → a_kind a' = a_kind a →
  (∀ b, lock_change i (has_bowl b (a_place a)) (has_bowl b (a_place a')) (w_bowl w b) (wb b)) →
  (∀ k, if decide (k = a_kind a) then lock_change i (has_num (a_place a)) (has_num (a_place a')) (w_numlock w k) (wn k)
        else wn k = w_numlock w k) →
  (∀ k, we k = w_eating w k + (if decide (k = a_kind a) then Z.b2z (counted (a_place a')) - Z.b2z (counted (a_place a)) else 0)) →
  inv (World wb wn we (<[i := a']> (w_animals w))).
Proof.
  intros [Hb Hn Hc] Hi Hk Cb Cn Ce. split; cbn [w_bowl w_numlock w_eating w_animals].
  - intros b. apply (holder_change (λ x, has_bowl b (a_place x)) _ _ a a' (w_bowl w b)); done.
  - intros k j. specialize (Cn k).
    transitivity (∃ x, <[i := a']> (w_animals w) !! j = Some x ∧ bool_decide (a_kind x = k) && has_num (a_place x) = true).
    2:{ split; intros (x & Hx & Hy); exists x; (split; [done|]);
          [by apply andb_true_iff in Hy as [Hy%bool_decide_eq_true ?]|apply andb_true_iff; by rewrite bool_decide_eq_true]. }
    apply (holder_change (λ x, bool_decide (a_kind x = k) && has_num (a_place x)) _ _ a a' (w_numlock w k)); [done| |].
    + intros j'. rewrite Hn. split; intros (x & Hx & Hy); exists x; (split; [done|]);
        [apply andb_true_iff; by rewrite bool_decide_eq_true|by apply andb_true_iff in Hy as [Hy%bool_decide_eq_true ?]].
    + rewrite Hk. destruct (decide (k = a_kind a)) as [->|Hne]; [by rewrite bool_decide_eq_true_2 by done|].
      rewrite bool_decide_eq_false_2 by done. by left.
  - intros k. rewrite Ce, Hc, (counts_insert _ _ _ _ a' Hi), Hk. destruct (decide (k = a_kind a)) as [->|Hne].
    + rewrite bool_decide_eq_true_2 by done. cbn. destruct (counted (a_place a)), (counted (a_place a')); cbn; lia.
    + rewrite bool_decide_eq_false_2 by done. cbn. lia.
Qed.

Lemma wake_same k a :
  a_kind (wake k a) = a_kind a ∧ (∀ b, has_bowl b (a_place (wake k a)) = has_bowl b (a_place a)) ∧
  has_num (a_place (wake k a)) = has_num (a_place a) ∧ counted (a_place (wake k a)) = counted (a_place a).
Proof. unfold wake. destruct (decide _); [|done]. by destruct (a_place a) eqn:E; rewrite ?E. Qed.

Lemma animals_wake w k : inv w → inv (World (w_bowl w) (w_numlock w) (w_eating w) (wake k <$> w_animals w)).
Proof.
  intros [Hb Hn Hc]. split; cbn [w_bowl w_numlock w_eating w_animals].
  - intros b i. rewrite Hb, list_lookup_fmap. split.
    + intros (a & -> & Ha). exists (wake k a). split; [done|]. destruct (wake_same k a) as (_ & E & _). by rewrite E.
    + destruct (w_animals w !! i) as [a|]; cbn; intros (x & [=<-] & Hx). exists a. split; [done|].
      destruct (wake_same k a) as (_ & E & _). by rewrite E in Hx.
  - intros k' i. rewrite Hn, list_lookup_fmap. split.
    + intros (a & -> & Hk & Ha). exists (wake k a). split; [done|]. destruct (wake_same k a) as (E1 & _ & E2 & _). by rewrite E1, E2.
    + destruct (w_animals w !! i) as [a|]; cbn; intros (x & [=<-] & Hx). exists a. split; [done|].
      destruct (wake_same k a) as (E1 & _ & E2 & _). by rewrite E1, E2 in Hx.
  - intros k'. rewrite Hc. clear. induction (w_animals w) as [|a l IH]; [done|]. cbn [fmap list_fmap counts foldr].
    fold (counts k' l). change (foldr _ 0 (wake k <$> l)) with (counts k' (wake k <$> l)). rewrite IH.
    destruct (wake_same k a) as (-> & _ & _ & ->). done.
Qed.

Lemma next_turn_place c a :
  a_kind (next_turn c a) = a_kind a ∧ (∀ b, has_bowl b (a_place (next_turn c a)) = false) ∧
  has_num (a_place (next_turn c a)) = false ∧ counted (a_place (next_turn c a)) = false.
Proof. unfold next_turn. cbn. by destruct (_ <? 4). Qed.

(** What is left of [inv_move] when everything has been computed. *)
Ltac by_places :=
  repeat match goal with
  | |- ∀ _, _ => intros ?
  | |- context [set_fun] => unfold set_fun
  | |- context [decide (?x = ?y)] => destruct (decide (x = y)); subst
  | |- context [bool_decide (?x = ?y)] =>
      destruct (decide (x = y)); [rewrite (bool_decide_eq_true_2 (x = y)) by done|rewrite (bool_decide_eq_false_2 (x = y)) by done]
  end;
  first [done | left; split; done | right; left; split_and!; done | right; right; split_and!; done | cbn; lia].

Lemma turn_inv i w w' : inv w → turn i w = Some w' → inv w'.
Proof.
  intros Hinv Hrun. unfold turn in Hrun. destruct (w_animals w !! i) as [a|] eqn:Hi; [|done]. cbn [mbind option_bind] in Hrun.
  pose proof (next_turn_place true a) as (T1 & T2 & T3 & T4). pose proof (next_turn_place false a) as (F1 & F2 & F3 & F4).
  destruct (a_place a) eqn:Hp; cbn [w_bowl w_numlock w_eating w_animals] in Hrun; try done.
  all: repeat match type of Hrun with context [match ?x with _ => _ end] => destruct x eqn:?; try done end; injection Hrun as <-.
  all: try apply (animals_wake (World _ _ _ _)).
  all: destruct w as [wb wn we ws]; cbn [w_bowl w_numlock w_eating w_animals] in *.
  all: eapply (inv_move (World wb wn we ws)); [exact Hinv|exact Hi|done|..]; cbn [a_place move w_bowl w_numlock w_eating w_animals];
    rewrite ?Hp, ?T3, ?T4, ?F3, ?F4; try setoid_rewrite T2; try setoid_rewrite F2; cbn [has_bowl has_num counted].
  all: by_places.
Qed.

Lemma catlock_reachable w : reachable w → inv w.
Proof.
  assert (H0 : inv catmouselock).
  { split.
    - intros b i. split; [done|]. intros (a & Ha & Hb). exfalso. revert Ha Hb. by do 8 (destruct i as [|i]; [intros [= <-]; done|]).
    - intros k i. split; [done|]. intros (a & Ha & _ & Hb). exfalso. revert Ha Hb. by do 8 (destruct i as [|i]; [intros [= <-]; done|]).
    - by intros []. }
  intros Hr. unfold reachable in Hr. induction Hr as [|w0 w1 w [i Hst] _ IH]; [done|]. apply IH. by eapply turn_inv.
Qed.

Lemma counts_nonneg k l : 0 ≤ counts k l.
Proof. induction l as [|a l IH]; [done|]. cbn [counts foldr]. fold (counts k l). destruct (_ && _); lia. Qed.

(** Animals that are counted are at a bowl. *)
Definition at_bowl (b : bowl) (l : list animal) : Z := foldr (λ a n, (if has_bowl b (a_place a) then 1 else 0) + n) 0 l.

Lemma counts_at_bowl k l : counts k l ≤ at_bowl First l + at_bowl Second l.
Proof.
  induction l as [|a l IH]; [done|]. cbn [counts at_bowl foldr]. fold (counts k l) (at_bowl First l) (at_bowl Second l).
  assert (Hc : counted (a_place a) = true → has_bowl First (a_place a) = true ∨ has_bowl Second (a_place a) = true).
  { destruct (a_place a) as [| |[]|[]|[]|[]|[]|[]|[]|[]|[]|[]|[]|[]|[]|[]|[]|[]|]; cbn; auto. }
  destruct (counted (a_place a)); [|rewrite andb_false_r; destruct (has_bowl First _), (has_bowl Second _); lia].
  destruct (Hc eq_refl) as [-> | ->]; destruct (bool_decide _); cbn [andb]; repeat case_match; lia.
Qed.

Lemma at_bowl_one b l :
  (∀ i j x y, l !! i = Some x → l !! j = Some y → has_bowl b (a_place x) = true → has_bowl b (a_place y) = true → i = j) →
  at_bowl b l ≤ 1.
Proof.
  induction l as [|a l IH]; intros Hu; [done|]. cbn [at_bowl foldr]. fold (at_bowl b l).
  assert (IH' : at_bowl b l ≤ 1).
  { apply IH. intros i j x y Hx Hy Hbx Hby. by injection (Hu (S i) (S j) x y Hx Hy Hbx Hby). }
  destruct (has_bowl b (a_place a)) eqn:Ha; [|lia]. assert (at_bowl b l = 0); [|lia].
  assert (Hnone : ∀ j y, l !! j = Some y → has_bowl b (a_place y) = false).
  { intros j y Hy. destruct (has_bowl b (a_place y)) eqn:E; [|done]. by pose proof (Hu 0%nat (S j) a y eq_refl Hy Ha E). }
  clear -Hnone. induction l as [|y l IH]; [done|]. cbn [at_bowl foldr]. fold (at_bowl b l). rewrite (Hnone 0%nat y eq_refl).
  rewrite IH; [done|]. intros j. apply (Hnone (S j)).
Qed.

(** ** Properties *)

(** A bowl feeds one animal at a time, and the counts the animals go by
    are those of the cats and of the mice that are eating. *)
Theorem catlock_exclusive w :
  reachable w →
  (∀ b i j x y, w_animals w !! i = Some x → w_animals w !! j = Some y →
     has_bowl b (a_place x) = true → has_bowl b (a_place y) = true → i = j) ∧
  ∀ k, w_eating w k = counts k (w_animals w) ∧ 0 ≤ w_eating w k ≤ 2.
Proof.
  intros [Hb Hn Hc]%catlock_reachable.
  assert (Hu : ∀ b i j x y, w_animals w !! i = Some x → w_animals w !! j = Some y →
    has_bowl b (a_place x) = true → has_bowl b (a_place y) = true → i = j).
  { intros b i j x y Hx Hy Hbx Hby. assert (w_bowl w b = Some i) by (apply Hb; by exists x).
    assert (w_bowl w b = Some j) by (apply Hb; by exists y). congruence. }
  split; [exact Hu|]. intros k. split; [apply Hc|]. rewrite Hc. split; [apply counts_nonneg|].
  pose proof (counts_at_bowl k (w_animals w)). pose proof (at_bowl_one First _ (Hu First)). pose proof (at_bowl_one Second _ (Hu Second)). lia.
Qed.

(** The threads run in the order of the list; a thread that has to wait is
    passed over. *)
Definition schedule (l : list nat) (w : world) : world := foldl (λ w i, default w (turn i w)) w l.

Lemma schedule_reachable l : reachable (schedule l catmouselock).
Proof.
  unfold reachable. generalize catmouselock. induction l as [|i l IH]; intros w; [constructor|]. cbn [schedule foldl].
  destruct (turn i w) as [w'|] eqn:E; cbn [default]; [|apply IH]. eapply rtc_l; [by exists i|apply IH].
Qed.

(** C40: A cat and a mouse can eat at the same time: the cat tests that no
    mouse eats, the mouse that no cat does, and only then are they counted. *)
Theorem catlock_eat_together : ∃ w x y,
  reachable w ∧ w_animals w !! 0%nat = Some x ∧ w_animals w !! 6%nat = Some y ∧
  a_kind x = Cat ∧ a_place x = Eating First ∧ a_kind y = Mouse ∧ a_place y = Eating Second.
Proof.
  pose (l := [0; 0; 0; 6; 6; 6; 6; 0; 0; 0; 0; 6; 6; 6; 6]%nat).
  exists (schedule l catmouselock). do 2 eexists. split; [apply schedule_reachable|]. vm_compute. split_and!; reflexivity.
Qed.

(** A cat can sleep for ever: between its test and its sleep the mice eat
    for the last time and wake nobody; when all the others have left nothing
    wakes it any more. *)
Theorem catlock_sleeps_for_ever : ∃ w x,
  reachable w ∧ w_animals w !! 0%nat = Some x ∧ a_place x = Sleeping Second ∧
  (∀ i y, w_animals w !! i = Some y → i ≠ 0%nat → a_place y = Left) ∧ ∀ w', ¬ step w w'.
Proof.
  pose (l := replicate 7 6%nat ++ replicate 4 0%nat ++ replicate 100 6%nat ++ replicate 100 7%nat ++
             (seq 1 5 ≫= replicate 100) ++ [0%nat]).
  assert (E : w_animals (schedule l catmouselock) = Animal Cat 0 0 (Sleeping Second) ::
    ((λ i, Animal Cat (Z.of_nat i) 4 Left) <$> seq 1 5) ++ ((λ i, Animal Mouse (Z.of_nat i) 4 Left) <$> seq 0 2)) by (vm_compute; reflexivity).
  revert E. generalize (schedule_reachable l). generalize (schedule l catmouselock). clear l. intros w Hr E.
  exists w. rewrite E. eexists. split; [exact Hr|]. split; [done|]. split; [done|]. split.
  - intros i y Hy Hi. do 8 (destruct i as [|i]; [by try (injection Hy as <-)|]). done.
  - intros w' [i Hst]. unfold turn in Hst. rewrite E in Hst. by do 8 (destruct i as [|i]; [done|]).
Qed.

Lemma catlock_exclusive_witness : ∃ w,
  reachable w ∧ w_eating w Cat = counts Cat (w_animals w) ∧ w_eating w Cat = 1.
Proof.
  exists (schedule (replicate 7 0%nat) catmouselock). split; [exact (schedule_reachable _)|]. split; [|vm_compute; reflexivity].
  exact (proj1 (proj2 (catlock_exclusive _ (schedule_reachable (replicate 7 0%nat))) Cat)).
Defined.
