(* ===== verification/Trap.v ===== *)
(** * Traps and system calls (kern/arch/mips/mips/trap.c,
      kern/arch/mips/mips/syscall.c)

    How the processor enters the kernel and gets back: mips_trap, the
    dispatch of system calls, and the calls read, write and __time.  The
    memory is that of Vm and Exec; the console is the characters typed and
    printed.  The calls that concern threads (fork, getpid, waitpid, _exit)
    are modelled over the state of the thread system in Process and
    interrupts in System; here they are an interface, [Kernel].  The checks
    that the trap frame is on the kernel stack of the thread are left out. *)

From S2P Require Import Prelude Ram Bytes Mem CString Uio Vm VmSpec Exec.

(** The numbers of kern/include/kern/callno.h and the exception codes. *)
Definition SYS__exit : Z := 0.
Definition SYS_execv : Z := 1.
Definition SYS_fork : Z := 2.
Definition SYS_waitpid : Z := 3.
Definition SYS_read : Z := 5.
Definition SYS_write : Z := 6.
Definition SYS_reboot : Z := 8.
Definition SYS_sbrk : Z := 10.
Definition SYS_getpid : Z := 11.
Definition SYS___time : Z := 28.

Definition EX_IRQ : Z := 0.
Definition EX_MOD : Z := 1.
Definition EX_TLBL : Z := 2.
Definition EX_TLBS : Z := 3.
Definition EX_IBE : Z := 6.
Definition EX_DBE : Z := 7.
Definition EX_SYS : Z := 8.
Definition NTRAPCODES : Z := 13.

Definition CCA_CODE : Z := 0x3c.
Definition CCA_CODESHIFT : Z := 2.

Definition STDIN_FILENO : Z := 0.
Definition STDOUT_FILENO : Z := 1.
Definition STDERR_FILENO : Z := 2.

(** The machine, what has been typed and not yet read, what has been
    printed, and curthread->t_pcb.pcb_badfaultfunc. *)
Record system (H F : Type) := System {
  sy_machine : machine H F;
  sy_typed : list Z;
  sy_printed : list Z;
  sy_badfault : option Z;
}.
Arguments System {H F} _ _ _ _.
Arguments sy_machine {H F} _.
Arguments sy_typed {H F} _.
Arguments sy_printed {H F} _.
Arguments sy_badfault {H F} _.

(** An error code and the value for the program. *)
Abbreviation answer := (Z * Z)%type.

Class Kernel (H F : Type) := {
  sys_reboot : Z → system H F → outcome (Z * system H F);
  sys_fork : trapframe → system H F → outcome (answer * system H F);
  sys_getpid : system H F → outcome (answer * system H F);
  sys_waitpid : Z → Z → Z → system H F → outcome (answer * system H F);
  sys__exit : Z → system H F → outcome (system H F);        (* the thread is gone *)
  sys_sbrk : Z → system H F → outcome (answer * system H F);
  mips_interrupt : Z → system H F → outcome (system H F);
  gettime : system H F → Z * Z;
}.

(** Where a trap ends: back in the code that was interrupted, in a new
    program, or with the end of the thread. *)
Inductive resume (S : Type) :=
  | Returns (tf : trapframe) (s : S)
  | Enters (tf : trapframe) (s : S)
  | Gone (s : S).
Arguments Returns {S} _ _.
Arguments Enters {S} _ _.
Arguments Gone {S} _.

Section Trap.
Context {H F : Type} `{KHeap H} `{RamHeap H} `{!Programs H F} `{!Kernel H F}.
Implicit Types (s : system H F) (m : machine H F) (tf : trapframe).

Definition set_machine m s : system H F := System m (sy_typed s) (sy_printed s) (sy_badfault s).
Definition sy_vm s : vm H := mc_vm (sy_machine s).
Definition sy_set_vm (v : vm H) s : system H F := set_machine (set_vm v (sy_machine s)) s.
Definition curspl s : Z := v_spl (sy_vm s).
Definition set_curspl (spl : Z) s : system H F := sy_set_vm (set_spl spl (sy_vm s)) s.
Definition sy_heap s : H := v_heap (sy_vm s).
Definition sy_set_heap (h : H) s : system H F := sy_set_vm (set_heap h (sy_vm s)) s.

(** ** write, read and __time *)

(** The call runs with interrupts off, so that the text is printed without
    waiting for the console. *)
Definition sys_write (fd buf nbytes : Z) s : outcome (answer * system H F) :=
  if negb (fd =? STDOUT_FILENO) && negb (fd =? STDERR_FILENO) then Done ((EBADF, -1), s)
  else if buf =? 0 then Done ((EFAULT, -1), s)
  else
    let len := u32 (nbytes + 1) in
    '(p, h) ← kmalloc len (sy_heap s);
    match p with
    | None => Fault                       (* the result of kmalloc is used as it is *)
    | Some p =>
        '(status, temp) ← copyin buf (replicate (Z.to_nat len) 0) len (user_of (sy_vm s));
        kassert (negb (unready status buf (sy_vm s)));;
        if negb (status =? 0) then
          h ← kfree p h;
          Done ((EFAULT, -1), sy_set_heap h s)
        else
          temp ← patch temp nbytes [0];
          n ← strlen temp;
          let printed := sy_printed s ++ take (Z.to_nat n) temp in
          h ← kfree p h;
          let s := sy_set_heap h s in
          Done ((0, s32 nbytes), System (sy_machine s) (sy_typed s) printed (sy_badfault s))
    end.

(** The loop over getch: the characters up to [n], or up to a return.  Other
    threads may run meanwhile; what they change is left out. *)
Fixpoint read_chars (n : nat) (typed : list Z) : outcome (list Z * list Z) :=
  match n with
  | O => Done ([], typed)
  | S n =>
      match typed with
      | [] => Diverge                     (* waits for the next key *)
      | ch :: typed =>
          if ch =? 13 then Done ([ch], typed)
          else '(l, typed) ← read_chars n typed; Done (ch :: l, typed)
      end
  end.

Definition sys_read (fd buf buflen : Z) s : outcome (answer * system H F) :=
  if negb (fd =? STDIN_FILENO) then Done ((EBADF, -1), s)
  else if buf =? 0 then Done ((EFAULT, -1), s)
  else
    '(p, h) ← kmalloc (u32 (buflen + 1)) (sy_heap s);
    match p with
    | None => Fault
    | Some p =>
        '(chars, typed) ← read_chars (Z.to_nat (s32 buflen)) (sy_typed s);
        let count := Z.of_nat (length chars) in
        '(status, m) ← vm_copyout (chars ++ [0]) buf (count + 1) (set_vm (set_heap h (sy_vm s)) (sy_machine s));
        h ← kfree p (v_heap (mc_vm m));
        let m := set_vm (set_heap h (mc_vm m)) m in
        let s := System m typed (sy_printed s) (sy_badfault s) in
        if negb (status =? 0) then Done ((EFAULT, -1), s) else Done ((0, count), s)
    end.

Definition sys___time (user_secs user_nsecs : Z) s : outcome (answer * system H F) :=
  let '(secs, nsecs) := gettime s in
  '(result, m) ← (if negb (user_secs =? 0) then vm_copyout (be32 (u32 secs)) user_secs 4 (sy_machine s)
                  else Done (0, sy_machine s));
  if negb (result =? 0) then Done ((EFAULT, -1), set_machine m s)
  else
    '(result, m) ← vm_copyout (be32 nsecs) user_nsecs 4 m;
    if negb (result =? 0) then Done ((EFAULT, -1), set_machine m s)
    else Done ((0, secs), set_machine m s).

(** ** System calls *)

(** The end of mips_syscall. *)
Definition sys_answer (err retval : Z) tf : trapframe :=
  let tf := if negb (err =? 0) then set_tf_a3 1 (set_tf_v0 (u32 err) tf)
            else set_tf_a3 0 (set_tf_v0 (u32 retval) tf) in
  set_tf_epc (u32 (tf_epc tf + 4)) tf.

Definition finish tf (r : answer * system H F) : outcome (resume (system H F)) :=
  let '((err, retval), s) := r in
  kassert (curspl s =? 0);;
  Done (Returns (sys_answer err retval tf) s).

Definition mips_syscall tf s : outcome (resume (system H F)) :=
  kassert (curspl s =? 0);;
  let callno := s32 (tf_v0 tf) in
  let a0 := tf_a0 tf in let a1 := tf_a1 tf in let a2 := tf_a2 tf in
  if callno =? SYS_reboot then '(e, s) ← sys_reboot (s32 a0) s; finish tf ((e, 0), s)
  else if callno =? SYS_write then r ← sys_write (s32 a0) a1 a2 s; finish tf r
  else if callno =? SYS_read then r ← sys_read (s32 a0) a1 a2 s; finish tf r
  else if callno =? SYS_fork then r ← sys_fork tf s; finish tf r
  else if callno =? SYS_getpid then r ← sys_getpid s; finish tf r
  else if callno =? SYS_waitpid then r ← sys_waitpid (s32 a0) a1 (s32 a2) s; finish tf r
  else if callno =? SYS__exit then s ← sys__exit (s32 a0) s; Done (Gone s)
  else if callno =? SYS_execv then
    '(r, m) ← sys_execv a0 a1 (sy_machine s);
    let s := set_machine m s in
    match r with
    | Ok tf => Done (Enters tf s)
    | Err e => finish tf ((e, 0), s)
    end
  else if callno =? SYS___time then r ← sys___time a0 a1 s; finish tf r
  else if callno =? SYS_sbrk then r ← sys_sbrk (s32 a0) s; finish tf r
  else finish tf ((ENOSYS, 0), s).

(** The child of a fork starts here: [data1] is the copy of the frame of its
    parent, [data2] its address space. *)
Definition md_forkentry (data1 : Z) (copied : trapframe) (data2 : Z) s : outcome (resume (system H F)) :=
  h ← kfree data1 (sy_heap s);
  let s := sy_set_heap h s in
  let s := sy_set_vm (as_activate (set_cur data2 (sy_vm s))) s in
  let tf := set_tf_a3 0 (set_tf_v0 0 copied) in
  let tf := set_tf_epc (u32 (tf_epc tf + 4)) tf in
  Done (Enters tf (set_curspl 0 s)).

(** ** Traps *)

Definition trap_code tf : Z := Z.shiftr (Z.land (tf_cause tf) CCA_CODE) CCA_CODESHIFT.
Definition in_kernel tf : bool := Z.land (tf_status tf) CST_KUp =? 0.

(** The label done: the interrupt level of the context that goes on. *)
Definition trap_done (savespl : Z) tf s : outcome (resume (system H F)) := Done (Returns tf (set_curspl savespl s)).

(** After a fault nothing has taken care of. *)
Definition fatal_fault (savespl code : Z) tf s : outcome (resume (system H F)) :=
  if negb (in_kernel tf) then s ← sys__exit code s; Done (Gone s)      (* kill_curthread *)
  else match sy_badfault s with
       | Some f => trap_done savespl (set_tf_epc f tf) s
       | None => Panic
       end.

Definition page_fault (savespl code faulttype : Z) tf s : outcome (resume (system H F)) :=
  '(e, v) ← vm_fault faulttype (tf_vaddr tf) (sy_vm s);
  let s := sy_set_vm v s in
  if e =? 0 then trap_done savespl tf s else fatal_fault savespl code tf s.

Definition mips_trap tf s : outcome (resume (system H F)) :=
  let savespl := curspl s in
  let s := set_curspl SPL_HIGH s in
  let code := trap_code tf in
  kassert (code <? NTRAPCODES);;
  if code =? EX_IRQ then s ← mips_interrupt (tf_cause tf) s; trap_done savespl tf s
  else
    let s := set_curspl savespl s in
    if code =? EX_SYS then
      kassert (curspl s =? 0);;
      r ← mips_syscall tf s;
      match r with
      | Returns tf s => trap_done savespl tf s
      | r => Done r
      end
    else if code =? EX_MOD then page_fault savespl code VM_FAULT_READONLY tf s
    else if code =? EX_TLBL then page_fault savespl code VM_FAULT_READ tf s
    else if code =? EX_TLBS then page_fault savespl code VM_FAULT_WRITE tf s
    else if (code =? EX_IBE) || (code =? EX_DBE) then Panic
    else fatal_fault savespl code tf s.
End Trap.
