(* ===== verification/TrapSpec.v ===== *)
(** * What traps and system calls do

    Page faults resolved or fatal, the registers after a system call, and
    what read and write move. *)

From S2P Require Import Prelude Ram Bytes Mem CString Uio Vm VmSpec Exec ExecSpec Trap.

Section TrapSpec.
Context {H F : Type} `{RamHeapLaws H} `{!Programs H F} `{!Kernel H F}.
Implicit Types (s : system H F) (tf : trapframe) (a : addrspace) (L : list Z).

(** ** Page faults *)

Lemma set_curspl_twice x y s : set_curspl x (set_curspl y s) = set_curspl x s.
Proof. done. Qed.

Lemma set_curspl_same s : set_curspl (curspl s) s = s.
Proof. by destruct s as [[[] ?] ? ? ?]. Qed.

(** The faults a load or a store from a missing page gives. *)
Definition miss_type (code : Z) : option Z :=
  if code =? EX_TLBL then Some VM_FAULT_READ else if code =? EX_TLBS then Some VM_FAULT_WRITE else None.

Lemma miss_trap tf s ft :
  miss_type (trap_code tf) = Some ft → mips_trap tf s = page_fault (curspl s) (trap_code tf) ft tf s.
Proof.
  unfold miss_type, mips_trap. intros Hm. rewrite set_curspl_twice, set_curspl_same.
  destruct (Z.eqb_spec (trap_code tf) EX_TLBL) as [->|]; [injection Hm as <-; done|].
  destruct (Z.eqb_spec (trap_code tf) EX_TLBS) as [->|]; [injection Hm as <-; done|done].
Qed.

(** The system with another TLB. *)
Definition with_tlb (t : tlb) s : system H F := sy_set_vm (set_tlb t (sy_vm s)) s.

Lemma page_fault_run L s a tf ft :
  vm_reach L (sy_vm s) → v_cur (sy_vm s) ≠ 0 → v_spaces (sy_vm s) !! v_cur (sy_vm s) = Some a → loaded a →
  miss_type (trap_code tf) = Some ft → 0 ≤ tf_vaddr tf < 2 ^ 31 → tlb_translate (v_tlb (sy_vm s)) (tf_vaddr tf) = None →
  ∃ t, match translate a (tf_vaddr tf) with
       | Some pa =>
           mips_trap tf s = Done (Returns tf (with_tlb t s)) ∧ tlb_translate t (tf_vaddr tf) = Some pa ∨
           mips_trap tf s = fatal_fault (curspl s) (trap_code tf) tf s ∧
             ∀ i hi lo, v_tlb (sy_vm s) !! i = Some (hi, lo) → tlb_valid lo = true
       | None => mips_trap tf s = fatal_fault (curspl s) (trap_code tf) tf s
       end.
Proof.
  intros Hr Hc Hp Ha Hft Hva Hmiss. destruct (reach_ok L _ Hr) as [Hi _ Ht]. destruct (Ht Hc) as (c & Hsp & Hok).
  rewrite Hp in Hsp. injection Hsp as <-. rewrite (miss_trap tf s ft Hft).
  assert (ft = VM_FAULT_READ ∨ ft = VM_FAULT_WRITE) as Hft'.
  { revert Hft. unfold miss_type. destruct (_ =? _); [intros [= <-]; by left|]. destruct (_ =? _); [intros [= <-]; by right|done]. }
  destruct (vm_fault_run L (sy_vm s) a ft (tf_vaddr tf) Hi Hc Hp Ha Hok Hft' Hva Hmiss) as (e & t & Hrun & _ & Hres).
  exists t. unfold page_fault. rewrite Hrun. cbn [mbind outcome_bind]. fold (with_tlb t s).
  assert (Hsame : with_tlb (v_tlb (sy_vm s)) s = s) by (by destruct s as [[[] ?] ? ? ?]).
  destruct (translate a (tf_vaddr tf)) as [pa|].
  - destruct Hres as [[-> Htr]|(-> & -> & Hfull)]; [left|right].
    + split; [|done]. cbn [Z.eqb]. unfold trap_done. done.
    + split; [|done]. cbn [Z.eqb]. by rewrite Hsame.
  - destruct Hres as [-> ->]. cbn [Z.eqb]. by rewrite Hsame.
Qed.

(** ** System calls *)

Lemma finish_inv tf r x s' :
  finish tf r = Done (Returns x s') → ∃ err retval, x = sys_answer err retval tf ∧ curspl s' = 0.
Proof.
  destruct r as [[err retval] s]. unfold finish. destruct (Z.eqb_spec (curspl s) 0) as [Hc|]; [|done]. cbn.
  intros [= <- <-]. by exists err, retval.
Qed.

Lemma syscall_answers tf s x s' :
  mips_syscall tf s = Done (Returns x s') → ∃ err retval, x = sys_answer err retval tf ∧ curspl s' = 0.
Proof.
  unfold mips_syscall. intros Hrun. apply bind_Done in Hrun as (? & _ & Hrun). cbv zeta in Hrun.
  repeat match type of Hrun with
  | (if ?c then _ else _) = _ => destruct c
  | (_ ≫= _) = _ => apply bind_Done in Hrun as (? & _ & Hrun)
  | (let '(_, _) := ?x in _) = _ => destruct x
  | match ?x with Ok _ => _ | Err _ => _ end = _ => destruct x; [|done]
  end; first [exact (finish_inv _ _ _ _ Hrun) | done].
Qed.
End TrapSpec.

(** ** write *)

(** What printing a buffer as a string shows of it. *)
Fixpoint until_null (x : list Z) : list Z :=
  match x with [] => [] | c :: x => if c =? 0 then [] else c :: until_null x end.

Lemma until_null_cstr x : cstr (x ++ [0]) (until_null x).
Proof.
  induction x as [|c x (rest & E & Hx)]; cbn [until_null app]; [exists []; split; [done|]; by intros ?%elem_of_nil|].
  destruct (Z.eqb_spec c 0) as [->|Hc].
  - exists (x ++ [0]). split; [done|]. by intros ?%elem_of_nil.
  - exists rest. rewrite E. split; [done|]. intros [?|?]%elem_of_cons; [congruence|done].
Qed.

Lemma until_null_take x : take (length (until_null x)) (x ++ [0]) = until_null x.
Proof.
  induction x as [|c x IH]; cbn [until_null app]; [done|]. destruct (c =? 0); [done|]. cbn [length]. rewrite firstn_cons. by f_equal.
Qed.

Section Write.
Context {H F : Type} `{RamHeapLaws H} `{!Programs H F} `{!Kernel H F}.
Implicit Types (s : system H F) (a : addrspace) (L : list Z).

(** The bytes a program has at an address. *)
Definition bytes_at s a (va : Z) (x : list Z) : Prop :=
  ∀ k, (k < length x)%nat → user_byte (sy_vm s) a (va + Z.of_nat k) = x !! k.

Lemma user_read_bytes L s a va n x :
  vm_inv L (sy_vm s) → v_spaces (sy_vm s) !! v_cur (sy_vm s) = Some a → loaded a →
  bytes_at s a va x → (∀ c, va ≤ c < va + Z.of_nat n → is_Some (translate a c)) → (length x ≤ n)%nat →
  let got := user_read n va (ue_mem (user_of (sy_vm s))) in length got = n ∧ take (length x) got = x.
Proof.
  intros Hi Hp Ha Hx Hc Hn got. destruct (user_read_mapped n va (ue_mem (user_of (sy_vm s)))) as [Hlen Hk].
  { by apply (user_mapped L _ a). }
  split; [exact Hlen|]. destruct (user_of_view L _ a Hi Hp Ha) as [Hv _]. apply list_eq. intros k.
  destruct (decide (k < length x)%nat).
  - rewrite lookup_take_lt by done. unfold got. rewrite Hk by lia. rewrite Hv. by apply Hx.
  - rewrite lookup_ge_None_2 by (rewrite length_take; lia). symmetry. apply lookup_ge_None_2. lia.
Qed.

(** A block for the length of a call. *)
Lemma inv_alloc_own L (v : vm H) n :
  vm_inv L v → 0 ≤ n ≤ 2 ^ 31 →
  ∃ r h, kmalloc n (v_heap v) = Done (r, h) ∧ match r with None => True | Some p => vm_inv (p :: L) (set_heap h v) end.
Proof.
  intros Hi Hn. destruct (owns_alloc (v_heap v) _ n (vi_heap _ _ Hi) Hn) as (r & h & Hrun & Hr). exists r, h. split; [done|].
  destruct r as [p|]; [|done]. destruct Hr as [_ Hr].
  apply (inv_change L (p :: L) v _ 0 0 Hi); [|by eapply kmalloc_ram; [apply Hi|..]| |intros q b j Hq _ _; right; by exists b|apply (vi_small _ _ Hi)].
  - cbn. by rewrite <- Permutation_middle.
  - cbn. destruct (kmalloc_ram (v_heap v) n (Some p) h) as (_ & _ & ->); [apply Hi|done|done|]. apply (vi_mem _ _ Hi).
Qed.

Lemma inv_free_own L (v : vm H) p :
  vm_inv (p :: L) v → ∃ h, kfree p (v_heap v) = Done h ∧ vm_inv L (set_heap h v).
Proof.
  intros Hi. pose proof (vi_heap _ _ Hi) as Hh. rewrite <- Permutation_middle in Hh.
  destruct (owns_free _ _ _ Hh) as (h & Hrun & Hown). exists h. split; [done|].
  assert (Hab : ram_above (heap_ram (v_heap v)) (heap_ram h)) by (eapply kfree_ram; [apply Hi| |done]; apply Hh; left).
  apply (inv_change (p :: L) L v _ 0 0 Hi); [done|done| |intros q b j Hq _ _; right; by exists b|apply (vi_small _ _ Hi)].
  cbn. destruct Hab as (_ & _ & ->). apply (vi_mem _ _ Hi).
Qed.

(** The system after a call that printed [text]. *)
Definition printed_to (L : list Z) s (text : list Z) s' : Prop :=
  ∃ h, vm_inv L (set_heap h (sy_vm s)) ∧ s' = System (sy_machine (sy_set_heap h s)) (sy_typed s) (sy_printed s ++ text) (sy_badfault s).

Definition out_fd (fd : Z) : Prop := fd = STDOUT_FILENO ∨ fd = STDERR_FILENO.

Lemma write_opened fd buf n s :
  out_fd fd → 0 < buf → 0 ≤ n < 2 ^ 31 - 1 →
  sys_write fd buf n s =
    ('(p, h) ← kmalloc (n + 1) (sy_heap s);
     match p with
     | None => Fault
     | Some p =>
         '(status, temp) ← copyin buf (replicate (Z.to_nat (n + 1)) 0) (n + 1) (user_of (sy_vm s));
         kassert (negb (unready status buf (sy_vm s)));;
         if negb (status =? 0) then h ← kfree p h; Done ((EFAULT, -1), sy_set_heap h s)
         else
           temp ← patch temp n [0];
           k ← strlen temp;
           let printed := sy_printed s ++ take (Z.to_nat k) temp in
           h ← kfree p h;
           let s := sy_set_heap h s in
           Done ((0, n), System (sy_machine s) (sy_typed s) printed (sy_badfault s))
     end).
Proof.
  intros Hfd Hb Hn. unfold sys_write. rewrite u32_id, s32_id by lia.
  assert (negb (fd =? STDOUT_FILENO) && negb (fd =? STDERR_FILENO) = false) as -> by (destruct Hfd as [->| ->]; done).
  by rewrite (proj2 (Z.eqb_neq buf 0)) by lia.
Qed.

(** write prints the bytes of the buffer up to the first null and says
    that it wrote them all; nothing else changes.  (When the kernel has no
    memory for its copy it uses a null pointer.) *)
Theorem write_prints L s a fd buf x :
  vm_inv L (sy_vm s) → v_spaces (sy_vm s) !! v_cur (sy_vm s) = Some a → loaded a → out_fd fd →
  0 < buf → buf + Z.of_nat (length x) + 1 ≤ USERTOP → bytes_at s a buf x →
  (∀ c, buf ≤ c < buf + Z.of_nat (length x) + 1 → is_Some (translate a c)) →
  sys_write fd buf (Z.of_nat (length x)) s = Fault ∨
  ∃ s', sys_write fd buf (Z.of_nat (length x)) s = Done ((0, Z.of_nat (length x)), s') ∧ printed_to L s (until_null x) s'.
Proof.
  intros Hi Hp Ha Hfd Hb Ht Hx Hc. assert (USERTOP = 2 ^ 31) as HT by done. rewrite write_opened by (done || lia).
  set (n := length x) in *. destruct (inv_alloc_own L (sy_vm s) (Z.of_nat n + 1) Hi) as (r & h & Hal & Hr); [lia|].
  unfold sy_heap. rewrite Hal. cbn [mbind outcome_bind]. destruct r as [p|]; [|by left]. right.
  replace (Z.of_nat n + 1) with (Z.of_nat (n + 1)) by lia. rewrite Nat2Z.id.
  destruct (user_read_bytes L s a buf (n + 1) x Hi Hp Ha Hx) as [Hlen Htake]; [intros c Hcc; apply Hc; lia|lia|].
  rewrite copyin_ok; [|lia|rewrite length_replicate; lia|lia|apply (user_mapped L _ a _ _ Hi Hp Ha); intros c Hcc; apply Hc; lia].
  set (got := user_read (n + 1) buf (ue_mem (user_of (sy_vm s)))) in *.
  rewrite splice_whole by (rewrite length_replicate; lia). cbn [mbind outcome_bind].
  rewrite (unready_loaded _ _ _ _ Hp Ha). cbn [kassert mbind outcome_bind negb Z.eqb].
  rewrite patch_run by (cbn; lia). rewrite Nat2Z.id. cbn [mbind outcome_bind].
  assert (splice got n [0] = x ++ [0]) as ->.
  { unfold splice. fold n in Htake. rewrite Htake. cbn [length]. by rewrite drop_ge, app_nil_r by lia. }
  rewrite (strlen_spec _ _ (until_null_cstr x)). cbn [mbind outcome_bind]. rewrite Nat2Z.id, until_null_take.
  destruct (inv_free_own L _ p Hr) as (h2 & Hfree & Hi2). cbn [v_heap set_heap] in Hfree. rewrite Hfree. cbn [mbind outcome_bind].
  eexists. split; [done|]. by exists h2.
Qed.

Lemma user_read_short n : ∀ va (m : mem) k, (k < n)%nat → m !! (va + Z.of_nat k) = None → (length (user_read n va m) < n)%nat.
Proof.
  induction n as [|n IH]; intros va m k Hk Hm; [lia|]. cbn [user_read]. destruct (m !! va) as [b|] eqn:E; [|cbn; lia].
  destruct k as [|k]; [rewrite Z.add_0_r in Hm; congruence|]. cbn [length]. assert (length (user_read n (va + 1) m) < n)%nat; [|lia].
  apply (IH _ _ k); [lia|]. by replace (va + 1 + Z.of_nat k) with (va + Z.of_nat (S k)) by lia.
Qed.

(** write of a buffer that ends with the memory of the program fails,
    though every byte of the buffer can be read: the call copies one byte
    more than it was asked for. *)
Theorem write_at_end_fails L s a fd buf n :
  vm_inv L (sy_vm s) → v_spaces (sy_vm s) !! v_cur (sy_vm s) = Some a → loaded a → out_fd fd →
  0 < buf → 0 ≤ n → buf + n + 1 ≤ USERTOP → translate a (buf + n) = None →
  sys_write fd buf n s = Fault ∨
  ∃ s', sys_write fd buf n s = Done ((EFAULT, -1), s') ∧ printed_to L s [] s'.
Proof.
  intros Hi Hp Ha Hfd Hb Hn Ht Hu. assert (USERTOP = 2 ^ 31) as HT by done. rewrite write_opened by (done || lia).
  destruct (inv_alloc_own L (sy_vm s) (n + 1) Hi) as (r & h & Hal & Hr); [lia|].
  unfold sy_heap. rewrite Hal. cbn [mbind outcome_bind]. destruct r as [p|]; [|by left]. right.
  unfold copyin. rewrite copycheck_ok by lia. cbn [negb Z.eqb]. rewrite Z.eqb_refl. cbn [negb].
  destruct (user_of_view L _ a Hi Hp Ha) as [Hv _].
  assert (Hshort : (length (user_read (Z.to_nat (n + 1)) buf (ue_mem (user_of (sy_vm s)))) < Z.to_nat (n + 1))%nat).
  { apply (user_read_short _ _ _ (Z.to_nat n)); [lia|]. rewrite Z2Nat.id, Hv by lia. unfold user_byte. by rewrite Hu. }
  rewrite patch_run by (rewrite ?length_replicate; lia). cbn [mbind outcome_bind].
  rewrite (proj2 (Z.eqb_neq (Z.of_nat (length (user_read _ _ _))) (n + 1))) by lia.
  rewrite (unready_loaded _ _ _ _ Hp Ha). cbn [kassert mbind outcome_bind negb].
  destruct (inv_free_own L _ p Hr) as (h2 & Hfree & Hi2). cbn [v_heap set_heap] in Hfree.
  change (EFAULT =? 0) with false. cbn [negb]. rewrite Hfree. cbn [mbind outcome_bind]. eexists. split; [done|]. exists h2. split; [done|].
  rewrite app_nil_r. by destruct s.
Qed.
End Write.

(** ** read *)

(** The characters a read of [n] takes from those typed. *)
Definition line_read (n : nat) (typed chars rest : list Z) : Prop :=
  (typed = chars ++ rest) ∧
  ∃ l, (13 ∉ l) ∧ (chars = l ∧ length l = n ∨ chars = l ++ [13] ∧ (length l < n)%nat).

Lemma read_chars_run n : ∀ typed chars rest,
  line_read n typed chars rest → read_chars n typed = Done (chars, rest).
Proof.
  induction n as [|n IH]; intros typed chars rest (-> & l & Hl & Hc).
  { destruct Hc as [[-> Hn]|[_ ?]]; [|lia]. apply nil_length_inv in Hn as ->. done. }
  cbn [read_chars]. destruct l as [|ch l].
  { destruct Hc as [[_ ?]|[-> _]]; [done|]. done. }
  assert (ch ≠ 13) as Hch by (intros ->; apply Hl; left). assert (13 ∉ l) as Hl' by (intros ?; apply Hl; by right).
  assert (∃ chars', chars = ch :: chars' ∧ line_read n (chars' ++ rest) chars' rest) as (chars' & -> & Hr).
  { destruct Hc as [[-> Hn]|[-> Hn]]; cbn in Hn.
    - exists l. split; [done|]. split; [done|]. exists l. split; [done|]. left. split; [done|lia].
    - exists (l ++ [13]). split; [done|]. split; [done|]. exists l. split; [done|]. right. split; [done|lia]. }
  cbn [app]. rewrite (proj2 (Z.eqb_neq ch 13) Hch), (IH _ _ _ Hr). done.
Qed.

Section Read.
Context {H F : Type} `{RamHeapLaws H} `{!Programs H F} `{!Kernel H F}.
Implicit Types (s : system H F) (a : addrspace) (L : list Z).

(** The system after [x] has been stored at [va] and [rest] is left of what
    was typed. *)
Record stored_at (L : list Z) s a (va : Z) (x rest : list Z) s' : Prop := {
  so_inv : vm_inv L (sy_vm s');
  so_bytes c : user_byte (sy_vm s') a c = over va x (user_byte (sy_vm s) a) c;
  so_spaces : v_spaces (sy_vm s') = v_spaces (sy_vm s) ∧ v_cur (sy_vm s') = v_cur (sy_vm s);
  so_others q b c : v_spaces (sy_vm s) !! q = Some b → loaded b → q ≠ v_cur (sy_vm s) →
    user_byte (sy_vm s') b c = user_byte (sy_vm s) b c;
  so_console : sy_typed s' = rest ∧ sy_printed s' = sy_printed s;
}.

Lemma vm_copyout_run L (v : vm H) (f : F) a x dest :
  vm_inv L v → v_spaces v !! v_cur v = Some a → loaded a → x ≠ [] → 0 ≤ dest → dest + Z.of_nat (length x) ≤ USERTOP →
  (∀ c, dest ≤ c < dest + Z.of_nat (length x) → is_Some (translate a c)) →
  ∃ v', vm_copyout x dest (Z.of_nat (length x)) (Machine v f) = Done (0, Machine v' f) ∧ vm_inv L v' ∧
    stored_as v a (over dest x (user_byte v a)) v'.
Proof.
  intros Hi Hp Ha Hx Hd Ht Hc. unfold vm_copyout. cbn [mc_vm].
  rewrite copyout_ok; [|done|done|done|by apply (user_mapped L v a _ _ Hi Hp Ha)].
  cbn [mbind outcome_bind]. rewrite (unready_loaded _ _ _ _ Hp Ha).
  destruct (user_store L v a dest x Hi Hp Ha Hc) as [Hi1 Hst1]. eexists. split; [done|]. by split.
Qed.

Lemma sys_read_run L s a buf n chars rest :
  vm_inv L (sy_vm s) → v_spaces (sy_vm s) !! v_cur (sy_vm s) = Some a → loaded a →
  0 < buf → 0 ≤ n → buf + n + 1 ≤ USERTOP → (∀ c, buf ≤ c < buf + n + 1 → is_Some (translate a c)) →
  line_read (Z.to_nat n) (sy_typed s) chars rest →
  sys_read STDIN_FILENO buf n s = Fault ∨
  ∃ s', sys_read STDIN_FILENO buf n s = Done ((0, Z.of_nat (length chars)), s') ∧
    stored_at L s a buf (chars ++ [0]) rest s'.
Proof.
  intros Hi Hp Ha Hb Hn Ht Hc Hl. assert (USERTOP = 2 ^ 31) as HT by done.
  assert (Hlen : (length chars ≤ Z.to_nat n)%nat).
  { destruct Hl as (_ & l & _ & [[-> ?]|[-> ?]]); rewrite ?length_app; cbn; lia. }
  unfold sys_read. cbn [negb Z.eqb STDIN_FILENO]. rewrite (proj2 (Z.eqb_neq buf 0)), u32_id, s32_id by lia.
  destruct (inv_alloc_own L (sy_vm s) (n + 1) Hi) as (r & h & Hal & Hr); [lia|]. unfold sy_heap. rewrite Hal. cbn [mbind outcome_bind].
  destruct r as [p|]; [|by left]. right. rewrite (read_chars_run _ _ _ _ Hl). cbn [mbind outcome_bind].
  destruct (vm_copyout_run (p :: L) (set_heap h (sy_vm s)) (mc_files (sy_machine s)) a (chars ++ [0]) buf) as (v' & Hrun & Hi' & Hst);
    [done|done|done|by destruct chars|lia|rewrite length_app; cbn; lia|intros c; rewrite length_app; cbn; intros ?; apply Hc; lia|].
  rewrite length_app in Hrun. cbn [length] in Hrun. replace (Z.of_nat (length chars + 1)) with (Z.of_nat (length chars) + 1) in Hrun by lia.
  change (set_vm (set_heap h (sy_vm s)) (sy_machine s)) with (Machine (set_heap h (sy_vm s)) (mc_files (sy_machine s))). rewrite Hrun. cbn [mbind outcome_bind mc_vm].
  destruct (inv_free_own L v' p Hi') as (h2 & -> & Hi2). cbn [mbind outcome_bind negb Z.eqb].
  destruct Hst as [[y ->] Hs Ho]. eexists. split; [done|]. split; [exact Hi2|exact Hs|done|exact Ho|done].
Qed.
End Read.

(** ** Properties *)

Section Properties.
Context {H F : Type} `{RamHeapLaws H} `{!Programs H F} `{!Kernel H F}.
Implicit Types (s : system H F) (tf : trapframe) (a : addrspace) (L : list Z).

(** C21: A load or store that misses in the TLB.  When the address is in the
    address space of the process the trap returns to the same instruction
    with every register as it was, and the TLB now translates the address as
    the address space does; only the TLB has changed.  Otherwise, or when the
    TLB has no free slot, the process ends with the code of the trap if it
    was in user mode, and in the kernel the trap returns to the recovery
    function that copyin and copyout set, or panics if there is none. *)
Theorem trap_page_fault L s a tf ft :
  vm_reach L (sy_vm s) → v_cur (sy_vm s) ≠ 0 → v_spaces (sy_vm s) !! v_cur (sy_vm s) = Some a → loaded a →
  miss_type (trap_code tf) = Some ft → 0 ≤ tf_vaddr tf < 2 ^ 31 → tlb_translate (v_tlb (sy_vm s)) (tf_vaddr tf) = None →
  (∃ t pa, mips_trap tf s = Done (Returns tf (with_tlb t s)) ∧
     translate a (tf_vaddr tf) = Some pa ∧ tlb_translate t (tf_vaddr tf) = Some pa) ∨
  (translate a (tf_vaddr tf) = None ∨ ∀ i hi lo, v_tlb (sy_vm s) !! i = Some (hi, lo) → tlb_valid lo = true) ∧
  mips_trap tf s =
    if in_kernel tf
    then match sy_badfault s with Some f => Done (Returns (set_tf_epc f tf) s) | None => Panic end
    else s' ← sys__exit (trap_code tf) s; Done (Gone s').
Proof.
  intros Hr Hc Hp Ha Hft Hva Hmiss. destruct (page_fault_run L s a tf ft Hr Hc Hp Ha Hft Hva Hmiss) as [t Ht].
  assert (Hfatal : fatal_fault (curspl s) (trap_code tf) tf s =
    if in_kernel tf then match sy_badfault s with Some f => Done (Returns (set_tf_epc f tf) s) | None => Panic end
    else s' ← sys__exit (trap_code tf) s; Done (Gone s')).
  { unfold fatal_fault, trap_done. rewrite set_curspl_same. by destruct (in_kernel tf). }
  rewrite Hfatal in Ht. destruct (translate a (tf_vaddr tf)) as [pa|].
  - destruct Ht as [[Hrun Htr]|[Hrun Hfull]]; [left; by exists t, pa|right; auto].
  - right. auto.
Qed.


End Properties.
