(* ===== verification/TrapDemo.v ===== *)
(** * Traps of a process

    The theorems of TrapSpec applied to the process of ExecDemo, on a machine
    whose thread system refuses every call. *)

From S2P Require Import Prelude Ram Kheap KheapSpec Bytes Mem CString Uio Vm VmSpec VmDemo Exec ExecSpec ExecTheorems ExecDemo Trap TrapSpec.

#[global] Instance no_threads {H F} : Kernel H F := {
  sys_reboot _ s := Done (ENOSYS, s);
  sys_fork _ s := Done ((ENOSYS, -1), s);
  sys_getpid s := Done ((0, 1), s);
  sys_waitpid _ _ _ s := Done ((ENOSYS, -1), s);
  sys__exit _ s := Done s;
  sys_sbrk _ s := Done ((ENOSYS, -1), s);
  mips_interrupt _ s := Done s;
  gettime s := (0, 0);
}.

Definition demo_system : system (traced ram) disk :=
  System (Machine (demo_state demo_mem) demo_elf) [104; 105; 120] [] None.

(** A load from 0x400010 in user mode. *)
Definition demo_miss : trapframe :=
  Trapframe 0x400010 CST_KUp 8 0 0 0 0 0 0 0 0 0 0 0 0 0 0 0 0 0 0 0 0 0 0 0 0 0 0 0 0 0 0 0 0 0 0x400100.

Lemma trap_page_fault_witness : ∃ s : system (traced ram) disk,
  (∃ t pa, mips_trap demo_miss s = Done (Returns demo_miss (with_tlb t s)) ∧ tlb_translate t 0x400010 = Some pa) ∨
  ∃ s', mips_trap demo_miss s = Done (Gone s').
Proof.
  destruct (demo_machine small_mem small_boot_ok) as (v & _ & a & Hr & _ & Hc & _ & _ & Ha & Hl & Hmiss & _).
  exists (System (Machine v demo_elf) [] [] None).
  destruct (trap_page_fault [] (System (Machine v demo_elf) [] [] None) a demo_miss VM_FAULT_READ Hr Hc Ha Hl eq_refl ltac:(cbn; lia) Hmiss)
    as [(t & pa & Hrun & _ & Ht)|[_ Hrun]].
  - left. exists t, pa. split; [exact Hrun|exact Ht].
  - right. eexists. exact Hrun.
Defined.

Definition idle_system : system (traced ram) disk := System (Machine (small_boot ∅) demo_elf) [] [] None.


Lemma demo_page c : 0x400000 ≤ c < 0x401000 → is_Some (translate demo_process c).
Proof. intros Hc. unfold translate, locate. cbn [as_vbase1 as_npages1 demo_process]. rewrite decide_True by (unfold PAGE_SIZE; lia). eauto. Qed.

Lemma demo_inv : vm_inv [] (sy_vm demo_system) ∧ v_spaces (sy_vm demo_system) !! v_cur (sy_vm demo_system) = Some demo_process ∧ loaded demo_process.
Proof. destruct (demo_state_ok demo_mem demo_boot_ok) as (Hi & _ & Hl). split; [exact Hi|]. split; [exact (demo_state_space demo_mem)|exact Hl]. Qed.

(** The two bytes at 0x400030. *)
Lemma write_prints_witness :
  sys_write 1 0x400030 2 demo_system = Fault ∨
  ∃ s', sys_write 1 0x400030 2 demo_system = Done ((0, 2), s') ∧ printed_to [] demo_system [97; 98] s'.
Proof.
  destruct demo_inv as (Hi & Hp & Hl).
  refine (write_prints [] demo_system demo_process 1 0x400030 [97; 98] Hi Hp Hl _ _ _ _ _).
  - left. reflexivity.
  - reflexivity.
  - discriminate.
  - intros k Hk. cbn [length] in Hk. assert (Hb : ∀ b, [97; 98; 0] !! k = Some b → user_byte (sy_vm demo_system) demo_process (0x400030 + Z.of_nat k) = Some b).
    { intros b Hb. apply (demo_bytes 0x30 [97; 98; 0]); [do 3 right; left; reflexivity|lia|unfold PAGE_SIZE; lia|exact Hb]. }
    destruct k as [|[|k]]; [exact (Hb 97 eq_refl)|exact (Hb 98 eq_refl)|exfalso; lia].
  - intros c Hc. apply demo_page. cbn in Hc. lia.
Defined.

Lemma write_at_end_fails_witness :
  sys_write 1 0x400ff0 16 demo_system = Fault ∨
  ∃ s', sys_write 1 0x400ff0 16 demo_system = Done ((EFAULT, -1), s') ∧ printed_to [] demo_system [] s'.
Proof.
  destruct demo_inv as (Hi & Hp & Hl).
  refine (write_at_end_fails [] demo_system demo_process 1 0x400ff0 16 Hi Hp Hl _ _ _ _ _).
  - left. reflexivity.
  - reflexivity.
  - discriminate.
  - discriminate.
  - reflexivity.
Defined.

