(* ===== verification/Emu.v ===== *)
(** * The emulator file system (kern/dev/lamebus/emu.c)

    Files of the host, reached through a card with registers and a buffer.
    The card is a parameter: its registers, its buffer, and the state it is
    in when it raises its next interrupt.  The driver's semaphore is its
    count and its lock whether it is held; one call runs at a time, so a lock
    that is held already and a semaphore nobody will raise are never got.
    EmuSpec proves what the operations do over a card in good order. *)

From S2P Require Import Prelude KArray Bytes Mem CString Printf Uio.

Definition REG_HANDLE : Z := 0.
Definition REG_OFFSET : Z := 4.
Definition REG_IOLEN : Z := 8.
Definition REG_OPER : Z := 12.
Definition REG_RESULT : Z := 16.

Definition EMU_OP_OPEN : Z := 1.
Definition EMU_OP_CREATE : Z := 2.
Definition EMU_OP_EXCLCREATE : Z := 3.
Definition EMU_OP_CLOSE : Z := 4.
Definition EMU_OP_READ : Z := 5.
Definition EMU_OP_READDIR : Z := 6.
Definition EMU_OP_WRITE : Z := 7.
Definition EMU_OP_GETSIZE : Z := 8.
Definition EMU_OP_TRUNC : Z := 9.

Definition EMU_RES_SUCCESS : Z := 1.
Definition EMU_MAXIO : Z := 16384.
Definition EMU_ROOTHANDLE : Z := 0.
Definition ENFILE : Z := 22.

Class EmuCard (W : Type) := {
  card_rdreg : Z → W → Z;
  card_wreg : Z → Z → W → W;
  card_buf : W → list Z;
  card_setbuf : list Z → W → W;
  card_wait : W → W;
}.

(** ** The hardware level *)

Record emu_softc (W : Type) := Emu {
  e_card : W;
  e_lock : bool;          (* held *)
  e_sem : Z;
  e_result : Z;
}.
Arguments Emu {W} _ _ _ _.
Arguments e_card {W} _.
Arguments e_lock {W} _.
Arguments e_sem {W} _.
Arguments e_result {W} _.

Section Hardware.
Context {W : Type} `{EmuCard W}.
Implicit Types (sc : emu_softc W).

Definition set_card (w : W) sc : emu_softc W := Emu w (e_lock sc) (e_sem sc) (e_result sc).
Definition emu_rreg sc (reg : Z) : Z := card_rdreg reg (e_card sc).
Definition emu_wreg sc (reg val : Z) : emu_softc W := set_card (card_wreg reg val (e_card sc)) sc.

Definition acquire sc : outcome (emu_softc W) :=
  if e_lock sc then Diverge else Done (Emu (e_card sc) true (e_sem sc) (e_result sc)).
Definition release sc : emu_softc W := Emu (e_card sc) false (e_sem sc) (e_result sc).

Definition emu_irq sc : emu_softc W :=
  let result := emu_rreg sc REG_RESULT in
  let sc := emu_wreg sc REG_RESULT 0 in
  Emu (e_card sc) (e_lock sc) (e_sem sc + 1) result.

Definition translate_err (code : Z) : outcome Z :=
  if code =? 1 then Done 0                    (* EMU_RES_SUCCESS *)
  else if (code =? 2) || (code =? 3) || (code =? 5) then Panic   (* BADHANDLE, BADOP, BADSIZE *)
  else if code =? 4 then Done ENOENT          (* BADPATH *)
  else if code =? 6 then Done EEXIST
  else if code =? 7 then Done EISDIR
  else if code =? 8 then Done EIO             (* MEDIA *)
  else if code =? 9 then Done ENFILE          (* NOHANDLES *)
  else if code =? 10 then Done ENOSPC
  else if code =? 11 then Done ENOTDIR
  else if code =? 12 then Done EIO            (* UNKNOWN *)
  else if code =? 13 then Done EUNIMP
  else Done EAGAIN.

(** P(e_sem): sleep until the card interrupts. *)
Definition emu_waitdone sc : outcome (Z * emu_softc W) :=
  let sc := if e_sem sc =? 0 then emu_irq (set_card (card_wait (e_card sc)) sc) else sc in
  let sc := Emu (e_card sc) (e_lock sc) (e_sem sc - 1) (e_result sc) in
  e ← translate_err (e_result sc);
  Done (e, sc).

(** The new handle and whether it is a directory, on success. *)
Definition emu_open sc (handle : Z) (name : list Z) (create excl : bool)
  : outcome (res (Z * bool) * emu_softc W) :=
  n ← strlen name;
  if n + 1 >? EMU_MAXIO then Done (Err ENAMETOOLONG, sc)
  else
    let op := if create && excl then EMU_OP_EXCLCREATE else if create then EMU_OP_CREATE else EMU_OP_OPEN in
    sc ← acquire sc;
    b ← strcpy (card_buf (e_card sc)) name;
    let sc := set_card (card_setbuf b (e_card sc)) sc in
    let sc := emu_wreg sc REG_IOLEN n in
    let sc := emu_wreg sc REG_HANDLE handle in
    let sc := emu_wreg sc REG_OPER op in
    '(result, sc) ← emu_waitdone sc;
    let r := if result =? 0 then Ok (emu_rreg sc REG_HANDLE, emu_rreg sc REG_IOLEN >? 0) else Err result in
    Done (r, release sc).

(** The loop of emu_close, with [retries] tries still to come. *)
Fixpoint close_loop (retries : nat) (handle : Z) sc : outcome (Z * emu_softc W) :=
  let sc := emu_wreg sc REG_HANDLE handle in
  let sc := emu_wreg sc REG_OPER EMU_OP_CLOSE in
  '(result, sc) ← emu_waitdone sc;
  match retries with
  | S retries => if result =? EIO then close_loop retries handle sc else Done (result, sc)
  | O => Done (result, sc)
  end.

Definition emu_close sc (handle : Z) : outcome (Z * emu_softc W) :=
  let mine := e_lock sc in
  sc ← (if negb mine then acquire sc else Done sc);
  '(result, sc) ← close_loop 10 handle sc;
  Done (result, if negb mine then release sc else sc).

Definition set_offset (off : Z) (u : uio) : uio :=
  Uio (iov u) (iov_len u) off (uio_resid u) (uio_segflg u) (uio_rw u) (uio_space u).

Definition emu_doread sc (handle len op : Z) (u : uio) (ue : uenv) : outcome (Z * uio * uenv * emu_softc W) :=
  kassert (bool_decide (uio_rw u = UIO_READ));;
  sc ← acquire sc;
  let sc := emu_wreg sc REG_HANDLE handle in
  let sc := emu_wreg sc REG_IOLEN len in
  let sc := emu_wreg sc REG_OFFSET (u32 (uio_offset u)) in
  let sc := emu_wreg sc REG_OPER op in
  '(result, sc) ← emu_waitdone sc;
  if negb (result =? 0) then Done (result, u, ue, release sc)
  else
    '(result, _, u, ue) ← uiomove (card_buf (e_card sc)) (emu_rreg sc REG_IOLEN) u ue;
    Done (result, set_offset (s32 (emu_rreg sc REG_OFFSET)) u, ue, release sc).

Definition emu_read sc (handle len : Z) (u : uio) (ue : uenv) : outcome (Z * uio * uenv * emu_softc W) :=
  emu_doread sc handle len EMU_OP_READ u ue.
Definition emu_readdir sc (handle len : Z) (u : uio) (ue : uenv) : outcome (Z * uio * uenv * emu_softc W) :=
  emu_doread sc handle len EMU_OP_READDIR u ue.

Definition emu_write sc (handle len : Z) (u : uio) (ue : uenv) : outcome (Z * uio * uenv * emu_softc W) :=
  kassert (bool_decide (uio_rw u = UIO_WRITE));;
  sc ← acquire sc;
  let sc := emu_wreg sc REG_HANDLE handle in
  let sc := emu_wreg sc REG_IOLEN len in
  let sc := emu_wreg sc REG_OFFSET (u32 (uio_offset u)) in
  '(result, b, u, ue) ← uiomove (card_buf (e_card sc)) len u ue;
  let sc := set_card (card_setbuf b (e_card sc)) sc in
  if negb (result =? 0) then Done (result, u, ue, release sc)
  else
    let sc := emu_wreg sc REG_OPER EMU_OP_WRITE in
    '(result, sc) ← emu_waitdone sc;
    Done (result, u, ue, release sc).

Definition emu_getsize sc (handle : Z) : outcome (res Z * emu_softc W) :=
  sc ← acquire sc;
  let sc := emu_wreg sc REG_HANDLE handle in
  let sc := emu_wreg sc REG_OPER EMU_OP_GETSIZE in
  '(result, sc) ← emu_waitdone sc;
  Done (if result =? 0 then Ok (s32 (emu_rreg sc REG_IOLEN)) else Err result, release sc).

Definition emu_trunc sc (handle len : Z) : outcome (Z * emu_softc W) :=
  sc ← acquire sc;
  let sc := emu_wreg sc REG_HANDLE handle in
  let sc := emu_wreg sc REG_IOLEN (u32 len) in
  let sc := emu_wreg sc REG_OPER EMU_OP_TRUNC in
  '(result, sc) ← emu_waitdone sc;
  Done (result, release sc).
End Hardware.

(** ** Vnodes *)

Definition SIZEOF_EMUFS_VNODE : Z := 32.
Definition SIZEOF_LOCK : Z := 8.
Definition COUNTLOCK_NAME : Z := 15.     (* "vnode-countlock" *)
Definition O_ACCMODE : Z := 3.
Definition O_RDONLY : Z := 0.
Definition O_APPEND : Z := 32.
Definition S_IFREG : Z := 0x1000.
Definition S_IFDIR : Z := 0x2000.

(** The function table is chosen by the kind of the file. *)
Record emufs_vnode := EVnode {
  vn_refcount : Z;
  vn_opencount : Z;
  vn_countlock : Z * Z;      (* the lock and its name *)
  ev_isdir : bool;
  ev_handle : Z;
}.

Record emufs_fs (W : Type) := Emufs {
  ef_emu : emu_softc W;
  ef_root : Z;
  ef_vnodes : array Z;
  ef_pool : gmap Z emufs_vnode;
}.
Arguments Emufs {W} _ _ _ _.
Arguments ef_emu {W} _.
Arguments ef_root {W} _.
Arguments ef_vnodes {W} _.
Arguments ef_pool {W} _.

(** What VOP_STAT fills in. *)
Record stat := Stat { st_mode : Z; st_nlink : Z; st_size : Z; st_blocks : Z }.

Section Vnodes.
Context {W H : Type} `{EmuCard W} `{KHeap H}.
Implicit Types (ef : emufs_fs W) (h : H).

Definition set_emu sc ef : emufs_fs W := Emufs sc (ef_root ef) (ef_vnodes ef) (ef_pool ef).
Definition set_vnodes a ef : emufs_fs W := Emufs (ef_emu ef) (ef_root ef) a (ef_pool ef).
Definition set_pool pool ef : emufs_fs W := Emufs (ef_emu ef) (ef_root ef) (ef_vnodes ef) pool.

Definition get_ev (p : Z) ef : outcome emufs_vnode :=
  match ef_pool ef !! p with Some ev => Done ev | None => Fault end.

(** VOP_INCREF. *)
Definition ev_incref (p : Z) ef : outcome (emufs_fs W) :=
  ev ← get_ev p ef;
  Done (set_pool (<[p := EVnode (vn_refcount ev + 1) (vn_opencount ev) (vn_countlock ev) (ev_isdir ev) (ev_handle ev)]> (ef_pool ef)) ef).

(** lock_create and sem_create: the block and the copy of the name. *)
Definition lock_create (namelen : Z) h : outcome (option (Z * Z) * H) :=
  '(l, h) ← kmalloc SIZEOF_LOCK h;
  match l with
  | None => Done (None, h)
  | Some l =>
      '(name, h) ← kmalloc (namelen + 1) h;
      match name with
      | None => h ← kfree l h; Done (None, h)
      | Some name => Done (Some (l, name), h)
      end
  end.

(** VOP_KILL and kfree. *)
Definition ev_kill (p : Z) ef h : outcome (emufs_fs W * H) :=
  ev ← get_ev p ef;
  kassert (vn_refcount ev =? 1);;
  kassert (vn_opencount ev =? 0);;
  h ← kfree (vn_countlock ev).2 h;
  h ← kfree (vn_countlock ev).1 h;
  h ← kfree p h;
  Done (set_pool (delete p (ef_pool ef)) ef, h).

(** The search of the table for a handle, from index [i] on. *)
Fixpoint find_handle (n : nat) (i handle : Z) ef : outcome (option Z) :=
  match n with
  | O => Done None
  | S n =>
      p ← array_getguy (ef_vnodes ef) i;
      ev ← get_ev p ef;
      if ev_handle ev =? handle then Done (Some p) else find_handle n (i + 1) handle ef
  end.

Definition emufs_loadvnode (handle : Z) (isdir : bool) ef h : outcome (res Z * emufs_fs W * H) :=
  sc ← acquire (ef_emu ef);
  let ef := set_emu sc ef in
  let unlock ef := set_emu (release (ef_emu ef)) ef in
  found ← find_handle (Z.to_nat (array_getnum (ef_vnodes ef))) 0 handle ef;
  match found with
  | Some p => ef ← ev_incref p ef; Done (Ok p, unlock ef, h)
  | None =>
      '(p, h) ← kmalloc SIZEOF_EMUFS_VNODE h;
      match p with
      | None => Done (Err ENOMEM, unlock ef, h)
      | Some p =>
          '(l, h) ← lock_create COUNTLOCK_NAME h;
          match l with
          | None => h ← kfree p h; Done (Err ENOMEM, unlock ef, h)
          | Some l =>
              let ef := set_pool (<[p := EVnode 1 0 l isdir handle]> (ef_pool ef)) ef in
              '(result, a, h) ← array_add (ef_vnodes ef) p h;
              let ef := unlock (set_vnodes a ef) in
              if negb (result =? 0) then
                '(ef, h) ← ev_kill p ef h;
                Done (Err result, ef, h)
              else Done (Ok p, ef, h)
          end
      end
  end.

(** The index of a vnode in the table. *)
Fixpoint find_vnode (n : nat) (i p : Z) ef : outcome (option Z) :=
  match n with
  | O => Done None
  | S n =>
      q ← array_getguy (ef_vnodes ef) i;
      if q =? p then Done (Some i) else find_vnode n (i + 1) p ef
  end.

Definition emufs_reclaim (p : Z) ef h : outcome (Z * emufs_fs W * H) :=
  sc ← acquire (ef_emu ef);
  let ef := set_emu sc ef in
  ev ← get_ev p ef;
  if negb (vn_refcount ev =? 1) then Done (EBUSY, set_emu (release (ef_emu ef)) ef, h)
  else
    '(result, sc) ← emu_close (ef_emu ef) (ev_handle ev);
    let ef := set_emu sc ef in
    if negb (result =? 0) then Done (result, set_emu (release (ef_emu ef)) ef, h)
    else
      ix ← find_vnode (Z.to_nat (array_getnum (ef_vnodes ef))) 0 p ef;
      match ix with
      | None => Panic
      | Some ix =>
          a ← array_remove (ef_vnodes ef) ix;
          let ef := set_emu (release (ef_emu ef)) (set_vnodes a ef) in
          '(ef, h) ← ev_kill p ef h;
          Done (0, ef, h)
      end.

(** VOP_DECREF. *)
Definition ev_decref (p : Z) ef h : outcome (emufs_fs W * H) :=
  ev ← get_ev p ef;
  kassert (vn_refcount ev >? 0);;
  if vn_refcount ev >? 1 then
    Done (set_pool (<[p := EVnode (vn_refcount ev - 1) (vn_opencount ev) (vn_countlock ev) (ev_isdir ev) (ev_handle ev)]> (ef_pool ef)) ef, h)
  else
    '(_, ef, h) ← emufs_reclaim p ef h;
    Done (ef, h).

(** ** Operations on files *)

(** emufs_close, emufs_fsync and emufs_sync return 0, emufs_ioctl EINVAL,
    emufs_unmount EBUSY and emufs_getvolname NULL. *)
Definition emufs_open (openflags : Z) : Z := if negb (Z.land openflags O_APPEND =? 0) then EUNIMP else 0.
Definition emufs_opendir (openflags : Z) : Z :=
  if negb (Z.land openflags O_ACCMODE =? O_RDONLY) then EISDIR
  else if negb (Z.land openflags O_APPEND =? 0) then EISDIR else 0.

(** A turn of the loop moves something or is the last one. *)
Fixpoint emufs_read_loop (n : nat) (handle : Z) (u : uio) (ue : uenv) (sc : emu_softc W)
  : outcome (Z * uio * uenv * emu_softc W) :=
  if uio_resid u >? 0 then
    match n with
    | O => Diverge
    | S n =>
        let amt := if uio_resid u >? EMU_MAXIO then EMU_MAXIO else uio_resid u in
        let oldresid := uio_resid u in
        '(result, u, ue, sc) ← emu_read sc handle amt u ue;
        if negb (result =? 0) then Done (result, u, ue, sc)
        else if uio_resid u =? oldresid then Done (0, u, ue, sc)
        else emufs_read_loop n handle u ue sc
    end
  else Done (0, u, ue, sc).

Definition emufs_read (p : Z) (u : uio) (ue : uenv) ef : outcome (Z * uio * uenv * emufs_fs W) :=
  ev ← get_ev p ef;
  kassert (bool_decide (uio_rw u = UIO_READ));;
  '(result, u, ue, sc) ← emufs_read_loop (S (Z.to_nat (uio_resid u))) (ev_handle ev) u ue (ef_emu ef);
  Done (result, u, ue, set_emu sc ef).

Definition emufs_getdirentry (p : Z) (u : uio) (ue : uenv) ef : outcome (Z * uio * uenv * emufs_fs W) :=
  ev ← get_ev p ef;
  kassert (bool_decide (uio_rw u = UIO_READ));;
  let amt := if uio_resid u >? EMU_MAXIO then EMU_MAXIO else uio_resid u in
  '(result, u, ue, sc) ← emu_readdir (ef_emu ef) (ev_handle ev) amt u ue;
  Done (result, u, ue, set_emu sc ef).

Fixpoint emufs_write_loop (n : nat) (handle : Z) (u : uio) (ue : uenv) (sc : emu_softc W)
  : outcome (Z * uio * uenv * emu_softc W) :=
  if uio_resid u >? 0 then
    match n with
    | O => Diverge
    | S n =>
        let amt := if uio_resid u >? EMU_MAXIO then EMU_MAXIO else uio_resid u in
        let oldresid := uio_resid u in
        '(result, u, ue, sc) ← emu_write sc handle amt u ue;
        if negb (result =? 0) then Done (result, u, ue, sc)
        else if uio_resid u =? oldresid then Done (0, u, ue, sc)
        else emufs_write_loop n handle u ue sc
    end
  else Done (0, u, ue, sc).

Definition emufs_write (p : Z) (u : uio) (ue : uenv) ef : outcome (Z * uio * uenv * emufs_fs W) :=
  ev ← get_ev p ef;
  kassert (bool_decide (uio_rw u = UIO_WRITE));;
  '(result, u, ue, sc) ← emufs_write_loop (S (Z.to_nat (uio_resid u))) (ev_handle ev) u ue (ef_emu ef);
  Done (result, u, ue, set_emu sc ef).

(** VOP_GETTYPE by the function table. *)
Definition emufs_gettype (ev : emufs_vnode) : Z := if ev_isdir ev then S_IFDIR else S_IFREG.

Definition emufs_stat (p : Z) ef : outcome (res stat * emufs_fs W) :=
  ev ← get_ev p ef;
  '(r, sc) ← emu_getsize (ef_emu ef) (ev_handle ev);
  Done (match r with Err e => Err e | Ok size => Ok (Stat (emufs_gettype ev) 1 size 0) end, set_emu sc ef).

Definition emufs_tryseek (pos : Z) : Z := if pos <? 0 then EINVAL else 0.

Definition emufs_truncate (p len : Z) ef : outcome (Z * emufs_fs W) :=
  ev ← get_ev p ef;
  '(result, sc) ← emu_trunc (ef_emu ef) (ev_handle ev) len;
  Done (result, set_emu sc ef).

(** emufs_creat and emufs_lookup: open the file at the hardware and load its
    vnode. *)
Definition open_vnode (p : Z) (name : list Z) (create excl : bool) ef h : outcome (res Z * emufs_fs W * H) :=
  ev ← get_ev p ef;
  '(r, sc) ← emu_open (ef_emu ef) (ev_handle ev) name create excl;
  let ef := set_emu sc ef in
  match r with
  | Err e => Done (Err e, ef, h)
  | Ok (handle, isdir) =>
      '(r, ef, h) ← emufs_loadvnode handle isdir ef h;
      match r with
      | Err e =>
          '(_, sc) ← emu_close (ef_emu ef) handle;
          Done (Err e, set_emu sc ef, h)
      | Ok q => Done (Ok q, ef, h)
      end
  end.

Definition emufs_creat (p : Z) (name : list Z) (excl : bool) ef h : outcome (res Z * emufs_fs W * H) :=
  open_vnode p name true excl ef h.
Definition emufs_lookup (p : Z) (pathname : list Z) ef h : outcome (res Z * emufs_fs W * H) :=
  open_vnode p pathname false false ef h.

(** The directory and the last component; [len] is the size of the buffer
    for the latter. *)
Definition emufs_lookparent (p : Z) (pathname : list Z) (len : Z) ef h
  : outcome (res (Z * list Z) * emufs_fs W * H) :=
  s ← strrchr pathname 47;
  match s with
  | None =>
      n ← strlen pathname;
      if n + 1 >? len then Done (Err ENAMETOOLONG, ef, h)
      else
        ef ← ev_incref p ef;
        buf ← strcpy (replicate (Z.to_nat len) 0) pathname;
        Done (Ok (p, buf), ef, h)
  | Some i =>
      pathname ← patch pathname i [0];
      let s := drop (Z.to_nat (i + 1)) pathname in
      n ← strlen s;
      if n + 1 >? len then Done (Err ENAMETOOLONG, ef, h)
      else
        buf ← strcpy (replicate (Z.to_nat len) 0) s;
        '(r, ef, h) ← emufs_lookup p pathname ef h;
        Done (match r with Err e => Err e | Ok q => Ok (q, buf) end, ef, h)
  end.

Definition emufs_namefile (p : Z) ef : Z := if p =? ef_root ef then 0 else EUNIMP.

Definition emufs_getroot ef : outcome (Z * emufs_fs W) :=
  ef ← ev_incref (ef_root ef) ef;
  Done (ef_root ef, ef).

(** ** Attaching the file system *)

Definition SIZEOF_EMUFS_FS : Z := 32.
Definition EMUFS_LOCK_NAME : Z := 10.     (* "emufs-lock" *)
Definition EMUFS_SEM_NAME : Z := 9.       (* "emufs-sem" *)
Definition fmt_emu : list Z := [101; 109; 117; 37; 100; 0].    (* "emu%d" *)

(** [addfs] is vfs_addfs, which puts the file system in the list of
    devices. *)
Definition emufs_addtovfs (addfs : list Z → H → outcome (Z * H)) (sc : emu_softc W) (devname : list Z) h
  : outcome (res (emufs_fs W) * emu_softc W * H) :=
  '(p, h) ← kmalloc SIZEOF_EMUFS_FS h;
  match p with
  | None => Done (Err ENOMEM, sc, h)
  | Some p =>
      '(a, h) ← array_create h;
      match a with
      | None => h ← kfree p h; Done (Err ENOMEM, sc, h)
      | Some a =>
          '(r, ef, h) ← emufs_loadvnode EMU_ROOTHANDLE true (Emufs sc 0 a ∅) h;
          match r with
          | Err e => h ← kfree p h; Done (Err e, ef_emu ef, h)
          | Ok root =>
              let ef := Emufs (ef_emu ef) root (ef_vnodes ef) (ef_pool ef) in
              kassert (negb (root =? 0));;
              '(result, h) ← addfs devname h;
              if negb (result =? 0) then
                '(ef, h) ← ev_decref root ef h;
                h ← kfree p h;
                Done (Err result, ef_emu ef, h)
              else Done (Ok ef, ef_emu ef, h)
          end
      end
  end.

(** The lock and the semaphore start free and at 0. *)
Definition config_emu (addfs : list Z → H → outcome (Z * H)) (w : W) (emuno : Z) h
  : outcome (res (emufs_fs W) * H) :=
  '(l, h) ← lock_create EMUFS_LOCK_NAME h;
  match l with
  | None => Done (Err ENOMEM, h)
  | Some l =>
      '(sem, h) ← lock_create EMUFS_SEM_NAME h;
      match sem with
      | None =>
          h ← kfree l.2 h;
          h ← kfree l.1 h;
          Done (Err ENOMEM, h)
      | Some _ =>
          '(_, name) ← snprintf (replicate 32 0) 32 fmt_emu [VWord emuno];
          '(r, _, h) ← emufs_addtovfs addfs (Emu w false 0 0) name h;
          Done (r, h)
      end
  end.
End Vnodes.
