(* ===== verification/EmuSpec.v ===== *)
(** * The emulator file system: what it does

    [EmuCardLaws] is what the driver relies on of the card when the host
    does what it is asked: registers keep what is written to them, and an
    operation on an open file ends in an interrupt with its result.  A read
    may bring less than was asked for, though not nothing before the end of
    the file; emufs_read goes on until it has everything.

    [table_ok] is the invariant of the table of vnodes, which holds of
    any card: one vnode per handle, each with its blocks on the heap. *)

From S2P Require Import Prelude KArray Bytes Mem CString Uio Emu.

(** The registers the driver sets. *)
Definition settable (r : Z) : Prop := r ∈ [REG_HANDLE; REG_OFFSET; REG_IOLEN; REG_RESULT].

(** The file [d] after [x] is written at offset [o]. *)
Definition write_at (d : list Z) (o : nat) (x : list Z) : list Z :=
  take o (d ++ replicate (o - length d) 0) ++ x ++ drop (o + length x) d.

(** [contents]: the files that are open, by handle. *)
Class EmuCardLaws (W : Type) `{EmuCard W} := {
  card_ok : W → Prop;
  contents : W → gmap Z (list Z);
  card_handle w hd d : card_ok w → contents w !! hd = Some d →
    0 ≤ hd < 2 ^ 32 ∧ Z.of_nat (length d) < 2 ^ 31;
  card_buffer w : card_ok w → Z.of_nat (length (card_buf w)) = EMU_MAXIO;
  wreg_ok r v w : settable r → card_ok w →
    card_ok (card_wreg r v w) ∧ contents (card_wreg r v w) = contents w ∧
    card_buf (card_wreg r v w) = card_buf w ∧ card_rdreg r (card_wreg r v w) = u32 v ∧
    (∀ r', r' ≠ r → card_rdreg r' (card_wreg r v w) = card_rdreg r' w);
  setbuf_ok b w : Z.of_nat (length b) = EMU_MAXIO → card_ok w →
    card_ok (card_setbuf b w) ∧ contents (card_setbuf b w) = contents w ∧ card_buf (card_setbuf b w) = b ∧
    (∀ r, card_rdreg r (card_setbuf b w) = card_rdreg r w);
  op_read w d :
    card_ok w → contents w !! card_rdreg REG_HANDLE w = Some d →
    0 ≤ card_rdreg REG_IOLEN w ≤ EMU_MAXIO → 0 ≤ card_rdreg REG_OFFSET w →
    let w' := card_wait (card_wreg REG_OPER EMU_OP_READ w) in
    let off := card_rdreg REG_OFFSET w in
    let left := Z.max 0 (Z.of_nat (length d) - off) in
    card_ok w' ∧ contents w' = contents w ∧ card_rdreg REG_RESULT w' = EMU_RES_SUCCESS ∧
    let n := card_rdreg REG_IOLEN w' in
    0 ≤ n ≤ Z.min (card_rdreg REG_IOLEN w) left ∧
    (n = 0 → card_rdreg REG_IOLEN w = 0 ∨ left = 0) ∧
    card_rdreg REG_OFFSET w' = off + n ∧
    take (Z.to_nat n) (card_buf w') = slice d (Z.to_nat off) (Z.to_nat n);
  op_write w d :
    card_ok w → contents w !! card_rdreg REG_HANDLE w = Some d →
    0 ≤ card_rdreg REG_IOLEN w ≤ EMU_MAXIO → 0 ≤ card_rdreg REG_OFFSET w →
    card_rdreg REG_OFFSET w + card_rdreg REG_IOLEN w < 2 ^ 31 →
    let w' := card_wait (card_wreg REG_OPER EMU_OP_WRITE w) in
    card_ok w' ∧ card_rdreg REG_RESULT w' = EMU_RES_SUCCESS ∧
    contents w' = <[card_rdreg REG_HANDLE w :=
      write_at d (Z.to_nat (card_rdreg REG_OFFSET w)) (take (Z.to_nat (card_rdreg REG_IOLEN w)) (card_buf w))]> (contents w);
}.

Lemma write_at_app d o x y : write_at (write_at d o x) (o + length x) y = write_at d o (x ++ y).
Proof.
  unfold write_at. set (P := take o (d ++ replicate (o - length d) 0)).
  assert (HP : length P = o) by (unfold P; rewrite length_take, length_app, length_replicate; lia).
  rewrite take_app_le by (rewrite !length_app; lia).
  rewrite (app_assoc P x), take_app_le, take_ge by (rewrite length_app; lia).
  rewrite <- !app_assoc. do 3 f_equal. rewrite app_assoc, drop_app_ge by (rewrite length_app; lia).
  rewrite drop_drop, !length_app. f_equal. lia.
Qed.

Lemma settables : settable REG_HANDLE ∧ settable REG_OFFSET ∧ settable REG_IOLEN ∧ settable REG_RESULT.
Proof. unfold settable. set_solver. Qed.

(** ** Reading and writing *)

Section Transfers.
Context {W : Type} `{EmuCardLaws W}.
Implicit Types (sc : emu_softc W) (u : uio) (ue : uenv) (d : list Z).

(** Nothing is under way. *)
Definition quiet sc : Prop := e_lock sc = false ∧ e_sem sc = 0 ∧ card_ok (e_card sc).
Definition file_of sc : gmap Z (list Z) := contents (e_card sc).

Lemma acquire_run sc : e_lock sc = false → acquire sc = Done (Emu (e_card sc) true (e_sem sc) (e_result sc)).
Proof. intros E. unfold acquire. by rewrite E. Qed.

(** The card finishes with success. *)
Lemma waitdone_run w l r :
  card_rdreg REG_RESULT (card_wait w) = EMU_RES_SUCCESS →
  emu_waitdone (Emu w l 0 r) = Done (0, Emu (card_wreg REG_RESULT 0 (card_wait w)) l 0 EMU_RES_SUCCESS).
Proof. intros E. unfold emu_waitdone, emu_irq, emu_rreg, emu_wreg, set_card. cbn. by rewrite E. Qed.

(** The card with the registers of a transfer set. *)
Lemma setup_card w hd len off :
  card_ok w → 0 ≤ hd < 2 ^ 32 → 0 ≤ len < 2 ^ 32 → 0 ≤ off < 2 ^ 32 →
  let w' := card_wreg REG_OFFSET off (card_wreg REG_IOLEN len (card_wreg REG_HANDLE hd w)) in
  card_ok w' ∧ contents w' = contents w ∧ card_buf w' = card_buf w ∧
  card_rdreg REG_HANDLE w' = hd ∧ card_rdreg REG_IOLEN w' = len ∧ card_rdreg REG_OFFSET w' = off.
Proof.
  intros Hw ???. destruct settables as (Sh & So & Sl & _). cbn zeta.
  destruct (wreg_ok REG_HANDLE hd w Sh Hw) as (W1 & C1 & B1 & R1 & _).
  destruct (wreg_ok REG_IOLEN len _ Sl W1) as (W2 & C2 & B2 & R2 & O2).
  destruct (wreg_ok REG_OFFSET off _ So W2) as (W3 & C3 & B3 & R3 & O3).
  rewrite C3, C2, C1, B3, B2, B1, R3. split_and!; try done.
  - rewrite O3, O2, R1 by done. by apply u32_id.
  - rewrite O3, R2 by done. by apply u32_id.
  - by apply u32_id.
Qed.

Lemma u32_offset u ue : uio_ok u ue → 0 ≤ uio_offset u → u32 (uio_offset u) = uio_offset u ∧ uio_offset u < 2 ^ 31.
Proof. intros (_ & _ & E & _) Ho. pose proof (s32_range (uio_offset u)). rewrite E in *. split; [apply u32_id|]; lia. Qed.

Lemma set_offset_id u : set_offset (uio_offset u) u = u.
Proof. by destruct u. Qed.

(** One request: a piece of the file, empty only at its end. *)
Lemma emu_read_run sc hd d len u ue :
  quiet sc → file_of sc !! hd = Some d → uio_ok u ue → uio_rw u = UIO_READ → 0 ≤ uio_offset u →
  0 < len ≤ EMU_MAXIO → len ≤ uio_resid u →
  ∃ n sc', let x := slice d (Z.to_nat (uio_offset u)) n in
    emu_read sc hd len u ue = Done (0, (deliver u ue x).1, (deliver u ue x).2, sc') ∧
    quiet sc' ∧ file_of sc' = file_of sc ∧ length x = n ∧ Z.of_nat n ≤ len ∧
    (n = 0%nat → Z.of_nat (length d) ≤ uio_offset u).
Proof.
  intros (Hl & Hs & Hw) Hd Hu Hrw Ho Hlen Hres. destruct sc as [w l s r]; cbn in Hl, Hs, Hw; subst l s.
  unfold file_of in *. cbn in Hd. destruct (card_handle _ _ _ Hw Hd) as [Hhd Hd31]. destruct (u32_offset _ _ Hu Ho) as [Eo Ho31].
  unfold EMU_MAXIO in *.
  destruct (setup_card w hd len (uio_offset u)) as (Hw1 & C1 & _ & R1 & R2 & R3); [done|lia..|].
  set (w1 := card_wreg REG_OFFSET _ _) in *.
  destruct (op_read w1 d) as (Hw2 & C2 & R4 & Hn & Hn0 & R5 & B2); try rewrite R1, C1; try rewrite R2; try rewrite R3; unfold EMU_MAXIO; try done; try lia.
  set (w2 := card_wait _) in *. rewrite R2, R3 in *. set (n := card_rdreg REG_IOLEN w2) in *.
  set (x := slice d (Z.to_nat (uio_offset u)) (Z.to_nat n)) in *.
  assert (Hx : length x = Z.to_nat n) by (unfold x, slice; rewrite length_take, length_drop; lia).
  destruct (wreg_ok REG_RESULT 0 w2) as (Hw3 & C3 & B3 & _ & O3); [apply settables|done|].
  exists (Z.to_nat n), (Emu (card_wreg REG_RESULT 0 w2) false 0 EMU_RES_SUCCESS). cbn zeta. fold x.
  split_and!; [|by split_and!|cbn; congruence|done|lia|intros; lia].
  unfold emu_read, emu_doread. rewrite bool_decide_true by done. cbn [kassert mbind outcome_bind].
  rewrite acquire_run by done. cbn [mbind outcome_bind]. unfold emu_wreg, set_card. cbn [e_card e_lock e_sem e_result].
  rewrite Eo. fold w1. rewrite waitdone_run by done. cbn [mbind outcome_bind negb Z.eqb e_card]. fold w2.
  unfold emu_rreg. cbn [e_card]. rewrite O3, O3, B3 by done. fold n.
  rewrite <- (take_drop (Z.to_nat n) (card_buf w2)), B2.
  assert (En : n = Z.of_nat (length x)) by lia. generalize (drop (Z.to_nat n) (card_buf w2)). intros rest.
  replace (uiomove (x ++ rest) n) with (uiomove (x ++ rest) (Z.of_nat (length x))) by congruence.
  rewrite uiomove_deliver by (done || lia). cbn [mbind outcome_bind].
  destruct (deliver_fields u ue x Hu) as (_ & E & _); [lia|].
  rewrite R5. replace (uio_offset u + n) with (uio_offset u + Z.of_nat (length x)) by lia.
  by rewrite <- E, set_offset_id.
Qed.

(** emufs_read loops to the end of the file or of the buffer. *)
Lemma read_loop_run n sc hd d u ue :
  quiet sc → file_of sc !! hd = Some d → uio_ok u ue → uio_rw u = UIO_READ → 0 ≤ uio_offset u →
  (Z.to_nat (uio_resid u) < n)%nat →
  ∃ sc', let x := slice d (Z.to_nat (uio_offset u)) (Z.to_nat (uio_resid u)) in
    emufs_read_loop n hd u ue sc = Done (0, (deliver u ue x).1, (deliver u ue x).2, sc') ∧
    quiet sc' ∧ file_of sc' = file_of sc.
Proof.
  revert sc u ue. induction n as [|n IH]; intros sc u ue Hq Hd Hu Hrw Ho Hn; [lia|]. cbn [emufs_read_loop].
  pose proof Hu as ((Hr0 & _) & _). destruct (Z.gtb_spec (uio_resid u) 0) as [Hr|Hr]; cycle 1.
  { exists sc. replace (uio_resid u) with 0 by lia. change (Z.to_nat 0) with 0%nat. unfold slice.
    rewrite take_0, deliver_nil by done. done. }
  set (amt := if _ : bool then _ else _).
  assert (Hamt : 0 < amt ≤ EMU_MAXIO ∧ amt ≤ uio_resid u).
  { unfold amt, EMU_MAXIO. destruct (Z.gtb_spec (uio_resid u) 16384); lia. }
  destruct Hamt as [Hamt1 Hamt2]. destruct (emu_read_run sc hd d amt u ue) as (k & sc1 & -> & Hq1 & Hf1 & Hk & Hle & Hend); [done..|].
  set (x := slice d (Z.to_nat (uio_offset u)) k) in *. cbn [mbind outcome_bind negb Z.eqb].
  destruct (deliver_fields u ue x Hu) as (R1 & O1 & W1); [lia|]. rewrite R1, Hk.
  destruct (Z.eqb_spec (uio_resid u - Z.of_nat k) (uio_resid u)) as [E|E].
  { exists sc1. assert (k = 0%nat) as Ek by lia. specialize (Hend Ek).
    assert (slice d (Z.to_nat (uio_offset u)) (Z.to_nat (uio_resid u)) = x) as ->; [|done].
    unfold x, slice. by rewrite drop_ge, !take_nil by lia. }
  assert (Hkl : uio_offset u + Z.of_nat k ≤ Z.of_nat (length d)).
  { unfold x, slice in Hk. rewrite length_take, length_drop in Hk. lia. }
  destruct Hq as (_ & _ & Hw). destruct (card_handle _ _ _ Hw Hd) as [_ Hd31].
  rewrite s32_id in O1 by lia.
  destruct (IH sc1 (deliver u ue x).1 (deliver u ue x).2) as (sc2 & Hrun & Hq2 & Hf2);
    [done|by rewrite Hf1|by apply deliver_ok; [|lia]|congruence|lia|lia|].
  exists sc2. rewrite Hrun, R1, O1. split_and!; [|done|congruence].
  replace (Z.to_nat (uio_offset u + Z.of_nat (length x))) with (Z.to_nat (uio_offset u) + k)%nat by lia.
  replace (Z.to_nat (uio_resid u - Z.of_nat (length x))) with (Z.to_nat (uio_resid u) - k)%nat by lia.
  rewrite <- deliver_app; [|done|].
  - unfold x. rewrite <- slice_app. by replace (k + (Z.to_nat (uio_resid u) - k))%nat with (Z.to_nat (uio_resid u)) by lia.
  - rewrite length_app, Hk. unfold slice. rewrite length_take. lia.
Qed.

Lemma emu_write_run sc hd d n u ue :
  quiet sc → file_of sc !! hd = Some d → uio_ok u ue → uio_rw u = UIO_WRITE → 0 ≤ uio_offset u →
  Z.of_nat n ≤ EMU_MAXIO → Z.of_nat n ≤ uio_resid u → uio_offset u + Z.of_nat n < 2 ^ 31 →
  ∃ sc', emu_write sc hd (Z.of_nat n) u ue = Done (0, consume u (Z.of_nat n), ue, sc') ∧ quiet sc' ∧
    file_of sc' = <[hd := write_at d (Z.to_nat (uio_offset u)) (source u ue n)]> (file_of sc).
Proof.
  intros (Hl & Hs & Hw) Hd Hu Hrw Ho Hlen Hres Hend. destruct sc as [w l s r]; cbn in Hl, Hs, Hw; subst l s.
  unfold file_of in *. cbn in Hd. destruct (card_handle _ _ _ Hw Hd) as [Hhd _]. destruct (u32_offset _ _ Hu Ho) as [Eo _].
  pose proof (card_buffer _ Hw) as Hbuf. unfold EMU_MAXIO in Hlen, Hbuf.
  destruct (setup_card w hd (Z.of_nat n) (uio_offset u)) as (Hw1 & C1 & B1 & R1 & R2 & R3); [done|lia..|].
  set (w1 := card_wreg REG_OFFSET _ _) in *.
  destruct (uiomove_source (card_buf w) n u ue) as [Hmove Hx]; [done|done|lia|lia|].
  set (x := source u ue n) in *.
  destruct (setbuf_ok (splice (card_buf w) 0 x) w1) as (Hw2 & C2 & B2 & O2);
    [unfold EMU_MAXIO; rewrite splice_length by lia; lia|done|].
  set (w2 := card_setbuf _ w1) in *.
  destruct (op_write w2 d) as (Hw3 & R4 & C3); rewrite ?O2, ?R1, ?R2, ?R3, ?C2, ?C1 in *; unfold EMU_MAXIO; try done; try lia.
  set (w3 := card_wait _) in *.
  destruct (wreg_ok REG_RESULT 0 w3) as (Hw4 & C4 & _); [apply settables|done|].
  exists (Emu (card_wreg REG_RESULT 0 w3) false 0 EMU_RES_SUCCESS). split_and!; [|by split_and!|].
  - unfold emu_write. rewrite bool_decide_true by done. cbn [kassert mbind outcome_bind].
    rewrite acquire_run by done. cbn [mbind outcome_bind]. unfold emu_wreg, set_card. cbn [e_card e_lock e_sem e_result].
    rewrite Eo. fold w1. rewrite B1, Hmove. cbn [mbind outcome_bind negb Z.eqb e_card e_lock e_sem e_result]. fold w2.
    by rewrite waitdone_run.
  - cbn [e_card]. rewrite C4, C3, B2. do 2 f_equal. unfold splice. rewrite take_0. cbn [app].
    by rewrite Nat2Z.id, take_app_le, take_ge by lia.
Qed.

Lemma write_loop_run n sc hd d u ue :
  quiet sc → file_of sc !! hd = Some d → uio_ok u ue → uio_rw u = UIO_WRITE → 0 ≤ uio_offset u →
  uio_offset u + uio_resid u < 2 ^ 31 → 0 < uio_resid u → (Z.to_nat (uio_resid u) < n)%nat →
  ∃ sc', emufs_write_loop n hd u ue sc = Done (0, consume u (uio_resid u), ue, sc') ∧ quiet sc' ∧
    file_of sc' = <[hd := write_at d (Z.to_nat (uio_offset u)) (source u ue (Z.to_nat (uio_resid u)))]> (file_of sc).
Proof.
  revert sc d u ue. induction n as [|n IH]; intros sc d u ue Hq Hd Hu Hrw Ho Hend Hr Hn; [lia|]. cbn [emufs_write_loop].
  replace (uio_resid u >? 0) with true by lia.
  set (amt := if _ : bool then _ else _). set (k := Z.to_nat amt).
  assert (Hamt : amt = Z.of_nat k ∧ (0 < k)%nat ∧ Z.of_nat k ≤ EMU_MAXIO ∧ Z.of_nat k ≤ uio_resid u).
  { unfold k, amt, EMU_MAXIO. destruct (Z.gtb_spec (uio_resid u) 16384); lia. }
  clearbody k amt. destruct Hamt as (-> & Hk0 & HkM & Hkr).
  destruct (emu_write_run sc hd d k u ue) as (sc1 & -> & Hq1 & Hf1); [done..|lia|]. cbn [mbind outcome_bind negb Z.eqb].
  destruct (consume_fields u ue (Z.of_nat k) Hu) as (R1 & O1 & W1); [lia|]. rewrite R1, s32_id in * by lia.
  rewrite (proj2 (Z.eqb_neq _ _)) by lia.
  assert (Hx : length (source u ue k) = k).
  { apply (uiomove_source (replicate k 0)); [done|done|lia|by rewrite length_replicate]. }
  destruct (decide (uio_resid u = Z.of_nat k)) as [E|E].
  { exists sc1. destruct n as [|n]; [lia|]. cbn [emufs_write_loop]. rewrite R1, E, Z.sub_diag. cbn [Z.gtb Z.compare].
    by rewrite Nat2Z.id. }
  set (y := source u ue k) in *.
  destruct (IH sc1 (write_at d (Z.to_nat (uio_offset u)) y) (consume u (Z.of_nat k)) ue) as (sc2 & Hrun & Hq2 & Hf2);
    [done|by rewrite Hf1, lookup_insert_eq|apply consume_ok; [done|lia]|congruence|lia|lia|lia|lia|].
  exists sc2. rewrite Hrun, R1. split_and!; [|done|].
  - rewrite (consume_consume u ue) by (done || lia). by replace (Z.of_nat k + (uio_resid u - Z.of_nat k)) with (uio_resid u) by lia.
  - rewrite Hf2, Hf1, insert_insert_eq, R1, O1.
    replace (Z.to_nat (uio_offset u + Z.of_nat k)) with (Z.to_nat (uio_offset u) + length y)%nat by lia.
    rewrite write_at_app. unfold y. rewrite <- source_app by (done || lia).
    by replace (k + Z.to_nat (uio_resid u - Z.of_nat k))%nat with (Z.to_nat (uio_resid u)) by lia.
Qed.
End Transfers.

(** ** The table of vnodes *)

Section Table.
Context {W H : Type} `{EmuCard W} `{KHeapLaws H}.
Implicit Types (ef : emufs_fs W) (h : H) (ps L : list Z) (pool : gmap Z emufs_vnode).

(** The blocks of a vnode. *)
Definition vnode_blocks pool (p : Z) : list Z :=
  match pool !! p with Some ev => [p; (vn_countlock ev).1; (vn_countlock ev).2] | None => [] end.

(** The table holds the vnodes [ps], and the heap their blocks beside [L]. *)
Record table_ok ef h ps L : Prop := {
  tb_free : e_lock (ef_emu ef) = false;
  tb_array : array_rep (ef_vnodes ef) (Some <$> ps);
  tb_pool p : p ∈ ps ↔ is_Some (ef_pool ef !! p);
  tb_refs p ev : ef_pool ef !! p = Some ev → 1 ≤ vn_refcount ev;
  tb_handle p q ev ev' : ef_pool ef !! p = Some ev → ef_pool ef !! q = Some ev' → ev_handle ev = ev_handle ev' → p = q;
  tb_heap : heap_owns h (array_blocks (ef_vnodes ef) ++ (ps ≫= vnode_blocks (ef_pool ef)) ++ L);
}.

Lemma find_handle_run ef h ps L handle n i :
  table_ok ef h ps L → (i + n = length ps)%nat →
  ∃ r, find_handle n (Z.of_nat i) handle ef = Done r ∧
    match r with
    | Some p => ∃ ev, ef_pool ef !! p = Some ev ∧ ev_handle ev = handle
    | None => ∀ p ev, p ∈ drop i ps → ef_pool ef !! p = Some ev → ev_handle ev ≠ handle
    end.
Proof.
  intros Ht. revert i. induction n as [|n IH]; intros i Hi.
  { exists None. split; [done|]. intros p ev Hp. rewrite drop_ge in Hp by lia. set_solver. }
  destruct (lookup_lt_is_Some_2 ps i) as [p Hp]; [lia|].
  destruct (proj1 (tb_pool _ _ _ _ Ht p)) as [ev Hev]; [by eapply list_elem_of_lookup_2|].
  cbn [find_handle]. rewrite (array_getguy_spec _ _ i p (tb_array _ _ _ _ Ht)) by (by rewrite list_lookup_fmap, Hp).
  cbn [mbind outcome_bind]. unfold get_ev. rewrite Hev. cbn [mbind outcome_bind].
  destruct (Z.eqb_spec (ev_handle ev) handle) as [E|E]; [by exists (Some p); eauto|].
  replace (Z.of_nat i + 1) with (Z.of_nat (S i)) by lia. destruct (IH (S i)) as (r & -> & Hr); [lia|].
  exists r. split; [done|]. destruct r; [done|]. intros q ev' Hq Hev'. rewrite (drop_S _ _ _ Hp) in Hq.
  apply elem_of_cons in Hq as [->|Hq]; [congruence|by eapply Hr].
Qed.

Lemma find_handle_emu n i handle sc ef : find_handle n i handle (set_emu sc ef) = find_handle n i handle ef.
Proof.
  revert i. induction n as [|n IH]; intros i; [done|]. cbn [find_handle set_emu ef_vnodes].
  destruct (array_getguy _ _) as [p| | |]; try done. cbn [mbind outcome_bind]. change (get_ev p (set_emu sc ef)) with (get_ev p ef).
  destruct (get_ev p ef) as [ev| | |]; try done. cbn [mbind outcome_bind]. by rewrite <- IH.
Qed.

(** The pool with one entry more, or one replaced by one with the same lock. *)
Lemma blocks_other pool ps p ev : p ∉ ps → ps ≫= vnode_blocks (<[p := ev]> pool) = ps ≫= vnode_blocks pool.
Proof.
  induction ps as [|q ps IH]; intros Hp; [done|]. cbn [mbind list_bind]. rewrite IH by set_solver.
  f_equal. unfold vnode_blocks. by rewrite lookup_insert_ne by set_solver.
Qed.
Lemma blocks_same pool ps p ev ev' :
  pool !! p = Some ev → vn_countlock ev' = vn_countlock ev →
  ps ≫= vnode_blocks (<[p := ev']> pool) = ps ≫= vnode_blocks pool.
Proof.
  intros Hp E. induction ps as [|q ps IH]; [done|]. cbn [mbind list_bind]. rewrite IH. f_equal.
  unfold vnode_blocks. destruct (decide (q = p)) as [->|]; [by rewrite lookup_insert_eq, Hp, E|by rewrite lookup_insert_ne].
Qed.

Definition incref (ev : emufs_vnode) : emufs_vnode :=
  EVnode (vn_refcount ev + 1) (vn_opencount ev) (vn_countlock ev) (ev_isdir ev) (ev_handle ev).

Lemma table_incref ef h ps L p ev sc :
  table_ok ef h ps L → ef_pool ef !! p = Some ev → e_lock sc = false →
  table_ok (Emufs sc (ef_root ef) (ef_vnodes ef) (<[p := incref ev]> (ef_pool ef))) h ps L.
Proof.
  intros [Hf Ha Hp Hr Hh Ho] Hev Hsc.
  assert (Hold : ∀ q e, <[p := incref ev]> (ef_pool ef) !! q = Some e →
    ∃ e', ef_pool ef !! q = Some e' ∧ ev_handle e' = ev_handle e ∧ vn_refcount e' ≤ vn_refcount e).
  { intros q e. destruct (decide (q = p)) as [->|]; [|rewrite lookup_insert_ne by done; naive_solver lia].
    rewrite lookup_insert_eq. intros [= <-]. exists ev. cbn. split_and!; [done..|lia]. }
  split; cbn; [done..| | | |by erewrite blocks_same].
  - intros q. rewrite Hp. destruct (decide (q = p)) as [->|]; [|by rewrite lookup_insert_ne].
    rewrite lookup_insert_eq, Hev. split; eauto.
  - intros q e (e' & Hq & _ & ?)%Hold. specialize (Hr _ _ Hq). lia.
  - intros q q' e e' (e1 & Hq & E1 & _)%Hold (e2 & Hq' & E2 & _)%Hold E. eapply Hh; [exact Hq|exact Hq'|congruence].
Qed.

Lemma lock_create_run n h L :
  0 ≤ n < 2 ^ 31 → heap_owns h L →
  ∃ r h', lock_create n h = Done (r, h') ∧
    match r with None => heap_owns h' L | Some l => heap_owns h' (l.1 :: l.2 :: L) end.
Proof.
  intros Hn Ho. unfold lock_create. destruct (owns_alloc h L SIZEOF_LOCK Ho) as (r & h1 & -> & Hr1); [by unfold SIZEOF_LOCK|].
  cbn [mbind outcome_bind]. destruct r as [l|]; [destruct Hr1 as [_ Ho1]|by eexists None, h1].
  destruct (owns_alloc _ _ (n + 1) Ho1) as (r & h2 & -> & Hr2); [lia|]. cbn [mbind outcome_bind].
  destruct r as [m|]; [destruct Hr2 as [_ Ho2]|].
  - eexists (Some (l, m)), h2. split; [done|]. revert Ho2. apply heap_owns_perm. solve_Permutation.
  - destruct (owns_free _ _ _ Hr2) as (h3 & -> & Ho3). by eexists None, h3.
Qed.

(** A new vnode for a handle that has none. *)
Lemma table_add ef h ps L p ev sc a :
  table_ok ef h ps L → ef_pool ef !! p = None → e_lock sc = false → 1 ≤ vn_refcount ev →
  (∀ q e, ef_pool ef !! q = Some e → ev_handle e ≠ ev_handle ev) →
  array_rep a (Some <$> (ps ++ [p])) →
  ∀ h', heap_owns h' (array_blocks a ++ [p; (vn_countlock ev).1; (vn_countlock ev).2] ++ (ps ≫= vnode_blocks (ef_pool ef)) ++ L) →
  table_ok (Emufs sc (ef_root ef) a (<[p := ev]> (ef_pool ef))) h' (ps ++ [p]) L.
Proof.
  intros [Hf Ha Hp Hr Hh Ho] Hnew Hsc Href Hfresh Hrep h' Hown. split; cbn; [done..| | | |].
  - intros q. rewrite elem_of_app, list_elem_of_singleton, Hp.
    destruct (decide (q = p)) as [->|]; [rewrite lookup_insert_eq|rewrite lookup_insert_ne by done]; naive_solver.
  - intros q e. destruct (decide (q = p)) as [->|]; [rewrite lookup_insert_eq; naive_solver|].
    rewrite lookup_insert_ne by done. apply Hr.
  - intros q q' e e' Hq Hq' E. destruct (decide (q = p)) as [->|], (decide (q' = p)) as [->|];
      rewrite ?lookup_insert_eq, ?lookup_insert_ne in * by done; simplify_eq; [done| | |by eapply Hh].
    + by destruct (Hfresh _ _ Hq').
    + by destruct (Hfresh _ _ Hq).
  - assert (Hnp : p ∉ ps) by (rewrite Hp, Hnew; by intros [? ?]).
    rewrite bind_app. cbn [mbind list_bind]. rewrite app_nil_r, blocks_other by done.
    unfold vnode_blocks at 2. rewrite lookup_insert_eq. revert Hown. apply heap_owns_perm. solve_Permutation.
Qed.

(** The same table, seen with the heap and the softc of a call that changed nothing. *)
Lemma table_same ef h ps L sc h' :
  table_ok ef h ps L → e_lock sc = false →
  heap_owns h' (array_blocks (ef_vnodes ef) ++ (ps ≫= vnode_blocks (ef_pool ef)) ++ L) →
  table_ok (Emufs sc (ef_root ef) (ef_vnodes ef) (ef_pool ef)) h' ps L.
Proof. intros [Hf Ha Hp Hr Hh Ho] ??. by split. Qed.

Lemma pool_fresh ef h ps L p :
  table_ok ef h ps L → (∀ q, q ∈ ps → q ≠ p) → ef_pool ef !! p = None.
Proof.
  intros Ht Hp. destruct (ef_pool ef !! p) as [ev|] eqn:E; [|done].
  by destruct (Hp p); [apply (tb_pool _ _ _ _ Ht); eauto|].
Qed.

Lemma in_blocks ef h ps L q :
  table_ok ef h ps L → q ∈ ps → q ∈ ps ≫= vnode_blocks (ef_pool ef).
Proof.
  intros Ht Hq. destruct (proj1 (tb_pool _ _ _ _ Ht q) Hq) as [ev Hev]. apply list_elem_of_bind.
  exists q. split; [|done]. unfold vnode_blocks. rewrite Hev. set_solver.
Qed.

Lemma owns_head_ne h p L q : heap_owns h (p :: L) → q ∈ L → q ≠ p.
Proof. intros (_ & [Hp _]%list.NoDup_cons & _) Hq ->. done. Qed.

Lemma ev_kill_run ef p ev h L :
  ef_pool ef !! p = Some ev → vn_refcount ev = 1 → vn_opencount ev = 0 →
  heap_owns h ([p; (vn_countlock ev).1; (vn_countlock ev).2] ++ L) →
  ∃ h', ev_kill p ef h = Done (set_pool (delete p (ef_pool ef)) ef, h') ∧ heap_owns h' L.
Proof.
  intros Hev Hr Ho Hown. unfold ev_kill, get_ev. rewrite Hev. cbn [mbind outcome_bind]. rewrite Hr, Ho. cbn [kassert mbind outcome_bind Z.eqb Pos.eqb].
  destruct (owns_free h (vn_countlock ev).2 (p :: (vn_countlock ev).1 :: L)) as (h1 & -> & Ho1);
    [revert Hown; apply heap_owns_perm; solve_Permutation|]. cbn [mbind outcome_bind].
  destruct (owns_free h1 (vn_countlock ev).1 (p :: L)) as (h2 & -> & Ho2);
    [revert Ho1; apply heap_owns_perm; solve_Permutation|]. cbn [mbind outcome_bind].
  destruct (owns_free h2 p L Ho2) as (h3 & -> & Ho3). cbn [mbind outcome_bind]. by exists h3.
Qed.

(** What emufs_loadvnode may do to the table. *)
Definition loads (handle : Z) (isdir : bool) ef ps (r : res Z) ef' ps' : Prop :=
  match r with
  | Ok p =>
      (∃ ev, ef_pool ef !! p = Some ev ∧ ev_handle ev = handle ∧
         ef_pool ef' = <[p := incref ev]> (ef_pool ef) ∧ ps' = ps) ∨
      (∃ l, (∀ q e, ef_pool ef !! q = Some e → ev_handle e ≠ handle) ∧ ef_pool ef !! p = None ∧
         ef_pool ef' = <[p := EVnode 1 0 l isdir handle]> (ef_pool ef) ∧ ps' = ps ++ [p])
  | Err e => e = ENOMEM ∧ ef_pool ef' = ef_pool ef ∧ ps' = ps
  end.

(** The case of a handle that has no vnode yet. *)
Lemma loadvnode_new ef h ps L handle isdir :
  table_ok ef h ps L → Z.of_nat (length ps) < array_limit →
  find_handle (Z.to_nat (array_getnum (ef_vnodes ef))) 0 handle ef = Done None →
  (∀ q e, ef_pool ef !! q = Some e → ev_handle e ≠ handle) →
  ∃ r ef' h' ps', emufs_loadvnode handle isdir ef h = Done (r, ef', h') ∧ table_ok ef' h' ps' L ∧
    loads handle isdir ef ps r ef' ps'.
Proof.
  intros Ht Hlim Hfind Hno. unfold emufs_loadvnode. rewrite acquire_run by apply Ht. cbn [mbind outcome_bind].
  rewrite find_handle_emu. cbn [ef_vnodes set_emu]. rewrite Hfind. cbn [mbind outcome_bind]. clear Hfind.
  destruct (owns_alloc _ _ SIZEOF_EMUFS_VNODE (tb_heap _ _ _ _ Ht)) as (r & h1 & -> & Hr); [by unfold SIZEOF_EMUFS_VNODE|].
  cbn [mbind outcome_bind]. destruct r as [p|]; [destruct Hr as [_ Ho1]|].
  2:{ eexists (Err ENOMEM), _, h1, ps. split; [done|]. split; [by eapply (table_same ef h ps L)|done]. }
  assert (Hnew : ef_pool ef !! p = None).
  { eapply pool_fresh; [done|]. intros q Hq. eapply owns_head_ne; [exact Ho1|].
    apply elem_of_app. right. apply elem_of_app. left. by eapply in_blocks. }
  destruct (lock_create_run COUNTLOCK_NAME _ _ ltac:(done) Ho1) as (r & h2 & -> & Ho2). cbn [mbind outcome_bind].
  destruct r as [l|]; cycle 1.
  { destruct (owns_free _ _ _ Ho2) as (h3 & -> & Ho3). cbn [mbind outcome_bind].
    eexists (Err ENOMEM), _, h3, ps. split; [done|]. split; [by eapply (table_same ef h ps L)|done]. }
  cbn [ef_vnodes set_pool set_emu].
  destruct (array_add_spec (ef_vnodes ef) (Some <$> ps) p h2 ([p; l.1; l.2] ++ (ps ≫= vnode_blocks (ef_pool ef)) ++ L))
    as (r & a & h3 & -> & Ho3 & _ & Hr & _); [apply Ht| |by rewrite length_fmap|].
  { revert Ho2. apply heap_owns_perm. solve_Permutation. }
  cbn [mbind outcome_bind]. destruct Hr as [[-> ->]|[-> Hrep]]; cbn [Z.eqb negb ENOMEM].
  - unfold ENOMEM at 1. cbn [Z.eqb negb].
    destruct (ev_kill_run (set_emu (release (Emu (e_card (ef_emu ef)) true (e_sem (ef_emu ef)) (e_result (ef_emu ef))))
        (set_pool (<[p := EVnode 1 0 l isdir handle]> (ef_pool ef)) ef)) p (EVnode 1 0 l isdir handle) h3
        (array_blocks (ef_vnodes ef) ++ (ps ≫= vnode_blocks (ef_pool ef)) ++ L)) as (h4 & Hk & Ho4);
      [by cbn; rewrite lookup_insert_eq|done..| |].
    { revert Ho3. apply heap_owns_perm. cbn. solve_Permutation. }
    eexists (Err ENOMEM), _, h4, ps. split; [exact (f_equal (λ x, '(ef, h) ← x; Done (Err ENOMEM, ef, h)) Hk)|].
    cbn. rewrite delete_insert_id by done. split; [by eapply (table_same ef h ps L)|done].
  - eexists (Ok p), _, h3, (ps ++ [p]). split; [done|]. split.
    + apply (table_add ef h ps L p (EVnode 1 0 l isdir handle)); [done..|cbn; lia|done|by rewrite fmap_app|done].
    + right. by exists l.
Qed.

Lemma emufs_loadvnode_run ef h ps L handle isdir :
  table_ok ef h ps L → Z.of_nat (length ps) < array_limit →
  ∃ r ef' h' ps', emufs_loadvnode handle isdir ef h = Done (r, ef', h') ∧ table_ok ef' h' ps' L ∧
    loads handle isdir ef ps r ef' ps'.
Proof.
  intros Ht Hlim.
  assert (Hnum : Z.to_nat (array_getnum (ef_vnodes ef)) = length ps).
  { unfold array_getnum. rewrite (ar_num _ _ (tb_array _ _ _ _ Ht)), length_fmap. lia. }
  destruct (find_handle_run ef h ps L handle (length ps) 0 Ht) as (r & Hfind & Hr); [lia|].
  change (Z.of_nat 0) with 0 in Hfind. rewrite <- Hnum in Hfind. destruct r as [p|]; cycle 1.
  { eapply loadvnode_new; [done..|]. intros q e Hq. eapply Hr; [|done].
    rewrite drop_0. apply (tb_pool _ _ _ _ Ht). eauto. }
  destruct Hr as (ev & Hev & Hh). unfold emufs_loadvnode. rewrite acquire_run by apply Ht. cbn [mbind outcome_bind].
  rewrite find_handle_emu. cbn [ef_vnodes set_emu]. rewrite Hfind. cbn [mbind outcome_bind].
  unfold ev_incref, get_ev. cbn [ef_pool set_emu]. rewrite Hev. cbn [mbind outcome_bind].
  eexists (Ok p), _, h, ps. split; [done|]. split; [by apply (table_incref ef h ps L p ev)|]. left. by exists ev.
Qed.

Lemma find_vnode_run ef h ps L k p n i :
  table_ok ef h ps L → ps !! k = Some p → (i + n = length ps)%nat → (i ≤ k)%nat → NoDup ps →
  find_vnode n (Z.of_nat i) p ef = Done (Some (Z.of_nat k)).
Proof.
  intros Ht Hk Hn Hi Hnd. revert i Hn Hi. induction n as [|n IH]; intros i Hn Hi.
  { apply lookup_lt_Some in Hk. lia. }
  destruct (lookup_lt_is_Some_2 ps i) as [q Hq]; [lia|]. cbn [find_vnode].
  rewrite (array_getguy_spec _ _ i q (tb_array _ _ _ _ Ht)) by (by rewrite list_lookup_fmap, Hq). cbn [mbind outcome_bind].
  destruct (Z.eqb_spec q p) as [->|Hne]; [by rewrite (NoDup_lookup ps i k p)|].
  replace (Z.of_nat i + 1) with (Z.of_nat (S i)) by lia. apply IH; [lia|].
  destruct (decide (i = k)) as [->|]; [congruence|lia].
Qed.

Lemma find_vnode_emu n i p sc ef : find_vnode n i p (set_emu sc ef) = find_vnode n i p ef.
Proof.
  revert i. induction n as [|n IH]; intros i; [done|]. cbn [find_vnode set_emu ef_vnodes].
  destruct (array_getguy _ _) as [q| | |]; try done. cbn [mbind outcome_bind]. by rewrite <- IH.
Qed.

Lemma table_nodup ef h ps L : table_ok ef h ps L → NoDup ps.
Proof.
  intros Ht. destruct (tb_heap _ _ _ _ Ht) as (_ & (_ & _ & (Hnd & _ & _)%list.NoDup_app)%list.NoDup_app & _).
  assert (Hin : ∀ q, q ∈ ps → ∃ a b, vnode_blocks (ef_pool ef) q = [q; a; b]).
  { intros q [ev Hev]%(tb_pool _ _ _ _ Ht). unfold vnode_blocks. rewrite Hev. eauto. }
  clear Ht. induction ps as [|q ps IH]; [by constructor|]. cbn [mbind list_bind] in Hnd.
  destruct (Hin q ltac:(set_solver)) as (a & b & E). rewrite E in Hnd. cbn in Hnd.
  apply list.NoDup_cons in Hnd as [Hq [_ [_ Hnd]%list.NoDup_cons]%list.NoDup_cons].
  constructor; [|by apply IH; [|set_solver]]. intros Hq'. apply Hq. rewrite !elem_of_cons. right. right.
  apply list_elem_of_bind. exists q. split; [|done]. rewrite E. set_solver.
Qed.

Lemma blocks_delete pool ps p : p ∉ ps → ps ≫= vnode_blocks (delete p pool) = ps ≫= vnode_blocks pool.
Proof.
  induction ps as [|q ps IH]; intros Hp; [done|]. cbn [mbind list_bind]. rewrite IH by set_solver.
  f_equal. unfold vnode_blocks. by rewrite lookup_delete_ne by set_solver.
Qed.

(** A vnode taken out of the table. *)
Lemma table_remove ef h ps L k p ev sc a :
  table_ok ef h ps L → ps !! k = Some p → ef_pool ef !! p = Some ev → e_lock sc = false →
  array_rep a (delete k (Some <$> ps)) → array_blocks a = array_blocks (ef_vnodes ef) →
  heap_owns h ([p; (vn_countlock ev).1; (vn_countlock ev).2] ++
    array_blocks a ++ (delete k ps ≫= vnode_blocks (delete p (ef_pool ef))) ++ L) ∧
  ∀ h', heap_owns h' (array_blocks a ++ (delete k ps ≫= vnode_blocks (delete p (ef_pool ef))) ++ L) →
    table_ok (Emufs sc (ef_root ef) a (delete p (ef_pool ef))) h' (delete k ps) L.
Proof.
  intros Ht Hk Hev Hsc Hrep Hblk. pose proof (table_nodup _ _ _ _ Ht) as Hnd.
  pose proof (delete_Permutation _ _ _ Hk) as Hperm.
  assert (Hnp : p ∉ delete k ps) by (rewrite Hperm in Hnd; by apply list.NoDup_cons in Hnd as [? _]).
  destruct Ht as [Hf Ha Hp Hr Hh Ho]. split.
  - rewrite blocks_delete, Hblk by done. revert Ho. apply heap_owns_perm.
    assert (Hb : ps ≫= vnode_blocks (ef_pool ef) ≡ₚ vnode_blocks (ef_pool ef) p ++ (delete k ps ≫= vnode_blocks (ef_pool ef))).
    { change (vnode_blocks (ef_pool ef) p ++ (delete k ps ≫= vnode_blocks (ef_pool ef)))
        with ((p :: delete k ps) ≫= vnode_blocks (ef_pool ef)). by apply bind_Permutation. }
    rewrite Hb. unfold vnode_blocks at 2. rewrite Hev. solve_Permutation.
  - intros h' Ho'. split; cbn; [done|by rewrite list_fmap_delete|..| |done].
    + intros q. rewrite lookup_delete_is_Some, <- Hp.
      assert (Hin : q ∈ ps ↔ q = p ∨ q ∈ delete k ps) by (rewrite <- elem_of_cons; by apply elem_of_Permutation_proper).
      rewrite Hin. naive_solver.
    + intros q e [_ Hq]%lookup_delete_Some. by eapply Hr.
    + intros q q' e e' [_ Hq]%lookup_delete_Some [_ Hq']%lookup_delete_Some. by eapply Hh.
Qed.

(** The last reference is dropped: if the card closes the file the vnode is
    gone and its blocks are freed, and else nothing changes. *)
Lemma emufs_reclaim_run ef h ps L p ev r sc :
  table_ok ef h ps L → ef_pool ef !! p = Some ev → vn_refcount ev = 1 → vn_opencount ev = 0 →
  emu_close (Emu (e_card (ef_emu ef)) true (e_sem (ef_emu ef)) (e_result (ef_emu ef))) (ev_handle ev) = Done (r, sc) →
  ∃ ef' h' ps', emufs_reclaim p ef h = Done (r, ef', h') ∧ table_ok ef' h' ps' L ∧
    ef_pool ef' = if r =? 0 then delete p (ef_pool ef) else ef_pool ef.
Proof.
  intros Ht Hev Hr Ho Hclose. unfold emufs_reclaim. rewrite acquire_run by apply Ht. cbn [mbind outcome_bind].
  unfold get_ev. cbn [ef_pool set_emu]. rewrite Hev. cbn [mbind outcome_bind]. rewrite Hr. cbn [Z.eqb Pos.eqb negb].
  cbn [ef_emu set_emu]. rewrite Hclose. cbn [mbind outcome_bind]. destruct (Z.eqb_spec r 0) as [->|Hne]; cbn [negb]; cycle 1.
  { eexists _, h, ps. split; [done|]. split; [|done]. by eapply (table_same ef h ps L); [|done|apply Ht]. }
  assert (p ∈ ps) as [k Hk]%list_elem_of_lookup_1 by (apply (tb_pool _ _ _ _ Ht); eauto).
  set (ef1 := set_emu sc _).
  assert (Hfind : find_vnode (Z.to_nat (array_getnum (ef_vnodes ef1))) 0 p ef1 = Done (Some (Z.of_nat k))).
  { unfold ef1. rewrite !find_vnode_emu. change 0 with (Z.of_nat 0).
    eapply find_vnode_run; [done|done| |lia|by eapply table_nodup].
    cbn. unfold array_getnum. rewrite (ar_num _ _ (tb_array _ _ _ _ Ht)), length_fmap. lia. }
  rewrite Hfind. cbn [mbind outcome_bind].
  destruct (array_remove_spec (ef_vnodes ef) (Some <$> ps) k (tb_array _ _ _ _ Ht)) as (a & Hrem & Hrep & Hblk & _).
  { rewrite length_fmap. by eapply lookup_lt_Some. }
  change (ef_vnodes ef1) with (ef_vnodes ef). rewrite Hrem. cbn [mbind outcome_bind].
  destruct (table_remove ef h ps L k p ev (release sc) a) as [Hown Htab]; [done..|].
  destruct (ev_kill_run (set_emu (release sc) (set_vnodes a ef1)) p ev h _ Hev Hr Ho Hown) as (h' & Hkill & Ho').
  eexists _, h', (delete k ps). split; [exact (f_equal (λ x, '(ef, h) ← x; Done (0, ef, h)) Hkill)|]. by split; [apply Htab|].
Qed.
End Table.

(** ** Properties *)

Section Claims.
Context {W H : Type} `{EmuCardLaws W} `{KHeapLaws H}.
Implicit Types (ef : emufs_fs W) (h : H) (u : uio) (ue : uenv) (d ps L : list Z).

(** C24: emufs_read of a file delivers its bytes from the offset on, up to its
    end or as many as asked for, however the card cuts the transfer up, and
    returns with the lock free. *)
Theorem emufs_read_delivers ef p ev d u ue :
  quiet (ef_emu ef) → ef_pool ef !! p = Some ev → file_of (ef_emu ef) !! ev_handle ev = Some d →
  uio_ok u ue → uio_rw u = UIO_READ → 0 ≤ uio_offset u →
  let x := slice d (Z.to_nat (uio_offset u)) (Z.to_nat (uio_resid u)) in
  ∃ ef', emufs_read p u ue ef = Done (0, (deliver u ue x).1, (deliver u ue x).2, ef') ∧
    quiet (ef_emu ef') ∧ file_of (ef_emu ef') = file_of (ef_emu ef) ∧ ef_pool ef' = ef_pool ef.
Proof.
  intros Hq Hev Hd Hu Hrw Ho. unfold emufs_read, get_ev. rewrite Hev. cbn [mbind outcome_bind].
  rewrite bool_decide_true by done. cbn [kassert mbind outcome_bind].
  destruct (read_loop_run (S (Z.to_nat (uio_resid u))) (ef_emu ef) (ev_handle ev) d u ue) as (sc & -> & ? & ?); [done..|lia|].
  by eexists.
Qed.

(** emufs_write stores the bytes of the uio at its offset, in as many
    requests as it takes, and leaves every other file alone. *)
Theorem emufs_write_stores ef p ev d u ue :
  quiet (ef_emu ef) → ef_pool ef !! p = Some ev → file_of (ef_emu ef) !! ev_handle ev = Some d →
  uio_ok u ue → uio_rw u = UIO_WRITE → 0 ≤ uio_offset u → 0 < uio_resid u → uio_offset u + uio_resid u < 2 ^ 31 →
  ∃ ef', emufs_write p u ue ef = Done (0, consume u (uio_resid u), ue, ef') ∧ quiet (ef_emu ef') ∧
    file_of (ef_emu ef') =
      <[ev_handle ev := write_at d (Z.to_nat (uio_offset u)) (source u ue (Z.to_nat (uio_resid u)))]> (file_of (ef_emu ef)).
Proof.
  intros Hq Hev Hd Hu Hrw Ho Hr Hend. unfold emufs_write, get_ev. rewrite Hev. cbn [mbind outcome_bind].
  rewrite bool_decide_true by done. cbn [kassert mbind outcome_bind].
  destruct (write_loop_run (S (Z.to_nat (uio_resid u))) (ef_emu ef) (ev_handle ev) d u ue) as (sc & -> & ? & ?); [done..|lia|].
  by eexists.
Qed.

(** emufs_loadvnode gives a handle the vnode it has, with one reference
    more, or a new one if it has none; without memory it answers ENOMEM and
    changes nothing.  The table never has two vnodes for one handle. *)
Theorem emufs_loadvnode_unique ef h ps L handle isdir :
  table_ok ef h ps L → Z.of_nat (length ps) < array_limit →
  ∃ r ef' h' ps', emufs_loadvnode handle isdir ef h = Done (r, ef', h') ∧ table_ok ef' h' ps' L ∧
    loads handle isdir ef ps r ef' ps'.
Proof. intros Ht Hlim. by apply emufs_loadvnode_run. Qed.
End Claims.
