(* ===== verification/EmuDemo.v ===== *)
(** * A card for the emulator file system

    A card that holds the files in memory and answers at once satisfies
    [EmuCardLaws]; the theorems of EmuSpec are applied to a file of 20000
    bytes, more than one request can carry. *)

From S2P Require Import Prelude Ram Kheap KheapSpec KArray Bytes Mem Uio Emu EmuSpec.

Record hostcard := Host { hc_regs : Z → Z; hc_buf : list Z; hc_files : gmap Z (list Z) }.

Definition set_reg (r v : Z) (regs : Z → Z) : Z → Z := λ r', if r' =? r then v else regs r'.

Definition host_read (d : list Z) (w : hostcard) : hostcard :=
  let off := hc_regs w REG_OFFSET in
  let n := Z.min (hc_regs w REG_IOLEN) (Z.max 0 (Z.of_nat (length d) - off)) in
  Host (set_reg REG_RESULT EMU_RES_SUCCESS (set_reg REG_OFFSET (off + n) (set_reg REG_IOLEN n (hc_regs w))))
    (splice (hc_buf w) 0 (slice d (Z.to_nat off) (Z.to_nat n))) (hc_files w).

Definition host_write (d : list Z) (w : hostcard) : hostcard :=
  Host (set_reg REG_RESULT EMU_RES_SUCCESS (hc_regs w)) (hc_buf w)
    (<[hc_regs w REG_HANDLE := write_at d (Z.to_nat (hc_regs w REG_OFFSET))
        (take (Z.to_nat (hc_regs w REG_IOLEN)) (hc_buf w))]> (hc_files w)).

(** Operations other than reads and writes are refused. *)
Definition host_oper (op : Z) (w : hostcard) : hostcard :=
  match hc_files w !! hc_regs w REG_HANDLE with
  | Some d => if op =? EMU_OP_READ then host_read d w else if op =? EMU_OP_WRITE then host_write d w
              else Host (set_reg REG_RESULT 13 (hc_regs w)) (hc_buf w) (hc_files w)
  | None => Host (set_reg REG_RESULT 13 (hc_regs w)) (hc_buf w) (hc_files w)
  end.

#[global] Instance host_card : EmuCard hostcard := {
  card_rdreg r w := hc_regs w r;
  card_wreg r v w := if r =? REG_OPER then host_oper v w else Host (set_reg r (u32 v) (hc_regs w)) (hc_buf w) (hc_files w);
  card_buf := hc_buf;
  card_setbuf b w := Host (hc_regs w) b (hc_files w);
  card_wait w := w;
}.

Definition host_ok (w : hostcard) : Prop :=
  Z.of_nat (length (hc_buf w)) = EMU_MAXIO ∧
  ∀ hd d, hc_files w !! hd = Some d → 0 ≤ hd < 2 ^ 32 ∧ Z.of_nat (length d) < 2 ^ 31.

Lemma set_reg_eq r v f : set_reg r v f r = v.
Proof. unfold set_reg. by rewrite Z.eqb_refl. Qed.
Lemma set_reg_ne r r' v f : r' ≠ r → set_reg r v f r' = f r'.
Proof. intros. unfold set_reg. by rewrite (proj2 (Z.eqb_neq _ _)). Qed.

Lemma settable_oper r : settable r → r ≠ REG_OPER.
Proof. unfold settable. set_solver. Qed.

Lemma write_at_length d o x : Z.of_nat (length (write_at d o x)) = Z.max (Z.of_nat (length d)) (Z.of_nat (o + length x)).
Proof. unfold write_at. rewrite !length_app, length_take, length_app, length_replicate, length_drop. lia. Qed.

#[global] Instance host_laws : EmuCardLaws hostcard.
Proof.
  refine {| card_ok := host_ok; contents := hc_files |}.
  - intros w hd d [_ Hw]. apply Hw.
  - intros w [Hw _]. exact Hw.
  - intros r v w Hr Hw. pose proof (settable_oper r Hr) as Hne. cbn [card_wreg host_card].
    rewrite (proj2 (Z.eqb_neq _ _) Hne). split_and!; [done..|apply set_reg_eq|]. intros r' Hr'. by apply set_reg_ne.
  - intros b w Hb [_ Hw]. split_and!; [by split|done..].
  - intros w d [Hb Hw] Hd Hlen Hoff. cbn [card_wreg host_card card_wait card_rdreg card_buf] in *. cbn zeta.
    change (REG_OPER =? REG_OPER) with true. cbn iota. unfold host_oper. rewrite Hd. cbn [EMU_OP_READ Z.eqb Pos.eqb].
    unfold host_read. set (off := hc_regs w REG_OFFSET) in *. set (n := Z.min _ _).
    cbn [hc_regs hc_buf hc_files]. unfold EMU_MAXIO in *.
    assert (Hs : length (slice d (Z.to_nat off) (Z.to_nat n)) = Z.to_nat n).
    { unfold slice. rewrite length_take, length_drop. lia. }
    change (set_reg REG_RESULT _ _ REG_IOLEN) with n. change (set_reg REG_RESULT _ _ REG_OFFSET) with (off + n).
    change (set_reg REG_RESULT ?v ?f REG_RESULT) with v. split_and!; try done; try lia.
    + split; [|done]. cbn [hc_buf]. unfold EMU_MAXIO. rewrite splice_length; lia.
    + rewrite <- Hs at 1. apply (slice_splice (hc_buf w) 0). lia.
  - intros w d [Hb Hw] Hd Hlen Hoff Hend. cbn [card_wreg host_card card_wait card_rdreg card_buf] in *. cbn zeta.
    change (REG_OPER =? REG_OPER) with true. cbn iota. unfold host_oper. rewrite Hd. cbn [EMU_OP_WRITE EMU_OP_READ Z.eqb Pos.eqb].
    split_and!; [|done..]. split; [done|]. cbn [hc_files host_write]. intros hd e.
    destruct (decide (hd = hc_regs w REG_HANDLE)) as [->|].
    + rewrite lookup_insert_eq. intros [= <-]. destruct (Hw _ _ Hd). split; [done|]. rewrite write_at_length, length_take. lia.
    + rewrite lookup_insert_ne by done. apply Hw.
Defined.

(** ** The theorems applied *)

Definition demo_host (d : list Z) : hostcard := Host (λ _, 0) (replicate (Z.to_nat EMU_MAXIO) 0) {[ 5 := d ]}.
Definition demo_emu (d : list Z) : emufs_fs hostcard :=
  Emufs (Emu (demo_host d) false 0 0) 0 (Array demo_self 0 2 (Some (demo_addr, [None; None])))
    {[ 7 := EVnode 1 0 (8, 9) false 5 ]}.

Lemma demo_emu_quiet d : Z.of_nat (length d) < 2 ^ 31 → quiet (ef_emu (demo_emu d)).
Proof.
  intros Hd. split; [done|]. split; [done|]. split.
  - cbn [ef_emu demo_emu e_card demo_host hc_buf]. rewrite length_replicate. done.
  - intros hd e He. change (({[ 5 := d ]} : gmap Z (list Z)) !! hd = Some e) in He.
    apply lookup_singleton_Some in He as [<- <-]. split; [lia|exact Hd].
Qed.

Lemma emufs_read_delivers_witness : ∃ ef',
  emufs_read 7 (mk_kuio (replicate (Z.to_nat 20000) 0) 20000 0 UIO_READ) (Uenv ∅ None) (demo_emu (replicate (Z.to_nat 20000) 65)) =
    Done (0, (deliver (mk_kuio (replicate (Z.to_nat 20000) 0) 20000 0 UIO_READ) (Uenv ∅ None)
                (slice (replicate (Z.to_nat 20000) 65) 0 (Z.to_nat 20000))).1, Uenv ∅ None, ef').
Proof.
  set (u := mk_kuio _ _ _ _). set (d := replicate (Z.to_nat 20000) 65).
  destruct (emufs_read_delivers (demo_emu d) 7 (EVnode 1 0 (8, 9) false 5) d u (Uenv ∅ None)) as (ef' & Hrun & _).
  - apply demo_emu_quiet. unfold d. rewrite length_replicate. lia.
  - reflexivity.
  - reflexivity.
  - unfold u, uio_ok. cbn [mk_kuio uio_resid iov_len uio_offset uio_segflg iov uio_space].
    rewrite length_replicate, s32_id by lia. split_and!; done || lia.
  - reflexivity.
  - cbn. lia.
  - exists ef'. exact Hrun.
Defined.

Lemma emufs_write_stores_witness : ∃ ef',
  emufs_write 7 (mk_kuio [1; 2; 3] 3 1 UIO_WRITE) (Uenv ∅ None) (demo_emu [9; 9]) =
    Done (0, consume (mk_kuio [1; 2; 3] 3 1 UIO_WRITE) 3, Uenv ∅ None, ef') ∧
  file_of (ef_emu ef') !! 5 = Some [9; 1; 2; 3].
Proof.
  set (u := mk_kuio _ _ _ _).
  destruct (emufs_write_stores (demo_emu [9; 9]) 7 (EVnode 1 0 (8, 9) false 5) [9; 9] u (Uenv ∅ None)) as (ef' & Hrun & _ & Hf).
  - apply demo_emu_quiet. cbn. lia.
  - reflexivity.
  - reflexivity.
  - unfold u, uio_ok. cbn. rewrite s32_id by lia. split_and!; done || lia.
  - reflexivity.
  - cbn. lia.
  - cbn. lia.
  - cbn. lia.
  - exists ef'. split; [exact Hrun|]. rewrite Hf. reflexivity.
Defined.

(** The table before the root is loaded. *)
Definition empty_table : emufs_fs hostcard :=
  Emufs (Emu (demo_host []) false 0 0) 0 (Array demo_self 0 2 (Some (demo_addr, [None; None]))) ∅.

Lemma empty_table_ok : table_ok empty_table demo_traced [] [].
Proof.
  split; [done|split; cbn; unfold array_limit; done || lia| | | |].
  - intros p. cbn. rewrite lookup_empty. split; [by intros ?%elem_of_nil|by intros [? ?]].
  - intros p ev. cbn. by rewrite lookup_empty.
  - intros p q ev ev'. cbn. by rewrite lookup_empty.
  - exact demo_traced_owns.
Qed.

Lemma emufs_loadvnode_unique_witness : ∃ r ef' h' ps',
  emufs_loadvnode EMU_ROOTHANDLE true empty_table demo_traced = Done (r, ef', h') ∧ table_ok ef' h' ps' [] ∧
  loads EMU_ROOTHANDLE true empty_table [] r ef' ps'.
Proof. apply (emufs_loadvnode_unique empty_table demo_traced [] [] EMU_ROOTHANDLE true empty_table_ok). reflexivity. Defined.
