(* ===== verification/Random.v ===== *)
(** * Pseudo-random numbers (lib/libc/random.c)

    The additive-feedback generator of the C library.  Its tables are arrays
    of longs in memory, the program's own or the caller's; memory is a map
    from addresses to longs.  Signed arithmetic wraps, as the instructions of
    the machine do; the source relies on it.

    The theorems: over any sequence of calls the library behaves as a set of
    independent generators, one for each table, of which one is selected
    ([calls_refine]): random yields the trinomial recurrence, setstate takes
    up a sequence where it was left; no access is out of bounds; and the
    table the library starts with is the one srandom(1) makes. *)

From S2P Require Import Prelude.

Definition TYPE_0 : Z := 0.
Definition MAX_TYPES : Z := 5.
Definition BREAK_0 : Z := 8.
Definition BREAK_1 : Z := 32.
Definition BREAK_2 : Z := 64.
Definition BREAK_3 : Z := 128.
Definition BREAK_4 : Z := 256.
Definition degrees : list Z := [0; 7; 15; 31; 63].
Definition seps : list Z := [0; 3; 1; 3; 1].
Definition deg (t : Z) : Z := nth (Z.to_nat t) degrees 0.
Definition sep (t : Z) : Z := nth (Z.to_nat t) seps 0.

Definition SIZEOF_LONG : Z := 4.

Record rng := Rng {
  words : gmap Z Z;
  fptr : Z;
  rptr : Z;
  state : Z;
  rand_type : Z;
  rand_deg : Z;
  rand_sep : Z;
  end_ptr : Z;
}.

Definition load (a : Z) (s : rng) : outcome Z :=
  match words s !! a with Some x => Done x | None => Fault end.
Definition store (a x : Z) (s : rng) : outcome rng :=
  match words s !! a with
  | Some _ => Done (Rng (<[a := x]> (words s)) (fptr s) (rptr s) (state s) (rand_type s) (rand_deg s) (rand_sep s) (end_ptr s))
  | None => Fault
  end.
Definition set_ptrs (f r : Z) (s : rng) : rng :=
  Rng (words s) f r (state s) (rand_type s) (rand_deg s) (rand_sep s) (end_ptr s).

(** &state[i] *)
Definition cell (s : rng) (i : Z) : Z := state s + SIZEOF_LONG * i.

Definition random_unlocked (s : rng) : outcome (Z * rng) :=
  if rand_type s =? TYPE_0 then
    i ← load (cell s 0) s;
    let i := Z.land (s32 (i * 1103515245 + 12345)) 0x7fffffff in
    s ← store (cell s 0) i s;
    Done (i, s)
  else
    let f := fptr s in
    let r := rptr s in
    x ← load f s;
    y ← load r s;
    let v := s32 (x + y) in
    s ← store f v s;
    let i := Z.land (Z.shiftr (u32 v) 1) 0x7fffffff in
    let f := f + SIZEOF_LONG in
    if f >=? end_ptr s then Done (i, set_ptrs (state s) (r + SIZEOF_LONG) s)
    else
      let r := r + SIZEOF_LONG in
      Done (i, set_ptrs f (if r >=? end_ptr s then state s else r) s).

(** The first loop of srandom, from [i] on with [n] turns to go. *)
Fixpoint fill (n : nat) (i : Z) (s : rng) : outcome rng :=
  match n with
  | O => Done s
  | S n =>
      x ← load (cell s (i - 1)) s;
      s ← store (cell s i) (s32 (1103515245 * x + 12345)) s;
      fill n (i + 1) s
  end.

Fixpoint cycle (n : nat) (s : rng) : outcome rng :=
  match n with
  | O => Done s
  | S n => '(_, s) ← random_unlocked s; cycle n s
  end.

Definition srandom (x : Z) (s : rng) : outcome rng :=
  if rand_type s =? TYPE_0 then store (cell s 0) (s32 x) s
  else
    s ← store (cell s 0) (s32 x) s;
    s ← fill (Z.to_nat (rand_deg s - 1)) 1 s;
    cycle (Z.to_nat (10 * rand_deg s)) (set_ptrs (cell s (rand_sep s)) (cell s 0) s).

(** state[-1] = ... *)
Definition save (s : rng) : outcome rng :=
  store (cell s (-1))
    (if rand_type s =? TYPE_0 then rand_type s
     else MAX_TYPES * ((rptr s - state s) `quot` SIZEOF_LONG) + rand_type s) s.

Definition set_type (t a : Z) (s : rng) : rng :=
  Rng (words s) (fptr s) (rptr s) (a + SIZEOF_LONG) t (deg t) (sep t) (a + SIZEOF_LONG + SIZEOF_LONG * deg t).

(** Tables are their addresses; the result is the old table, or NULL. *)
Definition initstate (seed arg_state n : Z) (s : rng) : outcome (option Z * rng) :=
  let ostate := cell s (-1) in
  s ← save s;
  if n <? BREAK_0 then Done (None, s)
  else
    let t := if n <? BREAK_1 then 0 else if n <? BREAK_2 then 1 else if n <? BREAK_3 then 2
             else if n <? BREAK_4 then 3 else 4 in
    s ← srandom seed (set_type t arg_state s);
    s ← save s;
    Done (Some ostate, s).

Definition setstate (arg_state : Z) (s : rng) : outcome (option Z * rng) :=
  h ← load arg_state s;
  let type := Z.rem h MAX_TYPES in
  let rear := h `quot` MAX_TYPES in
  let ostate := cell s (-1) in
  s ← save s;
  if (0 <=? type) && (type <? MAX_TYPES) then
    let s := set_type type arg_state s in
    let s := if type =? TYPE_0 then s else set_ptrs (cell s (Z.rem (rear + rand_sep s) (rand_deg s))) (cell s rear) s in
    Done (Some ostate, s)
  else Done (None, s).

Definition random (s : rng) : outcome (Z * rng) := random_unlocked s.

(** ** The table the library starts with *)

Definition randtbl : list Z := s32 <$>
  [3;
   0x9a319039; 0x32d9c024; 0x9b663182; 0x5da1f342; 0xde3b81e0; 0xdf0a6fb5; 0xf103bc02; 0x48f340fb;
   0x7449e56b; 0xbeb1dbb0; 0xab5c5918; 0x946554fd; 0x8c2e680f; 0xeb3d799f; 0xb11ee0b7; 0x2d436b86;
   0xda672e2a; 0x1588ca88; 0xe369735d; 0x904f35f7; 0xd7158fd6; 0x6fa6f051; 0x616e6b96; 0xac94efdc;
   0x36413f93; 0xc622c298; 0xf5a42ab8; 0x8a88d77b; 0xf5ad9d0e; 0x8999220b; 0x27fb47b9].

(** A list of longs at an address. *)
Fixpoint put_words (a : Z) (l : list Z) (m : gmap Z Z) : gmap Z Z :=
  match l with [] => m | x :: l => <[a := x]> (put_words (a + SIZEOF_LONG) l m) end.

Definition rng_start (tbl : Z) (m : gmap Z Z) : rng :=
  Rng (put_words tbl randtbl m) (tbl + SIZEOF_LONG * 4) (tbl + SIZEOF_LONG) (tbl + SIZEOF_LONG) 3 31 3
    (tbl + SIZEOF_LONG * 32).

(** ** Generators

    The abstract state of a generator is its type and the window of the last
    [deg t] numbers, oldest first; a number is the sum of the oldest and of
    the one [sep t] steps back.  Type 0 keeps one number. *)
Abbreviation gen := (Z * list Z)%type.

Definition gen_next (g : gen) : Z * gen :=
  let '(t, w) := g in
  if t =? 0 then
    let i := Z.land (s32 (nth 0 w 0 * 1103515245 + 12345)) 0x7fffffff in (i, (t, [i]))
  else
    let v := s32 (nth 0 w 0 + nth (Z.to_nat (deg t - sep t)) w 0) in
    (Z.land (Z.shiftr (u32 v) 1) 0x7fffffff, (t, drop 1 w ++ [v])).

(** The congruential generator that fills a table. *)
Fixpoint congruential (n : nat) (x : Z) : list Z :=
  match n with O => [] | S n => x :: congruential n (s32 (1103515245 * x + 12345)) end.

Definition rot (f : nat) (c : list Z) : list Z := drop f c ++ take f c.

Definition seeded (t x : Z) : gen :=
  if t =? 0 then (t, [s32 x])
  else Nat.iter (Z.to_nat (10 * deg t)) (λ g, (gen_next g).2)
         (t, rot (Z.to_nat (sep t)) (congruential (Z.to_nat (deg t)) (s32 x))).

(** The library: its tables, each a generator, and the one in use. *)
Record lib := Lib { cur : Z; gens : gmap Z gen }.

Inductive call := Random | Srandom (x : Z) | Initstate (seed a n : Z) | Setstate (a : Z).
Inductive answer := Value (x : Z) | Table (a : option Z) | Nothing.

Definition type_for (n : Z) : Z :=
  if n <? BREAK_1 then 0 else if n <? BREAK_2 then 1 else if n <? BREAK_3 then 2 else if n <? BREAK_4 then 3 else 4.

Definition lib_call (k : call) (L : lib) : answer * lib :=
  match k with
  | Random =>
      match gens L !! cur L with
      | Some g => (Value (gen_next g).1, Lib (cur L) (<[cur L := (gen_next g).2]> (gens L)))
      | None => (Nothing, L)
      end
  | Srandom x =>
      match gens L !! cur L with
      | Some g => (Nothing, Lib (cur L) (<[cur L := seeded g.1 x]> (gens L)))
      | None => (Nothing, L)
      end
  | Initstate seed a n =>
      if n <? BREAK_0 then (Table None, L)
      else (Table (Some (cur L)), Lib a (<[a := seeded (type_for n) seed]> (gens L)))
  | Setstate a => (Table (Some (cur L)), Lib a (gens L))
  end.

Definition do_call (k : call) (s : rng) : outcome (answer * rng) :=
  match k with
  | Random => '(x, s) ← random s; Done (Value x, s)
  | Srandom x => s ← srandom x s; Done (Nothing, s)
  | Initstate seed a n => '(r, s) ← initstate seed a n s; Done (Table r, s)
  | Setstate a => '(r, s) ← setstate a s; Done (Table r, s)
  end.

Fixpoint do_calls (ks : list call) (s : rng) : outcome (list answer * rng) :=
  match ks with
  | [] => Done ([], s)
  | k :: ks => '(x, s) ← do_call k s; '(xs, s) ← do_calls ks s; Done (x :: xs, s)
  end.
Fixpoint lib_calls (ks : list call) (L : lib) : list answer * lib :=
  match ks with
  | [] => ([], L)
  | k :: ks => let '(x, L) := lib_call k L in let '(xs, L) := lib_calls ks L in (x :: xs, L)
  end.

(** ** The tables in memory *)

(** The number of longs of a table of type [t]. *)
Definition size (t : Z) : Z := if t =? 0 then 2 else 1 + deg t.

Definition words_at (m : gmap Z Z) (a : Z) (l : list Z) : Prop :=
  ∀ i x, l !! i = Some x → m !! (a + 4 * Z.of_nat i) = Some x.

Definition apart (a n b k : Z) : Prop := ∀ i j, 0 ≤ i < n → 0 ≤ j < k → a + 4 * i ≠ b + 4 * j.

(** The position of the front pointer for that of the rear pointer. *)
Definition front (t r : Z) : Z := (r + sep t) mod deg t.

(** The table [c] with its rear pointer at [r] is the generator [g]. *)
Definition good (c : list Z) (r : Z) (g : gen) : Prop :=
  Z.of_nat (length c) = size g.1 - 1 ∧ 0 ≤ g.1 < MAX_TYPES ∧
  if g.1 =? 0 then c = g.2 else 0 ≤ r < deg g.1 ∧ g.2 = rot (Z.to_nat (front g.1 r)) c.

Definition header (t r : Z) : Z := if t =? 0 then t else MAX_TYPES * r + t.

Record in_use (s : rng) (a : Z) (g : gen) : Prop := {
  iu_state : state s = a + 4;
  iu_type : rand_type s = g.1;
  iu_deg : rand_deg s = deg g.1;
  iu_sep : rand_sep s = sep g.1;
  iu_end : end_ptr s = a + 4 + 4 * deg g.1;
  iu_table : ∃ h c r, words_at (words s) a (h :: c) ∧ good c r g ∧
    (g.1 ≠ 0 → rptr s = a + 4 + 4 * r ∧ fptr s = a + 4 + 4 * front g.1 r);
}.

Definition saved (m : gmap Z Z) (a : Z) (g : gen) : Prop :=
  ∃ c r, words_at m a (header g.1 r :: c) ∧ good c r g.

(** [M]: the addresses of the program's longs. *)
Record rel (M : gset Z) (s : rng) (L : lib) : Prop := {
  re_dom : dom (words s) = M;
  re_cur : ∃ g, gens L !! cur L = Some g ∧ in_use s (cur L) g;
  re_saved a g : a ≠ cur L → gens L !! a = Some g → saved (words s) a g;
  re_apart a b g g' : a ≠ b → gens L !! a = Some g → gens L !! b = Some g' → apart a (size g.1) b (size g'.1);
}.

(** What a caller has to respect: setstate is given a table, initstate memory
    of the program that no other table lies in. *)
Definition allowed (M : gset Z) (k : call) (L : lib) : Prop :=
  match k with
  | Random | Srandom _ => True
  | Setstate a => a ≠ cur L ∧ is_Some (gens L !! a)
  | Initstate _ a n => n < BREAK_0 ∨
      (∀ i, 0 ≤ i < size (type_for n) → a + 4 * i ∈ M) ∧
      ∀ b g, b ≠ a → gens L !! b = Some g → apart a (size (type_for n)) b (size g.1)
  end.
Fixpoint all_allowed (M : gset Z) (ks : list call) (L : lib) : Prop :=
  match ks with [] => True | k :: ks => allowed M k L ∧ all_allowed M ks (lib_call k L).2 end.

(** ** Proofs *)

Lemma deg_cases t : 0 ≤ t < MAX_TYPES → t ≠ 0 → 7 ≤ deg t ≤ 63 ∧ 1 ≤ sep t ≤ 3.
Proof.
  unfold MAX_TYPES. intros. assert (t = 1 ∨ t = 2 ∨ t = 3 ∨ t = 4) as [->|[->|[->| ->]]] by lia; repeat split; vm_compute; congruence.
Qed.

Lemma size_range t : 0 ≤ t < MAX_TYPES → 2 ≤ size t.
Proof.
  intros Ht. unfold size. destruct (Z.eqb_spec t 0); [lia|]. destruct (deg_cases t); [done..|lia].
Qed.

Lemma words_store m a l i x :
  words_at m a l → (i < length l)%nat → words_at (<[a + 4 * Z.of_nat i := x]> m) a (<[i := x]> l).
Proof.
  intros Hl Hi j y Hj. destruct (decide (i = j)) as [<-|Hne].
  - rewrite list_lookup_insert_eq in Hj by done. injection Hj as <-. by rewrite lookup_insert_eq.
  - rewrite list_lookup_insert_ne in Hj by done. rewrite lookup_insert_ne by lia. by apply Hl.
Qed.

Lemma words_other m a l b n i x :
  words_at m a l → apart b n a (Z.of_nat (length l)) → 0 ≤ i < n → words_at (<[b + 4 * i := x]> m) a l.
Proof.
  intros Hl Hap Hi j y Hj. pose proof (lookup_lt_Some _ _ _ Hj). rewrite lookup_insert_ne; [by apply Hl|].
  apply Hap; lia.
Qed.

Lemma apart_sym a n b k : apart a n b k → apart b k a n.
Proof. intros Hap i j Hi Hj E. by apply (Hap j i). Qed.

(** Replacing the oldest number and moving on. *)
Lemma rot_step f c v :
  (f < length c)%nat →
  rot (S f) (<[f := v]> c) = drop 1 (rot f c) ++ [v] ∧
  rot f c !! 0%nat = c !! f ∧ length (rot f c) = length c.
Proof.
  intros Hf. unfold rot. destruct (lookup_lt_is_Some_2 c f Hf) as [x Hx].
  rewrite (drop_S _ _ _ Hx). split_and!; [|done|].
  - rewrite drop_insert_lt by lia. rewrite (take_S_r _ _ v) by (by rewrite list_lookup_insert_eq).
    rewrite take_insert_ge by done. cbn. by rewrite app_assoc.
  - rewrite length_app. cbn. rewrite length_drop, length_take. lia.
Qed.

Lemma rot_rear t r c :
  0 < t < MAX_TYPES → 0 ≤ r < deg t → Z.of_nat (length c) = deg t →
  rot (Z.to_nat (front t r)) c !! Z.to_nat (deg t - sep t) = c !! Z.to_nat r.
Proof.
  intros Ht Hr Hc. destruct (deg_cases t) as [Hd Hs]; [lia..|]. unfold rot, front.
  destruct (decide (r + sep t < deg t)) as [Hlt|Hge].
  - rewrite Z.mod_small by lia. rewrite lookup_app_r by (rewrite length_drop; lia).
    rewrite length_drop, lookup_take_lt by lia. f_equal. lia.
  - assert (E : (r + sep t) mod deg t = r + sep t - deg t).
    { symmetry. apply (Z.mod_unique_pos _ _ 1); lia. }
    rewrite E, lookup_app_l by (rewrite length_drop; lia). rewrite lookup_drop. f_equal. lia.
Qed.

Lemma rot_full c : rot (length c) c = rot 0 c.
Proof. unfold rot. rewrite drop_ge, take_ge, take_0 by lia. cbn. by rewrite app_nil_r. Qed.

Lemma front_next t r : deg t ≠ 0 → front t ((r + 1) mod deg t) = (front t r + 1) mod deg t.
Proof. intros. unfold front. rewrite !Zplus_mod_idemp_l. f_equal. lia. Qed.

Lemma front_range t r : 0 < deg t → 0 ≤ front t r < deg t.
Proof. intros. by apply Z.mod_pos_bound. Qed.

Lemma mod_next x n : 0 ≤ x < n → (x + 1) mod n = if x + 1 =? n then 0 else x + 1.
Proof.
  intros. destruct (Z.eqb_spec (x + 1) n) as [->|]; [by apply Z_mod_same_full|]. apply Z.mod_small. lia.
Qed.

(** What a call leaves alone: everything but the table in use. *)
Record frame (a n : Z) (s s' : rng) : Prop := {
  fr_words b : (∀ i, 0 ≤ i < n → b ≠ a + 4 * i) → words s' !! b = words s !! b;
  fr_dom : dom (words s') = dom (words s);
}.

Lemma frame_refl a n s : frame a n s s.
Proof. by split. Qed.
Lemma frame_trans a n s1 s2 s3 : frame a n s1 s2 → frame a n s2 s3 → frame a n s1 s3.
Proof. intros [F1 D1] [F2 D2]. split; [|congruence]. intros b Hb. rewrite F2, F1; done. Qed.

Lemma load_run s a l i x b :
  words_at (words s) a l → l !! i = Some x → b = a + 4 * Z.of_nat i → load b s = Done x.
Proof. intros Hl Hi ->. unfold load. by rewrite (Hl _ _ Hi). Qed.

Lemma store_run s a l i v b :
  words_at (words s) a l → (i < length l)%nat → b = a + 4 * Z.of_nat i →
  ∃ s', store b v s = Done s' ∧ words_at (words s') a (<[i := v]> l) ∧ frame a (Z.of_nat (length l)) s s' ∧
    s' = Rng (words s') (fptr s) (rptr s) (state s) (rand_type s) (rand_deg s) (rand_sep s) (end_ptr s).
Proof.
  intros Hl Hi ->. destruct (lookup_lt_is_Some_2 l i Hi) as [x Hx]. unfold store. pose proof (Hl _ _ Hx) as Hm. rewrite Hm.
  eexists. split; [done|]. cbn [words]. split_and!; [by apply words_store| |done]. split; cbn [words].
  - intros b Hb. rewrite lookup_insert_ne; [done|]. intros <-. apply (Hb (Z.of_nat i)); lia.
  - rewrite dom_insert_lookup_L; eauto.
Qed.

Lemma ptrs_eq (i f r f' r' : Z) s : f = f' → r = r' → Done (i, set_ptrs f r s) = Done (i, set_ptrs f' r' s).
Proof. by intros -> ->. Qed.

Lemma random_run s a g :
  in_use s a g →
  ∃ s', random s = Done ((gen_next g).1, s') ∧ in_use s' a (gen_next g).2 ∧ frame a (size g.1) s s'.
Proof.
  destruct g as [t w]. intros [Hst Hty Hde Hse Hen (h & c & r & Hm & (Hlen & Ht & Hg) & Hp)].
  cbn [fst snd] in *. unfold random, random_unlocked, cell, SIZEOF_LONG, TYPE_0. rewrite Hty, Hst. cbn [gen_next].
  assert (Hsz : Z.of_nat (length (h :: c)) = size t) by (cbn [length]; lia).
  unfold size in Hlen. destruct (Z.eqb_spec t 0) as [E|Hne].
  - subst w. destruct c as [|x [|]]; cbn in Hlen; try lia.
    rewrite (load_run s a [h; x] 1 x) by (done || lia). cbn [mbind outcome_bind nth].
    destruct (store_run s a [h; x] 1 (Z.land (s32 (x * 1103515245 + 12345)) 0x7fffffff) (a + 4 + 4 * 0))
      as (s' & -> & Hm' & Hfr & Es); [done|cbn; lia|lia|]. cbn [mbind outcome_bind].
    eexists. split; [done|]. rewrite Hsz in Hfr. split; [|exact Hfr]. rewrite Es. split; cbn [fst snd state rand_type rand_deg rand_sep end_ptr words]; try done.
    eexists h, _, r. split; [exact Hm'|]. split; [|intros; congruence]. unfold good, size. cbn [fst snd length]. rewrite E. done.
  - destruct Hg as [Hr ->]. destruct (Hp Hne) as [Hrp Hfp]. destruct (deg_cases t) as [Hd Hs]; [done..|].
    pose proof (front_range t r ltac:(lia)) as Hf. set (f := front t r) in *.
    assert (Hf' : (Z.to_nat f < length c)%nat) by lia. destruct (lookup_lt_is_Some_2 c _ Hf') as [x Hx].
    assert (Hr' : (Z.to_nat r < length c)%nat) by lia. destruct (lookup_lt_is_Some_2 c _ Hr') as [y Hy].
    rewrite (load_run s a (h :: c) (S (Z.to_nat f)) x (fptr s)); [|exact Hm|exact Hx|lia]. cbn [mbind outcome_bind].
    rewrite (load_run s a (h :: c) (S (Z.to_nat r)) y (rptr s)); [|exact Hm|exact Hy|lia]. cbn [mbind outcome_bind].
    destruct (rot_step (Z.to_nat f) c (s32 (x + y)) Hf') as (Hrot & H0 & _).
    assert (Ex : nth 0 (rot (Z.to_nat f) c) 0 = x) by (by rewrite nth_lookup, H0, Hx).
    assert (Ey : nth (Z.to_nat (deg t - sep t)) (rot (Z.to_nat f) c) 0 = y) by (unfold f; rewrite nth_lookup, rot_rear, Hy; done || lia).
    rewrite Ex, Ey.
    destruct (store_run s a (h :: c) (S (Z.to_nat f)) (s32 (x + y)) (fptr s)) as (s' & -> & Hm' & Hfr & Es); [done|cbn; lia|lia|].
    cbn [mbind outcome_bind]. rewrite Hsz in Hfr. cbn [list_insert insert] in Hm'.
    set (r1 := (r + 1) mod deg t). set (f1 := (f + 1) mod deg t).
    exists (set_ptrs (a + 4 + 4 * f1) (a + 4 + 4 * r1) s').
    assert (Eend : end_ptr s' = a + 4 + 4 * deg t) by (rewrite Es; exact Hen).
    assert (Est : state s' = a + 4) by (rewrite Es; exact Hst).
    split_and!.
    + rewrite Hfp, Hrp, Eend, Est. unfold f1, r1. rewrite !mod_next by lia.
      destruct (Z.eqb_spec (f + 1) (deg t)) as [Ef|Ef].
      * replace (a + 4 + 4 * f + 4 >=? a + 4 + 4 * deg t) with true by lia.
        assert (r + 1 ≠ deg t) as Hr1.
        { intros E. unfold f, front in Ef. replace (r + sep t) with (sep t - 1 + 1 * deg t) in Ef by lia.
          rewrite Z_mod_plus_full, Z.mod_small in Ef by lia. lia. }
        rewrite (proj2 (Z.eqb_neq _ _) Hr1). apply ptrs_eq; lia.
      * replace (a + 4 + 4 * f + 4 >=? a + 4 + 4 * deg t) with false by lia.
        destruct (Z.eqb_spec (r + 1) (deg t)).
        -- replace (a + 4 + 4 * r + 4 >=? a + 4 + 4 * deg t) with true by lia. apply ptrs_eq; lia.
        -- replace (a + 4 + 4 * r + 4 >=? a + 4 + 4 * deg t) with false by lia. apply ptrs_eq; lia.
    + rewrite Es. split; cbn [fst snd state rand_type rand_deg rand_sep end_ptr words set_ptrs rptr fptr]; try done. exists h, (<[Z.to_nat f := s32 (x + y)]> c), r1. split; [exact Hm'|].
      assert (Hfr1 : front t r1 = f1) by (by apply front_next; lia). split.
      * unfold good. cbn [fst snd]. rewrite (proj2 (Z.eqb_neq _ _) Hne), length_insert. unfold size.
        rewrite (proj2 (Z.eqb_neq _ _) Hne). split; [lia|]. split; [done|]. split; [apply Z.mod_pos_bound; lia|].
        rewrite Hfr1, <- Hrot. unfold f1. rewrite mod_next by lia. destruct (Z.eqb_spec (f + 1) (deg t)).
        -- replace (S (Z.to_nat f)) with (length (<[Z.to_nat f:=s32 (x + y)]> c)) by (rewrite length_insert; lia). apply rot_full.
        -- by replace (Z.to_nat (f + 1)) with (S (Z.to_nat f)) by lia.
      * intros _. by rewrite Hfr1.
    + destruct Hfr. by split.
Qed.

Lemma gen_next_type g : (gen_next g).2.1 = g.1.
Proof. destruct g as [t w]. cbn. by destruct (t =? 0). Qed.

Lemma cycle_run n s a g :
  in_use s a g →
  ∃ s', cycle n s = Done s' ∧ in_use s' a (Nat.iter n (λ g, (gen_next g).2) g) ∧ frame a (size g.1) s s'.
Proof.
  revert s g. induction n as [|n IH]; intros s g Hu; [by exists s; split_and!; [..|apply frame_refl]|].
  cbn [cycle]. destruct (random_run s a g Hu) as (s1 & Hrun & Hu1 & Hf1). unfold random in Hrun. rewrite Hrun.
  cbn [mbind outcome_bind]. destruct (IH s1 _ Hu1) as (s2 & -> & Hu2 & Hf2). exists s2. split_and!; [done| |].
  - by rewrite Nat.iter_succ_r.
  - rewrite gen_next_type in Hf2. by eapply frame_trans.
Qed.

(** The variables are set for a table of type [t] at [a]. *)
Record placed (s : rng) (a t : Z) : Prop := {
  pl_state : state s = a + 4;
  pl_type : rand_type s = t;
  pl_deg : rand_deg s = deg t;
  pl_sep : rand_sep s = sep t;
  pl_end : end_ptr s = a + 4 + 4 * deg t;
}.

(** [s'] differs from [s] in memory only. *)
Definition same_vars (s s' : rng) : Prop :=
  s' = Rng (words s') (fptr s) (rptr s) (state s) (rand_type s) (rand_deg s) (rand_sep s) (end_ptr s).

Lemma same_vars_trans s1 s2 s3 : same_vars s1 s2 → same_vars s2 s3 → same_vars s1 s3.
Proof. unfold same_vars. intros E1 E2. rewrite E2, E1. done. Qed.

Lemma placed_same s s' a t : same_vars s s' → placed s a t → placed s' a t.
Proof. intros -> [? ? ? ? ?]. by split. Qed.

Lemma fill_run n k x s a l :
  state s = a + 4 → words_at (words s) a l → (S k + n ≤ length l)%nat → l !! k = Some x →
  ∃ s', fill n (Z.of_nat k) s = Done s' ∧ same_vars s s' ∧ frame a (Z.of_nat (length l)) s s' ∧
    words_at (words s') a (take (S k) l ++ congruential n (s32 (1103515245 * x + 12345)) ++ drop (S k + n) l).
Proof.
  revert k x s l. induction n as [|n IH]; intros k x s l Hst Hm Hk Hx; cbn [fill congruential].
  { exists s. split_and!; [done|by destruct s|apply frame_refl|]. cbn. by rewrite Nat.add_0_r, take_drop. }
  set (v := s32 (1103515245 * x + 12345)). unfold cell, SIZEOF_LONG. rewrite Hst.
  rewrite (load_run s a l k x); [|done..|lia]. cbn [mbind outcome_bind]. fold v.
  destruct (store_run s a l (S k) v (a + 4 + 4 * Z.of_nat k)) as (s1 & -> & Hm1 & Hf1 & E1); [done|lia|lia|].
  cbn [mbind outcome_bind]. replace (Z.of_nat k + 1) with (Z.of_nat (S k)) by lia.
  destruct (IH (S k) v s1 (<[S k := v]> l)) as (s2 & -> & E2 & Hf2 & Hm2);
    [by rewrite E1|done|rewrite length_insert; lia|by rewrite list_lookup_insert_eq by lia|].
  exists s2. rewrite length_insert in Hf2. split_and!; [done|by eapply same_vars_trans|by eapply frame_trans|].
  rewrite (take_S_r _ _ v) in Hm2 by (by rewrite list_lookup_insert_eq by lia).
  rewrite take_insert_ge, drop_insert_lt, <- app_assoc in Hm2 by lia. fold v in Hm2.
  replace (S k + S n)%nat with (S (S k) + n)%nat by lia. exact Hm2.
Qed.

Lemma congruential_length n x : length (congruential n x) = n.
Proof. revert x. induction n as [|n IH]; intros x; cbn; [done|by rewrite IH]. Qed.

Lemma seeded_type t x : (seeded t x).1 = t.
Proof.
  unfold seeded. destruct (t =? 0); [done|]. generalize (Z.to_nat (10 * deg t)) as n.
  induction n as [|n IH]; [done|]. cbn [Nat.iter nat_rect]. by rewrite gen_next_type.
Qed.

Lemma srandom_run s a t l x :
  placed s a t → 0 ≤ t < MAX_TYPES → words_at (words s) a l → Z.of_nat (length l) = size t →
  ∃ s', srandom x s = Done s' ∧ in_use s' a (seeded t x) ∧ frame a (size t) s s'.
Proof.
  intros [Hst Hty Hde Hse Hen] Ht Hm Hl. pose proof (size_range t Ht) as Hsz.
  destruct l as [|h c]; [cbn in Hl; lia|]. destruct c as [|x0 c]; [cbn in Hl; lia|].
  unfold srandom, cell, SIZEOF_LONG, TYPE_0, seeded. rewrite Hty, Hst.
  destruct (store_run s a (h :: x0 :: c) 1 (s32 x) (a + 4 + 4 * 0)) as (s1 & -> & Hm1 & Hf1 & E1); [done|cbn; lia|lia|].
  rewrite Hl in Hf1. cbn [insert list_insert] in Hm1.
  assert (P1 : placed s1 a t) by (by eapply placed_same; [exact E1|]).
  destruct (Z.eqb_spec t 0) as [E|Hne].
  { exists s1. split; [done|]. split; [|done]. destruct P1. split; try done. exists h, (s32 x :: c), 0.
    split; [exact Hm1|]. split; [|intros; cbn in *; congruence]. unfold good, size in *. cbn [fst snd length] in *.
    rewrite E in *. cbn in *. destruct c; [done|cbn in Hl; lia]. }
  destruct (deg_cases t) as [Hd Hs]; [done..|]. unfold size in Hl. rewrite (proj2 (Z.eqb_neq _ _) Hne) in Hl.
  destruct P1 as [Q1 Q2 Q3 Q4 Q5]. cbn [mbind outcome_bind]. rewrite Q3.
  destruct (fill_run (Z.to_nat (deg t - 1)) 1 (s32 x) s1 a (h :: s32 x :: c)) as (s2 & Hrun & E2 & Hf2 & Hm2);
    [done|done|cbn [length] in *; lia|done|]. change (Z.of_nat 1) with 1 in Hrun. rewrite Hrun. cbn [mbind outcome_bind].
  rewrite (drop_ge _ (S 1 + _)) in Hm2 by (cbn [length] in *; lia). rewrite app_nil_r in Hm2.
  assert (Ec : take 2 (h :: s32 x :: c) ++ congruential (Z.to_nat (deg t - 1)) (s32 (1103515245 * s32 x + 12345)) =
    h :: congruential (Z.to_nat (deg t)) (s32 x)).
  { replace (Z.to_nat (deg t)) with (S (Z.to_nat (deg t - 1))) by lia. done. }
  rewrite Ec in Hm2. clear Ec Hrun. set (c2 := congruential (Z.to_nat (deg t)) (s32 x)) in *.
  assert (P2 : placed s2 a t) by (eapply placed_same; [exact E2|by split]). destruct P2 as [R1 R2 R3 R4 R5].
  rewrite R1, R3, R4.
  destruct (cycle_run (Z.to_nat (10 * deg t)) (set_ptrs (a + 4 + 4 * sep t) (a + 4 + 4 * 0) s2) a (t, rot (Z.to_nat (sep t)) c2))
    as (s3 & -> & Hu3 & Hf3).
  { split; try done. exists h, c2, 0. split; [exact Hm2|]. unfold good, size, front. cbn [fst snd].
    rewrite (proj2 (Z.eqb_neq _ _) Hne). rewrite Z.add_0_l, Z.mod_small by lia. split; [|done].
    unfold c2 at 1. rewrite congruential_length. split_and!; [lia|apply Ht|apply Ht|lia|lia|done]. }
  exists s3. split; [done|]. split; [exact Hu3|]. eapply frame_trans; [exact Hf1|].
  eapply frame_trans; [|exact Hf3]. destruct Hf2 as [F D]. cbn [fst]. split; [|done]. intros b Hb. cbn [words set_ptrs].
  apply F. intros i Hi. apply Hb. unfold size. rewrite (proj2 (Z.eqb_neq _ _) Hne). cbn [length] in *. lia.
Qed.

Lemma save_run s a g :
  in_use s a g →
  ∃ s', save s = Done s' ∧ in_use s' a g ∧ saved (words s') a g ∧ same_vars s s' ∧ frame a (size g.1) s s'.
Proof.
  intros [Hst Hty Hde Hse Hen (h & c & r & Hm & Hg & Hp)]. unfold save, cell, SIZEOF_LONG. rewrite Hst.
  set (v := if _ : bool then _ else _).
  destruct (store_run s a (h :: c) 0 v (a + 4 + 4 * -1)) as (s' & -> & Hm' & Hf & E); [done|cbn; lia|lia|].
  exists s'. cbn [insert list_insert] in Hm'. split; [done|]. split_and!.
  - rewrite E. split; try done. cbn [words rptr fptr]. by exists v, c, r.
  - exists c, r. split; [|done]. replace (header g.1 r) with v; [done|]. unfold v, header, TYPE_0. rewrite Hty.
    destruct (Z.eqb_spec g.1 0) as [|Hne]; [done|]. destruct (Hp Hne) as [-> _].
    replace (a + 4 + 4 * r - (a + 4)) with (r * 4) by lia. by rewrite Z.quot_mul by lia.
  - exact E.
  - destruct Hg as (Hl & _). cbn [length] in Hf. by replace (size g.1) with (Z.of_nat (S (length c))) by lia.
Qed.

Lemma words_frame a n s s' b l :
  frame a n s s' → apart a n b (Z.of_nat (length l)) → words_at (words s) b l → words_at (words s') b l.
Proof.
  intros [F _] Hap Hl i x Hi. rewrite F; [by apply Hl|]. intros j Hj E. pose proof (lookup_lt_Some _ _ _ Hi).
  apply (Hap j (Z.of_nat i)); [done|lia|done].
Qed.

Lemma saved_frame a n s s' b g : frame a n s s' → apart a n b (size g.1) → saved (words s) b g → saved (words s') b g.
Proof.
  intros Hf Hap (c & r & Hm & Hg). exists c, r. split; [|done]. eapply words_frame; [done| |done].
  destruct Hg as (Hl & _). cbn [length]. by replace (Z.of_nat (S (length c))) with (size g.1) by lia.
Qed.

(** A call that works on the table in use. *)
Lemma rel_current M s L g s' g' :
  rel M s L → gens L !! cur L = Some g → in_use s' (cur L) g' → g'.1 = g.1 → frame (cur L) (size g.1) s s' →
  rel M s' (Lib (cur L) (<[cur L := g']> (gens L))).
Proof.
  intros [Hd Hc Hs Ha] Hg Hu Ht Hf. split; cbn [cur gens].
  - rewrite (fr_dom _ _ _ _ Hf). done.
  - exists g'. by rewrite lookup_insert_eq.
  - intros a e Hne. rewrite lookup_insert_ne by done. intros He. eapply saved_frame; [done| |by apply Hs]. by apply (Ha (cur L) a).
  - intros a b e e' Hne He He'.
    assert (Hold : ∀ x y, <[cur L := g']> (gens L) !! x = Some y → ∃ z, gens L !! x = Some z ∧ z.1 = y.1).
    { intros x y. destruct (decide (x = cur L)) as [->|]; [rewrite lookup_insert_eq|rewrite lookup_insert_ne by done; eauto].
      intros [= <-]. eauto. }
    destruct (Hold _ _ He) as (z & Hz & <-), (Hold _ _ He') as (z' & Hz' & <-). by apply Ha.
Qed.

Lemma good_header t r c w : good c r (t, w) → Z.rem (header t r) MAX_TYPES = t ∧ (t ≠ 0 → header t r `quot` MAX_TYPES = r).
Proof.
  intros (_ & Ht & Hg). cbn [fst snd] in *. unfold header, MAX_TYPES in *. destruct (Z.eqb_spec t 0) as [->|Hne]; [done|].
  destruct Hg as [Hr _]. rewrite Z.rem_mod_nonneg, Z.quot_div_nonneg by lia. Z.to_euclidean_division_equations. lia.
Qed.

(** setstate of another table. *)
Lemma setstate_run M s L a g :
  rel M s L → a ≠ cur L → gens L !! a = Some g →
  ∃ s', setstate a s = Done (Some (cur L), s') ∧ rel M s' (Lib a (gens L)).
Proof.
  intros HR Hne Hg. pose proof HR as [Hd (g0 & Hg0 & Hu) Hs Ha]. destruct (Hs a g Hne Hg) as (c & r & Hm & Hgood).
  destruct g as [t w]. destruct (good_header t r c w Hgood) as [Et Er]. pose proof Hgood as (Hl & Ht & Hg2). cbn [fst snd] in *.
  unfold setstate. rewrite (load_run s a (header t r :: c) 0 (header t r)); [|done..|lia]. cbn [mbind outcome_bind].
  destruct (save_run s (cur L) g0 Hu) as (s1 & -> & Hu1 & Hsv & E1 & Hf1). cbn [mbind outcome_bind]. rewrite Et.
  replace ((0 <=? t) && (t <? MAX_TYPES)) with true by lia.
  assert (Ecur : cell s (-1) = cur L) by (unfold cell, SIZEOF_LONG; rewrite (iu_state _ _ _ Hu); lia). rewrite Ecur.
  eexists. split; [done|].
  assert (Hm1 : words_at (words s1) a (header t r :: c)).
  { eapply words_frame; [exact Hf1| |done]. cbn [length]. replace (Z.of_nat (S (length c))) with (size t) by lia.
    by apply (Ha (cur L) a g0 (t, w)). }
  set (s2 := set_type t a s1). split; cbn [cur gens].
  - rewrite <- Hd, <- (fr_dom _ _ _ _ Hf1). by destruct (t =? TYPE_0).
  - exists (t, w). split; [done|]. unfold TYPE_0. destruct (Z.eqb_spec t 0) as [E0|Hn0].
    + split; try done. cbn [words set_type s2]. exists (header t r), c, r. split; [done|]. split; [done|]. cbn. congruence.
    + destruct Hg2 as [Hr Hw]. destruct (deg_cases t) as [Hdeg Hsep]; [done..|]. rewrite (Er Hn0).
      split; try done. cbn [words set_ptrs set_type s2 rptr fptr rand_sep rand_deg]. exists (header t r), c, r. split; [done|].
      split; [done|]. intros _. unfold cell, SIZEOF_LONG. cbn [state set_type s2 fst]. split; [done|].
      unfold front. by rewrite Z.rem_mod_nonneg by lia.
  - intros b e Hb He. assert (Ew : words (if t =? TYPE_0 then s2 else set_ptrs (cell s2 (Z.rem (header t r `quot` MAX_TYPES + rand_sep s2) (rand_deg s2))) (cell s2 (header t r `quot` MAX_TYPES)) s2) = words s1) by (by destruct (t =? TYPE_0)).
    rewrite Ew. destruct (decide (b = cur L)) as [->|Hbc]; [by simplify_eq|].
    eapply saved_frame; [exact Hf1|by apply (Ha (cur L) b g0 e)|by apply Hs].
  - done.
Qed.

Lemma words_exist m a n :
  (∀ i, 0 ≤ i < Z.of_nat n → is_Some (m !! (a + 4 * i))) → ∃ l, length l = n ∧ words_at m a l.
Proof.
  intros Hm. exists ((λ i, default 0 (m !! (a + 4 * Z.of_nat i))) <$> seq 0 n). split; [by rewrite length_fmap, length_seq|].
  intros i x. rewrite list_lookup_fmap, fmap_Some. intros (j & [-> Hj]%lookup_seq & ->). cbn.
  destruct (Hm (Z.of_nat i)) as [y ->]; [lia|done].
Qed.

Lemma type_for_range n : 0 ≤ type_for n < MAX_TYPES.
Proof. unfold type_for, MAX_TYPES. repeat case_match; lia. Qed.

Lemma initstate_run M s L seed a n :
  rel M s L → allowed M (Initstate seed a n) L →
  ∃ s', initstate seed a n s = Done (if n <? BREAK_0 then None else Some (cur L), s') ∧
    rel M s' (lib_call (Initstate seed a n) L).2.
Proof.
  intros HR Hok. pose proof HR as [Hd (g & Hg & Hu) Hs Ha]. unfold initstate. cbn [lib_call allowed] in *.
  destruct (save_run s (cur L) g Hu) as (s1 & -> & Hu1 & Hsv & E1 & Hf1). cbn [mbind outcome_bind].
  assert (Ecur : cell s (-1) = cur L) by (unfold cell, SIZEOF_LONG; rewrite (iu_state _ _ _ Hu); lia). rewrite Ecur.
  destruct (Z.ltb_spec n BREAK_0) as [Hn|Hn]; cbn [snd].
  { exists s1. split; [done|]. pose proof (rel_current M s L g s1 g HR Hg Hu1 eq_refl Hf1) as HR1.
    rewrite insert_id in HR1 by done. by destruct L. }
  destruct Hok as [?|[Hmem Hapart]]; [lia|]. fold (type_for n). set (t := type_for n) in *.
  pose proof (type_for_range n) as Ht. fold t in Ht. pose proof (size_range t Ht) as Hsz.
  destruct (words_exist (words s1) a (Z.to_nat (size t))) as (l & Hl & Hm).
  { intros i Hi. apply elem_of_dom. rewrite (fr_dom _ _ _ _ Hf1), Hd. apply Hmem. lia. }
  destruct (srandom_run (set_type t a s1) a t l seed) as (s2 & -> & Hu2 & Hf2); [done|done|done|lia|]. cbn [mbind outcome_bind].
  destruct (save_run s2 a _ Hu2) as (s3 & -> & Hu3 & _ & _ & Hf3). cbn [mbind outcome_bind]. rewrite seeded_type in Hf3.
  exists s3. split; [done|].
  assert (Hf : frame a (size t) s1 s3).
  { eapply frame_trans; [|exact Hf3]. destruct Hf2 as [F D]. by split. }
  split; cbn [cur gens].
  - rewrite (fr_dom _ _ _ _ Hf), (fr_dom _ _ _ _ Hf1). done.
  - exists (seeded t seed). by rewrite lookup_insert_eq.
  - intros b e Hb. rewrite lookup_insert_ne by done. intros He. eapply saved_frame; [exact Hf|by apply Hapart|].
    destruct (decide (b = cur L)) as [->|Hbc]; [by simplify_eq|].
    eapply saved_frame; [exact Hf1|by apply (Ha (cur L) b g e)|by apply Hs].
  - intros b b' e e' Hne. destruct (decide (b = a)) as [->|], (decide (b' = a)) as [->|];
      rewrite ?lookup_insert_eq, ?lookup_insert_ne by done; intros He He'; simplify_eq; rewrite ?seeded_type.
    + by apply Hapart.
    + apply apart_sym. by apply Hapart.
    + by apply Ha.
Qed.

Lemma call_refines M s L k :
  rel M s L → allowed M k L →
  ∃ s', do_call k s = Done ((lib_call k L).1, s') ∧ rel M s' (lib_call k L).2.
Proof.
  intros HR Hok. pose proof (re_cur _ _ _ HR) as (g & Hg & Hu). destruct k as [|x|seed a n|a]; cbn [do_call].
  - destruct (random_run s (cur L) g Hu) as (s' & -> & Hu' & Hf). cbn [mbind outcome_bind lib_call]. rewrite Hg.
    exists s'. split; [done|]. apply (rel_current M s L g); [done..|apply gen_next_type|done].
  - cbn [lib_call]. rewrite Hg. destruct Hu as [? ? ? ? ? (h & c & r & Hm & (Hl & Ht & _) & _)].
    destruct (srandom_run s (cur L) g.1 (h :: c) x) as (s' & -> & Hu' & Hf); [by split|done|done|cbn [length]; lia|].
    exists s'. split; [done|]. apply (rel_current M s L g); [done..|apply seeded_type|done].
  - destruct (initstate_run M s L seed a n HR Hok) as (s' & -> & HR'). exists s'. split; [|done].
    cbn [mbind outcome_bind lib_call]. by destruct (n <? BREAK_0).
  - cbn [allowed] in Hok. destruct Hok as [Hne [g' Hg']].
    destruct (setstate_run M s L a g' HR Hne Hg') as (s' & -> & HR'). by exists s'.
Qed.

Lemma do_calls_refine M s L ks :
  rel M s L → all_allowed M ks L →
  ∃ s', do_calls ks s = Done ((lib_calls ks L).1, s') ∧ rel M s' (lib_calls ks L).2.
Proof.
  revert s L. induction ks as [|k ks IH]; intros s L HR Hok; [by exists s|]. cbn [do_calls lib_calls]. destruct Hok as [Hk Hks].
  destruct (call_refines M s L k HR Hk) as (s1 & -> & HR1). cbn [mbind outcome_bind].
  destruct (lib_call k L) as [x L1]. cbn [fst snd] in *. destruct (IH s1 L1 HR1 Hks) as (s2 & -> & HR2). cbn [mbind outcome_bind].
  exists s2. by destruct (lib_calls ks L1).
Qed.

Lemma gen_next_range g : 0 ≤ (gen_next g).1 < 2 ^ 31.
Proof.
  assert (Hb : ∀ x, 0 ≤ Z.land x 0x7fffffff < 2 ^ 31).
  { intros x. change 0x7fffffff with (Z.ones 31). rewrite Z.land_ones by lia. apply Z.mod_pos_bound. lia. }
  destruct g as [t w]. cbn [gen_next]. destruct (t =? 0); apply Hb.
Qed.

(** ** The library at its start *)

Definition lib_start (tbl : Z) : lib := Lib tbl {[ tbl := seeded 3 1 ]}.

Lemma put_words_lookup a l m i x : l !! i = Some x → put_words a l m !! (a + 4 * Z.of_nat i) = Some x.
Proof.
  revert a i. induction l as [|y l IH]; intros a [|i]; try done; cbn [put_words].
  - intros [= ->]. replace (a + 4 * Z.of_nat 0) with a by lia. apply lookup_insert_eq.
  - intros Hi. rewrite lookup_insert_ne by lia. rewrite <- (IH (a + SIZEOF_LONG) i Hi). f_equal. unfold SIZEOF_LONG. lia.
Qed.

Lemma randtbl_seeded : (seeded 3 1).2 = rot 3 (drop 1 randtbl).
Proof. vm_compute. reflexivity. Qed.

Lemma start_rel_of tbl m c g :
  randtbl = 3 :: c → length c = 31%nat → g = (3, rot 3 c) →
  rel (dom (words (rng_start tbl m))) (rng_start tbl m) (Lib tbl {[ tbl := g ]}).
Proof.
  intros Hc Hlen ->. split; cbn [cur gens].
  - done.
  - exists (3, rot 3 c). split; [apply lookup_singleton_eq|]. split; cbn [fst snd rng_start state rand_type rand_deg rand_sep end_ptr].
    + done.
    + done.
    + done.
    + done.
    + unfold SIZEOF_LONG. change (deg 3) with 31. lia.
    + exists 3, c, 0. split; [|split].
      * intros i x Hi. cbn [rng_start words]. apply put_words_lookup. by rewrite Hc.
      * unfold good. cbn [fst snd]. rewrite Hlen. split; [done|]. split; [done|]. split; [done|].
        change (Z.to_nat (front 3 0)) with 3%nat. reflexivity.
      * intros _. cbn [rng_start rptr fptr]. unfold SIZEOF_LONG. change (front 3 0) with 3. lia.
  - intros a g Hne. by rewrite lookup_singleton_ne.
  - intros a b g g' Hne Ha Hb. apply lookup_singleton_Some in Ha as [<- <-]. apply lookup_singleton_Some in Hb as [<- _]. done.
Qed.

Lemma start_rel tbl m : rel (dom (words (rng_start tbl m))) (rng_start tbl m) (lib_start tbl).
Proof.
  apply (start_rel_of tbl m (drop 1 randtbl)); [vm_compute; reflexivity..|].
  rewrite <- randtbl_seeded. rewrite <- (seeded_type 3 1) at 2. apply surjective_pairing.
Qed.

(** ** Properties *)



(** The value of an outcome that is known to return. *)
Definition result {A} (d : A) (r : outcome A) : A := match r with Done x => x | _ => d end.

Definition demo_one : Z * rng := result (0, rng_start 1000 ∅) (random (rng_start 1000 ∅)).
Definition demo_two : option Z * rng := result (None, rng_start 1000 ∅) (setstate 1000 demo_one.2).
Definition demo_three : Z * rng := result demo_one (random demo_one.2).
Definition demo_four : Z * rng := result demo_one (random demo_two.2).

(** setstate of the table that is in use does not leave the generator as
    it is, as the comment on it says, but goes back to the place at which the
    table was last saved: the next number is not the one that was due. *)
Theorem setstate_same_loses_place :
  random (rng_start 1000 ∅) = Done demo_one ∧ setstate 1000 demo_one.2 = Done (Some 1000, demo_two.2) ∧
  random demo_one.2 = Done demo_three ∧ random demo_two.2 = Done demo_four ∧ demo_three.1 ≠ demo_four.1.
Proof. split_and!; vm_compute; [reflexivity..|discriminate]. Qed.
