(* ===== verification/Lamebus.v ===== *)
(** * The LAMEbus and the timer card (kern/dev/lamebus: lamebus.c, ltimer.c;
      kern/arch/mips/mips/lamebus_mips.c; kern/dev/generic/rtclock.c)

    The bus has 32 slots, the last of which is the controller.  The registers
    of the cards and what the interrupt handlers of the drivers do are
    parameters ([Bus]); a handler is known by its address.  Register accesses
    take time and may have effects, so they are steps of the world.

    The theorems: lamebus_probe finds the first free slot with a card that
    fits; lamebus_interrupt calls the handlers of exactly the slots that
    interrupt, once each and in order, and then no slot interrupts; interrupts
    from nowhere are never given up on; the time read is a time at which the
    clock stood during the call. *)

From S2P Require Import Prelude.

Definition CFGREG_VID : Z := 0.
Definition CFGREG_DID : Z := 4.
Definition CFGREG_DRL : Z := 8.
Definition CTLREG_RAMSZ : Z := 0x200.
Definition CTLREG_IRQS : Z := 0x204.
Definition CTLREG_PWR : Z := 0x208.
Definition LB_CONTROLLER_SLOT : Z := 31.
Definition LB_NSLOTS : Z := 32.
Definition LB_CONFIG_SIZE : Z := 1024.
Definition LB_SLOT_SIZE : Z := 65536.
Definition LB_BASEADDR : Z := 0xbfe00000.

(** The word at an address of the bus, and an interrupt handler with the
    data it is called with. *)
Class Bus (W : Type) := {
  mmio_read : Z → W → Z * W;
  mmio_write : Z → Z → W → W;
  irqfunc_call : Z → option Z → W → outcome W;
}.

Record lamebus_softc := Lamebus {
  ls_slotsinuse : Z;
  ls_devdata : list (option Z);
  ls_irqfuncs : list (option Z);
}.

Section Bus.
Context {W : Type} `{Bus W}.
Implicit Types (w : W) (sc : lamebus_softc).

Definition lamebus_map_area (slot offset : Z) : outcome Z :=
  kassert ((0 <=? slot) && (slot <? LB_NSLOTS));;
  Done (u32 (LB_BASEADDR + slot * LB_SLOT_SIZE + offset)).
Definition lamebus_read_register (slot offset : Z) w : outcome (Z * W) :=
  ptr ← lamebus_map_area slot offset; Done (mmio_read ptr w).
Definition lamebus_write_register (slot offset val : Z) w : outcome W :=
  ptr ← lamebus_map_area slot offset; Done (mmio_write ptr val w).

Definition read_cfg_register (slot offset : Z) w : outcome (Z * W) :=
  lamebus_read_register LB_CONTROLLER_SLOT (u32 (offset + LB_CONFIG_SIZE * slot)) w.
Definition write_cfg_register (slot offset val : Z) w : outcome W :=
  lamebus_write_register LB_CONTROLLER_SLOT (u32 (offset + LB_CONFIG_SIZE * slot)) val w.
Definition read_ctl_register (offset : Z) w : outcome (Z * W) := read_cfg_register LB_CONTROLLER_SLOT offset w.
Definition write_ctl_register (offset val : Z) w : outcome W := write_cfg_register LB_CONTROLLER_SLOT offset val w.

(** ** Slots *)

(** The bit of a slot in a word of bits. *)
Definition slot_mask (slot : Z) : Z := u32 (Z.shiftl 1 slot).
Definition masked (word slot : Z) : bool := negb (Z.land word (slot_mask slot) =? 0).

(** The loop of lamebus_probe with [n] slots to go. *)
Fixpoint probe_from (n : nat) (slot : Z) sc (vendorid deviceid lowver highver : Z) w : outcome (Z * W) :=
  match n with
  | O => Done (-1, w)
  | S n =>
      let next := probe_from n (slot + 1) sc vendorid deviceid lowver highver in
      if masked (ls_slotsinuse sc) slot then next w
      else
        '(val, w) ← read_cfg_register slot CFGREG_VID w;
        if negb (val =? vendorid) then next w
        else
          '(val, w) ← read_cfg_register slot CFGREG_DID w;
          if negb (val =? deviceid) then next w
          else
            '(val, w) ← read_cfg_register slot CFGREG_DRL w;
            if (val <? lowver) || (val >? highver) then next w
            else Done (slot, w)
  end.
Definition lamebus_probe sc (vendorid deviceid lowver highver : Z) w : outcome (Z * W) :=
  probe_from (Z.to_nat LB_NSLOTS) 0 sc vendorid deviceid lowver highver w.

Definition slot_ok (slot : Z) : bool := (0 <=? slot) && (slot <? LB_NSLOTS).

Definition lamebus_mark sc (slot : Z) : outcome lamebus_softc :=
  kassert (slot_ok slot);;
  if masked (ls_slotsinuse sc) slot then Panic
  else Done (Lamebus (Z.lor (ls_slotsinuse sc) (slot_mask slot)) (ls_devdata sc) (ls_irqfuncs sc)).

Definition lamebus_unmark sc (slot : Z) : outcome lamebus_softc :=
  kassert (slot_ok slot);;
  if negb (masked (ls_slotsinuse sc) slot) then Panic
  else Done (Lamebus (Z.ldiff (ls_slotsinuse sc) (slot_mask slot)) (ls_devdata sc) (ls_irqfuncs sc)).

Definition entry (l : list (option Z)) (slot : Z) : option Z := mjoin (l !! Z.to_nat slot).

Definition lamebus_attach_interrupt sc (slot : Z) (devdata : option Z) (irqfunc : Z) : outcome lamebus_softc :=
  kassert (slot_ok slot);;
  if negb (masked (ls_slotsinuse sc) slot) then Panic
  else
    kassert (bool_decide (entry (ls_devdata sc) slot = None));;
    kassert (bool_decide (entry (ls_irqfuncs sc) slot = None));;
    Done (Lamebus (ls_slotsinuse sc) (<[Z.to_nat slot := devdata]> (ls_devdata sc))
            (<[Z.to_nat slot := Some irqfunc]> (ls_irqfuncs sc))).

Definition lamebus_detach_interrupt sc (slot : Z) : outcome lamebus_softc :=
  kassert (slot_ok slot);;
  if negb (masked (ls_slotsinuse sc) slot) then Panic
  else
    kassert (negb (bool_decide (entry (ls_irqfuncs sc) slot = None)));;
    Done (Lamebus (ls_slotsinuse sc) (<[Z.to_nat slot := None]> (ls_devdata sc))
            (<[Z.to_nat slot := None]> (ls_irqfuncs sc))).

(** The structure that lamebus_init makes. *)
Definition lamebus_init : lamebus_softc :=
  Lamebus (slot_mask LB_CONTROLLER_SLOT) (replicate (Z.to_nat LB_NSLOTS) None) (replicate (Z.to_nat LB_NSLOTS) None).

(** ** Interrupts *)

(** The loop over the slots: [duds_this_time] and the world at its end. *)
Fixpoint dispatch (n : nat) (slot irqs duds : Z) sc w : outcome (Z * W) :=
  match n with
  | O => Done (duds, w)
  | S n =>
      if negb (masked irqs slot) then dispatch n (slot + 1) irqs duds sc w
      else if negb (masked (ls_slotsinuse sc) slot) then dispatch n (slot + 1) irqs (duds + 1) sc w
      else
        match entry (ls_irqfuncs sc) slot with
        | None => dispatch n (slot + 1) irqs (duds + 1) sc w
        | Some irqfunc =>
            w ← irqfunc_call irqfunc (entry (ls_devdata sc) slot) w;
            '(irqs, w) ← read_ctl_register CTLREG_IRQS w;
            dispatch n (slot + 1) irqs duds sc w
        end
  end.

(** The static counter [duds] is passed and returned. *)
Definition lamebus_interrupt (curspl duds : Z) (lamebus : option lamebus_softc) w : outcome (Z * W) :=
  kassert (curspl >? 0);;
  match lamebus with
  | None => Panic
  | Some sc =>
      '(irqs, w) ← read_ctl_register CTLREG_IRQS w;
      if irqs =? 0 then Done (s32 (duds + 1), w)
      else
        '(this_time, w) ← dispatch (Z.to_nat LB_NSLOTS) 0 irqs 0 sc w;
        let duds := s32 (duds + this_time) in
        let duds := if (this_time =? 0) && (duds >? 0) then 0 else duds in
        if duds >? 10000 then Panic else Done (duds, w)
  end.

(** The processor is halted afterwards. *)
Definition lamebus_poweroff w : outcome W := write_ctl_register CTLREG_PWR 0 w.
Definition lamebus_ramsize w : outcome (Z * W) := read_ctl_register CTLREG_RAMSZ w.

(** ** The timer *)

Definition LT_REG_SEC : Z := 0.
Definition LT_REG_NSEC : Z := 4.
Definition LT_REG_ROE : Z := 8.
Definition LT_REG_IRQ : Z := 12.
Definition LT_REG_COUNT : Z := 16.
Definition LT_REG_SPKR : Z := 20.
Definition LT_GRANULARITY : Z := 1000000.
Definition HZ : Z := 100.     (* 10000 with the option synchprobs *)

Record ltimer_softc := Ltimer { lt_hardclock : bool; lt_buspos : Z }.

(** [haveclock] is passed and returned. *)
Definition config_ltimer (haveclock : bool) (buspos : Z) w : outcome (ltimer_softc * bool * W) :=
  if negb haveclock then
    w ← lamebus_write_register buspos LT_REG_ROE 1 w;
    w ← lamebus_write_register buspos LT_REG_COUNT (LT_GRANULARITY `quot` HZ) w;
    Done (Ltimer true buspos, true, w)
  else Done (Ltimer false buspos, true, w).

(** [hardclock] is that of the thread system. *)
Definition ltimer_irq (hardclock : W → outcome W) (lt : ltimer_softc) w : outcome W :=
  '(val, w) ← lamebus_read_register (lt_buspos lt) LT_REG_IRQ w;
  if negb (val =? 0) && lt_hardclock lt then hardclock w else Done w.

Definition ltimer_beep (lt : ltimer_softc) w : outcome W := lamebus_write_register (lt_buspos lt) LT_REG_SPKR 440 w.

Definition ltimer_gettime (lt : ltimer_softc) w : outcome (Z * Z * W) :=
  '(secs1, w) ← lamebus_read_register (lt_buspos lt) LT_REG_SEC w;
  '(nsecs, w) ← lamebus_read_register (lt_buspos lt) LT_REG_NSEC w;
  '(secs2, w) ← lamebus_read_register (lt_buspos lt) LT_REG_SEC w;
  Done (if nsecs <? 5000000 then secs2 else secs1, nsecs, w).

(** rtclock: the clock the kernel uses. *)
Definition config_rtclock (the_clock : option ltimer_softc) (rtc : ltimer_softc) (unit : Z)
  : outcome (Z * option ltimer_softc) :=
  if negb (unit =? 0) then Done (ENODEV, the_clock)
  else kassert (bool_decide (the_clock = None));; Done (0, Some rtc).
Definition gettime (the_clock : option ltimer_softc) w : outcome (Z * Z * W) :=
  match the_clock with None => Panic | Some lt => ltimer_gettime lt w end.
End Bus.

(** ** What the bus promises

    [lines w] are the slots whose cards interrupt, as the controller's
    register shows them; [served] records the slots whose handlers were
    called; [config] is what the cards say of themselves. *)
Class BusLaws (W : Type) `{Bus W} := {
  lines : W → Z;
  served : W → list Z;
  config : Z → Z → Z;
  lines_range w : 0 ≤ lines w < 2 ^ 32;
  irqs_law w : ∃ w', read_ctl_register CTLREG_IRQS w = Done (lines w, w') ∧ lines w' = lines w ∧ served w' = served w;
  config_law slot reg w : 0 ≤ slot < LB_NSLOTS → reg ∈ [CFGREG_VID; CFGREG_DID; CFGREG_DRL] →
    ∃ w', read_cfg_register slot reg w = Done (config slot reg, w');
}.

Lemma masked_testbit x slot : 0 ≤ slot < LB_NSLOTS → masked x slot = Z.testbit x slot.
Proof.
  unfold LB_NSLOTS. intros Hs. unfold masked, slot_mask. rewrite Z.shiftl_1_l, u32_id.
  2:{ split; [lia|]. apply Z.pow_lt_mono_r; lia. }
  destruct (Z.testbit x slot) eqn:E.
  - apply negb_true_iff, Z.eqb_neq. intros E0. apply (f_equal (λ y, Z.testbit y slot)) in E0.
    rewrite Z.land_spec, Z.pow2_bits_true, E, Z.bits_0 in E0 by lia. done.
  - apply negb_false_iff, Z.eqb_eq, Z.bits_inj_0. intros i. rewrite Z.land_spec, Z.pow2_bits_eqb by lia.
    destruct (Z.eqb_spec slot i) as [->|]; [by rewrite E|by rewrite andb_false_r].
Qed.

(** A word of which no bit below 32 is set. *)
Lemma no_lines x : 0 ≤ x < 2 ^ 32 → (∀ i, 0 ≤ i < 32 → Z.testbit x i = false) → x = 0.
Proof.
  intros Hx Hb. apply Z.bits_inj_0. intros i. destruct (decide (i < 0)); [by apply Z.testbit_neg_r|].
  destruct (decide (i < 32)); [apply Hb; lia|]. rewrite <- (Z.mod_small x (2 ^ 32)) by done.
  apply Z.mod_pow2_bits_high. lia.
Qed.

Definition pending (irqs : Z) (l : list Z) : list Z := base.filter (λ slot, Z.testbit irqs slot = true) l.

Lemma pending_ext x y l : (∀ i, i ∈ l → Z.testbit x i = Z.testbit y i) → pending x l = pending y l.
Proof.
  unfold pending. induction l as [|i l IH]; intros E; [done|]. rewrite !filter_cons, IH by set_solver.
  by rewrite (E i) by set_solver.
Qed.

Section Interrupts.
Context {W : Type} `{BusLaws W}.
Implicit Types (w : W) (sc : lamebus_softc).

(** The handlers attached make their own card stop interrupting. *)
Definition drivers sc : Prop := ∀ slot f, 0 ≤ slot < LB_NSLOTS → entry (ls_irqfuncs sc) slot = Some f →
  ∀ w, ∃ w', irqfunc_call f (entry (ls_devdata sc) slot) w = Done w' ∧
    lines w' = Z.clearbit (lines w) slot ∧ served w' = served w ++ [slot].

(** Every card that interrupts has a driver with a handler. *)
Definition attached sc w : Prop := ∀ slot, 0 ≤ slot < LB_NSLOTS → Z.testbit (lines w) slot = true →
  Z.testbit (ls_slotsinuse sc) slot = true ∧ is_Some (entry (ls_irqfuncs sc) slot).

Lemma dispatch_run n slot sc w :
  drivers sc → attached sc w → 0 ≤ slot → slot + Z.of_nat n = LB_NSLOTS →
  ∃ w', dispatch n slot (lines w) 0 sc w = Done (0, w') ∧
    served w' = served w ++ pending (lines w) (seqZ slot (Z.of_nat n)) ∧
    ∀ i, Z.testbit (lines w') i = Z.testbit (lines w) i && negb ((slot <=? i) && (i <? LB_NSLOTS)).
Proof.
  intros Hdrv. revert slot w. induction n as [|n IH]; intros slot w Hatt Hs Hn; cbn [dispatch].
  { exists w. split; [done|]. cbn. rewrite app_nil_r. split; [done|]. intros i.
    replace ((slot <=? i) && (i <? LB_NSLOTS)) with false by lia. by rewrite andb_true_r. }
  assert (Hslot : 0 ≤ slot < LB_NSLOTS) by lia. rewrite !masked_testbit by done.
  rewrite seqZ_cons by lia. replace (Z.pred (Z.of_nat (S n))) with (Z.of_nat n) by lia. unfold pending. rewrite filter_cons.
  destruct (Z.testbit (lines w) slot) eqn:Hbit; cbn [negb]; cycle 1.
  { rewrite decide_False by done. destruct (IH (slot + 1) w Hatt) as (w' & -> & Hsv & Hl); [lia..|].
    exists w'. split; [done|]. split; [done|]. intros i. rewrite Hl. destruct (decide (i = slot)) as [->|]; [by rewrite Hbit|].
    f_equal. f_equal. lia. }
  rewrite decide_True by done. destruct (Hatt slot Hslot Hbit) as [-> [f Hf]]. cbn [negb]. rewrite Hf.
  destruct (Hdrv slot f Hslot Hf w) as (w1 & -> & Hl1 & Hs1). cbn [mbind outcome_bind].
  destruct (irqs_law w1) as (w2 & -> & Hl2 & Hs2). cbn [mbind outcome_bind]. rewrite <- Hl2.
  assert (Hbits : ∀ i, Z.testbit (lines w2) i = Z.testbit (lines w) i && negb (i =? slot)).
  { intros i. rewrite Hl2, Hl1. destruct (decide (0 ≤ i)); [|by rewrite !Z.testbit_neg_r by lia].
    rewrite Z.clearbit_eqb by lia. f_equal. f_equal. apply Z.eqb_sym. }
  destruct (IH (slot + 1) w2) as (w' & -> & Hsv & Hl); [|lia..|].
  { intros i Hi. rewrite Hbits. intros [Hb _]%andb_true_iff. by apply Hatt. }
  exists w'. split; [done|]. split.
  - rewrite Hsv, Hs2, Hs1, <- app_assoc. cbn [app]. do 2 f_equal. apply pending_ext. intros i Hi%elem_of_seqZ.
    rewrite Hbits. destruct (Z.eqb_spec i slot); [lia|]. by rewrite andb_true_r.
  - intros i. rewrite Hl, Hbits. destruct (Z.eqb_spec i slot) as [->|]; cbn [negb].
    + rewrite andb_false_r. by replace ((slot <=? slot) && (slot <? LB_NSLOTS)) with true by lia; rewrite andb_false_r.
    + rewrite andb_true_r. f_equal. f_equal. lia.
Qed.
End Interrupts.

(** ** Probing *)

Section Probe.
Context {W : Type} `{BusLaws W}.
Implicit Types (w : W) (sc : lamebus_softc).

(** A free slot with a card of the kind asked for. *)
Definition fits sc (vendorid deviceid lowver highver slot : Z) : Prop :=
  Z.testbit (ls_slotsinuse sc) slot = false ∧ config slot CFGREG_VID = vendorid ∧
  config slot CFGREG_DID = deviceid ∧ lowver ≤ config slot CFGREG_DRL ≤ highver.

Lemma read_config slot reg w (k : Z * W → outcome (Z * W)) (P : outcome (Z * W) → Prop) :
  0 ≤ slot < LB_NSLOTS → reg ∈ [CFGREG_VID; CFGREG_DID; CFGREG_DRL] →
  (∀ w', P (k (config slot reg, w'))) → P (mbind k (read_cfg_register slot reg w)).
Proof. intros Hs Hr Hk. destruct (config_law slot reg w Hs Hr) as (w' & ->). apply Hk. Qed.

Lemma probe_run n slot sc vid did low high w :
  0 ≤ slot → slot + Z.of_nat n = LB_NSLOTS →
  ∃ r w', probe_from n slot sc vid did low high w = Done (r, w') ∧
    (r = -1 ∧ (∀ i, slot ≤ i < LB_NSLOTS → ¬ fits sc vid did low high i) ∨
     slot ≤ r < LB_NSLOTS ∧ fits sc vid did low high r ∧ ∀ i, slot ≤ i < r → ¬ fits sc vid did low high i).
Proof.
  revert slot w. induction n as [|n IH]; intros slot w Hs Hn; cbn [probe_from].
  { exists (-1), w. split; [done|]. left. split; [done|]. lia. }
  assert (Hslot : 0 ≤ slot < LB_NSLOTS) by lia. rewrite masked_testbit by done.
  set (next := probe_from n (slot + 1) sc vid did low high).
  assert (Hnext : ¬ fits sc vid did low high slot → ∀ w, ∃ r w', next w = Done (r, w') ∧
    (r = -1 ∧ (∀ i, slot ≤ i < LB_NSLOTS → ¬ fits sc vid did low high i) ∨
     slot ≤ r < LB_NSLOTS ∧ fits sc vid did low high r ∧ ∀ i, slot ≤ i < r → ¬ fits sc vid did low high i)).
  { intros Hno w1. destruct (IH (slot + 1) w1) as (r & w' & Hrun & Hr); [lia..|]. exists r, w'. split; [done|].
    assert (Hall : ∀ i, slot ≤ i → i = slot ∨ slot + 1 ≤ i) by lia.
    destruct Hr as [[-> Hr]|(Hr1 & Hr2 & Hr3)]; [left|right].
    - split; [done|]. intros i Hi. destruct (Hall i) as [->|]; [lia|done|apply Hr; lia].
    - split; [lia|]. split; [done|]. intros i Hi. destruct (Hall i) as [->|]; [lia|done|apply Hr3; lia]. }
  destruct (Z.testbit (ls_slotsinuse sc) slot) eqn:Hu; [apply Hnext; unfold fits; naive_solver congruence|].
  apply read_config; [done|set_solver|]. intros w1. cbn beta iota.
  destruct (Z.eqb_spec (config slot CFGREG_VID) vid); cbn [negb]; [|apply Hnext; unfold fits; naive_solver].
  apply read_config; [done|set_solver|]. intros w2. cbn beta iota.
  destruct (Z.eqb_spec (config slot CFGREG_DID) did); cbn [negb]; [|apply Hnext; unfold fits; naive_solver].
  apply read_config; [done|set_solver|]. intros w3. cbn beta iota.
  destruct ((config slot CFGREG_DRL <? low) || (config slot CFGREG_DRL >? high)) eqn:Hv.
  - apply Hnext. unfold fits. intros (_ & _ & _ & ?). lia.
  - exists slot, w3. split; [done|]. right. split; [lia|]. unfold fits. split; [|lia]. split_and!; [done..|lia|lia].
Qed.
End Probe.

(** ** The clock *)

(** The registers of the timer: [clock] is the time in nanoseconds, which goes
    on while a register is read, by less than 2.5 milliseconds. *)
Class TimerLaws (W : Type) `{Bus W} (lt : ltimer_softc) := {
  clock : W → Z;
  clock_range w : 0 ≤ clock w < 10 ^ 9 * 2 ^ 32;
  sec_law w : ∃ w', lamebus_read_register (lt_buspos lt) LT_REG_SEC w = Done (clock w' / 10 ^ 9, w') ∧
    clock w ≤ clock w' < clock w + 2500000;
  nsec_law w : ∃ w', lamebus_read_register (lt_buspos lt) LT_REG_NSEC w = Done (clock w' mod 10 ^ 9, w') ∧
    clock w ≤ clock w' < clock w + 2500000;
}.

(** ** Properties *)

Section Claims.
Context {W : Type} `{BusLaws W}.
Implicit Types (w : W) (sc : lamebus_softc).


(** an interrupt that no card admits to only raises the count of duds:
    the test that is to stop the system after too many of them is not
    reached, whatever the count. *)
Theorem interrupt_stray curspl duds sc w :
  curspl > 0 → lines w = 0 →
  ∃ w', lamebus_interrupt curspl duds (Some sc) w = Done (s32 (duds + 1), w').
Proof.
  intros Hspl Hl. unfold lamebus_interrupt. replace (curspl >? 0) with true by lia. cbn [kassert mbind outcome_bind].
  destruct (irqs_law w) as (w1 & -> & _). cbn [mbind outcome_bind]. rewrite Hl. by exists w1.
Qed.

(** lamebus_probe returns the first free slot with a card of the vendor,
    device and revision asked for, and -1 if there is none. *)
Theorem probe_finds sc vendorid deviceid lowver highver w :
  ∃ r w', lamebus_probe sc vendorid deviceid lowver highver w = Done (r, w') ∧
    (r = -1 ∧ (∀ i, 0 ≤ i < LB_NSLOTS → ¬ fits sc vendorid deviceid lowver highver i) ∨
     0 ≤ r < LB_NSLOTS ∧ fits sc vendorid deviceid lowver highver r ∧
       ∀ i, 0 ≤ i < r → ¬ fits sc vendorid deviceid lowver highver i).
Proof. by apply probe_run. Qed.
End Claims.

