(* ===== verification/LamebusDemo.v ===== *)
(** * A small LAMEbus

    A disk in slot 3, a timer in slot 1 and handlers that clear the lines of
    their cards; the theorems of Lamebus are applied to it. *)

From S2P Require Import Prelude Lamebus.

Record simbus := Simbus { sb_lines : Z; sb_served : list Z; sb_time : Z }.

(** The address of the configuration space and the time at which the clock
    stops. *)
Definition CONFIG_BASE : Z := LB_BASEADDR + LB_CONTROLLER_SLOT * LB_SLOT_SIZE.
Definition LAST_TIME : Z := 10 ^ 18.
Definition TIMER_BASE : Z := LB_BASEADDR + LB_SLOT_SIZE.

Definition sim_config (slot reg : Z) : Z :=
  if slot =? 3 then (if reg =? CFGREG_VID then 1 else if reg =? CFGREG_DID then 3 else 2) else 0.

Definition sim_clock (b : simbus) : Z := Z.max 0 (Z.min LAST_TIME (sb_time b)).
Definition tick (b : simbus) : simbus := Simbus (sb_lines b) (sb_served b) (Z.min LAST_TIME (sim_clock b + 1000)).

Definition sim_read (a : Z) (b : simbus) : Z * simbus :=
  if a =? CONFIG_BASE + LB_CONTROLLER_SLOT * LB_CONFIG_SIZE + CTLREG_IRQS then (u32 (sb_lines b), b)
  else if a >=? CONFIG_BASE then
    (sim_config ((a - CONFIG_BASE) / LB_CONFIG_SIZE) ((a - CONFIG_BASE) mod LB_CONFIG_SIZE), b)
  else if a =? TIMER_BASE then (sim_clock (tick b) / 10 ^ 9, tick b)
  else (sim_clock (tick b) mod 10 ^ 9, tick b).

(** The handler of a slot is known by the number of the slot. *)
#[global] Instance sim_bus : Bus simbus := {
  mmio_read := sim_read;
  mmio_write _ _ b := b;
  irqfunc_call f _ b := Done (Simbus (Z.clearbit (u32 (sb_lines b)) f) (sb_served b ++ [f]) (sb_time b));
}.

Lemma u32_range' x : 0 ≤ u32 x < 2 ^ 32.
Proof. unfold u32. apply Z.mod_pos_bound. lia. Qed.

#[global] Instance sim_laws : BusLaws simbus.
Proof.
  refine {| lines b := u32 (sb_lines b); served := sb_served; config := sim_config |}.
  - intros b. apply u32_range'.
  - intros b. exists b. done.
  - intros slot reg b Hs Hr. exists b. unfold LB_NSLOTS in Hs.
    assert (Hreg : 0 ≤ reg < 16) by (unfold CFGREG_VID, CFGREG_DID, CFGREG_DRL in Hr; set_unfold; lia).
    unfold read_cfg_register, lamebus_read_register, lamebus_map_area. cbn [kassert mbind outcome_bind].
    change ((0 <=? LB_CONTROLLER_SLOT) && (LB_CONTROLLER_SLOT <? LB_NSLOTS)) with true. cbn [kassert mbind outcome_bind mmio_read sim_bus].
    unfold LB_CONFIG_SIZE. rewrite (u32_id (reg + _)) by lia. fold CONFIG_BASE.
    rewrite u32_id by (unfold CONFIG_BASE, LB_BASEADDR, LB_CONTROLLER_SLOT, LB_SLOT_SIZE; lia).
    unfold sim_read. change (CONFIG_BASE + LB_CONTROLLER_SLOT * LB_CONFIG_SIZE + CTLREG_IRQS) with (CONFIG_BASE + 32260).
    rewrite (proj2 (Z.eqb_neq _ _)) by lia. rewrite (proj2 (Z.geb_le _ _)) by lia. unfold LB_CONFIG_SIZE.
    replace (CONFIG_BASE + (reg + 1024 * slot) - CONFIG_BASE) with (slot * 1024 + reg) by lia.
    rewrite Z.div_add_l, Z.div_small, Z.add_0_r by lia.
    rewrite Z.add_comm, Z_mod_plus_full, Z.mod_small by lia. done.
Defined.

Definition sim_timer : ltimer_softc := Ltimer true 1.

Lemma sim_tick b : sim_clock b ≤ sim_clock (tick b) < sim_clock b + 2500000.
Proof. unfold tick, sim_clock, LAST_TIME. cbn [sb_time]. lia. Qed.

#[global] Instance sim_timer_laws : TimerLaws simbus sim_timer.
Proof.
  refine {| clock := sim_clock |}.
  - intros b. unfold sim_clock, LAST_TIME. lia.
  - intros b. exists (tick b). split; [reflexivity|apply sim_tick].
  - intros b. exists (tick b). split; [reflexivity|apply sim_tick].
Defined.

(** Slots 1 and 3 have drivers and interrupt. *)
Definition sim_softc : lamebus_softc :=
  Lamebus (Z.lor (slot_mask 31) 10) (replicate 32 None)
    (<[1%nat := Some 1]> (<[3%nat := Some 3]> (replicate 32 None))).
Definition sim_start : simbus := Simbus 10 [] 0.

Lemma sim_entry slot : 0 ≤ slot < LB_NSLOTS →
  entry (ls_irqfuncs sim_softc) slot = if (slot =? 1) || (slot =? 3) then Some slot else None.
Proof.
  unfold LB_NSLOTS. intros Hs. assert (Hn : (Z.to_nat slot < 32)%nat) by lia. rewrite <- (Z2Nat.id slot) by lia.
  clear Hs. revert Hn. generalize (Z.to_nat slot). intros n Hn. do 32 (destruct n as [|n]; [reflexivity|]). lia.
Qed.

Lemma sim_drivers : drivers sim_softc.
Proof.
  intros slot f Hs Hf w. rewrite sim_entry in Hf by done. destruct ((slot =? 1) || (slot =? 3)) eqn:E; [|done].
  injection Hf as <-. eexists. split; [reflexivity|]. split; [|done]. cbn [lines sim_laws sb_lines]. apply u32_id.
  pose proof (u32_range' (sb_lines w)) as Hr. rewrite Z.clearbit_spec'. 
  destruct (Z.ldiff_le (Z.ldiff (u32 (sb_lines w)) (2 ^ slot)) (u32 (sb_lines w))); [lia| |lia].
  apply Z.bits_inj_0. intros i. rewrite !Z.ldiff_spec. by destruct (Z.testbit _ i), (Z.testbit _ i).
Qed.


Lemma interrupt_stray_witness :
  ∃ w', lamebus_interrupt 15 20000 (Some sim_softc) (Simbus 0 [] 0) = Done (20001, w').
Proof. apply (interrupt_stray 15 20000 sim_softc (Simbus 0 [] 0)); reflexivity. Defined.

Lemma probe_finds_witness : ∃ w', lamebus_probe lamebus_init 1 3 1 5 sim_start = Done (3, w').
Proof.
  destruct (probe_finds lamebus_init 1 3 1 5 sim_start) as (r & w' & Hrun & _). exists w'. rewrite Hrun.
  vm_compute in Hrun. injection Hrun as <- _. reflexivity.
Defined.

