(* ===== verification/Pseudorand.v ===== *)
(** * The random device (kern/dev/generic: random.c, pseudorand.c;
      kern/dev/lamebus/lrandom.c)

    The kernel's source of random numbers is a card or the generator of Park
    and Miller.  The theorems about the latter: the division by parts computes
    16807 * seed mod 2^31 - 1 without overflow, and the generator goes through
    all 2^31 - 2 seeds before it repeats.  A read of random: fills the buffer
    with the bytes of successive numbers. *)

From Stdlib Require Import Zpow_facts Znumtheory.
From S2P Require Import Prelude Bytes Mem Uio.

Definition MULTIPLIER : Z := 16807.
Definition MODULUS : Z := 0x7fffffff.
Definition K1 : Z := 127773.
Definition K2 : Z := 2836.

(** A value of type int32_t. *)
Definition int32 (x : Z) : outcome Z := if (- 2 ^ 31 <=? x) && (x <? 2 ^ 31) then Done x else Fault.

(** The value returned and the new ps_seed. *)
Definition pseudorand_random (ps_seed : Z) : outcome (Z * Z) :=
  hi ← int32 (ps_seed / K1);
  lo ← int32 (ps_seed mod K1);
  x ← int32 (MULTIPLIER * lo);
  y ← int32 (K2 * hi);
  tmp ← int32 (x - y);
  tmp ← (if tmp <=? 0 then int32 (tmp + MODULUS) else Done tmp);
  Done (u32 (u32 tmp - 1), u32 tmp).

Definition pseudorand_randmax : Z := MODULUS - 2.
Definition pseudoattach_pseudorand : Z := 305824.

Definition inner_bytes (val : Z) : list Z :=
  [Z.shiftr (Z.land val 0xff0) 4; Z.shiftr (Z.land val 0xff000) 12; Z.shiftr (Z.land val 0xff00000) 20].

(** The loops of pseudorand_read and lrandom_read: a number, its bytes, and
    on until the buffer is full.  A turn moves at least a byte. *)
Section Read.
Context {S : Type} (number : S → outcome (Z * S)) (bytes : Z → list Z).

Fixpoint read_loop (n : nat) (s : S) (u : uio) (ue : uenv) : outcome (Z * S * uio * uenv) :=
  if uio_resid u >? 0 then
    match n with
    | O => Diverge
    | Datatypes.S n =>
        '(val, s) ← number s;
        '(result, _, u, ue) ← uiomove (bytes val) (Z.of_nat (length (bytes val))) u ue;
        if negb (result =? 0) then Done (result, s, u, ue) else read_loop n s u ue
    end
  else Done (0, s, u, ue).
End Read.

Definition pseudorand_read (ps_seed : Z) (u : uio) (ue : uenv) : outcome (Z * Z * uio * uenv) :=
  read_loop pseudorand_random inner_bytes (Z.to_nat (uio_resid u)) ps_seed u ue.

(** The card: reading its register gives the next number. *)
Class RandomCard (W : Type) := { LR_REG_RAND : W → Z * W }.
Definition LR_RANDMAX : Z := 0xffffffff.
Definition lrandom_random {W} `{RandomCard W} (w : W) : outcome (Z * W) := Done (LR_REG_RAND w).
Definition lrandom_read {W} `{RandomCard W} (w : W) (u : uio) (ue : uenv) : outcome (Z * W * uio * uenv) :=
  read_loop lrandom_random be32 (Z.to_nat (uio_resid u)) w u ue.

(** ** The generic device *)

Record random_softc (S : Type) := RandomSoftc {
  rs_devdata : S;
  rs_random : S → outcome (Z * S);
  rs_randmax : Z;
  rs_read : S → uio → uenv → outcome (Z * S * uio * uenv);
}.
Arguments RandomSoftc {S} _ _ _ _.
Arguments rs_devdata {S} _.
Arguments rs_random {S} _.
Arguments rs_randmax {S} _.
Arguments rs_read {S} _.

Definition attach_random_to_pseudorand (ps_seed : Z) : random_softc Z :=
  RandomSoftc ps_seed pseudorand_random pseudorand_randmax pseudorand_read.
Definition attach_random_to_lrandom {W} `{RandomCard W} (w : W) : random_softc W :=
  RandomSoftc w lrandom_random LR_RANDMAX lrandom_read.

Section Generic.
Context {S : Type}.
Implicit Types (rs : random_softc S) (the_random : option (random_softc S)).

Definition set_devdata (s : S) rs : random_softc S := RandomSoftc s (rs_random rs) (rs_randmax rs) (rs_read rs).

Definition randopen (openflags : Z) : Z := if negb (openflags =? 0) then EIO else 0.
Definition randio rs (u : uio) (ue : uenv) : outcome (Z * random_softc S * uio * uenv) :=
  if negb (bool_decide (uio_rw u = UIO_READ)) then Done (EIO, rs, u, ue)
  else
    '(result, s, u, ue) ← rs_read rs (rs_devdata rs) u ue;
    Done (result, set_devdata s rs, u, ue).

Definition random the_random : outcome (Z * option (random_softc S)) :=
  match the_random with
  | None => Panic
  | Some rs => '(val, s) ← rs_random rs (rs_devdata rs); Done (val, Some (set_devdata s rs))
  end.
Definition randmax the_random : outcome Z :=
  match the_random with None => Panic | Some rs => Done (rs_randmax rs) end.
End Generic.

(** ** The generator *)

Definition next_seed (x : Z) : Z := (MULTIPLIER * x) mod MODULUS.
Definition seed_ok (x : Z) : Prop := 1 ≤ x < MODULUS.

(** What is coprime to the modulus can be cancelled. *)
Lemma modulus_cancel a x : Z.gcd MODULUS a = 1 → (MODULUS | a * x) → (MODULUS | x).
Proof. intros Hg Hd. by apply (Z.gauss _ a). Qed.

Lemma next_seed_ok x : seed_ok x → seed_ok (next_seed x).
Proof.
  unfold seed_ok, next_seed. intros Hx. pose proof (Z.mod_pos_bound (MULTIPLIER * x) MODULUS ltac:(done)) as Hb.
  assert ((MULTIPLIER * x) mod MODULUS ≠ 0); [|lia]. intros E. apply Z.mod_divide in E; [|done].
  apply modulus_cancel in E; [|reflexivity]. apply Z.divide_pos_le in E; lia.
Qed.

Lemma int32_id x : - 2 ^ 31 ≤ x < 2 ^ 31 → int32 x = Done x.
Proof. intros. unfold int32. by replace ((- 2 ^ 31 <=? x) && (x <? 2 ^ 31)) with true by lia. Qed.

Lemma pseudorand_step x : seed_ok x → pseudorand_random x = Done (next_seed x - 1, next_seed x).
Proof.
  intros Hx. pose proof (next_seed_ok x Hx) as Hn. unfold seed_ok, next_seed in *. unfold MODULUS in Hx, Hn.
  unfold pseudorand_random, K1, K2, MULTIPLIER, MODULUS in *.
  set (hi := x / 127773). set (lo := x mod 127773).
  assert (Hd : x = 127773 * hi + lo ∧ 0 ≤ lo < 127773 ∧ 0 ≤ hi ≤ 16807).
  { unfold hi, lo. Z.to_euclidean_division_equations. lia. }
  destruct Hd as (Ex & Hlo & Hhi). rewrite !int32_id by lia. cbn [mbind outcome_bind].
  rewrite (int32_id (16807 * lo)) by lia. cbn [mbind outcome_bind].
  rewrite (int32_id (2836 * hi)) by lia. cbn [mbind outcome_bind].
  rewrite (int32_id (16807 * lo - _)) by lia. cbn [mbind outcome_bind].
  set (tmp := 16807 * lo - 2836 * hi).
  assert (Em : (16807 * x) mod 0x7fffffff = tmp mod 0x7fffffff).
  { rewrite Ex. replace (16807 * (127773 * hi + lo)) with (tmp + hi * 0x7fffffff) by (unfold tmp; lia). apply Z_mod_plus_full. }
  assert (Ht : - 0x7fffffff < tmp < 0x7fffffff) by (unfold tmp; lia).
  rewrite Em in *. destruct (Z.leb_spec tmp 0) as [Hle|Hgt].
  - rewrite int32_id by lia. cbn [mbind outcome_bind].
    assert (E : tmp mod 0x7fffffff = tmp + 0x7fffffff).
    { rewrite <- (Z_mod_plus_full tmp 1), Z.mul_1_l. apply Z.mod_small. destruct (decide (tmp = 0)) as [E0|]; [|lia].
      rewrite E0 in Hn. cbn in Hn. lia. }
    rewrite E in *. rewrite (u32_id (tmp + _)) by lia. by rewrite u32_id by lia.
  - cbn [mbind outcome_bind]. rewrite Z.mod_small in * by lia. rewrite (u32_id tmp) by lia. by rewrite u32_id by lia.
Qed.

(** ** The period

    16807 is a primitive root: its power [n] is 1 only when [n] is a multiple of
    2^31 - 2.  It is enough to look at the exponents (2^31 - 2) / p for the
    prime factors p. *)

Definition PERIOD : Z := MODULUS - 1.
Definition factors : list Z := [2; 3; 3; 7; 11; 31; 151; 331].

Definition power (n : Z) : Z := MULTIPLIER ^ n mod MODULUS.

Lemma power_mul x y : 0 ≤ x → 0 ≤ y → power x = 1 → power (x * y) = 1.
Proof.
  intros Hx Hy E. unfold power in *. rewrite Z.pow_mul_r, Zpower_mod, E, Z.pow_1_l by done. done.
Qed.

Lemma power_add x y : 0 ≤ x → 0 ≤ y → power x = 1 → power (x + y) = power y.
Proof.
  intros Hx Hy E. unfold power in *. rewrite Z.pow_add_r, <- Z.mul_mod_idemp_l, E, Z.mul_1_l by done. done.
Qed.

Lemma power_gcd x y : 0 < x → 0 < y → power x = 1 → power y = 1 → power (Z.gcd x y) = 1.
Proof.
  intros Hx Hy Ex Ey. destruct (Z.gcd_bezout x y (Z.gcd x y) eq_refl) as (u & v & E).
  set (t := Z.abs u + Z.abs v).
  assert (Hu : 0 ≤ u + t * y) by nia. assert (Hv : 0 ≤ t * x - v) by nia.
  assert (Eq : x * (u + t * y) = y * (t * x - v) + Z.gcd x y) by nia.
  rewrite <- (power_add (y * (t * x - v)) (Z.gcd x y)); [|nia|apply Z.gcd_nonneg|by apply power_mul; [lia| |]].
  rewrite <- Eq. by apply power_mul; [lia| |].
Qed.

(** No number below [p] divides it. *)
Definition no_divisor (p : Z) : bool := forallb (λ d, negb (p mod d =? 0)) (seqZ 2 (p - 2)).

Lemma coprime_factor p k : 1 < p → no_divisor p = true → ¬ (p | k) → Z.gcd k p = 1.
Proof.
  intros Hp Hno Hk. pose proof (Z.gcd_nonneg k p). pose proof (Z.gcd_divide_r k p) as Hr.
  pose proof (Z.divide_pos_le (Z.gcd k p) p ltac:(lia) Hr).
  assert (Z.gcd k p ≠ 0) by (intros E; apply Z.gcd_eq_0_r in E; lia).
  assert (Z.gcd k p ≠ p) by (intros E; apply Hk; rewrite <- E; apply Z.gcd_divide_l).
  destruct (decide (Z.gcd k p = 1)) as [|Hne]; [done|]. exfalso.
  unfold no_divisor in Hno. rewrite forallb_forall in Hno. specialize (Hno (Z.gcd k p)).
  rewrite (proj2 (Z.eqb_eq _ _)) in Hno; [|apply Z.mod_divide; [lia|done]].
  discriminate Hno. apply list_elem_of_In, elem_of_seqZ. lia.
Qed.

Lemma coprime_product k l : Forall (λ p, Z.gcd k p = 1) l → Z.gcd k (foldr Z.mul 1 l) = 1.
Proof.
  induction 1 as [|p l Hp _ IH]; [apply Z.gcd_1_r|]. cbn [foldr].
  by apply Z.coprime_mul_r.
Qed.

Lemma power_period : power PERIOD = 1.
Proof. unfold power. rewrite <- Zpow_mod_correct by done. vm_compute. reflexivity. Qed.

Lemma power_factor p : p ∈ factors → 1 < p ∧ no_divisor p = true ∧ power (PERIOD / p) ≠ 1.
Proof.
  intros Hp. unfold power. rewrite <- Zpow_mod_correct by done. unfold factors in Hp.
  repeat (apply elem_of_cons in Hp as [->|Hp]; [split; [lia|]; split; vm_compute; [reflexivity|discriminate]|]).
  by apply elem_of_nil in Hp.
Qed.

Lemma power_one n : 0 < n → power n = 1 → (PERIOD | n).
Proof.
  intros Hn E. set (g := Z.gcd n PERIOD). assert (HP : 0 < PERIOD) by done.
  assert (Eg : power g = 1) by (apply power_gcd; [done..|apply power_period]).
  pose proof (Z.gcd_divide_r n PERIOD) as [k Hk]. fold g in Hk.
  assert (Hg : 0 ≤ g) by apply Z.gcd_nonneg.
  assert (Hg0 : 0 < g).
  { destruct (decide (g = 0)) as [E0|]; [|lia]. rewrite E0, Z.mul_0_r in Hk. lia. }
  assert (Hk0 : 0 < k) by (apply (Z.mul_pos_cancel_r k g); lia).
  assert (Hc : Z.gcd k (foldr Z.mul 1 factors) = 1).
  { apply coprime_product. apply List.Forall_forall. intros p Hp%list_elem_of_In.
    destruct (power_factor p Hp) as (Hp1 & Hno & Hpow). apply coprime_factor; [done..|]. intros [j ->].
    apply Hpow. replace (PERIOD / p) with (g * j).
    - apply power_mul; [done|nia|done].
    - rewrite Hk. replace (j * p * g) with (g * j * p) by lia. by rewrite Z.div_mul by lia. }
  change (foldr Z.mul 1 factors) with PERIOD in Hc.
  assert (k = 1) as ->.
  { assert (Hd : (k | 1)) by (rewrite <- Hc; apply Z.gcd_greatest; [done|exists g; lia]).
    apply Z.divide_1_r_nonneg in Hd; lia. }
  exists (n / PERIOD). rewrite Z.mul_comm. apply Z.div_exact; [done|].
  apply Z.mod_divide; [done|]. replace PERIOD with g by lia. apply Z.gcd_divide_l.
Qed.

Lemma iter_next n x : seed_ok x → Nat.iter n next_seed x = (MULTIPLIER ^ Z.of_nat n * x) mod MODULUS.
Proof.
  intros Hx. induction n as [|n IH]; [cbn; unfold seed_ok in Hx; rewrite Z.mod_small; lia|].
  rewrite Nat.iter_succ, IH. unfold next_seed. rewrite Z.mul_mod_idemp_r by done.
  rewrite Nat2Z.inj_succ, Z.pow_succ_r by lia. f_equal. lia.
Qed.

(** [n] numbers one after the other. *)
Fixpoint numbers (n : nat) (s : Z) : outcome Z :=
  match n with O => Done s | S n => '(_, s) ← pseudorand_random s; numbers n s end.

Lemma numbers_run n s : seed_ok s → numbers n s = Done (Nat.iter n next_seed s).
Proof.
  revert s. induction n as [|n IH]; intros s Hs; [done|]. cbn [numbers]. rewrite pseudorand_step by done.
  cbn [mbind outcome_bind]. rewrite IH by by apply next_seed_ok. by rewrite Nat.iter_succ_r.
Qed.

(** The modulus is prime: nothing up to its square root divides it. *)
Fixpoint none_divides (n : nat) (d : Z) : bool :=
  match n with O => true | S n => negb (MODULUS mod d =? 0) && none_divides n (d + 1) end.

Lemma none_divides_spec n d e : none_divides n d = true → 0 < d → d ≤ e < d + Z.of_nat n → ¬ (e | MODULUS).
Proof.
  revert d. induction n as [|n IH]; intros d Hno Hpos He; [lia|]. cbn [none_divides] in Hno. apply andb_true_iff in Hno as [Hd Hno].
  destruct (decide (e = d)) as [->|]; [|apply (IH (d + 1)); [done|lia|lia]].
  intros Hdiv%Z.mod_divide; [|lia]. by rewrite Hdiv in Hd.
Qed.

Lemma small_divisor d : 1 < d ≤ 46341 → ¬ (d | MODULUS).
Proof. intros Hd. apply (none_divides_spec (Z.to_nat 46340) 2); [vm_compute; reflexivity|lia|lia]. Qed.

Lemma coprime_modulus s : 1 ≤ s < MODULUS → Z.gcd s MODULUS = 1.
Proof.
  intros Hs. pose proof (Z.gcd_nonneg s MODULUS) as Hn. pose proof (Z.gcd_divide_r s MODULUS) as Hr.
  pose proof (Z.divide_pos_le (Z.gcd s MODULUS) s ltac:(lia) (Z.gcd_divide_l _ _)) as Hle.
  set (g := Z.gcd s MODULUS) in *. destruct Hr as [k Hk].
  assert (HM : MODULUS = 2147483647) by done. assert (Hg0 : g ≠ 0) by (intros E; rewrite E in Hk; lia).
  destruct (decide (g = 1)) as [|Hg]; [done|]. exfalso. destruct (decide (g ≤ 46341)) as [Hsm|Hbig].
  - apply (small_divisor g); [lia|by exists k].
  - apply (small_divisor k); [|exists g; lia]. nia.
Qed.

Lemma iter_ok n s : seed_ok s → seed_ok (Nat.iter n next_seed s).
Proof. intros Hs. induction n as [|n IH]; [done|]. rewrite Nat.iter_succ. by apply next_seed_ok. Qed.

Lemma iter_same n s : seed_ok s → Nat.iter n next_seed s = s ↔ (PERIOD | Z.of_nat n).
Proof.
  intros Hs. rewrite iter_next by done. unfold seed_ok in Hs. split.
  - intros E. destruct (decide (n = 0%nat)) as [->|Hn]; [apply Z.divide_0_r|]. apply power_one; [lia|].
    assert (Hd : (MODULUS | s * (MULTIPLIER ^ Z.of_nat n - 1))).
    { apply Z.mod_divide; [done|]. rewrite Z.mul_sub_distr_l, Z.mul_1_r, Zminus_mod, Z.mul_comm, E.
      rewrite (Z.mod_small s) by lia. by rewrite Z.sub_diag. }
    apply Z.gauss in Hd.
    + unfold power. destruct Hd as [j Hj]. replace (MULTIPLIER ^ Z.of_nat n) with (1 + j * MODULUS) by lia.
      by rewrite Z_mod_plus_full.
    + rewrite Z.gcd_comm. apply coprime_modulus. exact Hs.
  - intros [j Hj]. rewrite <- Z.mul_mod_idemp_l by done. fold (power (Z.of_nat n)). rewrite Hj, (Z.mul_comm j).
    rewrite power_mul; [|unfold PERIOD, MODULUS; lia| |apply power_period].
    + rewrite Z.mul_1_l, Z.mod_small; lia.
    + assert (0 < PERIOD) by done. nia.
Qed.

(** ** Reading the device *)

(** A transfer of more bytes than there is room for fills the room. *)
Lemma uiomove_clip ptr n u ue :
  uio_ok u ue → iov_len u = uio_resid u → 0 < uio_resid u ≤ n →
  uiomove ptr n u ue = uiomove ptr (uio_resid u) u ue.
Proof.
  intros Hok Hl Hn. unfold uiomove. f_equal. cbn [uiomove_loop].
  rewrite (proj2 (Z.gtb_lt n 0)), (proj2 (Z.gtb_lt (uio_resid u) 0)) by lia. cbn [andb]. rewrite Hl.
  replace (uio_resid u >? n) with false by lia. replace (uio_resid u >? uio_resid u) with false by lia.
  destruct (uio_resid u =? 0); [done|]. destruct (uio_transfer _ _ _ _ _) as [[[[r p] b] e]| | |]; try done.
  cbn [mbind outcome_bind]. destruct (negb (r =? 0)); [done|]. cbn [uiomove_loop uio_step uio_resid].
  rewrite Z.sub_diag. cbn. by rewrite !andb_false_r.
Qed.

Section Reading.
Context {S : Type} (number : S → outcome (Z * S)) (bytes : Z → list Z) (next : S → Z * S) (ok : S → Prop).
Hypothesis Hnumber : ∀ s, ok s → number s = Done (next s) ∧ ok (next s).2.
Hypothesis Hbytes : ∀ x, (0 < length (bytes x))%nat.

(** The bytes of [n] numbers. *)
Fixpoint stream (n : nat) (s : S) : list Z :=
  match n with O => [] | Datatypes.S n => bytes (next s).1 ++ stream n (next s).2 end.

Lemma read_numbers_run n s u ue :
  ok s → uio_ok u ue → iov_len u = uio_resid u → uio_rw u = UIO_READ → (Z.to_nat (uio_resid u) ≤ n)%nat →
  ∃ s', let x := take (Z.to_nat (uio_resid u)) (stream n s) in
    read_loop number bytes n s u ue = Done (0, s', (deliver u ue x).1, (deliver u ue x).2) ∧ ok s'.
Proof.
  revert s u ue. induction n as [|n IH]; intros s u ue Hs Hu Hl Hrw Hn; cbn [read_loop].
  { destruct Hu as (Hr & Hu). replace (uio_resid u >? 0) with false by lia. replace (Z.to_nat (uio_resid u)) with 0%nat by lia.
    rewrite take_0, deliver_nil by (split; [lia|done]). by exists s. }
  pose proof Hu as ((Hr & _) & _). destruct (Z.gtb_spec (uio_resid u) 0) as [Hpos|Hz]; cycle 1.
  { replace (Z.to_nat (uio_resid u)) with 0%nat by lia. rewrite take_0, deliver_nil by done. by exists s. }
  destruct (Hnumber s Hs) as [-> Hok']. destruct (next s) as [val s1] eqn:En. cbn [fst snd mbind outcome_bind stream] in *. rewrite En. cbn [fst snd].
  specialize (Hbytes val) as Hb. set (d := bytes val) in *.
  destruct (decide (Z.of_nat (length d) ≤ uio_resid u)) as [Hfit|Hbig].
  - pose proof (uiomove_deliver d [] u ue Hu Hrw Hfit) as Hmv. rewrite app_nil_r in Hmv. rewrite Hmv. cbn [mbind outcome_bind negb Z.eqb].
    destruct (deliver_fields u ue d Hu Hfit) as (R1 & O1 & W1).
    assert (L1 : iov_len (deliver u ue d).1 = uio_resid (deliver u ue d).1).
    { rewrite R1. unfold deliver. destruct (iov u); cbn; lia. }
    destruct (IH s1 (deliver u ue d).1 (deliver u ue d).2) as (s' & Hrun & Hs'); [done|by apply deliver_ok|done|congruence|lia|].
    exists s'. split; [|done]. rewrite Hrun, R1. rewrite (take_app_ge d) by lia.
    replace (Z.to_nat (uio_resid u - Z.of_nat (length d))) with (Z.to_nat (uio_resid u) - length d)%nat by lia.
    rewrite deliver_app; [done|done|]. rewrite length_app, length_take. lia.
  - rewrite uiomove_clip by (done || lia). set (k := Z.to_nat (uio_resid u)).
    assert (Hd : d = take k d ++ drop k d) by (by rewrite take_drop).
    assert (Hk : uio_resid u = Z.of_nat (length (take k d))) by (rewrite length_take; lia).
    pose proof (uiomove_deliver (take k d) (drop k d) u ue Hu Hrw ltac:(lia)) as Hmv. rewrite <- Hd, <- Hk in Hmv. rewrite Hmv.
    cbn [mbind outcome_bind negb Z.eqb].
    destruct (deliver_fields u ue (take k d) Hu) as (R1 & _); [lia|]. exists s1. split; [|done].
    rewrite take_app_le by lia. fold d. destruct n; cbn [read_loop]; rewrite R1, <- Hk, Z.sub_diag; done.
Qed.
End Reading.

(** ** Properties *)

(** C30: pseudorand_random takes a seed to 16807 times the seed modulo 2^31 - 1
    without overflow and never leaves the seeds 1 to 2^31 - 2; and it goes
    through all of them: after [n] numbers the seed is the one it was before
    exactly when [n] is a multiple of 2^31 - 2. *)
Theorem pseudorand_full_period s n :
  seed_ok s →
  pseudorand_random s = Done (next_seed s - 1, next_seed s) ∧
  ∃ s', numbers n s = Done s' ∧ seed_ok s' ∧ (s' = s ↔ (PERIOD | Z.of_nat n)).
Proof.
  intros Hs. split; [by apply pseudorand_step|]. exists (Nat.iter n next_seed s).
  split_and!; [by apply numbers_run|by apply iter_ok..|by apply iter_same].
Qed.

Lemma pseudorand_full_period_witness : ∃ s', numbers 3 pseudoattach_pseudorand = Done s' ∧ seed_ok s' ∧ s' ≠ pseudoattach_pseudorand.
Proof.
  destruct (pseudorand_full_period pseudoattach_pseudorand 3) as (_ & s' & Hrun & Hok & Hper).
  - unfold seed_ok, pseudoattach_pseudorand, MODULUS. lia.
  - exists s'. split; [exact Hrun|]. split; [exact Hok|]. intros E. apply Hper in E. apply Z.divide_pos_le in E; [|lia].
    unfold PERIOD, MODULUS in E. lia.
Defined.

(** a read of random: fills the buffer with the inner bytes of successive
    numbers and succeeds. *)
Theorem pseudorand_read_fills s u ue :
  seed_ok s → uio_ok u ue → iov_len u = uio_resid u → uio_rw u = UIO_READ →
  ∃ s', let n := Z.to_nat (uio_resid u) in
    let x := take n (stream inner_bytes (λ s, (next_seed s - 1, next_seed s)) n s) in
    randio (attach_random_to_pseudorand s) u ue =
      Done (0, attach_random_to_pseudorand s', (deliver u ue x).1, (deliver u ue x).2) ∧ seed_ok s'.
Proof.
  intros Hs Hu Hl Hrw. unfold randio. rewrite bool_decide_true by done. cbn [negb rs_read rs_devdata attach_random_to_pseudorand].
  destruct (read_numbers_run pseudorand_random inner_bytes (λ s, (next_seed s - 1, next_seed s)) seed_ok) with
    (n := Z.to_nat (uio_resid u)) (s := s) (u := u) (ue := ue) as (s' & Hrun & Hs'); try done.
  - intros t Ht. split; [by apply pseudorand_step|by apply next_seed_ok].
  - intros x. cbn. lia.
  - exists s'. split; [|done]. unfold pseudorand_read. rewrite Hrun. done.
Qed.

Lemma pseudorand_read_fills_witness : ∃ s' u' ue',
  randio (attach_random_to_pseudorand pseudoattach_pseudorand) (mk_kuio (replicate 5 0) 5 0 UIO_READ) (Uenv ∅ None) =
    Done (0, attach_random_to_pseudorand s', u', ue') ∧ seed_ok s'.
Proof.
  destruct (pseudorand_read_fills pseudoattach_pseudorand (mk_kuio (replicate 5 0) 5 0 UIO_READ) (Uenv ∅ None)) as (s' & Hrun & Hs').
  - unfold seed_ok, pseudoattach_pseudorand, MODULUS. lia.
  - unfold uio_ok. cbn. rewrite s32_id by lia. split_and!; done || lia.
  - reflexivity.
  - reflexivity.
  - exists s'. do 2 eexists. split; [exact Hrun|exact Hs'].
Defined.
